(* ===== verification/_CoqProject ===== *)
-Q . S2P
Prelude.v
Bits.v
Mmu.v
Physmem.v
Kalloc.v
Pages.v
Slab.v
SlabSpec.v
SlabDepot.v
SlabReclaim.v
SlabAlloc.v
SlabFree.v
SlabCreate.v
SlabDestroy.v
SlabTop.v
Kmalloc.v
Pmap.v
Kstack.v
Dmap.v
Copy.v
Elf.v
Exec.v
ExecTop.v
Vectors.v
Proc.v
Klist.v
ProcMem.v
ProcLock.v
ProcSched.v
ProcIds.v
ProcInv.v
ProcFamily.v
ProcWait.v
ProcTop.v
Kmsg.v
Spinlock.v
Asid.v
Str.v
Fmt.v
Console.v
Printk.v
Syscall.v
Intr.v
Trap.v
Fdt.v
Dtb.v
Mmio.v
Gic.v
Uart.v
Port.v
Panic.v
Hart.v
Smp.v
