(* ===== verification/Prelude.v ===== *)
(** * AV6: a verification library

    AV6 is a small UNIX-like kernel for AArch64 multiprocessors, written in C with a few
    assembly files. This library models the kernel under src/ as Rocq definitions, written
    from the source file by file, and proves what makes each part correct. This file is the
    prelude (last section of this comment); the library is the files of _CoqProject in
    order.

    ** The program and its models

    Memory, from the bottom up. The device tree gives the RAM banks; what the kernel image
    and the firmware occupy is excluded; the rest becomes pages; pages become page tables,
    kernel stacks, slabs and process images.
    - Bits.v: include/sys/bitops.h, bitstring.h, cpumask.h. A bit array is a map of 64-bit
      words; [bit_test] is its abstract view.
    - Mmu.v: page geometry, descriptors and the address-space layout of include/arch/mmu.h
      and memlayout.h.
    - Physmem.v: vm/physmem.c. Region tables as arrays with counts; the specification is the
      set of addresses covered.
    - Kalloc.v: vm/kalloc.c and boot_alloc. The page array and the free list threaded
      through it; [PageReclaim] is what it asks of the slab allocator.
    - Pages.v: the classes [PageAlloc] and [PageAllocLaws], what vm/kalloc.c promises its
      clients, with the instance that discharges them.
    - Slab.v (the code), SlabSpec.v, SlabDepot.v, SlabReclaim.v, SlabAlloc.v, SlabFree.v,
      SlabCreate.v, SlabDestroy.v (lemmas), SlabTop.v (theorems): vm/slab.c, with magazines,
      depot and slabs. Kmalloc.v: vm/kmalloc.c on top of it.
    - Pmap.v: the user page tables of arch/pmap.c over a word memory. Kstack.v: its window of
      guarded kernel stacks. Dmap.v: kvminit and the direct map, with the walk the
      architecture makes of the result.
    - Copy.v: arch/copy.c with the loops of arch/copy_user.s.
    - Elf.v, Exec.v, ExecTop.v: kern/exec.c.

    Processes and CPUs.
    - Vectors.v: arch/vectors.s and arch/swtch.s as instruction lists with the semantics of
      the instructions they use; include/arch/assym.h against the structs.
    - Proc.v (the machine), ProcLock.v, ProcSched.v, ProcIds.v, ProcInv.v, ProcFamily.v,
      ProcWait.v (invariants), ProcTop.v (theorems): the concurrent side of kern/proc.c. All
      CPUs take turns; a step runs one CPU from one point where others can interfere to the
      next. Each CPU has its interrupt mask with the nesting of push_off and pop_off; the
      assertions on it, in sched, scheduler and the locks, are part of the steps.
      ProcMem.v: the memory side, allocproc, fork, exit, wait, userinit and kthread_add.
    - Klist.v: include/sys/list.h at pointer level, which justifies the lists used elsewhere.
    - Spinlock.v: kern/spinlock.c, split at its shared accesses. Asid.v: arch/asid.c, the
      rollover interleaved with the lockless fast path, and the TLBs as ghost state.
    - Intr.v: kern/intr.c and trap_irq, with the sleep of the interrupt threads and the
      wakeup that ends it. Trap.v: the other handlers of arch/trap.c.
      Syscall.v: kern/syscall.c and growproc; fork, exit, wait and kill are handed over, with
      their arguments, to the machine of Proc.v and to ProcMem.v.
    - Hart.v: kvminithart, mte_init and icache_sync_page as traces of register writes,
      barriers and cache operations. Smp.v: arch/timer.c and arch/smp.c.

    Devices and messages.
    - Str.v: libkern/string.c. Fmt.v: libkern/fmt.c. Kmsg.v: kern/kmsg.c. Console.v:
      dev/console.c. Printk.v: kern/printk.c, which composes Fmt, Kmsg and Console.
    - Fdt.v: libkern/fdt.c. Dtb.v: arch/dtb.c on it.
    - Mmio.v: the class of devices. Gic.v: arch/gic.c over a GICv3, whose routing
      registers take writes only with affinity routing on. Uart.v: dev/uart.c over a
      PL011. Port.v: the console's interrupt handler on that port, with the warnings it
      prints through Printk.v on a receive error.
    - Panic.v: kern/panic.c, as a machine of all CPUs with the two locks of the log.

    State is passed explicitly. A function that can stop the kernel returns [res] ([Ret] or
    [Panic]); in the machine of Proc.v a failing assertion is the outcome [Stop]. Integers are
    in Z, wrapped with [u64], [u32], [u16], [u8] or [s32] where the code's type wraps.
    Assertions (KASSERT) are modelled as armed, the default build.

    ** What the theorems show

    - Ownership of memory: physmem_avail publishes banks minus exclusions
      (Physmem.physmem_avail_difference); no page has two owners
      (Kalloc.kalloc_exclusive_ownership); no two objects of the slab allocator overlap
      after any calls that returned (SlabTop.slab_objects_never_overlap); stacks do not share pages
      and keep their guards (Kstack.kstack_window_safe).
    - Address spaces: kvminit maps exactly RAM and the devices (Dmap.kvminit_maps_exactly);
      uvmalloc, uvmcopy, uvmdealloc and uvmfree map, copy, unmap and free exactly what they
      should, empty tables included, or undo everything (Pmap.uvmcopy_duplicates and its
      siblings); exec of an image whose segments share no page replaces the whole image or
      changes nothing (ExecTop.exec_replaces_or_keeps); an ASID never hits
      another process's translations (Asid.asid_tlb_isolation).
    - Processes: a process is in one place and runs on one CPU (ProcTop.proc_in_one_place); no
      wakeup is lost (ProcTop.wakeup_not_lost); wait finds every dead child
      (ProcTop.wait_sees_every_zombie); no assertion of the scheduler or of a lock fails
      (ProcTop.proc_asserts_hold); fork copies or rolls back, and fork, exit and wait
      give all memory back but the tables of the stack window, which stay
      (ProcMem.fork_exit_wait_roundtrip); a context switch and a trap
      restore every register (Vectors.swtch_resumes, Vectors.user_trap_roundtrip), and a
      trap never stores outside the stack pages (Vectors.kernel_trap_guarded).
    - Locks and interrupts: mutual exclusion until a panic lets CPUs past the locks
      (Spinlock.spinlock_mutual_exclusion), every
      active interrupt has one party that will end it (Intr.intr_one_owner) and can always
      be brought to its end (Intr.intr_always_rearmed).
    - The border to user mode: every system call returns to the program or is one of the four
      handed over (Syscall.syscall_dispatch_total, under its bounds on the break and the
      images); no exception a program can raise stops the kernel (Trap.usertrap_contained);
      bytes cross it exactly, and no copy leaves user space (Copy.copyin_exact,
      Syscall.sys_write_exact).
    - Messages and devices: the rings implement the log (Kmsg.kmsg_add_implements_log), a
      printk comes out on the console (Printk.printk_reaches_console), typed bytes reach the
      reader and are echoed (Port.console_serves_port), the controller and each CPU end up
      configured (Gic.gic_init_configures_distributor, Hart.kvminithart_programs_cpu,
      Smp.smp_init_brings_up), a panic is reported by one CPU, not interleaved with others,
      and always gets out, whoever holds the locks of the log
      (Panic.panic_log_is_quiet, Panic.panic_message_gets_out).
    - The device tree is walked in document order (Fdt.fdt_walk_document_order); a hostile
      blob panics or stays in bounds (Fdt.fdt_hostile_blob_bounded).

    Some theorems show where the code falls short: Fmt.fmt_width_zero_misparsed,
    Fdt.fdt_value_length_wraps, Elf.loadelf_reads_outside, SlabTop.kmem_cache_free_oom_self_lock,
    Syscall.sbrk_past_top_panics, Gic.gic_wait_rwp_gives_up, Printk.long_line_ends_in_nul,
    ProcTop.wait_can_miss_kill and Panic.boot_cpu_not_waited_for. Where such a case would
    break a general theorem, the theorem has it as a hypothesis, and the comment above it says so.

    ** Bounds and fuel

    Loops over a counter or a list are structural. Elsewhere:
    - page tables have four levels, and a loop over pages has one turn per page (Pmap.v,
      Kstack.v: four pages per stack; Dmap.v: one turn per 4 KB at most); the theorems prove
      that the loops return, so the bound is enough;
    - the loops of kmem_cache_alloc and kmem_cache_free have four turns: the second pass finds
      what the first put there. Running out is a panic, which the theorems exclude;
    - Fdt.v and Dtb.v take one turn per byte of the structure block: every token moves at
      least four bytes, and the functions are shown to satisfy the equations of the loops
      of the source;
    - string loops (Str.v, Fmt.v) run to a NUL only the memory provides; their theorems say
      how much fuel a string of a given length needs;
    - waits on hardware (Gic.v, Uart.v, Smp.v, Panic.v) are looks at an environment that says
      how long the hardware takes; the theorems cover the waits that give up as well;
    - Hart.v's line loop has 1025 turns, for lines of four bytes, the smallest the
      architecture has;
    - 64-bit counters that wrap only after centuries (log sequence numbers, ASID
      generations) are assumed not to have, where the comment of the theorem says so.

    ** Not modelled

    - arch/entry.s and the linker script: they run before the C state exists. kern/main.c
      calls the initialisers in order; each is modelled over the state it initialises, and
      the theorem of one gives the hypotheses of the next where they share it.
    - The caches, write buffers and weak ordering of the hardware: steps of the machines are
      sequentially consistent, barriers appear only as trace entries of Hart.v and Vectors.v.
      TLBs appear in Asid.v; page-table operations leave their maintenance out.
    - Log lines of code other than printk, panic and the console's handler (physmem_print,
      dtb's and the drivers' reports), handle_stack_overflow (it only reports and panics), usertrapret (it ends in
      userret of Vectors.v), the fault reports of arch/trap.c.
    - The tag instructions of include/arch/mte.h (no path of the kernel uses them), the user
      programs under src/user, and the self-tests under src/tests.
    - What the linked program images, the firmware and the devices do is a parameter: images
      are any bytes, the firmware any answer, devices the registers their manuals describe.

    ** This file

    Words and their wrap-around, updates of maps ([f.[i <- x]]), the error monad [res], the
    notation for assertions, the tactics [words] and the case splits on boolean tests, and
    the lemmas the components share. *)

From Stdlib Require Import ZArith Lia FunctionalExtensionality.
From stdpp Require Export base gmap list strings.

#[export] Set Default Goal Selector "!".

Declare Scope av6_scope.
Delimit Scope av6_scope with av6.
#[global] Open Scope av6_scope.
#[global] Open Scope Z_scope.

(** ** Machine integers

    A w-bit unsigned integer is a [Z]; every C operation that can leave the
    range is followed by the truncation written here. *)

Definition u8 (x : Z) : Z := x mod 256.
Definition u16 (x : Z) : Z := x mod 65536.
Definition u32 (x : Z) : Z := x mod 4294967296.
Definition u64 (x : Z) : Z := x mod 18446744073709551616.

(** Two's complement reading of the low 16, 32 and 64 bits. *)
Definition s16 (x : Z) : Z := (x + 32768) mod 65536 - 32768.
Definition s32 (x : Z) : Z := (x + 2147483648) mod 4294967296 - 2147483648.
Definition s64 (x : Z) : Z :=
  (x + 9223372036854775808) mod 18446744073709551616 - 9223372036854775808.

(** [~x] on an [unsigned long]. *)
Definition not64 (x : Z) : Z := u64 (Z.lnot x).

(** ** Outcomes

    [panic] does not return, and a failing [KASSERT] calls it in the default
    build (AV6_INVARIANTS), so an operation that can reach one has an outcome. *)

Inductive res (A : Type) : Type :=
| Ret (a : A)
| Panic (msg : string).
Arguments Ret {A} a.
Arguments Panic {A} msg.

#[export] Instance res_ret : MRet res := fun A a => Ret a.
#[export] Instance res_bind : MBind res :=
  fun A B f m => match m with Ret a => f a | Panic s => Panic s end.

Definition res_map {A B} (f : A -> B) (m : res A) : res B :=
  match m with Ret a => Ret (f a) | Panic s => Panic s end.

Definition KASSERT (b : bool) (msg : string) : res unit :=
  if b then Ret tt else Panic msg.

Definition is_Ret {A} (r : res A) : Prop := exists a, r = Ret a.

(** ** Memory as a total map

    Static arrays and byte memory are total functions of the index; [upd] is
    one store. *)

Definition upd {A} (f : Z -> A) (i : Z) (x : A) : Z -> A :=
  fun j => if Z.eqb j i then x else f j.

Notation "m .[ i <- x ]" := (upd m i x)
  (at level 1, i at level 99, x at level 200, left associativity, format "m .[ i  <-  x ]") : av6_scope.
Notation "'kassert' b 'msg' s ;; k" := (mbind (M:=res) (fun _ : unit => k) (KASSERT b s))
  (at level 100, b at level 0, s at level 0, k at level 200, right associativity) : av6_scope.

(** ** Automation *)

Create HintDb av6.
Create Rewrite HintDb av6.
Create Rewrite HintDb words.

(** Unfold the truncations and decide with linear arithmetic. *)
Ltac words :=
  unfold not64, u8, u16, u32, u64, s16, s32, s64 in *;
  Z.div_mod_to_equations; lia.

(** Case split on every boolean comparison of the goal and keep the facts. *)
Ltac split_ifs :=
  repeat match goal with
  | |- context [if ?b then _ else _] => let E := fresh "E" in destruct b eqn:E
  | H : context [if ?b then _ else _] |- _ => let E := fresh "E" in destruct b eqn:E
  end.

Ltac zbool :=
  repeat match goal with
  | H : andb _ _ = true |- _ => apply andb_true_iff in H; destruct H
  | H : orb _ _ = false |- _ => apply orb_false_iff in H; destruct H
  | H : andb _ _ = false |- _ => apply andb_false_iff in H
  | H : orb _ _ = true |- _ => apply orb_true_iff in H
  | H : negb _ = true |- _ => apply negb_true_iff in H
  | H : negb _ = false |- _ => apply negb_false_iff in H
  | H : (_ <? _) = true |- _ => apply Z.ltb_lt in H
  | H : (_ <? _) = false |- _ => apply Z.ltb_ge in H
  | H : (_ <=? _) = true |- _ => apply Z.leb_le in H
  | H : (_ <=? _) = false |- _ => apply Z.leb_gt in H
  | H : (_ =? _) = true |- _ => apply Z.eqb_eq in H
  | H : (_ =? _) = false |- _ => apply Z.eqb_neq in H
  | H : (_ >? _) = _ |- _ => rewrite Z.gtb_ltb in H
  | H : (_ >=? _) = _ |- _ => rewrite Z.geb_leb in H
  end.

(** ** Lemmas on words *)

Lemma u64_small x : 0 <= x < 18446744073709551616 -> u64 x = x.
Proof. intros. unfold u64. by apply Z.mod_small. Qed.

Lemma u32_small x : 0 <= x < 4294967296 -> u32 x = x.
Proof. intros. unfold u32. by apply Z.mod_small. Qed.

Lemma u16_small x : 0 <= x < 65536 -> u16 x = x.
Proof. intros. unfold u16. by apply Z.mod_small. Qed.

Lemma u8_small x : 0 <= x < 256 -> u8 x = x.
Proof. intros. unfold u8. by apply Z.mod_small. Qed.

Lemma u64_range x : 0 <= u64 x < 18446744073709551616.
Proof. unfold u64. apply Z.mod_pos_bound. lia. Qed.

Lemma u32_range x : 0 <= u32 x < 4294967296.
Proof. unfold u32. apply Z.mod_pos_bound. lia. Qed.

Lemma upd_eq {A} (f : Z -> A) i x : f.[i <- x] i = x.
Proof. unfold upd. by rewrite Z.eqb_refl. Qed.

Lemma upd_ne {A} (f : Z -> A) i j x : j <> i -> f.[i <- x] j = f j.
Proof. intros. unfold upd. destruct (Z.eqb_spec j i); [lia | done]. Qed.

Lemma upd_upd {A} (f : Z -> A) i x y : f.[i <- x].[i <- y] = f.[i <- y].
Proof. apply functional_extensionality. intros j. unfold upd. by destruct (Z.eqb j i). Qed.

Lemma upd_same {A} (f : Z -> A) i : f.[i <- f i] = f.
Proof. apply functional_extensionality. intros j. unfold upd. by destruct (Z.eqb_spec j i) as [-> |]. Qed.

Lemma upd_comm {A} (f : Z -> A) i j x y : i <> j -> f.[i <- x].[j <- y] = f.[j <- y].[i <- x].
Proof.
  intros H. apply functional_extensionality. intros k. unfold upd.
  destruct (Z.eqb_spec k i), (Z.eqb_spec k j); congruence.
Qed.

#[export] Hint Rewrite @upd_eq : av6.
#[export] Hint Rewrite @upd_ne using lia : av6.
#[export] Hint Rewrite u64_small u32_small u16_small u8_small using lia : words.

(** Clearing the low [k] bits of a 64-bit word rounds it down. *)
Lemma land_lnot_ones x k :
  0 <= k -> Z.land x (Z.lnot (Z.ones k)) = x / 2 ^ k * 2 ^ k.
Proof.
  intros Hk. rewrite <- Z.ldiff_land, Z.ldiff_ones_r, Z.shiftl_mul_pow2 by lia.
  by rewrite Z.shiftr_div_pow2 by lia.
Qed.

Lemma land_u64 x y : 0 <= x < 18446744073709551616 -> Z.land x (u64 y) = Z.land x y.
Proof.
  intros Hx. unfold u64. change 18446744073709551616 with (2 ^ 64).
  rewrite <- Z.land_ones by lia.
  rewrite (Z.land_comm y), Z.land_assoc, Z.land_ones by lia.
  by rewrite Z.mod_small by lia.
Qed.

Lemma testbit_high x k i : 0 <= x < 2 ^ k -> 0 <= k <= i -> Z.testbit x i = false.
Proof.
  intros Hx Hk. rewrite <- (Z.mod_small x (2 ^ k)) by lia.
  apply Z.mod_pow2_bits_high. lia.
Qed.

(** Or-ing a value below [2^k] into a multiple of [2^k] adds it. *)
Lemma lor_low k a b : 0 <= k -> 0 <= b < 2 ^ k -> Z.lor (a * 2 ^ k) b = a * 2 ^ k + b.
Proof.
  intros Hk Hb. pose proof (Z.add_lor_land (a * 2 ^ k) b) as H.
  assert (Z.land (a * 2 ^ k) b = 0) as E; [| lia].
  apply Z.bits_inj'. intros i Hi. rewrite Z.land_spec, Z.bits_0.
  destruct (Z.lt_ge_cases i k).
  - rewrite <- Z.shiftl_mul_pow2, Z.shiftl_spec_low by lia. done.
  - rewrite (testbit_high b k i) by lia. apply andb_false_r.
Qed.

(** Masking a field of [w] bits at position [lo] keeps its value in place. *)
Lemma land_field x lo w :
  0 <= lo -> 0 <= w -> Z.land x (Z.shiftl (Z.ones w) lo) = (x / 2 ^ lo) mod 2 ^ w * 2 ^ lo.
Proof.
  intros Hlo Hw. rewrite <- Z.land_ones, <- Z.shiftr_div_pow2, <- Z.shiftl_mul_pow2 by lia.
  apply Z.bits_inj'. intros i Hi. rewrite Z.land_spec.
  destruct (Z.lt_ge_cases i lo).
  - rewrite !Z.shiftl_spec_low by lia. apply andb_false_r.
  - rewrite !Z.shiftl_spec, Z.land_spec, Z.shiftr_spec by lia. f_equal. f_equal. lia.
Qed.

(** ** Intrusive lists

    A list of include/sys/list.h is the sequence of its elements; LIST_REMOVE takes a
    distinct element out. *)

Definition without (x : Z) (l : list Z) : list Z := filter (fun y => y <> x) l.

Lemma without_notin x l : x ∉ l -> without x l = l.
Proof.
  intros H. unfold without. induction l as [| y l IH]; [done |]. rewrite filter_cons.
  rewrite not_elem_of_cons in H. destruct H as [H1 H2]. rewrite decide_True by congruence. by rewrite IH.
Qed.

Lemma elem_of_without x y l : y ∈ without x l <-> y <> x /\ y ∈ l.
Proof. unfold without. by rewrite list_elem_of_filter. Qed.

Lemma without_app x l1 l2 : without x (l1 ++ l2) = without x l1 ++ without x l2.
Proof. unfold without. apply filter_app. Qed.

Lemma without_head x l : x ∉ l -> without x (x :: l) = l.
Proof.
  intros H. unfold without. rewrite filter_cons, decide_False by congruence. by apply without_notin.
Qed.

Lemma without_perm x l : NoDup l -> x ∈ l -> l ≡ₚ x :: without x l.
Proof.
  intros Hnd Hx. induction l as [| y l IH]; [by apply elem_of_nil in Hx |].
  apply NoDup_cons in Hnd as [Hy Hnd]. destruct (decide (y = x)) as [-> |].
  - by rewrite without_head.
  - apply elem_of_cons in Hx as [-> | Hx]; [done |]. unfold without in *. rewrite filter_cons, decide_True by done. rewrite (IH Hnd Hx) at 1. apply Permutation_swap.
Qed.

#[export] Instance without_proper x : Proper ((≡ₚ) ==> (≡ₚ)) (without x).
Proof. intros l l' H. unfold without. by rewrite H. Qed.
