(* ===== verification/Bits.v ===== *)
(** * Bit masks, bit arrays and CPU sets

    Models include/sys/bitops.h, include/sys/bitstring.h and
    include/sys/cpumask.h. A bit array is the total map from word index to the
    64-bit word; [bit_test] is its abstract view, a set of bit numbers. *)

From S2P Require Import Prelude.

(** ** bitops.h *)

Definition BITS_PER_LONG : Z := 64.

Definition BIT (n : Z) : Z := u64 (Z.shiftl 1 n).

(** [((~0UL << l) & (~0UL >> (BITS_PER_LONG - 1 - h)))] *)
Definition GENMASK (h l : Z) : Z :=
  Z.land (u64 (Z.shiftl (not64 0) l)) (Z.shiftr (not64 0) (BITS_PER_LONG - 1 - h)).

(** ** bitstring.h *)

Definition BITSTR_T_BITS : Z := 64.

Definition BITSTR_NWORDS (n : Z) : Z := (n + BITSTR_T_BITS - 1) / BITSTR_T_BITS.

Definition BIT_IDX (b : Z) : Z := b / BITSTR_T_BITS.
Definition BIT_MASK (b : Z) : Z := Z.shiftl 1 (b mod BITSTR_T_BITS).

(** An array of [bitstr_t], one 64-bit word per index. *)
Definition bitstr : Type := Z -> Z.

Definition bit_set (a : bitstr) (b : Z) : bitstr :=
  a.[BIT_IDX b <- Z.lor (a (BIT_IDX b)) (BIT_MASK b)].

Definition bit_clear (a : bitstr) (b : Z) : bitstr :=
  a.[BIT_IDX b <- Z.land (a (BIT_IDX b)) (not64 (BIT_MASK b))].

Definition bit_test (a : bitstr) (b : Z) : bool :=
  negb (Z.land (a (BIT_IDX b)) (BIT_MASK b) =? 0).

(** [__builtin_ctzll]: the index of the lowest set bit of a non-zero word (the
    builtin is undefined at 0, where this returns 0 and is never called). *)
Fixpoint pos_ctz (p : positive) : Z :=
  match p with
  | xO q => 1 + pos_ctz q
  | _ => 0
  end.

Definition ctzll (x : Z) : Z := match x with Zpos p => pos_ctz p | _ => 0 end.

(** The [for] loop of [bit_ffc] from word [w], [n] words left. *)
Fixpoint bit_ffc_loop (n : nat) (a : bitstr) (nbits w : Z) : Z :=
  match n with
  | O => -1
  | S n' =>
      let free := not64 (a w) in
      if negb (free =? 0) then
        let bit := w * BITSTR_T_BITS + ctzll free in
        if bit <? nbits then bit else -1
      else bit_ffc_loop n' a nbits (w + 1)
  end.

Definition bit_ffc (a : bitstr) (nbits : Z) : Z :=
  bit_ffc_loop (Z.to_nat (BITSTR_NWORDS nbits)) a nbits 0.

(** ** cpumask.h *)

(** NCPU_MAX of the generated av6_config.h (Makefile default). *)
Definition NCPU_MAX : Z := 32.

Record cpumask := { cm_bits : bitstr }.

Fixpoint cpumask_zero_loop (n : nat) (i : Z) (a : bitstr) : bitstr :=
  match n with
  | O => a
  | S n' => cpumask_zero_loop n' (i + 1) (a.[i <- 0])
  end.

Definition cpumask_zero (m : cpumask) : cpumask :=
  {| cm_bits := cpumask_zero_loop (Z.to_nat (BITSTR_NWORDS NCPU_MAX)) 0 (cm_bits m) |}.

Definition cpumask_set (m : cpumask) (cpu : Z) : cpumask :=
  {| cm_bits := bit_set (cm_bits m) cpu |}.

Definition cpumask_clear (m : cpumask) (cpu : Z) : cpumask :=
  {| cm_bits := bit_clear (cm_bits m) cpu |}.

Definition cpumask_test (m : cpumask) (cpu : Z) : bool := bit_test (cm_bits m) cpu.

(** Every word of the array is a 64-bit word. *)
Definition bitstr_wf (a : bitstr) : Prop := forall i, 0 <= a i < 2 ^ 64.

(** ** Lemmas *)

Lemma land_shiftl_1 x k :
  0 <= k -> negb (Z.land x (Z.shiftl 1 k) =? 0) = Z.testbit x k.
Proof.
  intros Hk. destruct (Z.testbit x k) eqn:E.
  - apply negb_true_iff, Z.eqb_neq. intros H0.
    assert (Z.testbit (Z.land x (Z.shiftl 1 k)) k = false) as Hf
      by (rewrite H0; apply Z.bits_0).
    rewrite Z.land_spec, E, Z.shiftl_spec, Z.sub_diag in Hf by lia. done.
  - apply negb_false_iff, Z.eqb_eq. apply Z.bits_inj'. intros i Hi.
    rewrite Z.bits_0, Z.land_spec, Z.shiftl_spec by lia.
    destruct (Z.eq_dec i k) as [-> | Hne]; [by rewrite E |].
    replace (Z.testbit 1 (i - k)) with false; [apply andb_false_r |].
    destruct (Z.lt_ge_cases i k).
    + by rewrite Z.testbit_neg_r by lia.
    + symmetry. apply (testbit_high 1 1); lia.
Qed.

Lemma bit_test_spec a b :
  0 <= b -> bit_test a b = Z.testbit (a (b / 64)) (b mod 64).
Proof.
  intros Hb. unfold bit_test, BIT_IDX, BIT_MASK, BITSTR_T_BITS.
  apply land_shiftl_1. apply Z.mod_pos_bound. lia.
Qed.

Lemma testbit_1_sub i k : Z.testbit (Z.shiftl 1 k) i = (0 <=? i) && (i =? k).
Proof.
  destruct (Z.leb_spec 0 i); [| by rewrite Z.testbit_neg_r by lia].
  rewrite Z.shiftl_spec by lia. cbn [andb].
  destruct (Z.eqb_spec i k) as [-> |]; [by rewrite Z.sub_diag |].
  destruct (Z.lt_ge_cases i k); [by rewrite Z.testbit_neg_r by lia |].
  apply (testbit_high 1 1); lia.
Qed.

Lemma same_bit b c : (c / 64 =? b / 64) && (c mod 64 =? b mod 64) = (c =? b).
Proof.
  destruct (Z.eqb_spec c b) as [-> |]; [by rewrite !Z.eqb_refl |].
  apply andb_false_iff. rewrite !Z.eqb_neq.
  destruct (Z.eq_dec (c / 64) (b / 64)) as [E | E]; [right | by left].
  intros E'. apply n. rewrite (Z.div_mod c 64), (Z.div_mod b 64) by lia. by rewrite E, E'.
Qed.

Lemma bit_test_set a b c :
  0 <= b -> 0 <= c -> bit_test (bit_set a b) c = (c =? b) || bit_test a c.
Proof.
  intros Hb Hc. rewrite !bit_test_spec by done.
  rewrite <- (same_bit b c).
  unfold bit_set, BIT_IDX, BIT_MASK, BITSTR_T_BITS, upd.
  destruct (Z.eqb_spec (c / 64) (b / 64)) as [E | E]; cbn [andb orb]; [| done].
  rewrite Z.lor_spec, testbit_1_sub, E.
  assert (0 <= c mod 64) by (apply Z.mod_pos_bound; lia).
  rewrite (proj2 (Z.leb_le _ _)) by done. apply orb_comm.
Qed.

Lemma testbit_not64 x i : 0 <= i < 64 -> Z.testbit (not64 x) i = negb (Z.testbit x i).
Proof.
  intros Hi. unfold not64, u64. change 18446744073709551616 with (2 ^ 64).
  rewrite Z.mod_pow2_bits_low, Z.lnot_spec by lia. done.
Qed.

Lemma bit_test_clear a b c :
  0 <= b -> 0 <= c -> bit_test (bit_clear a b) c = negb (c =? b) && bit_test a c.
Proof.
  intros Hb Hc. rewrite !bit_test_spec by done.
  rewrite <- (same_bit b c).
  unfold bit_clear, BIT_IDX, BIT_MASK, BITSTR_T_BITS, upd.
  destruct (Z.eqb_spec (c / 64) (b / 64)) as [E | E]; cbn [andb negb]; [| done].
  assert (0 <= c mod 64 < 64) by (apply Z.mod_pos_bound; lia).
  rewrite Z.land_spec, testbit_not64, testbit_1_sub, E by lia.
  rewrite (proj2 (Z.leb_le _ _)) by lia. apply andb_comm.
Qed.

Lemma bit_set_wf a b : 0 <= b -> bitstr_wf a -> bitstr_wf (bit_set a b).
Proof.
  intros Hb Ha i. unfold bit_set, upd. destruct (Z.eqb i (BIT_IDX b)); [| apply Ha].
  pose proof (Ha (BIT_IDX b)) as Hw. unfold BIT_MASK, BITSTR_T_BITS.
  assert (0 <= b mod 64 < 64) by (apply Z.mod_pos_bound; lia).
  assert (0 <= Z.shiftl 1 (b mod 64)) by (apply Z.shiftl_nonneg; lia).
  split; [apply Z.lor_nonneg; lia |].
  assert (Hm : Z.lor (a (BIT_IDX b)) (Z.shiftl 1 (b mod 64)) mod 2 ^ 64
               = Z.lor (a (BIT_IDX b)) (Z.shiftl 1 (b mod 64))).
  { apply Z.bits_inj'. intros j Hj. destruct (Z.lt_ge_cases j 64).
    - by rewrite Z.mod_pow2_bits_low by lia.
    - rewrite Z.mod_pow2_bits_high, Z.lor_spec, (testbit_high _ 64), testbit_1_sub by lia.
      destruct (Z.eqb_spec j (b mod 64)); [lia | by rewrite andb_false_r]. }
  rewrite <- Hm. apply Z.mod_pos_bound. lia.
Qed.

Lemma bit_clear_wf a b : bitstr_wf a -> bitstr_wf (bit_clear a b).
Proof.
  intros Ha i. unfold bit_clear, upd. destruct (Z.eqb i (BIT_IDX b)); [| apply Ha].
  pose proof (Ha (BIT_IDX b)) as Hw. split; [apply Z.land_nonneg; lia |].
  apply Z.le_lt_trans with (a (BIT_IDX b)); [| lia].
  apply Z.ldiff_le; [lia |]. rewrite Z.ldiff_land, <- Z.land_assoc.
  rewrite (Z.land_comm _ (Z.lnot _)), Z.land_assoc.
  by rewrite Z.land_lnot_diag, Z.land_0_l.
Qed.

(** Clearing a bit just set gives the array back. *)
Lemma bit_clear_set a b : 0 <= b -> bitstr_wf a -> bit_test a b = false -> bit_clear (bit_set a b) b = a.
Proof.
  intros Hb Ha Ht. unfold bit_clear. unfold bit_set at 1 2. rewrite upd_eq, upd_upd.
  rewrite <- (upd_same a (BIT_IDX b)) at 3. f_equal. rewrite bit_test_spec in Ht by done.
  unfold BIT_IDX, BIT_MASK, BITSTR_T_BITS. assert (0 <= b mod 64 < 64) by (apply Z.mod_pos_bound; lia).
  apply Z.bits_inj'. intros i Hi. rewrite Z.land_spec, Z.lor_spec, testbit_1_sub.
  destruct (Z.lt_ge_cases i 64).
  - rewrite testbit_not64, testbit_1_sub by lia. destruct (Z.eqb_spec i (b mod 64)) as [-> |];
      [by rewrite Ht, (proj2 (Z.leb_le 0 _)) | by rewrite andb_false_r, orb_false_r, andb_true_r].
  - rewrite (testbit_high (a (b / 64)) 64) by (apply Ha || lia). destruct (Z.eqb_spec i (b mod 64)); [lia |]. by rewrite andb_false_r.
Qed.

Lemma pos_ctz_nonneg p : 0 <= pos_ctz p.
Proof. induction p; cbn [pos_ctz]; lia. Qed.

Lemma pos_ctz_spec p :
  Z.testbit (Zpos p) (pos_ctz p) = true /\
  forall i, 0 <= i < pos_ctz p -> Z.testbit (Zpos p) i = false.
Proof.
  induction p as [p IH | p IH |]; cbn [pos_ctz].
  - split; [done | lia].
  - pose proof (pos_ctz_nonneg p). destruct IH as [IH1 IH2].
    rewrite (Pos2Z.inj_xO p). split.
    + replace (1 + pos_ctz p) with (Z.succ (pos_ctz p)) by lia.
      by rewrite Z.testbit_even_succ by lia.
    + intros i Hi. destruct (Z.eq_dec i 0) as [-> |]; [apply Z.testbit_even_0 |].
      replace i with (Z.succ (i - 1)) by lia.
      rewrite Z.testbit_even_succ by lia. apply IH2. lia.
  - split; [done | lia].
Qed.

Lemma ctzll_spec x :
  0 < x < 2 ^ 64 ->
  0 <= ctzll x < 64 /\ Z.testbit x (ctzll x) = true /\
  forall i, 0 <= i < ctzll x -> Z.testbit x i = false.
Proof.
  intros Hx. destruct x as [| p | p]; [lia | | lia]. cbn [ctzll].
  destruct (pos_ctz_spec p) as [H1 H2]. pose proof (pos_ctz_nonneg p).
  split; [| done]. split; [done |].
  destruct (Z.lt_ge_cases (pos_ctz p) 64); [done |].
  rewrite (testbit_high _ 64) in H1 by lia. done.
Qed.

Lemma not64_range x : 0 <= not64 x < 2 ^ 64.
Proof. apply u64_range. Qed.

Lemma not64_zero x : 0 <= x < 2 ^ 64 -> not64 x = 0 -> forall i, 0 <= i < 64 -> Z.testbit x i = true.
Proof.
  intros Hx H0 i Hi. apply (f_equal (fun z => Z.testbit z i)) in H0.
  rewrite testbit_not64, Z.bits_0 in H0 by lia. by apply negb_false_iff in H0.
Qed.

(** The loop invariant of [bit_ffc]: every bit below word [w] is set. *)
Lemma bit_ffc_loop_spec n a nbits w :
  bitstr_wf a -> 0 <= w -> w + Z.of_nat n = BITSTR_NWORDS nbits ->
  (forall i, 0 <= i < w * 64 -> bit_test a i = true) ->
  let r := bit_ffc_loop n a nbits w in
  (r = -1 /\ forall i, 0 <= i < nbits -> bit_test a i = true) \/
  (0 <= r < nbits /\ bit_test a r = false /\ forall i, 0 <= i < r -> bit_test a i = true).
Proof.
  intros Ha. revert w. unfold BITSTR_NWORDS, BITSTR_T_BITS.
  induction n as [| n IH]; intros w Hw Hn Hbelow; cbn [bit_ffc_loop].
  - left. split; [done |]. intros i Hi. apply Hbelow. Z.div_mod_to_equations. lia.
  - unfold BITSTR_T_BITS.
    assert (Hword : forall i, w * 64 <= i < w * 64 + 64 -> i / 64 = w /\ i mod 64 = i - w * 64)
      by (intros i Hi; Z.div_mod_to_equations; lia).
    destruct (Z.eqb_spec (not64 (a w)) 0) as [E | E]; cbn [negb].
    + apply IH; [lia | lia |]. intros i Hi.
      destruct (Z.lt_ge_cases i (w * 64)); [apply Hbelow; lia |].
      destruct (Hword i) as [H1 H2]; [lia |]. rewrite bit_test_spec, H1, H2 by lia.
      apply not64_zero; [apply Ha | done | lia].
    + pose proof (not64_range (a w)) as Hr.
      destruct (ctzll_spec (not64 (a w))) as (Hc & Hset & Hlow); [lia |].
      set (k := ctzll (not64 (a w))) in *.
      rewrite testbit_not64 in Hset by lia. apply negb_true_iff in Hset.
      assert (Hlt : forall i, 0 <= i < w * 64 + k -> bit_test a i = true).
      { intros i Hi. destruct (Z.lt_ge_cases i (w * 64)); [apply Hbelow; lia |].
        destruct (Hword i) as [H1 H2]; [lia |]. rewrite bit_test_spec, H1, H2 by lia.
        specialize (Hlow (i - w * 64) ltac:(lia)). rewrite testbit_not64 in Hlow by lia.
        by apply negb_false_iff in Hlow. }
      destruct (Z.ltb_spec (w * 64 + k) nbits).
      * right. split; [lia |]. split; [| done].
        destruct (Hword (w * 64 + k)) as [H1 H2]; [lia |].
        rewrite bit_test_spec, H1, H2 by lia. by replace (w * 64 + k - w * 64) with k by lia.
      * left. split; [done |]. intros i Hi. apply Hlt. lia.
Qed.

Lemma bit_ffc_cases a nbits :
  bitstr_wf a -> 0 <= nbits ->
  (bit_ffc a nbits = -1 /\ forall i, 0 <= i < nbits -> bit_test a i = true) \/
  (0 <= bit_ffc a nbits < nbits /\ bit_test a (bit_ffc a nbits) = false /\
   forall i, 0 <= i < bit_ffc a nbits -> bit_test a i = true).
Proof.
  intros Ha Hn. apply bit_ffc_loop_spec; [done | lia | | lia].
  assert (0 <= BITSTR_NWORDS nbits); [| lia].
  unfold BITSTR_NWORDS, BITSTR_T_BITS. apply Z.div_pos; lia.
Qed.
