(* ===== verification/Mmu.v ===== *)
(** * Page geometry, page-table entries and the address-space layout

    Models the macros of include/arch/mmu.h and include/arch/memlayout.h, at
    64-bit width and written as the headers write them, with the arithmetic
    facts the memory components use. *)

From S2P Require Import Prelude Bits.

(** ** mmu.h *)

Definition PGSIZE : Z := 4096.
Definition PGSHIFT : Z := 12.

(** [((sz) + PGSIZE - 1) & (~(PGSIZE - 1))] on a uint64. *)
Definition PGROUNDUP (sz : Z) : Z :=
  Z.land (u64 (sz + PGSIZE - 1)) (u64 (Z.lnot (PGSIZE - 1))).
Definition PGROUNDDW (sz : Z) : Z := Z.land sz (u64 (Z.lnot (PGSIZE - 1))).

Definition L0_SHIFT : Z := 39.
Definition L1_SHIFT : Z := 30.
Definition L2_SHIFT : Z := 21.
Definition L3_SHIFT : Z := 12.
Definition TABLE_ENTRIES : Z := 512.

Definition BLOCK_SIZE_2M : Z := Z.shiftl 1 L2_SHIFT.
Definition BLOCK_SIZE_1G : Z := Z.shiftl 1 L1_SHIFT.

Definition MAXUVA : Z := Z.shiftl 1 48.

Definition L0X (va : Z) : Z := Z.land (Z.shiftr va L0_SHIFT) (TABLE_ENTRIES - 1).
Definition L1X (va : Z) : Z := Z.land (Z.shiftr va L1_SHIFT) (TABLE_ENTRIES - 1).
Definition L2X (va : Z) : Z := Z.land (Z.shiftr va L2_SHIFT) (TABLE_ENTRIES - 1).
Definition L3X (va : Z) : Z := Z.land (Z.shiftr va L3_SHIFT) (TABLE_ENTRIES - 1).

Definition PTE_ADDR (pte : Z) : Z := Z.land pte 0x0000FFFFFFFFF000.

Definition PTE_VALID : Z := Z.shiftl 1 0.
Definition PTE_TABLE : Z := Z.shiftl 1 1.
Definition PTE_BLOCK : Z := Z.shiftl 0 1.
Definition PTE_ATTRINDX (n : Z) : Z := Z.shiftl n 2.
Definition PTE_AP_RW_EL1 : Z := Z.shiftl 0 6.
Definition PTE_AP_RW_ALL : Z := Z.shiftl 1 6.
Definition PTE_SH_NONE : Z := Z.shiftl 0 8.
Definition PTE_SH_INNER : Z := Z.shiftl 3 8.
Definition PTE_AF : Z := Z.shiftl 1 10.
Definition PTE_PXN : Z := Z.shiftl 1 53.
Definition PTE_UXN : Z := Z.shiftl 1 54.

Definition MT_DEVICE_nGnRnE : Z := 0.
Definition MT_NORMAL : Z := 1.
Definition MT_NORMAL_TAGGED : Z := 2.

Definition lor_all (l : list Z) : Z := foldr Z.lor 0 l.

Definition BLOCK_DEVICE : Z :=
  lor_all [PTE_VALID; PTE_BLOCK; PTE_ATTRINDX MT_DEVICE_nGnRnE; PTE_AP_RW_EL1;
           PTE_SH_NONE; PTE_AF; PTE_PXN; PTE_UXN].
Definition BLOCK_NORMAL : Z :=
  lor_all [PTE_VALID; PTE_BLOCK; PTE_ATTRINDX MT_NORMAL; PTE_AP_RW_EL1;
           PTE_SH_INNER; PTE_AF; PTE_UXN].
Definition PAGE_USER : Z :=
  lor_all [PTE_VALID; PTE_TABLE; PTE_ATTRINDX MT_NORMAL_TAGGED; PTE_AP_RW_ALL;
           PTE_SH_INNER; PTE_AF; PTE_PXN].
Definition PAGE_KERNEL : Z :=
  lor_all [PTE_VALID; PTE_TABLE; PTE_ATTRINDX MT_NORMAL; PTE_AP_RW_EL1;
           PTE_SH_INNER; PTE_AF; PTE_PXN; PTE_UXN].

(** ** memlayout.h *)

Definition KERN_BASE : Z := 0xFFFF000000000000.

Definition KVA_TO_PA (addr : Z) : Z := u64 (addr - KERN_BASE).
Definition PA_TO_KVA (addr : Z) : Z := u64 (addr + KERN_BASE).

Definition KSTACK_WINDOW_L1 : Z := 511.
Definition KSTACK_WINDOW : Z := KERN_BASE + Z.shiftl 511 30.
Definition KSTACK_WINDOW_SIZE : Z := Z.shiftl 1 30.
Definition KSTACK_PAGES : Z := 4.
Definition KSTACK_GUARD_PAGES : Z := 4.
Definition KSTACK_SLOT_PAGES : Z := KSTACK_GUARD_PAGES + KSTACK_PAGES.
Definition KSTACK_NSLOTS : Z := KSTACK_WINDOW_SIZE / (KSTACK_SLOT_PAGES * PGSIZE).

Definition USER_BASE : Z := 0.

(** ** Lemmas *)

Lemma PGROUNDDW_eq x : 0 <= x < 2 ^ 64 -> PGROUNDDW x = x / 4096 * 4096.
Proof.
  intros Hx. unfold PGROUNDDW, PGSIZE. rewrite land_u64 by done.
  change (4096 - 1) with (Z.ones 12). rewrite land_lnot_ones by lia. done.
Qed.

Lemma PGROUNDUP_wrap x : PGROUNDUP x = u64 (x + 4095) / 4096 * 4096.
Proof.
  unfold PGROUNDUP. replace (x + PGSIZE - 1) with (x + 4095) by (unfold PGSIZE; lia).
  apply PGROUNDDW_eq. apply u64_range.
Qed.

Lemma PGROUNDUP_eq x : 0 <= x < 2 ^ 64 - 4095 -> PGROUNDUP x = (x + 4095) / 4096 * 4096.
Proof. intros Hx. rewrite PGROUNDUP_wrap, u64_small by lia. done. Qed.

Lemma KVA_PA_inv pa : 0 <= pa < 2 ^ 64 -> KVA_TO_PA (PA_TO_KVA pa) = pa.
Proof. intros. unfold KVA_TO_PA, PA_TO_KVA, KERN_BASE. words. Qed.

Lemma PA_KVA_inv va : 0 <= va < 2 ^ 64 -> PA_TO_KVA (KVA_TO_PA va) = va.
Proof. intros. unfold KVA_TO_PA, PA_TO_KVA, KERN_BASE. words. Qed.
