(* ===== verification/Physmem.v ===== *)
(** * The physical memory map

    Models vm/physmem.c and include/vm/physmem.h: the sorted, coalesced lists
    of hardware banks and exclusions, and the subtraction that publishes the
    usable segments. The specification reads a list as the set of addresses it
    covers: insertion is union, [physmem_avail] is set difference. *)

From stdpp Require Import sorting.
From S2P Require Import Prelude Bits Mmu.

Definition MAX_HWCNT : nat := 16.
Definition MAX_EXCNT : nat := 16.
Definition VM_PHYSSEG_MAX : nat := 64.

Record region := Region { r_addr : Z; r_size : Z }.

(** [first_page] is an index into the descriptor array, NULL until [kinit]. *)
Record vm_phys_seg := Seg { seg_start : Z; seg_end : Z; first_page : option Z }.

(** hwregions[0..hwcnt), exregions[0..excnt) and vm_phys_segs[0..vm_phys_nsegs):
    a list holds the live prefix of its array, its length is the counter. *)
Record physmem := Physmem {
  hwregions : list region;
  exregions : list region;
  vm_phys_segs : list vm_phys_seg
}.

(** regions[i].addr + regions[i].size *)
Definition r_end (r : region) : Z := u64 (r_addr r + r_size r).

(** ** Operations *)

(** The absorbing loop of [merge_upper] over the entries after [i]: the grown
    end and the entries that stay. *)
Fixpoint merge_upper_loop (e : Z) (rest : list region) : Z * list region :=
  match rest with
  | [] => (e, [])
  | r :: rest' =>
      if r_addr r >? e then (e, rest)
      else merge_upper_loop (if r_end r >? e then r_end r else e) rest'
  end.

Definition merge_upper (regions : list region) (i : nat) : list region :=
  match drop i regions with
  | [] => regions
  | r :: rest =>
      let '(e, rest') := merge_upper_loop (r_end r) rest in
      take i regions ++ Region (r_addr r) (u64 (e - r_addr r)) :: rest'
  end.

(** The scan of [insert_region]: [pre] holds entries 0..i-1, [rest] the others.
    [None] is the -1 of a full list. *)
Fixpoint insert_region_loop (pre rest : list region) (max : nat) (addr size : Z)
    : option (list region) :=
  let e := u64 (addr + size) in
  let insert_here :=
    if (max <=? length (pre ++ rest))%nat then None
    else Some (pre ++ Region addr size :: rest) in
  match rest with
  | [] => insert_here
  | r :: rest' =>
      if (addr <=? r_end r) && (e >=? r_addr r) then
        let addr' := if addr <? r_addr r then addr else r_addr r in
        let e' := if e <? r_end r then r_end r else e in
        Some (merge_upper (pre ++ Region addr' (u64 (e' - addr')) :: rest') (length pre))
      else if addr <? r_addr r then insert_here
      else insert_region_loop (pre ++ [r]) rest' max addr size
  end.

Definition insert_region (regions : list region) (max : nat) (addr size : Z)
    : option (list region) :=
  insert_region_loop [] regions max addr size.

Definition physmem_hardware_region (pm : physmem) (pa size : Z) : res physmem :=
  let start := PGROUNDUP pa in
  let e := PGROUNDDW (u64 (pa + size)) in
  if start >=? e then Ret pm
  else match insert_region (hwregions pm) MAX_HWCNT start (u64 (e - start)) with
       | None => Panic "physmem: too many memory banks"
       | Some l => Ret (Physmem l (exregions pm) (vm_phys_segs pm))
       end.

Definition physmem_exclude_region (pm : physmem) (pa size : Z) : res physmem :=
  let start := PGROUNDDW pa in
  let e := PGROUNDUP (u64 (pa + size)) in
  if start >=? e then Ret pm
  else match insert_region (exregions pm) MAX_EXCNT start (u64 (e - start)) with
       | None => Panic "physmem: too many excluded regions"
       | Some l => Ret (Physmem (hwregions pm) l (vm_phys_segs pm))
       end.

Fixpoint physmem_excluded_loop (exs : list region) (pa e : Z) : bool :=
  match exs with
  | [] => false
  | x :: exs' =>
      if (pa <? r_end x) && (e >? r_addr x) then true
      else physmem_excluded_loop exs' pa e
  end.

Definition physmem_excluded (pm : physmem) (pa size : Z) : bool :=
  physmem_excluded_loop (exregions pm) pa (u64 (pa + size)).

Definition add_seg (segs : list vm_phys_seg) (start e : Z) : res (list vm_phys_seg) :=
  if start >=? e then Ret segs
  else if (VM_PHYSSEG_MAX <=? length segs)%nat then Panic "physmem: too many segments"
  else Ret (segs ++ [Seg start e None]).

(** The inner loop over the exclusions for one bank, ending in the final
    [add_seg]; [continue] recurses, [break] goes to the final call. *)
Fixpoint avail_bank (exs : list region) (start e : Z) (segs : list vm_phys_seg)
    : res (list vm_phys_seg) :=
  match exs with
  | [] => add_seg segs start e
  | x :: exs' =>
      let xstart := r_addr x in
      let xend := r_end x in
      if xend <=? start then avail_bank exs' start e segs
      else if xstart >=? e then add_seg segs start e
      else if xstart <=? start then
        if xend >=? e then add_seg segs xend e
        else avail_bank exs' xend e segs
      else if xend >=? e then add_seg segs start xstart
      else segs' ← add_seg segs start xstart; avail_bank exs' xend e segs'
  end.

Fixpoint avail_loop (hws exs : list region) (segs : list vm_phys_seg)
    : res (list vm_phys_seg) :=
  match hws with
  | [] => Ret segs
  | h :: hws' =>
      segs' ← avail_bank exs (r_addr h) (r_end h) segs; avail_loop hws' exs segs'
  end.

Definition physmem_avail (pm : physmem) : res physmem :=
  segs ← avail_loop (hwregions pm) (exregions pm) [];
  Ret (Physmem (hwregions pm) (exregions pm) segs).

Fixpoint physmem_seg_loop (segs : list vm_phys_seg) (pa : Z) (i : nat) : option nat :=
  match segs with
  | [] => None
  | s :: segs' =>
      if (pa >=? seg_start s) && (pa <? seg_end s) then Some i
      else physmem_seg_loop segs' pa (S i)
  end.

(** Index of the segment holding [pa], for the pointer the C returns. *)
Definition physmem_seg (pm : physmem) (pa : Z) : option nat :=
  physmem_seg_loop (vm_phys_segs pm) pa 0.

Fixpoint physmem_size_loop (segs : list vm_phys_seg) (size : Z) : Z :=
  match segs with
  | [] => size
  | s :: segs' => physmem_size_loop segs' (u64 (size + u64 (seg_end s - seg_start s)))
  end.

Definition physmem_size (pm : physmem) : Z := physmem_size_loop (vm_phys_segs pm) 0.

Definition physmem_start (pm : physmem) : res Z :=
  match hwregions pm with
  | [] => Panic "physmem: no memory banks"
  | h :: _ => Ret (r_addr h)
  end.

Definition physmem_end (pm : physmem) : res Z :=
  match last (hwregions pm) with
  | None => Panic "physmem: no memory banks"
  | Some h => Ret (r_end h)
  end.

(** ** Specification *)

Definition in_region (r : region) (x : Z) : Prop := r_addr r <= x < r_addr r + r_size r.
Definition in_regions (l : list region) (x : Z) : Prop := Exists (fun r => in_region r x) l.

Definition in_seg (s : vm_phys_seg) (x : Z) : Prop := seg_start s <= x < seg_end s.
Definition in_segs (l : list vm_phys_seg) (x : Z) : Prop := Exists (fun s => in_seg s x) l.

(** Sorted, non-empty entries with a gap between neighbours (coalesced), none
    reaching the top of the address space; [lo] is the end of the entry before. *)
Fixpoint regions_from (lo : Z) (l : list region) : Prop :=
  match l with
  | [] => True
  | r :: l' =>
      lo < r_addr r /\ 0 < r_size r /\ r_addr r + r_size r < 2 ^ 64 /\
      regions_from (r_addr r + r_size r) l'
  end.

Definition regions_ok (l : list region) : Prop := regions_from (-1) l.

Definition page_aligned (x : Z) : Prop := x mod 4096 = 0.

Definition region_aligned (r : region) : Prop :=
  page_aligned (r_addr r) /\ page_aligned (r_size r).

(** Disjoint, ascending, non-empty segments. *)
Definition seg_before (s t : vm_phys_seg) : Prop := seg_end s <= seg_start t.
Definition segs_ok (l : list vm_phys_seg) : Prop :=
  StronglySorted seg_before l /\
  Forall (fun s => 0 <= seg_start s < seg_end s /\ seg_end s < 2 ^ 64) l.

Definition seg_aligned (s : vm_phys_seg) : Prop :=
  page_aligned (seg_start s) /\ page_aligned (seg_end s).

(** The invariant of the component between calls. *)
Definition physmem_ok (pm : physmem) : Prop :=
  regions_ok (hwregions pm) /\ Forall region_aligned (hwregions pm) /\
  (length (hwregions pm) <= MAX_HWCNT)%nat /\
  regions_ok (exregions pm) /\ Forall region_aligned (exregions pm) /\
  (length (exregions pm) <= MAX_EXCNT)%nat.

(** ** Lemmas: region lists *)

Fixpoint last_end (lo : Z) (l : list region) : Z :=
  match l with
  | [] => lo
  | r :: l' => last_end (r_addr r + r_size r) l'
  end.

Lemma regions_from_app lo l1 l2 :
  regions_from lo (l1 ++ l2) <-> regions_from lo l1 /\ regions_from (last_end lo l1) l2.
Proof.
  revert lo. induction l1 as [| r l1 IH]; intros lo; cbn; [tauto |].
  rewrite IH. tauto.
Qed.

Lemma regions_from_weaken lo lo' l : lo' <= lo -> regions_from lo l -> regions_from lo' l.
Proof. destruct l; cbn; [done |]. intros ? (?&?&?&?). repeat split; (done || lia). Qed.

Lemma last_end_ge lo l : regions_from lo l -> lo <= last_end lo l.
Proof.
  revert lo. induction l as [| r l IH]; intros lo; cbn; [lia |].
  intros (?&?&?&?%IH). lia.
Qed.

Lemma regions_from_in lo l x : regions_from lo l -> in_regions l x -> lo < x < 2 ^ 64.
Proof.
  revert lo. induction l as [| r l IH]; intros lo Hl Hx; [by apply Exists_nil in Hx |].
  destruct Hl as (?&?&?&Hl). apply Exists_cons in Hx as [Hx | Hx].
  - unfold in_region in Hx. lia.
  - specialize (IH _ Hl Hx). lia.
Qed.

Lemma in_regions_app l1 l2 x : in_regions (l1 ++ l2) x <-> in_regions l1 x \/ in_regions l2 x.
Proof. apply Exists_app. Qed.

Lemma in_regions_cons r l x : in_regions (r :: l) x <-> in_region r x \/ in_regions l x.
Proof. apply Exists_cons. Qed.

Lemma in_regions_nil x : in_regions [] x <-> False.
Proof. apply Exists_nil. Qed.

Lemma r_end_eq r : 0 <= r_addr r -> 0 < r_size r -> r_addr r + r_size r < 2 ^ 64 ->
  r_end r = r_addr r + r_size r.
Proof. intros. unfold r_end. apply u64_small. lia. Qed.

Lemma page_aligned_sub x y : page_aligned x -> page_aligned y -> page_aligned (x - y).
Proof. unfold page_aligned. intros. Z.div_mod_to_equations. lia. Qed.

Lemma page_aligned_add x y : page_aligned x -> page_aligned y -> page_aligned (x + y).
Proof. unfold page_aligned. intros. Z.div_mod_to_equations. lia. Qed.

#[export] Hint Resolve page_aligned_sub page_aligned_add : av6.

(** The absorbed entries are those the growing range reaches, and the union is
    unchanged. *)
Lemma merge_upper_loop_spec a e lo rest e' rest' :
  merge_upper_loop e rest = (e', rest') ->
  0 <= a <= e -> a <= lo -> e < 2 ^ 64 -> regions_from lo rest ->
  e <= e' < 2 ^ 64 /\ regions_from e' rest' /\ (length rest' <= length rest)%nat /\
  (forall x, a <= x < e' \/ in_regions rest' x <-> a <= x < e \/ in_regions rest x) /\
  (page_aligned e -> Forall region_aligned rest ->
   page_aligned e' /\ Forall region_aligned rest').
Proof.
  revert e lo. induction rest as [| r rest IH]; intros e lo; cbn [merge_upper_loop].
  { intros [= <- <-] ????. repeat split; auto; lia. }
  intros H Ha Hlo He (Hr1 & Hr2 & Hr3 & Hrest).
  destruct (Z.gtb_spec (r_addr r) e).
  { injection H as <- <-. repeat split; auto; lia. }
  rewrite (r_end_eq r) in H by lia.
  assert (Hmax : (if r_addr r + r_size r >? e then r_addr r + r_size r else e)
                 = Z.max e (r_addr r + r_size r)).
  { destruct (Z.gtb_spec (r_addr r + r_size r) e); lia. }
  rewrite Hmax in H. clear Hmax.
  edestruct IH as (H1 & H2 & H3 & H4 & H5); [exact H | lia | | lia | exact Hrest |]; [lia |].
  split; [lia |]. split; [done |]. split; [cbn; lia |]. split.
  - intros x. rewrite H4, in_regions_cons. unfold in_region. split; [| intuition lia].
    intros [? | ?]; [| by auto]. destruct (Z.lt_ge_cases x e); [by left; lia |]. right. left. lia.
  - intros Hal Hall. apply Forall_cons in Hall as [[Hal1 Hal2] Hall]. apply H5; [| done].
    apply Z.max_case; eauto with av6.
Qed.

Lemma merge_upper_at pre r rest :
  merge_upper (pre ++ r :: rest) (length pre) =
  let '(e, rest') := merge_upper_loop (r_end r) rest in
  pre ++ Region (r_addr r) (u64 (e - r_addr r)) :: rest'.
Proof.
  unfold merge_upper. rewrite drop_app_length, take_app_length. done.
Qed.

(** What a successful insertion of [[a, a+s)] guarantees. *)
Definition inserts (l l' : list region) (max : nat) (a s : Z) : Prop :=
  regions_ok l' /\
  (forall x, in_regions l' x <-> in_regions l x \/ a <= x < a + s) /\
  (length l' <= Nat.max max (length l))%nat /\
  (page_aligned a -> page_aligned s -> Forall region_aligned l -> Forall region_aligned l').

Definition touches (r : region) (a s : Z) : Prop :=
  a <= r_addr r + r_size r /\ r_addr r <= a + s.

Lemma insert_here_spec pre rest max a s :
  regions_from (-1) pre -> last_end (-1) pre < a -> 0 < s -> a + s < 2 ^ 64 ->
  regions_from (a + s) rest -> (length (pre ++ rest) < max)%nat ->
  inserts (pre ++ rest) (pre ++ Region a s :: rest) max a s.
Proof.
  intros Hpre Hlast Hs Htop Hrest Hlen. split; [| split; [| split]].
  - apply regions_from_app. split; [done |]. cbn. repeat split; (lia || done).
  - intros x. rewrite !in_regions_app, in_regions_cons. unfold in_region at 1. cbn. tauto.
  - rewrite !length_app in *. cbn. lia.
  - intros ?? [? ?]%Forall_app. apply Forall_app. split; [done |]. constructor; [by split | done].
Qed.

Lemma insert_merge_spec pre r rest max a s :
  regions_from (-1) (pre ++ r :: rest) -> last_end (-1) pre < a ->
  0 <= a -> 0 < s -> a + s < 2 ^ 64 -> touches r a s ->
  let a' := Z.min a (r_addr r) in
  let e' := Z.max (a + s) (r_addr r + r_size r) in
  inserts (pre ++ r :: rest)
    (merge_upper (pre ++ Region a' (u64 (e' - a')) :: rest) (length pre)) max a s.
Proof.
  intros Hok Hlast Ha Hs Htop [Ht1 Ht2] a' e'.
  apply regions_from_app in Hok as (Hp & Hr1 & Hr2 & Hr3 & Hrest).
  pose proof (last_end_ge _ _ Hp). rewrite merge_upper_at, (u64_small (e' - a')) by lia.
  rewrite r_end_eq by (cbn; lia). cbn [r_addr r_size].
  replace (a' + (e' - a')) with e' by lia.
  destruct (merge_upper_loop e' rest) as [e2 rest2] eqn:Em.
  destruct (merge_upper_loop_spec a' e' (r_addr r + r_size r) rest e2 rest2 Em)
    as (He2 & Hok2 & Hlen & Hin & Hal); [lia.. | done |].
  rewrite u64_small by lia. split; [| split; [| split]].
  - apply regions_from_app. split; [done |]. cbn. repeat split; [lia.. |].
    by replace (a' + (e2 - a')) with e2 by lia.
  - intros x. rewrite !in_regions_app, !in_regions_cons. unfold in_region at 1. cbn.
    replace (a' + (e2 - a')) with e2 by lia.
    assert (a' <= x < e' <-> in_region r x \/ a <= x < a + s) by (unfold in_region; lia).
    specialize (Hin x). tauto.
  - rewrite !length_app. cbn. lia.
  - intros Hala Hals [Hall1 [[Hr4 Hr5] Hall2]%Forall_cons]%Forall_app.
    assert (page_aligned a') by (apply Z.min_case; done).
    destruct Hal as [? ?]; [apply Z.max_case; eauto with av6 | done |].
    apply Forall_app. split; [done |]. constructor; [split; cbn; eauto with av6 | done].
Qed.

Lemma untouched_above l lo a s :
  regions_from lo l -> a + s <= lo -> Forall (fun r => ~ touches r a s) l.
Proof.
  revert lo. induction l as [| r l IH]; intros lo; constructor; cbn in *.
  - unfold touches. lia.
  - apply (IH (r_addr r + r_size r)); [tauto | lia].
Qed.

Lemma last_end_snoc lo l r : last_end lo (l ++ [r]) = r_addr r + r_size r.
Proof. revert lo. induction l as [| q l IH]; intros lo; cbn; [done | apply IH]. Qed.

Lemma insert_region_loop_spec pre rest max a s :
  regions_from (-1) (pre ++ rest) -> last_end (-1) pre < a ->
  0 <= a -> 0 < s -> a + s < 2 ^ 64 ->
  match insert_region_loop pre rest max a s with
  | Some l => inserts (pre ++ rest) l max a s
  | None => (max <= length (pre ++ rest))%nat /\ Forall (fun r => ~ touches r a s) rest
  end.
Proof.
  intros Hok Hpre Ha Hs Htop. revert pre Hok Hpre.
  assert (Hend : u64 (a + s) = a + s) by (apply u64_small; lia).
  induction rest as [| r rest IH]; intros pre Hok Hpre; cbn [insert_region_loop]; rewrite ?Hend.
  - destruct (Nat.leb_spec max (length (pre ++ []))); [by split |].
    apply insert_here_spec; (done || (rewrite ?app_nil_r in *; done)).
  - apply regions_from_app in Hok as Hok'. destruct Hok' as (Hp & Hr1 & Hr2 & Hr3 & Hrest).
    pose proof (last_end_ge _ _ Hp) as Hge. rewrite (r_end_eq r) by lia.
    destruct ((a <=? r_addr r + r_size r) && (a + s >=? r_addr r)) eqn:Etouch; zbool.
    + replace (if a <? r_addr r then a else r_addr r) with (Z.min a (r_addr r))
        by (destruct (Z.ltb_spec a (r_addr r)); lia).
      replace (if a + s <? r_addr r + r_size r then r_addr r + r_size r else a + s)
        with (Z.max (a + s) (r_addr r + r_size r))
        by (destruct (Z.ltb_spec (a + s) (r_addr r + r_size r)); lia).
      apply insert_merge_spec; (done || lia).
    + assert (Hno : ~ touches r a s) by (unfold touches; lia).
      destruct (Z.ltb_spec a (r_addr r)).
      * unfold touches in Hno. destruct (Nat.leb_spec max (length (pre ++ r :: rest))).
        { split; [done |]. apply (untouched_above _ (a + s)); [cbn | lia].
          repeat split; (done || lia). }
        apply insert_here_spec; try (done || lia). cbn. repeat split; (done || lia).
      * specialize (IH (pre ++ [r])). rewrite <- app_assoc in IH. cbn [app] in IH.
        assert (Hlast : last_end (-1) (pre ++ [r]) < a)
          by (rewrite last_end_snoc; unfold touches in Hno; lia).
        specialize (IH Hok Hlast).
        destruct (insert_region_loop (pre ++ [r]) rest max a s); [done |].
        destruct IH as [? ?]. split; [done |]. by constructor.
Qed.

Lemma insert_region_spec l max a s :
  regions_ok l -> 0 <= a -> 0 < s -> a + s < 2 ^ 64 ->
  match insert_region l max a s with
  | Some l' => inserts l l' max a s
  | None => (max <= length l)%nat /\ Forall (fun r => ~ touches r a s) l
  end.
Proof.
  intros. apply (insert_region_loop_spec [] l); cbn; (done || lia).
Qed.

(** ** Lemmas: the subtraction *)

Lemma in_segs_app l1 l2 x : in_segs (l1 ++ l2) x <-> in_segs l1 x \/ in_segs l2 x.
Proof. apply Exists_app. Qed.

Lemma in_segs_cons s l x : in_segs (s :: l) x <-> in_seg s x \/ in_segs l x.
Proof. apply Exists_cons. Qed.

Lemma in_segs_nil x : in_segs [] x <-> False.
Proof. apply Exists_nil. Qed.

(** [new] is a correct cover of the set [P] by segments inside [[lo, hi)]. *)
Definition covers (new : list vm_phys_seg) (lo hi : Z) (P : Z -> Prop) : Prop :=
  segs_ok new /\ Forall (fun s => lo <= seg_start s /\ seg_end s <= hi) new /\
  forall x, in_segs new x <-> P x.

Lemma covers_app l1 l2 lo m m' hi P Q :
  covers l1 lo m P -> covers l2 m' hi Q -> lo <= m -> m <= m' -> m' <= hi ->
  covers (l1 ++ l2) lo hi (fun x => P x \/ Q x).
Proof.
  intros ((Hs1 & Hw1) & Hb1 & Hp1) ((Hs2 & Hw2) & Hb2 & Hp2) H0 H1 H2.
  rewrite Forall_forall in Hb1, Hb2. split; [split | split].
  - apply StronglySorted_app. split; [| done]. intros s t Hs Ht.
    apply Hb1 in Hs. apply Hb2 in Ht. unfold seg_before. lia.
  - by apply Forall_app.
  - apply Forall_app. rewrite !Forall_forall.
    split; [intros s Hs%Hb1 | intros s Hs%Hb2]; lia.
  - intros x. by rewrite in_segs_app, Hp1, Hp2.
Qed.

Lemma covers_proper new lo hi P Q :
  (forall x, P x <-> Q x) -> covers new lo hi P -> covers new lo hi Q.
Proof. intros HPQ (? & ? & Hin). split; [done |]. split; [done |]. intros x. by rewrite Hin. Qed.

Lemma covers_weaken new lo lo' hi hi' P :
  lo' <= lo -> hi <= hi' -> covers new lo hi P -> covers new lo' hi' P.
Proof.
  intros Hlo Hhi (? & Hb & ?). split; [done |]. split; [| done].
  eapply Forall_impl; [exact Hb |]. cbn. intros ? ?. lia.
Qed.

Lemma add_seg_spec segs start e :
  (length segs < VM_PHYSSEG_MAX)%nat -> 0 <= start -> e < 2 ^ 64 ->
  exists new, add_seg segs start e = Ret (segs ++ new) /\ (length new <= 1)%nat /\
    covers new start (Z.max start e) (fun x => start <= x < e) /\
    (page_aligned start -> page_aligned e -> Forall seg_aligned new).
Proof.
  intros Hlen Hs He. unfold add_seg. destruct (Z.geb_spec start e).
  - exists []. rewrite app_nil_r. split; [done |]. split; [cbn; lia |].
    split; [| by constructor]. split; [split; constructor |]. split; [constructor |].
    intros x. rewrite in_segs_nil. lia.
  - destruct (Nat.leb_spec VM_PHYSSEG_MAX (length segs)); [lia |].
    exists [Seg start e None]. split; [done |]. split; [done |]. split.
    + split; [split |]; [repeat constructor.. | split]; [cbn; lia.. | |].
      * repeat constructor; cbn; lia.
      * intros x. rewrite in_segs_cons, in_segs_nil. unfold in_seg. cbn. tauto.
    + intros. by repeat constructor.
Qed.

(** Exclusions strictly inside a bank: each one splits it once more. *)
Definition interior (start e : Z) (x : region) : bool :=
  (start <? r_addr x) && (r_addr x + r_size x <? e).

Definition n_interior (start e : Z) (exs : list region) : nat :=
  length (List.filter (interior start e) exs).

Lemma n_interior_cons start e x exs :
  n_interior start e (x :: exs) =
  ((if interior start e x then 1 else 0) + n_interior start e exs)%nat.
Proof. unfold n_interior. cbn. by destruct (interior start e x). Qed.

Lemma n_interior_mono start start' e exs :
  start <= start' -> (n_interior start' e exs <= n_interior start e exs)%nat.
Proof.
  intros. induction exs as [| x exs IH]; [done |]. rewrite !n_interior_cons.
  destruct (interior start' e x) eqn:E; unfold interior in *; zbool.
  - rewrite (proj2 (Z.ltb_lt start _)), (proj2 (Z.ltb_lt _ e)) by lia. cbn. lia.
  - lia.
Qed.

Lemma not_in_regions_below lo exs x : regions_from lo exs -> x <= lo -> ~ in_regions exs x.
Proof. intros H ? Hx. pose proof (regions_from_in _ _ _ H Hx). lia. Qed.

(** The specification of the inner loop: it never overflows the segment table
    when there is room for one segment per interior exclusion and one more, and
    what it appends covers the bank minus the exclusions. *)
Definition bank_ok (exs : list region) (start e : Z) (segs : list vm_phys_seg)
    (r : res (list vm_phys_seg)) : Prop :=
  exists new, r = Ret (segs ++ new) /\ (length new <= 1 + n_interior start e exs)%nat /\
    covers new start (Z.max start e) (fun x => start <= x < e /\ ~ in_regions exs x) /\
    (page_aligned start -> page_aligned e -> Forall region_aligned exs ->
     Forall seg_aligned new).

(** Closing the loop with [add_seg segs a b] is right when [[a, b)] is what the
    remaining exclusions leave of the bank. *)
Lemma bank_ok_last exs start e segs a b :
  (length segs < VM_PHYSSEG_MAX)%nat -> 0 <= start -> start <= a -> e < 2 ^ 64 -> b <= e ->
  (forall x, a <= x < b <-> start <= x < e /\ ~ in_regions exs x) ->
  (page_aligned start -> page_aligned e -> Forall region_aligned exs ->
   page_aligned a /\ page_aligned b) ->
  bank_ok exs start e segs (add_seg segs a b).
Proof.
  intros Hlen Hs Hsa He Hbe Hset Hal.
  destruct (add_seg_spec segs a b) as (new & Hr & Hn & Hc & Hal'); [done | lia | lia |].
  exists new. split; [done |]. split; [lia |]. split.
  - destruct Hc as (Hok & Hb & Hin). split; [done |]. split; [| intros x; by rewrite Hin].
    apply Forall_forall. intros s Hsin. rewrite Forall_forall in Hb.
    pose proof (Hb _ Hsin). destruct Hok as [_ Hw]. rewrite Forall_forall in Hw.
    pose proof (Hw _ Hsin).
    assert (Hmem : in_segs new (seg_end s - 1))
      by (apply Exists_exists; exists s; split; [done | unfold in_seg; lia]).
    apply Hin in Hmem. lia.
  - intros. destruct Hal as [? ?]; auto.
Qed.

(** Skipping exclusion [x], the bank now starting at [start']. *)
Lemma bank_ok_skip x exs start start' e segs r :
  start <= start' -> (start' < e \/ start' = start) ->
  (forall y, start' <= y < e /\ ~ in_regions exs y <->
             start <= y < e /\ ~ in_regions (x :: exs) y) ->
  (page_aligned start -> region_aligned x -> page_aligned start') ->
  bank_ok exs start' e segs r -> bank_ok (x :: exs) start e segs r.
Proof.
  intros Hle Hlt Hset Hal (new & Hr & Hn & Hc & Hal'). exists new. split; [done |].
  rewrite n_interior_cons. pose proof (n_interior_mono start start' e exs Hle).
  split; [lia |]. split.
  - apply (covers_proper _ _ _ _ _ Hset). eapply covers_weaken; [| | exact Hc]; lia.
  - intros ? ? [? ?]%Forall_cons. auto.
Qed.

(** Exclusion [x] is strictly interior: emit the part before it, go on after. *)
Lemma bank_ok_split x exs start e segs r :
  0 <= start < r_addr x -> 0 < r_size x -> r_addr x + r_size x < e -> e < 2 ^ 64 ->
  regions_from (r_addr x + r_size x) exs ->
  (length segs < VM_PHYSSEG_MAX)%nat ->
  (forall segs', (length segs' <= S (length segs))%nat ->
     bank_ok exs (r_addr x + r_size x) e segs' (r segs')) ->
  bank_ok (x :: exs) start e segs
    (segs' ← add_seg segs start (r_addr x); r segs').
Proof.
  intros Hs Hx Hxe He Hexs Hlen Hr.
  destruct (add_seg_spec segs start (r_addr x)) as (n1 & -> & Hn1 & Hc1 & Hal1); [done | lia | lia |].
  cbn. destruct (Hr (segs ++ n1)) as (n2 & -> & Hn2 & Hc2 & Hal2); [rewrite length_app; lia |].
  exists (n1 ++ n2). rewrite app_assoc. split; [done |].
  rewrite length_app, n_interior_cons. unfold interior.
  rewrite (proj2 (Z.ltb_lt start _)), (proj2 (Z.ltb_lt _ e)) by lia. cbn.
  pose proof (n_interior_mono start (r_addr x + r_size x) e exs ltac:(lia)).
  split; [lia |]. rewrite Z.max_r in Hc1, Hc2 |- * by lia. split.
  - eapply covers_proper; [| eapply covers_app; [exact Hc1 | exact Hc2 | lia..]].
    intros y. cbn. rewrite in_regions_cons. unfold in_region.
    destruct (Z.lt_ge_cases y (r_addr x)); [| intuition lia].
    pose proof (not_in_regions_below _ _ y Hexs ltac:(lia)). intuition lia.
  - intros ? ? [[? ?] ?]%Forall_cons. apply Forall_app. split; [auto | apply Hal2; auto with av6].
Qed.

Lemma avail_bank_spec exs start e segs lo :
  regions_from lo exs -> -1 <= lo -> 0 <= start -> e < 2 ^ 64 ->
  (length segs + 1 + n_interior start e exs <= VM_PHYSSEG_MAX)%nat ->
  bank_ok exs start e segs (avail_bank exs start e segs).
Proof.
  revert lo start segs. induction exs as [| x exs IH]; intros lo start segs Hexs Hlo Hs He Hlen.
  { apply bank_ok_last; [lia.. | | done]. intros y. rewrite in_regions_nil. tauto. }
  destruct Hexs as (Hx1 & Hx2 & Hx3 & Hexs). cbn [avail_bank]. rewrite r_end_eq by lia.
  pose proof (fun y => regions_from_in _ _ y Hexs) as Hlow.
  rewrite n_interior_cons in Hlen.
  pose proof (n_interior_mono start (r_addr x + r_size x) e exs) as Hmono.
  destruct (Z.leb_spec (r_addr x + r_size x) start).
  { apply (bank_ok_skip _ _ _ start); [lia.. | | auto | eapply IH; eauto; lia].
    intros y. rewrite in_regions_cons. unfold in_region. intuition lia. }
  destruct (Z.geb_spec (r_addr x) e).
  { apply bank_ok_last; [lia.. | | auto]. intros y. rewrite in_regions_cons. unfold in_region.
    specialize (Hlow y). intuition lia. }
  destruct (Z.leb_spec (r_addr x) start); [destruct (Z.geb_spec (r_addr x + r_size x) e) |
    destruct (Z.geb_spec (r_addr x + r_size x) e)].
  - apply bank_ok_last; [lia.. | |].
    + intros y. rewrite in_regions_cons. unfold in_region. intuition lia.
    + intros ? ? [[? ?] ?]%Forall_cons. auto with av6.
  - apply (bank_ok_skip _ _ _ (r_addr x + r_size x)); [lia.. | | | eapply IH; eauto; lia].
    + intros y. rewrite in_regions_cons. unfold in_region. specialize (Hlow y). intuition lia.
    + intros ? [? ?]. auto with av6.
  - apply bank_ok_last; [lia.. | |].
    + intros y. rewrite in_regions_cons. unfold in_region. specialize (Hlow y). intuition lia.
    + intros ? ? [[? ?] ?]%Forall_cons. auto with av6.
  - apply bank_ok_split; try (done || lia). intros segs' Hsegs'. eapply IH; eauto; try lia.
    unfold interior in Hlen. rewrite (proj2 (Z.ltb_lt start _)), (proj2 (Z.ltb_lt _ e)) in Hlen by lia.
    cbn in Hlen. lia.
Qed.

(** ** Lemmas: the outer loop never overflows the segment table *)

Fixpoint sum_nat (l : list nat) : nat :=
  match l with
  | [] => 0%nat
  | n :: l' => (n + sum_nat l')%nat
  end.

Definition splits (hws exs : list region) : nat :=
  sum_nat (map (fun h => n_interior (r_addr h) (r_addr h + r_size h) exs) hws).

(** An exclusion is strictly inside at most one bank. *)
Lemma interior_once lo hws x :
  regions_from lo hws -> 0 < r_size x ->
  (sum_nat (map (fun h => if interior (r_addr h) (r_addr h + r_size h) x then 1 else 0)%nat hws)
   <= if (lo <? r_addr x)%Z then 1 else 0)%nat.
Proof.
  intros Hhws Hx. revert lo Hhws. induction hws as [| h hws IH]; intros lo; cbn.
  { intros _. destruct (lo <? r_addr x); lia. }
  intros (H1 & H2 & H3 & Hrest). specialize (IH _ Hrest). unfold interior at 1.
  destruct (Z.ltb_spec (r_addr h) (r_addr x)),
    (Z.ltb_spec (r_addr x + r_size x) (r_addr h + r_size h)),
    (Z.ltb_spec (r_addr h + r_size h) (r_addr x)), (Z.ltb_spec lo (r_addr x)); cbn; lia.
Qed.

Lemma splits_cons hws x exs :
  splits hws (x :: exs) =
  (sum_nat (map (fun h => if interior (r_addr h) (r_addr h + r_size h) x then 1 else 0)%nat hws)
   + splits hws exs)%nat.
Proof.
  unfold splits. induction hws as [| h hws IH]; [done |]. cbn [map sum_nat].
  rewrite IH, n_interior_cons. lia.
Qed.

Lemma splits_le hws exs lo lo' :
  regions_from lo hws -> regions_from lo' exs -> (splits hws exs <= length exs)%nat.
Proof.
  intros Hh. revert lo'. induction exs as [| x exs IH]; intros lo' Hx.
  - unfold splits. clear Hh. induction hws; cbn; [lia | by apply IHhws].
  - destruct Hx as (_ & ? & _ & Hx). rewrite splits_cons. specialize (IH _ Hx).
    pose proof (interior_once _ _ x Hh ltac:(done)). cbn.
    destruct (lo <? r_addr x); lia.
Qed.

Lemma avail_loop_spec hws exs segs lo :
  regions_from lo hws -> -1 <= lo -> regions_ok exs ->
  (length segs + length hws + splits hws exs <= VM_PHYSSEG_MAX)%nat ->
  exists new, avail_loop hws exs segs = Ret (segs ++ new) /\
    (length new <= length hws + splits hws exs)%nat /\
    covers new lo (2 ^ 64) (fun x => in_regions hws x /\ ~ in_regions exs x) /\
    (Forall region_aligned hws -> Forall region_aligned exs -> Forall seg_aligned new).
Proof.
  revert segs lo. induction hws as [| h hws IH]; intros segs lo Hhws Hlo Hexs Hlen.
  { exists []. rewrite app_nil_r. split; [done |]. split; [cbn; lia |].
    split; [| by constructor]. split; [split; constructor |]. split; [constructor |].
    intros x. rewrite in_segs_nil, in_regions_nil. tauto. }
  destruct Hhws as (H1 & H2 & H3 & Hhws). cbn [avail_loop]. rewrite r_end_eq by lia.
  unfold splits in Hlen |- *. cbn [map sum_nat] in Hlen |- *. fold (splits hws exs) in Hlen |- *.
  cbn [length] in Hlen.
  destruct (avail_bank_spec exs (r_addr h) (r_addr h + r_size h) segs (-1))
    as (n1 & -> & Hn1 & Hc1 & Ha1); [done | lia.. |].
  cbn. edestruct (IH (segs ++ n1) (r_addr h + r_size h)) as (n2 & -> & Hn2 & Hc2 & Ha2);
    [done | lia | done | rewrite length_app; lia |].
  exists (n1 ++ n2). rewrite app_assoc. split; [done |]. split; [rewrite length_app; lia |].
  rewrite Z.max_r in Hc1 by lia. split.
  - eapply (covers_proper _ _ _ (fun x => _ \/ _)).
    2: { eapply (covers_app _ _ lo (r_addr h + r_size h)); [| exact Hc2 | lia..].
         eapply covers_weaken; [| | exact Hc1]; lia. }
    intros x. rewrite in_regions_cons. unfold in_region. cbn. tauto.
  - intros [[? ?] ?]%Forall_cons ?. apply Forall_app. split; [apply Ha1 | apply Ha2]; auto with av6.
Qed.

Lemma physmem_avail_spec pm :
  physmem_ok pm ->
  exists segs, physmem_avail pm = Ret (Physmem (hwregions pm) (exregions pm) segs) /\
    segs_ok segs /\ Forall seg_aligned segs /\ (length segs <= MAX_HWCNT + MAX_EXCNT)%nat /\
    forall x, in_segs segs x <-> in_regions (hwregions pm) x /\ ~ in_regions (exregions pm) x.
Proof.
  intros (Hh & Hha & Hhn & Hx & Hxa & Hxn).
  pose proof (splits_le _ _ _ _ Hh Hx).
  destruct (avail_loop_spec (hwregions pm) (exregions pm) [] (-1)) as (new & Hr & Hn & Hc & Ha);
    [done | lia | done | unfold VM_PHYSSEG_MAX, MAX_HWCNT, MAX_EXCNT in *; cbn; lia |].
  exists new. unfold physmem_avail. rewrite Hr. cbn [mbind res_bind].
  destruct Hc as (? & ? & ?). do 2 (split; [done |]). split; [auto |]. split; [lia | done].
Qed.

Lemma PGROUNDDW_aligned x : 0 <= x < 2 ^ 64 -> page_aligned (PGROUNDDW x).
Proof. intros. rewrite PGROUNDDW_eq by done. apply Z.mod_mul. lia. Qed.

Lemma PGROUNDUP_aligned x : page_aligned (PGROUNDUP x).
Proof. rewrite PGROUNDUP_wrap. apply Z.mod_mul. lia. Qed.

Lemma segs_ok_bound segs s : segs_ok segs -> s ∈ segs -> 0 <= seg_start s < seg_end s /\ seg_end s < 2 ^ 64.
Proof. intros [_ Hw] Hs. by apply (proj1 (Forall_forall _ _) Hw). Qed.

Lemma segs_ok_tail s segs : segs_ok (s :: segs) -> segs_ok segs.
Proof. intros [Hs Hw]. inversion Hs. inversion Hw. by split. Qed.

(** The segment lookup finds the unique segment holding an address. *)
Lemma physmem_seg_loop_spec segs pa k :
  match physmem_seg_loop segs pa k with
  | Some i => exists j s, i = (k + j)%nat /\ segs !! j = Some s /\ in_seg s pa
  | None => ~ in_segs segs pa
  end.
Proof.
  revert k. induction segs as [| s segs IH]; intros k; cbn [physmem_seg_loop].
  { by intros ?%in_segs_nil. }
  destruct ((pa >=? seg_start s) && (pa <? seg_end s)) eqn:E; zbool.
  { exists 0%nat, s. split; [lia |]. split; [done |]. unfold in_seg. lia. }
  specialize (IH (S k)). destruct (physmem_seg_loop segs pa (S k)) as [i |].
  - destruct IH as (j & t & -> & ? & ?). exists (S j), t. split; [lia | done].
  - rewrite in_segs_cons. unfold in_seg. intuition lia.
Qed.

Fixpoint seg_bytes (l : list vm_phys_seg) : Z :=
  match l with
  | [] => 0
  | s :: l' => seg_end s - seg_start s + seg_bytes l'
  end.

Lemma seg_bytes_bound segs lo :
  segs_ok segs -> Forall (fun s => lo <= seg_start s) segs -> lo < 2 ^ 64 ->
  0 <= seg_bytes segs < 2 ^ 64 - lo.
Proof.
  revert lo. induction segs as [| s segs IH]; intros lo Hok Hlo Htop; cbn [seg_bytes]; [lia |].
  destruct Hok as [Hs Hw]. apply Forall_cons in Hlo as [? ?], Hw as [? ?].
  inversion Hs as [| ? ? ? Hbef]; subst.
  assert (0 <= seg_bytes segs < 2 ^ 64 - seg_end s); [| lia].
  apply IH; [by split | done | lia].
Qed.

Lemma physmem_size_loop_spec segs acc :
  segs_ok segs -> 0 <= acc -> acc + seg_bytes segs < 2 ^ 64 ->
  physmem_size_loop segs acc = acc + seg_bytes segs.
Proof.
  revert acc. induction segs as [| s segs IH]; intros acc Hok Hacc Hsum; cbn [seg_bytes physmem_size_loop] in *; [lia |].
  pose proof (segs_ok_tail _ _ Hok) as Hok'.
  pose proof (segs_ok_bound _ s Hok ltac:(apply list_elem_of_here)).
  assert (0 <= seg_bytes segs).
  { apply (seg_bytes_bound segs 0); [done | | lia]. apply Forall_forall. intros t Ht.
    pose proof (segs_ok_bound _ t Hok' Ht). lia. }
  rewrite (u64_small (seg_end s - _)), u64_small, IH by (done || lia). lia.
Qed.

Lemma physmem_size_spec pm : segs_ok (vm_phys_segs pm) ->
  physmem_size pm = seg_bytes (vm_phys_segs pm) /\ 0 <= physmem_size pm < 2 ^ 64.
Proof.
  intros Hs.
  assert (Hb : 0 <= seg_bytes (vm_phys_segs pm) < 2 ^ 64 - 0).
  { apply seg_bytes_bound; [done | | lia]. apply Forall_forall. intros t Ht.
    pose proof (segs_ok_bound _ t Hs Ht). lia. }
  unfold physmem_size. rewrite physmem_size_loop_spec by (done || lia). lia.
Qed.

Lemma seg_bytes_aligned segs : Forall seg_aligned segs -> page_aligned (seg_bytes segs).
Proof.
  induction 1 as [| s segs [? ?] _ IH]; [done |]. cbn [seg_bytes]. auto with av6.
Qed.

Lemma hw_range_inner pa size x :
  0 <= pa -> 0 <= size -> pa + size < 2 ^ 64 - 4095 -> 0 <= x ->
  PGROUNDUP pa <= x < PGROUNDDW (u64 (pa + size)) <->
  pa <= x / 4096 * 4096 /\ x / 4096 * 4096 + 4096 <= pa + size.
Proof.
  intros. rewrite u64_small, PGROUNDUP_eq, PGROUNDDW_eq by lia.
  Z.div_mod_to_equations. lia.
Qed.

Lemma ex_range_outer pa size x :
  0 <= pa -> 0 < size -> pa + size < 2 ^ 64 - 4095 -> 0 <= x ->
  PGROUNDDW pa <= x < PGROUNDUP (u64 (pa + size)) <->
  x / 4096 * 4096 < pa + size /\ pa < x / 4096 * 4096 + 4096.
Proof.
  intros. rewrite u64_small, PGROUNDUP_eq, PGROUNDDW_eq by lia.
  Z.div_mod_to_equations. lia.
Qed.

Lemma physmem_excluded_loop_spec exs pa e lo :
  regions_from lo exs -> -1 <= lo -> 0 <= pa < e -> e < 2 ^ 64 ->
  physmem_excluded_loop exs pa e = true <-> exists x, pa <= x < e /\ in_regions exs x.
Proof.
  intros Hexs Hlo Hpa He. revert lo Hexs Hlo.
  induction exs as [| r exs IH]; intros lo Hexs Hlo; cbn [physmem_excluded_loop].
  { split; [done |]. intros (x & _ & Hx). by apply in_regions_nil in Hx. }
  destruct Hexs as (? & ? & ? & Hexs). rewrite r_end_eq by lia.
  destruct ((pa <? r_addr r + r_size r) && (e >? r_addr r)) eqn:E; zbool.
  - split; [| done]. intros _. exists (Z.max pa (r_addr r)). split; [lia |].
    apply in_regions_cons. left. unfold in_region. lia.
  - rewrite (IH _ Hexs) by lia. split; intros (x & Hx & Hin); exists x; (split; [done |]).
    + apply in_regions_cons. by right.
    + apply in_regions_cons in Hin as [Hin | ?]; [| done]. unfold in_region in Hin. lia.
Qed.

(** ** Properties *)

(** Excluding a range adds the pages that meet it. *)
Lemma physmem_exclude_region_spec pm pa size :
  physmem_ok pm -> 0 <= pa -> 0 < size -> pa + size < 2 ^ 64 - 4095 ->
  match physmem_exclude_region pm pa size with
  | Ret pm' =>
      physmem_ok pm' /\ hwregions pm' = hwregions pm /\
      (forall x, 0 <= x ->
        in_regions (exregions pm') x <->
        in_regions (exregions pm) x \/
        (x / 4096 * 4096 < pa + size /\ pa < x / 4096 * 4096 + 4096))
  | Panic _ => length (exregions pm) = MAX_EXCNT
  end.
Proof.
  intros Hok Hpa Hs Htop. unfold physmem_exclude_region.
  pose proof (fun x => ex_range_outer pa size x Hpa Hs Htop) as Hset.
  assert (Hb : 0 <= PGROUNDDW pa < PGROUNDUP (u64 (pa + size)) /\ PGROUNDUP (u64 (pa + size)) < 2 ^ 64).
  { rewrite u64_small, PGROUNDUP_eq, PGROUNDDW_eq by lia. Z.div_mod_to_equations. lia. }
  destruct (Z.geb_spec (PGROUNDDW pa) (PGROUNDUP (u64 (pa + size)))); [lia |].
  pose proof (PGROUNDUP_aligned (u64 (pa + size))). pose proof (PGROUNDDW_aligned pa ltac:(lia)).
  destruct Hok as (Hh & Hha & Hhn & Hx & Hxa & Hxn). rewrite u64_small by lia.
  pose proof (insert_region_spec (exregions pm) MAX_EXCNT (PGROUNDDW pa)
    (PGROUNDUP (u64 (pa + size)) - PGROUNDDW pa) Hx) as Hins.
  destruct (insert_region _ _ _ _) as [l |]; [| destruct Hins; [lia.. |]; lia].
  destruct Hins as (Hok' & Hin & Hlen & Hal); [lia.. |].
  split; [repeat (split; [done |]); split; [auto with av6 | cbn; lia] |].
  split; [done |]. intros x Hx'. cbn. rewrite Hin, <- (Hset x Hx').
  replace (PGROUNDDW pa + (PGROUNDUP (u64 (pa + size)) - PGROUNDDW pa))
    with (PGROUNDUP (u64 (pa + size))) by lia. done.
Qed.

(** C38: [physmem_avail] publishes exactly the hardware regions minus the
    exclusions. From any state satisfying the component's invariant it returns
    (the VM_PHYSSEG_MAX panic is unreachable: at most one segment per bank plus
    one per exclusion), the segments are non-empty, page-aligned, disjoint and
    ascending, an address is in a segment iff it is in a bank and in no
    exclusion, and running it again changes nothing. *)
Theorem physmem_avail_difference pm :
  physmem_ok pm ->
  exists segs, let pm' := Physmem (hwregions pm) (exregions pm) segs in
    physmem_avail pm = Ret pm' /\
    segs_ok segs /\ Forall seg_aligned segs /\ (length segs <= MAX_HWCNT + MAX_EXCNT)%nat /\
    (forall x, in_segs segs x <-> in_regions (hwregions pm) x /\ ~ in_regions (exregions pm) x) /\
    physmem_avail pm' = Ret pm'.
Proof.
  intros H. destruct (physmem_avail_spec pm H) as (segs & Hr & Hok & Hal & Hn & Hin).
  exists segs. cbn zeta. repeat (split; [done |]). exact Hr.
Qed.

(** recording a bank adds exactly the pages that lie wholly inside
    [[pa, pa+size)] to the hardware set and keeps the invariant; it panics only
    when all MAX_HWCNT entries are taken by banks the new one does not touch. *)
Theorem physmem_hardware_region_union pm pa size :
  physmem_ok pm -> 0 <= pa -> 0 <= size -> pa + size < 2 ^ 64 - 4095 ->
  match physmem_hardware_region pm pa size with
  | Ret pm' =>
      physmem_ok pm' /\ exregions pm' = exregions pm /\
      forall x, 0 <= x ->
        in_regions (hwregions pm') x <->
        in_regions (hwregions pm) x \/
        (pa <= x / 4096 * 4096 /\ x / 4096 * 4096 + 4096 <= pa + size)
  | Panic _ =>
      length (hwregions pm) = MAX_HWCNT /\
      Forall (fun r => ~ touches r (PGROUNDUP pa) (PGROUNDDW (u64 (pa + size)) - PGROUNDUP pa))
        (hwregions pm)
  end.
Proof.
  intros Hok Hpa Hs Htop. unfold physmem_hardware_region.
  pose proof (fun x => hw_range_inner pa size x Hpa Hs Htop) as Hset.
  destruct (Z.geb_spec (PGROUNDUP pa) (PGROUNDDW (u64 (pa + size)))).
  { split; [done |]. split; [done |]. intros x Hx. rewrite <- (Hset x Hx). intuition lia. }
  assert (Hb : 0 <= PGROUNDUP pa /\ PGROUNDDW (u64 (pa + size)) < 2 ^ 64).
  { rewrite PGROUNDUP_eq, PGROUNDDW_eq, u64_small by (pose proof (u64_range (pa + size)); lia).
    Z.div_mod_to_equations. lia. }
  pose proof (PGROUNDUP_aligned pa). pose proof (PGROUNDDW_aligned _ (u64_range (pa + size))).
  destruct Hok as (Hh & Hha & Hhn & Hex). rewrite u64_small by lia.
  pose proof (insert_region_spec (hwregions pm) MAX_HWCNT (PGROUNDUP pa)
    (PGROUNDDW (u64 (pa + size)) - PGROUNDUP pa) Hh) as Hins.
  destruct (insert_region _ _ _ _) as [l |].
  - destruct Hins as (Hok' & Hin & Hlen & Hal); [lia.. |]. split.
    + split; [done |]. split; [auto with av6 |]. split; [cbn; lia | done].
    + split; [done |]. intros x Hx. cbn. rewrite Hin, <- (Hset x Hx).
      replace (PGROUNDUP pa + (PGROUNDDW (u64 (pa + size)) - PGROUNDUP pa))
        with (PGROUNDDW (u64 (pa + size))) by lia. done.
  - destruct Hins as (Hlen & Hno); [lia.. |]. split; [lia | done].
Qed.

(** excluding a range adds every page that meets [[pa, pa+size)] to the
    excluded set and keeps the invariant; afterwards [physmem_excluded] answers
    true for a non-empty range iff it meets the excluded set. *)
Theorem physmem_exclude_region_covers pm pa size :
  physmem_ok pm -> 0 <= pa -> 0 < size -> pa + size < 2 ^ 64 - 4095 ->
  match physmem_exclude_region pm pa size with
  | Ret pm' =>
      physmem_ok pm' /\ hwregions pm' = hwregions pm /\
      (forall x, 0 <= x ->
        in_regions (exregions pm') x <->
        in_regions (exregions pm) x \/
        (x / 4096 * 4096 < pa + size /\ pa < x / 4096 * 4096 + 4096)) /\
      (forall q n, 0 <= q -> 0 < n -> q + n < 2 ^ 64 ->
        physmem_excluded pm' q n = true <->
        exists x, q <= x < q + n /\ in_regions (exregions pm') x)
  | Panic _ => length (exregions pm) = MAX_EXCNT
  end.
Proof.
  intros Hok Hpa Hs Htop. pose proof (physmem_exclude_region_spec pm pa size Hok Hpa Hs Htop) as H.
  destruct (physmem_exclude_region pm pa size) as [pm' |]; [| done].
  destruct H as (Hok' & Hh & Hin). repeat (split; [done |]).
  intros q n Hq Hn Hqn. unfold physmem_excluded. rewrite u64_small by lia.
  apply (physmem_excluded_loop_spec _ _ _ (-1)); (apply Hok' || lia).
Qed.

(** once the segments are published, [physmem_seg] finds a segment exactly
    for the usable addresses, the one it returns holds the address, and
    [physmem_size] is the exact number of usable bytes (no wrap-around), a whole
    number of pages. *)
Theorem physmem_seg_size_exact pm pm' :
  physmem_ok pm -> physmem_avail pm = Ret pm' ->
  (forall pa, match physmem_seg pm' pa with
    | Some i => exists s, vm_phys_segs pm' !! i = Some s /\ in_seg s pa
    | None => ~ (in_regions (hwregions pm) pa /\ ~ in_regions (exregions pm) pa)
    end) /\
  physmem_size pm' = seg_bytes (vm_phys_segs pm') /\ page_aligned (physmem_size pm').
Proof.
  intros Hok Hr. destruct (physmem_avail_spec pm Hok) as (segs & Hr' & Hs & Hal & Hn & Hin).
  rewrite Hr in Hr'. injection Hr' as ->. cbn [vm_phys_segs]. split.
  - intros pa. pose proof (physmem_seg_loop_spec segs pa 0) as Hl. unfold physmem_seg. cbn.
    destruct (physmem_seg_loop segs pa 0) as [i |]; [| by rewrite <- Hin].
    destruct Hl as (j & s & -> & ? & ?). by exists s.
  - destruct (physmem_size_spec (Physmem (hwregions pm) (exregions pm) segs) Hs) as [Hsum _].
    rewrite Hsum. split; [done | by apply seg_bytes_aligned].
Qed.

(** ** Witnesses *)

Definition qemu_virt : physmem :=
  Physmem [Region 0x40000000 0x40000000] [Region 0x40080000 0x100000] [].

Lemma qemu_virt_ok : physmem_ok qemu_virt.
Proof. repeat split; cbn; try lia; repeat constructor. Qed.

Lemma physmem_avail_difference_witness :
  exists segs, physmem_avail qemu_virt = Ret (Physmem (hwregions qemu_virt) (exregions qemu_virt) segs)
    /\ length segs = 2%nat.
Proof.
  destruct (physmem_avail_difference qemu_virt qemu_virt_ok) as (segs & Hr & _).
  exists segs. split; [exact Hr |].
  vm_compute in Hr. injection Hr as <-. reflexivity.
Defined.

Lemma physmem_hardware_region_union_witness :
  exists pm', physmem_hardware_region qemu_virt 0x80000800 0x10000 = Ret pm' /\
    in_regions (hwregions pm') 0x80001000 /\ physmem_ok pm'.
Proof.
  pose proof (physmem_hardware_region_union qemu_virt 0x80000800 0x10000 qemu_virt_ok
    ltac:(lia) ltac:(lia) ltac:(lia)) as H.
  destruct (physmem_hardware_region qemu_virt 0x80000800 0x10000) as [pm' |] eqn:E;
    [| vm_compute in E; discriminate].
  destruct H as (Hok & _ & Hin). exists pm'. split; [reflexivity |]. split; [| exact Hok].
  apply Hin; [lia |]. right. vm_compute. split; discriminate.
Defined.

Lemma physmem_exclude_region_covers_witness :
  exists pm', physmem_exclude_region qemu_virt 0x7fffffff 2 = Ret pm' /\
    physmem_excluded pm' 0x80000fff 1 = true.
Proof.
  pose proof (physmem_exclude_region_covers qemu_virt 0x7fffffff 2 qemu_virt_ok
    ltac:(lia) ltac:(lia) ltac:(lia)) as H.
  destruct (physmem_exclude_region qemu_virt 0x7fffffff 2) as [pm' |] eqn:E;
    [| vm_compute in E; discriminate].
  destruct H as (_ & _ & Hin & Hex). exists pm'. split; [reflexivity |].
  apply Hex; [lia.. |]. exists 0x80000fff. split; [lia |].
  apply Hin; [lia |]. right. vm_compute. split; reflexivity.
Defined.

Lemma physmem_seg_size_exact_witness :
  exists pm', physmem_avail qemu_virt = Ret pm' /\ physmem_size pm' = 0x3ff00000.
Proof.
  destruct (physmem_avail qemu_virt) as [pm' |] eqn:E; [| vm_compute in E; discriminate].
  exists pm'. split; [reflexivity |].
  destruct (physmem_seg_size_exact qemu_virt pm' qemu_virt_ok E) as (_ & H & _).
  rewrite H. vm_compute in E. injection E as <-. reflexivity.
Defined.
