(* ===== verification/Kalloc.v ===== *)
(** * The physical page allocator

    Models vm/kalloc.c and [boot_alloc] of arch/pmap.c. A [struct page *] is its
    index in the descriptor array; each segment's [first_page] is the index its
    slice starts at, and the free list threads the descriptors. [kmem_reclaim] of
    vm/slab.c, which the allocator calls when it runs dry, is the interface
    [PageReclaim].

    The operations on the free list run under kmem.lock, so each is one step. *)

From stdpp Require Import sorting.
From S2P Require Import Prelude Bits Mmu Physmem.

Definition PG_UNUSED : Z := 0.
Definition PG_FREE : Z := 1.
Definition PG_USED : Z := 2.
Definition PG_SLAB : Z := 3.

Record page := Page { pg_next : option Z; pg_flags : Z; pg_refcnt : Z }.

Definition sizeof_page : Z := 16.

Record kalloc := Kalloc {
  ka_pm : physmem;
  pages : Z -> page;
  npages : Z;
  freelist : option Z;
  boot_freemem : Z
}.

(** ** Operations *)

Definition seg_pages (s : vm_phys_seg) : Z := Z.shiftr (u64 (seg_end s - seg_start s)) PGSHIFT.

(** PA -> descriptor, NULL if not usable RAM. [first_page] is NULL only before
    [kinit], which runs before any caller. *)
Definition pa_to_page (pm : physmem) (pa : Z) : option Z :=
  i ← physmem_seg pm pa;
  seg ← vm_phys_segs pm !! i;
  fp ← first_page seg;
  Some (fp + Z.shiftr (u64 (pa - seg_start seg)) PGSHIFT).

Fixpoint page_to_pa_loop (segs : list vm_phys_seg) (pg : Z) : res Z :=
  match segs with
  | [] => Panic "unreachable code"
  | s :: segs' =>
      match first_page s with
      | Some fp =>
          if (pg >=? fp) && (pg <? fp + seg_pages s)
          then Ret (u64 (seg_start s + Z.shiftl (pg - fp) PGSHIFT))
          else page_to_pa_loop segs' pg
      | None => page_to_pa_loop segs' pg
      end
  end.

Definition page_to_pa (pm : physmem) (pg : Z) : res Z := page_to_pa_loop (vm_phys_segs pm) pg.

Definition set_page (st : kalloc) (i : Z) (p : page) : kalloc :=
  Kalloc (ka_pm st) ((pages st).[i <- p]) (npages st) (freelist st) (boot_freemem st).

Definition set_flags (p : page) (f : Z) : page := Page (pg_next p) f (pg_refcnt p).

Definition kpage_set_slab (st : kalloc) (va : Z) : res kalloc :=
  match pa_to_page (ka_pm st) (KVA_TO_PA va) with
  | None => Panic "kpage_set_slab: not managed RAM"
  | Some pg => Ret (set_page st pg (set_flags (pages st pg) PG_SLAB))
  end.

Definition kpage_is_slab (st : kalloc) (va : Z) : bool :=
  match pa_to_page (ka_pm st) (KVA_TO_PA (PGROUNDDW va)) with
  | None => false
  | Some pg => pg_flags (pages st pg) =? PG_SLAB
  end.

(** pg->flags = PG_FREE; pg->refcnt = 0; pg->next = freelist; freelist = pg; *)
Definition freelist_push (st : kalloc) (pg : Z) : kalloc :=
  Kalloc (ka_pm st) ((pages st).[pg <- Page (freelist st) PG_FREE 0]) (npages st)
    (Some pg) (boot_freemem st).

(** boot_alloc of pmap.c: npages of RAM above the kernel image. *)
Definition boot_alloc (st : kalloc) (n : Z) : kalloc * Z :=
  (Kalloc (ka_pm st) (pages st) (npages st) (freelist st)
     (u64 (boot_freemem st + u64 (n * PGSIZE))),
   boot_freemem st).

(** Slice the array across the segments, in order. *)
Fixpoint slice_segs (segs : list vm_phys_seg) (pg : Z) : list vm_phys_seg :=
  match segs with
  | [] => []
  | s :: segs' =>
      Seg (seg_start s) (seg_end s) (Some pg) :: slice_segs segs' (pg + seg_pages s)
  end.

(** for (pa = start; pa < end; pa += PGSIZE) free the page at pa *)
Fixpoint free_seg_loop (fuel : nat) (st : kalloc) (pa e : Z) : res kalloc :=
  match fuel with
  | O => Ret st
  | S fuel' =>
      if pa <? e then
        match pa_to_page (ka_pm st) pa with
        | None => Panic "fault: NULL page descriptor"
        | Some pg => free_seg_loop fuel' (freelist_push st pg) (u64 (pa + PGSIZE)) e
        end
      else Ret st
  end.

Fixpoint free_segs_loop (segs : list vm_phys_seg) (st : kalloc) : res kalloc :=
  match segs with
  | [] => Ret st
  | s :: segs' =>
      st' ← free_seg_loop (S (Z.to_nat (seg_pages s))) st (seg_start s) (seg_end s);
      free_segs_loop segs' st'
  end.

Definition with_pm (st : kalloc) (pm : physmem) : kalloc :=
  Kalloc pm (pages st) (npages st) (freelist st) (boot_freemem st).

Definition kinit (st0 : kalloc) : res kalloc :=
  pm1 ← physmem_avail (ka_pm st0);
  let np := Z.shiftr (physmem_size pm1) PGSHIFT in
  let array_bytes := PGROUNDUP (u64 (np * sizeof_page)) in
  let '(st1, array_pa) := boot_alloc (with_pm st0 pm1) (Z.shiftr array_bytes PGSHIFT) in
  match s ← physmem_seg pm1 array_pa; vm_phys_segs pm1 !! s with
  | None => Panic "kinit: no room for the page-descriptor array"
  | Some seg =>
      if u64 (array_pa + array_bytes) >? seg_end seg
      then Panic "kinit: no room for the page-descriptor array"
      else
        pm2 ← physmem_exclude_region pm1 array_pa array_bytes;
        pm3 ← physmem_avail pm2;
        let segs := slice_segs (vm_phys_segs pm3) 0 in
        free_segs_loop segs
          (Kalloc (Physmem (hwregions pm3) (exregions pm3) segs) (pages st1) np
             (freelist st1) (boot_freemem st1))
  end.

Definition kpage_free (st : kalloc) (vaddr : Z) : res kalloc :=
  let pa := KVA_TO_PA vaddr in
  kassert (pa mod PGSIZE =? 0) msg "kfree: unaligned address" ;;
  match pa_to_page (ka_pm st) pa with
  | None => Panic "kfree: not managed RAM"
  | Some pg =>
      let p := pages st pg in
      kassert ((pg_flags p =? PG_USED) || (pg_flags p =? PG_SLAB)) msg "kpage_free: not allocated" ;;
      kassert (pg_refcnt p =? 1) msg "kfree: bad refcnt" ;;
      Ret (freelist_push st pg)
  end.

Definition freelist_pop (st : kalloc) : kalloc * option Z :=
  match freelist st with
  | None => (st, None)
  | Some pg =>
      let p := pages st pg in
      (Kalloc (ka_pm st) ((pages st).[pg <- Page (pg_next p) PG_USED 1]) (npages st)
         (pg_next p) (boot_freemem st), Some pg)
  end.

(** What the slab allocator promises the page allocator: [kmem_reclaim] works on
    a world that contains the allocator's state. *)
Class PageReclaim (W : Type) := {
  w_ka : W -> kalloc;
  w_set_ka : W -> kalloc -> W;
  kmem_reclaim : W -> res (W * Z)
}.

Definition w_pop {W} `{PageReclaim W} (w : W) : W * option Z :=
  let '(ka, pg) := freelist_pop (w_ka w) in (w_set_ka w ka, pg).

(** A [char *] result: None is NULL. *)
Definition kpage_alloc {W} `{PageReclaim W} (w : W) : res (W * option Z) :=
  let '(w1, pg1) := w_pop w in
  r2 ← match pg1 with
       | Some _ => Ret (w1, pg1)
       | None =>
           r ← kmem_reclaim w1;
           Ret (if r.2 >? 0 then w_pop r.1 else (r.1, None))
       end;
  match r2.2 with
  | None => Ret (r2.1, None)
  | Some pg => pa ← page_to_pa (ka_pm (w_ka r2.1)) pg; Ret (r2.1, Some (PA_TO_KVA pa))
  end.

(** ** Specification *)

(** The free list as the list of descriptors it links. *)
Fixpoint chain (pgs : Z -> page) (p : option Z) (l : list Z) : Prop :=
  match l with
  | [] => p = None
  | i :: l' => p = Some i /\ chain pgs (pg_next (pgs i)) l'
  end.

(** Consecutive slices of the descriptor array, from [pg] on. *)
Fixpoint sliced (pg : Z) (l : list vm_phys_seg) : Prop :=
  match l with
  | [] => True
  | s :: l' => first_page s = Some pg /\ sliced (pg + (seg_end s - seg_start s) / 4096) l'
  end.

Fixpoint total_pages (l : list vm_phys_seg) : Z :=
  match l with
  | [] => 0
  | s :: l' => (seg_end s - seg_start s) / 4096 + total_pages l'
  end.

Definition segs_sliced (pm : physmem) : Prop :=
  segs_ok (vm_phys_segs pm) /\ Forall seg_aligned (vm_phys_segs pm) /\
  sliced 0 (vm_phys_segs pm).

Definition managed (st : kalloc) (i : Z) : Prop :=
  0 <= i < total_pages (vm_phys_segs (ka_pm st)).

(** The invariant between critical sections: the free list holds exactly the
    descriptors marked free, each once, and every descriptor has the reference
    count its flag calls for. *)
Definition kalloc_ok (st : kalloc) (l : list Z) : Prop :=
  segs_sliced (ka_pm st) /\
  total_pages (vm_phys_segs (ka_pm st)) <= npages st /\
  chain (pages st) (freelist st) l /\ NoDup l /\
  (forall i, i ∈ l <-> managed st i /\ pg_flags (pages st i) = PG_FREE) /\
  (forall i, managed st i ->
     (pg_flags (pages st i) = PG_FREE /\ pg_refcnt (pages st i) = 0) \/
     ((pg_flags (pages st i) = PG_USED \/ pg_flags (pages st i) = PG_SLAB) /\
      pg_refcnt (pages st i) = 1)).

(** The flag of the page holding physical address [pa]; None for unmanaged. *)
Definition page_flags (st : kalloc) (pa : Z) : option Z :=
  i ← pa_to_page (ka_pm st) pa; Some (pg_flags (pages st i)).

(** ** Lemmas: descriptors and addresses *)

Fixpoint find_page (segs : list vm_phys_seg) (pa : Z) : option Z :=
  match segs with
  | [] => None
  | s :: segs' =>
      if (pa >=? seg_start s) && (pa <? seg_end s)
      then fp ← first_page s; Some (fp + Z.shiftr (u64 (pa - seg_start s)) PGSHIFT)
      else find_page segs' pa
  end.

Lemma pa_to_page_find pm pa : pa_to_page pm pa = find_page (vm_phys_segs pm) pa.
Proof.
  unfold pa_to_page, physmem_seg.
  assert (H : forall segs0 segs k, length segs0 = k ->
    (i ← physmem_seg_loop segs pa k; seg ← (segs0 ++ segs) !! i; fp ← first_page seg;
     Some (fp + Z.shiftr (u64 (pa - seg_start seg)) PGSHIFT)) = find_page segs pa).
  2: { exact (H [] _ 0%nat eq_refl). }
  intros segs0 segs. revert segs0. induction segs as [| s segs IH]; intros segs0 k Hk; [done |].
  cbn [physmem_seg_loop find_page]. destruct (_ && _).
  - cbn. rewrite list_lookup_middle by done. done.
  - specialize (IH (segs0 ++ [s]) (S k)). rewrite <- app_assoc in IH.
    apply IH. rewrite length_app. cbn. lia.
Qed.

Lemma seg_offset s pa : in_seg s pa -> 0 <= seg_start s -> seg_end s < 2 ^ 64 ->
  Z.shiftr (u64 (pa - seg_start s)) PGSHIFT = (pa - seg_start s) / 4096.
Proof.
  unfold in_seg. intros. unfold PGSHIFT. rewrite u64_small, Z.shiftr_div_pow2 by lia. done.
Qed.

Lemma seg_pages_eq s : 0 <= seg_start s < seg_end s -> seg_end s < 2 ^ 64 ->
  seg_pages s = (seg_end s - seg_start s) / 4096.
Proof.
  intros. unfold seg_pages, PGSHIFT. rewrite u64_small, Z.shiftr_div_pow2 by lia. done.
Qed.

Lemma segs_ok_cons s segs : segs_ok (s :: segs) ->
  segs_ok segs /\ Forall (seg_before s) segs /\ 0 <= seg_start s < seg_end s /\ seg_end s < 2 ^ 64.
Proof.
  intros [Hs Hf]. apply StronglySorted_inv in Hs. apply Forall_cons in Hf.
  destruct Hs, Hf as [[? ?] ?]. done.
Qed.

Lemma total_pages_nonneg segs : segs_ok segs -> 0 <= total_pages segs.
Proof.
  induction segs as [| s segs IH]; intros H; [done |]. apply segs_ok_cons in H as (H & _ & Hs & ?).
  cbn [total_pages]. specialize (IH H). Z.div_mod_to_equations. lia.
Qed.

(** Addresses to descriptors and back, over a sliced table. *)
Lemma find_page_spec segs fp pa :
  segs_ok segs -> Forall seg_aligned segs -> sliced fp segs ->
  match find_page segs pa with
  | Some i => in_segs segs pa /\ fp <= i < fp + total_pages segs /\
      page_to_pa_loop segs i = Ret (pa / 4096 * 4096)
  | None => ~ in_segs segs pa
  end.
Proof.
  revert fp. induction segs as [| s segs IH]; intros fp Hok Hal Hsl; [intros H; inversion H |].
  apply segs_ok_cons in Hok as (Hok & Hb & Hs & Hs').
  apply Forall_cons in Hal as [[Ha1 Ha2] Hal]. destruct Hsl as [Hfp Hsl].
  cbn [find_page page_to_pa_loop total_pages]. rewrite Hfp.
  pose proof (total_pages_nonneg segs Hok). unfold page_aligned in *.
  rewrite (seg_pages_eq s) by lia.
  destruct ((pa >=? seg_start s) && (pa <? seg_end s)) eqn:E; zbool.
  - cbn. rewrite seg_offset by (unfold in_seg; lia).
    assert (0 <= (pa - seg_start s) / 4096 < (seg_end s - seg_start s) / 4096)
      by (Z.div_mod_to_equations; lia).
    split; [apply in_segs_cons; left; unfold in_seg; lia |]. split; [lia |].
    destruct (_ && _) eqn:E2; [| zbool; lia]. f_equal. unfold PGSHIFT.
    rewrite Z.shiftl_mul_pow2 by lia. change (2 ^ 12) with 4096.
    rewrite u64_small; Z.div_mod_to_equations; lia.
  - specialize (IH _ Hok Hal Hsl). destruct (find_page segs pa) as [i |].
    + destruct IH as (Hin & Hi & Hp). split; [apply in_segs_cons; by right |].
      assert (0 <= (seg_end s - seg_start s) / 4096) by (Z.div_mod_to_equations; lia).
      split; [lia |]. destruct (_ && _) eqn:E2; [zbool; lia | done].
    + rewrite in_segs_cons. unfold in_seg. intuition lia.
Qed.

Lemma page_to_pa_loop_spec segs fp i :
  segs_ok segs -> Forall seg_aligned segs -> sliced fp segs -> fp <= i < fp + total_pages segs ->
  exists pa, page_to_pa_loop segs i = Ret pa /\ page_aligned pa /\ in_segs segs pa /\
    find_page segs pa = Some i.
Proof.
  revert fp. induction segs as [| s segs IH]; intros fp Hok Hal Hsl Hi; [cbn in Hi; lia |].
  apply segs_ok_cons in Hok as (Hok & Hb & Hs & Hs').
  apply Forall_cons in Hal as [[Ha1 Ha2] Hal]. destruct Hsl as [Hfp Hsl].
  cbn [find_page page_to_pa_loop total_pages] in *. rewrite Hfp.
  unfold page_aligned in *. rewrite (seg_pages_eq s) by lia.
  destruct (_ && _) eqn:E; zbool.
  - exists (seg_start s + (i - fp) * 4096). unfold PGSHIFT.
    assert (Hlt : seg_start s + (i - fp) * 4096 < seg_end s) by (Z.div_mod_to_equations; lia).
    rewrite Z.shiftl_mul_pow2, u64_small by lia. split; [done |].
    split; [Z.div_mod_to_equations; lia |]. split.
    + apply in_segs_cons. left. unfold in_seg. lia.
    + destruct (_ && _) eqn:E2; [| zbool; lia]. cbn. f_equal.
      rewrite u64_small, Z.shiftr_div_pow2 by lia. Z.div_mod_to_equations. lia.
  - destruct (IH _ Hok Hal Hsl ltac:(lia)) as (pa & Hp & Hpa & Hin & Hf).
    exists pa. split; [done |]. split; [done |]. split; [apply in_segs_cons; by right |].
    destruct (_ && _) eqn:E2; [| done]. zbool. exfalso.
    apply Exists_exists in Hin as (t & Ht & Hin). rewrite Forall_forall in Hb.
    specialize (Hb t Ht). unfold in_seg, seg_before in *. lia.
Qed.

Lemma pa_to_page_spec pm pa : segs_sliced pm ->
  match pa_to_page pm pa with
  | Some i => in_segs (vm_phys_segs pm) pa /\ 0 <= i < total_pages (vm_phys_segs pm) /\
      page_to_pa pm i = Ret (pa / 4096 * 4096)
  | None => ~ in_segs (vm_phys_segs pm) pa
  end.
Proof.
  intros (Hok & Hal & Hsl). rewrite pa_to_page_find.
  exact (find_page_spec _ 0 pa Hok Hal Hsl).
Qed.

Lemma page_to_pa_spec pm i : segs_sliced pm -> 0 <= i < total_pages (vm_phys_segs pm) ->
  exists pa, page_to_pa pm i = Ret pa /\ page_aligned pa /\ in_segs (vm_phys_segs pm) pa /\
    pa_to_page pm pa = Some i /\ 0 <= pa < 2 ^ 64.
Proof.
  intros (Hok & Hal & Hsl) Hi.
  destruct (page_to_pa_loop_spec _ 0 i Hok Hal Hsl Hi) as (pa & Hp & Hpa & Hin & Hf).
  exists pa. rewrite pa_to_page_find. repeat (split; [done |]).
  apply Exists_exists in Hin as (t & Ht & Hin).
  pose proof (segs_ok_bound _ t Hok Ht). unfold in_seg in Hin. lia.
Qed.

(** Two addresses with one descriptor are on one page. *)
Lemma pa_to_page_inj pm pa pa' i : segs_sliced pm ->
  pa_to_page pm pa = Some i -> pa_to_page pm pa' = Some i -> pa / 4096 = pa' / 4096.
Proof.
  intros Hs H H'. pose proof (pa_to_page_spec pm pa Hs) as P.
  pose proof (pa_to_page_spec pm pa' Hs) as P'. rewrite H in P. rewrite H' in P'.
  destruct P as (_ & _ & P), P' as (_ & _ & P'). rewrite P in P'. injection P'. lia.
Qed.

(** ** Lemmas: the free list *)

Lemma chain_upd pgs i x l p : i ∉ l -> chain pgs.[i <- x] p l <-> chain pgs p l.
Proof.
  revert p. induction l as [| j l IH]; intros p Hi; [done |].
  apply not_elem_of_cons in Hi as [Hj Hi]. cbn. rewrite upd_ne by done. by rewrite IH.
Qed.

Lemma chain_func pgs p l l' : chain pgs p l -> chain pgs p l' -> l = l'.
Proof.
  revert p l'. induction l as [| i l IH]; intros p [| i' l']; cbn; [done | | |].
  - intros -> [? _]. done.
  - intros [-> _]. done.
  - intros [-> H] [[= <-] H']. f_equal. eauto.
Qed.

(** Popping: either nothing was free and nothing changes, or the head becomes
    used and every other descriptor is untouched. *)
Lemma freelist_pop_spec st l : kalloc_ok st l ->
  match l with
  | [] => freelist_pop st = (st, None)
  | i :: l' => exists st', freelist_pop st = (st', Some i) /\ kalloc_ok st' l' /\
      ka_pm st' = ka_pm st /\ managed st i /\ pg_flags (pages st i) = PG_FREE /\
      pg_flags (pages st' i) = PG_USED /\ (forall j, j <> i -> pages st' j = pages st j)
  end.
Proof.
  intros (Hs & Hn & Hc & Hd & Hfree & Href). unfold freelist_pop.
  destruct l as [| i l]; cbn in Hc; [by rewrite Hc |]. destruct Hc as [-> Hc].
  apply NoDup_cons in Hd as [Hi Hd]. eexists. split; [reflexivity |].
  destruct (proj1 (Hfree i) ltac:(left)) as [Hm Hf]. cbn [ka_pm].
  split; [| cbn [pages]; rewrite upd_eq; repeat (split; [done |]); intros; by rewrite upd_ne].
  split; [done |]. split; [done |]. split; [by apply chain_upd |]. split; [done |].
  split; intros j; change (managed _ j) with (managed st j); cbn [pages];
    destruct (decide (j = i)) as [-> | Hj]; rewrite ?upd_eq, ?upd_ne by done.
  - cbn. split; [done | intros [_ ?]; done].
  - rewrite <- Hfree, elem_of_cons. intuition.
  - intros _. right. cbn. auto.
  - apply Href.
Qed.

(** Pushing a managed descriptor that is not free. *)
Lemma freelist_push_spec st l i :
  kalloc_ok st l -> managed st i -> pg_flags (pages st i) <> PG_FREE ->
  kalloc_ok (freelist_push st i) (i :: l).
Proof.
  intros (Hs & Hn & Hc & Hd & Hfree & Href) Hm Hf.
  assert (Hi : i ∉ l) by (rewrite Hfree; intuition).
  split; [done |]. split; [done |]. split.
  { cbn. split; [done |]. rewrite upd_eq. cbn. by apply chain_upd. }
  split; [by apply NoDup_cons |].
  split; intros j; change (managed _ j) with (managed st j); cbn [pages freelist_push];
    destruct (decide (j = i)) as [-> | Hj]; rewrite ?upd_eq, ?upd_ne by done.
  - rewrite elem_of_cons. intuition.
  - rewrite <- Hfree, elem_of_cons. intuition.
  - intros _. left. done.
  - apply Href.
Qed.

(** ** Lemmas: kinit *)

Fixpoint down (n : nat) : list Z :=
  match n with
  | O => []
  | S n' => Z.of_nat n' :: down n'
  end.

Lemma elem_of_down n i : i ∈ down n <-> 0 <= i < Z.of_nat n.
Proof.
  induction n as [| n IH]; cbn [down].
  - split; [intros H; inversion H | lia].
  - rewrite elem_of_cons, IH. lia.
Qed.

Lemma NoDup_down n : NoDup (down n).
Proof.
  induction n as [| n IH]; cbn [down]; constructor; [| done]. rewrite elem_of_down. lia.
Qed.

(** The free list after the first [n] descriptors were pushed, in order. *)
Definition pushed (st : kalloc) (n : nat) : Prop :=
  chain (pages st) (freelist st) (down n) /\
  forall i, 0 <= i < Z.of_nat n ->
    pg_flags (pages st i) = PG_FREE /\ pg_refcnt (pages st i) = 0.

Lemma pushed_push st n : pushed st n -> pushed (freelist_push st (Z.of_nat n)) (S n).
Proof.
  intros [Hc Hf]. split.
  - cbn. split; [done |]. rewrite upd_eq. apply chain_upd; [| done]. rewrite elem_of_down. lia.
  - intros i Hi. cbn. destruct (decide (i = Z.of_nat n)) as [-> |]; [by rewrite upd_eq |].
    rewrite upd_ne by done. apply Hf. lia.
Qed.

Definition same_but_list (st st' : kalloc) : Prop :=
  ka_pm st' = ka_pm st /\ npages st' = npages st /\ boot_freemem st' = boot_freemem st.

Lemma find_page_in segs s pa : segs_ok segs -> s ∈ segs -> in_seg s pa ->
  find_page segs pa =
  (fp ← first_page s; Some (fp + Z.shiftr (u64 (pa - seg_start s)) PGSHIFT)).
Proof.
  induction segs as [| t segs IH]; intros Hok Hs Hin; [inversion Hs |].
  apply segs_ok_cons in Hok as (Hok & Hb & ? & ?). cbn [find_page]. unfold in_seg in *.
  apply elem_of_cons in Hs as [-> | Hs].
  - destruct (_ && _) eqn:E; [done | zbool; lia].
  - destruct (_ && _) eqn:E; [| by apply IH]. zbool. rewrite Forall_forall in Hb.
    specialize (Hb s Hs). unfold seg_before in Hb. lia.
Qed.

(** One segment: the pages from [seg_start + 4096 k] on, pushed in order. *)
Lemma free_seg_loop_spec segs s fp fuel st k n :
  vm_phys_segs (ka_pm st) = segs -> segs_ok segs -> s ∈ segs -> seg_aligned s ->
  first_page s = Some fp -> 0 <= k -> seg_start s + 4096 * k <= seg_end s ->
  fp + k = Z.of_nat n -> Z.of_nat fuel = (seg_end s - seg_start s) / 4096 - k + 1 ->
  pushed st n ->
  exists st', free_seg_loop fuel st (seg_start s + 4096 * k) (seg_end s) = Ret st' /\
    same_but_list st st' /\
    pushed st' (Z.to_nat (fp + (seg_end s - seg_start s) / 4096)).
Proof.
  intros Hsegs Hok Hs [Ha1 Ha2] Hfp. revert st k n Hsegs.
  pose proof (segs_ok_bound _ s Hok Hs) as Hb. unfold page_aligned in *.
  induction fuel as [| fuel IH]; intros st k n Hsegs Hk Hle Hn Hfuel Hp;
    [exfalso; Z.div_mod_to_equations; lia |].
  cbn [free_seg_loop]. destruct (Z.ltb_spec (seg_start s + 4096 * k) (seg_end s)).
  - rewrite pa_to_page_find, Hsegs, (find_page_in segs s) by (try done; unfold in_seg; lia).
    rewrite Hfp. cbn [mbind option_bind]. rewrite seg_offset by (unfold in_seg; lia).
    replace ((seg_start s + 4096 * k - seg_start s) / 4096) with k by (Z.div_mod_to_equations; lia).
    rewrite Hn. unfold PGSIZE.
    assert (seg_start s + 4096 * k + 4096 <= seg_end s) by (Z.div_mod_to_equations; lia).
    replace (u64 (seg_start s + 4096 * k + 4096)) with (seg_start s + 4096 * (k + 1))
      by (rewrite u64_small; lia).
    destruct (IH (freelist_push st (Z.of_nat n)) (k + 1) (S n)) as (st' & ? & Hsame & ?);
      [done | lia | lia | lia | lia | by apply pushed_push |].
    exists st'. split; [done |]. split; [exact Hsame | done].
  - exists st. split; [done |]. split; [done |].
    replace (Z.to_nat _) with n by (Z.div_mod_to_equations; lia). done.
Qed.

Lemma free_segs_loop_spec segs l st fp :
  vm_phys_segs (ka_pm st) = segs -> segs_ok segs -> l ⊆ segs -> segs_ok l ->
  Forall seg_aligned l -> sliced fp l -> 0 <= fp -> pushed st (Z.to_nat fp) ->
  exists st', free_segs_loop l st = Ret st' /\ same_but_list st st' /\
    pushed st' (Z.to_nat (fp + total_pages l)).
Proof.
  revert st fp. induction l as [| s l IH]; intros st fp Hsegs Hok Hsub Hl Hal Hsl Hfp Hp.
  { exists st. cbn. rewrite Z.add_0_r. done. }
  apply segs_ok_cons in Hl as (Hl & _ & ? & ?). apply Forall_cons in Hal as [Ha Hal].
  destruct Hsl as [Hf Hsl]. cbn [free_segs_loop total_pages].
  assert (0 <= (seg_end s - seg_start s) / 4096) by (Z.div_mod_to_equations; lia).
  destruct (free_seg_loop_spec segs s fp (S (Z.to_nat (seg_pages s))) st 0 (Z.to_nat fp))
    as (st1 & Hr & (Hpm & Hnp & Hbf) & Hp1); try (done || lia).
  { apply Hsub. left. }
  { rewrite seg_pages_eq by lia. lia. }
  replace (seg_start s + 4096 * 0) with (seg_start s) in Hr by lia. rewrite Hr. cbn [mbind res_bind].
  destruct (IH st1 (fp + (seg_end s - seg_start s) / 4096)) as (st2 & ? & (? & ? & ?) & ?);
    try (done || lia); [by rewrite Hpm | intros x Hx; apply Hsub; by right |].
  exists st2. split; [done |]. split; [unfold same_but_list; intuition congruence |].
  by rewrite Z.add_assoc.
Qed.

Lemma slice_segs_ok segs fp : segs_ok segs -> Forall seg_aligned segs ->
  segs_ok (slice_segs segs fp) /\ Forall seg_aligned (slice_segs segs fp) /\
  sliced fp (slice_segs segs fp).
Proof.
  intros Hok Hal. revert fp.
  assert (Hbef : forall s l pg, Forall (seg_before s) l -> Forall (seg_before s) (slice_segs l pg)).
  { intros s l pg H. revert pg. induction H; intros pg; cbn; [constructor |]. constructor; auto. }
  induction segs as [| s segs IH]; intros fp; [done |].
  pose proof (segs_ok_cons s segs Hok) as (Hok' & Hb & ? & ?).
  apply Forall_cons in Hal as [Ha Hal]. cbn [slice_segs sliced seg_start seg_end first_page].
  rewrite seg_pages_eq by lia.
  destruct (IH Hok' Hal (fp + (seg_end s - seg_start s) / 4096)) as ([Hs Hf] & Hal' & Hsl).
  split; [split |]; [| | split; [by constructor |]].
  - constructor; [done |]. apply Hbef. exact Hb.
  - constructor; [cbn; lia | done].
  - done.
Qed.

Lemma slice_segs_in segs fp x : in_segs (slice_segs segs fp) x <-> in_segs segs x.
Proof.
  revert fp. induction segs as [| s segs IH]; intros fp; [done |].
  cbn [slice_segs]. by rewrite !in_segs_cons, IH.
Qed.

Lemma slice_segs_total segs fp : total_pages (slice_segs segs fp) = total_pages segs.
Proof. revert fp. induction segs as [| s segs IH]; intros fp; cbn; [done | by rewrite IH]. Qed.

(** Pages counted as addresses: fewer usable addresses, fewer pages. *)
Fixpoint seg_addrs (l : list vm_phys_seg) : list Z :=
  match l with
  | [] => []
  | s :: l' => seqZ (seg_start s) (seg_end s - seg_start s) ++ seg_addrs l'
  end.

Lemma elem_of_seg_addrs l x : x ∈ seg_addrs l <-> in_segs l x.
Proof.
  induction l as [| s l IH]; cbn [seg_addrs].
  - rewrite in_segs_nil, elem_of_nil. done.
  - rewrite elem_of_app, elem_of_seqZ, IH, in_segs_cons. unfold in_seg. intuition lia.
Qed.

Lemma length_seg_addrs l : segs_ok l -> Z.of_nat (length (seg_addrs l)) = seg_bytes l.
Proof.
  induction l as [| s l IH]; intros H; [done |]. apply segs_ok_cons in H as (H & _ & ? & ?).
  cbn [seg_addrs seg_bytes]. rewrite length_app, length_seqZ, Nat2Z.inj_add, IH by done. lia.
Qed.

Lemma NoDup_seg_addrs l : segs_ok l -> NoDup (seg_addrs l).
Proof.
  induction l as [| s l IH]; intros H; [constructor |]. apply segs_ok_cons in H as (H & Hb & ? & ?).
  cbn [seg_addrs]. apply NoDup_app. split; [apply NoDup_seqZ |]. split; [| auto].
  intros x Hx Hx'. apply elem_of_seqZ in Hx. apply elem_of_seg_addrs in Hx'.
  apply Exists_exists in Hx' as (t & Ht & Hin). rewrite Forall_forall in Hb.
  specialize (Hb t Ht). unfold seg_before, in_seg in *. lia.
Qed.

Lemma seg_bytes_mono l1 l2 : segs_ok l1 -> segs_ok l2 ->
  (forall x, in_segs l1 x -> in_segs l2 x) -> seg_bytes l1 <= seg_bytes l2.
Proof.
  intros H1 H2 Hsub. rewrite <- !length_seg_addrs by done. apply Nat2Z.inj_le, submseteq_length.
  apply NoDup_submseteq; [by apply NoDup_seg_addrs |]. intros x. rewrite !elem_of_seg_addrs. apply Hsub.
Qed.

Lemma total_pages_bytes l : segs_ok l -> Forall seg_aligned l -> total_pages l * 4096 = seg_bytes l.
Proof.
  induction l as [| s l IH]; intros H Ha; [done |]. apply segs_ok_cons in H as (H & _ & ? & ?).
  apply Forall_cons in Ha as [[Ha1 Ha2] Ha]. cbn [total_pages seg_bytes].
  specialize (IH H Ha). unfold page_aligned in *. Z.div_mod_to_equations. lia.
Qed.

(** Everything pushed is a free list the invariant accepts. *)
Lemma pushed_ok st :
  segs_sliced (ka_pm st) -> total_pages (vm_phys_segs (ka_pm st)) <= npages st ->
  pushed st (Z.to_nat (total_pages (vm_phys_segs (ka_pm st)))) ->
  exists l, kalloc_ok st l /\
    forall pa, page_flags st pa = Some PG_FREE <-> in_segs (vm_phys_segs (ka_pm st)) pa.
Proof.
  intros Hs Hn [Hc Hf]. set (n := Z.to_nat _) in *. pose proof (total_pages_nonneg _ (proj1 Hs)).
  exists (down n). split.
  - split; [done |]. split; [done |]. split; [done |]. split; [apply NoDup_down |].
    split; intros i.
    + rewrite elem_of_down. unfold managed. split; [| lia].
      intros Hi. split; [lia |]. by apply Hf.
    + intros Hi. left. apply Hf. unfold managed in Hi. lia.
  - intros pa. unfold page_flags. pose proof (pa_to_page_spec _ pa Hs) as P.
    destruct (pa_to_page (ka_pm st) pa) as [i |]; cbn.
    + destruct P as (Hin & Hi & _). destruct (Hf i ltac:(lia)) as [-> _]. done.
    + split; [done | intros; contradiction].
Qed.

Definition array_bytes (pm : physmem) : Z := PGROUNDUP (physmem_size pm / 4096 * 16).

(** The second half of [kinit]: with the array carved and excluded. *)
Lemma kinit_tail pm1 pm2 st1 np :
  physmem_ok pm2 -> segs_ok (vm_phys_segs pm1) ->
  (forall x, in_segs (vm_phys_segs pm1) x <-> in_regions (hwregions pm1) x /\ ~ in_regions (exregions pm1) x) ->
  hwregions pm2 = hwregions pm1 ->
  (forall x, in_regions (exregions pm1) x -> in_regions (exregions pm2) x) ->
  np = seg_bytes (vm_phys_segs pm1) / 4096 -> freelist st1 = None ->
  exists st l,
    (pm3 ← physmem_avail pm2;
     let segs := slice_segs (vm_phys_segs pm3) 0 in
     free_segs_loop segs (Kalloc (Physmem (hwregions pm3) (exregions pm3) segs) (pages st1) np
       (freelist st1) (boot_freemem st1))) = Ret st /\
    kalloc_ok st l /\ npages st = np /\ boot_freemem st = boot_freemem st1 /\
    forall pa, page_flags st pa = Some PG_FREE <->
      in_regions (hwregions pm2) pa /\ ~ in_regions (exregions pm2) pa.
Proof.
  intros Hok2 Hs1 Hin1 Hhw Hex Hnp Hfl.
  destruct (physmem_avail_spec pm2 Hok2) as (segs & -> & Hs & Hal & _ & Hin).
  cbn [mbind res_bind vm_phys_segs hwregions exregions].
  destruct (slice_segs_ok segs 0 Hs Hal) as (Hs' & Hal' & Hsl).
  set (st2 := Kalloc _ _ _ _ _).
  destruct (free_segs_loop_spec (slice_segs segs 0) (slice_segs segs 0) st2 0)
    as (st & Hr & (Hpm & Hn & Hbf) & Hp); try (done || lia).
  { split; [done | intros i Hi; cbn in Hi; lia]. }
  rewrite slice_segs_total in Hp.
  destruct (pushed_ok st) as (l & Hk & Hfree); rewrite ?Hpm; cbn [ka_pm st2 vm_phys_segs].
  - done.
  - rewrite slice_segs_total, Hn. cbn [npages st2]. rewrite Hnp.
    pose proof (total_pages_bytes segs Hs Hal).
    assert (seg_bytes segs <= seg_bytes (vm_phys_segs pm1)); [| Z.div_mod_to_equations; lia].
    apply seg_bytes_mono; [done | done |]. intros x. rewrite Hin, Hin1, Hhw.
    intros [? Hno]. split; [done |]. intros ?. apply Hno. auto.
  - rewrite slice_segs_total. done.
  - exists st, l. split; [done |]. split; [done |]. split; [done |]. split; [done |].
    intros pa. rewrite Hfree, Hpm. cbn [ka_pm st2 vm_phys_segs]. by rewrite slice_segs_in, Hin.
Qed.

Lemma seg_bytes_pos l x : segs_ok l -> in_segs l x -> 0 < seg_bytes l.
Proof.
  intros Hok Hx. rewrite <- length_seg_addrs by done. apply elem_of_seg_addrs in Hx.
  destruct (seg_addrs l); [inversion Hx | cbn; lia].
Qed.

Lemma array_bytes_spec pm : segs_ok (vm_phys_segs pm) -> Forall seg_aligned (vm_phys_segs pm) ->
  physmem_size pm / 4096 * 16 <= array_bytes pm < 2 ^ 57 /\ page_aligned (array_bytes pm) /\
  (forall x, in_segs (vm_phys_segs pm) x -> 0 < array_bytes pm) /\
  PGROUNDUP (u64 (Z.shiftr (physmem_size pm) PGSHIFT * sizeof_page)) = array_bytes pm.
Proof.
  intros Hs Hal. destruct (physmem_size_spec pm Hs) as [Hsz Hr].
  pose proof (seg_bytes_aligned _ Hal) as Ha. unfold array_bytes, PGSHIFT, sizeof_page, page_aligned in *.
  rewrite Z.shiftr_div_pow2 by lia. change (2 ^ 12) with 4096.
  rewrite (u64_small (_ / _ * _)) by (Z.div_mod_to_equations; lia).
  rewrite PGROUNDUP_eq by (Z.div_mod_to_equations; lia).
  split; [Z.div_mod_to_equations; lia |]. split; [apply Z_mod_mult |].
  split; [| done]. intros x Hx. pose proof (seg_bytes_pos _ x Hs Hx).
  Z.div_mod_to_equations. lia.
Qed.

Lemma segs_unique l s t x : segs_ok l -> s ∈ l -> t ∈ l -> in_seg s x -> in_seg t x -> s = t.
Proof.
  induction l as [| r l IH]; intros Hok Hs Ht Hsx Htx; [inversion Hs |].
  apply segs_ok_cons in Hok as (Hok & Hb & ? & ?). rewrite Forall_forall in Hb.
  unfold seg_before, in_seg in *.
  apply elem_of_cons in Hs as [-> | Hs], Ht as [-> | Ht]; [done | | | auto].
  - specialize (Hb t Ht). lia.
  - specialize (Hb s Hs). lia.
Qed.

(** The segment [kinit] checks the array against is the one holding [pa]. *)
Lemma physmem_seg_lookup pm pa : segs_ok (vm_phys_segs pm) ->
  match s ← physmem_seg pm pa; vm_phys_segs pm !! s with
  | Some s => s ∈ vm_phys_segs pm /\ in_seg s pa /\
      forall t, t ∈ vm_phys_segs pm -> in_seg t pa -> t = s
  | None => ~ in_segs (vm_phys_segs pm) pa
  end.
Proof.
  intros Hok. pose proof (physmem_seg_loop_spec (vm_phys_segs pm) pa 0) as H. unfold physmem_seg.
  destruct (physmem_seg_loop _ pa 0) as [k |]; [| done].
  destruct H as (j & s & -> & Hj & Hs). cbn. rewrite Hj.
  apply list_elem_of_lookup_2 in Hj. split; [done |]. split; [done |].
  intros t Ht Hin. by apply (segs_unique (vm_phys_segs pm) t s pa).
Qed.

Lemma boot_alloc_array st pm : segs_ok (vm_phys_segs pm) -> Forall seg_aligned (vm_phys_segs pm) ->
  0 <= boot_freemem st < 2 ^ 63 ->
  boot_alloc st (Z.shiftr (array_bytes pm) PGSHIFT) =
  (Kalloc (ka_pm st) (pages st) (npages st) (freelist st) (boot_freemem st + array_bytes pm),
   boot_freemem st).
Proof.
  intros Hs Hal Hbf. destruct (array_bytes_spec pm Hs Hal) as (Hab & Haa & _).
  destruct (physmem_size_spec pm Hs) as [_ Hsz].
  assert (0 <= array_bytes pm) by (Z.div_mod_to_equations; lia).
  unfold boot_alloc, page_aligned, PGSHIFT, PGSIZE in *.
  rewrite Z.shiftr_div_pow2 by lia. change (2 ^ 12) with 4096.
  rewrite (u64_small (_ * 4096)) by (Z.div_mod_to_equations; lia).
  replace (array_bytes pm / 4096 * 4096) with (array_bytes pm) by (Z.div_mod_to_equations; lia).
  by rewrite u64_small by lia.
Qed.

(** ** Lemmas: allocation and release *)

Lemma page_flags_eq st st' pa :
  ka_pm st' = ka_pm st ->
  (forall i, pa_to_page (ka_pm st) pa = Some i -> pg_flags (pages st' i) = pg_flags (pages st i)) ->
  page_flags st' pa = page_flags st pa.
Proof.
  intros Hpm H. unfold page_flags. rewrite Hpm.
  destruct (pa_to_page (ka_pm st) pa) as [i |]; [| done]. cbn. by rewrite H.
Qed.

(** The page popped, by address: it was free, is now used, and no other page
    changes. *)
Lemma freelist_pop_page st l st' pg : kalloc_ok st l -> freelist_pop st = (st', Some pg) ->
  exists l' pa, l = pg :: l' /\ kalloc_ok st' l' /\ ka_pm st' = ka_pm st /\
    page_to_pa (ka_pm st') pg = Ret pa /\ page_aligned pa /\ 0 <= pa < 2 ^ 64 /\
    page_flags st pa = Some PG_FREE /\ page_flags st' pa = Some PG_USED /\
    forall pa', pa' / 4096 <> pa / 4096 -> page_flags st' pa' = page_flags st pa'.
Proof.
  intros Hok Hp. pose proof (freelist_pop_spec st l Hok) as H.
  destruct l as [| i l]; [rewrite H in Hp; discriminate |].
  destruct H as (st1 & H & Hok' & Hpm & Hm & Hf & Hu & Hoth). rewrite H in Hp.
  injection Hp as -> ->. destruct Hok as (Hs & _).
  destruct (page_to_pa_spec (ka_pm st) pg Hs Hm) as (pa & Hpa & Ha & Hin & Hpp & Hb).
  exists l, pa. rewrite Hpm. do 6 (split; [done |]).
  unfold page_flags at 1 2. rewrite Hpm, Hpp. cbn. rewrite Hf, Hu.
  split; [done |]. split; [done |]. intros pa' Hne. apply page_flags_eq; [done |].
  intros j Hj. rewrite Hoth; [done |]. intros ->. apply Hne. by eapply pa_to_page_inj.
Qed.

Lemma page_flags_cases st l pa : kalloc_ok st l ->
  page_flags st pa = None \/ page_flags st pa = Some PG_FREE \/
  page_flags st pa = Some PG_USED \/ page_flags st pa = Some PG_SLAB.
Proof.
  intros (Hs & _ & _ & _ & _ & Href). unfold page_flags.
  pose proof (pa_to_page_spec _ pa Hs) as P. destruct (pa_to_page _ pa) as [i |]; [| by left].
  cbn. destruct P as (_ & Hi & _). destruct (Href i Hi) as [[-> _] | [[-> | ->] _]]; auto.
Qed.

(** [kpage_free] on every branch. *)
Lemma kpage_free_cases st l va : kalloc_ok st l ->
  let pa := KVA_TO_PA va in
  match kpage_free st va with
  | Ret st' => page_aligned pa /\
      (page_flags st pa = Some PG_USED \/ page_flags st pa = Some PG_SLAB) /\
      ka_pm st' = ka_pm st /\ page_flags st' pa = Some PG_FREE /\
      (forall pa', pa' / 4096 <> pa / 4096 -> page_flags st' pa' = page_flags st pa') /\
      exists pg, kalloc_ok st' (pg :: l) /\ page_to_pa (ka_pm st') pg = Ret pa
  | Panic _ => ~ page_aligned pa \/ page_flags st pa = None \/ page_flags st pa = Some PG_FREE
  end.
Proof.
  intros Hok pa. pose proof Hok as (Hs & _ & _ & _ & _ & Href).
  unfold kpage_free, page_flags, KASSERT. fold pa. unfold page_aligned, PGSIZE.
  destruct (Z.eqb_spec (pa mod 4096) 0) as [Ha | Ha]; cbn [mbind res_bind]; [| by left].
  pose proof (pa_to_page_spec _ pa Hs) as P. destruct (pa_to_page (ka_pm st) pa) as [i |] eqn:E;
    cbn [mbind option_bind]; [| right; by left].
  destruct P as (Hin & Hi & Hpp).
  destruct (Href i Hi) as [[Hf Hr] | [Hf Hr]].
  { rewrite Hf. cbn. right. by right. }
  assert (Hnf : pg_flags (pages st i) <> PG_FREE) by (destruct Hf as [-> | ->]; done).
  rewrite Hr. replace (_ || _) with true by (destruct Hf as [-> | ->]; done). cbn [mbind res_bind Z.eqb].
  split; [done |]. split; [destruct Hf as [-> | ->]; auto |]. split; [done |].
  cbn [freelist_push ka_pm pages]. rewrite E. cbn. rewrite upd_eq. split; [done |]. split.
  - intros pa' Hne. destruct (pa_to_page (ka_pm st) pa') as [j |] eqn:E'; [| done]. cbn.
    rewrite upd_ne; [done |]. intros ->. apply Hne. by eapply pa_to_page_inj.
  - exists i. split; [by apply freelist_push_spec |].
    rewrite Hpp. f_equal. Z.div_mod_to_equations. lia.
Qed.

Lemma kpage_set_slab_cases st l va : kalloc_ok st l ->
  let pa := KVA_TO_PA va in
  page_flags st pa = Some PG_USED \/ page_flags st pa = Some PG_SLAB ->
  exists st', kpage_set_slab st va = Ret st' /\ kalloc_ok st' l /\ ka_pm st' = ka_pm st /\
    page_flags st' pa = Some PG_SLAB /\
    forall pa', pa' / 4096 <> pa / 4096 -> page_flags st' pa' = page_flags st pa'.
Proof.
  intros (Hs & Hn & Hc & Hd & Hfree & Href) pa Hused. unfold kpage_set_slab, page_flags in *. fold pa.
  destruct (pa_to_page (ka_pm st) pa) as [i |] eqn:E; cbn in Hused; [| intuition discriminate].
  pose proof (pa_to_page_spec _ pa Hs) as P. rewrite E in P. destruct P as (_ & Hi & _).
  assert (Hnf : pg_flags (pages st i) <> PG_FREE) by (intros H; rewrite H in Hused; intuition discriminate).
  assert (Hil : i ∉ l) by (rewrite Hfree; tauto).
  eexists. split; [reflexivity |]. cbn [set_page ka_pm pages]. rewrite E. cbn. rewrite upd_eq. split.
  - split; [done |]. split; [done |]. split; [by apply chain_upd |]. split; [done |].
    split; intros j; change (managed _ j) with (managed st j); cbn [pages set_page];
      destruct (decide (j = i)) as [-> | Hj]; rewrite ?upd_eq, ?upd_ne by done; [| apply Hfree | | apply Href].
    + split; [done | intros [_ ?]; done].
    + intros Hm. right. split; [by right |]. destruct (Href i Hm) as [[? _] | [_ ?]]; done.
  - split; [done |]. split; [done |]. intros pa' Hne.
    destruct (pa_to_page (ka_pm st) pa') as [j |] eqn:E'; [| done]. cbn.
    rewrite upd_ne; [done |]. intros ->. apply Hne. by eapply pa_to_page_inj.
Qed.

(** Two addresses of one page have one descriptor. *)
Lemma in_segs_page segs pa pa' : Forall seg_aligned segs -> pa / 4096 = pa' / 4096 ->
  in_segs segs pa -> in_segs segs pa'.
Proof.
  intros Hal E Hin. apply Exists_exists in Hin as (s & Hs & Hpa). apply Exists_exists. exists s. split; [done |].
  rewrite Forall_forall in Hal. destruct (Hal s Hs) as [H1 H2]. unfold in_seg, page_aligned in *.
  Z.div_mod_to_equations. lia.
Qed.

Lemma pa_to_page_page pm pa pa' : segs_sliced pm -> pa / 4096 = pa' / 4096 -> pa_to_page pm pa = pa_to_page pm pa'.
Proof.
  intros Hs E. pose proof (pa_to_page_spec pm pa Hs) as P. pose proof (pa_to_page_spec pm pa' Hs) as P'.
  pose proof Hs as (_ & Hal & _).
  destruct (pa_to_page pm pa) as [i |], (pa_to_page pm pa') as [i' |]; [| | | done].
  - destruct P as (_ & Hi & P), P' as (_ & Hi' & P').
    destruct (page_to_pa_spec pm i Hs Hi) as (b & Hb & _ & _ & Hp & _).
    destruct (page_to_pa_spec pm i' Hs Hi') as (b' & Hb' & _ & _ & Hp' & _). rewrite E in P. congruence.
  - exfalso. apply P'. by apply (in_segs_page _ pa); [| | apply P].
  - exfalso. apply P. by apply (in_segs_page _ pa'); [| | apply P'].
Qed.

Lemma page_flags_page st pa pa' l : kalloc_ok st l -> pa / 4096 = pa' / 4096 ->
  page_flags st pa = page_flags st pa'.
Proof. intros (Hs & _) E. unfold page_flags. by rewrite (pa_to_page_page _ pa pa' Hs E). Qed.

(** What the client of [PageReclaim] relies on: reclaiming keeps the allocator's
    invariant and only turns slab pages into free ones; the caches, in turn, depend on
    the page allocator only through the pages marked slab. *)
Class PageReclaimLaws (W : Type) `{PageReclaim W} := {
  w_ok : W -> Prop;
  w_get_set : forall w ka, w_ka (w_set_ka w ka) = ka;
  w_set_get : forall w, w_set_ka w (w_ka w) = w;
  kmem_reclaim_law : forall w l, w_ok w -> kalloc_ok (w_ka w) l ->
    exists w' n l', kmem_reclaim w = Ret (w', n) /\ kalloc_ok (w_ka w') l' /\
      ka_pm (w_ka w') = ka_pm (w_ka w) /\
      w_ok w' /\
      forall pa, page_flags (w_ka w') pa = page_flags (w_ka w) pa \/
        (page_flags (w_ka w) pa = Some PG_SLAB /\ page_flags (w_ka w') pa = Some PG_FREE);
  w_ok_set : forall w ka, w_ok w -> ka_pm ka = ka_pm (w_ka w) ->
    (forall pa, page_flags ka pa = Some PG_SLAB <-> page_flags (w_ka w) pa = Some PG_SLAB) ->
    w_ok (w_set_ka w ka)
}.

(** Pages keep their state, or go from slab to free. *)
Definition only_reclaimed (st st' : kalloc) (pa : Z) : Prop :=
  page_flags st' pa = page_flags st pa \/
  (page_flags st pa = Some PG_SLAB /\ page_flags st' pa = Some PG_FREE).

(** What a successful allocation of [pa] does. *)
Definition allocated (st st' : kalloc) (pa : Z) : Prop :=
  page_aligned pa /\ 0 <= pa < 2 ^ 64 /\ page_flags st' pa = Some PG_USED /\
  (page_flags st pa = Some PG_FREE \/ page_flags st pa = Some PG_SLAB) /\
  forall pa', pa' / 4096 <> pa / 4096 -> only_reclaimed st st' pa'.

Section reclaim.
Context {W : Type} `{PageReclaimLaws W}.

Lemma w_pop_page (w w' : W) l pg : kalloc_ok (w_ka w) l -> w_pop w = (w', Some pg) ->
  exists l' pa, l = pg :: l' /\ kalloc_ok (w_ka w') l' /\ ka_pm (w_ka w') = ka_pm (w_ka w) /\
    page_to_pa (ka_pm (w_ka w')) pg = Ret pa /\ page_aligned pa /\ 0 <= pa < 2 ^ 64 /\
    page_flags (w_ka w) pa = Some PG_FREE /\ page_flags (w_ka w') pa = Some PG_USED /\
    forall pa', pa' / 4096 <> pa / 4096 -> page_flags (w_ka w') pa' = page_flags (w_ka w) pa'.
Proof.
  intros Hok. unfold w_pop. destruct (freelist_pop (w_ka w)) as [ka p] eqn:E.
  intros [= <- ->]. rewrite w_get_set. by apply freelist_pop_page.
Qed.

Lemma w_pop_ok (w w' : W) l pg : w_ok w -> kalloc_ok (w_ka w) l -> w_pop w = (w', Some pg) -> w_ok w'.
Proof.
  intros Hw Hok. unfold w_pop. destruct (freelist_pop (w_ka w)) as [ka p] eqn:E. intros [= <- ->].
  destruct (freelist_pop_page _ _ _ _ Hok E) as (l' & pa & _ & Hok' & Hpm & _ & Ha & _ & Hf & Hu & Ho).
  apply w_ok_set; [done | done |]. intros pa'. destruct (decide (pa' / 4096 = pa / 4096)) as [Epg |].
  - rewrite (page_flags_page (w_ka w) pa' pa l), (page_flags_page ka pa' pa l'), Hf, Hu by done.
    split; discriminate.
  - by rewrite Ho.
Qed.

Lemma w_pop_none (w w' : W) l : kalloc_ok (w_ka w) l -> w_pop w = (w', None) -> l = [] /\ w' = w.
Proof.
  intros Hok. unfold w_pop. pose proof (freelist_pop_spec _ l Hok) as P. destruct l as [| i l].
  - rewrite P. intros [= <-]. by rewrite w_set_get.
  - destruct P as (st' & -> & _). done.
Qed.

Lemma kpage_alloc_cases (w : W) l :
  w_ok w -> kalloc_ok (w_ka w) l ->
  exists w' r l', kpage_alloc w = Ret (w', r) /\ kalloc_ok (w_ka w') l' /\
    ka_pm (w_ka w') = ka_pm (w_ka w) /\ w_ok w' /\
    match r with
    | Some va => allocated (w_ka w) (w_ka w') (KVA_TO_PA va) /\
        (l <> [] -> page_flags (w_ka w) (KVA_TO_PA va) = Some PG_FREE)
    | None => l = [] /\ forall pa, only_reclaimed (w_ka w) (w_ka w') pa
    end.
Proof.
  intros Hw Hok. unfold kpage_alloc. destruct (w_pop w) as [w1 [pg |]] eqn:E1.
  - destruct (w_pop_page w w1 l pg Hok E1) as (l' & pa & -> & Hok1 & Hpm & Hpa & Ha & Hb & Hf & Hu & Ho).
    cbn. rewrite Hpa. cbn. exists w1, (Some (PA_TO_KVA pa)), l'. rewrite KVA_PA_inv by done.
    split; [done |]. split; [done |]. split; [done |]. split; [by eapply w_pop_ok |]. split; [| done].
    do 4 (split; [auto |]). intros pa' Hne. left. auto.
  - destruct (w_pop_none w w1 l Hok E1) as [-> ->].
    destruct (kmem_reclaim_law w [] Hw Hok) as (w2 & n & l2 & -> & Hok2 & Hpm2 & Hw2 & Hrec). cbn [mbind res_bind fst snd].
    destruct (n >? 0).
    2: { exists w2, None, l2. cbn. auto 10. }
    destruct (w_pop w2) as [w3 [pg |]] eqn:E3; cbn [fst snd].
    + destruct (w_pop_page w2 w3 l2 pg Hok2 E3) as (l' & pa & -> & Hok3 & Hpm & Hpa & Ha & Hb & Hf & Hu & Ho).
      rewrite Hpa. cbn. exists w3, (Some (PA_TO_KVA pa)), l'. rewrite KVA_PA_inv by done.
      split; [done |]. split; [done |]. split; [congruence |]. split; [by eapply w_pop_ok |]. split; [| done].
      do 3 (split; [auto |]). split; [destruct (Hrec pa) as [He | [He _]]; rewrite <- ?He; auto |].
      intros pa' Hne. unfold only_reclaimed. rewrite (Ho pa' Hne). apply Hrec.
    + destruct (w_pop_none w2 w3 l2 Hok2 E3) as [-> ->]. exists w2, None, []. auto 10.
Qed.
End reclaim.

(** ** Theorems *)

(** from a sound memory map and an empty free list, [kinit] either panics,
    and then the exclusion table is full or no segment has room for the
    descriptor array at the boot bump pointer, or it returns an allocator that
    satisfies the invariant, whose descriptors fit the carved array, and in which
    an address is free exactly when it is in a bank, in no exclusion and outside
    the array itself. *)
Theorem kinit_frees_usable st0 pm1 :
  let bf := boot_freemem st0 in
  physmem_ok (ka_pm st0) -> freelist st0 = None -> page_aligned bf -> 0 <= bf < 2 ^ 63 ->
  physmem_avail (ka_pm st0) = Ret pm1 ->
  match kinit st0 with
  | Ret st => exists l, kalloc_ok st l /\ npages st * sizeof_page <= array_bytes pm1 /\
      boot_freemem st = bf + array_bytes pm1 /\
      forall pa, 0 <= pa ->
        page_flags st pa = Some PG_FREE <->
        in_regions (hwregions (ka_pm st0)) pa /\ ~ in_regions (exregions (ka_pm st0)) pa /\
        ~ bf <= pa < bf + array_bytes pm1
  | Panic _ => length (exregions (ka_pm st0)) = MAX_EXCNT \/
      ~ (exists s, s ∈ vm_phys_segs pm1 /\ in_seg s bf /\ bf + array_bytes pm1 <= seg_end s)
  end.
Proof.
  intros bf Hok Hfl Hba Hbf Hav.
  destruct (physmem_avail_spec _ Hok) as (segs & Hr & Hs & Hal & _ & Hin).
  rewrite Hav in Hr. injection Hr as ->. unfold kinit. rewrite Hav. cbn [mbind res_bind].
  set (pm1 := Physmem _ _ segs).
  destruct (array_bytes_spec pm1 Hs Hal) as (Hab & Haa & Hpos & ->).
  rewrite boot_alloc_array by done. cbn [boot_freemem with_pm ka_pm pages freelist npages]. fold bf.
  destruct (physmem_size_spec pm1 Hs) as [Hsz Hszr].
  assert (0 <= array_bytes pm1) by (Z.div_mod_to_equations; lia).
  rewrite (u64_small (bf + array_bytes pm1)) by lia.
  pose proof (physmem_seg_lookup pm1 bf Hs) as Hseg. destruct (_ ≫= _) as [s |].
  2: { right. intros (s & Hse & Hb & _). apply Hseg, Exists_exists. eauto. }
  destruct Hseg as (Hsin & Hsb & Huniq).
  destruct (Z.gtb_spec (bf + array_bytes pm1) (seg_end s)) as [Hgt | Hle].
  { right. intros (t & Ht & Htb & Hroom). rewrite (Huniq t Ht Htb) in Hroom. lia. }
  assert (Hap : 0 < array_bytes pm1) by (apply (Hpos bf), Exists_exists; eauto).
  pose proof (physmem_exclude_region_spec pm1 bf (array_bytes pm1)) as Hx.
  destruct (physmem_exclude_region pm1 bf (array_bytes pm1)) as [pm2 |]; cbn [mbind res_bind];
    [| left; apply Hx; (done || lia)].
  destruct Hx as (Hok2 & Hhw & Hex); [done | lia | lia | lia |].
  assert (Hxsub : forall x, in_regions (exregions pm1) x -> in_regions (exregions pm2) x).
  { intros x Hx. apply Hex; [| by left]. pose proof (regions_from_in (-1) _ x
      (proj1 (proj2 (proj2 (proj2 Hok)))) Hx). lia. }
  edestruct (kinit_tail pm1 pm2 (Kalloc pm1 (pages st0) (npages st0) (freelist st0)
    (bf + array_bytes pm1))) as (st & l & Hst & Hk & Hnp & Hbf' & Hfree);
    [exact Hok2 | exact Hs | exact Hin | exact Hhw | exact Hxsub | reflexivity | exact Hfl |].
  unfold PGSHIFT. rewrite Z.shiftr_div_pow2 by lia. change (2 ^ 12) with 4096. rewrite Hsz in *.
  cbn [freelist pages boot_freemem] in Hst. rewrite Hst. exists l. split; [done |].
  rewrite Hnp. split; [unfold sizeof_page; done || lia |]. split; [done |].
  intros pa Hpa. rewrite Hfree, Hhw, Hex by done. cbn [pm1 hwregions exregions].
  unfold page_aligned in *. assert (~ (pa / 4096 * 4096 < bf + array_bytes pm1 /\
    bf < pa / 4096 * 4096 + 4096) <-> ~ bf <= pa < bf + array_bytes pm1)
    by (Z.div_mod_to_equations; lia). tauto.
Qed.

(** [kpage_alloc] returns normally. A non-NULL result is the DMAP address of
    a page that was free (or, when the free list was empty, of a slab page the
    reclaim released), now marked used; every other page keeps its state except
    slab pages the reclaim released. NULL is returned only when no page was free. *)
Theorem kpage_alloc_fresh {W} `{PageReclaimLaws W} (w : W) l :
  w_ok w -> kalloc_ok (w_ka w) l ->
  exists w' r l', kpage_alloc w = Ret (w', r) /\ kalloc_ok (w_ka w') l' /\
    ka_pm (w_ka w') = ka_pm (w_ka w) /\
    match r with
    | Some va => allocated (w_ka w) (w_ka w') (KVA_TO_PA va) /\
        (l <> [] -> page_flags (w_ka w) (KVA_TO_PA va) = Some PG_FREE)
    | None => l = [] /\ forall pa, only_reclaimed (w_ka w) (w_ka w') pa
    end.
Proof.
  intros Hw Hok. destruct (kpage_alloc_cases w l Hw Hok) as (w' & r & l' & ? & ? & ? & _ & ?).
  by exists w', r, l'.
Qed.

(** [kpage_free] returns exactly when the address is page-aligned and its
    page is allocated (used or slab); it then marks that page free, leaves every
    other page as it was, keeps the invariant and puts the page where the next
    allocation finds it. It panics on an unaligned address, on unmanaged memory
    and on a double free. *)
Theorem kpage_free_exact st l va :
  kalloc_ok st l ->
  let pa := KVA_TO_PA va in
  match kpage_free st va with
  | Ret st' => page_aligned pa /\
      (page_flags st pa = Some PG_USED \/ page_flags st pa = Some PG_SLAB) /\
      page_flags st' pa = Some PG_FREE /\
      (forall pa', pa' / 4096 <> pa / 4096 -> page_flags st' pa' = page_flags st pa') /\
      (exists pg st'', kalloc_ok st' (pg :: l) /\ freelist_pop st' = (st'', Some pg) /\
        page_to_pa (ka_pm st'') pg = Ret pa)
  | Panic _ => ~ page_aligned pa \/ page_flags st pa = None \/ page_flags st pa = Some PG_FREE
  end.
Proof.
  intros Hok pa. pose proof (kpage_free_cases st l va Hok) as H. cbn zeta in H. fold pa in H.
  destruct (kpage_free st va) as [st' |]; [| done].
  destruct H as (Ha & Hu & Hpm & Hf & Ho & pg & Hok' & Hpp).
  do 4 (split; [done |]). pose proof (freelist_pop_spec st' _ Hok') as (st'' & Hp & _ & Hpm' & _).
  exists pg, st''. rewrite Hpm'. done.
Qed.

(** ** Histories of critical sections

    The allocator seen by its clients: [owned] are the addresses handed out and
    not given back. Any interleaving of CPUs is a sequence of these steps. *)

Inductive kstep : kalloc * list Z -> kalloc * list Z -> Prop :=
| step_alloc st owned st' pg pa :
    freelist_pop st = (st', Some pg) -> page_to_pa (ka_pm st') pg = Ret pa ->
    kstep (st, owned) (st', PA_TO_KVA pa :: owned)
| step_free st owned1 owned2 va st' :
    kpage_free st va = Ret st' ->
    kstep (st, owned1 ++ va :: owned2) (st', owned1 ++ owned2)
| step_set_slab st owned va st' :
    va ∈ owned -> kpage_set_slab st va = Ret st' -> kstep (st, owned) (st', owned).

Definition allocd (st : kalloc) (pa : Z) : Prop :=
  page_flags st pa = Some PG_USED \/ page_flags st pa = Some PG_SLAB.

(** The owned addresses are exactly the allocated pages, each once. *)
Definition owns (st : kalloc) (owned : list Z) : Prop :=
  NoDup owned /\
  (forall va, va ∈ owned -> 0 <= va < 2 ^ 64 /\ page_aligned (KVA_TO_PA va)) /\
  (forall va, 0 <= va < 2 ^ 64 -> page_aligned (KVA_TO_PA va) ->
     va ∈ owned <-> allocd st (KVA_TO_PA va)).

Lemma KVA_TO_PA_range va : 0 <= KVA_TO_PA va < 2 ^ 64.
Proof. apply u64_range. Qed.

(** Distinct aligned addresses are on distinct pages. *)
Lemma aligned_kva_inj va va' :
  0 <= va < 2 ^ 64 -> 0 <= va' < 2 ^ 64 ->
  page_aligned (KVA_TO_PA va) -> page_aligned (KVA_TO_PA va') ->
  KVA_TO_PA va / 4096 = KVA_TO_PA va' / 4096 -> va = va'.
Proof.
  intros Hv Hv' Ha Ha' E. rewrite <- (PA_KVA_inv va), <- (PA_KVA_inv va') by done. f_equal.
  unfold page_aligned in *. Z.div_mod_to_equations. lia.
Qed.

(** Re-establishing [owns] when one page's state changes. *)
Lemma owns_update st st' owned owned' va :
  owns st owned -> 0 <= va < 2 ^ 64 -> page_aligned (KVA_TO_PA va) -> NoDup owned' ->
  (forall x, x <> va -> x ∈ owned' <-> x ∈ owned) ->
  (va ∈ owned' <-> allocd st' (KVA_TO_PA va)) ->
  (forall pa', pa' / 4096 <> KVA_TO_PA va / 4096 -> page_flags st' pa' = page_flags st pa') ->
  owns st' owned'.
Proof.
  intros (Hd & Hr & Hiff) Hv Ha Hd' Hsame Hva Ho. split; [done |]. split.
  - intros x Hx. destruct (decide (x = va)) as [-> | Hne]; [done |]. apply Hr. by apply Hsame.
  - intros x Hx Hxa. destruct (decide (x = va)) as [-> | Hne]; [done |].
    rewrite Hsame, Hiff by done. unfold allocd. rewrite Ho; [done |].
    intros E. apply Hne. by apply aligned_kva_inj.
Qed.

Lemma NoDup_remove_middle (l1 l2 : list Z) x : NoDup (l1 ++ x :: l2) ->
  NoDup (l1 ++ l2) /\ x ∉ l1 ++ l2.
Proof.
  rewrite (Permutation_app_comm l1 (x :: l2)), (Permutation_app_comm l1 l2).
  cbn. rewrite NoDup_cons. tauto.
Qed.

Lemma kstep_preserves st owned st' owned' l :
  kstep (st, owned) (st', owned') -> kalloc_ok st l -> owns st owned ->
  exists l', kalloc_ok st' l' /\ owns st' owned' /\ ka_pm st' = ka_pm st.
Proof.
  intros Hstep Hok Ho. inversion Hstep as [? ? ? pg pa Hp Hpa | ? o1 o2 va ? Hf | ? ? va ? Hva Hs]; subst.
  - destruct (freelist_pop_page st l st' pg Hok Hp)
      as (l' & pa' & -> & Hok' & Hpm & Hpa' & Ha & Hb & Hfr & Hu & Hoth).
    rewrite Hpa in Hpa'. injection Hpa' as <-. exists l'. split; [done |]. split; [| done].
    pose proof (u64_range (pa + KERN_BASE)) as Hr. change (u64 (pa + KERN_BASE)) with (PA_TO_KVA pa) in Hr.
    assert (Hno : PA_TO_KVA pa ∉ owned).
    { destruct Ho as (_ & _ & Hiff). rewrite Hiff; rewrite ?KVA_PA_inv by done; [| done | done].
      unfold allocd. rewrite Hfr. intuition discriminate. }
    apply (owns_update st st' owned _ (PA_TO_KVA pa)); rewrite ?KVA_PA_inv by done; try done.
    + apply NoDup_cons. split; [done | apply Ho].
    + intros x Hx. rewrite elem_of_cons. intuition.
    + unfold allocd. rewrite Hu, elem_of_cons. tauto.
  - pose proof (kpage_free_cases st l va Hok) as H. cbn zeta in H. rewrite Hf in H.
    destruct H as (Ha & Hu & Hpm & Hfr & Hoth & pg & Hok' & _). exists (pg :: l).
    split; [done |]. split; [| done]. pose proof Ho as (Hd & Hr & _).
    destruct (NoDup_remove_middle o1 o2 va Hd) as [Hd' Hno].
    apply (owns_update st st' (o1 ++ va :: o2) _ va); try done.
    + apply Hr. apply elem_of_app. right. left.
    + intros x Hx. rewrite !elem_of_app, elem_of_cons. intuition.
    + unfold allocd. rewrite Hfr. split; [done | intuition discriminate].
  - pose proof Ho as (Hd & Hr & Hiff). destruct (Hr va Hva) as [Hv Ha].
    assert (Hall : allocd st (KVA_TO_PA va)) by (by apply Hiff).
    destruct (kpage_set_slab_cases st l va Hok Hall) as (st1 & Hs1 & Hok' & Hpm & Hsl & Hoth).
    rewrite Hs in Hs1. injection Hs1 as <-. exists l. split; [done |]. split; [| done].
    apply (owns_update st st' owned' _ va); try done.
    unfold allocd. rewrite Hsl. tauto.
Qed.

Lemma ksteps_preserve s s' : rtc kstep s s' -> forall l, kalloc_ok s.1 l -> owns s.1 s.2 ->
  exists l', kalloc_ok s'.1 l' /\ owns s'.1 s'.2 /\ ka_pm s'.1 = ka_pm s.1.
Proof.
  induction 1 as [s | s1 s2 s3 Hstep _ IH]; intros l Hok Ho; [by exists l |].
  destruct s1 as [st1 o1], s2 as [st2 o2].
  destruct (kstep_preserves _ _ _ _ l Hstep Hok Ho) as (l2 & Hok2 & Ho2 & Hpm).
  destruct (IH l2 Hok2 Ho2) as (l3 & ? & ? & ?). exists l3. cbn in *. intuition congruence.
Qed.

(** C5: over any interleaving of allocations, frees and slab markings from a
    freshly initialised allocator: no page is handed out twice, an owned address
    is an allocated page and every allocated page is owned (none is lost), every
    other managed page is free, freeing an owned page never panics, and an
    allocation fails only when every managed page is owned. *)
Theorem kalloc_exclusive_ownership st0 l0 st owned :
  kalloc_ok st0 l0 -> (forall pa, ~ allocd st0 pa) -> rtc kstep (st0, []) (st, owned) ->
  NoDup owned /\
  (forall va, 0 <= va < 2 ^ 64 -> page_aligned (KVA_TO_PA va) ->
     in_segs (vm_phys_segs (ka_pm st0)) (KVA_TO_PA va) ->
     if decide (va ∈ owned) then allocd st (KVA_TO_PA va) /\ is_Ret (kpage_free st va)
     else page_flags st (KVA_TO_PA va) = Some PG_FREE) /\
  ((freelist_pop st).2 = None ->
   forall va, 0 <= va < 2 ^ 64 -> page_aligned (KVA_TO_PA va) ->
     in_segs (vm_phys_segs (ka_pm st0)) (KVA_TO_PA va) -> va ∈ owned).
Proof.
  intros Hok0 Hnone Hsteps. destruct (ksteps_preserve _ _ Hsteps l0 Hok0) as (l & Hok & Ho & Hpm).
  { split; [constructor |]. split; [intros ? Hx; inversion Hx |]. intros va _ _. cbn.
    rewrite elem_of_nil. split; [done | apply Hnone]. }
  cbn in Hok, Ho, Hpm. destruct Ho as (Hd & Hr & Hiff). split; [done |].
  assert (Hfree : forall va, 0 <= va < 2 ^ 64 -> page_aligned (KVA_TO_PA va) ->
    in_segs (vm_phys_segs (ka_pm st0)) (KVA_TO_PA va) -> va ∉ owned ->
    page_flags st (KVA_TO_PA va) = Some PG_FREE).
  { intros va Hv Ha Hin Hno. rewrite Hiff in Hno by done. unfold allocd in Hno.
    destruct (page_flags_cases st l (KVA_TO_PA va) Hok) as [E | [E | [E | E]]]; [| done | tauto | tauto].
    exfalso. destruct Hok as (Hs & _). pose proof (pa_to_page_spec _ (KVA_TO_PA va) Hs) as P.
    unfold page_flags in E. rewrite Hpm in *. destruct (pa_to_page _ _); done. }
  split.
  - intros va Hv Ha Hin. destruct (decide (va ∈ owned)) as [Hva | Hno]; [| by apply Hfree].
    assert (Hall : allocd st (KVA_TO_PA va)) by (by apply Hiff). split; [done |].
    pose proof (kpage_free_cases st l va Hok) as H. cbn zeta in H. unfold allocd in Hall.
    destruct (kpage_free st va) as [st' |]; [by exists st' |]. exfalso.
    destruct H as [? | [H | H]]; [done | |]; rewrite H in Hall; intuition discriminate.
  - intros Hpop va Hv Ha Hin. destruct (decide (va ∈ owned)) as [| Hno]; [done |]. exfalso.
    pose proof (freelist_pop_spec st l Hok) as P. destruct l as [| i l].
    2: { destruct P as (? & P & _). rewrite P in Hpop. done. }
    specialize (Hfree va Hv Ha Hin Hno). unfold page_flags in Hfree.
    destruct Hok as (Hs & _ & _ & _ & Hl & _). pose proof (pa_to_page_spec _ (KVA_TO_PA va) Hs) as Q.
    destruct (pa_to_page (ka_pm st) (KVA_TO_PA va)) as [i |]; [| done]. destruct Q as (_ & Hi & _).
    injection Hfree as Hfree. apply (not_elem_of_nil i), Hl. done.
Qed.

(** ** Witnesses *)

(** Eight pages of RAM, the first excluded, the bump pointer after it. *)
Definition boot8 : kalloc :=
  Kalloc (Physmem [Region 0x40000000 0x8000] [Region 0x40000000 0x1000] [])
    (fun _ => Page None 0xdead 7) 0 None 0x40001000.

Lemma kinit_frees_usable_witness :
  exists st l, kinit boot8 = Ret st /\ kalloc_ok st l /\ page_flags st 0x40002000 = Some PG_FREE.
Proof.
  assert (Hok : physmem_ok (ka_pm boot8)) by (repeat split; cbn; try lia; repeat constructor).
  destruct (physmem_avail (ka_pm boot8)) as [pm1 |] eqn:E; [| vm_compute in E; discriminate].
  pose proof (kinit_frees_usable boot8 pm1 Hok eq_refl eq_refl
    ltac:(vm_compute; split; [discriminate | reflexivity]) E) as H.
  destruct (kinit boot8) as [st |] eqn:Ek; [| vm_compute in Ek; discriminate].
  destruct H as (l & Hk & _ & _ & Hf). exists st, l. split; [reflexivity |]. split; [exact Hk |].
  apply Hf; [lia |]. vm_compute in E. injection E as <-. split; [| split].
  - left. unfold in_region. cbn. lia.
  - intros Hx. inversion Hx as [? ? Hr | ? ? Hr]; [unfold in_region in Hr; cbn in Hr; lia | inversion Hr].
  - vm_compute. intros [_ Hx]. discriminate.
Defined.

(** Two free pages, and no caches to reclaim from. *)
Definition two_pages : kalloc :=
  Kalloc (Physmem [] [] [Seg 0x40002000 0x40004000 (Some 0)])
    (fun i => if i =? 0 then Page (Some 1) PG_FREE 0 else Page None PG_FREE 0) 2 (Some 0) 0x40002000.

Lemma two_pages_ok : kalloc_ok two_pages [0; 1].
Proof.
  split; [repeat split; repeat constructor; vm_compute; done |].
  split; [vm_compute; discriminate |]. split; [done |]. split; [apply (bool_decide_unpack _); done |].
  assert (Hm : forall i, managed two_pages i <-> i = 0 \/ i = 1).
  { intros i. unfold managed. change (total_pages _) with 2. lia. }
  split; intros i; rewrite Hm.
  - rewrite !elem_of_cons, elem_of_nil. split; [| tauto].
    intros [-> | [-> | []]]; auto.
  - intros [-> | ->]; left; done.
Qed.

#[local] Instance no_caches : PageReclaim kalloc :=
  {| w_ka := fun st => st; w_set_ka := fun _ st => st; kmem_reclaim := fun st => Ret (st, 0) |}.

#[local, refine] Instance no_caches_laws : PageReclaimLaws kalloc :=
  {| w_ok := fun _ => True |}.
Proof.
  - reflexivity.
  - reflexivity.
  - intros w l _ Hok. exists w, 0, l. cbn. auto 10.
  - done.
Defined.

Lemma kpage_alloc_fresh_witness :
  exists st', kpage_alloc two_pages = Ret (st', Some 0xFFFF000040002000) /\
    page_flags st' 0x40002000 = Some PG_USED.
Proof.
  assert (Hw : w_ok two_pages) by exact I.
  destruct (kpage_alloc_fresh two_pages [0; 1] Hw two_pages_ok) as (st' & r & l' & Hr & _ & _ & Hm).
  assert (Hva : r = Some 0xFFFF000040002000) by (vm_compute in Hr; congruence). subst r.
  exists st'. split; [exact Hr |]. destruct Hm as [(_ & _ & Hu & _) _]. exact Hu.
Defined.

Lemma kpage_free_exact_witness :
  exists st', kpage_free (freelist_pop two_pages).1 0xFFFF000040002000 = Ret st' /\
    page_flags st' 0x40002000 = Some PG_FREE.
Proof.
  assert (Hok : exists l, kalloc_ok (freelist_pop two_pages).1 l).
  { destruct (freelist_pop_spec two_pages [0; 1] two_pages_ok) as (st' & Hp & Hok & _).
    rewrite Hp. by exists [1]. }
  destruct Hok as [l Hok].
  pose proof (kpage_free_exact (freelist_pop two_pages).1 l 0xFFFF000040002000 Hok) as H.
  cbn zeta in H. destruct (kpage_free _ _) as [st' |] eqn:E; [| vm_compute in E; discriminate].
  exists st'. split; [reflexivity |]. destruct H as (_ & _ & Hf & _). exact Hf.
Defined.

Lemma kalloc_exclusive_ownership_witness :
  is_Ret (kpage_free (freelist_pop two_pages).1 0xFFFF000040002000).
Proof.
  assert (Hnone : forall pa, ~ allocd two_pages pa).
  { intros pa. unfold allocd, page_flags. destruct (pa_to_page _ pa) as [i |]; cbn;
      [destruct (i =? 0); cbn |]; intuition discriminate. }
  destruct (kalloc_exclusive_ownership two_pages [0; 1] (freelist_pop two_pages).1
    [0xFFFF000040002000] two_pages_ok Hnone) as (_ & H & _).
  { apply rtc_once. apply (step_alloc two_pages [] _ 0 0x40002000); vm_compute; reflexivity. }
  specialize (H 0xFFFF000040002000 ltac:(lia) eq_refl).
  rewrite decide_True in H; [apply H | left].
  left. vm_compute. split; [discriminate | reflexivity].
Defined.
