(* ===== verification/Pages.v ===== *)
(** * The page allocator as its clients see it

    The interface between vm/kalloc.c and the code that takes whole pages from it
    (arch/pmap.c, vm/slab.c, kern/exec.c): [kpage_alloc] and [kpage_free] with what
    they promise about the pages in use. The clients' theorems are proved against the
    classes; the instance at the end discharges them with the allocator of [Kalloc]. *)

From S2P Require Import Prelude Bits Mmu Physmem Kalloc.

(** The DMAP address of a page of RAM. Table descriptors hold 48-bit addresses. *)
Definition is_page (p : Z) : Prop := KERN_BASE <= p < KERN_BASE + 2 ^ 48 /\ p mod 4096 = 0.

Class PageAlloc (A : Type) := {
  pa_alloc : A -> res (A * option Z);
  pa_free : A -> Z -> res A
}.

(** [pa_used a p]: the page [p] is handed out as a whole page. *)
Class PageAllocLaws (A : Type) `{PageAlloc A} := {
  pa_ok : A -> Prop;
  pa_used : A -> Z -> Prop;
  pa_alloc_law : forall a, pa_ok a ->
    exists a' r, pa_alloc a = Ret (a', r) /\ pa_ok a' /\
      match r with
      | Some p => is_page p /\ ~ pa_used a p /\ pa_used a' p /\
          forall q, is_page q -> q <> p -> pa_used a' q <-> pa_used a q
      | None => forall q, is_page q -> pa_used a' q <-> pa_used a q
      end;
  pa_free_law : forall a p, pa_ok a -> is_page p -> pa_used a p ->
    exists a', pa_free a p = Ret a' /\ pa_ok a' /\ ~ pa_used a' p /\
      forall q, is_page q -> q <> p -> pa_used a' q <-> pa_used a q
}.

(** ** The allocator of [Kalloc] implements the interface *)

#[export] Instance kalloc_pages {W} `{PageReclaim W} : PageAlloc W := {|
  pa_alloc := kpage_alloc;
  pa_free := fun w p => ka ← kpage_free (w_ka w) p; Ret (w_set_ka w ka)
|}.

(** All RAM lies below the reach of a table descriptor; [dmap_bank] of arch/pmap.c
    panics on a bank that does not. *)
Definition ram_below (pm : physmem) : Prop :=
  forall pa, in_segs (vm_phys_segs pm) pa -> pa < 2 ^ 48.

Lemma is_page_pa p : is_page p -> KVA_TO_PA p = p - KERN_BASE /\ 0 <= p < 2 ^ 64 /\ page_aligned (KVA_TO_PA p).
Proof.
  unfold is_page, KVA_TO_PA, page_aligned, KERN_BASE. intros [H1 H2].
  rewrite u64_small by lia. split; [done |]. split; [lia |]. Z.div_mod_to_equations. lia.
Qed.

Lemma is_page_inj p q : is_page p -> is_page q -> p <> q -> KVA_TO_PA p / 4096 <> KVA_TO_PA q / 4096.
Proof.
  intros Hp Hq Hne E. apply Hne.
  destruct (is_page_pa p Hp) as (_ & ? & ?), (is_page_pa q Hq) as (_ & ? & ?). by apply aligned_kva_inj.
Qed.

Lemma page_flags_in_segs st l pa f : kalloc_ok st l -> page_flags st pa = Some f ->
  in_segs (vm_phys_segs (ka_pm st)) pa.
Proof.
  intros (Hs & _). unfold page_flags. pose proof (pa_to_page_spec _ pa Hs) as P.
  destruct (pa_to_page (ka_pm st) pa); [intros _; apply P | done].
Qed.

Lemma allocated_is_page st st' l' va : kalloc_ok st' l' -> ram_below (ka_pm st') ->
  0 <= va < 2 ^ 64 -> KVA_TO_PA va mod 4096 = 0 ->
  page_flags st' (KVA_TO_PA va) = Some PG_USED -> allocated st st' (KVA_TO_PA va) -> is_page va.
Proof.
  intros Hok Hram Hva Ha Hf _. apply (page_flags_in_segs _ _ _ _ Hok), Hram in Hf.
  pose proof (KVA_TO_PA_range va) as Hr. rewrite <- (PA_KVA_inv va) by done.
  revert Ha Hf Hr. generalize (KVA_TO_PA va). intros pa Ha Hf Hr.
  unfold is_page, PA_TO_KVA, KERN_BASE. rewrite u64_small by lia. split; [lia |].
  Z.div_mod_to_equations. lia.
Qed.

Lemma kpage_alloc_range {W} `{PageReclaim W} (w w' : W) va :
  kpage_alloc w = Ret (w', Some va) -> 0 <= va < 2 ^ 64.
Proof.
  unfold kpage_alloc. destruct (w_pop w) as [w1 pg1].
  match goal with |- mbind _ ?x = _ -> _ => destruct x as [[w2 [pg |]] |] end;
    cbn [mbind res_bind snd fst]; try done.
  destruct (page_to_pa _ pg); cbn [mbind res_bind]; [| done]. intros [= _ <-]. apply u64_range.
Qed.

#[export, refine] Instance kalloc_pages_laws {W} `{PageReclaimLaws W} : PageAllocLaws W := {|
  pa_ok := fun w => w_ok w /\ ram_below (ka_pm (w_ka w)) /\ exists l, kalloc_ok (w_ka w) l;
  pa_used := fun w p => page_flags (w_ka w) (KVA_TO_PA p) = Some PG_USED
|}.
Proof.
  - intros w (Hw & Hram & l & Hok).
    destruct (kpage_alloc_cases w l Hw Hok) as (w' & r & l' & E & Hok' & Hpm & Hw' & Hr).
    exists w', r. split; [done |]. split; [rewrite Hpm; eauto |].
    assert (Hother : forall q, only_reclaimed (w_ka w) (w_ka w') (KVA_TO_PA q) ->
      page_flags (w_ka w') (KVA_TO_PA q) = Some PG_USED <-> page_flags (w_ka w) (KVA_TO_PA q) = Some PG_USED).
    { intros q [-> | [-> ->]]; [done |]. split; intros; discriminate. }
    destruct r as [va |].
    + destruct Hr as [Hal _]. pose proof Hal as (Ha & Hb & Hu & Hf & Ho).
      assert (Hrange : 0 <= va < 2 ^ 64).
      { by apply kpage_alloc_range in E. }
      assert (Hp : is_page va) by (apply (allocated_is_page (w_ka w) (w_ka w') l'); rewrite ?Hpm; done).
      split; [done |]. split; [destruct Hf as [-> | ->]; discriminate |]. split; [done |].
      intros q Hq Hne. apply Hother, Ho. by apply is_page_inj.
    + destruct Hr as [_ Ho]. intros q _. apply Hother, Ho.
  - intros w p (Hw & Hram & l & Hok) Hp Hu. cbn [pa_free kalloc_pages].
    pose proof (kpage_free_cases (w_ka w) l p Hok) as Hc. cbn zeta in Hc.
    destruct (is_page_pa p Hp) as (_ & _ & Hal).
    destruct (kpage_free (w_ka w) p) as [ka |].
    2: { destruct Hc as [? | [Hc | Hc]]; [done | |]; rewrite Hc in Hu; discriminate. }
    destruct Hc as (_ & _ & Hpm & Hf & Ho & pg & Hok' & _). cbn [mbind res_bind].
    exists (w_set_ka w ka). split; [done |]. rewrite !w_get_set, Hpm. split; [| split].
    + split; [| eauto]. apply w_ok_set; [done | done |]. intros pa.
      destruct (decide (pa / 4096 = KVA_TO_PA p / 4096)) as [Epg |]; [| by rewrite Ho].
      rewrite (page_flags_page (w_ka w) pa _ l Hok Epg), (page_flags_page ka pa _ _ Hok' Epg), Hu, Hf.
      split; discriminate.
    + rewrite Hf. discriminate.
    + intros q Hq Hne. rewrite Ho; [done |]. by apply is_page_inj.
Defined.
