(* ===== verification/Slab.v ===== *)
(** * The slab allocator

    Models vm/slab.c: caches of equal objects carved from pages of [Kalloc], with
    per-CPU magazines and a depot of magazines in front of the slabs.

    The state [world] holds the page allocator, and one map per structure type from
    addresses to values: slab headers (at the base of each slab page), magazines and
    caches. The structures live in memory the allocator itself hands out; that no two
    objects overlap, so that the maps do not alias, is what the invariant shows. An
    intrusive list is the list of its elements, in order; an element has one link field,
    so LIST_REMOVE takes it off whichever list of the cache holds it.

    Operations run one at a time, on the CPU [cpu]; the fields [locks] and
    [caches_lock] say which locks the running call holds, so that taking a held lock
    again panics, as the assertion in [acquire_spinlock] does, and [try_acquire_spinlock]
    fails. [push_off] and [pop_off] have no effect at this grain. *)

From S2P Require Import Prelude Bits Mmu Physmem Kalloc Pages.

Definition MAG_DEPTH : Z := 15.
Definition KMEM_MIN_ALIGN : Z := 16.
Definition SLAB_MAX_OBJS : Z := PGSIZE / KMEM_MIN_ALIGN.

Record kmem_magazine := Magazine { m_count : Z; m_objs : Z -> Z }.

Record slab := Slab { s_cache : Z; s_inuse : Z; s_used : bitstr }.

Record kmem_cpu_cache := CpuCache { loaded : option Z; previous : option Z }.

Record kmem_cache := Cache {
  objsize : Z;
  align : Z;
  slots_per_slab : Z;
  obj_offset : Z;
  ctor : bool;                    (* a constructor is given *)
  use_mag : bool;
  partial : list Z;
  full : list Z;
  empty : list Z;
  full_mags : list Z;
  empty_mags : list Z;
  c_cpu : Z -> kmem_cpu_cache
}.

(** LP64 sizes of the structures that are themselves allocated or placed in a slab. *)
Definition sizeof_slab : Z := 64.
Definition sizeof_kmem_magazine : Z := 144.
Definition sizeof_kmem_cache : Z := 640.

(** [ctor_calls] records the objects the constructors were run on, latest first. *)
Record world := World {
  ka : kalloc;
  slabs : Z -> slab;
  mags : Z -> kmem_magazine;
  caches : Z -> kmem_cache;
  kmem_caches : list Z;
  locks : Z -> bool;
  caches_lock : bool;
  ctor_calls : list Z
}.

Definition set_ka (w : world) (k : kalloc) : world :=
  World k (slabs w) (mags w) (caches w) (kmem_caches w) (locks w) (caches_lock w) (ctor_calls w).
Definition set_slab (w : world) (s : Z) (h : slab) : world :=
  World (ka w) ((slabs w).[s <- h]) (mags w) (caches w) (kmem_caches w) (locks w) (caches_lock w) (ctor_calls w).
Definition set_mag (w : world) (m : Z) (x : kmem_magazine) : world :=
  World (ka w) (slabs w) ((mags w).[m <- x]) (caches w) (kmem_caches w) (locks w) (caches_lock w) (ctor_calls w).
Definition set_cache (w : world) (c : Z) (k : kmem_cache) : world :=
  World (ka w) (slabs w) (mags w) ((caches w).[c <- k]) (kmem_caches w) (locks w) (caches_lock w) (ctor_calls w).
Definition set_list (w : world) (l : list Z) : world :=
  World (ka w) (slabs w) (mags w) (caches w) l (locks w) (caches_lock w) (ctor_calls w).
Definition set_lock (w : world) (c : Z) (b : bool) : world :=
  World (ka w) (slabs w) (mags w) (caches w) (kmem_caches w) ((locks w).[c <- b]) (caches_lock w) (ctor_calls w).
Definition set_caches_lock (w : world) (b : bool) : world :=
  World (ka w) (slabs w) (mags w) (caches w) (kmem_caches w) (locks w) b (ctor_calls w).
Definition set_ctor (w : world) (l : list Z) : world :=
  World (ka w) (slabs w) (mags w) (caches w) (kmem_caches w) (locks w) (caches_lock w) l.

Definition set_lists (k : kmem_cache) (p f e : list Z) : kmem_cache :=
  Cache (objsize k) (align k) (slots_per_slab k) (obj_offset k) (ctor k) (use_mag k) p f e
    (full_mags k) (empty_mags k) (c_cpu k).
Definition set_depot (k : kmem_cache) (f e : list Z) (cpus : Z -> kmem_cpu_cache) : kmem_cache :=
  Cache (objsize k) (align k) (slots_per_slab k) (obj_offset k) (ctor k) (use_mag k)
    (partial k) (full k) (empty k) f e cpus.

Definition acquire (w : world) (c : Z) : res world :=
  kassert (negb (locks w c)) msg "acquire_spinlock: already held" ;;
  Ret (set_lock w c true).
Definition release (w : world) (c : Z) : world := set_lock w c false.

Definition acquire_caches (w : world) : res world :=
  kassert (negb (caches_lock w)) msg "acquire_spinlock: already held" ;;
  Ret (set_caches_lock w true).

Definition round_align (x align : Z) : Z := Z.land (u64 (u64 (x + align) - 1)) (not64 (align - 1)).

(** Division by zero, which the unsigned wrap of a huge size can cause, gives 0 on this
    architecture, as [Z.div] does. *)
Definition cache_setup (w : world) (c size align : Z) (ctor use_mag : bool) : world :=
  let align := if align <? KMEM_MIN_ALIGN then KMEM_MIN_ALIGN else align in
  let size := round_align size align in
  let off := round_align sizeof_slab align in
  set_lock
    (set_cache w c
       (Cache size align (u32 (u64 (PGSIZE - off) / size)) (u32 off) ctor use_mag [] [] [] [] []
          (fun _ => CpuCache None None)))
    c false.

Definition slab_obj (k : kmem_cache) (s slot : Z) : Z := u64 (s + obj_offset k + u64 (slot * objsize k)).

Section ops.
(** The addresses of the two static caches. *)
Context (cache_cache magazine_cache : Z).

Definition kmem_init (w : world) : world :=
  let w := set_list (set_caches_lock w false) [] in
  let w := cache_setup w cache_cache sizeof_kmem_cache 0 false false in
  let w := cache_setup w magazine_cache sizeof_kmem_magazine 0 false false in
  let w := set_list w (cache_cache :: kmem_caches w) in
  set_list w (magazine_cache :: kmem_caches w).

Definition slab_free_locked (w : world) (c obj : Z) : res world :=
  let k := caches w c in
  let s := PGROUNDDW obj in
  let h := slabs w s in
  kassert (s_cache h =? c) msg "kmem_cache_free: object does not belong to this cache" ;;
  let slot := s32 (u64 (obj - (s + obj_offset k)) / objsize k) in
  kassert ((slot >=? 0) && (u32 slot <? slots_per_slab k) && bit_test (s_used h) slot)
    msg "kmem_cache_free: bad address or double free" ;;
  let was_full := u32 (s_inuse h) =? slots_per_slab k in
  let h := Slab (s_cache h) (s32 (s_inuse h - 1)) (bit_clear (s_used h) slot) in
  let k := if was_full then set_lists k (s :: without s (partial k)) (without s (full k)) (without s (empty k)) else k in
  let k := if s_inuse h =? 0 then set_lists k (without s (partial k)) (without s (full k)) (s :: without s (empty k)) else k in
  Ret (set_cache (set_slab w s h) c k).

(** [kmem_cache_free] of a cache without magazines. *)
Definition kmem_cache_free_slab (w : world) (c obj : Z) : res world :=
  w ← acquire w c;
  w ← slab_free_locked w c obj;
  Ret (release w c).

(** for (i = 0; i < m->count; i++) slab_free_locked(cache, m->objs[i]) *)
Fixpoint drain_loop (n : nat) (w : world) (c m i : Z) : res world :=
  match n with
  | O => Ret w
  | S n' => w ← slab_free_locked w c (m_objs (mags w m) i); drain_loop n' w c m (i + 1)
  end.

(** [magazine_cache] has no magazines of its own ([kmem_init]), so [kmem_cache_free]
    takes its first branch. *)
Definition drain_magazine (w : world) (c m : Z) : res world :=
  w ← drain_loop (Z.to_nat (m_count (mags w m))) w c m 0;
  let w := set_mag w m (Magazine 0 (m_objs (mags w m))) in
  kmem_cache_free_slab w magazine_cache m.

(** LIST_FOREACH_SAFE(m, ..) { LIST_REMOVE(m, link); drain_magazine(c, m); } *)
Fixpoint drain_list (l : list Z) (w : world) (c : Z) : res world :=
  match l with
  | [] => Ret w
  | m :: l' =>
      let k := caches w c in
      let w := set_cache w c (set_depot k (without m (full_mags k)) (without m (empty_mags k)) (c_cpu k)) in
      w ← drain_magazine w c m;
      drain_list l' w c
  end.

(** LIST_FOREACH_SAFE(s, &c->empty, ..) { LIST_REMOVE(s, link); kpage_free(s); freed++; } *)
Fixpoint free_empty (l : list Z) (w : world) (c : Z) (freed : Z) : res (world * Z) :=
  match l with
  | [] => Ret (w, freed)
  | s :: l' =>
      let k := caches w c in
      let w := set_cache w c (set_lists k (without s (partial k)) (without s (full k)) (without s (empty k))) in
      ka' ← kpage_free (ka w) s;
      free_empty l' (set_ka w ka') c (s32 (freed + 1))
  end.

(** One cache of the loop of [kmem_reclaim]. *)
Definition reclaim_cache (w : world) (c freed : Z) : res (world * Z) :=
  if locks w c then Ret (w, freed)
  else
    let w := set_lock w c true in
    w ← drain_list (full_mags (caches w c)) w c;
    w ← drain_list (empty_mags (caches w c)) w c;
    '(w, freed) ← free_empty (empty (caches w c)) w c freed;
    Ret (release w c, freed).

(** LIST_FOREACH(c, &kmem_caches, link) *)
Fixpoint reclaim_loop (l : list Z) (w : world) (freed : Z) : res (world * Z) :=
  match l with
  | [] => Ret (w, freed)
  | c :: l' => '(w, freed) ← reclaim_cache w c freed; reclaim_loop l' w freed
  end.

Definition kmem_reclaim (w : world) : res (world * Z) :=
  if caches_lock w then Ret (w, 0)
  else
    let w := set_caches_lock w true in
    '(w, freed) ← reclaim_loop (kmem_caches w) w 0;
    Ret (set_caches_lock w false, freed).

#[local] Instance slab_reclaim : PageReclaim world := {|
  w_ka := ka;
  w_set_ka := set_ka;
  Kalloc.kmem_reclaim := kmem_reclaim
|}.

(** The constructor runs over the slots in order. *)
Definition slab_grow (w : world) (c : Z) : res (world * option Z) :=
  '(w, page) ← kpage_alloc w;
  match page with
  | None => Ret (w, None)
  | Some s =>
      ka' ← kpage_set_slab (ka w) s;
      let w := set_slab (set_ka w ka') s (Slab c 0 (fun _ => 0)) in
      let k := caches w c in
      let w := if ctor k
               then set_ctor w (rev (map (slab_obj k s) (seqZ 0 (slots_per_slab k))) ++ ctor_calls w)
               else w in
      Ret (w, Some s)
  end.

(** The slab to allocate from, put on the partial list. *)
Definition slab_pick (w : world) (c : Z) : res (world * option Z) :=
  let k := caches w c in
  match partial k with
  | s :: _ => Ret (w, Some s)
  | [] =>
      match empty k with
      | s :: _ =>
          let k := set_lists k (without s (partial k)) (without s (full k)) (without s (empty k)) in
          Ret (set_cache w c (set_lists k (s :: partial k) (full k) (empty k)), Some s)
      | [] =>
          '(w, r) ← slab_grow w c;
          match r with
          | None => Ret (w, None)
          | Some s =>
              let k := caches w c in
              Ret (set_cache w c (set_lists k (s :: partial k) (full k) (empty k)), Some s)
          end
      end
  end.

(** A slot of slab [s], which moves to the full list when it was the last. *)
Definition slab_take (w : world) (c s : Z) : res (world * Z) :=
  let k := caches w c in
  let h := slabs w s in
  let slot := bit_ffc (s_used h) (s32 (slots_per_slab k)) in
  kassert (slot >=? 0) msg "slab_alloc_locked: no free slot in a partial slab" ;;
  let h := Slab (s_cache h) (s32 (s_inuse h + 1)) (bit_set (s_used h) slot) in
  let k := if u32 (s_inuse h) =? slots_per_slab k
           then set_lists k (without s (partial k)) (s :: without s (full k)) (without s (empty k)) else k in
  Ret (set_cache (set_slab w s h) c k, slab_obj k s slot).

Definition slab_alloc_locked (w : world) (c : Z) : res (world * option Z) :=
  '(w, r) ← slab_pick w c;
  match r with
  | None => Ret (w, None)
  | Some s => '(w, obj) ← slab_take w c s; Ret (w, Some obj)
  end.

Definition set_cpu (w : world) (c cpu : Z) (cc : kmem_cpu_cache) : world :=
  let k := caches w c in
  set_cache w c (set_depot k (full_mags k) (empty_mags k) ((c_cpu k).[cpu <- cc])).

Definition count_of (w : world) (m : option Z) : option Z := m ← m; Some (m_count (mags w m)).

Definition insert_opt (m : option Z) (l : list Z) : list Z :=
  match m with Some m => m :: l | None => l end.

(** while (true): the second pass finds a loaded magazine with an object. *)
Fixpoint alloc_loop (fuel : nat) (w : world) (cpu c : Z) : res (world * option Z) :=
  match fuel with
  | O => Panic "kmem_cache_alloc: does not end"
  | S fuel' =>
      let k := caches w c in
      let cc := c_cpu k cpu in
      match loaded cc with
      | Some m =>
          if m_count (mags w m) >? 0 then
            let n := s32 (m_count (mags w m) - 1) in
            Ret (set_mag w m (Magazine n (m_objs (mags w m))), Some (m_objs (mags w m) n))
          else alloc_slow fuel' w cpu c
      | None => alloc_slow fuel' w cpu c
      end
  end
with alloc_slow (fuel : nat) (w : world) (cpu c : Z) : res (world * option Z) :=
  match fuel with
  | O => Panic "kmem_cache_alloc: does not end"
  | S fuel' =>
      let k := caches w c in
      let cc := c_cpu k cpu in
      if bool_decide (count_of w (previous cc) = Some MAG_DEPTH)
      then alloc_loop fuel' (set_cpu w c cpu (CpuCache (previous cc) (loaded cc))) cpu c
      else
        w ← acquire w c;
        let k := caches w c in
        match full_mags k with
        | fm :: _ =>
            let f := without fm (full_mags k) in
            let e := without fm (empty_mags k) in
            let w := set_cache w c (set_depot k f (insert_opt (previous cc) e)
                                      ((c_cpu k).[cpu <- CpuCache (Some fm) (loaded cc)])) in
            alloc_loop fuel' (release w c) cpu c
        | [] =>
            '(w, obj) ← slab_alloc_locked w c;
            Ret (release w c, obj)
        end
  end.

Definition kmem_cache_alloc (w : world) (cpu c : Z) : res (world * option Z) :=
  if negb (use_mag (caches w c)) then
    w ← acquire w c;
    '(w, obj) ← slab_alloc_locked w c;
    Ret (release w c, obj)
  else alloc_loop 4 w cpu c.

Fixpoint free_loop (fuel : nat) (w : world) (cpu c obj : Z) : res world :=
  match fuel with
  | O => Panic "kmem_cache_free: does not end"
  | S fuel' =>
      let k := caches w c in
      let cc := c_cpu k cpu in
      match loaded cc with
      | Some m =>
          let x := mags w m in
          if m_count x <? MAG_DEPTH
          then Ret (set_mag w m (Magazine (s32 (m_count x + 1)) ((m_objs x).[m_count x <- obj])))
          else free_slow fuel' w cpu c obj
      | None => free_slow fuel' w cpu c obj
      end
  end
with free_slow (fuel : nat) (w : world) (cpu c obj : Z) : res world :=
  match fuel with
  | O => Panic "kmem_cache_free: does not end"
  | S fuel' =>
      let k := caches w c in
      let cc := c_cpu k cpu in
      if bool_decide (count_of w (previous cc) = Some 0)
      then free_loop fuel' (set_cpu w c cpu (CpuCache (previous cc) (loaded cc))) cpu c obj
      else
        w ← acquire w c;
        let k := caches w c in
        '(w, em) ← match empty_mags k with
                   | em :: _ =>
                       Ret (set_cache w c (set_depot k (without em (full_mags k)) (without em (empty_mags k)) (c_cpu k)),
                            Some em)
                   | [] =>
                       '(w, r) ← kmem_cache_alloc w cpu magazine_cache;
                       Ret match r with
                           | None => (w, None)
                           | Some em => (set_mag w em (Magazine 0 (m_objs (mags w em))), Some em)
                           end
                   end;
        match em with
        | None =>
            w ← slab_free_locked w c obj;
            Ret (release w c)
        | Some em =>
            let k := caches w c in
            let cc := c_cpu k cpu in
            let w := set_cache w c (set_depot k (insert_opt (previous cc) (full_mags k)) (empty_mags k)
                                      ((c_cpu k).[cpu <- CpuCache (Some em) (loaded cc)])) in
            free_loop fuel' (release w c) cpu c obj
        end
  end.

Definition kmem_cache_free (w : world) (cpu c obj : Z) : res world :=
  if negb (use_mag (caches w c)) then kmem_cache_free_slab w c obj
  else free_loop 4 w cpu c obj.

Definition kmem_free (w : world) (cpu obj : Z) : res world :=
  kmem_cache_free w cpu (s_cache (slabs w (PGROUNDDW obj))) obj.

Definition kmem_cache_create (w : world) (cpu size align : Z) (ctor : bool) : res (world * option Z) :=
  if size =? 0 then Ret (w, None)
  else
    '(w, c) ← kmem_cache_alloc w cpu cache_cache;
    match c with
    | None => Ret (w, None)
    | Some c =>
        let w := cache_setup w c size align ctor true in
        if slots_per_slab (caches w c) =? 0 then
          w ← kmem_cache_free w cpu cache_cache c;
          Ret (w, None)
        else
          w ← acquire_caches w;
          Ret (set_caches_lock (set_list w (c :: kmem_caches w)) false, Some c)
    end.

(** The magazines of CPU [i]: drain each and clear its pointer. *)
Definition drain_cpu (w : world) (c i : Z) : res world :=
  w ← match loaded (c_cpu (caches w c) i) with
      | None => Ret w
      | Some m =>
          w ← drain_magazine w c m;
          Ret (set_cpu w c i (CpuCache None (previous (c_cpu (caches w c) i))))
      end;
  match previous (c_cpu (caches w c) i) with
  | None => Ret w
  | Some m =>
      w ← drain_magazine w c m;
      Ret (set_cpu w c i (CpuCache (loaded (c_cpu (caches w c) i)) None))
  end.

Fixpoint drain_cpus (n : nat) (w : world) (c i : Z) : res world :=
  match n with
  | O => Ret w
  | S n' => w ← drain_cpu w c i; drain_cpus n' w c (i + 1)
  end.

Definition kmem_cache_destroy (w : world) (cpu c : Z) : res world :=
  w ← acquire_caches w;
  let w := set_caches_lock (set_list w (without c (kmem_caches w))) false in
  w ← acquire w c;
  w ← drain_cpus (Z.to_nat NCPU_MAX) w c 0;
  w ← drain_list (full_mags (caches w c)) w c;
  w ← drain_list (empty_mags (caches w c)) w c;
  kassert (match partial (caches w c), full (caches w c) with [], [] => true | _, _ => false end)
    msg "kmem_cache_destroy: cache still has live objects" ;;
  '(w, _) ← free_empty (empty (caches w c)) w c 0;
  kmem_cache_free (release w c) cpu cache_cache c.
End ops.
