(* ===== verification/SlabSpec.v ===== *)
(** * The slab allocator: invariant and slab layer

    The invariant [sok] of [Slab], the objects a client owns ([live]), and what the
    slab-layer operations do to them: [slab_free_locked], [slab_pick] and [slab_take]
    on the slabs, and the moves of magazines between the depot, the CPUs and the caller's
    hands. *)

From S2P Require Import Prelude Bits Mmu Physmem Kalloc Pages Slab.

(** ** Specification *)

Definition slabs_of (k : kmem_cache) : list Z := partial k ++ full k ++ empty k.

Definition opt_list (m : option Z) : list Z := match m with Some m => [m] | None => [] end.

Definition cpu_mags (cc : kmem_cpu_cache) : list Z := opt_list (loaded cc) ++ opt_list (previous cc).

(** The magazines of a cache: of the depot and of the CPUs. *)
Definition mags_of (k : kmem_cache) : list Z :=
  full_mags k ++ empty_mags k ++ flat_map (fun i => cpu_mags (c_cpu k i)) (seqZ 0 NCPU_MAX).

Definition mag_objs (w : world) (m : Z) : list Z := map (m_objs (mags w m)) (seqZ 0 (m_count (mags w m))).

(** The objects waiting in magazines. *)
Definition cached (w : world) (c : Z) : list Z := flat_map (mag_objs w) (mags_of (caches w c)).

Definition used_slots (u : bitstr) (n : Z) : list Z := filter (fun i => bit_test u i = true) (seqZ 0 n).

(** [o] is a slot of a slab of [c] marked used. *)
Definition taken (w : world) (c o : Z) : Prop :=
  exists s i, s ∈ slabs_of (caches w c) /\ 0 <= i < slots_per_slab (caches w c) /\
    o = slab_obj (caches w c) s i /\ bit_test (s_used (slabs w s)) i = true.

(** The objects of a slab fit in its page behind the header and do not overlap. *)
Definition geom (k : kmem_cache) : Prop :=
  0 < objsize k /\ 0 < slots_per_slab k <= SLAB_MAX_OBJS /\ sizeof_slab <= obj_offset k /\
  obj_offset k + slots_per_slab k * objsize k <= PGSIZE.

(** A slab on the lists of cache [c]. *)
Record slab_ok (w : world) (c s : Z) : Prop := {
  sl_page : is_page s;
  sl_flag : page_flags (ka w) (KVA_TO_PA s) = Some PG_SLAB;
  sl_cache : s_cache (slabs w s) = c;
  sl_wf : bitstr_wf (s_used (slabs w s));
  sl_inuse : s_inuse (slabs w s) = Z.of_nat (length (used_slots (s_used (slabs w s)) (slots_per_slab (caches w c))))
}.

(** The slab layer of a cache: each slab is on the list its fill calls for. *)
Record slabs_ok (w : world) (c : Z) : Prop := {
  sc_geom : geom (caches w c);
  sc_nodup : NoDup (slabs_of (caches w c));
  sc_slab : forall s, s ∈ slabs_of (caches w c) -> slab_ok w c s;
  sc_partial : forall s, s ∈ partial (caches w c) -> 0 < s_inuse (slabs w s) < slots_per_slab (caches w c);
  sc_full : forall s, s ∈ full (caches w c) -> s_inuse (slabs w s) = slots_per_slab (caches w c);
  sc_empty : forall s, s ∈ empty (caches w c) -> s_inuse (slabs w s) = 0
}.

(** The magazines of the depot are full or empty, and so are the CPUs' previous ones. *)
Record counts_ok (mg : Z -> kmem_magazine) (k : kmem_cache) : Prop := {
  mg_full : forall m, m ∈ full_mags k -> m_count (mg m) = MAG_DEPTH;
  mg_empty : forall m, m ∈ empty_mags k -> m_count (mg m) = 0;
  mg_loaded : forall i m, 0 <= i < NCPU_MAX -> loaded (c_cpu k i) = Some m -> 0 <= m_count (mg m) <= MAG_DEPTH;
  mg_previous : forall i m, 0 <= i < NCPU_MAX -> previous (c_cpu k i) = Some m ->
    m_count (mg m) = 0 \/ m_count (mg m) = MAG_DEPTH
}.

Record mags_ok (w : world) (c : Z) : Prop := {
  mg_counts : counts_ok (mags w) (caches w c);
  mg_nodup : NoDup (mags_of (caches w c));
  mg_objs : NoDup (cached w c);
  mg_taken : forall o, o ∈ cached w c -> taken w c o
}.

(** The invariant, over the caches [cs] that exist; those on [kmem_caches] are among
    them. Locks play no part in it. *)
Record sok (cache_cache magazine_cache : Z) (w : world) (cs : list Z) : Prop := {
  so_ram : ram_below (ka_pm (ka w));
  so_static : forall c, c = cache_cache \/ c = magazine_cache ->
    c ∈ cs /\ use_mag (caches w c) = false /\ pa_to_page (ka_pm (ka w)) (KVA_TO_PA (PGROUNDDW c)) = None;
  so_list : (forall c, c ∈ kmem_caches w -> c ∈ cs) /\ NoDup (kmem_caches w);
  so_slabs : forall c, c ∈ cs -> slabs_ok w c;
  so_conv : forall s, is_page s -> page_flags (ka w) (KVA_TO_PA s) = Some PG_SLAB ->
    exists c, c ∈ cs /\ s ∈ slabs_of (caches w c);
  so_mags : forall c, c ∈ cs -> mags_ok w c;
  so_disj : forall c c' m, c ∈ cs -> c' ∈ cs -> m ∈ mags_of (caches w c) -> m ∈ mags_of (caches w c') -> c = c';
  so_mtaken : forall c m, c ∈ cs -> m ∈ mags_of (caches w c) -> taken w magazine_cache m;
  so_nomag : forall c, c ∈ cs -> use_mag (caches w c) = false -> mags_of (caches w c) = [];
  so_ctaken : forall c, c ∈ cs -> c <> cache_cache -> c <> magazine_cache -> taken w cache_cache c
}.

(** [o] is an object of cache [c] in a client's hands. *)
Definition live (magazine_cache : Z) (w : world) (cs : list Z) (c o : Z) : Prop :=
  c ∈ cs /\ taken w c o /\ (o ∉ cached w c) /\
  (c = magazine_cache -> forall c', c' ∈ cs -> o ∉ mags_of (caches w c')).

(** ** Lemmas: lists and counts *)

Lemma filter_ext_in (P Q : Z -> Prop) `{forall x, Decision (P x), forall x, Decision (Q x)} (l : list Z) :
  (forall j, j ∈ l -> P j <-> Q j) -> filter P l = filter Q l.
Proof.
  intros Heq. induction l as [| x l IH]; [done |]. rewrite !filter_cons.
  rewrite IH by (intros; apply Heq; by right). pose proof (Heq x ltac:(left)) as Hx.
  destruct (decide (P x)), (decide (Q x)); done || tauto.
Qed.

Lemma filter_flip (P Q : Z -> Prop) `{forall x, Decision (P x), forall x, Decision (Q x)} (l : list Z) i :
  NoDup l -> i ∈ l -> ~ P i -> Q i -> (forall j, j ∈ l -> j <> i -> P j <-> Q j) ->
  length (filter Q l) = S (length (filter P l)).
Proof.
  intros Hnd Hi HP HQ Heq. induction l as [| x l IH]; [by apply elem_of_nil in Hi |].
  apply NoDup_cons in Hnd as [Hx Hnd]. rewrite !filter_cons.
  destruct (decide (x = i)) as [-> | Hne].
  - rewrite decide_True, decide_False by done. cbn [length]. f_equal. f_equal.
    apply filter_ext_in. intros j Hj. symmetry. apply Heq; [by right |]. by intros ->.
  - apply elem_of_cons in Hi as [-> | Hi]; [done |].
    specialize (IH Hnd Hi ltac:(intros; apply Heq; [by right | done])).
    pose proof (Heq x ltac:(left) Hne) as Hx'.
    destruct (decide (P x)), (decide (Q x)); cbn [length]; rewrite ?IH; tauto.
Qed.

Lemma used_set u n i : 0 <= i < n -> bit_test u i = false ->
  length (used_slots (bit_set u i) n) = S (length (used_slots u n)).
Proof.
  intros Hi Hf. unfold used_slots. apply (filter_flip _ _ _ i).
  - apply NoDup_seqZ.
  - apply elem_of_seqZ. lia.
  - by rewrite Hf.
  - rewrite bit_test_set by lia. by rewrite Z.eqb_refl.
  - intros j Hj Hne. apply elem_of_seqZ in Hj. rewrite bit_test_set by lia.
    by destruct (Z.eqb_spec j i).
Qed.

Lemma used_clear u n i : 0 <= i < n -> bit_test u i = true ->
  length (used_slots u n) = S (length (used_slots (bit_clear u i) n)).
Proof.
  intros Hi Hf. unfold used_slots. apply (filter_flip _ _ _ i).
  - apply NoDup_seqZ.
  - apply elem_of_seqZ. lia.
  - rewrite bit_test_clear by lia. by rewrite Z.eqb_refl.
  - done.
  - intros j Hj Hne. apply elem_of_seqZ in Hj. rewrite bit_test_clear by lia.
    by destruct (Z.eqb_spec j i).
Qed.

Lemma used_le u n : 0 <= n -> Z.of_nat (length (used_slots u n)) <= n.
Proof.
  intros Hn. unfold used_slots. etrans; [apply inj_le, length_filter |]. rewrite length_seqZ. lia.
Qed.

Lemma used_none u n i : length (used_slots u n) = 0%nat -> 0 <= i < n -> bit_test u i = false.
Proof.
  intros H Hi. apply nil_length_inv in H. destruct (bit_test u i) eqn:E; [| done].
  assert (Hin : i ∈ used_slots u n) by (apply list_elem_of_filter; split; [done | apply elem_of_seqZ; lia]).
  rewrite H in Hin. by apply elem_of_nil in Hin.
Qed.

(** A full count leaves no bit clear. *)
Lemma used_lt u n i : 0 <= i < n -> bit_test u i = false -> Z.of_nat (length (used_slots u n)) < n.
Proof.
  intros Hi Hf. pose proof (used_set u n i Hi Hf). pose proof (used_le (bit_set u i) n ltac:(lia)). lia.
Qed.

Lemma filter_all (P : Z -> Prop) `{forall x, Decision (P x)} (l : list Z) :
  (forall j, j ∈ l -> P j) -> filter P l = l.
Proof.
  intros HP. induction l as [| x l IH]; [done |]. rewrite filter_cons, decide_True by (apply HP; left).
  by rewrite IH by (intros; apply HP; by right).
Qed.

Lemma used_all u n : 0 <= n -> (forall i, 0 <= i < n -> bit_test u i = true) -> Z.of_nat (length (used_slots u n)) = n.
Proof.
  intros Hn H. unfold used_slots. rewrite filter_all; [rewrite length_seqZ; lia |].
  intros i Hi. apply elem_of_seqZ in Hi. apply H. lia.
Qed.

Lemma used_empty n : used_slots (fun _ => 0) n = [].
Proof.
  unfold used_slots. induction (seqZ 0 n) as [| i l IH]; [done |]. rewrite filter_cons, decide_False; done.
Qed.

(** ** Lemmas: object addresses *)

Lemma slab_obj_eq k s i : geom k -> is_page s -> 0 <= i < slots_per_slab k ->
  slab_obj k s i = s + obj_offset k + i * objsize k.
Proof.
  unfold geom, is_page, slab_obj, KERN_BASE, sizeof_slab, PGSIZE. intros (Ho & Hs & Hoff & Hfit) [Hp Hm] Hi.
  assert (i * objsize k + objsize k <= slots_per_slab k * objsize k) by nia.
  assert (0 <= i * objsize k) by nia.
  rewrite (u64_small (i * objsize k)) by lia. rewrite u64_small; [lia |].
  assert (s + 4096 <= 2 ^ 64); [| lia]. Z.div_mod_to_equations. lia.
Qed.

(** An object lies in its slab's page, behind the header. *)
Lemma slab_obj_range k s i : geom k -> is_page s -> 0 <= i < slots_per_slab k ->
  s + sizeof_slab <= slab_obj k s i /\ slab_obj k s i + objsize k <= s + 4096.
Proof.
  intros Hg Hp Hi. rewrite (slab_obj_eq k s i Hg Hp Hi). destruct Hg as (Ho & Hs & Hoff & Hfit). unfold PGSIZE in Hfit.
  assert (i * objsize k + objsize k <= slots_per_slab k * objsize k) by nia.
  assert (0 <= i * objsize k) by nia. lia.
Qed.

Lemma slab_obj_page k s i : geom k -> is_page s -> 0 <= i < slots_per_slab k -> PGROUNDDW (slab_obj k s i) = s.
Proof.
  intros Hg Hp Hi. destruct (slab_obj_range k s i Hg Hp Hi) as [H1 H2]. destruct Hg as (Ho & _).
  destruct Hp as [Hp Hm]. unfold KERN_BASE, sizeof_slab in *.
  assert (s + 4096 <= 2 ^ 64) by (Z.div_mod_to_equations; lia).
  rewrite PGROUNDDW_eq by lia. Z.div_mod_to_equations. lia.
Qed.

Lemma slab_obj_slot k s i : geom k -> is_page s -> 0 <= i < slots_per_slab k ->
  s32 (u64 (slab_obj k s i - (s + obj_offset k)) / objsize k) = i.
Proof.
  intros Hg Hp Hi. rewrite (slab_obj_eq k s i Hg Hp Hi).
  replace (s + obj_offset k + i * objsize k - (s + obj_offset k)) with (i * objsize k) by lia.
  destruct Hg as (Ho & Hs & Hoff & Hfit). unfold SLAB_MAX_OBJS, PGSIZE, KMEM_MIN_ALIGN in *. change (4096 / 16) with 256 in Hs.
  unfold sizeof_slab in Hoff. assert (i * objsize k + objsize k <= slots_per_slab k * objsize k) by nia.
  assert (0 <= i * objsize k) by nia.
  rewrite u64_small, Z.div_mul by lia. unfold s32. rewrite Z.mod_small by lia. lia.
Qed.

Lemma slab_obj_inj k s s' i i' : geom k -> is_page s -> is_page s' ->
  0 <= i < slots_per_slab k -> 0 <= i' < slots_per_slab k -> slab_obj k s i = slab_obj k s' i' -> s = s' /\ i = i'.
Proof.
  intros Hg Hs Hs' Hi Hi' E. assert (s = s') as <-.
  { rewrite <- (slab_obj_page k s i), <- (slab_obj_page k s' i') by done. by rewrite E. }
  split; [done |]. rewrite <- (slab_obj_slot k s i), <- (slab_obj_slot k s i') by done. by rewrite E.
Qed.

(** ** Lemmas: the slab layer *)

Lemma slabs_of_set k p f e : slabs_of (set_lists k p f e) = p ++ f ++ e.
Proof. done. Qed.

(** A cache none of whose slabs changed. *)
Lemma slabs_ok_frame w w' c : slabs_ok w c -> caches w' c = caches w c ->
  (forall s, s ∈ slabs_of (caches w c) -> slabs w' s = slabs w s /\ page_flags (ka w') (KVA_TO_PA s) = Some PG_SLAB) ->
  slabs_ok w' c.
Proof.
  intros [G1 G2 G3 G4 G5 G6] Ec Hs. unfold slabs_of in *.
  assert (Hin : forall s, s ∈ partial (caches w c) \/ s ∈ full (caches w c) \/ s ∈ empty (caches w c) ->
    slabs w' s = slabs w s) by (intros s H; apply Hs; rewrite !elem_of_app; tauto).
  split; rewrite ?Ec; try done.
  - intros s Hin'. destruct (Hs s Hin') as [E Hf], (G3 s Hin'). split; rewrite ?E, ?Ec; done.
  - intros s H. rewrite Hin by auto. auto.
  - intros s H. rewrite Hin by auto. auto.
  - intros s H. rewrite Hin by auto. auto.
Qed.

Lemma taken_frame w w' c o : caches w' c = caches w c ->
  (forall s, s ∈ slabs_of (caches w c) -> s_used (slabs w' s) = s_used (slabs w s)) ->
  taken w' c o <-> taken w c o.
Proof.
  intros Ec Hs. unfold taken. rewrite Ec. split; intros (s & i & H1 & H2 & H3 & H4); exists s, i;
    rewrite (Hs s H1) in *; done.
Qed.

Lemma other_slabs w c c' s : slabs_ok w c -> slabs_ok w c' -> c <> c' ->
  s ∈ slabs_of (caches w c) -> s ∉ slabs_of (caches w c').
Proof.
  intros H H' Hne Hs Hs'. apply Hne. by rewrite <- (sl_cache _ _ _ (sc_slab _ _ H s Hs)), <- (sl_cache _ _ _ (sc_slab _ _ H' s Hs')).
Qed.

(** [taken], on the page and the slot of the object. *)
Lemma taken_slot_gen w c o : geom (caches w c) -> (forall s, s ∈ slabs_of (caches w c) -> is_page s) -> taken w c o ->
  exists i, PGROUNDDW o ∈ slabs_of (caches w c) /\ 0 <= i < slots_per_slab (caches w c) /\
    o = slab_obj (caches w c) (PGROUNDDW o) i /\ bit_test (s_used (slabs w (PGROUNDDW o))) i = true.
Proof.
  intros Hg Hp (s & i & Hs & Hi & -> & Hb). exists i. by rewrite (slab_obj_page _ _ _ Hg (Hp s Hs) Hi).
Qed.

Lemma taken_slot w c o : slabs_ok w c -> taken w c o ->
  exists i, PGROUNDDW o ∈ slabs_of (caches w c) /\ 0 <= i < slots_per_slab (caches w c) /\
    o = slab_obj (caches w c) (PGROUNDDW o) i /\ bit_test (s_used (slabs w (PGROUNDDW o))) i = true.
Proof. intros H. apply taken_slot_gen; [apply H |]. intros s Hs. apply (sl_page _ _ _ (sc_slab _ _ H s Hs)). Qed.

(** The slab layer while slab [s] is between lists. *)
Record slabs_but (w : world) (c s : Z) : Prop := {
  sb_geom : geom (caches w c);
  sb_nodup : NoDup (slabs_of (caches w c));
  sb_slab : forall t, t ∈ slabs_of (caches w c) -> t <> s -> slab_ok w c t;
  sb_partial : forall t, t ∈ partial (caches w c) -> t <> s -> 0 < s_inuse (slabs w t) < slots_per_slab (caches w c);
  sb_full : forall t, t ∈ full (caches w c) -> t <> s -> s_inuse (slabs w t) = slots_per_slab (caches w c);
  sb_empty : forall t, t ∈ empty (caches w c) -> t <> s -> s_inuse (slabs w t) = 0
}.

Lemma slabs_ok_but w c s : slabs_ok w c -> slabs_but w c s.
Proof. intros []. split; auto. Qed.

(** Rewriting one header and the lists of one cache. *)
Definition put (w : world) (c s : Z) (h : slab) (k : kmem_cache) : world := set_cache (set_slab w s h) c k.

(** The slab [s] of [c], or a new one, with header [h], on the list its fill calls for. *)
Record fits (w : world) (c s : Z) (h : slab) (p f e : list Z) : Prop := {
  ft_perm : p ++ f ++ e ≡ₚ s :: without s (slabs_of (caches w c));
  ft_page : is_page s;
  ft_flag : page_flags (ka w) (KVA_TO_PA s) = Some PG_SLAB;
  ft_cache : s_cache h = c;
  ft_wf : bitstr_wf (s_used h);
  ft_inuse : s_inuse h = Z.of_nat (length (used_slots (s_used h) (slots_per_slab (caches w c))));
  ft_p : forall t, t ∈ p -> t <> s -> t ∈ partial (caches w c);
  ft_f : forall t, t ∈ f -> t <> s -> t ∈ full (caches w c);
  ft_e : forall t, t ∈ e -> t <> s -> t ∈ empty (caches w c);
  ft_sp : s ∈ p -> 0 < s_inuse h < slots_per_slab (caches w c);
  ft_sf : s ∈ f -> s_inuse h = slots_per_slab (caches w c);
  ft_se : s ∈ e -> s_inuse h = 0
}.

Lemma put_slabs w c s h p f e : slabs_but w c s -> fits w c s h p f e ->
  slabs_ok (put w c s h (set_lists (caches w c) p f e)) c.
Proof.
  intros H F. set (w' := put _ _ _ _ _).
  assert (Ec : caches w' c = set_lists (caches w c) p f e) by apply upd_eq.
  assert (Es : slabs w' s = h) by apply upd_eq.
  assert (Eo : forall t, t <> s -> slabs w' t = slabs w t) by (intros t Ht; by apply upd_ne).
  split; rewrite ?Ec; cbn [partial full empty set_lists slots_per_slab].
  - exact (sb_geom _ _ _ H).
  - rewrite slabs_of_set, (ft_perm _ _ _ _ _ _ _ F). constructor; [rewrite elem_of_without; tauto |].
    apply NoDup_filter, (sb_nodup _ _ _ H).
  - intros t Ht. rewrite slabs_of_set, (ft_perm _ _ _ _ _ _ _ F), elem_of_cons, elem_of_without in Ht.
    destruct (decide (t = s)) as [-> | Hne].
    + split; rewrite ?Es, ?Ec; apply F.
    + destruct Ht as [? | [_ Ht]]; [done |]. destruct (sb_slab _ _ _ H t Ht Hne). split; rewrite ?(Eo t Hne), ?Ec; done.
  - intros t Ht. destruct (decide (t = s)) as [-> | Hne]; [rewrite Es; by apply F |].
    rewrite Eo by done. apply H; [by apply (ft_p _ _ _ _ _ _ _ F) | done].
  - intros t Ht. destruct (decide (t = s)) as [-> | Hne]; [rewrite Es; by apply F |].
    rewrite Eo by done. apply H; [by apply (ft_f _ _ _ _ _ _ _ F) | done].
  - intros t Ht. destruct (decide (t = s)) as [-> | Hne]; [rewrite Es; by apply F |].
    rewrite Eo by done. apply H; [by apply (ft_e _ _ _ _ _ _ _ F) | done].
Qed.

(** What [put] does to the objects taken: those of [s] are as [h] says, the rest as before. *)
Lemma put_taken w c s h p f e o : slabs_but w c s -> fits w c s h p f e ->
  taken (put w c s h (set_lists (caches w c) p f e)) c o <->
  (exists i, 0 <= i < slots_per_slab (caches w c) /\ o = slab_obj (caches w c) s i /\ bit_test (s_used h) i = true) \/
  (PGROUNDDW o <> s /\ taken w c o).
Proof.
  intros H F. set (w' := put _ _ _ _ _).
  assert (Ec : caches w' c = set_lists (caches w c) p f e) by apply upd_eq.
  assert (Es : slabs w' s = h) by apply upd_eq.
  assert (Eo : forall t, t <> s -> slabs w' t = slabs w t) by (intros t Ht; by apply upd_ne).
  assert (Hsl : forall t, t ∈ slabs_of (caches w' c) <-> t = s \/ t ∈ slabs_of (caches w c)).
  { intros t. rewrite Ec, slabs_of_set, (ft_perm _ _ _ _ _ _ _ F), elem_of_cons, elem_of_without.
    destruct (decide (t = s)); tauto. }
  split.
  - intros (t & i & Ht & Hi & E & Hb). rewrite Ec in Hi, E.
    change (slab_obj _ t i) with (slab_obj (caches w c) t i) in E. cbn [slots_per_slab set_lists] in Hi.
    apply Hsl in Ht. destruct (decide (t = s)) as [-> | Hne].
    + left. exists i. rewrite Es in Hb. done.
    + right. destruct Ht as [? | Ht]; [done |]. rewrite Eo in Hb by done.
      pose proof (sl_page _ _ _ (sb_slab _ _ _ H t Ht Hne)) as Hp. rewrite E.
      rewrite (slab_obj_page _ _ _ (sb_geom _ _ _ H) Hp Hi). split; [done |]. by exists t, i.
  - intros [(i & Hi & E & Hb) | [Hne (t & i & Ht & Hi & E & Hb)]].
    + exists s, i. rewrite Es, Ec. split; [rewrite <- Ec; apply Hsl; by left |]. done.
    + assert (Hp : is_page t).
      { destruct (decide (t = s)) as [-> |]; [apply F |]. by apply (sl_page w c), H. }
      subst o.
      rewrite (slab_obj_page _ _ _ (sb_geom _ _ _ H) Hp Hi) in Hne.
      exists t, i. rewrite Eo, Ec by done. split; [rewrite <- Ec; apply Hsl; by right | done].
Qed.

Lemma set_lists_id k : set_lists k (partial k) (full k) (empty k) = k.
Proof. by destruct k. Qed.

Lemma slabs_of_in k s : s ∈ slabs_of k <-> s ∈ partial k \/ s ∈ full k \/ s ∈ empty k.
Proof. unfold slabs_of. by rewrite !elem_of_app. Qed.

(** Moving [s] to the head of one list, off the others. *)
Lemma move_partial k s : s :: without s (slabs_of k) = (s :: without s (partial k)) ++ without s (full k) ++ without s (empty k).
Proof. unfold slabs_of. by rewrite !without_app. Qed.

Lemma move_full k s : without s (partial k) ++ (s :: without s (full k)) ++ without s (empty k) ≡ₚ s :: without s (slabs_of k).
Proof. unfold slabs_of. rewrite !without_app. symmetry. apply Permutation_middle. Qed.

Lemma move_empty k s : without s (partial k) ++ without s (full k) ++ (s :: without s (empty k)) ≡ₚ s :: without s (slabs_of k).
Proof. unfold slabs_of. rewrite !without_app, !app_assoc. symmetry. apply Permutation_middle. Qed.

(** On its list, a slab is partly filled, full or empty; where an object is taken it is
    not empty. *)
Lemma slab_fill w c s : slabs_ok w c -> s ∈ slabs_of (caches w c) ->
  0 <= s_inuse (slabs w s) <= slots_per_slab (caches w c) /\
  (s ∈ partial (caches w c) <-> 0 < s_inuse (slabs w s) < slots_per_slab (caches w c)) /\
  (s ∈ full (caches w c) <-> s_inuse (slabs w s) = slots_per_slab (caches w c)) /\
  (s ∈ empty (caches w c) <-> s_inuse (slabs w s) = 0).
Proof.
  intros H Hs. destruct (sc_geom _ _ H) as (_ & Hn & _).
  pose proof (sc_partial _ _ H s). pose proof (sc_full _ _ H s). pose proof (sc_empty _ _ H s).
  apply slabs_of_in in Hs. split; [| split; [| split; [| split]]]; try split; intuition lia.
Qed.

Lemma s32_small x : - 2147483648 <= x < 2147483648 -> s32 x = x.
Proof. intros. unfold s32. rewrite Z.mod_small by lia. lia. Qed.

(** The lists [slab_free_locked] leaves, for a slab whose fill was [m] of [n]. *)
Definition free_lists (k : kmem_cache) (s m : Z) : list Z * list Z * list Z :=
  if m =? 1 then (without s (partial k), without s (full k), s :: without s (empty k))
  else if m =? slots_per_slab k then (s :: without s (partial k), without s (full k), without s (empty k))
  else (partial k, full k, empty k).

Lemma without_twice s l : without s (without s l) = without s l.
Proof. apply without_notin. rewrite elem_of_without. tauto. Qed.

Lemma free_fits w c s i : slabs_ok w c -> s ∈ slabs_of (caches w c) -> 0 <= i < slots_per_slab (caches w c) ->
  bit_test (s_used (slabs w s)) i = true ->
  let m := s_inuse (slabs w s) in
  let '(p, f, e) := free_lists (caches w c) s m in
  0 < m <= slots_per_slab (caches w c) /\
  fits w c s (Slab c (m - 1) (bit_clear (s_used (slabs w s)) i)) p f e.
Proof.
  intros H Hs Hi Hb m. destruct (sc_slab _ _ H s Hs) as [Hp Hfl Hc Hwf Hin].
  pose proof (used_clear _ _ _ Hi Hb) as Hcl. destruct (slab_fill w c s H Hs) as (Hr & Hpa & Hfu & Hem).
  destruct (sc_geom _ _ H) as (_ & Hn & _). fold m in Hin, Hr, Hpa, Hfu, Hem.
  assert (Hm : 0 < m) by lia. assert (He : s ∉ empty (caches w c)) by (rewrite Hem; lia).
  unfold free_lists. destruct (Z.eqb_spec m 1) as [E1 |]; [| destruct (Z.eqb_spec m (slots_per_slab (caches w c)))];
    (split; [lia |]); split; cbn [s_cache s_inuse s_used]; try done; try lia; try (by apply bit_clear_wf);
    try (intros t; rewrite ?elem_of_cons, ?elem_of_without; intuition congruence).
  - apply move_empty.
  - rewrite elem_of_without. tauto.
  - rewrite elem_of_without. tauto.
  - by rewrite move_partial.
  - rewrite elem_of_without. tauto.
  - rewrite elem_of_without. tauto.
  - by apply without_perm, Hs; apply (sc_nodup _ _ H).
Qed.

Lemma free_taken w c s i p f e : slabs_ok w c -> s ∈ slabs_of (caches w c) -> 0 <= i < slots_per_slab (caches w c) ->
  let h := Slab c (s_inuse (slabs w s) - 1) (bit_clear (s_used (slabs w s)) i) in
  fits w c s h p f e ->
  forall o, taken (put w c s h (set_lists (caches w c) p f e)) c o <->
    taken w c o /\ o <> slab_obj (caches w c) s i.
Proof.
  intros H Hs Hi h F o. rewrite (put_taken _ _ _ _ _ _ _ _ (slabs_ok_but _ _ s H) F).
  pose proof (sl_page _ _ _ (sc_slab _ _ H s Hs)) as Hp. pose proof (sc_geom _ _ H) as Hg. cbn [s_used h]. split.
  - intros [(j & Hj & -> & Hb) | [Hne Ht]].
    + rewrite bit_test_clear in Hb by lia. apply andb_true_iff in Hb as [Hne Hb].
      apply negb_true_iff, Z.eqb_neq in Hne. split; [by exists s, j |].
      intros E. by apply slab_obj_inj in E as [_ ?].
    + split; [done |]. intros ->. apply Hne. by apply slab_obj_page.
  - intros [Ht Hne]. destruct (taken_slot w c o H Ht) as (j & Hin & Hj & E & Hb).
    destruct (decide (PGROUNDDW o = s)) as [Es |]; [| by right]. left. rewrite Es in *. exists j.
    split; [done |]. split; [done |]. rewrite bit_test_clear, Hb by lia.
    destruct (Z.eqb_spec j i) as [-> |]; [by destruct Hne | done].
Qed.

(** [slab_free_locked] of a taken object frees exactly that object. *)
Lemma slab_free_locked_spec w c o : slabs_ok w c -> taken w c o ->
  exists s h p f e, slab_free_locked w c o = Ret (put w c s h (set_lists (caches w c) p f e)) /\
    s ∈ slabs_of (caches w c) /\ fits w c s h p f e /\
    forall o', taken (put w c s h (set_lists (caches w c) p f e)) c o' <-> taken w c o' /\ o' <> o.
Proof.
  intros H Ht. destruct (taken_slot w c o H Ht) as (i & Hs & Hi & E & Hb).
  set (s := PGROUNDDW o) in *. set (k := caches w c) in *. set (m := s_inuse (slabs w s)).
  pose proof (free_fits w c s i H Hs Hi Hb) as Hf. cbn zeta in Hf. fold m in Hf.
  destruct (free_lists (caches w c) s m) as [[p f] e] eqn:El. destruct Hf as [Hm F].
  exists s, (Slab c (m - 1) (bit_clear (s_used (slabs w s)) i)), p, f, e.
  destruct (sc_slab _ _ H s Hs) as [Hp _ Hc _ _]. pose proof (sc_geom _ _ H) as Hg. fold k in Hg, Hm.
  assert (Hn : 0 < slots_per_slab k <= 256) by apply Hg.
  split; [| split; [done |]; split; [done |]; rewrite E; by apply free_taken].
  unfold slab_free_locked. fold s k. rewrite Hc, Z.eqb_refl. cbn [KASSERT mbind res_bind].
  assert (Eslot : s32 (u64 (o - (s + obj_offset k)) / objsize k) = i)
    by (rewrite E at 1; by apply slab_obj_slot).
  rewrite !Eslot, Hb. fold m. rewrite (u32_small i), (proj2 (Z.ltb_lt i _)), (proj2 (Z.geb_le i 0)) by lia.
  cbn [andb KASSERT mbind res_bind]. rewrite (u32_small m), (s32_small (m - 1)) by lia. cbn [s_inuse]. unfold put. f_equal. f_equal.
  unfold free_lists in El. fold k in El. destruct (Z.eqb_spec m 1) as [E1 |].
  - injection El as <- <- <-. rewrite (proj2 (Z.eqb_eq (m - 1) 0)) by lia.
    destruct (m =? slots_per_slab k); [| done]. cbn [set_lists partial full empty].
    by rewrite without_head, !without_twice by (rewrite elem_of_without; tauto).
  - rewrite (proj2 (Z.eqb_neq (m - 1) 0)) by lia. destruct (m =? slots_per_slab k); injection El as <- <- <-; [done |].
    by rewrite set_lists_id.
Qed.

(** [slab_take] on a slab of the partial list with room: a free slot becomes taken. *)
Lemma slab_take_spec w c s : slabs_but w c s -> slab_ok w c s -> s ∈ partial (caches w c) ->
  s_inuse (slabs w s) < slots_per_slab (caches w c) ->
  exists h p f e o, slab_take w c s = Ret (put w c s h (set_lists (caches w c) p f e), o) /\
    fits w c s h p f e /\ ~ taken w c o /\ PGROUNDDW o = s /\
    forall o', taken (put w c s h (set_lists (caches w c) p f e)) c o' <-> taken w c o' \/ o' = o.
Proof.
  intros H Hs Hpa Hlt. pose proof (sb_geom _ _ _ H) as Hg. assert (Hn : 0 < slots_per_slab (caches w c) <= 256) by apply Hg.
  assert (Hin : s ∈ slabs_of (caches w c)) by (apply slabs_of_in; auto).
  assert (Hpage : forall t, t ∈ slabs_of (caches w c) -> is_page t).
  { intros t Ht. destruct (decide (t = s)) as [-> |]; [apply Hs |]. by apply (sl_page w c), H. }
  destruct Hs as [Hp Hfl Hc Hwf Hi]. set (k := caches w c) in *. set (u := s_used (slabs w s)) in *.
  set (n := slots_per_slab k) in *. set (m := s_inuse (slabs w s)) in *.
  destruct (bit_ffc_cases u n Hwf ltac:(lia)) as [[_ Hall] | (Hr & Hfree & _)];
    [apply used_all in Hall; lia |].
  set (i := bit_ffc u n) in *. pose proof (used_set u n i Hr Hfree) as Hset.
  set (full' := (m + 1 =? n)).
  exists (Slab c (m + 1) (bit_set u i)),
    (if full' then without s (partial k) else partial k), (if full' then s :: without s (full k) else full k),
    (if full' then without s (empty k) else empty k), (slab_obj k s i).
  assert (F : fits w c s (Slab c (m + 1) (bit_set u i)) (if full' then without s (partial k) else partial k)
    (if full' then s :: without s (full k) else full k) (if full' then without s (empty k) else empty k)).
  { assert (Hx : full' = false -> (s ∉ full k) /\ (s ∉ empty k)).
    { intros _. pose proof (sb_nodup _ _ _ H) as Hnd. fold k in Hnd. unfold slabs_of in Hnd.
      apply NoDup_app in Hnd as (_ & Hd & _). specialize (Hd s Hpa). rewrite elem_of_app in Hd. tauto. }
    unfold full' in *. destruct (Z.eqb_spec (m + 1) n); split; cbn [s_cache s_inuse s_used]; fold k n;
      try done; try lia; try (apply bit_set_wf; [lia | done]);
      try (intros t; rewrite ?elem_of_cons, ?elem_of_without; intuition congruence).
    - apply move_full.
    - rewrite elem_of_without. tauto.
    - rewrite elem_of_without. tauto.
    - apply without_perm; [apply H | done]. }
  assert (Hnt : ~ taken w c (slab_obj k s i)).
  { intros Ht. destruct (taken_slot_gen w c _ Hg Hpage Ht) as (j & _ & Hj & E & Hb). fold k n in Hj, E.
    rewrite slab_obj_page in E, Hb by done. apply slab_obj_inj in E as [_ ->]; try done. fold u in Hb. congruence. }
  split; [| split; [done |]; split; [done |]; split; [by apply slab_obj_page |]].
  - unfold slab_take. fold k u n m. rewrite (s32_small n) by lia. fold i.
    rewrite (proj2 (Z.geb_le i 0)) by lia. cbn [KASSERT mbind res_bind s_inuse s_used s_cache].
    rewrite Hc, (s32_small (m + 1)), (u32_small (m + 1)) by lia. fold full'.
    destruct full'; [done |]. by rewrite set_lists_id.
  - intros o'. pose proof (put_taken _ _ _ _ _ _ _ o' H F) as P. fold k n in P. rewrite P. cbn [s_used]. split.
    + intros [(j & Hj & -> & Hb) | [_ Ht]]; [| by left]. rewrite bit_test_set in Hb by lia.
      destruct (Z.eqb_spec j i) as [-> |]; [by right |]. left. by exists s, j.
    + intros [Ht | ->].
      * destruct (taken_slot_gen w c _ Hg Hpage Ht) as (j & _ & Hj & E & Hb).
        destruct (decide (PGROUNDDW o' = s)) as [Es |]; [| by right]. left. rewrite Es in *. fold u in Hb. fold k n in Hj. exists j.
        split; [done |]. split; [done |]. rewrite bit_test_set, Hb by lia. apply orb_true_r.
      * left. exists i. split; [done |]. split; [done |]. rewrite bit_test_set, Z.eqb_refl by lia. done.
Qed.

(** ** Lemmas: the whole invariant *)

Section caches.
Context (cc mc : Z).
Notation sok := (sok cc mc).
Notation live := (live mc).

Section put.
Context (w : world) (cs : list Z) (c s : Z) (ka' : kalloc) (h : slab) (p f e : list Z).
Context (Hok : sok w cs) (Hc : c ∈ cs).
Notation w0 := (set_ka w ka').
Notation w' := (put w0 c s h (set_lists (caches w c) p f e)).
Context (Hpm : ka_pm ka' = ka_pm (ka w)).
Context (Hflags : forall t, is_page t -> t <> s ->
  page_flags ka' (KVA_TO_PA t) = Some PG_SLAB <-> page_flags (ka w) (KVA_TO_PA t) = Some PG_SLAB).
Context (Hbut : slabs_but w0 c s) (F : fits w0 c s h p f e).
Context (Hother : forall c', c' ∈ cs -> c' <> c -> s ∉ slabs_of (caches w c')).

Lemma put_caches c' : caches w' c' = if decide (c' = c) then set_lists (caches w c) p f e else caches w c'.
Proof.
  unfold put, set_cache, set_slab. cbn [caches set_ka]. destruct (decide (c' = c)) as [-> |]; [apply upd_eq | by apply upd_ne].
Qed.

Lemma put_mags_of c' : mags_of (caches w' c') = mags_of (caches w c').
Proof. rewrite put_caches. by destruct (decide (c' = c)) as [-> |]. Qed.

Lemma put_cached c' : cached w' c' = cached w c'.
Proof. unfold cached. by rewrite put_mags_of. Qed.

Lemma put_use_mag c' : use_mag (caches w' c') = use_mag (caches w c').
Proof. rewrite put_caches. by destruct (decide (c' = c)) as [-> |]. Qed.

Lemma put_taken_other c' o : c' ∈ cs -> c' <> c -> taken w' c' o <-> taken w c' o.
Proof.
  intros Hc' Hne. apply taken_frame; [by rewrite put_caches, decide_False by done |].
  intros t Ht. unfold put. cbn [slabs set_cache set_slab set_ka]. rewrite upd_ne; [done |].
  intros ->. by apply (Hother c').
Qed.

Lemma put_slabs_all c' : c' ∈ cs -> slabs_ok w' c'.
Proof.
  intros Hc'. destruct (decide (c' = c)) as [-> | Hne]; [exact (put_slabs w0 c s h p f e Hbut F) |].
  apply (slabs_ok_frame w); [by apply Hok | by rewrite put_caches, decide_False by done |].
  intros t Ht. pose proof (sc_slab _ _ (so_slabs _ _ _ _ Hok c' Hc') t Ht) as [Hp Hf _ _ _].
  assert (t <> s) by (intros ->; by apply (Hother c')). split.
  - unfold put. cbn [slabs set_cache set_slab set_ka]. by rewrite upd_ne.
  - unfold put. cbn [ka set_cache set_slab set_ka]. by apply Hflags.
Qed.

Lemma put_mags_ok c' : c' ∈ cs -> (forall o, o ∈ cached w c' -> taken w' c' o) -> mags_ok w' c'.
Proof.
  intros Hc' Ht. destruct (so_mags _ _ _ _ Hok c' Hc') as [[M1 M2 M3 M4] M5 M6 M7].
  split; rewrite ?put_mags_of, ?put_cached; try done. rewrite put_caches.
  destruct (decide (c' = c)) as [-> |]; by split.
Qed.

Lemma sok_put :
  (forall o, o ∈ cached w c -> taken w' c o) ->
  (c = mc -> forall c' m, c' ∈ cs -> m ∈ mags_of (caches w c') -> taken w' c m) ->
  (c = cc -> forall c', c' ∈ cs -> c' <> cc -> c' <> mc -> taken w' c c') ->
  sok w' cs.
Proof.
  intros Ho Hm Hcs. destruct Hok as [S1 S2 S3 S4 S5 S6 S7 S8 S9 S10].
  assert (Ht : forall c' o, c' ∈ cs -> taken w c' o -> c' = c \/ taken w' c' o).
  { intros c' o Hc' Ht. destruct (decide (c' = c)); [by left | right]. by apply put_taken_other. }
  split.
  - unfold put. cbn [ka set_cache set_slab set_ka]. by rewrite Hpm.
  - intros c' H'. rewrite put_use_mag. unfold put. cbn [ka set_cache set_slab set_ka]. rewrite Hpm. by apply S2.
  - done.
  - apply put_slabs_all.
  - intros t Hp Hf. destruct (decide (t = s)) as [-> | Hne].
    + exists c. split; [done |]. rewrite put_caches, decide_True, slabs_of_set by done.
      rewrite (ft_perm _ _ _ _ _ _ _ F). left.
    + unfold put in Hf. cbn [ka set_cache set_slab set_ka] in Hf. apply Hflags in Hf; [| done | done].
      destruct (S5 t Hp Hf) as (c' & Hc' & Ht'). exists c'. split; [done |]. rewrite put_caches.
      destruct (decide (c' = c)) as [-> |]; [| done]. rewrite slabs_of_set, (ft_perm _ _ _ _ _ _ _ F).
      right. by apply elem_of_without.
  - intros c' Hc'. apply put_mags_ok; [done |]. intros o Hin.
    destruct (Ht c' o Hc' (mg_taken _ _ (S6 c' Hc') o Hin)) as [-> | ?]; [auto | done].
  - intros c1 c2 m. rewrite !put_mags_of. apply S7.
  - intros c' m Hc'. rewrite put_mags_of. intros Hin. destruct (Ht mc m) as [<- | ?]; [by apply S2; right | by eapply S8 | | done].
    by eapply Hm.
  - intros c' Hc'. rewrite put_use_mag, put_mags_of. by apply S9.
  - intros c' Hc' H1 H2. destruct (Ht cc c') as [<- | ?]; [by apply S2; left | auto | | done]. by apply Hcs.
Qed.

Lemma put_live c' o : live w' cs c' o <->
  c' ∈ cs /\ taken w' c' o /\ (o ∉ cached w c') /\ (c' = mc -> forall c'', c'' ∈ cs -> o ∉ mags_of (caches w c'')).
Proof.
  unfold live. rewrite put_cached. split; intros (H1 & H2 & H3 & H4); (do 3 (split; [done |])); intros E c'' Hc'';
    specialize (H4 E c'' Hc''); by rewrite put_mags_of in *.
Qed.
End put.

(** What the slab-layer operations leave alone. *)
Record frame (w w' : world) : Prop := {
  fr_list : kmem_caches w' = kmem_caches w;
  fr_locks : forall c, locks w' c = locks w c;
  fr_clock : caches_lock w' = caches_lock w;
  fr_caches : forall c, exists p f e, caches w' c = set_lists (caches w c) p f e
}.

Lemma set_ka_id w : set_ka w (ka w) = w.
Proof. by destruct w. Qed.

Lemma frame_put w c s h p f e : frame w (put w c s h (set_lists (caches w c) p f e)).
Proof.
  split; try done. intros c'. unfold put. cbn [caches set_cache set_slab]. destruct (decide (c' = c)) as [-> |].
  - exists p, f, e. apply upd_eq.
  - exists (partial (caches w c')), (full (caches w c')), (empty (caches w c')). by rewrite upd_ne, set_lists_id.
Qed.

(** Freeing a client's object at the slab layer. *)
Lemma sok_free w cs c o : sok w cs -> live w cs c o -> (c = cc -> o ∉ cs) ->
  exists w', slab_free_locked w c o = Ret w' /\ sok w' cs /\ frame w w' /\ ka w' = ka w /\ mags w' = mags w /\
    (forall c', c' <> c -> caches w' c' = caches w c') /\
    forall c' o', live w' cs c' o' <-> live w cs c' o' /\ (c', o') <> (c, o).
Proof.
  intros Hok (Hc & Ht & Hnc & Hnm) Hcs. pose proof (so_slabs _ _ _ _ Hok) as Hsl.
  destruct (slab_free_locked_spec w c o (Hsl c Hc) Ht) as (s & h & p & f & e & E & Hs & F & Htk).
  assert (Hother : forall c', c' ∈ cs -> c' <> c -> s ∉ slabs_of (caches w c'))
    by (intros c' Hc' Hne; apply (other_slabs w c); auto).
  pose proof (slabs_ok_but _ _ s (Hsl c Hc)) as Hbut.
  pose proof (sok_put w cs c s (ka w) h p f e Hok Hc eq_refl) as Hput. rewrite set_ka_id in Hput.
  eexists. split; [exact E |]. split; [| split; [apply frame_put |]; split; [done |]; split; [done |]; split; [intros; by apply upd_ne |]].
  - apply Hput; try done.
    + intros o' Hin. apply Htk. split; [by apply (mg_taken _ _ (so_mags _ _ _ _ Hok c Hc)) |]. by intros ->.
    + intros E' c' m Hc' Hin. apply Htk. split; [subst c; by apply (so_mtaken _ _ _ _ Hok c') |]. intros ->. by apply (Hnm E' c').
    + intros E' c' Hc' H1 H2. apply Htk. split; [subst c; by apply (so_ctaken _ _ _ _ Hok) |]. intros ->. by apply Hcs.
  - intros c' o'. pose proof (put_live w cs c s (ka w) h p f e c' o') as P. rewrite set_ka_id in P. rewrite P. clear P.
    unfold live. destruct (decide (c' = c)) as [-> | Hne]; [rewrite Htk; intuition congruence |].
    pose proof (put_taken_other w cs c s (ka w) h p f e Hother c' o') as P. rewrite set_ka_id in P.
    split; [intros (H1 & H2 & H3 & H4) | intros ((H1 & H2 & H3 & H4) & H5)].
    + rewrite P in H2 by done. split; [done | congruence].
    + by rewrite P.
Qed.
End caches.
