(* ===== verification/SlabDepot.v ===== *)
(** * The slab allocator: magazines, draining and reclaiming

    How [sok] and [live] of [SlabSpec] change when magazines move between the depot, the
    CPUs and the caller, when objects are pushed and popped, when a magazine is drained
    and when [kmem_reclaim] runs, which discharges the interface [PageReclaimLaws] of
    the page allocator. *)

From S2P Require Import Prelude Bits Mmu Physmem Kalloc Pages Slab SlabSpec.

(** ** Lemmas: flat_map *)

Lemma elem_of_flat_map {A B} (g : A -> list B) (l : list A) y : y ∈ flat_map g l <-> exists x, x ∈ l /\ y ∈ g x.
Proof.
  induction l as [| x l IH]; cbn [flat_map].
  - split; [by intros ?%elem_of_nil | by intros (x & ?%elem_of_nil & _)].
  - rewrite elem_of_app, IH. split.
    + intros [Hy | (z & Hz & Hy)]; [by exists x; split; [left |] | by exists z; split; [right |]].
    + intros (z & Hz & Hy). apply elem_of_cons in Hz as [-> | Hz]; [by left | right; by exists z].
Qed.

Lemma flat_map_ext_in {A B} (g g' : A -> list B) (l : list A) :
  (forall x, x ∈ l -> g' x = g x) -> flat_map g' l = flat_map g l.
Proof.
  intros H. induction l as [| x l IH]; [done |]. cbn [flat_map]. rewrite (H x ltac:(left)), IH; [done |].
  intros. apply H. by right.
Qed.

Lemma flat_map_perm {A B} (g : A -> list B) (l l' : list A) : l ≡ₚ l' -> flat_map g l ≡ₚ flat_map g l'.
Proof.
  induction 1 as [| x l l' _ IH | x y l | l1 l2 l3 _ IH1 _ IH2]; cbn [flat_map]; [done | by rewrite IH | | by rewrite IH1].
  by rewrite !app_assoc, (Permutation_app_comm (g y)).
Qed.

(** Changing the value of [g] at one element swaps its contribution. *)
Lemma flat_map_change {B} (g g' : Z -> list B) (l : list Z) i : NoDup l -> i ∈ l ->
  (forall j, j ∈ l -> j <> i -> g' j = g j) -> g i ++ flat_map g' l ≡ₚ g' i ++ flat_map g l.
Proof.
  intros Hnd Hi Heq. rewrite (flat_map_perm g' _ _ (without_perm i l Hnd Hi)), (flat_map_perm g _ _ (without_perm i l Hnd Hi)).
  cbn [flat_map]. rewrite (flat_map_ext_in g g' (without i l)).
  - rewrite !app_assoc. apply Permutation_app_tail, Permutation_app_comm.
  - intros j Hj. apply elem_of_without in Hj as [Hne Hj]. by apply Heq.
Qed.

Lemma NoDup_flat_map_in {A B} (g : A -> list B) (l : list A) x : NoDup (flat_map g l) -> x ∈ l -> NoDup (g x).
Proof.
  induction l as [| y l IH]; cbn [flat_map]; [by intros _ ?%elem_of_nil |]. intros Hnd Hx.
  apply NoDup_app in Hnd as (H1 & _ & H2). apply elem_of_cons in Hx as [-> | Hx]; [done | by apply IH].
Qed.

Lemma NoDup_flat_map_disj {A B} (g : A -> list B) (l : list A) x y z : NoDup (flat_map g l) -> x ∈ l -> y ∈ l ->
  z ∈ g x -> z ∈ g y -> x = y.
Proof.
  induction l as [| t l IH]; cbn [flat_map]; [by intros _ ?%elem_of_nil |]. intros Hnd Hx Hy Hzx Hzy.
  apply NoDup_app in Hnd as (_ & Hd & Hnd).
  apply elem_of_cons in Hx as [Ex | Hx]; apply elem_of_cons in Hy as [Ey | Hy]; subst; [done | | | by apply IH].
  - exfalso. apply (Hd z Hzx), elem_of_flat_map. by exists y.
  - exfalso. apply (Hd z Hzy), elem_of_flat_map. by exists x.
Qed.

(** ** Lemmas: where a magazine is *)

Lemma mags_of_in k m : m ∈ mags_of k <->
  m ∈ full_mags k \/ m ∈ empty_mags k \/ exists i, 0 <= i < NCPU_MAX /\ (loaded (c_cpu k i) = Some m \/ previous (c_cpu k i) = Some m).
Proof.
  assert (Ho : forall x : option Z, m ∈ opt_list x <-> x = Some m).
  { intros [y |]; cbn [opt_list]; [rewrite list_elem_of_singleton | rewrite elem_of_nil]; intuition congruence. }
  unfold mags_of. rewrite !elem_of_app, elem_of_flat_map. apply or_iff_compat_l, or_iff_compat_l.
  split; intros (i & Hi & Hm); exists i; rewrite elem_of_seqZ in *; (split; [lia |]);
    unfold cpu_mags in *; rewrite elem_of_app, !Ho in *; done.
Qed.

Lemma cpu_in i : 0 <= i < NCPU_MAX -> i ∈ seqZ 0 NCPU_MAX.
Proof. intros. apply elem_of_seqZ. lia. Qed.

(** A loaded magazine is nowhere else. *)
Lemma loaded_only k i m : NoDup (mags_of k) -> 0 <= i < NCPU_MAX -> loaded (c_cpu k i) = Some m ->
  (m ∉ full_mags k) /\ (m ∉ empty_mags k) /\
  forall j, 0 <= j < NCPU_MAX -> previous (c_cpu k j) <> Some m /\ (loaded (c_cpu k j) = Some m -> j = i).
Proof.
  intros Hnd Hi Hl. unfold mags_of in Hnd. apply NoDup_app in Hnd as (_ & Hd1 & Hnd).
  apply NoDup_app in Hnd as (_ & Hd2 & Hnd).
  assert (Hin : forall j, 0 <= j < NCPU_MAX -> loaded (c_cpu k j) = Some m \/ previous (c_cpu k j) = Some m ->
    m ∈ cpu_mags (c_cpu k j)).
  { intros j Hj H. unfold cpu_mags. rewrite elem_of_app. destruct H as [-> | ->]; [left | right]; left. }
  assert (Hfl : m ∈ flat_map (fun j => cpu_mags (c_cpu k j)) (seqZ 0 NCPU_MAX)).
  { apply elem_of_flat_map. exists i. split; [by apply cpu_in | auto]. }
  split; [intros H; apply (Hd1 m H); rewrite elem_of_app; auto |].
  split; [intros H; by apply (Hd2 m H) |].
  assert (Hj' : forall j, 0 <= j < NCPU_MAX -> m ∈ cpu_mags (c_cpu k j) -> j = i).
  { intros j Hj H. eapply (NoDup_flat_map_disj _ _ j i m Hnd); [by apply cpu_in | by apply cpu_in | done | auto]. }
  intros j Hj. split; [| intros H; apply Hj'; auto]. intros Hp. assert (j = i) as -> by auto.
  pose proof (NoDup_flat_map_in _ _ i Hnd (cpu_in i Hi)) as Hn. unfold cpu_mags in Hn. rewrite Hl, Hp in Hn.
  cbn [opt_list app] in Hn. apply NoDup_cons in Hn as [Hn _]. apply Hn. left.
Qed.

Lemma counts_loaded mg k i m x : counts_ok mg k -> NoDup (mags_of k) -> 0 <= i < NCPU_MAX ->
  loaded (c_cpu k i) = Some m -> 0 <= m_count x <= MAG_DEPTH -> counts_ok mg.[m <- x] k.
Proof.
  intros [C1 C2 C3 C4] Hnd Hi Hl Hx. destruct (loaded_only k i m Hnd Hi Hl) as (Hf & He & Hj). split.
  - intros m' Hm'. rewrite upd_ne; [auto |]. by intros ->.
  - intros m' Hm'. rewrite upd_ne; [auto |]. by intros ->.
  - intros j m' Hj' Hm'. unfold upd. destruct (Z.eqb_spec m' m); eauto.
  - intros j m' Hj' Hm'. rewrite upd_ne; [eauto |]. intros ->. by apply (Hj j).
Qed.

Section caches.
Context (cc mc : Z).
Notation sok := (sok cc mc).
Notation live := (live mc).

(** ** Lemmas: moving magazines *)

Section depot.
Context (w : world) (cs : list Z) (c : Z) (f e : list Z) (cp : Z -> kmem_cpu_cache).
Context (Hok : sok w cs) (Hc : c ∈ cs).
Notation k' := (set_depot (caches w c) f e cp).
Notation w' := (set_cache w c k').

Lemma depot_caches c' : caches w' c' = if decide (c' = c) then k' else caches w c'.
Proof. cbn [caches set_cache]. destruct (decide (c' = c)) as [-> |]; [apply upd_eq | by apply upd_ne]. Qed.

Lemma depot_taken c' o : taken w' c' o <-> taken w c' o.
Proof. unfold taken. rewrite depot_caches. by destruct (decide (c' = c)) as [-> |]. Qed.

Lemma depot_slabs c' : slabs_ok w c' -> slabs_ok w' c'.
Proof.
  intros [G1 G2 G3 G4 G5 G6]. assert (E := depot_caches c').
  destruct (decide (c' = c)) as [-> |]; split; rewrite ?E; try done;
    intros s Hs; destruct (G3 s Hs); split; rewrite ?E; done.
Qed.

Lemma depot_mags_of c' : c' <> c -> mags_of (caches w' c') = mags_of (caches w c').
Proof. intros. by rewrite depot_caches, decide_False by done. Qed.

Lemma depot_cached c' : c' <> c -> cached w' c' = cached w c'.
Proof. intros. unfold cached. by rewrite depot_mags_of. Qed.

Lemma depot_self : caches w' c = k'.
Proof. by rewrite depot_caches, decide_True by done. Qed.

(** The parts of the invariant a move of magazines keeps whatever it moves. *)
Lemma sok_depot : mags_ok w' c ->
  (forall m, m ∈ mags_of k' -> taken w mc m) ->
  (forall c' m, c' ∈ cs -> c' <> c -> m ∈ mags_of k' -> m ∉ mags_of (caches w c')) ->
  (use_mag (caches w c) = false -> mags_of k' = []) ->
  sok w' cs.
Proof.
  intros Hm Ht Hd Hn. destruct Hok as [S1 S2 S3 S4 S5 S6 S7 S8 S9 S10].
  split.
  - done.
  - intros c' H'. rewrite depot_caches. destruct (decide (c' = c)) as [-> |]; by apply S2.
  - done.
  - intros c' Hc'. by apply depot_slabs, S4.
  - intros s Hp Hf. destruct (S5 s Hp Hf) as (c' & Hc' & Hs). exists c'. split; [done |].
    rewrite depot_caches. by destruct (decide (c' = c)) as [-> |].
  - intros c' Hc'. destruct (decide (c' = c)) as [-> | Hne]; [done |]. destruct (S6 c' Hc') as [C1 C2 C3 C4].
    split; rewrite ?depot_mags_of, ?depot_cached by done; try done.
    + by rewrite depot_caches, decide_False by done.
    + intros o Ho. by apply depot_taken, C4.
  - intros c1 c2 m H1 H2. destruct (decide (c1 = c)) as [-> | N1], (decide (c2 = c)) as [-> | N2];
      rewrite ?depot_self, ?depot_mags_of by done.
    + done.
    + intros A B. by destruct (Hd c2 m H2 N2 A).
    + intros A B. by destruct (Hd c1 m H1 N1 B).
    + by apply S7.
  - intros c' m Hc' Hin. apply depot_taken. destruct (decide (c' = c)) as [-> |].
    + rewrite depot_self in Hin. auto.
    + rewrite depot_mags_of in Hin by done. by eapply S8.
  - intros c' Hc' Hu. destruct (decide (c' = c)) as [-> |].
    + rewrite depot_self in *. auto.
    + rewrite depot_caches, decide_False in Hu by done. rewrite depot_mags_of by done. auto.
  - intros c' Hc' H1 H2. apply depot_taken. auto.
Qed.

Lemma mags_c_nomag : use_mag (caches w mc) = false /\ mags_of (caches w mc) = [].
Proof.
  destruct (so_static _ _ _ _ Hok mc ltac:(by right)) as (Hin & Hu & _). split; [done |]. by apply (so_nomag _ _ _ _ Hok).
Qed.

(** Taking the magazines [rem] off the cache: they and their objects are in the
    caller's hands. *)
Lemma depot_shrink rem : mags_of (caches w c) ≡ₚ rem ++ mags_of k' -> counts_ok (mags w) k' ->
  sok w' cs /\ forall c' o, live w' cs c' o <->
    live w cs c' o \/ (c' = mc /\ o ∈ rem) \/ (c' = c /\ o ∈ flat_map (mag_objs w) rem).
Proof.
  intros Hp Hcnt. destruct (so_mags _ _ _ _ Hok c Hc) as [_ Hnd Hno Htk].
  assert (Hca : cached w c ≡ₚ flat_map (mag_objs w) rem ++ flat_map (mag_objs w) (mags_of k')).
  { unfold cached. rewrite (flat_map_perm _ _ _ Hp). by rewrite flat_map_app. }
  assert (Hca' : cached w' c = flat_map (mag_objs w) (mags_of k')) by (unfold cached; by rewrite depot_self).
  rewrite Hp in Hnd. apply NoDup_app in Hnd as (Hnr & Hdr & Hnd).
  rewrite Hca in Hno. apply NoDup_app in Hno as (Hor & Hod & Hno).
  destruct mags_c_nomag as [Hmu Hmm].
  assert (Hrem : forall m, m ∈ rem -> c <> mc /\ taken w mc m /\ m ∈ mags_of (caches w c)).
  { intros m Hm. assert (Hin : m ∈ mags_of (caches w c)) by (rewrite Hp, elem_of_app; by left).
    split; [| split; [by apply (so_mtaken _ _ _ _ Hok c) | done]]. intros E. rewrite E, Hmm in Hin. by apply elem_of_nil in Hin. }
  assert (Hin : forall m, m ∈ mags_of k' -> m ∈ mags_of (caches w c)) by (intros m Hm; rewrite Hp, elem_of_app; by right).
  assert (Hok' : sok w' cs).
  { apply sok_depot.
    - split; rewrite ?Hca', ?depot_self; try done. intros o Ho. apply depot_taken, Htk. rewrite Hca, elem_of_app. by right.
    - intros m Hm. by apply (so_mtaken _ _ _ _ Hok c m Hc), Hin.
    - intros c' m Hc' Hne Hm Hx. apply Hne. eapply (so_disj _ _ _ _ Hok c' c m); auto.
    - intros Hu. pose proof (so_nomag _ _ _ _ Hok c Hc Hu) as Hx. pose proof Hp as Hp'. rewrite Hx in Hp'.
      apply Permutation_nil in Hp'. by apply app_eq_nil in Hp' as [_ ?]. }
  split; [done |]. intros c' o. unfold live. rewrite depot_taken. split.
  - intros (Hc' & Ht & Hnc & Hnm). destruct (decide (c' = mc /\ o ∈ rem)); [tauto |].
    destruct (decide (c' = c /\ o ∈ flat_map (mag_objs w) rem)); [tauto |]. left.
    split; [done |]. split; [done |]. split.
    + destruct (decide (c' = c)) as [-> |]; [| by rewrite depot_cached in Hnc].
      rewrite Hca, elem_of_app. rewrite Hca' in Hnc. tauto.
    + intros -> c'' Hc''. specialize (Hnm eq_refl c'' Hc''). destruct (decide (c'' = c)) as [-> |].
      * rewrite depot_self in Hnm. rewrite Hp, elem_of_app. tauto.
      * by rewrite depot_mags_of in Hnm.
  - intros [(Hc' & Ht & Hnc & Hnm) | [[-> Hr] | [-> Hr]]].
    + split; [done |]. split; [done |]. split.
      * destruct (decide (c' = c)) as [-> |]; [| by rewrite depot_cached]. rewrite Hca'. intros Hx. apply Hnc.
        rewrite Hca, elem_of_app. by right.
      * intros -> c'' Hc'' Hx. apply (Hnm eq_refl c'' Hc''). destruct (decide (c'' = c)) as [-> |].
        -- rewrite depot_self in Hx. auto.
        -- by rewrite depot_mags_of in Hx.
    + destruct (Hrem o Hr) as (Hne & Ht & Hom). split; [apply (so_static _ _ _ _ Hok); by right |]. split; [done |].
      split; [unfold cached; rewrite depot_mags_of, Hmm by done; apply not_elem_of_nil |].
      intros _ c'' Hc'' Hx. destruct (decide (c'' = c)) as [-> | N].
      * rewrite depot_self in Hx. by apply (Hdr o Hr).
      * rewrite depot_mags_of in Hx by done. apply N. by eapply (so_disj _ _ _ _ Hok c'' c o).
    + split; [done |]. split; [apply Htk; rewrite Hca, elem_of_app; by left |].
      split; [rewrite Hca'; by apply Hod |]. intros ->. apply elem_of_flat_map in Hr as (m & Hm & _).
      by destruct (Hrem m Hm).
Qed.

(** Putting an empty magazine in a cache. *)
Lemma depot_add m : mags_of k' ≡ₚ m :: mags_of (caches w c) -> counts_ok (mags w) k' ->
  live w cs mc m -> m_count (mags w m) = 0 -> use_mag (caches w c) = true ->
  sok w' cs /\ forall c' o, live w' cs c' o <-> live w cs c' o /\ (c', o) <> (mc, m).
Proof.
  intros Hp Hcnt (Hmc & Htm & _ & Hnm) Hm0 Hu. destruct (so_mags _ _ _ _ Hok c Hc) as [_ Hnd Hno Htk].
  assert (Hca : cached w' c ≡ₚ cached w c).
  { unfold cached. rewrite depot_self, (flat_map_perm _ _ _ Hp). cbn [flat_map].
    unfold mag_objs at 1. cbn [mags set_cache]. rewrite Hm0. done. }
  assert (Hin : forall x, x ∈ mags_of k' <-> x = m \/ x ∈ mags_of (caches w c)) by (intros x; by rewrite Hp, elem_of_cons).
  assert (Hok' : sok w' cs).
  { apply sok_depot.
    - split; rewrite ?depot_self; try done.
      + rewrite Hp. constructor; [by apply Hnm | done].
      + by rewrite Hca.
      + intros o Ho. rewrite Hca in Ho. by apply depot_taken, Htk.
    - intros x [-> | Hx]%Hin; [done |]. by apply (so_mtaken _ _ _ _ Hok c).
    - intros c' x Hc' Hne [-> | Hx]%Hin Hx'; [by apply (Hnm eq_refl c') |]. apply Hne. by eapply (so_disj _ _ _ _ Hok c' c x).
    - rewrite Hu. done. }
  split; [done |]. intros c' o. unfold live. rewrite depot_taken.
  assert (Hcc : (o ∉ cached w' c') <-> (o ∉ cached w c')).
  { destruct (decide (c' = c)) as [-> |]; [by rewrite Hca | by rewrite depot_cached]. }
  rewrite Hcc. split.
  - intros (H1 & H2 & H3 & H4). split; [split; [done |]; split; [done |]; split; [done |] |].
    + intros E c'' Hc'' Hx. apply (H4 E c'' Hc''). destruct (decide (c'' = c)) as [-> |].
      * rewrite depot_self. apply Hin. by right.
      * by rewrite depot_mags_of.
    + intros [= -> ->]. apply (H4 eq_refl c Hc). rewrite depot_self. apply Hin. by left.
  - intros ((H1 & H2 & H3 & H4) & Hne). do 3 (split; [done |]). intros -> c'' Hc''. destruct (decide (c'' = c)) as [-> |].
    + rewrite depot_self, Hin. intros [-> | Hx]; [done |]. by apply (H4 eq_refl c).
    + rewrite depot_mags_of by done. by apply H4.
Qed.
End depot.

(** ** Lemmas: pushing and popping *)

Section magazine.
Context (w : world) (cs : list Z) (m : Z) (x : kmem_magazine) (Hok : sok w cs).
Notation w' := (set_mag w m x).

Lemma counts_other k : m ∉ mags_of k -> counts_ok (mags w) k -> counts_ok (mags w') k.
Proof.
  intros Hm [C1 C2 C3 C4]. rewrite mags_of_in in Hm. cbn [mags set_mag].
  split; intros; (rewrite upd_ne; [eauto |]); intros E; apply Hm; rewrite <- E; eauto 6.
Qed.

Lemma mag_objs_other y : y <> m -> mag_objs w' y = mag_objs w y.
Proof. intros. unfold mag_objs. cbn [mags set_mag]. by rewrite upd_ne. Qed.

Lemma set_mag_cached c : m ∉ mags_of (caches w c) -> cached w' c = cached w c.
Proof.
  intros Hm. unfold cached. apply flat_map_ext_in. intros y Hy. apply mag_objs_other. by intros ->.
Qed.

Lemma sok_set_mag :
  (forall c, c ∈ cs -> m ∈ mags_of (caches w c) ->
    counts_ok (mags w') (caches w c) /\ NoDup (cached w' c) /\ forall o, o ∈ cached w' c -> taken w c o) ->
  sok w' cs.
Proof.
  intros Hm. destruct Hok as [S1 S2 S3 S4 S5 S6 S7 S8 S9 S10]. split; try done.
  - intros c Hc. apply (slabs_ok_frame w); [by apply S4 | done |]. intros s Hs. split; [done |].
    apply (sl_flag _ _ _ (sc_slab _ _ (S4 c Hc) s Hs)).
  - intros c Hc. destruct (S6 c Hc) as [C1 C2 C3 C4]. destruct (decide (m ∈ mags_of (caches w c))) as [Hin | Hnin].
    + destruct (Hm c Hc Hin) as (H1 & H2 & H3). by split.
    + split; [by apply counts_other | done | by rewrite set_mag_cached | intros o; by rewrite set_mag_cached by done; apply C4].
Qed.

(** A magazine in the caller's hands may be rewritten. *)
Lemma set_mag_held : live w cs mc m -> sok w' cs /\ forall c o, live w' cs c o <-> live w cs c o.
Proof.
  intros (Hmc & _ & _ & Hn). split.
  - apply sok_set_mag. intros c Hc Hin. by destruct (Hn eq_refl c Hc).
  - intros c o. unfold live. split; intros (H1 & H2 & H3 & H4); (split; [done |]; split; [done |]; split; [| done]);
      rewrite set_mag_cached in *; auto.
Qed.

Section loaded.
Context (c i : Z) (Hc : c ∈ cs) (Hi : 0 <= i < NCPU_MAX) (Hl : loaded (c_cpu (caches w c) i) = Some m).

Lemma loaded_in : m ∈ mags_of (caches w c).
Proof. apply mags_of_in. right. right. exists i. auto. Qed.

Lemma loaded_notin c' : c' ∈ cs -> c' <> c -> m ∉ mags_of (caches w c').
Proof. intros Hc' Hne Hx. apply Hne. by apply (so_disj _ _ _ _ Hok c' c m Hc' Hc Hx loaded_in). Qed.

Lemma loaded_not_mc : c <> mc.
Proof.
  intros E. pose proof loaded_in as Hin. rewrite E in Hin. destruct (mags_c_nomag w cs Hok) as [_ Hn].
  rewrite Hn in Hin. by apply elem_of_nil in Hin.
Qed.

Lemma loaded_cached : mag_objs w m ++ cached w' c ≡ₚ mag_objs w' m ++ cached w c.
Proof.
  apply flat_map_change; [apply (mg_nodup _ _ (so_mags _ _ _ _ Hok c Hc)) | apply loaded_in |].
  intros y _ Hne. by apply mag_objs_other.
Qed.

Lemma loaded_live : 0 <= m_count x <= MAG_DEPTH -> NoDup (cached w' c) -> (forall o, o ∈ cached w' c -> taken w c o) ->
  sok w' cs /\ forall c' o, live w' cs c' o <->
    (c' <> c /\ live w cs c' o) \/ (c' = c /\ taken w c o /\ o ∉ cached w' c).
Proof.
  intros Hx Hnd Htk. split.
  - apply sok_set_mag. intros c' Hc' Hin. assert (c' = c) as -> by (destruct (decide (c' = c)); [done | by destruct (loaded_notin c' Hc')]).
    split; [| done]. destruct (so_mags _ _ _ _ Hok c Hc). by apply (counts_loaded _ _ i).
  - intros c' o. destruct (decide (c' = c)) as [-> | Hne].
    + pose proof loaded_not_mc. split.
      * intros (_ & H2 & H3 & _). right. done.
      * intros [[? _] | (_ & H2 & H3)]; [done |]. split; [done |]. split; [done |]. split; [done |]. by intros ->.
    + unfold live. split.
      * intros (H1 & H2 & H3 & H4). left. split; [done |]. split; [done |]. split; [done |]. split; [| done].
        rewrite set_mag_cached in H3; [done | by apply loaded_notin].
      * intros [(_ & H1 & H2 & H3 & H4) | [? _]]; [| done]. split; [done |]. split; [done |]. split; [| done].
        rewrite set_mag_cached; [done | by apply loaded_notin].
Qed.
End loaded.
End magazine.

Lemma seqZ_snoc n : 0 <= n -> seqZ 0 (n + 1) = seqZ 0 n ++ [n].
Proof. intros. rewrite seqZ_app by lia. done. Qed.

Lemma mag_pop w cs c i m : sok w cs -> c ∈ cs -> 0 <= i < NCPU_MAX -> loaded (c_cpu (caches w c) i) = Some m ->
  0 < m_count (mags w m) ->
  let n := m_count (mags w m) in
  let o := m_objs (mags w m) (n - 1) in
  let w' := set_mag w m (Magazine (n - 1) (m_objs (mags w m))) in
  sok w' cs /\ taken w c o /\ ~ live w cs c o /\
  forall c' o', live w' cs c' o' <-> live w cs c' o' \/ (c', o') = (c, o).
Proof.
  intros Hok Hc Hi Hl Hn n o w'. destruct (so_mags _ _ _ _ Hok c Hc) as [Hcnt _ Hno Htk].
  pose proof (mg_loaded _ _ Hcnt i m Hi Hl) as Hle. pose proof (loaded_not_mc w cs m Hok c i Hi Hl) as Hmc.
  assert (Hp : cached w c ≡ₚ o :: cached w' c).
  { pose proof (loaded_cached w cs m (Magazine (n - 1) (m_objs (mags w m))) Hok c i Hc Hi Hl) as P.
    assert (E : mag_objs w m = mag_objs w' m ++ [o]).
    { unfold mag_objs, w'. cbn [mags set_mag]. rewrite upd_eq. cbn [m_count m_objs]. fold n.
      replace n with (n - 1 + 1) at 1 by lia. rewrite seqZ_snoc, map_app by lia. done. }
    fold w' in P. rewrite E, <- app_assoc in P. apply Permutation_app_inv_l in P. by rewrite <- P. }
  rewrite Hp in Hno. apply NoDup_cons in Hno as [Hni Hno].
  destruct (loaded_live w cs m (Magazine (n - 1) (m_objs (mags w m))) Hok c i Hc Hi Hl) as [Hok' Hlv];
    [cbn [m_count]; fold n in Hn, Hle; lia | done | intros o' Ho'; apply Htk; rewrite Hp; by right |].
  assert (Ho : o ∈ cached w c) by (rewrite Hp; left).
  split; [done |]. split; [by apply Htk |]. split; [by intros (_ & _ & ? & _) |].
  intros c' o'. fold w' in Hlv. rewrite Hlv. destruct (decide (c' = c)) as [-> | Hne]; [| intuition congruence].
  assert (Hlc : live w cs c o' <-> taken w c o' /\ o' ∉ cached w c).
  { unfold live. intuition congruence. }
  rewrite Hlc, Hp, elem_of_cons. destruct (decide (o' = o)) as [-> |].
  - split; [by right |]. intros _. right. split; [done |]. split; [by apply Htk | done].
  - intuition congruence.
Qed.

Lemma mag_push w cs c i m o : sok w cs -> 0 <= i < NCPU_MAX -> loaded (c_cpu (caches w c) i) = Some m ->
  m_count (mags w m) < MAG_DEPTH -> live w cs c o ->
  let n := m_count (mags w m) in
  let w' := set_mag w m (Magazine (n + 1) (m_objs (mags w m)).[n <- o]) in
  sok w' cs /\ forall c' o', live w' cs c' o' <-> live w cs c' o' /\ (c', o') <> (c, o).
Proof.
  intros Hok Hi Hl Hn Ho n w'. pose proof Ho as (Hc & Hto & Hnc & _).
  destruct (so_mags _ _ _ _ Hok c Hc) as [Hcnt _ Hno Htk].
  pose proof (mg_loaded _ _ Hcnt i m Hi Hl) as Hle. pose proof (loaded_not_mc w cs m Hok c i Hi Hl) as Hmc.
  assert (Hp : cached w' c ≡ₚ o :: cached w c).
  { pose proof (loaded_cached w cs m (Magazine (n + 1) (m_objs (mags w m)).[n <- o]) Hok c i Hc Hi Hl) as P.
    assert (E : mag_objs w' m = mag_objs w m ++ [o]).
    { unfold mag_objs, w'. cbn [mags set_mag]. rewrite upd_eq. cbn [m_count m_objs]. fold n.
      rewrite seqZ_snoc, map_app by (fold n in Hle; lia). cbn [map]. rewrite upd_eq. f_equal.
      apply map_ext_in. intros j Hj%list_elem_of_In%elem_of_seqZ. apply upd_ne. lia. }
    fold w' in P. rewrite E, <- app_assoc in P. by apply Permutation_app_inv_l in P. }
  destruct (loaded_live w cs m (Magazine (n + 1) (m_objs (mags w m)).[n <- o]) Hok c i Hc Hi Hl) as [Hok' Hlv].
  - cbn [m_count]. fold n in Hn, Hle. lia.
  - fold w'. rewrite Hp. by constructor.
  - fold w'. intros o'. rewrite Hp. intros [-> | Hin]%elem_of_cons; auto.
  - split; [done |]. intros c' o'. fold w' in Hlv. rewrite Hlv. destruct (decide (c' = c)) as [-> | Hne]; [| intuition congruence].
    assert (Hlc : live w cs c o' <-> taken w c o' /\ o' ∉ cached w c).
    { unfold live. intuition congruence. }
    rewrite Hlc, Hp, elem_of_cons. intuition congruence.
Qed.

(** ** Lemmas: draining *)

Lemma pair_ne (a b x y : Z) : (a, b) <> (x, y) <-> ~ (a = x /\ b = y).
Proof. split; intros H; [by intros [-> ->] | intros [= -> ->]; tauto]. Qed.

Lemma frame_trans w1 w2 w3 : frame w1 w2 -> frame w2 w3 -> frame w1 w3.
Proof.
  intros [A1 A2 A3 A4] [B1 B2 B3 B4]. split; [congruence | intros c; by rewrite B2 | congruence |].
  intros c. destruct (B4 c) as (p & f & e & ->), (A4 c) as (p' & f' & e' & ->). by exists p, f, e.
Qed.

Lemma frame_refl w : frame w w.
Proof. split; try done. intros c. exists (partial (caches w c)), (full (caches w c)), (empty (caches w c)). by rewrite set_lists_id. Qed.

(** The locks and the constructor log play no part in the invariant. *)
Lemma sok_locks w lk cl ct cs : sok w cs ->
  sok (World (ka w) (slabs w) (mags w) (caches w) (kmem_caches w) lk cl ct) cs.
Proof.
  intros [S1 S2 S3 S4 S5 S6 S7 S8 S9 S10]. split; try done.
  - intros c Hc. apply (slabs_ok_frame w); [by apply S4 | done |]. intros s Hs. split; [done |].
    apply (sl_flag _ _ _ (sc_slab _ _ (S4 c Hc) s Hs)).
  - intros c Hc. by destruct (S6 c Hc).
Qed.

Lemma drain_loop_spec cs c m n : c <> cc -> forall w i, sok w cs ->
  let L := map (m_objs (mags w m)) (seqZ i (Z.of_nat n)) in
  (forall o, o ∈ L -> live w cs c o) -> NoDup L ->
  exists w', drain_loop n w c m i = Ret w' /\ sok w' cs /\ frame w w' /\ ka w' = ka w /\ mags w' = mags w /\
    (forall c', c' <> c -> caches w' c' = caches w c') /\
    forall c' o, live w' cs c' o <-> live w cs c' o /\ ~ (c' = c /\ o ∈ L).
Proof.
  intros Hcc. induction n as [| n IH]; intros w i Hok L HL Hnd.
  - exists w. split; [done |]. split; [done |]. split; [apply frame_refl |]. do 3 (split; [done |]).
    intros c' o. assert (o ∉ L) by apply not_elem_of_nil. tauto.
  - assert (EL : L = m_objs (mags w m) i :: map (m_objs (mags w m)) (seqZ (i + 1) (Z.of_nat n))).
    { unfold L. rewrite seqZ_cons by lia. cbn [map]. do 3 f_equal; lia. }
    rewrite EL in HL, Hnd. apply NoDup_cons in Hnd as [Hni Hnd]. cbn [drain_loop].
    destruct (sok_free cc mc w cs c (m_objs (mags w m) i) Hok (HL _ ltac:(left)) ltac:(done))
      as (w1 & -> & Hok1 & Hf1 & Hka1 & Hm1 & Ho1 & Hlv1). cbn [mbind res_bind].
    destruct (IH w1 (i + 1) Hok1) as (w2 & -> & Hok2 & Hf2 & Hka2 & Hm2 & Ho2 & Hlv2); rewrite Hm1 in *.
    + intros o Ho. apply Hlv1. split; [apply HL; by right |]. intros [= ->]. done.
    + done.
    + exists w2. split; [done |]. split; [done |]. split; [by eapply frame_trans |]. split; [congruence |].
      split; [congruence |]. split; [intros; by rewrite Ho2, Ho1 |].
      intros c' o. rewrite Hlv2, Hlv1, EL, elem_of_cons, pair_ne. tauto.
Qed.

(** Draining a magazine in hand gives back its objects and the magazine. *)
Lemma drain_magazine_spec w cs c m : sok w cs -> c <> cc -> c <> mc -> cc <> mc -> locks w mc = false ->
  live w cs mc m -> 0 <= m_count (mags w m) -> (forall o, o ∈ mag_objs w m -> live w cs c o) -> NoDup (mag_objs w m) ->
  exists w', drain_magazine mc w c m = Ret w' /\ sok w' cs /\ frame w w' /\ ka w' = ka w /\
    (forall c', c' <> c -> c' <> mc -> caches w' c' = caches w c') /\ (forall m', m' <> m -> mags w' m' = mags w m') /\
    forall c' o, live w' cs c' o <-> live w cs c' o /\ ~ (c' = c /\ o ∈ mag_objs w m) /\ ~ (c' = mc /\ o = m).
Proof.
  intros Hok Hcc Hmc Hne Hlk Hm Hcnt HL Hnd. unfold drain_magazine.
  assert (EL : mag_objs w m = map (m_objs (mags w m)) (seqZ 0 (Z.of_nat (Z.to_nat (m_count (mags w m)))))).
  { unfold mag_objs. by rewrite Z2Nat.id by done. }
  rewrite EL in *. destruct (drain_loop_spec cs c m (Z.to_nat (m_count (mags w m))) Hcc w 0 Hok HL Hnd)
    as (w1 & -> & Hok1 & Hf1 & Hka1 & Hm1 & Ho1 & Hlv1). cbn [mbind res_bind]. rewrite Hm1.
  set (w2 := set_mag w1 m _). assert (Hm' : live w1 cs mc m) by (apply Hlv1; split; [done |]; intros [? _]; congruence).
  destruct (set_mag_held w1 cs m (Magazine 0 (m_objs (mags w m))) Hok1 Hm') as [Hok2 Hlv2]. fold w2 in Hok2, Hlv2.
  unfold kmem_cache_free_slab, acquire. change (locks w2 mc) with (locks w1 mc). rewrite (fr_locks _ _ Hf1), Hlk.
  cbn [negb KASSERT mbind res_bind]. set (w3 := set_lock w2 mc true).
  assert (Hok3 : sok w3 cs) by by apply sok_locks.
  assert (Hlv3 : forall c' o, live w3 cs c' o <-> live w1 cs c' o) by (intros; by rewrite <- Hlv2).
  destruct (sok_free cc mc w3 cs mc m Hok3 ltac:(by apply Hlv3) ltac:(done))
    as (w4 & -> & Hok4 & Hf4 & Hka4 & Hm4 & Ho4 & Hlv4). cbn [mbind res_bind].
  exists (release w4 mc). split; [done |]. split; [by apply sok_locks |].
  assert (Hf : frame w1 (release w4 mc)).
  { destruct Hf4 as [F1 F2 F3 F4]. split; [done | | done | done]. intros c'. cbn [release set_lock locks].
    unfold upd. destruct (Z.eqb_spec c' mc) as [-> |]; [by rewrite (fr_locks _ _ Hf1) |]. rewrite F2. by apply upd_ne. }
  split; [by apply (frame_trans _ _ _ Hf1) |]. split; [by rewrite <- Hka1; exact Hka4 |]. split; [| split].
  - intros c' H1 H2. etransitivity; [exact (Ho4 c' H2) | by apply Ho1].
  - intros m' Hm''. change (mags (release w4 mc)) with (mags w4). rewrite Hm4. cbn [w3 w2 set_lock set_mag mags].
    rewrite upd_ne by done. by rewrite Hm1.
  - intros c' o. change (live (release w4 mc) cs c' o) with (live w4 cs c' o). rewrite Hlv4, Hlv3, Hlv1, pair_ne. tauto.
Qed.

(** What draining and reclaiming leave alone: the caches keep their geometry and CPU
    magazines, and their depots only shrink. *)
Definition same_cache (k k' : kmem_cache) : Prop :=
  exists p f e F E, k' = set_depot (set_lists k p f e) F E (c_cpu k) /\
    (forall m, m ∈ F -> m ∈ full_mags k) /\ (forall m, m ∈ E -> m ∈ empty_mags k).

Record rframe (w w' : world) : Prop := {
  rf_list : kmem_caches w' = kmem_caches w;
  rf_locks : forall c, locks w' c = locks w c;
  rf_clock : caches_lock w' = caches_lock w;
  rf_caches : forall c, same_cache (caches w c) (caches w' c)
}.

Lemma same_cache_refl k : same_cache k k.
Proof. exists (partial k), (full k), (empty k), (full_mags k), (empty_mags k). split; [by destruct k | done]. Qed.

Lemma same_cache_trans k1 k2 k3 : same_cache k1 k2 -> same_cache k2 k3 -> same_cache k1 k3.
Proof.
  intros (p & f & e & F & E & -> & H1 & H2) (p' & f' & e' & F' & E' & -> & H3 & H4).
  exists p', f', e', F', E'. split; [done |]. split; auto.
Qed.

Lemma rframe_refl w : rframe w w.
Proof. split; try done. intros c. apply same_cache_refl. Qed.

Lemma rframe_trans w1 w2 w3 : rframe w1 w2 -> rframe w2 w3 -> rframe w1 w3.
Proof.
  intros [A1 A2 A3 A4] [B1 B2 B3 B4]. split; [congruence | intros c; by rewrite B2 | congruence |].
  intros c. by eapply same_cache_trans.
Qed.

Lemma frame_rframe w w' : frame w w' -> rframe w w'.
Proof.
  intros [A1 A2 A3 A4]. split; try done. intros c. destruct (A4 c) as (p & f & e & ->).
  exists p, f, e, (full_mags (caches w c)), (empty_mags (caches w c)). done.
Qed.

Lemma rframe_depot w c F E : (forall m, m ∈ F -> m ∈ full_mags (caches w c)) ->
  (forall m, m ∈ E -> m ∈ empty_mags (caches w c)) ->
  rframe w (set_cache w c (set_depot (caches w c) F E (c_cpu (caches w c)))).
Proof.
  intros HF HE. split; try done. intros c'. cbn [caches set_cache]. destruct (decide (c' = c)) as [-> |].
  - rewrite upd_eq. exists (partial (caches w c)), (full (caches w c)), (empty (caches w c)), F, E. done.
  - rewrite upd_ne by done. apply same_cache_refl.
Qed.

(** The CPUs' magazines, which only their CPU touches. *)
Definition cpu_mag (w : world) (cs : list Z) (m : Z) : Prop :=
  exists c i, c ∈ cs /\ 0 <= i < NCPU_MAX /\ (loaded (c_cpu (caches w c) i) = Some m \/ previous (c_cpu (caches w c) i) = Some m).

Definition keeps (cs : list Z) (w w' : world) : Prop := forall m, cpu_mag w cs m -> mags w' m = mags w m.

Lemma cpu_mag_rframe w w' cs m : rframe w w' -> cpu_mag w cs m -> cpu_mag w' cs m.
Proof.
  intros Hr (c & i & Hc & Hi & Hm). exists c, i. split; [done |]. split; [done |].
  by destruct (rf_caches _ _ Hr c) as (p & f & e & F & E & -> & _).
Qed.

Lemma keeps_trans cs w1 w2 w3 : rframe w1 w2 -> keeps cs w1 w2 -> keeps cs w2 w3 -> keeps cs w1 w3.
Proof. intros Hr H1 H2 m Hm. rewrite H2 by (by eapply cpu_mag_rframe). by apply H1. Qed.

Lemma depot_not_cpu w cs c m : sok w cs -> c ∈ cs -> m ∈ full_mags (caches w c) \/ m ∈ empty_mags (caches w c) ->
  ~ cpu_mag w cs m.
Proof.
  intros Hok Hc Hm (c' & i & Hc' & Hi & Hx).
  assert (Hin : m ∈ mags_of (caches w c)) by (apply mags_of_in; tauto).
  assert (Hin' : m ∈ mags_of (caches w c')) by (apply mags_of_in; right; right; eauto).
  rewrite (so_disj _ _ _ _ Hok c' c m Hc' Hc Hin' Hin) in Hx.
  pose proof (mg_nodup _ _ (so_mags _ _ _ _ Hok c Hc)) as Hnd. unfold mags_of in Hnd.
  assert (Hfl : m ∈ flat_map (fun j => cpu_mags (c_cpu (caches w c) j)) (seqZ 0 NCPU_MAX)).
  { apply elem_of_flat_map. exists i. split; [by apply cpu_in |]. unfold cpu_mags. rewrite elem_of_app.
    destruct Hx as [-> | ->]; [left | right]; left. }
  apply NoDup_app in Hnd as (_ & Hd1 & Hnd). apply NoDup_app in Hnd as (_ & Hd2 & _).
  destruct Hm as [Hm | Hm]; [apply (Hd1 m Hm); rewrite elem_of_app; auto | by apply (Hd2 m Hm)].
Qed.

(** Taking one magazine off the depot. *)
Lemma take_mag w cs c m : sok w cs -> c ∈ cs -> m ∈ full_mags (caches w c) \/ m ∈ empty_mags (caches w c) ->
  let k := caches w c in
  let w' := set_cache w c (set_depot k (without m (full_mags k)) (without m (empty_mags k)) (c_cpu k)) in
  c <> mc /\ c <> cc /\ 0 <= m_count (mags w m) /\ NoDup (mag_objs w m) /\ sok w' cs /\
  forall c' o, live w' cs c' o <-> live w cs c' o \/ (c' = mc /\ o = m) \/ (c' = c /\ o ∈ mag_objs w m).
Proof.
  intros Hok Hc Hm k w'. destruct (so_mags _ _ _ _ Hok c Hc) as [[C1 C2 C3 C4] Hnd Hno _]. fold k in Hm, C1, C2, C3, C4, Hnd.
  assert (Hin : m ∈ mags_of k) by (apply mags_of_in; tauto).
  assert (Hst : forall x, x = cc \/ x = mc -> c <> x).
  { intros x Hx ->. destruct (so_static _ _ _ _ Hok x Hx) as (_ & Hu & _). unfold k in Hin.
    rewrite (so_nomag _ _ _ _ Hok x Hc Hu) in Hin. by apply elem_of_nil in Hin. }
  assert (Hp : mags_of k ≡ₚ [m] ++ mags_of (set_depot k (without m (full_mags k)) (without m (empty_mags k)) (c_cpu k))).
  { rewrite (without_perm m _ Hnd Hin). unfold mags_of. rewrite !without_app. cbn [set_depot full_mags empty_mags c_cpu app].
    rewrite (without_notin m (flat_map _ _)); [done |]. unfold mags_of in Hnd.
    apply NoDup_app in Hnd as (_ & Hd1 & Hnd). apply NoDup_app in Hnd as (_ & Hd2 & _).
    destruct Hm as [Hm | Hm]; [| by apply Hd2]. specialize (Hd1 m Hm). rewrite elem_of_app in Hd1. tauto. }
  destruct (depot_shrink w cs c _ _ _ Hok Hc [m] Hp) as [Hok' Hlv].
  { split; cbn [set_depot full_mags empty_mags c_cpu]; try done; intros y [_ Hy]%elem_of_without; auto. }
  split; [apply Hst; auto |]. split; [apply Hst; auto |].
  split; [unfold MAG_DEPTH in C1; destruct Hm as [Hm | Hm]; [rewrite (C1 m Hm) | rewrite (C2 m Hm)]; lia |].
  split; [by apply (NoDup_flat_map_in _ _ m Hno) |]. split; [done |].
  fold k w' in Hlv. intros c' o. rewrite Hlv. cbn [flat_map]. rewrite app_nil_r, list_elem_of_singleton. done.
Qed.

Lemma drain_list_spec cs c l : c ∈ cs -> cc <> mc -> forall w, sok w cs -> (l <> [] -> locks w mc = false) -> NoDup l ->
  (forall m, m ∈ l -> m ∈ full_mags (caches w c) \/ m ∈ empty_mags (caches w c)) ->
  exists w', drain_list mc l w c = Ret w' /\ sok w' cs /\ rframe w w' /\ ka w' = ka w /\ keeps cs w w' /\
    (forall c', c' <> c -> c' <> mc -> caches w' c' = caches w c') /\
    (forall m, m ∈ full_mags (caches w' c) \/ m ∈ empty_mags (caches w' c) -> m ∉ l) /\
    forall c' o, live w' cs c' o <-> live w cs c' o.
Proof.
  intros Hc Hne. induction l as [| m l IH]; intros w Hok Hlk Hnd Hl.
  - exists w. split; [done |]. split; [done |]. split; [apply rframe_refl |]. split; [done |]. split; [done |]. split; [done |].
    split; [intros; apply not_elem_of_nil | done].
  - apply NoDup_cons in Hnd as [Hml Hnd]. cbn [drain_list].
    destruct (take_mag w cs c m Hok Hc (Hl m ltac:(left))) as (Hmc & Hcc & Hcnt & Hno & Hok1 & Hlv1).
    set (k := caches w c) in *. set (w1 := set_cache w c _) in *.
    assert (Hr1 : rframe w w1) by (apply rframe_depot; intros y [_ Hy]%elem_of_without; done).
    destruct (drain_magazine_spec w1 cs c m Hok1 Hcc Hmc Hne) as (w2 & -> & Hok2 & Hf2 & Hka2 & Ho2 & Hmg2 & Hlv2).
    { rewrite (rf_locks _ _ Hr1). by apply Hlk. }
    { apply Hlv1. tauto. }
    { done. }
    { intros o Ho. apply Hlv1. right. right. done. }
    { done. }
    cbn [mbind res_bind]. pose proof (frame_rframe _ _ Hf2) as Hr2.
    assert (E1 : caches w1 c = set_depot k (without m (full_mags k)) (without m (empty_mags k)) (c_cpu k)) by apply upd_eq.
    assert (Hd2 : full_mags (caches w2 c) = without m (full_mags k) /\ empty_mags (caches w2 c) = without m (empty_mags k)).
    { destruct (fr_caches _ _ Hf2 c) as (p & f & e & ->). rewrite E1. done. }
    destruct Hd2 as [Ef Ee].
    destruct (IH w2 Hok2) as (w3 & -> & Hok3 & Hr3 & Hka3 & Hk3 & Ho3 & Hd3 & Hlv3).
    { intros _. rewrite (rf_locks _ _ Hr2), (rf_locks _ _ Hr1). by apply Hlk. }
    { done. }
    { intros y Hy. rewrite Ef, Ee, !elem_of_without. assert (y <> m) by (by intros ->).
      destruct (Hl y ltac:(by right)); auto. }
    exists w3. split; [done |]. split; [done |]. split; [apply (rframe_trans _ w1); [done |]; by apply (rframe_trans _ w2) |].
    split; [by rewrite Hka3, Hka2 |]. split.
    { apply (keeps_trans cs w w2); [by apply (rframe_trans _ w1) | | done]. intros y Hy. apply Hmg2. intros ->.
      by apply (depot_not_cpu w cs c m Hok Hc (Hl m ltac:(left))). }
    split; [intros c' H1 H2; rewrite Ho3, Ho2 by done; by apply upd_ne |]. split.
    + intros y Hy. rewrite not_elem_of_cons. split; [| by apply Hd3]. intros ->.
      destruct (rf_caches _ _ Hr3 c) as (p & f & e & F & E & Ek & HF & HE). rewrite Ek in Hy. cbn [set_depot full_mags empty_mags] in Hy.
      destruct Hy as [Hy | Hy]; [apply HF in Hy; rewrite Ef in Hy | apply HE in Hy; rewrite Ee in Hy];
        apply elem_of_without in Hy; tauto.
    + intros c' o. rewrite Hlv3, Hlv2, Hlv1. change (mag_objs w1 m) with (mag_objs w m).
      split; [tauto |]. intros Hx. split; [tauto |]. destruct Hx as (_ & _ & Hx1 & Hx2). split.
      * intros [-> Ho]. apply Hx1, elem_of_flat_map. exists m. split; [| done]. apply mags_of_in. fold k.
        destruct (Hl m ltac:(left)); auto.
      * intros [-> ->]. apply (Hx2 eq_refl c Hc), mags_of_in. fold k. destruct (Hl m ltac:(left)); auto.
Qed.
End caches.
