(* ===== verification/SlabReclaim.v ===== *)
(** * The slab allocator: reclaiming

    [kmem_reclaim] gives the pages of empty slabs back, after draining the depots:
    no object a client owns changes, so the allocator discharges [PageReclaimLaws], the
    interface [kpage_alloc] relies on. *)

From S2P Require Import Prelude Bits Mmu Physmem Kalloc Pages Slab SlabSpec SlabDepot.

Section caches.
Context (cc mc : Z).
Notation sok := (sok cc mc).
Notation live := (live mc).

(** ** Lemmas: freeing the page of an empty slab *)

Section drop.
Context (w : world) (cs : list Z) (c s : Z) (ka' : kalloc).
Context (Hok : sok w cs) (Hc : c ∈ cs) (Hs : s ∈ empty (caches w c)).
Notation k := (caches w c).
Notation k' := (set_lists k (without s (partial k)) (without s (full k)) (without s (empty k))).
Notation w' := (set_ka (set_cache w c k') ka').
Context (Hpm : ka_pm ka' = ka_pm (ka w)).
Context (Hflags : forall t, is_page t -> t <> s -> page_flags ka' (KVA_TO_PA t) = page_flags (ka w) (KVA_TO_PA t)).
Context (Hfree : page_flags ka' (KVA_TO_PA s) = Some PG_FREE).

Lemma drop_in : s ∈ slabs_of k.
Proof. apply slabs_of_in. auto. Qed.

Lemma drop_caches c' : caches w' c' = if decide (c' = c) then k' else caches w c'.
Proof. cbn [caches set_cache set_ka]. destruct (decide (c' = c)) as [-> |]; [apply upd_eq | by apply upd_ne]. Qed.

Lemma drop_slabs_of c' t : c' ∈ cs -> t ∈ slabs_of (caches w' c') <-> t ∈ slabs_of (caches w c') /\ t <> s.
Proof.
  intros Hc'. rewrite drop_caches. destruct (decide (c' = c)) as [-> | Hne].
  - rewrite slabs_of_set, <- !without_app, elem_of_without. fold (slabs_of k). tauto.
  - split; [| tauto]. intros Ht. split; [done |]. intros ->.
    by apply (other_slabs w c c' s (so_slabs _ _ _ _ Hok c Hc) (so_slabs _ _ _ _ Hok c' Hc')); [done | apply drop_in |].
Qed.

Lemma drop_none i : 0 <= i < slots_per_slab k -> bit_test (s_used (slabs w s)) i = false.
Proof.
  intros Hi. pose proof (so_slabs _ _ _ _ Hok c Hc) as H. pose proof (sl_inuse _ _ _ (sc_slab _ _ H s drop_in)) as E.
  rewrite (sc_empty _ _ H s Hs) in E. apply (used_none _ (slots_per_slab k)); [lia | done].
Qed.

Lemma drop_taken c' o : c' ∈ cs -> taken w' c' o <-> taken w c' o.
Proof.
  intros Hc'. unfold taken. split; intros (t & i & Ht & Hi & E & Hb).
  - apply drop_slabs_of in Ht as [Ht _]; [| done]. exists t, i. rewrite drop_caches in Hi, E.
    destruct (decide (c' = c)) as [-> |]; done.
  - exists t, i. rewrite drop_slabs_of by done. split.
    + split; [done |]. intros ->. assert (c' = c) as ->.
      { destruct (decide (c' = c)); [done |]. exfalso.
        by apply (other_slabs w c c' s (so_slabs _ _ _ _ Hok c Hc) (so_slabs _ _ _ _ Hok c' Hc')); [done | apply drop_in |]. }
      rewrite drop_none in Hb by done. discriminate.
    + rewrite drop_caches. destruct (decide (c' = c)) as [-> |]; done.
Qed.

Lemma drop_slabs c' : c' ∈ cs -> slabs_ok w' c'.
Proof.
  intros Hc'. pose proof (so_slabs _ _ _ _ Hok c' Hc') as H.
  assert (Hsl : forall t, t ∈ slabs_of (caches w' c') -> slab_ok w' c' t).
  { intros t [Ht Hne]%drop_slabs_of; [| done]. destruct (sc_slab _ _ H t Ht) as [Hp Hf Hx Hwf Hin]. split; try done.
    - cbn [ka set_ka]. by rewrite Hflags.
    - rewrite drop_caches. by destruct (decide (c' = c)) as [-> |]. }
  destruct H as [G1 G2 G3 G4 G5 G6].
  destruct (decide (c' = c)) as [-> | Hne]; split; try done; rewrite drop_caches; rewrite ?decide_True, ?decide_False by done; try done.
  - rewrite slabs_of_set, <- !without_app. by apply NoDup_filter.
  - intros t [_ Ht]%elem_of_without. by apply G4.
  - intros t [_ Ht]%elem_of_without. by apply G5.
  - intros t [_ Ht]%elem_of_without. by apply G6.
Qed.

Lemma drop_mags_of c' : mags_of (caches w' c') = mags_of (caches w c').
Proof. rewrite drop_caches. by destruct (decide (c' = c)) as [-> |]. Qed.

Lemma drop_cached c' : cached w' c' = cached w c'.
Proof. unfold cached. by rewrite drop_mags_of. Qed.

Lemma sok_drop : sok w' cs /\ forall c' o, live w' cs c' o <-> live w cs c' o.
Proof.
  split.
  - pose proof Hok as [S1 S2 S3 S4 S5 S6 S7 S8 S9 S10]. split.
    + cbn [ka set_ka]. by rewrite Hpm.
    + intros c' Hx. cbn [ka set_ka]. rewrite Hpm, drop_caches. destruct (decide (c' = c)) as [-> |]; by apply S2.
    + done.
    + apply drop_slabs.
    + intros t Hp Hf. cbn [ka set_ka] in Hf. destruct (decide (t = s)) as [-> | Hne]; [rewrite Hfree in Hf; discriminate |].
      rewrite Hflags in Hf by done. destruct (S5 t Hp Hf) as (c' & Hc' & Ht). exists c'. split; [done |]. by apply drop_slabs_of.
    + intros c' Hc'. destruct (S6 c' Hc') as [[C1 C2 C3 C4] M1 M2 M3]. split; rewrite ?drop_mags_of, ?drop_cached; try done.
      * rewrite drop_caches. by destruct (decide (c' = c)) as [-> |].
      * intros o Ho. apply drop_taken; auto.
    + intros c1 c2 m. rewrite !drop_mags_of. apply S7.
    + intros c' m Hc'. rewrite drop_mags_of. intros Hm. apply drop_taken; [by apply S2; right | by eapply S8].
    + intros c' Hc'. rewrite drop_mags_of, drop_caches. destruct (decide (c' = c)) as [-> |]; by apply S9.
    + intros c' Hc' H1 H2. apply drop_taken; [by apply S2; left | auto].
  - intros c' o. unfold live. rewrite drop_cached. split; intros (H1 & H2 & H3 & H4);
      (split; [done |]; split; [by apply drop_taken in H2 || by apply drop_taken |]; split; [done |]);
      intros E c'' Hc''; specialize (H4 E c'' Hc''); by rewrite drop_mags_of in *.
Qed.
End drop.

(** ** Lemmas: reclaiming *)

(** A step of reclaiming, from a state with free list [l] to one with free list [l']:
    clients notice nothing, and slab pages become free pages. *)
Record reclaims (cs : list Z) (w : world) (l : list Z) (w' : world) (l' : list Z) : Prop := {
  rc_sok : sok w' cs;
  rc_frame : rframe w w';
  rc_pm : ka_pm (ka w') = ka_pm (ka w);
  rc_ka : kalloc_ok (ka w') l';
  rc_len : (length l <= length l')%nat;
  rc_flags : forall pa, only_reclaimed (ka w) (ka w') pa;
  rc_live : forall c o, live w' cs c o <-> live w cs c o;
  rc_mags : keeps cs w w'
}.

Lemma only_reclaimed_trans k1 k2 k3 pa : only_reclaimed k1 k2 pa -> only_reclaimed k2 k3 pa -> only_reclaimed k1 k3 pa.
Proof.
  intros [E1 | [E1 E1']] [E2 | [E2 E2']]; unfold only_reclaimed; rewrite ?E2, ?E1; [by left | right | right | right].
  - by rewrite <- E1.
  - by rewrite E1'.
  - rewrite E1' in E2. discriminate.
Qed.

Lemma reclaims_trans cs w1 l1 w2 l2 w3 l3 : reclaims cs w1 l1 w2 l2 -> reclaims cs w2 l2 w3 l3 -> reclaims cs w1 l1 w3 l3.
Proof.
  intros [A1 A2 A3 A4 A5 A6 A7 A8] [B1 B2 B3 B4 B5 B6 B7 B8]. split; try done.
  - by apply (rframe_trans _ w2).
  - congruence.
  - lia.
  - intros pa. by apply (only_reclaimed_trans _ (ka w2)).
  - intros c o. by rewrite B7.
  - by apply (keeps_trans _ _ w2).
Qed.

Lemma reclaims_refl cs w l : sok w cs -> kalloc_ok (ka w) l -> reclaims cs w l w l.
Proof. intros. split; try done; [apply rframe_refl |]. intros pa. by left. Qed.

Lemma reclaims_same_ka cs w w' l : sok w' cs -> rframe w w' -> ka w' = ka w -> kalloc_ok (ka w) l ->
  (forall c o, live w' cs c o <-> live w cs c o) -> keeps cs w w' -> reclaims cs w l w' l.
Proof. intros H1 H2 H3 H4 H5 H6. split; rewrite ?H3; try done. intros pa. by left. Qed.

(** Taking one empty slab off its cache and freeing its page. *)
Lemma drop_spec w cs c s l : sok w cs -> c ∈ cs -> s ∈ empty (caches w c) -> kalloc_ok (ka w) l ->
  let k := caches w c in
  let k' := set_lists k (without s (partial k)) (without s (full k)) (without s (empty k)) in
  exists ka' pg, kpage_free (ka w) s = Ret ka' /\ reclaims cs w l (set_ka (set_cache w c k') ka') (pg :: l).
Proof.
  intros Hok Hc Hs Hka k k'. pose proof (so_slabs _ _ _ _ Hok c Hc) as Hsl.
  destruct (sc_slab _ _ Hsl s ltac:(apply slabs_of_in; auto)) as [Hp Hf _ _ _].
  pose proof (kpage_free_cases (ka w) l s Hka) as F. cbn zeta in F. destruct (is_page_pa s Hp) as (_ & _ & Hal).
  destruct (kpage_free (ka w) s) as [ka' |]; [| rewrite Hf in F; destruct F as [? | [? | ?]]; done].
  destruct F as (_ & _ & Hpm & Hfr & Hoth & pg & Hka' & _). exists ka', pg. split; [done |].
  destruct (sok_drop w cs c s ka' Hok Hc Hs Hpm) as [Hok' Hlv].
  { intros t Ht Hne. apply Hoth. by apply is_page_inj. }
  { done. }
  split; try done.
  - apply frame_rframe. split; try done. intros c'. cbn [caches set_ka set_cache]. destruct (decide (c' = c)) as [-> |].
    + rewrite upd_eq. by eexists _, _, _.
    + rewrite upd_ne by done. exists (partial (caches w c')), (full (caches w c')), (empty (caches w c')). by rewrite set_lists_id.
  - cbn [length]. lia.
  - intros pa. cbn [ka set_ka]. destruct (decide (pa / 4096 = KVA_TO_PA s / 4096)) as [E |]; [right | left; by apply Hoth].
    by rewrite (page_flags_page (ka w) pa _ l Hka E), (page_flags_page ka' pa _ _ Hka' E).
Qed.

Lemma s32_idem n k : s32 (s32 n + k) = s32 (n + k).
Proof. unfold s32. Z.div_mod_to_equations. lia. Qed.

Lemma free_empty_spec cs c l : c ∈ cs -> forall w fl n, sok w cs -> kalloc_ok (ka w) fl -> s32 n = n -> NoDup l ->
  (forall s, s ∈ l -> s ∈ empty (caches w c)) ->
  exists w' fl', free_empty l w c n = Ret (w', s32 (n + Z.of_nat (length fl' - length fl))) /\
    reclaims cs w fl w' fl' /\ (length fl' = length fl + length l)%nat /\
    (forall c', c' <> c -> caches w' c' = caches w c') /\
    (forall s, s ∈ empty (caches w' c) -> s ∈ empty (caches w c) /\ s ∉ l).
Proof.
  intros Hc. induction l as [| s l IH]; intros w fl n Hok Hka Hn Hnd Hl.
  - exists w, fl. rewrite Nat.sub_diag, Z.add_0_r, Hn. split; [done |]. split; [by apply reclaims_refl |].
    split; [cbn [length]; lia |]. split; [done |]. intros s Hs. split; [done | apply not_elem_of_nil].
  - apply NoDup_cons in Hnd as [Hsl Hnd]. cbn [free_empty].
    destruct (drop_spec w cs c s fl Hok Hc (Hl s ltac:(left)) Hka) as (ka' & pg & E & Hr).
    cbn [ka set_cache]. rewrite E. cbn [mbind res_bind]. set (w1 := set_ka _ ka') in *.
    assert (Ec : empty (caches w1 c) = without s (empty (caches w c))) by (unfold w1; cbn [caches set_ka set_cache]; by rewrite upd_eq).
    destruct (IH w1 (pg :: fl) (s32 (n + 1)) (rc_sok _ _ _ _ _ Hr) (rc_ka _ _ _ _ _ Hr)) as (w2 & fl2 & -> & Hr2 & Hlen & Ho & He).
    { unfold s32. Z.div_mod_to_equations. lia. }
    { done. }
    { intros t Ht. rewrite Ec. apply elem_of_without. split; [by intros -> | apply Hl; by right]. }
    exists w2, fl2. split; [| split; [by apply (reclaims_trans _ _ _ w1 (pg :: fl)) |]; split; [cbn [length] in *; lia |]; split].
    + do 2 f_equal. rewrite s32_idem. f_equal. cbn [length] in *. lia.
    + intros c' Hne. rewrite Ho by done. unfold w1. cbn [caches set_ka set_cache]. by apply upd_ne.
    + intros t Ht. apply He in Ht as [Ht Htl]. rewrite Ec in Ht. apply elem_of_without in Ht as [Hne Ht].
      split; [done |]. by rewrite not_elem_of_cons.
Qed.

(** Draining needs the lock of [magazine_cache]: reclaiming is safe while it is held
    only if no cache it would drain has a magazine in its depot. *)
Definition can_reclaim (w : world) (cs : list Z) : Prop :=
  locks w mc = true -> forall c, c ∈ cs -> locks w c = false -> full_mags (caches w c) = [] /\ empty_mags (caches w c) = [].

Lemma not_in_nil (l : list Z) : (forall x, x ∉ l) -> l = [].
Proof. intros H. destruct l as [| x l]; [done |]. destruct (H x). left. Qed.

Lemma same_cache_nil k k' : same_cache k k' -> (full_mags k = [] -> full_mags k' = []) /\ (empty_mags k = [] -> empty_mags k' = []).
Proof.
  intros (p & f & e & F & E & -> & HF & HE). cbn [set_depot full_mags empty_mags].
  split; intros Ek; rewrite Ek in *; apply not_in_nil; intros x Hx; [apply HF in Hx | apply HE in Hx]; by apply elem_of_nil in Hx.
Qed.

Lemma can_reclaim_rframe w w' cs : can_reclaim w cs -> rframe w w' -> can_reclaim w' cs.
Proof.
  intros H Hr Hm c Hc Hl. rewrite (rf_locks _ _ Hr) in Hm, Hl. destruct (H Hm c Hc Hl) as [H1 H2].
  destruct (same_cache_nil _ _ (rf_caches _ _ Hr c)). auto.
Qed.

Lemma rframe_nodepot w cs c : sok w cs -> c ∈ cs -> NoDup (full_mags (caches w c)) /\ NoDup (empty_mags (caches w c)).
Proof.
  intros Hok Hc. pose proof (mg_nodup _ _ (so_mags _ _ _ _ Hok c Hc)) as Hnd. unfold mags_of in Hnd.
  apply NoDup_app in Hnd as (H1 & _ & Hnd). apply NoDup_app in Hnd as (H2 & _). done.
Qed.

(** Draining the whole depot of a locked cache. *)
Lemma drain_depot_spec w cs c fl : sok w cs -> c ∈ cs -> cc <> mc -> kalloc_ok (ka w) fl ->
  (c = mc \/ full_mags (caches w c) ++ empty_mags (caches w c) = [] \/ locks w mc = false) ->
  exists w1 w2, drain_list mc (full_mags (caches w c)) w c = Ret w1 /\
    drain_list mc (empty_mags (caches w1 c)) w1 c = Ret w2 /\ reclaims cs w fl w2 fl /\ ka w2 = ka w /\
    (forall c', c' <> c -> c' <> mc -> caches w2 c' = caches w c') /\
    full_mags (caches w2 c) = [] /\ empty_mags (caches w2 c) = [] /\ c_cpu (caches w2 c) = c_cpu (caches w c).
Proof.
  intros Hok Hc Hne Hka Hsafe.
  assert (Hlk : full_mags (caches w c) <> [] \/ empty_mags (caches w c) <> [] -> locks w mc = false).
  { intros Hx. destruct Hsafe as [-> | [E | ?]]; [| | done].
    - destruct (mags_c_nomag cc mc w cs Hok) as [_ E]. unfold mags_of in E. apply app_eq_nil in E as [E1 E].
      apply app_eq_nil in E as [E2 _]. rewrite E1, E2 in Hx. tauto.
    - apply app_eq_nil in E as [E1 E2]. tauto. }
  destruct (rframe_nodepot w cs c Hok Hc) as [Hn1 Hn2].
  destruct (drain_list_spec cc mc cs c (full_mags (caches w c)) Hc Hne w Hok) as (w1 & E1 & Hok1 & Hr1 & Hka1 & Hk1 & Ho1 & Hd1 & Hl1); auto.
  destruct (rframe_nodepot w1 cs c Hok1 Hc) as [_ Hn2'].
  destruct (drain_list_spec cc mc cs c (empty_mags (caches w1 c)) Hc Hne w1 Hok1) as (w2 & E2 & Hok2 & Hr2 & Hka2 & Hk2 & Ho2 & Hd2 & Hl2); auto.
  { intros Hx. rewrite (rf_locks _ _ Hr1). apply Hlk. right. intros E. apply Hx. by apply (same_cache_nil _ _ (rf_caches _ _ Hr1 c)). }
  exists w1, w2. split; [done |]. split; [done |]. split; [| split; [congruence |]; split; [| split; [| split]]].
  - apply reclaims_same_ka; [done | by apply (rframe_trans _ w1) | congruence | done | intros c' o; by rewrite Hl2 |].
    by apply (keeps_trans _ _ w1).
  - intros c' N1 N2. by rewrite Ho2, Ho1.
  - destruct (rf_caches _ _ Hr2 c) as (p & f & e & F & E & Ek & HF & HE).
    apply not_in_nil. intros m Hm. rewrite Ek in Hm. apply HF in Hm. apply (Hd1 m); [auto |].
    destruct (rf_caches _ _ Hr1 c) as (p' & f' & e' & F' & E' & Ek' & HF' & _). rewrite Ek' in Hm. by apply HF'.
  - destruct (rf_caches _ _ Hr2 c) as (p & f & e & F & E & Ek & HF & HE).
    apply not_in_nil. intros m Hm. apply (Hd2 m); [auto |]. rewrite Ek in Hm. by apply HE.
  - destruct (rf_caches _ _ Hr2 c) as (p & f & e & F & E & -> & _). destruct (rf_caches _ _ Hr1 c) as (p' & f' & e' & F' & E' & -> & _). done.
Qed.

Lemma reclaim_cache_spec w cs L c fl n : sok w cs -> c ∈ cs -> c ∈ L -> cc <> mc -> kalloc_ok (ka w) fl -> can_reclaim w L -> s32 n = n ->
  exists w' fl', reclaim_cache mc w c n = Ret (w', s32 (n + Z.of_nat (length fl' - length fl))) /\
    reclaims cs w fl w' fl' /\
    (forall c', c' <> c -> c' <> mc -> caches w' c' = caches w c') /\
    (locks w c = false -> full_mags (caches w' c) = [] /\ empty_mags (caches w' c) = [] /\ empty (caches w' c) = []).
Proof.
  intros Hok Hc HcL Hne Hka Hcan Hn. unfold reclaim_cache. destruct (locks w c) eqn:Hl.
  { exists w, fl. rewrite Nat.sub_diag, Z.add_0_r, Hn. split; [done |]. split; [by apply reclaims_refl | done]. }
  cbn zeta. set (w0 := set_lock w c true). assert (Hok0 : sok w0 cs) by by apply sok_locks.
  destruct (drain_depot_spec w0 cs c fl Hok0 Hc Hne Hka) as (w1 & w2 & E1 & E2 & Hr2 & _ & Ho2 & Hf2 & He2 & _).
  { destruct (decide (c = mc)); [by left | right]. destruct (locks w mc) eqn:Hm.
    - left. destruct (Hcan Hm c HcL Hl) as [H1 H2]. change (caches w0 c) with (caches w c). by rewrite H1, H2.
    - right. cbn [w0 locks set_lock]. by rewrite upd_ne by done. }
  rewrite E1. cbn [mbind res_bind]. rewrite E2. cbn [mbind res_bind].
  pose proof (rc_sok _ _ _ _ _ Hr2) as Hok2.
  assert (Hnd : NoDup (empty (caches w2 c))).
  { pose proof (sc_nodup _ _ (so_slabs _ _ _ _ Hok2 c Hc)) as Hnd. unfold slabs_of in Hnd.
    apply NoDup_app in Hnd as (_ & _ & Hnd). by apply NoDup_app in Hnd as (_ & _ & ?). }
  destruct (free_empty_spec cs c (empty (caches w2 c)) Hc w2 fl n Hok2 (rc_ka _ _ _ _ _ Hr2) Hn Hnd ltac:(done))
    as (w3 & fl3 & E3 & Hr3 & Hlen & Ho3 & He3). rewrite E3. cbn [mbind res_bind].
  pose proof (reclaims_trans _ _ _ _ _ _ _ Hr2 Hr3) as Hr. exists (release w3 c), fl3. split; [done |].
  destruct Hr as [R1 R2 R3 R4 R5 R6 R7 R8]. split; [split; try done; [by apply sok_locks |] | split].
  - destruct R2 as [F1 F2 F3 F4]. split; try done. intros c'. cbn [release set_lock locks]. unfold upd.
    destruct (Z.eqb_spec c' c) as [-> |]; [done |]. rewrite F2. by apply upd_ne.
  - intros c' N1 N2. change (caches (release w3 c)) with (caches w3). rewrite Ho3, Ho2 by done. done.
  - intros _. change (caches (release w3 c)) with (caches w3).
    destruct (same_cache_nil _ _ (rf_caches _ _ (rc_frame _ _ _ _ _ Hr3) c)) as [H1 H2].
    split; [auto |]. split; [auto |]. apply not_in_nil. intros s Hs. by apply He3 in Hs as [? ?].
Qed.

Lemma reclaim_loop_spec cs L l : cc <> mc -> (forall c, c ∈ l -> c ∈ L) -> forall w fl n, sok w cs -> (forall c, c ∈ l -> c ∈ cs) -> NoDup l ->
  kalloc_ok (ka w) fl -> can_reclaim w L -> s32 n = n ->
  exists w' fl', reclaim_loop mc l w n = Ret (w', s32 (n + Z.of_nat (length fl' - length fl))) /\
    reclaims cs w fl w' fl' /\
    (forall c, c ∉ l -> c <> mc -> caches w' c = caches w c) /\
    (forall c, c ∈ l -> locks w c = false -> full_mags (caches w' c) = [] /\ empty_mags (caches w' c) = [] /\
      (c <> mc -> empty (caches w' c) = [])).
Proof.
  intros Hne. induction l as [| c l IH]; intros HL w fl n Hok Hl Hnd Hka Hcan Hn.
  - exists w, fl. rewrite Nat.sub_diag, Z.add_0_r, Hn. split; [done |]. split; [by apply reclaims_refl |]. split; [done |].
    by intros c ?%elem_of_nil.
  - apply NoDup_cons in Hnd as [Hcl Hnd]. cbn [reclaim_loop].
    destruct (reclaim_cache_spec w cs L c fl n Hok (Hl c ltac:(left)) (HL c ltac:(left)) Hne Hka Hcan Hn) as (w1 & fl1 & -> & Hr1 & Ho1 & He1).
    cbn [mbind res_bind]. pose proof (rc_frame _ _ _ _ _ Hr1) as Hf1. pose proof (rc_len _ _ _ _ _ Hr1).
    destruct (IH (fun c Hc => HL c ltac:(by right)) w1 fl1 (s32 (n + Z.of_nat (length fl1 - length fl))) (rc_sok _ _ _ _ _ Hr1)) as (w2 & fl2 & -> & Hr2 & Ho2 & He2).
    + intros c' Hc'. apply Hl. by right.
    + done.
    + by apply Hr1.
    + by eapply can_reclaim_rframe.
    + unfold s32. Z.div_mod_to_equations. lia.
    + pose proof (rc_len _ _ _ _ _ Hr2). exists w2, fl2. rewrite s32_idem. split; [do 3 f_equal; lia |].
      split; [by eapply reclaims_trans |]. split.
      * intros c' [N1 N2]%not_elem_of_cons Nm. rewrite Ho2, Ho1 by done. done.
      * intros c' Hc' Hlk. apply elem_of_cons in Hc' as [-> | Hc'].
        -- destruct (He1 Hlk) as (H1 & H2 & H3). destruct (same_cache_nil _ _ (rf_caches _ _ (rc_frame _ _ _ _ _ Hr2) c)).
           split; [auto |]. split; [auto |]. intros Nm. by rewrite Ho2 by done.
        -- apply He2; [done |]. by rewrite (rf_locks _ _ Hf1).
Qed.

(** *** Reclaiming under the lock of [magazine_cache] *)

Lemma free_locked_locks w c o w' : slab_free_locked w c o = Ret w' -> locks w' = locks w.
Proof.
  unfold slab_free_locked, KASSERT. destruct (_ =? c); [| done]. cbn [mbind res_bind]. destruct (_ && _); [| done]. cbn [mbind res_bind]. by intros [= <-].
Qed.

Lemma drain_loop_locks n : forall w c m i w', drain_loop n w c m i = Ret w' -> locks w' = locks w.
Proof.
  induction n as [| n IH]; intros w c m i w'; cbn [drain_loop]; [by intros [= ->] |].
  destruct (slab_free_locked w c _) as [w1 |] eqn:E; [| done]. cbn [mbind res_bind]. intros H. rewrite (IH _ _ _ _ _ H). exact (free_locked_locks _ _ _ _ E).
Qed.

(** A magazine cannot go back to [magazine_cache] then. *)
Lemma drain_list_stuck l w c w' : locks w mc = true -> drain_list mc l w c = Ret w' -> l = [].
Proof.
  intros Hm. destruct l as [| m l]; [done |]. cbn [drain_list]. unfold drain_magazine. set (w0 := set_cache w c _).
  destruct (drain_loop _ w0 c m 0) as [w1 |] eqn:E; [| done]. cbn [mbind res_bind]. unfold kmem_cache_free_slab, acquire.
  change (locks (set_mag w1 m _)) with (locks w1). rewrite (drain_loop_locks _ _ _ _ _ _ E). change (locks w0) with (locks w). rewrite Hm. done.
Qed.

Lemma free_empty_frame l : forall w c n w' n', free_empty l w c n = Ret (w', n') -> locks w' = locks w /\ forall c', full_mags (caches w' c') = full_mags (caches w c') /\ empty_mags (caches w' c') = empty_mags (caches w c').
Proof.
  induction l as [| s l IH]; intros w c n w' n'; cbn [free_empty]; [by intros [= -> ->] |].
  destruct (kpage_free _ s) as [k |]; [| done]. cbn [mbind res_bind]. intros H. destruct (IH _ _ _ _ _ H) as [-> H2]. split; [done |].
  intros c'. destruct (H2 c') as [-> ->]. cbn. unfold upd. by destruct (Z.eqb_spec c' c) as [-> |].
Qed.

(** So when it returns, no cache it could lock had a magazine in its depot. *)
Lemma reclaim_cache_stuck w c n w' n' : locks w mc = true -> reclaim_cache mc w c n = Ret (w', n') ->
  (forall c', locks w' c' = locks w c') /\ (locks w c = false -> full_mags (caches w c) = [] /\ empty_mags (caches w c) = []) /\
  forall c', full_mags (caches w' c') = full_mags (caches w c') /\ empty_mags (caches w' c') = empty_mags (caches w c').
Proof.
  intros Hm. unfold reclaim_cache. destruct (locks w c) eqn:Hl; [by intros [= -> _] |]. cbn zeta.
  assert (Hm' : locks (set_lock w c true) mc = true) by (cbn; unfold upd; by destruct (mc =? c)).
  change (caches (set_lock w c true)) with (caches w). destruct (drain_list mc (full_mags (caches w c)) _ c) as [w1 |] eqn:E1; [| done].
  pose proof (drain_list_stuck _ _ _ _ Hm' E1) as Ef. rewrite Ef in E1. injection E1 as <-. cbn [mbind res_bind].
  destruct (drain_list mc (empty_mags (caches (set_lock w c true) c)) _ c) as [w2 |] eqn:E2; [| done].
  pose proof (drain_list_stuck _ _ _ _ Hm' E2) as Ee. rewrite Ee in E2. injection E2 as <-. cbn [mbind res_bind].
  destruct (free_empty _ _ c n) as [[w3 n3] |] eqn:E3; [| done]. cbn [mbind res_bind]. intros [= <- <-]. destruct (free_empty_frame _ _ _ _ _ _ E3) as [F1 F2].
  split_and!; [| done | exact F2]. intros c'. cbn [release set_lock locks]. rewrite F1. cbn. unfold upd. by destruct (Z.eqb_spec c' c) as [-> |].
Qed.

Lemma reclaim_loop_stuck l : forall w n r, locks w mc = true -> reclaim_loop mc l w n = Ret r -> can_reclaim w l.
Proof.
  induction l as [| c l IH]; intros w n r Hm; cbn [reclaim_loop]; [by intros _ _ c ?%elem_of_nil |].
  destruct (reclaim_cache mc w c n) as [[w1 n1] |] eqn:E; [| done]. cbn [mbind res_bind]. intros H.
  destruct (reclaim_cache_stuck w c n w1 n1 Hm E) as (Hl & Hd & Hs). intros _ c' [-> | Hc']%elem_of_cons Hl'; [by apply Hd |].
  destruct (Hs c') as [<- <-]. apply (IH w1 n1 r); [by rewrite Hl | done | by rewrite Hl | done | by rewrite Hl].
Qed.

Lemma kmem_reclaim_stuck w r : locks w mc = true -> caches_lock w = false -> kmem_reclaim mc w = Ret r -> can_reclaim w (kmem_caches w).
Proof.
  intros Hm Hcl. unfold kmem_reclaim. rewrite Hcl. cbn zeta. destruct (reclaim_loop mc _ _ 0) as [r1 |] eqn:E; [| done]. intros _.
  exact (reclaim_loop_stuck _ (set_caches_lock w true) 0 r1 Hm E).
Qed.

Lemma kmem_reclaim_spec w cs fl : cc <> mc -> sok w cs -> kalloc_ok (ka w) fl -> can_reclaim w (kmem_caches w) ->
  exists w' fl', kmem_reclaim mc w = Ret (w', s32 (Z.of_nat (length fl' - length fl))) /\ reclaims cs w fl w' fl' /\
    (caches_lock w = false -> forall c, c ∈ kmem_caches w -> locks w c = false ->
      full_mags (caches w' c) = [] /\ empty_mags (caches w' c) = [] /\ (c <> mc -> empty (caches w' c) = [])).
Proof.
  intros Hne Hok Hka Hcan. unfold kmem_reclaim. destruct (caches_lock w) eqn:Hcl.
  { exists w, fl. rewrite Nat.sub_diag. split; [done |]. split; [by apply reclaims_refl | done]. }
  cbn zeta. set (w0 := set_caches_lock w true). assert (Hok0 : sok w0 cs) by by apply sok_locks.
  destruct (reclaim_loop_spec cs (kmem_caches w) (kmem_caches w) Hne (fun _ H => H) w0 fl 0 Hok0) as (w1 & fl1 & E & Hr & _ & He); try done.
  { apply (so_list _ _ _ _ Hok). }
  { apply (so_list _ _ _ _ Hok). }
  change (kmem_caches w0) with (kmem_caches w). rewrite E. cbn [mbind res_bind]. rewrite Z.add_0_l.
  exists (set_caches_lock w1 false), fl1. split; [done |]. destruct Hr as [R1 R2 R3 R4 R5 R6 R7 R8].
  split; [split; try done; [by apply sok_locks |] | intros _; exact He].
  destruct R2 as [F1 F2 F3 F4]. by split.
Qed.
End caches.
