(* ===== verification/SlabAlloc.v ===== *)
(** * The slab allocator: allocation and release

    The theorems on [kmem_cache_alloc], [kmem_cache_free], [kmem_reclaim],
    [kmem_cache_create] and [kmem_cache_destroy], over the lemmas of [SlabSpec],
    [SlabDepot] and [SlabReclaim]. *)

From S2P Require Import Prelude Bits Mmu Physmem Kalloc Pages Slab SlabSpec SlabDepot SlabReclaim.

Section caches.
Context (cc mc : Z) (Hne : cc <> mc).
Notation sok := (sok cc mc).
Notation live := (live mc).

(** ** Lemmas: taking a slot *)

Lemma put_set_cache w c s h k k1 : put (set_cache w c k1) c s h k = put w c s h k.
Proof. unfold put, set_cache, set_slab. cbn [ka slabs mags caches kmem_caches locks caches_lock ctor_calls]. by rewrite upd_upd. Qed.

Lemma put_set_slab w c s h h1 k : put (set_slab w s h1) c s h k = put w c s h k.
Proof. unfold put, set_cache, set_slab. cbn [ka slabs mags caches kmem_caches locks caches_lock ctor_calls]. by rewrite upd_upd. Qed.

(** The state in which [slab_take] runs: slab [s] of [c], with header [h0], on the
    partial list. *)
Definition picked (w : world) (c s : Z) (ka' : kalloc) (h0 : slab) (p f e : list Z) : world :=
  set_cache (set_slab (set_ka w ka') s h0) c (set_lists (caches w c) p f e).

Section take.
Context (w : world) (cs : list Z) (c s : Z) (ka' : kalloc) (h0 : slab) (p0 f0 e0 : list Z).
Context (Hok : sok w cs) (Hc : c ∈ cs).
Notation wp := (picked w c s ka' h0 p0 f0 e0).
Context (Hpm : ka_pm ka' = ka_pm (ka w)).
Context (Hflags : forall t, is_page t -> t <> s -> page_flags ka' (KVA_TO_PA t) = page_flags (ka w) (KVA_TO_PA t)).
Context (Hs : is_page s) (Hf : page_flags ka' (KVA_TO_PA s) = Some PG_SLAB).
Context (Hother : forall c', c' ∈ cs -> c' <> c -> s ∉ slabs_of (caches w c')).
Context (Hh : s_cache h0 = c) (Hwf : bitstr_wf (s_used h0)).
Context (Hin : s_inuse h0 = Z.of_nat (length (used_slots (s_used h0) (slots_per_slab (caches w c))))).
Context (Hroom : s_inuse h0 < slots_per_slab (caches w c)).
Context (Hperm : p0 ++ f0 ++ e0 ≡ₚ s :: without s (slabs_of (caches w c))) (Hsp : s ∈ p0).
Context (Hp0 : forall t, t ∈ p0 -> t <> s -> t ∈ partial (caches w c))
        (Hf0 : forall t, t ∈ f0 -> t <> s -> t ∈ full (caches w c))
        (He0 : forall t, t ∈ e0 -> t <> s -> t ∈ empty (caches w c)).
Context (Htaken : forall o, taken wp c o <-> taken w c o).

Lemma picked_self : caches wp c = set_lists (caches w c) p0 f0 e0.
Proof. apply upd_eq. Qed.

Lemma picked_slab t : slabs wp t = if decide (t = s) then h0 else slabs w t.
Proof. cbn. destruct (decide (t = s)) as [-> |]; [apply upd_eq | by apply upd_ne]. Qed.

Lemma picked_but : slabs_but wp c s /\ slab_ok wp c s /\ slabs_but (set_ka w ka') c s.
Proof.
  pose proof (so_slabs _ _ _ _ Hok c Hc) as [G1 G2 G3 G4 G5 G6].
  assert (Hsl : forall t, t ∈ slabs_of (caches w c) -> t <> s -> slab_ok (set_ka w ka') c t).
  { intros t Ht Hn. destruct (G3 t Ht) as [A1 A2 A3 A4 A5]. split; try done. cbn [ka set_ka]. by rewrite Hflags. }
  assert (Hin' : forall t, t ∈ p0 ++ f0 ++ e0 -> t <> s -> t ∈ slabs_of (caches w c)).
  { intros t Ht Hn. rewrite Hperm in Ht. apply elem_of_cons in Ht as [? | [_ ?]%elem_of_without]; done. }
  assert (Hh0 : slabs wp s = h0) by (by rewrite picked_slab, decide_True by done).
  split; [| split].
  - split; rewrite ?picked_self, ?slabs_of_set; try done.
    + rewrite Hperm. constructor; [rewrite elem_of_without; tauto | by apply NoDup_filter].
    + intros t Ht Hn. destruct (Hsl t (Hin' t Ht Hn) Hn) as [A1 A2 A3 A4 A5].
      split; rewrite ?picked_self, ?picked_slab, ?decide_False by done; done.
    + intros t Ht Hn. rewrite picked_slab, decide_False by done. by apply G4, Hp0.
    + intros t Ht Hn. rewrite picked_slab, decide_False by done. by apply G5, Hf0.
    + intros t Ht Hn. rewrite picked_slab, decide_False by done. by apply G6, He0.
  - split; rewrite ?picked_self, ?Hh0; done.
  - split; [exact G1 | exact G2 | exact Hsl | intros; by apply G4 | intros; by apply G5 | intros; by apply G6].
Qed.

Lemma sok_take : exists w' o, slab_take wp c s = Ret (w', o) /\ sok w' cs /\ frame w w' /\ ka w' = ka' /\
  mags w' = mags w /\ (forall c', ~ live w cs c' o) /\
  forall c' o', live w' cs c' o' <-> live w cs c' o' \/ (c', o') = (c, o).
Proof.
  destruct picked_but as (Hbut & Hsl & Hbut0).
  destruct (slab_take_spec wp c s Hbut Hsl) as (h & p & f & e & o & E & F & Hnt & Hpo & Htk).
  { by rewrite picked_self. }
  { rewrite picked_self, picked_slab, decide_True by done. exact Hroom. }
  rewrite picked_self in E, Htk. change (set_lists (set_lists (caches w c) p0 f0 e0) p f e) with (set_lists (caches w c) p f e) in E, Htk.
  unfold picked in E at 2, Htk. rewrite put_set_cache, put_set_slab in E, Htk. fold (picked w c s ka' h0 p0 f0 e0) in Htk.
  assert (F0 : fits (set_ka w ka') c s h p f e).
  { destruct F as [F1 F2 F3 F4 F5 F6 F7 F8 F9 F10 F11 F12]. rewrite picked_self in *. split; try done; auto.
    rewrite F1, slabs_of_set, Hperm, without_head by (rewrite elem_of_without; tauto). done. }
  set (w' := put (set_ka w ka') c s h (set_lists (caches w c) p f e)) in *.
  assert (Hsub : forall o', taken w c o' -> taken w' c o') by (intros o' Ht; apply Htk; left; by apply Htaken).
  assert (Hok' : sok w' cs).
  { apply (sok_put cc mc w cs c s ka' h p f e Hok Hc Hpm); try done.
    - intros t Ht Hn. by rewrite Hflags.
    - intros o' Ho. apply Hsub. by apply (mg_taken _ _ (so_mags _ _ _ _ Hok c Hc)).
    - intros -> c' m Hc' Hm. apply Hsub. by apply (so_mtaken _ _ _ _ Hok c').
    - intros -> c' Hc' H1 H2. apply Hsub. by apply (so_ctaken _ _ _ _ Hok). }
  assert (Hfr : ~ taken w c o) by (by rewrite <- Htaken).
  assert (Hfr' : forall c', c' ∈ cs -> ~ taken w c' o).
  { intros c' Hc' Ht. destruct (decide (c' = c)) as [-> | Hn]; [done |].
    destruct (taken_slot w c' o (so_slabs _ _ _ _ Hok c' Hc') Ht) as (i & Hx & _). rewrite Hpo in Hx. by apply (Hother c'). }
  exists w', o. split; [done |]. split; [done |]. split; [by destruct (frame_put (set_ka w ka') c s h p f e) |].
  split; [done |]. split; [done |]. split; [intros c' (Hc' & Ht & _); by apply (Hfr' c') |].
  intros c' o'. unfold w'. rewrite (put_live mc w cs c s ka' h p f e c' o'). fold w'. unfold live.
  destruct (decide (c' = c)) as [-> | Hn].
  - rewrite Htk, Htaken. split.
    + intros (H1 & [H2 | ->] & H3 & H4); [left; done | right; done].
    + intros [(H1 & H2 & H3 & H4) | [= ->]]; [auto |]. split; [done |]. split; [by right |]. split.
      * intros Hx. by apply Hfr, (mg_taken _ _ (so_mags _ _ _ _ Hok c Hc)).
      * intros -> c'' Hc'' Hx. by apply Hfr, (so_mtaken _ _ _ _ Hok c'').
  - pose proof (put_taken_other w cs c s ka' h p f e Hother c' o') as P. split.
    + intros (H1 & H2 & H3 & H4). left. apply P in H2; done.
    + intros [(H1 & H2 & H3 & H4) | [= ? _]]; [| done]. apply P in H2; done.
Qed.
End take.

(** ** The page allocator's view

    From state [w0] on, reclaiming keeps the invariant and what every client owns. *)

Record steady (cs : list Z) (w0 w : world) : Prop := {
  st_sok : sok w cs;
  st_frame : rframe w0 w;
  st_live : forall c o, live w cs c o <-> live w0 cs c o;
  st_mags : keeps cs w0 w
}.

Lemma sok_set_ka w cs ka' : sok w cs -> ka_pm ka' = ka_pm (ka w) ->
  (forall pa, page_flags ka' pa = Some PG_SLAB <-> page_flags (ka w) pa = Some PG_SLAB) -> sok (set_ka w ka') cs.
Proof.
  intros [S1 S2 S3 S4 S5 S6 S7 S8 S9 S10] Hpm Hf. split; try done.
  - cbn [ka set_ka]. by rewrite Hpm.
  - intros c Hc. cbn [ka set_ka]. rewrite Hpm. by apply S2.
  - intros c Hc. apply (slabs_ok_frame w); [by apply S4 | done |]. intros s Hs. split; [done |]. cbn [ka set_ka].
    apply Hf, (sl_flag _ _ _ (sc_slab _ _ (S4 c Hc) s Hs)).
  - intros s Hp Hx. apply Hf in Hx. by apply S5.
  - intros c Hc. by destruct (S6 c Hc).
Qed.

#[local, refine] Instance slab_laws (cs : list Z) (w0 : world) : @PageReclaimLaws world (slab_reclaim mc) := {|
  w_ok := fun w => steady cs w0 w /\ can_reclaim mc w (kmem_caches w)
|}.
Proof.
  - done.
  - apply set_ka_id.
  - intros w l [[H1 H2 H3 H5] H4] Hka.
    destruct (kmem_reclaim_spec cc mc w cs l Hne H1 Hka H4) as (w' & l' & E & [R1 R2 R3 R4 R5 R6 R7 R8] & _).
    exists w', (s32 (Z.of_nat (length l' - length l))), l'. split; [exact E |]. split; [done |]. split; [done |].
    split; [| done]. split; [| rewrite (rf_list _ _ R2); by eapply can_reclaim_rframe].
    split; [done | by apply (rframe_trans _ w) | intros c o; by rewrite R7 | by apply (keeps_trans _ _ w)].
  - intros w k [[H1 H2 H3 H5] H4] Hpm Hf. split; [| done]. split; [by apply sok_set_ka | by destruct H2 | done | done].
Defined.

Lemma steady_refl cs w : sok w cs -> steady cs w w.
Proof. intros. split; [done | apply rframe_refl | done | done]. Qed.

(** With a free page, [kpage_alloc] does not reclaim. *)
Lemma kpage_alloc_free cs w i l : sok w cs -> kalloc_ok (ka w) (i :: l) ->
  exists w' s, @kpage_alloc world (slab_reclaim mc) w = Ret (w', Some s) /\ kalloc_ok (ka w') l /\ steady cs w w' /\
    is_page s /\ page_flags (ka w') (KVA_TO_PA s) = Some PG_USED.
Proof.
  intros Hok Hka. unfold kpage_alloc. destruct (@w_pop world (slab_reclaim mc) w) as [w1 [pg |]] eqn:E.
  - destruct (@w_pop_page world (slab_reclaim mc) (slab_laws cs w) w w1 (i :: l) pg Hka E)
      as (l' & pa & [= <- <-] & Hka1 & Hpm & Hpa & Ha & Hb & Hf & Hu & Ho). cbn [mbind res_bind fst snd].
    change (@w_ka world (slab_reclaim mc)) with ka in *. rewrite Hpa. cbn [mbind res_bind].
    exists w1, (PA_TO_KVA pa). rewrite KVA_PA_inv by done. split; [done |]. split; [done |].
    assert (E1 : w1 = set_ka w (ka w1)).
    { unfold w_pop in E. destruct (freelist_pop (w_ka w)). by injection E as <- _. }
    split; [| split; [| done]].
    + rewrite E1. split; [| by split; intros; try done; apply same_cache_refl | done | done].
      apply sok_set_ka; [done | done |]. intros pa'. destruct (decide (pa' / 4096 = pa / 4096)) as [Ep |].
      * rewrite (page_flags_page (ka w) pa' pa _ Hka Ep), (page_flags_page (ka w1) pa' pa _ Hka1 Ep), Hf, Hu. by split.
      * by rewrite Ho.
    + apply (allocated_is_page (ka w) (ka w1) l); rewrite ?KVA_PA_inv by done; try done.
      * rewrite Hpm. exact (so_ram _ _ _ _ Hok).
      * apply u64_range.
      * split; [done |]. split; [done |]. split; [done |]. split; [by left |]. intros pa' Hn. left. by apply Ho.
  - pose proof (@w_pop_none world (slab_reclaim mc) (slab_laws cs w) w w1 (i :: l) Hka E) as [? _]. done.
Qed.

Lemma kpage_alloc_slab cs w l : sok w cs -> kalloc_ok (ka w) l -> l <> [] \/ can_reclaim mc w (kmem_caches w) ->
  exists w' r l', @kpage_alloc world (slab_reclaim mc) w = Ret (w', r) /\ kalloc_ok (ka w') l' /\ steady cs w w' /\
    match r with
    | Some s => is_page s /\ page_flags (ka w') (KVA_TO_PA s) = Some PG_USED
    | None => l = []
    end.
Proof.
  intros Hok Hka Hcan. destruct l as [| i l].
  2: { destruct (kpage_alloc_free cs w i l Hok Hka) as (w' & s & ? & ? & ? & ?). by exists w', (Some s), l. }
  destruct Hcan as [? | Hcan]; [done |]. pose proof (steady_refl cs w Hok) as H0.
  destruct (@kpage_alloc_cases world (slab_reclaim mc) (slab_laws cs w) w [] (conj H0 Hcan) Hka) as (w' & r & l' & E & Hka' & Hpm & [Hst _] & Hr).
  exists w', r, l'. split; [done |]. split; [done |]. split; [done |]. destruct r as [s |]; [| by destruct Hr].
  destruct Hr as [(Ha & Hb & Hu & Hf & Ho) _]. split; [| done].
  apply (allocated_is_page (ka w) (ka w') l'); try done.
  - exact (so_ram _ _ _ _ (st_sok _ _ _ Hst)).
  - by apply (@kpage_alloc_range world (slab_reclaim mc) w w').
Qed.

(** ** Lemmas: the slab layer's allocation *)

(** What an allocation from cache [c] promises, from state [w]. *)
Definition gives (cs : list Z) (w : world) (c : Z) (w' : world) (r : option Z) : Prop :=
  match r with
  | Some o => (forall c', ~ live w cs c' o) /\ forall c' o', live w' cs c' o' <-> live w cs c' o' \/ (c', o') = (c, o)
  | None => kalloc_ok (ka w) [] /\ partial (caches w c) = [] /\ empty (caches w c) = [] /\
      forall c' o', live w' cs c' o' <-> live w cs c' o'
  end.

Lemma set_slab_id w s : set_slab w s (slabs w s) = w.
Proof. unfold set_slab. rewrite upd_same. by destruct w. Qed.

Lemma set_cache_id w c : set_cache w c (caches w c) = w.
Proof. unfold set_cache. rewrite upd_same. by destruct w. Qed.

(** A slab already on a list of the cache, with room. *)
Lemma take_old w cs c s p f e : sok w cs -> c ∈ cs -> s ∈ slabs_of (caches w c) ->
  s_inuse (slabs w s) < slots_per_slab (caches w c) ->
  p ++ f ++ e ≡ₚ s :: without s (slabs_of (caches w c)) -> s ∈ p ->
  (forall t, t ∈ p -> t <> s -> t ∈ partial (caches w c)) -> (forall t, t ∈ f -> t <> s -> t ∈ full (caches w c)) ->
  (forall t, t ∈ e -> t <> s -> t ∈ empty (caches w c)) ->
  exists w' o, slab_take (set_cache w c (set_lists (caches w c) p f e)) c s = Ret (w', o) /\
    sok w' cs /\ frame w w' /\ ka w' = ka w /\ mags w' = mags w /\ gives cs w c w' (Some o).
Proof.
  intros Hok Hc Hs Hroom Hperm Hsp Hp Hf He. pose proof (so_slabs _ _ _ _ Hok c Hc) as Hsl.
  destruct (sc_slab _ _ Hsl s Hs) as [A1 A2 A3 A4 A5].
  destruct (sok_take w cs c s (ka w) (slabs w s) p f e Hok Hc eq_refl) as (w' & o & E & H1 & H2 & H3 & H4 & H5 & H6); try done.
  - intros c' Hc' Hn. apply (other_slabs w c c' s Hsl (so_slabs _ _ _ _ Hok c' Hc')); done.
  - intros o. unfold picked. rewrite set_ka_id, set_slab_id. unfold taken. cbn [caches set_cache slabs]. rewrite upd_eq, slabs_of_set.
    assert (Hiff : forall t, t ∈ p ++ f ++ e <-> t ∈ slabs_of (caches w c)).
    { intros t. rewrite Hperm, elem_of_cons, elem_of_without. destruct (decide (t = s)) as [-> |]; tauto. }
    split; intros (t & i & Ht & Hr); exists t, i; (split; [by apply Hiff | exact Hr]).
  - exists w', o. unfold picked in E. rewrite set_ka_id, set_slab_id in E. split; [exact E |]. do 4 (split; [done |]). by split.
Qed.

Lemma set_ctor_id w : set_ctor w (ctor_calls w) = w.
Proof. by destruct w. Qed.

Lemma slab_take_ctor w ct c s : slab_take (set_ctor w ct) c s =
  match slab_take w c s with Ret (w', o) => Ret (set_ctor w' ct, o) | Panic m => Panic m end.
Proof. unfold slab_take. cbn [caches slabs set_ctor]. by destruct (KASSERT _ _). Qed.

(** A slab made of a fresh page. *)
Lemma take_new w cs c s l : sok w cs -> c ∈ cs -> kalloc_ok (ka w) l -> is_page s ->
  page_flags (ka w) (KVA_TO_PA s) = Some PG_USED ->
  exists ka', kpage_set_slab (ka w) s = Ret ka' /\ kalloc_ok ka' l /\
  forall ct, exists w' o,
    let w1 := set_ctor (set_slab (set_ka w ka') s (Slab c 0 (fun _ => 0))) ct in
    slab_take (set_cache w1 c (set_lists (caches w1 c) (s :: partial (caches w1 c)) (full (caches w1 c)) (empty (caches w1 c)))) c s
      = Ret (w', o) /\
    sok w' cs /\ frame w w' /\ ka w' = ka' /\ mags w' = mags w /\ gives cs w c w' (Some o).
Proof.
  intros Hok Hc Hka Hp Hu. pose proof (so_slabs _ _ _ _ Hok) as Hsl.
  destruct (kpage_set_slab_cases (ka w) l s Hka ltac:(by left)) as (ka' & E & Hka' & Hpm & Hf & Ho).
  exists ka'. split; [done |]. split; [done |]. intros ct.
  assert (Hnew : forall c', c' ∈ cs -> s ∉ slabs_of (caches w c')).
  { intros c' Hc' Hx. pose proof (sl_flag _ _ _ (sc_slab _ _ (Hsl c' Hc') s Hx)) as Hs. rewrite Hu in Hs. discriminate. }
  destruct (sc_geom _ _ (Hsl c Hc)) as (_ & Hn & _).
  destruct (sok_take w cs c s ka' (Slab c 0 (fun _ => 0)) (s :: partial (caches w c)) (full (caches w c)) (empty (caches w c)) Hok Hc Hpm)
    as (w' & o & Et & H1 & H2 & H3 & H4 & H5 & H6); try done.
  - intros t Ht Hn'. apply Ho. by apply is_page_inj.
  - intros c' Hc' _. by apply Hnew.
  - cbn [s_used s_inuse]. by rewrite used_empty.
  - cbn [s_inuse]. lia.
  - rewrite without_notin by by apply Hnew. done.
  - left.
  - intros t [-> | ?]%elem_of_cons; done.
  - intros o. unfold taken, picked. cbn [caches set_cache slabs set_slab set_ka]. rewrite upd_eq, slabs_of_set.
    split; intros (t & i & Ht & Hi & Eo & Hb).
    + apply elem_of_cons in Ht as [-> | Ht]; [rewrite upd_eq in Hb; discriminate |].
      exists t, i. split; [done |]. rewrite upd_ne in Hb by (intros ->; by apply (Hnew c)). done.
    + exists t, i. split; [by right |]. rewrite upd_ne by (intros ->; by apply (Hnew c)). done.
  - exists (set_ctor w' ct), o. cbn zeta. split.
    + cbn [caches set_ctor set_slab set_ka].
      change (set_cache (set_ctor (set_slab (set_ka w ka') s (Slab c 0 (fun _ => 0))) ct) c
        (set_lists (caches w c) (s :: partial (caches w c)) (full (caches w c)) (empty (caches w c))))
        with (set_ctor (picked w c s ka' (Slab c 0 (fun _ => 0)) (s :: partial (caches w c)) (full (caches w c)) (empty (caches w c))) ct).
      rewrite slab_take_ctor, Et. done.
    + split; [by apply sok_locks |]. split; [by destruct H2 |]. split; [done |]. split; [done |]. by split.
Qed.

Lemma gives_steady cs w w' c w'' o : steady cs w w' -> gives cs w' c w'' (Some o) -> gives cs w c w'' (Some o).
Proof.
  intros [_ _ Hl _] [H1 H2]. split.
  - intros c' Hx. apply (H1 c'). by apply Hl.
  - intros c' o'. by rewrite H2, Hl.
Qed.

Lemma slab_alloc_spec w cs c l : sok w cs -> c ∈ cs -> kalloc_ok (ka w) l ->
  (partial (caches w c) <> [] \/ empty (caches w c) <> [] \/ l <> [] \/ can_reclaim mc w (kmem_caches w)) ->
  exists w' r l', slab_alloc_locked mc w c = Ret (w', r) /\ sok w' cs /\ rframe w w' /\ keeps cs w w' /\ kalloc_ok (ka w') l' /\
    gives cs w c w' r.
Proof.
  intros Hok Hc Hka Hroom. pose proof (so_slabs _ _ _ _ Hok c Hc) as Hsl. unfold slab_alloc_locked, slab_pick.
  set (k := caches w c) in *. destruct (partial k) as [| s p] eqn:Ep.
  - destruct (empty k) as [| s e] eqn:Ee.
    + unfold slab_grow. destruct (kpage_alloc_slab cs w l Hok Hka) as (w1 & r & l1 & -> & Hka1 & Hst & Hr); [tauto |].
      cbn [mbind res_bind]. destruct r as [s |].
      * destruct Hr as [Hp Hu]. destruct (take_new w1 cs c s l1 (st_sok _ _ _ Hst) Hc Hka1 Hp Hu) as (ka' & -> & Hka' & Ht).
        cbn [mbind res_bind]. set (w2 := set_slab _ _ _). set (w3 := if ctor _ then _ else _).
        destruct (Ht (ctor_calls w3)) as (w4 & o & E & H1 & H2 & H3 & Hm4 & H4). cbn zeta in E. fold w2 in E.
        assert (E3 : w3 = set_ctor w2 (ctor_calls w3)).
        { unfold w3. by destruct (ctor (caches w2 c)), w2. }
        rewrite <- E3 in E. rewrite E. cbn [mbind res_bind]. exists w4, (Some o), l1. split; [done |]. split; [done |].
        split; [apply (rframe_trans _ w1); [apply Hst | by apply frame_rframe] |].
        split; [intros m Hm; rewrite Hm4; by apply Hst |]. split; [by rewrite H3 |].
        by eapply gives_steady.
      * subst l. exists w1, None, l1. split; [done |]. split; [apply Hst |]. split; [apply Hst |]. split; [apply Hst |]. split; [done |].
        split; [done |]. split; [done |]. split; [done |]. apply Hst.
    + cbn [mbind res_bind].
      assert (Hs : s ∈ empty k) by (rewrite Ee; left). assert (Hin : s ∈ slabs_of k) by (apply slabs_of_in; auto).
      destruct (take_old w cs c s (s :: without s []) (without s (full k)) (without s (s :: e)) Hok Hc Hin)
        as (w' & o & E & H1 & H2 & H3 & H4 & H5).
      * destruct (sc_geom _ _ Hsl) as (_ & ? & _). rewrite (sc_empty _ _ Hsl s Hs). unfold k in *. lia.
      * fold k. rewrite move_partial, Ep, Ee. done.
      * left.
      * intros t [-> | [_ ?]%elem_of_without]%elem_of_cons; [done |]. fold k. by rewrite Ep.
      * intros t [_ ?]%elem_of_without. done.
      * intros t [_ ?]%elem_of_without. fold k. by rewrite Ee.
      * fold k in E. match goal with |- context [slab_take ?x c s] => change x with
          (set_cache w c (set_lists k (s :: without s []) (without s (full k)) (without s (s :: e)))) end. rewrite E. cbn [mbind res_bind]. exists w', (Some o), l. split; [done |]. split; [done |].
        split; [by apply frame_rframe |]. split; [intros m _; by rewrite H4 |]. by rewrite H3.
  - cbn [mbind res_bind]. assert (Hs : s ∈ partial k) by (rewrite Ep; left).
    assert (Hin : s ∈ slabs_of k) by (apply slabs_of_in; auto).
    destruct (take_old w cs c s (partial k) (full k) (empty k) Hok Hc Hin) as (w' & o & E & H1 & H2 & H3 & H4 & H5); try done.
    + apply (sc_partial _ _ Hsl s Hs).
    + apply (without_perm s _ (sc_nodup _ _ Hsl) Hin).
    + unfold k in E. rewrite set_lists_id, set_cache_id in E. rewrite E. cbn [mbind res_bind]. exists w', (Some o), l.
      split; [done |]. split; [done |]. split; [by apply frame_rframe |]. split; [intros m _; by rewrite H4 |]. by rewrite H3.
Qed.

(** ** Lemmas: the magazine layer *)

(** Between calls no lock is held. *)
Definition quiet (w : world) : Prop := caches_lock w = false /\ forall c, locks w c = false.

(** The caches keep their geometry. *)
Definition geo (w w' : world) : Prop :=
  kmem_caches w' = kmem_caches w /\
  forall c, exists p f e F E cp, caches w' c = set_depot (set_lists (caches w c) p f e) F E cp.

Lemma rframe_geo w w' : rframe w w' -> geo w w'.
Proof.
  intros [H1 _ _ H2]. split; [done |]. intros c. destruct (H2 c) as (p & f & e & F & E & -> & _).
  by exists p, f, e, F, E, (c_cpu (caches w c)).
Qed.

Lemma geo_trans w1 w2 w3 : geo w1 w2 -> geo w2 w3 -> geo w1 w3.
Proof.
  intros [A1 A2] [B1 B2]. split; [congruence |]. intros c. destruct (B2 c) as (p & f & e & F & E & cp & ->).
  destruct (A2 c) as (p' & f' & e' & F' & E' & cp' & ->). by exists p, f, e, F, E, cp.
Qed.

Lemma geo_refl w : geo w w.
Proof. apply rframe_geo, rframe_refl. Qed.

Lemma geo_depot w c F E cp : geo w (set_cache w c (set_depot (caches w c) F E cp)).
Proof.
  split; [done |]. intros c'. cbn [caches set_cache]. destruct (decide (c' = c)) as [-> |].
  - rewrite upd_eq. exists (partial (caches w c)), (full (caches w c)), (empty (caches w c)), F, E, cp. by destruct (caches w c).
  - rewrite upd_ne by done. exists (partial (caches w c')), (full (caches w c')), (empty (caches w c')),
      (full_mags (caches w c')), (empty_mags (caches w c')), (c_cpu (caches w c')). by destruct (caches w c').
Qed.

(** An object belongs to one cache. *)
Lemma taken_cache w cs c c' o : sok w cs -> c ∈ cs -> c' ∈ cs -> taken w c o -> taken w c' o -> c = c'.
Proof.
  intros Hok Hc Hc' Ht Ht'. pose proof (so_slabs _ _ _ _ Hok) as Hsl.
  destruct (taken_slot w c o (Hsl c Hc) Ht) as (_ & H1 & _), (taken_slot w c' o (Hsl c' Hc') Ht') as (_ & H2 & _).
  destruct (decide (c = c')); [done |]. by destruct (other_slabs w c c' _ (Hsl c Hc) (Hsl c' Hc') n H1).
Qed.

(** The magazines of one CPU change. *)
Lemma cpu_mags_change k i cc' : 0 <= i < NCPU_MAX ->
  cpu_mags (c_cpu k i) ++ flat_map (fun j => cpu_mags ((c_cpu k).[i <- cc'] j)) (seqZ 0 NCPU_MAX) ≡ₚ
  cpu_mags cc' ++ flat_map (fun j => cpu_mags (c_cpu k j)) (seqZ 0 NCPU_MAX).
Proof.
  intros Hi. pose proof (flat_map_change (fun j => cpu_mags (c_cpu k j)) (fun j => cpu_mags ((c_cpu k).[i <- cc'] j))
    (seqZ 0 NCPU_MAX) i (NoDup_seqZ _ _) (cpu_in i Hi)) as P. cbn beta in P. rewrite upd_eq in P. apply P.
  intros j _ Hj. by rewrite upd_ne.
Qed.

Lemma counts_cpu mg k i cc' f e : counts_ok mg k ->
  (forall m, m ∈ f -> m_count (mg m) = MAG_DEPTH) -> (forall m, m ∈ e -> m_count (mg m) = 0) ->
  (forall m, loaded cc' = Some m -> 0 <= m_count (mg m) <= MAG_DEPTH) ->
  (forall m, previous cc' = Some m -> m_count (mg m) = 0 \/ m_count (mg m) = MAG_DEPTH) ->
  counts_ok mg (set_depot k f e (c_cpu k).[i <- cc']).
Proof.
  intros [C1 C2 C3 C4] Hf He Hl Hp. split; try done; cbn [set_depot c_cpu].
  - intros j m Hj. unfold upd. destruct (Z.eqb_spec j i); [auto | by apply C3].
  - intros j m Hj. unfold upd. destruct (Z.eqb_spec j i); [auto | by apply C4].
Qed.

Section cpu.
Context (w : world) (cs : list Z) (c cpu : Z) (Hok : sok w cs) (Hc : c ∈ cs) (Hcpu : 0 <= cpu < NCPU_MAX).
Notation k := (caches w c).
Notation ld := (loaded (c_cpu k cpu)).
Notation pv := (previous (c_cpu k cpu)).

(** Exchanging loaded and previous, when the loaded one is full or empty. *)
Lemma swap_spec : (forall m, ld = Some m -> m_count (mags w m) = 0 \/ m_count (mags w m) = MAG_DEPTH) ->
  let w' := set_cpu w c cpu (CpuCache pv ld) in
  sok w' cs /\ geo w w' /\ mags w' = mags w /\ (forall c', locks w' c' = locks w c') /\ loaded (c_cpu (caches w' c) cpu) = pv /\
  forall c' o, live w' cs c' o <-> live w cs c' o.
Proof.
  intros Hld w'. destruct (so_mags _ _ _ _ Hok c Hc) as [Hcnt _ _ _]. pose proof Hcnt as [C1 C2 C3 C4].
  destruct (depot_shrink cc mc w cs c (full_mags k) (empty_mags k) ((c_cpu k).[cpu <- CpuCache pv ld]) Hok Hc []) as [H1 H2].
  - unfold mags_of. cbn [app set_depot full_mags empty_mags c_cpu]. do 2 apply Permutation_app_head.
    pose proof (cpu_mags_change k cpu (CpuCache pv ld) Hcpu) as P. unfold cpu_mags at 1 3 in P. cbn [loaded previous] in P.
    rewrite (Permutation_app_comm (opt_list pv)) in P. by apply Permutation_app_inv_l in P.
  - apply counts_cpu; [done | exact C1 | exact C2 | | exact Hld]. cbn [loaded]. intros m Hm. unfold MAG_DEPTH in *.
    destruct (C4 cpu m Hcpu Hm) as [-> | ->]; lia.
  - split; [exact H1 |]. split; [apply geo_depot |]. split; [done |]. split; [done |].
    split; [unfold w', set_cpu; cbn [caches set_cache]; rewrite upd_eq; cbn [c_cpu set_depot]; by rewrite upd_eq |].
    intros c' o. unfold w', set_cpu. rewrite H2. cbn [flat_map].
    split; [| tauto]. intros [? | [[_ ?%elem_of_nil] | [_ ?%elem_of_nil]]]; done.
Qed.

(** Loading a full magazine from the depot; the previous one, empty, goes there. *)
Lemma refill_spec fm F : full_mags k = fm :: F -> (forall m, ld = Some m -> m_count (mags w m) = 0) ->
  (forall m, pv = Some m -> m_count (mags w m) <> MAG_DEPTH) ->
  let w' := set_cache w c (set_depot k (without fm (full_mags k)) (insert_opt pv (without fm (empty_mags k)))
              (c_cpu k).[cpu <- CpuCache (Some fm) ld]) in
  sok w' cs /\ geo w w' /\ loaded (c_cpu (caches w' c) cpu) = Some fm /\ m_count (mags w fm) = MAG_DEPTH /\
  forall c' o, live w' cs c' o <-> live w cs c' o.
Proof.
  intros EF Hld Hpv w'. destruct (so_mags _ _ _ _ Hok c Hc) as [Hcnt Hnd _ _]. pose proof Hcnt as [C1 C2 C3 C4].
  assert (Hfm : fm ∈ full_mags k) by (rewrite EF; left).
  assert (Hnf : (fm ∉ F) /\ (fm ∉ empty_mags k)).
  { unfold mags_of in Hnd. rewrite EF in Hnd. apply NoDup_cons in Hnd as [Hn _]. rewrite !elem_of_app in Hn. tauto. }
  assert (E1 : without fm (full_mags k) = F) by (rewrite EF; apply without_head, Hnf).
  assert (E2 : without fm (empty_mags k) = empty_mags k) by apply without_notin, Hnf.
  assert (E3 : insert_opt pv (empty_mags k) = opt_list pv ++ empty_mags k) by by destruct pv.
  assert (Hx : sok w' cs /\ forall c' o, live w' cs c' o <-> live w cs c' o).
  { unfold w'. rewrite E1, E2, E3.
    destruct (depot_shrink cc mc w cs c F (opt_list pv ++ empty_mags k) ((c_cpu k).[cpu <- CpuCache (Some fm) ld]) Hok Hc []) as [H1 H2].
    - unfold mags_of. cbn [app set_depot full_mags empty_mags c_cpu]. rewrite EF.
      pose proof (cpu_mags_change k cpu (CpuCache (Some fm) ld) Hcpu) as P. unfold cpu_mags at 1 3 in P.
      cbn [loaded previous opt_list app] in P. rewrite <- app_assoc in P. change (fm :: opt_list ld ++ ?x) with ([fm] ++ opt_list ld ++ x) in P.
      rewrite (app_assoc [fm]), (Permutation_app_comm [fm]), <- app_assoc in P. apply Permutation_app_inv_l in P.
      cbn [app] in P |- *. rewrite <- (app_assoc (opt_list pv)), Permutation_middle. apply Permutation_app_head.
      rewrite Permutation_middle, <- P, !app_assoc. apply Permutation_app_tail, Permutation_app_comm.
    - apply counts_cpu; [done | intros m Hm; apply C1; rewrite EF; by right | | | ]; cbn [loaded previous].
      + intros m. rewrite elem_of_app. intros [Hm | Hm]; [| by apply C2]. destruct pv as [y |] eqn:Ey; cbn [opt_list] in Hm;
          [| by apply elem_of_nil in Hm]. apply list_elem_of_singleton in Hm as ->.
        destruct (C4 cpu y Hcpu Ey) as [? | ?]; [done |]. by destruct (Hpv y eq_refl).
      + intros m [= <-]. rewrite (C1 fm Hfm). unfold MAG_DEPTH. lia.
      + intros m Hm. left. auto.
    - split; [exact H1 |]. intros c' o. rewrite H2. cbn [flat_map].
      split; [| tauto]. intros [? | [[_ ?%elem_of_nil] | [_ ?%elem_of_nil]]]; done. }
  destruct Hx as [H1 H2]. split; [done |]. split; [apply geo_depot |].
  split; [unfold w'; cbn [caches set_cache]; rewrite upd_eq; cbn [c_cpu set_depot]; by rewrite upd_eq |].
  split; [by apply C1 | done].
Qed.
End cpu.

Lemma alloc_hit fuel w cs c cpu m : sok w cs -> c ∈ cs -> 0 <= cpu < NCPU_MAX -> loaded (c_cpu (caches w c) cpu) = Some m ->
  0 < m_count (mags w m) ->
  exists w' o, alloc_loop mc (S fuel) w cpu c = Ret (w', Some o) /\ sok w' cs /\ geo w w' /\ ka w' = ka w /\
    caches_lock w' = caches_lock w /\ (forall c', locks w' c' = locks w c') /\ gives cs w c w' (Some o).
Proof.
  intros Hok Hc Hcpu Hl Hn. destruct (mag_pop cc mc w cs c cpu m Hok Hc Hcpu Hl Hn) as (H1 & Ht & Hnl & H2).
  pose proof (mg_loaded _ _ (mg_counts _ _ (so_mags _ _ _ _ Hok c Hc)) cpu m Hcpu Hl) as Hle. unfold MAG_DEPTH in Hle.
  cbn [alloc_loop]. rewrite Hl. rewrite (proj2 (Z.gtb_lt _ _)) by done. cbn zeta. rewrite s32_small by lia.
  eexists _, _. split; [reflexivity |]. split; [exact H1 |]. split; [exact (geo_refl w) |]. split; [done |]. split; [done |].
  split; [done |]. split; [| exact H2]. intros c' Hx. pose proof Hx as (Hc' & Ht' & _).
  by rewrite <- (taken_cache w cs c c' _ Hok Hc Hc' Ht Ht') in Hx.
Qed.

(** Same owners: what is promised from one state is promised from the other. *)
Lemma gives_same cs w w' c w'' o : (forall c' o', live w' cs c' o' <-> live w cs c' o') ->
  gives cs w' c w'' (Some o) -> gives cs w c w'' (Some o).
Proof.
  intros Hl [H1 H2]. split; [intros c' Hx; apply (H1 c'); by apply Hl |]. intros c' o'. by rewrite H2, Hl.
Qed.

(** The slab layer under the cache's own lock. *)
Lemma slab_alloc_held w cs c l : sok w cs -> c ∈ cs -> locks w c = false -> kalloc_ok (ka w) l ->
  (partial (caches w c) <> [] \/ empty (caches w c) <> [] \/ l <> [] \/ can_reclaim mc (set_lock w c true) (kmem_caches w)) ->
  exists w' r l', (w0 ← acquire w c; '(w1, obj) ← slab_alloc_locked mc w0 c; Ret (release w1 c, obj)) = Ret (w', r) /\
    sok w' cs /\ rframe w w' /\ keeps cs w w' /\ kalloc_ok (ka w') l' /\ gives cs w c w' r.
Proof.
  intros Hok Hc Hlk Hka Hroom. unfold acquire. rewrite Hlk. cbn [negb KASSERT mbind res_bind].
  assert (Hok0 : sok (set_lock w c true) cs) by by apply sok_locks.
  destruct (slab_alloc_spec (set_lock w c true) cs c l Hok0 Hc Hka Hroom) as (w1 & r & l1 & -> & H1 & H2 & Hk & H3 & H4).
  cbn [mbind res_bind]. exists (release w1 c), r, l1. split; [done |]. split; [by apply sok_locks |]. split; [| done].
  destruct H2 as [F1 F2 F3 F4]. split; try done. intros c'. cbn [release set_lock locks]. unfold upd.
  destruct (Z.eqb_spec c' c) as [-> |]; [done |]. rewrite F2. by apply upd_ne.
Qed.

Lemma quiet_rframe w w' : quiet w -> rframe w w' -> quiet w'.
Proof. intros [H1 H2] [_ F2 F3 _]. split; [congruence |]. intros c. by rewrite F2. Qed.

(** With nothing held but the lock of [c], reclaiming is safe. *)
Lemma quiet_can w cs c : quiet w -> c <> mc -> can_reclaim mc (set_lock w c true) cs.
Proof. intros [_ Hq] Hn Hx. cbn [set_lock locks] in Hx. rewrite upd_ne, Hq in Hx by done. discriminate. Qed.

Lemma mag_count_ok w cs c cpu m : sok w cs -> c ∈ cs -> 0 <= cpu < NCPU_MAX ->
  loaded (c_cpu (caches w c) cpu) = Some m -> 0 <= m_count (mags w m) <= MAG_DEPTH.
Proof. intros Hok Hc. apply (mg_loaded _ _ (mg_counts _ _ (so_mags _ _ _ _ Hok c Hc))). Qed.

Lemma alloc_slow_S n w cpu c : alloc_slow mc (S n) w cpu c =
  let cc := c_cpu (caches w c) cpu in
  if bool_decide (count_of w (previous cc) = Some MAG_DEPTH)
  then alloc_loop mc n (set_cpu w c cpu (CpuCache (previous cc) (loaded cc))) cpu c
  else
    w ← acquire w c;
    let k := caches w c in
    match full_mags k with
    | fm :: _ =>
        let w := set_cache w c (set_depot k (without fm (full_mags k)) (insert_opt (previous cc) (without fm (empty_mags k)))
                                  ((c_cpu k).[cpu <- CpuCache (Some fm) (loaded cc)])) in
        alloc_loop mc n (release w c) cpu c
    | [] => '(w, obj) ← slab_alloc_locked mc w c; Ret (release w c, obj)
    end.
Proof. reflexivity. Qed.

Lemma alloc_slow_spec w cs cpu c l : sok w cs -> quiet w -> kalloc_ok (ka w) l -> c ∈ cs -> c <> mc -> 0 <= cpu < NCPU_MAX ->
  (forall m, loaded (c_cpu (caches w c) cpu) = Some m -> m_count (mags w m) = 0) ->
  exists w' r l', alloc_slow mc 3 w cpu c = Ret (w', r) /\ sok w' cs /\ quiet w' /\ kalloc_ok (ka w') l' /\ geo w w' /\
    gives cs w c w' r.
Proof.
  intros Hok Hq Hka Hc Hmc Hcpu Hld. rewrite alloc_slow_S. cbn zeta.
  set (k := caches w c) in *. destruct (bool_decide_reflect (count_of w (previous (c_cpu k cpu)) = Some MAG_DEPTH)) as [Hp | Hp].
  - destruct (previous (c_cpu k cpu)) as [m |] eqn:Ep; [| done]. injection Hp as Hp.
    destruct (swap_spec w cs c cpu Hok Hc Hcpu ltac:(auto)) as (H1 & H2 & Hm & Hlk & Hl & Hlv). fold k in H1, H2, Hm, Hlk, Hl, Hlv.
    rewrite Ep in H1, H2, Hm, Hlk, Hl, Hlv. set (w1 := set_cpu _ _ _ _) in *.
    destruct (alloc_hit 1 w1 cs c cpu m H1 Hc Hcpu Hl) as (w' & o & E & G1 & G2 & G3 & G4 & G5 & G6); [rewrite Hm, Hp; done |].
    exists w', (Some o), l. split; [exact E |]. split; [done |].
    split; [split; [rewrite G4; apply Hq | intros c'; rewrite G5; apply Hq] |]. split; [by rewrite G3 |].
    split; [by apply (geo_trans _ w1) |]. by apply (gives_same cs w w1).
  - destruct (full_mags k) as [| fm F] eqn:EF.
    + destruct (slab_alloc_held w cs c l Hok Hc (proj2 Hq c) Hka) as (w' & r & l' & E & H1 & H2 & _ & H3 & H4).
      { right. right. right. by apply quiet_can. }
      exists w', r, l'. split; [| split; [done |]; split; [by eapply quiet_rframe |]; split; [done |]; split; [by apply rframe_geo | done]].
      unfold acquire in E |- *. rewrite (proj2 Hq c) in E |- *. cbn [negb KASSERT mbind res_bind] in E |- *.
      cbn [caches set_lock]. fold k. rewrite EF. exact E.
    + unfold acquire. rewrite (proj2 Hq c). cbn [negb KASSERT mbind res_bind]. cbn [caches set_lock]. fold k. rewrite EF.
      destruct (refill_spec w cs c cpu Hok Hc Hcpu fm F EF Hld) as (H1 & H2 & Hl & Hm & Hlv).
      { intros m Hm Hx. fold k in Hm. rewrite Hm in Hp. apply Hp. cbn. by rewrite Hx. }
      fold k in H1, H2, Hl, Hlv. rewrite EF in H1, H2, Hl, Hlv.
      match goal with |- context [alloc_loop mc 2 ?x cpu c] => set (w2 := x) end.
      match type of H1 with sok ?x _ => set (w1 := x) in * end.
      assert (Hok2 : sok w2 cs) by (exact (sok_locks cc mc w1 (locks w2) (caches_lock w2) (ctor_calls w2) cs H1)).
      destruct (alloc_hit 1 w2 cs c cpu fm Hok2 Hc Hcpu Hl) as (w' & o & E & G1 & G2 & G3 & G4 & G5 & G6).
      { change (mags w2 fm) with (mags w fm). rewrite Hm. done. }
      exists w', (Some o), l. split; [exact E |]. split; [done |].
      split; [split; [rewrite G4; apply Hq |] |].
      { intros c'. rewrite G5. cbn. unfold upd. destruct (c' =? c); [done |]. apply Hq. }
      split; [by rewrite G3 |]. split; [by apply (geo_trans _ w1) |]. by apply (gives_same cs w w2).
Qed.

Lemma alloc_miss n w c cpu : (forall m, loaded (c_cpu (caches w c) cpu) = Some m -> m_count (mags w m) <= 0) ->
  alloc_loop mc (S n) w cpu c = alloc_slow mc n w cpu c.
Proof.
  intros H. unfold alloc_loop. fold (alloc_loop mc). fold (alloc_slow mc). destruct (loaded _) as [m |]; [| done].
  specialize (H m eq_refl). destruct (Z.gtb_spec (m_count (mags w m)) 0); [lia | done].
Qed.

Lemma kmem_cache_alloc_spec w cs cpu c l : sok w cs -> quiet w -> kalloc_ok (ka w) l -> c ∈ cs -> c <> mc -> 0 <= cpu < NCPU_MAX ->
  exists w' r l', kmem_cache_alloc mc w cpu c = Ret (w', r) /\ sok w' cs /\ quiet w' /\ kalloc_ok (ka w') l' /\ geo w w' /\
    gives cs w c w' r.
Proof.
  intros Hok Hq Hka Hc Hmc Hcpu. unfold kmem_cache_alloc. destruct (use_mag (caches w c)); cbn [negb].
  - destruct (loaded (c_cpu (caches w c) cpu)) as [m |] eqn:El.
    + destruct (Z.lt_ge_cases 0 (m_count (mags w m))) as [Hn | Hn].
      * destruct (alloc_hit 3 w cs c cpu m Hok Hc Hcpu El Hn) as (w' & o & E & G1 & G2 & G3 & G4 & G5 & G6).
        exists w', (Some o), l. split; [exact E |]. split; [done |].
        split; [split; [rewrite G4; apply Hq | intros c'; rewrite G5; apply Hq] |]. by rewrite G3.
      * rewrite alloc_miss by (rewrite El; by intros ? [= <-]). apply (alloc_slow_spec w cs cpu c l); try done.
        rewrite El. intros ? [= <-]. pose proof (mag_count_ok w cs c cpu m Hok Hc Hcpu El). lia.
    + rewrite alloc_miss by (by rewrite El). apply (alloc_slow_spec w cs cpu c l); try done. by rewrite El.
  - destruct (slab_alloc_held w cs c l Hok Hc (proj2 Hq c) Hka) as (w' & r & l' & E & H1 & H2 & _ & H3 & H4).
    { right. right. right. by apply quiet_can. }
    exists w', r, l'. split; [exact E |]. split; [done |]. split; [by eapply quiet_rframe |]. split; [done |].
    split; [by apply rframe_geo | done].
Qed.
End caches.
