(* ===== verification/SlabFree.v ===== *)
(** * The slab allocator: freeing objects and destroying caches

    The lemmas on [kmem_cache_free], [kmem_cache_create] and [kmem_cache_destroy] and,
    with those of [SlabAlloc], the theorems on the allocator as a whole. *)

From S2P Require Import Prelude Bits Mmu Physmem Kalloc Pages Slab SlabSpec SlabDepot SlabReclaim SlabAlloc.

Section caches.
Context (cc mc : Z) (Hne : cc <> mc).
Notation sok := (sok cc mc).
Notation live := (live mc).

(** ** Lemmas: the magazine layer *)

Lemma free_hit n w cs c cpu m o : sok w cs -> 0 <= cpu < NCPU_MAX -> loaded (c_cpu (caches w c) cpu) = Some m ->
  m_count (mags w m) < MAG_DEPTH -> live w cs c o ->
  exists w', free_loop mc (S n) w cpu c o = Ret w' /\ sok w' cs /\ geo w w' /\ ka w' = ka w /\
    caches_lock w' = caches_lock w /\ (forall c', locks w' c' = locks w c') /\
    forall c' o', live w' cs c' o' <-> live w cs c' o' /\ (c', o') <> (c, o).
Proof.
  intros Hok Hcpu Hl Hn Ho. pose proof Ho as (Hc & _).
  pose proof (mag_count_ok cc mc w cs c cpu m Hok Hc Hcpu Hl) as Hle. unfold MAG_DEPTH in Hle.
  destruct (mag_push cc mc w cs c cpu m o Hok Hcpu Hl Hn Ho) as [H1 H2].
  cbn [free_loop]. rewrite Hl. rewrite (proj2 (Z.ltb_lt _ _)) by done. rewrite s32_small by lia.
  eexists. split; [reflexivity |]. split; [exact H1 |]. split; [exact (geo_refl w) |]. done.
Qed.

Lemma free_miss n w c cpu o : (forall m, loaded (c_cpu (caches w c) cpu) = Some m -> MAG_DEPTH <= m_count (mags w m)) ->
  free_loop mc (S n) w cpu c o = free_slow mc n w cpu c o.
Proof.
  intros H. unfold free_loop. fold (free_loop mc). fold (free_slow mc). destruct (loaded _) as [m |]; [| done].
  specialize (H m eq_refl). destruct (Z.ltb_spec (m_count (mags w m)) MAG_DEPTH); [lia | done].
Qed.

Lemma free_slow_S n w cpu c obj : free_slow mc (S n) w cpu c obj =
  let cc := c_cpu (caches w c) cpu in
  if bool_decide (count_of w (previous cc) = Some 0)
  then free_loop mc n (set_cpu w c cpu (CpuCache (previous cc) (loaded cc))) cpu c obj
  else
    w ← acquire w c;
    let k := caches w c in
    '(w, em) ← match empty_mags k with
               | em :: _ =>
                   Ret (set_cache w c (set_depot k (without em (full_mags k)) (without em (empty_mags k)) (c_cpu k)), Some em)
               | [] =>
                   '(w, r) ← kmem_cache_alloc mc w cpu mc;
                   Ret match r with
                       | None => (w, None)
                       | Some em => (set_mag w em (Magazine 0 (m_objs (mags w em))), Some em)
                       end
               end;
    match em with
    | None => w ← slab_free_locked w c obj; Ret (release w c)
    | Some em =>
        let k := caches w c in
        let cc := c_cpu k cpu in
        let w := set_cache w c (set_depot k (insert_opt (previous cc) (full_mags k)) (empty_mags k)
                                  ((c_cpu k).[cpu <- CpuCache (Some em) (loaded cc)])) in
        free_loop mc n (release w c) cpu c obj
    end.
Proof. reflexivity. Qed.

Section cpu.
Context (w : world) (cs : list Z) (c cpu : Z) (Hok : sok w cs) (Hc : c ∈ cs) (Hcpu : 0 <= cpu < NCPU_MAX).
Notation k := (caches w c).
Notation ld := (loaded (c_cpu k cpu)).
Notation pv := (previous (c_cpu k cpu)).
Context (Hld : forall m, ld = Some m -> m_count (mags w m) = MAG_DEPTH) (Hpv : forall m, pv = Some m -> m_count (mags w m) <> 0).

(** [cpu]'s full magazines move up behind the empty magazine [em]. *)
Lemma stash_perm em : opt_list pv ++ flat_map (fun j => cpu_mags ((c_cpu k).[cpu <- CpuCache (Some em) ld] j)) (seqZ 0 NCPU_MAX)
  ≡ₚ em :: flat_map (fun j => cpu_mags (c_cpu k j)) (seqZ 0 NCPU_MAX).
Proof.
  pose proof (cpu_mags_change k cpu (CpuCache (Some em) ld) Hcpu) as P. unfold cpu_mags at 1 3 in P.
  cbn [loaded previous opt_list app] in P. rewrite <- app_assoc in P.
  rewrite Permutation_middle in P. by apply Permutation_app_inv_l in P.
Qed.

Lemma stash_counts em F E : (forall m, m ∈ F -> m ∈ full_mags k) -> (forall m, m ∈ E -> m ∈ empty_mags k) ->
  m_count (mags w em) = 0 -> counts_ok (mags w) (set_depot k (insert_opt pv F) E (c_cpu k).[cpu <- CpuCache (Some em) ld]).
Proof.
  intros HF HE Hem. pose proof (mg_counts _ _ (so_mags _ _ _ _ Hok c Hc)) as Hcnt. pose proof Hcnt as [C1 C2 C3 C4].
  apply counts_cpu; cbn [loaded previous]; [done | | auto | | auto].
  - intros m Hm. destruct pv as [y |] eqn:Ey; cbn [insert_opt] in Hm; [| auto].
    apply elem_of_cons in Hm as [-> | Hm]; [| auto]. destruct (C4 cpu y Hcpu Ey); [| done]. by destruct (Hpv y eq_refl).
  - intros m [= <-]. rewrite Hem. unfold MAG_DEPTH. lia.
Qed.

Lemma insert_opt_list F : insert_opt pv F = opt_list pv ++ F.
Proof. by destruct pv. Qed.

(** With a magazine of the depot. *)
Lemma stash_depot em E : empty_mags k = em :: E ->
  let w' := set_cache w c (set_depot k (insert_opt pv (without em (full_mags k))) (without em (empty_mags k))
              (c_cpu k).[cpu <- CpuCache (Some em) ld]) in
  sok w' cs /\ m_count (mags w em) = 0 /\ forall c' o, live w' cs c' o <-> live w cs c' o.
Proof.
  intros EE w'. destruct (so_mags _ _ _ _ Hok c Hc) as [[C1 C2 C3 C4] Hnd _ _].
  assert (Hem : m_count (mags w em) = 0) by (apply C2; rewrite EE; left).
  assert (Hn : (em ∉ E) /\ (em ∉ full_mags k)).
  { unfold mags_of in Hnd. rewrite EE in Hnd. apply NoDup_app in Hnd as (_ & Hd & Hnd).
    apply NoDup_app in Hnd as (Hnd & _). apply NoDup_cons in Hnd as [? _]. split; [done |]. intros Hx.
    apply (Hd em Hx). left. }
  unfold w'. rewrite EE, without_head, (without_notin em (full_mags k)) by apply Hn.
  destruct (depot_shrink cc mc w cs c (insert_opt pv (full_mags k)) E ((c_cpu k).[cpu <- CpuCache (Some em) ld]) Hok Hc []) as [H1 H2].
  - unfold mags_of. cbn [app set_depot full_mags empty_mags c_cpu]. rewrite EE, insert_opt_list. symmetry.
    rewrite <- app_assoc, (Permutation_app_comm (opt_list pv)), <- !app_assoc. apply Permutation_app_head.
    rewrite (Permutation_app_comm _ (opt_list pv)), (stash_perm em). cbn [app]. by rewrite Permutation_middle.
  - apply stash_counts; [done | | done]. intros m Hm. rewrite EE. by right.
  - split; [exact H1 |]. split; [done |]. intros c' o. rewrite H2. cbn [flat_map].
    split; [| tauto]. intros [? | [[_ ?%elem_of_nil] | [_ ?%elem_of_nil]]]; done.
Qed.

(** With a magazine in hand. *)
Lemma stash_new em : live w cs mc em -> m_count (mags w em) = 0 -> use_mag k = true ->
  let w' := set_cache w c (set_depot k (insert_opt pv (full_mags k)) (empty_mags k)
              (c_cpu k).[cpu <- CpuCache (Some em) ld]) in
  sok w' cs /\ forall c' o, live w' cs c' o <-> live w cs c' o /\ (c', o) <> (mc, em).
Proof.
  intros Hl Hem Hu w'.
  apply (depot_add cc mc w cs c (insert_opt pv (full_mags k)) (empty_mags k) ((c_cpu k).[cpu <- CpuCache (Some em) ld]) Hok Hc em);
    [| by apply stash_counts | done | done | done].
  unfold mags_of. cbn [app set_depot full_mags empty_mags c_cpu]. rewrite insert_opt_list.
  rewrite <- app_assoc, (Permutation_app_comm (opt_list pv)), <- !app_assoc.
  rewrite (Permutation_app_comm _ (opt_list pv)), (stash_perm em), !app_assoc. by rewrite Permutation_middle.
Qed.
End cpu.

(** Freeing into cache [c] may need a magazine. That cannot fail when [magazine_cache]
    has a slot or a page is free; it can when growing [magazine_cache] makes the page
    allocator reclaim, unless no other cache has a magazine in its depot. *)
Definition mag_room (w : world) (cs : list Z) (c : Z) : Prop :=
  ~ kalloc_ok (ka w) [] \/ partial (caches w mc) <> [] \/ empty (caches w mc) <> [] \/
  forall c', c' ∈ cs -> c' <> c -> full_mags (caches w c') = [] /\ empty_mags (caches w c') = [].

(** What freeing [o] of [c] does, from state [w]. *)
Definition frees (cs : list Z) (w : world) (c o : Z) (w' : world) : Prop :=
  sok w' cs /\ quiet w' /\ (exists l', kalloc_ok (ka w') l') /\ geo w w' /\
  forall c' o', live w' cs c' o' <-> live w cs c' o' /\ (c', o') <> (c, o).

(** Pushing into the magazine just loaded, the lock of [c] released. *)
Lemma free_stashed n w w1 cs c cpu o em l : sok w1 cs -> geo w w1 -> kalloc_ok (ka w1) l -> caches_lock w1 = false ->
  (forall c', c' <> c -> locks w1 c' = false) -> 0 <= cpu < NCPU_MAX ->
  loaded (c_cpu (caches w1 c) cpu) = Some em -> m_count (mags w1 em) = 0 -> live w cs c o ->
  (forall c' o', live w1 cs c' o' <-> live w cs c' o') ->
  exists w', free_loop mc (S n) (release w1 c) cpu c o = Ret w' /\ frees cs w c o w'.
Proof.
  intros Hok Hg Hka Hcl Hlk Hcpu Hl Hem Ho Hlv.
  destruct (free_hit n (release w1 c) cs c cpu em o) as (w' & E & G1 & G2 & G3 & G4 & G5 & G6).
  - by apply sok_locks.
  - done.
  - exact Hl.
  - change (mags (release w1 c) em) with (mags w1 em). rewrite Hem. done.
  - change (live w1 cs c o). by apply Hlv.
  - exists w'. split; [exact E |]. split; [done |]. split; [split; [by rewrite G4 |] |].
    + intros c'. rewrite G5. cbn [release set_lock locks]. unfold upd. destruct (Z.eqb_spec c' c); [done |]. by apply Hlk.
    + split; [exists l; by rewrite G3 |]. split; [apply (geo_trans _ w1); [done | exact G2] |].
      intros c' o'. rewrite G6. change (live (release w1 c) cs c' o') with (live w1 cs c' o'). by rewrite Hlv.
Qed.

(** A magazine for [c] from [magazine_cache], the lock of [c] held. *)
Lemma mag_alloc_spec w cs cpu c l : sok w cs -> quiet w -> kalloc_ok (ka w) l -> c <> mc -> mag_room w cs c ->
  exists w' r l', kmem_cache_alloc mc (set_lock w c true) cpu mc = Ret (w', r) /\ sok w' cs /\ rframe (set_lock w c true) w' /\
    keeps cs w w' /\ kalloc_ok (ka w') l' /\ gives mc cs w mc w' r.
Proof.
  intros Hok [Hq1 Hq2] Hka Hcm Hroom. destruct (so_static _ _ _ _ Hok mc ltac:(by right)) as (Hmc & Hu & _).
  unfold kmem_cache_alloc. change (use_mag (caches (set_lock w c true) mc)) with (use_mag (caches w mc)). rewrite Hu. cbn [negb].
  destruct (slab_alloc_held cc mc Hne (set_lock w c true) cs mc l) as (w' & r & l' & E & H1 & H2 & H3 & H4 & H5); try done.
  - by apply sok_locks.
  - cbn [set_lock locks]. rewrite upd_ne by done. apply Hq2.
  - change (caches (set_lock w c true) mc) with (caches w mc). destruct Hroom as [Hr | [Hr | [Hr | Hr]]]; [| by left | by right; left |].
    + right. right. left. by intros ->.
    + do 3 right. intros _ c' Hc' Hlk. change (caches (set_lock (set_lock w c true) mc true) c') with (caches w c').
      apply Hr; [by apply (so_list _ _ _ _ Hok) |]. intros ->. cbn [set_lock locks] in Hlk. rewrite upd_ne, upd_eq in Hlk by done. discriminate.
  - exists w', r, l'. split; [exact E |]. done.
Qed.

(** Whether there is room or not, it comes back right or not at all. *)
Lemma mag_alloc_cases w cs cpu c l : sok w cs -> quiet w -> kalloc_ok (ka w) l -> c <> mc ->
  (exists w' r l', kmem_cache_alloc mc (set_lock w c true) cpu mc = Ret (w', r) /\ sok w' cs /\ rframe (set_lock w c true) w' /\
    keeps cs w w' /\ kalloc_ok (ka w') l' /\ gives mc cs w mc w' r) \/
  exists s, kmem_cache_alloc mc (set_lock w c true) cpu mc = Panic s.
Proof.
  intros Hok [Hq1 Hq2] Hka Hcm. destruct (so_static _ _ _ _ Hok mc ltac:(by right)) as (Hmc & Hu & _).
  destruct (kmem_cache_alloc mc (set_lock w c true) cpu mc) as [[w0 r0] | s] eqn:Ea; [left | right; by exists s]. rewrite <- Ea.
  unfold kmem_cache_alloc in Ea |- *. change (use_mag (caches (set_lock w c true) mc)) with (use_mag (caches w mc)) in *. rewrite Hu in *. cbn [negb] in *.
  apply (slab_alloc_held cc mc Hne (set_lock w c true) cs mc l); try done.
  - by apply sok_locks.
  - cbn [set_lock locks]. rewrite upd_ne by done. apply Hq2.
  - change (caches (set_lock w c true) mc) with (caches w mc). destruct (partial (caches w mc)) as [| s p] eqn:Ep; [| by left].
    destruct (empty (caches w mc)) as [| s e] eqn:Ee; [| by right; left]. destruct l as [| i l]; [do 3 right | by do 2 right; left].
    assert (Hlk : locks (set_lock w c true) mc = false) by (cbn [set_lock locks]; rewrite upd_ne by done; apply Hq2).
    unfold acquire in Ea. rewrite Hlk in Ea. cbn [negb KASSERT mbind res_bind] in Ea. set (w1 := set_lock (set_lock w c true) mc true) in *.
    unfold slab_alloc_locked, slab_pick in Ea. change (caches w1 mc) with (caches w mc) in Ea. rewrite Ep, Ee in Ea. unfold slab_grow in Ea.
    unfold kpage_alloc, w_pop in Ea. cbn [w_ka w_set_ka slab_reclaim Kalloc.kmem_reclaim] in Ea. rewrite (freelist_pop_spec _ [] Hka : freelist_pop (ka w1) = (ka w1, None)) in Ea.
    rewrite set_ka_id in Ea. destruct (kmem_reclaim mc w1) as [r |] eqn:Er; [| done].
    assert (Hm : locks w1 mc = true) by (cbn [w1 set_lock locks]; by rewrite upd_eq).
    exact (kmem_reclaim_stuck mc w1 r Hm Hq1 Er).
Qed.

(** The previous magazine is empty: the two change places. *)
Lemma free_swapped w cs cpu c l o m : sok w cs -> quiet w -> kalloc_ok (ka w) l -> live w cs c o -> 0 <= cpu < NCPU_MAX ->
  (forall m, loaded (c_cpu (caches w c) cpu) = Some m -> m_count (mags w m) = MAG_DEPTH) ->
  previous (c_cpu (caches w c) cpu) = Some m -> m_count (mags w m) = 0 ->
  exists w', free_loop mc 2 (set_cpu w c cpu (CpuCache (Some m) (loaded (c_cpu (caches w c) cpu)))) cpu c o = Ret w' /\ frees cs w c o w'.
Proof.
  intros Hok Hq Hka Ho Hcpu Hld Ep Hp. pose proof Ho as (Hc & _). destruct (swap_spec cc mc w cs c cpu Hok Hc Hcpu ltac:(auto)) as (H1 & H2 & Hm & Hlk & Hl & Hlv).
  rewrite Ep in H1, H2, Hm, Hlk, Hl, Hlv. set (w1 := set_cpu _ _ _ _) in *.
  destruct (free_hit 1 w1 cs c cpu m o H1 Hcpu Hl) as (w' & E & G1 & G2 & G3 & G4 & G5 & G6).
  { by rewrite Hm, Hp. }
  { by apply Hlv. }
  exists w'. split; [exact E |]. split; [done |]. split; [split; [rewrite G4; apply Hq | intros c'; rewrite G5; apply Hq] |].
  split; [exists l; by rewrite G3 |]. split; [by apply (geo_trans _ w1) |]. intros c' o'. by rewrite G6, Hlv.
Qed.

(** No magazine to be had: the object goes back to its slab. *)
Lemma free_no_mag w w1 cs c o l1 : quiet w -> live w cs c o -> c <> cc -> sok w1 cs -> rframe (set_lock w c true) w1 -> kalloc_ok (ka w1) l1 ->
  (forall c' o', live w1 cs c' o' <-> live w cs c' o') ->
  exists w', (w2 ← slab_free_locked w1 c o; Ret (release w2 c)) = Ret w' /\ frees cs w c o w'.
Proof.
  intros Hq Ho Hcc H1 H2 H4 Hlv. destruct (sok_free cc mc w1 cs c o H1 ltac:(by apply Hlv) ltac:(done)) as (w2 & -> & K1 & K2 & K3 & K4 & _ & K5).
  cbn [mbind res_bind]. exists (release w2 c). split; [done |]. split; [by apply sok_locks |]. split; [split |].
  - cbn [release set_lock caches_lock]. rewrite (fr_clock _ _ K2), (rf_clock _ _ H2). apply Hq.
  - intros c'. cbn [release set_lock locks]. unfold upd. destruct (Z.eqb_spec c' c) as [-> |]; [done |].
    rewrite (fr_locks _ _ K2), (rf_locks _ _ H2). cbn [set_lock locks]. rewrite upd_ne by done. apply Hq.
  - split; [exists l1; cbn [release set_lock ka]; by rewrite K3 |].
    split; [exact (geo_trans w w1 w2 (rframe_geo _ _ H2) (rframe_geo _ _ (frame_rframe _ _ K2))) |].
    intros c' o'. change (live (release w2 c) cs c' o') with (live w2 cs c' o'). by rewrite K5, Hlv.
Qed.

(** The magazine [em] just allocated becomes the loaded one. *)
Lemma free_new_mag w w1 cs cpu c o em l1 : quiet w -> live w cs c o -> 0 <= cpu < NCPU_MAX -> use_mag (caches w c) = true ->
  (forall m, loaded (c_cpu (caches w c) cpu) = Some m -> m_count (mags w m) = MAG_DEPTH) ->
  (forall m, previous (c_cpu (caches w c) cpu) = Some m -> m_count (mags w m) <> 0) ->
  sok w1 cs -> rframe (set_lock w c true) w1 -> keeps cs w w1 -> kalloc_ok (ka w1) l1 -> gives mc cs w mc w1 (Some em) ->
  let w2 := set_mag w1 em (Magazine 0 (m_objs (mags w1 em))) in
  let k := caches w2 c in
  let w3 := set_cache w2 c (set_depot k (insert_opt (previous (c_cpu k cpu)) (full_mags k)) (empty_mags k) ((c_cpu k).[cpu <- CpuCache (Some em) (loaded (c_cpu k cpu))])) in
  exists w', free_loop mc 2 (release w3 c) cpu c o = Ret w' /\ frees cs w c o w'.
Proof.
  intros Hq Ho Hcpu Hu Hld Hpv H1 H2 H3 H4 [Hfr Hlv]. pose proof Ho as (Hc & _). assert (Hem : live w1 cs mc em) by (apply Hlv; by right).
  destruct (set_mag_held cc mc w1 cs em (Magazine 0 (m_objs (mags w1 em))) H1 Hem) as [H1' Hlv'].
  intros w2. fold w2 in H1', Hlv'. change (caches w2) with (caches w1). cbn zeta.
  assert (Ec : c_cpu (caches w1 c) = c_cpu (caches w c) /\ use_mag (caches w1 c) = true).
  { by destruct (rf_caches _ _ H2 c) as (p & f & e & F & E & -> & _). }
  destruct Ec as [Ecpu Eu].
  assert (Hmk : forall m, loaded (c_cpu (caches w1 c) cpu) = Some m \/ previous (c_cpu (caches w1 c) cpu) = Some m -> mags w2 m = mags w m).
  { intros m Hm. rewrite Ecpu in Hm. unfold w2. cbn [set_mag mags]. rewrite upd_ne.
    - apply H3. exists c, cpu. done.
    - intros ->. apply (proj2 (proj2 (proj2 Hem)) eq_refl c Hc), mags_of_in. right. right. exists cpu. by rewrite Ecpu. }
  destruct (stash_new w2 cs c cpu H1' Hc Hcpu) with (em := em) as [G1 G2].
  { intros m Hm. rewrite Hmk by by left. apply Hld. by rewrite <- Ecpu. }
  { intros m Hm. rewrite Hmk by by right. apply Hpv. by rewrite <- Ecpu. }
  { by apply Hlv'. }
  { unfold w2. cbn [set_mag mags]. by rewrite upd_eq. }
  { done. }
  change (caches w2 c) with (caches w1 c) in G1, G2. set (w3 := set_cache w2 c _) in *.
  apply (free_stashed 1 w w3 cs c cpu o em l1); try done.
  - apply (geo_trans _ w1); [exact (rframe_geo _ _ H2) | exact (geo_depot w2 c _ _ _)].
  - change (caches_lock w3) with (caches_lock w1). rewrite (rf_clock _ _ H2). apply Hq.
  - intros c' Hn. change (locks w3 c') with (locks w1 c'). rewrite (rf_locks _ _ H2). cbn [set_lock locks].
    rewrite upd_ne by done. apply Hq.
  - unfold w3. cbn [set_cache caches]. rewrite upd_eq. cbn [set_depot c_cpu]. by rewrite upd_eq.
  - change (mags w3 em) with (mags w2 em). unfold w2. cbn [set_mag mags]. by rewrite upd_eq.
  - intros c' o'. rewrite G2, Hlv', Hlv. split; [intros [[? | ?] ?]; done |]. intros Hx. split; [by left |].
    intros [= -> ->]. by apply (Hfr mc).
Qed.

(** The magazine a free needs is not to be had: growing [magazine_cache] stops. *)
Definition mag_stuck (w : world) (cpu c : Z) : Prop := exists s, kmem_cache_alloc mc (set_lock w c true) cpu mc = Panic s.

Lemma free_slow_spec w cs cpu c l o : sok w cs -> quiet w -> kalloc_ok (ka w) l -> live w cs c o -> c <> mc -> c <> cc ->
  0 <= cpu < NCPU_MAX -> use_mag (caches w c) = true ->
  (forall m, loaded (c_cpu (caches w c) cpu) = Some m -> m_count (mags w m) = MAG_DEPTH) ->
  (exists w', free_slow mc 3 w cpu c o = Ret w' /\ frees cs w c o w') \/ mag_stuck w cpu c /\ exists s, free_slow mc 3 w cpu c o = Panic s.
Proof.
  intros Hok Hq Hka Ho Hcm Hcc Hcpu Hu Hld. pose proof Ho as (Hc & _). rewrite free_slow_S. cbn zeta.
  destruct (bool_decide_reflect (count_of w (previous (c_cpu (caches w c) cpu)) = Some 0)) as [Hp | Hp].
  - destruct (previous (c_cpu (caches w c) cpu)) as [m |] eqn:Ep; [| done]. injection Hp as Hp. left. by apply (free_swapped w cs cpu c l o m).
  - assert (Hpv : forall m, previous (c_cpu (caches w c) cpu) = Some m -> m_count (mags w m) <> 0).
    { intros m Hm Hx. rewrite Hm in Hp. apply Hp. cbn. by rewrite Hx. }
    unfold acquire. rewrite (proj2 Hq c). cbn [negb KASSERT mbind res_bind].
    change (caches (set_lock w c true) c) with (caches w c). destruct (empty_mags (caches w c)) as [| em E] eqn:EE.
    + destruct (mag_alloc_cases w cs cpu c l Hok Hq Hka Hcm) as [(w1 & r & l1 & E1 & H1 & H2 & H3 & H4 & H5) | [s Es]].
      2: { right. split; [by exists s |]. exists s. by rewrite Es. }
      left. rewrite E1. cbn [mbind res_bind]. destruct r as [em |]; cbn [mbind res_bind].
      * by apply (free_new_mag w w1 cs cpu c o em l1).
      * by apply (free_no_mag w w1 cs c o l1); [.. | apply H5].
    + left. cbn [mbind res_bind]. destruct (stash_depot w cs c cpu Hok Hc Hcpu Hld Hpv em E EE) as (G1 & Hem & G2).
      cbn [caches set_cache]. rewrite upd_eq. cbn [set_depot full_mags empty_mags c_cpu]. rewrite EE in G1, G2.
      set (w1 := set_cache w c _) in *.
      match goal with |- context [release ?x c] => assert (Ex : x = set_lock w1 c true) end.
      { unfold w1, set_cache, set_lock. cbn [ka slabs mags caches kmem_caches locks caches_lock ctor_calls]. by rewrite upd_upd. }
      rewrite Ex. apply (free_stashed 1 w (set_lock w1 c true) cs c cpu o em l); try done.
      * by apply sok_locks.
      * exact (geo_depot w c _ _ _).
      * apply Hq.
      * intros c' Hn. cbn [set_lock locks]. rewrite upd_ne by done. apply Hq.
      * unfold w1. cbn [set_lock set_cache caches]. rewrite upd_eq. cbn [set_depot c_cpu]. by rewrite upd_eq.
Qed.

(** A cache without magazines. *)
Lemma kmem_cache_free_nomag w cs cpu c l o : sok w cs -> quiet w -> kalloc_ok (ka w) l -> live w cs c o -> (c = cc -> o ∉ cs) ->
  use_mag (caches w c) = false ->
  exists w', kmem_cache_free mc w cpu c o = Ret w' /\ frees cs w c o w'.
Proof.
  intros Hok Hq Hka Ho Hcc Hu. unfold kmem_cache_free. rewrite Hu. cbn [negb].
  unfold kmem_cache_free_slab, acquire. rewrite (proj2 Hq c). cbn [negb KASSERT mbind res_bind].
  destruct (sok_free cc mc (set_lock w c true) cs c o) as (w1 & -> & K1 & K2 & K3 & K4 & _ & K5); [by apply sok_locks | done | done |].
  cbn [mbind res_bind]. exists (release w1 c). split; [done |]. split; [by apply sok_locks |]. split; [split |].
  - cbn [release set_lock caches_lock]. rewrite (fr_clock _ _ K2). apply Hq.
  - intros c'. cbn [release set_lock locks]. unfold upd. destruct (Z.eqb_spec c' c) as [-> |]; [done |].
    rewrite (fr_locks _ _ K2). cbn [set_lock locks]. rewrite upd_ne by done. apply Hq.
  - split; [exists l; cbn [release set_lock ka]; by rewrite K3 |].
    split; [exact (rframe_geo _ _ (frame_rframe _ _ K2)) | exact K5].
Qed.

(** It frees the object, or stops where no magazine is to be had. *)
Lemma kmem_cache_free_cases w cs cpu c l o : sok w cs -> quiet w -> kalloc_ok (ka w) l -> live w cs c o -> c <> mc ->
  (c = cc -> o ∉ cs) -> 0 <= cpu < NCPU_MAX ->
  (exists w', kmem_cache_free mc w cpu c o = Ret w' /\ frees cs w c o w') \/ mag_stuck w cpu c /\ exists s, kmem_cache_free mc w cpu c o = Panic s.
Proof.
  intros Hok Hq Hka Ho Hcm Hcc Hcpu. pose proof Ho as (Hc & _).
  destruct (use_mag (caches w c)) eqn:Hu; [| left; by apply (kmem_cache_free_nomag w cs cpu c l)].
  unfold kmem_cache_free. rewrite Hu. cbn [negb].
  assert (Hncc : c <> cc).
  { intros E. destruct (so_static _ _ _ _ Hok cc ltac:(by left)) as (_ & Hx & _). congruence. }
  destruct (loaded (c_cpu (caches w c) cpu)) as [m |] eqn:El.
  - destruct (Z.lt_ge_cases (m_count (mags w m)) MAG_DEPTH) as [Hn | Hn].
    + destruct (free_hit 3 w cs c cpu m o Hok Hcpu El Hn Ho) as (w' & E & G1 & G2 & G3 & G4 & G5 & G6).
      left. exists w'. split; [exact E |]. split; [done |].
      split; [split; [rewrite G4; apply Hq | intros c'; rewrite G5; apply Hq] |]. split; [exists l; by rewrite G3 | done].
    + rewrite free_miss by (rewrite El; by intros ? [= <-]). apply (free_slow_spec w cs cpu c l o); try done.
      rewrite El. intros ? [= <-]. pose proof (mag_count_ok cc mc w cs c cpu m Hok Hc Hcpu El). lia.
  - rewrite free_miss by (by rewrite El). apply (free_slow_spec w cs cpu c l o); try done. by rewrite El.
Qed.

Lemma kmem_cache_free_spec w cs cpu c l o : sok w cs -> quiet w -> kalloc_ok (ka w) l -> live w cs c o -> c <> mc ->
  (c = cc -> o ∉ cs) -> 0 <= cpu < NCPU_MAX -> mag_room w cs c ->
  exists w', kmem_cache_free mc w cpu c o = Ret w' /\ frees cs w c o w'.
Proof.
  intros Hok Hq Hka Ho Hcm Hcc Hcpu Hroom. destruct (kmem_cache_free_cases w cs cpu c l o Hok Hq Hka Ho Hcm Hcc Hcpu) as [? | [[s Es] _]]; [done |].
  destruct (mag_alloc_spec w cs cpu c l Hok Hq Hka Hcm Hroom) as (w1 & r & l1 & E1 & _). rewrite E1 in Es. discriminate.
Qed.

(** The header at the base of an object's page names its cache. *)
Lemma live_header w cs c o : sok w cs -> live w cs c o -> s_cache (slabs w (PGROUNDDW o)) = c.
Proof.
  intros Hok (Hc & Ht & _). pose proof (so_slabs _ _ _ _ Hok c Hc) as Hsl.
  destruct (taken_slot w c o Hsl Ht) as (i & Hs & _). apply (sl_cache _ _ _ (sc_slab _ _ Hsl _ Hs)).
Qed.

(** Objects in clients' hands lie in slab pages behind the header and do not overlap. *)
Lemma live_apart w cs c o c' o' : sok w cs -> live w cs c o -> live w cs c' o' -> (c, o) <> (c', o') ->
  o + objsize (caches w c) <= o' \/ o' + objsize (caches w c') <= o.
Proof.
  intros Hok (Hc & Ht & _) (Hc' & Ht' & _) Hn. pose proof (so_slabs _ _ _ _ Hok) as Hsl.
  destruct (taken_slot w c o (Hsl c Hc) Ht) as (i & Hs & Hi & E & _).
  destruct (taken_slot w c' o' (Hsl c' Hc') Ht') as (i' & Hs' & Hi' & E' & _).
  pose proof (sl_page _ _ _ (sc_slab _ _ (Hsl c Hc) _ Hs)) as Hp. pose proof (sl_page _ _ _ (sc_slab _ _ (Hsl c' Hc') _ Hs')) as Hp'.
  pose proof (sc_geom _ _ (Hsl c Hc)) as Hg. pose proof (sc_geom _ _ (Hsl c' Hc')) as Hg'.
  set (s := PGROUNDDW o) in *. set (s' := PGROUNDDW o') in *.
  destruct (decide (s = s')) as [Es | Es].
  - rewrite <- Es in *. assert (c = c') as <-.
    { destruct (decide (c = c')); [done |]. by destruct (other_slabs w c c' s (Hsl c Hc) (Hsl c' Hc')). }
    rewrite (slab_obj_eq _ _ _ Hg Hp Hi) in E. rewrite (slab_obj_eq _ _ _ Hg Hp Hi') in E'. destruct Hg as (Hpos & _).
    assert (i <> i') by (intros <-; apply Hn; congruence). rewrite E, E'. nia.
  - destruct (slab_obj_range _ _ _ Hg Hp Hi), (slab_obj_range _ _ _ Hg' Hp' Hi'). rewrite <- E, <- E' in *.
    destruct Hp as [_ Hm], Hp' as [_ Hm']. unfold sizeof_slab in *. clear - Es Hm Hm' H H0 H1 H2.
    assert (s + 4096 <= s' \/ s' + 4096 <= s) by (Z.div_mod_to_equations; lia). lia.
Qed.

Lemma live_place w cs c o : sok w cs -> live w cs c o ->
  let s := PGROUNDDW o in
  page_flags (ka w) (KVA_TO_PA s) = Some PG_SLAB /\ s + sizeof_slab <= o /\ o + objsize (caches w c) <= s + 4096.
Proof.
  intros Hok (Hc & Ht & _) s. pose proof (so_slabs _ _ _ _ Hok c Hc) as Hsl.
  destruct (taken_slot w c o Hsl Ht) as (i & Hs & Hi & E & _). fold s in Hs, E. destruct (sc_slab _ _ Hsl s Hs) as [Hp Hf _ _ _].
  split; [done |]. rewrite E. apply slab_obj_range; [apply Hsl | done | done].
Qed.

(** ** Lemmas: creating a cache *)

(** The layout [cache_setup] computes. *)
Definition up (x a : Z) : Z := (x + a - 1) / a * a.

Lemma round_align_eq x j : 0 <= j <= 11 -> 0 <= x < 2 ^ 63 -> round_align x (2 ^ j) = up x (2 ^ j).
Proof.
  intros Hj Hx. unfold round_align, up, not64. assert (1 <= 2 ^ j <= 2 ^ 11) by (split; [| apply Z.pow_le_mono_r; lia]; pose proof (Z.pow_pos_nonneg 2 j); lia).
  rewrite (u64_small (x + 2 ^ j)) by lia. rewrite (u64_small (x + 2 ^ j - 1)) by lia.
  rewrite land_u64 by lia. replace (2 ^ j - 1) with (Z.ones j) by (rewrite Z.ones_equiv; lia). apply land_lnot_ones. lia.
Qed.

Definition real_align (align : Z) : Z := if align <? KMEM_MIN_ALIGN then KMEM_MIN_ALIGN else align.

(** A power of two that leaves room for objects, or 0. *)
Definition good_align (align : Z) : Prop := align = 0 \/ exists j, 0 <= j <= 11 /\ align = 2 ^ j.

Lemma real_align_pow align : good_align align -> exists j, 4 <= j <= 11 /\ real_align align = 2 ^ j.
Proof.
  unfold real_align, KMEM_MIN_ALIGN. intros [-> | (j & Hj & ->)]; [by exists 4 |].
  destruct (Z.ltb_spec (2 ^ j) 16) as [H | H]; [by exists 4 |]. exists j. split; [| done].
  assert (~ j < 4); [| lia]. intros Hlt. assert (2 ^ j <= 2 ^ 3) by (apply Z.pow_le_mono_r; lia). lia.
Qed.

Lemma up_spec x a : 0 < a -> x <= up x a < x + a /\ up x a mod a = 0.
Proof.
  intros Ha. unfold up. split; [| apply Z.mod_mul; lia].
  pose proof (Z.div_mod (x + a - 1) a ltac:(lia)). pose proof (Z.mod_pos_bound (x + a - 1) a Ha). nia.
Qed.

Lemma up_slab j : 4 <= j <= 11 -> 64 <= up 64 (2 ^ j) <= 2048 /\ up 64 (2 ^ j) mod 2 ^ j = 0.
Proof.
  intros Hj. assert (j = 4 \/ j = 5 \/ j = 6 \/ j = 7 \/ j = 8 \/ j = 9 \/ j = 10 \/ j = 11) as H by lia.
  destruct H as [-> | [-> | [-> | [-> | [-> | [-> | [-> | ->]]]]]]]; vm_compute; intuition discriminate.
Qed.

Definition fresh_cache (k : kmem_cache) : Prop :=
  partial k = [] /\ full k = [] /\ empty k = [] /\ full_mags k = [] /\ empty_mags k = [] /\
  forall i, c_cpu k i = CpuCache None None.

Lemma cache_setup_spec w c size align ct um : 0 < size < 2 ^ 63 -> good_align align ->
  let k := caches (cache_setup w c size align ct um) c in
  fresh_cache k /\ use_mag k = um /\ objsize k = up size (real_align align) /\ obj_offset k = up 64 (real_align align) /\
  (slots_per_slab k = 0 <-> PGSIZE < obj_offset k + objsize k) /\ (slots_per_slab k <> 0 -> geom k).
Proof.
  intros Hs Ha k. destruct (real_align_pow align Ha) as (j & Hj & Ej). pose proof (up_slab j Hj) as [Hoff _].
  assert (Hp : 16 <= 2 ^ j <= 2048).
  { split; [change 16 with (2 ^ 4) | change 2048 with (2 ^ 11)]; apply Z.pow_le_mono_r; lia. }
  pose proof (up_spec size (2 ^ j) ltac:(lia)) as [Hup Hmod].
  apply Z.mod_divide in Hmod as [q Eq]; [| lia]. assert (Hsz : 16 <= up size (2 ^ j)).
  { assert (0 < q) by nia. rewrite Eq. nia. }
  clear q Eq.
  unfold k, cache_setup. cbn [caches set_lock set_cache]. rewrite upd_eq. fold (real_align align). rewrite Ej.
  unfold sizeof_slab. rewrite !round_align_eq by lia.
  set (off := up 64 (2 ^ j)) in *. set (sz := up size (2 ^ j)) in *.
  cbn [use_mag objsize obj_offset slots_per_slab]. unfold PGSIZE. rewrite (u64_small (4096 - off)), (u32_small off) by lia.
  assert (Hq : 0 <= (4096 - off) / sz <= 252).
  { split; [apply Z.div_pos; lia |]. apply Z.le_trans with ((4096 - off) / 16); [apply Z.div_le_compat_l; lia |].
    apply Z.div_le_upper_bound; lia. }
  rewrite u32_small by lia. split; [by repeat split |]. do 3 (split; [done |]).
  pose proof (Z.div_mod (4096 - off) sz ltac:(lia)). pose proof (Z.mod_pos_bound (4096 - off) sz ltac:(lia)).
  split; [split; intros; nia |]. intros Hn. unfold geom, SLAB_MAX_OBJS, sizeof_slab, PGSIZE, KMEM_MIN_ALIGN. cbn [objsize obj_offset slots_per_slab].
  change (4096 / 16) with 256. split; [lia |]. split; [lia |]. split; [lia |]. nia.
Qed.
End caches.
