(* ===== verification/SlabCreate.v ===== *)
(** * The slab allocator: initialisation and creating a cache

    [kmem_init] establishes the invariant with the two static caches;
    [kmem_cache_create] adds one. *)

From S2P Require Import Prelude Bits Mmu Physmem Kalloc Pages Slab SlabSpec SlabDepot SlabReclaim SlabAlloc SlabFree.

Section caches.
Context (cc mc : Z) (Hne : cc <> mc).
Notation sok := (sok cc mc).
Notation live := (live mc).

(** ** Lemmas: caches coming into being *)

(** The invariant reads only the caches that exist. *)
Lemma sok_ext w w' cs : sok w cs -> ka w' = ka w -> slabs w' = slabs w -> mags w' = mags w ->
  (forall c, c ∈ cs -> caches w' c = caches w c) -> (forall c, c ∈ kmem_caches w' -> c ∈ cs) -> NoDup (kmem_caches w') ->
  sok w' cs /\ forall c o, live w' cs c o <-> live w cs c o.
Proof.
  intros Hok E1 E2 E3 E4 L1 L2. pose proof Hok as [S1 S2 S3 S4 S5 S6 S7 S8 S9 S10].
  assert (Ht : forall c o, c ∈ cs -> taken w' c o <-> taken w c o).
  { intros c o Hc. apply taken_frame; [by apply E4 |]. intros s _. by rewrite E2. }
  assert (Hca : forall c, c ∈ cs -> cached w' c = cached w c).
  { intros c Hc. unfold cached, mag_objs. rewrite E3, E4 by done. done. }
  assert (Hst : cc ∈ cs /\ mc ∈ cs) by (split; apply S2; auto).
  split.
  - split.
    + by rewrite E1.
    + intros c Hc. assert (c ∈ cs) by (by apply S2). rewrite E1, E4 by done. by apply S2.
    + done.
    + intros c Hc. apply (slabs_ok_frame w); [by apply S4 | by apply E4 |]. intros s Hs. rewrite E1, E2. split; [done |].
      apply (sl_flag _ _ _ (sc_slab _ _ (S4 c Hc) s Hs)).
    + rewrite E1. intros s Hp Hf. destruct (S5 s Hp Hf) as (c & Hc & Hs). exists c. by rewrite E4.
    + intros c Hc. destruct (S6 c Hc) as [C1 C2 C3 C4]. split; rewrite ?E3, ?E4, ?Hca by done; try done.
      intros o Ho. apply Ht; auto.
    + intros c1 c2 m H1 H2. rewrite !E4 by done. by apply S7.
    + intros c m Hc. rewrite E4 by done. intros Hm. apply Ht; [tauto | by eapply S8].
    + intros c Hc. rewrite !E4 by done. by apply S9.
    + intros c Hc H1 H2. apply Ht; [tauto | auto].
  - intros c o. unfold live. split; intros (H1 & H2 & H3 & H4); (split; [done |]; split; [by apply Ht |]; split; [by rewrite Hca in * |]);
      intros E c' Hc'; specialize (H4 E c' Hc'); by rewrite E4 in *.
Qed.

Lemma fresh_cache_nil k : fresh_cache k -> slabs_of k = [] /\ mags_of k = [].
Proof.
  intros (H1 & H2 & H3 & H4 & H5 & H6). unfold slabs_of, mags_of. rewrite H1, H2, H3, H4, H5. split; [done |]. cbn [app].
  rewrite (flat_map_ext_in (fun _ => [])); [| intros i _; by rewrite H6]. by induction (seqZ 0 NCPU_MAX).
Qed.

(** A cache with nothing in it may join. *)
Lemma sok_add w cs c : sok w cs -> c ∉ cs -> taken w cc c -> fresh_cache (caches w c) -> geom (caches w c) ->
  sok w (c :: cs) /\ forall c' o, live w (c :: cs) c' o <-> live w cs c' o.
Proof.
  intros Hok Hn Ht Hf Hg. destruct (fresh_cache_nil _ Hf) as [Es Em]. pose proof Hok as [S1 S2 S3 S4 S5 S6 S7 S8 S9 S10].
  assert (Hca : cached w c = []) by (unfold cached; by rewrite Em). destruct Hf as (F1 & F2 & F3 & F4 & F5 & F6).
  assert (Hnt : forall o, ~ taken w c o) by (intros o (s & i & Hs & _); rewrite Es in Hs; by apply elem_of_nil in Hs).
  split.
  - split; try done.
    + intros c' H'. destruct (S2 c' H') as (? & ? & ?). split; [by right | done].
    + split; [intros c' Hc'; right; by apply S3 | apply S3].
    + intros c' [-> | Hc']%elem_of_cons; [| by apply S4]. split; try done; rewrite ?Es, ?F1, ?F2, ?F3;
        [constructor | by intros s ?%elem_of_nil ..].
    + intros s Hp Hx. destruct (S5 s Hp Hx) as (c' & Hc' & Hs). exists c'. split; [by right | done].
    + intros c' [-> | Hc']%elem_of_cons; [| by apply S6]. split; rewrite ?Em, ?Hca; [| constructor | constructor | by intros o ?%elem_of_nil].
      split; rewrite ?F4, ?F5; try (by intros m ?%elem_of_nil); intros i m _; by rewrite F6.
    + intros c1 c2 m [-> | H1]%elem_of_cons [-> | H2]%elem_of_cons; rewrite ?Em; try done; [by intros ?%elem_of_nil | by intros _ ?%elem_of_nil | by apply S7].
    + intros c' m [-> | Hc']%elem_of_cons; [rewrite Em; by intros ?%elem_of_nil | by apply S8].
    + intros c' [-> | Hc']%elem_of_cons; [done | by apply S9].
    + intros c' [-> | Hc']%elem_of_cons H1 H2; [done | by apply S10].
  - intros c' o. unfold live. split.
    + intros (H1 & H2 & H3 & H4). apply elem_of_cons in H1 as [-> | H1]; [by destruct (Hnt o) |].
      do 3 (split; [done |]). intros E c'' Hc''. apply H4; [done | by right].
    + intros (H1 & H2 & H3 & H4). split; [by right |]. do 2 (split; [done |]).
      intros E c'' [-> | Hc'']%elem_of_cons; [rewrite Em; apply not_elem_of_nil | by apply H4].
Qed.

(** An object of a slab page is not one of the static caches. *)
Lemma taken_not_static w cs c o : sok w cs -> c ∈ cs -> taken w c o -> o <> cc /\ o <> mc.
Proof.
  intros Hok Hc Ht. pose proof (so_slabs _ _ _ _ Hok c Hc) as Hsl. destruct (taken_slot w c o Hsl Ht) as (i & Hs & _).
  pose proof (sl_flag _ _ _ (sc_slab _ _ Hsl _ Hs)) as Hf. unfold page_flags in Hf.
  split; intros ->; [destruct (so_static _ _ _ _ Hok cc ltac:(by left)) as (_ & _ & Hx) | destruct (so_static _ _ _ _ Hok mc ltac:(by right)) as (_ & _ & Hx)];
    rewrite Hx in Hf; discriminate.
Qed.

(** A fresh object of [cache_cache] is no existing cache. *)
Lemma fresh_not_cache w w' cs c : sok w cs -> gives mc cs w cc w' (Some c) -> sok w' cs -> c ∉ cs.
Proof.
  intros Hok [H1 H2] Hok' Hin. assert (Hl : live w' cs cc c) by (apply H2; by right). destruct Hl as (Hcc & Ht & _).
  destruct (taken_not_static w' cs cc c Hok' Hcc Ht) as [N1 N2]. apply (H1 cc). split; [done |].
  split; [by apply (so_ctaken _ _ _ _ Hok) |]. destruct (so_static _ _ _ _ Hok cc ltac:(by left)) as (_ & Hu & _).
  pose proof (so_nomag _ _ _ _ Hok cc Hcc Hu) as Em. split; [unfold cached; rewrite Em; apply not_elem_of_nil | by intros ?].
Qed.

(** [cache_setup] on an object just allocated from [cache_cache]. *)
Lemma setup_fresh w cs c size align ct um : sok w cs -> quiet w -> c ∉ cs ->
  let w' := cache_setup w c size align ct um in
  sok w' cs /\ quiet w' /\ ka w' = ka w /\ (forall c', c' ∈ cs -> caches w' c' = caches w c') /\
  kmem_caches w' = kmem_caches w /\ forall c' o, live w' cs c' o <-> live w cs c' o.
Proof.
  intros Hok [Hq1 Hq2] Hn w'. assert (Hc' : forall c', c' ∈ cs -> caches w' c' = caches w c').
  { intros c' Hc'. unfold w', cache_setup. cbn [caches set_lock set_cache]. apply upd_ne. by intros ->. }
  destruct (sok_ext w w' cs Hok eq_refl eq_refl eq_refl Hc' (proj1 (so_list _ _ _ _ Hok)) (proj2 (so_list _ _ _ _ Hok))) as [H1 H2].
  split; [done |]. split; [| done]. split; [done |]. intros c'. unfold w', cache_setup. cbn [locks set_lock].
  unfold upd. destruct (c' =? c); [done | apply Hq2].
Qed.

Definition created (w : world) (cs : list Z) (size align : Z) (w' : world) (r : option Z) : Prop :=
  match r with
  | None => sok w' cs /\ (forall c o, live w' cs c o <-> live w cs c o) /\
      (size = 0 \/ PGSIZE < up 64 (real_align align) + up size (real_align align) \/ kalloc_ok (ka w) [])
  | Some c => (c ∉ cs) /\ sok w' (c :: cs) /\ kmem_caches w' = c :: kmem_caches w /\
      use_mag (caches w' c) = true /\ objsize (caches w' c) = up size (real_align align) /\
      obj_offset (caches w' c) = up 64 (real_align align) /\
      (forall c', c' ∈ cs -> objsize (caches w' c') = objsize (caches w c') /\ obj_offset (caches w' c') = obj_offset (caches w c')) /\
      forall c' o, live w' (c :: cs) c' o <-> live w cs c' o \/ (c', o) = (cc, c)
  end.

Lemma kmem_cache_create_spec w cs l cpu size align ct : sok w cs -> quiet w -> kalloc_ok (ka w) l -> 0 <= cpu < NCPU_MAX ->
  0 <= size < 2 ^ 63 -> good_align align ->
  exists w' r l', kmem_cache_create cc mc w cpu size align ct = Ret (w', r) /\ quiet w' /\ kalloc_ok (ka w') l' /\
    created w cs size align w' r.
Proof.
  intros Hok Hq Hka Hcpu Hs Ha. unfold kmem_cache_create. destruct (Z.eqb_spec size 0) as [-> | Hs0].
  { exists w, None, l. do 3 (split; [done |]). split; [done |]. split; [done | by left]. }
  destruct (so_static _ _ _ _ Hok cc ltac:(by left)) as (Hcc & Hu & _).
  destruct (kmem_cache_alloc_spec cc mc Hne w cs cpu cc l Hok Hq Hka Hcc Hne Hcpu) as (w1 & r & l1 & -> & Hok1 & Hq1 & Hka1 & Hg1 & Hgv).
  cbn [mbind res_bind]. destruct r as [c |].
  2: { destruct Hgv as (Hx & _ & _ & Hlv). exists w1, None, l1. do 3 (split; [done |]). split; [done |]. split; [done | auto]. }
  pose proof (fresh_not_cache w w1 cs c Hok Hgv Hok1) as Hnc. destruct Hgv as [Hfr Hlv1].
  destruct (setup_fresh w1 cs c size align ct true Hok1 Hq1 Hnc) as (Hok2 & Hq2 & Hka2 & Hca2 & Hl2 & Hlv2).
  destruct (cache_setup_spec w1 c size align ct true ltac:(lia) Ha) as (Hf & Hum & Hsz & Hoff & Hslots & Hgeom).
  set (w2 := cache_setup w1 c size align ct true) in *. assert (Hlc : live w2 cs cc c) by (apply Hlv2, Hlv1; by right).
  destruct (Z.eqb_spec (slots_per_slab (caches w2 c)) 0) as [E0 | E0].
  - destruct (kmem_cache_free_nomag cc mc w2 cs cpu cc l1 c Hok2 Hq2) as (w3 & -> & G1 & G2 & [l3 G3] & G4 & G5); try done.
    { rewrite Hca2 by done. destruct (proj2 Hg1 cc) as (p & f & e & F & E & cp & ->). done. }
    cbn [mbind res_bind]. exists w3, None, l3. split; [done |]. split; [done |]. split; [done |]. split; [done |].
    split; [| right; left; rewrite <- Hoff, <- Hsz; by apply Hslots].
    intros c' o. rewrite G5, Hlv2, Hlv1. split; [tauto |]. intros Hx. split; [by left |]. intros [= -> ->]. by apply (Hfr cc).
  - unfold acquire_caches. rewrite (proj1 Hq2). cbn [negb KASSERT mbind res_bind].
    destruct (sok_add w2 cs c Hok2 Hnc (proj1 (proj2 Hlc)) Hf (Hgeom E0)) as [Hok3 Hlv3].
    set (w3 := set_caches_lock _ false).
    destruct (sok_ext w2 w3 (c :: cs) Hok3 eq_refl eq_refl eq_refl ltac:(done)) as [Hok4 Hlv4].
    { cbn. intros c' [-> | Hc']%elem_of_cons; [left | right]. by apply (so_list _ _ _ _ Hok2). }
    { cbn. constructor; [| apply (so_list _ _ _ _ Hok2)]. intros Hx. apply Hnc. by apply (so_list _ _ _ _ Hok2). }
    exists w3, (Some c), l1. split; [done |]. split; [split; [done | apply Hq2] |]. split; [done |]. split; [done |].
    split; [done |]. split; [change (c :: kmem_caches w2 = c :: kmem_caches w); by rewrite Hl2, (proj1 Hg1) |]. do 3 (split; [done |]).
    split; [intros c' Hc'; change (caches w3 c') with (caches w2 c'); rewrite (Hca2 c' Hc'); by destruct (proj2 Hg1 c') as (p & f & e & F & E & cp & ->) |].
    intros c' o. by rewrite Hlv4, Hlv3, Hlv2, Hlv1.
Qed.

(** [kmem_init] on a machine whose pages are all free or used. *)
Lemma kmem_init_spec w l : kalloc_ok (ka w) l -> ram_below (ka_pm (ka w)) ->
  (forall c, c = cc \/ c = mc -> pa_to_page (ka_pm (ka w)) (KVA_TO_PA (PGROUNDDW c)) = None) ->
  (forall pa, page_flags (ka w) pa <> Some PG_SLAB) -> (forall c, locks w c = false) ->
  let w' := kmem_init cc mc w in
  sok w' [cc; mc] /\ quiet w' /\ ka w' = ka w /\ forall c o, ~ live w' [cc; mc] c o.
Proof.
  intros Hka Hram Hst Hsl Hlk w'.
  assert (Hcc : caches w' cc = caches (cache_setup w cc sizeof_kmem_cache 0 false false) cc).
  { unfold w', kmem_init, cache_setup. cbn [caches set_list set_lock set_cache set_caches_lock]. rewrite upd_ne, !upd_eq by done. done. }
  assert (Hmc : caches w' mc = caches (cache_setup w mc sizeof_kmem_magazine 0 false false) mc).
  { unfold w', kmem_init, cache_setup. cbn [caches set_list set_lock set_cache set_caches_lock]. rewrite !upd_eq. done. }
  assert (Hf : forall c, c ∈ [cc; mc] -> fresh_cache (caches w' c) /\ use_mag (caches w' c) = false /\ geom (caches w' c)).
  { intros c [-> | [-> | ?%elem_of_nil]%elem_of_cons]%elem_of_cons; [| | done].
    - destruct (cache_setup_spec w cc sizeof_kmem_cache 0 false false) as (H1 & H2 & _ & _ & _ & H6); [vm_compute; intuition congruence | by left |].
      rewrite Hcc. split; [done |]. split; [done |]. apply H6. unfold cache_setup. cbn [caches set_lock set_cache]. rewrite upd_eq. discriminate.
    - destruct (cache_setup_spec w mc sizeof_kmem_magazine 0 false false) as (H1 & H2 & _ & _ & _ & H6); [vm_compute; intuition congruence | by left |].
      rewrite Hmc. split; [done |]. split; [done |]. apply H6. unfold cache_setup. cbn [caches set_lock set_cache]. rewrite upd_eq. discriminate. }
  assert (Hnil : forall c, c ∈ [cc; mc] -> slabs_of (caches w' c) = [] /\ mags_of (caches w' c) = []) by (intros c Hc; by apply fresh_cache_nil, Hf).
  assert (Hno : forall c o, c ∈ [cc; mc] -> ~ taken w' c o).
  { intros c o Hc (s & i & Hs & _). rewrite (proj1 (Hnil c Hc)) in Hs. by apply elem_of_nil in Hs. }
  assert (Hin : forall c, c = cc \/ c = mc -> c ∈ [cc; mc]) by (intros c [-> | ->]; [left | right; left]).
  split; [| split; [split; [done |] | split; [done |]]].
  - split; try done.
    + intros c Hc. split; [auto |]. split; [by apply Hf, Hin | by apply Hst].
    + cbn. split; [intros c [-> | [-> | ?%elem_of_nil]%elem_of_cons]%elem_of_cons; [right; left | left | done] |].
      apply NoDup_cons. split; [intros ->%list_elem_of_singleton; done | apply NoDup_singleton].
    + intros c Hc. destruct (Hf c Hc) as ((F1 & F2 & F3 & _) & _ & Hg). destruct (Hnil c Hc) as [E _].
      split; try done; rewrite ?E, ?F1, ?F2, ?F3; [constructor | by intros s ?%elem_of_nil ..].
    + intros s Hp Hx. by destruct (Hsl (KVA_TO_PA s)).
    + intros c Hc. destruct (Hf c Hc) as ((F1 & F2 & F3 & F4 & F5 & F6) & _ & _). destruct (Hnil c Hc) as [_ E].
      split; unfold cached; rewrite ?E; [| constructor | constructor | by intros o ?%elem_of_nil].
      split; rewrite ?F4, ?F5; try (by intros m ?%elem_of_nil); intros i m _; by rewrite F6.
    + intros c1 c2 m H1 H2. rewrite (proj2 (Hnil c1 H1)). by intros ?%elem_of_nil.
    + intros c m Hc. rewrite (proj2 (Hnil c Hc)). by intros ?%elem_of_nil.
    + intros c Hc _. by apply Hnil.
    + intros c [-> | [-> | ?%elem_of_nil]%elem_of_cons]%elem_of_cons; done.
  - intros c. unfold w', kmem_init, cache_setup. cbn [locks set_list set_lock set_cache set_caches_lock]. unfold upd.
    destruct (c =? mc); [done |]. destruct (c =? cc); [done | apply Hlk].
  - intros c o (Hc & Ht & _). by apply (Hno c o).
Qed.
End caches.
