(* ===== verification/SlabDestroy.v ===== *)
(** * The slab allocator: destroying a cache

    [kmem_cache_destroy] drains the CPUs' magazines, where each still hangs on its CPU
    while its objects go back, then the depot, then frees the slabs. *)

From S2P Require Import Prelude Bits Mmu Physmem Kalloc Pages Slab SlabSpec SlabDepot SlabReclaim SlabAlloc SlabFree SlabCreate.

(** ** Lemmas: draining does not look at the CPUs' magazine pointers *)

Section commute.
Context (mc c i : Z) (x : kmem_cpu_cache).
Notation U := (fun w => set_cpu w c i x).

Lemma set_cpu_caches w c' : caches (set_cpu w c i x) c' =
  if decide (c' = c) then set_depot (caches w c) (full_mags (caches w c)) (empty_mags (caches w c)) (c_cpu (caches w c)).[i <- x]
  else caches w c'.
Proof. unfold set_cpu. cbn [caches set_cache]. destruct (decide (c' = c)) as [-> |]; [apply upd_eq | by apply upd_ne]. Qed.

Lemma set_cpu_put w s h c' k k' : (c' = c -> k' = set_depot k (full_mags k) (empty_mags k) (c_cpu k).[i <- x]) -> (c' <> c -> k' = k) ->
  set_cache (set_slab (set_cpu w c i x) s h) c' k' = set_cpu (set_cache (set_slab w s h) c' k) c i x.
Proof.
  intros H1 H2. unfold set_cpu, set_cache, set_slab. cbn [ka slabs mags caches kmem_caches locks caches_lock ctor_calls]. f_equal.
  destruct (decide (c' = c)) as [-> | Hn].
  - rewrite !upd_upd, !upd_eq. f_equal. auto.
  - rewrite (upd_ne _ c' c) by done. rewrite upd_comm by done. f_equal. f_equal. auto.
Qed.

Lemma slab_free_set_cpu w c' o : slab_free_locked (U w) c' o = res_map U (slab_free_locked w c' o).
Proof.
  unfold slab_free_locked. cbn zeta. change (slabs (set_cpu w c i x)) with (slabs w). rewrite set_cpu_caches.
  destruct (decide (c' = c)) as [-> | Hn]; cbn [set_depot objsize obj_offset slots_per_slab];
    (destruct (KASSERT (s_cache _ =? _) _); [| done]); cbn [mbind res_bind];
    (destruct (KASSERT _ _); [| done]); cbn [mbind res_bind res_map]; f_equal; apply set_cpu_put; try done.
  intros _. cbn [s_inuse]. by destruct (u32 _ =? _), (s32 _ =? _).
Qed.

Lemma drain_loop_set_cpu n m : forall w c' j, drain_loop n (U w) c' m j = res_map U (drain_loop n w c' m j).
Proof.
  induction n as [| n IH]; intros w c' j; [done |]. cbn [drain_loop]. change (mags (set_cpu w c i x)) with (mags w).
  rewrite slab_free_set_cpu. destruct (slab_free_locked w c' _) as [w1 |]; [| done]. cbn [res_map mbind res_bind]. apply IH.
Qed.

Lemma drain_magazine_set_cpu w c' m : drain_magazine mc (U w) c' m = res_map U (drain_magazine mc w c' m).
Proof.
  unfold drain_magazine. change (mags (set_cpu w c i x)) with (mags w). rewrite drain_loop_set_cpu.
  destruct (drain_loop _ w c' m 0) as [w1 |]; [| done]. cbn [res_map mbind res_bind].
  unfold kmem_cache_free_slab, acquire. change (locks (set_mag (set_cpu w1 c i x) m _)) with (locks w1).
  change (locks (set_mag w1 m _)) with (locks w1). destruct (KASSERT _ _); [| done]. cbn [mbind res_bind].
  change (set_lock (set_mag (set_cpu w1 c i x) m (Magazine 0 (m_objs (mags (set_cpu w1 c i x) m)))) mc true)
    with (set_cpu (set_lock (set_mag w1 m (Magazine 0 (m_objs (mags w1 m)))) mc true) c i x).
  rewrite slab_free_set_cpu. destruct (slab_free_locked _ mc m); done.
Qed.
End commute.

Lemma slab_free_cpu w c o w' : slab_free_locked w c o = Ret w' -> forall c', c_cpu (caches w' c') = c_cpu (caches w c').
Proof.
  unfold slab_free_locked. cbn zeta. destruct (KASSERT (s_cache _ =? _) _); [| done]. cbn [mbind res_bind].
  destruct (KASSERT _ _); [| done]. cbn [mbind res_bind]. intros [= <-] c'. cbn [caches set_cache set_slab].
  destruct (decide (c' = c)) as [-> | Hn]; [rewrite upd_eq | by rewrite upd_ne]. cbn [s_inuse]. by destruct (u32 _ =? _), (s32 _ =? _).
Qed.

Lemma drain_magazine_cpu mc w c m w' : drain_magazine mc w c m = Ret w' -> forall c', c_cpu (caches w' c') = c_cpu (caches w c').
Proof.
  assert (Hloop : forall n w j w', drain_loop n w c m j = Ret w' -> forall c', c_cpu (caches w' c') = c_cpu (caches w c')).
  { induction n as [| n IH]; intros w0 j w0' E c'; cbn [drain_loop] in E; [by injection E as <- |].
    destruct (slab_free_locked w0 c _) as [w1 |] eqn:E1; [| done]. cbn [mbind res_bind] in E.
    rewrite (IH _ _ _ E). by apply (slab_free_cpu _ _ _ _ E1). }
  unfold drain_magazine. destruct (drain_loop _ w c m 0) as [w1 |] eqn:E1; [| done]. cbn [mbind res_bind].
  unfold kmem_cache_free_slab, acquire. destruct (KASSERT _ _); [| done]. cbn [mbind res_bind].
  destruct (slab_free_locked _ mc m) as [w2 |] eqn:E2; [| done]. cbn [mbind res_bind]. intros [= <-] c'.
  change (c_cpu (caches w2 c') = c_cpu (caches w c')). rewrite (slab_free_cpu _ _ _ _ E2). exact (Hloop _ _ _ _ E1 c').
Qed.

Section caches.
Context (cc mc : Z) (Hne : cc <> mc).
Notation sok := (sok cc mc).
Notation live := (live mc).

(** A step of the teardown of cache [c]: nobody's objects change. *)
Record tears (cs : list Z) (c : Z) (w w' : world) : Prop := {
  tr_sok : sok w' cs;
  tr_live : forall c' o, live w' cs c' o <-> live w cs c' o;
  tr_list : kmem_caches w' = kmem_caches w;
  tr_locks : forall c', locks w' c' = locks w c';
  tr_clock : caches_lock w' = caches_lock w;
  tr_ka : ka w' = ka w
}.

Lemma tears_trans cs c w1 w2 w3 : tears cs c w1 w2 -> tears cs c w2 w3 -> tears cs c w1 w3.
Proof.
  intros [A1 A2 A3 A4 A5 A6] [B1 B2 B3 B4 B5 B6]. split; try congruence. intros c' o. by rewrite B2.
Qed.

Lemma tears_refl cs c w : sok w cs -> tears cs c w w.
Proof. by split. Qed.

(** Draining magazine [m] of CPU [i], whose magazines become [x]. *)
Lemma drain_slot w cs c i m x : sok w cs -> c ∈ cs -> c <> cc -> c <> mc -> locks w mc = false -> 0 <= i < NCPU_MAX ->
  cpu_mags (c_cpu (caches w c) i) ≡ₚ m :: cpu_mags x ->
  (loaded x = None \/ loaded x = loaded (c_cpu (caches w c) i)) ->
  (previous x = None \/ previous x = previous (c_cpu (caches w c) i)) ->
  exists w', drain_magazine mc w c m = Ret w' /\ tears cs c w (set_cpu w' c i x) /\
    c_cpu (caches w' c) = c_cpu (caches w c).
Proof.
  intros Hok Hc Hcc Hcm Hlk Hi Hx Hl Hp. set (k := caches w c) in *. set (w1 := set_cpu w c i x).
  destruct (so_mags _ _ _ _ Hok c Hc) as [Hcnt Hnd Hno _]. pose proof Hcnt as [C1 C2 C3 C4]. fold k in C1, C2, C3, C4, Hcnt, Hnd.
  assert (Hin : m ∈ mags_of k).
  { unfold mags_of. rewrite !elem_of_app, elem_of_flat_map. right. right. exists i. split; [by apply cpu_in |]. rewrite Hx. left. }
  destruct (depot_shrink cc mc w cs c (full_mags k) (empty_mags k) ((c_cpu k).[i <- x]) Hok Hc [m]) as [Hok1 Hlv1].
  { unfold mags_of. cbn [set_depot full_mags empty_mags c_cpu app]. fold k.
    pose proof (cpu_mags_change k i x Hi) as P. rewrite Hx in P. cbn [app] in P. rewrite Permutation_middle in P.
    apply Permutation_app_inv_l in P. rewrite <- P. rewrite !app_assoc. symmetry. apply Permutation_middle. }
  { apply counts_cpu; [done | done | done | |].
    - intros y Hy. destruct Hl as [E | E]; rewrite E in Hy; [done | by apply (C3 i)].
    - intros y Hy. destruct Hp as [E | E]; rewrite E in Hy; [done | by apply (C4 i)]. }
  change (set_cache w c _) with w1 in Hok1, Hlv1. cbn [flat_map] in Hlv1. rewrite app_nil_r in Hlv1.
  assert (Hm0 : 0 <= m_count (mags w m)).
  { apply mags_of_in in Hin as [Hin | [Hin | (j & Hj & [Hin | Hin])]].
    - rewrite (C1 m Hin). done.
    - rewrite (C2 m Hin). done.
    - apply (C3 j m Hj Hin).
    - destruct (C4 j m Hj Hin) as [-> | ->]; done. }
  destruct (drain_magazine_spec cc mc w1 cs c m Hok1 Hcc Hcm Hne Hlk) as (w2 & E2 & Hok2 & Hf2 & Hka2 & _ & _ & Hlv2).
  { apply Hlv1. right. left. split; [done | left]. }
  { done. }
  { intros o Ho. apply Hlv1. by right; right. }
  { by apply (NoDup_flat_map_in _ _ m Hno). }
  pose proof (drain_magazine_set_cpu mc c i x w c m) as Hcomm. cbn beta in Hcomm. fold w1 in Hcomm. rewrite E2 in Hcomm.
  destruct (drain_magazine mc w c m) as [w' |] eqn:E; [| done]. injection Hcomm as Ew. exists w'. split; [done |].
  split; [| exact (drain_magazine_cpu _ _ _ _ _ E c)]. rewrite <- Ew. destruct Hf2 as [F1 F2 F3 F4]. split; try done.
  intros c' o. rewrite Hlv2, Hlv1. change (mag_objs w1 m) with (mag_objs w m). rewrite list_elem_of_singleton. split; [tauto |].
  intros Hv. split; [by left |]. destruct Hv as (_ & _ & Hx1 & Hx2). split.
  - intros [-> Ho]. apply Hx1, elem_of_flat_map. by exists m.
  - intros [-> ->]. by apply (Hx2 eq_refl c Hc).
Qed.

Lemma drain_cpu_spec w cs c i : sok w cs -> c ∈ cs -> c <> cc -> c <> mc -> locks w mc = false -> 0 <= i < NCPU_MAX ->
  exists w', drain_cpu mc w c i = Ret w' /\ tears cs c w w' /\ c_cpu (caches w' c) i = CpuCache None None /\
    forall j, j <> i -> c_cpu (caches w' c) j = c_cpu (caches w c) j.
Proof.
  intros Hok Hc Hcc Hcm Hlk Hi. unfold drain_cpu.
  assert (Hcp : forall w x, c_cpu (caches (set_cpu w c i x) c) = (c_cpu (caches w c)).[i <- x]).
  { intros w0 x. by rewrite set_cpu_caches, decide_True by done. }
  assert (H1 : exists w1, match loaded (c_cpu (caches w c) i) with
      | None => Ret w
      | Some m => w0 ← drain_magazine mc w c m; Ret (set_cpu w0 c i (CpuCache None (previous (c_cpu (caches w0 c) i))))
      end = Ret w1 /\ tears cs c w w1 /\ loaded (c_cpu (caches w1 c) i) = None /\
      previous (c_cpu (caches w1 c) i) = previous (c_cpu (caches w c) i) /\
      forall j, j <> i -> c_cpu (caches w1 c) j = c_cpu (caches w c) j).
  { destruct (loaded (c_cpu (caches w c) i)) as [m |] eqn:El; [| exists w; split; [done |]; by split; [apply tears_refl |]].
    destruct (drain_slot w cs c i m (CpuCache None (previous (c_cpu (caches w c) i))) Hok Hc Hcc Hcm Hlk Hi) as (w0 & -> & Ht & Ec); auto.
    { unfold cpu_mags. by rewrite El. }
    cbn [mbind res_bind]. rewrite Ec. eexists. split; [done |]. split; [done |]. rewrite Hcp, Ec, upd_eq. split; [done |]. split; [done |].
    intros j Hj. by rewrite upd_ne. }
  destruct H1 as (w1 & -> & Ht1 & Hl1 & Hp1 & Ho1). cbn [mbind res_bind].
  destruct (previous (c_cpu (caches w1 c) i)) as [m |] eqn:Ep.
  - destruct (drain_slot w1 cs c i m (CpuCache None None) (tr_sok _ _ _ _ Ht1) Hc Hcc Hcm) as (w2 & -> & Ht2 & Ec); auto.
    { by rewrite (tr_locks _ _ _ _ Ht1). }
    { unfold cpu_mags. by rewrite Hl1, Ep. }
    cbn [mbind res_bind]. rewrite Ec, Hl1. eexists. split; [done |]. split; [by eapply tears_trans |]. rewrite Hcp, Ec, upd_eq. split; [done |].
    intros j Hj. rewrite upd_ne by done. by apply Ho1.
  - exists w1. split; [done |]. split; [done |]. split; [| done]. destruct (c_cpu (caches w1 c) i); cbn in *; congruence.
Qed.

Lemma drain_cpus_spec cs c n : c ∈ cs -> c <> cc -> c <> mc -> forall w i, sok w cs -> locks w mc = false -> 0 <= i -> i + Z.of_nat n <= NCPU_MAX ->
  exists w', drain_cpus mc n w c i = Ret w' /\ tears cs c w w' /\
    (forall j, i <= j < i + Z.of_nat n -> c_cpu (caches w' c) j = CpuCache None None) /\
    (forall j, j < i -> c_cpu (caches w' c) j = c_cpu (caches w c) j).
Proof.
  intros Hc Hcc Hcm. induction n as [| n IH]; intros w i Hok Hlk Hi Hn.
  - exists w. split; [done |]. split; [by apply tears_refl |]. split; [lia | done].
  - cbn [drain_cpus]. destruct (drain_cpu_spec w cs c i Hok Hc Hcc Hcm Hlk ltac:(lia)) as (w1 & -> & Ht1 & E1 & Ho1). cbn [mbind res_bind].
    destruct (IH w1 (i + 1) (tr_sok _ _ _ _ Ht1)) as (w2 & -> & Ht2 & E2 & Ho2); [by rewrite (tr_locks _ _ _ _ Ht1) | lia | lia |].
    exists w2. split; [done |]. split; [by eapply tears_trans |]. split.
    + intros j Hj. destruct (decide (j = i)) as [-> |]; [rewrite Ho2 by lia; done | apply E2; lia].
    + intros j Hj. rewrite Ho2 by lia. apply Ho1. lia.
Qed.

(** ** Lemmas: the emptied cache *)

(** A cache that holds nothing and is on no list may leave. *)
Lemma sok_remove w cs c : sok w cs -> c <> cc -> c <> mc -> c ∉ kmem_caches w ->
  slabs_of (caches w c) = [] -> mags_of (caches w c) = [] ->
  sok w (without c cs) /\ forall c' o, live w (without c cs) c' o <-> live w cs c' o.
Proof.
  intros Hok N1 N2 Hl Es Em. pose proof Hok as [S1 S2 S3 S4 S5 S6 S7 S8 S9 S10].
  assert (Hin : forall c', c' ∈ without c cs -> c' ∈ cs) by (intros c' [_ H]%elem_of_without; done).
  split.
  - split; auto.
    + intros c' H'. destruct (S2 c' H') as (? & ? & ?). split; [| done]. apply elem_of_without. split; [| done].
      intros E; destruct H'; congruence.
    + split; [| apply S3]. intros c' Hc'. apply elem_of_without. split; [by intros -> | by apply S3].
    + intros s Hp Hx. destruct (S5 s Hp Hx) as (c' & Hc' & Hs). exists c'. split; [| done].
      apply elem_of_without. split; [| done]. intros ->. rewrite Es in Hs. by apply elem_of_nil in Hs.
    + intros c1 c2 m H1 H2. apply S7; auto.
    + intros c' m Hc'. apply S8; auto.
  - intros c' o. unfold live. rewrite elem_of_without. split.
    + intros ((_ & H1) & H2 & H3 & H4). do 3 (split; [done |]). intros E c'' Hc''.
      destruct (decide (c'' = c)) as [-> |]; [rewrite Em; apply not_elem_of_nil | apply H4; [done | by apply elem_of_without]].
    + intros (H1 & H2 & H3 & H4). split; [| split; [done |]; split; [done |]; auto]. split; [| done]. intros ->.
      destruct H2 as (s & i & Hs & _). rewrite Es in Hs. by apply elem_of_nil in Hs.
Qed.

Lemma mags_of_nil k : full_mags k = [] -> empty_mags k = [] -> (forall i, 0 <= i < NCPU_MAX -> c_cpu k i = CpuCache None None) ->
  mags_of k = [].
Proof.
  intros H1 H2 H3. unfold mags_of. rewrite H1, H2. cbn [app].
  rewrite (flat_map_ext_in (fun _ => [])); [by induction (seqZ 0 NCPU_MAX) |].
  intros i Hi%elem_of_seqZ. rewrite H3 by lia. done.
Qed.

Lemma same_cache_mags k k' : same_cache k k' -> mags_of k = [] -> mags_of k' = [].
Proof.
  intros Hs Em. destruct (same_cache_nil _ _ Hs) as [H1 H2]. unfold mags_of in Em. apply app_eq_nil in Em as [E1 Em].
  apply app_eq_nil in Em as [E2 E3]. unfold mags_of. rewrite H1, H2 by done. destruct Hs as (p & f & e & F & E & -> & _). exact E3.
Qed.

(** With no magazines left, a cache has a live object exactly when a slab is in use. *)
Lemma no_live_empty w cs c : sok w cs -> c ∈ cs -> c <> mc -> mags_of (caches w c) = [] ->
  (exists o, live w cs c o) <-> partial (caches w c) ++ full (caches w c) <> [].
Proof.
  intros Hok Hc Hm Em. pose proof (so_slabs _ _ _ _ Hok c Hc) as Hsl. pose proof Hsl as [G1 G2 G3 G4 G5 G6].
  assert (Hno : cached w c = []) by (unfold cached; by rewrite Em). split.
  - intros (o & _ & (s & i & Hs & Hi & -> & Hb) & _) E. apply app_eq_nil in E as [E1 E2].
    assert (Hs' : s ∈ empty (caches w c)) by (unfold slabs_of in Hs; by rewrite E1, E2 in Hs).
    pose proof (G6 s Hs') as E0. rewrite (sl_inuse _ _ _ (G3 s Hs)) in E0.
    apply (Nat2Z.inj _ 0) in E0. rewrite (used_none _ _ i E0 Hi) in Hb. done.
  - intros E. destruct (partial (caches w c) ++ full (caches w c)) as [| s l] eqn:El; [done |].
    assert (Hs : s ∈ partial (caches w c) \/ s ∈ full (caches w c)) by (rewrite <- elem_of_app, El; left).
    assert (Hin : s ∈ slabs_of (caches w c)) by (apply slabs_of_in; tauto).
    assert (Hpos : 0 < s_inuse (slabs w s)).
    { destruct Hs as [Hs | Hs]; [by apply G4 |]. rewrite (G5 s Hs). apply G1. }
    rewrite (sl_inuse _ _ _ (G3 s Hin)) in Hpos.
    destruct (used_slots (s_used (slabs w s)) (slots_per_slab (caches w c))) as [| i u] eqn:Eu; [done |].
    assert (Hi : i ∈ used_slots (s_used (slabs w s)) (slots_per_slab (caches w c))) by (rewrite Eu; left).
    apply list_elem_of_filter in Hi as [Hb Hi%elem_of_seqZ]. exists (slab_obj (caches w c) s i). split; [done |].
    split; [exists s, i; split; [done |]; split; [lia | done] |]. rewrite Hno. split; [apply not_elem_of_nil | done].
Qed.

(** ** Lemmas: [kmem_cache_destroy] *)

(** The destroy up to its assertion: the magazines are gone, no object changed hands. *)
Lemma destroy_drain w cs c l : sok w cs -> locks w mc = false -> kalloc_ok (ka w) l -> c ∈ cs -> c <> cc -> c <> mc ->
  exists w1 w2 w3, drain_cpus mc (Z.to_nat NCPU_MAX) w c 0 = Ret w1 /\ drain_list mc (full_mags (caches w1 c)) w1 c = Ret w2 /\
    drain_list mc (empty_mags (caches w2 c)) w2 c = Ret w3 /\ tears cs c w w3 /\ mags_of (caches w3 c) = [].
Proof.
  intros Hok Hlk Hka Hc Hcc Hcm.
  destruct (drain_cpus_spec cs c (Z.to_nat NCPU_MAX) Hc Hcc Hcm w 0 Hok Hlk) as (w1 & E1 & Ht1 & Hcpu & _); [done | done |].
  pose proof Ht1 as [T1 T2 T3 T4 T5 T6].
  destruct (drain_depot_spec cc mc w1 cs c l T1 Hc Hne) as (w2 & w3 & E2 & E3 & Hr & Eka & _ & Hf & He & Ecpu).
  { by rewrite T6. }
  { right. right. by rewrite T4. }
  exists w1, w2, w3. split; [done |]. split; [done |]. split; [done |]. destruct Hr as [R1 R2 R3 R4 R5 R6 R7 R8]. split.
  - apply (tears_trans _ _ _ w1); [done |]. split; try done; apply R2.
  - apply mags_of_nil; [done | done |]. intros i Hi. rewrite Ecpu. by apply Hcpu.
Qed.

(** The state in which [kmem_cache_destroy] starts to drain. *)
Definition detached (w : world) (c : Z) : world :=
  set_lock (set_caches_lock (set_list w (without c (kmem_caches w))) false) c true.

Lemma detached_sok w cs c : sok w cs -> sok (detached w c) cs /\ forall c' o, live (detached w c) cs c' o <-> live w cs c' o.
Proof.
  intros Hok. destruct (so_list _ _ _ _ Hok) as [L1 L2].
  apply (sok_ext cc mc w); try done.
  - intros c' Hc'. apply elem_of_without in Hc' as [_ Hc']. by apply L1.
  - by apply NoDup_filter.
Qed.

(** [kmem_cache_destroy] from its drained state [w3] on. *)
Lemma destroy_drained w cs cpu c l : sok w cs -> quiet w -> kalloc_ok (ka w) l -> c ∈ cs -> c <> cc -> c <> mc ->
  exists w3, tears cs c (detached w c) w3 /\ mags_of (caches w3 c) = [] /\
    kmem_cache_destroy cc mc w cpu c =
      (kassert (match partial (caches w3 c), full (caches w3 c) with [], [] => true | _, _ => false end)
         msg "kmem_cache_destroy: cache still has live objects" ;;
       '(w, _) ← free_empty (empty (caches w3 c)) w3 c 0;
       kmem_cache_free mc (release w c) cpu cc c).
Proof.
  intros Hok [Hq1 Hq2] Hka Hc Hcc Hcm. destruct (detached_sok w cs c Hok) as [Hok0 _].
  destruct (destroy_drain (detached w c) cs c l Hok0) as (w1 & w2 & w3 & E1 & E2 & E3 & Ht & Em); try done.
  { unfold detached. cbn [set_lock locks]. rewrite upd_ne by done. apply Hq2. }
  exists w3. split; [done |]. split; [done |]. unfold kmem_cache_destroy, acquire_caches. rewrite Hq1.
  cbn [negb KASSERT mbind res_bind]. unfold acquire. cbn [locks set_caches_lock set_list kmem_caches]. rewrite Hq2.
  cbn [negb KASSERT mbind res_bind]. change (set_lock _ c true) with (detached w c). rewrite E1. cbn [mbind res_bind].
  rewrite E2. cbn [mbind res_bind]. by rewrite E3.
Qed.

Definition destroyed (w : world) (cs : list Z) (c : Z) (w' : world) : Prop :=
  sok w' (without c cs) /\ quiet w' /\ (exists l', kalloc_ok (ka w') l') /\ kmem_caches w' = without c (kmem_caches w) /\
  forall c' o, live w' (without c cs) c' o <-> live w cs c' o /\ (c', o) <> (cc, c).

(** A client that still holds an object. *)
Lemma kmem_cache_destroy_live w cs cpu c l o : sok w cs -> quiet w -> kalloc_ok (ka w) l -> c ∈ cs -> c <> cc -> c <> mc ->
  live w cs c o -> kmem_cache_destroy cc mc w cpu c = Panic "kmem_cache_destroy: cache still has live objects".
Proof.
  intros Hok Hq Hka Hc Hcc Hcm Ho. destruct (destroy_drained w cs cpu c l) as (w3 & Ht & Em & ->); try done.
  assert (Hx : partial (caches w3 c) ++ full (caches w3 c) <> []).
  { apply (no_live_empty w3 cs c (tr_sok _ _ _ _ Ht) Hc Hcm Em). exists o. apply Ht. by apply detached_sok. }
  by destruct (partial (caches w3 c)), (full (caches w3 c)).
Qed.

Lemma kmem_cache_destroy_spec w cs cpu c l : sok w cs -> quiet w -> kalloc_ok (ka w) l -> c ∈ cs -> c <> cc -> c <> mc ->
  (forall o, ~ live w cs c o) -> exists w', kmem_cache_destroy cc mc w cpu c = Ret w' /\ destroyed w cs c w'.
Proof.
  intros Hok Hq Hka Hc Hcc Hcm Ho. destruct (destroy_drained w cs cpu c l) as (w3 & Ht & Em & ->); try done.
  destruct (detached_sok w cs c Hok) as [_ Hlv0]. pose proof Ht as [T1 T2 T3 T4 T5 T6].
  assert (Hx : partial (caches w3 c) = [] /\ full (caches w3 c) = []).
  { destruct (decide (partial (caches w3 c) ++ full (caches w3 c) = [])) as [E | E]; [by apply app_eq_nil in E |].
    apply (no_live_empty w3 cs c T1 Hc Hcm Em) in E as (o & E). rewrite T2, Hlv0 in E. by destruct (Ho o). }
  destruct Hx as [Ep Ef]. rewrite Ep, Ef. cbn [KASSERT mbind res_bind].
  assert (Hnd : NoDup (empty (caches w3 c))).
  { pose proof (sc_nodup _ _ (so_slabs _ _ _ _ T1 c Hc)) as Hnd. unfold slabs_of in Hnd. by rewrite Ep, Ef in Hnd. }
  destruct (free_empty_spec cc mc cs c (empty (caches w3 c)) Hc w3 l 0 T1 ltac:(by rewrite T6) eq_refl Hnd ltac:(done))
    as (w4 & l4 & -> & Hr & _ & _ & He). cbn [mbind res_bind]. destruct Hr as [R1 R2 R3 R4 R5 R6 R7 R8].
  assert (Hl4 : kmem_caches w4 = without c (kmem_caches w)) by (rewrite (rf_list _ _ R2), T3; done).
  pose proof (same_cache_mags _ _ (rf_caches _ _ R2 c) Em) as Em4.
  assert (Es4 : slabs_of (caches w4 c) = []).
  { apply not_in_nil. intros s Hs. destruct (decide (partial (caches w4 c) ++ full (caches w4 c) = [])) as [E | E].
    - unfold slabs_of in Hs. rewrite app_assoc, E in Hs. by apply He in Hs as [? ?].
    - apply (no_live_empty w4 cs c R1 Hc Hcm Em4) in E as (o & E). rewrite R7, T2, Hlv0 in E. by destruct (Ho o). }
  destruct (sok_remove w4 cs c R1 Hcc Hcm) as [Hok4 Hlv4]; try done.
  { rewrite Hl4, elem_of_without. tauto. }
  pose proof (so_static _ _ _ _ Hok4 cc ltac:(by left)) as (Hin4 & Hu4 & _).
  destruct (kmem_cache_free_nomag cc mc (release w4 c) (without c cs) cpu cc l4 c) as (w5 & E5 & G1 & G2 & G3 & G4 & G5).
  - by apply sok_locks.
  - split; [change (caches_lock w4 = false); rewrite (rf_clock _ _ R2), T5; done |]. intros c'. cbn [release set_lock locks].
    destruct (decide (c' = c)) as [-> | Hn]; [by rewrite upd_eq |]. rewrite upd_ne, (rf_locks _ _ R2), T4 by done.
    unfold detached. cbn [set_lock locks]. rewrite upd_ne by done. apply Hq.
  - done.
  - change (live w4 (without c cs) cc c). apply Hlv4. split; [by apply (so_static _ _ _ _ R1); left |].
    split; [by apply (so_ctaken _ _ _ _ R1) |]. split; [| by intros ?]. unfold cached.
    rewrite (so_nomag _ _ _ _ Hok4 cc Hin4 Hu4). apply not_elem_of_nil.
  - intros _. rewrite elem_of_without. tauto.
  - done.
  - exists w5. split; [done |]. split; [done |]. split; [done |]. split; [done |]. split; [by rewrite (proj1 G4) |].
    intros c' o. rewrite G5. change (live (release w4 c) (without c cs) c' o) with (live w4 (without c cs) c' o).
    by rewrite Hlv4, R7, T2, Hlv0.
Qed.
End caches.
