(* ===== verification/SlabTop.v ===== *)
(** * The slab allocator: theorems

    [client] is the transition system of everything kernel code may do with the
    allocator after [kmem_init]: create and destroy caches, allocate, free, reclaim. The
    abstract state beside it is the list of caches and the bag of objects handed out and
    not yet given back; the theorems say that the concrete state always implements it,
    and what each operation returns. Freeing always returns under the condition [mag_room]; the
    last theorem runs a case without it in which it stops. *)

From S2P Require Import Prelude Bits Mmu Physmem Kalloc Pages Slab SlabSpec SlabDepot SlabReclaim SlabAlloc SlabFree SlabCreate SlabDestroy.

(** ** Specification *)

Section clients.
Context (cc mc : Z) (Hne : cc <> mc).

(** The concrete state, the caches and the objects clients hold. *)
Record cstate := CState { st_w : world; st_cs : list Z; st_own : list (Z * Z) }.

Definition disown (x : Z * Z) (own : list (Z * Z)) : list (Z * Z) := filter (fun y => y <> x) own.

Inductive client : cstate -> cstate -> Prop :=
| client_alloc w cs own cpu c w' o : c ∈ cs -> c <> cc -> c <> mc -> 0 <= cpu < NCPU_MAX ->
    kmem_cache_alloc mc w cpu c = Ret (w', Some o) -> client (CState w cs own) (CState w' cs ((c, o) :: own))
| client_alloc_null w cs own cpu c w' : c ∈ cs -> c <> cc -> c <> mc -> 0 <= cpu < NCPU_MAX ->
    kmem_cache_alloc mc w cpu c = Ret (w', None) -> client (CState w cs own) (CState w' cs own)
| client_free w cs own cpu c o w' : (c, o) ∈ own -> 0 <= cpu < NCPU_MAX ->
    kmem_cache_free mc w cpu c o = Ret w' -> client (CState w cs own) (CState w' cs (disown (c, o) own))
| client_create w cs own cpu size align ct w' c : 0 <= cpu < NCPU_MAX -> 0 <= size < 2 ^ 63 -> good_align align ->
    kmem_cache_create cc mc w cpu size align ct = Ret (w', Some c) -> client (CState w cs own) (CState w' (c :: cs) own)
| client_create_null w cs own cpu size align ct w' : 0 <= cpu < NCPU_MAX -> 0 <= size < 2 ^ 63 -> good_align align ->
    kmem_cache_create cc mc w cpu size align ct = Ret (w', None) -> client (CState w cs own) (CState w' cs own)
| client_destroy w cs own cpu c w' : c ∈ cs -> c <> cc -> c <> mc ->
    kmem_cache_destroy cc mc w cpu c = Ret w' -> client (CState w cs own) (CState w' (without c cs) own)
| client_reclaim w cs own w' n : kmem_reclaim mc w = Ret (w', n) -> client (CState w cs own) (CState w' cs own).

(** The concrete state implements the abstract one: the live objects are the client's and
    the cache structures themselves. *)
Record implements (st : cstate) : Prop := {
  im_sok : sok cc mc (st_w st) (st_cs st);
  im_quiet : quiet (st_w st);
  im_ka : exists l, kalloc_ok (ka (st_w st)) l;
  im_own : forall c o, live mc (st_w st) (st_cs st) c o <->
    (c, o) ∈ st_own st \/ (c = cc /\ o ∈ st_cs st /\ o <> cc /\ o <> mc);
  im_apart : forall c o, (c, o) ∈ st_own st -> c <> cc /\ c <> mc;
  im_nodup : NoDup (st_own st)
}.

(** Two address ranges [a, a+n) and [b, b+m) are disjoint. *)
Definition apart (a n b m : Z) : Prop := a + n <= b \/ b + m <= a.

(** ** Lemmas: each operation implements its abstract step *)

Lemma static_in w cs : sok cc mc w cs -> cc ∈ cs /\ mc ∈ cs.
Proof. intros H. split; apply (so_static _ _ _ _ H); auto. Qed.

Lemma elem_of_disown x y own : y ∈ disown x own <-> y <> x /\ y ∈ own.
Proof. unfold disown. by rewrite list_elem_of_filter. Qed.

Lemma alloc_implements w cs own cpu c w' r : implements (CState w cs own) -> c ∈ cs -> c <> cc -> c <> mc -> 0 <= cpu < NCPU_MAX ->
  kmem_cache_alloc mc w cpu c = Ret (w', r) ->
  implements (CState w' cs (match r with Some o => (c, o) :: own | None => own end)).
Proof.
  intros [I1 I2 [l I3] I4 I5 I6] Hc N1 N2 Hcpu E. cbn [st_w st_cs st_own] in *.
  destruct (kmem_cache_alloc_spec cc mc Hne w cs cpu c l I1 I2 I3 Hc N2 Hcpu) as (w1 & r1 & l1 & E1 & Hok & Hq & Hka & _ & Hg).
  rewrite E in E1. injection E1 as <- <-. split; cbn [st_w st_cs st_own]; try done; [by exists l1 | | |]; destruct r as [o |]; try done.
  - destruct Hg as [_ Hl]. intros c' o'. rewrite Hl, I4, elem_of_cons. tauto.
  - destruct Hg as (_ & _ & _ & Hl). intros c' o'. by rewrite Hl, I4.
  - intros c' o' [[= -> ->] | H]%elem_of_cons; [done | by apply (I5 _ o')].
  - destruct Hg as [Hf _]. constructor; [| done]. intros Hin. apply (Hf c), I4. by left.
Qed.

Lemma free_implements w cs own cpu c o w' : implements (CState w cs own) -> (c, o) ∈ own -> 0 <= cpu < NCPU_MAX ->
  kmem_cache_free mc w cpu c o = Ret w' -> implements (CState w' cs (disown (c, o) own)).
Proof.
  intros [I1 I2 [l I3] I4 I5 I6] Hin Hcpu E. cbn [st_w st_cs st_own] in *. destruct (I5 c o Hin) as [N1 N2].
  destruct (kmem_cache_free_cases cc mc Hne w cs cpu c l o I1 I2 I3 ltac:(apply I4; by left) N2 ltac:(done) Hcpu)
    as [(w1 & E1 & Hok & Hq & Hka & _ & Hl) | [_ [s Es]]]; [| rewrite Es in E; discriminate].
  rewrite E in E1. injection E1 as <-. split; cbn [st_w st_cs st_own]; try done.
  - intros c' o'. rewrite Hl, I4, elem_of_disown. split; [tauto |]. intros [H | H]; [tauto |]. split; [tauto |].
    intros [= -> ->]. by destruct H as (? & _).
  - intros c' o' H. apply elem_of_disown in H as [_ H]. by apply (I5 _ o').
  - by apply NoDup_filter.
Qed.

Lemma create_implements w cs own cpu size align ct w' r : implements (CState w cs own) -> 0 <= cpu < NCPU_MAX -> 0 <= size < 2 ^ 63 ->
  good_align align -> kmem_cache_create cc mc w cpu size align ct = Ret (w', r) ->
  implements (CState w' (match r with Some c => c :: cs | None => cs end) own).
Proof.
  intros [I1 I2 [l I3] I4 I5 I6] Hcpu Hs Ha E. cbn [st_w st_cs st_own] in *.
  destruct (kmem_cache_create_spec cc mc Hne w cs l cpu size align ct I1 I2 I3 Hcpu Hs Ha) as (w1 & r1 & l1 & E1 & Hq & Hka & Hc).
  rewrite E in E1. injection E1 as <- <-. destruct (static_in w cs I1) as [Hcc Hmc]. destruct r as [c |].
  - destruct Hc as (Hn & Hok & _ & _ & _ & _ & _ & Hl). split; cbn [st_w st_cs st_own]; try done; [by exists l1 |].
    intros c' o'. rewrite Hl, I4, elem_of_cons. split.
    + intros [[H | H] | [= -> ->]]; [tauto | tauto |]. right. split; [done |]. split; [by left |]. split; by intros ->.
    + intros [H | (-> & [-> | H] & H1 & H2)]; [tauto | by right | tauto].
  - destruct Hc as (Hok & Hl & _). split; cbn [st_w st_cs st_own]; try done; [by exists l1 |]. intros c' o'. by rewrite Hl, I4.
Qed.

Lemma destroy_implements w cs own cpu c w' : implements (CState w cs own) -> c ∈ cs -> c <> cc -> c <> mc ->
  kmem_cache_destroy cc mc w cpu c = Ret w' -> implements (CState w' (without c cs) own).
Proof.
  intros [I1 I2 [l I3] I4 I5 I6] Hc N1 N2 E. cbn [st_w st_cs st_own] in *.
  assert (Hno : forall o, ~ live mc w cs c o).
  { intros o Ho. rewrite (kmem_cache_destroy_live cc mc Hne w cs cpu c l o) in E by done. discriminate. }
  destruct (kmem_cache_destroy_spec cc mc Hne w cs cpu c l) as (w1 & E1 & Hok & Hq & Hka & _ & Hl); try done.
  rewrite E in E1. injection E1 as <-. split; cbn [st_w st_cs st_own]; try done. intros c' o'. rewrite Hl, I4, elem_of_without.
  split.
  - intros [[H | (-> & H)] Hx]; [by left | right]. split; [done |]. split; [split; [by intros -> | tauto] | tauto].
  - intros [H | (-> & [Hx H] & H1)]; [| split; [tauto |]; intros [= ->]; done]. split; [by left |].
    intros [= -> ->]. by destruct (I5 _ _ H).
Qed.

Lemma reclaim_implements w cs own w' n : implements (CState w cs own) -> kmem_reclaim mc w = Ret (w', n) -> implements (CState w' cs own).
Proof.
  intros [I1 I2 [l I3] I4 I5 I6] E. cbn [st_w st_cs st_own] in *.
  destruct (kmem_reclaim_spec cc mc w cs l Hne I1 I3) as (w1 & l1 & E1 & Hr & _).
  { intros Hm. rewrite (proj2 I2) in Hm. discriminate. }
  rewrite E in E1. injection E1 as <- _. destruct Hr as [R1 R2 R3 R4 R5 R6 R7 R8]. split; cbn [st_w st_cs st_own]; try done.
  - split; [by rewrite (rf_clock _ _ R2), (proj1 I2) |]. intros c. by rewrite (rf_locks _ _ R2), (proj2 I2).
  - by exists l1.
  - intros c o. by rewrite R7, I4.
Qed.

Lemma client_implements st st' : implements st -> client st st' -> implements st'.
Proof.
  intros Hi Hs. destruct Hs as [* Hc N1 N2 Hcpu E | * Hc N1 N2 Hcpu E | | * Hcpu Hsz Ha E | * Hcpu Hsz Ha E | |].
  - by apply (alloc_implements _ _ _ _ _ _ _ Hi Hc N1 N2 Hcpu E).
  - by apply (alloc_implements _ _ _ _ _ _ _ Hi Hc N1 N2 Hcpu E).
  - by eapply free_implements.
  - by apply (create_implements _ _ _ _ _ _ _ _ _ Hi Hcpu Hsz Ha E).
  - by apply (create_implements _ _ _ _ _ _ _ _ _ Hi Hcpu Hsz Ha E).
  - by eapply destroy_implements.
  - by eapply reclaim_implements.
Qed.

Lemma implements_ka w cs own : implements (CState w cs own) -> exists l, kalloc_ok (ka w) l.
Proof. by intros []. Qed.

Lemma clients_implement st st' : implements st -> rtc client st st' -> implements st'.
Proof. intros Hi Hs. induction Hs as [| st1 st2 st3 H _ IH]; [done |]. apply IH. by eapply client_implements. Qed.

(** The machine on which [kmem_init] runs: no page is a slab yet, no lock is held, and
    the static caches lie in the kernel image, outside the managed RAM. *)
Record bootable (w : world) : Prop := {
  bo_ka : exists l, kalloc_ok (ka w) l;
  bo_ram : ram_below (ka_pm (ka w));
  bo_static : forall c, c = cc \/ c = mc -> pa_to_page (ka_pm (ka w)) (KVA_TO_PA (PGROUNDDW c)) = None;
  bo_slab : forall pa, page_flags (ka w) pa <> Some PG_SLAB;
  bo_locks : forall c, locks w c = false
}.

Lemma init_implements w : bootable w -> implements (CState (kmem_init cc mc w) [cc; mc] []).
Proof.
  intros [[l B1] B2 B3 B4 B5]. destruct (kmem_init_spec cc mc Hne w l) as (Hok & Hq & Hka & Hl); try done.
  split; cbn [st_w st_cs st_own]; try done.
  - exists l. by rewrite Hka.
  - intros c o. split; [by intros ?%Hl |]. intros [?%elem_of_nil | (-> & [-> | [-> | ?%elem_of_nil]%elem_of_cons]%elem_of_cons & N1 & N2)]; done.
  - by intros c o ?%elem_of_nil.
  - constructor.
Qed.

(** ** Theorems *)

(** C4: in every state reachable from [kmem_init] by any sequence of calls that return, cache
    creations (of sizes below 2^63 and alignments that are powers of two) and destructions,
    allocations, frees and reclaims, the objects handed out and not given back are each held
    once, lie in slab pages behind the slab header, and do not overlap one another. *)
Theorem slab_objects_never_overlap w0 w cs own : 
  bootable w0 -> rtc client (CState (kmem_init cc mc w0) [cc; mc] []) (CState w cs own) ->
  NoDup own /\
  (forall c o, (c, o) ∈ own -> let s := PGROUNDDW o in
    page_flags (ka w) (KVA_TO_PA s) = Some PG_SLAB /\ s + sizeof_slab <= o /\ o + objsize (caches w c) <= s + PGSIZE) /\
  (forall c o c' o', (c, o) ∈ own -> (c', o') ∈ own -> (c, o) <> (c', o') ->
    apart o (objsize (caches w c)) o' (objsize (caches w c'))).
Proof.
  intros Hb Hs. destruct (clients_implement _ _ (init_implements w0 Hb) Hs) as [I1 I2 I3 I4 I5 I6]. cbn [st_w st_cs st_own] in *.
  split; [done |]. split.
  - intros c o Hin. apply (live_place cc mc w cs c o I1). apply I4. by left.
  - intros c o c' o' H H' Hn. apply (live_apart cc mc w cs c o c' o' I1); [apply I4; by left | apply I4; by left | done].
Qed.

(** [kmem_cache_alloc] always returns. It gives an object nobody holds, adding exactly
    that object to the ones handed out, or NULL, changing nothing a client sees, and only
    when no page is free and no slab of the cache has a free slot; after either the state
    still implements the abstract one. *)
Theorem kmem_cache_alloc_gives_fresh w cs own cpu c : implements (CState w cs own) -> c ∈ cs -> c <> cc -> c <> mc -> 0 <= cpu < NCPU_MAX ->
  exists w' r, kmem_cache_alloc mc w cpu c = Ret (w', r) /\
  match r with
  | Some o => implements (CState w' cs ((c, o) :: own)) /\ forall c', (c', o) ∉ own
  | None => implements (CState w' cs own) /\ kalloc_ok (ka w) [] /\ partial (caches w c) = [] /\ empty (caches w c) = []
  end.
Proof.
  intros Hi Hc N1 N2 Hcpu. pose proof Hi as [I1 I2 [l I3] I4 I5 I6]. cbn [st_w st_cs st_own] in *.
  destruct (kmem_cache_alloc_spec cc mc Hne w cs cpu c l I1 I2 I3 Hc N2 Hcpu) as (w1 & r & l1 & E & _ & _ & _ & _ & Hg).
  exists w1, r. split; [done |]. pose proof (alloc_implements w cs own cpu c w1 r Hi Hc N1 N2 Hcpu E) as Hi'.
  destruct r as [o |]; [| split; [done | split; apply Hg || (split; apply Hg)]].
  split; [done |]. intros c' Hin. destruct Hg as [Hf _]. apply (Hf c'), I4. by left.
Qed.

(** [kmem_free], given only the address, finds the cache of an object a client holds
    and gives it back: it returns, the object is no longer held, and no other client's
    object changes. *)
Theorem kmem_free_gives_back w cs own cpu c o : implements (CState w cs own) -> (c, o) ∈ own -> 0 <= cpu < NCPU_MAX -> mag_room mc w cs c ->
  exists w', kmem_free mc w cpu o = Ret w' /\ implements (CState w' cs (disown (c, o) own)).
Proof.
  intros Hi Hin Hcpu Hroom. pose proof Hi as [I1 I2 [l I3] I4 I5 I6]. cbn [st_w st_cs st_own] in *.
  assert (Hl : live mc w cs c o) by (apply I4; by left). destruct (I5 c o Hin) as [N1 N2].
  unfold kmem_free. rewrite (live_header cc mc w cs c o I1 Hl).
  destruct (kmem_cache_free_spec cc mc Hne w cs cpu c l o I1 I2 I3) as (w1 & E & _); try done.
  exists w1. split; [done |]. by apply (free_implements w cs own cpu c o).
Qed.

(** [kmem_reclaim] takes nothing from a client: it drains every cache's depot and
    frees every empty slab (of [magazine_cache], those empty when its turn comes), and
    returns the number of pages that became free; a page that changes state was an empty
    slab's and is now free. *)
Theorem kmem_reclaim_frees_unused w cs own l : implements (CState w cs own) -> kalloc_ok (ka w) l ->
  exists w' l', kmem_reclaim mc w = Ret (w', s32 (Z.of_nat (length l' - length l))) /\
    implements (CState w' cs own) /\ kalloc_ok (ka w') l' /\ (length l <= length l')%nat /\
    (forall pa, page_flags (ka w') pa = page_flags (ka w) pa \/
      page_flags (ka w) pa = Some PG_SLAB /\ page_flags (ka w') pa = Some PG_FREE) /\
    forall c, c ∈ kmem_caches w -> full_mags (caches w' c) = [] /\ empty_mags (caches w' c) = [] /\
      (c <> mc -> empty (caches w' c) = []).
Proof.
  intros Hi Hka. pose proof Hi as [I1 I2 _ I4 I5 I6]. cbn [st_w st_cs st_own] in *.
  destruct (kmem_reclaim_spec cc mc w cs l Hne I1 Hka) as (w1 & l1 & E & Hr & He).
  { intros Hm. rewrite (proj2 I2) in Hm. discriminate. }
  exists w1, l1. split; [done |]. split; [by apply (reclaim_implements w cs own w1 _ Hi E) |].
  split; [apply Hr |]. split; [apply Hr |]. split; [apply Hr |]. intros c Hc. apply He; [apply I2 | done | apply I2].
Qed.

(** [kmem_cache_create] gives a new cache, whose objects are [size] bytes rounded up
    to the alignment, all at aligned addresses, or NULL, changing nothing, when the size
    is 0, when no object fits in a page behind the header, or when memory is exhausted. *)
Theorem kmem_cache_create_layout w cs own cpu size align ct : implements (CState w cs own) -> 0 <= cpu < NCPU_MAX -> 0 <= size < 2 ^ 63 ->
  good_align align ->
  exists w' r, kmem_cache_create cc mc w cpu size align ct = Ret (w', r) /\
  match r with
  | Some c => implements (CState w' (c :: cs) own) /\ (c ∉ cs) /\ size <= objsize (caches w' c) < size + real_align align /\
      forall s i, is_page s -> 0 <= i < slots_per_slab (caches w' c) -> slab_obj (caches w' c) s i mod real_align align = 0
  | None => implements (CState w' cs own) /\
      (size = 0 \/ PGSIZE < up 64 (real_align align) + up size (real_align align) \/ kalloc_ok (ka w) [])
  end.
Proof.
  intros Hi Hcpu Hs Ha. pose proof Hi as [I1 I2 [l I3] I4 I5 I6]. cbn [st_w st_cs st_own] in *.
  destruct (kmem_cache_create_spec cc mc Hne w cs l cpu size align ct I1 I2 I3 Hcpu Hs Ha) as (w1 & r & l1 & E & _ & _ & Hc).
  exists w1, r. split; [done |]. pose proof (create_implements w cs own cpu size align ct w1 r Hi Hcpu Hs Ha E) as Hi'.
  destruct r as [c |]; [| split; [done | apply Hc]]. destruct Hc as (Hn & Hok & _ & _ & Hsz & Hoff & _).
  split; [done |]. split; [done |]. rewrite Hsz. destruct (real_align_pow align Ha) as (j & Hj & Ej).
  assert (Hp : 0 < real_align align) by (rewrite Ej; apply Z.pow_pos_nonneg; lia).
  destruct (up_spec size _ Hp) as [Hu1 Hu2]. destruct (up_spec 64 _ Hp) as [_ Hu4]. split; [done |]. intros s i Hpg Hi2.
  rewrite slab_obj_eq by (done || apply (so_slabs _ _ _ _ Hok); left). rewrite Hsz, Hoff.
  apply Z.mod_divide in Hu2; [| lia]. apply Z.mod_divide in Hu4; [| lia]. apply Z.mod_divide; [lia |].
  apply Z.divide_add_r; [apply Z.divide_add_r; [| done] | by apply Z.divide_mul_r].
  destruct Hpg as [_ Hpg]. apply Z.mod_divide in Hpg; [| done]. etrans; [| exact Hpg]. rewrite Ej. change 4096 with (2 ^ 12).
  exists (2 ^ (12 - j)). rewrite <- Z.pow_add_r by lia. f_equal. lia.
Qed.

(** [kmem_cache_destroy] of a cache none of whose objects is held returns, the cache
    gone, its magazines and slabs given back and every other object where it was; while an
    object is still held it stops at its assertion instead. *)
Theorem kmem_cache_destroy_checks_live w cs own cpu c : implements (CState w cs own) -> c ∈ cs -> c <> cc -> c <> mc ->
  ((forall o, (c, o) ∉ own) -> exists w', kmem_cache_destroy cc mc w cpu c = Ret w' /\ implements (CState w' (without c cs) own)) /\
  (forall o, (c, o) ∈ own -> kmem_cache_destroy cc mc w cpu c = Panic "kmem_cache_destroy: cache still has live objects").
Proof.
  intros Hi Hc N1 N2. pose proof Hi as [I1 I2 [l I3] I4 I5 I6]. cbn [st_w st_cs st_own] in *. split.
  - intros Hno. destruct (kmem_cache_destroy_spec cc mc Hne w cs cpu c l) as (w1 & E & _); try done.
    { intros o Ho. apply I4 in Ho as [Ho | (? & _)]; [by apply (Hno o) | done]. }
    exists w1. split; [done |]. by apply (destroy_implements w cs own cpu c).
  - intros o Ho. apply (kmem_cache_destroy_live cc mc Hne w cs cpu c l o); try done. apply I4. by left.
Qed.
End clients.

(** ** Witnesses *)

(** A machine with five free pages, its static caches below them. *)
Definition five_pages : kalloc :=
  Kalloc (Physmem [] [] [Seg 0x40002000 0x40007000 (Some 0)])
    (fun i => Page (if (0 <=? i) && (i <? 4) then Some (i + 1) else None) PG_FREE 0) 5 (Some 0) 0x40002000.

Definition booted : world :=
  World five_pages (fun _ => Slab 0 0 (fun _ => 0)) (fun _ => Magazine 0 (fun _ => 0))
    (fun _ => Cache 0 0 0 0 false false [] [] [] [] [] (fun _ => CpuCache None None)) [] (fun _ => false) false [].

Definition cc0 : Z := 0xFFFF000040000000.
Definition mc0 : Z := 0xFFFF000040000280.

Lemma five_pages_ok : kalloc_ok five_pages [0; 1; 2; 3; 4].
Proof.
  split; [repeat split; repeat constructor; vm_compute; done |].
  split; [vm_compute; discriminate |]. split; [repeat split |]. split; [apply (bool_decide_unpack _); done |].
  assert (Hm : forall i, managed five_pages i <-> i = 0 \/ i = 1 \/ i = 2 \/ i = 3 \/ i = 4).
  { intros i. unfold managed. change (total_pages _) with 5. lia. }
  split; intros i; rewrite Hm.
  - rewrite !elem_of_cons, elem_of_nil. split; [| tauto]. intuition subst; auto.
  - intros _. by left.
Qed.

Lemma booted_ok : bootable cc0 mc0 booted.
Proof.
  split; try done.
  - eexists. apply five_pages_ok.
  - intros pa [Hpa | ?%in_segs_nil]%in_segs_cons; [| done]. unfold in_seg in Hpa. cbn in Hpa. lia.
  - intros c [-> | ->]; vm_compute; done.
  - intros pa. unfold page_flags. by destruct (pa_to_page _ pa).
Qed.

Definition ret_of {A} (d : A) (r : res A) : A := match r with Ret a => a | Panic _ => d end.

Definition returned {A} (r : res A) : bool := match r with Ret _ => true | Panic _ => false end.

Lemma ret_pair {A B} (d : A * B) r x : returned r = true -> (ret_of d r).2 = x -> r = Ret ((ret_of d r).1, x).
Proof. destruct r as [[a b] |]; [| done]. cbn. by intros _ ->. Qed.

(** A cache of 100-byte objects, and two objects of it. *)
Definition r1 := ret_of (booted, None) (kmem_cache_create cc0 mc0 (kmem_init cc0 mc0 booted) 0 100 0 false).
Definition c1 : Z := 0xFFFF000040002040.
Definition r2 := ret_of (booted, None) (kmem_cache_alloc mc0 r1.1 0 c1).
Definition o2 : Z := 0xFFFF000040003040.
Definition r3 := ret_of (booted, None) (kmem_cache_alloc mc0 r2.1 0 c1).
Definition o3 : Z := 0xFFFF0000400030B0.

Lemma r1_step : kmem_cache_create cc0 mc0 (kmem_init cc0 mc0 booted) 0 100 0 false = Ret (r1.1, Some c1).
Proof. unfold r1. apply (ret_pair (booted, None)); vm_compute; reflexivity. Qed.

Lemma r2_step : kmem_cache_alloc mc0 r1.1 0 c1 = Ret (r2.1, Some o2).
Proof. unfold r2. apply (ret_pair (booted, None)); vm_compute; reflexivity. Qed.

Lemma r3_step : kmem_cache_alloc mc0 r2.1 0 c1 = Ret (r3.1, Some o3).
Proof. unfold r3. apply (ret_pair (booted, None)); vm_compute; reflexivity. Qed.

Lemma run3_steps : rtc (client cc0 mc0) (CState (kmem_init cc0 mc0 booted) [cc0; mc0] []) (CState r3.1 [c1; cc0; mc0] [(c1, o3); (c1, o2)]).
Proof.
  apply (rtc_l _ _ (CState r1.1 [c1; cc0; mc0] [])).
  { apply (client_create cc0 mc0 _ _ _ 0 100 0 false); [done | done | by left | exact r1_step]. }
  apply (rtc_l _ _ (CState r2.1 [c1; cc0; mc0] [(c1, o2)])).
  { apply (client_alloc cc0 mc0 _ _ _ 0); [left | done | done | done | exact r2_step]. }
  apply rtc_once. apply (client_alloc cc0 mc0 _ _ _ 0); [left | done | done | done | exact r3_step].
Qed.

Lemma run3_implements : implements cc0 mc0 (CState r3.1 [c1; cc0; mc0] [(c1, o3); (c1, o2)]).
Proof. exact (clients_implement cc0 mc0 ltac:(done) _ _ (init_implements cc0 mc0 ltac:(done) booted booted_ok) run3_steps). Qed.

Lemma slab_objects_never_overlap_witness :
  apart o3 (objsize (caches r3.1 c1)) o2 (objsize (caches r3.1 c1)).
Proof.
  destruct (slab_objects_never_overlap cc0 mc0 ltac:(done) booted r3.1 [c1; cc0; mc0] [(c1, o3); (c1, o2)] booted_ok run3_steps)
    as (_ & _ & H).
  apply (H c1 o3 c1 o2); [left | right; left | done].
Defined.

Lemma kmem_cache_alloc_gives_fresh_witness :
  exists w', kmem_cache_alloc mc0 r3.1 1 c1 = Ret (w', Some 0xFFFF000040003120).
Proof.
  destruct (kmem_cache_alloc_gives_fresh cc0 mc0 ltac:(done) r3.1 [c1; cc0; mc0] [(c1, o3); (c1, o2)] 1 c1 run3_implements
    ltac:(left) ltac:(done) ltac:(done) ltac:(done)) as (w' & r & E & _).
  exists w'. rewrite E. do 2 f_equal. apply (f_equal (fun x => (ret_of (booted, None) x).2)) in E. vm_compute in E. congruence.
Defined.

Lemma room3 : mag_room mc0 r3.1 [c1; cc0; mc0] c1.
Proof.
  right. right. right. intros c Hc N. rewrite !elem_of_cons in Hc.
  destruct Hc as [-> | [-> | [-> | ?%elem_of_nil]]]; [done | split; vm_compute; reflexivity | split; vm_compute; reflexivity | done].
Qed.

Lemma kmem_free_gives_back_witness :
  exists w', kmem_free mc0 r3.1 0 o2 = Ret w' /\ implements cc0 mc0 (CState w' [c1; cc0; mc0] (disown (c1, o2) [(c1, o3); (c1, o2)])).
Proof.
  apply (kmem_free_gives_back cc0 mc0 ltac:(done) r3.1 [c1; cc0; mc0] [(c1, o3); (c1, o2)] 0 c1 o2 run3_implements
    ltac:(right; left) ltac:(done) room3).
Defined.

Lemma kmem_cache_create_layout_witness :
  exists w', kmem_cache_create cc0 mc0 r3.1 0 5000 64 false = Ret (w', None).
Proof.
  destruct (kmem_cache_create_layout cc0 mc0 ltac:(done) r3.1 [c1; cc0; mc0] [(c1, o3); (c1, o2)] 0 5000 64 false run3_implements
    ltac:(done) ltac:(done) ltac:(right; by exists 6)) as (w' & r & E & _).
  exists w'. rewrite E. do 2 f_equal. apply (f_equal (fun x => (ret_of (booted, None) x).2)) in E. vm_compute in E. congruence.
Defined.

Lemma kmem_cache_destroy_checks_live_witness :
  kmem_cache_destroy cc0 mc0 r3.1 0 c1 = Panic "kmem_cache_destroy: cache still has live objects".
Proof.
  apply (proj2 (kmem_cache_destroy_checks_live cc0 mc0 ltac:(done) r3.1 [c1; cc0; mc0] [(c1, o3); (c1, o2)] 0 c1 run3_implements
    ltac:(left) ltac:(done) ltac:(done)) o2). right. left.
Defined.

Lemma kmem_reclaim_frees_unused_witness :
  exists w' n, kmem_reclaim mc0 r3.1 = Ret (w', n) /\ implements cc0 mc0 (CState w' [c1; cc0; mc0] [(c1, o3); (c1, o2)]).
Proof.
  destruct (implements_ka _ _ _ _ _ run3_implements) as [l Hl].
  destruct (kmem_reclaim_frees_unused cc0 mc0 ltac:(done) r3.1 [c1; cc0; mc0] [(c1, o3); (c1, o2)] l run3_implements Hl)
    as (w' & l' & E & Hi & _). eauto.
Defined.

(** ** Out of memory while a magazine is being allocated *)

(** [n] allocations in a row, the objects pushed on [l]; then frees in a row. *)
Fixpoint allocs (n : nat) (w : world) (c : Z) (l : list Z) : res (world * list Z) :=
  match n with
  | O => Ret (w, l)
  | S n' =>
      '(w, r) ← kmem_cache_alloc mc0 w 0 c;
      match r with Some o => allocs n' w c (o :: l) | None => Ret (w, l) end
  end.

Fixpoint frees_all (l : list Z) (w : world) (c : Z) : res world :=
  match l with [] => Ret w | o :: l' => w ← kmem_cache_free mc0 w 0 c o; frees_all l' w c end.

(** Two caches of 16-byte objects fill the machine's five pages; giving back 60 objects
    of the one puts full magazines in its depot, and giving back those of the other takes
    the 28 magazines of the only slab of [magazine_cache]. *)
Definition exhaust : res world :=
  let w := kmem_init cc0 mc0 booted in
  '(w, a) ← kmem_cache_create cc0 mc0 w 0 16 0 false;
  '(w, b) ← kmem_cache_create cc0 mc0 w 0 16 0 false;
  match a, b with
  | Some a, Some b =>
      '(w, lb) ← allocs 252 w b [];
      w ← frees_all (take 60 lb) w b;
      '(w, la) ← allocs 504 w a [];
      frees_all la w a
  | _, _ => Ret w
  end.

(** when memory is exhausted and the free that needs a new magazine finds none, the
    page allocator reclaims while the lock of [magazine_cache] is held, and reclaiming
    drains another cache's depot into [magazine_cache] itself: valid calls from boot reach
    the panic of [acquire_spinlock] on a lock its own CPU holds. *)
Theorem kmem_cache_free_oom_self_lock : exhaust = Panic "acquire_spinlock: already held".
Proof. vm_compute. reflexivity. Qed.
