(* ===== verification/Kmalloc.v ===== *)
(** * Variable-size kernel allocation

    Models vm/kmalloc.c: ten slab caches for requests up to 1024 bytes, found through a
    table from the rounded size to the class, and whole pages above them. *)

From S2P Require Import Prelude Bits Mmu Physmem Kalloc Pages Slab SlabSpec SlabDepot SlabReclaim SlabAlloc SlabFree SlabCreate SlabDestroy SlabTop.

Definition KMALLOC_ALIGN : Z := 16.
Definition KMALLOC_NCLASS : Z := 10.
Definition KMALLOC_MAX_SLAB : Z := 1024.
Definition ZERO_SIZE_PTR : Z := 16.

Definition kmalloc_size : list Z := [16; 32; 64; 96; 128; 192; 256; 384; 512; 1024].

(** The two static tables; an entry of [kmalloc_cache] not yet set is NULL. *)
Record kmalloc_tables := KmallocTables { kmalloc_cache : Z -> option Z; kmalloc_idx : Z -> Z }.

Definition class_size (k : Z) : res Z :=
  match kmalloc_size !! Z.to_nat k with Some n => Ret n | None => Panic "kmalloc_size: out of range" end.

(** while (kmalloc_size[k] < sz) k++; the table ends with the largest size, so the index
    stays within it: [KMALLOC_NCLASS] steps are enough. *)
Fixpoint class_loop (fuel : nat) (k sz : Z) : res Z :=
  match fuel with
  | O => Panic "kmalloc_init: does not end"
  | S fuel' => n ← class_size k; if n <? sz then class_loop fuel' (k + 1) sz else Ret k
  end.

(** for (sz = KMALLOC_ALIGN; sz <= KMALLOC_MAX_SLAB; sz += KMALLOC_ALIGN) *)
Fixpoint idx_loop (fuel : nat) (sz k : Z) (idx : Z -> Z) : res (Z -> Z) :=
  if sz <=? KMALLOC_MAX_SLAB then
    match fuel with
    | O => Panic "kmalloc_init: does not end"
    | S fuel' =>
        k ← class_loop (S (Z.to_nat KMALLOC_NCLASS)) k sz;
        idx_loop fuel' (u64 (sz + KMALLOC_ALIGN)) k (idx.[sz / KMALLOC_ALIGN <- u8 k])
    end
  else Ret idx.

Definition idx_fuel : nat := Z.to_nat (KMALLOC_MAX_SLAB / KMALLOC_ALIGN).

Section ops.
Context (cache_cache magazine_cache : Z).

(** for (i = 0; i < KMALLOC_NCLASS; i++), over the sizes left. *)
Fixpoint cache_loop (sizes : list Z) (w : world) (cpu i : Z) (t : kmalloc_tables) : res (world * kmalloc_tables) :=
  match sizes with
  | [] => Ret (w, t)
  | n :: sizes' =>
      '(w, c) ← kmem_cache_create cache_cache magazine_cache w cpu n KMALLOC_ALIGN false;
      match c with
      | None => Panic "kmalloc_init: no cache"
      | Some c => cache_loop sizes' w cpu (i + 1) (KmallocTables ((kmalloc_cache t).[i <- Some c]) (kmalloc_idx t))
      end
  end.

Definition kmalloc_init (w : world) (cpu : Z) (t : kmalloc_tables) : res (world * kmalloc_tables) :=
  idx ← idx_loop idx_fuel KMALLOC_ALIGN 0 (kmalloc_idx t);
  cache_loop kmalloc_size w cpu 0 (KmallocTables (kmalloc_cache t) idx).

Definition kmalloc (t : kmalloc_tables) (w : world) (cpu size : Z) : res (world * option Z) :=
  if size =? 0 then Ret (w, Some ZERO_SIZE_PTR)
  else if size <=? KMALLOC_MAX_SLAB then
    let size := Z.land (u64 (size + KMALLOC_ALIGN - 1)) (not64 (KMALLOC_ALIGN - 1)) in
    match kmalloc_cache t (kmalloc_idx t (size / KMALLOC_ALIGN)) with
    | None => Panic "kmem_cache_alloc: NULL cache"
    | Some c => kmem_cache_alloc magazine_cache w cpu c
    end
  else if size <=? PGSIZE then @kpage_alloc world (slab_reclaim magazine_cache) w
  else Ret (w, None).

(** [ptr] is an address; 0 is NULL. *)
Definition kfree (w : world) (cpu ptr : Z) : res world :=
  if ptr <=? ZERO_SIZE_PTR then Ret w
  else if kpage_is_slab (ka w) ptr then kmem_free magazine_cache w cpu ptr
  else k ← kpage_free (ka w) ptr; Ret (set_ka w k).
End ops.

(** ** Specification *)

(** The smallest class that holds [size] bytes. *)
Fixpoint best_fit (sizes : list Z) (size : Z) : option Z :=
  match sizes with [] => None | n :: sizes' => if size <=? n then Some n else best_fit sizes' size end.

(** The tables as [kmalloc_init] leaves them. *)
Record tables_ok (cc mc : Z) (w : world) (cs : list Z) (t : kmalloc_tables) : Prop := {
  tb_cache : forall k n, kmalloc_size !! k = Some n -> exists c, kmalloc_cache t (Z.of_nat k) = Some c /\
    c ∈ cs /\ c <> cc /\ c <> mc /\ objsize (caches w c) = n /\ obj_offset (caches w c) = 64;
  tb_idx : forall j, 1 <= j <= 64 -> 0 <= kmalloc_idx t j /\ kmalloc_size !! Z.to_nat (kmalloc_idx t j) = best_fit kmalloc_size (16 * j)
}.

(** ** Lemmas: the size classes *)

(** The table built by [kmalloc_init], whatever it held before. *)
Lemma idx_loop_ok idx : match idx_loop idx_fuel KMALLOC_ALIGN 0 idx with
  | Ret f => forallb (fun j => (0 <=? f j) && bool_decide (kmalloc_size !! Z.to_nat (f j) = best_fit kmalloc_size (16 * j))) (seqZ 1 64)
  | Panic _ => false
  end = true.
Proof. vm_compute. reflexivity. Qed.

Lemma idx_loop_spec idx : exists f, idx_loop idx_fuel KMALLOC_ALIGN 0 idx = Ret f /\
  forall j, 1 <= j <= 64 -> 0 <= f j /\ kmalloc_size !! Z.to_nat (f j) = best_fit kmalloc_size (16 * j).
Proof.
  pose proof (idx_loop_ok idx) as H. destruct (idx_loop _ _ _ idx) as [f |]; [| done]. exists f. split; [done |].
  intros j Hj. rewrite forallb_forall in H. specialize (H j). rewrite <- list_elem_of_In, elem_of_seqZ in H.
  specialize (H ltac:(lia)). apply andb_true_iff in H as [H1 H2]. split; [lia | by apply bool_decide_eq_true in H2].
Qed.

Lemma best_fit_round sizes size : Forall (fun n => n mod 16 = 0) sizes ->
  best_fit sizes (16 * ((size + 15) / 16)) = best_fit sizes size.
Proof.
  induction 1 as [| n sizes Hn _ IH]; [done |]. cbn [best_fit]. rewrite IH.
  destruct (Z.leb_spec size n), (Z.leb_spec (16 * ((size + 15) / 16)) n); try done; Z.div_mod_to_equations; lia.
Qed.

Lemma best_fit_spec sizes size n : best_fit sizes size = Some n -> n ∈ sizes /\ size <= n.
Proof.
  induction sizes as [| m sizes IH]; [done |]. cbn [best_fit]. destruct (Z.leb_spec size m).
  - intros [= <-]. split; [left | done].
  - intros E. destruct (IH E). split; [by right | done].
Qed.

Lemma best_fit_some size : size <= 1024 -> exists n, best_fit kmalloc_size size = Some n.
Proof.
  intros H. cbn [best_fit kmalloc_size]. repeat match goal with |- context [size <=? ?n] => destruct (Z.leb_spec size n); [by eexists |] end. lia.
Qed.

Lemma round_size size : 0 < size <= 1024 ->
  Z.land (u64 (size + KMALLOC_ALIGN - 1)) (not64 (KMALLOC_ALIGN - 1)) / KMALLOC_ALIGN = (size + 15) / 16.
Proof.
  intros H. unfold KMALLOC_ALIGN, not64. rewrite u64_small by lia. change (16 - 1) with (Z.ones 4).
  rewrite land_u64 by (vm_compute (Z.ones 4); lia). rewrite land_lnot_ones by done. change (2 ^ 4) with 16.
  rewrite Z.div_mul by done. f_equal. change (Z.ones 4) with 15. lia.
Qed.

Section kmalloc.
Context (cc mc : Z) (Hne : cc <> mc).
Notation implements := (implements cc mc).
Notation tables_ok := (tables_ok cc mc).

Lemma tables_geo w w' cs t : tables_ok w cs t -> geo w w' -> tables_ok w' cs t.
Proof.
  intros [T1 T2] [_ Hg]. split; [| done]. intros k n Hk. destruct (T1 k n Hk) as (c & E & H1 & H2 & H3 & H4 & H5).
  exists c. destruct (Hg c) as (p & f & e & F & E' & cp & ->). done.
Qed.

(** The cache a request goes to. *)
Lemma kmalloc_class w cs t size : tables_ok w cs t -> 0 < size <= 1024 ->
  exists c n, kmalloc_cache t (kmalloc_idx t ((size + 15) / 16)) = Some c /\ best_fit kmalloc_size size = Some n /\
    c ∈ cs /\ c <> cc /\ c <> mc /\ objsize (caches w c) = n /\ obj_offset (caches w c) = 64.
Proof.
  intros [T1 T2] Hs. destruct (T2 ((size + 15) / 16) ltac:(Z.div_mod_to_equations; lia)) as [Hp Hx].
  rewrite best_fit_round in Hx by (repeat constructor). destruct (best_fit_some size ltac:(lia)) as [n En]. rewrite En in Hx.
  destruct (T1 _ _ Hx) as (c & E & H). rewrite Z2Nat.id in E by done. exists c, n. done.
Qed.

Lemma steady_implements w cs own w' l : implements (CState w cs own) -> steady cc mc cs w w' -> kalloc_ok (ka w') l ->
  implements (CState w' cs own).
Proof.
  intros [I1 I2 I3 I4 I5 I6] [S1 S2 S3 S4] Hka. cbn [st_w st_cs st_own] in *. split; cbn [st_w st_cs st_own]; try done.
  - split; [by rewrite (rf_clock _ _ S2), (proj1 I2) |]. intros c. by rewrite (rf_locks _ _ S2), (proj2 I2).
  - by exists l.
  - intros c o. by rewrite S3, I4.
Qed.

(** A whole page: one that was not in use as such, or NULL when none is free. *)
Lemma kmalloc_page w cs own : implements (CState w cs own) ->
  exists w' r, @kpage_alloc world (slab_reclaim mc) w = Ret (w', r) /\ implements (CState w' cs own) /\ geo w w' /\
    match r with
    | Some p => is_page p /\ page_flags (ka w) (KVA_TO_PA p) <> Some PG_USED /\ page_flags (ka w') (KVA_TO_PA p) = Some PG_USED
    | None => kalloc_ok (ka w) []
    end.
Proof.
  intros Hi. pose proof Hi as [I1 I2 [l I3] I4 I5 I6]. cbn [st_w st_cs st_own] in *.
  assert (Hcan : can_reclaim mc w (kmem_caches w)) by (intros Hm; rewrite (proj2 I2) in Hm; discriminate).
  destruct (@pa_alloc_law world (@kalloc_pages world (slab_reclaim mc)) (@kalloc_pages_laws world (slab_reclaim mc) (slab_laws cc mc Hne cs w)) w)
    as (w' & r & E & ([Hst _] & _ & l' & Hl') & Hr).
  { split; [split; [by apply steady_refl | done] |]. split; [exact (so_ram _ _ _ _ I1) | by exists l]. }
  exists w', r. split; [exact E |]. split; [by eapply steady_implements |]. split; [apply rframe_geo, Hst |].
  destruct r as [p |]; [by destruct Hr as (H1 & H2 & H3 & _) |].
  destruct (kpage_alloc_slab cc mc Hne cs w l I1 I3 ltac:(by right)) as (w2 & r2 & l2 & E2 & _ & _ & Hx).
  change (@kpage_alloc world (slab_reclaim mc) w = Ret (w', None)) in E. rewrite E in E2. injection E2 as <- <-. by rewrite <- Hx.
Qed.

(** Giving a whole page back. *)
Lemma kfree_page w cs own p : implements (CState w cs own) -> is_page p -> page_flags (ka w) (KVA_TO_PA p) = Some PG_USED ->
  exists k, kpage_free (ka w) p = Ret k /\ implements (CState (set_ka w k) cs own) /\ page_flags k (KVA_TO_PA p) = Some PG_FREE.
Proof.
  intros Hi Hp Hu. pose proof Hi as [I1 I2 [l I3] I4 I5 I6]. cbn [st_w st_cs st_own] in *.
  pose proof (kpage_free_cases (ka w) l p I3) as Hc. cbn zeta in Hc. destruct (is_page_pa p Hp) as (_ & _ & Hal).
  destruct (kpage_free (ka w) p) as [k |]; [| by destruct Hc as [? | [Hc | Hc]]; [| rewrite Hc in Hu ..]].
  destruct Hc as (_ & _ & Hpm & Hf & Ho & pg & Hok' & _). exists k. split; [done |]. split; [| done].
  assert (Hok : sok cc mc (set_ka w k) cs).
  { apply sok_set_ka; [done | done |]. intros pa. destruct (decide (pa / 4096 = KVA_TO_PA p / 4096)) as [Epg |]; [| by rewrite Ho].
    rewrite (page_flags_page (ka w) pa _ l I3 Epg), (page_flags_page k pa _ _ Hok' Epg), Hu, Hf. split; discriminate. }
  split; cbn [st_w st_cs st_own]; try done. by exists (pg :: l).
Qed.

(** Creating the caches of the sizes [sizes], the first of class [i]. *)
Lemma cache_loop_spec cpu own sizes : 0 <= cpu < NCPU_MAX -> Forall (fun n => 0 < n <= 1024 /\ n mod 16 = 0) sizes ->
  forall w cs t i, implements (CState w cs own) ->
  match cache_loop cc mc sizes w cpu (Z.of_nat i) t with
  | Ret (w', t') => exists cs', implements (CState w' cs' own) /\ kmalloc_idx t' = kmalloc_idx t /\
      (forall c, c ∈ cs -> c ∈ cs' /\ objsize (caches w' c) = objsize (caches w c) /\ obj_offset (caches w' c) = obj_offset (caches w c)) /\
      (forall k, (k < i)%nat -> kmalloc_cache t' (Z.of_nat k) = kmalloc_cache t (Z.of_nat k)) /\
      (forall k n, sizes !! k = Some n -> exists c, kmalloc_cache t' (Z.of_nat (i + k)) = Some c /\
         c ∈ cs' /\ c <> cc /\ c <> mc /\ objsize (caches w' c) = n /\ obj_offset (caches w' c) = 64)
  | Panic _ => exists w' cs', implements (CState w' cs' own) /\ kalloc_ok (ka w') []
  end.
Proof.
  intros Hcpu. induction 1 as [| n sizes [Hn Hn16] _ IH]; intros w cs t i Hi.
  { cbn [cache_loop]. exists cs. by do 4 (split; [done |]). }
  cbn [cache_loop]. pose proof Hi as [I1 I2 [l I3] I4 I5 I6]. cbn [st_w st_cs st_own] in *.
  assert (Ha : good_align KMALLOC_ALIGN) by (right; by exists 4).
  destruct (kmem_cache_create_spec cc mc Hne w cs l cpu n KMALLOC_ALIGN false I1 I2 I3 Hcpu ltac:(lia) Ha)
    as (w1 & r & l1 & E & _ & _ & Hc).
  pose proof (create_implements cc mc Hne w cs own cpu n KMALLOC_ALIGN false w1 r Hi Hcpu ltac:(lia) Ha E) as Hi1.
  rewrite E. cbn [mbind res_bind]. assert (Hup : up n (real_align KMALLOC_ALIGN) = n).
  { change (real_align KMALLOC_ALIGN) with 16. unfold up. Z.div_mod_to_equations. lia. }
  destruct r as [c |]; [| exists w, cs; split; [done |]; destruct Hc as (_ & _ & [? | [Hx | ?]]); [lia | | done]].
  2: { rewrite Hup in Hx. change (up 64 (real_align KMALLOC_ALIGN)) with 64 in Hx. unfold PGSIZE in Hx. lia. }
  destruct Hc as (Hnc & Hok1 & _ & _ & Hsz & Hoff & Hgeo & _). rewrite Hup in Hsz. change (up 64 (real_align KMALLOC_ALIGN)) with 64 in Hoff.
  destruct (static_in cc mc w cs I1) as [Hcc Hmc].
  specialize (IH w1 (c :: cs) (KmallocTables ((kmalloc_cache t).[Z.of_nat i <- Some c]) (kmalloc_idx t)) (S i) Hi1).
  replace (Z.of_nat i + 1) with (Z.of_nat (S i)) by lia.
  destruct (cache_loop cc mc sizes w1 cpu _ _) as [[w' t'] |]; [| done].
  destruct IH as (cs' & J1 & J2 & J3 & J4 & J5). exists cs'. split; [done |]. split; [done |]. split; [| split].
  - intros c' Hc'. destruct (J3 c' ltac:(by right)) as (H1 & -> & ->). split; [done |]. by apply Hgeo.
  - intros k Hk. rewrite J4 by lia. cbn [kmalloc_cache]. apply upd_ne. lia.
  - intros [| k] m; cbn [lookup list_lookup].
    + intros [= <-]. exists c. destruct (J3 c ltac:(left)) as (H1 & -> & ->). rewrite Nat.add_0_r, J4 by lia. cbn [kmalloc_cache].
      rewrite upd_eq. do 2 (split; [done |]). split; [by intros -> |]. split; [by intros -> | done].
    + intros Hk. rewrite Nat.add_succ_r, <- Nat.add_succ_l. by apply J5.
Qed.

Lemma kmalloc_init_spec w cs own cpu t : implements (CState w cs own) -> 0 <= cpu < NCPU_MAX ->
  match kmalloc_init cc mc w cpu t with
  | Ret (w', t') => exists cs', implements (CState w' cs' own) /\ tables_ok w' cs' t'
  | Panic _ => exists w' cs', implements (CState w' cs' own) /\ kalloc_ok (ka w') []
  end.
Proof.
  intros Hi Hcpu. unfold kmalloc_init. destruct (idx_loop_spec (kmalloc_idx t)) as (idx & -> & Hidx). cbn [mbind res_bind].
  pose proof (cache_loop_spec cpu own kmalloc_size Hcpu ltac:(repeat constructor; done) w cs (KmallocTables (kmalloc_cache t) idx) 0 Hi) as H.
  change (Z.of_nat 0) with 0 in H. destruct (cache_loop _ _ _ _ _ _ _) as [[w' t'] |]; [| done].
  destruct H as (cs' & H1 & H2 & _ & _ & H5). exists cs'. split; [done |]. split; [exact H5 |]. rewrite H2. exact Hidx.
Qed.

(** ** Theorems *)

(** [kmalloc_init] ends, with every size class served by a cache of its own of exactly
    that object size and the index sending every multiple of 16 to the smallest class that
    holds it, whatever the tables held before; it panics only when memory runs out. *)
Theorem kmalloc_init_builds_tables w cs own cpu t : implements (CState w cs own) -> 0 <= cpu < NCPU_MAX ->
  match kmalloc_init cc mc w cpu t with
  | Ret (w', t') => exists cs', implements (CState w' cs' own) /\ tables_ok w' cs' t'
  | Panic _ => exists w' cs', implements (CState w' cs' own) /\ kalloc_ok (ka w') []
  end.
Proof. apply kmalloc_init_spec. Qed.

(** [kmalloc] returns on every size: the zero-size pointer for 0; up to 1024 bytes a
    16-byte aligned object nobody holds, of the smallest class that fits, or NULL with no
    page free; up to a page a page not in use, or NULL with no page free; NULL above. *)
Theorem kmalloc_dispatch w cs own t cpu size : implements (CState w cs own) -> tables_ok w cs t -> 0 <= cpu < NCPU_MAX -> 0 <= size ->
  exists w' r, kmalloc mc t w cpu size = Ret (w', r) /\ tables_ok w' cs t /\
  if size =? 0 then r = Some ZERO_SIZE_PTR /\ w' = w
  else if size <=? 1024 then
    match r with
    | Some p => exists c n, best_fit kmalloc_size size = Some n /\ size <= n /\ objsize (caches w' c) = n /\ p mod 16 = 0 /\
        (forall c', (c', p) ∉ own) /\ implements (CState w' cs ((c, p) :: own))
    | None => implements (CState w' cs own) /\ kalloc_ok (ka w) []
    end
  else if size <=? 4096 then implements (CState w' cs own) /\
    match r with
    | Some p => is_page p /\ page_flags (ka w) (KVA_TO_PA p) <> Some PG_USED /\ page_flags (ka w') (KVA_TO_PA p) = Some PG_USED
    | None => kalloc_ok (ka w) []
    end
  else r = None /\ w' = w.
Proof.
  intros Hi Ht Hcpu Hs. unfold kmalloc. destruct (Z.eqb_spec size 0) as [-> | H0]; [by exists w, (Some ZERO_SIZE_PTR) |].
  unfold KMALLOC_MAX_SLAB, PGSIZE. destruct (Z.leb_spec size 1024) as [H1 | H1].
  - cbn zeta. rewrite round_size by lia. destruct (kmalloc_class w cs t size Ht ltac:(lia)) as (c & n & -> & Hn & Hc & N1 & N2 & Hsz & Hoff).
    pose proof Hi as [I1 I2 [l I3] I4 I5 I6]. cbn [st_w st_cs st_own] in *.
    destruct (kmem_cache_alloc_spec cc mc Hne w cs cpu c l I1 I2 I3 Hc N2 Hcpu) as (w1 & r & l1 & E & Hok1 & _ & _ & Hg & Hgv).
    exists w1, r. split; [done |]. split; [by eapply tables_geo |].
    pose proof (alloc_implements cc mc Hne w cs own cpu c w1 r Hi Hc N1 N2 Hcpu E) as Hi1.
    destruct r as [p |]; [| split; [done | apply Hgv]]. destruct (best_fit_spec _ _ _ Hn) as [Hin Hle].
    exists c, n. destruct (proj2 Hg c) as (pa & f & e & F & E' & cp & Eg). split; [done |]. split; [done |]. split; [by rewrite Eg |].
    split; [| split; [| done]].
    + assert (Hlv : live mc w1 cs c p) by (apply Hgv; by right). destruct Hlv as (_ & Htk & _).
      pose proof (so_slabs _ _ _ _ Hok1 c Hc) as Hsl. destruct Htk as (s & i & Hss & Hi' & -> & _).
      destruct (sl_page _ _ _ (sc_slab _ _ Hsl s Hss)) as [Hr Hm] eqn:Ep. rewrite slab_obj_eq by (done || apply Hsl || by rewrite Eg in *).
      rewrite Eg. cbn [set_depot set_lists objsize obj_offset]. rewrite Hsz, Hoff. assert (Hn16 : n mod 16 = 0).
      { clear - Hin. revert n Hin. apply Forall_forall. repeat constructor. }
      clear - Hm Hn16. apply Z.mod_divide in Hn16 as [q ->]; [| done]. Z.div_mod_to_equations. nia.
    + intros c' Hx. destruct Hgv as [Hf _]. apply (Hf c'), I4. by left.
  - destruct (Z.leb_spec size 4096) as [H2 | H2]; [| by exists w, None].
    destruct (kmalloc_page w cs own Hi) as (w1 & r & E & Hi1 & Hg & Hr). exists w1, r. split; [done |]. split; [by eapply tables_geo | done].
Qed.

(** [kfree] undoes [kmalloc], told only the address: NULL and the zero-size pointer
    change nothing; an object goes back to its cache and nothing else changes hands; a
    whole page becomes free. *)
Theorem kfree_gives_back w cs own cpu : implements (CState w cs own) -> 0 <= cpu < NCPU_MAX ->
  (forall p, 0 <= p <= ZERO_SIZE_PTR -> kfree mc w cpu p = Ret w) /\
  (forall c o, (c, o) ∈ own -> mag_room mc w cs c -> exists w', kfree mc w cpu o = Ret w' /\ implements (CState w' cs (disown (c, o) own))) /\
  (forall p, is_page p -> page_flags (ka w) (KVA_TO_PA p) = Some PG_USED ->
     exists w', kfree mc w cpu p = Ret w' /\ implements (CState w' cs own) /\ page_flags (ka w') (KVA_TO_PA p) = Some PG_FREE).
Proof.
  intros Hi Hcpu. pose proof Hi as [I1 I2 [l I3] I4 I5 I6]. cbn [st_w st_cs st_own] in *. unfold kfree, ZERO_SIZE_PTR. split; [| split].
  - intros p Hp. destruct (Z.leb_spec p 16); [done | lia].
  - intros c o Hin Hroom. assert (Hl : live mc w cs c o) by (apply I4; by left). destruct (I5 c o Hin) as [N1 N2].
    destruct (live_place cc mc w cs c o I1 Hl) as (Hf & Ho & _). pose proof Hl as (Hc & Htk & _).
    destruct (taken_slot w c o (so_slabs _ _ _ _ I1 c Hc) Htk) as (i & Hs & _).
    destruct (sl_page _ _ _ (sc_slab _ _ (so_slabs _ _ _ _ I1 c Hc) _ Hs)) as [Hr _]. unfold KERN_BASE in Hr. unfold sizeof_slab in Ho.
    destruct (Z.leb_spec o 16); [lia |]. unfold kpage_is_slab. unfold page_flags in Hf.
    destruct (pa_to_page _ _) as [pg |]; [| done]. cbn in Hf. injection Hf as ->. cbn [Z.eqb PG_SLAB Pos.eqb].
    unfold kmem_free. rewrite (live_header cc mc w cs c o I1 Hl).
    destruct (kmem_cache_free_spec cc mc Hne w cs cpu c l o I1 I2 I3) as (w1 & E & _); try done.
    exists w1. split; [done |]. by apply (free_implements cc mc Hne w cs own cpu c o).
  - intros p Hp Hu. destruct (kfree_page w cs own p Hi Hp Hu) as (k & -> & Hi' & Hf). destruct Hp as [Hr Hm]. unfold KERN_BASE in Hr.
    destruct (Z.leb_spec p 16); [lia |]. unfold kpage_is_slab. rewrite PGROUNDDW_eq by lia.
    replace (p / 4096 * 4096) with p by (Z.div_mod_to_equations; lia). unfold page_flags in Hu.
    destruct (pa_to_page _ _) as [pg |]; [| done]. cbn in Hu. injection Hu as ->. cbn [mbind res_bind Z.eqb PG_SLAB PG_USED Pos.eqb].
    exists (set_ka w k). done.
Qed.
End kmalloc.

(** ** Witnesses *)

Definition t0 : kmalloc_tables := KmallocTables (fun _ => None) (fun _ => 0).
Definition k1 := ret_of (booted, t0) (kmalloc_init cc0 mc0 (kmem_init cc0 mc0 booted) 0 t0).

Lemma booted_implements : implements cc0 mc0 (CState (kmem_init cc0 mc0 booted) [cc0; mc0] []).
Proof. apply init_implements; [done | exact booted_ok]. Qed.

Lemma k1_step : kmalloc_init cc0 mc0 (kmem_init cc0 mc0 booted) 0 t0 = Ret (k1.1, k1.2).
Proof. unfold k1. apply (ret_pair (booted, t0)); [vm_compute; reflexivity | reflexivity]. Qed.

Lemma kmalloc_init_builds_tables_witness :
  exists cs, implements cc0 mc0 (CState k1.1 cs []) /\ tables_ok cc0 mc0 k1.1 cs k1.2.
Proof.
  pose proof (kmalloc_init_builds_tables cc0 mc0 ltac:(done) (kmem_init cc0 mc0 booted) [cc0; mc0] [] 0 t0 booted_implements ltac:(done)) as H.
  rewrite k1_step in H. exact H.
Defined.

Lemma k1_ok : exists cs, implements cc0 mc0 (CState k1.1 cs []) /\ tables_ok cc0 mc0 k1.1 cs k1.2.
Proof.
  pose proof (kmalloc_init_spec cc0 mc0 ltac:(done) (kmem_init cc0 mc0 booted) [cc0; mc0] [] 0 t0 booted_implements ltac:(done)) as H.
  rewrite k1_step in H. exact H.
Qed.

Lemma kmalloc_dispatch_witness : exists w' p, kmalloc mc0 k1.2 k1.1 0 100 = Ret (w', Some p) /\ p mod 16 = 0.
Proof.
  destruct k1_ok as (cs & Hi & Ht).
  destruct (kmalloc_dispatch cc0 mc0 ltac:(done) k1.1 cs [] k1.2 0 100 Hi Ht ltac:(done) ltac:(done)) as (w' & r & E & _ & H).
  assert (Hr : r = Some 0xFFFF000040004040).
  { apply (f_equal (fun x => (ret_of (booted, None) x).2)) in E. vm_compute in E. congruence. }
  subst r. exists w', 0xFFFF000040004040. split; [exact E |]. destruct H as (c & n & _ & _ & _ & H & _). exact H.
Defined.

Lemma kfree_gives_back_witness : exists w', kfree mc0 r3.1 0 o2 = Ret w' /\
  implements cc0 mc0 (CState w' [c1; cc0; mc0] (disown (c1, o2) [(c1, o3); (c1, o2)])).
Proof.
  destruct (kfree_gives_back cc0 mc0 ltac:(done) r3.1 [c1; cc0; mc0] [(c1, o3); (c1, o2)] 0 run3_implements ltac:(done)) as (_ & H & _).
  apply (H c1 o2 ltac:(right; left) room3).
Defined.
