(* ===== verification/Pmap.v ===== *)
(** * User page tables

    Models the user half of arch/pmap.c: [ptalloc], [walk], [mappages], [uvmcopy],
    [uvmalloc], [uvmunmap_range], [uvmdealloc], [uvmcreate], [freewalk] and [uvmfree].

    Kernel memory is a total map from (8-byte aligned) DMAP addresses to 64-bit words,
    so [&pagetable[i]] is [pagetable + 8 * i]; pages come from the interface
    [PageAlloc]. Every operation passes the state [vm] on, on its error paths too.
    The barriers and cache maintenance ([dsb_ishst], [icache_sync_page]) have no effect
    on this state and are left out.

    The recursions follow the four levels of the table: [n] counts the levels below
    the current one. The loop of [uvmunmap_range] advances by one entry up to
    [va_end], so the count of entries left is its measure. *)

From stdpp Require Import sorting.
From S2P Require Import Prelude Bits Mmu Pages.

Definition pt_shift (level : Z) : Z :=
  match level with
  | 0 => L0_SHIFT
  | 1 => L1_SHIFT
  | 2 => L2_SHIFT
  | _ => L3_SHIFT
  end.

(** The words of kernel memory and the page allocator. *)
Record vm (A : Type) := Vm { kw : Z -> Z; al : A }.
Arguments Vm {A} kw al.
Arguments kw {A} v.
Arguments al {A} v.

Definition valid (pte : Z) : bool := negb (Z.land pte PTE_VALID =? 0).

(** memset(page, 0, PGSIZE) and memcpy(dst, src, PGSIZE), on the words of a page. *)
Definition in_page (p a : Z) : bool := (p <=? a) && (a <? p + PGSIZE).

Definition zero_page (w : Z -> Z) (p : Z) : Z -> Z := fun a => if in_page p a then 0 else w a.

Definition copy_page (w : Z -> Z) (dst src : Z) : Z -> Z :=
  fun a => if in_page dst a then w (src + (a - dst)) else w a.

Section ops.
Context {A : Type} `{PageAlloc A}.

Definition store (st : vm A) (a v : Z) : vm A := Vm ((kw st).[a <- v]) (al st).

Definition kpage_alloc_vm (st : vm A) : res (vm A * option Z) :=
  '(a, r) ← pa_alloc (al st); Ret (Vm (kw st) a, r).

Definition kpage_free_vm (st : vm A) (p : Z) : res (vm A) :=
  a ← pa_free (al st) p; Ret (Vm (kw st) a).

Definition ptalloc (st : vm A) : res (vm A * option Z) :=
  '(st, m) ← kpage_alloc_vm st;
  Ret match m with
      | None => (st, None)
      | Some p => (Vm (zero_page (kw st) p) (al st), Some p)
      end.

(** The loop over the levels [level .. 2]. *)
Fixpoint walk_levels (n : nat) (st : vm A) (pagetable va level : Z) (alloc : bool) : res (vm A * option Z) :=
  match n with
  | O => Ret (st, Some (pagetable + 8 * L3X va))
  | S n' =>
      let pte := pagetable + 8 * Z.land (Z.shiftr va (pt_shift level)) (TABLE_ENTRIES - 1) in
      if valid (kw st pte) then walk_levels n' st (PA_TO_KVA (PTE_ADDR (kw st pte))) va (level + 1) alloc
      else if negb alloc then Ret (st, None)
      else
        '(st, next) ← ptalloc st;
        match next with
        | None => Ret (st, None)
        | Some next =>
            walk_levels n' (store st pte (Z.lor (Z.lor (KVA_TO_PA next) PTE_VALID) PTE_TABLE)) next va
              (level + 1) alloc
        end
  end.

Definition walk (st : vm A) (pagetable va : Z) (alloc : bool) : res (vm A * option Z) :=
  kassert (va <? MAXUVA) msg "walk: va %#lx out of range" ;;
  walk_levels 3 st pagetable va 0 alloc.

(** while (true) { .. if (a == last) break; a += PGSIZE; pa += PGSIZE; }
    The pages from [a] to [last] are the measure, or to MAXUVA, where [walk] panics,
    when the end has wrapped below [a]. *)
Fixpoint mappages_loop (fuel : nat) (st : vm A) (pagetable a last pa perm : Z) : res (vm A * Z) :=
  match fuel with
  | O => Ret (st, 0)
  | S fuel' =>
      '(st, pte) ← walk st pagetable a true;
      match pte with
      | None => Ret (st, -1)
      | Some pte =>
          kassert (negb (valid (kw st pte))) msg "mappages: remap at va %#lx" ;;
          let st := store st pte (Z.lor pa perm) in
          if a =? last then Ret (st, 0)
          else mappages_loop fuel' st pagetable (u64 (a + PGSIZE)) last (u64 (pa + PGSIZE)) perm
      end
  end.

Definition mappages (st : vm A) (pagetable va pa sz perm : Z) : res (vm A * Z) :=
  kassert (negb (sz =? 0)) msg "mappages: sz == 0" ;;
  let a := PGROUNDDW va in
  let last := PGROUNDDW (u64 (u64 (va + sz) - 1)) in
  let stop := if last <? a then MAXUVA else last in
  mappages_loop (S (Z.to_nat ((stop - a) / PGSIZE))) st pagetable a last pa perm.

(** for (va = USER_BASE; va < USER_BASE + sz; va += PGSIZE) *)
Fixpoint uvmcopy_loop (fuel : nat) (st : vm A) (src dst va e : Z) : res (vm A * Z) :=
  match fuel with
  | O => Ret (st, 0)
  | S fuel' =>
      if negb (va <? e) then Ret (st, 0)
      else
        '(st, pte) ← walk st src va false;
        match pte with
        | None => uvmcopy_loop fuel' st src dst (u64 (va + PGSIZE)) e
        | Some pte =>
            if negb (valid (kw st pte)) then uvmcopy_loop fuel' st src dst (u64 (va + PGSIZE)) e
            else
              let pa := PTE_ADDR (kw st pte) in
              let flags := Z.lxor (kw st pte) pa in
              '(st, m) ← kpage_alloc_vm st;
              match m with
              | None => Ret (st, -1)
              | Some m =>
                  let st := Vm (copy_page (kw st) m (PA_TO_KVA pa)) (al st) in
                  '(st, r) ← mappages st dst va (KVA_TO_PA m) PGSIZE flags;
                  if r <? 0 then st ← kpage_free_vm st m; Ret (st, -1)
                  else uvmcopy_loop fuel' st src dst (u64 (va + PGSIZE)) e
              end
        end
  end.

Definition uvmcopy (st : vm A) (src dst sz : Z) : res (vm A * Z) :=
  uvmcopy_loop (S (Z.to_nat ((u64 (USER_BASE + sz) + 4095) / PGSIZE))) st src dst USER_BASE (u64 (USER_BASE + sz)).

(** for (j = 0; j < TABLE_ENTRIES; j++) if (child[j] != 0) break; j == TABLE_ENTRIES *)
Fixpoint all_zero (n : nat) (w : Z -> Z) (child j : Z) : bool :=
  match n with
  | O => true
  | S n' => if negb (w (child + 8 * j) =? 0) then false else all_zero n' w child (j + 1)
  end.

(** One entry of a table; [rec] is the call one level down. *)
Definition unmap_entry (rec : vm A -> Z -> Z -> Z -> res (vm A)) (st : vm A) (table level : Z)
  (va_start va_end va : Z) : res (vm A) :=
  let shift := pt_shift level in
  let pte := table + 8 * Z.land (Z.shiftr va shift) (TABLE_ENTRIES - 1) in
  let next_va := u64 (va + Z.shiftl 1 shift) in
  if valid (kw st pte) then
    if level =? 3 then
      if (va >=? va_start) && (va <? va_end) then
        st ← kpage_free_vm st (PA_TO_KVA (PTE_ADDR (kw st pte)));
        Ret (store st pte 0)
      else Ret st
    else
      let child := PA_TO_KVA (PTE_ADDR (kw st pte)) in
      let sub_start := if va_start >? va then va_start else va in
      let sub_end := if va_end <? next_va then va_end else next_va in
      st ← rec st child sub_start sub_end;
      if all_zero 512 (kw st) child 0
      then st ← kpage_free_vm st child; Ret (store st pte 0)
      else Ret st
  else Ret st.

(** The loop over the entries of one table. *)
Fixpoint unmap_loop (rec : vm A -> Z -> Z -> Z -> res (vm A)) (fuel : nat) (st : vm A) (table level : Z)
  (va_start va_end va : Z) : res (vm A) :=
  match fuel with
  | O => Ret st
  | S fuel' =>
      if negb (va <? va_end) then Ret st
      else
        st ← unmap_entry rec st table level va_start va_end va;
        unmap_loop rec fuel' st table level va_start va_end (u64 (va + Z.shiftl 1 (pt_shift level)))
  end.

(** [n] levels lie below the table: level = 3 - n. *)
Fixpoint uvmunmap_range (n : nat) (st : vm A) (table : Z) (va_start va_end : Z) : res (vm A) :=
  let level := 3 - Z.of_nat n in
  let entry_size := Z.shiftl 1 (pt_shift level) in
  let va := Z.land va_start (not64 (entry_size - 1)) in
  unmap_loop
    (match n with
     | O => fun st _ _ _ => Ret st
     | S n' => fun st child s e => uvmunmap_range n' st child s e
     end)
    (S (Z.to_nat ((va_end - va) / entry_size + 1))) st table level va_start va_end va.

Definition uvmdealloc (st : vm A) (pagetable oldsz newsz : Z) : res (vm A * Z) :=
  if newsz >=? oldsz then Ret (st, oldsz)
  else
    let va_start := u64 (USER_BASE + PGROUNDUP newsz) in
    let va_end := u64 (USER_BASE + PGROUNDUP oldsz) in
    st ← (if va_start <? va_end then uvmunmap_range 3 st pagetable va_start va_end else Ret st);
    Ret (st, newsz).

(** for (a = oldsz; a < newsz; a += PGSIZE) *)
Fixpoint uvmalloc_loop (fuel : nat) (st : vm A) (pagetable oldsz newsz a : Z) : res (vm A * Z) :=
  match fuel with
  | O => Ret (st, newsz)
  | S fuel' =>
      if negb (a <? newsz) then Ret (st, newsz)
      else
        '(st, m) ← kpage_alloc_vm st;
        match m with
        | None => '(st, _) ← uvmdealloc st pagetable a oldsz; Ret (st, 0)
        | Some m =>
            let st := Vm (zero_page (kw st) m) (al st) in
            '(st, r) ← mappages st pagetable (u64 (USER_BASE + a)) (KVA_TO_PA m) PGSIZE PAGE_USER;
            if r <? 0 then
              st ← kpage_free_vm st m;
              '(st, _) ← uvmdealloc st pagetable a oldsz;
              Ret (st, 0)
            else uvmalloc_loop fuel' st pagetable oldsz newsz (u64 (a + PGSIZE))
        end
  end.

Definition uvmalloc (st : vm A) (pagetable oldsz newsz : Z) : res (vm A * Z) :=
  if newsz <? oldsz then Ret (st, oldsz)
  else
    let oldsz := PGROUNDUP oldsz in
    uvmalloc_loop (S (Z.to_nat ((newsz - oldsz) / PGSIZE + 1))) st pagetable oldsz newsz oldsz.

Definition uvmcreate (st : vm A) : res (vm A * option Z) := ptalloc st.

(** for (i = 0; i < TABLE_ENTRIES; i++), [rec] being freewalk one level down. *)
Fixpoint freewalk_loop (rec : vm A -> Z -> res (vm A)) (leaf : bool) (n : nat) (st : vm A) (pagetable i : Z)
  : res (vm A) :=
  match n with
  | O => Ret st
  | S n' =>
      let entry := kw st (pagetable + 8 * i) in
      st ← (if negb (valid entry) then Ret st
            else
              let child := PA_TO_KVA (PTE_ADDR entry) in
              st ← (if leaf then kpage_free_vm st child else rec st child);
              Ret (store st (pagetable + 8 * i) 0));
      freewalk_loop rec leaf n' st pagetable (i + 1)
  end.

Fixpoint freewalk (n : nat) (st : vm A) (pagetable : Z) : res (vm A) :=
  st ← freewalk_loop
         (match n with O => fun st _ => Ret st | S n' => fun st child => freewalk n' st child end)
         (match n with O => true | S _ => false end) 512 st pagetable 0;
  kpage_free_vm st pagetable.

Definition uvmfree (st : vm A) (pagetable : Z) : res (vm A) := freewalk 3 st pagetable.
End ops.

(** The value [switchuvm] writes to TTBR0. *)
Definition switchuvm_ttbr (asid pagetable : Z) : res Z :=
  kassert (negb (pagetable =? 0)) msg "switchuvm: no page table" ;;
  Ret (Z.lor (u64 (Z.shiftl asid 48)) (KVA_TO_PA pagetable)).

(** ** The tree a table holds

    [ptree h] is a table with [h] levels below its parent's entry: a page descriptor
    for 0, otherwise the table's address and its entries. *)

Fixpoint ptree (h : nat) : Type :=
  match h with
  | O => Z
  | S h' => Z * (Z -> option (ptree h'))
  end.

Definition leafpage (v : Z) : Z := PA_TO_KVA (PTE_ADDR v).

Definition table_desc (b : Z) : Z := Z.lor (Z.lor (KVA_TO_PA b) PTE_VALID) PTE_TABLE.

(** The descriptor of a (sub)tree in its parent. *)
Definition entry (h : nat) : ptree h -> Z :=
  match h with
  | O => fun v => v
  | S _ => fun t => table_desc t.1
  end.

(** Memory holds the tree: an absent entry is 0, a present one is valid. *)
Fixpoint rep (w : Z -> Z) (h : nat) : ptree h -> Prop :=
  match h with
  | O => fun _ => True
  | S h' => fun t => forall i, 0 <= i < 512 ->
      match t.2 i with
      | None => w (t.1 + 8 * i) = 0
      | Some c => w (t.1 + 8 * i) = entry h' c /\ valid (entry h' c) = true /\ rep w h' c
      end
  end.

Definition over {B C} (ch : Z -> option B) (F : B -> list C) : list C :=
  flat_map (fun i => match ch i with Some c => F c | None => [] end) (seqZ 0 512).

(** The pages of the tree, tables and mapped pages, and the tables alone. *)
Fixpoint pgs (h : nat) : ptree h -> list Z :=
  match h with
  | O => fun v => [leafpage v]
  | S h' => fun t => t.1 :: over t.2 (pgs h')
  end.

Fixpoint tabs (h : nat) : ptree h -> list Z :=
  match h with
  | O => fun _ => []
  | S h' => fun t => t.1 :: over t.2 (tabs h')
  end.

(** The entry of page number [vpn] in a table with [h] levels below it. *)
Definition ix (h : nat) (vpn : Z) : Z := vpn / 512 ^ Z.of_nat h mod 512.

(** The mapping: page number to page descriptor. *)
Fixpoint tmap (h : nat) : ptree h -> Z -> option Z :=
  match h with
  | O => fun v _ => Some v
  | S h' => fun t vpn => match t.2 (ix h' vpn) with Some c => tmap h' c vpn | None => None end
  end.

(** Where the walk ends: the address of the L3 entry. *)
Fixpoint slot (n : nat) : ptree (S n) -> Z -> option Z :=
  match n with
  | O => fun t vpn => Some (t.1 + 8 * ix 0 vpn)
  | S n' => fun t vpn => match t.2 (ix (S n') vpn) with Some c => slot n' c vpn | None => None end
  end.

(** ** Lemmas: descriptors *)

Lemma is_page_kva p : is_page p -> 0 <= KVA_TO_PA p < 2 ^ 48 /\ KVA_TO_PA p mod 4096 = 0 /\
  PA_TO_KVA (KVA_TO_PA p) = p.
Proof.
  intros [H1 H2]. unfold KVA_TO_PA, KERN_BASE in *. rewrite u64_small by lia. split; [lia |].
  split; [Z.div_mod_to_equations; lia |]. unfold PA_TO_KVA, KERN_BASE. rewrite u64_small by lia. lia.
Qed.

Lemma PTE_ADDR_val v : PTE_ADDR v = (v / 4096) mod 2 ^ 36 * 4096.
Proof. unfold PTE_ADDR. change 0x0000FFFFFFFFF000 with (Z.shiftl (Z.ones 36) 12). apply land_field; lia. Qed.

Lemma valid_odd v : valid v = (v mod 2 =? 1).
Proof.
  unfold valid, PTE_VALID. change (Z.shiftl 1 0) with (Z.ones 1). rewrite Z.land_ones by lia.
  change (2 ^ 1) with 2. destruct (Z.eqb_spec (v mod 2) 0), (Z.eqb_spec (v mod 2) 1); try done;
  Z.div_mod_to_equations; lia.
Qed.

Lemma table_desc_val b : is_page b -> table_desc b = KVA_TO_PA b + 3.
Proof.
  intros Hb. destruct (is_page_kva b Hb) as (H1 & H2 & _). unfold table_desc. rewrite <- Z.lor_assoc.
  change (Z.lor PTE_VALID PTE_TABLE) with 3. revert H1 H2. generalize (KVA_TO_PA b). intros pa H1 H2.
  replace pa with (pa / 4096 * 2 ^ 12) at 1 by (Z.div_mod_to_equations; lia).
  rewrite lor_low by lia. Z.div_mod_to_equations. lia.
Qed.

Lemma table_desc_addr b : is_page b -> PA_TO_KVA (PTE_ADDR (table_desc b)) = b.
Proof.
  intros Hb. rewrite table_desc_val by done. destruct (is_page_kva b Hb) as (H1 & H2 & H3).
  rewrite <- H3 at 2. f_equal. rewrite PTE_ADDR_val. Z.div_mod_to_equations. lia.
Qed.

Lemma table_desc_valid b : is_page b -> valid (table_desc b) = true.
Proof.
  intros Hb. rewrite table_desc_val, valid_odd by done. destruct (is_page_kva b Hb) as (H1 & H2 & _).
  apply Z.eqb_eq. Z.div_mod_to_equations. lia.
Qed.

(** A descriptor of page [pa] with attribute bits that leave the address alone. *)
Definition perm_ok (perm : Z) : Prop := Z.land perm 0x0000FFFFFFFFF000 = 0 /\ Z.testbit perm 0 = true.

Lemma page_desc_addr pa perm : 0 <= pa < 2 ^ 48 -> pa mod 4096 = 0 -> perm_ok perm ->
  PTE_ADDR (Z.lor pa perm) = pa /\ valid (Z.lor pa perm) = true.
Proof.
  intros H1 H2 [H3 H4]. split.
  - unfold PTE_ADDR. rewrite Z.land_lor_distr_l, H3, Z.lor_0_r. fold (PTE_ADDR pa). rewrite PTE_ADDR_val.
    Z.div_mod_to_equations. lia.
  - unfold valid, PTE_VALID. change (Z.shiftl 1 0) with 1. destruct (Z.eqb_spec (Z.land (Z.lor pa perm) 1) 0) as [E |]; [| done].
    exfalso. assert (Z.testbit (Z.land (Z.lor pa perm) 1) 0 = false) as E' by (by rewrite E).
    rewrite Z.land_spec, Z.lor_spec, H4, orb_true_r in E'. done.
Qed.

Lemma PAGE_USER_ok : perm_ok PAGE_USER.
Proof. split; reflexivity. Qed.

(** ** Lemmas: pages and frames *)

Lemma in_page_slot b i : 0 <= i < 512 -> in_page b (b + 8 * i) = true.
Proof. unfold in_page, PGSIZE. intros. apply andb_true_iff. lia. Qed.

Lemma in_page_disjoint p q a : is_page p -> is_page q -> p <> q -> in_page p a = true -> in_page q a = false.
Proof.
  unfold is_page, in_page, PGSIZE. intros [_ Hp] [_ Hq] Hne H. zbool. apply andb_false_iff.
  destruct (Z.leb_spec q a), (Z.ltb_spec a (q + 4096)); auto. exfalso. Z.div_mod_to_equations. lia.
Qed.

Lemma in_page_eq p q a : is_page p -> is_page q -> in_page p a = true -> in_page q a = true -> p = q.
Proof.
  intros Hp Hq H1 H2. destruct (decide (p = q)) as [| Hne]; [done |].
  by rewrite (in_page_disjoint p q a Hp Hq Hne H1) in H2.
Qed.

(** [w'] is [w] on page [p]. *)
Definition same_on (w w' : Z -> Z) (p : Z) : Prop := forall a, in_page p a = true -> w' a = w a.

Lemma same_on_trans w1 w2 w3 p : same_on w1 w2 p -> same_on w2 w3 p -> same_on w1 w3 p.
Proof. intros H1 H2 a Ha. by rewrite H2, H1. Qed.

Lemma same_on_upd w p q a v : is_page p -> is_page q -> p <> q -> in_page p a = true -> same_on w (w.[a <- v]) q.
Proof.
  intros Hp Hq Hne Ha x Hx. rewrite upd_ne; [done |]. intros ->.
  by rewrite (in_page_disjoint p q a) in Hx.
Qed.

Lemma same_on_zero w p q : is_page p -> is_page q -> p <> q -> same_on w (zero_page w p) q.
Proof. intros Hp Hq Hne a Ha. unfold zero_page. by rewrite (in_page_disjoint q p a). Qed.

(** ** Lemmas: the children of a table *)

Lemma elem_of_over {B C} (ch : Z -> option B) (F : B -> list C) x :
  x ∈ over ch F <-> exists i c, 0 <= i < 512 /\ ch i = Some c /\ x ∈ F c.
Proof.
  unfold over. rewrite list_elem_of_In, in_flat_map. split.
  - intros (i & Hi & Hx). apply list_elem_of_In, elem_of_seqZ in Hi. apply list_elem_of_In in Hx.
    destruct (ch i) as [c |] eqn:E; [| by apply elem_of_nil in Hx]. exists i, c. split; [lia | done].
  - intros (i & c & Hi & Hc & Hx). exists i. split; [apply list_elem_of_In, elem_of_seqZ; lia |].
    rewrite Hc. by apply list_elem_of_In.
Qed.

(** One entry apart, the children's lists do not change. *)
Lemma over_split {B C} (F : B -> list C) (i : Z) (ch : Z -> option B) : 0 <= i < 512 ->
  exists rest, forall ch', (forall j, j <> i -> ch' j = ch j) ->
    over ch' F ≡ₚ match ch' i with Some c => F c | None => [] end ++ rest.
Proof.
  intros Hi. assert (Hin : i ∈ seqZ 0 512) by (apply elem_of_seqZ; lia).
  apply list_elem_of_split in Hin as (l1 & l2 & E).
  assert (Hnd : NoDup (l1 ++ i :: l2)) by (rewrite <- E; apply NoDup_seqZ).
  apply NoDup_app in Hnd as (_ & H1 & H2). apply NoDup_cons in H2 as [H2 _].
  exists (flat_map (fun j => match ch j with Some c => F c | None => [] end) (l1 ++ l2)).
  intros ch' Hch. unfold over. rewrite E, !flat_map_app. cbn [flat_map].
  assert (Heq : forall l, i ∉ l -> flat_map (fun j => match ch' j with Some c => F c | None => [] end) l =
    flat_map (fun j => match ch j with Some c => F c | None => [] end) l).
  { induction l as [| j l IH]; intros Hj; [done |]. cbn [flat_map]. apply not_elem_of_cons in Hj as [? ?].
    rewrite IH, Hch by done. done. }
  rewrite !Heq; [solve_Permutation | done |]. intros Hx. apply (H1 i Hx). left.
Qed.

Lemma over_upd {B C} (ch : Z -> option B) (F : B -> list C) i (o : option B) : 0 <= i < 512 ->
  exists rest,
    over ch F ≡ₚ match ch i with Some c => F c | None => [] end ++ rest /\
    over (ch.[i <- o]) F ≡ₚ match o with Some c => F c | None => [] end ++ rest.
Proof.
  intros Hi. destruct (over_split F i ch Hi) as [rest H]. exists rest. split; [by apply H |].
  rewrite (H (ch.[i <- o])); [by rewrite upd_eq |]. intros j Hj. by rewrite upd_ne.
Qed.

Lemma rep_frame w w' h (t : ptree h) : (forall b, b ∈ tabs h t -> same_on w w' b) -> rep w h t -> rep w' h t.
Proof.
  revert t. induction h as [| h IH]; intros t Hs Hr; [done |]. cbn [rep tabs] in *. intros i Hi.
  specialize (Hr i Hi). assert (Hw : w' (t.1 + 8 * i) = w (t.1 + 8 * i)).
  { apply (Hs t.1); [left | by apply in_page_slot]. }
  rewrite Hw. destruct (t.2 i) as [c |] eqn:E; [| done]. destruct Hr as (? & ? & Hr). split; [done |]. split; [done |].
  apply IH; [| done]. intros b Hb. apply Hs. right. apply elem_of_over. by exists i, c.
Qed.

Lemma tabs_pgs h (t : ptree h) p : p ∈ tabs h t -> p ∈ pgs h t.
Proof.
  revert t. induction h as [| h IH]; intros t; cbn [tabs pgs]; [by intros ?%elem_of_nil |].
  rewrite !elem_of_cons, !elem_of_over. intros [-> | (i & c & Hi & Hc & Hp)]; [by left | right].
  exists i, c. auto.
Qed.

Lemma pgs_child h (t : ptree (S h)) i c p : 0 <= i < 512 -> t.2 i = Some c -> p ∈ pgs h c -> p ∈ pgs (S h) t.
Proof. intros Hi Hc Hp. cbn [pgs]. right. apply elem_of_over. by exists i, c. Qed.

Lemma tabs_child h (t : ptree (S h)) i c p : 0 <= i < 512 -> t.2 i = Some c -> p ∈ tabs h c -> p ∈ tabs (S h) t.
Proof. intros Hi Hc Hp. cbn [tabs]. right. apply elem_of_over. by exists i, c. Qed.

Lemma ix_range h vpn : 0 <= ix h vpn < 512.
Proof. unfold ix. apply Z.mod_pos_bound. lia. Qed.

(** ** Ownership and growth *)

Section proofs.
Context {A : Type} `{PageAllocLaws A}.
Implicit Types st : vm A.

(** The tree is in memory and its pages are distinct pages in use. *)
Definition own st (h : nat) (t : ptree h) : Prop :=
  rep (kw st) h t /\ NoDup (pgs h t) /\ forall p, p ∈ pgs h t -> is_page p /\ pa_used (al st) p.

(** The step from [t] to [t'] takes only free pages (and the pages [L], which the
    caller owns) and writes only to them and to the tables of [t]. *)
Record grows st h (t : ptree h) st' (t' : ptree h) (L : list Z) : Prop := {
  g_ok : pa_ok (al st');
  g_own : own st' h t';
  g_entry : entry h t' = entry h t;
  g_used : forall p, is_page p -> pa_used (al st) p -> pa_used (al st') p;
  g_kept : forall p, p ∈ pgs h t -> p ∈ pgs h t';
  g_took : forall p, p ∈ L -> p ∈ pgs h t';
  g_from : forall p, p ∈ pgs h t' -> p ∈ pgs h t \/ p ∈ L \/ ~ pa_used (al st) p;
  g_acc : forall p, is_page p -> pa_used (al st') p -> pa_used (al st) p \/ p ∈ pgs h t';
  g_tabs : forall p, p ∈ tabs h t' -> p ∈ tabs h t \/ ~ pa_used (al st) p;
  g_frame : forall p, is_page p -> pa_used (al st) p -> p ∉ tabs h t -> same_on (kw st) (kw st') p
}.

Lemma grows_refl st h (t : ptree h) : pa_ok (al st) -> own st h t -> grows st h t st t [].
Proof. intros Hok Ho. split; try done; auto. by intros p ?%elem_of_nil. Qed.

Lemma grows_trans st1 st2 st3 h (t1 t2 t3 : ptree h) L1 L2 :
  grows st1 h t1 st2 t2 L1 -> grows st2 h t2 st3 t3 L2 ->
  (forall p, p ∈ L2 -> is_page p /\ pa_used (al st1) p) ->
  grows st1 h t1 st3 t3 (L1 ++ L2).
Proof.
  intros G1 G2 HL.
  assert (Hp3 : forall p, p ∈ pgs h t3 -> is_page p) by (intros p Hp; by apply (g_own _ _ _ _ _ _ G2)).
  assert (Hp2 : forall p, p ∈ pgs h t2 -> is_page p) by (intros p Hp; by apply (g_own _ _ _ _ _ _ G1)).
  split.
  - apply G2.
  - apply G2.
  - rewrite (g_entry _ _ _ _ _ _ G2). apply G1.
  - intros p Hp Hu. by apply (g_used _ _ _ _ _ _ G2), (g_used _ _ _ _ _ _ G1).
  - intros p Hp. by apply (g_kept _ _ _ _ _ _ G2), (g_kept _ _ _ _ _ _ G1).
  - intros p [Hp | Hp]%elem_of_app; [by apply (g_kept _ _ _ _ _ _ G2), (g_took _ _ _ _ _ _ G1) | by apply (g_took _ _ _ _ _ _ G2)].
  - intros p Hp. rewrite elem_of_app. destruct (g_from _ _ _ _ _ _ G2 p Hp) as [H2 | [H2 | H2]]; [| by auto |].
    + destruct (g_from _ _ _ _ _ _ G1 p H2) as [? | [? | ?]]; auto.
    + right. right. intros Hu. apply H2, (g_used _ _ _ _ _ _ G1); auto.
  - intros p Hp Hu. destruct (g_acc _ _ _ _ _ _ G2 p Hp Hu) as [Hu2 | ?]; [| by right].
    destruct (g_acc _ _ _ _ _ _ G1 p Hp Hu2) as [? | ?]; [by left | right].
    by apply (g_kept _ _ _ _ _ _ G2).
  - intros p Hp. pose proof (Hp3 p (tabs_pgs _ _ _ Hp)).
    destruct (g_tabs _ _ _ _ _ _ G2 p Hp) as [H2 | H2]; [by apply (g_tabs _ _ _ _ _ _ G1) |].
    right. intros Hu. by apply H2, (g_used _ _ _ _ _ _ G1).
  - intros p Hp Hu Hn. apply (same_on_trans _ (kw st2)); [by apply (g_frame _ _ _ _ _ _ G1) |]. apply (g_frame _ _ _ _ _ _ G2); [done | by apply (g_used _ _ _ _ _ _ G1) |].
    intros Ht. destruct (g_tabs _ _ _ _ _ _ G1 p Ht); done.
Qed.

Lemma own_child st h (t : ptree (S h)) i c : own st (S h) t -> 0 <= i < 512 -> t.2 i = Some c -> own st h c.
Proof.
  intros (Hr & Hnd & Hu) Hi Hc. split; [| split].
  - specialize (Hr i Hi). rewrite Hc in Hr. apply Hr.
  - destruct (over_upd t.2 (pgs h) i None Hi) as (rest & E & _). rewrite Hc in E.
    cbn [pgs] in Hnd. apply NoDup_cons in Hnd as [_ Hnd]. rewrite E in Hnd. by apply NoDup_app in Hnd as (? & _).
  - intros p Hp. apply Hu. by eapply pgs_child.
Qed.

(** The base of a table and its other children are outside one child. *)
Lemma own_apart st h (t : ptree (S h)) i c : own st (S h) t -> 0 <= i < 512 -> t.2 i = Some c ->
  (t.1 ∉ pgs h c) /\
  forall j d p, 0 <= j < 512 -> j <> i -> t.2 j = Some d -> p ∈ pgs h d -> p ∉ pgs h c.
Proof.
  intros (Hr & Hnd & Hu) Hi Hc. destruct (over_upd t.2 (pgs h) i None Hi) as (rest & E & E').
  rewrite Hc in E. cbn [pgs] in Hnd. apply NoDup_cons in Hnd as [Hb Hnd]. rewrite E in Hb, Hnd.
  rewrite elem_of_app in Hb. apply NoDup_app in Hnd as (_ & Hd & _). split; [tauto |].
  intros j d p Hj Hne Hdj Hp Hpc. apply (Hd p Hpc).
  assert (Hin : p ∈ over (t.2.[i <- None]) (pgs h)).
  { apply elem_of_over. exists j, d. rewrite upd_ne by done. done. }
  by rewrite E' in Hin.
Qed.

(** Replacing one child of a table. *)
Definition set_child {h} (t : ptree (S h)) (i : Z) (o : option (ptree h)) : ptree (S h) := (t.1, t.2.[i <- o]).

Lemma elem_of_set_child {h} (t : ptree (S h)) i o p : 0 <= i < 512 -> p ∈ pgs (S h) (set_child t i o) <->
  p = t.1 \/ (exists c, o = Some c /\ p ∈ pgs h c) \/
  (exists j c, 0 <= j < 512 /\ j <> i /\ t.2 j = Some c /\ p ∈ pgs h c).
Proof.
  intros Hi. unfold set_child. cbn [pgs fst snd]. rewrite elem_of_cons, elem_of_over. split.
  - intros [-> | (j & c & Hj & Hc & Hp)]; [by left | right].
    destruct (decide (j = i)) as [-> | Hne].
    + rewrite upd_eq in Hc. left. eauto.
    + rewrite upd_ne in Hc by done. right. eauto 10.
  - intros [-> | [(c & -> & Hp) | (j & c & Hj & Hne & Hc & Hp)]]; [by left | right | right].
    + exists i, c. by rewrite upd_eq.
    + exists j, c. by rewrite upd_ne.
Qed.

Lemma elem_of_tabs_set_child {h} (t : ptree (S h)) i o p : 0 <= i < 512 -> p ∈ tabs (S h) (set_child t i o) <->
  p = t.1 \/ (exists c, o = Some c /\ p ∈ tabs h c) \/
  (exists j c, 0 <= j < 512 /\ j <> i /\ t.2 j = Some c /\ p ∈ tabs h c).
Proof.
  intros Hi. unfold set_child. cbn [tabs fst snd]. rewrite elem_of_cons, elem_of_over. split.
  - intros [-> | (j & c & Hj & Hc & Hp)]; [by left | right].
    destruct (decide (j = i)) as [-> | Hne].
    + rewrite upd_eq in Hc. left. eauto.
    + rewrite upd_ne in Hc by done. right. eauto 10.
  - intros [-> | [(c & -> & Hp) | (j & c & Hj & Hne & Hc & Hp)]]; [by left | right | right].
    + exists i, c. by rewrite upd_eq.
    + exists j, c. by rewrite upd_ne.
Qed.

(** The tree with one child replaced is owned, when the new child is, is apart from
    the rest, and the rest of memory is as it was. *)
Lemma own_set_child st st' h (t : ptree (S h)) i o : 0 <= i < 512 -> own st (S h) t ->
  (forall p, p = t.1 \/ (exists j c, 0 <= j < 512 /\ j <> i /\ t.2 j = Some c /\ p ∈ pgs h c) ->
    pa_used (al st') p /\ forall c, o = Some c -> p ∉ pgs h c) ->
  (forall j c p, 0 <= j < 512 -> j <> i -> t.2 j = Some c -> p ∈ tabs h c -> same_on (kw st) (kw st') p) ->
  (forall j, 0 <= j < 512 -> j <> i -> kw st' (t.1 + 8 * j) = kw st (t.1 + 8 * j)) ->
  match o with
  | Some c => own st' h c /\ kw st' (t.1 + 8 * i) = entry h c /\ valid (entry h c) = true
  | None => kw st' (t.1 + 8 * i) = 0
  end ->
  own st' (S h) (set_child t i o).
Proof.
  intros Hi (Hr & Hnd & Hu) Hrest Hframe Hwords Ho. split; [| split].
  - intros j Hj. cbn [set_child fst snd]. destruct (decide (j = i)) as [-> | Hne].
    + rewrite upd_eq. destruct o as [c |]; [| done]. destruct Ho as ((? & _) & ? & ?). done.
    + rewrite upd_ne, Hwords by done. specialize (Hr j Hj). destruct (t.2 j) as [c |] eqn:E; [| done].
      destruct Hr as (? & ? & Hr). split; [done |]. split; [done |]. apply (rep_frame (kw st)); [| done].
      intros b Hb. by apply (Hframe j c).
  - destruct (over_upd t.2 (pgs h) i o Hi) as (rest & E1 & E2). cbn [pgs set_child fst snd] in *.
    rewrite E1 in Hnd. rewrite E2. apply NoDup_cons in Hnd as [Hb Hnd]. apply NoDup_app in Hnd as (_ & _ & Hnr).
    assert (Hrest' : forall p, p ∈ rest -> exists j c, 0 <= j < 512 /\ j <> i /\ t.2 j = Some c /\ p ∈ pgs h c).
    { intros p Hp. assert (Hin : p ∈ over (t.2.[i <- None]) (pgs h)).
      { destruct (over_split (pgs h) i t.2 Hi) as [rest' Hsp].
        rewrite (Hsp t.2 ltac:(done)) in E1. rewrite (Hsp (t.2.[i <- None])) by (intros; by rewrite upd_ne).
        rewrite upd_eq. apply Permutation_app_inv_l in E1. by rewrite E1. }
      apply elem_of_over in Hin as (j & c & Hj & Hc & Hpc). destruct (decide (j = i)) as [-> |].
      { by rewrite upd_eq in Hc. } rewrite upd_ne in Hc by done. eauto 10. }
    rewrite elem_of_app in Hb. destruct o as [c |]; [| cbn; apply NoDup_cons; split; tauto].
    destruct Ho as ((_ & Hndc & _) & _). apply NoDup_cons. rewrite elem_of_app. split.
    + intros [Hx | Hx]; [| tauto]. by apply (proj2 (Hrest t.1 ltac:(by left)) c).
    + apply NoDup_app. split; [done |]. split; [| done]. intros p Hp Hpr.
      by apply (proj2 (Hrest p ltac:(right; by apply Hrest')) c).
  - intros p Hp. rewrite elem_of_set_child in Hp by done. destruct Hp as [-> | [(c & -> & Hp) | Hp]].
    + split; [apply Hu; cbn [pgs]; left | apply Hrest; by left].
    + destruct Ho as ((_ & _ & Ho) & _). by apply Ho.
    + split; [| apply Hrest; by right]. destruct Hp as (j & c & Hj & _ & Hc & Hp). apply Hu. by eapply pgs_child.
Qed.

(** Growth of one child is growth of the table. *)
Lemma grows_child st st' h (t : ptree (S h)) i c c' L : 0 <= i < 512 -> own st (S h) t -> t.2 i = Some c ->
  grows st h c st' c' L -> (forall p, p ∈ L -> p ∉ pgs (S h) t) ->
  grows st (S h) t st' (set_child t i (Some c')) L.
Proof.
  intros Hi Ho Hc G HL. pose proof (own_apart st h t i c Ho Hi Hc) as [Hb Hsib].
  pose proof Ho as (Hr & Hnd & Hu).
  assert (is_page t.1 /\ pa_used (al st) t.1) as [Hbp Hbu] by (apply Hu; cbn [pgs]; left).
  assert (Hbt : t.1 ∉ tabs h c) by (intros Hx; by apply Hb, tabs_pgs).
  assert (Hfb : same_on (kw st) (kw st') t.1) by (by apply (g_frame _ _ _ _ _ _ G)).
  assert (Hsibs : forall j d p, 0 <= j < 512 -> j <> i -> t.2 j = Some d -> p ∈ pgs h d ->
    is_page p /\ pa_used (al st) p) by (intros; apply Hu; by eapply pgs_child).
  assert (Hout : forall p, pa_used (al st) p -> p ∈ pgs (S h) t -> p ∉ pgs h c -> p ∉ pgs h c').
  { intros p Hpu Hpt Hpc Hp. destruct (g_from _ _ _ _ _ _ G p Hp) as [? | [? |]]; try done. by eapply HL. }
  split.
  - apply G.
  - apply (own_set_child st); try done.
    + intros p [-> | (j & d & Hj & Hne & Hd & Hp)].
      * split; [by apply (g_used _ _ _ _ _ _ G) |]. intros ? [= <-]. apply Hout; [done | cbn [pgs]; left | done].
      * destruct (Hsibs j d p Hj Hne Hd Hp) as [Hpp Hpu]. split; [by apply (g_used _ _ _ _ _ _ G) |].
        intros ? [= <-]. apply Hout; [done | by eapply pgs_child | by eapply Hsib].
    + intros j d p Hj Hne Hd Hp. pose proof (tabs_pgs _ _ _ Hp) as Hp'.
      destruct (Hsibs j d p Hj Hne Hd Hp') as [Hpp Hpu]. apply (g_frame _ _ _ _ _ _ G); [done | done |].
      intros Hx. apply (Hsib j d p Hj Hne Hd Hp'). by apply tabs_pgs.
    + intros j Hj Hne. apply Hfb. by apply in_page_slot.
    + specialize (Hr i Hi). rewrite Hc in Hr. destruct Hr as (Hw & Hv & _).
      split; [apply G |]. rewrite (g_entry _ _ _ _ _ _ G). split; [| done].
      rewrite <- Hw. apply Hfb. by apply in_page_slot.
  - done.
  - apply G.
  - intros p Hp. rewrite elem_of_set_child by done. cbn [pgs] in Hp. rewrite elem_of_cons, elem_of_over in Hp.
    destruct Hp as [-> | (j & d & Hj & Hd & Hp)]; [by left | right]. destruct (decide (j = i)) as [-> | Hne].
    + left. exists c'. split; [done |]. apply (g_kept _ _ _ _ _ _ G). congruence.
    + right. eauto 10.
  - intros p Hp. rewrite elem_of_set_child by done. right. left. exists c'. split; [done |]. by apply (g_took _ _ _ _ _ _ G).
  - intros p Hp. rewrite elem_of_set_child in Hp by done. destruct Hp as [-> | [(? & [= <-] & Hp) | (j & d & Hj & _ & Hd & Hp)]].
    + left. cbn [pgs]. left.
    + destruct (g_from _ _ _ _ _ _ G p Hp) as [? | [? | ?]]; [| tauto | tauto]. left. by eapply pgs_child.
    + left. by eapply pgs_child.
  - intros p Hp Hpu. destruct (g_acc _ _ _ _ _ _ G p Hp Hpu) as [? | ?]; [by left | right].
    rewrite elem_of_set_child by done. right. left. eauto.
  - intros p Hp. rewrite elem_of_tabs_set_child in Hp by done.
    destruct Hp as [-> | [(? & [= <-] & Hp) | (j & d & Hj & _ & Hd & Hp)]].
    + left. cbn [tabs]. left.
    + destruct (g_tabs _ _ _ _ _ _ G p Hp) as [? | ?]; [left | by right]. by eapply tabs_child.
    + left. by eapply tabs_child.
  - intros p Hp Hpu Hn. apply (g_frame _ _ _ _ _ _ G); [done | done |]. intros Hx. apply Hn. by eapply tabs_child.
Qed.

(** A new child in an empty entry is growth. *)
Lemma grows_add st st' h (t : ptree (S h)) i c L : 0 <= i < 512 -> own st (S h) t -> t.2 i = None ->
  pa_ok (al st') -> own st' h c -> kw st' (t.1 + 8 * i) = entry h c -> valid (entry h c) = true ->
  (forall j, 0 <= j < 512 -> j <> i -> kw st' (t.1 + 8 * j) = kw st (t.1 + 8 * j)) ->
  (forall p, is_page p -> pa_used (al st) p -> pa_used (al st') p) ->
  (forall p, is_page p -> pa_used (al st') p -> pa_used (al st) p \/ p ∈ pgs h c) ->
  (forall p, p ∈ pgs h c -> p ∈ L \/ ~ pa_used (al st) p) ->
  (forall p, p ∈ L -> p ∈ pgs h c /\ p ∉ pgs (S h) t) ->
  (forall p, p ∈ tabs h c -> ~ pa_used (al st) p) ->
  (forall p, is_page p -> pa_used (al st) p -> p <> t.1 -> same_on (kw st) (kw st') p) ->
  grows st (S h) t st' (set_child t i (Some c)) L.
Proof.
  intros Hi Ho Hc Hok Hoc Hw Hv Hws Hused Hacc Hfrom HL Htab Hframe. pose proof Ho as (Hr & Hnd & Hu).
  assert (is_page t.1 /\ pa_used (al st) t.1) as [Hbp Hbu] by (apply Hu; cbn [pgs]; left).
  assert (Hbase : forall j d p, 0 <= j < 512 -> t.2 j = Some d -> p ∈ pgs h d -> p <> t.1).
  { intros j d p Hj Hd Hp ->. cbn [pgs] in Hnd. apply NoDup_cons in Hnd as [Hnb _]. apply Hnb, elem_of_over. eauto. }
  assert (Hout : forall p, p ∈ pgs (S h) t -> p ∉ pgs h c).
  { intros p Hp Hpc. destruct (Hfrom p Hpc) as [HpL | Hnu]; [by destruct (HL p HpL) |]. by apply Hnu, Hu. }
  split; try done.
  - apply (own_set_child st); try done.
    + intros p Hp. assert (Hpt : p ∈ pgs (S h) t).
      { destruct Hp as [-> | (j & d & Hj & _ & Hd & Hp)]; [cbn [pgs]; left | by eapply pgs_child]. }
      split; [apply Hused; by apply Hu |]. intros ? [= <-]. by apply Hout.
    + intros j d p Hj _ Hd Hp. pose proof (tabs_pgs _ _ _ Hp) as Hp'.
      pose proof (Hu p (pgs_child h t j d p Hj Hd Hp')) as [? ?]. apply Hframe; [done | done |]. by eapply Hbase.
  - intros p Hp. rewrite elem_of_set_child by done. cbn [pgs] in Hp. rewrite elem_of_cons, elem_of_over in Hp.
    destruct Hp as [-> | (j & d & Hj & Hd & Hp)]; [by left |]. right. right. exists j, d.
    split; [done |]. split; [congruence | done].
  - intros p Hp. rewrite elem_of_set_child by done. right. left. exists c. split; [done | by apply HL].
  - intros p Hp. rewrite elem_of_set_child in Hp by done. destruct Hp as [-> | [(? & [= <-] & Hp) | (j & d & Hj & _ & Hd & Hp)]].
    + left. cbn [pgs]. left.
    + right. by apply Hfrom.
    + left. by eapply pgs_child.
  - intros p Hp Hpu. destruct (Hacc p Hp Hpu) as [? | ?]; [by left | right]. rewrite elem_of_set_child by done. eauto 10.
  - intros p Hp. rewrite elem_of_tabs_set_child in Hp by done.
    destruct Hp as [-> | [(? & [= <-] & Hp) | (j & d & Hj & _ & Hd & Hp)]].
    + left. cbn [tabs]. left.
    + right. by apply Htab.
    + left. by eapply tabs_child.
  - intros p Hp Hpu Hn. apply Hframe; [done | done |]. intros ->. apply Hn. cbn [tabs]. left.
Qed.

(** The allocator moves, memory and the tree stay. *)
Lemma grows_alloc st h (t : ptree h) a : own st h t -> pa_ok a ->
  (forall p, is_page p -> pa_used a p <-> pa_used (al st) p) -> grows st h t (Vm (kw st) a) t [].
Proof.
  intros (Hr & Hnd & Hu) Hok Heq. split; try done; auto.
  - split; [done |]. split; [done |]. intros p Hp. destruct (Hu p Hp). split; [done |]. by apply Heq.
  - intros p Hp. cbn [al]. by apply Heq.
  - by intros p ?%elem_of_nil.
  - intros p Hp Hpu. left. by apply Heq.
Qed.

Lemma over_none {B C} (F : B -> list C) : over (fun _ => None) F = [].
Proof. unfold over. induction (seqZ 0 512) as [| x l IH]; [done | apply IH]. Qed.

(** A table page fresh from [ptalloc]. *)
Definition empty_table {h} (b : Z) : ptree (S h) := (b, fun _ => None).

Lemma pgs_empty h b : pgs (S h) (empty_table b) = [b] /\ tabs (S h) (@empty_table h b) = [b].
Proof. cbn [pgs tabs empty_table fst snd]. by rewrite !over_none. Qed.

Lemma ptalloc_spec st : pa_ok (al st) ->
  exists a r, ptalloc st = Ret r /\ pa_ok a /\
  match r with
  | (st', Some p) => st' = Vm (zero_page (kw st) p) a /\ is_page p /\ ~ pa_used (al st) p /\ pa_used a p /\
      forall q, is_page q -> q <> p -> pa_used a q <-> pa_used (al st) q
  | (st', None) => st' = Vm (kw st) a /\ forall q, is_page q -> pa_used a q <-> pa_used (al st) q
  end.
Proof.
  intros Hok. destruct (pa_alloc_law (al st) Hok) as (a & r & E & Hok' & Hr).
  unfold ptalloc, kpage_alloc_vm. rewrite E. cbn [mbind res_bind].
  destruct r as [p |]; exists a; eexists; (split; [done |]); (split; [done |]); (split; [done |]); done.
Qed.

Lemma grows_new_table st h (t : ptree (S (S h))) i p a : 0 <= i < 512 -> own st (S (S h)) t -> t.2 i = None ->
  pa_ok a -> is_page p -> ~ pa_used (al st) p -> pa_used a p ->
  (forall q, is_page q -> q <> p -> pa_used a q <-> pa_used (al st) q) ->
  grows st (S (S h)) t (store (Vm (zero_page (kw st) p) a) (t.1 + 8 * i) (table_desc p))
    (set_child t i (Some (empty_table p))) [].
Proof.
  intros Hi Ho Hc Hok Hp Hnu Hpu Heq. pose proof Ho as (_ & _ & Hu).
  assert (is_page t.1 /\ pa_used (al st) t.1) as [Hbp Hbu] by (apply Hu; cbn [pgs]; left).
  assert (Hne : t.1 <> p) by (intros E; rewrite E in Hbu; done).
  assert (Hslot : forall j, 0 <= j < 512 -> in_page t.1 (t.1 + 8 * j) = true) by (intros; by apply in_page_slot).
  destruct (pgs_empty h p) as [Ep Et].
  apply grows_add; try done; cbn [store kw al]; rewrite ?Ep, ?Et.
  - unfold own. rewrite Ep. split; [| split].
    + intros j Hj. cbn [empty_table fst snd store kw]. rewrite upd_ne.
      * unfold zero_page. by rewrite in_page_slot.
      * intros E. pose proof (in_page_slot p j Hj) as Hx. rewrite E in Hx.
        rewrite (in_page_disjoint t.1 p) in Hx by auto. done.
    + apply NoDup_singleton.
    + intros q ->%list_elem_of_singleton. done.
  - by rewrite upd_eq.
  - by apply table_desc_valid.
  - intros j Hj Hji. rewrite upd_ne by lia. unfold zero_page. by rewrite (in_page_disjoint t.1 p) by auto.
  - intros q Hq Hqu. destruct (decide (q = p)) as [-> |]; [done | by apply Heq].
  - intros q Hq Hqu. rewrite list_elem_of_singleton. destruct (decide (q = p)) as [-> |]; [by right |]. left. by apply Heq.
  - intros q ->%list_elem_of_singleton. by right.
  - by intros q ?%elem_of_nil.
  - by intros q ->%list_elem_of_singleton.
  - intros q Hq Hqu Hqb. assert (q <> p) by (intros ->; done).
    apply (same_on_trans _ (zero_page (kw st) p)); [by apply same_on_zero; auto |].
    apply (same_on_upd _ t.1); auto.
Qed.

(** A page descriptor in an empty L3 entry. *)
Lemma grows_new_page st (t : ptree 1) i v : 0 <= i < 512 -> pa_ok (al st) -> own st 1 t -> t.2 i = None ->
  valid v = true -> is_page (leafpage v) -> pa_used (al st) (leafpage v) -> leafpage v ∉ pgs 1 t ->
  grows st 1 t (store st (t.1 + 8 * i) v) (set_child t i (Some v)) [leafpage v].
Proof.
  intros Hi Hok Ho Hc Hv Hp Hpu Hnew. pose proof Ho as (_ & _ & Hu).
  assert (is_page t.1 /\ pa_used (al st) t.1) as [Hbp Hbu] by (apply Hu; cbn [pgs]; left).
  apply grows_add; try done; cbn [store kw al pgs tabs].
  - split; [done |]. split; [apply NoDup_singleton |]. cbn [pgs]. intros q ->%list_elem_of_singleton. done.
  - by rewrite upd_eq.
  - intros j Hj Hji. by rewrite upd_ne by lia.
  - auto.
  - intros q Hq. by left.
  - intros q ->%list_elem_of_singleton. split; [left | done].
  - by intros q ?%elem_of_nil.
  - intros q Hq Hqu Hqb. apply (same_on_upd _ t.1); auto. by apply in_page_slot.
Qed.

(** ** Lemmas: the walk *)

Definition vpn_of (va : Z) : Z := va / 4096.

Lemma pow512 n : 512 ^ Z.of_nat n = 2 ^ (9 * Z.of_nat n).
Proof. rewrite Z.pow_mul_r by lia. done. Qed.

(** The index the walk computes, [n] levels above the pages. *)
Lemma walk_idx n va : (n <= 3)%nat ->
  Z.land (Z.shiftr va (pt_shift (3 - Z.of_nat n))) (TABLE_ENTRIES - 1) = ix n (vpn_of va).
Proof.
  intros Hn. unfold ix, vpn_of, TABLE_ENTRIES. change (512 - 1) with (Z.ones 9).
  rewrite Z.land_ones by lia. change (2 ^ 9) with 512. f_equal.
  assert (Hs : pt_shift (3 - Z.of_nat n) = 12 + 9 * Z.of_nat n).
  { do 4 (destruct n as [| n]; [done |]). lia. }
  rewrite Hs, Z.shiftr_div_pow2, Z.pow_add_r, pow512 by lia. change 4096 with (2 ^ 12).
  by rewrite Z.div_div by lia.
Qed.

Lemma L3X_ix va : L3X va = ix 0 (vpn_of va).
Proof. apply (walk_idx 0). lia. Qed.

Lemma valid_0 : valid 0 = false.
Proof. done. Qed.

(** A valid entry is a child, and leads to its table. *)
Lemma entry_child st h (t : ptree (S h)) i : own st (S h) t -> 0 <= i < 512 ->
  match t.2 i with
  | Some c => kw st (t.1 + 8 * i) = entry h c /\ valid (kw st (t.1 + 8 * i)) = true
  | None => kw st (t.1 + 8 * i) = 0 /\ valid (kw st (t.1 + 8 * i)) = false
  end.
Proof.
  intros (Hr & _) Hi. specialize (Hr i Hi). destruct (t.2 i) as [c |].
  - destruct Hr as (-> & ? & _). done.
  - by rewrite Hr.
Qed.

Lemma entry_table st h (c : ptree (S h)) : own st (S h) c -> PA_TO_KVA (PTE_ADDR (entry (S h) c)) = c.1.
Proof. intros (_ & _ & Hu). apply table_desc_addr. apply Hu. cbn [pgs]. left. Qed.

Lemma walk_noalloc n st (t : ptree (S n)) va : (n <= 3)%nat -> own st (S n) t ->
  walk_levels n st t.1 va (3 - Z.of_nat n) false = Ret (st, slot n t (vpn_of va)).
Proof.
  revert t. induction n as [| n IH]; intros t Hn Ho; cbn [walk_levels slot].
  { by rewrite L3X_ix. }
  rewrite walk_idx by done. pose proof (ix_range (S n) (vpn_of va)) as Hi.
  pose proof (entry_child st (S n) t _ Ho Hi) as He.
  destruct (t.2 (ix (S n) (vpn_of va))) as [c |] eqn:Ec; destruct He as [-> ->]; [| done].
  pose proof (own_child st (S n) t _ c Ho Hi Ec) as Hoc.
  rewrite entry_table with (st := st) by done.
  replace (3 - Z.of_nat (S n) + 1) with (3 - Z.of_nat n) by lia. apply IH; [lia | done].
Qed.

(** What the L3 entry holds. *)
Lemma slot_word n st (t : ptree (S n)) vpn : own st (S n) t ->
  match slot n t vpn with
  | Some a => kw st a = default 0 (tmap (S n) t vpn) /\ (tmap (S n) t vpn = None <-> valid (kw st a) = false)
  | None => tmap (S n) t vpn = None
  end.
Proof.
  revert t. induction n as [| n IH]; intros t Ho.
  - cbn [slot]. pose proof (entry_child st 0 t (ix 0 vpn) Ho (ix_range _ _)) as He. cbn [tmap].
    destruct (t.2 (ix 0 vpn)) as [v |]; destruct He as [-> He]; cbn [entry default]; [| by rewrite valid_0].
    cbn [entry] in He. by rewrite He.
  - cbn [slot]. change (tmap (S (S n)) t vpn) with (match t.2 (ix (S n) vpn) with Some c => tmap (S n) c vpn | None => None end).
    destruct (t.2 (ix (S n) vpn)) as [c |] eqn:Ec; [| done]. apply IH.
    by apply (own_child st (S n) t (ix (S n) vpn) c Ho (ix_range _ _)).
Qed.

Lemma tmap_set_child h (t : ptree (S h)) i o vpn : tmap (S h) (set_child t i o) vpn =
  if ix h vpn =? i then match o with Some c => tmap h c vpn | None => None end else tmap (S h) t vpn.
Proof. cbn [tmap set_child fst snd]. unfold upd. by destruct (ix h vpn =? i). Qed.

Definition same_map h (t t' : ptree h) : Prop := forall vpn, tmap h t' vpn = tmap h t vpn.

Lemma same_map_child h (t : ptree (S h)) i c c' : t.2 i = Some c -> same_map h c c' ->
  same_map (S h) t (set_child t i (Some c')).
Proof.
  intros Hc Hs vpn. rewrite tmap_set_child. destruct (Z.eqb_spec (ix h vpn) i) as [E |]; [| done].
  cbn [tmap]. rewrite E, Hc. apply Hs.
Qed.

Lemma tmap_empty h b vpn : tmap (S h) (@empty_table h b) vpn = None.
Proof. done. Qed.

(** The allocating walk: missing tables are added, the mapping stays, and on success
    the result is the L3 entry of the address. *)
Lemma walk_alloc n st (t : ptree (S n)) va : (n <= 3)%nat -> pa_ok (al st) -> own st (S n) t ->
  exists st' t' r, walk_levels n st t.1 va (3 - Z.of_nat n) true = Ret (st', r) /\
    grows st (S n) t st' t' [] /\ same_map (S n) t t' /\
    forall a, r = Some a -> slot n t' (vpn_of va) = Some a.
Proof.
  revert st t. induction n as [| n IH]; intros st t Hn Hok Ho.
  { exists st, t, (Some (t.1 + 8 * ix 0 (vpn_of va))). cbn [walk_levels slot]. rewrite L3X_ix.
    split; [done |]. split; [by apply grows_refl |]. split; [done |]. by intros a [= <-]. }
  cbn [walk_levels]. rewrite walk_idx by done. set (i := ix (S n) (vpn_of va)).
  assert (Hi : 0 <= i < 512) by apply ix_range.
  replace (3 - Z.of_nat (S n) + 1) with (3 - Z.of_nat n) by lia.
  pose proof (entry_child st (S n) t i Ho Hi) as He.
  destruct (t.2 i) as [c |] eqn:Ec; destruct He as [Ew Ev]; rewrite Ev.
  - pose proof (own_child st (S n) t i c Ho Hi Ec) as Hoc. rewrite Ew, (entry_table st) by done.
    destruct (IH st c ltac:(lia) Hok Hoc) as (st' & c' & r & E & G & Hm & Hs). rewrite E.
    exists st', (set_child t i (Some c')), r. split; [done |].
    split; [apply (grows_child st st' (S n) t i c c' []); try done; by intros p ?%elem_of_nil |].
    split; [by apply (same_map_child (S n) t i c) |].
    intros a Ha. cbn [slot set_child snd]. fold i. rewrite upd_eq. by apply Hs.
  - cbn [negb]. destruct (ptalloc_spec st Hok) as (a & [st1 [p |]] & E & Hoka & Hr); rewrite E; cbn [mbind res_bind].
    + destruct Hr as (-> & Hp & Hnu & Hpu & Heq). fold (table_desc p).
      pose proof (grows_new_table st n t i p a Hi Ho Ec Hoka Hp Hnu Hpu Heq) as G1.
      set (st1 := store _ _ _) in *. set (t1 := set_child t i (Some (empty_table p))) in *.
      assert (Ho1 : own st1 (S (S n)) t1) by apply G1.
      assert (Ec1 : t1.2 i = Some (@empty_table n p)) by (cbn [t1 set_child snd]; by rewrite upd_eq).
      pose proof (own_child st1 (S n) t1 i _ Ho1 Hi Ec1) as Hoc.
      destruct (IH st1 (empty_table p) ltac:(lia) (g_ok _ _ _ _ _ _ G1) Hoc) as (st' & c' & r & E2 & G & Hm & Hs).
      cbn [empty_table fst] in E2. rewrite E2. exists st', (set_child t1 i (Some c')), r. split; [done |]. split.
      { apply (grows_trans st st1 st' (S (S n)) t t1 _ [] []); [done | | by intros q ?%elem_of_nil].
        apply (grows_child st1 st' (S n) t1 i (empty_table p) c' []); try done. by intros q ?%elem_of_nil. }
      split.
      { intros vpn. rewrite (same_map_child (S n) t1 i (empty_table p) c' Ec1 Hm vpn). unfold t1.
        rewrite tmap_set_child. destruct (Z.eqb_spec (ix (S n) vpn) i) as [Ei |]; [| done].
        rewrite tmap_empty. change (tmap (S (S n)) t vpn) with (match t.2 (ix (S n) vpn) with Some c => tmap (S n) c vpn | None => None end).
        by rewrite Ei, Ec. }
      intros b Hb. cbn [slot set_child snd]. fold i. rewrite upd_eq. by apply Hs.
    + destruct Hr as (-> & Heq). exists (Vm (kw st) a), t, None. split; [done |].
      split; [by apply grows_alloc |]. by split.
Qed.

(** ** Lemmas: mapping *)

(** Page numbers agree below level [h] when their low digits do. *)
Definition same_path (h : nat) (x y : Z) : bool := x mod 512 ^ Z.of_nat h =? y mod 512 ^ Z.of_nat h.

Lemma same_path_S h x y : same_path (S h) x y = (ix h x =? ix h y) && same_path h x y.
Proof.
  unfold same_path, ix. rewrite Nat2Z.inj_succ, Z.pow_succ_r, Z.mul_comm by lia.
  rewrite !Z.rem_mul_r by lia. set (P := 512 ^ Z.of_nat h).
  assert (HP : 0 < P) by (apply Z.pow_pos_nonneg; lia).
  pose proof (Z.mod_pos_bound x P HP). pose proof (Z.mod_pos_bound y P HP).
  destruct (Z.eqb_spec (x / P mod 512) (y / P mod 512)) as [E |]; cbn [andb].
  - rewrite E. destruct (Z.eqb_spec (x mod P) (y mod P)), (Z.eqb_spec (x mod P + P * (y / P mod 512)) (y mod P + P * (y / P mod 512))); lia.
  - apply Z.eqb_neq. nia.
Qed.

Lemma same_path_vpn x y : 0 <= x < 2 ^ 36 -> 0 <= y < 2 ^ 36 -> same_path 4 x y = (x =? y).
Proof. intros. unfold same_path. change (512 ^ Z.of_nat 4) with (2 ^ 36). by rewrite !Z.mod_small. Qed.

Lemma grows_slot n st (t : ptree (S n)) vpn a v : pa_ok (al st) -> own st (S n) t ->
  slot n t vpn = Some a -> tmap (S n) t vpn = None ->
  valid v = true -> is_page (leafpage v) -> pa_used (al st) (leafpage v) -> leafpage v ∉ pgs (S n) t ->
  exists t', grows st (S n) t (store st a v) t' [leafpage v] /\
    forall x, tmap (S n) t' x = if same_path (S n) x vpn then Some v else tmap (S n) t x.
Proof.
  intros Hok. revert t. induction n as [| n IH]; intros t Ho Hs Hm Hv Hp Hu Hnew.
  - injection Hs as <-. pose proof (ix_range 0 vpn) as Hi. cbn [tmap] in Hm.
    destruct (t.2 (ix 0 vpn)) as [c |] eqn:Ec; [done |].
    exists (set_child t (ix 0 vpn) (Some v)). split; [by apply grows_new_page |].
    intros x. rewrite tmap_set_child, same_path_S. destruct (ix 0 x =? ix 0 vpn); [| done].
    unfold same_path. change (512 ^ Z.of_nat 0) with 1. by rewrite !Z.mod_1_r.
  - cbn [slot] in Hs. change (tmap (S (S n)) t vpn) with (match t.2 (ix (S n) vpn) with Some c => tmap (S n) c vpn | None => None end) in Hm.
    pose proof (ix_range (S n) vpn) as Hi. destruct (t.2 (ix (S n) vpn)) as [c |] eqn:Ec; [| done].
    pose proof (own_child st (S n) t _ c Ho Hi Ec) as Hoc.
    assert (Hnc : leafpage v ∉ pgs (S n) c) by (intros Hx; by apply Hnew, (pgs_child (S n) t (ix (S n) vpn) c)).
    destruct (IH c Hoc Hs Hm Hv Hp Hu Hnc) as (c' & G & Hm').
    exists (set_child t (ix (S n) vpn) (Some c')). split.
    + apply (grows_child st _ (S n) t _ c c' [leafpage v]); try done. by intros p ->%list_elem_of_singleton.
    + intros x. rewrite tmap_set_child, (same_path_S (S n)). destruct (Z.eqb_spec (ix (S n) x) (ix (S n) vpn)) as [E |]; [| done].
      rewrite Hm'. cbn [andb]. destruct (same_path (S n) x vpn); [done |].
      change (tmap (S (S n)) t x) with (match t.2 (ix (S n) x) with Some c => tmap (S n) c x | None => None end).
      by rewrite E, Ec.
Qed.

(** A page table: its root has four levels. *)
Abbreviation ptroot := (ptree 4).

Definition maps (t : ptroot) (vpn : Z) : option Z := tmap 4 t vpn.

Definition in_space (vpn : Z) : Prop := 0 <= vpn < 2 ^ 36.

(** The frame descriptor of the [i]-th page from [pa] on. *)
Definition desc (pa perm i : Z) : Z := Z.lor (pa + 4096 * i) perm.

Lemma desc_leaf pa perm i : perm_ok perm -> 0 <= pa + 4096 * i < 2 ^ 48 -> (pa + 4096 * i) mod 4096 = 0 ->
  leafpage (desc pa perm i) = PA_TO_KVA (pa + 4096 * i) /\ valid (desc pa perm i) = true.
Proof.
  intros Hp H1 H2. unfold leafpage, desc. by destruct (page_desc_addr (pa + 4096 * i) perm H1 H2 Hp) as [-> ->].
Qed.

(** The DMAP page of a physical address. *)
Lemma is_page_of pa : is_page (PA_TO_KVA pa) -> 0 <= pa < 2 ^ 48 -> pa mod 4096 = 0.
Proof.
  unfold is_page, PA_TO_KVA, KERN_BASE. intros [H1 H2] Hpa. rewrite u64_small in H2 by lia.
  Z.div_mod_to_equations. lia.
Qed.

(** One page mapped: the walk, the check and the store. *)
Lemma map_one st (t : ptroot) va pa perm : pa_ok (al st) -> own st 4 t -> 0 <= va < 2 ^ 48 ->
  perm_ok perm -> 0 <= pa < 2 ^ 48 -> is_page (PA_TO_KVA pa) -> pa_used (al st) (PA_TO_KVA pa) ->
  PA_TO_KVA pa ∉ pgs 4 t -> maps t (vpn_of va) = None ->
  exists st1 r, walk st t.1 va true = Ret (st1, r) /\
  match r with
  | None => exists t1, grows st 4 t st1 t1 [] /\ same_map 4 t t1
  | Some pte => valid (kw st1 pte) = false /\
      exists t2, grows st 4 t (store st1 pte (Z.lor pa perm)) t2 [PA_TO_KVA pa] /\
      forall x, in_space x -> maps t2 x = if x =? vpn_of va then Some (Z.lor pa perm) else maps t x
  end.
Proof.
  intros Hok Ho Hva Hperm Hpa Hpage Hused Hnew Hnone. unfold walk, KASSERT.
  destruct (Z.ltb_spec va MAXUVA) as [_ | Hx]; [| unfold MAXUVA in Hx; rewrite Z.shiftl_1_l in Hx; lia].
  cbn [mbind res_bind].
  destruct (walk_alloc 3 st t va ltac:(lia) Hok Ho) as (st1 & t1 & r & E & G & Hm & Hs).
  change (3 - Z.of_nat 3) with 0 in E. rewrite E. exists st1, r. split; [done |].
  destruct r as [pte |]; [| by exists t1].
  specialize (Hs pte eq_refl). pose proof (slot_word 3 st1 t1 (vpn_of va) (g_own _ _ _ _ _ _ G)) as Hw.
  rewrite Hs in Hw. assert (Hnone1 : tmap 4 t1 (vpn_of va) = None) by (by rewrite Hm).
  split; [by apply Hw |].
  pose proof (is_page_of pa Hpage Hpa) as Hal.
  destruct (page_desc_addr pa perm Hpa Hal Hperm) as [Haddr Hvalid].
  assert (Hleaf : leafpage (Z.lor pa perm) = PA_TO_KVA pa) by (unfold leafpage; by rewrite Haddr).
  destruct (grows_slot 3 st1 t1 (vpn_of va) pte (Z.lor pa perm) (g_ok _ _ _ _ _ _ G) (g_own _ _ _ _ _ _ G) Hs Hnone1 Hvalid)
    as (t2 & G2 & Hm2); rewrite ?Hleaf in *; [done | by apply (g_used _ _ _ _ _ _ G) | |].
  { intros Hx. destruct (g_from _ _ _ _ _ _ G _ Hx) as [? | [?%elem_of_nil | ?]]; done. }
  exists t2. split.
  - apply (grows_trans st st1 _ 4 t t1 t2 [] [PA_TO_KVA pa]); [done | done |].
    by intros p ->%list_elem_of_singleton.
  - intros x Hx. unfold maps in *. rewrite Hm2, same_path_vpn; [by rewrite Hm | done |].
    unfold vpn_of. Z.div_mod_to_equations. lia.
Qed.

(** The frames [pa, pa + 4096, ..] of [k] pages, as DMAP pages. *)
Definition frames (pa : Z) (k : nat) : list Z := map (fun i => PA_TO_KVA (pa + 4096 * Z.of_nat i)) (seq 0 k).

Lemma elem_of_frames pa k p : p ∈ frames pa k <-> exists i, (i < k)%nat /\ p = PA_TO_KVA (pa + 4096 * Z.of_nat i).
Proof.
  unfold frames. rewrite list_elem_of_fmap. split.
  - intros (i & -> & Hi). apply elem_of_seq in Hi. exists i. split; [lia | done].
  - intros (i & Hi & ->). exists i. split; [done |]. apply elem_of_seq. lia.
Qed.

Lemma frames_S pa k : frames pa (S k) = PA_TO_KVA pa :: frames (pa + 4096) k.
Proof.
  unfold frames. cbn [seq map]. rewrite Z.mul_0_r, Z.add_0_r. f_equal.
  rewrite <- fmap_S_seq, <- list_fmap_compose. apply list_fmap_ext. intros i x _. cbn. f_equal. lia.
Qed.

Lemma PA_TO_KVA_inj x y : 0 <= x < 2 ^ 48 -> 0 <= y < 2 ^ 48 -> PA_TO_KVA x = PA_TO_KVA y -> x = y.
Proof. intros Hx Hy. unfold PA_TO_KVA, KERN_BASE. rewrite !u64_small by lia. lia. Qed.

(** The caller's frames: pages in use outside the tree. *)
Definition frames_ok st (t : ptroot) (pa : Z) (k : nat) : Prop :=
  0 <= pa /\ pa + 4096 * Z.of_nat k <= 2 ^ 48 /\
  forall p, p ∈ frames pa k -> is_page p /\ pa_used (al st) p /\ p ∉ pgs 4 t.

Lemma frames_ok_next st st1 (t t1 : ptroot) pa k : frames_ok st t pa (S (S k)) ->
  grows st 4 t st1 t1 [PA_TO_KVA pa] -> frames_ok st1 t1 (pa + 4096) (S k).
Proof.
  intros (H1 & H2 & H3) G. split; [lia |]. split; [lia |]. intros p Hp.
  destruct (H3 p) as (Hpg & Hpu & Hpt); [rewrite frames_S; by right |]. split; [done |].
  split; [by apply (g_used _ _ _ _ _ _ G) |]. intros Hx.
  destruct (g_from _ _ _ _ _ _ G p Hx) as [? | [->%list_elem_of_singleton | ?]]; [done | | done].
  apply elem_of_frames in Hp as (i & Hi & E). apply PA_TO_KVA_inj in E; lia.
Qed.

(** The mapping after [j] pages from page number [s] on. *)
Definition mapped (t t' : ptroot) (s j pa perm : Z) : Prop :=
  forall x, in_space x -> maps t' x = if (s <=? x) && (x <? s + j) then Some (desc pa perm (x - s)) else maps t x.

Lemma mapped_one (t t' : ptroot) s pa perm :
  (forall x, in_space x -> maps t' x = if x =? s then Some (Z.lor pa perm) else maps t x) -> mapped t t' s 1 pa perm.
Proof.
  intros H1 x Hx. rewrite H1 by done.
  destruct (Z.eqb_spec x s), (Z.leb_spec s x), (Z.ltb_spec x (s + 1)); cbn [andb]; try lia; try done.
  subst. unfold desc. by rewrite Z.sub_diag, Z.mul_0_r, Z.add_0_r.
Qed.

Lemma mapped_app (t t1 t2 : ptroot) s j pa perm : 0 <= j -> mapped t t1 s 1 pa perm ->
  mapped t1 t2 (s + 1) j (pa + 4096) perm -> mapped t t2 s (j + 1) pa perm.
Proof.
  intros Hj H1 H2 x Hx. rewrite H2, H1 by done. unfold desc.
  replace (pa + 4096 + 4096 * (x - (s + 1))) with (pa + 4096 * (x - s)) by lia.
  destruct (Z.leb_spec (s + 1) x), (Z.ltb_spec x (s + 1 + j)), (Z.leb_spec s x), (Z.ltb_spec x (s + 1)), (Z.ltb_spec x (s + (j + 1)));
    cbn [andb]; try lia; done.
Qed.

Lemma vpn_of_mul s : vpn_of (4096 * s) = s.
Proof. unfold vpn_of. by rewrite Z.mul_comm, Z.div_mul by lia. Qed.

Lemma mappages_loop_S fuel st pagetable a last pa perm :
  mappages_loop (S fuel) st pagetable a last pa perm =
  ('(st, pte) ← walk st pagetable a true;
   match pte with
   | None => Ret (st, -1)
   | Some pte =>
       kassert (negb (valid (kw st pte))) msg "mappages: remap at va %#lx" ;;
       let st := store st pte (Z.lor pa perm) in
       if a =? last then Ret (st, 0)
       else mappages_loop fuel st pagetable (u64 (a + PGSIZE)) last (u64 (pa + PGSIZE)) perm
   end).
Proof. done. Qed.

Lemma mappages_loop_spec k : forall st (t : ptroot) s pa perm, pa_ok (al st) -> own st 4 t ->
  0 <= s -> s + Z.of_nat k < 2 ^ 36 -> perm_ok perm -> frames_ok st t pa (S k) ->
  (forall x, s <= x <= s + Z.of_nat k -> maps t x = None) ->
  exists st' t' r j, mappages_loop (S k) st t.1 (4096 * s) (4096 * (s + Z.of_nat k)) pa perm = Ret (st', r) /\
    (j <= S k)%nat /\ grows st 4 t st' t' (frames pa j) /\ mapped t t' s (Z.of_nat j) pa perm /\
    (r = 0 /\ j = S k \/ r = -1 /\ (j < S k)%nat).
Proof.
  induction k as [| k IH]; intros st t s pa perm Hok Ho Hs Hsk Hperm Hf Hnone; rewrite mappages_loop_S.
  all: pose proof Hf as (Hpa0 & Hpa1 & Hfr).
  all: destruct (Hfr (PA_TO_KVA pa)) as (Hpage & Hused & Hnew); [rewrite frames_S; left |].
  all: destruct (map_one st t (4096 * s) pa perm Hok Ho ltac:(lia) Hperm ltac:(lia) Hpage Hused Hnew) as (st1 & r & E & Hr);
    [rewrite vpn_of_mul; apply Hnone; lia |].
  all: rewrite E; cbn [mbind res_bind]; destruct r as [pte |];
    [| destruct Hr as (t1 & G & Hm); exists st1, t1, (-1), O; split; [done |]; split; [lia |]; split; [done |];
       split; [| right; split; [done | lia]]; intros x Hx; unfold maps; rewrite Hm;
       destruct (Z.leb_spec s x), (Z.ltb_spec x (s + Z.of_nat 0)); cbn [andb]; try done; lia].
  all: destruct Hr as (Hv & t2 & G & Hm); rewrite Hv; cbn [negb KASSERT mbind res_bind].
  all: rewrite vpn_of_mul in Hm; apply mapped_one in Hm.
  - rewrite Z.add_0_r, Z.eqb_refl. eexists _, t2, 0, 1%nat. split; [done |]. split; [lia |].
    split; [unfold frames; cbn [seq map]; by rewrite Z.mul_0_r, Z.add_0_r |]. split; [done | by left].
  - destruct (Z.eqb_spec (4096 * s) (4096 * (s + Z.of_nat (S k)))); [lia |].
    unfold PGSIZE. rewrite (u64_small (4096 * s + 4096)), (u64_small (pa + 4096)) by lia.
    replace (4096 * s + 4096) with (4096 * (s + 1)) by lia.
    replace (s + Z.of_nat (S k)) with (s + 1 + Z.of_nat k) in * by lia.
    assert (Hbase : t2.1 = t.1).
    { pose proof (g_entry _ _ _ _ _ _ G) as Ee. cbn [entry] in Ee.
      pose proof (g_own _ _ _ _ _ _ G) as Ho2. rewrite <- (entry_table _ 3 t2 Ho2), <- (entry_table _ 3 t Ho). cbn [entry]. by rewrite Ee. }
    rewrite <- Hbase.
    destruct (IH (store st1 pte (Z.lor pa perm)) t2 (s + 1) (pa + 4096) perm) as (st' & t' & r & j & E' & Hj & G' & Hm' & Hr);
      [apply G | apply G | lia | lia | done | by apply (frames_ok_next st _ t) | |].
    { intros x Hx. rewrite Hm by (unfold in_space; lia).
      destruct (Z.ltb_spec x (s + 1)); [lia |]. rewrite andb_false_r. apply Hnone. lia. }
    exists st', t', r, (S j). split; [done |]. split; [lia |]. split.
    + rewrite frames_S. apply (grows_trans st (store st1 pte (Z.lor pa perm)) st' 4 t t2 t' [PA_TO_KVA pa] (frames (pa + 4096) j)); [done | done |].
      intros p Hp. destruct (Hfr p) as (? & ? & _); [| done]. rewrite frames_S. right.
      apply elem_of_frames in Hp as (i & Hi & ->). apply elem_of_frames. exists i. split; [lia | done].
    + split; [| lia]. replace (Z.of_nat (S j)) with (Z.of_nat j + 1) by lia. by apply (mapped_app t t2); [lia | |].
Qed.

(** ** Shrinking *)

(** The step from [t] to [t'] frees exactly the pages [t] had and [t'] has not, and
    writes only to the tables of [t]. *)
Record shrinks st h (t : ptree h) st' (t' : ptree h) : Prop := {
  s_ok : pa_ok (al st');
  s_own : own st' h t';
  s_entry : entry h t' = entry h t;
  s_sub : forall p, p ∈ pgs h t' -> p ∈ pgs h t;
  s_used : forall p, is_page p -> pa_used (al st') p <-> pa_used (al st) p /\ (p ∈ pgs h t -> p ∈ pgs h t');
  s_tabs : forall p, p ∈ tabs h t' -> p ∈ tabs h t;
  s_frame : forall p, is_page p -> p ∉ tabs h t -> same_on (kw st) (kw st') p
}.

Lemma shrinks_refl st h (t : ptree h) : pa_ok (al st) -> own st h t -> shrinks st h t st t.
Proof. intros Hok Ho. split; try done. intros p Hp. tauto. Qed.

Lemma shrinks_trans st1 st2 st3 h (t1 t2 t3 : ptree h) :
  shrinks st1 h t1 st2 t2 -> shrinks st2 h t2 st3 t3 -> shrinks st1 h t1 st3 t3.
Proof.
  intros G1 G2. split.
  - apply G2.
  - apply G2.
  - rewrite (s_entry _ _ _ _ _ G2). apply G1.
  - intros p Hp. by apply (s_sub _ _ _ _ _ G1), (s_sub _ _ _ _ _ G2).
  - intros p Hp. rewrite (s_used _ _ _ _ _ G2), (s_used _ _ _ _ _ G1) by done.
    pose proof (s_sub _ _ _ _ _ G1 p). pose proof (s_sub _ _ _ _ _ G2 p). tauto.
  - intros p Hp. by apply (s_tabs _ _ _ _ _ G1), (s_tabs _ _ _ _ _ G2).
  - intros p Hp Hn. apply (same_on_trans _ (kw st2)); [by apply (s_frame _ _ _ _ _ G1) |].
    apply (s_frame _ _ _ _ _ G2); [done |]. intros Hx. by apply Hn, (s_tabs _ _ _ _ _ G1).
Qed.

(** Shrinking one child shrinks the table. *)
Lemma shrinks_child st st' h (t : ptree (S h)) i c c' : 0 <= i < 512 -> own st (S h) t -> t.2 i = Some c ->
  shrinks st h c st' c' -> shrinks st (S h) t st' (set_child t i (Some c')).
Proof.
  intros Hi Ho Hc G. pose proof (own_apart st h t i c Ho Hi Hc) as [Hb Hsib].
  pose proof Ho as (Hr & Hnd & Hu).
  assert (is_page t.1 /\ pa_used (al st) t.1) as [Hbp Hbu] by (apply Hu; cbn [pgs]; left).
  assert (Hfb : same_on (kw st) (kw st') t.1).
  { apply (s_frame _ _ _ _ _ G); [done |]. intros Hx. by apply Hb, tabs_pgs. }
  assert (Hkeep : forall p, is_page p -> pa_used (al st) p -> p ∉ pgs h c -> pa_used (al st') p).
  { intros p Hp Hpu Hn. apply (s_used _ _ _ _ _ G); [done |]. split; [done |]. intros; done. }
  split.
  - apply G.
  - apply (own_set_child st); try done.
    + intros p Hp. assert (Hn : is_page p /\ pa_used (al st) p /\ p ∉ pgs h c).
      { destruct Hp as [-> | (j & d & Hj & Hne & Hd & Hp)]; [done |].
        destruct (Hu p (pgs_child h t j d p Hj Hd Hp)). split; [done |]. split; [done | by eapply Hsib]. }
      destruct Hn as (Hpp & Hpu & Hn). split; [by apply Hkeep |].
      intros ? [= <-] Hx. by apply Hn, (s_sub _ _ _ _ _ G).
    + intros j d p Hj Hne Hd Hp. pose proof (tabs_pgs _ _ _ Hp) as Hp'. apply (s_frame _ _ _ _ _ G).
      * by apply (Hu p), (pgs_child h t j d).
      * intros Hx. apply (Hsib j d p Hj Hne Hd Hp'). by apply tabs_pgs.
    + intros j Hj Hne. apply Hfb. by apply in_page_slot.
    + specialize (Hr i Hi). rewrite Hc in Hr. destruct Hr as (Hw & Hv & _).
      split; [apply G |]. rewrite (s_entry _ _ _ _ _ G). split; [| done].
      rewrite <- Hw. apply Hfb. by apply in_page_slot.
  - done.
  - intros p Hp. rewrite elem_of_set_child in Hp by done.
    destruct Hp as [-> | [(? & [= <-] & Hp) | (j & d & Hj & _ & Hd & Hp)]]; [cbn [pgs]; left | | by eapply pgs_child].
    apply (pgs_child h t i c); [done | done |]. by apply (s_sub _ _ _ _ _ G).
  - intros p Hp. rewrite (s_used _ _ _ _ _ G) by done. rewrite elem_of_set_child by done.
    cbn [pgs]. rewrite elem_of_cons, elem_of_over. split; intros [Hpu Hx]; (split; [done |]).
    + intros [-> | (j & d & Hj & Hd & Hpd)]; [by left | right].
      destruct (decide (j = i)) as [-> | Hne]; [left; exists c'; split; [done |]; apply Hx; congruence | right; eauto 10].
    + intros Hpc. destruct Hx as [-> | [(? & [= <-] & ?) | (j & d & Hj & Hne & Hd & Hpd)]]; [right; eauto 10 | done | done |].
      by destruct (Hsib j d p Hj Hne Hd Hpd).
  - intros p Hp. rewrite elem_of_tabs_set_child in Hp by done.
    destruct Hp as [-> | [(? & [= <-] & Hp) | (j & d & Hj & _ & Hd & Hp)]]; [cbn [tabs]; left | | by eapply tabs_child].
    apply (tabs_child h t i c); [done | done |]. by apply (s_tabs _ _ _ _ _ G).
  - intros p Hp Hn. apply (s_frame _ _ _ _ _ G); [done |]. intros Hx. apply Hn. by eapply tabs_child.
Qed.

Lemma free_spec st p : pa_ok (al st) -> is_page p -> pa_used (al st) p ->
  exists a, kpage_free_vm st p = Ret (Vm (kw st) a) /\ pa_ok a /\ ~ pa_used a p /\
    forall q, is_page q -> q <> p -> pa_used a q <-> pa_used (al st) q.
Proof.
  intros Hok Hp Hu. destruct (pa_free_law (al st) p Hok Hp Hu) as (a & E & ? & ? & ?).
  exists a. unfold kpage_free_vm. rewrite E. done.
Qed.

(** Removing a child: its pages are freed, memory changes only in its tables and the
    entry is cleared. *)
Lemma shrinks_remove st st' h (t : ptree (S h)) i c : 0 <= i < 512 -> own st (S h) t -> t.2 i = Some c ->
  pa_ok (al st') -> (forall p, is_page p -> pa_used (al st') p <-> pa_used (al st) p /\ p ∉ pgs h c) ->
  (forall p, is_page p -> p ∉ tabs h c -> p <> t.1 -> same_on (kw st) (kw st') p) ->
  (forall j, 0 <= j < 512 -> j <> i -> kw st' (t.1 + 8 * j) = kw st (t.1 + 8 * j)) ->
  kw st' (t.1 + 8 * i) = 0 ->
  shrinks st (S h) t st' (set_child t i None).
Proof.
  intros Hi Ho Hc Hok Hused Hframe Hws Hw. pose proof (own_apart st h t i c Ho Hi Hc) as [Hb Hsib].
  pose proof Ho as (Hr & Hnd & Hu).
  assert (is_page t.1 /\ pa_used (al st) t.1) as [Hbp Hbu] by (apply Hu; cbn [pgs]; left).
  assert (Hnb : forall j d p, 0 <= j < 512 -> t.2 j = Some d -> p ∈ pgs h d -> p <> t.1).
  { intros j d p Hj Hd Hp ->. cbn [pgs] in Hnd. apply NoDup_cons in Hnd as [Hn _]. apply Hn, elem_of_over. eauto. }
  split; try done.
  - apply (own_set_child st); try done.
    + intros p Hp. split; [| done]. destruct Hp as [-> | (j & d & Hj & Hne & Hd & Hp)].
      * by apply Hused.
      * destruct (Hu p (pgs_child h t j d p Hj Hd Hp)). apply Hused; [done |]. split; [done | by eapply Hsib].
    + intros j d p Hj Hne Hd Hp. pose proof (tabs_pgs _ _ _ Hp) as Hp'.
      destruct (Hu p (pgs_child h t j d p Hj Hd Hp')). apply Hframe; [done | | by eapply Hnb].
      intros Hx. by apply (Hsib j d p Hj Hne Hd Hp'), tabs_pgs.
  - intros p Hp. rewrite elem_of_set_child in Hp by done.
    destruct Hp as [-> | [(? & ? & _) | (j & d & Hj & _ & Hd & Hp)]]; [cbn [pgs]; left | done | by eapply pgs_child].
  - intros p Hp. rewrite Hused, elem_of_set_child by done. cbn [pgs]. rewrite elem_of_cons, elem_of_over.
    split; intros [Hpu Hx]; (split; [done |]).
    + intros [-> | (j & d & Hj & Hd & Hpd)]; [by left | right; right]. exists j, d. split; [done |]. split; [| done].
      intros ->. congruence.
    + intros Hpc. destruct Hx as [-> | [(? & ? & _) | (j & d & Hj & Hji & Hd & Hp')]]; [right; eauto 10 | done | done |].
      by destruct (Hsib j d p Hj Hji Hd Hp').
  - intros p Hp. rewrite elem_of_tabs_set_child in Hp by done.
    destruct Hp as [-> | [(? & ? & _) | (j & d & Hj & _ & Hd & Hp)]]; [cbn [tabs]; left | done | by eapply tabs_child].
  - intros p Hp Hn. apply Hframe; [done | |].
    + intros Hx. by apply Hn, (tabs_child h t i c).
    + intros ->. apply Hn. cbn [tabs]. left.
Qed.

(** Dropping a child that is a single page: the page is freed, the entry cleared. *)
Lemma shrinks_drop st h (t : ptree (S h)) i c q a : 0 <= i < 512 -> own st (S h) t -> t.2 i = Some c ->
  pgs h c = [q] -> pa_ok a -> ~ pa_used a q ->
  (forall p, is_page p -> p <> q -> pa_used a p <-> pa_used (al st) p) ->
  shrinks st (S h) t (store (Vm (kw st) a) (t.1 + 8 * i) 0) (set_child t i None).
Proof.
  intros Hi Ho Hc Hq Hok Hnu Heq. pose proof Ho as (_ & _ & Hu).
  assert (is_page t.1) as Hbp by (apply Hu; cbn [pgs]; left).
  apply (shrinks_remove st _ h t i c); try done; cbn [store kw al].
  - intros p Hp. rewrite Hq, list_elem_of_singleton. destruct (decide (p = q)) as [-> | Hne]; [tauto |].
    rewrite Heq by done. tauto.
  - intros p Hp _ Hne. apply (same_on_upd _ t.1); auto. by apply in_page_slot.
  - intros j Hj Hne. by rewrite upd_ne by lia.
  - by rewrite upd_eq.
Qed.

(** ** Lemmas: unmapping *)

Lemma all_zero_spec n w child j : all_zero n w child j = true <->
  forall i, j <= i < j + Z.of_nat n -> w (child + 8 * i) = 0.
Proof.
  revert j. induction n as [| n IH]; intros j; cbn [all_zero].
  { split; [intros; lia | done]. }
  destruct (Z.eqb_spec (w (child + 8 * j)) 0) as [E | E]; cbn [negb].
  - rewrite IH. split; intros Hz i Hi; [| apply Hz; lia].
    destruct (decide (i = j)) as [-> |]; [done | apply Hz; lia].
  - split; [done |]. intros Hz. exfalso. apply E, Hz. lia.
Qed.

(** The child is empty exactly when all its words are zero; it is then one page. *)
Lemma all_zero_empty st h (c : ptree (S h)) : own st (S h) c -> all_zero 512 (kw st) c.1 0 = true ->
  pgs (S h) c = [c.1] /\ forall x, tmap (S h) c x = None.
Proof.
  intros Ho Hz. rewrite all_zero_spec in Hz.
  assert (Hn : forall i, 0 <= i < 512 -> c.2 i = None).
  { intros i Hi. pose proof (entry_child st h c i Ho Hi) as He. rewrite (Hz i ltac:(lia)) in He.
    destruct (c.2 i); [| done]. destruct He as [_ He]. done. }
  split.
  - cbn [pgs]. f_equal. destruct (over c.2 (pgs h)) as [| p l] eqn:E; [done |]. exfalso.
    assert (Hp : p ∈ over c.2 (pgs h)) by (rewrite E; left).
    apply elem_of_over in Hp as (i & d & Hi & Hd & _). by rewrite (Hn i Hi) in Hd.
  - intros x. change (tmap (S h) c x) with (match c.2 (ix h x) with Some d => tmap h d x | None => None end).
    by rewrite (Hn _ (ix_range h x)).
Qed.

(** A table with an entry, and the tables below the root, by address, that have none. *)
Definition has_entry (h : nat) : ptree h -> Prop :=
  match h with O => fun _ => True | S _ => fun t => exists i c, 0 <= i < 512 /\ t.2 i = Some c end.

Definition addr_of (h : nat) : ptree h -> Z := match h with O => fun _ => 0 | S _ => fun t => t.1 end.

Fixpoint bare (h : nat) : ptree h -> Z -> Prop :=
  match h with
  | O => fun _ _ => False
  | S h' => fun t p => exists i c, 0 <= i < 512 /\ t.2 i = Some c /\ ((~ has_entry h' c /\ p = addr_of h' c) \/ bare h' c p)
  end.

(** No more bare tables than before, when the new entries bring none. *)
Lemma bare_upd h (t t' : ptree (S h)) :
  (forall j c, 0 <= j < 512 -> t'.2 j = Some c -> t.2 j = Some c \/ has_entry h c /\ forall p, bare h c p -> bare (S h) t p) ->
  forall p, bare (S h) t' p -> bare (S h) t p.
Proof.
  intros Hj p (j & c & Hr & Hc & Hp). destruct (Hj j c Hr Hc) as [Hc' | [He Hb]]; [by exists j, c |].
  destruct Hp as [[Hn _] | Hp]; [by destruct Hn | by apply Hb].
Qed.

Lemma all_zero_false n w child j : all_zero n w child j = false -> exists i, j <= i < j + Z.of_nat n /\ w (child + 8 * i) <> 0.
Proof.
  revert j. induction n as [| n IH]; intros j; cbn [all_zero]; [done |]. destruct (Z.eqb_spec (w (child + 8 * j)) 0) as [E | E]; cbn [negb].
  - intros (i & Hi & Hw)%IH. exists i. split; [lia | done].
  - intros _. exists j. split; [lia | done].
Qed.

Lemma all_zero_entry st h (c : ptree (S h)) : own st (S h) c -> all_zero 512 (kw st) c.1 0 = false -> has_entry (S h) c.
Proof.
  intros Ho (i & Hi & Hw)%all_zero_false. pose proof (entry_child st h c i Ho ltac:(lia)) as He. exists i.
  destruct (c.2 i) as [d |]; [exists d; split; [lia | done] |]. by destruct He as [He _].
Qed.

(** Page numbers [n] levels up: the entry number and the entry's span. *)
Definition span (n : nat) : Z := 512 ^ Z.of_nat n.

Lemma span_pos n : 0 < span n.
Proof. unfold span. apply Z.pow_pos_nonneg; lia. Qed.

Lemma span_S n : span (S n) = 512 * span n.
Proof. unfold span. rewrite Nat2Z.inj_succ, Z.pow_succ_r by lia. done. Qed.

Lemma shift_span n : (n <= 3)%nat -> Z.shiftl 1 (pt_shift (3 - Z.of_nat n)) = 4096 * span n.
Proof. intros Hn. do 4 (destruct n as [| n]; [done |]). lia. Qed.

Lemma ix_entry n m : ix n (m * span n) = m mod 512.
Proof. unfold ix. fold (span n). pose proof (span_pos n). by rewrite Z.div_mul by lia. Qed.

(** [x] is under entry number [m] of the table for region [R]. *)
Lemma region_entry n x R : x / span (S n) = R -> x / span n = R * 512 + ix n x.
Proof.
  intros <-. unfold ix. fold (span n). rewrite span_S. pose proof (span_pos n).
  rewrite (Z.mul_comm 512), <- Z.div_div by lia. rewrite (Z.mul_comm _ 512). apply Z.div_mod. lia.
Qed.

(** What unmapping [s, e) does to the mapping of region [R]. *)
Definition unmapped n (t t' : ptree (S n)) (R s e : Z) : Prop :=
  forall x, x / span (S n) = R -> tmap (S n) t' x = if (s <=? x) && (x <? e) then None else tmap (S n) t x.

Definition range_ok n (R s e : Z) : Prop :=
  0 <= s < e /\ e <= 2 ^ 36 /\ s / span (S n) = R /\ (e - 1) / span (S n) = R.

(** The call one level down does its work. *)
Definition rec_ok n (rec : vm A -> Z -> Z -> Z -> res (vm A)) : Prop :=
  match n with
  | O => True
  | S n' => forall st (c : ptree (S n')) R s e, pa_ok (al st) -> own st (S n') c -> range_ok n' R s e ->
      exists st' c', rec st c.1 (4096 * s) (4096 * e) = Ret st' /\ shrinks st (S n') c st' c' /\ (forall p, bare (S n') c' p -> bare (S n') c p) /\ unmapped n' c c' R s e
  end.

(** The entry of region [R] that [m] numbers, as a range of pages. *)
Definition entry_in n (R s e m : Z) : Prop := m / 512 = R /\ s < (m + 1) * span n /\ m * span n < e.

Lemma unmap_entry_none n (t : ptree (S n)) R s e m : m / 512 = R -> t.2 (m mod 512) = None ->
  forall x, x / span (S n) = R ->
  tmap (S n) t x = if ((s <=? x) && (x <? e)) && (x / span n =? m) then None else tmap (S n) t x.
Proof.
  intros Hm Hn x Hx. destruct (_ && (_ =? m)) eqn:E; [| done]. zbool.
  pose proof (region_entry n x R Hx) as Hr.
  change (tmap (S n) t x) with (match t.2 (ix n x) with Some d => tmap n d x | None => None end).
  replace (ix n x) with (m mod 512); [by rewrite Hn |].
  pose proof (ix_range n x). Z.div_mod_to_equations. lia.
Qed.

(** The mapping after one entry, from the mapping of its child. *)
Lemma unmapped_entry n (t : ptree (S n)) R s e m c o : m / 512 = R -> t.2 (m mod 512) = Some c ->
  (forall x, x / span n = m ->
    match o with Some c' => tmap n c' x | None => None end = if (s <=? x) && (x <? e) then None else tmap n c x) ->
  forall x, x / span (S n) = R ->
  tmap (S n) (set_child t (m mod 512) o) x =
    if ((s <=? x) && (x <? e)) && (x / span n =? m) then None else tmap (S n) t x.
Proof.
  intros Hm Hc Ho x Hx. pose proof (region_entry n x R Hx) as Hr. pose proof (ix_range n x).
  rewrite tmap_set_child. destruct (Z.eqb_spec (ix n x) (m mod 512)) as [E | E].
  - assert (x / span n = m) as Hxm by (Z.div_mod_to_equations; lia).
    rewrite Ho, Hxm, Z.eqb_refl, andb_true_r by done. destruct (_ && _); [done |].
    change (tmap (S n) t x) with (match t.2 (ix n x) with Some d => tmap n d x | None => None end).
    by rewrite E, Hc.
  - destruct (Z.eqb_spec (x / span n) m) as [Em |]; [| by rewrite andb_false_r].
    exfalso. apply E. Z.div_mod_to_equations. lia.
Qed.

Lemma entry_end n m e : (n <= 3)%nat -> m * span n < e -> e <= 2 ^ 36 -> (m + 1) * span n <= 2 ^ 36.
Proof.
  intros Hn Hm He. pose proof (span_pos n).
  assert (Hdiv : 2 ^ 36 = 512 ^ Z.of_nat (3 - n) * 512 * span n).
  { clear -Hn. do 4 (destruct n as [| n]; [done |]). lia. }
  revert Hdiv. generalize (512 ^ Z.of_nat (3 - n) * 512). intros K HK. rewrite HK.
  apply Z.mul_le_mono_nonneg_r; [lia |]. enough (m < K) by lia.
  apply (Z.mul_lt_mono_pos_r (span n)); lia.
Qed.

(** The part of a range below one entry. *)
Lemma sub_range_ok n R s e m : (S n <= 3)%nat -> range_ok (S n) R s e -> entry_in (S n) R s e m ->
  0 <= m /\ (m + 1) * span (S n) <= 2 ^ 36 /\ range_ok n m (Z.max s (m * span (S n))) (Z.min e ((m + 1) * span (S n))).
Proof.
  intros Hn (Hs & He & HRs & HRe) (HmR & Hms & Hme). pose proof (span_pos (S n)) as Hsp. pose proof (entry_end (S n) m e Hn Hme He) as He48.
  assert (Hm0 : 0 <= m).
  { destruct (Z.lt_ge_cases m 0); [| done]. exfalso. assert ((m + 1) * span (S n) <= 0) by (apply Z.mul_nonpos_nonneg; lia). lia. }
  assert (0 <= m * span (S n)) by (apply Z.mul_nonneg_nonneg; lia). split; [done |]. split; [done |].
  set (s' := Z.max s (m * span (S n))). set (e' := Z.min e ((m + 1) * span (S n))). unfold range_ok. split; [lia |]. split; [lia |]. split; symmetry.
  - apply Z.div_unique with (s' - m * span (S n)); lia.
  - apply Z.div_unique with (e' - 1 - m * span (S n)); lia.
Qed.

Lemma sub_range_in n s e m x : x / span n = m ->
  (Z.max s (m * span n) <=? x) && (x <? Z.min e ((m + 1) * span n)) = (s <=? x) && (x <? e).
Proof.
  intros Hx. pose proof (span_pos n) as Hsp. assert (m * span n <= x < (m + 1) * span n).
  { subst m. pose proof (Z.mul_div_le x (span n) Hsp). pose proof (Z.mul_succ_div_gt x (span n) Hsp). lia. }
  destruct (Z.leb_spec s x), (Z.leb_spec (Z.max s (m * span n)) x), (Z.ltb_spec x e), (Z.ltb_spec x (Z.min e ((m + 1) * span n))); cbn [andb]; try done; lia.
Qed.

Lemma unmap_entry_spec n rec st (t : ptree (S n)) R s e m : (n <= 3)%nat -> rec_ok n rec ->
  pa_ok (al st) -> own st (S n) t -> range_ok n R s e -> entry_in n R s e m ->
  exists st' t', unmap_entry rec st t.1 (3 - Z.of_nat n) (4096 * s) (4096 * e) (4096 * (m * span n)) = Ret st' /\
    shrinks st (S n) t st' t' /\ (forall p, bare (S n) t' p -> bare (S n) t p) /\
    forall x, x / span (S n) = R ->
      tmap (S n) t' x = if ((s <=? x) && (x <? e)) && (x / span n =? m) then None else tmap (S n) t x.
Proof.
  intros Hn Hrec Hok Ho (Hs & He & HRs & HRe) (HmR & Hms & Hme).
  pose proof (span_pos n) as Hsp. unfold unmap_entry. rewrite walk_idx, shift_span by done.
  rewrite vpn_of_mul, ix_entry. assert (Hi : 0 <= m mod 512 < 512) by (apply Z.mod_pos_bound; lia).
  pose proof (entry_child st n t (m mod 512) Ho Hi) as Hec.
  destruct (t.2 (m mod 512)) as [c |] eqn:Ec; destruct Hec as [Ew Ev]; rewrite Ev.
  2: { exists st, t. split; [done |]. split; [by apply shrinks_refl |]. split; [done |]. by apply unmap_entry_none. }
  pose proof (own_child st n t (m mod 512) c Ho Hi Ec) as Hoc. rewrite Ew.
  destruct n as [| n].
  - cbn [Z.of_nat Z.sub Z.eqb entry]. change (3 - 0 =? 3) with true. cbv iota. change (span 0) with 1 in *.
    destruct (Z.geb_spec (4096 * (m * 1)) (4096 * s)); [| lia].
    destruct (Z.ltb_spec (4096 * (m * 1)) (4096 * e)); [| lia]. cbn [andb].
    destruct Hoc as (_ & _ & Hu). destruct (Hu (leafpage c) ltac:(cbn [pgs]; left)) as [Hp Hpu].
    destruct (free_spec st (leafpage c) Hok Hp Hpu) as (a & E & Hoka & Hnu & Heq).
    fold (leafpage c). rewrite E. cbn [mbind res_bind].
    exists (store (Vm (kw st) a) (t.1 + 8 * (m mod 512)) 0), (set_child t (m mod 512) None).
    split; [done |]. split; [by apply (shrinks_drop st 0 t (m mod 512) c (leafpage c)) |].
    split; [apply bare_upd; intros j d Hj; cbn [set_child snd]; unfold upd; destruct (j =? m mod 512); [done | by left] |].
    apply (unmapped_entry 0 t R s e m c None HmR Ec). intros x Hx. change (span 0) with 1 in Hx.
    rewrite Z.div_1_r in Hx. destruct (Z.leb_spec s x), (Z.ltb_spec x e); cbn [andb]; try done; lia.
  - destruct (Z.eqb_spec (3 - Z.of_nat (S n)) 3); [lia |]. rewrite (entry_table st) by done.
    destruct (sub_range_ok n R s e m Hn ltac:(done) ltac:(done)) as (Hm0 & He48 & Hrng).
    set (s' := Z.max s (m * span (S n))) in *. set (e' := Z.min e ((m + 1) * span (S n))) in *.
    assert (0 <= m * span (S n)) by (apply Z.mul_nonneg_nonneg; lia). rewrite u64_small by lia.
    replace (if 4096 * s >? 4096 * (m * span (S n)) then _ else _) with (4096 * s')
      by (unfold s'; destruct (Z.gtb_spec (4096 * s) (4096 * (m * span (S n)))); lia).
    replace (if 4096 * e <? _ then _ else _) with (4096 * e')
      by (unfold e'; destruct (Z.ltb_spec (4096 * e) (4096 * (m * span (S n)) + 4096 * span (S n))); lia).
    destruct (Hrec st c m s' e' Hok Hoc Hrng) as (st1 & c1 & E & G & Hlc & Hm). rewrite E. cbn [mbind res_bind].
    assert (Hoc1 : own st1 (S n) c1) by apply G.
    assert (Hbase : c1.1 = c.1).
    { pose proof (s_entry _ _ _ _ _ G) as Ee. rewrite <- (entry_table _ n c1 Hoc1), <- (entry_table _ n c Hoc). by rewrite Ee. }
    assert (Hmc : forall x, x / span (S n) = m -> tmap (S n) c1 x = if (s <=? x) && (x <? e) then None else tmap (S n) c x).
    { intros x Hx. rewrite Hm by done. unfold s', e'. by rewrite sub_range_in. }
    pose proof (shrinks_child st st1 (S n) t (m mod 512) c c1 Hi Ho Ec G) as G1.
    rewrite <- Hbase. destruct (all_zero 512 (kw st1) c1.1 0) eqn:Ez.
    + destruct (all_zero_empty st1 n c1 Hoc1 Ez) as [Hone Hnone].
      assert (Ho1 : own st1 (S (S n)) (set_child t (m mod 512) (Some c1))) by apply G1.
      destruct Hoc1 as (_ & _ & Hu1). destruct (Hu1 c1.1 ltac:(rewrite Hone; left)) as [Hp Hpu].
      destruct (free_spec st1 c1.1 (s_ok _ _ _ _ _ G) Hp Hpu) as (a & Ef & Hoka & Hnu & Heq).
      rewrite Ef. cbn [mbind res_bind].
      exists (store (Vm (kw st1) a) (t.1 + 8 * (m mod 512)) 0),
        (set_child (set_child t (m mod 512) (Some c1)) (m mod 512) None).
      split; [done |]. split.
      * apply (shrinks_trans st st1 _ _ t (set_child t (m mod 512) (Some c1))); [done |].
        apply (shrinks_drop st1 (S n) (set_child t (m mod 512) (Some c1)) (m mod 512) c1 c1.1); try done.
        cbn [set_child snd]. by rewrite upd_eq.
      * split; [apply bare_upd; intros j d Hj; cbn [set_child snd]; unfold upd; destruct (j =? m mod 512); [done | by left] |].
        intros x Hx. rewrite tmap_set_child.
        rewrite <- (unmapped_entry (S n) t R s e m c (Some c1) HmR Ec Hmc x Hx), tmap_set_child.
        destruct (ix (S n) x =? m mod 512); [by rewrite Hnone | done].
    + exists st1, (set_child t (m mod 512) (Some c1)). split; [done |]. split; [done |]. split.
      { apply bare_upd. intros j d Hj. cbn [set_child snd]. unfold upd. destruct (Z.eqb_spec j (m mod 512)) as [-> |]; [| by left].
        intros [= <-]. right. split; [by apply (all_zero_entry st1) | intros p Hp; exists (m mod 512), c; split; [done |]; split; [done |]; right; by apply Hlc]. }
      by apply (unmapped_entry (S n) t R s e m c (Some c1)).
Qed.

Lemma entry_in_range n R s e m : range_ok n R s e -> s / span n <= m -> m * span n < e -> entry_in n R s e m.
Proof.
  intros (Hs & He & HRs & HRe) Hsm Hme. pose proof (span_pos n) as Hsp. split; [| split; [| done]].
  - rewrite span_S, (Z.mul_comm 512), <- Z.div_div in HRs, HRe by lia.
    assert (m <= (e - 1) / span n) by (apply Z.div_le_lower_bound; lia).
    pose proof (Z.div_le_mono _ _ 512 ltac:(lia) Hsm). pose proof (Z.div_le_mono m _ 512 ltac:(lia) H1). lia.
  - pose proof (Z.mul_succ_div_gt s (span n) Hsp). nia.
Qed.

Lemma unmap_loop_spec n rec fuel R s e : (n <= 3)%nat -> rec_ok n rec -> range_ok n R s e ->
  forall st (t : ptree (S n)) m, pa_ok (al st) -> own st (S n) t -> s / span n <= m ->
  e <= (m + Z.of_nat fuel) * span n ->
  exists st' t', unmap_loop rec fuel st t.1 (3 - Z.of_nat n) (4096 * s) (4096 * e) (4096 * (m * span n)) = Ret st' /\
    shrinks st (S n) t st' t' /\ (forall p, bare (S n) t' p -> bare (S n) t p) /\
    forall x, x / span (S n) = R ->
      tmap (S n) t' x = if ((s <=? x) && (x <? e)) && (m <=? x / span n) then None else tmap (S n) t x.
Proof.
  intros Hn Hrec Hrng. pose proof (span_pos n) as Hsp.
  assert (Hexit : forall st (t : ptree (S n)) m, pa_ok (al st) -> own st (S n) t -> e <= m * span n ->
    shrinks st (S n) t st t /\ (forall p, bare (S n) t p -> bare (S n) t p) /\ forall x, x / span (S n) = R ->
      tmap (S n) t x = if ((s <=? x) && (x <? e)) && (m <=? x / span n) then None else tmap (S n) t x).
  { intros st t m Hok Ho Hm. split; [by apply shrinks_refl |]. split; [done |]. intros x _. destruct (_ && (m <=? _)) eqn:E; [| done].
    zbool. exfalso. pose proof (Z.mul_div_le x (span n) Hsp). nia. }
  induction fuel as [| fuel IH]; intros st t m Hok Ho Hsm Hfuel; cbn [unmap_loop].
  { exists st, t. split; [done |]. apply Hexit; [done | done |]. lia. }
  destruct (Z.ltb_spec (4096 * (m * span n)) (4096 * e)) as [Hlt | Hge]; cbn [negb].
  2: { exists st, t. split; [done |]. apply Hexit; [done | done | lia]. }
  assert (Hent : entry_in n R s e m) by (apply entry_in_range; [done | done | lia]).
  destruct (unmap_entry_spec n rec st t R s e m Hn Hrec Hok Ho Hrng Hent) as (st1 & t1 & E & G & Hlt1 & Hm).
  rewrite E. cbn [mbind res_bind]. rewrite shift_span by done.
  assert (Ho1 : own st1 (S n) t1) by apply G.
  assert (Hbase : t1.1 = t.1).
  { pose proof (s_entry _ _ _ _ _ G) as Ee. rewrite <- (entry_table _ n t1 Ho1), <- (entry_table _ n t Ho). by rewrite Ee. }
  pose proof Hrng as (Hs & He & _). pose proof (entry_end n m e Hn ltac:(lia) He).
  assert (0 <= m) by (pose proof (Z.div_pos s (span n) ltac:(lia) Hsp); lia).
  assert (0 <= m * span n) by (apply Z.mul_nonneg_nonneg; lia).
  rewrite u64_small by lia. replace (4096 * (m * span n) + 4096 * span n) with (4096 * ((m + 1) * span n)) by lia.
  rewrite <- Hbase. destruct (IH st1 t1 (m + 1)) as (st' & t' & E' & G' & Hlt' & Hm'); [apply G | done | lia | lia |].
  exists st', t'. split; [done |]. split; [by apply (shrinks_trans st st1 st' (S n) t t1 t') |].
  split; [auto |]. intros x Hx. rewrite Hm', Hm by done.
  destruct (Z.leb_spec (m + 1) (x / span n)), (Z.leb_spec m (x / span n)), (Z.eqb_spec (x / span n) m);
    rewrite ?andb_true_r, ?andb_false_r; try lia; destruct (s <=? x), (x <? e); done.
Qed.

Lemma land_not64 x k : 0 <= x < 2 ^ 64 -> 0 <= k < 64 -> Z.land x (not64 (Z.shiftl 1 k - 1)) = x / 2 ^ k * 2 ^ k.
Proof.
  intros Hx Hk. unfold not64. rewrite land_u64 by done.
  replace (Z.shiftl 1 k - 1) with (Z.ones k) by (rewrite Z.ones_equiv, Z.shiftl_1_l; lia).
  apply land_lnot_ones. lia.
Qed.

Lemma first_entry n s : (n <= 3)%nat -> 0 <= s <= 2 ^ 36 ->
  Z.land (4096 * s) (not64 (Z.shiftl 1 (pt_shift (3 - Z.of_nat n)) - 1)) = 4096 * (s / span n * span n).
Proof.
  intros Hn Hs. assert (Hk : pt_shift (3 - Z.of_nat n) = 12 + 9 * Z.of_nat n).
  { do 4 (destruct n as [| n]; [done |]). lia. }
  rewrite Hk, land_not64 by lia. rewrite Z.pow_add_r, <- pow512 by lia. fold (span n). pose proof (span_pos n).
  change (2 ^ 12) with 4096. rewrite Z.div_mul_cancel_l by lia. lia.
Qed.

Lemma uvmunmap_range_spec n : (n <= 3)%nat -> rec_ok (S n) (uvmunmap_range n).
Proof.
  induction n as [| n IH]; intros Hn st c R s e Hok Ho Hrng; pose proof Hrng as (Hs & He & _).
  all: cbn [uvmunmap_range]; rewrite first_entry, shift_span by lia.
  all: match goal with |- context [span ?k] => pose proof (span_pos k) as Hsp end.
  - destruct (unmap_loop_spec 0 (fun st _ _ _ => Ret st) (S (Z.to_nat ((4096 * e - 4096 * (s / span 0 * span 0)) / (4096 * span 0) + 1)))
      R s e ltac:(lia) I Hrng st c (s / span 0) Hok Ho ltac:(lia)) as (st' & c' & E & G & Hlc & Hm).
    { change (span 0) with 1. rewrite Z.div_1_r. Z.div_mod_to_equations. lia. }
    exists st', c'. split; [done |]. split; [done |]. split; [done |]. intros x Hx. rewrite Hm by done.
    destruct (Z.leb_spec s x); cbn [andb]; [| done]. destruct (Z.ltb_spec x e); cbn [andb]; [| done].
    destruct (Z.leb_spec (s / span 0) (x / span 0)) as [| Hc]; [done |]. exfalso.
    pose proof (Z.div_le_mono s x (span 0) Hsp ltac:(lia)). lia.
  - destruct (unmap_loop_spec (S n) (fun st child s e => uvmunmap_range n st child s e)
      (S (Z.to_nat ((4096 * e - 4096 * (s / span (S n) * span (S n))) / (4096 * span (S n)) + 1)))
      R s e ltac:(lia) (IH ltac:(lia)) Hrng st c (s / span (S n)) Hok Ho ltac:(lia)) as (st' & c' & E & G & Hlc & Hm).
    { rewrite <- Z.mul_sub_distr_l, Z.div_mul_cancel_l by lia.
      set (q := s / span (S n)). pose proof (Z.mul_succ_div_gt (e - q * span (S n)) (span (S n)) Hsp).
      assert (0 <= (e - q * span (S n)) / span (S n)).
      { apply Z.div_pos; [| lia]. pose proof (Z.mul_div_le s (span (S n)) Hsp). unfold q. lia. }
      lia. }
    exists st', c'. split; [done |]. split; [done |]. split; [done |]. intros x Hx. rewrite Hm by done.
    destruct (Z.leb_spec s x); cbn [andb]; [| done]. destruct (Z.ltb_spec x e); cbn [andb]; [| done].
    destruct (Z.leb_spec (s / span (S n)) (x / span (S n))) as [| Hc]; [done |]. exfalso.
    pose proof (Z.div_le_mono s x (span (S n)) Hsp ltac:(lia)). lia.
Qed.

Lemma uvmdealloc_spec st (t : ptroot) oldsz newsz : pa_ok (al st) -> own st 4 t -> 0 <= newsz -> oldsz <= 2 ^ 48 ->
  exists st' t', uvmdealloc st t.1 oldsz newsz = Ret (st', if newsz >=? oldsz then oldsz else newsz) /\
    shrinks st 4 t st' t' /\ (forall p, bare 4 t' p -> bare 4 t p) /\
    forall x, in_space x -> maps t' x =
      if ((newsz + 4095) / 4096 <=? x) && (x <? (oldsz + 4095) / 4096) then None else maps t x.
Proof.
  intros Hok Ho Hn Hold. unfold uvmdealloc. destruct (Z.geb_spec newsz oldsz) as [Hge | Hlt].
  { exists st, t. split; [done |]. split; [by apply shrinks_refl |]. split; [done |]. intros x _.
    destruct (_ && _) eqn:E; [| done]. zbool. exfalso. Z.div_mod_to_equations. lia. }
  unfold USER_BASE. rewrite !Z.add_0_l, !PGROUNDUP_eq by lia.
  set (s := (newsz + 4095) / 4096). set (e := (oldsz + 4095) / 4096).
  assert (Hse : 0 <= s <= e /\ e <= 2 ^ 36) by (unfold s, e; Z.div_mod_to_equations; lia).
  rewrite !u64_small by lia. rewrite (Z.mul_comm s), (Z.mul_comm e).
  destruct (Z.ltb_spec (4096 * s) (4096 * e)) as [Hl | Hg].
  2: { exists st, t. split; [done |]. split; [by apply shrinks_refl |]. split; [done |]. intros x _.
    destruct (_ && _) eqn:E; [| done]. zbool. lia. }
  assert (Hr : range_ok 3 0 s e).
  { unfold range_ok. change (span 4) with (2 ^ 36). split; [lia |]. split; [lia |]. rewrite !Z.div_small by lia. done. }
  destruct (uvmunmap_range_spec 3 ltac:(lia) st t 0 s e Hok Ho Hr) as (st' & t' & E & G & Hlt' & Hm).
  rewrite E. cbn [mbind res_bind]. exists st', t'. split; [done |]. split; [done |]. split; [done |].
  intros x Hx. apply Hm. change (span 4) with (2 ^ 36). by apply Z.div_small.
Qed.

(** ** Lemmas: tearing down *)

(** What freeing a whole (sub)tree does. *)
Definition frees st h (t : ptree h) st' : Prop :=
  pa_ok (al st') /\
  (forall p, is_page p -> pa_used (al st') p <-> pa_used (al st) p /\ p ∉ pgs h t) /\
  (forall p, is_page p -> p ∉ tabs h t -> same_on (kw st) (kw st') p).

Definition frees_ok n (rec : vm A -> Z -> res (vm A)) : Prop :=
  match n with
  | O => True
  | S n' => forall st (c : ptree (S n')), pa_ok (al st) -> own st (S n') c ->
      exists st', rec st c.1 = Ret st' /\ frees st (S n') c st'
  end.

(** One entry of [freewalk]'s loop. *)
Lemma free_child n rec st (t : ptree (S n)) i c : frees_ok n rec -> 0 <= i < 512 ->
  pa_ok (al st) -> own st (S n) t -> t.2 i = Some c ->
  exists st', (if match n with O => true | S _ => false end
               then kpage_free_vm st (PA_TO_KVA (PTE_ADDR (entry n c)))
               else rec st (PA_TO_KVA (PTE_ADDR (entry n c)))) = Ret st' /\
    shrinks st (S n) t (store st' (t.1 + 8 * i) 0) (set_child t i None).
Proof.
  intros Hrec Hi Hok Ho Hc. pose proof (own_child st n t i c Ho Hi Hc) as Hoc. pose proof Ho as (_ & _ & Hu).
  pose proof (own_apart st n t i c Ho Hi Hc) as [Hb _].
  assert (is_page t.1) as Hbp by (apply Hu; cbn [pgs]; left).
  destruct n as [| n].
  - cbn [entry]. fold (leafpage c). destruct Hoc as (_ & _ & Hpu). destruct (Hpu (leafpage c)) as [Hp Hpused]; [left |].
    destruct (free_spec st (leafpage c) Hok Hp Hpused) as (a & E & Hoka & Hnu & Heq).
    exists (Vm (kw st) a). split; [done |]. by apply (shrinks_drop st 0 t i c (leafpage c)).
  - rewrite (entry_table st) by done. destruct (Hrec st c Hok Hoc) as (st' & E & Hok' & Hused & Hframe).
    exists st'. split; [done |]. apply (shrinks_remove st _ (S n) t i c); try done; cbn [store kw al].
    + intros p Hp Hn Hne. apply (same_on_trans _ (kw st')); [by apply Hframe |].
      apply (same_on_upd _ t.1); auto. by apply in_page_slot.
    + intros j Hj Hne. rewrite upd_ne by lia. apply (Hframe t.1); [done | | by apply in_page_slot].
      intros Hx. by apply Hb, tabs_pgs.
    + by rewrite upd_eq.
Qed.

Lemma freewalk_loop_spec n rec k : frees_ok n rec -> forall st (t : ptree (S n)) i,
  0 <= i -> i + Z.of_nat k <= 512 -> pa_ok (al st) -> own st (S n) t ->
  exists st' t', freewalk_loop rec (match n with O => true | S _ => false end) k st t.1 i = Ret st' /\
    shrinks st (S n) t st' t' /\ t'.1 = t.1 /\
    forall j, t'.2 j = if (i <=? j) && (j <? i + Z.of_nat k) then None else t.2 j.
Proof.
  intros Hrec. induction k as [| k IH]; intros st t i Hi Hk Hok Ho; cbn [freewalk_loop].
  { exists st, t. split; [done |]. split; [by apply shrinks_refl |]. split; [done |]. intros j.
    destruct (_ && _) eqn:E; [| done]. zbool. lia. }
  assert (Hi' : 0 <= i < 512) by lia.
  pose proof (entry_child st n t i Ho Hi') as He. destruct (t.2 i) as [c |] eqn:Ec; destruct He as [Ew Ev]; rewrite Ev; cbn [negb].
  - rewrite Ew. destruct (free_child n rec st t i c Hrec Hi' Hok Ho Ec) as (st1 & E & G). rewrite E. cbn [mbind res_bind].
    destruct (IH (store st1 (t.1 + 8 * i) 0) (set_child t i None) (i + 1)) as (st' & t' & E' & G' & Hb & Hc);
      [lia | lia | apply G | apply G |].
    cbn [set_child fst] in E', Hb. exists st', t'. split; [done |]. split; [by eapply shrinks_trans |]. split; [done |].
    intros j. rewrite Hc. cbn [set_child snd]. unfold upd.
    destruct (Z.leb_spec (i + 1) j), (Z.ltb_spec j (i + 1 + Z.of_nat k)), (Z.leb_spec i j), (Z.ltb_spec j (i + Z.of_nat (S k))),
      (Z.eqb_spec j i); cbn [andb]; try lia; done.
  - cbn [mbind res_bind]. destruct (IH st t (i + 1)) as (st' & t' & E' & G' & Hb & Hc); [lia | lia | done | done |].
    exists st', t'. split; [done |]. split; [done |]. split; [done |]. intros j. rewrite Hc.
    destruct (Z.leb_spec (i + 1) j), (Z.ltb_spec j (i + 1 + Z.of_nat k)), (Z.leb_spec i j), (Z.ltb_spec j (i + Z.of_nat (S k)));
      cbn [andb]; try lia; try done. by replace j with i by lia.
Qed.

Lemma freewalk_body n rec st (t : ptree (S n)) : frees_ok n rec -> pa_ok (al st) -> own st (S n) t ->
  exists st', (st ← freewalk_loop rec (match n with O => true | S _ => false end) 512 st t.1 0;
               kpage_free_vm st t.1) = Ret st' /\ frees st (S n) t st'.
Proof.
  intros Hrec Hok Ho.
  destruct (freewalk_loop_spec n rec 512 Hrec st t 0 ltac:(lia) ltac:(lia) Hok Ho) as (st1 & t1 & E & G & Hb & Hc).
  rewrite E. cbn [mbind res_bind].
  assert (Ho1 : own st1 (S n) t1) by apply G. pose proof Ho1 as (_ & _ & Hu1).
  assert (Hone : forall p, p ∈ pgs (S n) t1 <-> p = t.1).
  { intros p. cbn [pgs]. rewrite elem_of_cons, elem_of_over, Hb. split; [| by left].
    intros [-> | (j & d & Hj & Hd & _)]; [done |]. rewrite Hc in Hd.
    destruct (Z.leb_spec 0 j), (Z.ltb_spec j (0 + Z.of_nat 512)); cbn [andb] in Hd; try done; lia. }
  destruct (Hu1 t.1 ltac:(by apply Hone)) as [Hp Hpu].
  destruct (free_spec st1 t.1 (s_ok _ _ _ _ _ G) Hp Hpu) as (a & Ef & Hoka & Hnu & Heq). rewrite Ef.
  exists (Vm (kw st1) a). split; [done |]. split; [done |]. split; [| apply G].
  intros p Hpp. cbn [al]. destruct (decide (p = t.1)) as [-> | Hne].
  { split; [done |]. intros [_ Hx]. destruct Hx. cbn [pgs]. left. }
  rewrite Heq, (s_used _ _ _ _ _ G), Hone by done. tauto.
Qed.

Lemma freewalk_spec n : frees_ok (S n) (freewalk n).
Proof.
  induction n as [| n IH]; intros st t Hok Ho; cbn [freewalk].
  - by apply (freewalk_body 0).
  - by apply (freewalk_body (S n)).
Qed.

(** ** Operations that grow and shrink *)

(** The pages in use afterwards are the others' and those of the new tree; the tree
    takes only free pages, and the others' pages keep their contents. *)
Record evolves st (t : ptroot) st' (t' : ptroot) : Prop := {
  e_ok : pa_ok (al st');
  e_own : own st' 4 t';
  e_base : t'.1 = t.1;
  e_used : forall p, is_page p -> pa_used (al st') p <-> (pa_used (al st) p /\ p ∉ pgs 4 t) \/ p ∈ pgs 4 t';
  e_from : forall p, p ∈ pgs 4 t' -> p ∈ pgs 4 t \/ ~ pa_used (al st) p;
  e_frame : forall p, is_page p -> pa_used (al st) p -> p ∉ pgs 4 t -> same_on (kw st) (kw st') p
}.

Lemma entry_base st st' h (t t' : ptree (S h)) : own st (S h) t -> own st' (S h) t' ->
  entry (S h) t' = entry (S h) t -> t'.1 = t.1.
Proof. intros Ho Ho' E. rewrite <- (entry_table st h t Ho), <- (entry_table st' h t' Ho'). by rewrite E. Qed.

Lemma grows_evolves st (t : ptroot) st' t' : own st 4 t -> grows st 4 t st' t' [] -> evolves st t st' t'.
Proof.
  intros Ho G. pose proof (g_own _ _ _ _ _ _ G) as Ho'. split.
  - exact (g_ok _ _ _ _ _ _ G).
  - done.
  - apply (entry_base st st' 3); [done | done |]. exact (g_entry _ _ _ _ _ _ G).
  - intros p Hp. split.
    + intros Hu. destruct (g_acc _ _ _ _ _ _ G p Hp Hu) as [Hpu | ?]; [| by right].
      destruct (decide (p ∈ pgs 4 t)) as [Hin |]; [right; by apply (g_kept _ _ _ _ _ _ G) | by left].
    + intros [[Hu _] | Hin]; [by apply (g_used _ _ _ _ _ _ G) | by apply Ho'].
  - intros p Hp. destruct (g_from _ _ _ _ _ _ G p Hp) as [? | [?%elem_of_nil | ?]]; [by left | done | by right].
  - intros p Hp Hu Hn. apply (g_frame _ _ _ _ _ _ G); [done | done |]. intros Hx. by apply Hn, tabs_pgs.
Qed.

Lemma shrinks_evolves st (t : ptroot) st' t' : own st 4 t -> shrinks st 4 t st' t' -> evolves st t st' t'.
Proof.
  intros Ho G. pose proof (s_own _ _ _ _ _ G) as Ho'. split.
  - exact (s_ok _ _ _ _ _ G).
  - done.
  - apply (entry_base st st' 3); [done | done |]. exact (s_entry _ _ _ _ _ G).
  - intros p Hp. rewrite (s_used _ _ _ _ _ G) by done. split.
    + intros [Hu Hx]. destruct (decide (p ∈ pgs 4 t)); [right; auto | by left].
    + intros [[Hu Hn] | Hin]; [split; [done | by intros] |]. split; [| done].
      apply Ho. by apply (s_sub _ _ _ _ _ G).
  - intros p Hp. left. by apply (s_sub _ _ _ _ _ G).
  - intros p Hp _ Hn. apply (s_frame _ _ _ _ _ G); [done |]. intros Hx. by apply Hn, tabs_pgs.
Qed.

Lemma evolves_trans st1 st2 st3 (t1 t2 t3 : ptroot) :
  evolves st1 t1 st2 t2 -> evolves st2 t2 st3 t3 -> evolves st1 t1 st3 t3.
Proof.
  intros G1 G2.
  assert (Hstay : forall p, is_page p -> pa_used (al st1) p -> p ∉ pgs 4 t1 -> pa_used (al st2) p /\ p ∉ pgs 4 t2).
  { intros p Hp Hu Hn. split; [apply (e_used _ _ _ _ G1); [done | by left] |].
    intros Hx. by destruct (e_from _ _ _ _ G1 p Hx). }
  split.
  - exact (e_ok _ _ _ _ G2).
  - exact (e_own _ _ _ _ G2).
  - rewrite (e_base _ _ _ _ G2). exact (e_base _ _ _ _ G1).
  - intros p Hp. rewrite (e_used _ _ _ _ G2), (e_used _ _ _ _ G1) by done.
    pose proof (Hstay p Hp). tauto.
  - intros p Hp. assert (Hpp : is_page p) by (by apply (e_own _ _ _ _ G2)).
    destruct (e_from _ _ _ _ G2 p Hp) as [H2 | H2]; [by apply (e_from _ _ _ _ G1) |].
    destruct (decide (p ∈ pgs 4 t1)) as [| Hn]; [by left | right]. intros Hu. apply H2. by apply Hstay.
  - intros p Hp Hu Hn. destruct (Hstay p Hp Hu Hn). apply (same_on_trans _ (kw st2));
      [by apply (e_frame _ _ _ _ G1) | by apply (e_frame _ _ _ _ G2)].
Qed.

(** A page taken from the allocator, filled with [w'] and mapped. *)
Lemma grows_after_alloc st a w' h (t : ptree h) st' t' p : own st h t ->
  is_page p -> ~ pa_used (al st) p -> pa_used a p ->
  (forall q, is_page q -> q <> p -> pa_used a q <-> pa_used (al st) q) ->
  (forall q, is_page q -> q <> p -> same_on (kw st) w' q) ->
  grows (Vm w' a) h t st' t' [p] -> grows st h t st' t' [].
Proof.
  intros Ho Hp Hnu Hpu Heq Hw G.
  assert (Hmono : forall q, is_page q -> pa_used (al st) q -> pa_used a q).
  { intros q Hq Hu. destruct (decide (q = p)) as [-> |]; [done | by apply Heq]. }
  assert (Hp' : forall q, q ∈ pgs h t' -> is_page q) by (intros q Hq; by apply (g_own _ _ _ _ _ _ G)).
  split.
  - exact (g_ok _ _ _ _ _ _ G).
  - exact (g_own _ _ _ _ _ _ G).
  - exact (g_entry _ _ _ _ _ _ G).
  - intros q Hq Hu. apply (g_used _ _ _ _ _ _ G); [done |]. by apply Hmono.
  - exact (g_kept _ _ _ _ _ _ G).
  - by intros q ?%elem_of_nil.
  - intros q Hq. pose proof (Hp' q Hq). destruct (g_from _ _ _ _ _ _ G q Hq) as [? | [->%list_elem_of_singleton | Hn]]; auto.
    right. right. intros Hu. apply Hn. by apply Hmono.
  - intros q Hq Hu. destruct (g_acc _ _ _ _ _ _ G q Hq Hu) as [Hqa | ?]; [| by right].
    destruct (decide (q = p)) as [-> | Hne]; [right; apply (g_took _ _ _ _ _ _ G); left | left; by apply Heq].
  - intros q Hq. pose proof (Hp' q (tabs_pgs _ _ _ Hq)).
    destruct (g_tabs _ _ _ _ _ _ G q Hq) as [? | Hn]; [by left | right]. intros Hu. by apply Hn, Hmono.
  - intros q Hq Hu Hn. assert (q <> p) by (intros ->; done).
    apply (same_on_trans _ w'); [by apply Hw |]. apply (g_frame _ _ _ _ _ _ G); [done | by apply Hmono | done].
Qed.

(** The same page given back when it could not be mapped. *)
Lemma grows_alloc_free st a w' h (t : ptree h) st' t' p : own st h t ->
  is_page p -> ~ pa_used (al st) p -> pa_used a p ->
  (forall q, is_page q -> q <> p -> pa_used a q <-> pa_used (al st) q) ->
  (forall q, is_page q -> q <> p -> same_on (kw st) w' q) ->
  grows (Vm w' a) h t st' t' [] ->
  exists st'', kpage_free_vm st' p = Ret st'' /\ grows st h t st'' t' [].
Proof.
  intros Ho Hp Hnu Hpu Heq Hw G.
  assert (Hpu' : pa_used (al st') p) by (by apply (g_used _ _ _ _ _ _ G)).
  destruct (free_spec st' p (g_ok _ _ _ _ _ _ G) Hp Hpu') as (a2 & E & Hok2 & Hnu2 & Heq2).
  exists (Vm (kw st') a2). split; [done |].
  assert (Hnp : p ∉ pgs h t').
  { intros Hx. destruct (g_from _ _ _ _ _ _ G p Hx) as [Hin | [?%elem_of_nil | ?]]; [| done | done].
    apply Hnu. by apply Ho. }
  assert (Hmono : forall q, is_page q -> pa_used (al st) q -> q <> p /\ pa_used a q).
  { intros q Hq Hu. assert (q <> p) by (intros ->; done). split; [done | by apply Heq]. }
  pose proof (g_own _ _ _ _ _ _ G) as (Hr' & Hnd' & Hu'). split; cbn [al kw].
  - done.
  - split; [done |]. split; [done |]. intros q Hq. destruct (Hu' q Hq). split; [done |]. apply Heq2; [done | | done].
    intros ->. done.
  - exact (g_entry _ _ _ _ _ _ G).
  - intros q Hq Hu. destruct (Hmono q Hq Hu). apply Heq2; [done | done |]. by apply (g_used _ _ _ _ _ _ G).
  - exact (g_kept _ _ _ _ _ _ G).
  - by intros q ?%elem_of_nil.
  - intros q Hq. destruct (Hu' q Hq). destruct (g_from _ _ _ _ _ _ G q Hq) as [? | [?%elem_of_nil | Hn]]; auto.
    right. right. intros Hu. apply Hn. by apply Hmono.
  - intros q Hq Hu. destruct (decide (q = p)) as [-> | Hne]; [done |]. apply Heq2 in Hu; [| done | done].
    destruct (g_acc _ _ _ _ _ _ G q Hq Hu) as [Hqa | ?]; [left; by apply Heq | by right].
  - intros q Hq. destruct (Hu' q (tabs_pgs _ _ _ Hq)).
    destruct (g_tabs _ _ _ _ _ _ G q Hq) as [? | Hn]; [by left | right]. intros Hu. by apply Hn, Hmono.
  - intros q Hq Hu Hn. destruct (Hmono q Hq Hu). apply (same_on_trans _ w'); [by apply Hw |]. by apply (g_frame _ _ _ _ _ _ G).
Qed.

Lemma own_other st h (t : ptree h) w' a p : own st h t -> ~ pa_used (al st) p -> is_page p ->
  (forall q, is_page q -> q <> p -> pa_used a q <-> pa_used (al st) q) ->
  (forall q, is_page q -> q <> p -> same_on (kw st) w' q) -> own (Vm w' a) h t.
Proof.
  intros (Hr & Hnd & Hu) Hnu Hp Heq Hw.
  assert (Hne : forall q, q ∈ pgs h t -> q <> p) by (intros q Hq ->; by apply Hnu, Hu).
  split; [| split; [done |]].
  - apply (rep_frame (kw st)); [| done]. intros b Hb. pose proof (tabs_pgs _ _ _ Hb) as Hb'.
    destruct (Hu b Hb'). apply Hw; [done | by apply Hne].
  - intros q Hq. destruct (Hu q Hq). split; [done |]. cbn [al]. apply Heq; [done | by apply Hne | done].
Qed.

(** Allocate a page, fill it, map it at a free address; on failure give it back. *)
Lemma map_fresh st (t : ptroot) vpn perm w' a p : own st 4 t -> pa_ok a ->
  in_space vpn -> maps t vpn = None -> perm_ok perm ->
  is_page p -> ~ pa_used (al st) p -> pa_used a p ->
  (forall q, is_page q -> q <> p -> pa_used a q <-> pa_used (al st) q) ->
  (forall q, is_page q -> q <> p -> same_on (kw st) w' q) ->
  exists st' r t', mappages (Vm w' a) t.1 (4096 * vpn) (KVA_TO_PA p) PGSIZE perm = Ret (st', r) /\
  (r = 0 /\ grows st 4 t st' t' [] /\ same_on w' (kw st') p /\ (p ∉ tabs 4 t') /\
     (forall x, in_space x -> maps t' x = if x =? vpn then Some (Z.lor (KVA_TO_PA p) perm) else maps t x)
   \/ r = -1 /\ (exists st'', kpage_free_vm st' p = Ret st'' /\ grows st 4 t st'' t' []) /\ forall x, in_space x -> maps t' x = maps t x).
Proof.
  intros Ho Hoka Hv Hnone Hperm Hp Hnu Hpu Heq Hw. unfold in_space in Hv.
  pose proof (own_other st 4 t w' a p Ho Hnu Hp Heq Hw) as Ho'.
  destruct (is_page_kva p Hp) as (Hpa & Hal & Hinv).
  assert (Hnp : p ∉ pgs 4 t) by (intros Hx; by apply Hnu, Ho).
  assert (Hfr : frames_ok (Vm w' a) t (KVA_TO_PA p) 1).
  { split; [lia |]. split; [Z.div_mod_to_equations; lia |]. intros q Hq. unfold frames in Hq. cbn [seq map] in Hq.
    rewrite Z.mul_0_r, Z.add_0_r, Hinv in Hq. apply list_elem_of_singleton in Hq as ->. done. }
  unfold mappages, PGSIZE, KASSERT. cbn [Z.eqb negb mbind res_bind].
  rewrite (u64_small (4096 * vpn + 4096)), (u64_small (4096 * vpn + 4096 - 1)), !PGROUNDDW_eq by lia.
  replace (4096 * vpn / 4096 * 4096) with (4096 * vpn) by (Z.div_mod_to_equations; lia).
  replace ((4096 * vpn + 4096 - 1) / 4096 * 4096) with (4096 * vpn) by (Z.div_mod_to_equations; lia).
  rewrite Z.ltb_irrefl, Z.sub_diag. change (Z.to_nat (0 / 4096)) with O.
  destruct (mappages_loop_spec 0 (Vm w' a) t vpn (KVA_TO_PA p) perm Hoka Ho' ltac:(lia) ltac:(lia) Hperm Hfr)
    as (st' & t' & r & j & E & Hj & G & Hm & Hr).
  { intros x Hx. by replace x with vpn by lia. }
  rewrite Z.add_0_r in E. rewrite E. exists st', r, t'. split; [done |].
  destruct Hr as [[-> ->] | [-> Hj']]; [left | right].
  - rewrite frames_S, Hinv in G. change (frames (KVA_TO_PA p + 4096) 0) with (@nil Z) in G.
    split; [done |]. split; [by apply (grows_after_alloc st a w' 4 t st' t' p) |].
    split; [apply (g_frame _ _ _ _ _ _ G); [done | done |]; intros Hx; by apply Hnp, tabs_pgs |].
    split; [intros Hx; destruct (g_tabs _ _ _ _ _ _ G p Hx) as [Hx' | ?]; [by apply Hnp, tabs_pgs | done] |].
    intros x Hx. rewrite Hm by done. change (Z.of_nat 1) with 1.
    destruct (Z.leb_spec vpn x), (Z.ltb_spec x (vpn + 1)), (Z.eqb_spec x vpn); cbn [andb]; try lia; try done.
    subst. unfold desc. by rewrite Z.sub_diag, Z.mul_0_r, Z.add_0_r.
  - replace j with O in * by lia. change (frames (KVA_TO_PA p) 0) with (@nil Z) in G.
    split; [done |]. split; [by apply (grows_alloc_free st a w' 4 t st' t' p) |].
    intros x Hx. rewrite Hm by done. change (Z.of_nat 0) with 0.
    destruct (Z.leb_spec vpn x), (Z.ltb_spec x (vpn + 0)); cbn [andb]; try lia; done.
Qed.

(** A mapped page is a page of the tree, and not one of its tables. *)
Lemma leaf_not_table st h (t : ptree h) vpn v : own st h t -> tmap h t vpn = Some v ->
  leafpage v ∈ pgs h t /\ (leafpage v ∉ tabs h t).
Proof.
  revert t. induction h as [| h IH]; intros t Ho Hm.
  { injection Hm as <-. cbn [pgs tabs]. split; [left | apply not_elem_of_nil]. }
  change (tmap (S h) t vpn) with (match t.2 (ix h vpn) with Some c => tmap h c vpn | None => None end) in Hm.
  destruct (t.2 (ix h vpn)) as [c |] eqn:Ec; [| done]. pose proof (ix_range h vpn) as Hi.
  destruct (IH c (own_child st h t _ c Ho Hi Ec) Hm) as [Hin Hnt].
  destruct (own_apart st h t _ c Ho Hi Ec) as [Hb Hsib].
  split; [by apply (pgs_child h t (ix h vpn) c) |]. cbn [tabs]. rewrite elem_of_cons, elem_of_over.
  intros [Hx | (j & d & Hj & Hd & Hx)]; [by rewrite Hx in Hin |].
  destruct (decide (j = ix h vpn)) as [-> | Hne]; [congruence |].
  by apply (Hsib j d (leafpage v) Hj Hne Hd (tabs_pgs _ _ _ Hx)).
Qed.

(** Page contents: [p] holds zeroes, or the words [p0] held in [w0]. *)
Definition zeroed (w : Z -> Z) (p : Z) : Prop := forall a, in_page p a = true -> w a = 0.
Definition copied_page (w0 : Z -> Z) (p0 : Z) (w : Z -> Z) (p : Z) : Prop :=
  forall a, in_page p a = true -> w a = w0 (p0 + (a - p)).

(** The pages [s, e) are mapped to fresh pages described by [Q]. *)
Definition filled st0 (w : Z -> Z) (t0 t : ptroot) (s e : Z) (Q : Z -> Z -> Z -> Prop) : Prop :=
  forall x, in_space x -> if (s <=? x) && (x <? e)
    then exists p v, maps t x = Some v /\ leafpage v = p /\ ~ pa_used (al st0) p /\ Q x p v
    else maps t x = maps t0 x.

Lemma zero_page_zeroed w p : zeroed (zero_page w p) p.
Proof. intros a Ha. unfold zero_page. by rewrite Ha. Qed.

Lemma leafpage_desc p perm : is_page p -> perm_ok perm -> leafpage (Z.lor (KVA_TO_PA p) perm) = p.
Proof.
  intros Hp Hperm. destruct (is_page_kva p Hp) as (H1 & H2 & H3). unfold leafpage.
  destruct (page_desc_addr (KVA_TO_PA p) perm H1 H2 Hperm) as [-> _]. done.
Qed.

(** The pages [uvmalloc] has mapped so far stay zeroed while it goes on. *)
Definition alloc_page (w : Z -> Z) (x p v : Z) : Prop := v = Z.lor (KVA_TO_PA p) PAGE_USER /\ zeroed w p.

Lemma zeroed_grows st (t : ptroot) st' t' vpn v : own st 4 t -> grows st 4 t st' t' [] ->
  maps t vpn = Some v -> zeroed (kw st) (leafpage v) -> zeroed (kw st') (leafpage v).
Proof.
  intros Ho G Hm Hz a Ha. destruct (leaf_not_table st 4 t vpn v Ho Hm) as [Hin Hnt].
  rewrite (g_frame _ _ _ _ _ _ G (leafpage v)); [by apply Hz | by apply Ho | by apply Ho | done | done].
Qed.

Section uvmalloc.
Context (st0 : vm A) (t0 : ptroot) (s0 newsz : Z).
Hypothesis Ho0 : own st0 4 t0.
Hypothesis Hs0 : 0 <= s0.
Hypothesis Hnew : 0 <= newsz <= 2 ^ 48.
Hypothesis Hfree : forall x, s0 <= x < (newsz + 4095) / 4096 -> maps t0 x = None.

Definition alloc_inv st (t : ptroot) (s : Z) : Prop :=
  grows st0 4 t0 st t [] /\ filled st0 (kw st) t0 t s0 s (alloc_page (kw st)).

(** Rolling back restores the mapping. *)
Lemma alloc_rollback st (t : ptroot) s : s0 <= s -> s <= (newsz + 4095) / 4096 ->
  grows st0 4 t0 st t [] ->
  (forall x, in_space x -> (s0 <= x < s -> True) /\ (~ s0 <= x < s -> maps t x = maps t0 x)) ->
  exists st' t' r, uvmdealloc st t0.1 (4096 * s) (4096 * s0) = Ret (st', r) /\ evolves st0 t0 st' t' /\
    forall x, in_space x -> maps t' x = maps t0 x.
Proof.
  intros Hs Hle G Hm. pose proof (g_own _ _ _ _ _ _ G) as Ho. pose proof (grows_evolves st0 t0 st t Ho0 G) as Ge.
  assert (4096 * s <= 2 ^ 48) by (Z.div_mod_to_equations; lia).
  destruct (uvmdealloc_spec st t (4096 * s) (4096 * s0) (g_ok _ _ _ _ _ _ G) Ho ltac:(lia) ltac:(lia)) as (st' & t' & E & G' & _ & Hm').
  rewrite (e_base _ _ _ _ Ge) in E. eexists st', t', _. split; [exact E |].
  split; [apply (evolves_trans st0 st st' t0 t t'); [done |]; by apply shrinks_evolves |].
  intros x Hx. rewrite Hm' by done. replace ((4096 * s0 + 4095) / 4096) with s0 by (Z.div_mod_to_equations; lia).
  replace ((4096 * s + 4095) / 4096) with s by (Z.div_mod_to_equations; lia).
  destruct (Z.leb_spec s0 x), (Z.ltb_spec x s); cbn [andb].
  - symmetry. apply Hfree. lia.
  - by apply (Hm x Hx); lia.
  - by apply (Hm x Hx); lia.
  - by apply (Hm x Hx); lia.
Qed.

Lemma uvmalloc_loop_spec fuel : forall st (t : ptroot) s, s0 <= s -> s <= Z.max s0 ((newsz + 4095) / 4096) ->
  (newsz + 4095) / 4096 - s < Z.of_nat fuel -> alloc_inv st t s ->
  exists st' t' r, uvmalloc_loop fuel st t0.1 (4096 * s0) newsz (4096 * s) = Ret (st', r) /\ evolves st0 t0 st' t' /\
    (r = newsz /\ filled st0 (kw st') t0 t' s0 (Z.max s0 ((newsz + 4095) / 4096)) (alloc_page (kw st')) \/
     r = 0 /\ forall x, in_space x -> maps t' x = maps t0 x).
Proof.
  induction fuel as [| fuel IH]; intros st t s Hs Hmax Hf [G Hfill]; cbn [uvmalloc_loop].
  { pose proof (grows_evolves st0 t0 st t Ho0 G). exists st, t, newsz. split; [done |]. split; [done |]. left.
    split; [done |]. by replace (Z.max s0 ((newsz + 4095) / 4096)) with s by lia. }
  destruct (Z.ltb_spec (4096 * s) newsz) as [Hlt | Hge]; cbn [negb].
  2: { pose proof (grows_evolves st0 t0 st t Ho0 G). exists st, t, newsz. split; [done |]. split; [done |]. left.
    split; [done |]. replace (Z.max s0 ((newsz + 4095) / 4096)) with s; [done |]. Z.div_mod_to_equations. lia. }
  assert (Hsn : s < (newsz + 4095) / 4096) by (Z.div_mod_to_equations; lia).
  assert ((newsz + 4095) / 4096 < 2 ^ 36 + 1) by (apply Z.div_lt_upper_bound; lia).
  assert (Hsp : in_space s) by (unfold in_space; lia).
  assert (Hsame : forall x, in_space x -> (s0 <= x < s -> True) /\ (~ s0 <= x < s -> maps t x = maps t0 x)).
  { intros x Hx. split; [done |]. intros Hn. specialize (Hfill x Hx).
    destruct (Z.leb_spec s0 x), (Z.ltb_spec x s); cbn [andb] in Hfill; try done; lia. }
  assert (Hnone : maps t s = None) by (rewrite (proj2 (Hsame s Hsp)) by lia; apply Hfree; lia).
  pose proof (g_own _ _ _ _ _ _ G) as Ho. pose proof (g_ok _ _ _ _ _ _ G) as Hok.
  destruct (pa_alloc_law (al st) Hok) as (a & r & E & Hoka & Hr). unfold kpage_alloc_vm. rewrite E. cbn [mbind res_bind].
  destruct r as [p |].
  - destruct Hr as (Hp & Hnu & Hpu & Heq). cbn [kw al].
    unfold USER_BASE. rewrite Z.add_0_l, (u64_small (4096 * s)) by (unfold in_space in Hsp; lia).
    rewrite <- (e_base _ _ _ _ (grows_evolves st0 t0 st t Ho0 G)).
    destruct (map_fresh st t s PAGE_USER (zero_page (kw st) p) a p Ho Hoka Hsp Hnone PAGE_USER_ok Hp Hnu Hpu Heq)
      as (st' & r & t' & Em & [(-> & G' & Hz & Hnt & Hm) | (-> & (st'' & Ef & G'') & Hm)]).
    { intros q Hq Hne. apply same_on_zero; auto. }
    + rewrite Em. cbn [mbind res_bind]. destruct (Z.ltb_spec 0 0); [lia |]. unfold PGSIZE.
      rewrite (u64_small (4096 * s + 4096)) by (unfold in_space in Hsp; lia). replace (4096 * s + 4096) with (4096 * (s + 1)) by lia.
      assert (G2 : grows st0 4 t0 st' t' []) by (apply (grows_trans st0 st st' 4 t0 t t' [] []); try done; by intros q ?%elem_of_nil).
      rewrite (e_base _ _ _ _ (grows_evolves st0 t0 st t Ho0 G)).
      apply (IH st' t' (s + 1)); [lia | lia | lia |]. split; [done |].
      intros x Hx. specialize (Hfill x Hx). rewrite Hm by done.
      destruct (Z.eqb_spec x s) as [-> | Hne].
      * destruct (Z.leb_spec s0 s), (Z.ltb_spec s (s + 1)); cbn [andb]; try lia.
        exists p, (Z.lor (KVA_TO_PA p) PAGE_USER). split; [done |]. split; [by apply leafpage_desc; [| apply PAGE_USER_ok] |].
        split; [intros Hu; by apply Hnu, (g_used _ _ _ _ _ _ G) |]. split; [done |].
        intros b Hb. rewrite Hz by done. by apply zero_page_zeroed.
      * destruct (Z.leb_spec s0 x), (Z.ltb_spec x (s + 1)), (Z.ltb_spec x s); cbn [andb] in *; try lia; try done.
        destruct Hfill as (p' & v & Hv & Hleaf & Hnp & -> & Hzp). exists p', (Z.lor (KVA_TO_PA p') PAGE_USER).
        split; [done |]. split; [done |]. split; [done |]. split; [done |]. rewrite <- Hleaf in Hzp |- *.
        by apply (zeroed_grows st t st' t' x).
    + rewrite Em. cbn [mbind res_bind]. destruct (Z.ltb_spec (-1) 0); [| lia]. rewrite Ef. cbn [mbind res_bind].
      assert (G2 : grows st0 4 t0 st'' t' []) by (apply (grows_trans st0 st st'' 4 t0 t t' [] []); try done; by intros q ?%elem_of_nil).
      rewrite (e_base _ _ _ _ (grows_evolves st0 t0 st t Ho0 G)).
      destruct (alloc_rollback st'' t' s Hs ltac:(lia) G2) as (st3 & t3 & r3 & E3 & Ge & Hm3).
      { intros x Hx. split; [done |]. intros Hn. rewrite Hm by done. by apply Hsame. }
      rewrite E3. cbn [mbind res_bind]. exists st3, t3, 0. split; [done |]. split; [done | by right].
  - assert (G2 : grows st0 4 t0 (Vm (kw st) a) t []).
    { apply (grows_trans st0 st _ 4 t0 t t [] []); [done | by apply grows_alloc | by intros q ?%elem_of_nil]. }
    destruct (alloc_rollback (Vm (kw st) a) t s Hs ltac:(lia) G2 Hsame) as (st3 & t3 & r3 & E3 & Ge & Hm3).
    rewrite E3. cbn [mbind res_bind]. exists st3, t3, 0. split; [done |]. split; [done | by right].
Qed.
End uvmalloc.

(** ** Lemmas: copying an address space *)

(** The attribute bits of a descriptor, as [uvmcopy] extracts them. *)
Definition pte_flags (v : Z) : Z := Z.lxor v (PTE_ADDR v).

Lemma pte_flags_ok v : valid v = true -> perm_ok (pte_flags v).
Proof.
  intros Hv. unfold perm_ok, pte_flags, PTE_ADDR. set (M := 0x0000FFFFFFFFF000). split.
  - apply Z.bits_inj'. intros i Hi. rewrite Z.land_spec, Z.lxor_spec, Z.land_spec, Z.bits_0.
    by destruct (Z.testbit v i), (Z.testbit M i).
  - rewrite Z.lxor_spec, Z.land_spec. change (Z.testbit M 0) with false. rewrite andb_false_r, xorb_false_r.
    rewrite valid_odd in Hv. apply Z.eqb_eq in Hv. rewrite Z.bit0_odd. rewrite Zmod_odd in Hv. by destruct (Z.odd v).
Qed.

Lemma grows_own_other st h (t : ptree h) st' t' k (u : ptree k) : grows st h t st' t' [] -> own st k u ->
  (forall p, p ∈ pgs k u -> p ∉ pgs h t) -> own st' k u.
Proof.
  intros G (Hr & Hnd & Hu) Hdis. split; [| split; [done |]].
  - apply (rep_frame (kw st)); [| done]. intros b Hb. pose proof (tabs_pgs _ _ _ Hb) as Hb'. destruct (Hu b Hb').
    apply (g_frame _ _ _ _ _ _ G); [done | done |]. intros Hx. by apply (Hdis b Hb'), tabs_pgs.
  - intros p Hp. destruct (Hu p Hp). split; [done |]. by apply (g_used _ _ _ _ _ _ G).
Qed.

Section uvmcopy.
Context (st0 : vm A) (ts td0 : ptroot) (sz : Z).
Hypothesis Hos : own st0 4 ts.
Hypothesis Hod : own st0 4 td0.
Hypothesis Hdis : forall p, p ∈ pgs 4 ts -> p ∉ pgs 4 td0.
Hypothesis Hsz : 0 <= sz <= 2 ^ 48.
Hypothesis Hfresh : forall x, 0 <= x < (sz + 4095) / 4096 -> maps td0 x = None.

(** The pages below [s] are mapped in the copy exactly when they are in the source,
    with the same attributes and contents, on pages of their own. *)
Definition copy_upto (w : Z -> Z) (t : ptroot) (s : Z) : Prop :=
  forall x, in_space x ->
    match (if x <? s then maps ts x else None) with
    | Some v => exists p, maps t x = Some (Z.lor (KVA_TO_PA p) (pte_flags v)) /\
        leafpage (Z.lor (KVA_TO_PA p) (pte_flags v)) = p /\ ~ pa_used (al st0) p /\
        copied_page (kw st0) (leafpage v) w p
    | None => maps t x = maps td0 x
    end.

Definition copy_inv st (t : ptroot) (s : Z) : Prop :=
  grows st0 4 td0 st t [] /\ copy_upto (kw st) t s.

Lemma copy_upto_skip w t s : maps ts s = None -> copy_upto w t s -> copy_upto w t (s + 1).
Proof.
  intros Hn Hc x Hx. specialize (Hc x Hx). destruct (Z.ltb_spec x s), (Z.ltb_spec x (s + 1)); try lia; try done.
  replace x with s in * by lia. by rewrite Hn.
Qed.

(** A source page keeps its contents while the copy grows. *)
Lemma source_kept st t vpn v : grows st0 4 td0 st t [] -> maps ts vpn = Some v -> same_on (kw st0) (kw st) (leafpage v).
Proof.
  intros G Hm. destruct (leaf_not_table st0 4 ts vpn v Hos Hm) as [Hin _]. pose proof Hos as (_ & _ & Hu).
  destruct (Hu _ Hin). apply (g_frame _ _ _ _ _ _ G); [done | done |]. intros Hx. by apply (Hdis _ Hin), tabs_pgs.
Qed.

Lemma copy_upto_map st st' (t t' : ptroot) s v p : copy_inv st t s -> own st 4 t -> in_space s ->
  maps ts s = Some v -> is_page p -> ~ pa_used (al st) p -> perm_ok (pte_flags v) -> is_page (leafpage v) ->
  pa_used (al st) (leafpage v) -> grows st 4 t st' t' [] ->
  same_on (copy_page (kw st) p (leafpage v)) (kw st') p ->
  (forall x, in_space x -> maps t' x = if x =? s then Some (Z.lor (KVA_TO_PA p) (pte_flags v)) else maps t x) ->
  copy_inv st' t' (s + 1).
Proof.
  intros [G Hc] Ho Hs Hv Hp Hnu Hperm Hpl Hul G' Hsame Hm.
  split; [apply (grows_trans st0 st st' 4 td0 t t' [] []); try done; by intros q ?%elem_of_nil |].
  intros x Hx. specialize (Hc x Hx). rewrite Hm by done. destruct (Z.eqb_spec x s) as [-> | Hne].
  - destruct (Z.ltb_spec s (s + 1)); [| lia]. rewrite Hv. exists p. split; [done |].
    split; [by apply leafpage_desc |]. split; [intros Hu; by apply Hnu, (g_used _ _ _ _ _ _ G) |].
    intros a Ha. rewrite Hsame by done. unfold copy_page. rewrite Ha.
    apply (source_kept st t s v G Hv). unfold in_page, PGSIZE in *. zbool. apply andb_true_iff. lia.
  - destruct (Z.ltb_spec x s), (Z.ltb_spec x (s + 1)); try lia; try done.
    destruct (maps ts x) as [v' |]; [| done]. destruct Hc as (p' & Hm' & Hl & Hn & Hcp). exists p'.
    split; [done |]. split; [done |]. split; [done |]. intros a Ha. rewrite <- (Hcp a Ha).
    destruct (leaf_not_table st 4 t x _ Ho Hm') as [Hin Hnt]. rewrite Hl in Hin, Hnt.
    destruct Ho as (_ & _ & Hu). destruct (Hu p' Hin). by apply (g_frame _ _ _ _ _ _ G' p').
Qed.

Lemma uvmcopy_loop_spec fuel : forall st t s, 0 <= s -> s <= (sz + 4095) / 4096 ->
  (sz + 4095) / 4096 - s < Z.of_nat fuel -> copy_inv st t s ->
  exists st' t' r, uvmcopy_loop fuel st ts.1 td0.1 (4096 * s) sz = Ret (st', r) /\ grows st0 4 td0 st' t' [] /\
    (r = 0 /\ copy_upto (kw st') t' ((sz + 4095) / 4096) \/ r = -1).
Proof.
  induction fuel as [| fuel IH]; intros st t s Hs Hle Hf Hinv; pose proof Hinv as [G Hc]; cbn [uvmcopy_loop]; [lia |].
  destruct (Z.ltb_spec (4096 * s) sz) as [Hlt | Hge]; cbn [negb].
  2: { exists st, t, 0. split; [done |]. split; [done |]. left. split; [done |].
    replace ((sz + 4095) / 4096) with s; [done |]. Z.div_mod_to_equations. lia. }
  assert (Hsn : s < (sz + 4095) / 4096) by (Z.div_mod_to_equations; lia).
  assert ((sz + 4095) / 4096 < 2 ^ 36 + 1) by (apply Z.div_lt_upper_bound; lia).
  assert (Hsp : in_space s) by (unfold in_space; lia). unfold in_space in Hsp.
  pose proof (g_own _ _ _ _ _ _ G) as Ho.
  pose proof (grows_own_other st0 4 td0 st t 4 ts G Hos Hdis) as Hos'.
  unfold walk, KASSERT. destruct (Z.ltb_spec (4096 * s) MAXUVA) as [_ | Hx];
    [| unfold MAXUVA in Hx; rewrite Z.shiftl_1_l in Hx; lia].
  cbn [mbind res_bind]. rewrite (walk_noalloc 3 st ts (4096 * s) ltac:(lia) Hos' : walk_levels 3 st ts.1 _ 0 false = _).
  cbn [mbind res_bind]. rewrite vpn_of_mul. pose proof (slot_word 3 st ts s Hos') as Hw.
  unfold PGSIZE. rewrite (u64_small (4096 * s + 4096)) by lia. replace (4096 * s + 4096) with (4096 * (s + 1)) by lia.
  destruct (slot 3 ts s) as [pte |].
  2: { apply (IH st t); [lia | lia | lia |]. split; [done |]. by apply copy_upto_skip. }
  destruct Hw as [Hw Hwv]. destruct (valid (kw st pte)) eqn:Ev; cbn [negb].
  2: { apply (IH st t); [lia | lia | lia |]. split; [done |]. apply copy_upto_skip; [| done]. by apply Hwv. }
  destruct (tmap 4 ts s) as [v |] eqn:Em; [| discriminate (proj1 Hwv eq_refl)]. change (kw st pte = v) in Hw.
  rewrite Hw in *. destruct (leaf_not_table st 4 ts s v Hos' Em) as [Hin _].
  pose proof Hos' as (_ & _ & Hus). destruct (Hus _ Hin) as [Hpl Hul].
  assert (Hnone : maps t s = None).
  { specialize (Hc s ltac:(unfold in_space; lia)). rewrite Z.ltb_irrefl in Hc. rewrite Hc. apply Hfresh. lia. }
  destruct (pa_alloc_law (al st) (g_ok _ _ _ _ _ _ G)) as (a & r & E & Hoka & Hr). unfold kpage_alloc_vm. rewrite E.
  cbn [mbind res_bind kw al]. destruct r as [p |].
  2: { exists (Vm (kw st) a), t, (-1). split; [done |]. split; [| by right].
    apply (grows_trans st0 st _ 4 td0 t t [] []); [done | by apply grows_alloc | by intros q ?%elem_of_nil]. }
  destruct Hr as (Hp & Hnu & Hpu & Heq). fold (leafpage v). fold (pte_flags v).
  rewrite <- (e_base _ _ _ _ (grows_evolves st0 td0 st t Hod G)).
  destruct (map_fresh st t s (pte_flags v) (copy_page (kw st) p (leafpage v)) a p Ho Hoka ltac:(done) Hnone
    (pte_flags_ok v Ev) Hp Hnu Hpu Heq) as (st' & r & t' & Emp & [(-> & G' & Hz & Hnt & Hm) | (-> & (st'' & Ef & G'') & Hm)]).
  { intros q Hq Hne b Hb. unfold copy_page. by rewrite (in_page_disjoint q p b). }
  - unfold PGSIZE in Emp. rewrite Emp. cbn [mbind res_bind]. destruct (Z.ltb_spec 0 0); [lia |].
    rewrite (e_base _ _ _ _ (grows_evolves st0 td0 st t Hod G)).
    apply (IH st' t'); [lia | lia | lia |].
    by apply (copy_upto_map st st' t t' s v p Hinv Ho ltac:(done) Em Hp Hnu (pte_flags_ok v Ev)).
  - unfold PGSIZE in Emp. rewrite Emp. cbn [mbind res_bind]. destruct (Z.ltb_spec (-1) 0); [| lia].
    rewrite Ef. cbn [mbind res_bind]. exists st'', t', (-1). split; [done |]. split; [| by right].
    apply (grows_trans st0 st st'' 4 td0 t t' [] []); try done. by intros q ?%elem_of_nil.
Qed.
End uvmcopy.

(** ** Lemmas: walking an existing path *)

Lemma walk_present n st (t : ptree (S n)) va a alloc : (n <= 3)%nat -> own st (S n) t ->
  slot n t (vpn_of va) = Some a -> walk_levels n st t.1 va (3 - Z.of_nat n) alloc = Ret (st, Some a).
Proof.
  revert t. induction n as [| n IH]; intros t Hn Ho Hs; cbn [walk_levels slot] in *.
  { rewrite L3X_ix. congruence. }
  rewrite walk_idx by done. pose proof (ix_range (S n) (vpn_of va)) as Hi.
  pose proof (entry_child st (S n) t _ Ho Hi) as He.
  destruct (t.2 (ix (S n) (vpn_of va))) as [c |] eqn:Ec; [| done]. destruct He as [-> ->].
  pose proof (own_child st (S n) t _ c Ho Hi Ec) as Hoc.
  rewrite (entry_table st) by done. replace (3 - Z.of_nat (S n) + 1) with (3 - Z.of_nat n) by lia. by apply IH; [lia | |].
Qed.

Lemma walk_mapped st (t : ptroot) va v alloc : own st 4 t -> 0 <= va < 2 ^ 48 -> maps t (vpn_of va) = Some v ->
  exists a, walk st t.1 va alloc = Ret (st, Some a) /\ kw st a = v /\ valid v = true.
Proof.
  intros Ho Hva Hm. pose proof (slot_word 3 st t (vpn_of va) Ho) as Hw. unfold maps in Hm. rewrite Hm in Hw.
  destruct (slot 3 t (vpn_of va)) as [a |] eqn:Es; [| done]. destruct Hw as [Hw Hv]. exists a.
  unfold walk, KASSERT. destruct (Z.ltb_spec va MAXUVA) as [_ | Hx]; [| unfold MAXUVA in Hx; rewrite Z.shiftl_1_l in Hx; lia].
  cbn [mbind res_bind]. split; [by apply (walk_present 3 st t va a alloc) |]. split; [done |].
  change (kw st a = v) in Hw. rewrite <- Hw. destruct (valid (kw st a)); [done | discriminate (proj2 Hv eq_refl)].
Qed.

Lemma mappages_range va sz : 0 <= va -> 0 < sz -> va + sz <= 2 ^ 48 ->
  PGROUNDDW va = 4096 * (va / 4096) /\
  PGROUNDDW (u64 (u64 (va + sz) - 1)) = 4096 * (va / 4096 + ((va + sz - 1) / 4096 - va / 4096)).
Proof.
  intros. rewrite (u64_small (va + sz)), u64_small, !PGROUNDDW_eq by lia. lia.
Qed.

(** ** Properties *)

(** [mappages] over any range of unmapped pages, given frames the caller owns,
    maps page [i] of the range to frame [i] and leaves every other mapping alone; if a
    table cannot be allocated it returns -1 with a prefix mapped. Tables come from
    free pages only, nothing of anyone else's memory is written and no page is lost.
    It panics on an empty range and on a page that is already mapped. *)
Theorem mappages_maps_range st (t : ptroot) va pa sz perm :
  pa_ok (al st) -> own st 4 t -> 0 <= va -> va + sz <= 2 ^ 48 -> perm_ok perm ->
  let s := va / 4096 in
  let k := Z.to_nat ((va + sz - 1) / 4096 - s) in
  (sz = 0 -> mappages st t.1 va pa sz perm = Panic "mappages: sz == 0") /\
  (0 < sz -> frames_ok st t pa (S k) -> (forall x, s <= x <= s + Z.of_nat k -> maps t x = None) ->
    exists st' t' r j, mappages st t.1 va pa sz perm = Ret (st', r) /\
      (j <= S k)%nat /\ grows st 4 t st' t' (frames pa j) /\ mapped t t' s (Z.of_nat j) pa perm /\
      (r = 0 /\ j = S k \/ r = -1 /\ (j < S k)%nat)) /\
  (0 < sz -> maps t s <> None -> mappages st t.1 va pa sz perm = Panic "mappages: remap at va %#lx").
Proof.
  intros Hok Ho Hva Hend Hperm. cbn zeta. split; [intros ->; done |]. unfold mappages.
  split; intros Hsz; destruct (mappages_range va sz Hva Hsz Hend) as [Ea El]; rewrite Ea, El;
    (destruct (Z.eqb_spec sz 0); [lia |]); cbn [negb KASSERT mbind res_bind];
    (assert (Hd : 0 <= (va + sz - 1) / 4096 - va / 4096 /\ (va + sz - 1) / 4096 < 2 ^ 36)
      by (Z.div_mod_to_equations; lia)); set (k := Z.to_nat ((va + sz - 1) / 4096 - va / 4096));
    replace ((va + sz - 1) / 4096 - va / 4096) with (Z.of_nat k) by lia;
    (destruct (Z.ltb_spec (4096 * (va / 4096 + Z.of_nat k)) (4096 * (va / 4096))); [lia |]);
    replace (4096 * (va / 4096 + Z.of_nat k) - 4096 * (va / 4096)) with (Z.of_nat k * 4096) by lia;
    unfold PGSIZE; rewrite Z.div_mul, Nat2Z.id by lia.
  - intros Hfr Hnone. apply mappages_loop_spec; try done; Z.div_mod_to_equations; lia.
  - intros Hm. destruct (maps t (va / 4096)) as [v |] eqn:Ev; [| done]. rewrite mappages_loop_S.
    destruct (walk_mapped st t (4096 * (va / 4096)) v true Ho) as (a & E & Hw & Hv);
      [Z.div_mod_to_equations; lia | by rewrite vpn_of_mul |].
    rewrite E. cbn [mbind res_bind]. by rewrite Hw, Hv.
Qed.

Lemma uvmalloc_spec st (t : ptroot) oldsz newsz :
  pa_ok (al st) -> own st 4 t -> 0 <= oldsz <= newsz -> newsz <= 2 ^ 48 ->
  let s0 := (oldsz + 4095) / 4096 in
  (forall x, s0 <= x < (newsz + 4095) / 4096 -> maps t x = None) ->
  exists st' t' r, uvmalloc st t.1 oldsz newsz = Ret (st', r) /\ evolves st t st' t' /\
    (r = newsz /\ filled st (kw st') t t' s0 ((newsz + 4095) / 4096) (alloc_page (kw st')) \/
     r = 0 /\ forall x, in_space x -> maps t' x = maps t x).
Proof.
  intros Hok Ho Hold Hnew s0 Hfree. unfold uvmalloc. destruct (Z.ltb_spec newsz oldsz); [lia |].
  rewrite PGROUNDUP_eq by lia. fold s0. rewrite (Z.mul_comm s0).
  assert (Hs0 : 0 <= s0 <= (newsz + 4095) / 4096) by (unfold s0; Z.div_mod_to_equations; lia).
  assert (Hinv : alloc_inv st t s0 st t s0).
  { split; [by apply grows_refl |]. intros x Hx. destruct (_ && _) eqn:E; [zbool; lia | done]. }
  destruct (uvmalloc_loop_spec st t s0 newsz Ho ltac:(lia) ltac:(lia) Hfree
    (S (Z.to_nat ((newsz - 4096 * s0) / PGSIZE + 1))) st t s0 ltac:(lia) ltac:(lia)) as (st' & t' & r & E & Ge & Hr).
  - unfold PGSIZE. Z.div_mod_to_equations. lia.
  - done.
  - exists st', t', r. split; [done |]. split; [done |]. by rewrite Z.max_r in Hr by lia.
Qed.


(** C9: shrinking a user mapping unmaps exactly the whole pages between the two sizes
    and frees exactly the pages that leave the tree: the unmapped pages and the tables
    that became empty: every table below the root that is left without an entry had none
    before; no other page changes hands or contents. *)
Theorem uvmdealloc_unmaps_exactly st (t : ptroot) oldsz newsz :
  pa_ok (al st) -> own st 4 t -> 0 <= newsz -> oldsz <= 2 ^ 48 ->
  exists st' t', uvmdealloc st t.1 oldsz newsz = Ret (st', if newsz >=? oldsz then oldsz else newsz) /\
    own st' 4 t' /\ t'.1 = t.1 /\
    (forall p, is_page p -> pa_used (al st') p <-> pa_used (al st) p /\ (p ∈ pgs 4 t -> p ∈ pgs 4 t')) /\
    (forall p, p ∈ pgs 4 t' -> p ∈ pgs 4 t) /\ (forall p, bare 4 t' p -> bare 4 t p) /\
    (forall p, is_page p -> p ∉ tabs 4 t -> same_on (kw st) (kw st') p) /\
    forall x, in_space x -> maps t' x =
      if ((newsz + 4095) / 4096 <=? x) && (x <? (oldsz + 4095) / 4096) then None else maps t x.
Proof.
  intros Hok Ho Hn Hold. destruct (uvmdealloc_spec st t oldsz newsz Hok Ho Hn Hold) as (st' & t' & E & G & Hlt' & Hm).
  pose proof (s_own _ _ _ _ _ G) as Ho'. exists st', t'. split; [done |]. split; [done |].
  split; [by apply (entry_base st st' 3); [| | exact (s_entry _ _ _ _ _ G)] |].
  split; [exact (s_used _ _ _ _ _ G) |]. split; [exact (s_sub _ _ _ _ _ G) |]. split; [exact Hlt' |].
  split; [exact (s_frame _ _ _ _ _ G) | done].
Qed.

Lemma uvmcopy_spec st (ts td : ptroot) sz :
  pa_ok (al st) -> own st 4 ts -> own st 4 td -> (forall p, p ∈ pgs 4 ts -> p ∉ pgs 4 td) ->
  0 <= sz <= 2 ^ 48 -> (forall x, 0 <= x < (sz + 4095) / 4096 -> maps td x = None) ->
  exists st' td' r, uvmcopy st ts.1 td.1 sz = Ret (st', r) /\ grows st 4 td st' td' [] /\ own st' 4 ts /\
    (r = 0 /\ copy_upto st ts td (kw st') td' ((sz + 4095) / 4096) \/ r = -1).
Proof.
  intros Hok Hos Hod Hdis Hsz Hfresh. unfold uvmcopy, USER_BASE. rewrite Z.add_0_l, u64_small by lia.
  assert (Hinv : copy_inv st ts td st td 0).
  { split; [by apply grows_refl |]. intros x Hx. unfold in_space in Hx. destruct (Z.ltb_spec x 0); [lia | done]. }
  assert (0 <= (sz + 4095) / 4096) by (apply Z.div_pos; lia).
  destruct (uvmcopy_loop_spec st ts td sz Hos Hod Hdis Hsz Hfresh (S (Z.to_nat ((sz + 4095) / PGSIZE))) st td 0
    ltac:(lia) ltac:(lia) ltac:(unfold PGSIZE; lia) Hinv) as (st' & t' & r & E & G & Hr).
  exists st', t', r. split; [done |]. split; [done |].
  split; [by apply (grows_own_other st 4 td st' t' 4 ts G) | done].
Qed.

(** C8: [uvmcopy] into an empty address space either returns 0 with a copy of the
    source: the same pages below [sz] mapped with the same attributes, each to a fresh
    page with the source page's contents; or returns -1 with a well-formed partial
    copy that [uvmfree] can take down. The source and everyone else's pages are
    unchanged. *)
Theorem uvmcopy_duplicates st (ts td : ptroot) sz :
  pa_ok (al st) -> own st 4 ts -> own st 4 td -> (forall p, p ∈ pgs 4 ts -> p ∉ pgs 4 td) ->
  0 <= sz <= 2 ^ 48 -> (forall x, 0 <= x < (sz + 4095) / 4096 -> maps td x = None) ->
  exists st' td' r, uvmcopy st ts.1 td.1 sz = Ret (st', r) /\ evolves st td st' td' /\ own st' 4 ts /\
    (r = 0 /\ copy_upto st ts td (kw st') td' ((sz + 4095) / 4096) \/ r = -1).
Proof.
  intros Hok Hos Hod Hdis Hsz Hfresh. destruct (uvmcopy_spec st ts td sz Hok Hos Hod Hdis Hsz Hfresh) as (st' & td' & r & E & G & Hr).
  exists st', td', r. split; [done |]. split; [by apply grows_evolves | done].
Qed.

(** [uvmfree] always returns and frees exactly the pages of the address space,
    tables and mapped pages alike, each once; every other page keeps its owner and its
    contents. A table from [uvmcreate] is an empty address space. *)
Theorem uvmfree_frees_exactly st (t : ptroot) :
  pa_ok (al st) -> own st 4 t ->
  (exists st', uvmfree st t.1 = Ret st' /\ pa_ok (al st') /\
    (forall p, is_page p -> pa_used (al st') p <-> pa_used (al st) p /\ p ∉ pgs 4 t) /\
    (forall p, is_page p -> p ∉ tabs 4 t -> same_on (kw st) (kw st') p)) /\
  (exists st' r, uvmcreate st = Ret (st', r) /\ pa_ok (al st') /\
    forall p, r = Some p -> ~ pa_used (al st) p /\ own st' 4 (empty_table p) /\ own st' 4 t).
Proof.
  intros Hok Ho. split.
  - destruct (freewalk_spec 3 st t Hok Ho) as (st' & E & H1 & H2 & H3). by exists st'.
  - destruct (ptalloc_spec st Hok) as (a & [st1 r] & E & Hoka & Hr). exists st1, r. unfold uvmcreate. split; [done |].
    destruct r as [p |]; [| by destruct Hr as [-> _]]. destruct Hr as (-> & Hp & Hnu & Hpu & Heq). split; [done |].
    intros ? [= <-]. split; [done |]. split.
    + destruct (pgs_empty 3 p) as [Ep _]. unfold own. rewrite Ep. split; [| split; [apply NoDup_singleton |]].
      * intros i Hi. cbn [empty_table fst snd kw]. unfold zero_page. by rewrite in_page_slot.
      * by intros q ->%list_elem_of_singleton.
    + apply (own_other st 4 t _ a p Ho Hnu Hp Heq). intros q Hq Hne. apply same_on_zero; auto.
Qed.
End proofs.

(** ** Witnesses *)

(** Sixteen pages, the list of those in use as the allocator's state. *)
Definition pool : list Z := map (fun i => 0xFFFF000040000000 + 4096 * i) (seqZ 0 16).

#[export] Instance pool_alloc : PageAlloc (list Z) := {|
  pa_alloc := fun a => match filter (fun p => p ∉ a) pool with
                       | [] => Ret (a, None)
                       | p :: _ => Ret (p :: a, Some p)
                       end;
  pa_free := fun a p => if bool_decide (p ∈ a) then Ret (filter (fun q => q <> p) a) else Panic "double free"
|}.

Lemma pool_page p : p ∈ pool -> is_page p.
Proof.
  unfold pool. rewrite list_elem_of_fmap. intros (i & -> & Hi). apply elem_of_seqZ in Hi.
  unfold is_page, KERN_BASE. split; [lia |]. Z.div_mod_to_equations. lia.
Qed.

#[export, refine] Instance pool_laws : PageAllocLaws (list Z) := {|
  pa_ok := fun _ => True;
  pa_used := fun a p => p ∈ a
|}.
Proof.
  - intros a _. cbn [pa_alloc pool_alloc]. destruct (filter (fun p => p ∉ a) pool) as [| p l] eqn:E.
    + by exists a, None.
    + assert (Hp : p ∈ filter (fun p => p ∉ a) pool) by (rewrite E; left). apply list_elem_of_filter in Hp as [Hn Hp].
      exists (p :: a), (Some p). split; [done |]. split; [done |]. split; [by apply pool_page |]. split; [done |].
      split; [left |]. intros q _ Hne. rewrite elem_of_cons. tauto.
  - intros a p _ _ Hp. cbn [pa_free pool_alloc]. rewrite bool_decide_eq_true_2 by done.
    eexists. split; [done |]. split; [done |]. rewrite list_elem_of_filter. split; [tauto |].
    intros q _ Hne. rewrite list_elem_of_filter. tauto.
Defined.

Lemma pool_ok (a : list Z) : pa_ok a.
Proof. exact I. Qed.

Definition page_no (i : Z) : Z := 0xFFFF000040000000 + 4096 * i.

(** Page 0 is an empty root table, page 1 a frame of the caller. *)
Definition st_empty : vm (list Z) := Vm (fun _ => 0) [page_no 0; page_no 1; page_no 2].

Lemma own_empty (w : Z -> Z) (a : list Z) i : 0 <= i < 16 -> page_no i ∈ a -> (forall x, in_page (page_no i) x = true -> w x = 0) ->
  own (Vm w a) 4 (empty_table (page_no i)).
Proof.
  intros Hi Ha Hw. destruct (pgs_empty 3 (page_no i)) as [Ep _]. unfold own. rewrite Ep. split; [| split].
  - intros j Hj. cbn [empty_table fst snd kw]. apply Hw. by apply in_page_slot.
  - apply NoDup_singleton.
  - intros p ->%list_elem_of_singleton. split; [| done]. unfold is_page, page_no, KERN_BASE.
    split; [lia |]. Z.div_mod_to_equations. lia.
Qed.

Lemma own_st_empty i : 0 <= i < 3 -> own st_empty 4 (empty_table (page_no i)).
Proof.
  intros Hi. apply (own_empty (fun _ => 0) [page_no 0; page_no 1; page_no 2]); [lia | | done].
  rewrite !elem_of_cons. assert (i = 0 \/ i = 1 \/ i = 2) as [-> | [-> | ->]] by lia; auto.
Qed.

Lemma own_st_root : own st_empty 4 (empty_table (page_no 0)).
Proof. apply own_st_empty. lia. Qed.

Lemma mappages_maps_range_witness :
  exists st' t' r, mappages st_empty (page_no 0) 0x5000 0x40001000 0x1000 PAGE_USER = Ret (st', r) /\
  r = 0 /\ maps t' 5 = Some (Z.lor 0x40001000 PAGE_USER).
Proof.
  assert (Hpg : is_page (page_no 1)) by (apply pool_page; unfold pool; apply (bool_decide_unpack _); vm_compute; exact I).
  destruct (mappages_maps_range st_empty (empty_table (page_no 0)) 0x5000 0x40001000 0x1000 PAGE_USER (pool_ok _) own_st_root
    ltac:(lia) ltac:(lia) PAGE_USER_ok) as (_ & H & _).
  destruct H as (st' & t' & r & j & E & Hj & G & Hm & Hr).
  - lia.
  - split; [lia |]. split; [vm_compute; discriminate |]. intros p Hp. change (frames 0x40001000 (S _)) with [page_no 1] in Hp.
    apply list_elem_of_singleton in Hp as ->. split; [exact Hpg |]. split; [right; left |].
    destruct (pgs_empty 3 (page_no 0)) as [-> _]. rewrite list_elem_of_singleton. discriminate.
  - intros x _. reflexivity.
  - exists st', t', r. cbn [empty_table fst] in E. split; [exact E |].
    assert (Hr0 : r = 0).
    { assert (Hc : (match mappages st_empty (page_no 0) 0x5000 0x40001000 0x1000 PAGE_USER with Ret (_, r) => r | Panic _ => 7 end) = 0)
        by (vm_compute; reflexivity). rewrite E in Hc. exact Hc. }
    destruct Hr as [[_ Hj1] | [Hr1 _]]; [| rewrite Hr1 in Hr0; discriminate Hr0]. subst j.
    split; [exact Hr0 |]. rewrite Hm; [reflexivity | unfold in_space; lia].
Defined.

(** An address space with page 5 mapped. *)
Lemma demo_space : exists st t v, v = Z.lor (KVA_TO_PA (page_no 3)) PAGE_USER /\ own st 4 t /\ t.1 = page_no 0 /\ maps t 5 = Some v /\ zeroed (kw st) (leafpage v) /\
  (forall x, in_space x -> x <> 5 -> maps t x = None) /\ own st 4 (empty_table (page_no 2)) /\ (page_no 2 ∉ pgs 4 t).
Proof.
  set (p := page_no 3). set (a := p :: al st_empty).
  assert (Hp : is_page p) by (apply pool_page; unfold pool; apply (bool_decide_unpack _); vm_compute; exact I).
  assert (Hnu : ~ pa_used (al st_empty) p) by (change (p ∉ al st_empty); apply (bool_decide_unpack _); vm_compute; exact I).
  destruct (map_fresh st_empty (empty_table (page_no 0)) 5 PAGE_USER (kw st_empty) a p own_st_root (pool_ok _)
    ltac:(unfold in_space; lia) eq_refl PAGE_USER_ok Hp Hnu) as (st' & r & t' & E & Hr).
  - left.
  - intros q _ Hne. unfold a. cbn [pa_used pool_laws]. rewrite elem_of_cons. tauto.
  - done.
  - assert (Hr0 : (match mappages (Vm (kw st_empty) a) (page_no 0) (4096 * 5) (KVA_TO_PA p) PGSIZE PAGE_USER with
                   | Ret (_, r) => r | Panic _ => 7 end) = 0) by (vm_compute; reflexivity).
    cbn [empty_table fst] in E. rewrite E in Hr0. subst r.
    destruct Hr as [(_ & G & Hz & _ & Hm) | (? & _)]; [| done].
    exists st', t', (Z.lor (KVA_TO_PA p) PAGE_USER).
    assert (H2 : page_no 2 ∉ pgs 4 (empty_table (page_no 0))).
    { destruct (pgs_empty 3 (page_no 0)) as [-> _]. by rewrite list_elem_of_singleton. }
    split; [reflexivity |]. split; [apply G |]. split; [by apply (entry_base _ _ _ _ _ own_st_root (g_own _ _ _ _ _ _ G) (g_entry _ _ _ _ _ _ G)) |].
    split; [by rewrite Hm by (unfold in_space; lia) |].
    split; [intros b Hb; rewrite leafpage_desc in Hb by (done || apply PAGE_USER_ok); by rewrite Hz |].
    split; [intros x Hx Hne; rewrite Hm by done; by destruct (Z.eqb_spec x 5) |].
    split; [apply (grows_own_other st_empty 4 (empty_table (page_no 0)) st' t' 4 _ G) |].
    + apply own_st_empty. lia.
    + destruct (pgs_empty 3 (page_no 2)) as [-> _]. by intros q ->%list_elem_of_singleton.
    + intros Hx. destruct (g_from _ _ _ _ _ _ G _ Hx) as [? | [?%elem_of_nil | Hn]]; [done | done |].
      apply Hn. right. right. left.
Qed.


Lemma uvmdealloc_unmaps_exactly_witness :
  exists (st : vm (list Z)) (t : ptree 4) st' t', maps t 5 <> None /\ uvmdealloc st t.1 0x6000 0 = Ret (st', 0) /\ maps t' 5 = None.
Proof.
  destruct demo_space as (st & t & v & _ & Ho & _ & Hv & _).
  destruct (uvmdealloc_unmaps_exactly st t 0x6000 0 (pool_ok _) Ho ltac:(lia) ltac:(lia)) as (st' & t' & E & _ & _ & _ & _ & _ & _ & Hm).
  exists st, t, st', t'. split; [rewrite Hv; discriminate |]. split; [exact E |].
  rewrite Hm; [reflexivity | unfold in_space; lia].
Defined.

Lemma uvmcopy_duplicates_witness :
  exists (st : vm (list Z)) (ts td : ptree 4) st' r, maps ts 5 <> None /\ uvmcopy st ts.1 td.1 0x6000 = Ret (st', r) /\ own st' 4 ts.
Proof.
  destruct demo_space as (st & t & v & _ & Ho & _ & Hv & _ & _ & Hod & Hn).
  destruct (uvmcopy_duplicates st t (empty_table (page_no 2)) 0x6000 (pool_ok _) Ho Hod) as (st' & td' & r & E & _ & Hos & _).
  - intros p Hp. destruct (pgs_empty 3 (page_no 2)) as [-> _]. rewrite list_elem_of_singleton. intros ->. exact (Hn Hp).
  - lia.
  - intros; reflexivity.
  - exists st, t, (empty_table (page_no 2)), st', r. split; [rewrite Hv; discriminate |]. split; [exact E | exact Hos].
Defined.

Lemma uvmfree_frees_exactly_witness :
  exists (st : vm (list Z)) (t : ptree 4) st', maps t 5 <> None /\ uvmfree st t.1 = Ret st' /\
  forall p, p ∈ pgs 4 t -> ~ pa_used (al st') p.
Proof.
  destruct demo_space as (st & t & v & _ & Ho & _ & Hv & _).
  destruct (uvmfree_frees_exactly st t (pool_ok _) Ho) as ((st' & E & _ & Hu & _) & _).
  exists st, t, st'. split; [rewrite Hv; discriminate |]. split; [exact E |].
  intros p Hp Hx. destruct (proj2 (proj2 Ho) p Hp) as [Hpg _]. apply (Hu p Hpg) in Hx as [_ Hx]. exact (Hx Hp).
Defined.
