(* ===== verification/Kstack.v ===== *)
(** * Kernel stacks

    Models the kernel-stack window of arch/pmap.c: [kstack_walk], [kstack_alloc],
    [kstack_free] and the slots. [l2_kstack] is the static table of the window; the level 3
    tables and the stacks are pages of the allocator. Each function holds [kstack_lock] from
    its first to its last access, so it is one step. TLB maintenance is not modelled. *)

From stdpp Require Import functions.
From S2P Require Import Prelude Bits Mmu Pages Pmap.

Record kst (A : Type) := Kst { ks_vm : vm A; l2_kstack : Z -> Z; kstack_slotmap : bitstr }.
Arguments Kst {A} _ _ _.
Arguments ks_vm {A} _.
Arguments l2_kstack {A} _ _.
Arguments kstack_slotmap {A} _ _.

Section ops.
Context {A : Type} `{PageAlloc A}.

Definition with_vm (st : kst A) (v : vm A) : kst A := Kst v (l2_kstack st) (kstack_slotmap st).

(** The address of the level 3 entry, once its table is there. *)
Definition kstack_pte (st : kst A) (va : Z) : Z := PA_TO_KVA (PTE_ADDR (l2_kstack st (L2X va))) + 8 * L3X va.

Definition kstack_walk (st : kst A) (va : Z) (alloc : bool) : res (kst A * option Z) :=
  let l2i := L2X va in
  if negb (valid (l2_kstack st l2i)) then
    if negb alloc then Ret (st, None)
    else
      '(v, l3) ← ptalloc (ks_vm st);
      match l3 with
      | None => Ret (with_vm st v, None)
      | Some l3 =>
          let st := Kst v (l2_kstack st).[l2i <- Z.lor (Z.lor (KVA_TO_PA l3) PTE_VALID) PTE_TABLE] (kstack_slotmap st) in
          Ret (st, Some (kstack_pte st va))
      end
  else Ret (st, Some (kstack_pte st va)).

Definition kstack_base_va (idx : Z) : Z :=
  u64 (KSTACK_WINDOW + idx * KSTACK_SLOT_PAGES * PGSIZE + KSTACK_GUARD_PAGES * PGSIZE).

(** kpage_free of the page an entry points to, and the entry cleared. *)
Definition kstack_unmap (st : kst A) (pte : Z) : res (kst A) :=
  v ← kpage_free_vm (ks_vm st) (PA_TO_KVA (PTE_ADDR (kw (ks_vm st) pte)));
  Ret (with_vm st (store v pte 0)).

(** The [n] turns of the inner loop from [j] on. A null entry faults. *)
Fixpoint kstack_unwind (n : nat) (st : kst A) (base_va j : Z) : res (kst A) :=
  match n with
  | O => Ret st
  | S n' =>
      '(st, pte) ← kstack_walk st (u64 (base_va + j * PGSIZE)) false;
      match pte with
      | None => Panic "data abort"
      | Some pte => st ← kstack_unmap st pte; kstack_unwind n' st base_va (j + 1)
      end
  end.

(** The [n] turns of the outer loop from [i] on; [false] when memory ran out. *)
Fixpoint kstack_alloc_loop (n : nat) (st : kst A) (base_va i : Z) : res (kst A * bool) :=
  match n with
  | O => Ret (st, true)
  | S n' =>
      '(st, pte) ← kstack_walk st (u64 (base_va + i * PGSIZE)) true;
      match pte with
      | None => st ← kstack_unwind (Z.to_nat i) st base_va 0; Ret (st, false)
      | Some pte =>
          '(v, mem) ← kpage_alloc_vm (ks_vm st);
          let st := with_vm st v in
          match mem with
          | None => st ← kstack_unwind (Z.to_nat i) st base_va 0; Ret (st, false)
          | Some mem => kstack_alloc_loop n' (with_vm st (store v pte (Z.lor (KVA_TO_PA mem) PAGE_KERNEL))) base_va (i + 1)
          end
      end
  end.

(** The top of the stack, 0 when memory ran out. *)
Definition kstack_alloc (st : kst A) (idx : Z) : res (kst A * Z) :=
  kassert ((0 <=? idx) && (u64 ((idx + 1) * KSTACK_SLOT_PAGES * PGSIZE) <=? KSTACK_WINDOW_SIZE)) msg "kstack_alloc: slot outside the kstack window";;
  '(st, ok) ← kstack_alloc_loop (Z.to_nat KSTACK_PAGES) st (kstack_base_va idx) 0;
  Ret (st, if (ok : bool) then u64 (KSTACK_WINDOW + (idx + 1) * KSTACK_SLOT_PAGES * PGSIZE) else 0).

Fixpoint kstack_free_loop (n : nat) (st : kst A) (base_va i : Z) : res (kst A) :=
  match n with
  | O => Ret st
  | S n' =>
      '(st, pte) ← kstack_walk st (u64 (base_va + i * PGSIZE)) false;
      st ← match pte with
           | Some pte => if valid (kw (ks_vm st) pte) then kstack_unmap st pte else Ret st
           | None => Ret st
           end;
      kstack_free_loop n' st base_va (i + 1)
  end.

Definition kstack_free (st : kst A) (idx : Z) : res (kst A) :=
  kstack_free_loop (Z.to_nat KSTACK_PAGES) st (kstack_base_va idx) 0.

Definition with_slotmap (st : kst A) (m : bitstr) : kst A := Kst (ks_vm st) (l2_kstack st) m.

Definition kstack_slot_alloc (st : kst A) : kst A * Z :=
  let slot := bit_ffc (kstack_slotmap st) KSTACK_NSLOTS in
  (if 0 <=? slot then with_slotmap st (bit_set (kstack_slotmap st) slot) else st, slot).

Definition kstack_slot_free (st : kst A) (slot : Z) : kst A := with_slotmap st (bit_clear (kstack_slotmap st) slot).
End ops.

(** ** Specification: the window *)

(** What the window holds: level 3 tables by their index, stack pages by their page number
    in the window. *)
Inductive wkey := L3t (i : Z) | Pg (n : Z).

#[export] Instance wkey_dec : EqDecision wkey.
Proof. solve_decision. Defined.

Definition WINPAGES : Z := 2 ^ 18.

(** The page the MMU finds at page [n] of the window. *)
Definition kstack_maps {A} (st : kst A) (n : Z) : option Z :=
  let d := l2_kstack st (n / 512) in
  if valid d then
    let pte := kw (ks_vm st) (PA_TO_KVA (PTE_ADDR d) + 8 * (n mod 512)) in
    if valid pte then Some (leafpage pte) else None
  else None.

Definition stack_page (idx n : Z) : Prop := 8 * idx + 4 <= n < 8 * idx + 8.

Section win.
Context {A : Type} `{PageAllocLaws A}.
Implicit Types (st : kst A) (W : wkey -> option Z).

Definition key_ok W (x : wkey) : Prop :=
  match x with L3t i => 0 <= i < 512 | Pg n => 0 <= n < WINPAGES /\ W (L3t (n / 512)) <> None end.

Record kwin st W : Prop := {
  k_ok : pa_ok (al (ks_vm st));
  k_l2 : forall i, 0 <= i < 512 -> l2_kstack st i = match W (L3t i) with Some b => table_desc b | None => 0 end;
  k_l3 : forall n b, 0 <= n < WINPAGES -> W (L3t (n / 512)) = Some b ->
    kw (ks_vm st) (b + 8 * (n mod 512)) = match W (Pg n) with Some p => Z.lor (KVA_TO_PA p) PAGE_KERNEL | None => 0 end;
  k_dom : forall x p, W x = Some p -> key_ok W x;
  k_use : forall x p, W x = Some p -> is_page p /\ pa_used (al (ks_vm st)) p;
  k_inj : forall x y p, W x = Some p -> W y = Some p -> x = y
}.

Definition owned W (q : Z) : Prop := exists x, W x = Some q.

(** Only the stack of slot [idx] comes or goes; nobody else's page changes. *)
Record kchange (idx : Z) st W st' W' : Prop := {
  c_new : forall q, is_page q -> owned W' q -> owned W q \/ ~ pa_used (al (ks_vm st)) q;
  c_used : forall q, is_page q -> pa_used (al (ks_vm st')) q <-> (pa_used (al (ks_vm st)) q /\ ~ owned W q) \/ owned W' q;
  c_tabs : forall i b, W (L3t i) = Some b -> W' (L3t i) = Some b;
  c_pgs : forall n, ~ stack_page idx n -> W' (Pg n) = W (Pg n);
  c_frame : forall q, is_page q -> pa_used (al (ks_vm st)) q -> (forall i, W (L3t i) <> Some q) ->
    (forall n, stack_page idx n -> W (Pg n) <> Some q) -> same_on (kw (ks_vm st)) (kw (ks_vm st')) q;
  c_slots : kstack_slotmap st' = kstack_slotmap st
}.

Lemma owned_dec st W q : kwin st W -> owned W q \/ ~ owned W q.
Proof.
  intros K. set (l := omap W ((L3t <$> seqZ 0 512) ++ (Pg <$> seqZ 0 WINPAGES))). destruct (decide (q ∈ l)) as [Hin | Hn]; [left | right].
  - apply list_elem_of_omap in Hin as (x & _ & E). by exists x.
  - intros [x Hx]. apply Hn, list_elem_of_omap. exists x. split; [| done]. pose proof (k_dom _ _ K x q Hx) as Hd.
    apply elem_of_app. destruct x as [i | n]; [left | right]; apply list_elem_of_fmap; eexists; (split; [reflexivity |]); apply elem_of_seqZ; cbn in Hd; lia.
Qed.

Lemma kchange_refl idx st W : kwin st W -> kchange idx st W st W.
Proof.
  intros K. split; try done; [by auto |]. intros q Hq. split; [| intros [[? _] | [x Hx]]; [done | by destruct (k_use _ _ K _ _ Hx)]].
  intros Hu. destruct (owned_dec st W q K); auto.
Qed.

Lemma kchange_trans idx st1 W1 st2 W2 st3 W3 : kwin st1 W1 -> kwin st2 W2 ->
  kchange idx st1 W1 st2 W2 -> kchange idx st2 W2 st3 W3 -> kchange idx st1 W1 st3 W3.
Proof.
  intros K1 K2 C D.
  assert (Hkeep : forall q, is_page q -> pa_used (al (ks_vm st1)) q -> ~ owned W1 q -> pa_used (al (ks_vm st2)) q /\ ~ owned W2 q).
  { intros q Hq Hu Hn. split; [apply (c_used _ _ _ _ _ C); auto |]. intros Ho. destruct (c_new _ _ _ _ _ C q Hq Ho); done. }
  assert (Hback : forall q, is_page q -> pa_used (al (ks_vm st2)) q -> ~ owned W2 q -> pa_used (al (ks_vm st1)) q /\ ~ owned W1 q).
  { intros q Hq Hu Hn. apply (c_used _ _ _ _ _ C) in Hu as [? | ?]; done. }
  split.
  - intros q Hq Ho. destruct (c_new _ _ _ _ _ D q Hq Ho) as [Ho2 | Hn]; [by apply (c_new _ _ _ _ _ C) |].
    destruct (owned_dec st1 W1 q K1) as [? | Hno]; [by left |]. right. intros Hu. by apply Hn, Hkeep.
  - intros q Hq. rewrite (c_used _ _ _ _ _ D q Hq). split; (intros [[Hu Hn] | Ho]; [left | by right]); [apply Hback | apply Hkeep]; done.
  - intros i b Hb. by apply (c_tabs _ _ _ _ _ D), (c_tabs _ _ _ _ _ C).
  - intros n Hn. by rewrite (c_pgs _ _ _ _ _ D), (c_pgs _ _ _ _ _ C).
  - intros q Hq Hu Ht Hp. apply (same_on_trans _ (kw (ks_vm st2))); [by apply (c_frame _ _ _ _ _ C) |].
    destruct (owned_dec st1 W1 q K1) as [[[i | m] E] | Hno]; [by destruct (Ht i) | |].
    + assert (E2 : W2 (Pg m) = Some q) by (rewrite (c_pgs _ _ _ _ _ C); [done | intros Hs; exact (Hp m Hs E)]).
      apply (c_frame _ _ _ _ _ D); [done | by destruct (k_use _ _ K2 _ _ E2) | |].
      * intros i Ei. by pose proof (k_inj _ _ K2 _ _ _ E2 Ei).
      * intros n Hs En. pose proof (k_inj _ _ K2 _ _ _ E2 En) as [= ->]. exact (Hp n Hs E).
    + destruct (Hkeep q Hq Hu Hno) as [Hu2 Hn2]. apply (c_frame _ _ _ _ _ D); [done | done | |].
      * intros i Ei. apply Hn2. by exists (L3t i).
      * intros n _ En. apply Hn2. by exists (Pg n).
  - by rewrite (c_slots _ _ _ _ _ D), (c_slots _ _ _ _ _ C).
Qed.

(** *** One key of the window *)

Definition fresh_page (a0 a : A) (p : Z) : Prop :=
  is_page p /\ ~ pa_used a0 p /\ pa_used a p /\ pa_ok a /\ forall q, is_page q -> q <> p -> pa_used a q <-> pa_used a0 q.

Lemma fresh_unowned st W a p x : kwin st W -> fresh_page (al (ks_vm st)) a p -> W x <> Some p.
Proof. intros K (_ & Hn & _) E. by destruct (k_use _ _ K _ _ E). Qed.

(** A fresh page comes in at key [x]. *)
Lemma add_use st W a p x y q : kwin st W -> fresh_page (al (ks_vm st)) a p -> <[x := Some p]> W y = Some q -> is_page q /\ pa_used a q.
Proof.
  intros K F. pose proof F as (Hp & Hn & Hu & _ & Heq). destruct (decide (x = y)) as [<- | Hne]; [rewrite fn_lookup_insert; by intros [= <-] |].
  rewrite fn_lookup_insert_ne by done. intros E. destruct (k_use _ _ K _ _ E) as [Hq Hqu]. split; [done |]. apply Heq; [done | | done].
  intros ->. done.
Qed.

Lemma add_inj st W a p x y z q : kwin st W -> fresh_page (al (ks_vm st)) a p ->
  <[x := Some p]> W y = Some q -> <[x := Some p]> W z = Some q -> y = z.
Proof.
  intros K F. destruct (decide (x = y)) as [<- | Hy]; [rewrite fn_lookup_insert | rewrite fn_lookup_insert_ne by done]; intros E;
    (destruct (decide (x = z)) as [<- | Hz]; [rewrite fn_lookup_insert | rewrite fn_lookup_insert_ne by done]); intros E'; simplify_eq; try done.
  - by destruct (fresh_unowned st W a q z K F).
  - by destruct (fresh_unowned st W a q y K F).
  - by apply (k_inj _ _ K _ _ q).
Qed.

Lemma add_owned W p x q : W x = None -> owned (<[x := Some p]> W) q <-> q = p \/ owned W q.
Proof.
  intros Hx. split.
  - intros [y E]. destruct (decide (x = y)) as [<- | Hne]; [rewrite fn_lookup_insert in E; left; congruence |].
    rewrite fn_lookup_insert_ne in E by done. right. by exists y.
  - intros [-> | [y E]]; [exists x; by rewrite fn_lookup_insert |]. exists y. rewrite fn_lookup_insert_ne; [done |]. intros ->. congruence.
Qed.

Lemma add_change idx st W st' p x : kwin st W -> W x = None -> match x with Pg n => stack_page idx n | _ => True end ->
  fresh_page (al (ks_vm st)) (al (ks_vm st')) p -> kstack_slotmap st' = kstack_slotmap st ->
  (forall q, is_page q -> q <> p -> (forall i, W (L3t i) <> Some q) -> same_on (kw (ks_vm st)) (kw (ks_vm st')) q) ->
  kchange idx st W st' (<[x := Some p]> W).
Proof.
  intros K Hx Hi F Hs Hw. pose proof F as (Hp & Hn & Hu & _ & Heq). split.
  - intros q _ Ho. apply (add_owned W p x q Hx) in Ho as [-> | ?]; auto.
  - intros q Hq. rewrite (add_owned W p x q Hx). destruct (decide (q = p)) as [-> | Hne]; [tauto |]. rewrite Heq by done. split.
    + intros Hqu. destruct (owned_dec st W q K); auto.
    + intros [[? _] | [? | [y E]]]; [done | done |]. by destruct (k_use _ _ K _ _ E).
  - intros i b E. rewrite fn_lookup_insert_ne; [done |]. intros ->. congruence.
  - intros n Hs'. rewrite fn_lookup_insert_ne; [done |]. by intros ->.
  - intros q Hq Hqu Ht _. apply Hw; [done | by intros -> | done].
  - done.
Qed.

(** kstack_walk gives the window a level 3 table. *)
Lemma win_table idx st W i p a : kwin st W -> 0 <= i < 512 -> W (L3t i) = None -> fresh_page (al (ks_vm st)) a p ->
  let st' := Kst (Vm (zero_page (kw (ks_vm st)) p) a) (l2_kstack st).[i <- table_desc p] (kstack_slotmap st) in
  kwin st' (<[L3t i := Some p]> W) /\ kchange idx st W st' (<[L3t i := Some p]> W).
Proof.
  intros K Hi Hn F st'. pose proof F as (Hp & _ & _ & Hok & _). split.
  - split; unfold st'; cbn [ks_vm al kw l2_kstack].
    + done.
    + intros j Hj. destruct (decide (j = i)) as [-> | Hne]; [by rewrite upd_eq, fn_lookup_insert |].
      rewrite upd_ne, fn_lookup_insert_ne by congruence. by apply (k_l2 _ _ K).
    + intros n b Hr. rewrite (fn_lookup_insert_ne _ (L3t i) (Pg n)) by done. destruct (decide (n / 512 = i)) as [<- | Hne].
      * rewrite fn_lookup_insert. intros [= <-]. unfold zero_page. rewrite in_page_slot by (Z.div_mod_to_equations; lia).
        destruct (W (Pg n)) as [q |] eqn:E; [| done]. by apply (k_dom _ _ K) in E as [_ ?].
      * rewrite fn_lookup_insert_ne by congruence. intros E. rewrite <- (k_l3 _ _ K n b Hr E). destruct (k_use _ _ K _ _ E) as [Hb Hbu].
        apply (same_on_zero (kw (ks_vm st)) p b); [done | done | | apply in_page_slot; Z.div_mod_to_equations; lia].
        intros ->. by destruct (fresh_unowned st W a b (L3t (n / 512)) K F).
    + intros x q E. destruct (decide (L3t i = x)) as [<- | Hne]; [done |]. rewrite fn_lookup_insert_ne in E by done. apply (k_dom _ _ K) in E as Hd.
      destruct x as [j | n]; [done |]. destruct Hd as [? Hd]. split; [done |]. destruct (decide (L3t i = L3t (n / 512))) as [<- |]; [by rewrite fn_lookup_insert |].
      by rewrite fn_lookup_insert_ne.
    + intros x q. by apply (add_use st W a p _ x).
    + intros x y q. by apply (add_inj st W a p).
  - apply add_change; try done. intros q Hq Hne _. unfold st'. cbn [ks_vm kw]. by apply same_on_zero.
Qed.

(** The entry of page [n] holds [v], and nothing else changes in the window. *)
Lemma l3_store st W n b (o : option Z) v : kwin st W -> 0 <= n < WINPAGES -> W (L3t (n / 512)) = Some b ->
  v = match o with Some p => Z.lor (KVA_TO_PA p) PAGE_KERNEL | None => 0 end ->
  (forall m c, 0 <= m < WINPAGES -> <[Pg n := o]> W (L3t (m / 512)) = Some c ->
    (kw (ks_vm st)).[b + 8 * (n mod 512) <- v] (c + 8 * (m mod 512)) =
    match <[Pg n := o]> W (Pg m) with Some p => Z.lor (KVA_TO_PA p) PAGE_KERNEL | None => 0 end) /\
  (forall q, is_page q -> (forall i, W (L3t i) <> Some q) -> same_on (kw (ks_vm st)) (kw (ks_vm st)).[b + 8 * (n mod 512) <- v] q).
Proof.
  intros K Hn Eb ->. destruct (k_use _ _ K _ _ Eb) as [Hb _]. assert (Hin : in_page b (b + 8 * (n mod 512)) = true) by (apply in_page_slot; Z.div_mod_to_equations; lia). split.
  - intros m c Hm. rewrite fn_lookup_insert_ne by done. intros Ec. destruct (decide (n = m)) as [<- | Hne].
    + rewrite Eb in Ec. injection Ec as <-. by rewrite upd_eq, fn_lookup_insert.
    + rewrite (fn_lookup_insert_ne _ (Pg n) (Pg m)) by congruence. rewrite <- (k_l3 _ _ K m c Hm Ec). destruct (decide (c = b)) as [-> | Hcb].
      * pose proof (k_inj _ _ K _ _ _ Eb Ec) as [= Ed]. rewrite upd_ne; [done |]. intros Ex. apply Hne. Z.div_mod_to_equations. lia.
      * destruct (k_use _ _ K _ _ Ec) as [Hc _]. apply (same_on_upd _ b c); [done | done | by intros -> | done |]. apply in_page_slot. Z.div_mod_to_equations. lia.
  - intros q Hq Ht. apply (same_on_upd _ b q); try done. intros ->. by apply (Ht (n / 512)).
Qed.

Lemma win_page idx st W n b p a : kwin st W -> 0 <= n < WINPAGES -> stack_page idx n -> W (L3t (n / 512)) = Some b -> W (Pg n) = None ->
  fresh_page (al (ks_vm st)) a p ->
  let st' := with_vm st (Vm (kw (ks_vm st)).[b + 8 * (n mod 512) <- Z.lor (KVA_TO_PA p) PAGE_KERNEL] a) in
  kwin st' (<[Pg n := Some p]> W) /\ kchange idx st W st' (<[Pg n := Some p]> W).
Proof.
  intros K Hn Hs Eb Ep F st'. pose proof F as (Hp & _ & _ & Hok & _). destruct (l3_store st W n b (Some p) _ K Hn Eb eq_refl) as [H1 H2]. split.
  - split; unfold st', with_vm; cbn [ks_vm al kw l2_kstack].
    + done.
    + intros i Hi. rewrite fn_lookup_insert_ne by done. by apply (k_l2 _ _ K).
    + exact H1.
    + intros x q E. destruct (decide (Pg n = x)) as [<- | Hne].
      * split; [done |]. rewrite fn_lookup_insert_ne by done. congruence.
      * rewrite fn_lookup_insert_ne in E by done. apply (k_dom _ _ K) in E. destruct x; [done |]. cbn. by rewrite fn_lookup_insert_ne.
    + intros x q. by apply (add_use st W a p _ x).
    + intros x y q. by apply (add_inj st W a p).
  - apply add_change; try done. intros q Hq _ Ht. unfold st', with_vm. cbn [ks_vm kw]. by apply H2.
Qed.

Lemma PAGE_KERNEL_ok : perm_ok PAGE_KERNEL.
Proof. by vm_compute. Qed.

(** kpage_free of a stack page, and its entry cleared. *)
Lemma win_unmap idx st W n b p : kwin st W -> stack_page idx n -> W (L3t (n / 512)) = Some b -> W (Pg n) = Some p ->
  exists st', kstack_unmap st (b + 8 * (n mod 512)) = Ret st' /\ kwin st' (<[Pg n := None]> W) /\ kchange idx st W st' (<[Pg n := None]> W).
Proof.
  intros K Hs Eb Ep. destruct (k_dom _ _ K _ _ Ep) as [Hn _]. destruct (k_use _ _ K _ _ Ep) as [Hp Hu]. unfold kstack_unmap.
  rewrite (k_l3 _ _ K n b Hn Eb), Ep. change (PA_TO_KVA (PTE_ADDR ?v)) with (leafpage v). rewrite leafpage_desc by (done || apply PAGE_KERNEL_ok).
  destruct (free_spec (ks_vm st) p (k_ok _ _ K) Hp Hu) as (a & E & Hok & Hnu & Heq). rewrite E. cbn [mbind res_bind].
  eexists. split; [reflexivity |]. destruct (l3_store st W n b None 0 K Hn Eb eq_refl) as [H1 H2].
  assert (Hget : forall x q, <[Pg n := None]> W x = Some q -> W x = Some q /\ x <> Pg n).
  { intros x q. destruct (decide (Pg n = x)) as [<- | Hne]; [by rewrite fn_lookup_insert | rewrite fn_lookup_insert_ne by done; auto]. }
  assert (Hown : forall q, owned (<[Pg n := None]> W) q <-> owned W q /\ q <> p).
  { intros q. split; [intros [x (Ex & Hx)%Hget] | intros [[x Ex] Hne]].
    - split; [by exists x |]. intros ->. apply Hx. by apply (k_inj _ _ K _ _ p).
    - exists x. rewrite fn_lookup_insert_ne; [done |]. intros <-. congruence. }
  split; [split; unfold with_vm, store; cbn [ks_vm al kw l2_kstack] | split; unfold with_vm, store; cbn [ks_vm al kw kstack_slotmap]].
  - done.
  - intros i Hi. rewrite fn_lookup_insert_ne by done. by apply (k_l2 _ _ K).
  - exact H1.
  - intros x q (Ex & _)%Hget. apply (k_dom _ _ K) in Ex. destruct x; [done |]. cbn. by rewrite fn_lookup_insert_ne.
  - intros x q (Ex & Hx)%Hget. destruct (k_use _ _ K _ _ Ex) as [Hq Hqu]. split; [done |]. apply Heq; [done | | done].
    intros ->. apply Hx. by apply (k_inj _ _ K _ _ p).
  - intros x y q (Ex & _)%Hget (Ey & _)%Hget. by apply (k_inj _ _ K _ _ q).
  - intros q _ Ho. left. by apply Hown.
  - intros q Hq. rewrite Hown. destruct (decide (q = p)) as [-> | Hne].
    + split; [done |]. intros [[_ Hx] | [_ ?]]; [| done]. destruct Hx. by exists (Pg n).
    + rewrite Heq by done. split; [intros Hqu; destruct (owned_dec st W q K); auto |].
      intros [[? _] | [[x Ex] _]]; [done |]. by destruct (k_use _ _ K _ _ Ex).
  - intros i c Ec. by rewrite fn_lookup_insert_ne.
  - intros m Hm. rewrite fn_lookup_insert_ne; [done |]. by intros [= ->].
  - intros q Hq _ Ht _. by apply H2.
  - done.
Qed.

(** *** The walk *)

Definition win_va (n : Z) : Z := KSTACK_WINDOW + 4096 * n.

Lemma win_va_idx n : 0 <= n < WINPAGES -> L2X (win_va n) = n / 512 /\ L3X (win_va n) = n mod 512.
Proof.
  intros Hn. unfold L2X, L3X, L2_SHIFT, L3_SHIFT, win_va, KSTACK_WINDOW, KERN_BASE, WINPAGES in *. change (TABLE_ENTRIES - 1) with (Z.ones 9).
  rewrite !Z.land_ones, !Z.shiftr_div_pow2 by lia. change (Z.shiftl 511 30) with (511 * 2 ^ 30). split; Z.div_mod_to_equations; lia.
Qed.

Lemma l2_valid st W n : kwin st W -> 0 <= n < WINPAGES -> valid (l2_kstack st (n / 512)) = match W (L3t (n / 512)) with Some _ => true | None => false end /\
  forall b, W (L3t (n / 512)) = Some b -> kstack_pte st (win_va n) = b + 8 * (n mod 512).
Proof.
  intros K Hn. destruct (win_va_idx n Hn) as [E2 E3]. unfold kstack_pte. rewrite E2, E3, (k_l2 _ _ K) by (unfold WINPAGES in *; Z.div_mod_to_equations; lia).
  destruct (W (L3t (n / 512))) as [b |] eqn:Eb; [| split; [apply valid_0 | done]]. destruct (k_use _ _ K _ _ Eb) as [Hb _].
  split; [by apply table_desc_valid |]. intros c [= <-]. by rewrite table_desc_addr.
Qed.

Lemma kstack_maps_win st W n : kwin st W -> 0 <= n < WINPAGES -> kstack_maps st n = W (Pg n).
Proof.
  intros K Hn. unfold kstack_maps. destruct (l2_valid st W n K Hn) as [Ev _]. rewrite Ev. destruct (W (L3t (n / 512))) as [b |] eqn:Eb.
  - assert (El : l2_kstack st (n / 512) = table_desc b) by (rewrite (k_l2 _ _ K), Eb by (unfold WINPAGES in *; Z.div_mod_to_equations; lia); done).
    destruct (k_use _ _ K _ _ Eb) as [Hb _]. rewrite El, table_desc_addr, (k_l3 _ _ K n b Hn Eb) by done. destruct (W (Pg n)) as [p |] eqn:Ep; [| by rewrite valid_0].
    destruct (k_use _ _ K _ _ Ep) as [Hp _]. rewrite leafpage_desc by (done || apply PAGE_KERNEL_ok).
    destruct (is_page_kva p Hp) as (? & ? & _). destruct (page_desc_addr (KVA_TO_PA p) PAGE_KERNEL) as [_ ->]; [done | done | apply PAGE_KERNEL_ok | done].
  - destruct (W (Pg n)) as [p |] eqn:Ep; [| done]. by apply (k_dom _ _ K) in Ep as [_ ?].
Qed.

Lemma kstack_walk_noalloc st W n : kwin st W -> 0 <= n < WINPAGES ->
  kstack_walk st (win_va n) false = Ret (st, (fun b => b + 8 * (n mod 512)) <$> W (L3t (n / 512))).
Proof.
  intros K Hn. destruct (l2_valid st W n K Hn) as [Ev Ep]. unfold kstack_walk. destruct (win_va_idx n Hn) as [-> _]. rewrite Ev.
  destruct (W (L3t (n / 512))) as [b |] eqn:Eb; cbn [negb]; [| done]. by rewrite (Ep b).
Qed.

Lemma kstack_walk_alloc idx st W n : kwin st W -> 0 <= n < WINPAGES ->
  exists st' W' r, kstack_walk st (win_va n) true = Ret (st', r) /\ kwin st' W' /\ kchange idx st W st' W' /\ (forall m, W' (Pg m) = W (Pg m)) /\
    forall a, r = Some a -> exists b, W' (L3t (n / 512)) = Some b /\ a = b + 8 * (n mod 512).
Proof.
  intros K Hn. destruct (l2_valid st W n K Hn) as [Ev Ep]. unfold kstack_walk. destruct (win_va_idx n Hn) as [-> _]. rewrite Ev.
  destruct (W (L3t (n / 512))) as [b |] eqn:Eb; cbn [negb].
  - exists st, W, (Some (kstack_pte st (win_va n))). split; [done |]. split; [done |]. split; [by apply kchange_refl |]. split; [done |].
    intros a [= <-]. exists b. split; [done | by apply Ep].
  - destruct (ptalloc_spec (ks_vm st) (k_ok _ _ K)) as (a & [v r] & E & Hok & Hr). rewrite E. cbn [mbind res_bind]. destruct r as [p |].
    + destruct Hr as (-> & Hp & Hnu & Hu & Heq). pose proof (win_table idx st W (n / 512) p a K ltac:(unfold WINPAGES in *; Z.div_mod_to_equations; lia) Eb ltac:(by split_and!)) as [K' C].
      set (st' := Kst _ _ _) in *. exists st', (<[L3t (n / 512) := Some p]> W). eexists. split; [reflexivity |]. split; [exact K' |]. split; [exact C |].
      split; [intros m; by rewrite fn_lookup_insert_ne |]. intros a' [= <-]. exists p. split; [by rewrite fn_lookup_insert |].
      apply (l2_valid st' _ n K' Hn). by rewrite fn_lookup_insert.
    + destruct Hr as [-> Heq]. eexists _, W, None. split; [reflexivity |]. split; [| split; [| split; [done | done]]].
      * destruct K. split; cbn [with_vm ks_vm l2_kstack al kw]; try done. intros x q Ex. destruct (k_use0 _ _ Ex) as [? ?]. split; [done |]. by apply Heq.
      * split; cbn [with_vm ks_vm l2_kstack al kw]; try done; [by auto |]. intros q Hq. rewrite Heq by done. apply (c_used idx _ _ _ _ (kchange_refl idx st W K)). done.
Qed.

(** *** The loops *)

Definition slot_ok (idx : Z) : Prop := 0 <= idx < KSTACK_NSLOTS.

Lemma page_va idx j : slot_ok idx -> 0 <= j < 4 -> u64 (kstack_base_va idx + j * PGSIZE) = win_va (8 * idx + 4 + j) /\ 0 <= 8 * idx + 4 + j < WINPAGES.
Proof.
  unfold slot_ok, WINPAGES. change KSTACK_NSLOTS with 32768. intros Hi Hj. unfold kstack_base_va, win_va, KSTACK_WINDOW, KSTACK_SLOT_PAGES, KSTACK_GUARD_PAGES, KSTACK_PAGES, PGSIZE, KERN_BASE.
  change (Z.shiftl 511 30) with (511 * 2 ^ 30). rewrite (u64_small (_ + _ + _)) by lia. rewrite u64_small by lia. lia.
Qed.

Definition cleared W W' (lo hi : Z) : Prop := forall m, W' (Pg m) = if (lo <=? m) && (m <? hi) then None else W (Pg m).

Lemma cleared_step W W' n hi : n < hi -> cleared (<[Pg n := None]> W) W' (n + 1) hi -> cleared W W' n hi.
Proof.
  intros Hn Hc m. rewrite (Hc m). destruct (decide (n = m)) as [<- | Hne].
  - rewrite fn_lookup_insert. by destruct (Z.leb_spec (n + 1) n), (Z.leb_spec n n), (Z.ltb_spec n hi); cbn; try lia.
  - rewrite fn_lookup_insert_ne by congruence. destruct (Z.leb_spec (n + 1) m), (Z.leb_spec n m); try lia; done.
Qed.

Lemma cleared_none W W' n hi : W (Pg n) = None -> cleared W W' (n + 1) hi -> cleared W W' n hi.
Proof.
  intros Hn Hc m. rewrite (Hc m). destruct (decide (n = m)) as [<- | Hne].
  - rewrite Hn. by destruct (_ && _), (_ && _).
  - destruct (Z.leb_spec (n + 1) m), (Z.leb_spec n m); try lia; done.
Qed.

Lemma cleared_nil W n : cleared W W n n.
Proof. intros m. destruct (Z.leb_spec n m), (Z.ltb_spec m n); cbn; try lia; done. Qed.

Lemma kstack_unwind_spec idx n : forall st W j, slot_ok idx -> kwin st W -> 0 <= j -> j + Z.of_nat n <= 4 ->
  (forall m, 8 * idx + 4 + j <= m < 8 * idx + 4 + j + Z.of_nat n -> W (Pg m) <> None) ->
  exists st' W', kstack_unwind n st (kstack_base_va idx) j = Ret st' /\ kwin st' W' /\ kchange idx st W st' W' /\
    cleared W W' (8 * idx + 4 + j) (8 * idx + 4 + j + Z.of_nat n).
Proof.
  induction n as [| n IH]; intros st W j Hi K Hj Hn Hm; cbn [kstack_unwind].
  - exists st, W. split; [done |]. split; [done |]. split; [by apply kchange_refl |]. replace (_ + Z.of_nat 0) with (8 * idx + 4 + j) by lia. apply cleared_nil.
  - destruct (page_va idx j Hi ltac:(lia)) as [-> Hr]. rewrite (kstack_walk_noalloc st W _ K Hr). cbn [mbind res_bind].
    destruct (W (Pg (8 * idx + 4 + j))) as [p |] eqn:Ep; [| by destruct (Hm (8 * idx + 4 + j)); [lia |]].
    destruct (k_dom _ _ K _ _ Ep) as [_ Ht]. destruct (W (L3t ((8 * idx + 4 + j) / 512))) as [b |] eqn:Eb; [| done]. cbn [fmap option_fmap option_map].
    destruct (win_unmap idx st W (8 * idx + 4 + j) b p K ltac:(unfold stack_page; lia) Eb Ep) as (st1 & E1 & K1 & C1). rewrite E1. cbn [mbind res_bind].
    destruct (IH st1 _ (j + 1) Hi K1 ltac:(lia) ltac:(lia)) as (st2 & W2 & E2 & K2 & C2 & Hc).
    { intros m Hmm. rewrite fn_lookup_insert_ne; [apply Hm; lia |]. intros [= <-]. lia. }
    exists st2, W2. split; [exact E2 |]. split; [exact K2 |]. split; [exact (kchange_trans _ _ _ _ _ _ _ K K1 C1 C2) |]. apply cleared_step; [lia |].
    by replace (8 * idx + 4 + j + Z.of_nat (S n)) with (8 * idx + 4 + (j + 1) + Z.of_nat n) by lia; replace (8 * idx + 4 + j + 1) with (8 * idx + 4 + (j + 1)) by lia.
Qed.

Lemma kstack_free_loop_spec idx n : forall st W i, slot_ok idx -> kwin st W -> 0 <= i -> i + Z.of_nat n <= 4 ->
  exists st' W', kstack_free_loop n st (kstack_base_va idx) i = Ret st' /\ kwin st' W' /\ kchange idx st W st' W' /\
    cleared W W' (8 * idx + 4 + i) (8 * idx + 4 + i + Z.of_nat n).
Proof.
  induction n as [| n IH]; intros st W i Hi K Hj Hn; cbn [kstack_free_loop].
  - exists st, W. split; [done |]. split; [done |]. split; [by apply kchange_refl |]. replace (_ + Z.of_nat 0) with (8 * idx + 4 + i) by lia. apply cleared_nil.
  - destruct (page_va idx i Hi ltac:(lia)) as [-> Hr]. rewrite (kstack_walk_noalloc st W _ K Hr). cbn [mbind res_bind].
    replace (8 * idx + 4 + i + Z.of_nat (S n)) with (8 * idx + 4 + (i + 1) + Z.of_nat n) by lia.
    assert (Hskip : W (Pg (8 * idx + 4 + i)) = None -> exists st' W', kstack_free_loop n st (kstack_base_va idx) (i + 1) = Ret st' /\ kwin st' W' /\
      kchange idx st W st' W' /\ cleared W W' (8 * idx + 4 + i) (8 * idx + 4 + (i + 1) + Z.of_nat n)).
    { intros Ep. destruct (IH st W (i + 1) Hi K ltac:(lia) ltac:(lia)) as (st2 & W2 & E2 & K2 & C2 & Hc).
      exists st2, W2. split; [exact E2 |]. split; [exact K2 |]. split; [exact C2 |]. apply cleared_none; [done |]. by replace (8 * idx + 4 + i + 1) with (8 * idx + 4 + (i + 1)) by lia. }
    pose proof (kstack_maps_win st W _ K Hr) as Em. unfold kstack_maps in Em. destruct (l2_valid st W _ K Hr) as [Ev Epte]. rewrite Ev in Em.
    destruct (W (L3t ((8 * idx + 4 + i) / 512))) as [b |] eqn:Eb; cbn [fmap option_fmap option_map].
    2: { cbn [mbind res_bind]. by apply Hskip. }
    assert (El : l2_kstack st ((8 * idx + 4 + i) / 512) = table_desc b).
    { rewrite (k_l2 _ _ K), Eb by (unfold WINPAGES in *; Z.div_mod_to_equations; lia). done. }
    destruct (k_use _ _ K _ _ Eb) as [Hb _]. rewrite El, table_desc_addr in Em by done.
    destruct (valid (kw (ks_vm st) (b + 8 * ((8 * idx + 4 + i) mod 512)))) eqn:Evp; [| cbn [mbind res_bind]; by apply Hskip].
    symmetry in Em. destruct (win_unmap idx st W (8 * idx + 4 + i) b _ K ltac:(unfold stack_page; lia) Eb Em) as (st1 & E1 & K1 & C1). rewrite E1. cbn [mbind res_bind].
    destruct (IH st1 _ (i + 1) Hi K1 ltac:(lia) ltac:(lia)) as (st2 & W2 & E2 & K2 & C2 & Hc).
    exists st2, W2. split; [exact E2 |]. split; [exact K2 |]. split; [exact (kchange_trans _ _ _ _ _ _ _ K K1 C1 C2) |]. apply cleared_step; [lia |].
    by replace (8 * idx + 4 + i + 1) with (8 * idx + 4 + (i + 1)) by lia.
Qed.

Lemma kstack_alloc_loop_spec idx n : forall st W i, slot_ok idx -> kwin st W -> 0 <= i -> i + Z.of_nat n = 4 ->
  (forall m, stack_page idx m -> W (Pg m) <> None <-> m < 8 * idx + 4 + i) ->
  exists st' W' r, kstack_alloc_loop n st (kstack_base_va idx) i = Ret (st', r) /\ kwin st' W' /\ kchange idx st W st' W' /\
    forall m, stack_page idx m -> if (r : bool) then W' (Pg m) <> None else W' (Pg m) = None.
Proof.
  induction n as [| n IH]; intros st W i Hi K Hj Hn Hm; cbn [kstack_alloc_loop].
  - exists st, W, true. split; [done |]. split; [done |]. split; [by apply kchange_refl |]. intros m Hs. apply Hm; [done |]. unfold stack_page in Hs. lia.
  - assert (Hfail : forall st1 W1, kwin st1 W1 -> kchange idx st W st1 W1 -> (forall m, W1 (Pg m) = W (Pg m)) ->
      exists st' W' r, (st2 ← kstack_unwind (Z.to_nat i) st1 (kstack_base_va idx) 0; Ret (st2, false)) = Ret (st', r) /\ kwin st' W' /\ kchange idx st W st' W' /\
        forall m, stack_page idx m -> if (r : bool) then W' (Pg m) <> None else W' (Pg m) = None).
    { intros st1 W1 K1 C1 Hsame. destruct (kstack_unwind_spec idx (Z.to_nat i) st1 W1 0 Hi K1 ltac:(lia) ltac:(lia)) as (st2 & W2 & E2 & K2 & C2 & Hc).
      { intros m Hmm. rewrite Hsame. apply Hm; [unfold stack_page |]; lia. }
      rewrite E2. cbn [mbind res_bind]. exists st2, W2, false. split; [done |]. split; [done |]. split; [exact (kchange_trans _ _ _ _ _ _ _ K K1 C1 C2) |]. intros m Hs. rewrite (Hc m), Hsame.
      destruct (Z.ltb_spec m (8 * idx + 4 + 0 + Z.of_nat (Z.to_nat i))) as [Hlt | Hge]; [destruct (Z.leb_spec (8 * idx + 4 + 0) m); [done | unfold stack_page in Hs; lia] |].
      rewrite andb_false_r. destruct (W (Pg m)) eqn:Em; [| done]. assert (m < 8 * idx + 4 + i) by (apply Hm; [done | congruence]). lia. }
    destruct (page_va idx i Hi ltac:(lia)) as [-> Hr].
    destruct (kstack_walk_alloc idx st W _ K Hr) as (st1 & W1 & r & E & K1 & C1 & Hsame & Hpte). rewrite E. cbn [mbind res_bind].
    destruct r as [pte |]; [| by apply (Hfail st1 W1)]. destruct (Hpte pte eq_refl) as (b & Eb & ->). unfold kpage_alloc_vm.
    destruct (pa_alloc_law (al (ks_vm st1)) (k_ok _ _ K1)) as (a & r & Ea & Hok & Hra). rewrite Ea. cbn [mbind res_bind].
    destruct r as [p |].
    + destruct Hra as (Hp & Hnu & Hu & Heq).
      assert (Ep : W1 (Pg (8 * idx + 4 + i)) = None).
      { rewrite Hsame. destruct (W (Pg (8 * idx + 4 + i))) eqn:Ex; [| done]. assert (8 * idx + 4 + i < 8 * idx + 4 + i) by (apply Hm; [unfold stack_page; lia | congruence]). lia. }
      destruct (win_page idx st1 W1 (8 * idx + 4 + i) b p a K1 Hr ltac:(unfold stack_page; lia) Eb Ep ltac:(by split_and!)) as [K2 C2]. unfold store. cbn [kw al].
      destruct (IH _ _ (i + 1) Hi K2 ltac:(lia) ltac:(lia)) as (st3 & W3 & r & E3 & K3 & C3 & Hfin).
      { intros m Hs. destruct (decide (8 * idx + 4 + i = m)) as [<- | Hne]; [rewrite fn_lookup_insert; split; [lia | done] |].
        rewrite fn_lookup_insert_ne, Hsame, Hm by (done || congruence). lia. }
      exists st3, W3, r. split; [exact E3 |]. split; [exact K3 |]. split; [| exact Hfin]. eapply kchange_trans; [exact K | exact K1 | exact C1 |]. exact (kchange_trans _ _ _ _ _ _ _ K1 K2 C2 C3).
    + apply (Hfail (with_vm st1 (Vm (kw (ks_vm st1)) a)) W1).
      * destruct K1. split; cbn [with_vm ks_vm l2_kstack al kw]; try done. intros x q Ex. destruct (k_use0 _ _ Ex) as [? ?]. split; [done |]. by apply Hra.
      * eapply kchange_trans; [exact K | exact K1 | exact C1 |]. split; cbn [with_vm ks_vm l2_kstack al kw]; try done; [by auto |].
        intros q Hq. rewrite Hra by done. apply (c_used idx _ _ _ _ (kchange_refl idx st1 W1 K1)). done.
      * done.
Qed.

(** *** The operations *)

Lemma kstack_alloc_spec idx st W : slot_ok idx -> kwin st W -> (forall m, stack_page idx m -> W (Pg m) = None) ->
  exists st' W' (ok : bool), kstack_alloc st idx = Ret (st', if ok then win_va (8 * idx + 8) else 0) /\ kwin st' W' /\ kchange idx st W st' W' /\
    forall m, stack_page idx m -> if ok then W' (Pg m) <> None else W' (Pg m) = None.
Proof.
  intros Hi K Hm. unfold kstack_alloc. pose proof Hi as Hi'. unfold slot_ok in Hi'. change KSTACK_NSLOTS with 32768 in Hi'.
  unfold KSTACK_SLOT_PAGES, KSTACK_GUARD_PAGES, KSTACK_PAGES, PGSIZE. rewrite (u64_small ((idx + 1) * _ * _)) by lia.
  change KSTACK_WINDOW_SIZE with (2 ^ 30). destruct (Z.leb_spec 0 idx), (Z.leb_spec ((idx + 1) * (4 + 4) * 4096) (2 ^ 30)); try lia. cbn [andb KASSERT mbind res_bind].
  change (Z.to_nat 4) with 4%nat. destruct (kstack_alloc_loop_spec idx 4 st W 0 Hi K ltac:(lia) ltac:(lia)) as (st' & W' & ok & E & K' & C & Hfin).
  { intros m Hs. rewrite (Hm m Hs). unfold stack_page in Hs. split; [done | lia]. }
  rewrite E. cbn [mbind res_bind]. exists st', W', ok. split; [| done]. unfold win_va, KSTACK_WINDOW, KERN_BASE. change (Z.shiftl 511 30) with (511 * 2 ^ 30).
  rewrite u64_small by lia. destruct ok; [| done]. do 2 f_equal. lia.
Qed.

Lemma kstack_free_spec idx st W : slot_ok idx -> kwin st W ->
  exists st' W', kstack_free st idx = Ret st' /\ kwin st' W' /\ kchange idx st W st' W' /\ forall m, stack_page idx m -> W' (Pg m) = None.
Proof.
  intros Hi K. unfold kstack_free. change (Z.to_nat KSTACK_PAGES) with 4%nat.
  destruct (kstack_free_loop_spec idx 4 st W 0 Hi K ltac:(lia) ltac:(lia)) as (st' & W' & E & K' & C & Hc). exists st', W'. split; [done |]. split; [done |]. split; [done |].
  intros m Hs. rewrite (Hc m). unfold stack_page in Hs. destruct (Z.leb_spec (8 * idx + 4 + 0) m), (Z.ltb_spec m (8 * idx + 4 + 0 + Z.of_nat 4)); cbn; try lia. done.
Qed.

(** ** The window as a machine

    CPUs interleave their calls in any order; each call is made as [allocproc] and
    [freeproc] make it: a stack is mapped only in a slot that is reserved and empty, and a
    slot is given back only when its stack is gone. *)

Definition reserved st (idx : Z) : Prop := slot_ok idx /\ bit_test (kstack_slotmap st) idx = true.
Definition vacant st (idx : Z) : Prop := forall m, stack_page idx m -> kstack_maps st m = None.

Inductive kop := KSlotAlloc | KAlloc (idx : Z) | KFree (idx : Z) | KSlotFree (idx : Z).

Definition kexec st (op : kop) : res (kst A) :=
  match op with
  | KSlotAlloc => Ret (kstack_slot_alloc st).1
  | KAlloc idx => '(st, _) ← kstack_alloc st idx; Ret st
  | KFree idx => kstack_free st idx
  | KSlotFree idx => Ret (kstack_slot_free st idx)
  end.

Definition kallowed st (op : kop) : Prop :=
  match op with
  | KSlotAlloc => True
  | KAlloc idx | KSlotFree idx => reserved st idx /\ vacant st idx
  | KFree idx => reserved st idx
  end.

(** kvminit clears the window, the slots are in the bss. *)
Definition kstack_init (v : vm A) : kst A := Kst v (fun _ => 0) (fun _ => 0).

Inductive kreach (v : vm A) : kst A -> Prop :=
| kr_init : kreach v (kstack_init v)
| kr_step st op st' : kreach v st -> kallowed st op -> kexec st op = Ret st' -> kreach v st'.

Record kinv st W : Prop := {
  i_win : kwin st W;
  i_map : bitstr_wf (kstack_slotmap st);
  i_slot : forall n p, W (Pg n) = Some p -> 4 <= n mod 8 /\ bit_test (kstack_slotmap st) (n / 8) = true;
  i_whole : forall idx, slot_ok idx -> (forall m, stack_page idx m -> W (Pg m) <> None) \/ (forall m, stack_page idx m -> W (Pg m) = None)
}.

Lemma slot_pages idx m : slot_ok idx -> stack_page idx m -> 0 <= m < WINPAGES.
Proof. unfold slot_ok, stack_page, WINPAGES. change KSTACK_NSLOTS with 32768. lia. Qed.

Lemma vacant_win idx st W : kwin st W -> slot_ok idx -> vacant st idx <-> (forall m, stack_page idx m -> W (Pg m) = None).
Proof.
  intros K Hi. split; intros Hv m Hs; specialize (Hv m Hs); [rewrite <- (kstack_maps_win st W m K) | rewrite (kstack_maps_win st W m K)]; try done;
    by apply (slot_pages idx).
Qed.

Lemma kinv_init v : pa_ok (al v) -> kinv (kstack_init v) (fun _ => None).
Proof.
  intros Hok. split; cbn [kstack_init kstack_slotmap].
  - split; cbn [kstack_init ks_vm l2_kstack]; done.
  - by intros i.
  - done.
  - intros idx _. by right.
Qed.

(** A change of the stack of one reserved slot keeps the invariant, if the stack comes or goes as a whole. *)
Lemma kinv_change idx st W st' W' : kinv st W -> reserved st idx -> kwin st' W' -> kchange idx st W st' W' ->
  (forall m, stack_page idx m -> W' (Pg m) <> None) \/ (forall m, stack_page idx m -> W' (Pg m) = None) -> kinv st' W'.
Proof.
  intros [I1 I2 I3 I4] [Hi Hb] K' C Hall. split.
  - done.
  - rewrite (c_slots _ _ _ _ _ C). done.
  - intros n p E. rewrite (c_slots _ _ _ _ _ C). destruct (decide (8 * idx + 4 <= n < 8 * idx + 8)) as [Hs | Hs].
    + replace (n / 8) with idx by (Z.div_mod_to_equations; lia). split; [Z.div_mod_to_equations; lia | done].
    + rewrite (c_pgs _ _ _ _ _ C n Hs) in E. by apply (I3 n p).
  - intros j Hj. destruct (decide (j = idx)) as [-> | Hne]; [done |].
    assert (Hs : forall m, stack_page j m -> W' (Pg m) = W (Pg m)) by (intros m Hm; apply (c_pgs _ _ _ _ _ C); unfold stack_page in *; lia).
    destruct (I4 j Hj) as [F | F]; [left | right]; intros m Hm; rewrite Hs by done; by apply F.
Qed.

Lemma kinv_slots st W m' : kinv st W -> bitstr_wf m' -> (forall n p, W (Pg n) = Some p -> bit_test m' (n / 8) = true) -> kinv (with_slotmap st m') W.
Proof.
  intros [I1 I2 I3 I4] Hm Hb. split; cbn [with_slotmap kstack_slotmap]; try done.
  - destruct I1. by split.
  - intros n p E. split; [by apply (I3 n p) | by apply (Hb n p)].
Qed.

Lemma kwinv_step st W op : kinv st W -> kallowed st op -> exists st' W', kexec st op = Ret st' /\ kinv st' W'.
Proof.
  intros I Ha. pose proof (i_win _ _ I) as K. destruct op as [| idx | idx | idx]; cbn [kexec kallowed] in *.
  - exists (kstack_slot_alloc st).1, W. split; [done |]. unfold kstack_slot_alloc. cbn [fst].
    destruct (Z.leb_spec 0 (bit_ffc (kstack_slotmap st) KSTACK_NSLOTS)) as [Hs | _]; [| done].
    apply kinv_slots; [done | apply bit_set_wf; [done | apply I] |]. intros n p E. rewrite bit_test_set by (done || apply (k_dom _ _ K) in E as [? _]; Z.div_mod_to_equations; lia).
    destruct (i_slot _ _ I n p E) as [_ ->]. apply orb_true_r.
  - destruct Ha as [Hr Hv]. destruct (kstack_alloc_spec idx st W (proj1 Hr) K) as (st' & W' & ok & E & K' & C & Hfin); [by apply (vacant_win idx st W K (proj1 Hr)) |].
    rewrite E. cbn [mbind res_bind]. exists st', W'. split; [done |]. apply (kinv_change idx st W); try done. destruct ok; auto.
  - destruct (kstack_free_spec idx st W (proj1 Ha) K) as (st' & W' & E & K' & C & Hfin). exists st', W'. split; [done |]. apply (kinv_change idx st W); auto.
  - destruct Ha as [[Hi Hb] Hv]. exists (kstack_slot_free st idx), W. split; [done |]. apply kinv_slots; [done | apply bit_clear_wf, I |].
    intros n p E. destruct (i_slot _ _ I n p E) as [H4 Hbt]. rewrite bit_test_clear by (unfold slot_ok in Hi; (lia || apply (k_dom _ _ K) in E as [? _]; Z.div_mod_to_equations; lia)).
    rewrite Hbt. destruct (Z.eqb_spec (n / 8) idx) as [En | ?]; [| done]. exfalso.
    apply (vacant_win idx st W K Hi) with (m := n) in Hv; [congruence |]. unfold stack_page. Z.div_mod_to_equations. lia.
Qed.

Lemma kreach_inv v st : pa_ok (al v) -> kreach v st -> exists W, kinv st W.
Proof.
  intros Hok R. induction R as [| st op st' R [W I] Ha E]; [exists (fun _ => None); by apply kinv_init |].
  destruct (kwinv_step st W op I Ha) as (st2 & W2 & E2 & I2). rewrite E in E2. injection E2 as <-. by exists W2.
Qed.
End win.

(** ** Theorems *)

(** mapping a stack in a vacant slot returns; either the top of the stack, with exactly
    the four stack pages of the slot mapped to fresh pages of their own and its guard pages
    as before, or 0 with the slot vacant again and nothing leaked but level 3 tables that
    stay with the window. No other slot, and no page of anyone else, changes. *)
Theorem kstack_alloc_maps_or_unwinds {A} `{PageAllocLaws A} (st : kst A) W idx : kwin st W -> slot_ok idx -> vacant st idx ->
  exists st' W' r, kstack_alloc st idx = Ret (st', r) /\ kwin st' W' /\ kchange idx st W st' W' /\
    (r = win_va (8 * idx + 8) /\ (forall m, stack_page idx m -> exists p, kstack_maps st' m = Some p /\ is_page p /\ pa_used (al (ks_vm st')) p /\ ~ pa_used (al (ks_vm st)) p) \/
     r = 0 /\ vacant st' idx) /\
    (forall n, 0 <= n < WINPAGES -> ~ stack_page idx n -> kstack_maps st' n = kstack_maps st n).
Proof.
  intros K Hi Hv. destruct (kstack_alloc_spec idx st W Hi K) as (st' & W' & ok & E & K' & C & Hfin); [by apply (vacant_win idx st W K Hi) |].
  exists st', W'. eexists. split; [exact E |]. split; [done |]. split; [done |]. split.
  - destruct ok; [left | right]; (split; [done |]); [| by apply (vacant_win idx st' W' K' Hi)].
    intros m Hs. specialize (Hfin m Hs). rewrite (kstack_maps_win st' W' m K') by (by apply (slot_pages idx)).
    destruct (W' (Pg m)) as [p |] eqn:Ep; [| done]. destruct (k_use _ _ K' _ _ Ep) as [Hp Hu]. exists p. split; [done |]. split; [done |]. split; [done |].
    destruct (c_new _ _ _ _ _ C p Hp) as [[x Ex] | ?]; [by exists (Pg m) | | done]. exfalso.
    assert (Ex' : W' x = Some p \/ exists n, x = Pg n /\ stack_page idx n).
    { destruct x as [i | n]; [left; by apply (c_tabs _ _ _ _ _ C) |]. destruct (decide (8 * idx + 4 <= n < 8 * idx + 8)); [right; eauto | left; by rewrite (c_pgs _ _ _ _ _ C)]. }
    apply (vacant_win idx st W K Hi) with (m := m) in Hv as Hvm; [| done]. destruct Ex' as [Ex' | (n & -> & Hn)].
    + pose proof (k_inj _ _ K' _ _ _ Ep Ex') as <-. congruence.
    + apply (vacant_win idx st W K Hi) with (m := n) in Hv; [congruence | done].
  - intros n Hn Hns. rewrite (kstack_maps_win st' W' n K'), (kstack_maps_win st W n K) by done. by apply (c_pgs _ _ _ _ _ C).
Qed.

(** C15: in every state the CPUs can reach, whatever the order of their calls: the next call
    returns (no assertion fails, no null entry is followed); every mapped page of the window
    is a stack page of a reserved slot, so that every guard page is unmapped; no two of them
    are the same physical page and all are allocated; each stack is there as a whole or not
    at all; and a slot is handed out only when nobody has it, refused only when all are out. *)
Theorem kstack_window_safe {A} `{PageAllocLaws A} (v : vm A) (st : kst A) : pa_ok (al v) -> kreach v st ->
  (forall op, kallowed st op -> is_Ret (kexec st op)) /\
  (forall n p, 0 <= n < WINPAGES -> kstack_maps st n = Some p -> stack_page (n / 8) n /\ reserved st (n / 8) /\ is_page p /\ pa_used (al (ks_vm st)) p) /\
  (forall n m p, 0 <= n < WINPAGES -> 0 <= m < WINPAGES -> kstack_maps st n = Some p -> kstack_maps st m = Some p -> n = m) /\
  (forall idx, slot_ok idx -> (forall m, stack_page idx m -> kstack_maps st m <> None) \/ vacant st idx) /\
  match (kstack_slot_alloc st).2 with
  | -1 => forall idx, slot_ok idx -> reserved st idx
  | idx => slot_ok idx /\ vacant st idx /\ ~ reserved st idx /\ reserved (kstack_slot_alloc st).1 idx
  end.
Proof.
  intros Hok R. destruct (kreach_inv v st Hok R) as [W I]. pose proof (i_win _ _ I) as K. split_and!.
  - intros op Ha. destruct (kwinv_step st W op I Ha) as (st' & W' & E & _). by exists st'.
  - intros n p Hn E. rewrite (kstack_maps_win st W n K Hn) in E. destruct (i_slot _ _ I n p E) as [H4 Hb]. unfold stack_page, reserved, slot_ok, WINPAGES in *.
    change KSTACK_NSLOTS with 32768. split; [Z.div_mod_to_equations; lia |]. split; [split; [Z.div_mod_to_equations; lia | done] |]. by apply (k_use _ _ K (Pg n)).
  - intros n m p Hn Hm. rewrite (kstack_maps_win st W n K Hn), (kstack_maps_win st W m K Hm). intros En Em. by pose proof (k_inj _ _ K _ _ _ En Em) as [= ->].
  - intros idx Hi. rewrite (vacant_win idx st W K Hi). destruct (i_whole _ _ I idx Hi) as [F | F]; [left | by right].
    intros m Hs. rewrite (kstack_maps_win st W m K); [by apply F | by apply (slot_pages idx)].
  - unfold kstack_slot_alloc. destruct (bit_ffc_cases (kstack_slotmap st) KSTACK_NSLOTS (i_map _ _ I) ltac:(done)) as [[-> Hall] | (Hr & Hb & _)]; cbn [snd fst].
    { intros idx Hi. split; [done | by apply Hall]. }
    set (idx := bit_ffc _ _) in *. assert (Hi : slot_ok idx) by done.
    assert (G : slot_ok idx /\ vacant st idx /\ ~ reserved st idx /\ reserved (if 0 <=? idx then with_slotmap st (bit_set (kstack_slotmap st) idx) else st) idx);
      [| destruct idx as [| ? | q]; [exact G | exact G | lia]].
    split; [done |]. split; [| split; [intros [_ ?]; congruence |]].
    + apply (vacant_win idx st W K Hi). intros m Hs. destruct (W (Pg m)) as [p |] eqn:E; [| done]. destruct (i_slot _ _ I m p E) as [_ Hb'].
      replace (m / 8) with idx in Hb' by (unfold stack_page in Hs; Z.div_mod_to_equations; lia). congruence.
    + destruct (Z.leb_spec 0 idx); [| lia]. split; [done |]. cbn [with_slotmap kstack_slotmap]. rewrite bit_test_set by lia. by rewrite Z.eqb_refl.
Qed.

(** ** Witnesses *)

Definition kst_demo : kst (list Z) := kstack_init (Vm (fun _ => 0) []).

Lemma kst_demo_vacant idx : vacant kst_demo idx.
Proof. intros m _. unfold kstack_maps. cbn [kst_demo kstack_init l2_kstack]. by rewrite valid_0. Qed.

Lemma kstack_alloc_maps_or_unwinds_witness : exists st' p, kstack_alloc kst_demo 3 = Ret (st', win_va 32) /\ kstack_maps st' 28 = Some p /\ kstack_maps st' 27 = None.
Proof.
  destruct (kstack_alloc_maps_or_unwinds kst_demo (fun _ => None) 3 (i_win _ _ (kinv_init _ (pool_ok _))) ltac:(vm_compute; split; congruence) (kst_demo_vacant 3))
    as (st' & W' & r & E & _ & _ & Hr & Hf).
  assert (Hc : (match kstack_alloc kst_demo 3 with Ret (_, r) => r | Panic _ => 5 end) = win_va 32) by (vm_compute; reflexivity).
  rewrite E in Hc. subst r. destruct Hr as [[_ Hr] | [Hr _]]; [| vm_compute in Hr; congruence].
  destruct (Hr 28 ltac:(unfold stack_page; lia)) as (p & Ep & _). exists st', p. split; [exact E |]. split; [exact Ep |].
  rewrite Hf; [vm_compute; reflexivity | unfold WINPAGES; lia | unfold stack_page; lia].
Defined.

Lemma kstack_window_safe_witness : exists st p, kreach (Vm (fun _ => 0) []) st /\ kstack_maps st 4 = Some p /\ reserved st 0.
Proof.
  set (v := Vm (fun _ => 0) []). set (st1 := (kstack_slot_alloc (kstack_init v)).1).
  assert (R1 : kreach v st1) by exact (kr_step v (kstack_init v) KSlotAlloc st1 (kr_init v) I eq_refl).
  destruct (kstack_window_safe v st1 (pool_ok _) R1) as (Hgo & _ & _ & Hw & _).
  assert (Hi : slot_ok 0) by (vm_compute; split; congruence).
  assert (Ha : kallowed st1 (KAlloc 0)).
  { split; [split; [exact Hi | vm_compute; reflexivity] |]. destruct (Hw 0 Hi) as [Hx | Hx]; [| exact Hx]. destruct (Hx 4); [unfold stack_page; lia | vm_compute; reflexivity]. }
  destruct (Hgo (KAlloc 0) Ha) as [st2 E2].
  assert (Hc : (match kexec st1 (KAlloc 0) with Ret s => kstack_maps s 4 | Panic _ => None end) = Some (page_no 1)) by (vm_compute; reflexivity).
  rewrite E2 in Hc. exists st2, (page_no 1). pose proof (kr_step v st1 (KAlloc 0) st2 R1 Ha E2) as R2. split; [exact R2 |]. split; [exact Hc |].
  destruct (kstack_window_safe v st2 (pool_ok _) R2) as (_ & Hm & _). apply (Hm 4 (page_no 1)); [unfold WINPAGES; lia | exact Hc].
Defined.
