(* ===== verification/Dmap.v ===== *)
(** * The kernel's direct map

    Models [boot_pgtable], [dmap_l2], [dmap_page], [dmap_block_2m], [dmap_block_1g],
    [dmap_bank] and [kvminit] of arch/pmap.c. They run with the MMU off: memory is the word
    at each physical address, the static tables are at the linker's addresses [ksyms], and
    new tables are taken from [boot_freemem] on. *)

From S2P Require Import Prelude Bits Mmu Physmem Pages Pmap.

(** The symbols of the kernel image. *)
Record ksyms := Ksyms { stext : Z; end_ : Z; l0_table : Z; l1_table : Z; l2_device : Z; l2_kstack : Z }.

Record boot := Boot { bw : Z -> Z; boot_freemem : Z }.

(** boot_alloc(1) *)
Definition boot_page (b : boot) : boot * Z := (Boot (bw b) (u64 (boot_freemem b + u64 (1 * PGSIZE))), boot_freemem b).

Definition boot_pgtable (b : boot) : boot * Z :=
  let '(b, pt) := boot_page b in (Boot (zero_page (bw b) pt) (boot_freemem b), pt).

Definition bstore (b : boot) (a v : Z) : boot := Boot (bw b).[a <- v] (boot_freemem b).

Section ops.
Context (sy : ksyms).

Definition l1_slot (i : Z) : Z := l1_table sy + 8 * i.

Definition dmap_l2 (b : boot) (pa : Z) : res (boot * Z) :=
  let i := L1X pa in
  if (i =? 0) || (i =? KSTACK_WINDOW_L1) then Panic "kvminit: RAM bank overlaps a reserved L1 slot"
  else
    let b := if negb (valid (bw b (l1_slot i)))
             then let '(b, l2) := boot_pgtable b in bstore b (l1_slot i) (Z.lor (Z.lor l2 PTE_VALID) PTE_TABLE)
             else b in
    Ret (b, PTE_ADDR (bw b (l1_slot i))).

Definition dmap_page (b : boot) (pa : Z) : res boot :=
  '(b, l2) ← dmap_l2 b pa;
  let e := l2 + 8 * L2X pa in
  let b := if negb (valid (bw b e))
           then let '(b, l3) := boot_pgtable b in bstore b e (Z.lor (Z.lor l3 PTE_VALID) PTE_TABLE)
           else b in
  let l3 := PTE_ADDR (bw b e) in
  Ret (bstore b (l3 + 8 * L3X pa) (Z.lor pa PAGE_KERNEL)).

Definition dmap_block_2m (b : boot) (pa : Z) : res boot :=
  '(b, l2) ← dmap_l2 b pa;
  Ret (bstore b (l2 + 8 * L2X pa) (Z.lor pa BLOCK_NORMAL)).

Definition dmap_block_1g (b : boot) (pa : Z) : res boot :=
  let i := L1X pa in
  if (i =? 0) || (i =? KSTACK_WINDOW_L1) then Panic "kvminit: RAM bank overlaps a reserved L1 slot"
  else Ret (bstore b (l1_slot i) (Z.lor pa BLOCK_NORMAL)).

(** while (cond) { op(pa); pa += step; }, at most [fuel] turns: a phase of [dmap_bank] has
    fewer than 512. *)
Fixpoint dmap_loop (fuel : nat) (cond : Z -> bool) (op : boot -> Z -> res boot) (step : Z) (b : boot) (pa : Z) : res (boot * Z) :=
  match fuel with
  | O => Ret (b, pa)
  | S f => if cond pa then b ← op b pa; dmap_loop f cond op step b (u64 (pa + step)) else Ret (b, pa)
  end.

Definition dmap_bank (b : boot) (start_pa end_pa : Z) : res boot :=
  if start_pa <? BLOCK_SIZE_1G then Panic "kvminit: RAM bank below 1 GB collides with the device block"
  else if end_pa >? Z.shiftl KSTACK_WINDOW_L1 L1_SHIFT then Panic "kvminit: RAM bank reaches the kstack window (>511 GB)"
  else
    '(b, pa) ← dmap_loop 512 (fun pa => (pa <? end_pa) && negb (Z.land pa (BLOCK_SIZE_2M - 1) =? 0)) dmap_page PGSIZE b start_pa;
    '(b, pa) ← dmap_loop 512 (fun pa => (u64 (pa + BLOCK_SIZE_2M) <=? end_pa) && negb (Z.land pa (BLOCK_SIZE_1G - 1) =? 0)) dmap_block_2m BLOCK_SIZE_2M b pa;
    '(b, pa) ← dmap_loop 512 (fun pa => u64 (pa + BLOCK_SIZE_1G) <=? end_pa) dmap_block_1g BLOCK_SIZE_1G b pa;
    '(b, pa) ← dmap_loop 512 (fun pa => u64 (pa + BLOCK_SIZE_2M) <=? end_pa) dmap_block_2m BLOCK_SIZE_2M b pa;
    '(b, _) ← dmap_loop 512 (fun pa => pa <? end_pa) dmap_page PGSIZE b pa;
    Ret b.

Fixpoint dmap_banks (b : boot) (l : list vm_phys_seg) : res boot :=
  match l with [] => Ret b | s :: l' => b ← dmap_bank b (seg_start s) (seg_end s); dmap_banks b l' end.

Fixpoint device_loop (n : nat) (b : boot) (i : Z) : boot :=
  match n with O => b | S n' => device_loop n' (bstore b (l2_device sy + 8 * i) (Z.lor (Z.shiftl i L2_SHIFT) BLOCK_DEVICE)) (i + 1) end.

Definition kvminit (w : Z -> Z) (pm : physmem) : res (boot * physmem) :=
  let w := zero_page w (l0_table sy) in
  let w := zero_page w (l1_table sy) in
  let w := zero_page w (l2_device sy) in
  let w := zero_page w (l2_kstack sy) in
  let b := Boot w (PGROUNDUP (end_ sy)) in
  let b := bstore b (l0_table sy + 8 * 0) (Z.lor (Z.lor (l1_table sy) PTE_VALID) PTE_TABLE) in
  let b := bstore b (l1_slot 0) (Z.lor (Z.lor (l2_device sy) PTE_VALID) PTE_TABLE) in
  let b := device_loop (Z.to_nat TABLE_ENTRIES) b 0 in
  let b := bstore b (l1_slot KSTACK_WINDOW_L1) (Z.lor (Z.lor (l2_kstack sy) PTE_VALID) PTE_TABLE) in
  pm ← physmem_avail pm;
  b ← dmap_banks b (vm_phys_segs pm);
  pm ← physmem_exclude_region pm (stext sy) (u64 (boot_freemem b - stext sy));
  Ret (b, pm).
End ops.

(** ** Specification: the architecture's walk, with blocks *)

Definition is_table (d : Z) : bool := negb (Z.land d PTE_TABLE =? 0).

(** Where the MMU finds [va] from the level 0 table [root]: the physical address and the
    attributes of the descriptor. *)
Definition kwalk (w : Z -> Z) (root va : Z) : option (Z * Z) :=
  let d0 := w (root + 8 * L0X va) in
  if negb (valid d0 && is_table d0) then None
  else
    let d1 := w (PTE_ADDR d0 + 8 * L1X va) in
    if negb (valid d1) then None
    else if negb (is_table d1) then Some (PTE_ADDR d1 + va mod 2 ^ 30, pte_flags d1)
    else
      let d2 := w (PTE_ADDR d1 + 8 * L2X va) in
      if negb (valid d2) then None
      else if negb (is_table d2) then Some (PTE_ADDR d2 + va mod 2 ^ 21, pte_flags d2)
      else
        let d3 := w (PTE_ADDR d2 + 8 * L3X va) in
        if negb (valid d3 && is_table d3) then None else Some (PTE_ADDR d3 + va mod 4096, pte_flags d3).

(** ** Lemmas: the tables as a tree *)

Inductive e2 := N2 | Blk2 | Tab2 (c : Z) (f : Z -> bool).
Inductive e1 := N1 | Blk1 | Tab1 (b : Z) (g : Z -> e2).

Inductive tkey := K0 | K1 | KD | KS | K2 (i : Z) | K3 (i j : Z).

#[export] Instance tkey_dec : EqDecision tkey.
Proof. solve_decision. Defined.

Definition mapped_dmap (D : Z -> e1) (pa : Z) : bool :=
  match D (pa / 2 ^ 30) with
  | N1 => false
  | Blk1 => true
  | Tab1 _ g => match g (pa / 2 ^ 21 mod 512) with N2 => false | Blk2 => true | Tab2 _ f => f (pa / 4096 mod 512) end
  end.

Definition tdesc (b : Z) : Z := Z.lor (Z.lor b PTE_VALID) PTE_TABLE.

Section proofs.
Context (sy : ksyms).
Implicit Types (D : Z -> e1) (w : Z -> Z).

Definition tab D (x : tkey) : option Z :=
  match x with
  | K0 => Some (l0_table sy) | K1 => Some (l1_table sy) | KD => Some (l2_device sy) | KS => Some (l2_kstack sy)
  | K2 i => match D i with Tab1 b _ => Some b | _ => None end
  | K3 i j => match D i with Tab1 _ g => match g j with Tab2 c _ => Some c | _ => None end | _ => None end
  end.

Definition word D (x : tkey) (m : Z) : Z :=
  match x with
  | K0 => if m =? 0 then tdesc (l1_table sy) else 0
  | K1 => if m =? 0 then tdesc (l2_device sy) else if m =? 511 then tdesc (l2_kstack sy)
          else match D m with N1 => 0 | Blk1 => Z.lor (m * 2 ^ 30) BLOCK_NORMAL | Tab1 b _ => tdesc b end
  | KD => Z.lor (m * 2 ^ 21) BLOCK_DEVICE
  | KS => 0
  | K2 i => match D i with
            | Tab1 _ g => match g m with N2 => 0 | Blk2 => Z.lor ((512 * i + m) * 2 ^ 21) BLOCK_NORMAL | Tab2 c _ => tdesc c end
            | _ => 0 end
  | K3 i j => match D i with
              | Tab1 _ g => match g j with Tab2 _ f => if f m then Z.lor ((512 * (512 * i + j) + m) * 4096) PAGE_KERNEL else 0 | _ => 0 end
              | _ => 0 end
  end.

Definition drep w D : Prop := forall x p m, tab D x = Some p -> 0 <= m < 512 -> w (p + 8 * m) = word D x m.

Record binv (lo : Z) (b : boot) D : Prop := {
  d_rep : drep (bw b) D;
  d_tab : forall x p, tab D x = Some p -> 0 <= p /\ p + 4096 <= boot_freemem b /\ p mod 4096 = 0;
  d_inj : forall x y p, tab D x = Some p -> tab D y = Some p -> x = y;
  d_free : boot_freemem b mod 4096 = 0 /\ lo <= boot_freemem b <= 2 ^ 48
}.

Lemma aligned_apart p q a : p mod 4096 = 0 -> q mod 4096 = 0 -> in_page p a = true -> in_page q a = true -> p = q.
Proof. unfold in_page, PGSIZE. intros Hp Hq H1 H2. zbool. Z.div_mod_to_equations. lia. Qed.

(** One store into a table. *)
Lemma binv_store lo b D D' x p k v : binv lo b D -> tab D x = Some p -> tab D' x = Some p -> 0 <= k < 512 -> v = word D' x k ->
  (forall y q, tab D' y = Some q -> tab D y = Some q) ->
  (forall y q m, tab D' y = Some q -> 0 <= m < 512 -> (y, m) <> (x, k) -> word D' y m = word D y m) -> binv lo (bstore b (p + 8 * k) v) D'.
Proof.
  intros I Hx Hx' Hk -> Htab Hword. split; cbn [bstore bw boot_freemem].
  - intros y q m Hy Hm. destruct (decide ((y, m) = (x, k))) as [[= -> ->] | Hne]; [rewrite Hx' in Hy; injection Hy as <-; by rewrite upd_eq |].
    rewrite (Hword y q m) by done. rewrite upd_ne; [exact (d_rep _ _ _ I y q m (Htab _ _ Hy) Hm) |]. intros E.
    assert (q = p) as ->.
    { apply (aligned_apart q p (q + 8 * m)); [by apply (d_tab _ _ _ I y _ (Htab _ _ Hy)) | by apply (d_tab _ _ _ I x) | by apply in_page_slot | rewrite E; by apply in_page_slot]. }
    pose proof (d_inj _ _ _ I y x p (Htab _ _ Hy) Hx) as ->. apply Hne. f_equal. lia.
  - intros y q Hy. exact (d_tab _ _ _ I y q (Htab _ _ Hy)).
  - intros y z q Hy Hz. apply (d_inj _ _ _ I y z q); by apply Htab.
  - apply I.
Qed.

(** A new, clear table. *)
Lemma binv_pgtable lo b D : binv lo b D -> boot_freemem b + 4096 <= 2 ^ 48 ->
  let q := boot_freemem b in
  exists b', boot_pgtable b = (b', q) /\ binv lo b' D /\ boot_freemem b' = q + 4096 /\ 0 <= q /\ q mod 4096 = 0 /\
    (forall x, tab D x <> Some q) /\ forall m, 0 <= m < 512 -> bw b' (q + 8 * m) = 0.
Proof.
  intros I Hf q. destruct (d_free _ _ _ I) as [Hal Hr]. assert (H0 : 0 <= q) by (destruct (d_tab _ _ _ I K0 _ eq_refl); lia).
  unfold boot_pgtable, boot_page, PGSIZE. rewrite (u64_small (1 * 4096)), u64_small by lia. eexists. split; [reflexivity |]. cbn [bw boot_freemem].
  assert (Hnew : forall x, tab D x <> Some q) by (intros x E; destruct (d_tab _ _ _ I x q E); lia).
  split; [| split_and!; try done; intros m Hm; unfold zero_page; by rewrite in_page_slot]. split; cbn [bw boot_freemem].
  - intros x p m Hx Hm. rewrite <- (d_rep _ _ _ I x p m Hx Hm). unfold zero_page. fold q. destruct (in_page q (p + 8 * m)) eqn:E; [| done].
    destruct (Hnew x). rewrite Hx. f_equal. apply (aligned_apart p q (p + 8 * m)); [by apply (d_tab _ _ _ I x) | exact Hal | by apply in_page_slot | exact E].
  - intros x p Hx. destruct (d_tab _ _ _ I x p Hx) as (? & ? & ?). split; [done |]. split; [lia | done].
  - apply I.
  - split; [Z.div_mod_to_equations; lia | lia].
Qed.

Lemma binv_link lo b D D' x p k y0 q : binv lo b D -> tab D x = Some p -> tab D' x = Some p -> 0 <= k < 512 -> word D' x k = tdesc q ->
  0 <= q -> q + 4096 <= boot_freemem b -> q mod 4096 = 0 -> (forall x, tab D x <> Some q) -> (forall m, 0 <= m < 512 -> bw b (q + 8 * m) = 0) ->
  (forall y r, tab D' y = Some r -> y = y0 /\ r = q \/ tab D y = Some r) -> (forall m, 0 <= m < 512 -> word D' y0 m = 0) ->
  (forall y r m, tab D y = Some r -> 0 <= m < 512 -> (y, m) <> (x, k) -> word D' y m = word D y m) -> binv lo (bstore b (p + 8 * k) (tdesc q)) D'.
Proof.
  intros I Hx Hx' Hk Hv H0 Hq Hal Hnew Hz Htab Hw0 Hword. split; cbn [bstore bw boot_freemem].
  - intros y r m Hy Hm. destruct (decide ((y, m) = (x, k))) as [[= -> ->] | Hne]; [rewrite Hx' in Hy; injection Hy as <-; by rewrite upd_eq |].
    assert (Hr : r mod 4096 = 0 /\ (r = p -> y = x)).
    { destruct (Htab y r Hy) as [[-> ->] | Hold]; [split; [done |]; intros ->; by destruct (Hnew x) |]. split; [by apply (d_tab _ _ _ I y) |].
      intros ->. by apply (d_inj _ _ _ I y x p). }
    rewrite upd_ne.
    + destruct (Htab y r Hy) as [[-> ->] | Hold]; [rewrite Hw0 by done; by apply Hz |]. rewrite (Hword y r m) by done. by apply (d_rep _ _ _ I).
    + intros E. assert (Erp : r = p).
      { apply (aligned_apart r p (r + 8 * m)); [apply Hr | by apply (d_tab _ _ _ I x) | by apply in_page_slot | rewrite E; by apply in_page_slot]. }
      destruct Hr as [_ Hr]. apply Hne. f_equal; [by apply Hr | lia].
  - intros y r Hy. destruct (Htab y r Hy) as [[_ ->] | Hold]; [done | by apply (d_tab _ _ _ I y)].
  - intros y z r Hy Hz'. destruct (Htab y r Hy) as [[-> ->] | Hy'], (Htab z _ Hz') as [[-> E] | Hz2]; [done | by destruct (Hnew z) | subst; by destruct (Hnew y) |].
    by apply (d_inj _ _ _ I y z r).
  - apply I.
Qed.

(** *** Descriptors *)

Lemma is_table_bit d : is_table d = Z.testbit d 1.
Proof.
  unfold is_table, PTE_TABLE. apply land_shiftl_1. lia.
Qed.

Lemma desc_fields pa perm : 0 <= pa < 2 ^ 48 -> pa mod 4096 = 0 -> perm_ok perm ->
  let d := Z.lor pa perm in PTE_ADDR d = pa /\ valid d = true /\ is_table d = Z.testbit perm 1 /\ pte_flags d = perm.
Proof.
  intros Hr Hal Hp d. destruct (page_desc_addr pa perm Hr Hal Hp) as [Ea Ev]. split; [done |]. split; [done |]. split.
  - rewrite is_table_bit. unfold d. rewrite Z.lor_spec. replace (Z.testbit pa 1) with false; [done |]. symmetry.
    replace pa with ((pa / 4096) * 2 ^ 12) by (Z.div_mod_to_equations; lia). rewrite Z.mul_pow2_bits_low by lia. done.
  - unfold pte_flags. fold d in Ea. rewrite Ea. destruct Hp as [Hm _]. apply Z.bits_inj'. intros n Hn. unfold d. rewrite Z.lxor_spec, Z.lor_spec.
    assert (Hand : Z.land pa perm = 0).
    { apply Z.bits_inj'. intros m Hm0. rewrite Z.land_spec, Z.bits_0. apply (f_equal (fun z => Z.testbit z m)) in Hm, Ea.
      unfold d, PTE_ADDR in Ea. rewrite Z.land_spec, Z.lor_spec in Ea. rewrite Z.land_spec, Z.bits_0 in Hm. destruct (Z.testbit pa m), (Z.testbit perm m); try done.
      cbn in Ea, Hm. congruence. }
    apply (f_equal (fun z => Z.testbit z n)) in Hand. rewrite Z.land_spec, Z.bits_0 in Hand. destruct (Z.testbit pa n), (Z.testbit perm n); done.
Qed.

Lemma tdesc_fields b : 0 <= b -> b + 4096 <= 2 ^ 48 -> b mod 4096 = 0 -> PTE_ADDR (tdesc b) = b /\ valid (tdesc b) = true /\ is_table (tdesc b) = true.
Proof.
  intros H0 H1 Hal. unfold tdesc. rewrite <- Z.lor_assoc. change (Z.lor PTE_VALID PTE_TABLE) with 3. destruct (desc_fields b 3) as (? & ? & E & _); [lia | done | by vm_compute |].
  split; [done |]. split; [done |]. by rewrite E.
Qed.

Lemma dmap_index pa : 2 ^ 30 <= pa < 511 * 2 ^ 30 -> L1X pa = pa / 2 ^ 30 /\ L2X pa = pa / 2 ^ 21 mod 512 /\ L3X pa = pa / 4096 mod 512 /\
  0 < pa / 2 ^ 30 < 511 /\ pa / 2 ^ 21 = 512 * (pa / 2 ^ 30) + pa / 2 ^ 21 mod 512 /\ pa / 4096 = 512 * (pa / 2 ^ 21) + pa / 4096 mod 512.
Proof.
  intros Hpa. unfold L1X, L2X, L3X, L1_SHIFT, L2_SHIFT, L3_SHIFT. change (TABLE_ENTRIES - 1) with (Z.ones 9). rewrite !Z.land_ones, !Z.shiftr_div_pow2 by lia.
  change (2 ^ 9) with 512. change (2 ^ 12) with 4096. change (2 ^ 21) with 2097152 in *. change (2 ^ 30) with 1073741824 in *.
  split_and!; Z.div_mod_to_equations; lia.
Qed.

(** *** The operations *)

Definition more (lo n : Z) (b : boot) D (b' : boot) D' (s e : Z) : Prop :=
  binv lo b' D' /\ boot_freemem b <= boot_freemem b' <= boot_freemem b + n * 8192 /\
  forall x, 0 <= x -> mapped_dmap D' x = mapped_dmap D x || ((s <=? x) && (x <? e)).

Ltac on_key := unfold tab, word, upd in *; repeat (cbn in *; match goal with
  | |- context [?a =? ?b] => destruct (Z.eqb_spec a b); subst
  | H : context [?a =? ?b] |- _ => destruct (Z.eqb_spec a b); subst
  | H : context [match ?D ?i with N1 => _ | Blk1 => _ | Tab1 _ _ => _ end] |- _ => destruct (D i) eqn:?; subst
  | |- context [match ?D ?i with N1 => _ | Blk1 => _ | Tab1 _ _ => _ end] => destruct (D i) eqn:?; subst
  end); simplify_eq.

Ltac by_key := on_key; try done; repeat match goal with
  | H : context [match ?g ?j with N2 => _ | Blk2 => _ | Tab2 _ _ => _ end] |- _ => destruct (g j) eqn:?
  | |- context [match ?g ?j with N2 => _ | Blk2 => _ | Tab2 _ _ => _ end] => destruct (g j) eqn:?
  end; simplify_eq; try done.

Lemma dmap_l2_spec lo b D pa : binv lo b D -> 2 ^ 30 <= pa < 511 * 2 ^ 30 -> D (pa / 2 ^ 30) <> Blk1 -> boot_freemem b + 4096 <= 2 ^ 48 ->
  exists b' D' p g, dmap_l2 sy b pa = Ret (b', p) /\ binv lo b' D' /\ D' (pa / 2 ^ 30) = Tab1 p g /\ boot_freemem b <= boot_freemem b' <= boot_freemem b + 4096 /\
    forall x, 0 <= x -> mapped_dmap D' x = mapped_dmap D x.
Proof.
  intros I Hpa Hb Hf. destruct (dmap_index pa Hpa) as (E1 & _ & _ & Hi & _). unfold dmap_l2. rewrite E1. set (i := pa / 2 ^ 30) in *.
  unfold KSTACK_WINDOW_L1. destruct (Z.eqb_spec i 0), (Z.eqb_spec i 511); try lia. cbn [orb]. unfold l1_slot.
  assert (Ew : forall b D, binv lo b D -> bw b (l1_table sy + 8 * i) = match D i with N1 => 0 | Blk1 => Z.lor (i * 2 ^ 30) BLOCK_NORMAL | Tab1 b _ => tdesc b end).
  { intros b0 D0 I0. rewrite (d_rep _ _ _ I0 K1 _ i eq_refl) by lia. cbn [word]. destruct (Z.eqb_spec i 0), (Z.eqb_spec i 511); try lia; done. }
  assert (Ht : forall b D p g, binv lo b D -> D i = Tab1 p g -> PTE_ADDR (tdesc p) = p /\ valid (tdesc p) = true).
  { intros b0 D0 p g I0 E. destruct (d_tab _ _ _ I0 (K2 i) p) as (? & ? & ?); [cbn; by rewrite E |]. destruct (d_free _ _ _ I0). destruct (tdesc_fields p) as (? & ? & _); try done; lia. }
  rewrite (Ew b D I). destruct (D i) as [| | p g] eqn:ED.
  - change (valid 0) with false. cbn [negb]. destruct (binv_pgtable lo b D I Hf) as (b1 & -> & I1 & Hf1 & Hq0 & Hqal & Hnew & Hz). set (q := boot_freemem b) in *.
    set (D' := D.[i <- Tab1 q (fun _ => N2)]).
    assert (I2 : binv lo (bstore b1 (l1_table sy + 8 * i) (tdesc q)) D').
    { apply (binv_link lo b1 D D' K1 (l1_table sy) i (K2 i) q); try done; try lia.
      - cbn. unfold D'. rewrite upd_eq. destruct (Z.eqb_spec i 0), (Z.eqb_spec i 511); try lia; done.
      - intros y r Hy. unfold D' in Hy. destruct y as [| | | | i' | i' j]; try (by right); on_key; auto.
      - intros m Hm. unfold D'. on_key; done.
      - intros y r m Hy Hm Hne. unfold D'. destruct y as [| | | | i' | i' j]; try done; on_key; done. }
    exists (bstore b1 (l1_table sy + 8 * i) (tdesc q)), D', q, (fun _ => N2).
    assert (ED' : D' i = Tab1 q (fun _ => N2)) by (unfold D'; by rewrite upd_eq).
    split; [| split; [exact I2 |]; split; [exact ED' |]; split; [cbn [bstore boot_freemem]; lia |]].
    + change (Z.lor (Z.lor q PTE_VALID) PTE_TABLE) with (tdesc q). rewrite (Ew _ _ I2), ED'. by destruct (Ht _ _ _ _ I2 ED') as [-> _].
    + intros x Hx. unfold mapped_dmap, D', upd. destruct (Z.eqb_spec (x / 2 ^ 30) i) as [-> |]; [by rewrite ED | done].
  - done.
  - destruct (Ht _ _ _ _ I ED) as [Ea Ev]. rewrite Ev. cbn [negb]. exists b, D, p, g. rewrite (Ew _ _ I), ED, Ea. split_and!; try done; lia.
Qed.

Lemma in_block pa k x : 0 <= k -> pa mod 2 ^ k = 0 -> (pa <=? x) && (x <? pa + 2 ^ k) = (x / 2 ^ k =? pa / 2 ^ k).
Proof.
  intros Hk Hal. assert (Hp : 0 < 2 ^ k) by (by apply Z.pow_pos_nonneg). set (u := 2 ^ k) in *. clearbody u.
  destruct (Z.leb_spec pa x), (Z.ltb_spec x (pa + u)), (Z.eqb_spec (x / u) (pa / u)) as [E | E]; try done; exfalso.
  - apply E. assert (pa = u * (pa / u)) by (rewrite (Z.div_mod pa u) at 1; lia). symmetry. apply (Z.div_unique x u (pa / u) (x - pa)); lia.
  - assert (pa = u * (pa / u)) by (rewrite (Z.div_mod pa u) at 1; lia). pose proof (Z.mod_pos_bound x u Hp). pose proof (Z.div_mod x u). nia.
  - assert (pa = u * (pa / u)) by (rewrite (Z.div_mod pa u) at 1; lia). pose proof (Z.mod_pos_bound x u Hp). pose proof (Z.div_mod x u). nia.
  - lia.
Qed.

Lemma unmapped_entry_at D pa : mapped_dmap D pa = false -> D (pa / 2 ^ 30) <> Blk1 /\ forall p g, D (pa / 2 ^ 30) = Tab1 p g -> g (pa / 2 ^ 21 mod 512) <> Blk2.
Proof. unfold mapped_dmap. intros Hm. split; [by intros E; rewrite E in Hm |]. intros p g E E'. by rewrite E, E' in Hm. Qed.

Lemma l2_word lo b D i p g j : binv lo b D -> D i = Tab1 p g -> 0 <= j < 512 ->
  bw b (p + 8 * j) = match g j with N2 => 0 | Blk2 => Z.lor ((512 * i + j) * 2 ^ 21) BLOCK_NORMAL | Tab2 c _ => tdesc c end.
Proof. intros I E Hj. rewrite (d_rep _ _ _ I (K2 i) p j); [cbn; by rewrite E | cbn; by rewrite E | done]. Qed.

Lemma l3_fields lo b D i p g j c f : binv lo b D -> D i = Tab1 p g -> g j = Tab2 c f -> PTE_ADDR (tdesc c) = c /\ valid (tdesc c) = true.
Proof.
  intros I E Ej. destruct (d_tab _ _ _ I (K3 i j) c) as (? & ? & ?); [cbn; by rewrite E, Ej |]. destruct (d_free _ _ _ I).
  destruct (tdesc_fields c) as (? & ? & _); try done; lia.
Qed.

(** dmap_page finds or makes the level 3 table. *)
Lemma dmap_l3_spec lo b D i p g j : binv lo b D -> D i = Tab1 p g -> 0 <= j < 512 -> g j <> Blk2 -> boot_freemem b + 4096 <= 2 ^ 48 ->
  let e := p + 8 * j in
  let b' := if negb (valid (bw b e)) then let '(b, l3) := boot_pgtable b in bstore b e (tdesc l3) else b in
  exists D' g' c f, D' i = Tab1 p g' /\ g' j = Tab2 c f /\ PTE_ADDR (bw b' e) = c /\ binv lo b' D' /\ boot_freemem b <= boot_freemem b' <= boot_freemem b + 4096 /\
    forall x, 0 <= x -> mapped_dmap D' x = mapped_dmap D x.
Proof.
  intros I ED Hj Hb Hf e. unfold e. rewrite (l2_word lo b D i p g j I ED Hj). destruct (g j) as [| | c f] eqn:Ej; [| done |].
  - change (valid 0) with false. cbn [negb]. destruct (binv_pgtable lo b D I Hf) as (b1 & -> & I1 & Hf1 & Hq0 & Hqal & Hnew & Hz). set (q := boot_freemem b) in *.
    set (g' := g.[j <- Tab2 q (fun _ => false)]). set (D' := D.[i <- Tab1 p g']).
    assert (ED' : D' i = Tab1 p g') by (unfold D'; by rewrite upd_eq). assert (Ej' : g' j = Tab2 q (fun _ => false)) by (unfold g'; by rewrite upd_eq).
    assert (I2 : binv lo (bstore b1 (p + 8 * j) (tdesc q)) D').
    { apply (binv_link lo b1 D D' (K2 i) p j (K3 i j) q); try done; try lia.
      - cbn. by rewrite ED.
      - cbn. by rewrite ED'.
      - cbn. by rewrite ED', Ej'.
      - intros y r Hy. unfold D', g' in Hy. destruct y as [| | | | i' | i' j']; try (by right); on_key; auto; right; by rewrite ?ED.
      - intros m Hm. cbn. by rewrite ED', Ej'.
      - intros y r m Hy Hm Hne. unfold D', g'. destruct y as [| | | | i' | i' j']; try done; by_key. }
    exists D', g', q, (fun _ => false). split; [done |]. split; [done |]. split; [| split; [done |]; split; [cbn [bstore boot_freemem]; lia |]].
    + rewrite (l2_word lo _ D' i p g' j I2 ED' Hj), Ej'. by destruct (l3_fields lo _ D' i p g' j q _ I2 ED' Ej').
    + intros x Hx. unfold mapped_dmap, D', g', upd. destruct (Z.eqb_spec (x / 2 ^ 30) i) as [-> |]; [rewrite ED | done].
      by destruct (Z.eqb_spec (x / 2 ^ 21 mod 512) j) as [-> |]; [rewrite Ej |].
  - destruct (l3_fields lo b D i p g j c f I ED Ej) as [Ea Ev]. rewrite Ev. cbn [negb]. exists D, g, c, f. rewrite (l2_word lo b D i p g j I ED Hj), Ej, Ea. split_and!; try done; lia.
Qed.

Lemma dmap_page_spec lo b D pa : binv lo b D -> 2 ^ 30 <= pa < 511 * 2 ^ 30 -> pa mod 4096 = 0 -> mapped_dmap D pa = false -> boot_freemem b + 8192 <= 2 ^ 48 ->
  exists b' D', dmap_page sy b pa = Ret b' /\ more lo 1 b D b' D' pa (pa + 4096).
Proof.
  intros I Hpa Hal Hun Hf. destruct (dmap_index pa Hpa) as (_ & E2 & E3 & Hi & Ej & Ek). destruct (unmapped_entry_at D pa Hun) as [Hb1 _]. unfold dmap_page. rewrite E2, E3.
  destruct (dmap_l2_spec lo b D pa I Hpa Hb1 ltac:(lia)) as (b1 & D1 & p & g & -> & I1 & ED1 & Hf1 & Hm1). cbn [mbind res_bind].
  destruct (unmapped_entry_at D1 pa ltac:(rewrite Hm1; [done | lia])) as [_ Hb2].
  set (i := pa / 2 ^ 30) in *. set (j := pa / 2 ^ 21 mod 512) in *. set (k := pa / 4096 mod 512) in *.
  assert (Hj : 0 <= j < 512) by (apply Z.mod_pos_bound; lia). assert (Hk : 0 <= k < 512) by (apply Z.mod_pos_bound; lia).
  destruct (dmap_l3_spec lo b1 D1 i p g j I1 ED1 Hj (Hb2 p g ED1) ltac:(lia)) as (D2 & g2 & c & f & ED2 & Ej2 & Ec & I2 & Hf2 & Hm2).
  change (Z.lor (Z.lor ?l PTE_VALID) PTE_TABLE) with (tdesc l). set (b2 := if negb _ then _ else _) in *. change (PTE_ADDR (bw b2 (p + 8 * j)) = c) in Ec. rewrite Ec.
  set (D3 := D2.[i <- Tab1 p g2.[j <- Tab2 c f.[k <- true]]]). eexists _, D3. split; [reflexivity |]. split; [| split].
  - apply (binv_store lo b2 D2 D3 (K3 i j) c k); try done.
    + cbn. by rewrite ED2, Ej2.
    + cbn. unfold D3. by rewrite !upd_eq.
    + cbn. unfold D3. rewrite !upd_eq. f_equal. rewrite <- Ej, <- Ek. Z.div_mod_to_equations. lia.
    + intros y q Hy. unfold D3 in Hy. destruct y as [| | | | i' | i' j']; try done; by_key.
    + intros y q m Hy Hm Hne. unfold D3. destruct y as [| | | | i' | i' j']; try done; by_key.
  - cbn [bstore boot_freemem]. lia.
  - intros x Hx. change 4096 with (2 ^ 12) at 1. rewrite (in_block pa 12 x ltac:(lia) Hal), <- Hm1, <- Hm2 by done. unfold mapped_dmap, D3, upd.
    destruct (Z.eqb_spec (x / 2 ^ 12) (pa / 2 ^ 12)) as [Ex | Ex].
    + change (2 ^ 12) with 4096 in Ex. assert (x / 2 ^ 30 = i) as -> by (unfold i; Z.div_mod_to_equations; lia). rewrite Z.eqb_refl.
      assert (x / 2 ^ 21 mod 512 = j) as -> by (unfold j; Z.div_mod_to_equations; lia). rewrite Z.eqb_refl, Ex. fold k. rewrite Z.eqb_refl. by rewrite orb_true_r.
    + rewrite orb_false_r. destruct (Z.eqb_spec (x / 2 ^ 30) i) as [Exi |]; [rewrite Exi, ED2 | done]. destruct (Z.eqb_spec (x / 2 ^ 21 mod 512) j) as [Exj |]; [rewrite Exj, Ej2 | done].
      destruct (Z.eqb_spec (x / 4096 mod 512) k) as [Exk |]; [| done]. exfalso. apply Ex. change (2 ^ 12) with 4096. unfold i, j, k in *. clear - Exi Exj Exk. Z.div_mod_to_equations. lia.
Qed.

Lemma dmap_block_2m_spec lo b D pa : binv lo b D -> 2 ^ 30 <= pa < 511 * 2 ^ 30 -> pa mod 2 ^ 21 = 0 -> mapped_dmap D pa = false -> boot_freemem b + 8192 <= 2 ^ 48 ->
  exists b' D', dmap_block_2m sy b pa = Ret b' /\ more lo 1 b D b' D' pa (pa + 2 ^ 21).
Proof.
  intros I Hpa Hal Hun Hf. destruct (dmap_index pa Hpa) as (_ & E2 & _ & Hi & Ej & _). destruct (unmapped_entry_at D pa Hun) as [Hb1 _]. unfold dmap_block_2m. rewrite E2.
  destruct (dmap_l2_spec lo b D pa I Hpa Hb1 ltac:(lia)) as (b1 & D1 & p & g & -> & I1 & ED1 & Hf1 & Hm1). cbn [mbind res_bind].
  set (i := pa / 2 ^ 30) in *. set (j := pa / 2 ^ 21 mod 512) in *. assert (Hj : 0 <= j < 512) by (apply Z.mod_pos_bound; lia).
  set (D2 := D1.[i <- Tab1 p g.[j <- Blk2]]). eexists _, D2. split; [reflexivity |]. split; [| split].
  - apply (binv_store lo b1 D1 D2 (K2 i) p j); try done.
    + cbn. by rewrite ED1.
    + cbn. unfold D2. by rewrite !upd_eq.
    + cbn. unfold D2. rewrite !upd_eq. f_equal. rewrite <- Ej. clear - Hal. Z.div_mod_to_equations. lia.
    + intros y q Hy. unfold D2 in Hy. destruct y as [| | | | i' | i' j']; try done; by_key.
    + intros y q m Hy Hm Hne. unfold D2 in *. destruct y as [| | | | i' | i' j']; try done; by_key.
  - cbn [bstore boot_freemem]. lia.
  - intros x Hx. rewrite (in_block pa 21 x ltac:(lia) Hal), <- Hm1 by done. unfold mapped_dmap, D2, upd.
    destruct (Z.eqb_spec (x / 2 ^ 21) (pa / 2 ^ 21)) as [Ex | Ex].
    + assert (x / 2 ^ 30 = i) as -> by (unfold i; clear - Ex; Z.div_mod_to_equations; lia). rewrite Z.eqb_refl, Ex. fold j. rewrite Z.eqb_refl. by rewrite orb_true_r.
    + rewrite orb_false_r. destruct (Z.eqb_spec (x / 2 ^ 30) i) as [Exi |]; [rewrite Exi, ED1 | done]. destruct (Z.eqb_spec (x / 2 ^ 21 mod 512) j) as [Exj |]; [| done].
      exfalso. apply Ex. unfold i, j in *. clear - Exi Exj. Z.div_mod_to_equations. lia.
Qed.

Lemma dmap_block_1g_spec lo b D pa : binv lo b D -> 2 ^ 30 <= pa < 511 * 2 ^ 30 -> pa mod 2 ^ 30 = 0 -> 
  exists b' D', dmap_block_1g sy b pa = Ret b' /\ more lo 1 b D b' D' pa (pa + 2 ^ 30).
Proof.
  intros I Hpa Hal. destruct (dmap_index pa Hpa) as (E1 & _ & _ & Hi & _). unfold dmap_block_1g. rewrite E1. set (i := pa / 2 ^ 30) in *.
  unfold KSTACK_WINDOW_L1. destruct (Z.eqb_spec i 0), (Z.eqb_spec i 511); try lia. cbn [orb]. unfold l1_slot.
  set (D2 := D.[i <- Blk1]). eexists _, D2. split; [reflexivity |]. split; [| split].
  - apply (binv_store lo b D D2 K1 (l1_table sy) i); try done; try lia.
    + cbn. unfold D2. rewrite !upd_eq. destruct (Z.eqb_spec i 0), (Z.eqb_spec i 511); try lia. f_equal. unfold i. clear - Hal. Z.div_mod_to_equations. lia.
    + intros y q Hy. unfold D2 in Hy. destruct y as [| | | | i' | i' j']; try done; on_key; done.
    + intros y q m Hy Hm Hne. unfold D2 in *. destruct y as [| | | | i' | i' j']; try done; on_key; done.
  - cbn [bstore boot_freemem]. lia.
  - intros x Hx. rewrite (in_block pa 30 x ltac:(lia) Hal). fold i. unfold mapped_dmap, D2, upd.
    destruct (Z.eqb_spec (x / 2 ^ 30) i) as [Ex | Ex]; [by rewrite orb_true_r | by rewrite orb_false_r].
Qed.

(** *** The loops *)

Lemma more_refl lo n b D s : 0 <= n -> binv lo b D -> more lo n b D b D s s.
Proof.
  intros Hn I. split; [done |]. split; [lia |]. intros x _. destruct (Z.leb_spec s x), (Z.ltb_spec x s); cbn; try lia; by rewrite orb_false_r.
Qed.

Lemma more_trans lo n1 n2 n b D b1 D1 b2 D2 s m e : s <= m <= e -> n1 + n2 <= n -> more lo n1 b D b1 D1 s m -> more lo n2 b1 D1 b2 D2 m e -> more lo n b D b2 D2 s e.
Proof.
  intros Hm Hn (_ & Hf1 & H1) (I2 & Hf2 & H2). split; [done |]. split; [lia |]. intros x Hx. rewrite H2, H1 by done.
  destruct (mapped_dmap D x), (Z.leb_spec s x), (Z.ltb_spec x m), (Z.leb_spec m x), (Z.ltb_spec x e); cbn; try lia; done.
Qed.

Lemma dmap_loop_spec lo cond op step e (P : Z -> Prop) : 0 < step -> e < 2 ^ 63 ->
  (forall b D pa, binv lo b D -> cond pa = true -> P pa -> mapped_dmap D pa = false -> boot_freemem b + 8192 <= 2 ^ 48 ->
    exists b' D', op b pa = Ret b' /\ more lo 1 b D b' D' pa (pa + step)) ->
  (forall pa, cond pa = true -> P pa -> P (pa + step) /\ 0 <= pa /\ pa + step <= e) ->
  forall n b D pa, binv lo b D -> P pa -> (forall x, pa <= x < e -> mapped_dmap D x = false) -> boot_freemem b + Z.of_nat n * 8192 <= 2 ^ 48 ->
  exists b' D' m, dmap_loop n cond op step b pa = Ret (b', pa + m * step) /\ 0 <= m <= Z.of_nat n /\ more lo (Z.of_nat n) b D b' D' pa (pa + m * step) /\ P (pa + m * step) /\
    (forall i, 0 <= i < m -> cond (pa + i * step) = true) /\ (m < Z.of_nat n -> cond (pa + m * step) = false).
Proof.
  intros Hs He Hop HP. induction n as [| n IH]; intros b D pa I Hpa Hun Hf; cbn [dmap_loop].
  - exists b, D, 0. rewrite Z.mul_0_l, Z.add_0_r. split_and!; try done; try lia. by apply more_refl.
  - destruct (cond pa) eqn:Ec.
    + destruct (HP pa Ec Hpa) as (Hp' & H0 & H1). destruct (Hop b D pa I Ec Hpa ltac:(apply Hun; lia) ltac:(lia)) as (b1 & D1 & E1 & M1). rewrite E1. cbn [mbind res_bind].
      rewrite u64_small by lia. pose proof M1 as (I1 & Hf1 & Hm1).
      destruct (IH b1 D1 (pa + step) I1 Hp') as (b2 & D2 & m & E2 & Hm & M2 & Hp2 & Hall & Hend).
      { intros x Hx. rewrite Hm1, Hun by lia. destruct (Z.ltb_spec x (pa + step)); [lia |]. by rewrite andb_false_r. }
      { lia. }
      exists b2, D2, (m + 1). replace (pa + (m + 1) * step) with (pa + step + m * step) by lia. split_and!; try done; try lia.
      * apply (more_trans lo 1 (Z.of_nat n) _ b D b1 D1 b2 D2 pa (pa + step)); try done; try lia.
      * intros i Hi. destruct (decide (i = 0)) as [-> | Hne]; [by rewrite Z.mul_0_l, Z.add_0_r |].
        replace (pa + i * step) with (pa + step + (i - 1) * step) by lia. apply Hall. lia.
      * intros Hlt. apply Hend. lia.
    + exists b, D, 0. rewrite Z.mul_0_l, Z.add_0_r. split_and!; try done; try lia. apply more_refl; [lia | done].
Qed.

Lemma land_low pa k : 0 <= k -> Z.land pa (Z.shiftl 1 k - 1) = pa mod 2 ^ k.
Proof. intros Hk. rewrite Z.shiftl_1_l, Z.sub_1_r, <- Z.ones_equiv. by apply Z.land_ones. Qed.

Definition page_in (s e pa : Z) : Prop := s <= pa <= e /\ pa mod 4096 = 0.
Definition big_in (s e pa : Z) : Prop := page_in s e pa /\ (pa = e \/ pa mod 2 ^ 21 = 0).

(** A phase of [dmap_bank] goes on from where the one before stopped. *)
Definition phase (lo : Z) (b : boot) D (s e : Z) (n : Z) (P : Z -> Prop) (r : res (boot * Z)) (Q : Z -> Prop) : Prop :=
  exists b' D' pa', r = Ret (b', pa') /\ more lo n b D b' D' s pa' /\ P pa' /\ Q pa'.

Lemma head_phase lo b D s e : binv lo b D -> 2 ^ 30 <= s <= e -> e <= 511 * 2 ^ 30 -> s mod 4096 = 0 -> e mod 4096 = 0 ->
  (forall x, s <= x < e -> mapped_dmap D x = false) -> boot_freemem b + 512 * 8192 <= 2 ^ 48 ->
  phase lo b D s e 512 (page_in s e) (dmap_loop 512 (fun pa => (pa <? e) && negb (Z.land pa (2 ^ 21 - 1) =? 0)) (dmap_page sy) 4096 b s) (fun pa => pa = e \/ pa mod 2 ^ 21 = 0).
Proof.
  intros I Hs He Hsal Heal Hun Hf.
  destruct (dmap_loop_spec lo (fun pa => (pa <? e) && negb (Z.land pa (2 ^ 21 - 1) =? 0)) (dmap_page sy) 4096 e (page_in s e) ltac:(lia) ltac:(lia)) with (n := 512%nat) (b := b) (D := D) (pa := s)
    as (b1 & D1 & m1 & E & Hm1 & M1 & P1 & Hall & Hend); try done.
  - intros b0 D0 pa I0 Hc [Hr Ha] Hu Hf0. zbool. apply dmap_page_spec; try done; lia.
  - intros pa Hc [Hr Ha]. zbool. unfold page_in. split_and!; try lia; Z.div_mod_to_equations; lia.
  - split; [lia | done].
  - exists b1, D1, (s + m1 * 4096). split; [done |]. split; [done |]. split; [done |]. destruct (decide (m1 = 512)) as [-> | Hne].
    + exfalso. specialize (Hall ((- (s / 4096)) mod 512) ltac:(Z.div_mod_to_equations; lia)). zbool. change (2 ^ 21 - 1) with (Z.shiftl 1 21 - 1) in *.
      rewrite land_low in * by lia. change (2 ^ 21) with 2097152 in *. Z.div_mod_to_equations. lia.
    + specialize (Hend ltac:(lia)). change (2 ^ 21 - 1) with (Z.shiftl 1 21 - 1) in *. rewrite land_low in Hend by lia. destruct P1. zbool. destruct Hend as [Hend | Hend]; zbool; [left; lia | by right].
Qed.

Lemma block_phase lo b D s e k (cond : Z -> bool) : (k = 21 \/ k = 30) -> binv lo b D -> 2 ^ 30 <= s <= e -> e <= 511 * 2 ^ 30 -> big_in s e s ->
  (forall pa, big_in s e pa -> pa mod 2 ^ k = s mod 2 ^ k -> cond pa = true -> pa + 2 ^ k <= e /\ pa mod 2 ^ k = 0) ->
  (forall x, s <= x < e -> mapped_dmap D x = false) -> boot_freemem b + 512 * 8192 <= 2 ^ 48 ->
  let op := if k =? 21 then dmap_block_2m sy else dmap_block_1g sy in
  exists b' D' m, dmap_loop 512 cond op (2 ^ k) b s = Ret (b', s + m * 2 ^ k) /\ 0 <= m <= 512 /\ more lo 512 b D b' D' s (s + m * 2 ^ k) /\ big_in s e (s + m * 2 ^ k) /\
    (forall i, 0 <= i < m -> cond (s + i * 2 ^ k) = true) /\ (m < 512 -> cond (s + m * 2 ^ k) = false).
Proof.
  intros Hk I Hs He Hb Hc Hun Hf op. assert (Hp : 0 < 2 ^ k) by (apply Z.pow_pos_nonneg; lia).
  destruct (dmap_loop_spec lo cond op (2 ^ k) e (fun pa => big_in s e pa /\ pa mod 2 ^ k = s mod 2 ^ k) Hp ltac:(lia)) with (n := 512%nat) (b := b) (D := D) (pa := s)
    as (b1 & D1 & m1 & E & Hm1 & M1 & [P1 _] & Hall & Hend); try done.
  - intros b0 D0 pa I0 Hcp [Hbp Hmod] Hu Hf0. destruct (Hc pa Hbp Hmod Hcp) as [Hle Hal]. destruct Hbp as [[Hr _] _]. unfold op. destruct Hk as [-> | ->]; cbn [Z.eqb Pos.eqb];
      [apply dmap_block_2m_spec | apply dmap_block_1g_spec]; try done; lia.
  - intros pa Hcp [Hbp Hmod]. destruct (Hc pa Hbp Hmod Hcp) as [Hle Hal]. destruct Hbp as [[Hr Ha] Hb2]. split; [| lia]. unfold big_in, page_in.
    split; [split; [split; [lia |] | right] |]; destruct Hk as [-> | ->]; Z.div_mod_to_equations; lia.
  - exists b1, D1, m1. done.
Qed.

Lemma tail_phase lo b D s e : binv lo b D -> 2 ^ 30 <= s <= e -> e <= 511 * 2 ^ 30 -> s mod 4096 = 0 -> e mod 4096 = 0 -> e < s + 2 ^ 21 ->
  (forall x, s <= x < e -> mapped_dmap D x = false) -> boot_freemem b + 512 * 8192 <= 2 ^ 48 ->
  phase lo b D s e 512 (page_in s e) (dmap_loop 512 (fun pa => pa <? e) (dmap_page sy) 4096 b s) (fun pa => pa = e).
Proof.
  intros I Hs He Hsal Heal Hlt Hun Hf.
  destruct (dmap_loop_spec lo (fun pa => pa <? e) (dmap_page sy) 4096 e (page_in s e) ltac:(lia) ltac:(lia)) with (n := 512%nat) (b := b) (D := D) (pa := s)
    as (b1 & D1 & m1 & E & Hm1 & M1 & P1 & Hall & Hend); try done.
  - intros b0 D0 pa I0 Hc [Hr Ha] Hu Hf0. zbool. apply dmap_page_spec; try done; lia.
  - intros pa Hc [Hr Ha]. zbool. unfold page_in. split_and!; try lia; Z.div_mod_to_equations; lia.
  - split; [lia | done].
  - exists b1, D1, (s + m1 * 4096). split; [done |]. split; [done |]. split; [done |]. destruct (decide (m1 = 512)) as [-> | Hne]; [destruct P1; lia |].
    specialize (Hend ltac:(lia)). destruct P1. zbool. lia.
Qed.

(** The three phases in the middle. *)
Lemma mid_phases lo b D s e : binv lo b D -> 2 ^ 30 <= s <= e -> e <= 511 * 2 ^ 30 -> big_in s e s ->
  (forall x, s <= x < e -> mapped_dmap D x = false) -> boot_freemem b + 1536 * 8192 <= 2 ^ 48 ->
  exists b' D' pa', more lo 1536 b D b' D' s pa' /\ big_in s e pa' /\ e < pa' + 2 ^ 21 /\
   ('(b, pa) ← dmap_loop 512 (fun pa => (u64 (pa + 2 ^ 21) <=? e) && negb (Z.land pa (2 ^ 30 - 1) =? 0)) (dmap_block_2m sy) (2 ^ 21) b s;
    '(b, pa) ← dmap_loop 512 (fun pa => u64 (pa + 2 ^ 30) <=? e) (dmap_block_1g sy) (2 ^ 30) b pa;
    dmap_loop 512 (fun pa => u64 (pa + 2 ^ 21) <=? e) (dmap_block_2m sy) (2 ^ 21) b pa) = Ret (b', pa').
Proof.
  intros I Hs He Hb Hun Hf.
  assert (Hlow : forall pa, Z.land pa (2 ^ 30 - 1) = pa mod 2 ^ 30) by (intros pa; apply (land_low pa 30); lia).
  assert (Hadd : forall s' pa k, 2 ^ 30 <= s' -> big_in s' e pa -> k = 21 \/ k = 30 -> u64 (pa + 2 ^ k) = pa + 2 ^ k) by (intros s' pa k H1 [[H2 _] _] [-> | ->]; apply u64_small; lia).
  assert (Hun' : forall n b' D' m, more lo n b D b' D' s m -> s <= m -> forall x, m <= x < e -> mapped_dmap D' x = false).
  { intros n b' D' m (_ & _ & Hm') Hsm x Hx. rewrite Hm', Hun by lia. destruct (Z.ltb_spec x m); [lia |]. by rewrite andb_false_r. }
  destruct (block_phase lo b D s e 21 (fun pa => (u64 (pa + 2 ^ 21) <=? e) && negb (Z.land pa (2 ^ 30 - 1) =? 0)) ltac:(by left) I Hs He Hb) as (b1 & D1 & m1 & E1 & Hm1 & M1 & B1 & A1 & F1); try done; try lia.
  { intros pa Hp _ Hc. zbool. rewrite (Hadd s) in * by (done || lia || by left). split; [lia |]. destruct Hp as [? [-> | ?]]; [lia | done]. }
  cbn [Z.eqb Pos.eqb] in E1. rewrite E1. cbn [mbind res_bind]. set (p1 := s + m1 * 2 ^ 21) in *.
  assert (Q1 : e < p1 + 2 ^ 21 \/ p1 mod 2 ^ 30 = 0).
  { destruct (decide (m1 = 512)) as [-> | Hne].
    - exfalso. destruct Hb as [_ Hs2]. assert (Hs21 : s mod 2 ^ 21 = 0).
      { destruct Hs2 as [-> | ?]; [| done]. specialize (A1 0 ltac:(lia)). zbool. rewrite Z.mul_0_l, Z.add_0_r, u64_small in * by lia. lia. }
      specialize (A1 ((- (s / 2 ^ 21)) mod 512) ltac:(apply Z.mod_pos_bound; lia)). zbool. rewrite Hlow in *. change (2 ^ 21) with 2097152 in *. change (2 ^ 30) with 1073741824 in *.
      Z.div_mod_to_equations. lia.
    - specialize (F1 ltac:(lia)). rewrite Hlow, (Hadd s) in F1 by (done || lia || by left). zbool. destruct F1; zbool; [left; lia | by right]. }
  assert (Hsp1 : s <= p1 <= e) by apply B1. assert (Bp1 : big_in p1 e p1) by (destruct B1 as [[? ?] ?]; split; [split; [lia | done] | done]). pose proof M1 as (I1 & Hf1 & _).
  destruct (block_phase lo b1 D1 p1 e 30 (fun pa => u64 (pa + 2 ^ 30) <=? e) ltac:(by right) I1 ltac:(lia) He Bp1) as (b2 & D2 & m2 & E2 & Hm2 & M2 & B2 & A2 & F2); try done; try lia.
  { intros pa Hp Hmod Hc. zbool. rewrite (Hadd p1) in * by (done || lia || by right). split; [lia |]. rewrite Hmod. destruct Q1 as [Q1 | Q1]; [| done]. destruct Hp as [[Hp _] _]. lia. }
  { exact (Hun' _ _ _ _ M1 ltac:(lia)). }
  cbn [Z.eqb Pos.eqb] in E2. rewrite E2. cbn [mbind res_bind]. set (p2 := p1 + m2 * 2 ^ 30) in *. assert (Hsp2 : p1 <= p2 <= e) by apply B2.
  assert (Q2 : e < p2 + 2 ^ 30).
  { destruct (decide (m2 = 512)) as [-> | Hne]; [unfold p2 in *; lia |]. specialize (F2 ltac:(lia)). rewrite (Hadd p1) in F2 by (done || lia || by right). zbool. lia. }
  assert (Bp2 : big_in p2 e p2) by (destruct B2 as [[? ?] ?]; split; [split; [lia | done] | done]). pose proof M2 as (I2 & Hf2 & _).
  assert (M12 : more lo 1024 b D b2 D2 s p2) by (apply (more_trans lo 512 512 1024 b D b1 D1 b2 D2 s p1 p2); try done; lia).
  destruct (block_phase lo b2 D2 p2 e 21 (fun pa => u64 (pa + 2 ^ 21) <=? e) ltac:(by left) I2 ltac:(lia) He Bp2) as (b3 & D3 & m3 & E3 & Hm3 & M3 & B3 & A3 & F3); try done; try lia.
  { intros pa Hp _ Hc. zbool. rewrite (Hadd p2) in * by (done || lia || by left). split; [lia |]. destruct Hp as [? [-> | ?]]; [lia | done]. }
  { exact (Hun' _ _ _ _ M12 ltac:(lia)). }
  cbn [Z.eqb Pos.eqb] in E3. rewrite E3. exists b3, D3, (p2 + m3 * 2 ^ 21). assert (Hsp3 : p2 <= p2 + m3 * 2 ^ 21 <= e) by apply B3.
  split; [apply (more_trans lo 1024 512 1536 b D b2 D2 b3 D3 s p2); try done; lia |]. split; [destruct B3 as [[? ?] ?]; split; [split; [lia | done] | done] |]. split; [| done].
  destruct (decide (m3 = 512)) as [-> | Hne]; [lia |]. specialize (F3 ltac:(lia)). rewrite (Hadd p2) in F3 by (done || lia || by left). zbool. lia.
Qed.

Lemma dmap_bank_spec lo b D s e : binv lo b D -> 2 ^ 30 <= s <= e -> e <= 511 * 2 ^ 30 -> s mod 4096 = 0 -> e mod 4096 = 0 ->
  (forall x, s <= x < e -> mapped_dmap D x = false) -> boot_freemem b + 2560 * 8192 <= 2 ^ 48 ->
  exists b' D', dmap_bank sy b s e = Ret b' /\ more lo 2560 b D b' D' s e.
Proof.
  intros I Hs He Hsal Heal Hun Hf. unfold dmap_bank, PGSIZE. change BLOCK_SIZE_1G with (2 ^ 30). change BLOCK_SIZE_2M with (2 ^ 21).
  change (Z.shiftl KSTACK_WINDOW_L1 L1_SHIFT) with (511 * 2 ^ 30). rewrite Z.gtb_ltb. destruct (Z.ltb_spec s (2 ^ 30)), (Z.ltb_spec (511 * 2 ^ 30) e); try lia.
  assert (Hun' : forall n b' D' m, more lo n b D b' D' s m -> s <= m -> forall x, m <= x < e -> mapped_dmap D' x = false).
  { intros n b' D' m (_ & _ & Hm') Hsm x Hx. rewrite Hm', Hun by lia. destruct (Z.ltb_spec x m); [lia |]. by rewrite andb_false_r. }
  destruct (head_phase lo b D s e I Hs He Hsal Heal Hun ltac:(lia)) as (b1 & D1 & p1 & -> & M1 & [Hp1 Ha1] & Q1). cbn [mbind res_bind]. pose proof M1 as (I1 & Hf1 & _).
  destruct (mid_phases lo b1 D1 p1 e I1 ltac:(lia) He) as (b2 & D2 & p2 & M2 & [[Hp2 Ha2] _] & Q2 & E2); [split; [split; [lia | done] | done] | exact (Hun' _ _ _ _ M1 ltac:(lia)) | lia |].
  destruct (dmap_loop 512 _ (dmap_block_2m sy) (2 ^ 21) b1 p1) as [[b1a p1a] |]; cbn [mbind res_bind] in E2 |- *; [| done].
  destruct (dmap_loop 512 _ (dmap_block_1g sy) (2 ^ 30) b1a p1a) as [[b1b p1b] |]; cbn [mbind res_bind] in E2 |- *; [| done]. rewrite E2. cbn [mbind res_bind].
  pose proof M2 as (I2 & Hf2 & _). assert (M12 : more lo 2048 b D b2 D2 s p2) by (apply (more_trans lo 512 1536 2048 b D b1 D1 b2 D2 s p1 p2); try done; lia).
  destruct (tail_phase lo b2 D2 p2 e I2 ltac:(lia) He Ha2 Heal ltac:(lia)) as (b3 & D3 & p3 & -> & M3 & _ & ->); [exact (Hun' _ _ _ _ M12 ltac:(lia)) | lia |]. cbn [mbind res_bind].
  exists b3, D3. split; [done |]. apply (more_trans lo 2048 512 2560 b D b2 D2 b3 D3 s p2 e); try done; lia.
Qed.

Definition bank_ok (s : vm_phys_seg) : Prop := 2 ^ 30 <= seg_start s /\ seg_end s <= 511 * 2 ^ 30.

Definition in_segsb (l : list vm_phys_seg) (x : Z) : bool := existsb (fun s => (seg_start s <=? x) && (x <? seg_end s)) l.

Lemma dmap_banks_spec lo l : forall b D, binv lo b D -> segs_ok l -> Forall seg_aligned l -> Forall bank_ok l ->
  (forall x, in_segs l x -> mapped_dmap D x = false) -> boot_freemem b + Z.of_nat (length l) * (2560 * 8192) <= 2 ^ 48 ->
  exists b' D', dmap_banks sy b l = Ret b' /\ binv lo b' D' /\ boot_freemem b <= boot_freemem b' <= boot_freemem b + Z.of_nat (length l) * (2560 * 8192) /\
    forall x, 0 <= x -> mapped_dmap D' x = mapped_dmap D x || in_segsb l x.
Proof.
  induction l as [| s l IH]; intros b D I [Hsort Hseg] Hal Hok Hun Hf; cbn [dmap_banks].
  - exists b, D. split_and!; try done; try lia. intros x _. cbn. by rewrite orb_false_r.
  - inversion_clear Hsort as [| ? ? Hsort' Hbef]. inversion_clear Hseg as [| ? ? Hs Hseg']. inversion_clear Hal as [| ? ? Ha Hal']. inversion_clear Hok as [| ? ? Hb Hok'].
    destruct Ha as [Ha1 Ha2], Hb as [Hb1 Hb2]. unfold page_aligned in Ha1, Ha2. cbn [length] in Hf.
    destruct (dmap_bank_spec lo b D (seg_start s) (seg_end s) I ltac:(lia) Hb2 Ha1 Ha2) as (b1 & D1 & -> & I1 & Hf1 & Hm1); [| lia |].
    { intros x Hx. apply Hun. by left. }
    cbn [mbind res_bind]. destruct (IH b1 D1 I1 (conj Hsort' Hseg') Hal' Hok') as (b2 & D2 & -> & I2 & Hf2 & Hm2).
    + intros x Hx. assert (Hge : seg_end s <= x).
      { apply Exists_exists in Hx as (t & Ht & Hx). rewrite Forall_forall in Hbef. specialize (Hbef t Ht). unfold seg_before, in_seg in *. lia. }
      rewrite Hm1, (Hun x) by (lia || by right). destruct (Z.ltb_spec x (seg_end s)); [lia |]. by rewrite andb_false_r.
    + lia.
    + exists b2, D2. split; [done |]. split; [done |]. split; [cbn [length]; lia |]. intros x Hx. rewrite Hm2, Hm1 by done. cbn [in_segsb existsb]. by rewrite orb_assoc.
Qed.

Lemma in_segsb_spec l x : in_segsb l x = true <-> in_segs l x.
Proof.
  unfold in_segsb, in_segs. rewrite existsb_exists, Exists_exists. split; intros (s & Hs & H); exists s; (split; [by apply list_elem_of_In |]); unfold in_seg in *;
    [zbool; lia | apply andb_true_iff; rewrite Z.leb_le, Z.ltb_lt; lia].
Qed.

Lemma dmap_banks_bad l : forall b, ~ Forall bank_ok l -> Forall (fun s => 0 <= seg_start s < seg_end s) l -> exists m, dmap_banks sy b l = Panic m.
Proof.
  induction l as [| s l IH]; intros b Hbad Hl; [by destruct Hbad |]. cbn [dmap_banks]. inversion_clear Hl as [| ? ? Hs Hl'].
  destruct (decide (2 ^ 30 <= seg_start s /\ seg_end s <= 511 * 2 ^ 30)) as [Hok | Hno].
  - destruct (dmap_bank sy b (seg_start s) (seg_end s)) as [b1 | m]; cbn [mbind res_bind]; [| by exists m]. apply IH; [| done]. intros Hall. apply Hbad. by constructor.
  - unfold dmap_bank. change BLOCK_SIZE_1G with (2 ^ 30). change (Z.shiftl KSTACK_WINDOW_L1 L1_SHIFT) with (511 * 2 ^ 30). rewrite Z.gtb_ltb.
    destruct (Z.ltb_spec (seg_start s) (2 ^ 30)); [by eexists |]. destruct (Z.ltb_spec (511 * 2 ^ 30) (seg_end s)); [by eexists |]. exfalso. apply Hno. lia.
Qed.

(** *** The walk *)

Lemma kern_index n pa : 0 <= n <= 39 -> (KERN_BASE + pa) / 2 ^ n mod 512 = pa / 2 ^ n mod 512 /\ (KERN_BASE + pa) mod 2 ^ n = pa mod 2 ^ n.
Proof.
  intros Hn. replace (KERN_BASE + pa) with (pa + (65535 * 2 ^ (39 - n) * 512) * 2 ^ n).
  - assert (0 < 2 ^ n) by (apply Z.pow_pos_nonneg; lia). rewrite Z.div_add, !Z.mod_add by lia. done.
  - rewrite <- Z.mul_assoc, (Z.mul_comm 512), Z.mul_assoc, <- (Z.mul_assoc 65535), <- Z.pow_add_r by lia. replace (39 - n + n) with 39 by lia. unfold KERN_BASE. lia.
Qed.

Lemma kern_lookup pa : 0 <= pa < 2 ^ 48 -> let va := KERN_BASE + pa in
  L0X va = pa / 2 ^ 39 /\ L1X va = pa / 2 ^ 30 mod 512 /\ L2X va = pa / 2 ^ 21 mod 512 /\ L3X va = pa / 4096 mod 512 /\
  va mod 2 ^ 30 = pa mod 2 ^ 30 /\ va mod 2 ^ 21 = pa mod 2 ^ 21 /\ va mod 4096 = pa mod 4096.
Proof.
  intros Hpa va. unfold L0X, L1X, L2X, L3X, L0_SHIFT, L1_SHIFT, L2_SHIFT, L3_SHIFT, va. change (TABLE_ENTRIES - 1) with (Z.ones 9). rewrite !Z.land_ones, !Z.shiftr_div_pow2 by lia.
  change (2 ^ 9) with 512. change 4096 with (2 ^ 12). destruct (kern_index 39 pa), (kern_index 30 pa), (kern_index 21 pa), (kern_index 12 pa); try lia.
  split_and!; try done. transitivity (pa / 2 ^ 39 mod 512); [done |]. apply Z.mod_small. Z.div_mod_to_equations. lia.
Qed.

Lemma kwalk_dmap lo b D pa : binv lo b D -> 0 <= pa < 2 ^ 48 ->
  let r := kwalk (bw b) (l0_table sy) (KERN_BASE + pa) in
  if pa <? 2 ^ 30 then r = Some (pa, BLOCK_DEVICE)
  else if (pa <? 511 * 2 ^ 30) && mapped_dmap D pa then r = Some (pa, BLOCK_NORMAL) \/ r = Some (pa, PAGE_KERNEL)
  else r = None.
Proof.
  intros I Hpa r. destruct (d_free _ _ _ I) as [_ Hfr]. destruct (kern_lookup pa Hpa) as (E0 & E1 & E2 & E3 & F1 & F2 & F3).
  assert (Htd : forall x p, tab D x = Some p -> PTE_ADDR (tdesc p) = p /\ valid (tdesc p) = true /\ is_table (tdesc p) = true).
  { intros x p Hx. destruct (d_tab _ _ _ I x p Hx) as (? & ? & ?). apply tdesc_fields; try done; lia. }
  assert (H0 : valid 0 = false) by done.
  assert (Hj : 0 <= pa / 2 ^ 21 mod 512 < 512) by (apply Z.mod_pos_bound; lia). assert (Hk : 0 <= pa / 4096 mod 512 < 512) by (apply Z.mod_pos_bound; lia).
  unfold r, kwalk. cbv zeta. rewrite E0, E1, E2, E3, F1, F2, F3. clear r E0 E1 E2 E3 F1 F2 F3. rewrite (d_rep _ _ _ I K0 _ (pa / 2 ^ 39) eq_refl) by (Z.div_mod_to_equations; lia). cbn [word].
  destruct (Z.eqb_spec (pa / 2 ^ 39) 0) as [Z0 | Z0].
  2: { rewrite H0. cbn [andb negb]. destruct (Z.ltb_spec pa (2 ^ 30)); [Z.div_mod_to_equations; lia |]. by destruct (Z.ltb_spec pa (511 * 2 ^ 30)); [Z.div_mod_to_equations; lia |]. }
  destruct (Htd K1 _ eq_refl) as (-> & -> & ->). cbn [andb negb]. rewrite (Z.mod_small (pa / 2 ^ 30)) by (Z.div_mod_to_equations; lia).
  rewrite (d_rep _ _ _ I K1 _ (pa / 2 ^ 30) eq_refl) by (Z.div_mod_to_equations; lia). cbn [word].
  destruct (Z.ltb_spec pa (2 ^ 30)) as [Hd | Hd].
  - assert (pa / 2 ^ 30 = 0) as -> by (Z.div_mod_to_equations; lia). cbn [Z.eqb]. destruct (Htd KD _ eq_refl) as (-> & -> & ->). cbn [negb].
    rewrite (d_rep _ _ _ I KD _ (pa / 2 ^ 21 mod 512) eq_refl) by done. cbn [word]. rewrite (Z.mod_small (pa / 2 ^ 21)) by (Z.div_mod_to_equations; lia).
    destruct (desc_fields (pa / 2 ^ 21 * 2 ^ 21) BLOCK_DEVICE) as (-> & -> & -> & ->); [Z.div_mod_to_equations; lia | Z.div_mod_to_equations; lia | by vm_compute |].
    change (Z.testbit BLOCK_DEVICE 1) with false. cbn [negb]. do 2 f_equal. Z.div_mod_to_equations. lia.
  - destruct (Z.eqb_spec (pa / 2 ^ 30) 0); [Z.div_mod_to_equations; lia |]. destruct (Z.eqb_spec (pa / 2 ^ 30) 511) as [Ek | Ek].
    { destruct (Htd KS _ eq_refl) as (-> & -> & ->). cbn [negb]. rewrite (d_rep _ _ _ I KS _ (pa / 2 ^ 21 mod 512) eq_refl) by done. cbn [word]. rewrite H0. cbn [negb].
      by destruct (Z.ltb_spec pa (511 * 2 ^ 30)); [Z.div_mod_to_equations; lia |]. }
    destruct (Z.ltb_spec pa (511 * 2 ^ 30)); [| Z.div_mod_to_equations; lia]. cbn [andb]. unfold mapped_dmap. destruct (D (pa / 2 ^ 30)) as [| | p g] eqn:ED.
    + by rewrite H0.
    + destruct (desc_fields (pa / 2 ^ 30 * 2 ^ 30) BLOCK_NORMAL) as (-> & -> & -> & ->); [Z.div_mod_to_equations; lia | Z.div_mod_to_equations; lia | by vm_compute |].
      change (Z.testbit BLOCK_NORMAL 1) with false. cbn [negb]. left. do 2 f_equal. Z.div_mod_to_equations. lia.
    + destruct (Htd (K2 (pa / 2 ^ 30)) p) as (-> & -> & ->); [cbn; by rewrite ED |]. cbn [negb]. rewrite (l2_word lo b D _ p g _ I ED Hj).
      destruct (g (pa / 2 ^ 21 mod 512)) as [| | c f] eqn:Eg.
      * by rewrite H0.
      * replace (512 * (pa / 2 ^ 30) + pa / 2 ^ 21 mod 512) with (pa / 2 ^ 21) by (Z.div_mod_to_equations; lia).
        destruct (desc_fields (pa / 2 ^ 21 * 2 ^ 21) BLOCK_NORMAL) as (-> & -> & -> & ->); [Z.div_mod_to_equations; lia | Z.div_mod_to_equations; lia | by vm_compute |].
        change (Z.testbit BLOCK_NORMAL 1) with false. cbn [negb]. left. do 2 f_equal. Z.div_mod_to_equations. lia.
      * destruct (Htd (K3 (pa / 2 ^ 30) (pa / 2 ^ 21 mod 512)) c) as (-> & -> & ->); [cbn; by rewrite ED, Eg |]. cbn [negb].
        rewrite (d_rep _ _ _ I (K3 (pa / 2 ^ 30) (pa / 2 ^ 21 mod 512)) c _) by (done || cbn; by rewrite ED, Eg). cbn [word]. rewrite ED, Eg.
        destruct (f (pa / 4096 mod 512)); [| by rewrite H0].
        replace (512 * (512 * (pa / 2 ^ 30) + pa / 2 ^ 21 mod 512) + pa / 4096 mod 512) with (pa / 4096) by (clear; Z.div_mod_to_equations; lia).
        destruct (desc_fields (pa / 4096 * 4096) PAGE_KERNEL) as (-> & -> & -> & ->); [Z.div_mod_to_equations; lia | Z.div_mod_to_equations; lia | by vm_compute |].
        change (Z.testbit PAGE_KERNEL 1) with true. cbn [negb andb]. right. do 2 f_equal. Z.div_mod_to_equations. lia.
Qed.

(** *** kvminit *)

(** The linker script puts the static tables, page aligned, inside the image. *)
Record syms_ok : Prop := {
  y_text : 0 <= stext sy < end_ sy;
  y_end : end_ sy <= 2 ^ 40;
  y_tab : forall t, t ∈ [l0_table sy; l1_table sy; l2_device sy; l2_kstack sy] -> 0 <= t /\ t + 4096 <= end_ sy /\ t mod 4096 = 0;
  y_apart : NoDup [l0_table sy; l1_table sy; l2_device sy; l2_kstack sy]
}.

Lemma device_loop_spec n : forall b i, 0 <= i -> i + Z.of_nat n <= 512 ->
  boot_freemem (device_loop sy n b i) = boot_freemem b /\
  (forall m, 0 <= m < 512 -> bw (device_loop sy n b i) (l2_device sy + 8 * m) =
    if (i <=? m) && (m <? i + Z.of_nat n) then Z.lor (m * 2 ^ 21) BLOCK_DEVICE else bw b (l2_device sy + 8 * m)) /\
  (forall a, in_page (l2_device sy) a = false -> bw (device_loop sy n b i) a = bw b a).
Proof.
  induction n as [| n IH]; intros b i Hi Hn; cbn [device_loop].
  - split; [done |]. split; [| done]. intros m Hm. destruct (Z.leb_spec i m), (Z.ltb_spec m (i + Z.of_nat 0)); cbn; try lia; done.
  - destruct (IH (bstore b (l2_device sy + 8 * i) (Z.lor (Z.shiftl i L2_SHIFT) BLOCK_DEVICE)) (i + 1) ltac:(lia) ltac:(lia)) as (E1 & E2 & E3). split; [done |]. split.
    + intros m Hm. rewrite E2 by done. cbn [bstore bw]. unfold upd. unfold L2_SHIFT. rewrite Z.shiftl_mul_pow2 by lia.
      destruct (Z.leb_spec (i + 1) m), (Z.ltb_spec m (i + 1 + Z.of_nat n)), (Z.leb_spec i m), (Z.ltb_spec m (i + Z.of_nat (S n))), (Z.eqb_spec (l2_device sy + 8 * m) (l2_device sy + 8 * i));
        cbn [andb]; try lia; try done. by replace m with i by lia.
    + intros a Ha. rewrite E3 by done. cbn [bstore bw]. apply upd_ne. intros ->. rewrite in_page_slot in Ha by lia. done.
Qed.

Lemma binv_init n w : n = 512%nat -> syms_ok ->
  let b := Boot (zero_page (zero_page (zero_page (zero_page w (l0_table sy)) (l1_table sy)) (l2_device sy)) (l2_kstack sy)) (PGROUNDUP (end_ sy)) in
  let b := bstore b (l0_table sy + 8 * 0) (tdesc (l1_table sy)) in
  let b := bstore b (l1_slot sy 0) (tdesc (l2_device sy)) in
  let b := device_loop sy n b 0 in
  let b := bstore b (l1_slot sy 511) (tdesc (l2_kstack sy)) in
  binv (PGROUNDUP (end_ sy)) b (fun _ => N1) /\ boot_freemem b = PGROUNDUP (end_ sy) /\ end_ sy <= PGROUNDUP (end_ sy) <= 2 ^ 40 + 4096.
Proof.
  intros En Y b b1 b2 b3 b4. pose proof (y_end Y) as He. pose proof (y_text Y) as Ht.
  assert (Hup : PGROUNDUP (end_ sy) mod 4096 = 0 /\ end_ sy <= PGROUNDUP (end_ sy) <= 2 ^ 40 + 4096) by (rewrite PGROUNDUP_eq by lia; split; Z.div_mod_to_equations; lia).
  assert (Hfm : boot_freemem b4 = PGROUNDUP (end_ sy)) by (destruct (device_loop_spec n b2 0 ltac:(lia) ltac:(lia)) as (E & _); unfold b4; cbn [bstore boot_freemem]; unfold b3; rewrite E; reflexivity).
  assert (Htab : forall x p, tab (fun _ => N1) x = Some p -> p ∈ [l0_table sy; l1_table sy; l2_device sy; l2_kstack sy]) by (intros [] p; cbn; intros [= <-]; rewrite !elem_of_cons; auto 6).
  pose proof (y_apart Y) as Hnd. rewrite !NoDup_cons, !elem_of_cons in Hnd.
  assert (N01 : l0_table sy <> l1_table sy) by tauto. assert (N02 : l0_table sy <> l2_device sy) by tauto. assert (N03 : l0_table sy <> l2_kstack sy) by tauto.
  assert (N12 : l1_table sy <> l2_device sy) by tauto. assert (N13 : l1_table sy <> l2_kstack sy) by tauto. assert (N23 : l2_device sy <> l2_kstack sy) by tauto. clear Hnd.
  assert (Hal : forall t, t ∈ [l0_table sy; l1_table sy; l2_device sy; l2_kstack sy] -> t mod 4096 = 0) by (intros t Hx; by apply (y_tab Y)).
  assert (A0 : l0_table sy mod 4096 = 0) by (apply Hal; rewrite !elem_of_cons; auto 6). assert (A1 : l1_table sy mod 4096 = 0) by (apply Hal; rewrite !elem_of_cons; auto 6).
  assert (A2 : l2_device sy mod 4096 = 0) by (apply Hal; rewrite !elem_of_cons; auto 6). assert (A3 : l2_kstack sy mod 4096 = 0) by (apply Hal; rewrite !elem_of_cons; auto 6).
  assert (Hout : forall t t' m, t mod 4096 = 0 -> t' mod 4096 = 0 -> t <> t' -> 0 <= m < 512 -> in_page t (t' + 8 * m) = false).
  { intros t t' m H1 H2 H3 H4. destruct (in_page t (t' + 8 * m)) eqn:E; [| done]. destruct H3. apply (aligned_apart t t' (t' + 8 * m)); try done. by apply in_page_slot. }
  assert (Hne : forall t t' m m', t mod 4096 = 0 -> t' mod 4096 = 0 -> t <> t' -> 0 <= m < 512 -> 0 <= m' < 512 -> t + 8 * m <> t' + 8 * m').
  { intros t t' m m' H1 H2 H3 H4 H5 E. pose proof (Hout t' t m H2 H1 (not_eq_sym H3) H4) as Hf. rewrite E, in_page_slot in Hf by done. done. }
  destruct (device_loop_spec n b2 0 ltac:(lia) ltac:(lia)) as (_ & Edev & Eoth).
  split; [| split; [exact Hfm | apply Hup]]. split.
  - intros x p m Hx Hm. destruct x; cbn in Hx; try done; injection Hx as <-; unfold b4, l1_slot; cbn [bstore bw word].
    + rewrite upd_ne by (apply Hne; (done || lia)). rewrite Eoth by (apply Hout; done). unfold b2, b1, b, l1_slot. cbn [bstore bw]. rewrite upd_ne by (apply Hne; (done || lia)).
      destruct (Z.eqb_spec m 0) as [-> | Hm0]; [by rewrite upd_eq |]. rewrite upd_ne by lia. unfold zero_page. rewrite !Hout by done. by rewrite in_page_slot.
    + destruct (Z.eqb_spec m 511) as [-> | Hm1]; [by rewrite upd_eq |]. rewrite upd_ne by lia. rewrite Eoth by (apply Hout; done). unfold b2, b1, b, l1_slot. cbn [bstore bw].
      destruct (Z.eqb_spec m 0) as [-> | Hm0]; [by rewrite upd_eq |]. rewrite upd_ne by lia. rewrite upd_ne by (apply Hne; (done || lia)). unfold zero_page. rewrite !Hout by done. by rewrite in_page_slot.
    + rewrite upd_ne by (apply Hne; (done || lia)). unfold b3. rewrite Edev by done. destruct (Z.leb_spec 0 m), (Z.ltb_spec m (0 + Z.of_nat n)); cbn [andb]; try lia.
    + rewrite upd_ne by (apply Hne; (done || lia)). rewrite Eoth by (apply Hout; done). unfold b2, b1, b, l1_slot. cbn [bstore bw].
      rewrite !upd_ne by (apply Hne; (done || lia)). unfold zero_page. by rewrite in_page_slot.
  - intros x p Hx. destruct (y_tab Y p (Htab x p Hx)) as (? & ? & ?). rewrite Hfm. split; [done |]. split; [lia | done].
  - clear - N01 N02 N03 N12 N13 N23. intros x y p Hx Hy. destruct x, y; cbn in Hx, Hy; try done; congruence.
  - rewrite Hfm. clear - Hup. split; [apply Hup | lia].
Qed.
End proofs.

(** ** Theorem *)

(** C14: [kvminit] stops the kernel when a bank of RAM lies below 1 GB or reaches the stack
    window, and only then or when the table of exclusions is full. Otherwise the tables it
    builds translate the direct map exactly: device memory for the first gigabyte, each
    byte of RAM to itself as normal memory, through 4 KB, 2 MB and 1 GB entries, and
    nothing else; and the kernel image with every table it took is excluded from the RAM
    the allocator will be given. *)
Theorem kvminit_maps_exactly sy w pm : syms_ok sy -> physmem_ok pm ->
  exists segs, physmem_avail pm = Ret (Physmem (hwregions pm) (exregions pm) segs) /\
  match kvminit sy w pm with
  | Ret (b, pm') => Forall bank_ok segs /\
      (forall pa, 0 <= pa < 2 ^ 48 -> let r := kwalk (bw b) (l0_table sy) (KERN_BASE + pa) in
        if pa <? 2 ^ 30 then r = Some (pa, BLOCK_DEVICE)
        else if in_segsb segs pa then r = Some (pa, BLOCK_NORMAL) \/ r = Some (pa, PAGE_KERNEL)
        else r = None) /\
      physmem_ok pm' /\ hwregions pm' = hwregions pm /\ vm_phys_segs pm' = segs /\
      (forall x, 0 <= x -> in_regions (exregions pm') x <-> in_regions (exregions pm) x \/ stext sy / 4096 <= x / 4096 /\ x < boot_freemem b)
  | Panic _ => ~ Forall bank_ok segs \/ length (exregions pm) = MAX_EXCNT
  end.
Proof.
  intros Y Hpm. destruct (physmem_avail_spec pm Hpm) as (segs & E & Hok & Hal & Hlen & _). exists segs. split; [done |].
  unfold kvminit. change (Z.lor (Z.lor ?l PTE_VALID) PTE_TABLE) with (tdesc l). change (Z.to_nat TABLE_ENTRIES) with 512%nat. change KSTACK_WINDOW_L1 with 511.
  destruct (binv_init sy 512 w eq_refl Y) as (I & Hf & Hend). set (b0 := bstore (device_loop _ _ _ _) _ _) in *. rewrite E. cbn [mbind res_bind vm_phys_segs].
  destruct (decide (Forall (fun s => 2 ^ 30 <= seg_start s /\ seg_end s <= 511 * 2 ^ 30) segs)) as [Hb | Hb].
  2: { destruct (dmap_banks_bad sy segs b0 Hb) as [m ->]; [| by left]. destruct Hok as [_ Hok]. eapply Forall_impl; [exact Hok |]. cbn. tauto. }
  pose proof (y_text _ Y) as Htx. pose proof (y_end _ Y). unfold MAX_HWCNT, MAX_EXCNT in Hlen.
  destruct (dmap_banks_spec sy _ segs b0 (fun _ => N1) I Hok Hal Hb) as (b & D & -> & I' & Hf' & Hm); [done | rewrite Hf; lia |]. cbn [mbind res_bind].
  rewrite u64_small by lia. set (pm1 := Physmem _ _ _). assert (Hpm1 : physmem_ok pm1) by exact Hpm.
  pose proof (physmem_exclude_region_spec pm1 (stext sy) (boot_freemem b - stext sy) Hpm1 ltac:(lia) ltac:(lia) ltac:(lia)) as Hx.
  assert (Hsegs : forall pm2, physmem_exclude_region pm1 (stext sy) (boot_freemem b - stext sy) = Ret pm2 -> vm_phys_segs pm2 = segs).
  { intros pm2. unfold physmem_exclude_region. destruct (_ >=? _); [by intros [= <-] |]. destruct (insert_region _ _ _ _); [by intros [= <-] | done]. }
  destruct (physmem_exclude_region pm1 (stext sy) (boot_freemem b - stext sy)) as [pm2 | m]; cbn [mbind res_bind]; [| by right].
  destruct Hx as (Hx1 & Hx2 & Hx3). split; [done |]. split; [| split; [done |]; split; [done |]; split; [by apply Hsegs |]].
  - intros pa Hpa. pose proof (kwalk_dmap sy _ b D pa I' Hpa) as Hw. cbn zeta in Hw. rewrite Hm in Hw by lia. cbn [mapped_dmap orb] in Hw.
    destruct (pa <? 2 ^ 30); [done |]. destruct (in_segsb segs pa) eqn:Es; [| by rewrite andb_false_r in Hw].
    apply in_segsb_spec, Exists_exists in Es as (s & Hs & Hin). rewrite Forall_forall in Hb. destruct (Hb s Hs). unfold in_seg in Hin.
    destruct (Z.ltb_spec pa (511 * 2 ^ 30)); [done | lia].
  - intros x Hx0. rewrite (Hx3 x Hx0). destruct (d_free _ _ _ _ I') as [Hfal _].
    replace (stext sy + (boot_freemem b - stext sy)) with (boot_freemem b) by lia. cbn [pm1 exregions].
    assert (Hiff : (x / 4096 * 4096 < boot_freemem b /\ stext sy < x / 4096 * 4096 + 4096) <-> (stext sy / 4096 <= x / 4096 /\ x < boot_freemem b)) by (clear - Hfal Hx0; Z.div_mod_to_equations; lia).
    tauto.
Qed.

(** ** Witness *)

Definition demo_syms : ksyms := Ksyms 0x40080000 0x40180000 0x40100000 0x40101000 0x40102000 0x40103000.

Lemma demo_syms_ok : syms_ok demo_syms.
Proof.
  split; cbn; try lia.
  - intros t Ht. rewrite !elem_of_cons, elem_of_nil in Ht. by destruct Ht as [-> | [-> | [-> | [-> | []]]]].
  - apply (bool_decide_unpack _). by vm_compute.
Qed.

(** Two banks: one of 1 GB, one that needs every size of entry at both ends. *)
Definition demo_banks : physmem := Physmem [Region 0x40000000 0x40000000; Region 0xBFFFF000 0x40202000] [] [].

Lemma demo_banks_ok : physmem_ok demo_banks.
Proof. repeat split; cbn; try lia; repeat constructor. Qed.

Lemma kvminit_maps_exactly_witness : exists b pm', kvminit demo_syms (fun _ => 0) demo_banks = Ret (b, pm') /\
  (exists f, kwalk (bw b) 0x40100000 (KERN_BASE + 0xC0000123) = Some (0xC0000123, f)) /\ kwalk (bw b) 0x40100000 (KERN_BASE + 0x80000000) = None.
Proof.
  destruct (kvminit_maps_exactly demo_syms (fun _ => 0) demo_banks demo_syms_ok demo_banks_ok) as (segs & E & Hr).
  assert (Hsegs : segs = [Seg 0x40000000 0x80000000 None; Seg 0xBFFFF000 0x100201000 None]) by (vm_compute in E; congruence).
  destruct (kvminit demo_syms (fun _ => 0) demo_banks) as [[b pm'] | m].
  - exists b, pm'. split; [reflexivity |]. destruct Hr as (_ & Hr & _). rewrite Hsegs in Hr. split.
    + destruct (Hr 0xC0000123 ltac:(lia)) as [Hx | Hx]; eexists; exact Hx.
    + exact (Hr 0x80000000 ltac:(lia)).
  - exfalso. destruct Hr as [Hr | Hr]; [| discriminate Hr]. apply Hr. rewrite Hsegs. unfold bank_ok. repeat constructor; cbn; lia.
Defined.
