(* ===== verification/Copy.v ===== *)
(** * User memory access

    Models arch/copy.c ([user_range_ok], [copyin], [copyout], [copyinstr]) and the loops
    of arch/copy_user.s it calls, over the word memory of [Pmap]. LDTR and STTR go through
    the page table in TTBR0 with the permissions of EL0: [user_addr] is that translation.
    A faulting access ends the loop with -1: while [p->onfault] is set, the abort handler
    resumes at [_copy_fault]. The result is the return value with the bytes stored in the
    kernel buffer, which no user page maps. *)

From S2P Require Import Prelude Bits Mmu Pages Pmap.

(** ** Bytes of word memory, little-endian *)

Definition ldb (w : Z -> Z) (a : Z) : Z := w (a - a mod 8) / 2 ^ (8 * (a mod 8)) mod 256.

Definition stb (w : Z -> Z) (a b : Z) : Z -> Z :=
  let x := w (a - a mod 8) in
  let s := 2 ^ (8 * (a mod 8)) in
  w.[a - a mod 8 <- x + (b - x / s mod 256) * s].

(** ** Translation by the hardware

    A descriptor that is not valid, or is a block, faults: user tables hold none. *)

Fixpoint translate (n : nat) (w : Z -> Z) (table va : Z) : option Z :=
  let d := w (table + 8 * Z.land (Z.shiftr va (pt_shift (3 - Z.of_nat n))) (TABLE_ENTRIES - 1)) in
  if valid d && Z.testbit d 1 then
    match n with O => Some d | S n' => translate n' w (PA_TO_KVA (PTE_ADDR d)) va end
  else None.

(** AP[1] opens a page to EL0, AP[2] makes it read-only; AF is set. *)
Definition el0_ok (write : bool) (d : Z) : bool :=
  Z.testbit d 6 && Z.testbit d 10 && negb (write && Z.testbit d 7).

Definition user_addr (write : bool) (w : Z -> Z) (pagetable va : Z) : option Z :=
  match translate 3 w pagetable va with
  | Some d => if el0_ok write d then Some (PA_TO_KVA (PTE_ADDR d) + va mod PGSIZE) else None
  | None => None
  end.

Definition ldtrb (w : Z -> Z) (pagetable va : Z) : option Z := ldb w <$> user_addr false w pagetable va.

(** ** copy_user.s *)

Fixpoint copyin_bytes (n : nat) (w : Z -> Z) (pagetable src : Z) : Z * list Z :=
  match n with
  | O => (0, [])
  | S n' =>
      match ldtrb w pagetable src with
      | None => (-1, [])
      | Some b => let '(r, l) := copyin_bytes n' w pagetable (u64 (src + 1)) in (r, b :: l)
      end
  end.

Fixpoint copyout_bytes (l : list Z) (w : Z -> Z) (pagetable dst : Z) : (Z -> Z) * Z :=
  match l with
  | [] => (w, 0)
  | b :: l' =>
      match user_addr true w pagetable dst with
      | None => (w, -1)
      | Some a => copyout_bytes l' (stb w a b) pagetable (u64 (dst + 1))
      end
  end.

(** [i] bytes are already copied. *)
Fixpoint copyinstr_bytes (n : nat) (w : Z -> Z) (pagetable src i : Z) : Z * list Z :=
  match n with
  | O => (-1, [])
  | S n' =>
      match ldtrb w pagetable src with
      | None => (-1, [])
      | Some b =>
          if b =? 0 then (i, [0])
          else let '(r, l) := copyinstr_bytes n' w pagetable (u64 (src + 1)) (i + 1) in (r, b :: l)
      end
  end.

(** ** copy.c *)

Definition user_range_ok (user len : Z) : bool :=
  if user >=? MAXUVA then false
  else if len >? MAXUVA - user then false
  else true.

Definition copyin (w : Z -> Z) (pagetable src len : Z) : Z * list Z :=
  if len =? 0 then (0, [])
  else if negb (user_range_ok src len) then (-1, [])
  else copyin_bytes (Z.to_nat len) w pagetable src.

Definition copyout (w : Z -> Z) (pagetable dst : Z) (l : list Z) : (Z -> Z) * Z :=
  if Z.of_nat (length l) =? 0 then (w, 0)
  else if negb (user_range_ok dst (Z.of_nat (length l))) then (w, -1)
  else copyout_bytes l w pagetable dst.

Definition copyinstr (w : Z -> Z) (pagetable src max : Z) : Z * list Z :=
  if max =? 0 then (-1, [])
  else if negb (user_range_ok src max) then (-1, [])
  else copyinstr_bytes (Z.to_nat max) w pagetable src 0.

(** ** Specification: the memory a process sees *)

#[local] Abbreviation ptroot := (ptree 4).

Definition uaddr (write : bool) (t : ptroot) (va : Z) : option Z :=
  match maps t (va / 4096) with
  | Some v => if Z.testbit v 1 && el0_ok write v then Some (leafpage v + va mod 4096) else None
  | None => None
  end.

Definition ubyte (w : Z -> Z) (t : ptroot) (va : Z) : option Z := ldb w <$> uaddr false t va.

(** ** Lemmas: bytes *)

Lemma ldb_stb w a b a' : 0 <= b < 256 -> ldb (stb w a b) a' = if a' =? a then b else ldb w a'.
Proof.
  intros Hb. unfold ldb, stb. set (x := w (a - a mod 8)).
  destruct (Z.eq_dec (a' - a' mod 8) (a - a mod 8)) as [E | E].
  - rewrite E, upd_eq. set (s := 2 ^ (8 * (a mod 8))). assert (Hs : 0 < s) by (apply Z.pow_pos_nonneg; Z.div_mod_to_equations; lia).
    assert (Hk : 0 <= a mod 8 < 8 /\ 0 <= a' mod 8 < 8) by (split; apply Z.mod_pos_bound; lia).
    pose proof (Z.div_mod x s ltac:(lia)) as D1. pose proof (Z.mod_pos_bound x s Hs) as D2.
    pose proof (Z.div_mod (x / s) 256 ltac:(lia)) as D3. pose proof (Z.mod_pos_bound (x / s) 256 ltac:(lia)) as D4.
    set (lo := x mod s) in *. set (hi := x / s / 256) in *. set (m := x / s mod 256) in *.
    assert (Ex : x = lo + s * (m + 256 * hi)) by lia.
    replace (x + (b - m) * s) with (lo + s * (b + 256 * hi)) by lia.
    destruct (Z.eqb_spec a' a) as [-> | Hne].
    + fold s. replace (lo + s * (b + 256 * hi)) with ((b + 256 * hi) * s + lo) by lia.
      rewrite Z.div_add_l, (Z.div_small lo s) by lia. replace (b + 256 * hi + 0) with (hi * 256 + b) by lia.
      rewrite Z.add_comm, Z.mod_add, Z.mod_small by lia. done.
    + fold x. assert (Hlt : a' mod 8 < a mod 8 \/ a mod 8 < a' mod 8) by lia.
      destruct Hlt as [Hlt | Hlt].
      * set (s' := 2 ^ (8 * (a' mod 8))). assert (Hs' : 0 < s') by (apply Z.pow_pos_nonneg; lia).
        assert (Es : s = s' * 256 * 2 ^ (8 * (a mod 8 - a' mod 8 - 1))).
        { unfold s, s'. change 256 with (2 ^ 8). rewrite <- !Z.pow_add_r by lia. f_equal. lia. }
        assert (Hgen : forall y, (lo + s * y) / s' mod 256 = lo / s' mod 256).
        { intros y. rewrite Es. set (r := 2 ^ _).
          replace (lo + s' * 256 * r * y) with (lo + 256 * r * y * s') by lia. rewrite Z.div_add by lia.
          replace (lo / s' + 256 * r * y) with (lo / s' + r * y * 256) by lia. by rewrite Z.mod_add by lia. }
        by rewrite Hgen, Ex, Hgen.
      * assert (Es : 2 ^ (8 * (a' mod 8)) = s * (256 * 2 ^ (8 * (a' mod 8 - a mod 8 - 1)))).
        { unfold s. change 256 with (2 ^ 8). rewrite <- !Z.pow_add_r by lia. f_equal. lia. }
        rewrite Es. set (r := 2 ^ _). assert (0 < r) by (apply Z.pow_pos_nonneg; lia).
        assert (Hgen : forall c, 0 <= c < 256 -> (lo + s * (c + 256 * hi)) / (s * (256 * r)) = hi / r).
        { intros c Hc. rewrite <- Z.div_div by lia. replace (lo + s * (c + 256 * hi)) with ((c + 256 * hi) * s + lo) by lia.
          rewrite Z.div_add_l, (Z.div_small lo s), Z.add_0_r by lia.
          rewrite <- Z.div_div by lia. replace (c + 256 * hi) with (hi * 256 + c) by lia.
          by rewrite Z.div_add_l, (Z.div_small c 256), Z.add_0_r by lia. }
        by rewrite Hgen, Ex, Hgen.
  - rewrite upd_ne by done. destruct (Z.eqb_spec a' a) as [-> |]; [done |]. done.
Qed.

Lemma ldb_range w a : 0 <= ldb w a < 256.
Proof. apply Z.mod_pos_bound. lia. Qed.

(** The word of a byte lies in the byte's page. *)
Lemma in_page_word p a : is_page p -> in_page p a = true -> in_page p (a - a mod 8) = true.
Proof.
  unfold is_page, in_page, PGSIZE. intros [_ Hp] H. zbool. apply andb_true_iff. rewrite Z.leb_le, Z.ltb_lt.
  Z.div_mod_to_equations. lia.
Qed.

Lemma ldb_same w w' p a : is_page p -> same_on w w' p -> in_page p a = true -> ldb w' a = ldb w a.
Proof. intros Hp Hs Ha. unfold ldb. by rewrite (Hs _ (in_page_word p a Hp Ha)). Qed.

Lemma stb_same w a b p q : is_page p -> is_page q -> p <> q -> in_page p a = true -> same_on w (stb w a b) q.
Proof. intros Hp Hq Hne Ha. unfold stb. apply (same_on_upd w p q); auto. by apply in_page_word. Qed.

(** ** Lemmas: translation *)

Section proofs.
Context {A : Type} `{PageAllocLaws A}.
Implicit Types st : vm A.

Lemma table_desc_table b : is_page b -> Z.testbit (table_desc b) 1 = true.
Proof.
  intros Hb. unfold table_desc. rewrite !Z.lor_spec. apply orb_true_iff. right. done.
Qed.

(** The hardware finds what the tree maps. *)
Lemma translate_tree n st (t : ptree (S n)) va : (n <= 3)%nat -> own st (S n) t ->
  translate n (kw st) t.1 va =
  match tmap (S n) t (vpn_of va) with Some v => if Z.testbit v 1 then Some v else None | None => None end.
Proof.
  revert t. induction n as [| n IH]; intros t Hn Ho; cbn [translate];
    rewrite walk_idx by done.
  - pose proof (entry_child st 0 t (ix 0 (vpn_of va)) Ho (ix_range _ _)) as He. cbn [tmap].
    destruct (t.2 (ix 0 (vpn_of va))) as [v |]; destruct He as [Ew Ev]; rewrite Ev; [| done].
    cbn [andb]. rewrite Ew. done.
  - pose proof (ix_range (S n) (vpn_of va)) as Hi.
    pose proof (entry_child st (S n) t (ix (S n) (vpn_of va)) Ho Hi) as He.
    change (tmap (S (S n)) t (vpn_of va)) with
      (match t.2 (ix (S n) (vpn_of va)) with Some c => tmap (S n) c (vpn_of va) | None => None end).
    destruct (t.2 (ix (S n) (vpn_of va))) as [c |] eqn:Ec; destruct He as [Ew Ev]; rewrite Ev; [| done].
    pose proof (own_child st (S n) t _ c Ho Hi Ec) as Hoc.
    assert (Hcp : is_page c.1) by (apply Hoc; cbn [pgs]; left).
    cbn [andb]. rewrite Ew. cbn [entry]. rewrite table_desc_table, table_desc_addr by done. apply IH; [lia | done].
Qed.

Lemma user_addr_tree wr st t va : own st 4 t -> user_addr wr (kw st) t.1 va = uaddr wr t va.
Proof.
  intros Ho. unfold user_addr, uaddr. rewrite (translate_tree 3 st t va) by (done || lia).
  fold (maps t (vpn_of va)). unfold vpn_of. destruct (maps t (va / 4096)) as [v |]; [| done].
  destruct (Z.testbit v 1); [| done]. cbn [andb]. by destruct (el0_ok wr v).
Qed.

Lemma ldtrb_tree st t va : own st 4 t -> ldtrb (kw st) t.1 va = ubyte (kw st) t va.
Proof. intros Ho. unfold ldtrb, ubyte. by rewrite (user_addr_tree false st t va Ho). Qed.

(** A user address lies in a mapped page of the tree, not in a table. *)
Lemma uaddr_page wr st t va a : own st 4 t -> uaddr wr t va = Some a ->
  exists v, maps t (va / 4096) = Some v /\ a = leafpage v + va mod 4096 /\ is_page (leafpage v) /\
  in_page (leafpage v) a = true /\ leafpage v ∈ pgs 4 t /\ (leafpage v ∉ tabs 4 t).
Proof.
  intros Ho. unfold uaddr. destruct (maps t (va / 4096)) as [v |] eqn:E; [| done].
  destruct (Z.testbit v 1 && el0_ok wr v); [| done]. intros [= <-]. exists v.
  destruct (leaf_not_table st 4 t (va / 4096) v Ho E) as [H1 H2]. split; [done |]. split; [done |].
  split; [by apply Ho |]. split; [| split; [exact H1 | exact H2]]. unfold in_page, PGSIZE. apply andb_true_iff. rewrite Z.leb_le, Z.ltb_lt.
  Z.div_mod_to_equations. lia.
Qed.

Lemma leaf_once st h (t : ptree h) x y v u : own st h t -> tmap h t x = Some v -> tmap h t y = Some u ->
  leafpage v = leafpage u -> same_path h x y = true.
Proof.
  revert t. induction h as [| h IH]; intros t Ho Hx Hy E.
  { unfold same_path. change (512 ^ Z.of_nat 0) with 1. by rewrite !Z.mod_1_r. }
  change (tmap (S h) t x) with (match t.2 (ix h x) with Some c => tmap h c x | None => None end) in Hx.
  change (tmap (S h) t y) with (match t.2 (ix h y) with Some c => tmap h c y | None => None end) in Hy.
  destruct (t.2 (ix h x)) as [c |] eqn:Ec; [| done]. destruct (t.2 (ix h y)) as [d |] eqn:Ed; [| done].
  pose proof (ix_range h x) as Ix. pose proof (ix_range h y) as Iy.
  pose proof (own_child st h t _ c Ho Ix Ec) as Hoc. pose proof (own_child st h t _ d Ho Iy Ed) as Hod.
  rewrite same_path_S. destruct (Z.eqb_spec (ix h x) (ix h y)) as [Ei | Ei]; cbn [andb].
  - rewrite Ei, Ed in Ec. injection Ec as ->. by apply (IH c).
  - exfalso. destruct (own_apart st h t _ c Ho Ix Ec) as [_ Hsib].
    destruct (leaf_not_table st h c x v Hoc Hx) as [H1 _]. destruct (leaf_not_table st h d y u Hod Hy) as [H2 _].
    rewrite <- E in H2. by apply (Hsib (ix h y) d (leafpage v) Iy (not_eq_sym Ei) Ed H2).
Qed.

(** Distinct user addresses are distinct bytes: no page is mapped twice. *)
Lemma uaddr_inj wr wr' st t va va' a : own st 4 t -> 0 <= va < 2 ^ 48 -> 0 <= va' < 2 ^ 48 ->
  uaddr wr t va = Some a -> uaddr wr' t va' = Some a -> va = va'.
Proof.
  intros Ho Hv Hv' E E'. destruct (uaddr_page _ st t va a Ho E) as (v & M & -> & P & I & _).
  destruct (uaddr_page _ st t va' _ Ho E') as (v' & M' & Ea & P' & I' & _).
  assert (El : leafpage v = leafpage v') by (by apply (in_page_eq _ _ (leafpage v + va mod 4096))).
  assert (Hx : va / 4096 = va' / 4096); [| Z.div_mod_to_equations; lia].
  pose proof (leaf_once st 4 t (va / 4096) (va' / 4096) v v' Ho M M' El) as Hs.
  rewrite same_path_vpn in Hs by (Z.div_mod_to_equations; lia). by apply Z.eqb_eq.
Qed.
(** ** Lemmas: the loops *)

Lemma ubyte_range w t va b : ubyte w t va = Some b -> 0 <= b < 256.
Proof. unfold ubyte. destruct (uaddr false t va); [| done]. intros [= <-]. apply ldb_range. Qed.

(** [l] is what a process reads from [src] on. *)
Definition reads (w : Z -> Z) (t : ptroot) (src : Z) (l : list Z) : Prop :=
  forall i b, l !! i = Some b -> ubyte w t (src + Z.of_nat i) = Some b.

Lemma reads_cons w t src b l : ubyte w t src = Some b -> reads w t (src + 1) l -> reads w t src (b :: l).
Proof.
  intros Hb Hl [| i] c; cbn; [intros [= <-]; by rewrite Z.add_0_r |]. intros Hc.
  rewrite <- (Hl i c Hc). f_equal. lia.
Qed.

Lemma copyin_bytes_spec n st t src : own st 4 t -> 0 <= src -> src + Z.of_nat n <= 2 ^ 48 ->
  let '(r, l) := copyin_bytes n (kw st) t.1 src in
  (r = 0 /\ length l = n \/ r = -1 /\ exists i, 0 <= i < Z.of_nat n /\ ubyte (kw st) t (src + i) = None) /\
  reads (kw st) t src l.
Proof.
  intros Ho. revert src. induction n as [| n IH]; intros src Hs Hn; cbn [copyin_bytes]; [split; [by left | done] |].
  rewrite ldtrb_tree by done. destruct (ubyte (kw st) t src) as [b |] eqn:Eb.
  2: { split; [| done]. right. split; [done |]. exists 0. rewrite Z.add_0_r. split; [lia | done]. }
  rewrite u64_small by lia. specialize (IH (src + 1) ltac:(lia) ltac:(lia)).
  destruct (copyin_bytes n (kw st) t.1 (src + 1)) as [r l]. destruct IH as [Hr Hl]. split; [| by apply reads_cons].
  destruct Hr as [[-> Hlen] | (-> & i & Hi & Hn')]; [left; split; [done | cbn; lia] | right; split; [done |]].
  exists (1 + i). split; [lia |]. by rewrite Z.add_assoc.
Qed.

Lemma copyinstr_bytes_spec n st t src i : own st 4 t -> 0 <= src -> src + Z.of_nat n <= 2 ^ 48 ->
  let '(r, l) := copyinstr_bytes n (kw st) t.1 src i in
  reads (kw st) t src l /\
  ((exists s, l = s ++ [0] /\ r = i + Z.of_nat (length s) /\ (length s < n)%nat /\ 0 ∉ s) \/
   r = -1 /\ forall m, 0 <= m < Z.of_nat n -> ubyte (kw st) t (src + m) = Some 0 ->
     exists j, 0 <= j < m /\ ubyte (kw st) t (src + j) = None).
Proof.
  intros Ho. revert src i. induction n as [| n IH]; intros src i Hs Hn; cbn [copyinstr_bytes].
  { split; [done |]. right. split; [done | lia]. }
  rewrite ldtrb_tree by done. destruct (ubyte (kw st) t src) as [b |] eqn:Eb.
  2: { split; [done |]. right. split; [done |]. intros m Hm E0. destruct (decide (m = 0)) as [-> |]; [by rewrite Z.add_0_r, Eb in E0 |].
       exists 0. rewrite Z.add_0_r. split; [lia | done]. }
  destruct (Z.eqb_spec b 0) as [-> | Hb].
  { split; [by apply reads_cons |]. left. exists []. split; [done |]. split; [cbn; lia |]. split; [cbn; lia | apply not_elem_of_nil]. }
  rewrite u64_small by lia. specialize (IH (src + 1) (i + 1) ltac:(lia) ltac:(lia)).
  destruct (copyinstr_bytes n (kw st) t.1 (src + 1) (i + 1)) as [r l]. destruct IH as [Hl Hr]. split; [by apply reads_cons |].
  destruct Hr as [(s & -> & -> & Hlen & Hz) | [-> Hno]]; [left | right].
  - exists (b :: s). split; [done |]. split; [cbn; lia |]. split; [cbn; lia |]. rewrite not_elem_of_cons. done.
  - split; [done |]. intros m Hm E0. destruct (decide (m = 0)) as [-> |]; [rewrite Z.add_0_r, Eb in E0; congruence |].
    destruct (Hno (m - 1) ltac:(lia)) as (j & Hj & Ej); [rewrite <- E0; f_equal; lia |].
    exists (1 + j). split; [lia |]. by rewrite Z.add_assoc.
Qed.

Lemma uaddr_write t va a : uaddr true t va = Some a -> uaddr false t va = Some a.
Proof.
  unfold uaddr, el0_ok. destruct (maps t (va / 4096)) as [v |]; [| done]. cbn [andb negb].
  rewrite andb_true_r. destruct (Z.testbit v 1), (Z.testbit v 6), (Z.testbit v 10), (Z.testbit v 7); done.
Qed.

(** One byte stored through the user mapping. *)
Lemma store_user st t dst a b : own st 4 t -> 0 <= dst < 2 ^ 48 -> 0 <= b < 256 -> uaddr true t dst = Some a ->
  own (Vm (stb (kw st) a b) (al st)) 4 t /\
  (forall va, 0 <= va < 2 ^ 48 -> ubyte (stb (kw st) a b) t va = if va =? dst then Some b else ubyte (kw st) t va) /\
  (forall p, is_page p -> p ∉ pgs 4 t \/ p ∈ tabs 4 t -> same_on (kw st) (stb (kw st) a b) p).
Proof.
  intros Ho Hd Hb Ha. destruct (uaddr_page true st t dst a Ho Ha) as (v & Hv & Ea & Hp & Hin & H1 & H2).
  assert (Hsame : forall p, is_page p -> p ∉ pgs 4 t \/ p ∈ tabs 4 t -> same_on (kw st) (stb (kw st) a b) p).
  { intros p Hq Hx. apply (stb_same _ _ _ (leafpage v) p); [done | done | | done]. intros <-. destruct Hx as [Hx | Hx]; [exact (Hx H1) | exact (H2 Hx)]. }
  split; [| split; [| exact Hsame]].
  - destruct Ho as (Hr & Hnd & Hu). split; [| split; [exact Hnd | exact Hu]]. apply (rep_frame (kw st)); [| exact Hr].
    intros q Hq. apply Hsame; [by apply (Hu q), tabs_pgs | by right].
  - intros va Hva. unfold ubyte. destruct (uaddr false t va) as [a' |] eqn:E; cbn [fmap option_fmap option_map].
    + rewrite ldb_stb by done. destruct (Z.eqb_spec a' a) as [-> | Hne].
      * rewrite (uaddr_inj false true st t va dst a Ho Hva Hd E Ha), Z.eqb_refl. done.
      * destruct (Z.eqb_spec va dst) as [-> |]; [| done]. apply uaddr_write in Ha. congruence.
    + destruct (Z.eqb_spec va dst) as [-> |]; [| done]. apply uaddr_write in Ha. congruence.
Qed.

(** The user memory [w'] is [w] with the bytes [l] at [dst]. *)
Definition wrote (w w' : Z -> Z) (t : ptroot) (dst : Z) (l : list Z) : Prop :=
  (forall va, 0 <= va < 2 ^ 48 -> ubyte w' t va =
     if (dst <=? va) && (va <? dst + Z.of_nat (length l)) then l !! Z.to_nat (va - dst) else ubyte w t va) /\
  (forall p, is_page p -> p ∉ pgs 4 t \/ p ∈ tabs 4 t -> same_on w w' p).

Lemma copyout_bytes_spec l : forall st t dst, own st 4 t -> Forall (fun b => 0 <= b < 256) l ->
  0 <= dst -> dst + Z.of_nat (length l) <= 2 ^ 48 ->
  let '(w', r) := copyout_bytes l (kw st) t.1 dst in
  exists k, wrote (kw st) w' t dst (take k l) /\ own (Vm w' (al st)) 4 t /\
  (r = 0 /\ k = length l \/ r = -1 /\ (k < length l)%nat /\ uaddr true t (dst + Z.of_nat k) = None).
Proof.
  induction l as [| b l IH]; intros st t dst Ho Hb Hd Hl; cbn [copyout_bytes].
  { exists O. split; [| split; [by destruct st | by left]]. split; [| by intros p _ _ a _]. intros va Hva. rewrite take_0, Z.add_0_r.
    destruct (Z.leb_spec dst va), (Z.ltb_spec va dst); cbn [andb]; try lia; done. }
  apply Forall_cons in Hb as [Hb0 Hb]. cbn [length] in Hl. rewrite (user_addr_tree true st t dst Ho).
  destruct (uaddr true t dst) as [a |] eqn:Ea.
  2: { exists O. split; [| split; [by destruct st | right; rewrite Z.add_0_r; split; [done |]; split; [cbn; lia | done]]].
       split; [| by intros p _ _ a _]. intros va Hva. rewrite take_0, Z.add_0_r. destruct (Z.leb_spec dst va), (Z.ltb_spec va dst); cbn [andb]; try lia; done. }
  destruct (store_user st t dst a b Ho ltac:(lia) Hb0 Ea) as (Ho1 & Hu1 & Hs1). rewrite u64_small by lia.
  specialize (IH (Vm (stb (kw st) a b) (al st)) t (dst + 1) Ho1 Hb ltac:(lia) ltac:(lia)). cbn [kw al] in IH.
  destruct (copyout_bytes l (stb (kw st) a b) t.1 (dst + 1)) as [w' r]. destruct IH as (k & [Hw Hs] & Ho' & Hr).
  exists (S k). split; [| split; [exact Ho' |]].
  - split; [| intros p Hp Hx; by apply (same_on_trans _ (stb (kw st) a b)); auto].
    intros va Hva. rewrite Hw, Hu1 by done. cbn [take length].
    destruct (Z.eqb_spec va dst) as [-> | Hne].
    + destruct (Z.leb_spec (dst + 1) dst), (Z.leb_spec dst dst), (Z.ltb_spec dst (dst + Z.of_nat (S (length (take k l))))); cbn [andb]; try lia.
      by rewrite Z.sub_diag.
    + destruct (Z.leb_spec (dst + 1) va), (Z.leb_spec dst va), (Z.ltb_spec va (dst + 1 + Z.of_nat (length (take k l)))),
        (Z.ltb_spec va (dst + Z.of_nat (S (length (take k l))))); cbn [andb]; try lia; try done.
      replace (Z.to_nat (va - dst)) with (S (Z.to_nat (va - (dst + 1)))) by lia. done.
  - destruct Hr as [[-> ->] | (-> & Hk & Hn)]; [left; done | right]. split; [done |]. split; [cbn; lia |].
    rewrite <- Hn. f_equal. lia.
Qed.

(** ** Theorems *)

Lemma range_ok src len : 0 <= src -> 0 < len -> user_range_ok src len = (src + len <=? 2 ^ 48).
Proof.
  intros Hs Hl. unfold user_range_ok. change MAXUVA with (2 ^ 48). rewrite Z.geb_leb, Z.gtb_ltb.
  destruct (Z.leb_spec (2 ^ 48) src), (Z.ltb_spec (2 ^ 48 - src) len), (Z.leb_spec (src + len) (2 ^ 48)); try lia; done.
Qed.

Lemma copyin_spec st t src len : own st 4 t -> 0 <= src < 2 ^ 64 -> 0 <= len < 2 ^ 64 ->
  (let '(r, l) := copyin (kw st) t.1 src len in
   reads (kw st) t src l /\
   (r = 0 /\ Z.of_nat (length l) = len \/
    r = -1 /\ (src + len > 2 ^ 48 \/ exists i, 0 <= i < len /\ ubyte (kw st) t (src + i) = None))) /\
  (let '(r, l) := copyinstr (kw st) t.1 src len in
   reads (kw st) t src l /\
   ((exists s, l = s ++ [0] /\ r = Z.of_nat (length s) /\ r < len /\ 0 ∉ s) \/
    r = -1 /\ (len = 0 \/ src + len > 2 ^ 48 \/
      forall m, 0 <= m < len -> ubyte (kw st) t (src + m) = Some 0 -> exists j, 0 <= j < m /\ ubyte (kw st) t (src + j) = None))).
Proof.
  intros Ho Hs Hl. unfold copyin, copyinstr. destruct (Z.eqb_spec len 0) as [-> | Hne].
  { split; [split; [done | by left] | split; [done |]]. right. split; [done | by left]. }
  rewrite range_ok by lia. destruct (Z.leb_spec (src + len) (2 ^ 48)); cbn [negb].
  2: { split; (split; [done |]; right; split; [done |]); [left | right; left]; lia. }
  pose proof (copyin_bytes_spec (Z.to_nat len) st t src Ho ltac:(lia) ltac:(lia)) as Hi.
  pose proof (copyinstr_bytes_spec (Z.to_nat len) st t src 0 Ho ltac:(lia) ltac:(lia)) as Hi'. rewrite Z2Nat.id in Hi, Hi' by lia.
  destruct (copyin_bytes _ _ _ _) as [r l], (copyinstr_bytes _ _ _ _ _) as [r' l']. destruct Hi as [Hr Hd], Hi' as [Hd' Hr']. split.
  - split; [done |]. destruct Hr as [[-> Hx] | [-> Hx]]; [left; split; [done | lia] | right; by auto].
  - split; [done |]. destruct Hr' as [(s & -> & -> & Hx & Hz) | [-> Hx]]; [left; exists s | right; by auto].
    split; [done |]. split; [lia |]. split; [lia | done].
Qed.

Lemma copyin_outside w pt src len : 0 <= src -> 0 < len -> src + len > 2 ^ 48 -> copyin w pt src len = (-1, []) /\ copyinstr w pt src len = (-1, []).
Proof.
  intros Hs Hl Hx. unfold copyin, copyinstr. rewrite range_ok, (proj2 (Z.eqb_neq len 0)), (proj2 (Z.leb_gt _ _)) by lia. done.
Qed.

(** C30: [copyin] and [copyinstr] return exactly what the process itself would read. On
    success [copyin] has copied all [len] bytes, and [copyinstr] a string that fits with its
    terminator, and its length; they fail only when the range leaves user space, a byte of
    it faults, or, for a string, no terminator comes before that. A range of at least one
    byte that leaves user space, wherever the pointer points, always fails, and before any
    byte of it is read. *)
Theorem copyin_exact st t src len : own st 4 t -> 0 <= src < 2 ^ 64 -> 0 <= len < 2 ^ 64 ->
  (let '(r, l) := copyin (kw st) t.1 src len in
   reads (kw st) t src l /\
   (r = 0 /\ Z.of_nat (length l) = len \/
    r = -1 /\ (src + len > 2 ^ 48 \/ exists i, 0 <= i < len /\ ubyte (kw st) t (src + i) = None))) /\
  (let '(r, l) := copyinstr (kw st) t.1 src len in
   reads (kw st) t src l /\
   ((exists s, l = s ++ [0] /\ r = Z.of_nat (length s) /\ r < len /\ 0 ∉ s) \/
    r = -1 /\ (len = 0 \/ src + len > 2 ^ 48 \/
      forall m, 0 <= m < len -> ubyte (kw st) t (src + m) = Some 0 -> exists j, 0 <= j < m /\ ubyte (kw st) t (src + j) = None))) /\
  (0 < len -> src + len > 2 ^ 48 -> copyin (kw st) t.1 src len = (-1, []) /\ copyinstr (kw st) t.1 src len = (-1, [])).
Proof.
  intros Ho Hs Hl. destruct (copyin_spec st t src len Ho Hs Hl) as [H1 H2]. split; [exact H1 |]. split; [exact H2 |].
  intros Hpos Hx. apply copyin_outside; lia.
Qed.

Lemma copyout_spec st t dst l : own st 4 t -> 0 <= dst < 2 ^ 64 -> Forall (fun b => 0 <= b < 256) l ->
  let '(w', r) := copyout (kw st) t.1 dst l in
  exists k, wrote (kw st) w' t dst (take k l) /\ own (Vm w' (al st)) 4 t /\
  (r = 0 /\ k = length l \/
   r = -1 /\ (k < length l)%nat /\ (dst + Z.of_nat (length l) > 2 ^ 48 /\ k = O \/ uaddr true t (dst + Z.of_nat k) = None)).
Proof.
  intros Ho Hd Hl. unfold copyout.
  assert (Hnil : wrote (kw st) (kw st) t dst (take 0 l) /\ own (Vm (kw st) (al st)) 4 t).
  { split; [| by destruct st]. split; [| by intros p _ _ a _]. intros va Hva. rewrite take_0, Z.add_0_r.
    destruct (Z.leb_spec dst va), (Z.ltb_spec va dst); cbn [andb]; try lia; done. }
  destruct Hnil as [N1 N2]. destruct (Z.eqb_spec (Z.of_nat (length l)) 0) as [E | Hne].
  { exists O. split; [exact N1 |]. split; [exact N2 |]. left. split; [done | lia]. }
  rewrite range_ok by lia. destruct (Z.leb_spec (dst + Z.of_nat (length l)) (2 ^ 48)); cbn [negb].
  2: { exists O. split; [exact N1 |]. split; [exact N2 |]. right. split; [done |]. split; [lia |]. left. split; [lia | done]. }
  pose proof (copyout_bytes_spec l st t dst Ho Hl ltac:(lia) ltac:(lia)) as Hx.
  destruct (copyout_bytes l (kw st) t.1 dst) as [w' r]. destruct Hx as (k & Hw & Ho' & Hr). exists k.
  split; [exact Hw |]. split; [exact Ho' |]. destruct Hr as [Hr | (-> & Hk & Hn)]; [by left | right]. split; [done |]. split; [done | by right].
Qed.

(** [copyout] stores exactly the buffer at the user address and nothing else: every
    other byte of the process, its page tables and every page it does not map are
    unchanged. It fails only when the range leaves user space or a byte of it may not be
    written, after storing the bytes before that one. *)
Theorem copyout_exact st t dst l : own st 4 t -> 0 <= dst < 2 ^ 64 -> Forall (fun b => 0 <= b < 256) l ->
  let '(w', r) := copyout (kw st) t.1 dst l in
  exists k, wrote (kw st) w' t dst (take k l) /\ own (Vm w' (al st)) 4 t /\
  (r = 0 /\ k = length l \/
   r = -1 /\ (k < length l)%nat /\ (dst + Z.of_nat (length l) > 2 ^ 48 /\ k = O \/ uaddr true t (dst + Z.of_nat k) = None)).
Proof. exact (copyout_spec st t dst l). Qed.
End proofs.

(** ** Witnesses *)

Lemma demo_user (st : vm (list Z)) (t : ptroot) va wr : maps t 5 = Some (Z.lor (KVA_TO_PA (page_no 3)) PAGE_USER) ->
  0x5000 <= va < 0x6000 -> uaddr wr t va = Some (page_no 3 + va mod 4096).
Proof.
  intros Hm Hva. unfold uaddr. replace (va / 4096) with 5 by (Z.div_mod_to_equations; lia). rewrite Hm.
  replace (leafpage _) with (page_no 3) by reflexivity. by destruct wr.
Qed.

Lemma demo_ubyte (st : vm (list Z)) (t : ptroot) : maps t 5 = Some (Z.lor (KVA_TO_PA (page_no 3)) PAGE_USER) ->
  zeroed (kw st) (leafpage (Z.lor (KVA_TO_PA (page_no 3)) PAGE_USER)) -> forall va, 0x5000 <= va < 0x6000 -> ubyte (kw st) t va = Some 0.
Proof.
  intros Hv Hz va Hva. unfold ubyte. rewrite (demo_user st t va false Hv Hva). cbn [fmap option_fmap option_map]. f_equal.
  unfold ldb. rewrite Hz; [reflexivity |]. apply in_page_word; [apply pool_page; unfold pool; apply (bool_decide_unpack _); vm_compute; exact I |].
  change (leafpage _) with (page_no 3). unfold in_page, PGSIZE. apply andb_true_iff. rewrite Z.leb_le, Z.ltb_lt. Z.div_mod_to_equations. lia.
Qed.

Lemma copyin_exact_witness : exists (st : vm (list Z)) (t : ptree 4),
  copyin (kw st) t.1 0x5ffc 4 = (0, [0; 0; 0; 0]) /\ (copyin (kw st) t.1 0x5ffc 5).1 = -1 /\ (copyinstr (kw st) t.1 0x5000 8).1 = 0 /\
  copyin (kw st) t.1 (2 ^ 48 + 0x5000) 4 = (-1, []).
Proof.
  destruct demo_space as (st & t & v & -> & Ho & _ & Hv & Hz & Hne & _). exists st, t.
  assert (Hb : forall va, 0x5000 <= va < 0x6000 -> ubyte (kw st) t va = Some 0) by exact (demo_ubyte st t Hv Hz).
  destruct (copyin_exact st t 0x5ffc 4 Ho ltac:(lia) ltac:(lia)) as [H1 _].
  destruct (copyin_exact st t 0x5ffc 5 Ho ltac:(lia) ltac:(lia)) as [H2 _].
  destruct (copyin_exact st t 0x5000 8 Ho ltac:(lia) ltac:(lia)) as (_ & H3 & _).
  destruct (copyin _ _ _ 4) as [r1 l1], (copyin _ _ _ 5) as [r2 l2], (copyinstr _ _ _ _) as [r3 l3].
  destruct H1 as [D1 R1], H2 as [D2 R2], H3 as [D3 R3]. cbn [fst]. split; [| split; [| split; [| exact (proj1 (proj2 (proj2 (copyin_exact st t (2 ^ 48 + 0x5000) 4 Ho ltac:(lia) ltac:(lia))) ltac:(lia) ltac:(lia)))]]].
  - destruct R1 as [[-> Hl] | [_ [Hx | (i & Hi & Hx)]]]; [| lia | rewrite Hb in Hx by lia; discriminate].
    assert (Hall : forall b, b ∈ l1 -> b = 0).
    { intros b [i Hi]%list_elem_of_lookup. pose proof (lookup_lt_Some _ _ _ Hi). specialize (D1 i b Hi). rewrite Hb in D1 by lia. congruence. }
    destruct l1 as [| a [| b [| c [| d [|]]]]]; try (exfalso; cbn [length] in Hl; lia).
    rewrite (Hall a), (Hall b), (Hall c), (Hall d); [reflexivity | right; right; right; left | right; right; left | right; left | left].
  - destruct R2 as [[-> Hl] | [-> _]]; [| reflexivity]. exfalso. destruct (lookup_lt_is_Some_2 l2 4) as [b E]; [lia |].
    specialize (D2 4%nat b E). change (0x5ffc + Z.of_nat 4) with 0x6000 in D2. unfold ubyte, uaddr in D2. change (0x6000 / 4096) with 6 in D2.
    rewrite Hne in D2; [discriminate D2 | unfold in_space; lia | lia].
  - destruct R3 as [(s & -> & -> & Hx & Hz0) | [-> [Hx | [Hx | Hx]]]]; [| lia | lia |].
    + destruct s as [| b s]; [reflexivity |]. exfalso. specialize (D3 O b eq_refl). rewrite Hb in D3 by lia. injection D3 as <-. apply Hz0. left.
    + destruct (Hx 0 ltac:(lia) (Hb 0x5000 ltac:(lia))) as (j & Hj & _). lia.
Defined.

Lemma copyout_exact_witness : exists (st : vm (list Z)) (t : ptree 4) w',
  copyout (kw st) t.1 0x5001 [7; 9] = (w', 0) /\ ubyte w' t 0x5002 = Some 9.
Proof.
  destruct demo_space as (st & t & v & -> & Ho & _ & Hv & _). exists st, t.
  pose proof (copyout_exact st t 0x5001 [7; 9] Ho ltac:(lia) ltac:(repeat constructor; lia)) as Hx.
  destruct (copyout _ _ _ _) as [w' r]. exists w'. destruct Hx as (k & [Hw _] & _ & Hr).
  destruct Hr as [[-> ->] | (_ & Hk & [[Hx _] | Hx])]; [| cbn in Hx; lia |].
  - split; [reflexivity |]. rewrite Hw by lia. reflexivity.
  - rewrite (demo_user st t _ true Hv) in Hx; [discriminate |]. cbn in Hk. lia.
Defined.
