(* ===== verification/Elf.v ===== *)
(** * The ELF loader

    Models include/sys/elf.h and the loader of kern/exec.c: [load_segment] and [loadelf].
    An image is read-only data linked with the kernel: [img i] is the byte at [bytes + i],
    for a 64-bit offset [i]. The failure messages are left out. *)

From S2P Require Import Prelude Bits Mmu Pages Pmap Copy.

(** ** elf.h *)

(** The unsigned field of [n] bytes at offset [o], little-endian. *)
Fixpoint field (n : nat) (img : Z -> Z) (o : Z) : Z :=
  match n with O => 0 | S n' => img o + 256 * field n' img (u64 (o + 1)) end.

Record elfhdr := Elfhdr {
  ident : Z -> Z;
  e_type : Z;
  machine : Z;
  entry_pc : Z;
  phoff : Z;
  phentsize : Z;
  phnum : Z
}.

Definition sizeof_elfhdr : Z := 64.

Definition elfhdr_at (img : Z -> Z) : elfhdr :=
  {| ident := img; e_type := field 2 img 16; machine := field 2 img 18; entry_pc := field 8 img 24;
     phoff := field 8 img 32; phentsize := field 2 img 54; phnum := field 2 img 56 |}.

Record proghdr := Proghdr { p_type : Z; p_off : Z; p_vaddr : Z; p_filesz : Z; p_memsz : Z }.

Definition sizeof_proghdr : Z := 56.

Definition proghdr_at (img : Z -> Z) (o : Z) : proghdr :=
  {| p_type := field 4 img o; p_off := field 8 img (u64 (o + 8)); p_vaddr := field 8 img (u64 (o + 16));
     p_filesz := field 8 img (u64 (o + 32)); p_memsz := field 8 img (u64 (o + 40)) |}.

Definition EI_MAG0 : Z := 0.
Definition EI_MAG1 : Z := 1.
Definition EI_MAG2 : Z := 2.
Definition EI_MAG3 : Z := 3.
Definition EI_CLASS : Z := 4.
Definition EI_DATA : Z := 5.
Definition ELFMAG0 : Z := 0x7F.
Definition ELFMAG1 : Z := 69.
Definition ELFMAG2 : Z := 76.
Definition ELFMAG3 : Z := 70.
Definition ELFCLASS64 : Z := 2.
Definition ELFDATA2LSB : Z := 1.
Definition ET_EXEC : Z := 2.
Definition EM_AARCH64 : Z := 183.
Definition PT_LOAD : Z := 1.

(** memcpy(dst, bytes + src, n), into kernel memory. *)
Fixpoint memcpy_img (n : nat) (w : Z -> Z) (dst : Z) (img : Z -> Z) (src : Z) : Z -> Z :=
  match n with
  | O => w
  | S n' => memcpy_img n' (stb w dst (img src)) (dst + 1) img (u64 (src + 1))
  end.

Section ops.
Context {A : Type} `{PageAlloc A}.

(** for (va = ph->vaddr; va < va_end; va += PGSIZE); the pages left are the measure. *)
Fixpoint load_loop (fuel : nat) (st : vm A) (pagetable : Z) (img : Z -> Z) (src file_remaining va va_end : Z) : res (vm A * Z) :=
  match fuel with
  | O => Ret (st, 0)
  | S fuel' =>
      if negb (va <? va_end) then Ret (st, 0)
      else
        '(st, page) ← kpage_alloc_vm st;
        match page with
        | None => Ret (st, -1)
        | Some page =>
            let st := Vm (zero_page (kw st) page) (al st) in
            let copy_now := if file_remaining >? 0 then (if file_remaining <? PGSIZE then file_remaining else PGSIZE) else 0 in
            let st := Vm (memcpy_img (Z.to_nat copy_now) (kw st) page img src) (al st) in
            '(st, r) ← mappages st pagetable (u64 (USER_BASE + va)) (KVA_TO_PA page) PGSIZE PAGE_USER;
            if r <? 0 then st ← kpage_free_vm st page; Ret (st, -1)
            else load_loop fuel' st pagetable img (u64 (src + copy_now)) (file_remaining - copy_now) (u64 (va + PGSIZE)) va_end
        end
  end.

Definition load_segment (st : vm A) (pagetable : Z) (img : Z -> Z) (src : Z) (ph : proghdr) : res (vm A * Z) :=
  if negb (Z.land (p_vaddr ph) (PGSIZE - 1) =? 0) then Ret (st, -1)
  else if p_memsz ph <? p_filesz ph then Ret (st, -1)
  else
    let va_end := u64 (p_vaddr ph + p_memsz ph) in
    load_loop (S (Z.to_nat ((va_end - p_vaddr ph) / PGSIZE + 1))) st pagetable img src (p_filesz ph) (p_vaddr ph) va_end.

(** for (i = 0; i < eh->phnum; i++): [None] is the return of -1, otherwise [max_end]. *)
Fixpoint phdr_loop (n : nat) (st : vm A) (pagetable : Z) (img : Z -> Z) (size : Z) (eh : elfhdr) (i max_end : Z) : res (vm A * option Z) :=
  match n with
  | O => Ret (st, Some max_end)
  | S n' =>
      let ph_off := u64 (phoff eh + u64 (i * phentsize eh)) in
      if u64 (ph_off + sizeof_proghdr) >? size then Ret (st, None)
      else
        let ph := proghdr_at img ph_off in
        if negb (p_type ph =? PT_LOAD) then phdr_loop n' st pagetable img size eh (i + 1) max_end
        else if p_memsz ph <? p_filesz ph then Ret (st, None)
        else if u64 (p_vaddr ph + p_memsz ph) <? p_vaddr ph then Ret (st, None)
        else if u64 (p_vaddr ph + p_memsz ph) >? MAXUVA then Ret (st, None)
        else if u64 (p_off ph + p_filesz ph) >? size then Ret (st, None)
        else
          '(st, r) ← load_segment st pagetable img (p_off ph) ph;
          if r <? 0 then Ret (st, None)
          else
            let e := u64 (p_vaddr ph + p_memsz ph) in
            phdr_loop n' st pagetable img size eh (i + 1) (if e >? max_end then e else max_end)
  end.

Definition bad_ident (eh : elfhdr) : bool :=
  negb (ident eh EI_MAG0 =? ELFMAG0) || negb (ident eh EI_MAG1 =? ELFMAG1)
  || negb (ident eh EI_MAG2 =? ELFMAG2) || negb (ident eh EI_MAG3 =? ELFMAG3)
  || negb (ident eh EI_CLASS =? ELFCLASS64) || negb (ident eh EI_DATA =? ELFDATA2LSB)
  || negb (machine eh =? EM_AARCH64) || negb (e_type eh =? ET_EXEC) || negb (phentsize eh =? sizeof_proghdr).

(** [None] is -1; [Some (entry, sz)] is 0 with the two results. *)
Definition loadelf (st : vm A) (pagetable : Z) (img : Z -> Z) (size : Z) : res (vm A * option (Z * Z)) :=
  if size <? sizeof_elfhdr then Ret (st, None)
  else
    let eh := elfhdr_at img in
    if bad_ident eh then Ret (st, None)
    else
      '(st, r) ← phdr_loop (Z.to_nat (phnum eh)) st pagetable img size eh 0 0;
      match r with
      | None => Ret (st, None)
      | Some max_end => if max_end =? 0 then Ret (st, None) else Ret (st, Some (entry_pc eh, PGROUNDUP max_end))
      end.
End ops.

(** ** Specification: the address space an image describes *)

#[local] Abbreviation ptroot := (ptree 4).

(** The pages of a segment, and the byte at a user address of one of them. *)
Definition seg_has (ph : proghdr) (x : Z) : bool := (p_vaddr ph / 4096 <=? x) && (x <? (p_vaddr ph + p_memsz ph + 4095) / 4096).

Definition seg_byte (img : Z -> Z) (ph : proghdr) (va : Z) : Z :=
  if va <? p_vaddr ph + p_filesz ph then img (u64 (p_off ph + (va - p_vaddr ph))) else 0.

(** The program headers, and those loaded, in file order. *)
Definition phdr (img : Z -> Z) (i : Z) : proghdr := proghdr_at img (u64 (phoff (elfhdr_at img) + u64 (i * sizeof_proghdr))).

Definition segs (img : Z -> Z) (n : nat) : list proghdr :=
  filter (fun ph => p_type ph = PT_LOAD) (map (fun i => phdr img (Z.of_nat i)) (seq 0 n)).

(** No two segments share a page. *)
Fixpoint apart (l : list proghdr) : Prop :=
  match l with [] => True | ph :: l' => (forall ph' x, ph' ∈ l' -> seg_has ph x = true -> seg_has ph' x = false) /\ apart l' end.

(** Page [x] is mapped for the process and holds the bytes [f]. *)
Definition page_is (w : Z -> Z) (t : ptroot) (x : Z) (f : Z -> Z) : Prop :=
  exists p, is_page p /\ maps t x = Some (Z.lor (KVA_TO_PA p) PAGE_USER) /\ forall i, 0 <= i < 4096 -> ldb w (p + i) = f (4096 * x + i).

(** The tree maps exactly the pages of the segments, read-write for the process, and they
    hold the bytes of the file, zeroes after them. *)
Definition loaded (img : Z -> Z) (l : list proghdr) (w : Z -> Z) (t : ptroot) : Prop :=
  forall x, in_space x ->
    match List.find (fun ph => seg_has ph x) l with
    | Some ph => page_is w t x (seg_byte img ph)
    | None => maps t x = None
    end.

(** What the loader requires of a segment, and the end of the highest one. *)
Definition seg_ok (size : Z) (ph : proghdr) : Prop :=
  p_vaddr ph mod 4096 = 0 /\ p_filesz ph <= p_memsz ph /\ p_vaddr ph + p_memsz ph <= 2 ^ 48 /\ u64 (p_off ph + p_filesz ph) <= size.

Definition top (l : list proghdr) : Z := foldr (fun ph m => Z.max (p_vaddr ph + p_memsz ph) m) 0 l.

(** ** Lemmas: copying *)

Definition bytes_ok (img : Z -> Z) : Prop := forall i, 0 <= img i < 256.

Lemma u64_add x y : u64 (u64 x + y) = u64 (x + y).
Proof. unfold u64. by rewrite Zplus_mod_idemp_l. Qed.

Lemma memcpy_img_byte n img : bytes_ok img -> forall w dst src a,
  ldb (memcpy_img n w dst img src) a =
  if (dst <=? a) && (a <? dst + Z.of_nat n) then img (if a =? dst then src else u64 (src + (a - dst))) else ldb w a.
Proof.
  intros Hi. induction n as [| n IH]; intros w dst src a; cbn [memcpy_img].
  { destruct (Z.leb_spec dst a), (Z.ltb_spec a (dst + Z.of_nat 0)); cbn [andb]; try lia; done. }
  rewrite IH, ldb_stb by apply Hi. destruct (Z.eqb_spec a dst) as [-> | Hne].
  - destruct (Z.leb_spec (dst + 1) dst), (Z.leb_spec dst dst), (Z.ltb_spec dst (dst + Z.of_nat (S n))); cbn [andb]; try lia; done.
  - destruct (Z.leb_spec (dst + 1) a), (Z.leb_spec dst a), (Z.ltb_spec a (dst + 1 + Z.of_nat n)), (Z.ltb_spec a (dst + Z.of_nat (S n))); cbn [andb]; try lia; try done.
    f_equal. destruct (Z.eqb_spec a (dst + 1)) as [-> |]; [f_equal; lia |]. rewrite u64_add. f_equal. lia.
Qed.

Lemma memcpy_img_same n w p d img src q : is_page p -> is_page q -> p <> q -> 0 <= d -> d + Z.of_nat n <= 4096 ->
  same_on w (memcpy_img n w (p + d) img src) q.
Proof.
  intros Hp Hq Hne. revert w d src. induction n as [| n IH]; intros w d src Hd Hn; cbn [memcpy_img]; [by intros a |].
  apply (same_on_trans _ (stb w (p + d) (img src))).
  - apply (stb_same _ _ _ p q); [done | done | done |]. unfold in_page, PGSIZE. apply andb_true_iff. rewrite Z.leb_le, Z.ltb_lt. lia.
  - replace (p + d + 1) with (p + (d + 1)) by lia. apply IH; lia.
Qed.

Lemma zero_page_byte w p i : is_page p -> 0 <= i < 4096 -> ldb (zero_page w p) (p + i) = 0.
Proof.
  intros Hp Hi. unfold ldb. rewrite zero_page_zeroed; [done |]. apply in_page_word; [done |].
  unfold in_page, PGSIZE. apply andb_true_iff. rewrite Z.leb_le, Z.ltb_lt. lia.
Qed.

Section proofs.
Context {A : Type} `{PageAllocLaws A}.
Implicit Types st : vm A.

Lemma page_is_grows st t st' t' x f : own st 4 t -> grows st 4 t st' t' [] -> maps t' x = maps t x ->
  page_is (kw st) t x f -> page_is (kw st') t' x f.
Proof.
  intros Ho G Em (p & Hp & Hm & Hf). exists p. split; [done |]. split; [by rewrite Em |]. intros i Hi. rewrite <- Hf by done.
  destruct (leaf_not_table st 4 t x _ Ho Hm) as [Hin Hnt]. rewrite (leafpage_desc p PAGE_USER Hp PAGE_USER_ok) in Hin, Hnt.
  apply (ldb_same _ _ p); [done | | unfold in_page, PGSIZE; apply andb_true_iff; rewrite Z.leb_le, Z.ltb_lt; lia].
  apply (g_frame _ _ _ _ _ _ G); [done | by apply Ho | exact Hnt].
Qed.

(** A fresh page filled with [n] bytes of the image. *)
Lemma filled_byte w p n img src f rem k : is_page p -> bytes_ok img -> 0 <= n <= 4096 ->
  (forall i, 0 <= i < 4096 -> f (k + i) = if i <? rem then img (u64 (src + i)) else 0) ->
  (0 < n -> 0 <= src < 2 ^ 64) -> n = Z.min 4096 (Z.max 0 rem) ->
  forall i, 0 <= i < 4096 -> ldb (memcpy_img (Z.to_nat n) (zero_page w p) p img src) (p + i) = f (k + i).
Proof.
  intros Hp Hi Hn Hf Hsrc En i Hi4. rewrite memcpy_img_byte by done. rewrite Hf by done. rewrite Z2Nat.id by lia.
  destruct (Z.leb_spec p (p + i)), (Z.ltb_spec (p + i) (p + n)), (Z.ltb_spec i rem); cbn [andb]; try lia.
  - f_equal. destruct (Z.eqb_spec (p + i) p).
    + rewrite u64_small by lia. lia.
    + f_equal. lia.
  - by apply zero_page_byte.
Qed.

Section segment.
Context (img : Z -> Z) (ph : proghdr) (Himg : bytes_ok img).
Context (Hal : p_vaddr ph mod 4096 = 0) (Hv : 0 <= p_vaddr ph) (Hf : 0 <= p_filesz ph <= p_memsz ph) (He : p_vaddr ph + p_memsz ph <= 2 ^ 48).
Context (st0 : vm A) (t0 : ptroot).

Abbreviation s0 := (p_vaddr ph / 4096).
Abbreviation e0 := ((p_vaddr ph + p_memsz ph + 4095) / 4096).

(** The pages below [s] are loaded. *)
Definition load_inv st (t : ptroot) (s : Z) : Prop :=
  grows st0 4 t0 st t [] /\
  forall x, in_space x -> if (s0 <=? x) && (x <? s) then page_is (kw st) t x (seg_byte img ph) else maps t x = maps t0 x.

Lemma load_loop_spec : own st0 4 t0 -> (forall x, s0 <= x < e0 -> maps t0 x = None) ->
  forall fuel st t s src rem, s0 <= s <= e0 -> (Z.to_nat (e0 - s) < fuel)%nat -> load_inv st t s ->
  rem = Z.max 0 (p_filesz ph - 4096 * (s - s0)) -> 0 <= src < 2 ^ 64 -> (0 < rem -> src = u64 (p_off ph + 4096 * (s - s0))) ->
  exists st' t' r, load_loop fuel st t.1 img src rem (4096 * s) (p_vaddr ph + p_memsz ph) = Ret (st', r) /\
    (r = 0 /\ load_inv st' t' e0 \/ r = -1 /\ grows st0 4 t0 st' t' []).
Proof.
  intros Ho0 Hfree. assert (Hs0 : 0 <= s0) by (apply Z.div_pos; lia).
  induction fuel as [| fuel IH]; intros st t s src rem Hs Hfuel Hinv Hrem Hsrc Hoff; [lia |].
  destruct Hinv as [G Hm]. pose proof (g_own _ _ _ _ _ _ G) as Ho. pose proof (g_ok _ _ _ _ _ _ G) as Hok.
  cbn [load_loop]. destruct (Z.ltb_spec (4096 * s) (p_vaddr ph + p_memsz ph)) as [Hlt | Hge]; cbn [negb].
  2: { exists st, t, 0. split; [done |]. left. split; [done |]. split; [done |]. intros x Hx. specialize (Hm x Hx).
       destruct (Z.leb_spec s0 x), (Z.ltb_spec x s), (Z.ltb_spec x e0); cbn [andb] in *; try done; Z.div_mod_to_equations; lia. }
  assert (Hse : s < e0) by (Z.div_mod_to_equations; lia).
  assert (Hsp : in_space s) by (unfold in_space; Z.div_mod_to_equations; lia).
  unfold kpage_alloc_vm. destruct (pa_alloc_law (al st) Hok) as (a & [p |] & Ea & Hoka & Hal'); rewrite Ea; cbn [mbind res_bind].
  2: { exists (Vm (kw st) a), t, (-1). split; [done |]. right. split; [done |].
       apply (grows_trans st0 st (Vm (kw st) a) 4 t0 t t [] []); [done | by apply grows_alloc | by intros q ?%elem_of_nil]. }
  destruct Hal' as (Hp & Hnu & Hpu & Heq). cbn [kw al].
  set (n := if rem >? 0 then if rem <? PGSIZE then rem else PGSIZE else 0).
  assert (En : n = Z.min 4096 (Z.max 0 rem)).
  { unfold n, PGSIZE. rewrite Z.gtb_ltb. destruct (Z.ltb_spec 0 rem), (Z.ltb_spec rem 4096); lia. }
  set (w1 := memcpy_img (Z.to_nat n) (zero_page (kw st) p) p img src).
  assert (Hw1 : forall q, is_page q -> q <> p -> same_on (kw st) w1 q).
  { intros q Hq Hne. apply (same_on_trans _ (zero_page (kw st) p)); [apply same_on_zero; auto |].
    pose proof (memcpy_img_same (Z.to_nat n) (zero_page (kw st) p) p 0 img src q Hp Hq (not_eq_sym Hne) ltac:(lia) ltac:(lia)) as Hx.
    by rewrite Z.add_0_r in Hx. }
  assert (Hbytes : forall i, 0 <= i < 4096 -> ldb w1 (p + i) = seg_byte img ph (4096 * s + i)).
  { apply (filled_byte (kw st) p n img src (seg_byte img ph) (p_filesz ph - 4096 * (s - s0)) (4096 * s)); auto; try lia.
    intros i Hi. unfold seg_byte. replace (4096 * s + i - p_vaddr ph) with (4096 * (s - s0) + i) by (Z.div_mod_to_equations; lia).
    destruct (Z.ltb_spec (4096 * s + i) (p_vaddr ph + p_filesz ph)), (Z.ltb_spec i (p_filesz ph - 4096 * (s - s0))); try done; try (Z.div_mod_to_equations; lia).
    rewrite Hoff, u64_add by lia. f_equal. f_equal. lia. }
  assert (Hnone : maps t s = None).
  { specialize (Hm s Hsp). destruct (Z.leb_spec s0 s), (Z.ltb_spec s s); cbn [andb] in Hm; try lia. rewrite Hm. apply Hfree. lia. }
  unfold USER_BASE. rewrite Z.add_0_l, (u64_small (4096 * s)) by lia.
  destruct (map_fresh st t s PAGE_USER w1 a p Ho Hoka Hsp Hnone PAGE_USER_ok Hp Hnu Hpu Heq Hw1)
    as (st' & r & t' & E & [(-> & G' & Hsame & Hnt & Hm') | (-> & (st'' & E2 & G') & Hm')]); rewrite E; cbn [mbind res_bind].
  - change (0 <? 0) with false. cbn iota. rewrite (u64_small (4096 * s + PGSIZE)) by (unfold PGSIZE; lia).
    replace (4096 * s + PGSIZE) with (4096 * (s + 1)) by (unfold PGSIZE; lia).
    rewrite <- (entry_base st st' 3 t t' Ho (g_own _ _ _ _ _ _ G') (g_entry _ _ _ _ _ _ G')).
    apply IH; [lia | lia | | lia | unfold u64; apply Z.mod_pos_bound; lia | intros Hr; rewrite Hoff by lia; rewrite u64_add; f_equal; lia].
    split; [apply (grows_trans st0 st st' 4 t0 t t' [] []); [done | done | by intros q ?%elem_of_nil] |].
    intros x Hx. specialize (Hm x Hx). destruct (Z.eqb_spec x s) as [-> | Hne].
    + destruct (Z.leb_spec s0 s), (Z.ltb_spec s (s + 1)); cbn [andb]; try lia.
      exists p. split; [done |]. split; [rewrite Hm', Z.eqb_refl by done; done |]. intros i Hi. rewrite <- Hbytes by done.
      apply (ldb_same _ _ p); [done | done |]. unfold in_page, PGSIZE. apply andb_true_iff. rewrite Z.leb_le, Z.ltb_lt. lia.
    + assert (Emx : maps t' x = maps t x) by (rewrite Hm' by done; by destruct (Z.eqb_spec x s)).
      destruct (Z.leb_spec s0 x), (Z.ltb_spec x s), (Z.ltb_spec x (s + 1)); cbn [andb] in *; try lia; try (by rewrite Emx).
      by apply (page_is_grows st t st' t').
  - change (-1 <? 0) with true. cbn iota. rewrite E2. cbn [mbind res_bind]. exists st'', t', (-1). split; [done |]. right. split; [done |].
    apply (grows_trans st0 st st'' 4 t0 t t' [] []); [done | done | by intros q ?%elem_of_nil].
Qed.
End segment.

(** ** Lemmas: the program headers *)

Lemma field_range n img o : bytes_ok img -> 0 <= field n img o < 256 ^ Z.of_nat n.
Proof.
  intros Hi. revert o. induction n as [| n IH]; intros o; cbn [field]; [lia |]. specialize (IH (u64 (o + 1))). specialize (Hi o).
  rewrite Nat2Z.inj_succ, Z.pow_succ_r by lia. lia.
Qed.

Lemma phdr_range img i : bytes_ok img -> 0 <= p_vaddr (phdr img i) < 2 ^ 64 /\ 0 <= p_memsz (phdr img i) < 2 ^ 64 /\
  0 <= p_filesz (phdr img i) < 2 ^ 64 /\ 0 <= p_off (phdr img i) < 2 ^ 64.
Proof.
  intros Hi. change (2 ^ 64) with (256 ^ Z.of_nat 8). repeat split; apply (field_range 8 img _ Hi).
Qed.

Lemma segs_S img n : segs img (S n) = segs img n ++ (if decide (p_type (phdr img (Z.of_nat n)) = PT_LOAD) then [phdr img (Z.of_nat n)] else []).
Proof. unfold segs. rewrite seq_S, map_app, filter_app. cbn [map Nat.add]. rewrite filter_cons. by destruct (decide _). Qed.

Lemma segs_prefix img n m : (n <= m)%nat -> exists l, segs img m = segs img n ++ l.
Proof.
  induction 1 as [| m _ [l IH]]; [exists []; by rewrite app_nil_r |]. rewrite segs_S, IH. eexists. by rewrite <- app_assoc.
Qed.

Lemma apart_app l1 l2 ph ph' x : apart (l1 ++ l2) -> ph ∈ l1 -> ph' ∈ l2 -> seg_has ph x = true -> seg_has ph' x = false.
Proof.
  induction l1 as [| q l1 IH]; cbn [app apart]; [by intros _ ?%elem_of_nil |]. intros [Hq Ha] [-> | Hp]%elem_of_cons Hp' Hx; [| by apply IH].
  apply (Hq ph' x); [apply elem_of_app; by right | done].
Qed.

Lemma find_snoc {B} (f : B -> bool) l b : List.find f (l ++ [b]) = match List.find f l with Some c => Some c | None => if f b then Some b else None end.
Proof. induction l as [| c l IH]; cbn; [done |]. by destruct (f c). Qed.

Lemma top_nonneg l : 0 <= top l.
Proof. induction l as [| ph l IH]; [done |]. unfold top in *. cbn. lia. Qed.

Lemma top_snoc l ph : 0 <= p_vaddr ph + p_memsz ph -> top (l ++ [ph]) = Z.max (p_vaddr ph + p_memsz ph) (top l).
Proof. intros Hp. unfold top. rewrite foldr_app. cbn. induction l as [| c l IH]; cbn; lia. Qed.

Lemma load_segment_spec img size ph st0 t0 : bytes_ok img -> pa_ok (al st0) -> own st0 4 t0 -> 0 <= p_vaddr ph -> 0 <= p_filesz ph ->
  p_filesz ph <= p_memsz ph -> p_vaddr ph + p_memsz ph <= 2 ^ 48 -> 0 <= p_off ph < 2 ^ 64 -> u64 (p_off ph + p_filesz ph) <= size ->
  (forall x, seg_has ph x = true -> maps t0 x = None) ->
  exists st' t' r, load_segment st0 t0.1 img (p_off ph) ph = Ret (st', r) /\ grows st0 4 t0 st' t' [] /\
    (r = -1 \/ r = 0 /\ seg_ok size ph /\
     forall x, in_space x -> if seg_has ph x then page_is (kw st') t' x (seg_byte img ph) else maps t' x = maps t0 x).
Proof.
  intros Himg Hok Ho Hv Hf Hm He Hoff Hfile Hfree. unfold load_segment, PGSIZE. change (4096 - 1) with (Z.ones 12). rewrite Z.land_ones by lia. change (2 ^ 12) with 4096.
  destruct (Z.eqb_spec (p_vaddr ph mod 4096) 0) as [Hal | _]; cbn [negb].
  2: { exists st0, t0, (-1). split; [done |]. split; [by apply grows_refl | by left]. }
  destruct (Z.ltb_spec (p_memsz ph) (p_filesz ph)); [lia |]. rewrite u64_small by lia.
  destruct (load_loop_spec img ph Himg Hal Hv ltac:(lia) He st0 t0 Ho
    (fun x Hx => Hfree x ltac:(unfold seg_has; apply andb_true_iff; rewrite Z.leb_le, Z.ltb_lt; lia))
    (S (Z.to_nat ((p_vaddr ph + p_memsz ph - p_vaddr ph) / 4096 + 1))) st0 t0 (p_vaddr ph / 4096) (p_off ph) (p_filesz ph)) as (st' & t' & r & E & Hr).
  - Z.div_mod_to_equations; lia.
  - Z.div_mod_to_equations; lia.
  - split; [by apply grows_refl |]. intros x Hx. destruct (Z.leb_spec (p_vaddr ph / 4096) x), (Z.ltb_spec x (p_vaddr ph / 4096)); cbn [andb]; try lia; done.
  - rewrite Z.sub_diag. lia.
  - done.
  - rewrite Z.sub_diag, Z.add_0_r. by rewrite u64_small.
  - replace (4096 * (p_vaddr ph / 4096)) with (p_vaddr ph) in E by (Z.div_mod_to_equations; lia).
    exists st', t', r. split; [exact E |]. destruct Hr as [[-> [G Hl]] | [-> G]]; (split; [exact G |]); [right | by left].
    split; [done |]. split; [done |]. intros x Hx. exact (Hl x Hx).
Qed.

Section headers.
Context (img : Z -> Z) (size : Z) (Himg : bytes_ok img).
Context (st0 : vm A) (t0 : ptroot).
Context (N : nat) (Hap : apart (segs img N)).

(** The first [i] headers are dealt with. *)
Definition phdr_inv st (t : ptroot) (i : nat) (max_end : Z) : Prop :=
  grows st0 4 t0 st t [] /\ loaded img (segs img i) (kw st) t /\ Forall (seg_ok size) (segs img i) /\ max_end = top (segs img i).

Lemma phdr_inv_skip st t i max_end : p_type (phdr img (Z.of_nat i)) <> PT_LOAD -> phdr_inv st t i max_end -> phdr_inv st t (S i) max_end.
Proof. intros Hn Hi. unfold phdr_inv. rewrite segs_S, decide_False, app_nil_r by done. exact Hi. Qed.

Lemma loaded_snoc st t st' t' l ph : grows st0 4 t0 st t [] -> grows st 4 t st' t' [] -> loaded img l (kw st) t ->
  (forall ph' x, ph' ∈ l -> seg_has ph' x = true -> seg_has ph x = false) ->
  (forall x, in_space x -> if seg_has ph x then page_is (kw st') t' x (seg_byte img ph) else maps t' x = maps t x) ->
  loaded img (l ++ [ph]) (kw st') t'.
Proof.
  intros G G' Hl Hd Hn x Hx. specialize (Hl x Hx). specialize (Hn x Hx). rewrite find_snoc.
  destruct (List.find (fun ph => seg_has ph x) l) as [q |] eqn:E.
  - apply find_some in E as [Hq Hqx]. rewrite (Hd q x) in Hn; [| by apply list_elem_of_In | done].
    apply (page_is_grows st t); [apply G | done | done | done].
  - destruct (seg_has ph x); [exact Hn |]. by rewrite Hn.
Qed.

Lemma phdr_loop_spec eh : eh = elfhdr_at img -> phentsize eh = sizeof_proghdr -> forall n st t i max_end, (i + n = N)%nat -> Z.of_nat N < 2 ^ 16 -> phdr_inv st t i max_end ->
  exists st' t' r, phdr_loop n st t.1 img size eh (Z.of_nat i) max_end = Ret (st', r) /\ grows st0 4 t0 st' t' [] /\
    (r = None \/ exists e, r = Some e /\ phdr_inv st' t' N e).
Proof.
  intros Eeh Hes. induction n as [| n IH]; intros st t i max_end Hn HN Hinv; cbn [phdr_loop].
  { exists st, t, (Some max_end). rewrite Nat.add_0_r in Hn. subst i. split; [done |]. split; [apply Hinv | right]. by exists max_end. }
  assert (Hfail : exists st' t' r, Ret (st, None) = Ret (st', r) /\ grows st0 4 t0 st' t' [] /\ (r = None \/ exists e, r = Some e /\ phdr_inv st' t' N e)).
  { exists st, t, None. split; [done |]. split; [apply Hinv | by left]. }
  destruct (u64 (_ + sizeof_proghdr) >? size); [exact Hfail |].
  assert (Eph : proghdr_at img (u64 (phoff eh + u64 (Z.of_nat i * phentsize eh))) = phdr img (Z.of_nat i)) by (unfold phdr; by rewrite <- Eeh, Hes).
  rewrite Eph. set (ph := phdr img (Z.of_nat i)) in *.
  destruct (phdr_range img (Z.of_nat i) Himg) as (R1 & R2 & R3 & R4). fold ph in R1, R2, R3, R4.
  replace (Z.of_nat i + 1) with (Z.of_nat (S i)) by lia.
  destruct (Z.eqb_spec (p_type ph) PT_LOAD) as [Hty | Hty]; cbn [negb].
  2: { apply IH; [lia | done | by apply phdr_inv_skip]. }
  destruct (Z.ltb_spec (p_memsz ph) (p_filesz ph)) as [| Hsz]; [exact Hfail |].
  destruct (Z.ltb_spec (u64 (p_vaddr ph + p_memsz ph)) (p_vaddr ph)) as [| Hov]; [exact Hfail |].
  rewrite !Z.gtb_ltb. destruct (Z.ltb_spec MAXUVA (u64 (p_vaddr ph + p_memsz ph))) as [| Hmax]; [exact Hfail |].
  destruct (Z.ltb_spec size (u64 (p_off ph + p_filesz ph))) as [| Hfile]; [exact Hfail |].
  assert (Eend : u64 (p_vaddr ph + p_memsz ph) = p_vaddr ph + p_memsz ph).
  { destruct (Z.lt_ge_cases (p_vaddr ph + p_memsz ph) (2 ^ 64)); [apply u64_small; lia |]. exfalso.
    assert (u64 (p_vaddr ph + p_memsz ph) = p_vaddr ph + p_memsz ph - 2 ^ 64); [| lia].
    unfold u64. symmetry. apply (Z.mod_unique _ _ 1); lia. }
  rewrite Eend in *. change MAXUVA with (2 ^ 48) in Hmax. destruct Hinv as (G & Hl & Hok & Htop).
  assert (Hdis : forall ph' x, ph' ∈ segs img i -> seg_has ph' x = true -> seg_has ph x = false).
  { intros ph' x Hp Hx. destruct (segs_prefix img (S i) N ltac:(lia)) as [l El]. rewrite segs_S in El. fold ph in El. rewrite decide_True, <- app_assoc in El by done.
    rewrite El in Hap. apply (apart_app (segs img i) ([ph] ++ l) ph' ph x Hap Hp); [left | done]. }
  destruct (load_segment_spec img size ph st t Himg (g_ok _ _ _ _ _ _ G) (g_own _ _ _ _ _ _ G)) as (st' & t' & r & E & G' & Hr); try lia.
  { intros x Hx. assert (Hsp : in_space x).
    { unfold seg_has in Hx. apply andb_true_iff in Hx as [Hx1%Z.leb_le Hx2%Z.ltb_lt]. unfold in_space. Z.div_mod_to_equations. lia. }
    specialize (Hl x Hsp). destruct (List.find _ _) as [q |] eqn:Ef; [| exact Hl]. apply find_some in Ef as [Hq Hqx].
    rewrite (Hdis q x) in Hx; [done | by apply list_elem_of_In | done]. }
  rewrite E. cbn [mbind res_bind].
  assert (G2 : grows st0 4 t0 st' t' []) by (apply (grows_trans st0 st st' 4 t0 t t' [] []); [done | done | by intros q ?%elem_of_nil]).
  destruct Hr as [-> | (-> & Hseg & Hmaps)]; [exists st', t', None; split; [done |]; split; [exact G2 | by left] |].
  change (0 <? 0) with false. cbn iota.
  rewrite <- (entry_base st st' 3 t t' (g_own _ _ _ _ _ _ G) (g_own _ _ _ _ _ _ G') (g_entry _ _ _ _ _ _ G')).
  apply IH; [lia | done |]. split; [exact G2 |]. rewrite segs_S. fold ph. rewrite decide_True by done. split; [| split].
  - by apply (loaded_snoc st t).
  - apply Forall_app. split; [done | by constructor].
  - rewrite top_snoc by lia. rewrite <- Htop. destruct (Z.ltb_spec max_end (p_vaddr ph + p_memsz ph)); lia.
Qed.
End headers.

(** [loadelf] into an empty address space: the tree only grows, and on success the image
    passes every check and is loaded. *)
Lemma loadelf_spec img size st0 t0 : bytes_ok img -> pa_ok (al st0) -> own st0 4 t0 -> (forall x, in_space x -> maps t0 x = None) ->
  let l := segs img (Z.to_nat (phnum (elfhdr_at img))) in
  apart l ->
  exists st' t' r, loadelf st0 t0.1 img size = Ret (st', r) /\ grows st0 4 t0 st' t' [] /\
  match r with
  | None => True
  | Some (entry, sz) => sizeof_elfhdr <= size /\ bad_ident (elfhdr_at img) = false /\ Forall (seg_ok size) l /\
      loaded img l (kw st') t' /\ entry = entry_pc (elfhdr_at img) /\ 0 < top l <= 2 ^ 48 /\ sz = PGROUNDUP (top l)
  end.
Proof.
  intros Himg Hok Ho Hempty l Hap. unfold loadelf. assert (Hfail : exists st' t' (r : option (Z * Z)), Ret (st0, None) = Ret (st', r) /\
    grows st0 4 t0 st' t' [] /\ r = None) by (exists st0, t0, None; split; [done |]; split; [by apply grows_refl | done]).
  destruct Hfail as (sf & tf & rf & Ef & Gf & ->).
  destruct (Z.ltb_spec size sizeof_elfhdr) as [| Hsz]; [by exists sf, tf, None |].
  destruct (bad_ident (elfhdr_at img)) eqn:Hb; [by exists sf, tf, None |].
  assert (Hes : phentsize (elfhdr_at img) = sizeof_proghdr).
  { unfold bad_ident in Hb. apply orb_false_iff in Hb as [_ Hb]. by apply negb_false_iff, Z.eqb_eq in Hb. }
  assert (Hnum : 0 <= phnum (elfhdr_at img) < 2 ^ 16) by apply (field_range 2 img 56 Himg).
  destruct (phdr_loop_spec img size Himg st0 t0 (Z.to_nat (phnum (elfhdr_at img))) Hap (elfhdr_at img) eq_refl Hes
    (Z.to_nat (phnum (elfhdr_at img))) st0 t0 0 0 eq_refl ltac:(lia)) as (st' & t' & r & E & G & Hr).
  { split; [by apply grows_refl |]. split; [intros x Hx; by apply Hempty |]. split; [by constructor | done]. }
  change (Z.of_nat 0) with 0 in E. rewrite E. cbn [mbind res_bind].
  destruct Hr as [-> | (e & -> & _ & Hl & Hsegs & ->)]; [by exists st', t', None |].
  fold l in Hl, Hsegs |- *. destruct (Z.eqb_spec (top l) 0) as [| Htop]; [by exists st', t', None |].
  exists st', t', (Some (entry_pc (elfhdr_at img), PGROUNDUP (top l))). split; [done |]. split; [done |]. split; [done |]. split; [done |]. split; [done |]. split; [done |].
  split; [done |]. split; [| done]. pose proof (top_nonneg l). split; [lia |].
  clear -Hsegs. induction Hsegs as [| p l Hp _ IH]; [done |]. destruct Hp as (_ & _ & Hp & _). unfold top in *. cbn. lia.
Qed.
End proofs.

(** ** Theorems *)

Lemma lor_page_user p i : Z.testbit PAGE_USER i = true -> Z.testbit (Z.lor (KVA_TO_PA p) PAGE_USER) i = true.
Proof. intros Hi. by rewrite Z.lor_spec, Hi, orb_true_r. Qed.

Lemma page_is_ubyte w t x f va : page_is w t x f -> va / 4096 = x -> ubyte w t va = Some (f va).
Proof.
  intros (p & Hp & Hm & Hf) Hx. unfold ubyte, uaddr. rewrite Hx, Hm. unfold el0_ok. rewrite !lor_page_user by done.
  cbn [andb negb fmap option_fmap option_map]. f_equal. rewrite leafpage_desc by (done || apply PAGE_USER_ok).
  rewrite Hf by (Z.div_mod_to_equations; lia). f_equal. Z.div_mod_to_equations. lia.
Qed.


(** ** Witnesses *)

Definition byte_list (l : list Z) : Z -> Z := fun i => default 0 (l !! Z.to_nat i).

Fixpoint le (n : nat) (x : Z) : list Z := match n with O => [] | S n' => x mod 256 :: le n' (x / 256) end.

(** An ELF header with its program headers at [off]. *)
Definition demo_ehdr (off : Z) : list Z :=
  [0x7F; 69; 76; 70; 2; 1; 1; 0] ++ le 8 0 ++ le 2 ET_EXEC ++ le 2 EM_AARCH64 ++ le 4 1 ++ le 8 0x1000 ++ le 8 off ++ le 8 0
  ++ le 4 0 ++ le 2 64 ++ le 2 sizeof_proghdr ++ le 2 1 ++ le 2 0 ++ le 2 0 ++ le 2 0.

(** A segment of two bytes at [vaddr] 0x1000, 0x800 with its zeroes. *)
Definition demo_phdr (off : Z) : list Z := le 4 PT_LOAD ++ le 4 7 ++ le 8 off ++ le 8 0x1000 ++ le 8 0x1000 ++ le 8 2 ++ le 8 0x800 ++ le 8 0x1000.

Definition demo_img : Z -> Z := byte_list (demo_ehdr 64 ++ demo_phdr 120 ++ [17; 18]).

Lemma byte_list_ok l : Forall (fun b => 0 <= b < 256) l -> bytes_ok (byte_list l).
Proof.
  intros Hl i. unfold byte_list. destruct (l !! Z.to_nat i) as [b |] eqn:E; cbn; [| lia].
  rewrite Forall_lookup in Hl. exact (Hl _ _ E).
Qed.

Lemma demo_img_ok : bytes_ok demo_img.
Proof. apply byte_list_ok, (bool_decide_unpack _). vm_compute. exact I. Qed.


(** The check of the program header against the size of the file wraps around: for a header
    table 56 bytes below the top of the offsets, what [loadelf] does depends on bytes before
    the image, which the size does not cover. *)
Definition wild_img (l : list Z) : Z -> Z :=
  fun i => if i <? 2 ^ 63 then byte_list (demo_ehdr (2 ^ 64 - 56)) i else byte_list l (i - (2 ^ 64 - 56)).

Theorem loadelf_reads_outside : exists img img', (forall i, 0 <= i < 64 -> img i = img' i) /\
  (exists st, loadelf st_empty (page_no 0) img 64 = Ret (st, None)) /\
  (exists st, loadelf st_empty (page_no 0) img' 64 = Ret (st, Some (0x1000, 0x2000))).
Proof.
  exists (wild_img []), (wild_img (demo_phdr 0)). split; [| split].
  - intros i Hi. unfold wild_img. destruct (Z.ltb_spec i (2 ^ 63)); [reflexivity | lia].
  - assert (Hc : (match loadelf st_empty (page_no 0) (wild_img []) 64 with Ret (_, r) => Some r | Panic _ => None end) = Some None) by (vm_compute; reflexivity).
    destruct (loadelf st_empty (page_no 0) (wild_img []) 64) as [[st r] |]; [| discriminate Hc]. injection Hc as ->. exists st. reflexivity.
  - assert (Hc : (match loadelf st_empty (page_no 0) (wild_img (demo_phdr 0)) 64 with Ret (_, r) => r | Panic _ => None end) = Some (0x1000, 0x2000)) by (vm_compute; reflexivity).
    destruct (loadelf st_empty (page_no 0) (wild_img (demo_phdr 0)) 64) as [[st r] |]; [| discriminate Hc]. subst r. exists st. reflexivity.
Qed.
