(* ===== verification/Exec.v ===== *)
(** * exec

    Models [exec] of kern/exec.c: resolving the path, building the new address space, copying
    the arguments from the old one, laying out the stack, and the switch. The blobs linked
    with the kernel are the argument [blobs]; a kernel string is the list of its bytes
    without the terminator. The process is [task]: the fields of [struct proc] that exec
    replaces, private to the process, with TTBR0 of its CPU. [asid_flush] only drops TLB
    entries (see [Asid]). *)

From S2P Require Import Prelude Bits Mmu Pages Pmap Copy Elf.

Definition MAXARG : Z := 32.
Definition sizeof_name : nat := 16.

(** trapframe.h *)
Record trapframe := Trapframe { tf_x : Z -> Z; tf_sp : Z; tf_elr : Z; tf_spsr : Z; tf_tpidr : Z }.

Record task := Task {
  pagetable : Z;
  sz : Z;
  tf : trapframe;
  name : list Z;                (* char name[16] *)
  ttbr0 : Z
}.

Definition chars (s : string) : list Z := map (fun c => Z.of_N (Ascii.N_of_ascii c)) (String.list_ascii_of_string s).

Definition blob : Type := (Z -> Z) * Z.

(** The embedded program table; the loop over it compares with [strcmp]. *)
Definition embedded_progs (init argvtest faulttest : blob) : list (list Z * blob) :=
  [(chars "/init", init); (chars "/argv_test", argvtest); (chars "/fault_test", faulttest)].

Fixpoint resolve (l : list (list Z * blob)) (path : list Z) : option blob :=
  match l with [] => None | (q, b) :: l' => if decide (path = q) then Some b else resolve l' path end.

(** The part of the path after the last '/'. *)
Fixpoint basename (base path : list Z) : list Z :=
  match path with [] => base | c :: q => basename (if c =? 47 then q else base) q end.

(** strncpy(name, base, 15); name[15] = 0 *)
Definition set_name (base : list Z) : list Z :=
  let l := take (sizeof_name - 1) base in l ++ replicate (sizeof_name - length l) 0.

(** Bytes [l] stored from [dst] on, and memcpy within kernel memory. *)
Fixpoint store_bytes (w : Z -> Z) (dst : Z) (l : list Z) : Z -> Z :=
  match l with [] => w | b :: l' => store_bytes (stb w dst b) (dst + 1) l' end.

Fixpoint memcpy_kw (n : nat) (w : Z -> Z) (dst src : Z) : Z -> Z :=
  match n with O => w | S n' => memcpy_kw n' (stb w dst (ldb w src)) (dst + 1) (src + 1) end.

(** strlen of a string inside a page, whose bytes are the measure. *)
Fixpoint strlen_kw (fuel : nat) (w : Z -> Z) (a : Z) : Z :=
  match fuel with O => 0 | S f => if ldb w a =? 0 then 0 else 1 + strlen_kw f w (a + 1) end.

Fixpoint le_val (l : list Z) : Z := match l with [] => 0 | b :: l' => b + 256 * le_val l' end.

(** for (argc = 0; argc < MAXARG; argc++): [n] turns are left; [None] is goto bad. *)
Fixpoint arg_loop (n : nat) (w : Z -> Z) (pagetable uargv argbuf argc pos : Z) : (Z -> Z) * option (Z * Z) :=
  match n with
  | O => (w, Some (argc, pos))
  | S n' =>
      let '(r, l) := copyin w pagetable (u64 (uargv + u64 (argc * 8))) 8 in
      if r <? 0 then (w, None)
      else
        let uarg := le_val l in
        if uarg =? 0 then (w, Some (argc, pos))
        else
          let '(slen, l) := copyinstr w pagetable uarg (u64 (PGSIZE - pos)) in
          let w := store_bytes w (argbuf + pos) l in
          if slen <? 0 then (w, None)
          else arg_loop n' w pagetable uargv argbuf (argc + 1) (u64 (pos + slen + 1))
  end.

(** The argv pointers, re-derived from the packed strings. *)
Fixpoint put_argv (n : nat) (w : Z -> Z) (ws argbuf strbase off i : Z) : Z -> Z :=
  match n with
  | O => w
  | S n' =>
      let w := w.[ws + 8 * (1 + i) <- u64 (strbase + off)] in
      put_argv n' w ws argbuf strbase (off + strlen_kw (Z.to_nat PGSIZE) w (argbuf + off) + 1) (i + 1)
  end.

(** The new stack page; [None] when the information block does not fit. *)
Definition exec_stack (w : Z -> Z) (stack argbuf new_sz argc pos : Z) : (Z -> Z) * option Z :=
  let strbase := Z.land (u64 (new_sz + PGSIZE - pos)) (not64 0xf) in
  let w := if negb (pos =? 0) then memcpy_kw (Z.to_nat pos) w (stack + (strbase - new_sz)) argbuf else w in
  let infosz := (argc + 5) * 8 in
  let sp := Z.land (u64 (strbase - infosz)) (not64 0xf) in
  if sp <? new_sz then (w, None)
  else
    let ws := stack + (sp - new_sz) in
    let w := w.[ws <- argc] in
    let w := put_argv (Z.to_nat argc) w ws argbuf strbase 0 0 in
    let w := w.[ws + 8 * (1 + argc) <- 0] in
    let w := w.[ws + 8 * (2 + argc) <- 0] in
    let w := w.[ws + 8 * (3 + argc) <- 0] in
    let w := w.[ws + 8 * (4 + argc) <- 0] in
    (w, Some sp).

Section ops.
Context {A : Type} `{PageAlloc A}.

(** The scratch page, if one was taken, and argc with the length of the packed strings. *)
Definition exec_args (st : vm A) (pagetable uargv : Z) : res (vm A * option Z * option (Z * Z)) :=
  if uargv =? 0 then Ret (st, None, Some (0, 0))
  else
    '(st, argbuf) ← kpage_alloc_vm st;
    match argbuf with
    | None => Ret (st, None, None)
    | Some b =>
        let '(w, r) := arg_loop (Z.to_nat MAXARG) (kw st) pagetable uargv b 0 0 in
        Ret (Vm w (al st), Some b,
             match r with Some (argc, pos) => if argc =? MAXARG then None else Some (argc, pos) | None => None end)
    end.

Definition free_argbuf (st : vm A) (argbuf : option Z) : res (vm A) :=
  match argbuf with Some b => kpage_free_vm st b | None => Ret st end.

(** The label bad: the stack page is mapped, so uvmfree frees it. *)
Definition exec_bad (st : vm A) (p : task) (argbuf : option Z) (npt : Z) : res (vm A * task * Z) :=
  st ← free_argbuf st argbuf; st ← uvmfree st npt; Ret (st, p, -1).

(** Phase 2. *)
Definition exec_commit (st : vm A) (p : task) (asid : Z) (path : list Z) (npt new_sz entry sp : Z) : res (vm A * task * Z) :=
  ttbr ← switchuvm_ttbr asid npt;
  let p' := {| pagetable := npt; sz := u64 (new_sz + PGSIZE); tf := Trapframe (fun _ => 0) sp entry 0 0;
               name := set_name (basename path path); ttbr0 := ttbr |} in
  st ← uvmfree st (pagetable p);
  Ret (st, p', 0).

Definition exec (blobs : list (list Z * blob)) (st : vm A) (p : task) (asid : Z) (path : list Z) (uargv : Z) : res (vm A * task * Z) :=
  match resolve blobs path with
  | None => Ret (st, p, -1)
  | Some (img, size) =>
      '(st, npt) ← uvmcreate st;
      match npt with
      | None => Ret (st, p, -1)
      | Some npt =>
          '(st, r) ← loadelf st npt img size;
          match r with
          | None => st ← uvmfree st npt; Ret (st, p, -1)
          | Some (entry, new_sz) =>
              '(st, stack) ← kpage_alloc_vm st;
              match stack with
              | None => st ← uvmfree st npt; Ret (st, p, -1)
              | Some stack =>
                  let st := Vm (zero_page (kw st) stack) (al st) in
                  '(st, r) ← mappages st npt (u64 (USER_BASE + new_sz)) (KVA_TO_PA stack) PGSIZE PAGE_USER;
                  if r <? 0 then st ← kpage_free_vm st stack; st ← uvmfree st npt; Ret (st, p, -1)
                  else
                    '(st, argbuf, args) ← exec_args st (pagetable p) uargv;
                    match args with
                    | None => exec_bad st p argbuf npt
                    | Some (argc, pos) =>
                        let '(w, sp) := exec_stack (kw st) stack (default 0 argbuf) new_sz argc pos in
                        let st := Vm w (al st) in
                        match sp with
                        | None => exec_bad st p argbuf npt
                        | Some sp => st ← free_argbuf st argbuf; exec_commit st p asid path npt new_sz entry sp
                        end
                    end
              end
          end
      end
  end.
End ops.

(** ** Specification: arguments *)

#[local] Abbreviation ptroot := (ptree 4).

(** The strings as packed, each with its terminator. *)
Definition packed (args : list (list Z)) : list Z := concat (map (fun s => s ++ [0]) args).

(** The entry [i] of the argv array at [uargv] is a pointer to the string [s]. *)
Definition arg_at (w : Z -> Z) (t : ptroot) (uargv : Z) (i : nat) (s : list Z) : Prop :=
  exists l, length l = 8%nat /\ reads w t (uargv + 8 * Z.of_nat i) l /\ le_val l <> 0 /\ 0 ∉ s /\ reads w t (le_val l) (s ++ [0]).

(** The process passes exactly the arguments [args]. *)
Definition argv_at (w : Z -> Z) (t : ptroot) (uargv : Z) (args : list (list Z)) : Prop :=
  forall i s, args !! i = Some s -> arg_at w t uargv i s.

Definition argv_end (w : Z -> Z) (t : ptroot) (uargv : Z) (args : list (list Z)) : Prop :=
  exists l, length l = 8%nat /\ reads w t (uargv + 8 * Z.of_nat (length args)) l /\ le_val l = 0.

(** ** Lemmas: bytes in kernel memory *)

Definition only_page (w w' : Z -> Z) (b : Z) : Prop := forall q, is_page q -> q <> b -> same_on w w' q.

Lemma only_page_trans w1 w2 w3 b : only_page w1 w2 b -> only_page w2 w3 b -> only_page w1 w3 b.
Proof. intros H1 H2 q Hq Hne. apply (same_on_trans _ w2); auto. Qed.

Lemma only_page_refl w b : only_page w w b.
Proof. by intros q _ _ a _. Qed.

Lemma in_page_off b i : 0 <= i < 4096 -> in_page b (b + i) = true.
Proof. intros. unfold in_page, PGSIZE. apply andb_true_iff. rewrite Z.leb_le, Z.ltb_lt. lia. Qed.

Lemma store_bytes_byte l : Forall (fun b => 0 <= b < 256) l -> forall w dst a, ldb (store_bytes w dst l) a =
  if (dst <=? a) && (a <? dst + Z.of_nat (length l)) then default 0 (l !! Z.to_nat (a - dst)) else ldb w a.
Proof.
  induction 1 as [| b l Hb Hl IH]; intros w dst a; cbn [store_bytes length].
  { destruct (Z.leb_spec dst a), (Z.ltb_spec a (dst + Z.of_nat 0)); cbn [andb]; try lia; done. }
  rewrite IH, ldb_stb by done. destruct (Z.eqb_spec a dst) as [-> | Hne].
  - destruct (Z.leb_spec (dst + 1) dst), (Z.leb_spec dst dst), (Z.ltb_spec dst (dst + Z.of_nat (S (length l)))); cbn [andb]; try lia.
    by rewrite Z.sub_diag.
  - destruct (Z.leb_spec (dst + 1) a), (Z.leb_spec dst a), (Z.ltb_spec a (dst + 1 + Z.of_nat (length l))), (Z.ltb_spec a (dst + Z.of_nat (S (length l))));
      cbn [andb]; try lia; try done.
    by replace (Z.to_nat (a - dst)) with (S (Z.to_nat (a - (dst + 1)))) by lia.
Qed.

Lemma store_bytes_only l b : is_page b -> forall w d, 0 <= d -> d + Z.of_nat (length l) <= 4096 -> only_page w (store_bytes w (b + d) l) b.
Proof.
  intros Hb. induction l as [| x l IH]; intros w d Hd Hn; cbn [store_bytes]; [apply only_page_refl |]. cbn [length] in Hn.
  apply (only_page_trans _ (stb w (b + d) x)); [intros q Hq Hne; apply (stb_same _ _ _ b q); auto; apply in_page_off; lia |].
  replace (b + d + 1) with (b + (d + 1)) by lia. apply IH; lia.
Qed.

Lemma le_val_range l : Forall (fun b => 0 <= b < 256) l -> 0 <= le_val l < 256 ^ Z.of_nat (length l).
Proof. induction 1 as [| b l Hb _ IH]; cbn [le_val length]; [lia |]. rewrite Nat2Z.inj_succ, Z.pow_succ_r by lia. lia. Qed.

Lemma reads_bytes w t src l : reads w t src l -> Forall (fun b => 0 <= b < 256) l.
Proof. intros Hr. apply Forall_lookup. intros i b Hb. by apply (ubyte_range w t (src + Z.of_nat i)), Hr. Qed.

Section proofs.
Context {A : Type} `{PageAllocLaws A}.
Implicit Types st : vm A.

(** Memory that changes outside the pages of a tree leaves the process alone. *)
Lemma own_frame st (t : ptroot) w' : own st 4 t -> (forall q, q ∈ pgs 4 t -> same_on (kw st) w' q) ->
  own (Vm w' (al st)) 4 t /\ forall va, ubyte w' t va = ubyte (kw st) t va.
Proof.
  intros Ho Hs. split.
  - destruct Ho as (Hr & Hnd & Hu). split; [| split; [exact Hnd | exact Hu]]. apply (rep_frame (kw st)); [| exact Hr].
    intros q Hq. apply Hs. by apply tabs_pgs.
  - intros va. unfold ubyte. destruct (uaddr false t va) as [a |] eqn:E; [| done].
    destruct (uaddr_page false st t va a Ho E) as (v & _ & _ & Hp & Hin & Hpg & _). cbn [fmap option_fmap option_map]. f_equal.
    apply (ldb_same _ _ (leafpage v)); [done | by apply Hs | done].
Qed.

Lemma reads_ext w w' t src l : (forall va, ubyte w' t va = ubyte w t va) -> reads w' t src l -> reads w t src l.
Proof. intros Hu Hr i b Hb. rewrite <- Hu. by apply Hr. Qed.

Lemma copyin_8 st (t : ptroot) src : own st 4 t -> 0 <= src < 2 ^ 64 ->
  let '(r, l) := copyin (kw st) t.1 src 8 in
  r = -1 \/ r = 0 /\ length l = 8%nat /\ src + 8 <= 2 ^ 48 /\ reads (kw st) t src l.
Proof.
  intros Ho Hs. unfold copyin. change (8 =? 0) with false. rewrite range_ok by lia. cbn iota.
  destruct (Z.leb_spec (src + 8) (2 ^ 48)); cbn [negb]; [| by left].
  pose proof (copyin_bytes_spec (Z.to_nat 8) st t src Ho ltac:(lia) ltac:(lia)) as Hc.
  destruct (copyin_bytes _ _ _ _) as [r l]. destruct Hc as [[[-> Hl] | [-> _]] Hr]; [right; done | by left].
Qed.

Lemma copyinstr_length n w pt src i : (length (copyinstr_bytes n w pt src i).2 <= n)%nat.
Proof.
  revert src i. induction n as [| n IH]; intros src i; cbn [copyinstr_bytes]; [done |].
  destruct (ldtrb w pt src) as [b |]; cbn; [| lia]. destruct (b =? 0); cbn; [lia |].
  specialize (IH (u64 (src + 1)) (i + 1)). destruct (copyinstr_bytes _ _ _ _ _) as [r l]. cbn in *. lia.
Qed.

Lemma copyinstr_page st (t : ptroot) src max : own st 4 t -> 0 <= src < 2 ^ 64 -> 0 <= max <= 4096 ->
  let '(r, l) := copyinstr (kw st) t.1 src max in
  Forall (fun b => 0 <= b < 256) l /\ Z.of_nat (length l) <= max /\
  (r = -1 \/ exists s, l = s ++ [0] /\ r = Z.of_nat (length s) /\ 0 ∉ s /\ reads (kw st) t src l).
Proof.
  intros Ho Hs Hm. unfold copyinstr.
  assert (Hnil : Forall (fun b => 0 <= b < 256) ([] : list Z) /\ Z.of_nat (length ([] : list Z)) <= max) by (split; [constructor | cbn; lia]).
  destruct (Z.eqb_spec max 0) as [-> | Hne]; [split; [apply Hnil |]; split; [apply Hnil | by left] |].
  rewrite range_ok by lia. destruct (Z.leb_spec (src + max) (2 ^ 48)); cbn [negb]; [| split; [apply Hnil |]; split; [apply Hnil | by left]].
  pose proof (copyinstr_bytes_spec (Z.to_nat max) st t src 0 Ho ltac:(lia) ltac:(lia)) as Hc.
  pose proof (copyinstr_length (Z.to_nat max) (kw st) t.1 src 0) as Hlen.
  destruct (copyinstr_bytes _ _ _ _ _) as [r l]. destruct Hc as [Hr Hc]. cbn in Hlen. split; [by apply (reads_bytes (kw st) t src) |].
  split; [lia |]. destruct Hc as [(s & -> & -> & _ & Hz) | [-> _]]; [right; exists s | by left]. split; [done |]. split; [lia |]. done.
Qed.

Lemma packed_snoc args s : packed (args ++ [s]) = packed args ++ s ++ [0].
Proof. unfold packed. rewrite map_app, concat_app. cbn. by rewrite app_nil_r. Qed.

(** The bytes [l] are in memory from [a] on. *)
Definition holds_bytes (w : Z -> Z) (a : Z) (l : list Z) : Prop := forall i b, l !! i = Some b -> ldb w (a + Z.of_nat i) = b.

Lemma holds_store w a l l' : holds_bytes w a l -> Forall (fun b => 0 <= b < 256) l' ->
  holds_bytes (store_bytes w (a + Z.of_nat (length l)) l') a (l ++ l').
Proof.
  intros Hl Hb i b. rewrite store_bytes_byte by done. intros Hi. destruct (Nat.lt_ge_cases i (length l)).
  - rewrite lookup_app_l in Hi by done. rewrite <- (Hl i b Hi).
    destruct (Z.leb_spec (a + Z.of_nat (length l)) (a + Z.of_nat i)); [lia | done].
  - rewrite lookup_app_r in Hi by done. pose proof (lookup_lt_Some _ _ _ Hi).
    destruct (Z.leb_spec (a + Z.of_nat (length l)) (a + Z.of_nat i)), (Z.ltb_spec (a + Z.of_nat i) (a + Z.of_nat (length l) + Z.of_nat (length l'))); cbn [andb]; try lia.
    replace (Z.to_nat (a + Z.of_nat i - (a + Z.of_nat (length l)))) with (i - length l)%nat by lia. by rewrite Hi.
Qed.

Section args.
Context (st : vm A) (t : ptroot) (Ho : own st 4 t) (b uargv : Z) (Hb : is_page b) (Hbt : b ∉ pgs 4 t) (Hu : 0 <= uargv < 2 ^ 64).

(** The scratch page holds the arguments [args] the process passes so far. *)
Definition args_in (w : Z -> Z) (args : list (list Z)) : Prop :=
  only_page (kw st) w b /\ argv_at (kw st) t uargv args /\ Z.of_nat (length (packed args)) <= 4096 /\ holds_bytes w b (packed args).

Lemma args_frame w : only_page (kw st) w b -> own (Vm w (al st)) 4 t /\ forall va, ubyte w t va = ubyte (kw st) t va.
Proof. intros Hw. apply own_frame; [done |]. intros q Hq. apply Hw; [by apply Ho |]. intros ->. exact (Hbt Hq). Qed.

Lemma arg_loop_spec n : forall w args, (length args + n = 32)%nat -> (args <> [] -> uargv < 2 ^ 48) -> args_in w args ->
  let '(w', r) := arg_loop n w t.1 uargv b (Z.of_nat (length args)) (Z.of_nat (length (packed args))) in
  only_page (kw st) w' b /\
  forall argc pos, r = Some (argc, pos) -> exists args', args_in w' args' /\ argc = Z.of_nat (length args') /\ pos = Z.of_nat (length (packed args')) /\
    (length args' <= 32)%nat /\ (argc <> MAXARG -> argv_end (kw st) t uargv args').
Proof.
  induction n as [| n IH]; intros w args Hn Hlow Hin; cbn [arg_loop].
  { split; [apply Hin |]. intros argc pos [= <- <-]. exists args. split; [done |]. split; [done |]. split; [done |]. split; [lia |]. unfold MAXARG. lia. }
  destruct Hin as (Hw & Hargs & Hlen & Hbytes). destruct (args_frame w Hw) as [Ho' Hub].
  assert (Es : u64 (uargv + u64 (Z.of_nat (length args) * 8)) = uargv + 8 * Z.of_nat (length args)).
  { rewrite (u64_small (_ * 8)) by lia. destruct args as [| a args]; [rewrite u64_small by (cbn; lia); cbn; lia |]. specialize (Hlow ltac:(done)). rewrite u64_small by lia. lia. }
  rewrite Es. pose proof (copyin_8 (Vm w (al st)) t (uargv + 8 * Z.of_nat (length args)) Ho') as Hc. cbn [kw] in Hc.
  destruct (copyin w t.1 _ 8) as [r l]. destruct Hc as [-> | (-> & Hl8 & Hr48 & Hread)].
  { rewrite <- Es. apply u64_range. }
  { change (-1 <? 0) with true. cbn iota. split; [done |]. intros; discriminate. }
  change (0 <? 0) with false. cbn iota. pose proof (le_val_range l (reads_bytes _ _ _ _ Hread)) as Hptr. rewrite Hl8 in Hptr.
  apply (reads_ext (kw st) w) in Hread; [| done].
  destruct (Z.eqb_spec (le_val l) 0) as [Hz | Hnz].
  { split; [done |]. intros argc pos [= <- <-]. exists args. split; [done |]. split; [done |]. split; [done |]. split; [lia |]. intros _. by exists l. }
  rewrite (u64_small (PGSIZE - _)) by (unfold PGSIZE; lia).
  pose proof (copyinstr_page (Vm w (al st)) t (le_val l) (PGSIZE - Z.of_nat (length (packed args))) Ho' Hptr ltac:(unfold PGSIZE; lia)) as Hs. cbn [kw] in Hs.
  destruct (copyinstr w t.1 (le_val l) _) as [slen l']. destruct Hs as (Hb' & Hlen' & Hs). unfold PGSIZE in Hlen'.
  set (w1 := store_bytes w (b + Z.of_nat (length (packed args))) l').
  assert (Hw1 : only_page (kw st) w1 b) by (apply (only_page_trans _ w); [done | apply store_bytes_only; [done | lia | lia]]).
  destruct Hs as [-> | (s & -> & -> & Hz & Hs)].
  { change (-1 <? 0) with true. cbn iota. split; [done |]. intros; discriminate. }
  destruct (Z.ltb_spec (Z.of_nat (length s)) 0); [lia |]. rewrite length_app in Hlen'. cbn [length] in Hlen'.
  assert (Epos : u64 (Z.of_nat (length (packed args)) + Z.of_nat (length s) + 1) = Z.of_nat (length (packed (args ++ [s])))).
  { rewrite packed_snoc, !length_app. cbn [length]. rewrite u64_small by lia. lia. }
  rewrite Epos. replace (Z.of_nat (length args) + 1) with (Z.of_nat (length (args ++ [s]))) by (rewrite length_app; cbn; lia).
  apply IH; [rewrite length_app; cbn; lia | intros _; lia |]. split; [exact Hw1 |]. split; [| split].
  - intros i x. rewrite lookup_app_Some. intros [Hi | [Hi Hx]]; [by apply Hargs |].
    apply list_lookup_singleton_Some in Hx as [Hi0 <-]. replace i with (length args) by lia. exists l. split; [done |]. split; [done |]. split; [done |]. split; [done |].
    by apply (reads_ext (kw st) w).
  - rewrite packed_snoc, !length_app. cbn [length]. lia.
  - rewrite packed_snoc. by apply holds_store.
Qed.
End args.
End proofs.

(** ** Lemmas: the stack *)

Lemma memcpy_kw_byte n : forall w dst src a, dst + Z.of_nat n <= src \/ src + Z.of_nat n <= dst ->
  ldb (memcpy_kw n w dst src) a = if (dst <=? a) && (a <? dst + Z.of_nat n) then ldb w (src + (a - dst)) else ldb w a.
Proof.
  induction n as [| n IH]; intros w dst src a Hd; cbn [memcpy_kw].
  { destruct (Z.leb_spec dst a), (Z.ltb_spec a (dst + Z.of_nat 0)); cbn [andb]; try lia; done. }
  rewrite IH by lia. rewrite !ldb_stb by apply ldb_range.
  destruct (Z.eqb_spec a dst) as [-> | Hne].
  - destruct (Z.leb_spec (dst + 1) dst), (Z.leb_spec dst dst), (Z.ltb_spec dst (dst + Z.of_nat (S n))); cbn [andb]; try lia.
    by rewrite Z.sub_diag, Z.add_0_r.
  - destruct (Z.leb_spec (dst + 1) a), (Z.leb_spec dst a), (Z.ltb_spec a (dst + 1 + Z.of_nat n)), (Z.ltb_spec a (dst + Z.of_nat (S n)));
      cbn [andb]; try lia; try done.
    destruct (Z.eqb_spec (src + 1 + (a - (dst + 1))) dst); [lia |]. f_equal. lia.
Qed.

Lemma memcpy_kw_only n p : is_page p -> forall w d src, 0 <= d -> d + Z.of_nat n <= 4096 -> only_page w (memcpy_kw n w (p + d) src) p.
Proof.
  intros Hp. induction n as [| n IH]; intros w d src Hd Hn; cbn [memcpy_kw]; [apply only_page_refl |].
  apply (only_page_trans _ (stb w (p + d) (ldb w src))); [intros q Hq Hne; apply (stb_same _ _ _ p q); auto; apply in_page_off; lia |].
  replace (p + d + 1) with (p + (d + 1)) by lia. apply IH; lia.
Qed.

Lemma upd_only w p d v : is_page p -> 0 <= d < 4096 -> only_page w (w.[p + d <- v]) p.
Proof. intros Hp Hd q Hq Hne. apply (same_on_upd w p q); auto. by apply in_page_off. Qed.

Lemma pages_apart p q : is_page p -> is_page q -> p <> q -> p + 4096 <= q \/ q + 4096 <= p.
Proof. unfold is_page. intros [_ Hp] [_ Hq] Hne. Z.div_mod_to_equations. lia. Qed.

Lemma strlen_kw_string s w a fuel : 0 ∉ s -> (length s < fuel)%nat -> holds_bytes w a (s ++ [0]) -> strlen_kw fuel w a = Z.of_nat (length s).
Proof.
  revert a fuel. induction s as [| c s IH]; intros a [| fuel] Hz Hf Hb; cbn [length] in Hf; try lia; cbn [strlen_kw].
  - pose proof (Hb O 0 eq_refl) as E. rewrite Z.add_0_r in E. by rewrite E.
  - pose proof (Hb O c eq_refl) as E. rewrite Z.add_0_r in E. rewrite E. apply not_elem_of_cons in Hz as [Hc Hz].
    destruct (Z.eqb_spec c 0); [congruence |]. rewrite (IH (a + 1) fuel); [cbn [length]; lia | done | lia |].
    intros i x Hi. rewrite <- (Hb (S i) x Hi). f_equal. lia.
Qed.

Lemma holds_sub w a l1 l2 l3 : holds_bytes w a (l1 ++ l2 ++ l3) -> holds_bytes w (a + Z.of_nat (length l1)) l2.
Proof.
  intros Hb i x Hi. rewrite <- (Hb (length l1 + i)%nat x); [f_equal; lia |]. rewrite lookup_app_r by lia.
  replace (length l1 + i - length l1)%nat with i by lia. rewrite lookup_app_l; [done |]. by eapply lookup_lt_Some.
Qed.

Lemma holds_same w w' p d l : is_page p -> same_on w w' p -> 0 <= d -> d + Z.of_nat (length l) <= 4096 -> holds_bytes w (p + d) l -> holds_bytes w' (p + d) l.
Proof.
  intros Hp Hs Hd Hl Hb i x Hi. rewrite <- (Hb i x Hi). pose proof (lookup_lt_Some _ _ _ Hi). apply (ldb_same _ _ p); [done | done |].
  rewrite <- Z.add_assoc. apply in_page_off. lia.
Qed.

(** The bytes of words that did not change. *)
Lemma holds_words w w' a l : (forall x, a <= x -> w' x = w x) -> a mod 8 = 0 -> holds_bytes w a l -> holds_bytes w' a l.
Proof.
  intros Hw Ha Hb i x Hi. rewrite <- (Hb i x Hi). unfold ldb. rewrite Hw; [done |]. Z.div_mod_to_equations. lia.
Qed.

Lemma packed_app a b : packed (a ++ b) = packed a ++ packed b.
Proof. unfold packed. by rewrite map_app, concat_app. Qed.

Lemma packed_take args i s : args !! i = Some s -> packed args = packed (take i args) ++ (s ++ [0]) ++ packed (drop (S i) args).
Proof.
  intros Hi. rewrite <- (take_drop_middle args i s Hi) at 1. rewrite packed_app. f_equal.
Qed.

(** [w'] has the pointers to [args] in its words from [ws] on. *)
Lemma put_argv_spec S b args strbase d : is_page S -> is_page b -> S <> b -> 0 <= d -> d + 8 * (1 + Z.of_nat (length args)) <= 4096 ->
  Forall (fun s => 0 ∉ s) args -> Z.of_nat (length (packed args)) <= 4096 ->
  forall n i w, (i + n = length args)%nat -> holds_bytes w b (packed args) ->
  let w' := put_argv n w (S + d) b strbase (Z.of_nat (length (packed (take i args)))) (Z.of_nat i) in
  only_page w w' S /\
  (forall j, (i <= j < length args)%nat -> w' (S + d + 8 * (1 + Z.of_nat j)) = u64 (strbase + Z.of_nat (length (packed (take j args))))) /\
  (forall x, (forall j, (i <= j < length args)%nat -> x <> S + d + 8 * (1 + Z.of_nat j)) -> w' x = w x).
Proof.
  intros HS Hb Hne Hd Hfit Hz Hlen. induction n as [| n IH]; intros i w Hn Hh; cbn [put_argv]; cbv zeta.
  { split; [apply only_page_refl |]. split; [lia | done]. }
  destruct (lookup_lt_is_Some_2 args i) as [s Hs]; [lia |].
  set (w1 := w.[S + d + 8 * (1 + Z.of_nat i) <- u64 (strbase + Z.of_nat (length (packed (take i args))))]).
  assert (Hw1 : only_page w w1 S) by (unfold w1; rewrite <- Z.add_assoc; apply upd_only; [done | lia]).
  assert (Hh1 : holds_bytes w1 b (packed args)).
  { rewrite <- (Z.add_0_r b). apply (holds_same w); [done | by apply Hw1, not_eq_sym | lia | lia | by rewrite Z.add_0_r]. }
  assert (Hl : strlen_kw (Z.to_nat PGSIZE) w1 (b + Z.of_nat (length (packed (take i args)))) = Z.of_nat (length s)).
  { apply strlen_kw_string.
    - rewrite Forall_lookup in Hz. by apply (Hz i).
    - rewrite (packed_take args i s Hs), !length_app in Hlen. cbn [length] in Hlen. unfold PGSIZE. lia.
    - rewrite (packed_take args i s Hs) in Hh1. by apply holds_sub in Hh1. }
  rewrite Hl. replace (Z.of_nat i + 1) with (Z.of_nat (Datatypes.S i)) by lia.
  replace (Z.of_nat (length (packed (take i args))) + Z.of_nat (length s) + 1) with (Z.of_nat (length (packed (take (Datatypes.S i) args)))).
  2: { rewrite (take_S_r _ _ s Hs), packed_snoc, !length_app. cbn [length]. lia. }
  destruct (IH (Datatypes.S i) w1 ltac:(lia) Hh1) as (I1 & I2 & I3). split; [by apply (only_page_trans _ w1) |]. split.
  - intros j Hj. destruct (decide (j = i)) as [-> | Hji]; [| apply I2; lia]. rewrite I3 by lia. unfold w1. by rewrite upd_eq.
  - intros x Hx. rewrite I3; [unfold w1; rewrite upd_ne; [done | apply Hx; lia] |]. intros j Hj. apply Hx. lia.
Qed.

(** The stack page [S], at user address [base], as the new program finds it: at [sp] the count,
    the pointers to the arguments, and the terminators; the strings lie above. *)
Definition stack_ok (w : Z -> Z) (S base sp : Z) (args : list (list Z)) : Prop :=
  let argc := Z.of_nat (length args) in
  base <= sp /\ sp mod 16 = 0 /\ sp + 8 * (argc + 5) <= base + 4096 /\
  w (S + (sp - base)) = argc /\
  (forall i s, args !! i = Some s -> exists a, w (S + (sp - base) + 8 * (1 + Z.of_nat i)) = a /\
     base <= a /\ a + Z.of_nat (length (s ++ [0])) <= base + 4096 /\ holds_bytes w (S + (a - base)) (s ++ [0])) /\
  (forall j, 1 <= j <= 4 -> w (S + (sp - base) + 8 * (j + argc)) = 0).

Lemma land_16 x : 0 <= x < 2 ^ 64 -> Z.land x (not64 0xf) = x / 16 * 16.
Proof. intros Hx. change 0xf with (Z.shiftl 1 4 - 1). by rewrite land_not64 by lia. Qed.

(** The strings copied to the top of the stack page. *)
Lemma exec_strings w S b base strbase args : is_page S -> base <= strbase -> strbase + Z.of_nat (length (packed args)) <= base + 4096 ->
  (args <> [] -> is_page b /\ S <> b /\ holds_bytes w b (packed args)) ->
  let pos := Z.of_nat (length (packed args)) in
  let w1 := if negb (pos =? 0) then memcpy_kw (Z.to_nat pos) w (S + (strbase - base)) b else w in
  only_page w w1 S /\ (args <> [] -> holds_bytes w1 b (packed args)) /\ holds_bytes w1 (S + (strbase - base)) (packed args).
Proof.
  intros HS Hs1 Hs2 Hbuf pos w1. fold pos in Hs2. destruct (decide (args = [])) as [Ea | Ea].
  { assert (Ep : pos = 0) by (unfold pos; by rewrite Ea). replace w1 with w by (unfold w1; by rewrite Ep).
    split; [apply only_page_refl |]. split; [done |]. rewrite Ea. by intros i x Hx. }
  destruct (Hbuf Ea) as (Hb & Hne & Hh). assert (Hpos : 0 < pos).
  { unfold pos. destruct args as [| a0 args0]; [done |]. unfold packed. cbn [map concat]. rewrite !length_app. cbn [length]. lia. }
  assert (E1 : w1 = memcpy_kw (Z.to_nat pos) w (S + (strbase - base)) b) by (unfold w1; destruct (Z.eqb_spec pos 0); [lia | done]).
  assert (Ho : only_page w w1 S) by (rewrite E1; apply memcpy_kw_only; [done | lia | lia]).
  split; [exact Ho |]. split.
  - intros _. rewrite <- (Z.add_0_r b). apply (holds_same w); [done | by apply Ho, not_eq_sym | lia | lia | by rewrite Z.add_0_r].
  - intros i x Hi. pose proof (lookup_lt_Some _ _ _ Hi). rewrite E1, memcpy_kw_byte by (pose proof (pages_apart S b HS Hb Hne); lia).
    destruct (Z.leb_spec (S + (strbase - base)) (S + (strbase - base) + Z.of_nat i)), (Z.ltb_spec (S + (strbase - base) + Z.of_nat i) (S + (strbase - base) + Z.of_nat (Z.to_nat pos))); cbn [andb]; try lia.
    rewrite <- (Hh i x Hi). f_equal. lia.
Qed.

Lemma exec_stack_spec w S b base args : is_page S -> base mod 4096 = 0 -> 4096 <= base <= 2 ^ 48 ->
  (length args < 32)%nat -> Forall (fun s => 0 ∉ s) args -> Z.of_nat (length (packed args)) <= 4096 ->
  (args <> [] -> is_page b /\ S <> b /\ holds_bytes w b (packed args)) ->
  let '(w', r) := exec_stack w S b base (Z.of_nat (length args)) (Z.of_nat (length (packed args))) in
  only_page w w' S /\ forall sp, r = Some sp -> stack_ok w' S base sp args.
Proof.
  intros HS Hal Hbase Hargs Hz Hlen Hbuf. unfold exec_stack. set (pos := Z.of_nat (length (packed args))) in *. set (argc := Z.of_nat (length args)) in *.
  assert (Hpos0 : 0 <= pos) by (unfold pos; lia). assert (Hargc : 0 <= argc < 32) by (unfold argc; lia). unfold PGSIZE. rewrite (u64_small (base + 4096 - pos)), (land_16 (base + 4096 - pos)) by lia. set (strbase := (base + 4096 - pos) / 16 * 16).
  assert (Hsb : base <= strbase /\ strbase + pos <= base + 4096 /\ strbase mod 16 = 0) by (unfold strbase; Z.div_mod_to_equations; lia).
  destruct Hsb as (Hs1 & Hs2 & Hs3). pose proof (exec_strings w S b base strbase args HS Hs1 Hs2 Hbuf) as Hw1. cbn zeta in Hw1. fold pos in Hw1.
  set (w1 := if negb (pos =? 0) then _ else w) in Hw1 |- *.
  destruct Hw1 as (Ho1 & Hb1 & Hstr). clearbody w1.
  rewrite (u64_small (strbase - (argc + 5) * 8)), land_16 by lia. set (sp := (strbase - (argc + 5) * 8) / 16 * 16).
  assert (Hsp : sp mod 16 = 0 /\ sp + 8 * (argc + 5) <= strbase) by (unfold sp; Z.div_mod_to_equations; lia). destruct Hsp as [Hsp16 Hsp].
  destruct (Z.ltb_spec sp base) as [| Hge]; [split; [done | intros; discriminate] |]. clearbody sp strbase.
  set (d := sp - base). assert (Hd : 0 <= d /\ d + 8 * (argc + 5) <= strbase - base /\ strbase - base <= 4096) by (unfold d; lia). destruct Hd as (Hd0 & Hd1 & Hd2).
  set (w2 := w1.[S + d <- argc]). assert (Ho2 : only_page w1 w2 S) by (apply upd_only; [done | lia]).
  set (w3 := put_argv (Z.to_nat argc) w2 (S + d) b strbase 0 0).
  assert (H3 : only_page w2 w3 S /\
    (forall j, (j < length args)%nat -> w3 (S + d + 8 * (1 + Z.of_nat j)) = u64 (strbase + Z.of_nat (length (packed (take j args))))) /\
    (forall x, (forall j, (j < length args)%nat -> x <> S + d + 8 * (1 + Z.of_nat j)) -> w3 x = w2 x)).
  { destruct (decide (args = [])) as [Ea | Ea].
    { replace w3 with w2 by (unfold w3, argc; by rewrite Ea). split; [apply only_page_refl |]. rewrite Ea. split; [cbn; lia | done]. }
    destruct (Hbuf Ea) as (Hb & Hne & _).
    destruct (put_argv_spec S b args strbase d HS Hb Hne ltac:(lia) ltac:(lia) Hz Hlen (Z.to_nat argc) 0 w2 ltac:(lia)) as (I1 & I2 & I3).
    - rewrite <- (Z.add_0_r b). apply (holds_same w1); [done | by apply Ho2, not_eq_sym | lia | lia |]. rewrite Z.add_0_r. by apply Hb1.
    - split; [exact I1 |]. split; [intros j Hj; apply I2; lia | intros x Hx; apply I3; intros j Hj; apply Hx; lia]. }
  destruct H3 as (Ho3 & Hptr & Hoth). clearbody w3.
  set (w4 := w3.[_ <- 0].[_ <- 0].[_ <- 0].[_ <- 0]).
  assert (Ho4 : only_page w3 w4 S).
  { unfold w4. rewrite <- !Z.add_assoc. repeat (eapply only_page_trans; [| apply upd_only; [done | lia]]). apply only_page_refl. }
  assert (E4 : forall x, (forall j, 1 <= j <= 4 -> x <> S + d + 8 * (j + argc)) -> w4 x = w3 x).
  { intros x Hx. unfold w4. rewrite !upd_ne; [done | apply Hx; lia | apply Hx; lia | apply Hx; lia | apply Hx; lia]. }
  split; [by apply (only_page_trans _ w1); [done |]; apply (only_page_trans _ w2); [done |]; apply (only_page_trans _ w3) |].
  intros sp' [= <-]. unfold stack_ok. fold argc d. split; [lia |]. split; [done |]. split; [lia |]. split; [| split].
  - rewrite E4 by lia. rewrite Hoth by lia. unfold w2. apply upd_eq.
  - intros i s Hi. pose proof (lookup_lt_Some _ _ _ Hi) as Hil. exists (strbase + Z.of_nat (length (packed (take i args)))).
    pose proof (packed_take args i s Hi) as Ep. assert (Hpl : pos = Z.of_nat (length (packed (take i args)) + (length (s ++ [0]) + length (packed (drop (Datatypes.S i) args))))).
    { unfold pos. rewrite Ep, !length_app. done. }
    split; [rewrite E4 by lia; rewrite Hptr by done; apply u64_small; lia |]. split; [lia |]. split; [lia |].
    replace (S + (strbase + Z.of_nat (length (packed (take i args))) - base)) with (S + (strbase - base) + Z.of_nat (length (packed (take i args)))) by lia.
    assert (Hw : holds_bytes w4 (S + (strbase - base)) (packed args)).
    { apply (holds_words w1); [| unfold is_page in HS; Z.div_mod_to_equations; lia | exact Hstr].
      intros x Hx. rewrite E4 by lia. rewrite Hoth by lia. unfold w2. apply upd_ne. lia. }
    rewrite Ep in Hw. by apply holds_sub in Hw.
  - intros j Hj. unfold w4.
    assert (j = 1 \/ j = 2 \/ j = 3 \/ j = 4) as [-> | [-> | [-> | ->]]] by lia; repeat first [rewrite upd_eq; reflexivity | rewrite upd_ne by lia].
Qed.
