(* ===== verification/ExecTop.v ===== *)
(** * exec: theorem

    The new address space is built beside the old one ([building]): its pages are fresh and
    nobody else's page changes, so that each failure gives everything back, and the old space
    is still there to read the arguments from until the switch. *)

From S2P Require Import Prelude Bits Mmu Pages Pmap Copy Elf Exec.

#[local] Abbreviation ptroot := (ptree 4).

(** ** Specification: what the new program finds *)

(** The 64-bit word a process reads at an aligned address. *)
Definition uword (w : Z -> Z) (t : ptroot) (va : Z) : option Z := w <$> uaddr false t va.

Definition stack_seen (w : Z -> Z) (t : ptroot) (base sp : Z) (args : list (list Z)) : Prop :=
  let argc := Z.of_nat (length args) in
  base <= sp < base + 4096 /\ sp mod 16 = 0 /\ uword w t sp = Some argc /\
  (forall i s, args !! i = Some s -> exists a, uword w t (sp + 8 * (1 + Z.of_nat i)) = Some a /\ reads w t a (s ++ [0])) /\
  (forall j, 1 <= j <= 4 -> uword w t (sp + 8 * (j + argc)) = Some 0).

Definition argv_passed (w : Z -> Z) (t : ptroot) (uargv : Z) (args : list (list Z)) : Prop :=
  if uargv =? 0 then args = [] else argv_at w t uargv args /\ argv_end w t uargv args.

Section proofs.
Context {A : Type} `{PageAllocLaws A}.
Implicit Types st : vm A.

(** Every page as in [st0], as far as anyone had one. *)
Definition unchanged st0 st : Prop :=
  pa_ok (al st) /\ (forall p, is_page p -> pa_used (al st) p <-> pa_used (al st0) p) /\
  (forall p, is_page p -> pa_used (al st0) p -> same_on (kw st0) (kw st) p).

(** A tree [t] of fresh pages is being built beside what is in use, with scratch pages [L]. *)
Record building st0 st (t : ptroot) (L : list Z) : Prop := {
  b_ok : pa_ok (al st);
  b_own : own st 4 t;
  b_used : forall p, is_page p -> pa_used (al st) p <-> pa_used (al st0) p \/ p ∈ pgs 4 t \/ p ∈ L;
  b_new : forall p, p ∈ pgs 4 t \/ p ∈ L -> ~ pa_used (al st0) p;
  b_scratch : forall p, p ∈ L -> is_page p /\ (p ∉ pgs 4 t);
  b_frame : forall p, is_page p -> pa_used (al st0) p -> same_on (kw st0) (kw st) p
}.

(** ** Lemmas: building *)

Lemma build_start st0 p a : pa_ok a -> is_page p -> ~ pa_used (al st0) p -> pa_used a p ->
  (forall q, is_page q -> q <> p -> pa_used a q <-> pa_used (al st0) q) -> building st0 (Vm (zero_page (kw st0) p) a) (empty_table p) [].
Proof.
  intros Hok Hp Hnu Hpu Heq. destruct (pgs_empty 3 p) as [Ep Et]. split; cbn [al kw].
  - done.
  - unfold own. rewrite Ep. split; [| split; [apply NoDup_singleton |]].
    + intros i Hi. cbn [empty_table fst snd kw]. unfold zero_page. by rewrite in_page_slot.
    + by intros q ->%list_elem_of_singleton.
  - intros q Hq. rewrite Ep, list_elem_of_singleton. destruct (decide (q = p)) as [-> | Hne]; [split; auto |].
    rewrite Heq by done. split; [auto |]. intros [? | [? | ?%elem_of_nil]]; done.
  - intros q. rewrite Ep, list_elem_of_singleton. by intros [-> | ?%elem_of_nil].
  - by intros q ?%elem_of_nil.
  - intros q Hq Hu. apply same_on_zero; [done | done |]. by intros ->.
Qed.

Lemma build_grows st0 st t L st' t' : building st0 st t L -> grows st 4 t st' t' [] -> building st0 st' t' L.
Proof.
  intros [B1 B2 B3 B4 B5 B6] G. pose proof (g_own _ _ _ _ _ _ G) as Ho'.
  assert (Hnew : forall p, p ∈ pgs 4 t' -> is_page p) by (intros p Hp; by apply Ho').
  assert (Hfrom : forall p, p ∈ pgs 4 t' -> p ∈ pgs 4 t \/ ~ pa_used (al st) p).
  { intros p Hp. destruct (g_from _ _ _ _ _ _ G p Hp) as [? | [?%elem_of_nil | ?]]; auto. }
  split.
  - apply G.
  - exact Ho'.
  - intros p Hp. split.
    + intros Hu. destruct (g_acc _ _ _ _ _ _ G p Hp Hu) as [Hu0 | ?]; [| by auto]. apply B3 in Hu0 as [? | [Hu0 | ?]]; auto.
      right. left. by apply (g_kept _ _ _ _ _ _ G).
    + intros Hx. destruct Hx as [Hx | [Hx | Hx]]; [apply (g_used _ _ _ _ _ _ G), B3; auto | by apply Ho' | apply (g_used _ _ _ _ _ _ G), B3; auto].
  - intros p [Hp | Hp]; [| apply B4; auto]. destruct (Hfrom p Hp) as [? | Hn]; [apply B4; auto |]. intros Hu. apply Hn, B3; auto.
  - intros p Hp. destruct (B5 p Hp) as [Hpg Hnt]. split; [done |]. intros Hx. destruct (Hfrom p Hx) as [? | Hn]; [done |]. apply Hn, B3; auto.
  - intros p Hp Hu. apply (same_on_trans _ (kw st)); [by apply B6 |]. apply (g_frame _ _ _ _ _ _ G); [done | apply B3; auto |].
    intros Hx. apply (B4 p); [left; by apply tabs_pgs | done].
Qed.

Lemma build_alloc st0 st t : building st0 st t [] ->
  exists a r, kpage_alloc_vm st = Ret (Vm (kw st) a, r) /\
  match r with
  | Some q => is_page q /\ ~ pa_used (al st) q /\ pa_used a q /\ pa_ok a /\ (forall x, is_page x -> x <> q -> pa_used a x <-> pa_used (al st) x) /\
      building st0 (Vm (kw st) a) t [q]
  | None => building st0 (Vm (kw st) a) t []
  end.
Proof.
  intros B. pose proof B as [B1 B2 B3 B4 B5 B6]. unfold kpage_alloc_vm.
  destruct (pa_alloc_law (al st) B1) as (a & r & E & Hok & Hr). rewrite E. cbn [mbind res_bind]. exists a, r. split; [done |].
  destruct r as [q |].
  - destruct Hr as (Hq & Hnu & Hqu & Heq). split; [done |]. split; [done |]. split; [done |]. split; [done |]. split; [done |].
    assert (Hnt : q ∉ pgs 4 t) by (intros Hx; apply Hnu, B3; auto).
    split; cbn [al kw].
    + done.
    + apply (own_other st 4 t (kw st) a q); try done; by intros.
    + intros p Hp. rewrite list_elem_of_singleton. destruct (decide (p = q)) as [-> | Hne]; [split; auto |]. rewrite Heq, B3 by done.
      split; [intros [? | [? | ?%elem_of_nil]]; auto; done | intros [? | [? | ?]]; auto; done].
    + intros p [Hp | ->%list_elem_of_singleton]; [apply B4; auto |]. intros Hu. apply Hnu, B3; auto.
    + intros p ->%list_elem_of_singleton. done.
    + done.
  - apply (build_grows st0 st t [] (Vm (kw st) a) t B). by apply grows_alloc.
Qed.

Lemma build_write st0 st t L w' : building st0 st t L ->
  (forall p, is_page p -> pa_used (al st0) p \/ p ∈ tabs 4 t -> same_on (kw st) w' p) -> building st0 (Vm w' (al st)) t L.
Proof.
  intros [B1 B2 B3 B4 B5 B6] Hw. split; cbn [al kw]; try done.
  - destruct B2 as (Hr & Hnd & Hu). split; [| split; [exact Hnd | exact Hu]]. apply (rep_frame (kw st)); [| exact Hr].
    intros p Hp. apply Hw; [by apply (Hu p), tabs_pgs | by right].
  - intros p Hp Hu. apply (same_on_trans _ (kw st)); [by apply B6 | apply Hw; auto].
Qed.

Lemma build_free st0 st t q : building st0 st t [q] -> exists a, kpage_free_vm st q = Ret (Vm (kw st) a) /\ building st0 (Vm (kw st) a) t [].
Proof.
  intros [B1 B2 B3 B4 B5 B6]. destruct (B5 q ltac:(left)) as [Hq Hnt]. assert (Hqn : ~ pa_used (al st0) q) by (apply B4; right; left).
  destruct (free_spec st q B1 Hq) as (a & E & Hok & Hnu & Heq); [apply B3; [done |]; right; right; left |].
  exists a. split; [done |]. split; cbn [al kw]; try done.
  - destruct B2 as (Hr & Hnd & Hu). split; [exact Hr |]. split; [exact Hnd |]. intros p Hp. destruct (Hu p Hp) as [? Hpu]. split; [done |].
    apply Heq; [done | by intros -> | done].
  - intros p Hp. destruct (decide (p = q)) as [-> | Hne].
    + split; [done |]. intros [? | [? | ?%elem_of_nil]]; done.
    + rewrite Heq, B3, list_elem_of_singleton by done. split; [intros [? | [? | ?]]; auto; done | intros [? | [? | ?%elem_of_nil]]; auto; done].
  - intros p [Hp | ?%elem_of_nil]; [apply B4; auto | done].
  - by intros p ?%elem_of_nil.
Qed.

Lemma build_drop st0 st t : building st0 st t [] -> exists st', uvmfree st t.1 = Ret st' /\ unchanged st0 st'.
Proof.
  intros [B1 B2 B3 B4 B5 B6]. destruct (freewalk_spec 3 st t B1 B2) as (st' & E & Hok & Hu & Hs). exists st'. split; [done |].
  split; [done |]. split.
  - intros p Hp. rewrite Hu, B3 by done. split; [intros [[? | [? | ?%elem_of_nil]] ?]; done |]. intros Hx. split; [by left |].
    intros Hin. by apply (B4 p); [left |].
  - intros p Hp Hx. apply (same_on_trans _ (kw st)); [by apply B6 |]. apply Hs; [done |]. intros Hin. apply (B4 p); [left; by apply tabs_pgs | done].
Qed.

(** The old space, as it was. *)
Lemma build_old st0 st t L t0 : building st0 st t L -> own st0 4 t0 ->
  own st 4 t0 /\ (forall va, ubyte (kw st) t0 va = ubyte (kw st0) t0 va) /\ forall p, p ∈ pgs 4 t0 -> p ∉ pgs 4 t /\ (p ∉ L).
Proof.
  intros [B1 B2 B3 B4 B5 B6] Ho. assert (Hs : forall q, q ∈ pgs 4 t0 -> same_on (kw st0) (kw st) q).
  { intros q Hq. destruct (proj2 (proj2 Ho) q Hq). by apply B6. }
  destruct (own_frame st0 t0 (kw st) Ho Hs) as [(Hr & Hnd & _) Hu]. split; [| split; [exact Hu |]].
  - split; [exact Hr |]. split; [exact Hnd |]. intros q Hq. destruct (proj2 (proj2 Ho) q Hq) as [Hp Hpu]. split; [done |]. apply B3; auto.
  - intros p Hp. destruct (proj2 (proj2 Ho) p Hp) as [_ Hpu]. split; intros Hx; apply (B4 p); auto.
Qed.

Lemma unchanged_old st0 st t0 : unchanged st0 st -> own st0 4 t0 -> own st 4 t0.
Proof.
  intros (Hok & Hu & Hs) Ho. destruct Ho as (Hr & Hnd & Hp). split; [| split; [exact Hnd |]].
  - apply (rep_frame (kw st0)); [| exact Hr]. intros q Hq. destruct (Hp q (tabs_pgs _ _ _ Hq)). by apply Hs.
  - intros q Hq. destruct (Hp q Hq). split; [done |]. by apply Hu.
Qed.

(** ** Lemmas: the phases *)

Definition scratch (b : option Z) : list Z := match b with Some q => [q] | None => [] end.

Lemma exec_args_spec st0 st t t0 uargv : building st0 st t [] -> own st0 4 t0 -> 0 <= uargv < 2 ^ 64 ->
  exists w a argbuf r, exec_args st t0.1 uargv = Ret (Vm w a, argbuf, r) /\ building st0 (Vm w a) t (scratch argbuf) /\
  (forall p, p ∈ pgs 4 t -> same_on (kw st) w p) /\
  forall argc pos, r = Some (argc, pos) -> exists args, argv_passed (kw st0) t0 uargv args /\
    argc = Z.of_nat (length args) /\ pos = Z.of_nat (length (packed args)) /\ (length args < 32)%nat /\ Forall (fun s => 0 ∉ s) args /\ pos <= 4096 /\
    (args <> [] -> exists b, argbuf = Some b /\ holds_bytes w b (packed args)).
Proof.
  intros B Ho Hu. unfold exec_args, argv_passed. destruct (Z.eqb_spec uargv 0) as [-> | Hne].
  { exists (kw st), (al st), None, (Some (0, 0)). split; [by destruct st |]. split; [by destruct st |]. split; [by intros p _ x _ |].
    intros argc pos [= <- <-]. exists []. split; [done |]. split; [done |]. split; [done |]. split; [cbn; lia |]. split; [constructor |]. split; [lia | done]. }
  destruct (build_alloc st0 st t B) as (a & r & E & Hr). rewrite E. cbn [mbind res_bind]. destruct r as [b |].
  2: { exists (kw st), a, None, None. split; [done |]. split; [done |]. split; [by intros p _ x _ | intros; discriminate]. }
  destruct Hr as (Hb & Hnu & _ & _ & _ & B1). cbn [kw al]. destruct (build_old st0 _ t [b] t0 B1 Ho) as (Ho1 & Hub & Hdis).
  assert (Hbt : b ∉ pgs 4 t0) by (intros Hx; apply (Hdis b Hx); left).
  pose proof (arg_loop_spec (Vm (kw st) a) t0 Ho1 b uargv Hb Hbt Hu 32 (kw st) [] eq_refl ltac:(done)) as Hl.
  change (Z.of_nat (length [])) with 0 in Hl. change (Z.of_nat (length (packed []))) with 0 in Hl. change (Z.to_nat MAXARG) with 32%nat.
  destruct (arg_loop 32 (kw st) t0.1 uargv b 0 0) as [w r]. destruct Hl as [Hw Hr].
  { split; [apply only_page_refl |]. split; [by intros i s Hx |]. split; [cbn; lia | by intros i s Hx]. }
  cbn [kw] in Hw, Hr. assert (Hbn : b ∉ pgs 4 t) by (apply (b_scratch _ _ _ _ B1); left).
  exists w, a, (Some b), (match r with Some (argc, pos) => if argc =? MAXARG then None else Some (argc, pos) | None => None end). split; [done |]. split.
  { apply (build_write st0 (Vm (kw st) a) t [b] w B1). cbn [kw]. intros p Hp Hx. apply Hw; [done |]. intros ->.
    destruct Hx as [Hx | Hx]; [| by apply Hbn, tabs_pgs]. apply (b_new _ _ _ _ B1 b); [right; left | done]. }
  split.
  { intros p Hp. apply Hw; [by apply (b_own _ _ _ _ B) |]. intros ->. done. }
  intros argc pos Er. destruct r as [[c q] |]; [| done]. destruct (Z.eqb_spec c MAXARG) as [| Hc]; [done |]. injection Er as -> ->.
  destruct (Hr argc pos eq_refl) as (args & (_ & Hat & Hlen & Hh) & -> & -> & H32 & Hend).
  assert (Hext : forall src l, reads (kw st) t0 src l -> reads (kw st0) t0 src l) by (intros src l; by apply reads_ext).
  assert (Hat0 : argv_at (kw st0) t0 uargv args).
  { intros i s Hi. destruct (Hat i s Hi) as (l & L1 & L2 & L3 & L4 & L5). exists l. split; [done |]. split; [by apply Hext |]. split; [done |]. split; [done | by apply Hext]. }
  exists args. split; [split; [exact Hat0 |] |].
  { destruct (Hend Hc) as (l & L1 & L2 & L3). exists l. split; [done |]. split; [by apply Hext | done]. }
  split; [done |]. split; [done |]. split; [unfold MAXARG in Hc; lia |]. split; [| split; [done | by exists b]].
  apply Forall_lookup. intros i s Hi. destruct (Hat0 i s Hi) as (l & _ & _ & _ & Hz & _). exact Hz.
Qed.

Lemma exec_bad_spec st0 st t argbuf p : building st0 st t (scratch argbuf) ->
  exists st', exec_bad st p argbuf t.1 = Ret (st', p, -1) /\ unchanged st0 st'.
Proof.
  intros B. unfold exec_bad, free_argbuf. destruct argbuf as [b |]; cbn [scratch] in B.
  - destruct (build_free st0 st t b B) as (a & E & B'). rewrite E. cbn [mbind res_bind].
    destruct (build_drop st0 _ t B') as (st' & E' & Hu). rewrite E'. cbn [mbind res_bind]. by exists st'.
  - cbn [mbind res_bind]. destruct (build_drop st0 _ t B) as (st' & E' & Hu). rewrite E'. cbn [mbind res_bind]. by exists st'.
Qed.

Lemma free_argbuf_spec st0 st t argbuf : building st0 st t (scratch argbuf) ->
  exists a, free_argbuf st argbuf = Ret (Vm (kw st) a) /\ building st0 (Vm (kw st) a) t [].
Proof.
  intros B. unfold free_argbuf. destruct argbuf as [b |]; cbn [scratch] in B; [by apply build_free |]. exists (al st). by destruct st.
Qed.

(** A page of the process, and the stack page as the process sees it. *)
Lemma uaddr_page_is t x p va wr : maps t x = Some (Z.lor (KVA_TO_PA p) PAGE_USER) -> is_page p -> 4096 * x <= va < 4096 * (x + 1) ->
  uaddr wr t va = Some (p + (va - 4096 * x)).
Proof.
  intros Hm Hp Hva. unfold uaddr. replace (va / 4096) with x by (Z.div_mod_to_equations; lia). rewrite Hm. unfold el0_ok.
  rewrite !lor_page_user by done. replace (Z.testbit (Z.lor (KVA_TO_PA p) PAGE_USER) 7) with false.
  - rewrite andb_false_r. cbn [andb negb]. f_equal. rewrite leafpage_desc by (done || apply PAGE_USER_ok). Z.div_mod_to_equations. lia.
  - symmetry. rewrite Z.lor_spec. destruct (is_page_kva p Hp) as (H1 & H2 & _). change (Z.testbit PAGE_USER 7) with false. rewrite orb_false_r.
    rewrite <- (Z.mod_pow2_bits_low _ 12 7) by lia. change (2 ^ 12) with 4096. by rewrite H2.
Qed.

Lemma stack_seen_of w t S base sp args : stack_ok w S base sp args -> base mod 4096 = 0 -> is_page S ->
  maps t (base / 4096) = Some (Z.lor (KVA_TO_PA S) PAGE_USER) -> stack_seen w t base sp args.
Proof.
  intros (K1 & K2 & K3 & K4 & K5 & K6) Hal HS Hm.
  assert (Hua : forall va, base <= va < base + 4096 -> uaddr false t va = Some (S + (va - base))).
  { intros va Hva. rewrite (uaddr_page_is t (base / 4096) S va false Hm HS) by (Z.div_mod_to_equations; lia). do 2 f_equal. Z.div_mod_to_equations. lia. }
  assert (Hw : forall va, base <= va < base + 4096 -> uword w t va = Some (w (S + (va - base)))) by (intros va Hva; unfold uword; by rewrite Hua).
  split; [lia |]. split; [done |]. split; [rewrite Hw by lia; by rewrite K4 |]. split.
  - intros i s Hi. pose proof (lookup_lt_Some _ _ _ Hi). destruct (K5 i s Hi) as (a & Ea & A1 & A2 & Ah). exists a. split.
    + rewrite Hw by lia. rewrite <- Ea. do 2 f_equal. lia.
    + intros j b Hb. pose proof (lookup_lt_Some _ _ _ Hb). unfold ubyte. rewrite Hua by lia. cbn [fmap option_fmap option_map]. f_equal.
      rewrite <- (Ah j b Hb). f_equal. lia.
  - intros j Hj. rewrite Hw by lia. rewrite <- (K6 j Hj). do 2 f_equal. lia.
Qed.

Lemma top_ge l ph : ph ∈ l -> p_vaddr ph + p_memsz ph <= top l.
Proof. induction l as [| q l IH]; [by intros ?%elem_of_nil |]. intros [-> | Hp]%elem_of_cons; unfold top in *; cbn; [lia |]. specialize (IH Hp). lia. Qed.

Lemma seg_below l ph x base : ph ∈ l -> base = (top l + 4095) / 4096 * 4096 -> seg_has ph x = true -> x < base / 4096.
Proof.
  intros Hp -> Hx. pose proof (top_ge l ph Hp). unfold seg_has in Hx. apply andb_true_iff in Hx as [_ Hx%Z.ltb_lt]. Z.div_mod_to_equations. lia.
Qed.

(** ** Theorems *)

(** The process [p'] runs the image with the arguments [args]; its space is [t']. *)
Definition new_program st' (p' : task) (t' : ptroot) (img : Z -> Z) (path : list Z) (asid : Z) (args : list (list Z)) : Prop :=
  let l := segs img (Z.to_nat (phnum (elfhdr_at img))) in
  let base := PGROUNDUP (top l) in
  exists sp, pagetable p' = t'.1 /\ sz p' = base + 4096 /\ tf p' = Trapframe (fun _ => 0) sp (entry_pc (elfhdr_at img)) 0 0 /\
    name p' = set_name (basename path path) /\ ttbr0 p' = Z.lor (u64 (Z.shiftl asid 48)) (KVA_TO_PA t'.1) /\
    stack_seen (kw st') t' base sp args /\
    forall va, 0 <= va < 2 ^ 48 -> va < base \/ base + 4096 <= va -> ubyte (kw st') t' va =
      (fun ph => seg_byte img ph va) <$> List.find (fun ph => seg_has ph (va / 4096)) l.

Lemma exec_commit_spec st0 st t0 t p asid path img sp args base :
  let l := segs img (Z.to_nat (phnum (elfhdr_at img))) in
  building st0 st t [] -> own st0 4 t0 -> pagetable p = t0.1 -> base = PGROUNDUP (top l) -> base + 4096 <= 2 ^ 48 -> 0 <= base ->
  stack_seen (kw st) t base sp args ->
  (forall va, 0 <= va < 2 ^ 48 -> va < base \/ base + 4096 <= va -> ubyte (kw st) t va =
     (fun ph => seg_byte img ph va) <$> List.find (fun ph => seg_has ph (va / 4096)) l) ->
  exists st' p', exec_commit st p asid path t.1 base (entry_pc (elfhdr_at img)) sp = Ret (st', p', 0) /\
    pa_ok (al st') /\ own st' 4 t /\ new_program st' p' t img path asid args /\
    (forall q, is_page q -> pa_used (al st') q <-> (pa_used (al st0) q /\ q ∉ pgs 4 t0) \/ q ∈ pgs 4 t) /\
    (forall q, is_page q -> pa_used (al st0) q -> q ∉ pgs 4 t0 -> same_on (kw st0) (kw st') q).
Proof.
  intros l B Ho Hp Eb Hb Hb0 Hst Him. pose proof B as [B1 B2 B3 B4 B5 B6]. destruct (build_old st0 st t [] t0 B Ho) as (Ho1 & _ & Hdis).
  assert (Hroot : is_page t.1) by (apply B2; cbn [pgs]; left). unfold exec_commit, switchuvm_ttbr, KASSERT.
  destruct (Z.eqb_spec t.1 0) as [E0 | _]; [exfalso; unfold is_page, KERN_BASE in Hroot; lia |]. cbn [negb mbind res_bind]. rewrite Hp.
  destruct (freewalk_spec 3 st t0 B1 Ho1) as (st' & E & Hok & Hu & Hs). unfold uvmfree. rewrite E. cbn [mbind res_bind].
  assert (Hkeep : forall q, q ∈ pgs 4 t -> same_on (kw st) (kw st') q).
  { intros q Hq. destruct (proj2 (proj2 B2) q Hq) as [Hqp _]. apply Hs; [done |]. intros Hx. destruct (Hdis q (tabs_pgs _ _ _ Hx)) as [Hn _]. exact (Hn Hq). }
  destruct (own_frame st t (kw st') B2 Hkeep) as [(Hr & Hnd & _) Hub].
  eexists st', _. split; [done |]. split; [done |]. split.
  { split; [exact Hr |]. split; [exact Hnd |]. intros q Hq. destruct (proj2 (proj2 B2) q Hq) as [Hqp Hqu]. split; [done |]. apply Hu; [done |].
    split; [done |]. intros Hx. destruct (Hdis q Hx) as [Hn _]. exact (Hn Hq). }
  split; [| split].
  - unfold new_program. fold l. rewrite <- Eb. exists sp. cbn [pagetable sz tf name ttbr0]. split; [done |].
    split; [unfold PGSIZE; apply u64_small; lia |]. split; [done |]. split; [done |]. split; [done |].
    assert (Hword : forall va, uword (kw st') t va = uword (kw st) t va).
    { intros va. unfold uword. destruct (uaddr false t va) as [x |] eqn:Ex; [| done]. cbn [fmap option_fmap option_map]. f_equal.
      destruct (uaddr_page false st t va x B2 Ex) as (v & _ & _ & _ & Hin & Hpg & _). by apply (Hkeep _ Hpg). }
    split.
    + destruct Hst as (S1 & S2 & S3 & S4 & S5). split; [done |]. split; [done |]. split; [by rewrite Hword |]. split.
      * intros i s0 Hi. destruct (S4 i s0 Hi) as (x & X1 & X2). exists x. split; [by rewrite Hword |]. intros j b Hj. rewrite Hub. by apply X2.
      * intros j Hj. rewrite Hword. by apply S5.
    + intros va Hva Hx. rewrite Hub. by apply Him.
  - intros q Hq. rewrite Hu, B3 by done. split.
    + intros [[? | [? | ?%elem_of_nil]] ?]; auto. done.
    + intros [[? ?] | Hx]; [auto |]. split; [auto |]. intros Hy. destruct (Hdis q Hy) as [Hn _]. exact (Hn Hx).
  - intros q Hq Hqu Hn. apply (same_on_trans _ (kw st)); [by apply B6 |]. apply Hs; [done |]. intros Hx. by apply Hn, tabs_pgs.
Qed.

(** Writing to the stack page leaves the rest of the space alone. *)
Lemma stack_write_view st (t : ptroot) S base w : own st 4 t -> is_page S -> 0 <= base -> base mod 4096 = 0 -> base + 4096 <= 2 ^ 48 ->
  maps t (base / 4096) = Some (Z.lor (KVA_TO_PA S) PAGE_USER) -> only_page (kw st) w S ->
  forall va, 0 <= va < 2 ^ 48 -> va < base \/ base + 4096 <= va -> ubyte w t va = ubyte (kw st) t va.
Proof.
  intros Ho HS Hb0 Hal Hb Hm Hw va Hva Hx. unfold ubyte. destruct (uaddr false t va) as [x |] eqn:Ex; [| reflexivity].
  destruct (uaddr_page false st t va x Ho Ex) as (v & Ev & Exx & Hvp & Hin & Hpg & _). cbn [fmap option_fmap option_map]. f_equal.
  apply (ldb_same (kw st) w (leafpage v)); [exact Hvp | | exact Hin]. apply Hw; [exact Hvp |]. intros EvS.
  assert (Hpath : same_path 4 (va / 4096) (base / 4096) = true).
  { apply (leaf_once st 4 t _ _ v _ Ho Ev Hm). rewrite EvS, leafpage_desc by (exact HS || exact PAGE_USER_ok). reflexivity. }
  rewrite same_path_vpn in Hpath by (Z.div_mod_to_equations; lia). apply Z.eqb_eq in Hpath. Z.div_mod_to_equations. lia.
Qed.

(** The stack page above a loaded image. *)
Lemma map_stack_spec st0 st t img l base S a : building st0 st t [] -> loaded img l (kw st) t -> base = (top l + 4095) / 4096 * 4096 ->
  0 < top l -> base + 4096 <= 2 ^ 48 -> is_page S -> ~ pa_used (al st) S -> pa_used a S -> pa_ok a ->
  (forall q, is_page q -> q <> S -> pa_used a q <-> pa_used (al st) q) ->
  exists st' r t', mappages (Vm (zero_page (kw st) S) a) t.1 base (KVA_TO_PA S) PGSIZE PAGE_USER = Ret (st', r) /\ t'.1 = t.1 /\
  (r = 0 /\ building st0 st' t' [] /\ maps t' (base / 4096) = Some (Z.lor (KVA_TO_PA S) PAGE_USER) /\
    (forall va, 0 <= va < 2 ^ 48 -> va < base \/ base + 4096 <= va -> ubyte (kw st') t' va =
      (fun ph => seg_byte img ph va) <$> List.find (fun ph => seg_has ph (va / 4096)) l) \/
   r = -1 /\ exists st'', kpage_free_vm st' S = Ret st'' /\ building st0 st'' t' []).
Proof.
  intros B Hl Eb Htop Hb HS HSn HSu Hok HSeq.
  assert (Hsp : in_space (base / 4096)) by (unfold in_space; rewrite Eb in *; Z.div_mod_to_equations; lia).
  assert (Hnone : maps t (base / 4096) = None).
  { specialize (Hl _ Hsp). destruct (List.find _ l) as [ph |] eqn:Ef; [| exact Hl]. apply find_some in Ef as [Hph Hx]. apply list_elem_of_In in Hph.
    pose proof (seg_below l ph (base / 4096) base Hph Eb Hx). lia. }
  destruct (map_fresh st t (base / 4096) PAGE_USER (zero_page (kw st) S) a S (b_own _ _ _ _ B) Hok Hsp Hnone PAGE_USER_ok HS HSn HSu HSeq
    ltac:(intros; apply same_on_zero; auto)) as (st' & r & t' & E & Hr).
  replace (4096 * (base / 4096)) with base in E by (rewrite Eb; Z.div_mod_to_equations; lia). exists st', r, t'. split; [exact E |].
  destruct Hr as [(-> & G & Hz & Hnt & Hm) | (-> & (st'' & E' & G) & _)]; pose proof (build_grows _ _ _ _ _ _ B G) as B'.
  - split; [exact (entry_base _ _ 3 t t' (b_own _ _ _ _ B) (b_own _ _ _ _ B') (g_entry _ _ _ _ _ _ G)) |]. left. split; [reflexivity |]. split; [exact B' |].
    split; [rewrite Hm, Z.eqb_refl by exact Hsp; reflexivity |]. intros va Hva Hx.
    assert (Hv : in_space (va / 4096)) by (unfold in_space; Z.div_mod_to_equations; lia). specialize (Hl _ Hv).
    assert (Em : maps t' (va / 4096) = maps t (va / 4096)).
    { rewrite Hm by exact Hv. destruct (Z.eqb_spec (va / 4096) (base / 4096)); [rewrite Eb in *; Z.div_mod_to_equations; lia | reflexivity]. }
    destruct (List.find _ l) as [ph |].
    + apply (page_is_ubyte _ _ (va / 4096)); [| reflexivity]. by apply (page_is_grows st t st' t' _ _ (b_own _ _ _ _ B) G).
    + unfold ubyte, uaddr. by rewrite Em, Hl.
  - split; [exact (entry_base _ _ 3 t t' (b_own _ _ _ _ B) (b_own _ _ _ _ B') (g_entry _ _ _ _ _ _ G)) |]. right. split; [reflexivity |]. exists st''. by split.
Qed.

(** After the image is loaded: the stack page, the arguments, and the switch. *)
Lemma exec_tail_spec st0 st t0 t p asid path uargv img S base :
  let l := segs img (Z.to_nat (phnum (elfhdr_at img))) in
  building st0 st t [] -> own st0 4 t0 -> pagetable p = t0.1 -> 0 <= uargv < 2 ^ 64 ->
  base = PGROUNDUP (top l) -> base mod 4096 = 0 -> 4096 <= base -> base + 4096 <= 2 ^ 48 -> is_page S ->
  maps t (base / 4096) = Some (Z.lor (KVA_TO_PA S) PAGE_USER) ->
  (forall va, 0 <= va < 2 ^ 48 -> va < base \/ base + 4096 <= va -> ubyte (kw st) t va =
     (fun ph => seg_byte img ph va) <$> List.find (fun ph => seg_has ph (va / 4096)) l) ->
  exists st' p' r,
    ('(st, argbuf, args) ← exec_args st (pagetable p) uargv;
     match args with
     | None => exec_bad st p argbuf t.1
     | Some (argc, pos) =>
         let '(w, sp) := exec_stack (kw st) S (default 0 argbuf) base argc pos in
         let st := Vm w (al st) in
         match sp with
         | None => exec_bad st p argbuf t.1
         | Some sp => st ← free_argbuf st argbuf; exec_commit st p asid path t.1 base (entry_pc (elfhdr_at img)) sp
         end
     end) = Ret (st', p', r) /\
    (r = -1 /\ p' = p /\ unchanged st0 st' \/
     r = 0 /\ exists args, argv_passed (kw st0) t0 uargv args /\ pa_ok (al st') /\ own st' 4 t /\ new_program st' p' t img path asid args /\
       (forall q, is_page q -> pa_used (al st') q <-> (pa_used (al st0) q /\ q ∉ pgs 4 t0) \/ q ∈ pgs 4 t) /\
       (forall q, is_page q -> pa_used (al st0) q -> q ∉ pgs 4 t0 -> same_on (kw st0) (kw st') q)).
Proof.
  intros l B Ho Hp Hu Eb Hal Hb1 Hb2 HS Hm Him. destruct (leaf_not_table st 4 t _ _ (b_own _ _ _ _ B) Hm) as [HSt HSn].
  rewrite leafpage_desc in HSt, HSn by (exact HS || exact PAGE_USER_ok). rewrite Hp.
  destruct (exec_args_spec st0 st t t0 uargv B Ho Hu) as (w & a & argbuf & r & E & B1 & Hw & Hr). rewrite E. cbn [mbind res_bind].
  destruct r as [[argc pos] |].
  2: { destruct (exec_bad_spec st0 _ t argbuf p B1) as (st' & E' & Hc). rewrite E'. exists st', p, (-1). split; [reflexivity |]. left. split; [reflexivity |]. split; [reflexivity | exact Hc]. }
  destruct (Hr argc pos eq_refl) as (args & Hargs & -> & -> & H32 & Hz & Hpos & Hbuf). cbn [kw al].
  pose proof (exec_stack_spec w S (default 0 argbuf) base args HS Hal ltac:(lia) H32 Hz Hpos) as Hs.
  destruct (exec_stack w S (default 0 argbuf) base _ _) as [w2 sp]. destruct Hs as [Hw2 Hsp].
  { intros Hne. destruct (Hbuf Hne) as (b & -> & Hh). cbn [default]. cbn [scratch] in B1. destruct (b_scratch _ _ _ _ B1 b ltac:(left)) as [Hbp Hbn].
    split; [exact Hbp |]. split; [| exact Hh]. intros ->. exact (Hbn HSt). }
  assert (B2 : building st0 (Vm w2 a) t (scratch argbuf)).
  { apply (build_write st0 (Vm w a) t _ w2 B1). cbn [kw]. intros q Hq Hx. apply Hw2; [exact Hq |]. intros ->.
    destruct Hx as [Hx | Hx]; [| exact (HSn Hx)]. apply (b_new _ _ _ _ B S); [left; exact HSt | exact Hx]. }
  destruct sp as [sp |].
  2: { destruct (exec_bad_spec st0 _ t argbuf p B2) as (st' & E' & Hc). rewrite E'. exists st', p, (-1). split; [reflexivity |]. left. split; [reflexivity |]. split; [reflexivity | exact Hc]. }
  destruct (free_argbuf_spec st0 _ t argbuf B2) as (a' & E' & B3). rewrite E'. cbn [mbind res_bind].
  destruct (exec_commit_spec st0 _ t0 t p asid path img sp args base B3 Ho Hp Eb ltac:(lia) ltac:(lia)) as (st' & p' & E2 & F).
  - cbn [kw]. apply (stack_seen_of w2 t S); [apply Hsp; reflexivity | exact Hal | exact HS | exact Hm].
  - cbn [kw]. intros va Hva Hx. etransitivity; [| exact (Him va Hva Hx)]. rewrite (stack_write_view (Vm w a) t S base w2); [| exact (b_own _ _ _ _ B1) | exact HS | lia | exact Hal | lia | exact Hm | exact Hw2 | exact Hva | exact Hx].
    cbn [kw]. exact (proj2 (own_frame st t w (b_own _ _ _ _ B) Hw) va).
  - exists st', p', 0. split; [exact E2 |]. right. split; [reflexivity |]. exists args. split; [exact Hargs | exact F].
Qed.
End proofs.

Lemma exec_task_spec {A} `{PageAllocLaws A} blobs (st : vm A) (t : ptroot) p asid path uargv :
  pa_ok (al st) -> own st 4 t -> pagetable p = t.1 -> 0 <= uargv < 2 ^ 64 ->
  (forall img size, resolve blobs path = Some (img, size) ->
     bytes_ok img /\ apart (segs img (Z.to_nat (phnum (elfhdr_at img)))) /\
     top (segs img (Z.to_nat (phnum (elfhdr_at img)))) + 4096 <= 2 ^ 48) ->
  exists st' p' r, exec blobs st p asid path uargv = Ret (st', p', r) /\
  (r = -1 /\ p' = p /\ own st' 4 t /\ unchanged st st' \/
   r = 0 /\ exists img size t' args, resolve blobs path = Some (img, size) /\ argv_passed (kw st) t uargv args /\
     pa_ok (al st') /\ own st' 4 t' /\ new_program st' p' t' img path asid args /\
     (forall q, is_page q -> pa_used (al st') q <-> (pa_used (al st) q /\ q ∉ pgs 4 t) \/ q ∈ pgs 4 t') /\
     (forall q, is_page q -> pa_used (al st) q -> q ∉ pgs 4 t -> same_on (kw st) (kw st') q)).
Proof.
  intros Hok Ho Hp Hu Himg.
  assert (Hfail : forall st', unchanged st st' -> exists st1 p1 r, (Ret (st', p, -1) : res (vm A * task * Z)) = Ret (st1, p1, r) /\
    r = -1 /\ p1 = p /\ own st1 4 t /\ unchanged st st1).
  { intros st' Hc. exists st', p, (-1). split; [reflexivity |]. split; [reflexivity |]. split; [reflexivity |]. split; [by apply (unchanged_old st) | exact Hc]. }
  assert (Hleft : forall (X : vm A -> task -> Z -> Prop) m, (exists st1 p1 r, m = Ret (st1, p1, r) /\ r = -1 /\ p1 = p /\ own st1 4 t /\ unchanged st st1) ->
    exists st' p' r, m = Ret (st', p', r) /\ (r = -1 /\ p' = p /\ own st' 4 t /\ unchanged st st' \/ X st' p' r)).
  { intros X m (st1 & p1 & r & E & F). exists st1, p1, r. split; [exact E | left; exact F]. }
  unfold exec. destruct (resolve blobs path) as [[img size] |]; [| apply Hleft, Hfail; split; [exact Hok |]; split; [done | by intros q _ _ x _]].
  destruct (Himg img size eq_refl) as (Hb & Hap & Htop). clear Himg. set (l := segs img _) in *.
  destruct (ptalloc_spec st Hok) as (a & [st1 r] & E & Hoka & Hr). unfold uvmcreate. rewrite E. cbn [mbind res_bind]. destruct r as [p0 |].
  2: { destruct Hr as [-> Heq]. apply Hleft, Hfail. split; [exact Hoka |]. split; [exact Heq | by intros q _ _ x _]. }
  destruct Hr as (-> & Hp0 & Hnu & Hpu & Heq). pose proof (build_start st p0 a Hoka Hp0 Hnu Hpu Heq) as B0.
  destruct (loadelf_spec img size _ (empty_table p0) Hb (b_ok _ _ _ _ B0) (b_own _ _ _ _ B0) ltac:(done) Hap) as (st1 & t1 & r & E1 & G1 & Hl). fold l in Hl.
  change ((@empty_table 3 p0).1) with p0 in E1. rewrite E1. cbn [mbind res_bind]. pose proof (build_grows _ _ _ _ _ _ B0 G1) as B1.
  assert (Et1 : t1.1 = p0) by (apply (entry_base _ _ 3 (empty_table p0) t1 (b_own _ _ _ _ B0) (b_own _ _ _ _ B1)), G1).
  rewrite <- Et1. destruct r as [[entry sz'] |].
  2: { destruct (build_drop st st1 t1 B1) as (st2 & E2 & Hc). rewrite E2. cbn [mbind res_bind]. by apply Hleft, Hfail. }
  destruct Hl as (_ & _ & _ & Hl & -> & Htop0 & ->). rewrite PGROUNDUP_eq by lia. set (base := (top l + 4095) / 4096 * 4096).
  assert (Hbase : base mod 4096 = 0 /\ 4096 <= base /\ base + 4096 <= 2 ^ 48) by (unfold base; Z.div_mod_to_equations; lia). destruct Hbase as (Hal & Hb1 & Hb2).
  destruct (build_alloc st st1 t1 B1) as (a1 & r & E2 & Hr). rewrite E2. cbn [mbind res_bind]. destruct r as [S |].
  2: { destruct (build_drop st _ t1 Hr) as (st2 & E3 & Hc). rewrite E3. cbn [mbind res_bind]. by apply Hleft, Hfail. }
  destruct Hr as (HS & HSn & HSu & Hoka1 & HSeq & _). cbn [kw al]. unfold USER_BASE. rewrite Z.add_0_l, (u64_small base) by lia.
  destruct (map_stack_spec st st1 t1 img l base S a1 B1 Hl eq_refl ltac:(lia) Hb2 HS HSn HSu Hoka1 HSeq) as (st2 & r & t2 & E3 & Et2 & Hr).
  rewrite E3. cbn [mbind res_bind]. rewrite <- Et2. destruct Hr as [(-> & B2 & Hm2 & Hview) | (-> & st3 & E4 & B2)].
  2: { change (-1 <? 0) with true. cbn iota. rewrite E4. cbn [mbind res_bind].
       destruct (build_drop st st3 t2 B2) as (st4 & E5 & Hc). rewrite E5. cbn [mbind res_bind]. by apply Hleft, Hfail. }
  change (0 <? 0) with false. cbn iota.
  destruct (exec_tail_spec st st2 t t2 p asid path uargv img S base B2 Ho Hp Hu) as (st' & p' & r & E5 & Hr); try assumption.
  - fold l. rewrite PGROUNDUP_eq by lia. reflexivity.
  - exists st', p', r. split; [exact E5 |]. destruct Hr as [(-> & -> & Hc) | (-> & args & F1 & F2 & F3 & F)]; [left | right].
    + split; [reflexivity |]. split; [reflexivity |]. split; [by apply (unchanged_old st) | exact Hc].
    + split; [reflexivity |]. exists img, size, t2, args. split; [reflexivity |]. split; [exact F1 |]. split; [exact F2 |]. split; [exact F3 | exact F].
Qed.

(** C16: [exec] always returns, for an image whose segments share no page and leave room for
    the stack. It returns -1 with the process unchanged, its address space and everyone
    else's pages as they were and nothing leaked; or 0 with a new address space of fresh
    pages, in which the program finds exactly the segments of the image and, on its stack,
    argc, the pointers to copies of the argument strings the caller passed, and the
    terminators, with the trapframe cleared but for entry point and stack pointer; the
    pages of the old space are free, and TTBR0 points at the new one. *)
Theorem exec_replaces_or_keeps {A} `{PageAllocLaws A} blobs (st : vm A) (t : ptroot) p asid path uargv :
  pa_ok (al st) -> own st 4 t -> pagetable p = t.1 -> 0 <= uargv < 2 ^ 64 ->
  (forall img size, resolve blobs path = Some (img, size) ->
     bytes_ok img /\ apart (segs img (Z.to_nat (phnum (elfhdr_at img)))) /\
     top (segs img (Z.to_nat (phnum (elfhdr_at img)))) + 4096 <= 2 ^ 48) ->
  exists st' p' r, exec blobs st p asid path uargv = Ret (st', p', r) /\
  (r = -1 /\ p' = p /\ own st' 4 t /\ unchanged st st' \/
   r = 0 /\ exists img size t' args, resolve blobs path = Some (img, size) /\ argv_passed (kw st) t uargv args /\
     pa_ok (al st') /\ own st' 4 t' /\ new_program st' p' t' img path asid args /\
     (forall q, is_page q -> pa_used (al st') q <-> (pa_used (al st) q /\ q ∉ pgs 4 t) \/ q ∈ pgs 4 t') /\
     (forall q, is_page q -> pa_used (al st) q -> q ∉ pgs 4 t -> same_on (kw st) (kw st') q)).
Proof. exact (exec_task_spec blobs st t p asid path uargv). Qed.

Definition demo_tf : trapframe := Trapframe (fun _ => 0) 0 0 0 0.

Lemma exec_replaces_or_keeps_witness :
  let blobs := embedded_progs (demo_img, 122) (demo_img, 0) (demo_img, 0) in
  exists st' p' t', exec blobs st_empty (Task (page_no 0) 0 demo_tf [] 0) 1 (chars "/init") 0 = Ret (st', p', 0) /\
    new_program st' p' t' demo_img (chars "/init") 1 [].
Proof.
  set (p := Task (page_no 0) 0 demo_tf [] 0). intros blobs. assert (Hres : resolve blobs (chars "/init") = Some (demo_img, 122)) by (vm_compute; reflexivity).
  destruct (exec_replaces_or_keeps blobs st_empty (empty_table (page_no 0)) p 1 (chars "/init") 0 (pool_ok _) own_st_root eq_refl ltac:(lia))
    as (st' & p' & r & E & Hr).
  - intros img size Eq. assert (img = demo_img) as -> by congruence. split; [exact demo_img_ok |].
    split; [| vm_compute; congruence]. vm_compute. split; [| exact I]. intros ph x Hp. apply elem_of_nil in Hp. destruct Hp.
  - assert (Hc : (match exec blobs st_empty p 1 (chars "/init") 0 with Ret (_, r) => r | Panic _ => 5 end) = 0) by (vm_compute; reflexivity).
    rewrite E in Hc. subst r. destruct Hr as [(Hm & _) | (_ & img & size & t' & args & Er & Ha & _ & _ & Hn & _)]; [congruence |].
    assert (img = demo_img) as -> by congruence. cbn in Ha. subst args. exists st', p', t'. split; [exact E | exact Hn].
Defined.
