(* ===== verification/Vectors.v ===== *)
(** * Exception entry and exit, and the context switch

    Models the assembly of arch/vectors.s and arch/swtch.s: the programs are lists of
    instructions, written as the files write them, run by the semantics of the few
    instructions they use. Memory is one 64-bit word per aligned address. The offsets are
    those of include/arch/assym.h, checked against the structs as arch/assym.c does. *)

From S2P Require Import Prelude Bits Mmu Pmap Kstack Exec.

(** ** The layout constants *)

Definition TF_X0 : Z := 0.
Definition TF_X30 : Z := 240.
Definition TF_SP : Z := 248.
Definition TF_ELR : Z := 256.
Definition TF_SPSR : Z := 264.
Definition TF_TPIDR : Z := 272.
Definition TF_SIZE : Z := 288.
Definition CTX_X19 : Z := 0.
Definition CTX_X20 : Z := 8.
Definition CTX_X21 : Z := 16.
Definition CTX_X22 : Z := 24.
Definition CTX_X23 : Z := 32.
Definition CTX_X24 : Z := 40.
Definition CTX_X25 : Z := 48.
Definition CTX_X26 : Z := 56.
Definition CTX_X27 : Z := 64.
Definition CTX_X28 : Z := 72.
Definition CTX_X29 : Z := 80.
Definition CTX_X30 : Z := 88.
Definition CTX_SP : Z := 96.
Definition KSTACK_SHIFT : Z := 14.
Definition OVERFLOW_STACK_SHIFT : Z := 12.
Definition OVERFLOW_STACK_SIZE : Z := Z.shiftl 1 OVERFLOW_STACK_SHIFT.

(** The structs, field by field with the number of 64-bit words each takes, and the
    compile-time checks of arch/assym.c. *)
Definition struct_trapframe : list (string * Z) := [("x", 31); ("sp", 1); ("elr", 1); ("spsr", 1); ("tpidr", 1); ("_pad", 1)]%string.
Definition struct_context : list (string * Z) :=
  [("x19", 1); ("x20", 1); ("x21", 1); ("x22", 1); ("x23", 1); ("x24", 1); ("x25", 1); ("x26", 1); ("x27", 1); ("x28", 1); ("x29", 1); ("x30", 1); ("sp", 1)]%string.

Fixpoint offsetof (s : list (string * Z)) (f : string) : Z :=
  match s with
  | [] => 0
  | (g, n) :: s => if bool_decide (g = f) then 0 else 8 * n + offsetof s f
  end.
Definition sizeof (s : list (string * Z)) : Z := fold_right (fun p n => 8 * p.2 + n) 0 s.

Definition assym_checks : list (Z * Z) :=
  [(offsetof struct_trapframe "x", TF_X0); (offsetof struct_trapframe "x" + 8 * 30, TF_X30); (offsetof struct_trapframe "sp", TF_SP); (offsetof struct_trapframe "elr", TF_ELR);
   (offsetof struct_trapframe "spsr", TF_SPSR); (offsetof struct_trapframe "tpidr", TF_TPIDR); (sizeof struct_trapframe, TF_SIZE); (TF_SIZE mod 16, TF_X0);
   (offsetof struct_context "x19", CTX_X19); (offsetof struct_context "x20", CTX_X20); (offsetof struct_context "x21", CTX_X21); (offsetof struct_context "x22", CTX_X22);
   (offsetof struct_context "x23", CTX_X23); (offsetof struct_context "x24", CTX_X24); (offsetof struct_context "x25", CTX_X25); (offsetof struct_context "x26", CTX_X26);
   (offsetof struct_context "x27", CTX_X27); (offsetof struct_context "x28", CTX_X28); (offsetof struct_context "x29", CTX_X29); (offsetof struct_context "x30", CTX_X30);
   (offsetof struct_context "sp", CTX_SP); (sizeof struct_context, CTX_SP + 8)]%string.

(** ** Instructions *)

Inductive reg := X (n : Z) | SP.
Inductive asys := ELR_EL1 | SPSR_EL1 | SP_EL0 | TPIDR_EL0 | TPIDR_EL1 | ESR_EL1 | FAR_EL1.

#[export] Instance asys_eq_dec : EqDecision asys.
Proof. solve_decision. Defined.

Record arm := Arm { gpr : Z -> Z; asp : Z; sysr : asys -> Z; amem : Z -> Z }.

Definition get (st : arm) (r : reg) : Z := match r with X n => gpr st n | SP => asp st end.
Definition set (st : arm) (r : reg) (v : Z) : arm :=
  match r with
  | X n => Arm ((gpr st).[n <- v]) (asp st) (sysr st) (amem st)
  | SP => Arm (gpr st) v (sysr st) (amem st)
  end.
Definition put (st : arm) (a v : Z) : arm := Arm (gpr st) (asp st) (sysr st) ((amem st).[a <- v]).
Definition set_sys (st : arm) (s : asys) (v : Z) : arm := Arm (gpr st) (asp st) (fun s' => if decide (s' = s) then v else sysr st s') (amem st).

Inductive instr :=
| Sub (d n : reg) (imm : Z)              (* sub d, n, #imm *)
| Add (d n : reg) (imm : Z)              (* add d, n, #imm *)
| SubR (d n m : reg)                     (* sub d, n, m *)
| AddR (d n m : reg)                     (* add d, n, m *)
| AddLsl (d n m : reg) (sh : Z)          (* add d, n, m, lsl #sh *)
| Mov (d n : reg)
| Adr (d : reg) (a : Z)                  (* adrp and add :lo12: *)
| Stp (a b base : reg) (off : Z)
| Str (a base : reg) (off : Z)
| Ldp (a b base : reg) (off : Z)
| Ldr (a base : reg) (off : Z)
| Mrs (d : reg) (s : asys)
| Msr (s : asys) (n : reg)
| Tbz (n : reg) (bit : Z)                (* tbz n, #bit, __bad_stack *)
| DsbIsh.

(** The state after an instruction, and whether it branched to __bad_stack. *)
Definition istep (st : arm) (i : instr) : arm * bool :=
  match i with
  | Sub d n imm => (set st d (u64 (get st n - imm)), false)
  | Add d n imm => (set st d (u64 (get st n + imm)), false)
  | SubR d n m => (set st d (u64 (get st n - get st m)), false)
  | AddR d n m => (set st d (u64 (get st n + get st m)), false)
  | AddLsl d n m sh => (set st d (u64 (get st n + u64 (Z.shiftl (get st m) sh))), false)
  | Mov d n => (set st d (get st n), false)
  | Adr d a => (set st d a, false)
  | Stp a b base off => let p := u64 (get st base + off) in let q := u64 (get st base + (off + 8)) in (put (put st p (get st a)) q (get st b), false)
  | Str a base off => (put st (u64 (get st base + off)) (get st a), false)
  | Ldp a b base off => let p := u64 (get st base + off) in let q := u64 (get st base + (off + 8)) in (set (set st a (amem st p)) b (amem st q), false)
  | Ldr a base off => (set st a (amem st (u64 (get st base + off))), false)
  | Mrs d s => (set st d (sysr st s), false)
  | Msr s n => (set_sys st s (get st n), false)
  | Tbz n bit => (st, negb (Z.testbit (get st n) bit))
  | DsbIsh => (st, false)
  end.

Fixpoint irun (st : arm) (l : list instr) : arm * bool :=
  match l with
  | [] => (st, false)
  | i :: l => let '(st, out) := istep st i in if out : bool then (st, true) else irun st l
  end.

(** ** vectors.s *)

Definition stp_regs : list instr :=
  [Stp (X 0) (X 1) SP 0; Stp (X 2) (X 3) SP 16; Stp (X 4) (X 5) SP 32; Stp (X 6) (X 7) SP 48; Stp (X 8) (X 9) SP 64; Stp (X 10) (X 11) SP 80;
   Stp (X 12) (X 13) SP 96; Stp (X 14) (X 15) SP 112; Stp (X 16) (X 17) SP 128; Stp (X 18) (X 19) SP 144; Stp (X 20) (X 21) SP 160;
   Stp (X 22) (X 23) SP 176; Stp (X 24) (X 25) SP 192; Stp (X 26) (X 27) SP 208; Stp (X 28) (X 29) SP 224].

Definition save_regs : list instr :=
  [Sub SP SP TF_SIZE; AddR SP SP (X 0); SubR (X 0) SP (X 0); Tbz (X 0) KSTACK_SHIFT; SubR (X 0) SP (X 0); SubR SP SP (X 0)] ++ stp_regs ++
  [Str (X 30) SP 240; Add (X 0) SP TF_SIZE; Str (X 0) SP TF_SP; Mrs (X 0) ELR_EL1; Mrs (X 1) SPSR_EL1; Stp (X 0) (X 1) SP TF_ELR].

Definition restore_regs : list instr :=
  [Ldp (X 0) (X 1) SP TF_ELR; Msr ELR_EL1 (X 0); Msr SPSR_EL1 (X 1);
   Ldp (X 0) (X 1) SP 0; Ldp (X 2) (X 3) SP 16; Ldp (X 4) (X 5) SP 32; Ldp (X 6) (X 7) SP 48; Ldp (X 8) (X 9) SP 64; Ldp (X 10) (X 11) SP 80;
   Ldp (X 12) (X 13) SP 96; Ldp (X 14) (X 15) SP 112; Ldp (X 16) (X 17) SP 128; Ldp (X 18) (X 19) SP 144; Ldp (X 20) (X 21) SP 160;
   Ldp (X 22) (X 23) SP 176; Ldp (X 24) (X 25) SP 192; Ldp (X 26) (X 27) SP 208; Ldp (X 28) (X 29) SP 224; Ldr (X 30) SP 240; Add SP SP TF_SIZE].

Definition save_user_regs : list instr :=
  [Sub SP SP TF_SIZE] ++ stp_regs ++
  [Mrs (X 0) SP_EL0; Stp (X 30) (X 0) SP TF_X30; Mrs (X 0) ELR_EL1; Mrs (X 1) SPSR_EL1; Stp (X 0) (X 1) SP TF_ELR; Mrs (X 0) TPIDR_EL0; Str (X 0) SP TF_TPIDR].

Definition restore_user_regs : list instr :=
  [Ldr (X 0) SP TF_TPIDR; Msr TPIDR_EL0 (X 0); Ldp (X 0) (X 1) SP TF_ELR; Msr ELR_EL1 (X 0); Msr SPSR_EL1 (X 1); Ldp (X 30) (X 0) SP TF_X30; Msr SP_EL0 (X 0);
   Ldp (X 28) (X 29) SP 224; Ldp (X 26) (X 27) SP 208; Ldp (X 24) (X 25) SP 192; Ldp (X 22) (X 23) SP 176; Ldp (X 20) (X 21) SP 160; Ldp (X 18) (X 19) SP 144;
   Ldp (X 16) (X 17) SP 128; Ldp (X 14) (X 15) SP 112; Ldp (X 12) (X 13) SP 96; Ldp (X 10) (X 11) SP 80; Ldp (X 8) (X 9) SP 64; Ldp (X 6) (X 7) SP 48;
   Ldp (X 4) (X 5) SP 32; Ldp (X 2) (X 3) SP 16; Ldp (X 0) (X 1) SP 0; Add SP SP TF_SIZE].

(** The arguments of the C handlers: the frame, the syndrome and the fault address. *)
Definition el0_sync : list instr := save_user_regs ++ [Mov (X 0) SP; Mrs (X 1) ESR_EL1; Mrs (X 2) FAR_EL1].
Definition el1_sync : list instr := save_regs ++ [Mov (X 0) SP; Mrs (X 1) ESR_EL1; Mrs (X 2) FAR_EL1].

Definition userret : list instr := Mov SP (X 0) :: restore_user_regs.

(** __bad_stack up to the call; [overflow_stack] is the address of the array. *)
Definition bad_stack (overflow_stack : Z) : list instr :=
  [Mov (X 1) (X 0); Adr (X 0) overflow_stack; Mrs (X 2) TPIDR_EL1; Add (X 2) (X 2) 1; AddLsl (X 0) (X 0) (X 2) OVERFLOW_STACK_SHIFT; Mov SP (X 0); Mov (X 0) (X 1)].

(** ** swtch.s *)

Definition swtch : list instr :=
  [DsbIsh; Stp (X 19) (X 20) (X 0) CTX_X19; Stp (X 21) (X 22) (X 0) CTX_X21; Stp (X 23) (X 24) (X 0) CTX_X23; Stp (X 25) (X 26) (X 0) CTX_X25; Stp (X 27) (X 28) (X 0) CTX_X27;
   Stp (X 29) (X 30) (X 0) CTX_X29; Mov (X 9) SP; Str (X 9) (X 0) CTX_SP;
   Ldp (X 19) (X 20) (X 1) CTX_X19; Ldp (X 21) (X 22) (X 1) CTX_X21; Ldp (X 23) (X 24) (X 1) CTX_X23; Ldp (X 25) (X 26) (X 1) CTX_X25; Ldp (X 27) (X 28) (X 1) CTX_X27;
   Ldp (X 29) (X 30) (X 1) CTX_X29; Ldr (X 9) (X 1) CTX_SP; Mov SP (X 9)].

(** ** Lemmas: the layout *)

Lemma assym_checks_hold : Forall (fun p => p.1 = p.2) assym_checks.
Proof. apply (bool_decide_unpack _). vm_compute. exact I. Qed.

(** ** Lemmas: runs of stores *)

Definition stores (m : Z -> Z) (B : Z) (l : list (Z * Z)) : Z -> Z := fold_left (fun m p => m.[u64 (B + p.1) <- p.2]) l m.

Section stores.
Context (B N : Z) (HB : 0 <= B) (HN : B + N <= 2 ^ 64).

Lemma stores_out l : forall m a, Forall (fun p => 0 <= p.1 < N) l -> a < B \/ B + N <= a -> stores m B l a = m a.
Proof using HB HN.
  induction l as [| [o v] l IH]; intros m a Hl Ha; [done |]. apply Forall_cons_1 in Hl as [Ho Hl]. cbn in Ho. change (stores m B ((o, v) :: l)) with (stores (m.[u64 (B + o) <- v]) B l).
  rewrite IH by done. apply upd_ne. rewrite u64_small by lia. lia.
Qed.

Lemma stores_miss l : forall m o, Forall (fun p => 0 <= p.1 < N) l -> 0 <= o < N -> o ∉ l.*1 -> stores m B l (B + o) = m (B + o).
Proof using HB HN.
  induction l as [| [o' v] l IH]; intros m o Hl Ho Hn; [done |]. apply Forall_cons_1 in Hl as [Ho' Hl]. cbn in Ho', Hn. change (stores m B ((o', v) :: l)) with (stores (m.[u64 (B + o') <- v]) B l).
  rewrite IH by (done || set_solver). apply upd_ne. rewrite u64_small by lia. set_solver by lia.
Qed.

Lemma stores_hit l : forall m o v, Forall (fun p => 0 <= p.1 < N) l -> NoDup l.*1 -> (o, v) ∈ l -> stores m B l (B + o) = v.
Proof using HB HN.
  induction l as [| [o' v'] l IH]; intros m o v Hl Hd Hin; [by apply elem_of_nil in Hin |]. apply Forall_cons_1 in Hl as [Ho Hl]. cbn in Ho, Hd. apply NoDup_cons in Hd as [Hn Hd].
  change (stores m B ((o', v') :: l)) with (stores (m.[u64 (B + o') <- v']) B l). apply elem_of_cons in Hin as [E | Hin]; [| by apply IH].
  injection E as -> ->. rewrite stores_miss by done. rewrite u64_small by lia. apply upd_eq.
Qed.
End stores.

(** ** The user frame *)

(** struct trapframe in memory. *)
Definition frame_at (m : Z -> Z) (B : Z) : trapframe :=
  Trapframe (fun i => m (B + (TF_X0 + 8 * i))) (m (B + TF_SP)) (m (B + TF_ELR)) (m (B + TF_SPSR)) (m (B + TF_TPIDR)).

(** The registers a user program sees. *)
Record user_view (st : arm) (f : trapframe) : Prop := {
  uv_x : forall i, 0 <= i <= 30 -> gpr st i = tf_x f i;
  uv_sp : sysr st SP_EL0 = tf_sp f;
  uv_elr : sysr st ELR_EL1 = tf_elr f;
  uv_spsr : sysr st SPSR_EL1 = tf_spsr f;
  uv_tpidr : sysr st TPIDR_EL0 = tf_tpidr f
}.

(** x0 to x30. *)
Definition xregs : list Z := [0; 1; 2; 3; 4; 5; 6; 7; 8; 9; 10; 11; 12; 13; 14; 15; 16; 17; 18; 19; 20; 21; 22; 23; 24; 25; 26; 27; 28; 29; 30].

Definition user_words (st : arm) : list (Z * Z) :=
  map (fun i => (8 * i, gpr st i)) xregs ++ [(248, sysr st SP_EL0); (256, sysr st ELR_EL1); (264, sysr st SPSR_EL1); (272, sysr st TPIDR_EL0)].

(** One instruction at a time, with the words of memory kept symbolic. *)
Ltac steps := cbv [irun istep get put set set_sys gpr asp sysr amem app save_user_regs restore_user_regs save_regs restore_regs stp_regs swtch bad_stack userret].

Lemma save_user_run st : exists g, irun st save_user_regs = (Arm g (u64 (asp st - 288)) (sysr st) (stores (amem st) (u64 (asp st - 288)) (user_words st)), false).
Proof. destruct st as [g s y m]. eexists. steps. cbv [stores user_words xregs map app fold_left fst snd gpr sysr amem asp]. reflexivity. Qed.

(** The registers 0 to 30 one by one. *)
Lemma reg_cases (P : Z -> Prop) : Forall P xregs -> forall i, 0 <= i <= 30 -> P i.
Proof. rewrite Forall_forall. intros H i Hi. apply H. change xregs with (seqZ 0 31). apply elem_of_seqZ. lia. Qed.

Lemma restore_user_run st : exists st', irun st restore_user_regs = (st', false) /\ asp st' = u64 (asp st + 288) /\ amem st' = amem st /\
  Forall (fun i => gpr st' i = amem st (u64 (asp st + 8 * i))) xregs /\
  sysr st' SP_EL0 = amem st (u64 (asp st + 248)) /\ sysr st' ELR_EL1 = amem st (u64 (asp st + 256)) /\ sysr st' SPSR_EL1 = amem st (u64 (asp st + 264)) /\
  sysr st' TPIDR_EL0 = amem st (u64 (asp st + 272)).
Proof.
  destruct st as [g s y m]. eexists. split; [steps; reflexivity |]. split; [reflexivity |]. split; [reflexivity |]. cbv [gpr asp sysr amem]. split; [| repeat split; reflexivity].
  repeat (apply Forall_cons; split; [reflexivity |]). by apply Forall_nil.
Qed.


(** What entry leaves behind, and what exit brings back, in terms of the frame. *)
Lemma user_words_wf st : Forall (fun p => 0 <= p.1 < 288) (user_words st) /\ NoDup (user_words st).*1.
Proof.
  split; cbv [user_words xregs map app].
  - repeat (apply Forall_cons; split; [cbn; lia |]). by apply Forall_nil.
  - apply (bool_decide_unpack (NoDup (map fst _))). vm_compute. exact I.
Qed.

Lemma user_words_x st i : 0 <= i <= 30 -> (8 * i, gpr st i) ∈ user_words st.
Proof. intros Hi. apply elem_of_app. left. apply (list_elem_of_fmap_2 (fun i => (8 * i, gpr st i))). change xregs with (seqZ 0 31). apply elem_of_seqZ. lia. Qed.

Lemma save_user_frame st st1 out :
  288 <= asp st < 2 ^ 64 -> irun st save_user_regs = (st1, out) ->
  out = false /\ asp st1 = asp st - 288 /\ user_view st (frame_at (amem st1) (asp st1)) /\
  (forall a, a < asp st1 \/ asp st <= a -> amem st1 a = amem st a).
Proof.
  intros Hs E. destruct (save_user_run st) as [g Eg]. rewrite Eg in E. injection E as <- <-. cbn [asp amem]. rewrite u64_small by lia.
  destruct (user_words_wf st) as [Hf Hd].
  assert (Hit : forall o v, (o, v) ∈ user_words st -> stores (amem st) (asp st - 288) (user_words st) (asp st - 288 + o) = v).
  { intros o v. apply (stores_hit (asp st - 288) 288); [lia | lia | done | done]. }
  split; [done |]. split; [done |]. split.
  - split; unfold frame_at; cbn [tf_x tf_sp tf_elr tf_spsr tf_tpidr]; [intros i Hi; symmetry; change (TF_X0 + 8 * i) with (8 * i); by apply Hit, user_words_x | ..];
      symmetry; apply Hit; apply elem_of_app; right; repeat first [apply list_elem_of_here | apply list_elem_of_further].
  - intros a Ha. cbn [asp] in Ha. refine (stores_out (asp st - 288) 288 _ _ (user_words st) (amem st) a Hf _); lia.
Qed.

Lemma restore_user_frame st :
  0 <= asp st -> asp st + 288 < 2 ^ 64 ->
  exists st', irun st restore_user_regs = (st', false) /\ asp st' = asp st + 288 /\ amem st' = amem st /\ user_view st' (frame_at (amem st) (asp st)).
Proof.
  intros H0 H1. destruct (restore_user_run st) as (st' & E & Hsp & Hm & Hx & Hy). exists st'. rewrite u64_small in Hsp by lia.
  split; [done |]. split; [done |]. split; [done |]. rewrite !u64_small in Hy by lia. destruct Hy as (Y1 & Y2 & Y3 & Y4).
  split; [| done..]. intros i Hi. pose proof (reg_cases _ Hx i Hi) as Hg. cbv beta in Hg. rewrite Hg, u64_small by lia. done.
Qed.

Lemma irun_app l1 : forall l2 st, irun st (l1 ++ l2) = let '(st', out) := irun st l1 in if out : bool then (st', true) else irun st' l2.
Proof.
  induction l1 as [| i l1 IH]; intros l2 st; cbn [irun app]; [done |]. destruct (istep st i) as [st' [|]]; [done |]. apply IH.
Qed.

Lemma irun_mov_sp st l : irun st (Mov SP (X 0) :: l) = irun (set st SP (gpr st 0)) l.
Proof. reflexivity. Qed.

Lemma userret_run st : irun st userret = irun (set st SP (gpr st 0)) restore_user_regs.
Proof. apply irun_mov_sp. Qed.

(** The part of a frame the exit path reads. *)
Definition frame_kept (m m' : Z -> Z) (B : Z) : Prop := forall o, 0 <= o < TF_SIZE -> m' (B + o) = m (B + o).

Lemma frame_at_kept m m' B st : frame_kept m m' B -> user_view st (frame_at m' B) -> user_view st (frame_at m B).
Proof.
  intros Hk [Hx H1 H2 H3 H4]. unfold frame_at in *. cbn [tf_x tf_sp tf_elr tf_spsr tf_tpidr] in *.
  split; cbn [tf_x tf_sp tf_elr tf_spsr tf_tpidr]; [intros i Hi; rewrite Hx by done | rewrite H1 | rewrite H2 | rewrite H3 | rewrite H4];
    apply Hk; unfold TF_SIZE, TF_X0, TF_SP, TF_ELR, TF_SPSR, TF_TPIDR; lia.
Qed.

(** ** The kernel frame *)

(** The state [save_regs] takes a copy of and [restore_regs] brings back. *)
Record kern_view (st : arm) (f : trapframe) : Prop := {
  kv_x : forall i, 0 <= i <= 30 -> gpr st i = tf_x f i;
  kv_elr : sysr st ELR_EL1 = tf_elr f;
  kv_spsr : sysr st SPSR_EL1 = tf_spsr f
}.

Definition kern_words (g : Z -> Z) (sp : Z) (st : arm) : list (Z * Z) :=
  map (fun i => (8 * i, g i)) xregs ++ [(248, sp); (256, sysr st ELR_EL1); (264, sysr st SPSR_EL1)].

(** The guard: the swap through SP leaves every register as it was when it passes. *)
Definition save_guard : list instr := [Sub SP SP TF_SIZE; AddR SP SP (X 0); SubR (X 0) SP (X 0); Tbz (X 0) KSTACK_SHIFT; SubR (X 0) SP (X 0); SubR SP SP (X 0)].

Lemma swap_sub a x : u64 (u64 (a + x) - x) = u64 a.
Proof. unfold u64. rewrite Zminus_mod_idemp_l. f_equal. lia. Qed.
Lemma swap_sub' a x : u64 (u64 (a + x) - a) = u64 x.
Proof. rewrite (Z.add_comm a x). apply swap_sub. Qed.

Lemma save_guard_run st : 0 <= gpr st 0 < 2 ^ 64 -> exists g s, irun st save_guard = (Arm g s (sysr st) (amem st), negb (Z.testbit (u64 (asp st - 288)) 14)) /\
  (if Z.testbit (u64 (asp st - 288)) 14 then s = u64 (asp st - 288) /\ forall i, g i = gpr st i else g 0 = u64 (asp st - 288) /\ forall i, i <> 0 -> g i = gpr st i).
Proof.
  intros Hx. destruct st as [g s y m]. cbn [gpr asp sysr amem] in *. cbv [save_guard irun istep get put set gpr asp sysr amem TF_SIZE KSTACK_SHIFT].
  rewrite !upd_eq. set (B := u64 (s - 288)). assert (HB : u64 B = B) by (apply u64_small, u64_range).
  rewrite swap_sub, HB. destruct (Z.testbit B 14) eqn:Eb; cbn [negb].
  - do 2 eexists. split; [reflexivity |]. rewrite swap_sub', (u64_small (g 0)) by lia. rewrite swap_sub. split; [done |]. intros i.
    destruct (decide (i = 0)) as [-> | Hi]; [by rewrite upd_eq | by rewrite !upd_ne].
  - do 2 eexists. split; [reflexivity |]. split; [apply upd_eq |]. intros i Hi. by apply upd_ne.
Qed.

Definition save_body : list instr := stp_regs ++ [Str (X 30) SP 240; Add (X 0) SP TF_SIZE; Str (X 0) SP TF_SP; Mrs (X 0) ELR_EL1; Mrs (X 1) SPSR_EL1; Stp (X 0) (X 1) SP TF_ELR].

Lemma save_body_run st : exists g, irun st save_body = (Arm g (asp st) (sysr st) (stores (amem st) (asp st) (kern_words (gpr st) (u64 (asp st + 288)) st)), false).
Proof. destruct st as [g s y m]. eexists. cbv [save_body]. steps. cbv [stores kern_words xregs map app fold_left fst snd gpr sysr amem asp]. reflexivity. Qed.

Lemma kern_words_wf g sp st : Forall (fun p => 0 <= p.1 < 288) (kern_words g sp st) /\ NoDup (kern_words g sp st).*1.
Proof.
  split; cbv [kern_words xregs map app].
  - repeat (apply Forall_cons; split; [cbn; lia |]). by apply Forall_nil.
  - apply (bool_decide_unpack (NoDup (map fst _))). vm_compute. exact I.
Qed.

Lemma save_body_frame st :
  0 <= asp st -> asp st + 288 < 2 ^ 64 -> exists st1, irun st save_body = (st1, false) /\ asp st1 = asp st /\ sysr st1 = sysr st /\
  kern_view st (frame_at (amem st1) (asp st)) /\ tf_sp (frame_at (amem st1) (asp st)) = asp st + 288 /\
  (forall a, a < asp st \/ asp st + 288 <= a -> amem st1 a = amem st a).
Proof.
  intros H0 H1. destruct (save_body_run st) as [g Eg]. rewrite (u64_small (asp st + 288)) in Eg by lia. eexists. split; [exact Eg |]. cbn [asp sysr amem].
  destruct (kern_words_wf (gpr st) (asp st + 288) st) as [Hf Hd]. set (l := kern_words _ _ _) in *.
  assert (Hit : forall o v, (o, v) ∈ l -> stores (amem st) (asp st) l (asp st + o) = v).
  { intros o v Hin. exact (stores_hit (asp st) 288 H0 ltac:(lia) l (amem st) o v Hf Hd Hin). }
  split; [done |]. split; [done |]. split.
  - split; unfold frame_at; cbn [tf_x tf_elr tf_spsr]; symmetry.
    + change (TF_X0 + 8 * i) with (8 * i). apply Hit, elem_of_app. left. apply (list_elem_of_fmap_2 (fun i => (8 * i, gpr st i))). change xregs with (seqZ 0 31). apply elem_of_seqZ. lia.
    + apply Hit, elem_of_app. right. repeat first [apply list_elem_of_here | apply list_elem_of_further].
    + apply Hit, elem_of_app. right. repeat first [apply list_elem_of_here | apply list_elem_of_further].
  - split; [apply Hit, elem_of_app; right; apply list_elem_of_here |].
    intros a Ha. exact (stores_out (asp st) 288 H0 ltac:(lia) l (amem st) a Hf Ha).
Qed.

Lemma restore_run st : exists st', irun st restore_regs = (st', false) /\ asp st' = u64 (asp st + 288) /\ amem st' = amem st /\
  Forall (fun i => gpr st' i = amem st (u64 (asp st + 8 * i))) xregs /\
  sysr st' ELR_EL1 = amem st (u64 (asp st + 256)) /\ sysr st' SPSR_EL1 = amem st (u64 (asp st + 264)).
Proof.
  destruct st as [g s y m]. eexists. split; [steps; reflexivity |]. split; [reflexivity |]. split; [reflexivity |]. cbv [gpr asp sysr amem]. split; [| repeat split; reflexivity].
  repeat (apply Forall_cons; split; [reflexivity |]). by apply Forall_nil.
Qed.

Lemma restore_frame st :
  0 <= asp st -> asp st + 288 < 2 ^ 64 ->
  exists st', irun st restore_regs = (st', false) /\ asp st' = asp st + 288 /\ amem st' = amem st /\ kern_view st' (frame_at (amem st) (asp st)).
Proof.
  intros H0 H1. destruct (restore_run st) as (st' & E & Hsp & Hm & Hx & Hy). exists st'. rewrite u64_small in Hsp by lia.
  split; [done |]. split; [done |]. split; [done |]. rewrite !u64_small in Hy by lia. destruct Hy as (Y1 & Y2).
  split; [| done..]. intros i Hi. pose proof (reg_cases _ Hx i Hi) as Hg. cbv beta in Hg. rewrite Hg, u64_small by lia. done.
Qed.

(** ** The context switch *)

(** struct context: x19 to x30, then sp. *)
Definition callee (st : arm) (k : Z) : Z := if k =? 12 then asp st else gpr st (19 + k).
Definition context_at (m : Z -> Z) (p k : Z) : Z := m (p + (CTX_X19 + 8 * k)).
Definition ctx_slots : list Z := [0; 1; 2; 3; 4; 5; 6; 7; 8; 9; 10; 11; 12].
Definition ctx_words (st : arm) : list (Z * Z) := map (fun k => (8 * k, callee st k)) ctx_slots.

Lemma swtch_save_run st : exists g, irun st (take 9 swtch) = (Arm g (asp st) (sysr st) (stores (amem st) (gpr st 0) (ctx_words st)), false) /\ g 1 = gpr st 1.
Proof. destruct st as [g s y m]. eexists. split; [cbv [take]; steps; reflexivity | reflexivity]. Qed.

Lemma swtch_load_run st : exists st', irun st (drop 9 swtch) = (st', false) /\ sysr st' = sysr st /\ amem st' = amem st /\
  Forall (fun k => callee st' k = amem st (u64 (gpr st 1 + 8 * k))) ctx_slots.
Proof.
  destruct st as [g s y m]. eexists. split; [cbv [drop]; steps; reflexivity |]. split; [reflexivity |]. split; [reflexivity |].
  repeat (apply Forall_cons; split; [reflexivity |]). by apply Forall_nil.
Qed.

Lemma swtch_run st : exists st', irun st swtch = (st', false) /\ sysr st' = sysr st /\ amem st' = stores (amem st) (gpr st 0) (ctx_words st) /\
  Forall (fun k => callee st' k = amem st' (u64 (gpr st 1 + 8 * k))) ctx_slots.
Proof.
  destruct (swtch_save_run st) as (g & E1 & Eg). set (m := stores _ _ _) in *. destruct (swtch_load_run (Arm g (asp st) (sysr st) m)) as (st' & E2 & Ey & Em & Hg).
  exists st'. rewrite <- (take_drop 9 swtch), irun_app, E1, E2. cbn [gpr amem sysr] in *. rewrite Eg in Hg. rewrite Em. done.
Qed.

Lemma ctx_slots_in k : 0 <= k <= 12 -> k ∈ ctx_slots.
Proof. intros Hk. change ctx_slots with (seqZ 0 13). apply elem_of_seqZ. lia. Qed.

Lemma ctx_words_wf st : Forall (fun p => 0 <= p.1 < 104) (ctx_words st) /\ NoDup (ctx_words st).*1.
Proof.
  split; cbv [ctx_words ctx_slots map].
  - repeat (apply Forall_cons; split; [cbn; lia |]). by apply Forall_nil.
  - apply (bool_decide_unpack (NoDup (map fst _))). vm_compute. exact I.
Qed.

(** A context lies in the address space. *)
Definition ctx_ok (p : Z) : Prop := 0 <= p /\ p + 104 <= 2 ^ 64.

Lemma swtch_spec st : ctx_ok (gpr st 0) -> ctx_ok (gpr st 1) -> gpr st 0 + 104 <= gpr st 1 \/ gpr st 1 + 104 <= gpr st 0 ->
  exists st', irun st swtch = (st', false) /\ sysr st' = sysr st /\
  (forall k, 0 <= k <= 12 -> context_at (amem st') (gpr st 0) k = callee st k) /\
  (forall k, 0 <= k <= 12 -> callee st' k = context_at (amem st) (gpr st 1) k) /\
  (forall a, a < gpr st 0 \/ gpr st 0 + 104 <= a -> amem st' a = amem st a).
Proof.
  intros [A1 A2] [B1 B2] Hd. destruct (swtch_run st) as (st' & E & Ey & Em & Hg). exists st'. split; [done |]. split; [done |].
  destruct (ctx_words_wf st) as [Hf Hn]. set (l := ctx_words st) in *.
  assert (Hout : forall a, a < gpr st 0 \/ gpr st 0 + 104 <= a -> amem st' a = amem st a).
  { intros a Ha. rewrite Em. exact (stores_out (gpr st 0) 104 A1 A2 l (amem st) a Hf Ha). }
  split; [| split; [| exact Hout]].
  - intros k Hk. rewrite Em. unfold context_at. change (CTX_X19 + 8 * k) with (8 * k).
    refine (stores_hit (gpr st 0) 104 A1 A2 l (amem st) (8 * k) (callee st k) Hf Hn _). apply (list_elem_of_fmap_2 (fun k => (8 * k, callee st k))). by apply ctx_slots_in.
  - intros k Hk. rewrite Forall_forall in Hg. rewrite (Hg k) by by apply ctx_slots_in. rewrite u64_small by lia. unfold context_at. change (CTX_X19 + 8 * k) with (8 * k). apply Hout. lia.
Qed.

(** Bit KSTACK_SHIFT of an address in a slot tells the stack pages from the guard. *)
Lemma slot_geometry idx a : slot_ok idx -> kstack_base_va idx - KSTACK_GUARD_PAGES * PGSIZE <= a -> a < kstack_base_va idx + KSTACK_PAGES * PGSIZE ->
  0 <= a /\ a + 288 < 2 ^ 64 /\ Z.testbit a 14 = bool_decide (kstack_base_va idx <= a).
Proof.
  unfold slot_ok. change KSTACK_NSLOTS with 32768. intros Hi. assert (Hb : kstack_base_va idx = 18446462598732840960 + 548682072064 + 32768 * idx + 16384).
  { unfold kstack_base_va. change KSTACK_WINDOW with (18446462598732840960 + 548682072064). change (KSTACK_SLOT_PAGES) with 8. change KSTACK_GUARD_PAGES with 4. change PGSIZE with 4096. rewrite u64_small by lia. lia. }
  rewrite Hb. change (KSTACK_GUARD_PAGES * PGSIZE) with 16384. change (KSTACK_PAGES * PGSIZE) with 16384. intros Hlo Hhi. split; [lia |]. split; [lia |].
  rewrite Z.testbit_odd, Z.shiftr_div_pow2 by lia. change (2 ^ 14) with 16384.
  assert (Hq : a / 16384 = 2 * (562941363486720 + 16744448 + idx) + (if bool_decide (18446462598732840960 + 548682072064 + 32768 * idx + 16384 <= a) then 1 else 0)).
  { symmetry. apply (Z.div_unique_pos _ _ _ (a - 16384 * (2 * (562941363486720 + 16744448 + idx) + (if bool_decide (18446462598732840960 + 548682072064 + 32768 * idx + 16384 <= a) then 1 else 0)))); case_bool_decide; lia. }
  rewrite Hq, Z.add_comm, Z.odd_add_mul_2. by case_bool_decide.
Qed.

(** ** Theorems *)

(** C11: a trap from user mode saves every register of the program in a struct trapframe at
    the top of the kernel stack, passes the handler that frame, the syndrome and the fault
    address, and stores nowhere else. Whatever the handler does, the way out loads exactly
    the registers the frame then holds and gives the stack back; [userret] does the same
    from a frame in x0. A frame the handler leaves alone resumes the program with every
    register, SP_EL0, ELR, SPSR and TPIDR_EL0 as they were. *)
Theorem user_trap_roundtrip st st1 out :
  288 <= asp st < 2 ^ 64 -> irun st el0_sync = (st1, out) ->
  out = false /\ asp st1 = asp st - 288 /\ gpr st1 0 = asp st1 /\ gpr st1 1 = sysr st ESR_EL1 /\ gpr st1 2 = sysr st FAR_EL1 /\
  user_view st (frame_at (amem st1) (asp st1)) /\
  (forall a, a < asp st1 \/ asp st <= a -> amem st1 a = amem st a) /\
  forall st2, (asp st2 = asp st1 -> exists st3, irun st2 restore_user_regs = (st3, false) /\ asp st3 = asp st /\ user_view st3 (frame_at (amem st2) (asp st1)) /\
      (frame_kept (amem st1) (amem st2) (asp st1) -> user_view st3 (frame_at (amem st1) (asp st1)))) /\
    (gpr st2 0 = asp st1 -> exists st3, irun st2 userret = (st3, false) /\ asp st3 = asp st /\ user_view st3 (frame_at (amem st2) (asp st1))).
Proof.
  intros Hs E. unfold el0_sync in E. rewrite irun_app in E. destruct (irun st save_user_regs) as [sa oa] eqn:Ea.
  assert (Ey : sysr sa = sysr st) by (destruct (save_user_run st) as [g Eg]; rewrite Eg in Ea; by injection Ea as <- _).
  destruct (save_user_frame _ _ _ Hs Ea) as (-> & Hsp & Hv & Hm). destruct sa as [g s y m]. cbn [sysr asp amem] in *. subst y.
  cbv [irun istep get set gpr asp sysr amem] in E. injection E as <- <-. cbn [gpr asp sysr amem].
  split; [done |]. split; [done |]. split; [reflexivity |]. split; [reflexivity |]. split; [reflexivity |]. split; [done |]. split; [done |].
  intros st2. split.
  - intros Hs2. destruct (restore_user_frame st2) as (st3 & E3 & Hs3 & _ & Hv3); [lia | lia |]. rewrite Hs2 in Hs3, Hv3. exists st3. split; [done |]. split; [lia |]. split; [done |].
    intros Hk. by apply (frame_at_kept m (amem st2)).
  - intros Hx. destruct (restore_user_frame (set st2 SP (gpr st2 0))) as (st3 & E3 & Hs3 & _ & Hv3); [cbn; lia | cbn; lia |]. cbn [set asp amem] in Hs3, Hv3. rewrite Hx in Hs3, Hv3.
    exists st3. split; [by rewrite userret_run |]. split; [lia | done].
Qed.

(** A user trap from a stack at the top of the first slot, every register distinct. *)
Definition trap_ex : arm := Arm (fun i => 100 + i) (kstack_base_va 0 + 16384) (fun s => match s with ELR_EL1 => 7 | SPSR_EL1 => 8 | SP_EL0 => 9 | TPIDR_EL0 => 10 | TPIDR_EL1 => 2 | ESR_EL1 => 11 | FAR_EL1 => 12 end) (fun _ => 0).

Lemma user_trap_roundtrip_witness : exists st1 st3, irun trap_ex el0_sync = (st1, false) /\ irun st1 restore_user_regs = (st3, false) /\ user_view st3 (frame_at (amem st1) (asp st1)) /\ gpr st1 1 = 11.
Proof.
  assert (E : exists st1, irun trap_ex el0_sync = (st1, false)) by (eexists; vm_compute; reflexivity). destruct E as [st1 E]. exists st1.
  destruct (user_trap_roundtrip trap_ex st1 false) as (_ & _ & _ & H1 & _ & _ & _ & H2); [split; vm_compute; congruence | exact E |].
  destruct (proj1 (H2 st1) eq_refl) as (st3 & E3 & _ & Hv & _). exists st3. split; [exact E |]. split; [exact E3 |]. split; [exact Hv | exact H1].
Defined.

(** C12: the kernel-stack overflow guard. For an exception taken in the kernel with SP in a
    stack slot (guard pages below, stack pages above), the frame is stored exactly when it
    fits the stack pages: then it lies in them, holds x0 to x30, the interrupted SP, ELR and
    SPSR (the swap of x0 and SP notwithstanding), nothing else is written, and [restore_regs]
    brings all of it back. When it would reach into the guard nothing at all is stored, and
    the landing pad runs on the top of this CPU's emergency stack with the overflowing SP as
    argument. *)
Theorem kernel_trap_guarded st idx overflow_stack :
  0 <= gpr st 0 < 2 ^ 64 -> slot_ok idx -> kstack_base_va idx - KSTACK_GUARD_PAGES * PGSIZE <= asp st - TF_SIZE -> asp st <= kstack_base_va idx + KSTACK_PAGES * PGSIZE ->
  0 <= overflow_stack -> 0 <= sysr st TPIDR_EL1 -> overflow_stack + (sysr st TPIDR_EL1 + 1) * OVERFLOW_STACK_SIZE < 2 ^ 64 ->
  if decide (kstack_base_va idx <= asp st - TF_SIZE) then
    exists st1, irun st save_regs = (st1, false) /\ asp st1 = asp st - TF_SIZE /\ kern_view st (frame_at (amem st1) (asp st1)) /\ tf_sp (frame_at (amem st1) (asp st1)) = asp st /\
      (forall a, a < asp st1 \/ asp st <= a -> amem st1 a = amem st a) /\
      (forall st2, asp st2 = asp st1 -> exists st3, irun st2 restore_regs = (st3, false) /\ asp st3 = asp st /\ kern_view st3 (frame_at (amem st2) (asp st1)))
  else
    exists st1 st2, irun st save_regs = (st1, true) /\ amem st1 = amem st /\ irun st1 (bad_stack overflow_stack) = (st2, false) /\ amem st2 = amem st /\
      asp st2 = overflow_stack + (sysr st TPIDR_EL1 + 1) * OVERFLOW_STACK_SIZE /\ gpr st2 0 = asp st - TF_SIZE.
Proof.
  intros Hx Hi Hlo Hhi Ho Hc Hov. destruct (slot_geometry idx (asp st - TF_SIZE) Hi Hlo ltac:(unfold TF_SIZE; lia)) as (Hr0 & Hr & Hb).
  change TF_SIZE with 288 in *. destruct (save_guard_run st Hx) as (g & s & E & H). rewrite (u64_small (asp st - 288)) in E, H by lia. rewrite Hb in E, H.
  change save_regs with (save_guard ++ save_body). rewrite irun_app, E. destruct (decide (kstack_base_va idx <= asp st - 288)) as [Hin | Hout].
  - rewrite bool_decide_true in H by done. rewrite bool_decide_true by done. cbn [negb]. destruct H as [-> Hg].
    destruct (save_body_frame (Arm g (asp st - 288) (sysr st) (amem st))) as (st1 & E1 & Hs1 & Hy1 & Hv1 & Ht1 & Hm1); cbn [asp amem sysr gpr] in *; [lia | lia |].
    exists st1. rewrite Hs1. split; [done |]. split; [done |]. split; [destruct Hv1 as [V1 V2 V3]; split; [intros i Hi'; rewrite <- Hg; by apply V1 | done..] |]. split; [lia |].
    split; [intros a Ha; apply Hm1; lia |]. intros st2 Hs2. destruct (restore_frame st2) as (st3 & E3 & Hs3 & _ & Hv3); [lia | lia |]. rewrite Hs2 in Hs3, Hv3. exists st3. split; [done |]. split; [lia | done].
  - rewrite bool_decide_false in H by done. rewrite bool_decide_false by done. cbn [negb]. destruct H as [Hg0 Hg]. do 2 eexists. split; [reflexivity |]. split; [reflexivity |].
    split; [steps; reflexivity |]. split; [reflexivity |]. cbn [asp gpr]. change (u64 (overflow_stack + u64 (Z.shiftl (u64 (sysr st TPIDR_EL1 + 1)) 12)) = overflow_stack + (sysr st TPIDR_EL1 + 1) * 4096 /\ g 0 = asp st - 288).
    split; [| done]. change OVERFLOW_STACK_SIZE with 4096 in *. rewrite (u64_small (_ + 1)) by lia. rewrite Z.shiftl_mul_pow2 by lia. rewrite (u64_small (_ * _)) by lia. apply u64_small. lia.
Qed.

(** SP in the stack pages of slot 5, and one frame too deep in slot 5. *)
Definition kern_ex (sp : Z) : arm := Arm (fun i => 100 + i) sp (fun s => match s with ELR_EL1 => 7 | SPSR_EL1 => 8 | TPIDR_EL1 => 2 | _ => 0 end) (fun _ => 0).

Lemma kernel_trap_guarded_witness :
  (exists st1, irun (kern_ex (kstack_base_va 5 + 400)) save_regs = (st1, false) /\ tf_sp (frame_at (amem st1) (asp st1)) = kstack_base_va 5 + 400) /\
  (exists st1 st2, irun (kern_ex (kstack_base_va 5 + 200)) save_regs = (st1, true) /\ irun st1 (bad_stack 0x80000) = (st2, false) /\ asp st2 = 0x83000 /\ gpr st2 0 = kstack_base_va 5 - 88).
Proof.
  split.
  - pose proof (kernel_trap_guarded (kern_ex (kstack_base_va 5 + 400)) 5 0x80000) as H. rewrite decide_True in H by (vm_compute; congruence).
    destruct H as (st1 & E & _ & _ & Ht & _); [split; vm_compute; congruence | split; vm_compute; congruence | vm_compute; congruence .. |]. exists st1. split; [exact E | exact Ht].
  - pose proof (kernel_trap_guarded (kern_ex (kstack_base_va 5 + 200)) 5 0x80000) as H. rewrite decide_False in H by (vm_compute; congruence).
    destruct H as (st1 & st2 & E1 & _ & E2 & _ & Hs & Hx); [split; vm_compute; congruence | split; vm_compute; congruence | vm_compute; congruence .. |].
    exists st1, st2. split; [exact E1 |]. split; [exact E2 |]. split; [rewrite Hs; vm_compute; reflexivity | rewrite Hx; vm_compute; reflexivity].
Defined.

(** C13: [swtch] stores the callee-saved registers and SP in the old context and nowhere else,
    continues with those of the new one, and a later [swtch] on any CPU that resumes the
    old context, with its words untouched, comes back with exactly the registers and the
    stack it left: x19 to x30 (x30 being the return address) and SP. *)
Theorem swtch_resumes st st2 :
  ctx_ok (gpr st 0) -> ctx_ok (gpr st 1) -> gpr st 0 + 104 <= gpr st 1 \/ gpr st 1 + 104 <= gpr st 0 ->
  gpr st2 1 = gpr st 0 -> ctx_ok (gpr st2 0) -> gpr st2 0 + 104 <= gpr st2 1 \/ gpr st2 1 + 104 <= gpr st2 0 ->
  exists st1, irun st swtch = (st1, false) /\ (forall k, 0 <= k <= 12 -> callee st1 k = context_at (amem st) (gpr st 1) k) /\
    (forall a, a < gpr st 0 \/ gpr st 0 + 104 <= a -> amem st1 a = amem st a) /\
    ((forall k, 0 <= k <= 12 -> context_at (amem st2) (gpr st 0) k = context_at (amem st1) (gpr st 0) k) ->
     exists st3, irun st2 swtch = (st3, false) /\ asp st3 = asp st /\ (forall i, 19 <= i <= 30 -> gpr st3 i = gpr st i) /\
       (forall k, 0 <= k <= 12 -> context_at (amem st3) (gpr st2 0) k = callee st2 k)).
Proof.
  intros A B D E2 C F. destruct (swtch_spec st A B D) as (st1 & R1 & _ & S1 & L1 & M1). exists st1. split; [done |]. split; [done |]. split; [done |].
  intros Hk. destruct (swtch_spec st2 C ltac:(rewrite E2; done) F) as (st3 & R3 & _ & S3 & L3 & _). exists st3. split; [done |]. rewrite E2 in L3.
  assert (Hc : forall k, 0 <= k <= 12 -> callee st3 k = callee st k) by (intros k Hk'; by rewrite L3, Hk, S1).
  split; [exact (Hc 12 ltac:(lia)) |]. split; [| exact S3]. intros i Hi. specialize (Hc (i - 19) ltac:(lia)). unfold callee in Hc.
  destruct (Z.eqb_spec (i - 19) 12); [lia |]. by replace (19 + (i - 19)) with i in Hc by lia.
Qed.

(** A switch from the context at 1000 to the one at 2000, and back. *)
Definition switch_ex (from to base : Z) (m : Z -> Z) : arm := Arm (fun i => if i =? 0 then from else if i =? 1 then to else base + i) (base + 77) (fun _ => 0) m.

Lemma swtch_resumes_witness : exists st1 st3, irun (switch_ex 1000 2000 500 (fun a => a)) swtch = (st1, false) /\ asp st1 = 2096 /\ gpr st1 30 = 2088 /\
  irun (switch_ex 2000 1000 700 (amem st1)) swtch = (st3, false) /\ asp st3 = 577 /\ gpr st3 30 = 530.
Proof.
  assert (E : exists st1, irun (switch_ex 1000 2000 500 (fun a => a)) swtch = (st1, false)) by (eexists; vm_compute; reflexivity). destruct E as [st0 E]. exists st0.
  destruct (swtch_resumes (switch_ex 1000 2000 500 (fun a => a)) (switch_ex 2000 1000 700 (amem st0))) as (st1 & E1 & L & _ & R);
    [split; vm_compute; congruence | split; vm_compute; congruence | left; vm_compute; congruence | reflexivity | split; vm_compute; congruence | right; vm_compute; congruence |].
  rewrite E in E1. injection E1 as <-. destruct (R ltac:(reflexivity)) as (st3 & E3 & Hs & Hg & _). exists st3.
  split; [exact E |]. split; [exact (L 12 ltac:(lia)) |]. split; [exact (L 11 ltac:(lia)) |]. split; [exact E3 |]. split; [exact Hs | exact (Hg 30 ltac:(lia))].
Defined.
