(* ===== verification/Proc.v ===== *)
(** * Processes and scheduling: the machine

    Models kern/proc.c as CPUs that take turns. The state [kern] holds the process
    tables, the locks and, for each CPU, the point of proc.c it has reached; [kstep] runs
    one CPU from its point to the next. A point is a place where other CPUs can make a
    difference: before a lock is taken, or while one is held over a switch. Code between
    two points holds the locks of what it touches (Spinlock.v shows that a lock excludes),
    so it runs as one step; [runq_lock] and [pid_lock] never outlast a step.

    A thread outside proc.c is at [PRun ls], with the locks [ls] of other code held, and
    may call in with any event; [saved] is where a thread not on a CPU resumes, the
    [context] that [swtch] left. A process object comes from the slab: [EFork] and
    [EKthread] name the address [kmem_cache_alloc] returned, one not in [objs], or none.

    Each lock operation masks and restores the CPU's interrupts as kern/spinlock.c does. A
    thread outside proc.c may mask and unmask them itself while it holds no lock ([EIrq]:
    an exception taken, its return, irq_enable, irq_disable). *)

From S2P Require Import Prelude Bits Mmu.

Definition PIDHASH_BUCKETS : Z := 64.

Inductive procstate := UNUSED | USED | SLEEPING | RUNNABLE | RUNNING | ZOMBIE.

#[export] Instance procstate_eq_dec : EqDecision procstate.
Proof. solve_decision. Defined.

(** The fields of [struct proc] that other threads read or write. *)
Record proc := Proc {
  state : procstate;
  chan : Z;
  killed : Z;
  xstate : Z;
  pid : Z;
  parent : option Z
}.

Definition set_state (p : proc) (s : procstate) : proc := Proc s (chan p) (killed p) (xstate p) (pid p) (parent p).
Definition set_chan (p : proc) (c : Z) : proc := Proc (state p) c (killed p) (xstate p) (pid p) (parent p).
Definition set_killed (p : proc) (n : Z) : proc := Proc (state p) (chan p) n (xstate p) (pid p) (parent p).
Definition set_xstate (p : proc) (n : Z) : proc := Proc (state p) (chan p) (killed p) n (pid p) (parent p).
Definition set_parent (p : proc) (q : option Z) : proc := Proc (state p) (chan p) (killed p) (xstate p) (pid p) q.

(** [wait_lock], [ptable_lock], the lock of a process, and a lock of other code. *)
Inductive lock := LWait | LPtable | LProc (p : Z) | LOther (l : Z).

#[export] Instance lock_eq_dec : EqDecision lock.
Proof. solve_decision. Defined.

(** Where [sleep] goes on: its caller is other code, or [wait]. *)
Inductive skont := SUser | SWait (xstatus : Z).

(** Where [wakeup] goes on: other code holding [ls], the idle scheduler or the scheduler
    about to dispatch (an interrupt), or one of the two calls in [exit]. *)
Inductive wkont := WRun (ls : list Z) | WIdle | WDispatch (p : Z) | WExit1 (status : Z) | WExit2 (status : Z).

(** What a process does when [swtch] comes back to it, its own lock held. *)
Inductive resume := RFork | RYield | RSleep (lk : lock) (s : skont) | RExit.

Inductive point :=
| PSched                                          (* scheduler: top of the loop *)
| PDispatch (p : Z)                               (* scheduler: p dequeued *)
| PSwitched (p : Z)                               (* scheduler: p switched back *)
| PRun (ls : list Z)                              (* outside proc.c *)
| PResume (r : resume)                            (* just switched to *)
| PSleep1 (ch : Z) (lk : lock) (s : skont)        (* sleep: p->lock taken, lk held *)
| PSleep2 (ch : Z) (lk : lock) (s : skont)        (* sleep: lk released *)
| PRelock (lk : lock) (s : skont)                 (* sleep: before taking lk again *)
| PWake (ch : Z) (todo : list Z) (w : wkont)      (* wakeup: processes still to visit *)
| PExit1 (status : Z)                             (* exit: wait_lock taken *)
| PExit2 (status : Z)                             (* exit: children reparented *)
| PExit3 (status : Z)                             (* exit: init woken *)
| PExit4 (status : Z)                             (* exit: parent woken *)
| PWait1 (xstatus : Z)                            (* wait: top of the loop *)
| PScan (todo : list Z) (havekids : bool) (xstatus : Z)
| PWait2 (havekids : bool) (xstatus : Z)          (* wait: scan done *)
| PWait3 (xstatus : Z)                            (* wait: not killed, to sleep *)
| PReap (np : Z)                                  (* wait: np unlinked, to be freed *)
| PFork1 (np : Z)                                 (* fork: np private *)
| PFork2 (np : Z)                                 (* fork: wait_lock taken *)
| PKthread (np : Z).                              (* kthread_add: np private *)

(** Interrupts: [noff], [intena] and the mask of each CPU ([irq]: IRQs unmasked), and the
    [intena] that [sched] keeps on the stack of a process it switches away from. *)
Record irqs := Irqs { noff : Z -> Z; irq : Z -> bool; intena : Z -> bool; sintena : Z -> bool }.

Record kern := Kern {
  procs : Z -> proc;
  allproc : list Z;
  pidhash : Z -> list Z;
  runq : list Z;
  pidmap : bitstr;
  initproc : Z;
  objs : list Z;                (* objects of proc_cache handed out *)
  owner : lock -> option Z;     (* the CPU holding a lock *)
  ints : irqs;
  cproc : Z -> option Z;        (* cpus[i].proc *)
  pc : Z -> point;
  saved : Z -> resume;
  rets : Z -> Z                 (* the value the last call on a CPU returned *)
}.

Definition set_procs (k : kern) (f : Z -> proc) : kern :=
  Kern f (allproc k) (pidhash k) (runq k) (pidmap k) (initproc k) (objs k) (owner k) (ints k) (cproc k) (pc k) (saved k) (rets k).
Definition set_proc (k : kern) (p : Z) (r : proc) : kern := set_procs k ((procs k).[p <- r]).
Definition set_tables (k : kern) (l : list Z) (h : Z -> list Z) : kern :=
  Kern (procs k) l h (runq k) (pidmap k) (initproc k) (objs k) (owner k) (ints k) (cproc k) (pc k) (saved k) (rets k).
Definition set_runq (k : kern) (q : list Z) : kern :=
  Kern (procs k) (allproc k) (pidhash k) q (pidmap k) (initproc k) (objs k) (owner k) (ints k) (cproc k) (pc k) (saved k) (rets k).
Definition set_pids (k : kern) (m : bitstr) (o : list Z) : kern :=
  Kern (procs k) (allproc k) (pidhash k) (runq k) m (initproc k) o (owner k) (ints k) (cproc k) (pc k) (saved k) (rets k).
Definition set_owner (k : kern) (l : lock) (o : option Z) (i : irqs) : kern :=
  Kern (procs k) (allproc k) (pidhash k) (runq k) (pidmap k) (initproc k) (objs k)
    (fun l' => if decide (l' = l) then o else owner k l') i (cproc k) (pc k) (saved k) (rets k).
Definition set_ints (k : kern) (i : irqs) : kern :=
  Kern (procs k) (allproc k) (pidhash k) (runq k) (pidmap k) (initproc k) (objs k) (owner k) i (cproc k) (pc k) (saved k) (rets k).
Definition set_cproc (k : kern) (c : Z) (p : option Z) : kern :=
  Kern (procs k) (allproc k) (pidhash k) (runq k) (pidmap k) (initproc k) (objs k) (owner k) (ints k) ((cproc k).[c <- p]) (pc k) (saved k) (rets k).
Definition goto (k : kern) (c : Z) (x : point) : kern :=
  Kern (procs k) (allproc k) (pidhash k) (runq k) (pidmap k) (initproc k) (objs k) (owner k) (ints k) (cproc k) ((pc k).[c <- x]) (saved k) (rets k).
Definition save (k : kern) (p : Z) (r : resume) : kern :=
  Kern (procs k) (allproc k) (pidhash k) (runq k) (pidmap k) (initproc k) (objs k) (owner k) (ints k) (cproc k) (pc k) ((saved k).[p <- r]) (rets k).
Definition set_ret (k : kern) (c v : Z) : kern :=
  Kern (procs k) (allproc k) (pidhash k) (runq k) (pidmap k) (initproc k) (objs k) (owner k) (ints k) (cproc k) (pc k) (saved k) ((rets k).[c <- v]).

(** ** Outcomes of a step: it spins on a lock another CPU holds, goes on, or panics. *)
Inductive outcome (A : Type) := Blocked | Go (a : A) | Stop (s : string).
Arguments Blocked {A}.
Arguments Go {A} a.
Arguments Stop {A} s.

#[export] Instance outcome_bind : MBind outcome :=
  fun A B f m => match m with Blocked => Blocked | Go a => f a | Stop s => Stop s end.

Definition check (b : bool) (s : string) : outcome unit := if b then Go tt else Stop s.

(** *** Interrupt masking *)

Definition set_irq (i : irqs) (c : Z) (b : bool) : irqs := Irqs (noff i) ((irq i).[c <- b]) (intena i) (sintena i).
Definition set_intena (i : irqs) (c : Z) (b : bool) : irqs := Irqs (noff i) (irq i) ((intena i).[c <- b]) (sintena i).
Definition set_sintena (i : irqs) (p : Z) (b : bool) : irqs := Irqs (noff i) (irq i) (intena i) ((sintena i).[p <- b]).

Definition push_off (i : irqs) (c : Z) : irqs :=
  let old := irq i c in
  let i := set_irq i c false in
  let i := if noff i c =? 0 then set_intena i c old else i in
  Irqs ((noff i).[c <- noff i c + 1]) (irq i) (intena i) (sintena i).

Definition pop_off (i : irqs) (c : Z) : outcome irqs :=
  _ ← check (negb (irq i c)) "pop_off: interruptable";
  _ ← check (1 <=? noff i c) "pop_off: underflow";
  let i := Irqs ((noff i).[c <- noff i c - 1]) (irq i) (intena i) (sintena i) in
  Go (if (noff i c =? 0) && intena i c then set_irq i c true else i).

(** *** Locks; nobody panics, so a lock another CPU holds is waited for. *)

Definition acquire_spinlock (k : kern) (c : Z) (l : lock) : outcome kern :=
  let i := push_off (ints k) c in
  match owner k l with
  | None => Go (set_owner k l (Some c) i)
  | Some c' => if c' =? c then Stop "acquire_spinlock: already held" else Blocked
  end.

Definition release_spinlock (k : kern) (c : Z) (l : lock) : outcome kern :=
  if bool_decide (owner k l = Some c) then i ← pop_off (ints k) c; Go (set_owner k l None i)
  else Stop "release_spinlock: not held".

(** ** Tables *)

Definition pid_alloc (k : kern) : kern * Z :=
  let p := bit_ffc (pidmap k) KSTACK_NSLOTS in
  (if p >=? 0 then set_pids k (bit_set (pidmap k) p) (objs k) else k, p).

Definition pid_free (k : kern) (p : Z) : kern := set_pids k (bit_clear (pidmap k) p) (objs k).

Definition runq_enqueue (k : kern) (p : Z) : kern := set_runq k (runq k ++ [p]).

Definition runq_dequeue (k : kern) : kern * option Z :=
  match runq k with [] => (k, None) | p :: q => (set_runq k q, Some p) end.

Definition bucket (n : Z) : Z := Z.land n (PIDHASH_BUCKETS - 1).

Fixpoint pid_scan (l : list Z) (k : kern) (n : Z) : option Z :=
  match l with [] => None | p :: l' => if pid (procs k p) =? n then Some p else pid_scan l' k n end.

Definition pid_lookup (k : kern) (n : Z) : option Z := pid_scan (pidhash k (bucket n)) k n.


(** ** The scheduler *)

Definition sched (k : kern) (c p : Z) (r : resume) : outcome kern :=
  _ ← check (bool_decide (owner k (LProc p) = Some c)) "sched: p->lock not held";
  _ ← check (noff (ints k) c =? 1) "sched: locks held";
  _ ← check (bool_decide (state (procs k p) <> RUNNING)) "sched: still RUNNING";
  _ ← check (negb (irq (ints k) c)) "sched: interrupts enabled";
  let k := set_ints k (set_sintena (ints k) p (intena (ints k) c)) in
  Go (goto (save k p r) c (PSwitched p)).

(** irq_enable, then runq_dequeue, which takes and releases [runq_lock], and the assertion
    before the dispatch. *)
Definition scheduler_pick (k : kern) (c : Z) : outcome kern :=
  let k := set_ints k (set_irq (ints k) c true) in
  i ← pop_off (push_off (ints k) c) c;
  let '(k, p) := runq_dequeue (set_ints k i) in
  match p with
  | None => Go k
  | Some p =>
      _ ← check (irq (ints k) c) "scheduler: dispatch with IRQs masked";
      Go (goto k c (PDispatch p))
  end.

Definition scheduler_dispatch (k : kern) (c p : Z) : outcome kern :=
  k ← acquire_spinlock k c (LProc p);
  if decide (state (procs k p) <> RUNNABLE) then
    k ← release_spinlock k c (LProc p); Go (goto k c PSched)
  else
    let k := set_proc k p (set_state (procs k p) RUNNING) in
    let k := set_cproc k c (Some p) in
    Go (goto k c (PResume (saved k p))).

Definition scheduler_return (k : kern) (c p : Z) : outcome kern :=
  let k := set_cproc k c None in
  let k := if decide (state (procs k p) = RUNNABLE) then runq_enqueue k p else k in
  k ← release_spinlock k c (LProc p);
  Go (goto k c PSched).

Definition yield (k : kern) (c p : Z) : outcome kern :=
  k ← acquire_spinlock k c (LProc p);
  sched (set_proc k p (set_state (procs k p) RUNNABLE)) c p RYield.

(** ** Sleep and wakeup *)

Definition sleep_enter (k : kern) (c p ch : Z) (lk : lock) (s : skont) : outcome kern :=
  k ← acquire_spinlock k c (LProc p);
  Go (goto k c (PSleep1 ch lk s)).

Definition sleep_release (k : kern) (c ch : Z) (lk : lock) (s : skont) : outcome kern :=
  k ← release_spinlock k c lk;
  Go (goto k c (PSleep2 ch lk s)).

Definition sleep_switch (k : kern) (c p ch : Z) (lk : lock) (s : skont) : outcome kern :=
  let k := set_proc k p (set_state (set_chan (procs k p) ch) SLEEPING) in
  sched k c p (RSleep lk s).

(** The end of [sched]: the thread's [intena] goes to the CPU it is on now. *)
Definition sched_return (k : kern) (c p : Z) : kern := set_ints k (set_intena (ints k) c (sintena (ints k) p)).

(** What follows [swtch] in [sched], with the rest of [yield] and [sleep]; and [forkret]. *)
Definition resumed (k : kern) (c p : Z) (r : resume) : outcome kern :=
  match r with
  | RFork => k ← release_spinlock k c (LProc p); Go (goto k c (PRun []))
  | RYield => k ← release_spinlock (sched_return k c p) c (LProc p); Go (goto k c (PRun []))
  | RSleep lk s =>
      let k := sched_return k c p in
      let k := set_proc k p (set_chan (procs k p) 0) in
      k ← release_spinlock k c (LProc p);
      Go (goto k c (PRelock lk s))
  | RExit => Stop "exit: unreachable"
  end.

Definition relock (k : kern) (c : Z) (lk : lock) (s : skont) : outcome kern :=
  k ← acquire_spinlock k c lk;
  Go (goto k c (match s, lk with
                | SWait xs, _ => PWait1 xs
                | SUser, LOther l => PRun [l]
                | SUser, _ => PRun []
                end)).

Definition wakeup_enter (k : kern) (c ch : Z) (w : wkont) : outcome kern :=
  k ← acquire_spinlock k c LPtable;
  Go (goto k c (PWake ch (allproc k) w)).

(** One turn of the loop; [self] is [cproc k c]. *)
Definition wakeup_visit (k : kern) (c ch p : Z) : outcome kern :=
  if decide (cproc k c = Some p) then Go k
  else
    k ← acquire_spinlock k c (LProc p);
    let k := if decide (state (procs k p) = SLEEPING /\ chan (procs k p) = ch)
             then runq_enqueue (set_proc k p (set_state (procs k p) RUNNABLE)) p else k in
    release_spinlock k c (LProc p).

Definition wakeup_loop (k : kern) (c ch : Z) (todo : list Z) (w : wkont) : outcome kern :=
  match todo with
  | p :: todo' => k ← wakeup_visit k c ch p; Go (goto k c (PWake ch todo' w))
  | [] =>
      k ← release_spinlock k c LPtable;
      let k := match w with WIdle | WDispatch _ => set_ints k (set_irq (ints k) c true) | _ => k end in
      Go (goto k c (match w with
                    | WRun ls => PRun ls
                    | WIdle => PSched
                    | WDispatch p => PDispatch p
                    | WExit1 st => PExit3 st
                    | WExit2 st => PExit4 st
                    end))
  end.

(** ** Exit, wait, kill *)

(** [uvmfree] of the caller's own table comes first and touches nothing shared. *)
Definition exit_enter (k : kern) (c p status : Z) : outcome kern :=
  if p =? initproc k then Stop "init exiting"
  else k ← acquire_spinlock k c LWait; Go (goto k c (PExit1 status)).

Definition reparent (k : kern) (p : Z) : kern :=
  set_procs k (fun q => if bool_decide (q ∈ allproc k) && bool_decide (parent (procs k q) = Some p)
                        then set_parent (procs k q) (Some (initproc k)) else procs k q).

Definition exit_reparent (k : kern) (c p status : Z) : outcome kern :=
  k ← acquire_spinlock k c LPtable;
  let k := reparent k p in
  k ← release_spinlock k c LPtable;
  Go (goto k c (PExit2 status)).

Definition exit_wake_parent (k : kern) (c p status : Z) : outcome kern :=
  match parent (procs k p) with
  | Some q => if q =? initproc k then Go (goto k c (PExit4 status)) else wakeup_enter k c q (WExit2 status)
  | None => Go (goto k c (PExit4 status))
  end.

Definition exit_zombie (k : kern) (c p status : Z) : outcome kern :=
  k ← acquire_spinlock k c (LProc p);
  let k := set_proc k p (set_state (set_xstate (procs k p) status) ZOMBIE) in
  k ← release_spinlock k c LWait;
  sched k c p RExit.

Definition wait_enter (k : kern) (c xs : Z) : outcome kern :=
  k ← acquire_spinlock k c LWait; Go (goto k c (PWait1 xs)).

Definition wait_top (k : kern) (c xs : Z) : outcome kern :=
  k ← acquire_spinlock k c LPtable; Go (goto k c (PScan (allproc k) false xs)).

(** One turn of the loop of [wait]; [ok] is the outcome of [copyout]. *)
Definition wait_scan (k : kern) (c p : Z) (todo : list Z) (havekids : bool) (xs : Z) (ok : bool) : outcome kern :=
  match todo with
  | np :: todo' =>
      if decide (parent (procs k np) <> Some p) then Go (goto k c (PScan todo' havekids xs))
      else
        k ← acquire_spinlock k c (LProc np);
        if decide (state (procs k np) = ZOMBIE) then
          if negb (xs =? 0) && negb ok then
            k ← release_spinlock k c (LProc np);
            k ← release_spinlock k c LPtable;
            k ← release_spinlock k c LWait;
            Go (goto (set_ret k c (-1)) c (PRun []))
          else
            let n := pid (procs k np) in
            let h := pidhash k in
            let k := set_tables k (without np (allproc k)) (h.[bucket n <- without np (h (bucket n))]) in
            k ← release_spinlock k c (LProc np);
            k ← release_spinlock k c LPtable;
            Go (goto k c (PReap np))
        else
          k ← release_spinlock k c (LProc np);
          Go (goto k c (PScan todo' true xs))
  | [] => k ← release_spinlock k c LPtable; Go (goto k c (PWait2 havekids xs))
  end.

Definition wait_end (k : kern) (c p : Z) (havekids : bool) (xs : Z) : outcome kern :=
  let fail k := (k ← release_spinlock k c LWait; Go (goto (set_ret k c (-1)) c (PRun []))) in
  if negb havekids then fail k
  else
    k ← acquire_spinlock k c (LProc p);
    let n := killed (procs k p) in
    k ← release_spinlock k c (LProc p);
    if negb (n =? 0) then fail k else Go (goto k c (PWait3 xs)).

Definition wait_sleep (k : kern) (c p xs : Z) : outcome kern := sleep_enter k c p p LWait (SWait xs).

(** The shared part of [freeproc]: the pid and the object. *)
Definition freeproc (k : kern) (np : Z) : kern :=
  let k := pid_free k (pid (procs k np)) in
  set_pids k (pidmap k) (without np (objs k)).

Definition wait_reap (k : kern) (c np : Z) : outcome kern :=
  let n := pid (procs k np) in
  let k := freeproc k np in
  k ← release_spinlock k c LWait;
  Go (goto (set_ret k c n) c (PRun [])).

Definition kill (k : kern) (c n : Z) : outcome kern :=
  k ← acquire_spinlock k c LPtable;
  match pid_lookup k n with
  | None => k ← release_spinlock k c LPtable; Go (set_ret k c (-1))
  | Some p =>
      k ← acquire_spinlock k c (LProc p);
      let k := set_proc k p (set_killed (procs k p) 1) in
      let k := if decide (state (procs k p) = SLEEPING)
               then runq_enqueue (set_proc k p (set_state (procs k p) RUNNABLE)) p else k in
      k ← release_spinlock k c (LProc p);
      k ← release_spinlock k c LPtable;
      Go (set_ret k c 0)
  end.

(** ** Fork *)

(** The shared part of [allocproc]: a pid and an object, private until published; [np] is
    [None] when there is no stack slot, no memory for the stack or no object, and the pid
    goes back. [saved] is the context that returns to [forkret]. *)
Definition allocproc (k : kern) (np : option Z) : kern * option Z :=
  let '(k, n) := pid_alloc k in
  if n <? 0 then (k, None)
  else match np with
       | None => (pid_free k n, None)
       | Some np =>
           let k := set_pids k (pidmap k) (np :: objs k) in
           (save (set_proc k np (Proc USED 0 0 0 n None)) np RFork, Some np)
       end.

Definition proc_activate (k : kern) (c np : Z) (par : option Z) : outcome kern :=
  k ← acquire_spinlock k c LPtable;
  k ← acquire_spinlock k c (LProc np);
  let h := pidhash k in
  let b := bucket (pid (procs k np)) in
  let k := set_tables k (np :: allproc k) (h.[b <- np :: h b]) in
  let k := match par with Some q => set_proc k np (set_parent (procs k np) (Some q)) | None => k end in
  let k := set_proc k np (set_state (procs k np) RUNNABLE) in
  let k := runq_enqueue k np in
  k ← release_spinlock k c (LProc np);
  release_spinlock k c LPtable.

Definition fork_enter (k : kern) (c : Z) (np : option Z) (x : Z -> point) : outcome kern :=
  if match np with Some q => bool_decide (q ∈ objs k) | None => false end then Blocked
  else match allocproc k np with
       | (k, None) => Go (set_ret k c (-1))
       | (k, Some np) => Go (goto k c (x np))
       end.

(** [ok] is the outcome of [uvmcreate] and [uvmcopy]. *)
Definition fork_copy (k : kern) (c np : Z) (ok : bool) : outcome kern :=
  if ok then k ← acquire_spinlock k c LWait; Go (goto k c (PFork2 np))
  else Go (goto (set_ret (freeproc k np) c (-1)) c (PRun [])).

Definition fork_publish (k : kern) (c p np : Z) : outcome kern :=
  let n := pid (procs k np) in
  k ← proc_activate k c np (Some p);
  k ← release_spinlock k c LWait;
  Go (goto (set_ret k c n) c (PRun [])).

Definition kthread_publish (k : kern) (c np : Z) : outcome kern :=
  let n := pid (procs k np) in
  k ← proc_activate k c np None;
  Go (goto (set_ret k c n) c (PRun [])).

(** ** The machine *)

(** What a CPU does next: go on ([ok] is the outcome of a call out of proc.c), or, from
    outside proc.c, a call or a lock operation. *)
Inductive event :=
| EStep (ok : bool)
| EYield
| ESleep (ch l : Z)
| EWakeup (ch : Z)
| EExit (status : Z)
| EWait (xstatus : Z)
| EKill (n : Z)
| EFork (np : option Z)
| EKthread (np : option Z)
| ELock (l : Z)
| EUnlock (l : Z)
| EIrq (b : bool).

(** A call by the thread of [p]. System calls are made with no lock held; [sleep] with
    the one lock it is given; [wakeup] and [kill] with any. *)
Definition call (k : kern) (c p : Z) (ls : list Z) (e : event) : outcome kern :=
  match e, ls with
  | EYield, [] => yield k c p
  | ESleep ch l, [l'] => if l =? l' then sleep_enter k c p ch (LOther l) SUser else Blocked
  | EWakeup ch, _ => wakeup_enter k c ch (WRun ls)
  | EExit st, [] => exit_enter k c p st
  | EWait xs, [] => wait_enter k c xs
  | EKill n, _ => kill k c n
  | EFork np, [] => fork_enter k c np PFork1
  | EKthread np, [] => fork_enter k c np PKthread
  | ELock l, _ => k ← acquire_spinlock k c (LOther l); Go (goto k c (PRun (l :: ls)))
  | EUnlock l, _ => k ← release_spinlock k c (LOther l); Go (goto k c (PRun (without l ls)))
  | EIrq b, [] => Go (set_ints k (set_irq (ints k) c b))
  | _, _ => Blocked
  end.

(** A point of the thread of [p]. *)
Definition thread (k : kern) (c p : Z) (x : point) (e : event) : outcome kern :=
  match x, e with
  | PRun ls, _ => call k c p ls e
  | PResume r, EStep _ => resumed k c p r
  | PSleep1 ch lk s, EStep _ => sleep_release k c ch lk s
  | PSleep2 ch lk s, EStep _ => sleep_switch k c p ch lk s
  | PRelock lk s, EStep _ => relock k c lk s
  | PWake ch todo w, EStep _ => wakeup_loop k c ch todo w
  | PExit1 st, EStep _ => exit_reparent k c p st
  | PExit2 st, EStep _ => wakeup_enter k c (initproc k) (WExit1 st)
  | PExit3 st, EStep _ => exit_wake_parent k c p st
  | PExit4 st, EStep _ => exit_zombie k c p st
  | PWait1 xs, EStep _ => wait_top k c xs
  | PScan todo hk xs, EStep ok => wait_scan k c p todo hk xs ok
  | PWait2 hk xs, EStep _ => wait_end k c p hk xs
  | PWait3 xs, EStep _ => wait_sleep k c p xs
  | PReap np, EStep _ => wait_reap k c np
  | PFork1 np, EStep ok => fork_copy k c np ok
  | PFork2 np, EStep _ => fork_publish k c p np
  | PKthread np, EStep _ => kthread_publish k c np
  | _, _ => Blocked
  end.

(** A wakeup from an interrupt taken in the scheduler: IRQs are masked on the way in and
    [eret] unmasks them on the way out ([wakeup_loop]). *)
Definition interrupt (k : kern) (c ch : Z) (w : wkont) : outcome kern :=
  if irq (ints k) c then wakeup_enter (set_ints k (set_irq (ints k) c false)) c ch w else Blocked.

Definition kstep (k : kern) (c : Z) (e : event) : outcome kern :=
  match pc k c, e with
  | PSched, EStep _ => scheduler_pick k c
  | PSched, EWakeup ch => interrupt k c ch WIdle
  | PDispatch p, EStep _ => scheduler_dispatch k c p
  | PDispatch p, EWakeup ch => interrupt k c ch (WDispatch p)
  | PSwitched p, EStep _ => scheduler_return k c p
  | PWake ch todo w, EStep _ => wakeup_loop k c ch todo w
  | x, _ => match cproc k c with Some p => thread k c p x e | None => Blocked end
  end.

(** After [procinit] and [userinit]: init, of pid 1, waits in the run queue. *)
Definition boot (init : Z) : kern :=
  {| procs := fun _ => Proc RUNNABLE 0 0 0 1 None;
     allproc := [init];
     pidhash := fun b => if b =? bucket 1 then [init] else [];
     runq := [init];
     pidmap := bit_set (bit_set (fun _ => 0) 0) 1;
     initproc := init;
     objs := [init];
     owner := fun _ => None;
     ints := Irqs (fun _ => 0) (fun _ => false) (fun _ => false) (fun _ => false);
     cproc := fun _ => None;
     pc := fun _ => PSched;
     saved := fun _ => RFork;
     rets := fun _ => 0 |}.
