(* ===== verification/Klist.v ===== *)
(** * Intrusive lists

    Models include/sys/list.h at the level of its pointers: an element carries
    [le_next] and [le_prev], and [le_prev] points at the slot that points at the
    element, either a head's [lh_first] or the [le_next] of the element before. A store
    holds one link field of all elements, so two fields of a structure ([all_link] and
    [pid_link]) are two stores. Memory a macro has not written is arbitrary.

    The other components treat a list as the sequence of its elements; the theorems here
    are what makes that sound. *)

From S2P Require Import Prelude Bits Mmu Proc.

(** ** The store *)

(** A [struct type **]: the address of a head's first pointer or of a next pointer. *)
Inductive lslot := HeadSlot (h : Z) | NextSlot (e : Z).

#[export] Instance lslot_eq_dec : EqDecision lslot.
Proof. solve_decision. Defined.

Record lstore := LStore {
  slot : lslot -> Z;            (* what the slot holds: an element, or NULL = 0 *)
  le_prev : Z -> lslot
}.

Definition set_slot (s : lstore) (c : lslot) (e : Z) : lstore :=
  LStore (fun c' => if decide (c' = c) then e else slot s c') (le_prev s).
Definition set_prev (s : lstore) (e : Z) (c : lslot) : lstore :=
  LStore (slot s) ((le_prev s).[e <- c]).

Definition le_next (s : lstore) (e : Z) : Z := slot s (NextSlot e).

(** ** LIST *)

Definition LIST_INIT (s : lstore) (h : Z) : lstore := set_slot s (HeadSlot h) 0.
Definition LIST_FIRST (s : lstore) (h : Z) : Z := slot s (HeadSlot h).
Definition LIST_NEXT (s : lstore) (e : Z) : Z := le_next s e.
Definition LIST_EMPTY (s : lstore) (h : Z) : bool := slot s (HeadSlot h) =? 0.

Definition LIST_INSERT_HEAD (s : lstore) (h e : Z) : lstore :=
  let s := set_slot s (NextSlot e) (slot s (HeadSlot h)) in
  let s := if negb (le_next s e =? 0) then set_prev s (slot s (HeadSlot h)) (NextSlot e) else s in
  let s := set_slot s (HeadSlot h) e in
  set_prev s e (HeadSlot h).

Definition LIST_REMOVE (s : lstore) (e : Z) : lstore :=
  let s := if negb (le_next s e =? 0) then set_prev s (le_next s e) (le_prev s e) else s in
  set_slot s (le_prev s e) (le_next s e).

(** The elements a LIST_FOREACH visits from [e] on; [None] when [n] rounds do not reach
    the end. *)
Fixpoint list_foreach (n : nat) (s : lstore) (e : Z) : option (list Z) :=
  match n with
  | O => None
  | S n => if e =? 0 then Some [] else cons e <$> list_foreach n s (LIST_NEXT s e)
  end.

Definition LIST_FOREACH (n : nat) (s : lstore) (h : Z) : option (list Z) :=
  list_foreach n s (LIST_FIRST s h).

(** LIST_FOREACH_SAFE: the successor is read before the body runs. *)
Fixpoint list_foreach_safe (n : nat) (body : lstore -> Z -> lstore) (s : lstore) (e : Z) : option lstore :=
  match n with
  | O => None
  | S n => if e =? 0 then Some s
           else let tvar := LIST_NEXT s e in list_foreach_safe n body (body s e) tvar
  end.

Definition LIST_FOREACH_SAFE (n : nat) (s : lstore) (h : Z) (body : lstore -> Z -> lstore) : option lstore :=
  list_foreach_safe n body s (LIST_FIRST s h).

(** ** TAILQ *)

(** [tqe_next] and [tqe_prev] are the links of [links]. *)
Record tstore := TStore {
  links : lstore;
  tqh_last : Z -> lslot
}.

Definition set_last (t : tstore) (h : Z) (c : lslot) : tstore := TStore (links t) ((tqh_last t).[h <- c]).

Definition TAILQ_INIT (t : tstore) (h : Z) : tstore :=
  set_last (TStore (set_slot (links t) (HeadSlot h) 0) (tqh_last t)) h (HeadSlot h).

Definition TAILQ_FIRST (t : tstore) (h : Z) : Z := slot (links t) (HeadSlot h).
Definition TAILQ_EMPTY (t : tstore) (h : Z) : bool := slot (links t) (HeadSlot h) =? 0.

Definition TAILQ_INSERT_TAIL (t : tstore) (h e : Z) : tstore :=
  let s := set_slot (links t) (NextSlot e) 0 in
  let s := set_prev s e (tqh_last t h) in
  let s := set_slot s (tqh_last t h) e in
  set_last (TStore s (tqh_last t)) h (NextSlot e).

Definition TAILQ_REMOVE (t : tstore) (h e : Z) : tstore :=
  let s := links t in
  let t := if negb (le_next s e =? 0)
           then TStore (set_prev s (le_next s e) (le_prev s e)) (tqh_last t)
           else set_last t h (le_prev s e) in
  TStore (set_slot (links t) (le_prev (links t) e) (le_next (links t) e)) (tqh_last t).

(** ** What a store represents *)

(** [seg s c l c']: from slot [c] the elements [l] hang, and the last one's next pointer
    (or [c], without elements) is slot [c']. *)
Fixpoint seg (s : lstore) (c : lslot) (l : list Z) (c' : lslot) : Prop :=
  match l with
  | [] => c = c'
  | e :: l => slot s c = e /\ e <> 0 /\ le_prev s e = c /\ seg s (NextSlot e) l c'
  end.

Definition chain (s : lstore) (c : lslot) (l : list Z) (c' : lslot) : Prop := seg s c l c' /\ slot s c' = 0.

(** Nobody is on two lists or twice on one. *)
Definition apart (L : gmap Z (list Z)) : Prop :=
  (forall h l, L !! h = Some l -> NoDup l) /\
  (forall h h' l l' e, L !! h = Some l -> L !! h' = Some l' -> e ∈ l -> e ∈ l' -> h = h').

Definition on_list (L : gmap Z (list Z)) (e : Z) : Prop := map_Exists (fun _ l => e ∈ l) L.

(** The initialised heads and their elements. *)
Definition lists (s : lstore) (L : gmap Z (list Z)) : Prop :=
  apart L /\ forall h l, L !! h = Some l -> exists c, chain s (HeadSlot h) l c.

Definition tailqs (t : tstore) (L : gmap Z (list Z)) : Prop :=
  apart L /\ forall h l, L !! h = Some l -> chain (links t) (HeadSlot h) l (tqh_last t h).

(** The slots and elements a segment is made of. *)
Definition slots_of (c : lslot) (l : list Z) : list lslot := c :: (NextSlot <$> l).

(** The slots read on the way: all but the last. *)
Fixpoint reads (c : lslot) (l : list Z) : list lslot :=
  match l with [] => [] | e :: l => c :: reads (NextSlot e) l end.

Lemma seg_app s c l1 l2 c' : seg s c (l1 ++ l2) c' <-> exists d, seg s c l1 d /\ seg s d l2 c'.
Proof.
  revert c. induction l1 as [|e l1 IH]; intros c; cbn [app seg].
  - split; [intros Hs; exists c; by split | by intros (d & -> & Hs)].
  - rewrite IH. split.
    + intros (? & ? & ? & d & ? & ?). by exists d.
    + intros (d & (? & ? & ? & ?) & ?). repeat split; try done. by exists d.
Qed.

Lemma seg_slots s c l c' : seg s c l c' -> slots_of c l = reads c l ++ [c'].
Proof.
  revert c. induction l as [|e l IH]; intros c; cbn [seg reads app].
  - by intros ->.
  - intros (_ & _ & _ & Hs). unfold slots_of in *. cbn. f_equal. by apply IH.
Qed.

Lemma seg_frame s s' c l c' :
  seg s c l c' -> (forall d, d ∈ reads c l -> slot s' d = slot s d) ->
  (forall e, e ∈ l -> le_prev s' e = le_prev s e) -> seg s' c l c'.
Proof.
  revert c. induction l as [|e l IH]; intros c; cbn [seg reads]; [done|].
  intros (Hc & He & Hp & Hs) Hr Hl. rewrite (Hr c), (Hl e) by set_solver.
  split_and!; try done. apply IH; [done | |]; intros; [apply Hr | apply Hl]; set_solver.
Qed.

Lemma slots_nodup c l : NoDup l -> (forall e, e ∈ l -> c <> NextSlot e) -> NoDup (slots_of c l).
Proof.
  intros Hn Hc. apply NoDup_cons. split.
  - intros (e & -> & He)%list_elem_of_fmap. by apply (Hc e).
  - apply NoDup_fmap; [by intros ? ? [=] | done].
Qed.

(** The stores agree but for some slots and some elements' back pointers. *)
Definition same_off (s s' : lstore) (D : list lslot) (E : list Z) : Prop :=
  (forall d, d ∉ D -> slot s' d = slot s d) /\ (forall e, e ∉ E -> le_prev s' e = le_prev s e).

Lemma same_off_refl s D E : same_off s s D E.
Proof. by split. Qed.

Lemma same_off_slot s s' D E c e : same_off s s' D E -> c ∈ D -> same_off s (set_slot s' c e) D E.
Proof. intros [Hd He] Hc. split; [|done]. intros d Hin. cbn. rewrite decide_False by congruence. by apply Hd. Qed.

Lemma same_off_prev s s' D E c e : same_off s s' D E -> e ∈ E -> same_off s (set_prev s' e c) D E.
Proof. intros [Hd He] Hc. split; [done|]. intros f Hin. cbn. rewrite upd_ne by congruence. by apply He. Qed.

Create HintDb klist.
#[export] Hint Resolve same_off_refl same_off_slot same_off_prev : klist.

Lemma chain_frame s s' c l c' D E :
  chain s c l c' -> same_off s s' D E -> (forall d, d ∈ slots_of c l -> d ∉ D) -> (forall e, e ∈ l -> e ∉ E) ->
  chain s' c l c'.
Proof.
  intros [Hs H0] [Hd He] HD HE. pose proof (seg_slots _ _ _ _ Hs) as Hsl. split.
  - apply (seg_frame s); [done | |]; intros; [apply Hd, HD; rewrite Hsl; set_solver | by apply He, HE].
  - rewrite Hd; [done|]. apply HD. rewrite Hsl. set_solver.
Qed.

Ltac slot_simpl :=
  repeat first [ rewrite upd_eq | rewrite upd_ne by congruence
               | rewrite decide_True by congruence | rewrite decide_False by congruence ].

(** Writes to slots and back pointers of the footprint. *)
Ltac off :=
  repeat match goal with
    | |- same_off _ (set_slot _ _ _) _ _ => apply same_off_slot
    | |- same_off _ (set_prev _ _ _) _ _ => apply same_off_prev
    | |- same_off ?s ?s _ _ => apply same_off_refl
    end.

Lemma in_slots c l d : d ∈ slots_of c l <-> d = c \/ exists e, d = NextSlot e /\ e ∈ l.
Proof. unfold slots_of. by rewrite elem_of_cons, list_elem_of_fmap. Qed.

Lemma in_reads s c l c' d : seg s c l c' -> d ∈ reads c l -> d ∈ slots_of c l.
Proof. intros Hs Hd. rewrite (seg_slots _ _ _ _ Hs). set_solver. Qed.

Lemma seg_last s c l c' : seg s c l c' -> c' ∈ slots_of c l.
Proof. intros Hs. rewrite (seg_slots _ _ _ _ Hs). set_solver. Qed.

Lemma lslot_ne c l d e : d ∈ slots_of c l -> c <> NextSlot e -> e ∉ l -> d <> NextSlot e.
Proof. rewrite in_slots. by intros [-> | (f & -> & Hf)] Hc He [= ->]. Qed.

Lemma slot_ne_head l d e h : d ∈ slots_of (NextSlot e) l -> d <> HeadSlot h.
Proof. rewrite in_slots. by intros [-> | (f & -> & Hf)]. Qed.

#[export] Hint Resolve in_reads seg_last lslot_ne slot_ne_head : klist.

(** ** One list *)

Lemma insert_head_chain s h l e c :
  chain s (HeadSlot h) l c -> NoDup (e :: l) -> e <> 0 ->
  let s' := LIST_INSERT_HEAD s h e in
  (exists c', chain s' (HeadSlot h) (e :: l) c') /\ same_off s s' (slots_of (HeadSlot h) (e :: l)) (e :: l).
Proof.
  intros [Hs H0] Hn He. apply NoDup_cons in Hn as [Hel Hn]. cbn zeta. unfold LIST_INSERT_HEAD, le_next. cbn [slot set_slot].
  slot_simpl. destruct l as [|f l]; cbn [seg] in Hs.
  - subst c. rewrite H0. split; [|cbn; off; set_solver].
    exists (NextSlot e). unfold chain. cbn. slot_simpl. by repeat split.
  - destruct Hs as (Hf & Hf0 & Hp & Hs). rewrite Hf, (proj2 (Z.eqb_neq _ _) Hf0). cbn [negb].
    apply not_elem_of_cons in Hel as [Hef Hel]. apply NoDup_cons in Hn as [Hfl _]. split; [|off; set_solver].
    exists c. assert (c <> NextSlot e /\ c <> HeadSlot h) as [] by (split; eauto 7 with klist congruence).
    unfold chain. cbn. slot_simpl. split_and!; try done.
    eapply seg_frame; [exact Hs | |]; cbn.
    + intros d Hd. assert (d <> NextSlot e /\ d <> HeadSlot h) as [] by (split; eauto 7 with klist congruence). by slot_simpl.
    + intros g Hg. assert (g <> e /\ g <> f) as [] by (split; by intros ->). by slot_simpl.
Qed.

(** Taking an element out, whoever owns the head; [c] is the slot the list hangs from. *)
Lemma remove_chain s c l1 e l2 c' :
  chain s c (l1 ++ e :: l2) c' -> NoDup (l1 ++ e :: l2) -> (forall f, f ∈ l1 ++ e :: l2 -> c <> NextSlot f) ->
  let s' := LIST_REMOVE s e in
  chain s' c (l1 ++ l2) (match l2 with [] => le_prev s e | _ => c' end) /\ same_off s s' (slots_of c (l1 ++ e :: l2)) (l1 ++ e :: l2).
Proof.
  intros [Hs H0] Hn Hc. apply seg_app in Hs as (d & H1 & Hd & He & Hp & H2).
  pose proof (slots_nodup c l1) as Hn1. apply NoDup_app in Hn as (Hnl1 & H12 & Hn2). apply NoDup_cons in Hn2 as [He2 Hn2].
  assert (e ∉ l1) as He1 by (intros Hin; apply (H12 e Hin); set_solver).
  specialize (Hn1 Hnl1 ltac:(intros f Hf; apply Hc; set_solver)). rewrite (seg_slots _ _ _ _ H1) in Hn1.
  assert (d <> NextSlot e) as Hde by (apply (lslot_ne c l1); [by eapply seg_last | apply Hc; set_solver | done]).
  assert (d ∈ slots_of c (l1 ++ e :: l2)) as Hdin.
  { apply seg_last in H1. rewrite in_slots in *. destruct H1 as [?|(f & ? & ?)]; [by left|right; exists f; set_solver]. }
  cbn zeta. unfold LIST_REMOVE, le_next. destruct l2 as [|f l2].
  - cbn [seg] in H2. subst c'. rewrite H0. cbn [Z.eqb negb]. rewrite Hp, app_nil_r. split; [|off; done]. split.
    + eapply seg_frame; [exact H1 | | done]. intros d' Hd'. cbn. rewrite decide_False; [done|].
      intros ->. apply NoDup_app in Hn1 as (_ & Hn1 & _). apply (Hn1 d Hd'). set_solver.
    + cbn. by slot_simpl.
  - cbn [seg] in H2. destruct H2 as (Hf & Hf0 & Hpf & H2). rewrite Hf, (proj2 (Z.eqb_neq _ _) Hf0). cbn [negb set_prev le_prev slot].
    apply not_elem_of_cons in He2 as [Hef He2]. apply NoDup_cons in Hn2 as [Hf2 Hn2].
    rewrite upd_ne by done. rewrite Hp, Hf. split; [|off; [set_solver | done]].
    assert (forall g, g ∈ f :: l2 -> d <> NextSlot g) as Hdn.
    { intros g Hg. apply (lslot_ne c l1); [by eapply seg_last | apply Hc; set_solver | intros Hin; apply (H12 g Hin); set_solver]. }
    split.
    + apply seg_app. exists d. split.
      * eapply seg_frame; [exact H1 | |]; cbn.
        -- intros d' Hd'. rewrite decide_False; [done|]. intros ->.
           apply NoDup_app in Hn1 as (_ & Hn1 & _). apply (Hn1 d Hd'). set_solver.
        -- intros g Hg. rewrite upd_ne; [done|]. intros ->. apply (H12 f Hg). set_solver.
      * cbn. slot_simpl. split_and!; try done. eapply seg_frame; [exact H2 | |]; cbn.
        -- intros d' Hd'%(in_reads s (NextSlot f) l2 c'); [|done]. rewrite decide_False; [done|]. intros ->.
           apply in_slots in Hd' as [E|(g & E & Hg)]; eapply Hdn; [| exact E | | exact E]; set_solver.
        -- intros g Hg. rewrite upd_ne; [done|]. by intros ->.
    + cbn. rewrite decide_False; [done|]. intros ->. apply seg_last, in_slots in H2 as [E|(g & E & Hg)];
        eapply Hdn; [| exact E | | exact E]; set_solver.
Qed.

Lemma insert_tail_chain t h l e :
  chain (links t) (HeadSlot h) l (tqh_last t h) -> NoDup (e :: l) -> e <> 0 ->
  let t' := TAILQ_INSERT_TAIL t h e in
  chain (links t') (HeadSlot h) (l ++ [e]) (tqh_last t' h) /\
  same_off (links t) (links t') (slots_of (HeadSlot h) (e :: l)) (e :: l).
Proof.
  intros [Hs H0] [Hel Hn]%NoDup_cons He. cbn zeta. cbn [TAILQ_INSERT_TAIL set_last links tqh_last].
  assert (tqh_last t h <> NextSlot e) as Hne by (eapply lslot_ne; [eauto with klist | done..]).
  pose proof (slots_nodup (HeadSlot h) l Hn ltac:(done)) as Hn1. rewrite (seg_slots _ _ _ _ Hs) in Hn1.
  rewrite upd_eq. split.
  - split; [|cbn; by slot_simpl]. apply seg_app. exists (tqh_last t h). split; [|cbn; by slot_simpl].
    eapply seg_frame; [exact Hs | |]; cbn.
    + intros d Hd. rewrite !decide_False; [done | |]; [eauto 7 with klist congruence|].
      intros ->. apply NoDup_app in Hn1 as (_ & Hn1 & _). apply (Hn1 _ Hd). set_solver.
    + intros g Hg. rewrite upd_ne; [done|]. by intros ->.
  - off; [set_solver.. |]. apply seg_last, in_slots in Hs as [-> | (f & -> & ?)]; apply in_slots; [by left | right; exists f; set_solver].
Qed.

Lemma tailq_remove_links t h e : links (TAILQ_REMOVE t h e) = LIST_REMOVE (links t) e.
Proof. unfold TAILQ_REMOVE, LIST_REMOVE. by destruct (negb _). Qed.

Lemma tailq_remove_last t h e :
  tqh_last (TAILQ_REMOVE t h e) = if le_next (links t) e =? 0 then (tqh_last t).[h <- le_prev (links t) e] else tqh_last t.
Proof. unfold TAILQ_REMOVE. by destruct (_ =? _). Qed.

Lemma chain_first s c l c' : chain s c l c' -> slot s c = hd 0 l.
Proof. destruct l; [by intros [-> ?] | by intros [(? & _) _]]. Qed.

Lemma chain_tail s c l1 e l2 c' : chain s c (l1 ++ e :: l2) c' -> chain s (NextSlot e) l2 c'.
Proof. intros [(d & _ & _ & _ & _ & ?)%seg_app ?]. by split. Qed.

Lemma chain_nonzero s c l c' e : chain s c l c' -> e ∈ l -> e <> 0.
Proof. intros [Hs _] (l1 & l2 & ->)%list_elem_of_split. by apply seg_app in Hs as (d & _ & _ & ? & _). Qed.

Lemma tailq_remove_chain t h l1 e l2 :
  chain (links t) (HeadSlot h) (l1 ++ e :: l2) (tqh_last t h) -> NoDup (l1 ++ e :: l2) ->
  let t' := TAILQ_REMOVE t h e in
  chain (links t') (HeadSlot h) (l1 ++ l2) (tqh_last t' h) /\
  same_off (links t) (links t') (slots_of (HeadSlot h) (l1 ++ e :: l2)) (l1 ++ e :: l2).
Proof.
  intros Hch Hn. cbn zeta. rewrite tailq_remove_links, tailq_remove_last.
  destruct (remove_chain _ _ _ _ _ _ Hch Hn ltac:(done)) as [Hc Ho]. split; [|done].
  pose proof (chain_first _ _ _ _ (chain_tail _ _ _ _ _ _ Hch)) as Hf. change (le_next (links t) e = hd 0 l2) in Hf. rewrite Hf.
  destruct l2 as [|f l2]; cbn [hd]; [by rewrite Z.eqb_refl, upd_eq|].
  rewrite (proj2 (Z.eqb_neq f 0)); [done|]. eapply chain_nonzero; [exact Hch | set_solver].
Qed.

(** ** Several lists *)

Lemma on_list_of L h l e : L !! h = Some l -> e ∈ l -> on_list L e.
Proof. intros Hl He. by exists h, l. Qed.

Lemma apart_set L h l l' :
  apart L -> L !! h = Some l -> NoDup l' -> (forall e, e ∈ l' -> e ∈ l \/ ~ on_list L e) -> apart (<[h := l']> L).
Proof.
  intros [Hn Ha] Hl Hn' Hfrom. split.
  - intros h1 l1 [[-> <-]|[? ?]]%lookup_insert_Some; eauto.
  - intros h1 h2 l1 l2 e [[-> <-]|[? ?]]%lookup_insert_Some [[-> <-]|[? ?]]%lookup_insert_Some He1 He2; [done | | | by eapply Ha].
    + destruct (Hfrom e He1) as [?|[]]; [by eapply (Ha _ h2) | by eapply on_list_of].
    + destruct (Hfrom e He2) as [?|[]]; [by eapply (Ha h1 _) | by eapply on_list_of].
Qed.

Lemma others_keep s s' L h l x h' l' c :
  apart L -> L !! h = Some l -> same_off s s' (slots_of (HeadSlot h) x) x -> (forall e, e ∈ x -> e ∈ l \/ ~ on_list L e) ->
  h' <> h -> L !! h' = Some l' -> chain s (HeadSlot h') l' c -> chain s' (HeadSlot h') l' c.
Proof.
  intros [_ Ha] Hl Ho Hfrom Hne Hl' Hc.
  assert (forall e, e ∈ l' -> e ∉ x) as Hx.
  { intros e He Hx. destruct (Hfrom e Hx) as [?|[]]; [by apply Hne, (Ha h' h l' l e) | by eapply on_list_of]. }
  eapply chain_frame; [exact Hc | exact Ho | | done].
  intros d [-> | (e & -> & He)]%in_slots [[=] | (f & [= ->] & Hf)]%in_slots; [done|]. by apply (Hx f).
Qed.

(** One list changes, by elements that were on it or on none. *)
Lemma lists_set s s' L h l l' x c :
  lists s L -> L !! h = Some l -> chain s' (HeadSlot h) l' c -> NoDup l' -> same_off s s' (slots_of (HeadSlot h) x) x ->
  (forall e, e ∈ x -> e ∈ l \/ ~ on_list L e) -> (forall e, e ∈ l' -> e ∈ x) -> lists s' (<[h := l']> L).
Proof.
  intros [Ha Hc] Hl Hc' Hn Ho Hx Hsub. split; [apply (apart_set L h l); auto|].
  intros h1 l1 [[-> <-]|[Hne Hl1]]%lookup_insert_Some; [by eauto|].
  destruct (Hc h1 l1 Hl1) as [c1 Hc1]. exists c1. apply (others_keep s s' L h l x); auto.
Qed.

Lemma tailqs_set t t' L h l l' x :
  tailqs t L -> L !! h = Some l -> chain (links t') (HeadSlot h) l' (tqh_last t' h) -> NoDup l' ->
  same_off (links t) (links t') (slots_of (HeadSlot h) x) x -> (forall h', h' <> h -> tqh_last t' h' = tqh_last t h') ->
  (forall e, e ∈ x -> e ∈ l \/ ~ on_list L e) -> (forall e, e ∈ l' -> e ∈ x) -> tailqs t' (<[h := l']> L).
Proof.
  intros [Ha Hc] Hl Hc' Hn Ho Hlast Hx Hsub. split; [apply (apart_set L h l); auto|].
  intros h1 l1 [[-> <-]|[Hne Hl1]]%lookup_insert_Some; [done|].
  rewrite Hlast by done. apply (others_keep (links t) _ L h l x); auto.
Qed.

(** A list head that is not in use, or is empty, is initialised. *)
Lemma apart_init L h : apart L -> default [] (L !! h) = [] -> apart (<[h := []]> L).
Proof.
  intros [Hn Ha] Hl. split.
  - intros h1 l1 [[-> <-]|[? ?]]%lookup_insert_Some; [constructor | eauto].
  - intros h1 h2 l1 l2 e [[-> <-]|[? ?]]%lookup_insert_Some [[-> <-]|[? ?]]%lookup_insert_Some He1 He2; set_solver.
Qed.

Lemma init_keep s h h' l c : h' <> h -> chain s (HeadSlot h') l c -> chain (set_slot s (HeadSlot h) 0) (HeadSlot h') l c.
Proof.
  intros Hne Hc. eapply (chain_frame s _ _ _ _ [HeadSlot h] []); [exact Hc | off; set_solver | | set_solver].
  intros d [-> | (e & -> & He)]%in_slots; set_solver.
Qed.

(** ** Sequences of operations *)

Inductive lop := OInit (h : Z) | OInsert (h e : Z) | ORemove (h e : Z).

Definition lexec (s : lstore) (o : lop) : lstore :=
  match o with OInit h => LIST_INIT s h | OInsert h e => LIST_INSERT_HEAD s h e | ORemove _ e => LIST_REMOVE s e end.

Definition texec (t : tstore) (o : lop) : tstore :=
  match o with OInit h => TAILQ_INIT t h | OInsert h e => TAILQ_INSERT_TAIL t h e | ORemove h e => TAILQ_REMOVE t h e end.

(** The contract on sequences: [add] says at which end an element goes; [None] when the
    caller breaks the rules of the macros. *)
Definition lspec (add : Z -> list Z -> list Z) (L : gmap Z (list Z)) (o : lop) : option (gmap Z (list Z)) :=
  match o with
  | OInit h => match L !! h with None | Some [] => Some (<[h := []]> L) | _ => None end
  | OInsert h e => l ← L !! h; if decide (e <> 0 /\ ~ on_list L e) then Some (<[h := add e l]> L) else None
  | ORemove h e => l ← L !! h; if decide (e ∈ l) then Some (<[h := without e l]> L) else None
  end.

Fixpoint lspecs (add : Z -> list Z -> list Z) (L : gmap Z (list Z)) (os : list lop) : option (gmap Z (list Z)) :=
  match os with [] => Some L | o :: os => L ← lspec add L o; lspecs add L os end.

Definition at_head (e : Z) (l : list Z) : list Z := e :: l.
Definition at_tail (e : Z) (l : list Z) : list Z := l ++ [e].

Lemma without_split e l1 l2 : NoDup (l1 ++ e :: l2) -> without e (l1 ++ e :: l2) = l1 ++ l2.
Proof.
  intros Hn. rewrite without_app, without_notin, without_head; [done | |].
  - apply NoDup_app in Hn as (_ & _ & Hn). by apply NoDup_cons in Hn as [? _].
  - apply NoDup_app in Hn as (_ & Hn & _). intros Hin. apply (Hn e Hin). set_solver.
Qed.

Lemma nodup_without e l : NoDup l -> NoDup (without e l).
Proof. apply NoDup_filter. Qed.

Lemma lists_remove s L h l e : lists s L -> L !! h = Some l -> e ∈ l -> lists (LIST_REMOVE s e) (<[h := without e l]> L).
Proof.
  intros Hls Hl (l1 & l2 & ->)%list_elem_of_split. pose proof Hls as [[Hn _] Hc]. destruct (Hc _ _ Hl) as [c Hch].
  destruct (remove_chain _ _ _ _ _ _ Hch (Hn _ _ Hl) ltac:(done)) as [Hch' Ho].
  rewrite without_split by eauto. eapply lists_set; [done | exact Hl | exact Hch' | | exact Ho | by auto | set_solver].
  rewrite <- (without_split e) by eauto. eauto using nodup_without.
Qed.

Lemma lexec_ok s L o L' : lists s L -> lspec at_head L o = Some L' -> lists (lexec s o) L'.
Proof.
  intros Hls Hsp. pose proof Hls as [Ha Hc]. destruct o as [h | h e | h e]; cbn in Hsp.
  - assert (default [] (L !! h) = [] /\ L' = <[h := []]> L) as [Hd ->] by (destruct (L !! h) as [[]|]; simplify_eq; done).
    split; [by apply apart_init|]. intros h1 l1 [[-> <-]|[Hne Hl1]]%lookup_insert_Some.
    + exists (HeadSlot h1). split; [done|]. cbn. by rewrite decide_True.
    + destruct (Hc _ _ Hl1) as [c1 ?]. exists c1. by apply init_keep.
  - destruct (L !! h) as [l|] eqn:Hl; [|done]. cbn in Hsp. case_decide as Hd; [|done]. destruct Hd as [He Hon]. simplify_eq.
    destruct (Hc _ _ Hl) as [c Hch]. assert (NoDup (e :: l)) as Hn.
    { apply NoDup_cons. split; [intros Hin; by apply Hon; eapply on_list_of | by eapply (proj1 Ha)]. }
    destruct (insert_head_chain _ _ _ _ _ Hch Hn He) as [[c' Hch'] Ho].
    eapply lists_set; [done | exact Hl | exact Hch' | done | exact Ho | | done].
    intros f [->|?]%elem_of_cons; auto.
  - destruct (L !! h) as [l|] eqn:Hl; [|done]. cbn in Hsp. case_decide; [|done]. simplify_eq. by apply lists_remove.
Qed.

Lemma texec_ok t L o L' : tailqs t L -> lspec at_tail L o = Some L' -> tailqs (texec t o) L'.
Proof.
  intros Htq Hsp. pose proof Htq as [Ha Hc]. destruct o as [h | h e | h e]; cbn in Hsp.
  - assert (default [] (L !! h) = [] /\ L' = <[h := []]> L) as [Hd ->] by (destruct (L !! h) as [[]|]; simplify_eq; done).
    split; [by apply apart_init|]. intros h1 l1 [[-> <-]|[Hne Hl1]]%lookup_insert_Some; cbn.
    + rewrite upd_eq. split; [done|]. cbn. by rewrite decide_True.
    + rewrite upd_ne by done. apply init_keep; [done|]. by apply Hc.
  - destruct (L !! h) as [l|] eqn:Hl; [|done]. cbn in Hsp. case_decide as Hd; [|done]. destruct Hd as [He Hon]. simplify_eq.
    assert (NoDup (e :: l)) as Hn.
    { apply NoDup_cons. split; [intros Hin; by apply Hon; eapply on_list_of | by eapply (proj1 Ha)]. }
    destruct (insert_tail_chain _ _ _ _ (Hc _ _ Hl) Hn He) as [Hch Ho].
    eapply tailqs_set; [done | exact Hl | exact Hch | | exact Ho | | | ]; cbn.
    + unfold at_tail. by rewrite <- Permutation_cons_append.
    + intros h' Hne. by rewrite upd_ne.
    + intros f [->|?]%elem_of_cons; auto.
    + unfold at_tail. set_solver.
  - destruct (L !! h) as [l|] eqn:Hl; [|done]. cbn in Hsp. case_decide as Hin; [|done]. simplify_eq.
    pose proof (proj1 Ha _ _ Hl) as Hn. apply list_elem_of_split in Hin as (l1 & l2 & ->).
    destruct (tailq_remove_chain _ _ _ _ _ (Hc _ _ Hl) Hn) as [Hch Ho]. cbn [texec].
    rewrite without_split by done. eapply tailqs_set; [done | exact Hl | exact Hch | | exact Ho | | by auto | set_solver].
    + rewrite <- (without_split e) by done. by apply nodup_without.
    + intros h' Hne. rewrite tailq_remove_last. destruct (_ =? _); [by rewrite upd_ne | done].
Qed.

Lemma lists_run os s L L' : lists s L -> lspecs at_head L os = Some L' -> lists (foldl lexec s os) L'.
Proof.
  revert s L. induction os as [|o os IH]; intros s L Hls; cbn; [by intros [= <-]|].
  destruct (lspec at_head L o) as [L1|] eqn:Ho; [|done]. cbn. intros Hs. eapply IH; [by eapply lexec_ok | done].
Qed.

Lemma tailqs_run os t L L' : tailqs t L -> lspecs at_tail L os = Some L' -> tailqs (foldl texec t os) L'.
Proof.
  revert t L. induction os as [|o os IH]; intros t L Htq; cbn; [by intros [= <-]|].
  destruct (lspec at_tail L o) as [L1|] eqn:Ho; [|done]. cbn. intros Hs. eapply IH; [by eapply texec_ok | done].
Qed.

(** ** Loops *)

Lemma foreach_visits n s c l c' : chain s c l c' -> (length l < n)%nat -> list_foreach n s (slot s c) = Some l.
Proof.
  revert c n. induction l as [|e l IH]; intros c n Hch Hn; (destruct n as [|n]; [lia|]); cbn [list_foreach].
  - by rewrite (chain_first _ _ _ _ Hch).
  - pose proof (chain_nonzero _ _ _ _ e Hch ltac:(set_solver)) as He. rewrite (chain_first _ _ _ _ Hch). cbn [hd].
    rewrite (proj2 (Z.eqb_neq e 0) He). unfold LIST_NEXT, le_next. rewrite (IH (NextSlot e)); [done | | cbn in Hn; lia].
    exact (chain_tail _ _ [] _ _ _ Hch).
Qed.

(** What a body may do with its element: keep it, or take it off and, since nobody else
    can reach it then, do anything with its links (it may be freed and reused). *)
Definition may_remove (sel : Z -> bool) (body : lstore -> Z -> lstore) : Prop :=
  forall s e, if sel e then same_off (LIST_REMOVE s e) (body s e) [NextSlot e] [e] else body s e = s.

Lemma lists_junk s s' L e : lists s L -> ~ on_list L e -> same_off s s' [NextSlot e] [e] -> lists s' L.
Proof.
  intros [Ha Hc] Hon Ho. split; [done|]. intros h l Hl. destruct (Hc h l Hl) as [c Hch]. exists c.
  assert (forall f, f ∈ l -> f <> e) as Hne by (intros f Hf ->; by apply Hon; eapply on_list_of).
  eapply chain_frame; [exact Hch | exact Ho | | set_solver].
  intros d [-> | (f & -> & Hf)]%in_slots; [set_solver|]. intros [= ->]%list_elem_of_singleton. by apply (Hne e).
Qed.

Lemma off_list L h l e : apart L -> L !! h = Some l -> e ∈ l -> ~ on_list (<[h := without e l]> L) e.
Proof.
  intros [_ Ha] Hl He (h' & l' & Hl' & He'). apply lookup_insert_Some in Hl' as [[-> <-]|[Hne Hl']].
  - by apply elem_of_without in He' as [].
  - apply Hne. by eapply Ha.
Qed.

Lemma foreach_safe_removes n sel body s L h l1 l2 :
  may_remove sel body -> lists s (<[h := l1 ++ l2]> L) -> (length l2 < n)%nat ->
  exists s', list_foreach_safe n body s (hd 0 l2) = Some s' /\ lists s' (<[h := l1 ++ filter (fun e => sel e = false) l2]> L).
Proof.
  intros Hb. revert n s l1. induction l2 as [|e l2 IH]; intros n s l1 Hls Hn; (destruct n as [|n]; [lia|]); cbn [list_foreach_safe hd].
  - by exists s.
  - pose proof Hls as [Ha Hc]. destruct (Hc h (l1 ++ e :: l2) ltac:(by rewrite lookup_insert_eq)) as [c Hch].
    rewrite (proj2 (Z.eqb_neq e 0)) by (eapply chain_nonzero; [exact Hch | set_solver]).
    unfold LIST_NEXT, le_next. rewrite (chain_first _ _ _ _ (chain_tail _ _ _ _ _ _ Hch)).
    specialize (Hb s e). destruct (sel e) eqn:Hsel.
    + rewrite filter_cons_False by congruence. apply (IH n); [|cbn in Hn; lia].
      assert (NoDup (l1 ++ e :: l2)) as Hnd by (eapply (proj1 Ha); by rewrite lookup_insert_eq).
      rewrite <- (without_split e l1 l2 Hnd), <- (insert_insert_eq L h _ (l1 ++ e :: l2)).
      eapply lists_junk; [apply lists_remove; [exact Hls | by rewrite lookup_insert_eq | set_solver] | | exact Hb].
      apply off_list; [done | by rewrite lookup_insert_eq | set_solver].
    + rewrite filter_cons_True, Hb by done. specialize (IH n s (l1 ++ [e])). rewrite <- !app_assoc in IH. cbn in IH. apply IH; [done | cbn in Hn; lia].
Qed.

(** ** The macros implement sequences *)

Lemma lists_nothing s : lists s ∅.
Proof. by split; [split|]; intros h; intros; simplify_map_eq. Qed.

(** C33: A program that only inserts elements that are on no list and only removes
    elements from the list they are on sees sequences, whatever the memory held before:
    after any such program LIST_FIRST is the first element, LIST_EMPTY tells an empty
    list, LIST_FOREACH visits every element once, in order, and ends, and a
    LIST_FOREACH_SAFE whose body takes chosen elements off, and may then free and reuse
    them, ends and leaves exactly the others; no operation disturbs another list. *)
Theorem list_macros_refine s0 os L :
  lspecs at_head ∅ os = Some L ->
  let s := foldl lexec s0 os in
  lists s L /\
  forall h l, L !! h = Some l ->
    LIST_FIRST s h = hd 0 l /\
    LIST_EMPTY s h = bool_decide (l = []) /\
    (forall n, (length l < n)%nat -> LIST_FOREACH n s h = Some l) /\
    (forall n sel body, (length l < n)%nat -> may_remove sel body ->
      exists s', LIST_FOREACH_SAFE n s h body = Some s' /\
        lists s' (<[h := filter (fun e => sel e = false) l]> L)).
Proof.
  intros Hsp. pose proof (lists_run os s0 ∅ L (lists_nothing s0) Hsp) as Hls. cbn zeta. split; [done|].
  generalize dependent (foldl lexec s0 os). clear s0. intros s Hls h l Hl. pose proof Hls as [_ Hc].
  destruct (Hc h l Hl) as [c Hch]. pose proof (chain_first _ _ _ _ Hch) as Hf. split_and!.
  - exact Hf.
  - unfold LIST_EMPTY. rewrite Hf. destruct l as [|e l]; [done|]. cbn [hd].
    rewrite bool_decide_eq_false_2 by done. apply Z.eqb_neq. eapply chain_nonzero; [exact Hch | set_solver].
  - intros n Hn. by eapply foreach_visits.
  - intros n sel body Hn Hb. unfold LIST_FOREACH_SAFE, LIST_FIRST. rewrite Hf.
    apply (foreach_safe_removes n sel body s L h []); [done | | done]. cbn. by rewrite insert_id.
Qed.

(** Three elements on two lists, one moved from the first to the second. *)
Lemma list_macros_refine_witness :
  let s := foldl lexec (LStore (fun _ => 99) (fun _ => HeadSlot 77))
             [OInit 1; OInsert 1 10; OInsert 1 20; OInit 2; OInsert 1 30; ORemove 1 20; OInsert 2 20] in
  LIST_FOREACH 3 s 1 = Some [30; 10] /\ LIST_FOREACH 2 s 2 = Some [20].
Proof.
  destruct (list_macros_refine (LStore (fun _ => 99) (fun _ => HeadSlot 77))
    [OInit 1; OInsert 1 10; OInsert 1 20; OInit 2; OInsert 1 30; ORemove 1 20; OInsert 2 20]
    ({[1 := [30; 10]; 2 := [20]]} : gmap Z (list Z)) (@eq_refl (option (gmap Z (list Z))) _)) as [_ Hl].
  split.
  - apply (Hl 1 [30; 10] ltac:(vm_compute; reflexivity)). cbn. lia.
  - apply (Hl 2 [20] ltac:(vm_compute; reflexivity)). cbn. lia.
Defined.

(** ** The run queue *)

(** [runq] as proc.c keeps it: one TAILQ head. *)
Definition RUNQ : Z := 1.

Definition tq_enqueue (t : tstore) (p : Z) : tstore := TAILQ_INSERT_TAIL t RUNQ p.

Definition tq_dequeue (t : tstore) : tstore * Z :=
  let p := TAILQ_FIRST t RUNQ in
  (if negb (p =? 0) then TAILQ_REMOVE t RUNQ p else t, p).

Definition runq_rep (t : tstore) (k : kern) : Prop := tailqs t {[RUNQ := runq k]}.

Lemma on_singleton h l e : on_list {[h := l]} e <-> e ∈ l.
Proof. unfold on_list. by rewrite map_Exists_singleton. Qed.

Lemma enqueue_rep t k p : runq_rep t k -> p <> 0 -> p ∉ runq k -> runq_rep (tq_enqueue t p) (runq_enqueue k p).
Proof.
  intros Hr Hp Hq. apply (texec_ok t {[RUNQ := runq k]} (OInsert RUNQ p) _ Hr). unfold lspec. rewrite lookup_singleton_eq. cbn [mbind option_bind].
  rewrite decide_True by (rewrite on_singleton; auto). by rewrite insert_singleton_eq.
Qed.

Lemma dequeue_rep t k : runq_rep t k ->
  let '(t', p) := tq_dequeue t in
  let '(k', q) := runq_dequeue k in runq_rep t' k' /\ p = default 0 q /\ (p = 0 <-> q = None).
Proof.
  intros Hr. pose proof Hr as [[Hn _] Hc]. specialize (Hc RUNQ (runq k) (lookup_singleton_eq _ _)).
  unfold tq_dequeue, runq_dequeue, TAILQ_FIRST. rewrite (chain_first _ _ _ _ Hc).
  destruct (runq k) as [|p q] eqn:Hq; cbn [hd]; [by rewrite Z.eqb_refl|].
  assert (p <> 0) as Hp by (eapply chain_nonzero; [exact Hc | set_solver]). rewrite (proj2 (Z.eqb_neq p 0) Hp). cbn [negb].
  split; [|done]. unfold runq_rep. cbn [runq set_runq]. specialize (Hn RUNQ _ (lookup_singleton_eq _ _)).
  unfold runq_rep in Hr. rewrite Hq in Hr. apply (texec_ok t _ (ORemove RUNQ p) _ Hr). unfold lspec. rewrite lookup_singleton_eq. cbn [mbind option_bind].
  rewrite decide_True by set_solver. apply NoDup_cons in Hn as [Hn _]. by rewrite insert_singleton_eq, without_head.
Qed.

(** What the CPUs do to the queue, [runq_lock] held: queue a process or take one. *)
Inductive qop := Enqueue (p : Z) | Dequeue.

Fixpoint tq_run (t : tstore) (os : list qop) : list Z :=
  match os with
  | [] => []
  | Enqueue p :: os => tq_run (tq_enqueue t p) os
  | Dequeue :: os => let '(t, p) := tq_dequeue t in p :: tq_run t os
  end.

(** The same operations on the queue of Proc.v; [None] when a process is queued twice. *)
Fixpoint k_run (k : kern) (os : list qop) : option (list Z) :=
  match os with
  | [] => Some []
  | Enqueue p :: os => if decide (p <> 0 /\ p ∉ runq k) then k_run (runq_enqueue k p) os else None
  | Dequeue :: os => let '(k, p) := runq_dequeue k in cons (default 0 p) <$> k_run k os
  end.

(** The run queue of proc.c, a TAILQ in arbitrary memory, hands out the processes the
    queue of Proc.v hands out, in the same order, for every sequence of enqueues and
    dequeues that never queues a process twice (ProcTop.proc_in_one_place: none is). *)
Theorem runq_tailq_fifo t0 k os outs :
  runq k = [] -> k_run k os = Some outs -> tq_run (TAILQ_INIT t0 RUNQ) os = outs.
Proof.
  intros Hk. assert (runq_rep (TAILQ_INIT t0 RUNQ) k) as Hr.
  { unfold runq_rep. rewrite Hk. apply (texec_ok t0 ∅ (OInit RUNQ)); [|done].
    split; [split|]; intros h; intros; simplify_map_eq. }
  clear Hk. generalize dependent (TAILQ_INIT t0 RUNQ). intros t Hr. revert t k outs Hr.
  induction os as [|[p|] os IH]; intros t k outs Hr; cbn [k_run tq_run].
  - by intros [= <-].
  - case_decide as Hd; [|done]. destruct Hd. intros Hs. eapply IH; [by apply enqueue_rep | done].
  - pose proof (dequeue_rep t k Hr) as Hd. destruct (tq_dequeue t) as [t' p], (runq_dequeue k) as [k' q].
    destruct Hd as (Hr' & -> & _). destruct (k_run k' os) as [o|] eqn:Ho; [|done]. cbn. intros [= <-].
    f_equal. by eapply IH.
Qed.

Lemma runq_tailq_fifo_witness :
  tq_run (TAILQ_INIT (TStore (LStore (fun _ => 5) (fun _ => NextSlot 5)) (fun _ => NextSlot 6)) RUNQ)
    [Enqueue 100; Enqueue 200; Dequeue; Enqueue 100; Dequeue; Dequeue; Dequeue] = [100; 200; 100; 0].
Proof.
  apply (runq_tailq_fifo _ (set_runq (boot 64) [])); vm_compute; reflexivity.
Defined.
