(* ===== verification/ProcMem.v ===== *)
(** * Processes: memory

    The other half of kern/proc.c: what a process is made of. [allocproc] and [freeproc]
    with their pid, kernel stack, trap frame and object, [fork] up to the point where the
    child is published, [kthread_add], [userinit], and the memory [exit] gives back. The
    tables, locks and queues they also touch are in Proc.v; here the operations run one
    at a time, on what is private to the new process.

    The process objects come from a slab cache that takes its pages from the same page
    allocator: [ObjAlloc] is that cache as proc.c sees it. *)

From stdpp Require Import functions.
From S2P Require Import Prelude Bits Mmu Pages Pmap Kstack Copy Elf Exec ExecTop Proc.

#[local] Abbreviation ptroot := (ptree 4).

(** ** The cache of process objects: kmem_cache_alloc and kmem_cache_free on proc_cache *)

Class ObjAlloc (A : Type) := {
  oa_alloc : A -> res (A * option Z);
  oa_free : A -> Z -> res A
}.

(** Objects are distinct and not NULL, no whole page of a client comes or goes, and taking
    or giving back whole pages leaves the objects alone. Giving an object back may stop at
    an assertion when there is no room to note it (SlabTop, the last theorem). *)
Class ObjAllocLaws (A : Type) `{PageAllocLaws A} `{ObjAlloc A} := {
  oa_live : A -> Z -> Prop;
  oa_room : A -> Prop;
  oa_pages : forall a a' r, pa_ok a -> pa_alloc a = Ret (a', r) -> forall o, oa_live a' o <-> oa_live a o;
  oa_unpages : forall a a' p, pa_ok a -> is_page p -> pa_used a p -> pa_free a p = Ret a' -> forall o, oa_live a' o <-> oa_live a o;
  oa_alloc_law : forall a, pa_ok a ->
    exists a' r, oa_alloc a = Ret (a', r) /\ pa_ok a' /\ (forall q, is_page q -> pa_used a' q <-> pa_used a q) /\
      match r with
      | Some o => o <> 0 /\ ~ oa_live a o /\ forall x, oa_live a' x <-> x = o \/ oa_live a x
      | None => forall x, oa_live a' x <-> oa_live a x
      end;
  oa_free_law : forall a o, pa_ok a -> oa_live a o ->
    (exists a', oa_free a o = Ret a' /\ pa_ok a' /\ (forall q, is_page q -> pa_used a' q <-> pa_used a q) /\
      forall x, oa_live a' x <-> x <> o /\ oa_live a x) \/
    (~ oa_room a /\ exists s, oa_free a o = Panic s)
}.

(** ** Processes *)

Definition TF_SIZE : Z := 288.

(** struct proc, with the trap frame [tf] points to; [context] by register number, 31 is
    [sp]. *)
Record uproc := UProc {
  u_pid : Z;
  u_kslot : Z;
  u_kstack : Z;
  u_state : procstate;
  u_chan : Z;
  u_killed : Z;
  u_xstate : Z;
  u_parent : Z;
  u_onfault : Z;
  u_isrc : Z;
  u_asid_ctx : Z;
  u_context : Z -> Z;
  u_tf : Z;
  u_frame : trapframe;
  u_pagetable : Z;
  u_sz : Z;
  u_name : list Z
}.

Definition set_space (u : uproc) (pt n : Z) : uproc :=
  UProc (u_pid u) (u_kslot u) (u_kstack u) (u_state u) (u_chan u) (u_killed u) (u_xstate u) (u_parent u) (u_onfault u) (u_isrc u)
    (u_asid_ctx u) (u_context u) (u_tf u) (u_frame u) pt n (u_name u).
Definition set_kstack (u : uproc) (k : Z) : uproc :=
  UProc (u_pid u) (u_kslot u) k (u_state u) (u_chan u) (u_killed u) (u_xstate u) (u_parent u) (u_onfault u) (u_isrc u)
    (u_asid_ctx u) (u_context u) (u_tf u) (u_frame u) (u_pagetable u) (u_sz u) (u_name u).
Definition set_frame (u : uproc) (f : trapframe) (nm : list Z) : uproc :=
  UProc (u_pid u) (u_kslot u) (u_kstack u) (u_state u) (u_chan u) (u_killed u) (u_xstate u) (u_parent u) (u_onfault u) (u_isrc u)
    (u_asid_ctx u) (u_context u) (u_tf u) f (u_pagetable u) (u_sz u) nm.
Definition set_thread (u : uproc) (fn isrc : Z) (nm : list Z) : uproc :=
  UProc (u_pid u) (u_kslot u) (u_kstack u) (u_state u) (u_chan u) (u_killed u) (u_xstate u) (u_parent u) (u_onfault u) isrc
    (u_asid_ctx u) ((u_context u).[19 <- fn]) (u_tf u) (u_frame u) (u_pagetable u) (u_sz u) nm.

(** The part of [proc_activate] that writes to the process. *)
Definition activate (u : uproc) (par : option Z) : uproc :=
  UProc (u_pid u) (u_kslot u) (u_kstack u) RUNNABLE (u_chan u) (u_killed u) (u_xstate u) (default (u_parent u) par) (u_onfault u) (u_isrc u)
    (u_asid_ctx u) (u_context u) (u_tf u) (u_frame u) (u_pagetable u) (u_sz u) (u_name u).

(** Memory and stacks, the pids, and the process objects by their address. *)
Record pst (A : Type) := Pst { p_ks : kst A; p_pids : bitstr; p_objs : Z -> uproc }.
Arguments Pst {A} _ _ _.
Arguments p_ks {A} _.
Arguments p_pids {A} _ _.
Arguments p_objs {A} _ _.

Definition p_vm {A} (st : pst A) : vm A := ks_vm (p_ks st).

Section ops.
Context {A : Type} `{PageAlloc A} `{ObjAlloc A} (forkret : Z).
Implicit Types st : pst A.

Definition with_ks st (k : kst A) : pst A := Pst k (p_pids st) (p_objs st).
Definition with_pvm st (v : vm A) : pst A := with_ks st (with_vm (p_ks st) v).
Definition set_obj st (p : Z) (u : uproc) : pst A := Pst (p_ks st) (p_pids st) ((p_objs st).[p <- u]).

Definition pid_get st : pst A * Z :=
  let pid := bit_ffc (p_pids st) KSTACK_NSLOTS in
  (if pid >=? 0 then Pst (p_ks st) (bit_set (p_pids st) pid) (p_objs st) else st, pid).

Definition pid_put st (pid : Z) : pst A := Pst (p_ks st) (bit_clear (p_pids st) pid) (p_objs st).

Definition slot_put st (slot : Z) : pst A := with_ks st (kstack_slot_free (p_ks st) slot).

(** The fields set on a new process; its frame and the rest of its name stay what the
    stack and the object held. *)
Definition new_proc (u : uproc) (pid slot kstack : Z) : uproc :=
  let tf := u64 (kstack - TF_SIZE) in
  UProc pid slot kstack USED 0 0 0 0 0 0 0 ((fun _ => 0).[30 <- forkret].[31 <- tf]) tf (u_frame u) 0 0 (<[0%nat := 0]> (u_name u)).

Definition allocproc st : res (pst A * option Z) :=
  let '(st, pid) := pid_get st in
  if pid <? 0 then Ret (st, None)
  else
    let '(k, slot) := kstack_slot_alloc (p_ks st) in
    let st := with_ks st k in
    if slot <? 0 then Ret (pid_put st pid, None)
    else
      '(k, kstack) ← kstack_alloc (p_ks st) slot;
      let st := with_ks st k in
      if kstack =? 0 then Ret (pid_put (slot_put st slot) pid, None)
      else
        '(a, p) ← oa_alloc (al (p_vm st));
        let st := with_pvm st (Vm (kw (p_vm st)) a) in
        match p with
        | None =>
            k ← kstack_free (p_ks st) slot;
            Ret (pid_put (slot_put (with_ks st k) slot) pid, None)
        | Some p => Ret (set_obj st p (new_proc (p_objs st p) pid slot kstack), Some p)
        end.

Definition freeproc st (p : Z) : res (pst A) :=
  st ← (if negb (u_pagetable (p_objs st p) =? 0)
        then v ← uvmfree (p_vm st) (u_pagetable (p_objs st p));
             let st := with_pvm st v in
             Ret (set_obj st p (set_space (p_objs st p) 0 (u_sz (p_objs st p))))
        else Ret st);
  st ← (if negb (u_kstack (p_objs st p) =? 0)
        then k ← kstack_free (p_ks st) (u_kslot (p_objs st p));
             let st := slot_put (with_ks st k) (u_kslot (p_objs st p)) in
             Ret (set_obj st p (set_kstack (p_objs st p) 0))
        else Ret st);
  let st := pid_put st (u_pid (p_objs st p)) in
  a ← oa_free (al (p_vm st)) p;
  Ret (with_pvm st (Vm (kw (p_vm st)) a)).

(** The memory a process gives back on [exit]. *)
Definition exit_space st (p : Z) : res (pst A) :=
  if negb (u_pagetable (p_objs st p) =? 0)
  then v ← uvmfree (p_vm st) (u_pagetable (p_objs st p));
       Ret (set_obj (with_pvm st v) p (set_space (p_objs st p) 0 0))
  else Ret st.

(** [*np->tf = *p->tf; np->tf->x[0] = 0] *)
Definition child_frame (f : trapframe) : trapframe :=
  Trapframe ((tf_x f).[0 <- 0]) (tf_sp f) (tf_elr f) (tf_spsr f) (tf_tpidr f).

(** The string in a [char name[16]]: the bytes before the terminator. *)
Fixpoint cstr (l : list Z) : list Z :=
  match l with [] => [] | c :: l' => if c =? 0 then [] else c :: cstr l' end.

Definition fork st (p : Z) : res (pst A * Z) :=
  '(st, np) ← allocproc st;
  match np with
  | None => Ret (st, -1)
  | Some np =>
      '(v, pt) ← uvmcreate (p_vm st);
      let st := with_pvm st v in
      match pt with
      | None => st ← freeproc (set_obj st np (set_space (p_objs st np) 0 (u_sz (p_objs st np)))) np; Ret (st, -1)
      | Some pt =>
          let st := set_obj st np (set_space (p_objs st np) pt (u_sz (p_objs st np))) in
          '(v, r) ← uvmcopy (p_vm st) (u_pagetable (p_objs st p)) pt (u_sz (p_objs st p));
          let st := with_pvm st v in
          if r <? 0 then st ← freeproc st np; Ret (st, -1)
          else
            let u := p_objs st p in
            let st := set_obj st np (set_space (p_objs st np) (u_pagetable (p_objs st np)) (u_sz u)) in
            let st := set_obj st np (set_frame (p_objs st np) (child_frame (u_frame u)) (set_name (cstr (u_name u)))) in
            let st := set_obj st np (activate (p_objs st np) (Some p)) in
            Ret (st, u_pid (p_objs st np))
      end
  end.

Definition kthread_add st (fn isrc : Z) (nm : list Z) : res (pst A * Z) :=
  '(st, p) ← allocproc st;
  match p with
  | None => Ret (st, -1)
  | Some p =>
      let st := set_obj st p (set_thread (p_objs st p) fn isrc (set_name nm)) in
      let st := set_obj st p (activate (p_objs st p) None) in
      Ret (st, u_pid (p_objs st p))
  end.

(** The first process, from the image linked with the kernel; returns [initproc]. *)
Definition userinit st (img : Z -> Z) (size : Z) : res (pst A * Z) :=
  '(st, p) ← allocproc st;
  match p with
  | None => Panic "userinit: allocproc failed"
  | Some p =>
      '(v, pt) ← uvmcreate (p_vm st);
      match pt with
      | None => Panic "userinit: uvmcreate failed"
      | Some pt =>
          '(v, r) ← loadelf v pt img size;
          match r with
          | None => Panic "userinit: loadelf failed"
          | Some (entry, sz) =>
              '(v, stack) ← kpage_alloc_vm v;
              match stack with
              | None => Panic "userinit: kalloc failed"
              | Some stack =>
                  let v := Vm (zero_page (kw v) stack) (al v) in
                  '(v, r) ← mappages v pt (u64 (USER_BASE + sz)) (KVA_TO_PA stack) PGSIZE PAGE_USER;
                  if r <? 0 then Panic "userinit: stack mappages failed"
                  else
                    let sp := Z.land (u64 (sz + PGSIZE - 5 * 8)) (not64 15) in
                    let w := stack + (sp - sz) in
                    let m := (kw v).[w <- 0].[w + 8 <- 0].[w + 16 <- 0].[w + 24 <- 0].[w + 32 <- 0] in
                    let st := with_pvm st (Vm m (al v)) in
                    let st := set_obj st p (set_space (p_objs st p) pt (u64 (sz + PGSIZE))) in
                    let st := set_obj st p (set_frame (p_objs st p) (Trapframe (fun _ => 0) sp entry 0 0) (set_name (chars "init"))) in
                    Ret (set_obj st p (activate (p_objs st p) None), p)
              end
          end
      end
  end.
End ops.

(** ** Specification *)

Section proofs.
Context {A : Type} {PA : PageAlloc A} {PL : PageAllocLaws A} {OA : ObjAlloc A} {OL : ObjAllocLaws A} (forkret : Z).
Implicit Types (st : pst A) (W : wkey -> option Z) (L : Z -> Prop).

(** The page allocator while the process objects are exactly [L]. *)
#[refine] Definition at_live L : PageAllocLaws A :=
  {| pa_ok := fun a => pa_ok a /\ forall o, oa_live a o <-> L o; pa_used := pa_used |}.
Proof.
  - intros a [Hok Hl]. destruct (pa_alloc_law a Hok) as (a' & r & E & Hok' & Hr). exists a', r. split; [done |].
    split; [split; [done |] | done]. intros o. by rewrite (oa_pages a a' r Hok E), Hl.
  - intros a p [Hok Hl] Hp Hu. destruct (pa_free_law a p Hok Hp Hu) as (a' & E & Hok' & Hr). exists a'. split; [done |].
    split; [split; [done |] | done]. intros o. by rewrite (oa_unpages a a' p Hok Hp Hu E), Hl.
Defined.

(** No page comes or goes and none in use changes. *)
Definition same_pages (v v' : vm A) : Prop :=
  (forall q, is_page q -> pa_used (al v') q <-> pa_used (al v) q) /\
  (forall q, is_page q -> pa_used (al v) q -> same_on (kw v) (kw v') q).

Record pinv L st W : Prop := {
  pv_k : @kinv A PA (at_live L) (p_ks st) W;
  pv_pids : bitstr_wf (p_pids st)
}.

(** The pages of everyone but the window's tables keep their owner and their contents. *)
Definition kept st W st' : Prop :=
  forall q, is_page q -> pa_used (al (p_vm st)) q -> (forall i, W (L3t i) <> Some q) ->
    pa_used (al (p_vm st')) q /\ same_on (kw (p_vm st)) (kw (p_vm st')) q.

(** ** Lemmas: the window beside other memory *)

Lemma kinv_vm L L' (k : kst A) W v' : @kinv A PA (at_live L) k W -> @pa_ok A PA (at_live L') (al v') ->
  (forall q, owned W q -> pa_used (al v') q /\ same_on (kw (ks_vm k)) (kw v') q) -> @kinv A PA (at_live L') (with_vm k v') W.
Proof.
  intros [[K1 K2 K3 K4 K5 K6] I2 I3 I4] Hok Hq. split; try done. split; try done; cbn [with_vm ks_vm l2_kstack].
  - intros n b Hn Hb. rewrite <- (K3 n b Hn Hb). destruct (Hq b ltac:(by exists (L3t (n / 512)))) as [_ Hs].
    apply Hs, in_page_slot. apply Z.mod_pos_bound. lia.
  - intros x p Hx. destruct (K5 x p Hx). split; [done |]. apply Hq. by exists x.
Qed.

Lemma kinv_same L L' (k : kst A) W v' : @kinv A PA (at_live L) k W -> @pa_ok A PA (at_live L') (al v') -> same_pages (ks_vm k) v' ->
  @kinv A PA (at_live L') (with_vm k v') W.
Proof.
  intros I Hok [Hu Hs]. apply (kinv_vm L L'); [done | done |]. intros q [x Hx]. destruct (k_use _ _ (i_win _ _ I) x q Hx) as [Hp Hpu].
  split; [by apply Hu | by apply Hs].
Qed.

(** The window without its slot map, which does not matter to pages. *)
Definition win (k : kst A) : kst A := with_slotmap k (fun _ => 0).

Lemma kchange_win idx L (k k' : kst A) W W' : @kchange A PA (at_live L) idx k W k' W' -> @kchange A PA PL idx (win k) W (win k') W'.
Proof. intros [C1 C2 C3 C4 C5 C6]. by split. Qed.

Lemma kwin_win L (k : kst A) W : @kinv A PA (at_live L) k W -> @kwin A PA PL (win k) W.
Proof. intros [[[K1 _] K2 K3 K4 K5 K6] _ _ _]. by split. Qed.

Lemma kchange_same idx L (k : kst A) W v' : @kinv A PA (at_live L) k W -> same_pages (ks_vm k) v' -> @kchange A PA PL idx (win k) W (win (with_vm k v')) W.
Proof.
  intros I [Hu Hs]. destruct (kchange_refl idx k W (i_win _ _ I)) as [C1 C2 C3 C4 C5 C6]. split; try done; cbn [with_vm ks_vm].
  - intros q Hq. rewrite Hu by done. by apply C2.
  - intros q Hq Hqu _ _. by apply Hs.
Qed.

(** Between two states whose windows have no stack in the slot. *)
Lemma kchange_kept idx (k k' : kst A) W W' : @kwin A PA PL k W -> kchange idx k W k' W' ->
  (forall m, stack_page idx m -> W (Pg m) = None) ->
  forall q, is_page q -> pa_used (al (ks_vm k)) q -> (forall i, W (L3t i) <> Some q) ->
    pa_used (al (ks_vm k')) q /\ same_on (kw (ks_vm k)) (kw (ks_vm k')) q.
Proof.
  intros K C Hv q Hq Hu Ht.
  assert (Hpg : forall n, stack_page idx n -> W (Pg n) <> Some q) by (intros n Hn; by rewrite (Hv n Hn)).
  split; [| by apply (c_frame _ _ _ _ _ C)]. apply (c_used _ _ _ _ _ C); [done |].
  destruct (owned_dec k W q K) as [[[i | n] E] | Hno]; [by destruct (Ht i) | | by left].
  right. exists (Pg n). rewrite (c_pgs _ _ _ _ _ C); [done |]. intros Hs. exact (Hpg n Hs E).
Qed.

Lemma kchange_new idx (k k' : kst A) W W' q : @kwin A PA PL k W -> kchange idx k W k' W' -> is_page q -> pa_used (al (ks_vm k')) q ->
  pa_used (al (ks_vm k)) q \/ (exists i, W' (L3t i) = Some q) \/ exists m, stack_page idx m /\ W' (Pg m) = Some q.
Proof.
  intros K C Hq Hu. apply (c_used _ _ _ _ _ C) in Hu as [[? _] | [x Hx]]; [by left | | done].
  destruct x as [i | n]; [right; left; by exists i |]. destruct (decide (8 * idx + 4 <= n < 8 * idx + 8)) as [Hs | Hs]; [right; right; by exists n |].
  left. rewrite (c_pgs _ _ _ _ _ C n Hs) in Hx. by destruct (k_use _ _ K _ _ Hx).
Qed.

(** A new process: a pid and a slot that were free, a stack of fresh pages, an object. *)
Record built L st W st' W' (p pid slot : Z) : Prop := {
  bt_fresh : p <> 0 /\ ~ L p;
  bt_inv : pinv (fun o => o = p \/ L o) st' W';
  bt_pid : 0 <= pid < KSTACK_NSLOTS /\ bit_test (p_pids st) pid = false /\ p_pids st' = bit_set (p_pids st) pid;
  bt_low : forall i, 0 <= i < pid -> bit_test (p_pids st) i = true;
  bt_slot : slot_ok slot /\ bit_test (kstack_slotmap (p_ks st)) slot = false /\ kstack_slotmap (p_ks st') = bit_set (kstack_slotmap (p_ks st)) slot;
  bt_stack : forall m, stack_page slot m -> W (Pg m) = None /\ W' (Pg m) <> None;
  bt_change : @kchange A PA PL slot (win (p_ks st)) W (win (p_ks st')) W';
  bt_obj : p_objs st' = (p_objs st).[p <- new_proc forkret (p_objs st p) pid slot (win_va (8 * slot + 8))]
}.

(** Nothing but tables of the window, which stay with it. *)
Record undone L st W st' W' : Prop := {
  un_inv : pinv L st' W';
  un_pids : p_pids st' = p_pids st;
  un_slots : kstack_slotmap (p_ks st') = kstack_slotmap (p_ks st);
  un_kept : kept st W st';
  un_new : forall q, is_page q -> pa_used (al (p_vm st')) q -> pa_used (al (p_vm st)) q \/ exists i, W' (L3t i) = Some q;
  un_stacks : forall n, W' (Pg n) = W (Pg n);
  un_objs : forall x, L x -> p_objs st' x = p_objs st x
}.

Lemma undone_of idx L L' st W st' W' : pinv L st W -> pinv L' st' W' -> p_pids st' = p_pids st ->
  kstack_slotmap (p_ks st') = kstack_slotmap (p_ks st) -> @kchange A PA PL idx (win (p_ks st)) W (win (p_ks st')) W' ->
  (forall m, stack_page idx m -> W (Pg m) = None) -> (forall m, stack_page idx m -> W' (Pg m) = None) ->
  (forall x, L' x -> p_objs st' x = p_objs st x) -> undone L' st W st' W'.
Proof.
  intros [I Hm] I' Hp Hs C Hv Hv' Ho. pose proof (kwin_win L _ _ I) as K. split; try done.
  - intros q Hq Hu Ht. exact (kchange_kept idx _ _ _ _ K C Hv q Hq Hu Ht).
  - intros q Hq Hu. destruct (kchange_new idx _ _ _ _ q K C Hq Hu) as [? | [? | (m & Hs' & E)]]; [by left | by right |].
    by rewrite (Hv' m Hs') in E.
  - intros n. destruct (decide (8 * idx + 4 <= n < 8 * idx + 8)) as [Hn | Hn]; [by rewrite Hv, Hv' | by apply (c_pgs _ _ _ _ _ C)].
Qed.

Lemma slot_alloc_spec L (k : kst A) W : @kinv A PA (at_live L) k W ->
  (kstack_slot_alloc k = (k, -1)) \/
  exists slot, slot_ok slot /\ kstack_slot_alloc k = (with_slotmap k (bit_set (kstack_slotmap k) slot), slot) /\
    bit_test (kstack_slotmap k) slot = false /\ (forall m, stack_page slot m -> W (Pg m) = None) /\
    @kinv A PA (at_live L) (with_slotmap k (bit_set (kstack_slotmap k) slot)) W.
Proof.
  intros I. unfold kstack_slot_alloc. destruct (bit_ffc_cases (kstack_slotmap k) KSTACK_NSLOTS (i_map _ _ I) ltac:(done)) as [[-> _] | (Hr & Hb & _)].
  - by left.
  - right. set (slot := bit_ffc _ _) in *. exists slot. split; [done |]. rewrite (proj2 (Z.leb_le 0 slot)) by lia. split; [done |]. split; [done |]. split.
    + intros m Hm. destruct (W (Pg m)) as [q |] eqn:E; [| done]. destruct (i_slot _ _ I m q E) as [_ Hx]. unfold stack_page in Hm.
      replace (m / 8) with slot in Hx by (Z.div_mod_to_equations; lia). congruence.
    + apply kinv_slots; [done | apply bit_set_wf; [lia | apply I] |]. intros n q E. pose proof (k_dom _ _ (i_win _ _ I) _ _ E) as [Hn _].
      rewrite bit_test_set by (lia || Z.div_mod_to_equations; lia). destruct (i_slot _ _ I n q E) as [_ ->]. apply orb_true_r.
Qed.

Lemma slot_back L (k : kst A) W slot : @kinv A PA (at_live L) k W -> slot_ok slot -> (forall m, stack_page slot m -> W (Pg m) = None) ->
  @kinv A PA (at_live L) (kstack_slot_free k slot) W.
Proof.
  intros I Hs Hv. apply kinv_slots; [done | apply bit_clear_wf, I |]. intros n q E. pose proof (k_dom _ _ (i_win _ _ I) _ _ E) as [Hn _].
  destruct (i_slot _ _ I n q E) as [H4 Hb]. unfold slot_ok in Hs. rewrite bit_test_clear, Hb by (lia || Z.div_mod_to_equations; lia).
  destruct (Z.eqb_spec (n / 8) slot) as [En | ?]; [| done]. rewrite (Hv n) in E; [done |]. unfold stack_page. Z.div_mod_to_equations. lia.
Qed.

Lemma win_va_pos slot : slot_ok slot -> 0 < win_va (8 * slot + 8) < 2 ^ 64.
Proof. unfold slot_ok, win_va, KSTACK_WINDOW, KERN_BASE. change KSTACK_NSLOTS with 32768. change (Z.shiftl 511 30) with (511 * 2 ^ 30). lia. Qed.

Lemma undone_refl L st W : pinv L st W -> undone L st W st W.
Proof. intros I. split; try done. by intros; left. Qed.

(** The object and the stack, once the pid and the slot are there. *)
Lemma obj_spec L st W : pinv L st W ->
  exists a r, oa_alloc (al (p_vm st)) = Ret (a, r) /\ same_pages (p_vm st) (Vm (kw (p_vm st)) a) /\
  match r with
  | Some p => p <> 0 /\ ~ L p /\ pinv (fun o => o = p \/ L o) (with_pvm st (Vm (kw (p_vm st)) a)) W
  | None => pinv L (with_pvm st (Vm (kw (p_vm st)) a)) W
  end.
Proof.
  intros [I Hm]. destruct (k_ok _ _ (i_win _ _ I)) as [Hok Hl].
  destruct (oa_alloc_law (al (p_vm st)) Hok) as (a & r & E & Hok' & Hu & Hr). exists a, r. split; [done |].
  assert (Hsame : same_pages (p_vm st) (Vm (kw (p_vm st)) a)) by (split; [done | by intros]). split; [done |].
  destruct r as [p |].
  - destruct Hr as (Hp & Hnl & Hl'). split; [done |]. split; [by rewrite <- Hl |]. split; [| done].
    apply (kinv_same L); [done | | done]. split; [done |]. intros o. by rewrite Hl', Hl.
  - split; [| done]. apply (kinv_same L); [done | | done]. split; [done |]. intros o. by rewrite Hr, Hl.
Qed.

Lemma allocproc_spec L st W : pinv L st W ->
  exists st' W' r, allocproc forkret st = Ret (st', r) /\
  match r with
  | Some p => exists pid slot, built L st W st' W' p pid slot
  | None => undone L st W st' W'
  end.
Proof.
  intros Hi. pose proof Hi as [I Hm]. unfold allocproc, pid_get.
  destruct (bit_ffc_cases (p_pids st) KSTACK_NSLOTS Hm ltac:(done)) as [[-> _] | (Hr & Hb & Hlow)].
  { cbn. exists st, W, None. split; [done |]. by apply undone_refl. }
  set (pid := bit_ffc _ _) in *. destruct (Z.geb_spec pid 0); [| lia]. destruct (Z.ltb_spec pid 0); [lia |]. cbn [p_ks].
  assert (Hback : bit_clear (bit_set (p_pids st) pid) pid = p_pids st) by (apply bit_clear_set; [lia | done | done]).
  destruct (slot_alloc_spec L (p_ks st) W I) as [-> | (slot & Hs & -> & Hsb & Hv & I1)].
  { cbn. eexists _, W, None. split; [reflexivity |]. unfold pid_put. cbn. rewrite Hback. destruct st. by apply undone_refl. }
  destruct (Z.ltb_spec slot 0); [unfold slot_ok in Hs; lia |]. cbn [p_ks with_ks].
  assert (Hsback : bit_clear (bit_set (kstack_slotmap (p_ks st)) slot) slot = kstack_slotmap (p_ks st)).
  { apply bit_clear_set; [unfold slot_ok in Hs; lia | apply I | done]. }
  destruct (kstack_alloc_spec slot _ W Hs (i_win _ _ I1) Hv) as (k2 & W2 & ok & E & K2 & C2 & Hfin). rewrite E. cbn [mbind res_bind].
  assert (I2 : @kinv A PA (at_live L) k2 W2).
  { apply (kinv_change slot _ W k2 W2 I1); [split; [done |] | done | done | destruct ok; auto].
    cbn [with_slotmap kstack_slotmap]. rewrite bit_test_set by (unfold slot_ok in Hs; lia). by rewrite Z.eqb_refl. }
  pose proof (c_slots _ _ _ _ _ C2) as Hsl. cbn [with_slotmap kstack_slotmap] in Hsl.
  apply kchange_win in C2. change (win (with_slotmap (p_ks st) _)) with (win (p_ks st)) in C2. destruct ok.
  2: { cbn. eexists _, W2, None. split; [reflexivity |].
    apply (undone_of slot L L); try done; cbn [pid_put slot_put with_ks p_ks p_pids kstack_slot_free with_slotmap kstack_slotmap].
    - split; [by apply slot_back | cbn; by rewrite Hback].
    - by rewrite Hsl. }
  pose proof (win_va_pos slot Hs). destruct (Z.eqb_spec (win_va (8 * slot + 8)) 0); [lia |].
  set (st2 := with_ks _ k2). assert (Hi2 : pinv L st2 W2) by (split; [done | apply bit_set_wf; [lia | done]]).
  destruct (obj_spec L st2 W2 Hi2) as (a & r & Ea & Hsame & Hr'). rewrite Ea. cbn [mbind res_bind].
  pose proof (kchange_trans slot _ _ _ _ _ _ (kwin_win L _ _ I) (kwin_win L _ _ I2) C2 (kchange_same slot L k2 W2 _ I2 Hsame)) as C3.
  destruct r as [p |].
  - destruct Hr' as (Hp & Hnl & Hi3). eexists _, W2, (Some p). split; [reflexivity |]. exists pid, slot. split; try done.
    + split; [exact (pv_k _ _ _ Hi3) | apply Hi3].
    + intros m Hs'. split; [by apply Hv | by apply Hfin].
  - destruct Hr' as [I3 Hm3]. destruct (kstack_free_spec slot _ W2 Hs (i_win _ _ I3)) as (k4 & W4 & E4 & K4 & C4 & Hfin4). rewrite E4. cbn [mbind res_bind].
    eexists _, W4, None. split; [reflexivity |].
    assert (I4 : @kinv A PA (at_live L) k4 W4).
    { apply (kinv_change slot _ W2 k4 W4 I3); [split; [done |] | done | done | by right]. cbn. rewrite Hsl, bit_test_set by (unfold slot_ok in Hs; lia). by rewrite Z.eqb_refl. }
    pose proof (c_slots _ _ _ _ _ C4) as Hsl4. cbn in Hsl4.
    apply (undone_of slot L L); try done; cbn [pid_put slot_put with_ks p_ks p_pids kstack_slot_free with_slotmap kstack_slotmap].
    + split; [by apply slot_back | cbn; by rewrite Hback].
    + by rewrite Hsl4, Hsl.
    + apply kchange_win in C4. exact (kchange_trans slot _ _ _ _ _ _ (kwin_win L _ _ I) (kwin_win L _ _ I3) C3 C4).
Qed.

(** ** Lemmas: giving a process back *)

(** The address space of a process, if it has one, is its own. *)
Definition space st W (o : option ptroot) (pt : Z) : Prop :=
  match o with
  | None => pt = 0
  | Some t => pt = t.1 /\ own (p_vm st) 4 t /\ forall q, q ∈ pgs 4 t -> ~ owned W q
  end.

Definition space_pages (o : option ptroot) : list Z := match o with Some t => pgs 4 t | None => [] end.

(** Without the pages [l], and otherwise the same. *)
Definition drops (v v' : vm A) (l : list Z) : Prop :=
  (forall q, is_page q -> pa_used (al v') q <-> pa_used (al v) q /\ q ∉ l) /\
  (forall q, is_page q -> q ∉ l -> same_on (kw v) (kw v') q).

Lemma drops_nil v : drops v v [].
Proof. split; [| by intros]. intros q _. split; [| by intros []]. intros Hu. split; [done | apply not_elem_of_nil]. Qed.

Lemma space_root st W t pt : space st W (Some t) pt -> pt <> 0.
Proof.
  intros (-> & (_ & _ & Hu) & _). destruct (Hu t.1) as [[Hp _] _]; [cbn [pgs]; left |]. unfold KERN_BASE in Hp. lia.
Qed.

Lemma space_free L st W t pt : pinv L st W -> space st W (Some t) pt ->
  exists v, uvmfree (p_vm st) pt = Ret v /\ drops (p_vm st) v (pgs 4 t) /\ pinv L (with_pvm st v) W.
Proof.
  intros [I Hm] (-> & Ho & Hd). destruct (@freewalk_spec A PA (at_live L) 3 (p_vm st) t (k_ok _ _ (i_win _ _ I)) Ho) as (v & E & Hok & Hu & Hs).
  exists v. split; [done |]. split.
  - split; [done |]. intros q Hq Hn. apply Hs; [done |]. intros Hx. by apply Hn, tabs_pgs.
  - split; [| done]. apply (kinv_vm L); [done | done |]. intros q Hq. assert (q ∉ pgs 4 t) as Hn by (intros Hx; by apply (Hd q)).
    destruct Hq as [x Hx]. destruct (k_use _ _ (i_win _ _ I) x q Hx) as [Hp Hpu]. split; [by apply Hu | apply Hs; [done |]].
    intros Hy. by apply Hn, tabs_pgs.
Qed.

(** What a process holds: its pid, its slot and its stack. *)
Record holds_ids st (u : uproc) : Prop := {
  hi_pid : 0 <= u_pid u;
  hi_slot : slot_ok (u_kslot u);
  hi_taken : bit_test (kstack_slotmap (p_ks st)) (u_kslot u) = true;
  hi_stack : u_kstack u <> 0
}.

(** Everything a process holds is given back. *)
Record returned L st W st' W' (p : Z) (o : option ptroot) : Prop := {
  rt_inv : pinv (fun x => x <> p /\ L x) st' W';
  rt_pids : p_pids st' = bit_clear (p_pids st) (u_pid (p_objs st p));
  rt_slots : kstack_slotmap (p_ks st') = bit_clear (kstack_slotmap (p_ks st)) (u_kslot (p_objs st p));
  rt_stack : forall m, stack_page (u_kslot (p_objs st p)) m -> W' (Pg m) = None;
  rt_pages : exists v, @pa_ok A PA (at_live L) (al v) /\ drops (p_vm st) v (space_pages o) /\
    @kchange A PA PL (u_kslot (p_objs st p)) (win (with_vm (p_ks st) v)) W (win (p_ks st')) W';
  rt_objs : forall x, x <> p -> p_objs st' x = p_objs st x
}.

(** The stop in the object cache, see [ObjAllocLaws]. *)
Definition no_room {B} (p : Z) (r : res B) : Prop :=
  exists a s, pa_ok a /\ oa_live a p /\ ~ oa_room a /\ oa_free a p = Panic s /\ r = Panic s.

(** Stack, slot, pid and object. *)
Lemma give_back L st W p : pinv L st W -> L p -> holds_ids st (p_objs st p) -> u_pagetable (p_objs st p) = 0 ->
  (exists st' W', freeproc st p = Ret st' /\ returned L st W st' W' p None /\
    @kchange A PA PL (u_kslot (p_objs st p)) (win (p_ks st)) W (win (p_ks st')) W') \/ no_room p (freeproc st p).
Proof.
  intros [I Hm] Hp [H1 H2 H3 H4] Hpt. unfold freeproc. rewrite Hpt. cbn [Z.eqb negb mbind res_bind].
  rewrite (proj2 (Z.eqb_neq _ 0) H4). cbn [negb].
  destruct (@kstack_free_spec A PA (at_live L) (u_kslot (p_objs st p)) _ W H2 (i_win _ _ I)) as (k & W' & E & K & C & Hfin). rewrite E. cbn [mbind res_bind].
  assert (I' : @kinv A PA (at_live L) k W') by (apply (kinv_change (u_kslot (p_objs st p)) (p_ks st) W k W' I); [done | done | done | by right]).
  pose proof (c_slots _ _ _ _ _ C) as Hsl. apply kchange_win in C.
  pose proof (slot_back L k W' _ I' H2 Hfin) as Ib. destruct (k_ok _ _ (i_win _ _ Ib)) as [Hok Hl]. cbn [kstack_slot_free with_slotmap ks_vm] in Hok, Hl.
  cbn [set_obj slot_put with_ks p_objs p_vm p_ks pid_put kstack_slot_free with_slotmap ks_vm p_pids]. rewrite upd_eq. cbn [set_kstack u_pid].
  destruct (oa_free_law (al (ks_vm k)) p Hok ltac:(by apply Hl)) as [(a & Ea & Hoka & Hu & Hla) | (Hnr & s & Es)].
  - left. rewrite Ea. cbn [mbind res_bind]. eexists _, W'. split; [reflexivity |].
    assert (C' : @kchange A PA PL (u_kslot (p_objs st p)) (win (p_ks st)) W (win (with_vm (kstack_slot_free k (u_kslot (p_objs st p))) (Vm (kw (ks_vm k)) a))) W').
    { destruct C as [C1 C2 C3 C4 C5 C6]. split; try done. intros q Hq. cbn. rewrite Hu by done. by apply C2. }
    split; [| exact C']. split; cbn.
    + split; [| by apply bit_clear_wf]. apply (kinv_same L _ (kstack_slot_free k (u_kslot (p_objs st p)))); [done | | by split].
      split; [done |]. intros x. cbn. by rewrite Hla, Hl.
    + done.
    + by rewrite Hsl.
    + done.
    + exists (p_vm st). split; [exact (k_ok _ _ (i_win _ _ I)) |]. split; [apply drops_nil | exact C'].
    + intros x Hx. by rewrite upd_ne.
  - right. exists (al (ks_vm k)), s. split; [done |]. split; [by apply Hl |]. split; [done |]. split; [done |]. rewrite Es. done.
Qed.

Lemma freeproc_spec L st W p o : pinv L st W -> L p -> holds_ids st (p_objs st p) -> space st W o (u_pagetable (p_objs st p)) ->
  (exists st' W', freeproc st p = Ret st' /\ returned L st W st' W' p o) \/ no_room p (freeproc st p).
Proof.
  intros Hi Hp Hh Hs. destruct o as [t |].
  2: { destruct (give_back L st W p Hi Hp Hh Hs) as [(st' & W' & E & R & _) | ?]; [left; by exists st', W' | by right]. }
  destruct (space_free L st W t _ Hi Hs) as (v & E & Hd & [I' Hm']).
  set (st1 := set_obj (with_pvm st v) p (set_space (p_objs st p) 0 (u_sz (p_objs st p)))).
  assert (Eo : p_objs st1 p = set_space (p_objs st p) 0 (u_sz (p_objs st p))) by (cbn; by rewrite upd_eq).
  assert (Hh1 : holds_ids st1 (p_objs st1 p)) by (rewrite Eo; by destruct Hh).
  assert (Hpt : u_pagetable (p_objs st1 p) = 0) by (by rewrite Eo).
  assert (E1 : freeproc st p = freeproc st1 p).
  { unfold freeproc. rewrite Hpt, (proj2 (Z.eqb_neq _ 0) (space_root _ _ _ _ Hs)). cbn [Z.eqb negb]. rewrite E. reflexivity. }
  rewrite E1. destruct (give_back L st1 W p ltac:(by split) Hp Hh1 Hpt) as [(st' & W' & E' & [R1 R2 R3 R4 _ R6] & C) | ?]; [left | by right].
  exists st', W'. split; [done |]. rewrite Eo in *. cbn [set_space u_pid u_kslot] in *. split; try done.
  - exists v. split; [exact (k_ok _ _ (i_win _ _ I')) |]. by split.
  - intros x Hx. rewrite R6 by done. cbn. by rewrite upd_ne.
Qed.

(** ** Lemmas: fork *)

Lemma flags_bit p v i : is_page p -> 0 <= i < 12 -> Z.testbit (Z.lor (KVA_TO_PA p) (pte_flags v)) i = Z.testbit v i.
Proof.
  intros Hp Hi. destruct (is_page_kva p Hp) as (H1 & H2 & _). rewrite Z.lor_spec. unfold pte_flags, PTE_ADDR.
  rewrite Z.lxor_spec, Z.land_spec. change 0x0000FFFFFFFFF000 with (Z.shiftl (Z.ones 36) 12). rewrite Z.shiftl_spec_low by lia.
  rewrite andb_false_r, xorb_false_r. replace (KVA_TO_PA p) with (KVA_TO_PA p / 2 ^ 12 * 2 ^ 12) by (change (2 ^ 12) with 4096; Z.div_mod_to_equations; lia).
  by rewrite Z.mul_pow2_bits_low by lia.
Qed.

(** A process reads the same in a copy of its space. *)
Lemma copy_view (v0 v : vm A) (ts td t : ptroot) s : copy_upto v0 ts td (kw v) t s -> own v 4 t -> own v0 4 ts ->
  (forall x, s <= x < 2 ^ 36 -> maps ts x = None) -> (forall x, in_space x -> maps td x = None) ->
  forall va, 0 <= va < 2 ^ 48 -> ubyte (kw v) t va = ubyte (kw v0) ts va.
Proof.
  intros Hc Ho Hos Hs Htd va Hva. assert (Hx : in_space (va / 4096)) by (unfold in_space; split; [apply Z.div_pos; lia | apply Z.div_lt_upper_bound; lia]).
  specialize (Hc (va / 4096) Hx). unfold ubyte, uaddr. unfold in_space in Hx.
  assert (Hm : (if va / 4096 <? s then maps ts (va / 4096) else None) = maps ts (va / 4096)).
  { destruct (Z.ltb_spec (va / 4096) s); [done |]. by rewrite Hs by lia. }
  rewrite Hm in Hc. destruct (maps ts (va / 4096)) as [d |] eqn:Ed; [| by rewrite Hc, Htd].
  destruct Hc as (p & Emt & Hl & _ & Hcp). pose proof (leaf_not_table v 4 t (va / 4096) _ Ho Emt) as [Hin _]. rewrite Hl in Hin.
  pose proof (leaf_not_table v0 4 ts (va / 4096) _ Hos Ed) as [Hin0 _].
  destruct (proj2 (proj2 Ho) p Hin) as [[Hp1 Hp2] _], (proj2 (proj2 Hos) _ Hin0) as [[Hq1 Hq2] _].
  assert (is_page p) as Hpp by done. rewrite Emt, Hl. unfold el0_ok. rewrite !flags_bit by (done || lia).
  destruct (_ && _); [| done]. cbn [fmap option_fmap option_map]. f_equal. unfold ldb. set (off := va mod 4096).
  assert (0 <= off < 4096) by (apply Z.mod_pos_bound; lia).
  assert (Em : (p + off) mod 8 = off mod 8 /\ (leafpage d + off) mod 8 = off mod 8) by (split; Z.div_mod_to_equations; lia).
  destruct Em as [-> ->]. rewrite (Hcp (p + off - off mod 8)); [do 3 f_equal; lia |].
  unfold in_page, PGSIZE. apply andb_true_iff. rewrite Z.leb_le, Z.ltb_lt. Z.div_mod_to_equations. lia.
Qed.

Lemma kept_space st W st' t pt : space st W (Some t) pt -> kept st W st' ->
  own (p_vm st') 4 t /\ forall va, ubyte (kw (p_vm st')) t va = ubyte (kw (p_vm st)) t va.
Proof.
  intros (_ & Ho & Hd) Hk. pose proof Ho as (Hr & Hnd & Hu).
  assert (Hq : forall q, q ∈ pgs 4 t -> pa_used (al (p_vm st')) q /\ same_on (kw (p_vm st)) (kw (p_vm st')) q).
  { intros q Hq. destruct (Hu q Hq). apply Hk; [done | done |]. intros i E. apply (Hd q Hq). by exists (L3t i). }
  destruct (own_frame (p_vm st) t (kw (p_vm st')) Ho) as [(Hr' & _ & _) Hv]; [intros q Hin; by apply Hq |].
  split; [| done]. split; [done |]. split; [done |]. intros q Hin. split; [by apply Hu | by apply Hq].
Qed.

Lemma pinv_ext L L' st W : (forall x, L x <-> L' x) -> pinv L st W -> pinv L' st W.
Proof.
  intros Hl [I Hm]. split; [| done]. destruct (k_ok _ _ (i_win _ _ I)) as [Hok Ho].
  pose proof (kinv_same L L' (p_ks st) W (p_vm st) I ltac:(split; [done | intros o; by rewrite Ho]) ltac:(by split)) as I'.
  unfold with_vm, p_vm in I'. by destruct (p_ks st).
Qed.

Lemma built_kept L st W st' W' p pid slot : pinv L st W -> built L st W st' W' p pid slot -> kept st W st'.
Proof.
  intros [I _] B q Hq Hu Ht. apply (kchange_kept slot _ _ _ _ (kwin_win L _ _ I) (bt_change _ _ _ _ _ _ _ _ B)); try done.
  intros m Hs. by apply (bt_stack _ _ _ _ _ _ _ _ B).
Qed.

(** The new process is given back as [fork] found it, whatever its space has become. *)
Lemma fork_undo L st W st1 W1 np pid slot st2 o : pinv L st W -> built L st W st1 W1 np pid slot ->
  pinv (fun x => x = np \/ L x) st2 W1 -> p_pids st2 = p_pids st1 -> kstack_slotmap (p_ks st2) = kstack_slotmap (p_ks st1) ->
  u_pid (p_objs st2 np) = pid -> u_kslot (p_objs st2 np) = slot -> u_kstack (p_objs st2 np) <> 0 ->
  (forall x, x <> np -> p_objs st2 x = p_objs st1 x) -> l2_kstack (p_ks st2) = l2_kstack (p_ks st1) ->
  space st2 W1 o (u_pagetable (p_objs st2 np)) -> (forall v, drops (p_vm st2) v (space_pages o) -> same_pages (p_vm st1) v) ->
  (exists st' W', freeproc st2 np = Ret st' /\ undone L st W st' W') \/
  no_room np (freeproc st2 np).
Proof.
  intros Hi B Hi2 Hp Hsl E1 E2 E3 Hobjs Hl2 Hsp Hsame. pose proof B as [[Hnp Hnl] [I1 _] (Hpid & Hpb & Hps) _ (Hslot & Hsb & Hss) Hst C Hobj].
  destruct (freeproc_spec _ st2 W1 np o Hi2 ltac:(by left)) as [(st' & W' & E & [R1 R2 R3 R4 (v & Hokv & Hd & C2) R6]) | ?]; [| done | left | by right].
  { split; rewrite ?E1, ?E2; try done; [lia |]. rewrite Hsl, Hss, bit_test_set by (unfold slot_ok in Hslot; lia). by rewrite Z.eqb_refl. }
  exists st', W'. split; [done |]. rewrite E1, E2 in *. pose proof (Hsame v Hd) as Hs.
  assert (Ek : win (with_vm (p_ks st2) v) = win (with_vm (p_ks st1) v)) by (unfold win, with_slotmap, with_vm; cbn; by rewrite Hl2). rewrite Ek in C2.
  pose proof (kchange_same slot _ (p_ks st1) W1 v I1 Hs) as C1.
  pose proof (kchange_trans _ _ _ _ _ _ _ (kwin_win _ _ _ (pv_k _ _ _ Hi)) (kwin_win _ _ _ I1) C C1) as C3.
  apply (undone_of slot L L st W st' W' Hi).
  - apply (pinv_ext (fun x => x <> np /\ (x = np \/ L x))); [| done]. intros x. split; [tauto |]. intros Hx. split; [| by right]. by intros ->.
  - rewrite R2, Hp, Hps. apply bit_clear_set; [lia | apply Hi | done].
  - rewrite R3, Hsl, Hss. apply bit_clear_set; [unfold slot_ok in Hslot; lia | apply Hi | done].
  - refine (kchange_trans _ _ _ _ _ _ _ (kwin_win _ _ _ (pv_k _ _ _ Hi)) _ C3 C2).
    apply (kwin_win (fun x => x = np \/ L x)). apply (kinv_same (fun x => x = np \/ L x)); done.
  - intros m Hm. by apply Hst.
  - exact R4.
  - intros x Hx. assert (x <> np) by (by intros ->). rewrite R6, Hobjs, Hobj by done. by rewrite upd_ne.
Qed.

Lemma building_pinv L st W v (t : ptroot) : pinv L st W -> @building A PA (at_live L) (p_vm st) v t [] ->
  pinv L (with_pvm st v) W /\ own v 4 t /\ forall q, q ∈ pgs 4 t -> ~ owned W q.
Proof.
  intros [I Hm] [B1 B2 B3 B4 B5 B6]. assert (Hw : forall q, owned W q -> is_page q /\ pa_used (al (p_vm st)) q).
  { intros q [x Hx]. exact (k_use _ _ (i_win _ _ I) x q Hx). }
  split; [| split; [exact B2 |]].
  - split; [| done]. apply (kinv_vm L); [done | done |]. intros q Hq. destruct (Hw q Hq) as [Hp Hu]. split; [apply B3; auto | by apply B6].
  - intros q Hq Ho. apply (B4 q); [by left | by apply Hw].
Qed.

Lemma building_same L (v1 v2 v3 : vm A) (t : ptroot) : @building A PA (at_live L) v1 v2 t [] -> drops v2 v3 (pgs 4 t) -> same_pages v1 v3.
Proof.
  intros [B1 B2 B3 B4 B5 B6] [D1 D2]. split.
  - intros q Hq. rewrite D1 by done. split.
    + intros [Hu Hn]. by apply B3 in Hu as [? | [? | ?%elem_of_nil]].
    + intros Hu. split; [apply B3; auto |]. intros Hx. by apply (B4 q); [left |].
  - intros q Hq Hu. apply (same_on_trans _ (kw v2)); [by apply B6 | apply D2; [done |]]. intros Hx. by apply (B4 q); [left |].
Qed.

Lemma create_spec L st W : pinv L st W ->
  exists v r, uvmcreate (p_vm st) = Ret (v, r) /\
  match r with
  | None => same_pages (p_vm st) v /\ pinv L (with_pvm st v) W
  | Some pt => @building A PA (at_live L) (p_vm st) v (empty_table pt) []
  end.
Proof.
  intros [I Hm]. destruct (@ptalloc_spec A PA (at_live L) (p_vm st) (k_ok _ _ (i_win _ _ I))) as (a & [v r] & E & Hok & Hr).
  exists v, r. split; [done |]. destruct r as [pt |].
  - destruct Hr as (-> & Hp & Hnu & Hpu & Heq). by apply (@build_start A PA (at_live L)).
  - destruct Hr as [-> Heq]. assert (S : same_pages (p_vm st) (Vm (kw (p_vm st)) a)) by (by split; [| intros]).
    split; [done |]. split; [| done]. by apply (kinv_same L).
Qed.

(** The child: everything of its own, and the parent's memory, frame and name. *)
Record forked L st W st' W' (p np r slot : Z) (t t' : ptroot) : Prop := {
  fk_new : np <> 0 /\ ~ L np;
  fk_inv : pinv (fun o => o = np \/ L o) st' W';
  fk_pid : 0 <= r < KSTACK_NSLOTS /\ bit_test (p_pids st) r = false /\ p_pids st' = bit_set (p_pids st) r;
  fk_slot : slot_ok slot /\ bit_test (kstack_slotmap (p_ks st)) slot = false /\ kstack_slotmap (p_ks st') = bit_set (kstack_slotmap (p_ks st)) slot;
  fk_stack : forall m, stack_page slot m -> W (Pg m) = None /\ W' (Pg m) <> None;
  fk_proc : let u := p_objs st' np in let top := win_va (8 * slot + 8) in
    u_pid u = r /\ u_kslot u = slot /\ u_kstack u = top /\ u_state u = RUNNABLE /\ u_parent u = p /\ u_killed u = 0 /\
    u_context u 30 = forkret /\ u_context u 31 = top - TF_SIZE /\ u_tf u = top - TF_SIZE /\
    u_frame u = child_frame (u_frame (p_objs st p)) /\ u_sz u = u_sz (p_objs st p) /\ u_name u = set_name (cstr (u_name (p_objs st p)));
  fk_space : space st' W' (Some t') (u_pagetable (p_objs st' np));
  fk_fresh : forall q, q ∈ pgs 4 t' -> ~ pa_used (al (p_vm st)) q;
  fk_view : forall va, 0 <= va < 2 ^ 48 -> ubyte (kw (p_vm st')) t' va = ubyte (kw (p_vm st)) t va;
  fk_objs : forall x, L x -> p_objs st' x = p_objs st x;
  fk_kept : kept st W st';
  fk_pages : forall q, is_page q -> pa_used (al (p_vm st')) q -> pa_used (al (p_vm st)) q \/ (exists i, W' (L3t i) = Some q) \/
    (exists m, stack_page slot m /\ W' (Pg m) = Some q) \/ q ∈ pgs 4 t'
}.

(** [fork] gives the child back while its space is [o]. *)
Lemma fork_fails L st W st1 W1 np pid slot v o pt : pinv L st W -> built L st W st1 W1 np pid slot ->
  pinv (fun x => x = np \/ L x) (with_pvm st1 v) W1 -> space (with_pvm st1 v) W1 o pt ->
  (forall v', drops v v' (space_pages o) -> same_pages (p_vm st1) v') ->
  let r := st ← freeproc (set_obj (with_pvm st1 v) np (set_space (p_objs st1 np) pt (u_sz (p_objs st1 np)))) np; Ret (st, -1) in
  (exists st' W', r = Ret (st', -1) /\ undone L st W st' W') \/ no_room np r.
Proof.
  intros Hi B [I2 Hm2] Hsp Hsame r. unfold r. clear r. pose proof (bt_obj _ _ _ _ _ _ _ _ B) as Hobj.
  destruct (bt_slot _ _ _ _ _ _ _ _ B) as [Hs _]. pose proof (win_va_pos slot Hs).
  set (st2 := set_obj _ np _). assert (E2 : p_objs st2 np = set_space (p_objs st1 np) pt (u_sz (p_objs st1 np))) by (cbn; by rewrite upd_eq).
  destruct (fork_undo L st W st1 W1 np pid slot st2 o Hi B ltac:(by split) eq_refl eq_refl) as [(st' & W' & E & Hu) | (a & s & ? & ? & ? & ? & E)].
  - rewrite E2, Hobj, upd_eq. done.
  - rewrite E2, Hobj, upd_eq. done.
  - rewrite E2, Hobj, upd_eq. cbn. lia.
  - intros x Hx. cbn. by rewrite upd_ne.
  - done.
  - rewrite E2. exact Hsp.
  - exact Hsame.
  - left. exists st', W'. by rewrite E.
  - right. exists a, s. by rewrite E.
Qed.

Lemma built_used L st W st' W' p pid slot q : pinv L st W -> built L st W st' W' p pid slot -> is_page q -> pa_used (al (p_vm st)) q -> pa_used (al (p_vm st')) q.
Proof.
  intros [I _] B Hq Hu. pose proof (bt_change _ _ _ _ _ _ _ _ B) as C. apply (c_used _ _ _ _ _ C); [done |].
  destruct (owned_dec _ _ q (kwin_win L _ _ I)) as [[[i | n] E] | Hno]; [| | by left].
  - right. exists (L3t i). by apply (c_tabs _ _ _ _ _ C).
  - right. exists (Pg n). rewrite (c_pgs _ _ _ _ _ C); [done |]. intros Hs. apply (bt_stack _ _ _ _ _ _ _ _ B) in Hs as [Hs _]. congruence.
Qed.

(** What [fork] writes to the child once the copy is there. *)
Record child_of L st W st1 W1 st' (p np pid slot : Z) (t t' : ptroot) : Prop := {
  ch_built : built L st W st1 W1 np pid slot;
  ch_building : @building A PA (at_live (fun x => x = np \/ L x)) (p_vm st1) (p_vm st') t' [];
  ch_view : forall va, 0 <= va < 2 ^ 48 -> ubyte (kw (p_vm st')) t' va = ubyte (kw (p_vm st)) t va;
  ch_ks : p_ks st' = with_vm (p_ks st1) (p_vm st');
  ch_pids : p_pids st' = p_pids st1;
  ch_objs : p_objs st' = (p_objs st1).[np <- activate (set_frame (set_space (p_objs st1 np) t'.1 (u_sz (p_objs st p)))
    (child_frame (u_frame (p_objs st p))) (set_name (cstr (u_name (p_objs st p))))) (Some p)]
}.

Lemma forked_of L st W st1 W1 st' p np pid slot (t t' : ptroot) : pinv L st W -> child_of L st W st1 W1 st' p np pid slot t t' ->
  forked L st W st' W1 p np pid slot t t'.
Proof.
  intros Hi [B Bd Hview Ek Ep Eo]. generalize dependent (p_vm st'). intros v Bd Hview Ek.
  set (u' := activate _ _) in Eo. destruct (building_pinv _ st1 W1 v t' (bt_inv _ _ _ _ _ _ _ _ B) Bd) as ([I2 Hm2] & Ho & Hd).
  pose proof (built_kept _ _ _ _ _ _ _ _ Hi B) as Hk. pose proof Bd as [B1 B2 B3 B4 B5 B6].
  assert (Ev : p_vm st' = v) by (unfold p_vm; by rewrite Ek). pose proof B as [Hnew [I1 _] Hpid _ Hslot Hst C Hobj].
  assert (Eu : p_objs st' np = u') by (rewrite Eo; by rewrite upd_eq). split; rewrite ?Ev; try done.
  - split; [by rewrite Ek | by rewrite Ep].
  - by rewrite Ep.
  - rewrite Ek. exact Hslot.
  - rewrite Eu. unfold u'. rewrite Hobj, upd_eq. cbn. pose proof (win_va_pos slot (proj1 Hslot)) as Hw.
    assert (Hsub : u64 (win_va (8 * slot + 8) - TF_SIZE) = win_va (8 * slot + 8) - TF_SIZE).
    { apply u64_small. destruct Hslot as [Hs _]. revert Hs. unfold slot_ok, win_va, KSTACK_WINDOW, KERN_BASE, TF_SIZE. change KSTACK_NSLOTS with 32768. change (Z.shiftl 511 30) with (511 * 2 ^ 30). lia. }
    rewrite Hsub. done.
  - rewrite Eu. split; [done |]. rewrite Ev. by split.
  - intros q Hq Hu. destruct (proj2 (proj2 B2) q Hq) as [Hpg _]. apply (B4 q); [by left | by apply (built_used L st W st1 W1 np pid slot)].
  - intros x Hx. assert (x <> np) by (intros ->; by destruct Hnew). by rewrite Eo, upd_ne, Hobj, upd_ne.
  - intros q Hq Hu Ht. destruct (Hk q Hq Hu Ht) as [Hu1 Hs1]. rewrite Ev. split; [apply B3; auto |]. apply (same_on_trans _ (kw (p_vm st1))); [done | by apply B6].
  - intros q Hq Hu. apply B3 in Hu as [Hu | [Hu | ?%elem_of_nil]]; [| by auto | done | done].
    destruct (kchange_new slot _ _ _ _ q (kwin_win L _ _ (pv_k _ _ _ Hi)) C Hq Hu) as [? | [? | ?]]; auto.
Qed.

Lemma fork_spec L st W p t : pinv L st W -> space st W (Some t) (u_pagetable (p_objs st p)) -> L p ->
  0 <= u_sz (p_objs st p) <= 2 ^ 48 -> (forall x, (u_sz (p_objs st p) + 4095) / 4096 <= x < 2 ^ 36 -> maps t x = None) ->
  (exists st' W' r, fork forkret st p = Ret (st', r) /\
    (r = -1 /\ undone L st W st' W' \/ exists st1 np slot t', child_of L st W st1 W' st' p np r slot t t')) \/
  exists np, no_room np (fork forkret st p).
Proof.
  intros Hi Hsp Hp Hsz Hbrk. unfold fork. destruct (allocproc_spec L st W Hi) as (st1 & W1 & r & E & Hr). rewrite E. cbn [mbind res_bind].
  destruct r as [np |]; [| left; exists st1, W1, (-1); split; [done | by left]].
  destruct Hr as (pid & slot & B). pose proof (bt_inv _ _ _ _ _ _ _ _ B) as Hi1. pose proof (bt_obj _ _ _ _ _ _ _ _ B) as Hobj.
  assert (Hne : p <> np) by (intros ->; by destruct (bt_fresh _ _ _ _ _ _ _ _ B)).
  assert (Eo : p_objs st1 p = p_objs st p) by (rewrite Hobj; by rewrite upd_ne).
  destruct (create_spec _ st1 W1 Hi1) as (v & pt & Ec & Hc). rewrite Ec. cbn [mbind res_bind]. destruct pt as [pt |].
  2: { destruct Hc as [Hsame Hi2].
    destruct (fork_fails L st W st1 W1 np pid slot v None 0 Hi B Hi2 eq_refl) as [(st' & W' & Ef & Hu) | ?].
    - intros v' [D1 D2]. destruct Hsame as [S1 S2]. split.
      + intros q Hq. rewrite D1, S1 by done. split; [by intros [? _] |]. intros ?. split; [done | apply not_elem_of_nil].
      + intros q Hq Hu. apply (same_on_trans _ (kw v)); [by apply S2 | apply D2; [done | apply not_elem_of_nil]].
    - left. exists st', W', (-1). split; [exact Ef | by left].
    - right. by exists np. }
  cbn [set_obj with_pvm with_ks p_objs p_vm p_ks with_vm ks_vm]. rewrite !(upd_ne _ np p), Eo by done.
  destruct (kept_space st W st1 t _ Hsp (built_kept _ _ _ _ _ _ _ _ Hi B)) as [Hot1 Hv1]. pose proof Hsp as (Ept & Hot & Hdt). rewrite Ept.
  destruct (@build_old A PA (at_live (fun x => x = np \/ L x)) _ _ _ _ t Hc Hot1) as (Hot2 & Hv2 & Hdis).
  destruct (@uvmcopy_spec A PA (at_live (fun x => x = np \/ L x)) v t (empty_table pt) (u_sz (p_objs st p))) as (v' & t' & r & Ecp & G & Hot3 & Hr);
    [apply Hc | done | apply Hc | intros q Hq; by apply Hdis | done | by intros |].
  cbn [empty_table fst] in Ecp. rewrite Ecp. cbn [mbind res_bind].
  pose proof (@build_grows A PA (at_live (fun x => x = np \/ L x)) _ _ _ _ _ _ Hc G) as Bd.
  assert (Ert : t'.1 = pt) by exact (@entry_base A PA (at_live (fun x => x = np \/ L x)) v v' 3 (empty_table pt) t' (b_own _ _ _ _ Hc) (b_own _ _ _ _ Bd) (g_entry _ _ _ _ _ _ G)).
  destruct (building_pinv _ st1 W1 v' t' Hi1 Bd) as (Hi3 & Hot' & Hd'). rewrite <- Ert. destruct Hr as [[-> Hcp] | ->].
  - left. cbn [Z.ltb Z.compare]. eexists _, W1, _. split; [reflexivity |]. right. exists st1, np, slot, t'. cbn [p_objs]. rewrite !upd_eq.
    assert (Epid : u_pid (p_objs st1 np) = pid) by (by rewrite Hobj, upd_eq). cbn [activate u_pid set_frame set_space]. rewrite Epid.
    split; [done | exact Bd | | done | done |].
    + intros va Hva. rewrite <- Hv1, <- Hv2. by apply (copy_view v v' t (empty_table pt) t' _ Hcp Hot' Hot2 Hbrk).
    + cbn [set_obj with_pvm with_ks p_objs]. by rewrite !upd_upd.
  - cbn [Z.ltb Z.compare]. destruct (fork_fails L st W st1 W1 np pid slot v' (Some t') t'.1 Hi B Hi3) as [(st' & W' & Ef & Hu) | Hn].
    + by split.
    + intros v2 Hd2. exact (building_same _ _ _ _ _ Bd Hd2).
    + left. exists st', W', (-1). split; [exact Ef | by left].
    + right. by exists np.
Qed.

(** ** Lemmas: exit and wait, and the first process *)

Lemma reap_spec L st W st1 W1 st' p np pid slot (t t' : ptroot) : pinv L st W -> child_of L st W st1 W1 st' p np pid slot t t' ->
  exists st2, exit_space st' np = Ret st2 /\
    ((exists st3 W3, freeproc st2 np = Ret st3 /\ undone L st W st3 W3) \/ no_room np (freeproc st2 np)).
Proof.
  intros Hi Hch. pose proof (forked_of _ _ _ _ _ _ _ _ _ _ _ _ Hi Hch) as F. pose proof Hch as [B Bd _ Ek Ep Eo].
  pose proof (fk_inv _ _ _ _ _ _ _ _ _ _ _ F) as Hi'. pose proof (fk_space _ _ _ _ _ _ _ _ _ _ _ F) as Hsp.
  destruct (space_free _ _ _ _ _ Hi' Hsp) as (v & E & Hd & [I2 Hm2]). unfold exit_space.
  rewrite (proj2 (Z.eqb_neq _ 0) (space_root _ _ _ _ Hsp)). cbn [negb]. rewrite E. cbn [mbind res_bind]. eexists. split; [reflexivity |].
  destruct (fk_proc _ _ _ _ _ _ _ _ _ _ _ F) as (P1 & P2 & P3 & _). pose proof (win_va_pos slot (proj1 (bt_slot _ _ _ _ _ _ _ _ B))).
  apply (fork_undo L st W st1 W1 np pid slot _ None Hi B); cbn [set_obj with_pvm with_ks p_ks p_pids p_objs with_vm kstack_slotmap l2_kstack]; rewrite ?upd_eq; try done.
  - by rewrite Ek.
  - cbn. rewrite P3. lia.
  - intros x Hx. by rewrite upd_ne, Eo, upd_ne.
  - by rewrite Ek.
  - intros v' [D1 D2]. destruct (building_same _ _ _ _ _ Bd Hd) as [S1 S2]. change (space_pages None) with ([] : list Z) in D1, D2. cbn in D1, D2. split.
    + intros q Hq. rewrite D1, S1 by done. split; [by intros [? _] |]. intros ?. split; [done | apply not_elem_of_nil].
    + intros q Hq Hu. apply (same_on_trans _ (kw v)); [by apply S2 | apply D2; [done | apply not_elem_of_nil]].
Qed.

Lemma init_stack w S base : base mod 4096 = 0 -> 4096 <= base <= 2 ^ 48 ->
  let sp := Z.land (u64 (base + PGSIZE - 5 * 8)) (not64 15) in let a := S + (sp - base) in
  exec_stack w S 0 base 0 0 = (w.[a <- 0].[a + 8 <- 0].[a + 16 <- 0].[a + 24 <- 0].[a + 32 <- 0], Some sp).
Proof.
  intros Hal Hb. unfold exec_stack, PGSIZE. cbn zeta. rewrite Z.sub_0_r, (u64_small (base + 4096)) by lia. rewrite (land_16 (base + 4096)) by lia.
  replace ((base + 4096) / 16 * 16) with (base + 4096) by (Z.div_mod_to_equations; lia).
  replace (base + 4096 - (0 + 5) * 8) with (base + 4096 - 5 * 8) by lia. rewrite (u64_small (base + 4096 - 5 * 8)), land_16 by lia.
  destruct (Z.ltb_spec ((base + 4096 - 5 * 8) / 16 * 16) base) as [Hx | _]; [exfalso; Z.div_mod_to_equations; lia |]. reflexivity.
Qed.

(** The panics of [userinit]: no memory, or an image that is not one. *)
Definition init_panics : list string :=
  ["userinit: allocproc failed"; "userinit: uvmcreate failed"; "userinit: loadelf failed"; "userinit: kalloc failed"; "userinit: stack mappages failed"]%string.

Lemma init_panic_in s : forallb (fun x => negb (String.eqb s x)) init_panics = false -> s ∈ init_panics.
Proof.
  intros Hs. destruct (decide (s ∈ init_panics)) as [? | Hn]; [done |]. exfalso. apply not_true_iff_false in Hs. apply Hs, forallb_forall.
  intros x Hx. apply negb_true_iff, String.eqb_neq. intros ->. by apply Hn, list_elem_of_In.
Qed.

Lemma userinit_spec L st W img size : pinv L st W -> bytes_ok img ->
  let l := segs img (Z.to_nat (phnum (elfhdr_at img))) in let base := PGROUNDUP (top l) in
  apart l -> top l + 4096 <= 2 ^ 48 ->
  (exists s, userinit forkret st img size = Panic s /\ s ∈ init_panics) \/
  exists st1 st' W' p pid slot t' sp, userinit forkret st img size = Ret (st', p) /\ built L st W st1 W' p pid slot /\
    @building A PA (at_live (fun x => x = p \/ L x)) (p_vm st1) (p_vm st') t' [] /\ p_ks st' = with_vm (p_ks st1) (p_vm st') /\ p_pids st' = p_pids st1 /\
    p_objs st' = (p_objs st1).[p <- activate (set_frame (set_space (p_objs st1 p) t'.1 (base + 4096))
      (Trapframe (fun _ => 0) sp (entry_pc (elfhdr_at img)) 0 0) (set_name (chars "init"))) None] /\
    stack_seen (kw (p_vm st')) t' base sp [] /\
    (forall va, 0 <= va < 2 ^ 48 -> va < base \/ base + 4096 <= va -> ubyte (kw (p_vm st')) t' va =
      (fun ph => seg_byte img ph va) <$> List.find (fun ph => seg_has ph (va / 4096)) l).
Proof.
  intros Hi Himg l base Hap Htop. unfold userinit.
  assert (Hpanic : forall (X : Prop) (m : res (pst A * Z)) s, m = Panic s -> s ∈ init_panics -> (exists s, m = Panic s /\ s ∈ init_panics) \/ X) by (intros; left; by exists s).
  destruct (allocproc_spec L st W Hi) as (st1 & W1 & r & E & Hr). rewrite E. cbn [mbind res_bind].
  destruct r as [p |]; [| eapply Hpanic; [reflexivity | by apply init_panic_in]]. destruct Hr as (pid & slot & B). set (L1 := fun x => x = p \/ L x).
  destruct (create_spec L1 st1 W1 (bt_inv _ _ _ _ _ _ _ _ B)) as (v & pt & Ec & Hc). rewrite Ec. cbn [mbind res_bind].
  destruct pt as [pt |]; [| eapply Hpanic; [reflexivity | by apply init_panic_in]].
  destruct (@loadelf_spec A PA (at_live L1) img size v (empty_table pt) Himg (b_ok _ _ _ _ Hc) (b_own _ _ _ _ Hc) ltac:(done) Hap) as (v1 & t1 & r & E1 & G1 & Hl).
  change ((@empty_table 3 pt).1) with pt in E1. rewrite E1. cbn [mbind res_bind]. pose proof (@build_grows A PA (at_live L1) _ _ _ _ _ _ Hc G1) as B1.
  assert (Et1 : t1.1 = pt) by exact (@entry_base A PA (at_live L1) _ _ 3 (empty_table pt) t1 (b_own _ _ _ _ Hc) (b_own _ _ _ _ B1) (g_entry _ _ _ _ _ _ G1)).
  destruct r as [[entry sz'] |]; [| eapply Hpanic; [reflexivity | by apply init_panic_in]]. destruct Hl as (_ & _ & _ & Hl & -> & Htop0 & ->). fold l in Hl, Htop0 |- *. fold base.
  assert (Ebase : base = (top l + 4095) / 4096 * 4096) by (unfold base; apply PGROUNDUP_eq; lia).
  assert (Hbase : base mod 4096 = 0 /\ 4096 <= base /\ base + 4096 <= 2 ^ 48) by (rewrite Ebase; Z.div_mod_to_equations; lia). destruct Hbase as (Hal & Hb1 & Hb2).
  destruct (@build_alloc A PA (at_live L1) _ v1 t1 B1) as (a1 & r & E2 & Hr). rewrite E2. cbn [mbind res_bind].
  destruct r as [S |]; [| eapply Hpanic; [reflexivity | by apply init_panic_in]].
  destruct Hr as (HS & HSn & HSu & Hoka1 & HSeq & _). cbn [kw al]. unfold USER_BASE. rewrite Z.add_0_l, (u64_small base) by lia. rewrite <- Et1.
  destruct (@map_stack_spec A PA (at_live L1) _ v1 t1 img l base S a1 B1 Hl Ebase ltac:(lia) Hb2 HS HSn HSu Hoka1 HSeq) as (v2 & r & t2 & E3 & Et2 & Hr).
  rewrite E3. cbn [mbind res_bind]. destruct Hr as [(-> & B2 & Hm2 & Hview) | (-> & _)]; [| eapply Hpanic; [reflexivity | by apply init_panic_in]].
  change (0 <? 0) with false. cbn iota. right. rewrite <- Et2.
  pose proof (exec_stack_spec (kw v2) S 0 base [] HS Hal ltac:(lia) ltac:(cbn; lia) ltac:(constructor) ltac:(cbn; lia) ltac:(done)) as Hst.
  change (Z.of_nat (length ([] : list (list Z)))) with 0 in Hst. change (Z.of_nat (length (packed []))) with 0 in Hst. rewrite (init_stack (kw v2) S base Hal ltac:(lia)) in Hst. destruct Hst as [Hw Hst].
  set (sp := Z.land _ _) in *. specialize (Hst sp eq_refl).
  destruct (leaf_not_table v2 4 t2 _ _ (b_own _ _ _ _ B2) Hm2) as [HSt HSnt]. rewrite leafpage_desc in HSt, HSnt by (exact HS || exact PAGE_USER_ok).
  eexists st1, _, W1, p, pid, slot, t2, sp. split; [reflexivity |]. split; [exact B |]. cbn [p_vm p_ks set_obj with_pvm with_ks with_vm ks_vm kw p_objs p_pids].
  split; [| split; [reflexivity |]; split; [reflexivity |]; split; [| split]].
  - apply (@build_write A PA (at_live L1) _ v2 t2 [] _ B2). intros q Hq Hx. apply Hw; [exact Hq |]. intros ->.
    destruct Hx as [Hx | Hx]; [| exact (HSnt Hx)]. apply (b_new _ _ _ _ B2 S); [left; exact HSt | exact Hx].
  - rewrite !upd_eq, !upd_upd. unfold PGSIZE. by rewrite u64_small by lia.
  - apply (stack_seen_of _ _ S); [exact Hst | exact Hal | exact HS | exact Hm2].
  - intros va Hva Hx. rewrite <- (Hview va Hva Hx). exact (@stack_write_view A PA (at_live L1) v2 t2 S base _ (b_own _ _ _ _ B2) HS ltac:(lia) Hal Hb2 Hm2 Hw va Hva Hx).
Qed.
(** A kernel thread is a process without a space that starts in [fn]. *)
Lemma kthread_add_spec L st W fn isrc nm : pinv L st W ->
  exists st' W' r, kthread_add forkret st fn isrc nm = Ret (st', r) /\
  (r = -1 /\ undone L st W st' W' \/
   exists st1 p slot, built L st W st1 W' p r slot /\ p_ks st' = p_ks st1 /\ p_pids st' = p_pids st1 /\
     let u := p_objs st' p in u_pid u = r /\ u_state u = RUNNABLE /\ u_pagetable u = 0 /\ u_parent u = 0 /\ u_isrc u = isrc /\
     u_context u 19 = fn /\ u_context u 30 = forkret /\ u_name u = set_name nm).
Proof.
  intros Hi. unfold kthread_add. destruct (allocproc_spec L st W Hi) as (st1 & W1 & r & E & Hr). rewrite E. cbn [mbind res_bind].
  destruct r as [p |]; [| exists st1, W1, (-1); split; [done | by left]]. destruct Hr as (pid & slot & B).
  assert (Eo : p_objs st1 p = new_proc forkret (p_objs st p) pid slot (win_va (8 * slot + 8))) by (rewrite (bt_obj _ _ _ _ _ _ _ _ B); by rewrite upd_eq).
  eexists _, W1, pid. split; [cbn; rewrite !upd_eq, Eo; reflexivity |]. right. exists st1, p, slot. split; [exact B |]. split; [done |]. split; [done |].
  cbn [set_obj p_objs]. rewrite !upd_eq. cbn zeta. done.
Qed.
End proofs.

(** ** Theorems *)

(** C31: [fork] of a process with a space of its own returns, except when giving a process
    object back finds no room for it (and stops there). It returns -1 with every pid, slot
    and stack as before, every page of anyone in place with its contents and nothing
    leaked but tables that stay with the stack window; or the pid of a new process, runnable
    and a child of the caller, that has a free pid, a free slot with a fresh stack, the
    caller's frame with 0 in x0, its name and its break, and a space of fresh pages in
    which every byte reads as in the caller's. The caller and its space are untouched
    either way. *)
Theorem fork_copies_or_rolls_back {A} {PA : PageAlloc A} {PL : PageAllocLaws A} {OA : ObjAlloc A} {OL : ObjAllocLaws A}
    forkret (st : pst A) W L p (t : ptroot) :
  pinv L st W -> space st W (Some t) (u_pagetable (p_objs st p)) -> L p ->
  0 <= u_sz (p_objs st p) <= 2 ^ 48 -> (forall x, (u_sz (p_objs st p) + 4095) / 4096 <= x < 2 ^ 36 -> maps t x = None) ->
  (exists st' W' r, fork forkret st p = Ret (st', r) /\
    p_objs st' p = p_objs st p /\ own (p_vm st') 4 t /\ (forall va, ubyte (kw (p_vm st')) t va = ubyte (kw (p_vm st)) t va) /\
    (r = -1 /\ undone L st W st' W' \/ exists np slot t', forked forkret L st W st' W' p np r slot t t')) \/
  exists np, no_room np (fork forkret st p).
Proof.
  intros Hi Hsp Hp Hsz Hbrk. destruct (fork_spec forkret L st W p t Hi Hsp Hp Hsz Hbrk) as [(st' & W' & r & E & Hr) | ?]; [left | by right].
  exists st', W', r. split; [exact E |]. destruct Hr as [[-> U] | (st1 & np & slot & t' & Hch)].
  - split; [by apply (un_objs _ _ _ _ _ U) |]. destruct (kept_space st W st' t _ Hsp (un_kept _ _ _ _ _ U)). split; [done |]. split; [done |]. by left.
  - pose proof (forked_of _ _ _ _ _ _ _ _ _ _ _ _ _ Hi Hch) as F. split; [by apply (fk_objs _ _ _ _ _ _ _ _ _ _ _ _ F) |].
    destruct (kept_space st W st' t _ Hsp (fk_kept _ _ _ _ _ _ _ _ _ _ _ _ F)). split; [done |]. split; [done |]. right. by exists np, slot, t'.
Qed.

(** C32: A child that exits and is reaped gives back everything [fork] took: its space on
    [exit], its stack, slot, pid and object when the parent waits; afterwards every pid,
    slot, stack and page is as before the fork, but for tables of the stack window. *)
Theorem fork_exit_wait_roundtrip {A} {PA : PageAlloc A} {PL : PageAllocLaws A} {OA : ObjAlloc A} {OL : ObjAllocLaws A}
    forkret (st : pst A) W L p (t : ptroot) st' r :
  pinv L st W -> space st W (Some t) (u_pagetable (p_objs st p)) -> L p ->
  0 <= u_sz (p_objs st p) <= 2 ^ 48 -> (forall x, (u_sz (p_objs st p) + 4095) / 4096 <= x < 2 ^ 36 -> maps t x = None) ->
  fork forkret st p = Ret (st', r) -> r <> -1 ->
  exists np st2, u_pid (p_objs st' np) = r /\ exit_space st' np = Ret st2 /\
    ((exists st3 W3, freeproc st2 np = Ret st3 /\ undone L st W st3 W3) \/ no_room np (freeproc st2 np)).
Proof.
  intros Hi Hsp Hp Hsz Hbrk E Hr. destruct (fork_spec forkret L st W p t Hi Hsp Hp Hsz Hbrk) as [(st1 & W' & r' & E' & H) | (np & a & s & ? & ? & ? & ? & E')].
  2: { rewrite E in E'. discriminate. }
  rewrite E in E'. injection E' as <- <-. destruct H as [[? _] | (st1' & np & slot & t' & Hch)]; [done |].
  destruct (reap_spec _ _ _ _ _ _ _ _ _ _ _ _ _ Hi Hch) as (st2 & E2 & H2). exists np, st2. split; [| by split].
  apply (forked_of _ _ _ _ _ _ _ _ _ _ _ _ _ Hi Hch).
Qed.

(** [userinit] builds the first process or panics with one of its own messages, never in
    an assertion below it, for an image whose segments share no page and leave room for the
    stack: the process is runnable, named init, has no parent, a free pid (1, at boot), a
    fresh stack and a space of fresh pages in which it reads exactly the segments of the
    image and a stack with argc 0 and the terminators, and enters at the image's entry
    point; nothing that was in use changes. *)
Theorem userinit_builds_init {A} {PA : PageAlloc A} {PL : PageAllocLaws A} {OA : ObjAlloc A} {OL : ObjAllocLaws A}
    forkret (st : pst A) W L img size : pinv L st W -> bytes_ok img ->
  let l := segs img (Z.to_nat (phnum (elfhdr_at img))) in let base := PGROUNDUP (top l) in
  apart l -> top l + 4096 <= 2 ^ 48 ->
  (exists s, userinit forkret st img size = Panic s /\ s ∈ init_panics) \/
  exists st' W' p t' sp, userinit forkret st img size = Ret (st', p) /\ pinv (fun x => x = p \/ L x) st' W' /\ kept st W st' /\
    let u := p_objs st' p in
    u_state u = RUNNABLE /\ u_parent u = 0 /\ u_name u = set_name (chars "init") /\ u_sz u = base + 4096 /\
    u_frame u = Trapframe (fun _ => 0) sp (entry_pc (elfhdr_at img)) 0 0 /\ u_context u 30 = forkret /\
    bit_test (p_pids st) (u_pid u) = false /\ (p_pids st = bit_set (fun _ => 0) 0 -> u_pid u = 1) /\
    space st' W' (Some t') (u_pagetable u) /\ (forall q, q ∈ pgs 4 t' -> ~ pa_used (al (p_vm st)) q) /\
    stack_seen (kw (p_vm st')) t' base sp [] /\
    forall va, 0 <= va < 2 ^ 48 -> va < base \/ base + 4096 <= va -> ubyte (kw (p_vm st')) t' va =
      (fun ph => seg_byte img ph va) <$> List.find (fun ph => seg_has ph (va / 4096)) l.
Proof.
  intros Hi Himg l base Hap Htop. destruct (userinit_spec forkret L st W img size Hi Himg Hap Htop) as [? | (st1 & st' & W' & p & pid & slot & t' & sp & E & B & Bd & Ek & Ep & Eo & Hst & Hview)]; [by left | right].
  exists st', W', p, t', sp. split; [exact E |]. destruct (building_pinv _ st1 W' (p_vm st') t' (bt_inv _ _ _ _ _ _ _ _ _ B) Bd) as ([I2 Hm2] & Ho & Hd).
  assert (Eu : p_objs st' p = activate (set_frame (set_space (p_objs st1 p) t'.1 (base + 4096)) (Trapframe (fun _ => 0) sp (entry_pc (elfhdr_at img)) 0 0) (set_name (chars "init"))) None).
  { rewrite Eo. by rewrite upd_eq. }
  split; [split; [by rewrite Ek | by rewrite Ep] |]. split.
  { intros q Hq Hu Ht. destruct (built_kept _ _ _ _ _ _ _ _ _ Hi B q Hq Hu Ht) as [Hu1 Hs1]. destruct Bd as [B1 B2 B3 B4 B5 B6].
    split; [apply B3; auto |]. apply (same_on_trans _ (kw (p_vm st1))); [done | by apply B6]. }
  cbn zeta. rewrite Eu. cbn [activate set_frame set_space u_state u_parent u_name u_sz u_frame u_context u_pid u_pagetable]. rewrite (bt_obj _ _ _ _ _ _ _ _ _ B), upd_eq.
  cbn [new_proc u_parent u_context u_pid default]. destruct (bt_pid _ _ _ _ _ _ _ _ _ B) as (Hpid & Hpb & _).
  do 6 (split; [done |]). split; [done |]. split.
  { intros E0. rewrite E0 in Hpb. pose proof (bt_low _ _ _ _ _ _ _ _ _ B) as Hlow. rewrite E0 in Hlow.
    destruct (Z.eq_dec pid 0) as [-> | ?]; [by vm_compute in Hpb |]. destruct (Z.eq_dec pid 1) as [-> | ?]; [done |].
    specialize (Hlow 1 ltac:(lia)). by vm_compute in Hlow. }
  split; [by split |]. split; [| by split].
  intros q Hq Hu. destruct Bd as [B1 B2 B3 B4 B5 B6]. destruct (proj2 (proj2 B2) q Hq) as [Hpg _].
  apply (B4 q); [by left | exact (built_used _ _ _ _ _ _ _ _ _ q Hi B Hpg Hu)].
Qed.

(** ** Witnesses *)

(** The sixteen pages of [pool] with the objects handed out beside them. *)
Definition opool : Type := list Z * list Z.

#[export] Instance opool_alloc : PageAlloc opool := {|
  pa_alloc := fun a => '(l, r) ← pa_alloc a.1; Ret ((l, a.2), r);
  pa_free := fun a p => l ← pa_free a.1 p; Ret (l, a.2)
|}.

#[export, refine] Instance opool_laws : PageAllocLaws opool := {|
  pa_ok := fun a => pa_ok a.1;
  pa_used := fun a p => pa_used a.1 p
|}.
Proof.
  - intros [a o] Hok. destruct (pa_alloc_law a Hok) as (a' & r & E & H). cbn. exists (a', o), r. cbn in E. rewrite E. by split.
  - intros [a o] p Hok Hp Hu. destruct (pa_free_law a p Hok Hp Hu) as (a' & E & H). exists (a', o). split; [| done].
    cbn [pa_free opool_alloc fst snd]. by rewrite E.
Defined.

Definition next_obj (l : list Z) : Z := 1 + foldr Z.max 0 l.

#[export] Instance opool_objs : ObjAlloc opool := {|
  oa_alloc := fun a => Ret ((a.1, next_obj a.2 :: a.2), Some (next_obj a.2));
  oa_free := fun a p => Ret (a.1, without p a.2)
|}.

Lemma next_obj_new l : next_obj l <> 0 /\ next_obj l ∉ l.
Proof.
  assert (H : 0 <= foldr Z.max 0 l /\ forall x, x ∈ l -> x <= foldr Z.max 0 l).
  { induction l as [| y l [IH1 IH2]]; cbn; [split; [lia | by intros x ?%elem_of_nil] |]. split; [lia |].
    intros x [-> | Hx]%elem_of_cons; [lia |]. specialize (IH2 x Hx). lia. }
  unfold next_obj. destruct H as [H1 H2]. split; [lia |]. intros Hx. specialize (H2 _ Hx). lia.
Qed.

#[export, refine] Instance opool_obj_laws : ObjAllocLaws opool := {|
  oa_live := fun a o => o ∈ a.2;
  oa_room := fun _ => True
|}.
Proof.
  - intros [a o] a' r _. cbn. destruct (filter _ pool); by intros [= <- <-].
  - intros [a o] a' p _ _ Hu. cbn in *. rewrite bool_decide_eq_true_2 by done. by intros [= <-].
  - intros [a o] _. destruct (next_obj_new o). eexists _, _. split; [reflexivity |]. split; [done |]. split; [done |]. split; [done |]. split; [done |].
    intros x. cbn. by rewrite elem_of_cons.
  - intros [a o] p _ _. left. eexists. split; [reflexivity |]. split; [done |]. split; [done |]. intros x. exact (elem_of_without p x o).
Defined.

(** A process at 64 with an empty space; its root table is page 0. *)
Definition demo_proc : uproc :=
  UProc 5 9 1 RUNNING 0 0 0 0 0 0 0 (fun _ => 0) 0 (Trapframe (fun i => i) 0 0 0 0) (page_no 0) 0 (set_name (chars "sh")).

Definition demo_pst : pst opool :=
  Pst (kstack_init (Vm (fun _ => 0) ([page_no 0], [64]))) (bit_set (fun _ => 0) 0) (fun _ => demo_proc).

Lemma demo_pinv : pinv (fun x => x = 64) demo_pst (fun _ => None).
Proof.
  split.
  - apply (@kinv_init opool _ (at_live (fun x => x = 64))). split; [exact I |]. intros o. cbn. apply list_elem_of_singleton.
  - apply bit_set_wf; [lia |]. by intros i.
Qed.

Lemma demo_own : space demo_pst (fun _ => None) (Some (empty_table (page_no 0))) (page_no 0).
Proof.
  split; [reflexivity |]. split; [| by intros q _ [x Hx]].
  apply (own_empty (fun _ => 0) [page_no 0] 0); [lia | left | done].
Qed.

Lemma ret_snd {A B} (m : res (A * B)) x : match m with Ret (_, y) => y = x | Panic _ => False end -> exists a, m = Ret (a, x).
Proof. destruct m as [[a b] |]; [intros ->; by exists a | done]. Qed.

Lemma fork_copies_or_rolls_back_witness : exists st' np t', fork 7 demo_pst 64 = Ret (st', 1) /\ own (p_vm st') 4 t' /\
  u_pagetable (p_objs st' np) = t'.1 /\ u_frame (p_objs st' np) = Trapframe ((fun i => i).[0 <- 0]) 0 0 0 0.
Proof.
  destruct (ret_snd (fork 7 demo_pst 64) 1) as [st' E]; [vm_compute; reflexivity |].
  destruct (fork_copies_or_rolls_back 7 demo_pst (fun _ => None) (fun x => x = 64) 64 (empty_table (page_no 0)) demo_pinv demo_own eq_refl)
    as [(st1 & W1 & r & E1 & _ & _ & _ & Hr) | (np & a & s & _ & _ & Hn & _)].
  - cbn. lia.
  - intros x _. reflexivity.
  - rewrite E in E1. injection E1 as <- <-. destruct Hr as [[Hr _] | (np & slot & t' & F)]; [discriminate |].
    exists st', np, t'. split; [exact E |]. destruct (fk_space _ _ _ _ _ _ _ _ _ _ _ _ F) as (Hpt & Ho & _). split; [exact Ho |]. split; [exact Hpt |].
    destruct (fk_proc _ _ _ _ _ _ _ _ _ _ _ _ F) as (_ & _ & _ & _ & _ & _ & _ & _ & _ & Hf & _). exact Hf.
  - destruct (Hn I).
Defined.

Lemma fork_exit_wait_roundtrip_witness : exists st' np st2 st3, fork 7 demo_pst 64 = Ret (st', 1) /\ exit_space st' np = Ret st2 /\ freeproc st2 np = Ret st3 /\
  p_pids st3 = p_pids demo_pst.
Proof.
  destruct (ret_snd (fork 7 demo_pst 64) 1) as [st' E]; [vm_compute; reflexivity |].
  destruct (fork_exit_wait_roundtrip 7 demo_pst (fun _ => None) (fun x => x = 64) 64 (empty_table (page_no 0)) st' 1 demo_pinv demo_own eq_refl)
    as (np & st2 & _ & E2 & [(st3 & W3 & E3 & U) | (a & s & _ & _ & Hn & _)]).
  - cbn. lia.
  - intros x _. reflexivity.
  - exact E.
  - discriminate.
  - exists st', np, st2, st3. split; [exact E |]. split; [exact E2 |]. split; [exact E3 |]. exact (un_pids _ _ _ _ _ U).
  - destruct (Hn I).
Defined.

Lemma userinit_builds_init_witness : exists st' p t', userinit 7 demo_pst demo_img 122 = Ret (st', p) /\ u_pid (p_objs st' p) = 1 /\
  ubyte (kw (p_vm st')) t' 0x1001 = Some 18.
Proof.
  destruct (userinit_builds_init 7 demo_pst (fun _ => None) (fun x => x = 64) demo_img 122 demo_pinv demo_img_ok)
    as [(s & E & _) | (st' & W' & p & t' & sp & E & _ & _ & Hu)].
  - vm_compute. split; [| exact I]. intros ph x Hp. apply elem_of_nil in Hp. destruct Hp.
  - vm_compute. congruence.
  - assert (Hc : (match userinit 7 demo_pst demo_img 122 with Ret _ => true | Panic _ => false end) = true) by (vm_compute; reflexivity).
    rewrite E in Hc. discriminate.
  - cbn zeta in Hu. destruct Hu as (_ & _ & _ & _ & _ & _ & _ & Hpid & _ & _ & _ & Hview).
    exists st', p, t'. split; [exact E |]. split; [exact (Hpid eq_refl) |]. rewrite Hview; [vm_compute; reflexivity | lia | left; vm_compute; reflexivity].
Defined.
