(* ===== verification/ProcLock.v ===== *)
(** * Processes and scheduling: locks and transitions

    Which locks a CPU holds is a function of its point ([holds]); with that as invariant,
    no lock assertion and no assertion of [sched] can fail, and every step is one of the
    transitions [tr], in which the locks appear only as "nobody holds it". The invariants
    of the following files are proved over [tr]. *)

From S2P Require Import Prelude Bits Mmu Proc.

(** ** Specification: the locks held at a point *)

Definition wholds (w : wkont) : list lock :=
  match w with WRun ls => map LOther ls | WIdle | WDispatch _ => [] | WExit1 _ | WExit2 _ => [LWait] end.

Definition self_lock (cp : option Z) : list lock := match cp with Some p => [LProc p] | None => [] end.

Definition holds (cp : option Z) (x : point) : list lock :=
  match x with
  | PSched | PDispatch _ | PRelock _ _ | PFork1 _ | PKthread _ => []
  | PSwitched p => [LProc p]
  | PRun ls => map LOther ls
  | PResume _ | PSleep2 _ _ _ => self_lock cp
  | PSleep1 _ lk _ => self_lock cp ++ [lk]
  | PWake _ _ w => LPtable :: wholds w
  | PScan _ _ _ => [LPtable; LWait]
  | PExit1 _ | PExit2 _ | PExit3 _ | PExit4 _ | PWait1 _ | PWait2 _ _ | PWait3 _ | PReap _ | PFork2 _ => [LWait]
  end.

Definition held (k : kern) (c : Z) : list lock := holds (cproc k c) (pc k c).

(** Nobody holds [l]. *)
Definition unheld (k : kern) (l : lock) : Prop := forall c, l ∉ held k c.

(** [sleep] continues under the lock it was called with. *)
Definition skont_ok (lk : lock) (s : skont) : Prop :=
  match s with SUser => exists l, lk = LOther l | SWait _ => lk = LWait end.

Definition resume_ok (r : resume) : Prop := match r with RSleep lk s => skont_ok lk s | _ => True end.

(** A point fits the CPU's current process [cp]. *)
Definition point_ok (cp : option Z) (x : point) : Prop :=
  match x with
  | PSched | PDispatch _ | PWake _ _ WIdle | PWake _ _ (WDispatch _) => cp = None
  | PSwitched p => cp = Some p
  | PResume r => cp <> None /\ resume_ok r
  | PSleep1 ch lk s | PSleep2 ch lk s => cp <> None /\ skont_ok lk s /\ (forall xs, s = SWait xs -> cp = Some ch)
  | PRelock lk s => cp <> None /\ skont_ok lk s
  | _ => cp <> None
  end.

(** The lock state against lists [H] of what each CPU holds. *)
Record locks_ok (k : kern) (H : Z -> list lock) : Prop := {
  lh_owner : forall l c, owner k l = Some c <-> l ∈ H c;
  lh_nodup : forall c, NoDup (H c);
  lh_noff : forall c, noff (ints k) c = Z.of_nat (length (H c));
  lh_irq : forall c, H c <> [] -> irq (ints k) c = false
}.

Record lockinv (k : kern) : Prop := {
  li_locks : locks_ok k (held k);
  li_point : forall c, point_ok (cproc k c) (pc k c);
  li_saved : forall p, resume_ok (saved k p)
}.

(** ** Specification: transitions

    A state up to locks, interrupts and returned values. *)
Definition relocks (k : kern) (o : lock -> option Z) (n : irqs) (r : Z -> Z) : kern :=
  Kern (procs k) (allproc k) (pidhash k) (runq k) (pidmap k) (initproc k) (objs k) o n (cproc k) (pc k) (saved k) r.

(** CPU [c], running [cproc k c], goes from one point to another and nothing else changes. *)
Inductive hop (k : kern) (c : Z) : point -> point -> Prop :=
| hop_run ls ls' : hop k c (PRun ls) (PRun ls')
| hop_resumed r : r = RFork \/ r = RYield -> hop k c (PResume r) (PRun [])
| hop_sleep_user ls ch l : hop k c (PRun ls) (PSleep1 ch (LOther l) SUser)
| hop_sleep_release ch lk s : hop k c (PSleep1 ch lk s) (PSleep2 ch lk s)
| hop_relock_user lk ls : hop k c (PRelock lk SUser) (PRun ls)
| hop_relock_wait lk xs : unheld k LWait -> hop k c (PRelock lk (SWait xs)) (PWait1 xs)
| hop_wakeup ls ch : hop k c (PRun ls) (PWake ch (allproc k) (WRun ls))
| hop_wakeup_idle ch : hop k c PSched (PWake ch (allproc k) WIdle)
| hop_wakeup_dispatch p ch : hop k c (PDispatch p) (PWake ch (allproc k) (WDispatch p))
| hop_visit_self ch p todo w : cproc k c = Some p -> hop k c (PWake ch (p :: todo) w) (PWake ch todo w)
| hop_visit ch p todo w : unheld k (LProc p) -> ~ (state (procs k p) = SLEEPING /\ chan (procs k p) = ch) ->
    hop k c (PWake ch (p :: todo) w) (PWake ch todo w)
| hop_woke ch ls : hop k c (PWake ch [] (WRun ls)) (PRun ls)
| hop_woke_idle ch : hop k c (PWake ch [] WIdle) PSched
| hop_woke_dispatch ch p : hop k c (PWake ch [] (WDispatch p)) (PDispatch p)
| hop_woke_exit1 ch st : hop k c (PWake ch [] (WExit1 st)) (PExit3 st)
| hop_woke_exit2 ch st : hop k c (PWake ch [] (WExit2 st)) (PExit4 st)
| hop_exit ls st : cproc k c <> Some (initproc k) -> unheld k LWait -> hop k c (PRun ls) (PExit1 st)
| hop_exit_init st : hop k c (PExit2 st) (PWake (initproc k) (allproc k) (WExit1 st))
| hop_exit_parent p q st : cproc k c = Some p -> parent (procs k p) = Some q -> q <> initproc k ->
    hop k c (PExit3 st) (PWake q (allproc k) (WExit2 st))
| hop_exit_noparent p st : cproc k c = Some p -> parent (procs k p) = None \/ parent (procs k p) = Some (initproc k) ->
    hop k c (PExit3 st) (PExit4 st)
| hop_wait ls xs : unheld k LWait -> hop k c (PRun ls) (PWait1 xs)
| hop_scan_start xs : hop k c (PWait1 xs) (PScan (allproc k) false xs)
| hop_scan_other p np todo hk xs : cproc k c = Some p -> parent (procs k np) <> Some p ->
    hop k c (PScan (np :: todo) hk xs) (PScan todo hk xs)
| hop_scan_alive np todo hk xs : unheld k (LProc np) -> state (procs k np) <> ZOMBIE ->
    hop k c (PScan (np :: todo) hk xs) (PScan todo true xs)
| hop_scan_fail np todo hk xs : hop k c (PScan (np :: todo) hk xs) (PRun [])
| hop_scan_end hk xs : hop k c (PScan [] hk xs) (PWait2 hk xs)
| hop_wait_fail hk xs : hop k c (PWait2 hk xs) (PRun [])
| hop_wait_alive xs : hop k c (PWait2 true xs) (PWait3 xs)
| hop_wait_sleep p xs : cproc k c = Some p -> hop k c (PWait3 xs) (PSleep1 p LWait (SWait xs))
| hop_fork np : unheld k LWait -> hop k c (PFork1 np) (PFork2 np).

(** A sleeping process made runnable. *)
Definition woken (k : kern) (p : Z) : kern := runq_enqueue (set_proc k p (set_state (procs k p) RUNNABLE)) p.

Inductive tr (k : kern) (c : Z) : kern -> Prop :=
| tr_hop x y : pc k c = x -> hop k c x y -> tr k c (goto k c y)
| tr_dequeue p q : pc k c = PSched -> runq k = p :: q -> tr k c (goto (set_runq k q) c (PDispatch p))
| tr_idle : pc k c = PSched -> tr k c k
| tr_dispatch p : pc k c = PDispatch p -> unheld k (LProc p) -> state (procs k p) = RUNNABLE ->
    tr k c (goto (set_cproc (set_proc k p (set_state (procs k p) RUNNING)) c (Some p)) c (PResume (saved k p)))
| tr_dispatch_not p : pc k c = PDispatch p -> state (procs k p) <> RUNNABLE -> tr k c (goto k c PSched)
| tr_return p : pc k c = PSwitched p ->
    tr k c (goto (let k := set_cproc k c None in
                  if decide (state (procs k p) = RUNNABLE) then runq_enqueue k p else k) c PSched)
| tr_yield p ls : pc k c = PRun ls -> cproc k c = Some p -> unheld k (LProc p) ->
    tr k c (goto (save (set_proc k p (set_state (procs k p) RUNNABLE)) p RYield) c (PSwitched p))
| tr_sleep p ch lk s : pc k c = PSleep2 ch lk s -> cproc k c = Some p ->
    tr k c (goto (save (set_proc k p (set_state (set_chan (procs k p) ch) SLEEPING)) p (RSleep lk s)) c (PSwitched p))
| tr_unsleep p lk s : pc k c = PResume (RSleep lk s) -> cproc k c = Some p ->
    tr k c (goto (set_proc k p (set_chan (procs k p) 0)) c (PRelock lk s))
| tr_wake p ch todo w : pc k c = PWake ch (p :: todo) w -> cproc k c <> Some p -> unheld k (LProc p) ->
    state (procs k p) = SLEEPING -> chan (procs k p) = ch ->
    tr k c (goto (woken k p) c (PWake ch todo w))
| tr_reparent p st : pc k c = PExit1 st -> cproc k c = Some p -> unheld k LPtable ->
    tr k c (goto (reparent k p) c (PExit2 st))
| tr_zombie p st : pc k c = PExit4 st -> cproc k c = Some p -> unheld k (LProc p) ->
    tr k c (goto (save (set_proc k p (set_state (set_xstate (procs k p) st) ZOMBIE)) p RExit) c (PSwitched p))
| tr_unlink p np todo hk xs : pc k c = PScan (np :: todo) hk xs -> cproc k c = Some p -> unheld k (LProc np) ->
    parent (procs k np) = Some p -> state (procs k np) = ZOMBIE ->
    tr k c (goto (set_tables k (without np (allproc k))
                    (let h := pidhash k in let b := bucket (pid (procs k np)) in h.[b <- without np (h b)])) c (PReap np))
| tr_free np : pc k c = PReap np \/ pc k c = PFork1 np -> tr k c (goto (freeproc k np) c (PRun []))
| tr_kill p ls : pc k c = PRun ls -> unheld k LPtable -> unheld k (LProc p) ->
    p ∈ pidhash k (bucket (pid (procs k p))) ->
    tr k c (let k := set_proc k p (set_killed (procs k p) 1) in
            if decide (state (procs k p) = SLEEPING) then woken k p else k)
| tr_alloc np k1 x : pc k c = PRun [] -> np ∉ objs k -> allocproc k (Some np) = (k1, Some np) -> x = PFork1 np \/ x = PKthread np ->
    tr k c (goto k1 c x)
| tr_publish p np par : (pc k c = PFork2 np /\ par = Some p \/ pc k c = PKthread np /\ par = None) -> cproc k c = Some p ->
    unheld k LPtable -> unheld k (LProc np) ->
    tr k c (let h := pidhash k in let b := bucket (pid (procs k np)) in
            let q := match par with Some q => Some q | None => parent (procs k np) end in
            let k := set_tables k (np :: allproc k) (h.[b <- np :: h b]) in
            let k := set_proc k np (set_state (set_parent (procs k np) q) RUNNABLE) in
            goto (runq_enqueue k np) c (PRun []))
| tr_locks k' o n r : tr k c k' -> tr k c (relocks k' o n r).

Lemma kern_eq k k' : procs k = procs k' -> allproc k = allproc k' -> pidhash k = pidhash k' -> runq k = runq k' -> pidmap k = pidmap k' ->
  initproc k = initproc k' -> objs k = objs k' -> owner k = owner k' -> ints k = ints k' -> cproc k = cproc k' -> pc k = pc k' ->
  saved k = saved k' -> rets k = rets k' -> k = k'.
Proof. destruct k, k'. cbn. intros. by subst. Qed.

(** ** Lemmas: lock operations *)

Definition wp (o : outcome kern) (P : kern -> Prop) : Prop :=
  match o with Blocked => True | Go k => P k | Stop _ => False end.

Lemma wp_bind o f P : wp o (fun k => wp (f k) P) -> wp (mbind f o) P.
Proof. by destruct o. Qed.

Lemma wp_check b s (f : unit -> outcome kern) P : b = true -> wp (f tt) P -> wp (mbind f (check b s)) P.
Proof. by intros ->. Qed.

Lemma locks_perm k H H' : locks_ok k H -> (forall c, H c ≡ₚ H' c) -> locks_ok k H'.
Proof.
  intros [O N F Q] E. split; intros; [rewrite <- E; auto | rewrite <- E; auto | rewrite <- E; auto |]. apply Q. intros E'. specialize (E c). rewrite E' in E. by apply Permutation_nil_l in E.
Qed.

Lemma locks_ext k k' H : locks_ok k H -> owner k' = owner k -> ints k' = ints k -> locks_ok k' H.
Proof. intros [O N F Q] E1 E2. split; [by rewrite E1 | done | by rewrite E2 | by rewrite E2]. Qed.

(** The saved [intena]s have nothing to do with who holds what. *)
Lemma locks_ints k i H : locks_ok k H -> noff i = noff (ints k) -> irq i = irq (ints k) -> locks_ok (set_ints k i) H.
Proof. intros [O N F Q] E1 E2. split; [done | done | cbn; by rewrite E1 | cbn; by rewrite E2]. Qed.

(** Masking and unmasking by hand, with no lock held. *)
Lemma locks_irq k H c b : locks_ok k H -> H c = [] -> locks_ok (set_ints k (set_irq (ints k) c b)) H.
Proof.
  intros [O N F Q] E. split; [done | done | done |]. intros c' Hc. cbn. unfold upd. destruct (Z.eqb_spec c' c) as [-> |]; [done | auto].
Qed.

Lemma push_off_eqs i c : noff (push_off i c) = (noff i).[c <- noff i c + 1] /\ irq (push_off i c) = (irq i).[c <- false].
Proof. unfold push_off. cbn. by destruct (noff i c =? 0). Qed.

Lemma locks_acquire k H c l : locks_ok k H -> owner k l = None ->
  locks_ok (set_owner k l (Some c) (push_off (ints k) c)) (H.[c <- l :: H c]).
Proof.
  intros [O N F Q] E. assert (Hno : forall c', l ∉ H c') by (intros c' Hc; apply O in Hc; congruence). destruct (push_off_eqs (ints k) c) as [En Ei]. split.
  - intros l' c'. cbn [owner set_owner]. unfold upd. destruct (decide (l' = l)) as [-> | Hl].
    + destruct (Z.eqb_spec c' c) as [-> | Hc]; [split; [left | done] |]. split; [congruence |]. by intros ?%Hno.
    + rewrite O. destruct (Z.eqb_spec c' c) as [-> | Hc]; [| done]. rewrite elem_of_cons. tauto.
  - intros c'. unfold upd. destruct (Z.eqb_spec c' c) as [-> | Hc]; [constructor; auto | auto].
  - intros c'. cbn [ints set_owner]. rewrite En. unfold upd. destruct (Z.eqb_spec c' c) as [-> | Hc]; [| auto]. rewrite F. cbn [length]. lia.
  - intros c'. cbn [ints set_owner]. rewrite Ei. unfold upd. destruct (Z.eqb_spec c' c) as [-> | Hc]; [done | auto].
Qed.

(** [pop_off] passes its assertions while a lock is held, and keeps the mask while another is. *)
Lemma pop_off_ok k H c l r : locks_ok k H -> H c ≡ₚ l :: r -> exists i, pop_off (ints k) c = Go i /\
  noff i = (noff (ints k)).[c <- noff (ints k) c - 1] /\ (forall c', c' <> c -> irq i c' = irq (ints k) c') /\ (r <> [] -> irq i c = false).
Proof.
  intros [O N F Q] E. assert (Hi : irq (ints k) c = false) by (apply Q; intros E'; rewrite E' in E; by apply Permutation_nil_l in E).
  assert (Hn : noff (ints k) c = 1 + Z.of_nat (length r)) by (rewrite F, E; cbn [length]; lia).
  unfold pop_off. rewrite Hi. cbn [negb check mbind outcome_bind]. rewrite (proj2 (Z.leb_le _ _)) by lia. cbn [check mbind outcome_bind noff intena].
  eexists. split; [reflexivity |]. rewrite upd_eq. destruct (_ && _) eqn:Eb; cbn; split_and!; try done.
  - intros c' Hc. by rewrite upd_ne.
  - intros Hr. apply andb_true_iff in Eb as [Eb%Z.eqb_eq _]. destruct r; [done |]. cbn [length] in Hn. lia.
Qed.

Lemma locks_release k H c l r : locks_ok k H -> H c ≡ₚ l :: r ->
  owner k l = Some c /\ exists i, pop_off (ints k) c = Go i /\ locks_ok (set_owner k l None i) (H.[c <- r]).
Proof.
  intros HL E. destruct (pop_off_ok k H c l r HL E) as (i & Ei & En & Eo & Er). destruct HL as [O N F Q].
  assert (Hin : l ∈ H c) by (rewrite E; left). assert (Ho := proj2 (O l c) Hin). split; [done |]. exists i. split; [done |].
  pose proof (N c) as Nc. rewrite E in Nc. apply NoDup_cons in Nc as [Hr Nr].
  split.
  - intros l' c'. cbn [owner set_owner]. unfold upd. destruct (decide (l' = l)) as [-> | Hl].
    + split; [done |]. destruct (Z.eqb_spec c' c) as [-> | Hc]; [done |]. intros Hx. apply O in Hx. congruence.
    + rewrite O. destruct (Z.eqb_spec c' c) as [-> | Hc]; [| done]. rewrite E, elem_of_cons. tauto.
  - intros c'. unfold upd. destruct (Z.eqb_spec c' c) as [-> | Hc]; auto.
  - intros c'. cbn [ints set_owner]. rewrite En. unfold upd. destruct (Z.eqb_spec c' c) as [-> | Hc]; [| auto]. rewrite F, E. cbn [length]. lia.
  - intros c'. cbn [ints set_owner]. unfold upd. destruct (Z.eqb_spec c' c) as [-> | Hc]; [done |]. rewrite Eo by done. auto.
Qed.

Lemma wp_acquire k H c l P : locks_ok k H -> l ∉ H c ->
  (forall o n, let k1 := relocks k o n (rets k) in
   (forall c', l ∉ H c') -> locks_ok k1 (H.[c <- l :: H c]) -> P k1) ->
  wp (acquire_spinlock k c l) P.
Proof.
  intros HL Hn HP. unfold acquire_spinlock. destruct (owner k l) as [c' |] eqn:E.
  - destruct (Z.eqb_spec c' c) as [-> |]; [| done]. apply HL in E. done.
  - apply (HP (owner (set_owner k l (Some c) (push_off (ints k) c))) (push_off (ints k) c)).
    + intros c' Hc; apply HL in Hc; congruence.
    + by apply (locks_acquire k H c l).
Qed.

Lemma wp_release k H c l r P : locks_ok k H -> H c ≡ₚ l :: r ->
  (forall o n, let k1 := relocks k o n (rets k) in locks_ok k1 (H.[c <- r]) -> P k1) ->
  wp (release_spinlock k c l) P.
Proof.
  intros HL E HP. destruct (locks_release k H c l r HL E) as (Ho & i & Ei & Hk). unfold release_spinlock.
  rewrite bool_decide_true, Ei by done. by apply (HP (owner (set_owner k l None i)) i).
Qed.

Definition step_ok (k : kern) (c : Z) (k' : kern) : Prop := tr k c k' /\ lockinv k'.

(** The end of a step: in state [k1] CPU [c] holds [l]; [k2] has the same locks and
    differs from [k] in the point and process of [c] only, as far as locks go. *)
Lemma step_done k c k1 k2 l : lockinv k -> locks_ok k1 ((held k).[c <- l]) ->
  owner k2 = owner k1 -> ints k2 = ints k1 ->
  (forall c', c' <> c -> pc k2 c' = pc k c' /\ cproc k2 c' = cproc k c') ->
  l ≡ₚ held k2 c -> point_ok (cproc k2 c) (pc k2 c) -> (forall p, resume_ok (saved k2 p)) -> lockinv k2.
Proof.
  intros [L1 L2 L3] HL Eo En Hc Hl Hp Hs. split; [| | done].
  - apply (locks_perm _ ((held k).[c <- l])).
    + by apply (locks_ext k1).
    + intros c'. unfold upd. destruct (Z.eqb_spec c' c) as [-> | Hn]; [done |]. unfold held. by destruct (Hc c' Hn) as [-> ->].
  - intros c'. destruct (decide (c' = c)) as [-> | Hn]; [done |]. destruct (Hc c' Hn) as [-> ->]. apply L2.
Qed.

Lemma tr_eq k c k1 k' : tr k c k1 -> k' = relocks k1 (owner k') (ints k') (rets k') -> tr k c k'.
Proof. intros H ->. by apply tr_locks. Qed.

Lemma unheld_upd k c l r : (forall c', l ∉ ((held k).[c <- r]) c') -> l ∉ held k c -> unheld k l.
Proof.
  intros H Hc c'. destruct (decide (c' = c)) as [-> | Hn]; [done |]. specialize (H c'). by rewrite upd_ne in H.
Qed.

(** What CPU [c] holds, after some lock operations of this step. *)
Ltac held_norm Hh HL := rewrite ?upd_upd, ?upd_eq, ?Hh in HL; cbn [app] in HL.
Ltac not_in := repeat (apply not_elem_of_cons; split; [done |]); apply not_elem_of_nil.
Ltac held_solve Hh := rewrite ?upd_eq, ?Hh; cbn [app]; first [reflexivity | not_in].

Ltac wp_acq Hh HL Hf :=
  try apply wp_bind; eapply wp_acquire; [exact HL | held_solve Hh | let o := fresh "o" in let n := fresh "n" in intros o n; cbn zeta; clear HL; intros Hf HL; held_norm Hh HL].
Ltac wp_rel Hh HL :=
  try apply wp_bind; eapply wp_release; [exact HL | held_solve Hh | let o := fresh "o" in let n := fresh "n" in intros o n; cbn zeta; clear HL; intros HL; held_norm Hh HL].

(** Closing a step: the transition [r], then the locks. *)
Ltac step_by r HI HL :=
  split; [eapply tr_eq; [r | reflexivity] |
    eapply (step_done _ _ _ _ _ HI HL); [reflexivity | reflexivity |
      let c' := fresh "c'" in let Hc := fresh in intros c' Hc; cbn; rewrite ?upd_ne by done; done | | |]].

Lemma allocproc_cases k np : bitstr_wf (pidmap k) ->
  allocproc k np = (k, None) \/ exists q k1, np = Some q /\ allocproc k np = (k1, Some q).
Proof.
  intros Hwf. unfold allocproc, pid_alloc. destruct (Z.geb_spec (bit_ffc (pidmap k) KSTACK_NSLOTS) 0).
  - destruct (Z.ltb_spec (bit_ffc (pidmap k) KSTACK_NSLOTS) 0); [lia |]. destruct np as [q |]; [by eauto |]. left. f_equal.
    destruct (bit_ffc_cases (pidmap k) KSTACK_NSLOTS Hwf ltac:(done)) as [[E _] | (Hr & Hb & _)]; [lia |].
    unfold pid_free. cbn. rewrite bit_clear_set by (done || lia). by destruct k.
  - destruct (Z.ltb_spec (bit_ffc (pidmap k) KSTACK_NSLOTS) 0); [by left | lia].
Qed.

Section steps.
Context (k : kern) (c : Z) (HI : lockinv k).

(** Taking and releasing a lock with interrupts on leaves them on. *)
Lemma push_pop i d : noff i d = 0 -> irq i d = true -> exists j, pop_off (push_off i d) d = Go j /\ (forall d', noff j d' = noff i d') /\ (forall d', irq j d' = irq i d') /\ irq j d = true.
Proof.
  intros Hn Hi. destruct (push_off_eqs i d) as [E1 E2]. assert (E3 : intena (push_off i d) d = true) by (unfold push_off; cbn; rewrite Hn; cbn; by rewrite upd_eq).
  unfold pop_off. rewrite E2, upd_eq, E1, upd_eq, Hn. change (1 <=? 0 + 1) with true. cbn [negb check mbind outcome_bind noff intena]. rewrite upd_eq, E3.
  change ((0 + 1 - 1 =? 0) && true) with true. cbv iota. eexists. split; [reflexivity |]. cbn [noff irq set_irq].
  split_and!; [intros d' | intros d' | by rewrite upd_eq]; unfold upd; (destruct (Z.eqb_spec d' d) as [-> |]; by rewrite ?Hn, ?Hi).
Qed.

Lemma scheduler_pick_ok : pc k c = PSched -> wp (scheduler_pick k c) (step_ok k c).
Proof.
  intros Hpc. pose proof HI as [L1 L2 L3]. assert (Hh : held k c = []) by (unfold held; by rewrite Hpc).
  unfold scheduler_pick. destruct (push_pop (set_irq (ints k) c true) c) as (j & Ej & J1 & J2 & J3); [cbn; rewrite (lh_noff _ _ L1), Hh; done | cbn; by rewrite upd_eq |].
  cbn [ints set_ints]. rewrite Ej. cbn [mbind outcome_bind].
  assert (HL : locks_ok (set_ints k j) (held k)).
  { pose proof (locks_irq k (held k) c true L1 Hh) as [O N F Q]. split; [done | done | intros c'; cbn; rewrite J1; apply F | intros c' Hc; cbn; rewrite J2; by apply Q]. }
  unfold runq_dequeue. cbn [runq set_ints]. destruct (runq k) as [| p q] eqn:Eq; cbn [wp].
  - split; [eapply tr_eq; [by apply tr_idle | done] |].
    apply (step_done k c (set_ints k j) _ (held k c) HI); [by rewrite upd_same | done | done | done | done | apply L2 | done].
  - cbn [ints set_runq set_ints]. rewrite J3. cbn [check mbind outcome_bind wp]. split; [eapply tr_eq; [by apply tr_dequeue | done] |].
    apply (step_done k c (set_ints k j) _ (held k c) HI); [by rewrite upd_same | done | done | | | | done].
    + intros c' Hc. cbn. by rewrite upd_ne.
    + unfold held. cbn. by rewrite upd_eq, Hpc.
    + cbn. rewrite upd_eq. specialize (L2 c). by rewrite Hpc in L2.
Qed.

Lemma scheduler_dispatch_ok p : pc k c = PDispatch p -> wp (scheduler_dispatch k c p) (step_ok k c).
Proof.
  intros Hpc. pose proof HI as [HL L2 L3]. pose proof (L2 c) as Hcp. rewrite Hpc in Hcp. cbn in Hcp.
  assert (Hh : held k c = []) by (unfold held; by rewrite Hpc). unfold scheduler_dispatch.
  wp_acq Hh HL Hf. cbn [procs relocks]. destruct (decide _) as [Hs | Hs].
  - wp_rel Hh HL. cbn [wp]. step_by ltac:(by eapply tr_dispatch_not) HI HL.
    + unfold held. cbn. by rewrite upd_eq.
    + cbn. by rewrite upd_eq.
    + done.
  - apply dec_stable in Hs. cbn [wp]. step_by ltac:(by eapply tr_dispatch) HI HL.
    + unfold held. cbn. by rewrite !upd_eq.
    + cbn. rewrite !upd_eq. cbn. split; [done | apply L3].
    + done.
Qed.

Lemma scheduler_return_ok p : pc k c = PSwitched p -> wp (scheduler_return k c p) (step_ok k c).
Proof.
  intros Hpc. pose proof HI as [HL L2 L3]. assert (Hh : held k c = [LProc p]) by (unfold held; by rewrite Hpc).
  unfold scheduler_return. set (k1 := if decide _ then _ else _).
  assert (HL1 : locks_ok k1 (held k)) by (unfold k1; destruct (decide _); by apply (locks_ext k)). clear HL. rename HL1 into HL.
  wp_rel Hh HL. cbn [wp]. split.
  - eapply tr_eq; [by apply tr_return |]. subst k1. cbn zeta. by destruct (decide _).
  - eapply (step_done _ _ _ _ _ HI HL); [done | done | | | |].
    + intros c' Hc. subst k1. destruct (decide _); cbn; by rewrite !upd_ne.
    + unfold held. cbn. by rewrite upd_eq.
    + cbn. rewrite upd_eq. subst k1. destruct (decide _); cbn; by rewrite upd_eq.
    + subst k1. destruct (decide _); done.
Qed.

(** The assertions of [sched] hold when the process's own lock is the only one held. *)
Lemma sched_ok k1 p r : locks_ok k1 ((held k).[c <- [LProc p]]) -> state (procs k1 p) <> RUNNING -> resume_ok r ->
  (forall c', c' <> c -> pc k1 c' = pc k c' /\ cproc k1 c' = cproc k c') -> cproc k1 c = Some p -> (forall q, resume_ok (saved k1 q)) ->
  tr k c (goto (save k1 p r) c (PSwitched p)) -> wp (sched k1 c p r) (step_ok k c).
Proof.
  intros HL Hs Hr Hc Hp Hsv Ht. unfold sched.
  apply wp_check; [apply bool_decide_eq_true, (lh_owner _ _ HL); rewrite upd_eq; left |].
  apply wp_check; [rewrite (lh_noff _ _ HL), upd_eq; done |]. apply wp_check; [by apply bool_decide_eq_true |].
  apply wp_check; [rewrite (lh_irq _ _ HL); [done | by rewrite upd_eq] |]. cbn [wp]. split; [eapply tr_eq; [exact Ht | done] |].
  pose proof (locks_ints k1 (set_sintena (ints k1) p (intena (ints k1) c)) _ HL eq_refl eq_refl) as HL1. eapply (step_done _ _ _ _ _ HI HL1); [done | done | | | |].
  - intros c' Hn. cbn. rewrite upd_ne by done. by apply Hc.
  - unfold held. cbn. by rewrite upd_eq.
  - cbn. by rewrite upd_eq.
  - intros q. cbn. unfold upd. destruct (q =? p); auto.
Qed.


Lemma wakeup_enter_ok ch w : held k c = wholds w -> hop k c (pc k c) (PWake ch (allproc k) w) -> point_ok (cproc k c) (PWake ch (allproc k) w) ->
  wp (wakeup_enter k c ch w) (step_ok k c).
Proof.
  intros Hh Ht Hok. pose proof HI as [HL L2 L3]. unfold wakeup_enter. apply wp_bind.
  eapply wp_acquire; [exact HL | |].
  - rewrite Hh. destruct w; cbn [wholds]; [| not_in ..]. intros (x & ? & _)%list_elem_of_fmap. done.
  - intros o n. cbn zeta. clear HL. intros Hf HL. cbn [wp]. step_by ltac:(by eapply tr_hop; [reflexivity | apply Ht]) HI HL; [| | done].
    + rewrite Hh. unfold held. cbn. by rewrite upd_eq.
    + cbn. by rewrite upd_eq.
Qed.

Lemma interrupt_ok ch w : held k c = [] -> wholds w = [] -> hop k c (pc k c) (PWake ch (allproc k) w) -> point_ok (cproc k c) (PWake ch (allproc k) w) ->
  wp (interrupt k c ch w) (step_ok k c).
Proof.
  intros Hh Hw Ht Hok. pose proof HI as [HL L2 L3]. unfold interrupt. destruct (irq (ints k) c); [| done].
  pose proof (locks_irq k (held k) c false HL Hh) as HL1. clear HL. rename HL1 into HL. unfold wakeup_enter. wp_acq Hh HL Hf. cbn [wp].
  step_by ltac:(by eapply tr_hop; [reflexivity | apply Ht]) HI HL; [| | done].
  - unfold held. cbn [cproc pc goto relocks]. rewrite upd_eq. cbn [holds]. by rewrite Hw.
  - cbn. by rewrite upd_eq.
Qed.

Lemma wakeup_loop_ok ch todo w : pc k c = PWake ch todo w -> wp (wakeup_loop k c ch todo w) (step_ok k c).
Proof.
  intros Hpc. pose proof HI as [HL L2 L3]. pose proof (L2 c) as Hcp. rewrite Hpc in Hcp.
  assert (Hh : held k c = LPtable :: wholds w) by (unfold held; by rewrite Hpc).
  assert (Hpt : forall todo', point_ok (cproc k c) (PWake ch todo' w)) by (by destruct w).
  unfold wakeup_loop. destruct todo as [| p todo].
  - apply wp_bind. eapply wp_release; [exact HL | by rewrite Hh |]. intros o n. cbn zeta. clear HL. intros HL. cbn [wp].
    set (k1 := match w with WIdle | WDispatch _ => _ | _ => _ end).
    assert (HL1 : locks_ok k1 ((held k).[c <- wholds w])) by (unfold k1; destruct w; [exact HL | apply locks_irq; [exact HL | by rewrite upd_eq] .. | exact HL | exact HL]).
    assert (Ek : exists i, k1 = relocks k o i (rets k)) by (unfold k1; destruct w; by eexists). destruct Ek as [i Ek].
    split; [rewrite Ek; destruct w; (eapply tr_eq; [eapply tr_hop; [exact Hpc | constructor] | done]) |].
    eapply (step_done _ _ _ _ _ HI HL1); [done | done | | | | by rewrite Ek].
    + intros c' Hc. rewrite Ek. cbn. by rewrite upd_ne.
    + unfold held. rewrite Ek. cbn. rewrite upd_eq. by destruct w.
    + rewrite Ek. cbn. rewrite upd_eq. by destruct w.
  - unfold wakeup_visit. destruct (decide _) as [Hs | Hs].
    { cbn [mbind outcome_bind wp]. split; [eapply tr_hop; [exact Hpc | by apply hop_visit_self] |].
      apply (step_done k c k _ (held k c) HI); [by rewrite upd_same | done | done | | | | done].
      - intros c' Hc. cbn. by rewrite upd_ne.
      - rewrite Hh. unfold held. cbn. by rewrite upd_eq.
      - cbn. rewrite upd_eq. apply Hpt. }
    apply wp_bind. apply wp_bind. eapply wp_acquire; [exact HL | |].
    { rewrite Hh. apply not_elem_of_cons. split; [done |]. destruct w; cbn [wholds]; [| not_in ..].
      intros (x & ? & _)%list_elem_of_fmap. done. }
    intros o n. cbn zeta. clear HL. intros Hf HL. cbn [procs relocks]. set (k1 := if decide _ then _ else _).
    assert (HL1 : locks_ok k1 ((held k).[c <- LProc p :: held k c])) by (unfold k1; destruct (decide _); by apply (locks_ext _ _ _ HL)). clear HL.
    eapply wp_release; [exact HL1 | by rewrite upd_eq |]. intros o1 n1. cbn zeta. clear HL1. intros HL. rewrite upd_upd in HL. cbn [wp].
    assert (E : pc k1 = pc k /\ cproc k1 = cproc k /\ saved k1 = saved k) by (unfold k1; by destruct (decide _)). destruct E as (E1 & E2 & E3).
    split.
    + unfold k1. destruct (decide _) as [[D1 D2] | D]; [eapply tr_eq; [by eapply tr_wake | by apply kern_eq] |].
      eapply tr_eq; [eapply tr_hop; [exact Hpc | by apply hop_visit] | by apply kern_eq].
    + eapply (step_done _ _ _ _ _ HI HL); [done | done | | | |].
      * intros c' Hc. cbn. rewrite upd_ne by done. by rewrite E1, E2.
      * rewrite Hh. unfold held. cbn. by rewrite upd_eq.
      * cbn. rewrite upd_eq, E2. apply Hpt.
      * cbn. by rewrite E3.
Qed.

Section thread.
Context (p : Z) (Hp : cproc k c = Some p).

Lemma yield_ok : pc k c = PRun [] -> wp (yield k c p) (step_ok k c).
Proof.
  intros Hpc. pose proof HI as [HL L2 L3]. assert (Hh : held k c = []) by (unfold held; by rewrite Hpc).
  unfold yield. wp_acq Hh HL Hf. apply sched_ok; [by apply (locks_ext _ _ _ HL) | cbn; by rewrite upd_eq | done | done | done | done |].
  eapply tr_eq; [by eapply tr_yield | done].
Qed.

Lemma sleep_enter_ok ch lk s : held k c = [lk] -> lk <> LProc p -> skont_ok lk s -> (forall xs, s = SWait xs -> ch = p) ->
  hop k c (pc k c) (PSleep1 ch lk s) -> wp (sleep_enter k c p ch lk s) (step_ok k c).
Proof.
  intros Hh Hn Hs Hx Ht. pose proof HI as [HL L2 L3]. unfold sleep_enter.
  wp_acq Hh HL Hf. cbn [wp]. step_by ltac:(by eapply tr_hop) HI HL.
  - unfold held. cbn. by rewrite upd_eq, Hp.
  - cbn. rewrite upd_eq. cbn. rewrite Hp. split; [done |]. split; [done |]. intros xs E. f_equal. symmetry. by apply (Hx xs).
  - done.
Qed.

Lemma sleep_release_ok ch lk s : pc k c = PSleep1 ch lk s -> wp (sleep_release k c ch lk s) (step_ok k c).
Proof.
  intros Hpc. pose proof HI as [HL L2 L3]. pose proof (L2 c) as Hx. rewrite Hpc in Hx.
  assert (Hh : held k c = [LProc p; lk]) by (unfold held; by rewrite Hpc, Hp). unfold sleep_release.
  apply wp_bind. eapply (wp_release k _ c lk [LProc p]); [exact HL | rewrite Hh; apply Permutation_swap |].
  intros ?o ?n. cbn zeta. clear HL. intros HL. cbn [wp]. step_by ltac:(eapply tr_hop; [exact Hpc | apply hop_sleep_release]) HI HL.
  - unfold held. cbn. by rewrite upd_eq, Hp.
  - cbn. by rewrite upd_eq.
  - done.
Qed.

Lemma sleep_switch_ok ch lk s : pc k c = PSleep2 ch lk s -> wp (sleep_switch k c p ch lk s) (step_ok k c).
Proof.
  intros Hpc. pose proof HI as [HL L2 L3]. pose proof (L2 c) as Hx. rewrite Hpc in Hx. destruct Hx as (_ & Hx & _).
  assert (Hh : held k c = [LProc p]) by (unfold held; by rewrite Hpc, Hp). unfold sleep_switch.
  apply sched_ok; [| cbn; by rewrite upd_eq | done | done | done | done | by eapply tr_sleep].
  rewrite <- Hh, upd_same. by apply (locks_ext k).
Qed.

Lemma resumed_ok r : pc k c = PResume r -> r <> RExit -> wp (resumed k c p r) (step_ok k c).
Proof.
  intros Hpc Hr. pose proof HI as [HL L2 L3]. pose proof (L2 c) as Hx. rewrite Hpc in Hx. destruct Hx as [_ Hx].
  assert (Hh : held k c = [LProc p]) by (unfold held; by rewrite Hpc, Hp). unfold resumed. destruct r as [| | lk s |]; [| | | done].
  - wp_rel Hh HL. cbn [wp]. step_by ltac:(eapply tr_hop; [exact Hpc | apply hop_resumed; auto]) HI HL.
    + unfold held. cbn. by rewrite upd_eq.
    + cbn. rewrite upd_eq. cbn. congruence.
    + done.
  - pose proof (locks_ints k (set_intena (ints k) c (sintena (ints k) p)) _ HL eq_refl eq_refl) as HL1. clear HL. rename HL1 into HL. unfold sched_return.
    wp_rel Hh HL. cbn [wp]. step_by ltac:(eapply tr_hop; [exact Hpc | apply hop_resumed; auto]) HI HL.
    + unfold held. cbn. by rewrite upd_eq.
    + cbn. rewrite upd_eq. cbn. congruence.
    + done.
  - pose proof (locks_ints k (set_intena (ints k) c (sintena (ints k) p)) _ HL eq_refl eq_refl) as HL0. cbn zeta.
    assert (HL1 := locks_ext _ (set_proc (sched_return k c p) p (set_chan (procs (sched_return k c p) p) 0)) _ HL0 eq_refl eq_refl). clear HL HL0. rename HL1 into HL.
    wp_rel Hh HL. cbn [wp]. step_by ltac:(by eapply tr_unsleep) HI HL.
    + unfold held. cbn. by rewrite upd_eq.
    + cbn. rewrite upd_eq. cbn. split; [congruence | done].
    + done.
Qed.

Lemma relock_ok lk s : pc k c = PRelock lk s -> wp (relock k c lk s) (step_ok k c).
Proof.
  intros Hpc. pose proof HI as [HL L2 L3]. pose proof (L2 c) as Hx. rewrite Hpc in Hx. destruct Hx as [_ Hx].
  assert (Hh : held k c = []) by (unfold held; by rewrite Hpc). unfold relock. wp_acq Hh HL Hf. cbn [wp].
  destruct s as [| xs]; [destruct Hx as [l ->] | cbn in Hx; subst lk].
  - step_by ltac:(eapply tr_hop; [exact Hpc | apply hop_relock_user]) HI HL; [| | done].
    + unfold held. cbn. by rewrite upd_eq.
    + cbn. rewrite upd_eq. cbn. congruence.
  - step_by ltac:(eapply tr_hop; [exact Hpc | by apply hop_relock_wait]) HI HL; [| | done].
    + unfold held. cbn. by rewrite upd_eq.
    + cbn. rewrite upd_eq. cbn. congruence.
Qed.

(** Taking one lock and moving on. *)
Lemma acquire_hop_ok l (y : list Z -> point) : l ∉ held k c -> (unheld k l -> hop k c (pc k c) (y (allproc k))) ->
  holds (Some p) (y (allproc k)) ≡ₚ l :: held k c -> point_ok (Some p) (y (allproc k)) ->
  wp (k ← acquire_spinlock k c l; Go (goto k c (y (allproc k)))) (step_ok k c).
Proof.
  intros Hl Ht Hy Hok. pose proof HI as [HL L2 L3]. apply wp_bind. eapply wp_acquire; [exact HL | done |]. intros ?o ?n. cbn zeta. clear HL. intros Hf HL.
  cbn [wp]. step_by ltac:(by eapply tr_hop; [reflexivity | apply Ht]) HI HL; [| | done].
  - unfold held at 2. cbn. by rewrite upd_eq, Hp.
  - cbn. by rewrite upd_eq, Hp.
Qed.

(** Releasing one lock and moving on. *)
Lemma release_hop_ok l y v : hop k c (pc k c) y -> held k c ≡ₚ l :: holds (Some p) y -> point_ok (Some p) y ->
  wp (k ← release_spinlock k c l; Go (goto (set_ret k c v) c y)) (step_ok k c) /\
  wp (k ← release_spinlock k c l; Go (goto k c y)) (step_ok k c).
Proof.
  intros Ht Hy Hok. pose proof HI as [HL L2 L3].
  split; (apply wp_bind; eapply wp_release; [exact HL | exact Hy |]; intros ?o ?n; cbn zeta; clear HL; intros HL; cbn [wp];
    step_by ltac:(by eapply tr_hop; [reflexivity | apply Ht]) HI HL; [| | done];
    [unfold held; cbn; by rewrite upd_eq, Hp | cbn; by rewrite upd_eq, Hp]).
Qed.

Lemma exit_enter_ok st : pc k c = PRun [] -> p <> initproc k -> wp (exit_enter k c p st) (step_ok k c).
Proof.
  intros Hpc Hn. unfold exit_enter. destruct (Z.eqb_spec p (initproc k)); [done |]. assert (Hh : held k c = []) by (unfold held; by rewrite Hpc).
  apply (acquire_hop_ok LWait (fun _ => PExit1 st)); rewrite ?Hh, ?Hpc; [not_in | intros; apply hop_exit; congruence || done | done | done].
Qed.

Lemma wait_enter_ok xs : pc k c = PRun [] -> wp (wait_enter k c xs) (step_ok k c).
Proof.
  intros Hpc. assert (Hh : held k c = []) by (unfold held; by rewrite Hpc).
  apply (acquire_hop_ok LWait (fun _ => PWait1 xs)); rewrite ?Hh, ?Hpc; [not_in | intros; by apply hop_wait | done | done].
Qed.

Lemma wait_top_ok xs : pc k c = PWait1 xs -> wp (wait_top k c xs) (step_ok k c).
Proof.
  intros Hpc. assert (Hh : held k c = [LWait]) by (unfold held; by rewrite Hpc).
  unfold wait_top. apply (acquire_hop_ok LPtable (fun a => PScan a false xs)); rewrite ?Hh, ?Hpc; [not_in | intros; apply hop_scan_start | done | done].
Qed.

Lemma exit_reparent_ok st : pc k c = PExit1 st -> wp (exit_reparent k c p st) (step_ok k c).
Proof.
  intros Hpc. pose proof HI as [HL L2 L3]. assert (Hh : held k c = [LWait]) by (unfold held; by rewrite Hpc).
  unfold exit_reparent. wp_acq Hh HL Hf.
  assert (HL1 := locks_ext _ (reparent (relocks k o n (rets k)) p) _ HL eq_refl eq_refl). clear HL. rename HL1 into HL.
  wp_rel Hh HL. cbn [wp]. step_by ltac:(by eapply tr_reparent) HI HL; [| | done].
  - unfold held. cbn. by rewrite upd_eq.
  - cbn. rewrite upd_eq. cbn. congruence.
Qed.

Lemma exit_zombie_ok st : pc k c = PExit4 st -> wp (exit_zombie k c p st) (step_ok k c).
Proof.
  intros Hpc. pose proof HI as [HL L2 L3]. assert (Hh : held k c = [LWait]) by (unfold held; by rewrite Hpc).
  unfold exit_zombie. wp_acq Hh HL Hf. set (k1 := set_proc _ _ _).
  assert (HL1 := locks_ext _ k1 _ HL eq_refl eq_refl). clear HL. rename HL1 into HL.
  apply wp_bind. eapply (wp_release k1 _ c LWait [LProc p]); [exact HL | rewrite upd_eq; apply Permutation_swap |].
  intros ?o ?n. cbn zeta. clear HL. intros HL. held_norm Hh HL. apply sched_ok; [done | subst k1; cbn; by rewrite upd_eq | done | done | done | done |].
  eapply tr_eq; [by eapply tr_zombie | done].
Qed.

Lemma wait_scan_ok todo hk xs ok : pc k c = PScan todo hk xs -> wp (wait_scan k c p todo hk xs ok) (step_ok k c).
Proof.
  intros Hpc. pose proof HI as [HL L2 L3]. assert (Hh : held k c = [LPtable; LWait]) by (unfold held; by rewrite Hpc).
  unfold wait_scan. destruct todo as [| np todo].
  { apply (release_hop_ok LPtable _ 0); rewrite ?Hpc, ?Hh; [apply hop_scan_end | done | done]. }
  destruct (decide _) as [Hpar | Hpar%dec_stable].
  { cbn [wp]. split; [by eapply tr_hop; [exact Hpc | eapply hop_scan_other] |].
    apply (step_done k c k _ (held k c) HI); [by rewrite upd_same | done | done | | | | done].
    - intros c' Hc. cbn. by rewrite upd_ne.
    - rewrite Hh. unfold held. cbn. by rewrite upd_eq.
    - cbn. rewrite upd_eq. cbn. congruence. }
  wp_acq Hh HL Hf. cbn [procs relocks]. destruct (decide _) as [Hz | Hz]; [destruct (_ && _) |].
  - wp_rel Hh HL. wp_rel Hh HL. wp_rel Hh HL. cbn [wp]. step_by ltac:(eapply tr_hop; [exact Hpc | apply hop_scan_fail]) HI HL; [| | done].
    + unfold held. cbn. by rewrite upd_eq.
    + cbn. rewrite upd_eq. cbn. congruence.
  - cbn zeta. set (k1 := set_tables _ _ _). assert (HL1 := locks_ext _ k1 _ HL eq_refl eq_refl). clear HL. rename HL1 into HL.
    wp_rel Hh HL. wp_rel Hh HL. cbn [wp]. step_by ltac:(by eapply tr_unlink) HI HL; [| | done].
    + unfold held. cbn. by rewrite upd_eq.
    + cbn. rewrite upd_eq. cbn. congruence.
  - wp_rel Hh HL. cbn [wp]. step_by ltac:(eapply tr_hop; [exact Hpc | by apply hop_scan_alive]) HI HL; [| | done].
    + unfold held. cbn. by rewrite upd_eq.
    + cbn. rewrite upd_eq. cbn. congruence.
Qed.

Lemma wait_reap_ok np : pc k c = PReap np -> wp (wait_reap k c np) (step_ok k c).
Proof.
  intros Hpc. pose proof HI as [HL L2 L3]. assert (Hh : held k c = [LWait]) by (unfold held; by rewrite Hpc).
  unfold wait_reap. assert (HL1 := locks_ext _ (freeproc k np) _ HL eq_refl eq_refl). clear HL. rename HL1 into HL.
  cbn zeta. wp_rel Hh HL. cbn [wp]. step_by ltac:(apply tr_free; by left) HI HL; [| | done].
  - unfold held. cbn. by rewrite upd_eq.
  - cbn. rewrite upd_eq. cbn. congruence.
Qed.

Lemma wait_end_ok hk xs : pc k c = PWait2 hk xs -> wp (wait_end k c p hk xs) (step_ok k c).
Proof.
  intros Hpc. pose proof HI as [HL L2 L3]. assert (Hh : held k c = [LWait]) by (unfold held; by rewrite Hpc).
  unfold wait_end. destruct hk; cbn [negb].
  2: { apply (release_hop_ok LWait (PRun []) (-1)); rewrite ?Hpc, ?Hh; [apply hop_wait_fail | done | done]. }
  wp_acq Hh HL Hf. wp_rel Hh HL. destruct (negb _).
  - wp_rel Hh HL. cbn [wp]. step_by ltac:(eapply tr_hop; [exact Hpc | apply hop_wait_fail]) HI HL; [| | done].
    + unfold held. cbn. by rewrite upd_eq.
    + cbn. rewrite upd_eq. cbn. congruence.
  - cbn [wp]. step_by ltac:(eapply tr_hop; [exact Hpc | apply hop_wait_alive]) HI HL; [| | done].
    + unfold held. cbn. by rewrite upd_eq.
    + cbn. rewrite upd_eq. cbn. congruence.
Qed.

Lemma wait_sleep_ok xs : pc k c = PWait3 xs -> wp (wait_sleep k c p xs) (step_ok k c).
Proof.
  intros Hpc. apply sleep_enter_ok; [unfold held; by rewrite Hpc | done | done | done | rewrite Hpc; by apply hop_wait_sleep].
Qed.

(** Interrupts masked or unmasked by other code. *)
Lemma irq_ok b : pc k c = PRun [] -> step_ok k c (set_ints k (set_irq (ints k) c b)).
Proof.
  intros Hpc. pose proof HI as [HL L2 L3]. assert (Hh : held k c = []) by (unfold held; by rewrite Hpc). split.
  - eapply tr_eq; [eapply tr_hop; [exact Hpc | apply (hop_run k c [] [])] |]. unfold goto, relocks. cbn. f_equal. rewrite <- Hpc. by rewrite upd_same.
  - apply (step_done k c (set_ints k (set_irq (ints k) c b)) _ (held k c) HI); [rewrite upd_same; by apply locks_irq | done | done | done | done | apply L2 | done].
Qed.

Lemma pid_scan_in l k1 n q : pid_scan l k1 n = Some q -> q ∈ l /\ pid (procs k1 q) = n.
Proof.
  induction l as [| r l IH]; cbn [pid_scan]; [done |]. destruct (Z.eqb_spec (pid (procs k1 r)) n) as [E | E].
  - intros [= <-]. split; [left | done].
  - intros H. destruct (IH H). split; [by right | done].
Qed.

Lemma kill_ok ls n : pc k c = PRun ls -> wp (kill k c n) (step_ok k c).
Proof.
  intros Hpc. pose proof HI as [HL L2 L3]. assert (Hh : held k c = map LOther ls) by (unfold held; by rewrite Hpc).
  assert (Hno : forall l, (forall x, l <> LOther x) -> l ∉ held k c).
  { intros l Hl. rewrite Hh. intros (x & -> & _)%list_elem_of_fmap. by destruct (Hl x). }
  unfold kill. apply wp_bind. eapply wp_acquire; [exact HL | by apply Hno |]. intros ?o ?n. cbn zeta. clear HL. intros Hf HL.
  assert (Hend : forall k1 v, locks_ok k1 (held k) -> tr k c k1 -> pc k1 = pc k -> cproc k1 = cproc k -> saved k1 = saved k -> step_ok k c (set_ret k1 c v)).
  { intros k1 v HL1 Ht E1 E2 E3. split; [by apply (tr_eq _ _ k1) |].
    apply (step_done k c k1 _ (held k c) HI); [by rewrite upd_same | done | done | | | |].
    - intros c' _. cbn. by rewrite E1, E2.
    - unfold held. cbn. by rewrite E1, E2.
    - cbn. rewrite E1, E2. apply L2.
    - cbn. rewrite E3. apply L3. }
  destruct (pid_lookup _ n) as [q |] eqn:Eq.
  - unfold pid_lookup in Eq. apply pid_scan_in in Eq as [Hq En]. cbn [pidhash relocks procs] in Hq, En. rewrite <- En in Hq.
    apply wp_bind. eapply wp_acquire; [exact HL | rewrite upd_eq; apply not_elem_of_cons; split; [done | by apply Hno] |].
    intros ?o ?n. cbn zeta. clear HL. intros Hg HL. rewrite upd_upd, upd_eq in HL. set (k1 := if decide _ then _ else _).
    assert (HL1 : locks_ok k1 ((held k).[c <- LProc q :: LPtable :: held k c])) by (unfold k1; destruct (decide _); by apply (locks_ext _ _ _ HL)).
    clear HL. apply wp_bind. eapply wp_release; [exact HL1 | by rewrite upd_eq |]. intros ?o ?n. cbn zeta. clear HL1. intros HL. rewrite upd_upd in HL.
    apply wp_bind. eapply wp_release; [exact HL | by rewrite upd_eq |]. intros ?o ?n. cbn zeta. clear HL. intros HL. rewrite upd_upd, upd_same in HL.
    cbn [wp]. apply Hend; [exact HL | | | |].
    + eapply tr_eq; [eapply (tr_kill _ _ q); [exact Hpc | exact Hf | | exact Hq] |].
      * apply (unheld_upd k c _ _ Hg). by apply Hno.
      * unfold k1. cbn zeta. cbn [procs set_proc set_procs relocks]. destruct (decide _); done.
    + unfold k1. by destruct (decide _).
    + unfold k1. by destruct (decide _).
    + unfold k1. by destruct (decide _).
  - apply wp_bind. eapply wp_release; [exact HL | by rewrite upd_eq |]. intros ?o ?n. cbn zeta. clear HL. intros HL. rewrite upd_upd, upd_same in HL.
    cbn [wp]. apply Hend; [exact HL | | done | done | done]. eapply tr_eq; [eapply tr_hop; [exact Hpc | apply (hop_run k c ls ls)] |].
    unfold goto, relocks. cbn. f_equal. rewrite <- Hpc. by rewrite upd_same.
Qed.

(** [proc_activate] on a private process. *)
Lemma proc_activate_ok H np par P : locks_ok k H -> LPtable ∉ H c -> LProc np ∉ H c ->
  (forall k1, (forall c', LPtable ∉ H c') -> (forall c', LProc np ∉ H c') -> locks_ok k1 H ->
     k1 = relocks (let h := pidhash k in let b := bucket (pid (procs k np)) in
            let q := match par with Some q => Some q | None => parent (procs k np) end in
            let k := set_tables k (np :: allproc k) (h.[b <- np :: h b]) in
            let k := set_proc k np (set_state (set_parent (procs k np) q) RUNNABLE) in
            runq_enqueue k np) (owner k1) (ints k1) (rets k) -> P k1) ->
  wp (proc_activate k c np par) P.
Proof.
  intros HL H1 H2 HP. unfold proc_activate. apply wp_bind. eapply wp_acquire; [exact HL | done |]. intros ?o ?n. cbn zeta. clear HL. intros Hf HL.
  apply wp_bind. eapply wp_acquire; [exact HL | rewrite upd_eq; apply not_elem_of_cons; done |]. intros ?o ?n. cbn zeta. clear HL. intros Hg HL.
  rewrite upd_upd, upd_eq in HL. set (k1 := runq_enqueue _ np).
  assert (HL1 : locks_ok k1 (H.[c <- LProc np :: LPtable :: H c])) by (unfold k1; destruct par; by apply (locks_ext _ _ _ HL)). clear HL.
  apply wp_bind. eapply wp_release; [exact HL1 | by rewrite upd_eq |]. intros ?o ?n. cbn zeta. clear HL1. intros HL. rewrite upd_upd in HL.
  eapply wp_release; [exact HL | by rewrite upd_eq |]. intros ?o ?n. cbn zeta. clear HL. intros HL. rewrite upd_upd, upd_same in HL.
  apply HP; [done | | done |].
  - intros c'. destruct (decide (c' = c)) as [-> |]; [done |]. specialize (Hg c'). by rewrite upd_ne in Hg.
  - unfold k1. destruct par as [q |]; apply kern_eq; try reflexivity.
    cbn [procs set_owner relocks runq_enqueue set_runq set_proc set_procs set_tables]. by rewrite upd_upd, upd_eq.
Qed.

Lemma fork_enter_ok np x : bitstr_wf (pidmap k) -> pc k c = PRun [] -> x = PFork1 \/ x = PKthread -> wp (fork_enter k c np x) (step_ok k c).
Proof.
  intros Hwf Hpc Hx. pose proof HI as [HL L2 L3]. unfold fork_enter. destruct (match np with Some _ => _ | None => _ end) eqn:Hn; [done |].
  destruct (allocproc_cases k np Hwf) as [-> | (q & k1 & -> & E)]; [| rewrite E; apply bool_decide_eq_false in Hn]; cbn [wp].
  - split; [eapply tr_eq; [eapply tr_hop; [exact Hpc | apply (hop_run k c [] [])] |] |].
    + unfold goto, relocks. cbn. f_equal. rewrite <- Hpc. by rewrite upd_same.
    + apply (step_done k c k _ (held k c) HI); [by rewrite upd_same | done | done | done | done | apply L2 | done].
  - assert (Hk1 : owner k1 = owner k /\ ints k1 = ints k /\ pc k1 = pc k /\ cproc k1 = cproc k /\ saved k1 = (saved k).[q <- RFork]).
    { unfold allocproc, pid_alloc in E. destruct (bit_ffc _ _ >=? 0), (bit_ffc _ _ <? 0); try done; by injection E as <-. }
    destruct Hk1 as (E1 & E2 & E3 & E4 & E5). split; [eapply tr_alloc; try done; destruct Hx as [-> | ->]; auto |].
    apply (step_done k c k _ (held k c) HI); [by rewrite upd_same | done | done | | | |].
    + intros c' Hc. cbn. rewrite upd_ne by done. by rewrite E3, E4.
    + unfold held. cbn. rewrite upd_eq, E4, Hpc. by destruct Hx as [-> | ->].
    + cbn. rewrite upd_eq, E4, Hp. by destruct Hx as [-> | ->].
    + intros r. cbn. rewrite E5. unfold upd. destruct (r =? q); [done | apply L3].
Qed.

Lemma fork_copy_ok np ok : pc k c = PFork1 np -> wp (fork_copy k c np ok) (step_ok k c).
Proof.
  intros Hpc. pose proof HI as [HL L2 L3]. assert (Hh : held k c = []) by (unfold held; by rewrite Hpc). unfold fork_copy. destruct ok.
  - apply (acquire_hop_ok LWait (fun _ => PFork2 np)); rewrite ?Hh, ?Hpc; [not_in | intros; by apply hop_fork | done | done].
  - cbn [wp]. split; [eapply tr_eq; [apply (tr_free _ _ np); by right | done] |].
    apply (step_done k c k _ (held k c) HI); [by rewrite upd_same | done | done | | | | done].
    + intros c' Hc. cbn. by rewrite upd_ne.
    + rewrite Hh. unfold held. cbn. by rewrite upd_eq.
    + cbn. rewrite upd_eq. cbn. congruence.
Qed.

Lemma publish_pc np par k1 : k1 = relocks (let h := pidhash k in let b := bucket (pid (procs k np)) in
            let q := match par with Some q => Some q | None => parent (procs k np) end in
            let k := set_tables k (np :: allproc k) (h.[b <- np :: h b]) in
            let k := set_proc k np (set_state (set_parent (procs k np) q) RUNNABLE) in
            runq_enqueue k np) (owner k1) (ints k1) (rets k) -> pc k1 = pc k /\ cproc k1 = cproc k /\ saved k1 = saved k.
Proof. intros ->. done. Qed.

Lemma fork_publish_ok np : pc k c = PFork2 np -> wp (fork_publish k c p np) (step_ok k c).
Proof.
  intros Hpc. pose proof HI as [HL L2 L3]. assert (Hh : held k c = [LWait]) by (unfold held; by rewrite Hpc). unfold fork_publish.
  apply wp_bind. apply (proc_activate_ok (held k)); [done | rewrite Hh; not_in | rewrite Hh; not_in |].
  intros k1 Hf Hg HL1 E. destruct (publish_pc np (Some p) k1 E) as (E1 & E2 & E3). clear HL. rename HL1 into HL. wp_rel Hh HL. cbn [wp].
  split.
  - eapply tr_eq; [eapply (tr_publish k c p np (Some p)); [by left | done | exact Hf | exact Hg] |]. rewrite E. apply kern_eq; reflexivity.
  - eapply (step_done _ _ _ _ _ HI HL); [done | done | | | |].
    + intros c' Hc. cbn. rewrite upd_ne by done. by rewrite E1, E2.
    + unfold held. cbn. by rewrite upd_eq.
    + cbn. rewrite upd_eq, E2. cbn. congruence.
    + cbn. by rewrite E3.
Qed.

Lemma kthread_publish_ok np : pc k c = PKthread np -> wp (kthread_publish k c np) (step_ok k c).
Proof.
  intros Hpc. pose proof HI as [HL L2 L3]. assert (Hh : held k c = []) by (unfold held; by rewrite Hpc). unfold kthread_publish.
  apply wp_bind. apply (proc_activate_ok (held k)); [done | rewrite Hh; not_in | rewrite Hh; not_in |].
  intros k1 Hf Hg HL1 E. destruct (publish_pc np None k1 E) as (E1 & E2 & E3). cbn [wp].
  split.
  - eapply tr_eq; [eapply (tr_publish k c p np None); [by right | done | exact Hf | exact Hg] |]. rewrite E. apply kern_eq; reflexivity.
  - apply (step_done k c k1 _ (held k c) HI); [by rewrite upd_same | done | done | | | |].
    + intros c' Hc. cbn. rewrite upd_ne by done. by rewrite E1, E2.
    + rewrite Hh. unfold held. cbn. by rewrite upd_eq.
    + cbn. rewrite upd_eq, E2. cbn. congruence.
    + cbn. by rewrite E3.
Qed.

Lemma lock_ok ls l : pc k c = PRun ls -> l ∉ ls -> wp (k ← acquire_spinlock k c (LOther l); Go (goto k c (PRun (l :: ls)))) (step_ok k c).
Proof.
  intros Hpc Hl. assert (Hh : held k c = map LOther ls) by (unfold held; by rewrite Hpc).
  apply (acquire_hop_ok (LOther l) (fun _ => PRun (l :: ls))); rewrite ?Hh, ?Hpc; [| intros; apply hop_run | done | done].
  intros (x & [= ->] & Hx)%list_elem_of_fmap. done.
Qed.

Lemma unlock_ok ls l : pc k c = PRun ls -> l ∈ ls -> wp (k ← release_spinlock k c (LOther l); Go (goto k c (PRun (without l ls)))) (step_ok k c).
Proof.
  intros Hpc Hl. assert (Hh : held k c = map LOther ls) by (unfold held; by rewrite Hpc).
  assert (Hnd : NoDup ls) by (pose proof (lh_nodup _ _ (li_locks _ HI) c) as Hx; rewrite Hh in Hx; by apply NoDup_fmap_1 in Hx).
  apply (release_hop_ok (LOther l) (PRun (without l ls)) 0); rewrite ?Hh, ?Hpc; [apply hop_run | | done].
  cbn [holds]. by rewrite (without_perm l ls Hnd Hl) at 1.
Qed.

Lemma exit_wake_parent_ok st : pc k c = PExit3 st -> wp (exit_wake_parent k c p st) (step_ok k c).
Proof.
  intros Hpc. pose proof HI as [HL L2 L3]. assert (Hh : held k c = [LWait]) by (unfold held; by rewrite Hpc).
  assert (Hskip : parent (procs k p) = None \/ parent (procs k p) = Some (initproc k) -> step_ok k c (goto k c (PExit4 st))).
  { intros Hx. split; [eapply tr_hop; [exact Hpc | by eapply hop_exit_noparent] |].
    apply (step_done k c k _ (held k c) HI); [by rewrite upd_same | done | done | | | | done].
    - intros c' Hc. cbn. by rewrite upd_ne.
    - rewrite Hh. unfold held. cbn. by rewrite upd_eq.
    - cbn. rewrite upd_eq. cbn. congruence. }
  unfold exit_wake_parent. destruct (parent (procs k p)) as [q |] eqn:E; [| cbn [wp]; auto].
  destruct (Z.eqb_spec q (initproc k)) as [-> |]; [cbn [wp]; auto |].
  apply wakeup_enter_ok; [done | rewrite Hpc; by eapply hop_exit_parent | cbn; congruence].
Qed.

(** A call by a thread, unless it is init that exits; a lock is taken when not held and
    released when held. *)
Definition proper (e : event) (ls : list Z) : Prop :=
  match e with
  | EExit _ => p <> initproc k
  | ELock l => l ∉ ls
  | EUnlock l => l ∈ ls
  | _ => True
  end.

Lemma call_ok ls e : bitstr_wf (pidmap k) -> pc k c = PRun ls -> proper e ls -> wp (call k c p ls e) (step_ok k c).
Proof.
  intros Hwf Hpc He. unfold call. destruct e; try (destruct ls; [| done]); try done.
  - by apply yield_ok.
  - destruct ls as [| l' [|]]; [done | | done]. destruct (Z.eqb_spec l l') as [-> |]; [| done].
    apply sleep_enter_ok; [unfold held; by rewrite Hpc | done | by exists l' | done | rewrite Hpc; apply hop_sleep_user].
  - apply wakeup_enter_ok; [unfold held; by rewrite Hpc | rewrite Hpc; apply hop_wakeup | cbn; congruence].
  - by apply exit_enter_ok.
  - by apply wait_enter_ok.
  - by apply (kill_ok ls).
  - apply fork_enter_ok; auto.
  - apply fork_enter_ok; auto.
  - by apply lock_ok.
  - by apply unlock_ok.
  - by apply irq_ok.
Qed.

Lemma thread_ok e : bitstr_wf (pidmap k) -> (forall ls, pc k c = PRun ls -> proper e ls) -> pc k c <> PResume RExit -> wp (thread k c p (pc k c) e) (step_ok k c).
Proof.
  intros Hwf He Hx. unfold thread. destruct (pc k c) eqn:Hpc; try (by destruct e).
  - apply call_ok; [done | done | by apply He].
  - destruct e; try done. apply resumed_ok; [done |]. by intros ->.
  - destruct e; try done. by apply sleep_release_ok.
  - destruct e; try done. by apply sleep_switch_ok.
  - destruct e; try done. by apply relock_ok.
  - destruct e; try done. by apply wakeup_loop_ok.
  - destruct e; try done. by apply exit_reparent_ok.
  - destruct e; try done. apply wakeup_enter_ok; [unfold held; by rewrite Hpc | rewrite Hpc; apply hop_exit_init | cbn; congruence].
  - destruct e; try done. by apply exit_wake_parent_ok.
  - destruct e; try done. by apply exit_zombie_ok.
  - destruct e; try done. by apply wait_top_ok.
  - destruct e; try done. by apply wait_scan_ok.
  - destruct e; try done. by apply wait_end_ok.
  - destruct e; try done. by apply wait_sleep_ok.
  - destruct e; try done. by apply wait_reap_ok.
  - destruct e; try done. by apply fork_copy_ok.
  - destruct e; try done. by apply fork_publish_ok.
  - destruct e; try done. by apply kthread_publish_ok.
Qed.
End thread.

(** The events the environment may cause at [c], and what the tables give. *)
Definition allowed (e : event) : Prop :=
  (forall p ls, cproc k c = Some p -> pc k c = PRun ls -> proper p e ls) /\ pc k c <> PResume RExit /\ bitstr_wf (pidmap k).

Lemma kstep_ok e : allowed e -> wp (kstep k c e) (step_ok k c).
Proof.
  intros (He & Hx & Hwf). pose proof (li_point _ HI c) as Hcp.
  assert (Hth : wp (match cproc k c with Some p => thread k c p (pc k c) e | None => Blocked end) (step_ok k c)).
  { destruct (cproc k c) as [p |] eqn:Hp; [| done]. apply thread_ok; [done | done | | done]. intros ls. by apply He. }
  unfold kstep. destruct (pc k c) eqn:Hpc; try exact Hth.
  - destruct e; try (by destruct (cproc k c)); [by apply scheduler_pick_ok |].
    apply interrupt_ok; [unfold held; by rewrite Hpc | done | rewrite Hpc; apply hop_wakeup_idle | done].
  - destruct e; try (by destruct (cproc k c)); [by apply scheduler_dispatch_ok |].
    apply interrupt_ok; [unfold held; by rewrite Hpc | done | rewrite Hpc; apply hop_wakeup_dispatch | done].
  - destruct e; try (by destruct (cproc k c)). by apply scheduler_return_ok.
  - destruct e; try (by destruct (cproc k c)). by apply wakeup_loop_ok.
Qed.
End steps.

Lemma boot_locks init : lockinv (boot init).
Proof.
  split; [split | done | done].
  - intros l c. cbn. split; [done | by intros ?%elem_of_nil].
  - intros c. constructor.
  - done.
  - done.
Qed.
