(* ===== verification/ProcSched.v ===== *)
(** * Processes and scheduling: who runs where

    The abstract scheduler: the states of the processes, the run queue, and for each CPU
    which process it is about to dispatch, runs, or has just switched away from. Its
    invariant [sched_inv] says that a process is in exactly one place, and that the place
    fits its state. *)

From S2P Require Import Prelude Bits Mmu Proc ProcLock.

(** ** Specification *)

Inductive mode := MIdle | MDisp (p : Z) | MRun (p : Z) | MSwitch (p : Z).

Definition on (m : mode) (p : Z) : Prop := m = MDisp p \/ m = MRun p \/ m = MSwitch p.

Definition mode_of (cp : option Z) (x : point) : mode :=
  match x with
  | PSched | PWake _ _ WIdle => MIdle
  | PDispatch p | PWake _ _ (WDispatch p) => MDisp p
  | PSwitched p => MSwitch p
  | _ => match cp with Some p => MRun p | None => MIdle end
  end.

Definition modes (k : kern) (c : Z) : mode := mode_of (cproc k c) (pc k c).

Definition states (k : kern) (p : Z) : procstate := state (procs k p).

(** The state a process has in its place. *)
Definition fits (m : mode) (s : procstate) : Prop :=
  match m with
  | MIdle => True
  | MDisp _ => s = RUNNABLE
  | MRun _ => s = RUNNING
  | MSwitch _ => s = RUNNABLE \/ s = SLEEPING \/ s = ZOMBIE
  end.

Record sched_inv (st : Z -> procstate) (all rq : list Z) (M : Z -> mode) : Prop := {
  sv_all : NoDup all;
  sv_rq : NoDup rq;
  sv_queued : forall p, p ∈ rq -> p ∈ all /\ st p = RUNNABLE /\ forall c, ~ on (M c) p;
  sv_on : forall c p, on (M c) p -> p ∈ all /\ fits (M c) (st p);
  sv_once : forall c c' p, on (M c) p -> on (M c') p -> c = c';
  sv_running : forall p, p ∈ all -> st p = RUNNING -> exists c, M c = MRun p;
  sv_runnable : forall p, p ∈ all -> st p = RUNNABLE -> p ∈ rq \/ exists c, M c = MDisp p \/ M c = MSwitch p;
  sv_states : forall p, p ∈ all -> st p <> UNUSED /\ st p <> USED
}.

(** ** Lemmas: the abstract steps *)

Lemma on_eq m p q : on m p -> on m q -> p = q.
Proof. unfold on. intros [-> | [-> | ->]] [? | [? | ?]]; congruence. Qed.

Lemma on_fits m p q s : on m p -> fits m s -> m = MSwitch q \/ m = MDisp q \/ m = MRun q -> p = q.
Proof. unfold on. intros [-> | [-> | ->]] _ [? | [? | ?]]; congruence. Qed.

Section steps.
Context (st : Z -> procstate) (all rq : list Z) (M : Z -> mode) (H : sched_inv st all rq M).

Lemma sched_ext st' M' : (forall p, p ∈ all -> st' p = st p) -> (forall c, M' c = M c) -> sched_inv st' all rq M'.
Proof.
  destruct H as [S1 S2 S3 S4 S5 S6 S7 S8]. intros Es Em. split; try done.
  - intros p Hp. destruct (S3 p Hp) as (H1 & H2 & H3). rewrite Es by done. split; [done |]. split; [done |]. intros c. by rewrite Em.
  - intros c p. rewrite Em. intros Ho. destruct (S4 c p Ho). by rewrite Es.
  - intros c c' p. rewrite !Em. by apply S5.
  - intros p Hp. rewrite Es by done. intros E. destruct (S6 p Hp E) as [c Hc]. exists c. by rewrite Em.
  - intros p Hp. rewrite Es by done. intros E. destruct (S7 p Hp E) as [| [c Hc]]; [by left |]. right. exists c. by rewrite Em.
  - intros p Hp. rewrite Es by done. by apply S8.
Qed.

Lemma sched_dequeue c p q : M c = MIdle -> rq = p :: q -> sched_inv st all q (M.[c <- MDisp p]).
Proof.
  destruct H as [S1 S2 S3 S4 S5 S6 S7 S8]. intros Em Eq. rewrite Eq in S2. apply NoDup_cons in S2 as [Hpq Hq].
  assert (Hp : p ∈ rq) by (rewrite Eq; left). destruct (S3 p Hp) as (P1 & P2 & P3).
  assert (Hother : forall c', c' <> c -> (M.[c <- MDisp p]) c' = M c') by (intros; by rewrite upd_ne).
  split; try done.
  - intros r Hr. destruct (S3 r) as (H1 & H2 & H3); [rewrite Eq; by right |]. split; [done |]. split; [done |]. intros c'.
    destruct (decide (c' = c)) as [-> | Hc]; [rewrite upd_eq | by rewrite Hother]. intros [? | [? | ?]]; congruence.
  - intros c' r. destruct (decide (c' = c)) as [-> | Hc]; [rewrite upd_eq | rewrite Hother by done; apply S4].
    intros [? | [? | ?]]; try done. injection H0 as <-. done.
  - intros c1 c2 r. destruct (decide (c1 = c)) as [-> | H1], (decide (c2 = c)) as [-> | H2]; rewrite ?upd_eq, ?Hother by done; try done.
    + intros [? | [? | ?]]; try done. injection H0 as <-. by intros ?%P3.
    + intros Hx [? | [? | ?]]; try done. injection H0 as <-. by apply P3 in Hx.
    + apply S5.
  - intros r Hr Es. destruct (S6 r Hr Es) as [c' Hc]. exists c'. rewrite Hother; [done |]. congruence.
  - intros r Hr Es. destruct (S7 r Hr Es) as [Hx | [c' Hx]].
    + rewrite Eq in Hx. apply elem_of_cons in Hx as [-> | Hx]; [| by left]. right. exists c. rewrite upd_eq. by left.
    + right. exists c'. rewrite Hother; [done |]. intros ->. destruct Hx; congruence.
Qed.

(** CPU [c] keeps its process [p], which changes place and state. *)
Lemma sched_move c p m s : on (M c) p -> on m p -> fits m s -> s <> UNUSED -> s <> USED -> m = MRun p \/ s <> RUNNING -> 
  (m = MDisp p \/ m = MSwitch p \/ s <> RUNNABLE) -> 
  sched_inv (fun q => if decide (q = p) then s else st q) all rq (M.[c <- m]).
Proof.
  destruct H as [S1 S2 S3 S4 S5 S6 S7 S8]. intros Ho Hm Hf N1 N2 R1 R2. destruct (S4 c p Ho) as [Hp _].
  assert (Hother : forall c', c' <> c -> (M.[c <- m]) c' = M c') by (intros; by rewrite upd_ne).
  assert (Hno : forall c', c' <> c -> ~ on (M c') p) by (intros c' Hc Hx; apply Hc; by apply (S5 _ _ p)).
  split; try done.
  - intros r Hr. destruct (S3 r Hr) as (H1 & H2 & H3). assert (r <> p) by (intros ->; by apply (H3 c)).
    rewrite decide_False by done. split; [done |]. split; [done |]. intros c'.
    destruct (decide (c' = c)) as [-> | Hc]; [rewrite upd_eq | by rewrite Hother]. intros Hx. by rewrite (on_eq _ _ _ Hx Hm) in *.
  - intros c' r. destruct (decide (c' = c)) as [-> | Hc].
    + rewrite upd_eq. intros Hx. rewrite (on_eq _ _ _ Hx Hm). by rewrite decide_True.
    + rewrite Hother by done. intros Hx. rewrite decide_False; [by apply S4 |]. intros ->. by apply (Hno c').
  - intros c1 c2 r. destruct (decide (c1 = c)) as [-> | H1], (decide (c2 = c)) as [-> | H2]; rewrite ?upd_eq, ?Hother by done; try done.
    + intros Hx. rewrite (on_eq _ _ _ Hx Hm). by intros ?%Hno.
    + intros Hx Hy. rewrite (on_eq _ _ _ Hy Hm) in Hx. by apply Hno in Hx.
    + apply S5.
  - intros r Hr. destruct (decide (r = p)) as [-> | Hn].
    + intros ->. destruct R1; [| done]. exists c. by rewrite upd_eq.
    + intros Es. destruct (S6 r Hr Es) as [c' Hc]. exists c'. rewrite Hother; [done |]. intros ->. apply Hn.
      apply (on_eq (M c)); [| done]. rewrite Hc. right. by left.
  - intros r Hr. destruct (decide (r = p)) as [-> | Hn].
    + intros ->. right. exists c. rewrite upd_eq. tauto.
    + intros Es. destruct (S7 r Hr Es) as [Hx | [c' Hx]]; [by left |]. right. exists c'. rewrite Hother; [done |]. intros ->. apply Hn.
      apply (on_eq (M c)); [| done]. unfold on. tauto.
  - intros r Hr. destruct (decide (r = p)) as [-> |]; [done | by apply S8].
Qed.

Lemma sched_return c p : M c = MSwitch p -> sched_inv st all (if decide (st p = RUNNABLE) then rq ++ [p] else rq) (M.[c <- MIdle]).
Proof.
  destruct H as [S1 S2 S3 S4 S5 S6 S7 S8]. intros Em. assert (Ho : on (M c) p) by (rewrite Em; right; by right).
  destruct (S4 c p Ho) as [Hp Hf]. rewrite Em in Hf. cbn in Hf.
  assert (Hother : forall c', c' <> c -> (M.[c <- MIdle]) c' = M c') by (intros; by rewrite upd_ne).
  assert (Hno : forall c', ~ on ((M.[c <- MIdle]) c') p).
  { intros c'. destruct (decide (c' = c)) as [-> | Hc]; [rewrite upd_eq; intros [? | [? | ?]]; done |]. rewrite Hother by done.
    intros Hx. apply Hc. by apply (S5 _ _ p). }
  assert (Hq : p ∉ rq) by (intros Hx; destruct (S3 p Hx) as (_ & _ & Hy); by apply (Hy c)).
  assert (Hin : forall r, r ∈ (if decide (st p = RUNNABLE) then rq ++ [p] else rq) <-> r ∈ rq \/ (r = p /\ st p = RUNNABLE)).
  { intros r. destruct (decide _); rewrite ?elem_of_app, ?list_elem_of_singleton; tauto. }
  split; try done.
  - destruct (decide _); [| done]. apply NoDup_app. split; [done |]. split; [| apply NoDup_singleton].
    intros r Hr ->%list_elem_of_singleton. done.
  - intros r Hr. apply Hin in Hr as [Hr | [-> Hr]]; [| done]. destruct (S3 r Hr) as (H1 & H2 & H3). split; [done |]. split; [done |].
    intros c'. destruct (decide (c' = c)) as [-> | Hc]; [rewrite upd_eq; intros [? | [? | ?]]; done | by rewrite Hother].
  - intros c' r. destruct (decide (c' = c)) as [-> | Hc]; [rewrite upd_eq; intros [? | [? | ?]]; done | rewrite Hother by done; apply S4].
  - intros c1 c2 r. destruct (decide (c1 = c)) as [-> | H1]; [rewrite upd_eq; intros [? | [? | ?]]; done |].
    destruct (decide (c2 = c)) as [-> | H2]; [rewrite (upd_eq M); intros _ [? | [? | ?]]; done |]. rewrite !Hother by done. apply S5.
  - intros r Hr Es. destruct (S6 r Hr Es) as [c' Hc]. exists c'. rewrite Hother; [done |]. intros ->. congruence.
  - intros r Hr Es. destruct (S7 r Hr Es) as [Hx | [c' Hx]]; [left; apply Hin; by left |].
    destruct (decide (c' = c)) as [-> | Hc]; [| right; exists c'; by rewrite Hother]. left. apply Hin. right.
    assert (r = p) as -> by (destruct Hx; congruence). done.
Qed.

(** A process not placed on a CPU is made runnable. *)
Lemma sched_wake p : p ∈ all -> st p <> RUNNABLE -> (forall c, ~ on (M c) p) ->
  sched_inv (fun q => if decide (q = p) then RUNNABLE else st q) all (rq ++ [p]) M.
Proof.
  destruct H as [S1 S2 S3 S4 S5 S6 S7 S8]. intros Hp Hs Hno.
  assert (Hq : p ∉ rq) by (intros Hx; destruct (S3 p Hx) as (_ & ? & _); done).
  split; try done.
  - apply NoDup_app. split; [done |]. split; [| apply NoDup_singleton]. intros r Hr ->%list_elem_of_singleton. done.
  - intros r. rewrite elem_of_app, list_elem_of_singleton. intros [Hr | ->].
    + rewrite decide_False by (by intros ->). by apply S3.
    + by rewrite decide_True.
  - intros c r Hr. rewrite decide_False; [by apply S4 |]. intros ->. by apply (Hno c).
  - intros r Hr. destruct (decide _); [done | by apply S6].
  - intros r Hr. rewrite elem_of_app, list_elem_of_singleton. destruct (decide _) as [-> | Hn]; [tauto |].
    intros Es. destruct (S7 r Hr Es); tauto.
  - intros r Hr. destruct (decide _); [done | by apply S8].
Qed.

Lemma sched_add p : p ∉ all -> sched_inv (fun q => if decide (q = p) then RUNNABLE else st q) (p :: all) (rq ++ [p]) M.
Proof.
  destruct H as [S1 S2 S3 S4 S5 S6 S7 S8]. intros Hp.
  assert (Hno : forall c, ~ on (M c) p) by (intros c Hx; by apply S4 in Hx as [? _]).
  assert (Hq : p ∉ rq) by (intros Hx; by apply S3 in Hx as [? _]).
  assert (Hne : forall r, r ∈ all -> r <> p) by (by intros r Hr ->).
  split.
  - by constructor.
  - apply NoDup_app. split; [done |]. split; [| apply NoDup_singleton]. intros r Hr ->%list_elem_of_singleton. done.
  - intros r. rewrite elem_of_app, list_elem_of_singleton. intros [Hr | ->].
    + destruct (S3 r Hr) as (H1 & H2 & H3). rewrite decide_False by auto. split; [by right | done].
    + rewrite decide_True by done. split; [left | done].
  - intros c r Hr. destruct (S4 c r Hr). rewrite decide_False by auto. split; [by right | done].
  - done.
  - intros r [-> | Hr]%elem_of_cons; [by rewrite decide_True |]. rewrite decide_False by auto. by apply S6.
  - intros r [-> | Hr]%elem_of_cons; rewrite elem_of_app, list_elem_of_singleton; [tauto |]. rewrite decide_False by auto.
    intros Es. destruct (S7 r Hr Es); tauto.
  - intros r [-> | Hr]%elem_of_cons; [by rewrite decide_True |]. rewrite decide_False by auto. by apply S8.
Qed.

Lemma sched_remove p : st p = ZOMBIE -> (forall c, ~ on (M c) p) -> sched_inv st (without p all) rq M.
Proof.
  destruct H as [S1 S2 S3 S4 S5 S6 S7 S8]. intros Hs Hno. split; try done.
  - by apply NoDup_filter.
  - intros r Hr. destruct (S3 r Hr) as (H1 & H2 & H3). split; [| done]. apply elem_of_without. split; [congruence | done].
  - intros c r Hr. destruct (S4 c r Hr). split; [| done]. apply elem_of_without. split; [| done]. intros ->. by apply (Hno c).
  - intros r [_ Hr]%elem_of_without. by apply S6.
  - intros r [_ Hr]%elem_of_without. by apply S7.
  - intros r [_ Hr]%elem_of_without. by apply S8.
Qed.
End steps.
