(* ===== verification/ProcIds.v ===== *)
(** * Processes and scheduling: objects, pids and the pid hash

    Who holds which process object and which pid: a process is on [allproc] or private to
    one CPU ([fork] before publishing, [wait] after unlinking), pids are distinct and in
    the bitmap, and the hash finds exactly the processes on [allproc]. *)

From S2P Require Import Prelude Bits Mmu Proc ProcLock.

Definition private (x : point) : option Z :=
  match x with PReap np | PFork1 np | PFork2 np | PKthread np => Some np | _ => None end.

(** [P] the pids, [V] the object private to each CPU. *)
Record ids_inv (P : Z -> Z) (all : list Z) (h : Z -> list Z) (m : bitstr) (o : list Z) (V : Z -> option Z) : Prop := {
  id_all : forall p, p ∈ all -> p ∈ o;
  id_private : forall c p, V c = Some p -> p ∈ o /\ p ∉ all;
  id_once : forall c c' p, V c = Some p -> V c' = Some p -> c = c';
  id_place : forall p, p ∈ o -> p ∈ all \/ exists c, V c = Some p;
  id_pid : forall p, p ∈ o -> 0 < P p < KSTACK_NSLOTS /\ bit_test m (P p) = true;
  id_inj : forall p q, p ∈ o -> q ∈ o -> P p = P q -> p = q;
  id_map : bitstr_wf m /\ bit_test m 0 = true /\
    forall n, 0 < n < KSTACK_NSLOTS -> bit_test m n = true -> exists p, p ∈ o /\ P p = n;
  id_hash : forall b p, p ∈ h b <-> p ∈ all /\ bucket (P p) = b
}.

Section steps.
Context (P : Z -> Z) (all : list Z) (h : Z -> list Z) (m : bitstr) (o : list Z) (V : Z -> option Z) (H : ids_inv P all h m o V).

Lemma ids_ext P' V' : (forall p, P' p = P p) -> (forall c, V' c = V c) -> ids_inv P' all h m o V'.
Proof.
  destruct H as [I1 I2 I3 I4 I5 I6 I7 I8]. intros EP EV. split; try done.
  - intros c p. rewrite EV. apply I2.
  - intros c c' p. rewrite !EV. apply I3.
  - intros p Hp. destruct (I4 p Hp) as [| [c Hc]]; [by left | right; exists c; by rewrite EV].
  - intros p. rewrite EP. apply I5.
  - intros p q. rewrite !EP. apply I6.
  - destruct I7 as (W & Z0 & Hn). split; [done |]. split; [done |]. intros n H1 H2. destruct (Hn n H1 H2) as (p & Hp & E). exists p. by rewrite EP.
  - intros b p. rewrite EP. apply I8.
Qed.

Lemma ids_unlink c p : p ∈ all -> V c = None ->
  ids_inv P (without p all) (let b := bucket (P p) in h.[b <- without p (h b)]) m o (V.[c <- Some p]).
Proof.
  destruct H as [I1 I2 I3 I4 I5 I6 I7 I8]. intros Hp Hc.
  assert (Hv : forall c', V c' <> Some p) by (intros c' Hx; by destruct (I2 c' p Hx)).
  assert (HV : forall c' q, (V.[c <- Some p]) c' = Some q <-> (c' = c /\ q = p) \/ (c' <> c /\ V c' = Some q)).
  { intros c' q. destruct (decide (c' = c)) as [-> | Hn]; [rewrite upd_eq | rewrite upd_ne by done]; intuition congruence. }
  split; try done.
  - intros q [_ Hq]%elem_of_without. auto.
  - intros c' q. rewrite HV, elem_of_without. intros [[-> ->] | [Hn Hx]]; [split; [auto | tauto] |]. destruct (I2 c' q Hx). split; [done | tauto].
  - intros c1 c2 q. rewrite !HV. intros [[-> ->] | [Hn Hx]] [[-> Hq] | [Hn' Hx']]; try done; [by destruct (Hv c2) | subst q; by destruct (Hv c1) | by apply (I3 _ _ q)].
  - intros q Hq. destruct (decide (q = p)) as [-> | Hn]; [right; exists c; by rewrite upd_eq |].
    destruct (I4 q Hq) as [Hx | [c' Hx]]; [left; by apply elem_of_without |]. right. exists c'. apply HV. right. split; [| done]. congruence.
  - intros b q. cbn zeta. unfold upd. destruct (Z.eqb_spec b (bucket (P p))) as [-> | Hb]; rewrite ?elem_of_without, I8; [tauto |].
    split; [| tauto]. intros [Hq E]. split; [| done]. split; [| done]. intros ->. congruence.
Qed.

Lemma ids_publish c p : V c = Some p ->
  ids_inv P (p :: all) (let b := bucket (P p) in h.[b <- p :: h b]) m o (V.[c <- None]).
Proof.
  destruct H as [I1 I2 I3 I4 I5 I6 I7 I8]. intros Hc. destruct (I2 c p Hc) as [Ho Hn].
  assert (HV : forall c' q, (V.[c <- None]) c' = Some q <-> c' <> c /\ V c' = Some q).
  { intros c' q. destruct (decide (c' = c)) as [-> | Hx]; [rewrite upd_eq | rewrite upd_ne by done]; intuition congruence. }
  split; try done.
  - intros q [-> | Hq]%elem_of_cons; auto.
  - intros c' q. rewrite HV. intros [Hx Hq]. destruct (I2 c' q Hq) as [H1 H2]. split; [done |]. apply not_elem_of_cons. split; [| done].
    intros ->. apply Hx. by apply (I3 _ _ p).
  - intros c1 c2 q. rewrite !HV. intros [_ H1] [_ H2]. by apply (I3 _ _ q).
  - intros q Hq. destruct (decide (q = p)) as [-> | Hx]; [left; left |]. destruct (I4 q Hq) as [Hy | [c' Hy]]; [left; by right |].
    right. exists c'. apply HV. split; [| done]. congruence.
  - intros b q. cbn zeta. unfold upd. destruct (Z.eqb_spec b (bucket (P p))) as [-> | Hb]; rewrite ?elem_of_cons, I8.
    + split; [intros [-> | [? ?]]; tauto | intros [[-> | ?] ?]; tauto].
    + split; [tauto |]. intros [[-> | ?] ?]; [congruence | done].
Qed.

Lemma ids_free c p : V c = Some p -> ids_inv P all h (bit_clear m (P p)) (without p o) (V.[c <- None]).
Proof.
  destruct H as [I1 I2 I3 I4 I5 I6 I7 I8]. intros Hc. destruct (I2 c p Hc) as [Ho Hn]. destruct (I5 p Ho) as [Hr Hb].
  assert (HV : forall c' q, (V.[c <- None]) c' = Some q <-> c' <> c /\ V c' = Some q).
  { intros c' q. destruct (decide (c' = c)) as [-> | Hx]; [rewrite upd_eq | rewrite upd_ne by done]; intuition congruence. }
  assert (Hclr : forall n, 0 <= n -> bit_test (bit_clear m (P p)) n = if n =? P p then false else bit_test m n) by (intros n Hx; rewrite bit_test_clear by lia; by destruct (n =? P p)).
  destruct I7 as (W & Z0 & Hm). split.
  - intros q Hq. apply elem_of_without. split; [by intros -> | auto].
  - intros c' q. rewrite HV. intros [Hx Hq]. destruct (I2 c' q Hq) as [H1 H2]. split; [| done]. apply elem_of_without. split; [| done].
    intros ->. apply Hx. by apply (I3 _ _ p).
  - intros c1 c2 q. rewrite !HV. intros [_ H1] [_ H2]. by apply (I3 _ _ q).
  - intros q [Hx Hq]%elem_of_without. destruct (I4 q Hq) as [Hy | [c' Hy]]; [by left |]. right. exists c'. apply HV. split; [| done]. congruence.
  - intros q [Hx Hq]%elem_of_without. destruct (I5 q Hq) as [H1 H2]. split; [done |]. rewrite Hclr by lia.
    destruct (Z.eqb_spec (P q) (P p)) as [E |]; [| done]. by apply I6 in E.
  - intros q r [_ Hq]%elem_of_without [_ Hx]%elem_of_without. by apply I6.
  - split; [by apply bit_clear_wf |]. split; [rewrite Hclr by lia; destruct (Z.eqb_spec 0 (P p)); [lia | done] |].
    intros n H1 H2. rewrite Hclr in H2 by lia. destruct (Z.eqb_spec n (P p)) as [| E]; [done |]. destruct (Hm n H1 H2) as (q & Hq & Eq).
    exists q. split; [| done]. apply elem_of_without. split; [| done]. congruence.
  - done.
Qed.

Lemma ids_alloc c p n P' : p ∉ o -> V c = None -> 0 <= n < KSTACK_NSLOTS -> bit_test m n = false ->
  P' p = n -> (forall q, q <> p -> P' q = P q) -> ids_inv P' all h (bit_set m n) (p :: o) (V.[c <- Some p]).
Proof.
  destruct H as [I1 I2 I3 I4 I5 I6 I7 I8]. intros Hp Hc Hn Hb EP EQ. destruct I7 as (W & Z0 & Hm).
  assert (n <> 0) by (intros ->; congruence).
  assert (Hne : forall q, q ∈ o -> q <> p) by (by intros q Hq ->). assert (EQ' : forall q, q ∈ o -> P' q = P q) by (intros q Hq; apply EQ; auto).
  assert (Hset : forall i, 0 <= i -> bit_test (bit_set m n) i = if i =? n then true else bit_test m i) by (intros i Hx; rewrite bit_test_set by lia; by destruct (i =? n)).
  assert (HV : forall c' q, (V.[c <- Some p]) c' = Some q <-> (c' = c /\ q = p) \/ (c' <> c /\ V c' = Some q)).
  { intros c' q. destruct (decide (c' = c)) as [-> | Hx]; [rewrite upd_eq | rewrite upd_ne by done]; intuition congruence. }
  split.
  - intros q Hq. right. auto.
  - intros c' q. rewrite HV. intros [[-> ->] | [Hx Hy]]; [split; [left | intros Hz; by apply Hp, I1] |]. destruct (I2 c' q Hy). split; [by right | done].
  - intros c1 c2 q. rewrite !HV. intros [[-> ->] | [H1 H2]] [[-> Hq] | [H3 H4]]; try done.
    + by destruct (Hne p (proj1 (I2 _ _ H4))).
    + subst q. by destruct (Hne p (proj1 (I2 _ _ H2))).
    + by apply (I3 _ _ q).
  - intros q [-> | Hq]%elem_of_cons; [right; exists c; by rewrite upd_eq |]. destruct (I4 q Hq) as [Hx | [c' Hx]]; [by left |].
    right. exists c'. apply HV. right. split; [congruence | done].
  - intros q [-> | Hq]%elem_of_cons; [rewrite EP, Hset, Z.eqb_refl by lia; split; [lia | done] |]. rewrite EQ' by done.
    destruct (I5 q Hq) as [H1 H2]. split; [done |]. rewrite Hset by lia. by destruct (_ =? _).
  - assert (Hnew : forall q, q ∈ o -> P q <> n) by (intros q Hq E; destruct (I5 q Hq) as [_ Hx]; rewrite E in Hx; congruence).
    intros q r [-> | Hq]%elem_of_cons [-> | Hr]%elem_of_cons E; rewrite ?EP, ?EQ' in E by done; [done | by destruct (Hnew r) | by destruct (Hnew q) | by apply I6].
  - split; [apply bit_set_wf; [lia | done] |]. split; [rewrite Hset by lia; by destruct (0 =? n) |].
    intros i H1 H2. rewrite Hset in H2 by lia. destruct (Z.eqb_spec i n) as [-> | Hx]; [exists p; split; [left | done] |].
    destruct (Hm i H1 H2) as (q & Hq & E). exists q. split; [by right | by rewrite EQ'].
  - intros b q. rewrite I8. split; intros [Hq E]; (split; [done |]); rewrite EQ' in * by auto; done.
Qed.
End steps.
