(* ===== verification/ProcInv.v ===== *)
(** * Processes and scheduling: the invariant of the machine

    Every transition keeps [sched_inv] and [ids_inv], and keeps the lists that [wakeup]
    and [wait] walk within [allproc]. *)

From S2P Require Import Prelude Bits Mmu Proc ProcLock ProcSched ProcIds.

(** The processes a loop of CPU [c] still has to visit. *)
Definition todo_of (x : point) : list Z := match x with PWake _ todo _ | PScan todo _ _ => todo | _ => [] end.

Definition newborn (x : point) : option Z := match x with PFork1 np | PFork2 np | PKthread np => Some np | _ => None end.

Definition pids (k : kern) (p : Z) : Z := pid (procs k p).
Definition privates (k : kern) (c : Z) : option Z := private (pc k c).

Record tables_inv (k : kern) : Prop := {
  tv_sched : sched_inv (states k) (allproc k) (runq k) (modes k);
  tv_ids : ids_inv (pids k) (allproc k) (pidhash k) (pidmap k) (objs k) (privates k);
  tv_todo : forall c p, p ∈ todo_of (pc k c) -> p ∈ allproc k;
  tv_new : forall c np, newborn (pc k c) = Some np -> parent (procs k np) = None /\ saved k np <> RExit;
  tv_saved : forall p, p ∈ allproc k -> saved k p = RExit -> state (procs k p) = ZOMBIE;
  tv_resume : forall c, pc k c <> PResume RExit
}.

(** ** Lemmas *)

Lemma held_once k c c' l : lockinv k -> l ∈ held k c -> l ∈ held k c' -> c = c'.
Proof. intros [L _ _] H1 H2. apply (lh_owner _ _ L) in H1, H2. congruence. Qed.

Lemma newborn_private x np : newborn x = Some np -> private x = Some np.
Proof. by destruct x. Qed.

Lemma hop_facts k c x y : hop k c x y ->
  mode_of (cproc k c) x = mode_of (cproc k c) y /\ private x = private y /\ newborn x = newborn y /\
  (forall p, p ∈ todo_of y -> p ∈ todo_of x \/ p ∈ allproc k) /\ y <> PResume RExit.
Proof.
  destruct 1; cbn; repeat split; try done; try (by right); try (by intros ? ?%elem_of_nil); intros q Hq; left; by right.
Qed.

(** The places of a process whose lock is free. *)
Lemma unheld_on k c p : lockinv k -> unheld k (LProc p) -> on (modes k c) p -> modes k c = MDisp p \/ modes k c = MRun p.
Proof.
  intros Hl Hu [? | [? | Hs]]; [by left | by right |]. exfalso. apply (Hu c). unfold modes in Hs. unfold held.
  destruct (pc k c) eqn:E; cbn in Hs; try (by destruct (cproc k c)).
  - injection Hs as <-. left.
  - destruct w; try done; by destruct (cproc k c).
Qed.

Lemma not_on_sleeping k c p : lockinv k -> tables_inv k -> unheld k (LProc p) ->
  state (procs k p) = SLEEPING \/ state (procs k p) = ZOMBIE -> ~ on (modes k c) p.
Proof.
  intros Hl Ht Hu Hs Ho. destruct (sv_on _ _ _ _ (tv_sched _ Ht) c p Ho) as [_ Hf]. unfold states in Hf.
  destruct (unheld_on k c p Hl Hu Ho) as [E | E]; rewrite E in Hf; cbn in Hf; destruct Hs; congruence.
Qed.

Lemma allocproc_eq k np k1 : allocproc k (Some np) = (k1, Some np) ->
  let n := bit_ffc (pidmap k) KSTACK_NSLOTS in
  0 <= n /\ k1 = save (set_proc (set_pids k (bit_set (pidmap k) n) (np :: objs k)) np (Proc USED 0 0 0 n None)) np RFork.
Proof.
  unfold allocproc, pid_alloc. destruct (Z.geb_spec (bit_ffc (pidmap k) KSTACK_NSLOTS) 0), (Z.ltb_spec (bit_ffc (pidmap k) KSTACK_NSLOTS) 0); try done; try lia.
  intros [= <-]. done.
Qed.

(** The states after process [p] alone was written, and the modes after CPU [c] alone moved. *)
Ltac states_at := let q := fresh "q" in intros q; intros; unfold states; cbn; unfold upd; match goal with |- context [q =? ?p] =>
  destruct (Z.eqb_spec q p) as [-> |]; [by rewrite ?decide_True | by rewrite ?decide_False] end.
Ltac modes_at c Hpc := let c' := fresh "c'" in intros c'; unfold modes; cbn; unfold upd;
  destruct (Z.eqb_spec c' c) as [-> |]; [by rewrite ?Hpc | done].

(** The running process of [c] leaves it in state [s]. *)
Lemma sched_leave k k' c p s : tables_inv k -> modes k c = MRun p -> s = RUNNABLE \/ s = SLEEPING \/ s = ZOMBIE ->
  allproc k' = allproc k -> runq k' = runq k -> (forall q, states k' q = if decide (q = p) then s else states k q) ->
  (forall c', modes k' c' = ((modes k).[c <- MSwitch p]) c') -> sched_inv (states k') (allproc k') (runq k') (modes k').
Proof.
  intros Ht Hm Hs Ea Er Es Em. rewrite Ea, Er.
  refine (sched_ext _ _ _ _ (sched_move _ _ _ _ (tv_sched _ Ht) c p (MSwitch p) s _ _ _ _ _ _ _) _ _ _ _); try done.
  - rewrite Hm. right. by left.
  - right. by right.
  - by destruct Hs as [-> | [-> | ->]].
  - by destruct Hs as [-> | [-> | ->]].
  - right. by destruct Hs as [-> | [-> | ->]].
  - by right; left.
Qed.

(** A process that is asleep, its lock free, becomes runnable. *)
Lemma sched_woken k k' p : lockinv k -> tables_inv k -> p ∈ allproc k -> unheld k (LProc p) -> state (procs k p) = SLEEPING ->
  allproc k' = allproc k -> runq k' = runq k ++ [p] -> (forall q, states k' q = if decide (q = p) then RUNNABLE else states k q) ->
  (forall c', modes k' c' = modes k c') -> sched_inv (states k') (allproc k') (runq k') (modes k').
Proof.
  intros Hl Ht Hin Hu Hs Ea Er Es Em. rewrite Ea, Er.
  assert (Hno : forall c', ~ on (modes k c') p) by (intros c'; apply not_on_sleeping; auto).
  refine (sched_ext _ _ _ _ (sched_wake _ _ _ _ (tv_sched _ Ht) p Hin _ Hno) _ _ _ _); [unfold states; by rewrite Hs | done | done].
Qed.

Lemma sched_tr k c k' : lockinv k -> tables_inv k -> tr k c k' -> sched_inv (states k') (allproc k') (runq k') (modes k').
Proof.
  intros Hl Ht Htr. pose proof (tv_sched _ Ht) as HS. pose proof (li_point _ Hl c) as Hcp.
  induction Htr as [x y Hpc Hh | p q Hpc Eq | Hpc | p Hpc Hu Hs | p Hpc Hs | p Hpc | p ls Hpc Hp Hu | p ch lk s Hpc Hp | p lk s Hpc Hp
    | p ch todo w Hpc Hp Hu Hs Hch | p st Hpc Hp Hu | p st Hpc Hp Hu | p np todo hk xs Hpc Hp Hu Hpar Hz | np Hpc | p ls Hpc Hu Hu2 Hin
    | np k1 x Hpc Hnp Ha Hx | p np par Hpc Hp Hu1 Hu2 | k' o n r Htr IH].
  - (* hop *) apply (sched_ext _ _ _ _ HS); [done |]. destruct (hop_facts _ _ _ _ Hh) as [Em _].
    intros c'. unfold modes. cbn. unfold upd. destruct (Z.eqb_spec c' c) as [-> |]; [by rewrite Hpc, <- Em | done].
  - (* dequeue *) assert (Em : modes k c = MIdle) by (unfold modes; by rewrite Hpc).
    apply (sched_ext _ _ _ _ (sched_dequeue _ _ _ _ HS c p q Em Eq)); [done | modes_at c Hpc].
  - done.
  - (* dispatch *) assert (Ho : on (modes k c) p) by (unfold modes; rewrite Hpc; by left).
    refine (sched_ext _ _ _ _ (sched_move _ _ _ _ HS c p (MRun p) RUNNING Ho _ _ _ _ _ _) _ _ _ _); try done; [by right; left | by left | by right; right | states_at | modes_at c Hpc].
  - (* not runnable: excluded *) exfalso. assert (Ho : on (modes k c) p) by (unfold modes; rewrite Hpc; by left).
    destruct (sv_on _ _ _ _ HS c p Ho) as [_ Hf]. unfold modes in Hf. rewrite Hpc in Hf. by apply Hs.
  - (* return *) assert (Em : modes k c = MSwitch p) by (unfold modes; by rewrite Hpc). pose proof (sched_return _ _ _ _ HS c p Em) as HS'.
    cbn zeta. change (states k p) with (state (procs k p)) in HS'. cbn [set_cproc procs].
    destruct (decide _); (apply (sched_ext _ _ _ _ HS'); [done | modes_at c Hpc]).
  - (* yield *) apply (sched_leave k _ c p RUNNABLE Ht); [unfold modes; by rewrite Hpc, Hp | tauto | done | done | states_at | modes_at c Hpc].
  - (* sleep *) apply (sched_leave k _ c p SLEEPING Ht); [unfold modes; by rewrite Hpc, Hp | tauto | done | done | | modes_at c Hpc]. states_at.
  - (* resume from sleep *) apply (sched_ext _ _ _ _ HS); [states_at | modes_at c Hpc].
  - (* wake *) apply (sched_woken k _ p Hl Ht); [apply (tv_todo _ Ht c); rewrite Hpc; left | done | done | done | done | |].
    + states_at.
    + intros c'. unfold modes. cbn. unfold upd. destruct (Z.eqb_spec c' c) as [-> |]; [| done]. rewrite Hpc. by destruct w.
  - (* reparent *) apply (sched_ext _ _ _ _ HS); [| modes_at c Hpc]. intros q Hq. unfold states. cbn. by destruct (_ && _).
  - (* zombie *) apply (sched_leave k _ c p ZOMBIE Ht); [unfold modes; by rewrite Hpc, Hp | tauto | done | done | | modes_at c Hpc]. states_at.
  - (* unlink *) assert (Hno : forall c', ~ on (modes k c') np) by (intros c'; apply not_on_sleeping; auto).
    apply (sched_ext _ _ _ _ (sched_remove _ _ _ _ HS np Hz Hno)); [done | modes_at c Hpc].
  - (* free *) apply (sched_ext _ _ _ _ HS); [done |]. intros c'. unfold modes. cbn. unfold upd. destruct (Z.eqb_spec c' c) as [-> |]; [| done].
    by destruct Hpc as [-> | ->].
  - (* kill *) assert (Hall : p ∈ allproc k) by (by apply (id_hash _ _ _ _ _ _ (tv_ids _ Ht)) in Hin as [? _]).
    cbn zeta. cbn [procs set_proc set_procs]. rewrite upd_eq. cbn [set_killed state]. destruct (decide _) as [Hs | Hs].
    + apply (sched_woken k _ p Hl Ht); try done. states_at.
    + apply (sched_ext _ _ _ _ HS); [states_at | done].
  - (* alloc *) apply allocproc_eq in Ha as [_ ->]. apply (sched_ext _ _ _ _ HS).
    + intros q Hq. unfold states. cbn. rewrite upd_ne; [done |]. intros ->. by apply Hnp, (id_all _ _ _ _ _ _ (tv_ids _ Ht)).
    + intros c'. unfold modes. cbn. unfold upd. destruct (Z.eqb_spec c' c) as [-> |]; [| done]. rewrite Hpc. by destruct Hx as [-> | ->].
  - (* publish *) assert (Hv : privates k c = Some np) by (unfold privates; by destruct Hpc as [[-> _] | [-> _]]).
    destruct (id_private _ _ _ _ _ _ (tv_ids _ Ht) c np Hv) as [_ Hn].
    apply (sched_ext _ _ _ _ (sched_add _ _ _ _ HS np Hn)); [states_at |].
    intros c'. unfold modes. cbn. unfold upd. destruct (Z.eqb_spec c' c) as [-> |]; [| done]. by destruct Hpc as [[-> _] | [-> _]].
  - exact IH.
Qed.

(** The private objects after CPU [c] alone moved. *)
Ltac privates_at c Hpc := let c' := fresh "c'" in intros c'; unfold privates; cbn; unfold upd;
  destruct (Z.eqb_spec c' c) as [-> |]; [by rewrite ?Hpc | done].
Ltac pids_at := let q := fresh "q" in intros q; intros; unfold pids; cbn; unfold upd;
  repeat match goal with |- context [q =? ?p] => destruct (Z.eqb_spec q p) as [-> |] end; rewrite ?Z.eqb_refl; done.

Lemma ids_tr k c k' : tables_inv k -> tr k c k' -> ids_inv (pids k') (allproc k') (pidhash k') (pidmap k') (objs k') (privates k').
Proof.
  intros Ht Htr. pose proof (tv_ids _ Ht) as HV.
  induction Htr as [x y Hpc Hh | p q Hpc Eq | Hpc | p Hpc Hu Hs | p Hpc Hs | p Hpc | p ls Hpc Hp Hu | p ch lk s Hpc Hp | p lk s Hpc Hp
    | p ch todo w Hpc Hp Hu Hs Hch | p st Hpc Hp Hu | p st Hpc Hp Hu | p np todo hk xs Hpc Hp Hu Hpar Hz | np Hpc | p ls Hpc Hu Hu2 Hin
    | np k1 x Hpc Hnp Ha Hx | p np par Hpc Hp Hu1 Hu2 | k' o n r Htr IH].
  - apply (ids_ext _ _ _ _ _ _ HV); [done |]. destruct (hop_facts _ _ _ _ Hh) as (_ & Ev & _).
    intros c'. unfold privates. cbn. unfold upd. destruct (Z.eqb_spec c' c) as [-> |]; [by rewrite Hpc, <- Ev | done].
  - apply (ids_ext _ _ _ _ _ _ HV); [done | privates_at c Hpc].
  - done.
  - apply (ids_ext _ _ _ _ _ _ HV); [pids_at | privates_at c Hpc].
  - apply (ids_ext _ _ _ _ _ _ HV); [done | privates_at c Hpc].
  - cbn zeta. destruct (decide _); (apply (ids_ext _ _ _ _ _ _ HV); [done | privates_at c Hpc]).
  - apply (ids_ext _ _ _ _ _ _ HV); [pids_at | privates_at c Hpc].
  - apply (ids_ext _ _ _ _ _ _ HV); [pids_at | privates_at c Hpc].
  - apply (ids_ext _ _ _ _ _ _ HV); [pids_at | privates_at c Hpc].
  - apply (ids_ext _ _ _ _ _ _ HV); [pids_at | privates_at c Hpc].
  - apply (ids_ext _ _ _ _ _ _ HV); [| privates_at c Hpc]. intros q. unfold pids. cbn. by destruct (_ && _).
  - apply (ids_ext _ _ _ _ _ _ HV); [pids_at | privates_at c Hpc].
  - assert (Hv : privates k c = None) by (unfold privates; by rewrite Hpc).
    assert (Hin : np ∈ allproc k) by (apply (tv_todo _ Ht c); rewrite Hpc; left).
    apply (ids_ext _ _ _ _ _ _ (ids_unlink _ _ _ _ _ _ HV c np Hin Hv)); [done | privates_at c Hpc].
  - assert (Hv : privates k c = Some np) by (unfold privates; by destruct Hpc as [-> | ->]).
    apply (ids_ext _ _ _ _ _ _ (ids_free _ _ _ _ _ _ HV c np Hv)); [done | privates_at c Hpc].
  - cbn zeta. destruct (decide _); (apply (ids_ext _ _ _ _ _ _ HV); [pids_at | done]).
  - assert (Hv : privates k c = None) by (unfold privates; by rewrite Hpc). apply allocproc_eq in Ha as [Hn ->].
    destruct (id_map _ _ _ _ _ _ HV) as (Hwf & _). destruct (bit_ffc_cases (pidmap k) KSTACK_NSLOTS Hwf ltac:(done)) as [[E _] | (Hr & Hb & _)]; [lia |].
    set (n := bit_ffc (pidmap k) KSTACK_NSLOTS) in *. set (P' := fun q => if q =? np then n else pids k q).
    assert (HA : ids_inv P' (allproc k) (pidhash k) (bit_set (pidmap k) n) (np :: objs k) ((privates k).[c <- Some np])).
    { apply (ids_alloc _ _ _ _ _ _ HV); try done; unfold P'; [by rewrite Z.eqb_refl |]. intros q Hq. by destruct (Z.eqb_spec q np). }
    apply (ids_ext _ _ _ _ _ _ HA).
    + intros q. unfold pids, P'. cbn. unfold upd. by destruct (q =? np).
    + intros c'. unfold privates. cbn. unfold upd. destruct (Z.eqb_spec c' c) as [-> |]; [by destruct Hx as [-> | ->] | done].
  - assert (Hv : privates k c = Some np) by (unfold privates; by destruct Hpc as [[-> _] | [-> _]]).
    apply (ids_ext _ _ _ _ _ _ (ids_publish _ _ _ _ _ _ HV c np Hv)); [pids_at | privates_at c Hpc].
  - exact IH.
Qed.

(** A loop that walks [allproc] holds [ptable_lock]. *)
Lemma todo_held k c p : p ∈ todo_of (pc k c) -> LPtable ∈ held k c.
Proof. unfold held. destruct (pc k c); cbn; try (by intros ?%elem_of_nil); intros _; left. Qed.

Lemma todo_upd k k' c y : (forall c' p, p ∈ todo_of (pc k c') -> p ∈ allproc k) -> pc k' = (pc k).[c <- y] ->
  (forall p, p ∈ allproc k -> p ∈ allproc k') -> (forall p, p ∈ todo_of y -> p ∈ allproc k') ->
  forall c' p, p ∈ todo_of (pc k' c') -> p ∈ allproc k'.
Proof.
  intros Ht E Ha Hy c' p. rewrite E. unfold upd. destruct (Z.eqb_spec c' c) as [-> |]; [apply Hy |]. intros Hp. by apply Ha, (Ht c').
Qed.

Lemma todo_tr k c k' : lockinv k -> tables_inv k -> tr k c k' -> forall c' p, p ∈ todo_of (pc k' c') -> p ∈ allproc k'.
Proof.
  intros Hl Ht Htr. pose proof (tv_todo _ Ht) as HT.
  induction Htr as [x y Hpc Hh | p q Hpc Eq | Hpc | p Hpc Hu Hs | p Hpc Hs | p Hpc | p ls Hpc Hp Hu | p ch lk s Hpc Hp | p lk s Hpc Hp
    | p ch todo w Hpc Hp Hu Hs Hch | p st Hpc Hp Hu | p st Hpc Hp Hu | p np todo hk xs Hpc Hp Hu Hpar Hz | np Hpc | p ls Hpc Hu Hu2 Hin
    | np k1 x Hpc Hnp Ha Hx | p np par Hpc Hp Hu1 Hu2 | k' o n r Htr IH];
    try (eapply (todo_upd k); [exact HT | reflexivity | done | by intros ? ?%elem_of_nil]).
  - eapply (todo_upd k); [exact HT | reflexivity | done |]. destruct (hop_facts _ _ _ _ Hh) as (_ & _ & _ & Hy & _).
    intros p Hp. destruct (Hy p Hp); [| done]. apply (HT c). by rewrite Hpc.
  - done.
  - cbn zeta. destruct (decide _); (eapply (todo_upd k); [exact HT | reflexivity | done | by intros ? ?%elem_of_nil]).
  - eapply (todo_upd k); [exact HT | reflexivity | done |]. intros q Hq. apply (HT c). rewrite Hpc. by right.
  - intros c' q. cbn. destruct (decide (c' = c)) as [-> | Hn]; [rewrite upd_eq; by intros ?%elem_of_nil | rewrite upd_ne by done].
    intros Hq. exfalso. apply Hn. apply (held_once k c' c LPtable Hl); [by eapply todo_held |]. unfold held. rewrite Hpc. left.
  - cbn zeta. destruct (decide _); done.
  - apply allocproc_eq in Ha as [_ ->]. eapply (todo_upd k); [exact HT | reflexivity | done |]. destruct Hx as [-> | ->]; by intros ? ?%elem_of_nil.
  - eapply (todo_upd k); [exact HT | reflexivity | by right | by intros ? ?%elem_of_nil].
  - exact IH.
Qed.

Definition exits_ok (k : kern) : Prop :=
  (forall c np, newborn (pc k c) = Some np -> parent (procs k np) = None /\ saved k np <> RExit) /\
  (forall p, p ∈ allproc k -> saved k p = RExit -> state (procs k p) = ZOMBIE) /\ (forall c, pc k c <> PResume RExit).

Lemma exits_frame k k' c y : tables_inv k -> pc k' = (pc k).[c <- y] -> (newborn y = newborn (pc k c) \/ newborn y = None) -> y <> PResume RExit ->
  (forall p, p ∈ allproc k' -> p ∈ allproc k) ->
  (forall q, q ∉ allproc k -> procs k' q = procs k q /\ saved k' q = saved k q) ->
  (forall q, q ∈ allproc k -> saved k' q = RExit -> state (procs k' q) = ZOMBIE) -> exits_ok k'.
Proof.
  intros Ht E Hy Hr Ha Hf Hs. pose proof Ht as [_ HV _ HN _ HR]. split; [| split].
  - intros c' np Hc. assert (Hc' : exists c0, newborn (pc k c0) = Some np).
    { rewrite E in Hc. unfold upd in Hc. destruct (Z.eqb_spec c' c) as [-> |]; [| by exists c']. exists c. destruct Hy as [<- | Hy]; congruence. }
    destruct Hc' as [c0 Hc0]. destruct (HN c0 np Hc0) as [H1 H2].
    destruct (id_private _ _ _ _ _ _ HV c0 np (newborn_private _ _ Hc0)) as [_ Hn]. destruct (Hf np Hn) as [-> ->]. done.
  - intros p Hp. apply Hs. by apply Ha.
  - intros c'. rewrite E. unfold upd. by destruct (Z.eqb_spec c' c).
Qed.

Lemma in_allproc k c p : tables_inv k -> on (modes k c) p -> p ∈ allproc k.
Proof. intros Ht Ho. by apply (sv_on _ _ _ _ (tv_sched _ Ht) c p Ho). Qed.

Lemma run_allproc k c p : tables_inv k -> cproc k c = Some p -> modes k c = MRun p \/ modes k c = MSwitch p -> p ∈ allproc k /\ fits (modes k c) (states k p).
Proof. intros Ht _ Hm. apply (sv_on _ _ _ _ (tv_sched _ Ht) c p). unfold on. tauto. Qed.

(** A running process has not exited. *)
Lemma running_saved k c p : tables_inv k -> modes k c = MRun p -> p ∈ allproc k /\ state (procs k p) = RUNNING /\ saved k p <> RExit.
Proof.
  intros Ht Hm. assert (Ho : on (modes k c) p) by (rewrite Hm; right; by left).
  destruct (sv_on _ _ _ _ (tv_sched _ Ht) c p Ho) as [H1 H2]. rewrite Hm in H2. cbn in H2. unfold states in H2.
  split; [done |]. split; [done |]. intros E. rewrite (tv_saved _ Ht p H1 E) in H2. done.
Qed.

Ltac outside := let q := fresh "q" in let Hq := fresh "Hq" in intros q Hq; cbn; rewrite ?upd_ne by (by intros ->); done.
(** The saved context of the processes, process [p] alone written. *)
Ltac saved_at p HX := let q := fresh "q" in let Hq := fresh "Hq" in intros q Hq; cbn; unfold upd;
  destruct (Z.eqb_spec q p) as [-> |]; cbn; [try done | by apply HX].

Lemma exits_tr k c k' : lockinv k -> tables_inv k -> tr k c k' -> exits_ok k'.
Proof.
  intros Hl Ht Htr. pose proof Ht as [HS HV HT HN HX HR].
  induction Htr as [x y Hpc Hh | p q Hpc Eq | Hpc | p Hpc Hu Hs | p Hpc Hs | p Hpc | p ls Hpc Hp Hu | p ch lk s Hpc Hp | p lk s Hpc Hp
    | p ch todo w Hpc Hp Hu Hs Hch | p st Hpc Hp Hu | p st Hpc Hp Hu | p np todo hk xs Hpc Hp Hu Hpar Hz | np Hpc | p ls Hpc Hu Hu2 Hin
    | np k1 x Hpc Hnp Ha Hx | p np par Hpc Hp Hu1 Hu2 | k' o n r Htr IH].
  - destruct (hop_facts _ _ _ _ Hh) as (_ & _ & En & _ & Hy). eapply (exits_frame k _ c y Ht); try done. left. by rewrite Hpc.
  - eapply (exits_frame k _ c (PDispatch p) Ht); try done. by right.
  - done.
  - assert (Ho : p ∈ allproc k) by (apply (in_allproc k c p Ht); unfold modes; rewrite Hpc; by left).
    eapply (exits_frame k _ c (PResume (saved k p)) Ht); try done; [by right | intros [= E]; rewrite (HX p Ho E) in Hs; done | outside |].
    saved_at p HX. intros E. rewrite (HX p Ho E) in Hs. done.
  - eapply (exits_frame k _ c PSched Ht); try done. by right.
  - cbn zeta. destruct (decide _); (eapply (exits_frame k _ c PSched Ht); try done; by right).
  - destruct (running_saved k c p Ht) as (Ho & _); [unfold modes; by rewrite Hpc, Hp |].
    eapply (exits_frame k _ c (PSwitched p) Ht); try done; [by right | outside | saved_at p HX].
  - destruct (running_saved k c p Ht) as (Ho & _); [unfold modes; by rewrite Hpc, Hp |].
    eapply (exits_frame k _ c (PSwitched p) Ht); try done; [by right | outside | saved_at p HX].
  - destruct (running_saved k c p Ht) as (Ho & _); [unfold modes; by rewrite Hpc, Hp |].
    eapply (exits_frame k _ c (PRelock lk s) Ht); try done; [by right | outside | saved_at p HX; by apply HX].
  - assert (Ho : p ∈ allproc k) by (apply (HT c); rewrite Hpc; left).
    eapply (exits_frame k _ c (PWake ch todo w) Ht); try done; [by right | outside | saved_at p HX]. intros E. rewrite (HX p Ho E) in Hs. done.
  - eapply (exits_frame k _ c (PExit2 st) Ht); try done; [by right | |].
    + intros q Hq. cbn. by rewrite bool_decide_false.
    + intros q Hq E. cbn. destruct (_ && _); by apply HX.
  - destruct (running_saved k c p Ht) as (Ho & _); [unfold modes; by rewrite Hpc, Hp |].
    eapply (exits_frame k _ c (PSwitched p) Ht); try done; [by right | outside | saved_at p HX].
  - eapply (exits_frame k _ c (PReap np) Ht); try done; [by right |]. by intros q [_ ?]%elem_of_without.
  - eapply (exits_frame k _ c (PRun []) Ht); try done. by right.
  - assert (Ho : p ∈ allproc k) by (by apply (id_hash _ _ _ _ _ _ HV) in Hin as [? _]).
    cbn zeta. eapply (exits_frame k _ c (pc k c) Ht); try done.
    + destruct (decide _); cbn; by rewrite upd_same.
    + by left.
    + by destruct (decide _).
    + destruct (decide _); outside.
    + cbn [procs set_proc set_procs]. rewrite upd_eq. cbn [set_killed state]. destruct (decide _) as [Hs | Hs].
      * saved_at p HX. intros E. rewrite (HX p Ho E) in Hs. done.
      * saved_at p HX. by apply HX.
  - apply allocproc_eq in Ha as [_ ->]. assert (Hall : np ∉ allproc k) by (intros Hq; by apply Hnp, (id_all _ _ _ _ _ _ HV)). split; [| split].
    + intros c' q. cbn. unfold upd. destruct (Z.eqb_spec c' c) as [-> | Hc].
      * intros Hq. assert (q = np) as -> by (destruct Hx as [-> | ->]; cbn in Hq; congruence). by rewrite Z.eqb_refl.
      * intros Hq. destruct (Z.eqb_spec q np) as [-> |]; [done | by apply (HN c')].
    + intros q Hq. cbn. rewrite !upd_ne by (by intros ->). by apply HX.
    + intros c'. cbn. unfold upd. destruct (Z.eqb_spec c' c) as [-> | Hc]; [by destruct Hx as [-> | ->] | done].
  - assert (Hb : newborn (pc k c) = Some np) by (by destruct Hpc as [[-> _] | [-> _]]). destruct (HN c np Hb) as [Hb1 Hb2].
    split; [| split].
    + intros c' q. cbn. unfold upd. destruct (Z.eqb_spec c' c) as [-> | Hc]; [done |]. intros Hq.
      assert (q <> np) by (intros ->; apply Hc; apply (id_once _ _ _ _ _ _ HV c' c np); by apply newborn_private).
      destruct (Z.eqb_spec q np); [done |]. by apply (HN c').
    + intros q. cbn. unfold upd. destruct (Z.eqb_spec q np) as [-> |]; [done |]. intros [-> | Hq]%elem_of_cons; [done | by apply HX].
    + intros c'. cbn. unfold upd. by destruct (Z.eqb_spec c' c).
  - exact IH.
Qed.

Lemma tables_tr k c k' : lockinv k -> tables_inv k -> tr k c k' -> tables_inv k'.
Proof.
  intros Hl Ht Htr. destruct (exits_tr k c k' Hl Ht Htr) as (H1 & H2 & H3).
  split; [by eapply sched_tr | by eapply ids_tr | by eapply todo_tr | done | done | done].
Qed.

Lemma boot_tables init : tables_inv (boot init).
Proof.
  split; cbn; try done.
  - split; try done; try apply NoDup_singleton.
    + intros p ->%list_elem_of_singleton. split; [left |]. split; [done |]. intros c [? | [? | ?]]; done.
    + intros c p [? | [? | ?]]; done.
    + intros c c' p [? | [? | ?]]; done.
    + intros p ->%list_elem_of_singleton _. left. left.
  - split; try done.
    + intros p Hp. by left.
    + intros p q ->%list_elem_of_singleton ->%list_elem_of_singleton. done.
    + split; [repeat apply bit_set_wf; done || (intros i; lia) |]. split; [done |]. intros n Hn. rewrite !bit_test_set by lia.
      destruct (Z.eqb_spec n 1) as [-> |]; [exists init; split; [left | done] |]. destruct (Z.eqb_spec n 0); [lia |].
      cbn. rewrite bit_test_spec by lia. by rewrite Z.bits_0.
    + intros b p. destruct (Z.eqb_spec b (bucket 1)) as [-> | Hb]; [tauto |]. split; [by intros ?%elem_of_nil |]. intros [_ <-]. done.
  - by intros c p ?%elem_of_nil.
Qed.
