(* ===== verification/ProcFamily.v ===== *)
(** * Processes and scheduling: parents

    Parent pointers point at live processes, a process past the reparenting in [exit] has
    no children, and init never exits. *)

From S2P Require Import Prelude Bits Mmu Proc ProcLock ProcSched ProcIds ProcInv.

(** ** Specification: families *)

(** Points of [exit] after the reparenting. *)
Definition exiting (x : point) : bool :=
  match x with PExit2 _ | PExit3 _ | PExit4 _ | PWake _ _ (WExit1 _) | PWake _ _ (WExit2 _) => true | _ => false end.

Definition in_exit (x : point) : bool := match x with PExit1 _ => true | _ => exiting x end.

Definition gone (k : kern) (q : Z) : Prop :=
  state (procs k q) = ZOMBIE \/ exists c, cproc k c = Some q /\ exiting (pc k c) = true.

Record family_inv (k : kern) : Prop := {
  fm_init : initproc k ∈ allproc k /\ state (procs k (initproc k)) <> ZOMBIE /\ parent (procs k (initproc k)) = None;
  fm_noexit : forall c, in_exit (pc k c) = true -> cproc k c <> Some (initproc k);
  fm_parent : forall p q, p ∈ allproc k -> parent (procs k p) = Some q -> q ∈ allproc k /\ q <> p;
  fm_gone : forall p q, gone k q -> p ∈ allproc k -> parent (procs k p) <> Some q
}.

(** ** Lemmas: families *)

Lemma tr_init k c k' : tr k c k' -> initproc k' = initproc k.
Proof.
  induction 1 as [| | | | | ? ? | | | | | | | | | ? ? | ? ? ? ? ? Ha ? | |]; try done.
  - cbn zeta. by destruct (decide _).
  - cbn zeta. by destruct (decide _).
  - apply allocproc_eq in Ha as [_ ->]. done.
Qed.

Lemma exit_point_run k c q : lockinv k -> cproc k c = Some q -> in_exit (pc k c) = true -> modes k c = MRun q.
Proof.
  intros Hl Hc He. unfold modes. rewrite Hc. pose proof (li_point _ Hl c) as Hp. rewrite Hc in Hp.
  destruct (pc k c); try done. by destruct w.
Qed.

(** A process on a CPU outside [exit], or one not running, is not gone unless a zombie. *)
Lemma not_gone k c p : lockinv k -> tables_inv k -> modes k c = MRun p -> exiting (pc k c) = false -> ~ gone k p.
Proof.
  intros Hl Ht Hm He [Hz | (c' & Hc' & He')].
  - destruct (running_saved k c p Ht Hm) as (_ & E & _). congruence.
  - assert (Hm' : modes k c' = MRun p) by (apply exit_point_run; [done | done |]; destruct (pc k c'); done).
    assert (c = c') as <-; [| congruence].
    apply (sv_once _ _ _ _ (tv_sched _ Ht) c c' p); [rewrite Hm | rewrite Hm']; right; by left.
Qed.

Lemma hop_exits k c x y : hop k c x y -> (exiting y = true -> exiting x = true) /\
  (in_exit y = true -> in_exit x = true \/ cproc k c <> Some (initproc k)).
Proof. destruct 1; cbn; split; try done; try (by left); try (by right). all: destruct w; try done; by left. Qed.

Lemma family_frame k k' c y : family_inv k -> pc k' = (pc k).[c <- y] -> initproc k' = initproc k -> allproc k' = allproc k ->
  (forall c', c' <> c -> cproc k' c' = cproc k c') ->
  (exiting y = true -> exiting (pc k c) = true /\ cproc k' c = cproc k c) ->
  (in_exit y = true -> cproc k' c <> Some (initproc k)) ->
  (forall q, q ∈ allproc k -> parent (procs k' q) = parent (procs k q)) ->
  (forall q, state (procs k' q) = ZOMBIE -> gone k q) -> family_inv k'.
Proof.
  intros [F1 F2 F3 F4] Ep Ei Ea Ec He Hi Hpar Hz. destruct F1 as (I1 & I2 & I3).
  assert (Hg : forall q, gone k' q -> gone k q).
  { intros q [Hs | (c' & Hc & Hx)]; [by apply Hz |]. right. rewrite Ep in Hx. unfold upd in Hx.
    destruct (Z.eqb_spec c' c) as [-> | Hn]; [| exists c'; by rewrite <- Ec].
    destruct (He Hx) as [Hy E]. exists c. by rewrite <- E. }
  split; rewrite ?Ei, ?Ea.
  - split; [done |]. split; [| by rewrite Hpar]. intros Hs. apply Hz in Hs as [Hs | (c' & Hc & Hx)]; [done |].
    apply (F2 c'); [| done]. by destruct (pc k c').
  - intros c'. rewrite Ep. unfold upd. destruct (Z.eqb_spec c' c) as [-> | Hn]; [done |]. rewrite Ec by done. apply F2.
  - intros p q Hp. rewrite Hpar by done. by apply F3.
  - intros p q Hq Hp. rewrite Hpar by done. apply F4; auto.
Qed.

Ltac parents_at := let q := fresh "q" in intros q _; cbn; unfold upd;
  match goal with |- context [q =? ?p] => by destruct (Z.eqb_spec q p) as [-> |] end.
Ltac zombies_at := let q := fresh "q" in intros q; cbn; unfold upd;
  match goal with |- context [q =? ?p] => destruct (Z.eqb_spec q p) as [-> |]; [done | by left] end.

Lemma family_reparent k c p st : lockinv k -> tables_inv k -> family_inv k -> pc k c = PExit1 st -> cproc k c = Some p ->
  family_inv (goto (reparent k p) c (PExit2 st)).
Proof.
  intros Hl Ht [F1 F2 F3 F4] Hpc Hp. destruct F1 as (I1 & I2 & I3).
  assert (Hpi : p <> initproc k) by (intros ->; by apply (F2 c); rewrite ?Hpc).
  assert (Hst : forall q, state (procs (reparent k p) q) = state (procs k q)) by (intros q; cbn; by destruct (_ && _)).
  assert (Hpar : forall q, q ∈ allproc k -> parent (procs (reparent k p) q) = if decide (parent (procs k q) = Some p) then Some (initproc k) else parent (procs k q)).
  { intros q Hq. cbn. rewrite bool_decide_true by done. cbn [andb]. destruct (decide _); [by rewrite bool_decide_true | by rewrite bool_decide_false]. }
  assert (Hg : forall q, gone (goto (reparent k p) c (PExit2 st)) q -> q = p \/ gone k q).
  { intros q [Hs | (c' & Hc & Hx)]; [right; left; cbn in Hs; by destruct (_ && _) |]. cbn in Hc, Hx. unfold upd in Hx.
    destruct (Z.eqb_spec c' c) as [-> | Hn]; [left; congruence |]. right. right. by exists c'. }
  split; cbn [initproc allproc goto reparent set_procs procs]; fold (reparent k p).
  - split; [done |]. change (procs (reparent k p) (initproc k)) with (procs (goto (reparent k p) c (PExit2 st)) (initproc k)).
    split; [cbn; by destruct (_ && _) |]. change (parent (procs (reparent k p) (initproc k)) = None). rewrite Hpar by done. rewrite decide_False; [done |]. rewrite I3. done.
  - intros c' Hx. destruct (decide (c' = c)) as [-> | Hn]; [cbn; congruence |]. apply F2. cbn in Hx. by rewrite upd_ne in Hx.
  - intros q r Hq. change (parent (procs (reparent k p) q) = Some r -> r ∈ allproc k /\ r <> q). rewrite Hpar by done.
    destruct (decide _) as [E | E]; [| by apply F3]. intros [= <-]. split; [done |]. intros <-. congruence.
  - intros q r Hr Hq. change (parent (procs (reparent k p) q) <> Some r). rewrite Hpar by done. destruct (decide _) as [E | E].
    + intros [= <-]. destruct (Hg _ Hr) as [E' | [Hz | (c' & Hc & Hx)]]; [congruence | done |]. apply (F2 c'); [by destruct (pc k c') | done].
    + destruct (Hg _ Hr) as [-> | Hx]; [done |]. by apply F4.
Qed.

Lemma family_publish k c p np par : lockinv k -> tables_inv k -> family_inv k ->
  (pc k c = PFork2 np /\ par = Some p \/ pc k c = PKthread np /\ par = None) -> cproc k c = Some p ->
  let h := pidhash k in let b := bucket (pid (procs k np)) in
  let q := match par with Some q => Some q | None => parent (procs k np) end in
  let k1 := set_tables k (np :: allproc k) (h.[b <- np :: h b]) in
  let k2 := set_proc k1 np (set_state (set_parent (procs k1 np) q) RUNNABLE) in
  family_inv (goto (runq_enqueue k2 np) c (PRun [])).
Proof.
  intros Hl Ht [F1 F2 F3 F4] Hpc Hp h b q k1 k2. destruct F1 as (I1 & I2 & I3).
  assert (Hb : newborn (pc k c) = Some np) by (by destruct Hpc as [[-> _] | [-> _]]).
  destruct (tv_new _ Ht c np Hb) as [Hb1 _]. destruct (id_private _ _ _ _ _ _ (tv_ids _ Ht) c np (newborn_private _ _ Hb)) as [_ Hn].
  assert (Hm : modes k c = MRun p) by (unfold modes; rewrite Hp; by destruct Hpc as [[-> _] | [-> _]]).
  destruct (running_saved k c p Ht Hm) as (Hall & _). assert (Hng : ~ gone k p) by (apply (not_gone k c); try done; by destruct Hpc as [[-> _] | [-> _]]).
  assert (Hq : q = Some p \/ q = None) by (unfold q; destruct Hpc as [[_ ->] | [_ ->]]; auto).
  assert (Hpr : forall r, r <> np -> procs k2 r = procs k r) by (intros r Hr; unfold k2, k1; cbn; by rewrite upd_ne).
  assert (Hpn : procs k2 np = set_state (set_parent (procs k np) q) RUNNABLE) by (unfold k2, k1; cbn; by rewrite upd_eq).
  assert (Hne : forall r, r ∈ allproc k -> r <> np) by (by intros r Hr ->).
  assert (Hg : forall r, gone (goto (runq_enqueue k2 np) c (PRun [])) r -> gone k r).
  { intros r [Hs | (c' & Hc & Hx)].
    - change (state (procs k2 r) = ZOMBIE) in Hs. destruct (decide (r = np)) as [-> |]; [by rewrite Hpn in Hs | left; by rewrite Hpr in Hs].
    - right. cbn in Hc, Hx. unfold upd in Hx. destruct (Z.eqb_spec c' c) as [-> |]; [done |]. by exists c'. }
  split.
  - change (initproc k ∈ np :: allproc k /\ state (procs k2 (initproc k)) <> ZOMBIE /\ parent (procs k2 (initproc k)) = None).
    rewrite Hpr by auto. split; [by right | done].
  - intros c' Hx. destruct (decide (c' = c)) as [-> | Hc]; [cbn in Hx; by rewrite upd_eq in Hx |]. apply F2. cbn in Hx. by rewrite upd_ne in Hx.
  - intros r s Hr. change (parent (procs k2 r) = Some s -> s ∈ np :: allproc k /\ s <> r). change (r ∈ np :: allproc k) in Hr.
    apply elem_of_cons in Hr as [-> | Hr].
    + rewrite Hpn. cbn. intros E. assert (s = p) as -> by (destruct Hq; congruence). split; [by right | auto].
    + rewrite Hpr by auto. intros E. destruct (F3 r s Hr E). split; [by right | done].
  - intros r s Hs Hr. change (parent (procs k2 r) <> Some s). change (r ∈ np :: allproc k) in Hr. apply Hg in Hs.
    apply elem_of_cons in Hr as [-> | Hr]; [rewrite Hpn; cbn; intros E; assert (s = p) as -> by (destruct Hq; congruence); done |].
    rewrite Hpr by auto. by apply F4.
Qed.

Lemma family_tr k c k' : lockinv k -> tables_inv k -> family_inv k -> tr k c k' -> family_inv k'.
Proof.
  intros Hl Ht Hf Htr. pose proof Hf as [F1 F2 F3 F4]. pose proof (tv_todo _ Ht) as HT.
  induction Htr as [x y Hpc Hh | p q Hpc Eq | Hpc | p Hpc Hu Hs | p Hpc Hs | p Hpc | p ls Hpc Hp Hu | p ch lk s Hpc Hp | p lk s Hpc Hp
    | p ch todo w Hpc Hp Hu Hs Hch | p st Hpc Hp Hu | p st Hpc Hp Hu | p np todo hk xs Hpc Hp Hu Hpar Hz | np Hpc | p ls Hpc Hu Hu2 Hin
    | np k1 x Hpc Hnp Ha Hx | p np par Hpc Hp Hu1 Hu2 | k' o n r Htr IH].
  - destruct (hop_exits _ _ _ _ Hh) as [H1 H2]. apply (family_frame k _ c y Hf); try done; [rewrite Hpc; auto | | by left].
    intros Hx. destruct (H2 Hx); [| done]. apply F2. by rewrite Hpc.
  - apply (family_frame k _ c (PDispatch p) Hf); try done. by left.
  - done.
  - apply (family_frame k _ c (PResume (saved k p)) Hf); try done; [intros c' Hc; cbn; by rewrite upd_ne | parents_at | zombies_at].
  - apply (family_frame k _ c PSched Hf); try done. by left.
  - cbn zeta. destruct (decide _); (apply (family_frame k _ c PSched Hf); try done; [intros c' Hc; cbn; by rewrite upd_ne | by left]).
  - apply (family_frame k _ c (PSwitched p) Hf); try done; [parents_at | zombies_at].
  - apply (family_frame k _ c (PSwitched p) Hf); try done; [parents_at | zombies_at].
  - apply (family_frame k _ c (PRelock lk s) Hf); try done; [parents_at |]. intros q. cbn. unfold upd. destruct (Z.eqb_spec q p) as [-> |]; by left.
  - apply (family_frame k _ c (PWake ch todo w) Hf); try done; [by rewrite Hpc | | parents_at | zombies_at].
    intros Hx. apply F2. rewrite Hpc. by destruct w.
  - by apply family_reparent.
  - assert (Hm : modes k c = MRun p) by (unfold modes; by rewrite Hpc, Hp).
    apply (family_frame k _ c (PSwitched p) Hf); try done; [parents_at |].
    intros q. cbn. unfold upd. destruct (Z.eqb_spec q p) as [-> |]; [| by left]. intros _. right. exists c. by rewrite Hpc.
  - assert (Hn : forall q, gone k np -> parent (procs k q) = Some np -> q ∉ allproc k) by (intros q Hq E Hi; by apply (F4 q np)).
    assert (Hg : gone k np) by (by left). destruct F1 as (I1 & I2 & I3). split.
    + split; [| done]. apply elem_of_without. split; [| done]. intros E. apply I2. rewrite <- Hz. by do 2 f_equal.
    + intros c' Hx. destruct (decide (c' = c)) as [-> | Hc]; [cbn in Hx; by rewrite upd_eq in Hx |]. apply F2. cbn in Hx. by rewrite upd_ne in Hx.
    + intros q r [_ Hq]%elem_of_without E. destruct (F3 q r Hq E). split; [| done]. apply elem_of_without. split; [| done]. intros ->. by apply (Hn q).
    + intros q r Hr [_ Hq]%elem_of_without. apply F4; [| done]. destruct Hr as [Hs | (c' & Hc & Hx)]; [by left |]. right. exists c'. cbn in Hc, Hx.
      unfold upd in Hx. destruct (Z.eqb_spec c' c); done.
  - apply (family_frame k _ c (PRun []) Hf); try done. by left.
  - cbn zeta. apply (family_frame k _ c (pc k c) Hf); try done.
    + destruct (decide _); cbn; by rewrite upd_same.
    + by destruct (decide _).
    + by destruct (decide _).
    + by destruct (decide _).
    + rewrite Hpc. done.
    + rewrite Hpc. done.
    + cbn [procs set_proc set_procs]. rewrite upd_eq. cbn [set_killed state]. destruct (decide _); intros q _; cbn; unfold upd;
        by destruct (Z.eqb_spec q p) as [-> |]; rewrite ?Z.eqb_refl.
    + cbn [procs set_proc set_procs]. rewrite upd_eq. cbn [set_killed state]. destruct (decide _); intros q; cbn; unfold upd;
        destruct (Z.eqb_spec q p) as [-> |]; try done; by left.
  - apply allocproc_eq in Ha as [_ ->]. assert (Hall : np ∉ allproc k) by (intros Hq; by apply Hnp, (id_all _ _ _ _ _ _ (tv_ids _ Ht))).
    apply (family_frame k _ c x Hf); try done; [by destruct Hx as [-> | ->] | by destruct Hx as [-> | ->] | |].
    + intros q Hq. cbn. by rewrite upd_ne by (by intros ->).
    + intros q. cbn. unfold upd. destruct (Z.eqb_spec q np); [done | by left].
  - by apply (family_publish k c p np par).
  - specialize (IH). destruct IH as [G1 G2 G3 G4]. by split.
Qed.

Lemma boot_family init : family_inv (boot init).
Proof. split; cbn; try done. split; [left | done]. Qed.
