(* ===== verification/ProcWait.v ===== *)
(** * Processes and scheduling: wait and exit

    While nobody is inside [exit], a process asleep in [wait] has no zombie child: the
    wakeup that announces one is never lost. *)

From S2P Require Import Prelude Bits Mmu Proc ProcLock ProcSched ProcIds ProcInv ProcFamily.

(** ** Specification: waiting parents *)

Definition in_wait (r : resume) : bool := match r with RSleep LWait (SWait _) => true | _ => false end.

(** [q] has committed to sleep in [wait]: it is asleep, or has released [wait_lock]. *)
Definition waiting (k : kern) (q : Z) : Prop :=
  (q ∈ allproc k /\ state (procs k q) = SLEEPING /\ in_wait (saved k q) = true /\ chan (procs k q) = q) \/
  exists c ch xs, cproc k c = Some q /\ pc k c = PSleep2 ch LWait (SWait xs).

(** [np] is a zombie child of [q]. *)
Definition zombie_child (k : kern) (q np : Z) : Prop :=
  np ∈ allproc k /\ parent (procs k np) = Some q /\ state (procs k np) = ZOMBIE.

(** An exiting process is about to wake [q], which is init. *)
Definition pending (k : kern) (q : Z) : Prop :=
  q = initproc k /\ exists c st, pc k c = PExit2 st \/ exists ch todo, pc k c = PWake ch todo (WExit1 st) /\ q ∈ todo.

(** What a CPU knows at a point of [wait] or [exit], where it holds [wait_lock]. *)
Definition knows (k : kern) (cp : option Z) (x : point) : Prop :=
  match x with
  | PScan todo _ _ => forall q np, cp = Some q -> zombie_child k q np -> np ∈ todo
  | PWait2 _ _ | PWait3 _ | PSleep1 _ LWait (SWait _) => forall q np, cp = Some q -> ~ zombie_child k q np
  | PExit3 _ => ~ waiting k (initproc k)
  | PWake ch todo (WExit1 _) => ch = initproc k /\ (initproc k ∈ todo \/ ~ waiting k (initproc k))
  | PWake ch todo (WExit2 _) => ~ waiting k (initproc k) /\ (forall p, cp = Some p -> parent (procs k p) = Some ch) /\
      (ch ∈ todo \/ ~ waiting k ch)
  | PExit4 _ => ~ waiting k (initproc k) /\ forall p q, cp = Some p -> parent (procs k p) = Some q -> ~ waiting k q
  | _ => True
  end.

Record wait_inv (k : kern) : Prop := {
  wv_knows : forall c, knows k (cproc k c) (pc k c);
  wv_waiting : forall q np, waiting k q -> zombie_child k q np -> pending k q
}.

(** ** Lemmas *)

Lemma knows_free k cp x : LWait ∉ holds cp x -> knows k cp x.
Proof.
  destruct x; cbn; try done; try (intros H; destruct H; by left).
  - intros H. destruct lk, s; try done. destruct H. apply elem_of_app. right. left.
  - intros H. destruct w; try done; destruct H; right; left.
  - intros H. destruct H. right. left.
Qed.

(** Nobody new waits, no new zombie child appears. *)
Record calm (k k' : kern) : Prop := {
  ca_wait : forall q, waiting k' q -> waiting k q;
  ca_zombie : forall q np, zombie_child k' q np -> zombie_child k q np;
  ca_init : initproc k' = initproc k;
  ca_parent : forall p, p ∈ allproc k -> parent (procs k' p) = parent (procs k p)
}.

Lemma knows_calm k k' cp x : calm k k' -> (forall p, cp = Some p -> p ∈ allproc k) -> knows k cp x -> knows k' cp x.
Proof.
  intros [C1 C2 C3 C4] Hcp. destruct x; cbn; try done.
  - destruct lk, s; try done. intros H q np E Hz. by apply (H q np E), C2.
  - destruct w; try done; rewrite C3.
    + intros [E [H | H]]; (split; [done |]); [by left | right]. intros Hw. by apply H, C1.
    + intros (H1 & H2 & H3). split; [intros Hw; by apply H1, C1 |]. split; [intros p E; rewrite C4 by auto; auto |].
      destruct H3 as [H3 | H3]; [by left | right]. intros Hw. by apply H3, C1.
  - rewrite C3. intros H Hw. by apply H, C1.
  - rewrite C3. intros [H1 H2]. split; [intros Hw; by apply H1, C1 |]. intros p q E Hq Hw. rewrite C4 in Hq by auto. by apply (H2 p q E Hq), C1.
  - intros H q np E Hz. apply (H q np E). by apply C2.
  - intros H q np E Hz. by apply (H q np E), C2.
  - intros H q np E Hz. by apply (H q np E), C2.
Qed.

(** The current process of a CPU is on [allproc]. *)
Lemma cproc_allproc k c p : lockinv k -> tables_inv k -> cproc k c = Some p -> p ∈ allproc k.
Proof.
  intros Hl Ht Hp. apply (in_allproc k c p Ht). unfold modes. rewrite Hp. pose proof (li_point _ Hl c) as Hx. rewrite Hp in Hx.
  destruct (pc k c); try done; try (by right; left).
  - injection Hx as ->. by right; right.
  - destruct w; try done; by right; left.
Qed.

Section step.
Context (k k' : kern) (c : Z) (y : point) (Hl : lockinv k) (Ht : tables_inv k) (Hf : family_inv k) (Hw : wait_inv k).
Context (Ep : pc k' = (pc k).[c <- y]) (Ec : forall c', c' <> c -> cproc k' c' = cproc k c').

Lemma wait_calm : calm k k' -> (LWait ∈ holds (cproc k' c) y -> knows k' (cproc k' c) y) ->
  (forall st, pc k c = PExit2 st -> waiting k' (initproc k) -> pending k' (initproc k)) ->
  (forall ch todo st, pc k c = PWake ch todo (WExit1 st) -> initproc k ∈ todo -> waiting k' (initproc k) -> pending k' (initproc k)) -> wait_inv k'.
Proof.
  intros Hc Hy P1 P2. destruct Hw as [W1 W2]. split.
  - intros c'. rewrite Ep. destruct (decide (c' = c)) as [-> | Hn].
    + rewrite upd_eq. destruct (decide (LWait ∈ holds (cproc k' c) y)) as [H | H]; [auto | by apply knows_free].
    + rewrite upd_ne, Ec by done. apply (knows_calm k); [done | | done]. intros p. by apply cproc_allproc.
  - intros q np Hq Hz. pose proof (W2 q np (ca_wait _ _ Hc q Hq) (ca_zombie _ _ Hc q np Hz)) as (-> & c0 & st & H0).
    destruct (decide (c0 = c)) as [-> | Hn].
    + destruct H0 as [H0 | (ch & todo & H0 & H1)]; [by apply (P1 st) | by apply (P2 ch todo st)].
    + split; [by rewrite (ca_init _ _ Hc) |]. exists c0, st. rewrite Ep, upd_ne by done. destruct H0 as [H0 | (ch & todo & H0 & H1)]; [by left | right; eauto].
Qed.

(** Process by process: unchanged, in another state, or put to sleep by [c] itself. *)
Lemma calm_intro : (forall ch xs, y <> PSleep2 ch LWait (SWait xs)) -> initproc k' = initproc k ->
  (forall p, p ∈ allproc k -> parent (procs k' p) = parent (procs k p)) ->
  (forall q, q ∈ allproc k' -> (q ∈ allproc k /\ state (procs k' q) = state (procs k q) /\ chan (procs k' q) = chan (procs k q) /\ saved k' q = saved k q) \/
     (state (procs k' q) <> SLEEPING /\ state (procs k' q) <> ZOMBIE) \/
     (state (procs k' q) = SLEEPING /\ (in_wait (saved k' q) = true -> waiting k q))) -> calm k k'.
Proof.
  intros Hy Hi Hp Hq. split; [| | done | done].
  - intros q [(H1 & H2 & H3 & H4) | (c0 & ch & xs & H1 & H2)].
    + destruct (Hq q H1) as [(Q1 & Q2 & Q3 & Q4) | [[Q1 Q2] | [Q1 Q2]]]; [| done | auto].
      left. rewrite <- Q2, <- Q3, <- Q4. done.
    + right. rewrite Ep in H2. destruct (decide (c0 = c)) as [-> | Hn]; [rewrite upd_eq in H2; by destruct (Hy ch xs) |].
      rewrite upd_ne in H2 by done. exists c0, ch, xs. by rewrite <- Ec.
  - intros q np (H1 & H2 & H3). destruct (Hq np H1) as [(Q1 & Q2 & Q3 & Q4) | [[Q1 Q2] | [Q1 Q2]]]; [| done | congruence].
    split; [done |]. rewrite <- Hp, <- Q2 by done. done.
Qed.
End step.

(** A process whose lock is free, seen not asleep on its own channel, does not wait. *)
Lemma seen_awake k p : unheld k (LProc p) -> ~ (state (procs k p) = SLEEPING /\ chan (procs k p) = p) -> ~ waiting k p.
Proof.
  intros Hu Hn [(_ & H1 & _ & H2) | (c & ch & xs & H1 & H2)]; [by apply Hn |]. apply (Hu c). unfold held. rewrite H1, H2. left.
Qed.

Lemma exit_not_init k c ch todo w p : family_inv k -> pc k c = PWake ch todo w -> exiting (pc k c) = true -> cproc k c = Some p -> p <> initproc k.
Proof. intros Hf Hpc He Hp ->. apply (fm_noexit _ Hf c); [by destruct (pc k c) | done]. Qed.

Lemma hop_knows k c x y : lockinv k -> tables_inv k -> family_inv k -> wait_inv k -> pc k c = x -> hop k c x y -> knows k (cproc k c) y.
Proof.
  intros Hl Ht Hf [W _] Hpc Hh. specialize (W c). pose proof (fm_init _ Hf) as (I1 & _ & _).
  assert (Hrun : forall p, cproc k c = Some p -> exiting (pc k c) = true -> p ∈ allproc k).
  { intros p Hp He. apply (in_allproc k c p Ht). right. left. apply exit_point_run; [done | done |]. by destruct (pc k c). }
  destruct Hh as [ | | | | | | | | | ch p todo w Hp | ch p todo w Hu Hn | | | | | | | | p q st Hp Hpar Hq | p st Hp Hpar | |
    | p np todo hk xs Hp Hpar | np todo hk xs Hu Hz | | | | | p xs Hp | ]; try done; rewrite Hpc in W; cbn in W |- *.
  - destruct w; try done.
    + destruct W as [E [[H | H]%elem_of_cons | H]]; (split; [done |]); [| by left | by right].
      exfalso. apply (exit_not_init k c _ _ _ p Hf Hpc); by rewrite ?Hpc.
    + destruct W as (H1 & H2 & H3). split; [done |]. split; [done |]. destruct H3 as [[-> | H]%elem_of_cons | H]; [| by left | by right].
      exfalso. apply (fm_parent _ Hf p p); [apply Hrun; by rewrite ?Hpc | auto | done].
  - destruct w; try done.
    + destruct W as [E [[H | H]%elem_of_cons | H]]; (split; [done |]); [| by left | by right]. right. subst p.
      apply seen_awake; [done | by rewrite E in Hn].
    + destruct W as (H1 & H2 & H3). split; [done |]. split; [done |]. destruct H3 as [[-> | H]%elem_of_cons | H]; [| by left | by right].
      right. by apply seen_awake.
  - by destruct W as [_ [?%elem_of_nil | H]].
  - destruct W as (H1 & H2 & [?%elem_of_nil | H3]); [done |]. split; [done |]. intros p q Hp Hq. rewrite (H2 p Hp) in Hq. by injection Hq as <-.
  - split; [done | by left].
  - split; [done |]. split; [intros p' E; congruence |]. left. apply (fm_parent _ Hf p q); [apply Hrun; by rewrite ?Hpc | done].
  - split; [done |]. intros p' q Hp' Hq. assert (p' = p) as -> by congruence. destruct Hpar; [congruence |]. by assert (q = initproc k) as -> by congruence.
  - intros q np Hq Hz. by destruct Hz.
  - intros q np' Hq Hz. destruct (proj1 (elem_of_cons _ _ _) (W q np' Hq Hz)) as [-> |]; [| done].
    destruct Hz as (_ & E & _). congruence.
  - intros q np' Hq Hz'. destruct (proj1 (elem_of_cons _ _ _) (W q np' Hq Hz')) as [-> |]; [| done]. by destruct Hz' as (_ & _ & ?).
  - intros q np Hq Hz. by apply (W q np) in Hz as ?%elem_of_nil.
  - exact W.
  - exact W.
Qed.

(** A move of [c] alone, other than the release of [wait_lock] in [sleep]. *)
Lemma goto_calm k c y : (forall ch xs, y <> PSleep2 ch LWait (SWait xs)) -> calm k (goto k c y).
Proof. intros Hy. apply (calm_intro k (goto k c y) c y); try done. intros q Hq. by left. Qed.

Lemma wait_hop k c x y : lockinv k -> tables_inv k -> family_inv k -> wait_inv k -> pc k c = x -> hop k c x y ->
  (forall ch xs, y <> PSleep2 ch LWait (SWait xs)) -> wait_inv (goto k c y).
Proof.
  intros Hl Ht Hf Hw Hpc Hh Hy. pose proof (goto_calm k c y Hy) as Hc. pose proof (hop_knows k c x y Hl Ht Hf Hw Hpc Hh) as Hk.
  apply (wait_calm k (goto k c y) c y Hl Ht Hw); try done.
  - intros _. apply (knows_calm k); [done | | done]. intros p. by apply (cproc_allproc k c).
  - intros st E Hi. rewrite Hpc in E. rewrite E in Hh, Hpc. clear E. inversion Hh; subst. split; [done |]. exists c, st. right. exists (initproc k), (allproc k).
    cbn. rewrite upd_eq. split; [done |]. apply (fm_init _ Hf).
  - intros ch todo st E Hin Hi. rewrite Hpc in E. rewrite E in Hh, Hpc. clear E. assert (Hex : exiting (pc k c) = true) by (by rewrite Hpc).
    assert (Hgo : forall todo', y = PWake ch todo' (WExit1 st) -> initproc k ∈ todo' -> pending (goto k c y) (initproc k)).
    { intros todo' -> H. split; [done |]. exists c, st. right. exists ch, todo'. cbn. by rewrite upd_eq. }
    pose proof (wv_knows _ Hw c) as W. rewrite Hpc in W. destruct W as [Ech _].
    inversion Hh; subst; [| | by apply elem_of_nil in Hin]; apply elem_of_cons in Hin as [<- | Hin]; try by eapply Hgo.
    + exfalso. by apply (exit_not_init k c _ _ _ (initproc k) Hf Hpc Hex).
    + exfalso. apply (seen_awake k (initproc k)); [done | done |]. by apply Hc.
Qed.

(** While [c] holds [wait_lock], nobody else is inside [exit] or [wait]. *)
Lemma others_know k c : lockinv k -> LWait ∈ held k c -> forall k' c', c' <> c -> knows k' (cproc k c') (pc k c').
Proof.
  intros Hl Hh k' c' Hn. apply knows_free. intros Hx. apply Hn. by apply (held_once k c' c LWait Hl).
Qed.

(** Nobody is about to wake init while [c] holds [wait_lock] elsewhere. *)
Lemma no_pending k c q : lockinv k -> LWait ∈ held k c -> exiting (pc k c) = false -> ~ pending k q.
Proof.
  intros Hl Hh He (_ & c0 & st & H0). assert (Hx : LWait ∈ held k c0 /\ exiting (pc k c0) = true).
  { unfold held. destruct H0 as [E | (ch & todo & E & _)]; rewrite E; cbn; (split; [| done]); [left | right; left]. }
  destruct Hx as [Hx He']. rewrite (held_once k c0 c LWait Hl Hx Hh) in He'. congruence.
Qed.

Lemma wait_sleep_release k c ch xs : lockinv k -> tables_inv k -> wait_inv k -> pc k c = PSleep1 ch LWait (SWait xs) ->
  wait_inv (goto k c (PSleep2 ch LWait (SWait xs))).
Proof.
  intros Hl Ht [W1 W2] Hpc. assert (Hh : LWait ∈ held k c) by (unfold held; rewrite Hpc; apply elem_of_app; right; left).
  pose proof (W1 c) as Wc. rewrite Hpc in Wc. cbn in Wc. split.
  - intros c'. cbn. destruct (decide (c' = c)) as [-> | Hn]; [by rewrite upd_eq |]. rewrite upd_ne by done. by apply (others_know k c).
  - intros q np Hq Hz. change (zombie_child k q np) in Hz.
    assert (Hq' : waiting k q \/ cproc k c = Some q).
    { destruct Hq as [Hq | (c0 & ch0 & xs0 & H1 & H2)]; [left; by left |]. cbn in H1, H2. destruct (decide (c0 = c)) as [-> | Hn]; [by right |].
      rewrite upd_ne in H2 by done. left. right. eauto. }
    destruct Hq' as [Hq' | Hq']; [| by destruct (Wc q np)].
    exfalso. apply (no_pending k c q Hl Hh); [by rewrite Hpc | by apply (W2 q np)].
Qed.

Lemma wait_reparent k c p st : lockinv k -> tables_inv k -> family_inv k -> wait_inv k -> pc k c = PExit1 st -> cproc k c = Some p ->
  wait_inv (goto (reparent k p) c (PExit2 st)).
Proof.
  intros Hl Ht Hf [W1 W2] Hpc Hp. assert (Hh : LWait ∈ held k c) by (unfold held; rewrite Hpc; left).
  assert (Hpr : forall q, state (procs (reparent k p) q) = state (procs k q) /\ chan (procs (reparent k p) q) = chan (procs k q) /\
    (parent (procs (reparent k p) q) = parent (procs k q) \/ parent (procs (reparent k p) q) = Some (initproc k))).
  { intros q. cbn. destruct (_ && _); cbn; auto. }
  split.
  - intros c'. cbn [cproc pc goto reparent set_procs]. destruct (decide (c' = c)) as [-> | Hn]; [by rewrite upd_eq |]. rewrite upd_ne by done. by apply (others_know k c).
  - intros q np Hq (Z1 & Z2 & Z3). destruct (Hpr np) as (E1 & _ & E3).
    change (parent (procs (reparent k p) np) = Some q) in Z2. change (state (procs (reparent k p) np) = ZOMBIE) in Z3. rewrite E1 in Z3.
    destruct (decide (q = initproc k)) as [-> | Hqi].
    { split; [done |]. exists c, st. left. cbn. by rewrite upd_eq. }
    exfalso. apply (no_pending k c q Hl Hh); [by rewrite Hpc |]. apply (W2 q np).
    + destruct Hq as [(H1 & H2 & H3 & H4) | (c0 & ch0 & xs0 & H1 & H2)].
      * left. destruct (Hpr q) as (E4 & E5 & _). change (state (procs (reparent k p) q) = SLEEPING) in H2. change (chan (procs (reparent k p) q) = q) in H4.
        rewrite E4 in H2. rewrite E5 in H4. done.
      * right. cbn in H1, H2. exists c0, ch0, xs0. split; [done |]. destruct (decide (c0 = c)) as [-> | Hn]; [by rewrite upd_eq in H2 | by rewrite upd_ne in H2].
    + split; [done |]. split; [| done]. destruct E3; congruence.
Qed.

Lemma wait_zombie k c p st : lockinv k -> tables_inv k -> family_inv k -> wait_inv k -> pc k c = PExit4 st -> cproc k c = Some p ->
  wait_inv (goto (save (set_proc k p (set_state (set_xstate (procs k p) st) ZOMBIE)) p RExit) c (PSwitched p)).
Proof.
  intros Hl Ht Hf [W1 W2] Hpc Hp. assert (Hh : LWait ∈ held k c) by (unfold held; rewrite Hpc; left).
  pose proof (W1 c) as Wc. rewrite Hpc in Wc. destruct Wc as [_ Wc]. split.
  - intros c'. cbn [cproc pc goto save set_proc set_procs]. destruct (decide (c' = c)) as [-> | Hn]; [by rewrite upd_eq |]. rewrite upd_ne by done. by apply (others_know k c).
  - intros q np Hq Hz. exfalso.
    assert (Hq' : waiting k q).
    { destruct Hq as [(H1 & H2 & H3 & H4) | (c0 & ch0 & xs0 & H1 & H2)].
      - cbn in H1, H2, H3, H4. destruct (decide (q = p)) as [-> | Hn]; [by rewrite upd_eq in H2 |]. rewrite !upd_ne in * by done. by left.
      - cbn in H1, H2. right. exists c0, ch0, xs0. split; [done |]. destruct (decide (c0 = c)) as [-> | Hn]; [by rewrite upd_eq in H2 | by rewrite upd_ne in H2]. }
    assert (Hz' : zombie_child k q np \/ (np = p /\ parent (procs k p) = Some q)).
    { destruct Hz as (Z1 & Z2 & Z3). cbn in Z1, Z2, Z3. destruct (decide (np = p)) as [-> | Hn]; [right; by rewrite upd_eq in Z2 |].
      left. rewrite !upd_ne in * by done. done. }
    destruct Hz' as [Hz' | [-> Hpar]]; [| by apply (Wc p q)].
    destruct (W2 q np Hq' Hz') as (-> & c0 & st0 & H0). assert (Hx : LWait ∈ held k c0).
    { unfold held. destruct H0 as [E | (ch & todo & E & _)]; rewrite E; [left | right; left]. }
    rewrite (held_once k c0 c LWait Hl Hx Hh), Hpc in H0. by destruct H0 as [? | (? & ? & ? & _)].
Qed.

(** The other steps neither put anyone to sleep in [wait] anew nor make zombies. *)
Lemma wait_other k k' c y : lockinv k -> tables_inv k -> wait_inv k -> pc k' = (pc k).[c <- y] -> (forall c', c' <> c -> cproc k' c' = cproc k c') ->
  (forall ch xs, y <> PSleep2 ch LWait (SWait xs)) -> initproc k' = initproc k ->
  (forall p, p ∈ allproc k -> parent (procs k' p) = parent (procs k p)) ->
  (forall q, q ∈ allproc k' -> (q ∈ allproc k /\ state (procs k' q) = state (procs k q) /\ chan (procs k' q) = chan (procs k q) /\ saved k' q = saved k q) \/
     (state (procs k' q) <> SLEEPING /\ state (procs k' q) <> ZOMBIE) \/
     (state (procs k' q) = SLEEPING /\ (in_wait (saved k' q) = true -> waiting k q))) ->
  LWait ∉ holds (cproc k' c) y \/ knows k' (cproc k' c) y -> exiting (pc k c) = false -> wait_inv k'.
Proof.
  intros Hl Ht Hw Ep Ec Hy Hi Hp Hq Hk He. apply (wait_calm k k' c y Hl Ht Hw Ep Ec).
  - by apply (calm_intro k k' c y).
  - intros Hx. by destruct Hk.
  - intros st E. by rewrite E in He.
  - intros ch todo st E. by rewrite E in He.
Qed.

(** Processes other than [p] are as before, [p] is in a state without claims. *)
Ltac awake_at p := let q := fresh "q" in let Hq := fresh "Hq" in intros q Hq; cbn; unfold upd;
  destruct (Z.eqb_spec q p) as [-> |]; [right; left; done | by left].

Lemma wait_wake k c p ch todo w : lockinv k -> tables_inv k -> family_inv k -> wait_inv k -> pc k c = PWake ch (p :: todo) w ->
  cproc k c <> Some p -> unheld k (LProc p) -> wait_inv (goto (woken k p) c (PWake ch todo w)).
Proof.
  intros Hl Ht Hf Hw Hpc Hp Hu. set (k' := goto (woken k p) c (PWake ch todo w)).
  assert (Hc : calm k k').
  { apply (calm_intro k k' c (PWake ch todo w)); try done; [| awake_at p]. intros q _. cbn. unfold upd. by destruct (Z.eqb_spec q p) as [-> |]. }
  assert (Hn : ~ waiting k' p).
  { intros [(_ & H & _) | (c0 & ch0 & xs0 & H1 & H2)]; [cbn in H; by rewrite upd_eq in H |]. cbn in H1, H2.
    destruct (decide (c0 = c)) as [-> | Hx]; [by rewrite upd_eq in H2 |]. rewrite upd_ne in H2 by done. apply (Hu c0). unfold held. rewrite H1, H2. left. }
  pose proof (wv_knows _ Hw c) as Wc. rewrite Hpc in Wc.
  apply (wait_calm k k' c (PWake ch todo w) Hl Ht Hw); try done.
  - intros _. change (cproc k' c) with (cproc k c). destruct w; cbn in Wc |- *; try done.
    + destruct Wc as [E [[H | H]%elem_of_cons | H]]; (split; [done |]); [right; by rewrite H | by left | right]. intros Hx. by apply H, Hc.
    + destruct Wc as (H1 & H2 & H3). split; [intros Hx; by apply H1, Hc |].
      split; [intros q Hq; unfold upd; destruct (Z.eqb_spec q p) as [-> |]; cbn; auto |].
      destruct H3 as [[-> | H]%elem_of_cons | H]; [by right | by left | right]. intros Hx. by apply H, Hc.
  - intros st E. congruence.
  - intros ch0 todo0 st E Hin Hi. rewrite Hpc in E. injection E as <- <- ->. apply elem_of_cons in Hin as [H | Hin]; [by rewrite H in Hi |].
    split; [done |]. exists c, st. right. exists ch, todo. cbn. by rewrite upd_eq.
Qed.

Lemma wait_tr k c k' : lockinv k -> tables_inv k -> family_inv k -> wait_inv k -> tr k c k' -> wait_inv k'.
Proof.
  intros Hl Ht Hf Hw Htr.
  induction Htr as [x y Hpc Hh | p q Hpc Eq | Hpc | p Hpc Hu Hs | p Hpc Hs | p Hpc | p ls Hpc Hp Hu | p ch lk s Hpc Hp | p lk s Hpc Hp
    | p ch todo w Hpc Hp Hu Hs Hch | p st Hpc Hp Hu | p st Hpc Hp Hu | p np todo hk xs Hpc Hp Hu Hpar Hz | np Hpc | p ls Hpc Hu Hu2 Hin
    | np k1 x Hpc Hnp Ha Hx | p np par Hpc Hp Hu1 Hu2 | k' o n r Htr IH].
  - destruct y; try by eapply wait_hop. destruct lk, s; try (by eapply wait_hop). inversion Hh; subst. by apply wait_sleep_release.
  - apply (wait_other k _ c (PDispatch p) Hl Ht Hw); try done; [by intros; left | left; not_in | by rewrite Hpc].
  - done.
  - apply (wait_other k _ c (PResume (saved k p)) Hl Ht Hw); try done; [intros c' Hc; cbn; by rewrite upd_ne | | awake_at p | | by rewrite Hpc].
    + intros q _. cbn. unfold upd. by destruct (Z.eqb_spec q p) as [-> |].
    + left. cbn. rewrite upd_eq. not_in.
  - apply (wait_other k _ c PSched Hl Ht Hw); try done; [by intros; left | left; not_in | by rewrite Hpc].
  - cbn zeta. destruct (decide _); (apply (wait_other k _ c PSched Hl Ht Hw); try done;
      [intros c' Hc; cbn; by rewrite upd_ne | by intros; left | left; not_in | by rewrite Hpc]).
  - apply (wait_other k _ c (PSwitched p) Hl Ht Hw); try done; [| awake_at p | left; not_in | by rewrite Hpc].
    intros q _. cbn. unfold upd. by destruct (Z.eqb_spec q p) as [-> |].
  - apply (wait_other k _ c (PSwitched p) Hl Ht Hw); try done; [| | left; not_in | by rewrite Hpc].
    + intros q _. cbn. unfold upd. by destruct (Z.eqb_spec q p) as [-> |].
    + intros q Hq. cbn. unfold upd. destruct (Z.eqb_spec q p) as [-> |]; [| by left]. right. right. split; [done |].
      intros E. right. destruct lk, s; try done. eauto.
  - destruct (running_saved k c p Ht) as (_ & Hr & _); [unfold modes; by rewrite Hpc, Hp |].
    apply (wait_other k _ c (PRelock lk s) Hl Ht Hw); try done; [| | left; not_in | by rewrite Hpc].
    + intros q _. cbn. unfold upd. by destruct (Z.eqb_spec q p) as [-> |].
    + intros q Hq. cbn. unfold upd. destruct (Z.eqb_spec q p) as [-> |]; [| by left]. right. left. cbn. by rewrite Hr.
  - by apply wait_wake.
  - by apply wait_reparent.
  - by apply wait_zombie.
  - apply (wait_other k _ c (PReap np) Hl Ht Hw); try done; [| by right | by rewrite Hpc]. intros q [_ Hq]%elem_of_without. by left.
  - apply (wait_other k _ c (PRun []) Hl Ht Hw); try done; [by intros; left | left; not_in | by destruct Hpc as [-> | ->]].
  - cbn zeta. apply (wait_other k _ c (pc k c) Hl Ht Hw); try done.
    + destruct (decide _); cbn; by rewrite upd_same.
    + by destruct (decide _).
    + by rewrite Hpc.
    + by destruct (decide _).
    + destruct (decide _); intros q _; cbn; unfold upd; by destruct (Z.eqb_spec q p) as [-> |]; rewrite ?Z.eqb_refl.
    + cbn [procs set_proc set_procs]. rewrite upd_eq. cbn [set_killed state]. destruct (decide _); [awake_at p |].
      intros q Hq. left. cbn. unfold upd. by destruct (Z.eqb_spec q p) as [-> |].
    + right. by rewrite Hpc.
    + by rewrite Hpc.
  - apply allocproc_eq in Ha as [_ ->]. assert (Hall : np ∉ allproc k) by (intros Hq; by apply Hnp, (id_all _ _ _ _ _ _ (tv_ids _ Ht))).
    apply (wait_other k _ c x Hl Ht Hw); try done; [by destruct Hx as [-> | ->] | | | right; by destruct Hx as [-> | ->] | by rewrite Hpc].
    + intros q Hq. cbn. by rewrite upd_ne by (by intros ->).
    + intros q Hq. cbn in Hq |- *. left. rewrite !upd_ne by (by intros ->). done.
  - assert (Hb : newborn (pc k c) = Some np) by (by destruct Hpc as [[-> _] | [-> _]]).
    destruct (id_private _ _ _ _ _ _ (tv_ids _ Ht) c np (newborn_private _ _ Hb)) as [_ Hn]. cbn zeta.
    apply (wait_other k _ c (PRun []) Hl Ht Hw); try done; [| | by right | by destruct Hpc as [[-> _] | [-> _]]].
    + intros q Hq. cbn. by rewrite upd_ne by (by intros ->).
    + intros q Hq. cbn in Hq |- *. unfold upd. destruct (Z.eqb_spec q np) as [-> |]; [right; left; done |]. left.
      apply elem_of_cons in Hq as [-> | Hq]; done.
  - destruct IH as [W1 W2]. split; [exact W1 | exact W2].
Qed.

Lemma boot_wait init : wait_inv (boot init).
Proof.
  split; [done |]. intros q np [(_ & H & _) | (c & ch & xs & H & _)]; done.
Qed.
