(* ===== verification/ProcTop.v ===== *)
(** * Processes and scheduling: theorems

    The invariants hold in every reachable state of the machine of [Proc], for any number
    of CPUs and any interleaving of their steps; the theorems read off what they mean for
    the scheduler, for sleep and wakeup, for wait and exit, and for the pid table. *)

From S2P Require Import Prelude Bits Mmu Proc ProcLock ProcSched ProcIds ProcInv ProcFamily ProcWait.

(** The states the CPUs can reach from boot, in any order of their steps. *)
Inductive reachable (init : Z) : kern -> Prop :=
| reach_boot : reachable init (boot init)
| reach_step k c e k' : reachable init k -> kstep k c e = Go k' -> reachable init k'.

Record kinv (k : kern) : Prop := {
  ki_lock : lockinv k;
  ki_tables : tables_inv k;
  ki_family : family_inv k;
  ki_wait : wait_inv k
}.

(** ** Lemmas *)

Lemma kinv_allowed k c e : kinv k -> (forall p ls, cproc k c = Some p -> pc k c = PRun ls -> proper k p e ls) -> allowed k c e.
Proof. intros [_ Ht _ _] He. split; [done |]. split; [apply (tv_resume _ Ht) | apply (id_map _ _ _ _ _ _ (tv_ids _ Ht))]. Qed.

(** An event other code may not cause stops the CPU. *)
Lemma improper_stops k c p e ls : lockinv k -> cproc k c = Some p -> pc k c = PRun ls -> ~ proper k p e ls ->
  exists s, kstep k c e = Stop s \/ kstep k c e = Blocked.
Proof.
  intros Hl Hp Hpc Hn. unfold kstep. rewrite Hpc, Hp. cbn [thread].
  assert (Hh : held k c = map LOther ls) by (unfold held; by rewrite Hpc). pose proof (li_locks _ Hl) as HL.
  unfold call. destruct e; cbn in Hn; try done.
  - destruct ls; [| exists ""; by right]. unfold exit_enter. destruct (Z.eqb_spec p (initproc k)); [eauto |]. by destruct Hn.
  - unfold acquire_spinlock. assert (Ho : owner k (LOther l) = Some c).
    { apply (lh_owner _ _ HL). rewrite Hh. apply list_elem_of_fmap. exists l. split; [done |]. by apply dec_stable in Hn. }
    rewrite Ho, Z.eqb_refl. cbn. eauto.
  - unfold release_spinlock. rewrite bool_decide_false; [cbn; eauto |]. intros Ho. apply (lh_owner _ _ HL) in Ho. rewrite Hh in Ho.
    apply list_elem_of_fmap in Ho as (x & [= ->] & Hx). done.
Qed.

Lemma proper_dec k p e ls : proper k p e ls \/ ~ proper k p e ls.
Proof. destruct e; cbn; try (by left); [destruct (decide (p = initproc k)) | destruct (decide (l ∈ ls)) | destruct (decide (l ∈ ls))]; tauto. Qed.

Lemma kstep_go k c e k' : kinv k -> kstep k c e = Go k' -> step_ok k c k'.
Proof.
  intros Hi Hs. pose proof (kstep_ok k c (ki_lock _ Hi) e) as Hok. rewrite Hs in Hok. apply Hok, kinv_allowed; [done |].
  intros p ls Hp Hpc. destruct (proper_dec k p e ls) as [| Hn]; [done |].
  destruct (improper_stops k c p e ls (ki_lock _ Hi) Hp Hpc Hn) as (s & [E | E]); congruence.
Qed.

Lemma kinv_step k c e k' : kinv k -> kstep k c e = Go k' -> kinv k'.
Proof.
  intros Hi Hs. destruct (kstep_go k c e k' Hi Hs) as [Ht Hl]. destruct Hi as [I1 I2 I3 I4].
  split; [done | by apply (tables_tr k c) | by apply (family_tr k c) | by apply (wait_tr k c)].
Qed.

Lemma kern_inv init k : reachable init k -> kinv k.
Proof.
  induction 1 as [| k c e k' _ IH Hs]; [| by eapply kinv_step].
  split; [apply boot_locks | apply boot_tables | apply boot_family | apply boot_wait].
Qed.

Lemma mode_cproc k c p : lockinv k -> cproc k c = Some p <-> modes k c = MRun p \/ modes k c = MSwitch p.
Proof.
  intros Hl. pose proof (li_point _ Hl c) as Hx. unfold modes. destruct (pc k c) eqn:E; cbn in Hx |- *;
    try (rewrite Hx; split; [done | intros [? | ?]; done]); try (destruct (cproc k c); split; [intros [= ->]; by left | intros [[= ->] | ?]; done | done | intros [? | ?]; done]).
  - rewrite Hx. split; [intros [= ->]; by right | intros [? | [= ->]]; done].
  - destruct w; try (rewrite Hx; split; [done | intros [? | ?]; done]);
      (destruct (cproc k c); split; [intros [= ->]; by left | intros [[= ->] | ?]; done | done | intros [? | ?]; done]).
Qed.

(** [p] is asleep on [ch], or has released the lock it sleeps with and is on its way. *)
Definition sleeps_on (k : kern) (p ch : Z) : Prop :=
  (state (procs k p) = SLEEPING /\ chan (procs k p) = ch) \/
  exists c lk s, cproc k c = Some p /\ pc k c = PSleep2 ch lk s.

Lemma pid_scan_iff l k n p : (forall q r, q ∈ l -> r ∈ l -> pid (procs k q) = pid (procs k r) -> q = r) ->
  pid_scan l k n = Some p <-> p ∈ l /\ pid (procs k p) = n.
Proof.
  intros Hinj. split; [apply pid_scan_in |]. intros [Hp Hn]. induction l as [| r l IH]; [by apply elem_of_nil in Hp |]. cbn [pid_scan].
  destruct (Z.eqb_spec (pid (procs k r)) n) as [E | E].
  - f_equal. apply Hinj; [left | done | congruence].
  - apply IH; [intros; apply Hinj; by (right || done) |]. apply elem_of_cons in Hp as [-> | ?]; done.
Qed.

(** ** Theorems *)

(** C1: in every reachable state a process is in one place, the one its state calls for:
    no two CPUs run it; a RUNNING process is the current one of a CPU; a RUNNABLE one is on
    the run queue, once, or in the hands of a CPU that took it off to dispatch it or is
    switching away from it; nothing else is on the queue, and no process that sleeps or
    has exited runs anywhere, save in the switch away from it. *)
Theorem proc_in_one_place init k : reachable init k ->
  (forall c c' p, cproc k c = Some p -> cproc k c' = Some p -> c = c') /\
  NoDup (runq k) /\
  (forall p, p ∈ runq k -> p ∈ allproc k /\ state (procs k p) = RUNNABLE /\ forall c, cproc k c <> Some p) /\
  (forall p, p ∈ allproc k ->
    match state (procs k p) with
    | RUNNING => exists c, cproc k c = Some p
    | RUNNABLE => p ∈ runq k \/ (exists c, modes k c = MDisp p) \/ (exists c, pc k c = PSwitched p)
    | SLEEPING | ZOMBIE => forall c, cproc k c = Some p -> pc k c = PSwitched p
    | _ => False
    end).
Proof.
  intros Hr. destruct (kern_inv init k Hr) as [Hl Ht _ _]. pose proof (tv_sched _ Ht) as [S1 S2 S3 S4 S5 S6 S7 S8].
  assert (Hon : forall c p, cproc k c = Some p -> on (modes k c) p) by (intros c p Hp; apply (mode_cproc k c p Hl) in Hp; unfold on; tauto).
  assert (Hsw : forall c p, modes k c = MSwitch p -> pc k c = PSwitched p).
  { intros c p. unfold modes. destruct (pc k c); cbn; try (by destruct (cproc k c)); [by intros [= ->] |]. destruct w; try done; by destruct (cproc k c). }
  split; [intros c c' p H1 H2; apply (S5 c c' p); auto |]. split; [done |]. split.
  - intros p Hp. destruct (S3 p Hp) as (H1 & H2 & H3). split; [done |]. split; [done |]. intros c Hc. by apply (H3 c), Hon.
  - intros p Hp. pose proof (S8 p Hp) as [N1 N2]. unfold states in *. specialize (S6 p Hp). specialize (S7 p Hp).
    assert (Hcur : forall c, cproc k c = Some p -> state (procs k p) <> RUNNING -> pc k c = PSwitched p).
    { intros c Hc Hn. apply Hsw. apply (mode_cproc k c p Hl) in Hc as [E | E]; [| done]. exfalso. apply Hn.
      assert (Ho : on (modes k c) p) by (rewrite E; right; by left). destruct (S4 c p Ho) as [_ Hf]. by rewrite E in Hf. }
    destruct (state (procs k p)); try done; try (intros c Hc; by apply Hcur).
    + destruct S7 as [H | [c [H | H]]]; [done | by left | right; left; by exists c | right; right; exists c; by apply Hsw].
    + destruct S6 as [c Hc]; [done |]. exists c. apply (mode_cproc k c p Hl). by left.
Qed.

(** C27: no assertion in the process code can fail while nobody panics: from a reachable
    state a step stops only when init itself exits, or when other code takes a lock it holds
    or releases one it does not. That covers the four assertions of [sched] (own lock held,
    no other, not RUNNING, interrupts masked), the one of the scheduler (interrupts on at the
    dispatch), the unreachable end of [exit], and those of the lock operations, [pop_off]
    included; other code is taken to unmask interrupts only with no lock held. *)
Theorem proc_asserts_hold init k c e s : reachable init k -> kstep k c e = Stop s ->
  exists p ls, cproc k c = Some p /\ pc k c = PRun ls /\
  match e with
  | EExit _ => p = initproc k /\ s = "init exiting"
  | ELock l => l ∈ ls
  | EUnlock l => l ∉ ls
  | _ => False
  end.
Proof.
  intros Hr Hs. pose proof (kern_inv init k Hr) as Hi.
  destruct (cproc k c) as [p |] eqn:Hp.
  2: { exfalso. pose proof (kstep_ok k c (ki_lock _ Hi) e) as Hok. rewrite Hs in Hok. apply Hok. apply kinv_allowed; [done |]. congruence. }
  assert (Hno : forall ls, pc k c = PRun ls -> proper k p e ls -> False).
  { intros ls Hpc Hpr. pose proof (kstep_ok k c (ki_lock _ Hi) e) as Hok. rewrite Hs in Hok. apply Hok, kinv_allowed; [done |].
    intros p' ls' Hp' Hpc'. assert (p' = p) as -> by congruence. by assert (ls' = ls) as -> by congruence. }
  destruct (pc k c) eqn:Hpc; try (exfalso; pose proof (kstep_ok k c (ki_lock _ Hi) e) as Hok; rewrite Hs in Hok; apply Hok, kinv_allowed; [done |]; congruence).
  exists p, ls. split; [done |]. split; [done |]. specialize (Hno ls eq_refl).
  destruct e; cbn in Hno; try (by destruct Hno).
  - assert (E : p = initproc k) by (destruct (decide (p = initproc k)); tauto). split; [done |].
    unfold kstep in Hs. rewrite Hpc, Hp in Hs. cbn in Hs. destruct ls; [| done]. unfold exit_enter in Hs. rewrite E, Z.eqb_refl in Hs. congruence.
  - destruct (decide (l ∈ ls)); tauto.
  - exact Hno.
Qed.

(** C2: no wakeup is lost. [wakeup] starts with every process to visit, and once it has
    visited a process other than the caller's, that process neither sleeps on the channel
    nor has let go of its lock on the way to sleeping there; one that slept is on the run
    queue. *)
Theorem wakeup_not_lost init k c ch p todo w b k' : reachable init k -> pc k c = PWake ch (p :: todo) w -> cproc k c <> Some p ->
  kstep k c (EStep b) = Go k' ->
  ~ sleeps_on k' p ch /\ (state (procs k p) = SLEEPING -> chan (procs k p) = ch -> p ∈ runq k' /\ state (procs k' p) = RUNNABLE) /\
  (forall c0 ch0 w0 k0, wakeup_enter k c0 ch0 w0 = Go k0 -> pc k0 c0 = PWake ch0 (allproc k) w0).
Proof.
  intros Hr Hpc Hp Hs. destruct (kern_inv init k Hr) as [Hl Ht _ _]. pose proof (li_locks _ Hl) as HL.
  unfold kstep in Hs. rewrite Hpc in Hs. cbn [wakeup_loop] in Hs. unfold wakeup_visit in Hs. rewrite decide_False in Hs by done.
  destruct (acquire_spinlock k c (LProc p)) as [| k1 |] eqn:E1; try done. cbn [mbind outcome_bind] in Hs.
  unfold acquire_spinlock in E1. destruct (owner k (LProc p)) as [c1 |] eqn:Eo; [by destruct (c1 =? c) |]. injection E1 as <-.
  assert (Hu : unheld k (LProc p)) by (intros c' Hx; apply (lh_owner _ _ HL) in Hx; congruence).
  cbn [procs set_owner] in Hs. unfold release_spinlock in Hs.
  set (k1 := if decide (state (procs k p) = SLEEPING /\ _) then _ else _) in Hs.
  assert (Eown : owner k1 = owner (set_owner k (LProc p) (Some c) (push_off (ints k) c))) by (unfold k1; by destruct (decide _)).
  assert (Epc : pc k1 = pc k /\ cproc k1 = cproc k) by (unfold k1; by destruct (decide _)). destruct Epc as [Epc Ecp].
  rewrite Eown in Hs. cbn [owner set_owner] in Hs. rewrite decide_True, bool_decide_true in Hs by done.
  destruct (pop_off (ints k1) c) as [| i |]; try done. cbn [mbind outcome_bind] in Hs. injection Hs as <-.
  split; [| split].
  - intros [[H1 H2] | (c0 & lk & s & H1 & H2)].
    + cbn in H1, H2. unfold k1 in H1, H2. destruct (decide _) as [D | D]; [cbn in H1; by rewrite upd_eq in H1 | by apply D].
    + cbn in H1, H2. rewrite Ecp in H1. destruct (decide (c0 = c)) as [-> | Hn]; [by rewrite upd_eq in H2 |]. rewrite upd_ne, Epc in H2 by done.
      apply (Hu c0). unfold held. rewrite H1, H2. left.
  - intros H1 H2. cbn. unfold k1. rewrite decide_True by done. cbn. rewrite upd_eq. split; [| done]. apply elem_of_app. right. left.
  - intros c0 ch0 w0 k0 E. unfold wakeup_enter, acquire_spinlock in E. destruct (owner k LPtable) as [c1 |]; [by destruct (c1 =? c0) |].
    cbn in E. injection E as <-. cbn. by rewrite upd_eq.
Qed.

(** C3: a parent asleep in [wait] has no zombie child, whenever no process is inside
    [exit]: the exit of a child always wakes the parent that must collect it, orphans
    handed to init included. Inside [exit] means past the handing over of the children and
    before the switch away; other holders of [wait_lock] do not matter. *)
Theorem wait_sees_every_zombie init k q np : reachable init k -> (forall c, exiting (pc k c) = false) ->
  q ∈ allproc k -> state (procs k q) = SLEEPING -> in_wait (saved k q) = true -> chan (procs k q) = q ->
  np ∈ allproc k -> parent (procs k np) = Some q -> state (procs k np) <> ZOMBIE.
Proof.
  intros Hr Ho Hq Hs Hw Hc Hn Hp Hz. destruct (kern_inv init k Hr) as [Hl Ht Hf [_ W]].
  destruct (W q np) as (_ & c & st & H); [left; done | done |]. specialize (Ho c). by destruct H as [E | (ch & todo & E & _)]; rewrite E in Ho.
Qed.

(** C28: the family tree is sound in every reachable state: init is alive and never exits,
    every parent pointer leads to a process on [allproc] other than itself, and a zombie,
    like a process past the reparenting in [exit], is nobody's parent, so that freeing it
    leaves no dangling pointer. *)
Theorem family_tree_sound init k : reachable init k ->
  initproc k = init /\ init ∈ allproc k /\ state (procs k init) <> ZOMBIE /\
  (forall p q, p ∈ allproc k -> parent (procs k p) = Some q -> q ∈ allproc k /\ q <> p /\ state (procs k q) <> ZOMBIE) /\
  (forall c np, pc k c = PReap np -> forall p, p ∈ allproc k -> parent (procs k p) <> Some np).
Proof.
  intros Hr. pose proof (kern_inv init k Hr) as [Hl Ht [F1 F2 F3 F4] _]. destruct F1 as (I1 & I2 & I3).
  assert (Ei : initproc k = init).
  { clear - Hr. induction Hr as [| k c e k' Hr IH Hs]; [done |]. rewrite <- IH. apply (tr_init k c).
    by apply (kstep_go k c e k' (kern_inv init k Hr)). }
  rewrite Ei in *. split; [done |]. split; [done |]. split; [done |]. split.
  - intros p q Hp Hq. destruct (F3 p q Hp Hq). split; [done |]. split; [done |]. intros Hz. apply (F4 p q); [by left | done | done].
  - intros c np Hc p Hp Hq. destruct (F3 p np Hp Hq) as [Hx _].
    destruct (id_private _ _ _ _ _ _ (tv_ids _ Ht) c np) as [_ Hn]; [unfold privates; by rewrite Hc | done].
Qed.

(** the pid table is exact in every reachable state: live processes have distinct pids
    below the ceiling, [pid_lookup] through the hash finds a process exactly when a search
    of all of them would, and a pid is marked in use exactly when a process object, listed
    or private, has it, so that pids are recycled and never shared. *)
Theorem pid_table_exact init k : reachable init k ->
  (forall p q, p ∈ objs k -> q ∈ objs k -> pid (procs k p) = pid (procs k q) -> p = q) /\
  (forall n p, pid_lookup k n = Some p <-> p ∈ allproc k /\ pid (procs k p) = n) /\
  (forall n, 0 < n < KSTACK_NSLOTS -> bit_test (pidmap k) n = true <-> exists p, p ∈ objs k /\ pid (procs k p) = n) /\
  (forall p, p ∈ objs k -> p ∈ allproc k \/ exists c, private (pc k c) = Some p).
Proof.
  intros Hr. destruct (kern_inv init k Hr) as [_ Ht _ _]. destruct (tv_ids _ Ht) as [I1 I2 I3 I4 I5 I6 I7 I8].
  split; [done |]. split; [| split; [| exact I4]].
  - intros n p. unfold pid_lookup. rewrite pid_scan_iff.
    + rewrite I8. split; [intros [[H1 _] H2]; done | intros [H1 <-]; done].
    + intros q r Hq Hx. apply I8 in Hq as [Hq _], Hx as [Hx _]. apply I6; auto.
  - intros n Hn. split; [by apply I7 |]. intros (p & Hp & <-). by apply I5.
Qed.

(** ** Witnesses *)

Fixpoint run (k : kern) (l : list (Z * event)) : outcome kern :=
  match l with [] => Go k | (c, e) :: l' => k ← kstep k c e; run k l' end.

Lemma run_reachable init l : forall k k', reachable init k -> run k l = Go k' -> reachable init k'.
Proof.
  induction l as [| [c e] l IH]; intros k k' Hr E; cbn [run] in E; [by injection E as <- |].
  destruct (kstep k c e) as [| k1 |] eqn:Es; try done. cbn in E. apply (IH k1); [by eapply reach_step | done].
Qed.

Definition go_of (d : kern) (o : outcome kern) : kern := match o with Go k => k | _ => d end.

Definition went (o : outcome kern) : bool := match o with Go _ => true | _ => false end.

Lemma run_from init l : went (run (boot init) l) = true -> reachable init (go_of (boot init) (run (boot init) l)).
Proof.
  intros H. apply (run_reachable init l (boot init)); [constructor |]. by destruct (run (boot init) l).
Qed.

Definition go : event := EStep true.

(** init, at 100, forks 200 and goes to sleep in [wait]. *)
Definition to_wait : list (Z * event) :=
  [(0, go); (0, go); (0, go); (0, EFork (Some 200)); (0, go); (0, go); (0, EWait 0); (0, go); (0, go); (0, go); (0, go); (0, go); (0, go); (0, go); (0, go); (0, go)].
Definition k1 : kern := go_of (boot 100) (run (boot 100) to_wait).

(** The child then runs on CPU 1 and exits, up to its visit of init. *)
Definition to_wake : list (Z * event) := to_wait ++ [(1, go); (1, go); (1, go); (1, EExit 7); (1, go); (1, go); (1, go)].
Definition k2 : kern := go_of (boot 100) (run (boot 100) to_wake).

Lemma k1_reachable : reachable 100 k1.
Proof. apply run_from. vm_compute. reflexivity. Qed.

Lemma k2_reachable : reachable 100 k2.
Proof. apply run_from. vm_compute. reflexivity. Qed.

Lemma k1_all : allproc k1 = [200; 100].
Proof. vm_compute. reflexivity. Qed.

(** init running, outside proc.c. *)
Definition k0 : kern := go_of (boot 100) (run (boot 100) [(0, go); (0, go); (0, go)]).

Lemma k0_reachable : reachable 100 k0.
Proof. apply run_from. vm_compute. reflexivity. Qed.

Lemma proc_in_one_place_witness : state (procs k1 200) = RUNNABLE /\
  (200 ∈ runq k1 \/ (exists c, modes k1 c = MDisp 200) \/ (exists c, pc k1 c = PSwitched 200)).
Proof.
  destruct (proc_in_one_place 100 k1 k1_reachable) as (_ & _ & _ & H). rewrite k1_all in H. specialize (H 200 ltac:(left)).
  assert (E : state (procs k1 200) = RUNNABLE) by (vm_compute; reflexivity). rewrite E in H. split; [exact E | exact H].
Defined.

Lemma proc_asserts_hold_witness : exists p ls, cproc k0 0 = Some p /\ pc k0 0 = PRun ls /\ p = initproc k0.
Proof.
  assert (E : kstep k0 0 (EExit 1) = Stop "init exiting") by (vm_compute; reflexivity).
  destruct (proc_asserts_hold 100 k0 0 (EExit 1) "init exiting" k0_reachable E) as (p & ls & H1 & H2 & H3 & _).
  exists p, ls. split; [exact H1 |]. split; [exact H2 | exact H3].
Defined.

Lemma k2_pc : pc k2 1 = PWake 100 [100] (WExit1 7) /\ cproc k2 1 = Some 200 /\ state (procs k2 100) = SLEEPING /\ chan (procs k2 100) = 100.
Proof. vm_compute. done. Qed.

Lemma k2_step : exists k', kstep k2 1 go = Go k'.
Proof. destruct (kstep k2 1 go) as [| k' |] eqn:E; [| exists k'; reflexivity |]; apply (f_equal went) in E; vm_compute in E; discriminate. Qed.

(** [wait] looks at [killed] and goes to sleep in two critical sections: init, between the
    two, is killed by its child and sleeps all the same. *)
Definition to_miss : list (Z * event) :=
  [(0, go); (0, go); (0, go); (0, EFork (Some 200)); (0, go); (0, go); (1, go); (1, go); (1, go); (0, EWait 0); (0, go); (0, go); (0, go); (0, go); (0, go);
   (1, EKill 1); (0, go); (0, go); (0, go); (0, go)].

Lemma wait_can_miss_kill : exists k, reachable 100 k /\ state (procs k 100) = SLEEPING /\ killed (procs k 100) = 1 /\ in_wait (saved k 100) = true /\ owner k LWait = None.
Proof.
  exists (go_of (boot 100) (run (boot 100) to_miss)). split; [apply run_from; vm_compute; reflexivity |]. vm_compute. done.
Qed.

Lemma wakeup_not_lost_witness : exists k', kstep k2 1 go = Go k' /\ 100 ∈ runq k'.
Proof.
  destruct k2_pc as (E1 & E2 & E3 & E4). destruct k2_step as [k' E]. exists k'. split; [exact E |].
  destruct (wakeup_not_lost 100 k2 1 100 100 [] (WExit1 7) true k' k2_reachable E1 ltac:(rewrite E2; discriminate) E) as (_ & H & _).
  exact (proj1 (H E3 E4)).
Defined.

Lemma k1_exit : forall c, exiting (pc k1 c) = false.
Proof. intros c. destruct (decide (c = 0)) as [-> | Hc]; [vm_compute; reflexivity |]. assert (E : pc k1 c = PSched) by (unfold k1; vm_compute; by destruct c). by rewrite E. Qed.

Lemma wait_sees_every_zombie_witness : state (procs k1 200) <> ZOMBIE.
Proof.
  assert (E : state (procs k1 100) = SLEEPING /\ in_wait (saved k1 100) = true /\ chan (procs k1 100) = 100 /\
    parent (procs k1 200) = Some 100) by (vm_compute; done). destruct E as (E2 & E3 & E4 & E5).
  apply (wait_sees_every_zombie 100 k1 100 200 k1_reachable k1_exit); [rewrite k1_all; right; left | exact E2 | exact E3 | exact E4 | rewrite k1_all; left | exact E5].
Defined.

Lemma family_tree_sound_witness : 100 ∈ allproc k1 /\ state (procs k1 100) <> ZOMBIE.
Proof. destruct (family_tree_sound 100 k1 k1_reachable) as (_ & H1 & H2 & _). split; [exact H1 | exact H2]. Defined.

Lemma pid_table_exact_witness : pid_lookup k1 2 = Some 200.
Proof.
  destruct (pid_table_exact 100 k1 k1_reachable) as (_ & H & _). apply H. split; [rewrite k1_all; left | vm_compute; reflexivity].
Defined.
