(* ===== verification/Kmsg.v ===== *)
(** * The kernel message ring

    Models kern/kmsg.c and include/sys/kmsg.h: a ring of descriptors and a ring
    of text bytes, retired together from the tail. The abstract log is the list
    of live records with their texts; the refinement theorems relate every
    operation of the rings to the log.

    The critical sections run under kmsg_lock, so each operation is one step on
    the ring state. The CPU (its process, its id, its in_kmsg flag), the counter
    read by [read_cntpct] and the bytes sent to the port are explicit. *)

From S2P Require Import Prelude.

Definition KMSG_TEXTSZ : Z := 64 * 1024.
Definition KMSG_NDESC : Z := 1024.
Definition KMSG_RECORD_MAX : Z := 256.
Definition KMSG_NO_SEQ : Z := not64 0.
Definition KMSG_F_FINAL : Z := 1.
Definition KMSG_CALLER_CPU : Z := 0x80000000.

Definition KERN_INFO : Z := 6.
Definition KERN_CONT : Z := 8.

Definition NEWLINE : Z := 10.

Record kmsg_desc := KmsgDesc {
  d_seq : Z; d_ts : Z; d_off : Z; d_caller : Z; d_len : Z; d_level : Z; d_flags : Z
}.

(** The static state of kmsg.c, and the bytes [kmsg_bypass] sent to the port. *)
Record kmsg := Kmsg {
  desc : Z -> kmsg_desc;
  textbuf : Z -> Z;
  dhead : Z; dtail : Z; ndesc : Z;
  thead : Z; ttail : Z; tused : Z;
  next_seq : Z;
  port : list Z
}.

(** What kmsg.c reads and writes of struct cpu; [cpu_pid] is c->proc->pid. *)
Record kcpu := KCpu { cpu_pid : option Z; cpu_num : Z; in_kmsg : bool }.

(** src[i] *)
Definition byte_at (src : list Z) (i : Z) : Z := nth (Z.to_nat i) src 0.

(** ** Operations *)

Definition kmsg_drop_oldest (st : kmsg) : kmsg :=
  let d := desc st (dtail st) in
  Kmsg (desc st) (textbuf st)
    (dhead st) (u32 (dtail st + 1) mod KMSG_NDESC) (u32 (ndesc st - 1))
    (thead st) (u32 (ttail st + d_len d) mod KMSG_TEXTSZ) (u32 (tused st - d_len d))
    (next_seq st) (port st).

(** The copy loop from index [i], [n] bytes left. *)
Fixpoint kmsg_write_text_loop (n : nat) (i off : Z) (src : list Z) (buf : Z -> Z) : Z -> Z :=
  match n with
  | O => buf
  | S n' =>
      kmsg_write_text_loop n' (i + 1) off src
        (buf.[u32 (off + i) mod KMSG_TEXTSZ <- byte_at src i])
  end.

Definition kmsg_write_text (st : kmsg) (off : Z) (src : list Z) (len : Z) : kmsg :=
  Kmsg (desc st) (kmsg_write_text_loop (Z.to_nat len) 0 off src (textbuf st))
    (dhead st) (dtail st) (ndesc st) (thead st) (ttail st) (tused st)
    (next_seq st) (port st).

(** Index of the newest descriptor, or NULL. *)
Definition kmsg_last (st : kmsg) : option Z :=
  if ndesc st =? 0 then None
  else Some (u32 (dhead st + KMSG_NDESC - 1) mod KMSG_NDESC).

Definition kmsg_caller (c : kcpu) : Z :=
  match cpu_pid c with
  | Some pid => u32 pid
  | None => Z.lor KMSG_CALLER_CPU (u32 (cpu_num c))
  end.

(** d->flags |= KMSG_F_FINAL *)
Definition set_final (d : kmsg_desc) : kmsg_desc :=
  KmsgDesc (d_seq d) (d_ts d) (d_off d) (d_caller d) (d_len d) (d_level d)
    (Z.lor (d_flags d) KMSG_F_FINAL).

Definition set_len (d : kmsg_desc) (len : Z) : kmsg_desc :=
  KmsgDesc (d_seq d) (d_ts d) (d_off d) (d_caller d) len (d_level d) (d_flags d).

Definition set_desc (st : kmsg) (i : Z) (d : kmsg_desc) : kmsg :=
  Kmsg ((desc st).[i <- d]) (textbuf st) (dhead st) (dtail st) (ndesc st)
    (thead st) (ttail st) (tused st) (next_seq st) (port st).

(** thead = (thead + len) % KMSG_TEXTSZ; tused += len; *)
Definition advance_text (st : kmsg) (len : Z) : kmsg :=
  Kmsg (desc st) (textbuf st) (dhead st) (dtail st) (ndesc st)
    (u32 (thead st + len) mod KMSG_TEXTSZ) (ttail st) (u32 (tused st + len))
    (next_seq st) (port st).

(** Extend the newest record: the state and the descriptor used, or NULL. *)
Definition kmsg_append_last (st : kmsg) (caller : Z) (text : list Z) (len : Z)
    : kmsg * option Z :=
  match kmsg_last st with
  | None => (st, None)
  | Some i =>
      let d := desc st i in
      if negb (Z.land (d_flags d) KMSG_F_FINAL =? 0) || negb (d_caller d =? caller)
      then (st, None)
      else if (d_len d + len >? KMSG_RECORD_MAX) || (u32 (tused st + len) >? KMSG_TEXTSZ)
      then (st, None)
      else
        let st1 := advance_text (kmsg_write_text st (thead st) text len) len in
        let d1 := set_len d (u16 (d_len d + len)) in
        let d2 := if byte_at text (len - 1) =? NEWLINE then set_final d1 else d1 in
        (set_desc st1 i d2, Some i)
  end.

(** uart_putc of each byte, straight to the port. *)
Definition kmsg_bypass (st : kmsg) (text : list Z) (len : Z) : kmsg :=
  Kmsg (desc st) (textbuf st) (dhead st) (dtail st) (ndesc st)
    (thead st) (ttail st) (tused st) (next_seq st)
    (port st ++ take (Z.to_nat len) text).

(** d = kmsg_last(); if (d != NULL) d->flags |= KMSG_F_FINAL; *)
Definition close_last (st : kmsg) : kmsg :=
  match kmsg_last st with
  | None => st
  | Some i => set_desc st i (set_final (desc st i))
  end.

(** while (ndesc == KMSG_NDESC || tused + len > KMSG_TEXTSZ) drop; the fuel is
    one more than the number of live descriptors. *)
Fixpoint drop_until_room (fuel : nat) (st : kmsg) (len : Z) : kmsg :=
  match fuel with
  | O => st
  | S fuel' =>
      if (ndesc st =? KMSG_NDESC) || (u32 (tused st + len) >? KMSG_TEXTSZ)
      then drop_until_room fuel' (kmsg_drop_oldest st) len
      else st
  end.

(** Fill desc[dhead], copy the text and advance every counter. *)
Definition start_record (st : kmsg) (caller cntpct level : Z) (text : list Z) (len : Z) : kmsg :=
  let d := KmsgDesc (next_seq st) cntpct (thead st) caller len
    (u8 (if level =? KERN_CONT then KERN_INFO else level))
    (if byte_at text (len - 1) =? NEWLINE then KMSG_F_FINAL else 0) in
  let st1 := set_desc st (dhead st) d in
  let st2 := advance_text (kmsg_write_text st1 (thead st1) text len) len in
  Kmsg (desc st2) (textbuf st2)
    (u32 (dhead st2 + 1) mod KMSG_NDESC) (dtail st2) (u32 (ndesc st2 + 1))
    (thead st2) (ttail st2) (tused st2) (u64 (next_seq st2 + 1)) (port st2).

(** The whole of [kmsg_add]: the state, the CPU's in_kmsg afterwards and the
    sequence number returned. *)
Definition kmsg_add (st : kmsg) (c : kcpu) (cntpct level : Z) (text : list Z) (len0 : Z)
    : kmsg * kcpu * Z :=
  let len := if len0 >? KMSG_RECORD_MAX then KMSG_RECORD_MAX else len0 in
  if len =? 0 then (st, c, KMSG_NO_SEQ)
  else
    let caller := kmsg_caller c in
    if in_kmsg c then (kmsg_bypass st text len, c, KMSG_NO_SEQ)
    else
      let c' := KCpu (cpu_pid c) (cpu_num c) false in
      let fresh :=
        let st1 := close_last st in
        let st2 := drop_until_room (S (Z.to_nat (ndesc st1))) st1 len in
        (start_record st2 caller cntpct level text len, c', next_seq st2) in
      if level =? KERN_CONT then
        match kmsg_append_last st caller text len with
        | (st', Some i) => (st', c', d_seq (desc st' i))
        | (_, None) => fresh
        end
      else fresh.

Definition kmsg_finalize (st : kmsg) : kmsg := close_last st.

(** The text copied out of the ring for a descriptor. *)
Definition read_text (st : kmsg) (d : kmsg_desc) : list Z :=
  map (fun i => textbuf st (u32 (d_off d + i) mod KMSG_TEXTSZ)) (seqZ 0 (d_len d)).

(** [None] is the -1 return. *)
Definition kmsg_read (st : kmsg) (seq : Z) : option (kmsg_desc * list Z) :=
  let first := d_seq (desc st (dtail st)) in
  if (ndesc st =? 0) || (seq <? first) || (seq >=? next_seq st) then None
  else
    let d := desc st (u32 (dtail st + u32 (seq - first)) mod KMSG_NDESC) in
    if Z.land (d_flags d) KMSG_F_FINAL =? 0 then None
    else Some (d, read_text st d).

Definition kmsg_first_seq (st : kmsg) : Z :=
  if ndesc st =? 0 then next_seq st else d_seq (desc st (dtail st)).

Definition kmsg_next_seq (st : kmsg) : Z := next_seq st.

(** ** The abstract log *)

Record record := Rec {
  rec_seq : Z; rec_ts : Z; rec_caller : Z; rec_level : Z; rec_final : bool; rec_text : list Z
}.

(** The live records, oldest first, and the next sequence number. *)
Record klog := KLog { recs : list record; nseq : Z }.

(** All live text, oldest byte first. *)
Definition texts (l : list record) : list Z := concat (map rec_text l).

Definition finish (r : record) : record :=
  Rec (rec_seq r) (rec_ts r) (rec_caller r) (rec_level r) true (rec_text r).

Definition ends_line (t : list Z) : bool := bool_decide (last t = Some NEWLINE).

Definition extend (r : record) (t : list Z) : record :=
  Rec (rec_seq r) (rec_ts r) (rec_caller r) (rec_level r)
    (rec_final r || ends_line t) (rec_text r ++ t).

(** Apply [f] to the newest record. *)
Fixpoint on_last (f : record -> record) (l : list record) : list record :=
  match l with
  | [] => []
  | [r] => [f r]
  | r :: l' => r :: on_last f l'
  end.

Definition fits (l : list record) (len : Z) : bool :=
  (Z.of_nat (length l) <? KMSG_NDESC) && (Z.of_nat (length (texts l)) + len <=? KMSG_TEXTSZ).

(** Forget the oldest records until the new one fits. *)
Fixpoint make_room (l : list record) (len : Z) : list record :=
  if fits l len then l
  else match l with [] => [] | _ :: l' => make_room l' len end.

Definition can_extend (lg : klog) (caller : Z) (t : list Z) : bool :=
  match last (recs lg) with
  | None => false
  | Some r =>
      negb (rec_final r) && (rec_caller r =? caller) &&
      (Z.of_nat (length (rec_text r)) + Z.of_nat (length t) <=? KMSG_RECORD_MAX) &&
      (Z.of_nat (length (texts (recs lg))) + Z.of_nat (length t) <=? KMSG_TEXTSZ)
  end.

(** Adding the non-empty text [t] (already cut to KMSG_RECORD_MAX). *)
Definition log_add (lg : klog) (caller ts level : Z) (t : list Z) : klog * Z :=
  if (level =? KERN_CONT) && can_extend lg caller t then
    (KLog (on_last (fun r => extend r t) (recs lg)) (nseq lg), nseq lg - 1)
  else
    (KLog (make_room (on_last finish (recs lg)) (Z.of_nat (length t)) ++
           [Rec (nseq lg) ts caller (u8 (if level =? KERN_CONT then KERN_INFO else level))
              (ends_line t) t])
       (nseq lg + 1), nseq lg).

Definition log_finalize (lg : klog) : klog := KLog (on_last finish (recs lg)) (nseq lg).

Definition log_first (lg : klog) : Z := nseq lg - Z.of_nat (length (recs lg)).

Definition log_read (lg : klog) (seq : Z) : option record :=
  if seq <? log_first lg then None
  else r ← recs lg !! Z.to_nat (seq - log_first lg); if rec_final r then Some r else None.

(** ** The refinement relation *)

Definition desc_of (r : record) (off : Z) : kmsg_desc :=
  KmsgDesc (rec_seq r) (rec_ts r) off (rec_caller r) (Z.of_nat (length (rec_text r)))
    (rec_level r) (if rec_final r then KMSG_F_FINAL else 0).

Definition text_ok (r : record) : Prop := (0 < length (rec_text r) <= 256)%nat.

Record ring (st : kmsg) (lg : klog) : Prop := Ring {
  ring_dtail : 0 <= dtail st < KMSG_NDESC;
  ring_ndesc : ndesc st = Z.of_nat (length (recs lg));
  ring_cap : ndesc st <= KMSG_NDESC;
  ring_dhead : dhead st = (dtail st + ndesc st) mod KMSG_NDESC;
  ring_ttail : 0 <= ttail st < KMSG_TEXTSZ;
  ring_tused : tused st = Z.of_nat (length (texts (recs lg)));
  ring_tcap : tused st <= KMSG_TEXTSZ;
  ring_thead : thead st = (ttail st + tused st) mod KMSG_TEXTSZ;
  ring_next : next_seq st = nseq lg;
  ring_nseq : Z.of_nat (length (recs lg)) <= nseq lg < 2 ^ 64;
  ring_seqs : forall i r, recs lg !! i = Some r -> rec_seq r = log_first lg + Z.of_nat i;
  ring_descs : forall i r, recs lg !! i = Some r ->
    desc st ((dtail st + Z.of_nat i) mod KMSG_NDESC) =
    desc_of r ((ttail st + Z.of_nat (length (texts (take i (recs lg))))) mod KMSG_TEXTSZ);
  ring_text : forall k b, texts (recs lg) !! k = Some b ->
    textbuf st ((ttail st + Z.of_nat k) mod KMSG_TEXTSZ) = b;
  ring_lens : Forall text_ok (recs lg);
  ring_finals : forall i r, recs lg !! i = Some r -> (S i < length (recs lg))%nat ->
    rec_final r = true
}.

(** Statics at boot: every counter zero. *)
Definition kmsg_boot : kmsg :=
  Kmsg (fun _ => KmsgDesc 0 0 0 0 0 0 0) (fun _ => 0) 0 0 0 0 0 0 0 [].

(** ** Lemmas: lists of records *)

Lemma texts_app l1 l2 : texts (l1 ++ l2) = texts l1 ++ texts l2.
Proof. unfold texts. by rewrite map_app, concat_app. Qed.

Lemma texts_cons r l : texts (r :: l) = rec_text r ++ texts l.
Proof. done. Qed.

Lemma texts_one r : texts [r] = rec_text r.
Proof. unfold texts. cbn. apply app_nil_r. Qed.

Lemma on_last_snoc f l r : on_last f (l ++ [r]) = l ++ [f r].
Proof.
  induction l as [| q l IH]; [done |]. cbn [app on_last].
  destruct (l ++ [r]) eqn:E; [by destruct l |]. rewrite <- E in *. by rewrite IH.
Qed.

Lemma length_on_last f l : length (on_last f l) = length l.
Proof.
  destruct l as [| r l] using rev_ind; [done |]. by rewrite on_last_snoc, !length_app.
Qed.

Lemma texts_on_last_finish l : texts (on_last finish l) = texts l.
Proof.
  destruct l as [| r l _] using rev_ind; [done |].
  by rewrite on_last_snoc, !texts_app, !texts_one.
Qed.

Lemma byte_at_last (t : list Z) (n : Z) :
  n = Z.of_nat (length t) -> (0 < length t)%nat ->
  (byte_at t (n - 1) =? NEWLINE) = ends_line t.
Proof.
  intros -> Hn. unfold ends_line. destruct t as [| b t _] using rev_ind; [done |].
  rewrite last_snoc. unfold byte_at. rewrite length_app in *. cbn [length].
  replace (Z.to_nat _) with (length t) by lia. rewrite app_nth2, Nat.sub_diag by lia. cbn.
  destruct (Z.eqb_spec b NEWLINE); case_bool_decide; congruence.
Qed.

Lemma byte_at_take (src : list Z) n k b :
  take n src !! k = Some b -> byte_at src (Z.of_nat k) = b /\ (k < n)%nat.
Proof.
  intros H. apply lookup_take_Some in H as [H ?]. split; [| done].
  unfold byte_at. rewrite Nat2Z.id. by apply nth_lookup_Some.
Qed.

(** ** Lemmas: ring indices *)

Lemma ring_offset t k u :
  0 <= t < KMSG_TEXTSZ -> 0 <= k < KMSG_TEXTSZ -> 0 <= u <= KMSG_TEXTSZ ->
  ((t + k) mod KMSG_TEXTSZ - (t + u) mod KMSG_TEXTSZ) mod KMSG_TEXTSZ =
  if k <? u then k - u + KMSG_TEXTSZ else k - u.
Proof.
  intros. unfold KMSG_TEXTSZ in *. destruct (Z.ltb_spec k u); Z.div_mod_to_equations; lia.
Qed.

Lemma write_loop_lookup n i off src buf j :
  0 <= off < KMSG_TEXTSZ -> 0 <= i -> i + Z.of_nat n <= KMSG_TEXTSZ -> 0 <= j < KMSG_TEXTSZ ->
  let k := (j - off) mod KMSG_TEXTSZ in
  kmsg_write_text_loop n i off src buf j =
  if (i <=? k) && (k <? i + Z.of_nat n) then byte_at src k else buf j.
Proof.
  intros Hoff Hi Hn Hj k. revert i buf Hi Hn.
  induction n as [| n IH]; intros i buf Hi Hn; cbn [kmsg_write_text_loop].
  { destruct (Z.leb_spec i k), (Z.ltb_spec k (i + Z.of_nat 0)); (done || lia). }
  assert (Hat : j = (off + i) mod KMSG_TEXTSZ <-> k = i).
  { subst k. unfold KMSG_TEXTSZ in *. Z.div_mod_to_equations. lia. }
  rewrite IH by lia. rewrite u32_small by (unfold KMSG_TEXTSZ in *; lia). unfold upd.
  destruct (Z.eqb_spec j ((off + i) mod KMSG_TEXTSZ)) as [E | E].
  - apply Hat in E. rewrite E.
    destruct (Z.leb_spec (i + 1) i), (Z.leb_spec i i), (Z.ltb_spec i (i + Z.of_nat (S n))); cbn; (done || lia).
  - assert (k <> i) by tauto.
    destruct (Z.leb_spec (i + 1) k), (Z.leb_spec i k), (Z.ltb_spec k (i + 1 + Z.of_nat n)),
      (Z.ltb_spec k (i + Z.of_nat (S n))); cbn; (done || lia).
Qed.

(** Text written at the head of the ring: the live bytes keep their place and
    the new ones follow. *)
Lemma write_text_live (l : list Z) t0 u off src n buf k b :
  0 <= t0 < KMSG_TEXTSZ -> u = Z.of_nat (length l) -> off = (t0 + u) mod KMSG_TEXTSZ ->
  u + Z.of_nat n <= KMSG_TEXTSZ -> (n <= length src)%nat ->
  (forall j c, l !! j = Some c -> buf ((t0 + Z.of_nat j) mod KMSG_TEXTSZ) = c) ->
  (l ++ take n src) !! k = Some b ->
  kmsg_write_text_loop n 0 off src buf ((t0 + Z.of_nat k) mod KMSG_TEXTSZ) = b.
Proof.
  intros Ht0 Hu Hoff Hn Hsrc Hlive Hk.
  assert (Hlen : (k < length l + n)%nat).
  { apply lookup_lt_Some in Hk. rewrite length_app, length_take in Hk. lia. }
  assert (0 < KMSG_TEXTSZ) by (unfold KMSG_TEXTSZ; lia).
  rewrite write_loop_lookup by (try apply Z.mod_pos_bound; subst; lia || (apply Z.mod_pos_bound; lia)).
  rewrite Hoff, ring_offset by lia.
  destruct (Z.ltb_spec (Z.of_nat k) u) as [Hlt | Hge].
  - rewrite lookup_app_l in Hk by lia.
    match goal with |- (if ?c then _ else _) = _ => replace c with false end; [by apply Hlive |].
    symmetry. apply andb_false_iff. right. apply Z.ltb_ge. lia.
  - rewrite lookup_app_r in Hk by lia. apply byte_at_take in Hk as [Hb Hk].
    match goal with |- (if ?c then _ else _) = _ => replace c with true end.
    + rewrite <- Hb. f_equal. lia.
    + symmetry. apply andb_true_iff. rewrite Z.leb_le, Z.ltb_lt. lia.
Qed.

Lemma slot_ne t i j :
  0 <= i < KMSG_NDESC -> 0 <= j < KMSG_NDESC -> i <> j ->
  (t + i) mod KMSG_NDESC <> (t + j) mod KMSG_NDESC.
Proof. unfold KMSG_NDESC. intros. Z.div_mod_to_equations. lia. Qed.

Ltac ring_cbn :=
  cbn [recs nseq desc textbuf dhead dtail ndesc thead ttail tused next_seq port
       d_seq d_ts d_off d_caller d_len d_level d_flags desc_of].

Ltac ring_consts := unfold KMSG_NDESC, KMSG_TEXTSZ, KMSG_RECORD_MAX in *.

(** u32 has no effect below the ring sizes. *)
Lemma u32_mod_ndesc x : u32 x mod KMSG_NDESC = x mod KMSG_NDESC.
Proof. unfold u32, KMSG_NDESC. Z.div_mod_to_equations. lia. Qed.

Lemma u32_mod_textsz x : u32 x mod KMSG_TEXTSZ = x mod KMSG_TEXTSZ.
Proof. unfold u32, KMSG_TEXTSZ. Z.div_mod_to_equations. lia. Qed.

Lemma ring_size st lg : ring st lg -> 0 <= ndesc st <= 1024 /\ 0 <= tused st <= 65536.
Proof. intros []. ring_consts. lia. Qed.

Lemma ring_first_desc st r rs n :
  ring st (KLog (r :: rs) n) -> desc st (dtail st) = desc_of r (ttail st).
Proof.
  intros H. pose proof (ring_descs _ _ H 0%nat r eq_refl) as Hd. cbn in Hd.
  rewrite !Z.add_0_r, !Z.mod_small in Hd by apply H. done.
Qed.

(** Advancing a ring index by [k], then by [i]. *)
Lemma advance_ndesc x k i : (u32 (x + k) mod KMSG_NDESC + i) mod KMSG_NDESC = (x + k + i) mod KMSG_NDESC.
Proof. by rewrite u32_mod_ndesc, Zplus_mod_idemp_l. Qed.

Lemma advance_textsz x k i :
  (u32 (x + k) mod KMSG_TEXTSZ + i) mod KMSG_TEXTSZ = (x + k + i) mod KMSG_TEXTSZ.
Proof. by rewrite u32_mod_textsz, Zplus_mod_idemp_l. Qed.

(** Retiring the oldest record is dropping the head of the log. *)
Lemma ring_drop st r rs n :
  ring st (KLog (r :: rs) n) -> ring (kmsg_drop_oldest st) (KLog rs n).
Proof.
  intros H. pose proof (ring_first_desc _ _ _ _ H) as Hd. pose proof (ring_size _ _ H) as Hsz.
  destruct H as [H1 H2 H3 H4 H5 H6 H7 H8 H9 H10 H11 H12 H13 H14 H15].
  unfold log_first in *. cbn [recs nseq] in *. rewrite texts_cons, length_app in H6.
  apply Forall_cons in H14 as [Hr H14]. unfold text_ok in Hr. cbn [length] in *.
  constructor; unfold kmsg_drop_oldest; rewrite ?Hd; ring_cbn;
    rewrite ?advance_ndesc, ?advance_textsz, ?(u32_small (ndesc st - 1)), ?(u32_small (tused st - _)) by lia.
  - apply Z.mod_pos_bound. done.
  - lia.
  - lia.
  - rewrite H4. f_equal. lia.
  - apply Z.mod_pos_bound. done.
  - lia.
  - lia.
  - rewrite H8. f_equal. lia.
  - done.
  - lia.
  - intros i q Hq. rewrite (H11 (S i) q Hq). unfold log_first. cbn. lia.
  - intros i q Hq. pose proof (H12 (S i) q Hq) as Hdi. cbn [take] in Hdi.
    rewrite texts_cons, length_app in Hdi. rewrite advance_ndesc, advance_textsz.
    replace (dtail st + 1 + Z.of_nat i) with (dtail st + Z.of_nat (S i)) by lia.
    rewrite Hdi. f_equal. f_equal. lia.
  - intros k b Hk. rewrite advance_textsz, <- (H13 (length (rec_text r) + k)%nat b).
    + f_equal. f_equal. lia.
    + rewrite texts_cons, lookup_app_r by lia. by replace (_ + k - _)%nat with k by lia.
  - done.
  - intros i q Hq Hi. apply (H15 (S i) q Hq). lia.
Qed.

Lemma ring_last st l r n :
  ring st (KLog (l ++ [r]) n) ->
  kmsg_last st = Some ((dtail st + Z.of_nat (length l)) mod KMSG_NDESC) /\
  desc st ((dtail st + Z.of_nat (length l)) mod KMSG_NDESC) =
  desc_of r ((ttail st + Z.of_nat (length (texts l))) mod KMSG_TEXTSZ).
Proof.
  intros H. pose proof (ring_size _ _ H). split.
  - unfold kmsg_last. pose proof (ring_ndesc _ _ H) as Hn. cbn in Hn.
    rewrite length_app in Hn. cbn in Hn. destruct (Z.eqb_spec (ndesc st) 0); [lia |].
    f_equal. rewrite u32_mod_ndesc, (ring_dhead _ _ H).
    unfold KMSG_NDESC. Z.div_mod_to_equations. lia.
  - pose proof (ring_descs _ _ H (length l) r) as Hd. cbn in Hd.
    rewrite lookup_app_r, Nat.sub_diag, take_app_length in Hd by lia. by apply Hd.
Qed.

(** Rewriting the newest descriptor only touches the newest record. The text
    buffer may be [buf] as long as the live text of the new log is in place. *)
Lemma ring_set_last st l r r' n buf hd used :
  ring st (KLog (l ++ [r]) n) ->
  rec_seq r' = rec_seq r -> text_ok r' ->
  used = Z.of_nat (length (texts (l ++ [r']))) -> used <= KMSG_TEXTSZ ->
  hd = (ttail st + used) mod KMSG_TEXTSZ ->
  (forall k b, texts (l ++ [r']) !! k = Some b ->
     buf ((ttail st + Z.of_nat k) mod KMSG_TEXTSZ) = b) ->
  ring (Kmsg ((desc st).[(dtail st + Z.of_nat (length l)) mod KMSG_NDESC <-
                 desc_of r' ((ttail st + Z.of_nat (length (texts l))) mod KMSG_TEXTSZ)])
          buf (dhead st) (dtail st) (ndesc st) hd (ttail st) used (next_seq st) (port st))
       (KLog (l ++ [r']) n).
Proof.
  intros H Hseq Hok Hused Hcap Hhd Hbuf.
  destruct H as [H1 H2 H3 H4 H5 H6 H7 H8 H9 H10 H11 H12 H13 H14 H15].
  unfold log_first in *. cbn [recs nseq] in *.
  assert (Hlen : length (l ++ [r']) = length (l ++ [r])) by by rewrite !length_app.
  constructor; unfold log_first; ring_cbn; rewrite ?Hlen; try done.
  - intros i q Hq. apply lookup_snoc_Some in Hq as [[Hi Hq] | [-> <-]].
    + apply H11. by rewrite lookup_app_l.
    + rewrite Hseq. apply H11. by rewrite lookup_app_r, Nat.sub_diag by lia.
  - intros i q Hq. apply lookup_snoc_Some in Hq as [[Hi Hq] | [-> <-]].
    + rewrite upd_ne.
      * rewrite (H12 i q) by by rewrite lookup_app_l. by rewrite !take_app_le by lia.
      * rewrite length_app in H2. cbn in H2. apply slot_ne; lia.
    + by rewrite upd_eq, take_app_length.
  - apply Forall_app in H14 as [? _]. apply Forall_app. auto.
  - intros i q Hq Hi. apply (H15 i q); [| done]. rewrite length_app in Hi. cbn in Hi.
    rewrite lookup_app_l in Hq |- * by lia. done.
Qed.

Lemma ring_close st lg : ring st lg -> ring (close_last st) (log_finalize lg).
Proof.
  destruct lg as [l n]. intros H. unfold log_finalize, close_last. cbn [recs nseq].
  destruct l as [| r l _] using rev_ind.
  - unfold kmsg_last. rewrite (ring_ndesc _ _ H). done.
  - rewrite on_last_snoc. destruct (ring_last _ _ _ _ H) as [-> Hd]. unfold set_desc. rewrite Hd.
    replace (set_final _) with
      (desc_of (finish r) ((ttail st + Z.of_nat (length (texts l))) mod KMSG_TEXTSZ))
      by by (unfold set_final, desc_of, finish; cbn; destruct (rec_final r)).
    assert (Htx : texts (l ++ [finish r]) = texts (l ++ [r])) by by rewrite !texts_app, !texts_one.
    apply ring_set_last with (r := r); rewrite ?Htx; try (done || apply H).
    pose proof (ring_lens _ _ H) as Hl. apply Forall_app in Hl as [_ Hl]. by inversion Hl.
Qed.

Lemma fits_guard st lg len :
  ring st lg -> 0 <= len <= 256 ->
  (ndesc st =? KMSG_NDESC) || (u32 (tused st + len) >? KMSG_TEXTSZ) = negb (fits (recs lg) len).
Proof.
  intros H Hlen. pose proof (ring_size _ _ H). unfold fits.
  rewrite <- (ring_ndesc _ _ H), <- (ring_tused _ _ H), u32_small by lia. ring_consts.
  destruct (Z.eqb_spec (ndesc st) 1024), (Z.gtb_spec (tused st + len) (64 * 1024)),
    (Z.ltb_spec (ndesc st) 1024), (Z.leb_spec (tused st + len) (64 * 1024)); cbn; (done || lia).
Qed.

Lemma fits_nil len : 0 <= len <= 256 -> fits [] len = true.
Proof. intros. unfold fits. cbn. ring_consts. apply Z.leb_le. lia. Qed.

Lemma make_room_fits l len : 0 <= len <= 256 -> fits (make_room l len) len = true.
Proof.
  intros Hlen. induction l as [| r l IH]; cbn [make_room].
  - destruct (fits [] len); by apply fits_nil.
  - by destruct (fits (r :: l) len) eqn:E.
Qed.

(** The reclaim loop ends, with room, having dropped a prefix of the log. *)
Lemma ring_make_room fuel st lg len :
  ring st lg -> 0 <= len <= 256 -> (length (recs lg) < fuel)%nat ->
  ring (drop_until_room fuel st len) (KLog (make_room (recs lg) len) (nseq lg)) /\
  next_seq (drop_until_room fuel st len) = next_seq st.
Proof.
  destruct lg as [l n]. cbn [recs nseq]. revert st l.
  induction fuel as [| fuel IH]; intros st l H Hlen Hf; [lia |].
  cbn [drop_until_room]. rewrite (fits_guard _ _ _ H Hlen). cbn [recs].
  destruct l as [| r l]; cbn [make_room].
  - by rewrite fits_nil by done.
  - destruct (fits (r :: l) len); cbn [negb]; [done |].
    apply ring_drop in H. destruct (IH _ _ H Hlen) as [? ->]; [cbn in Hf; lia | done].
Qed.

(** Filling the next descriptor and the text behind the head appends a record. *)
Lemma ring_push st lg caller ts level src n :
  ring st lg -> (0 < n <= 256)%nat -> (n <= length src)%nat ->
  fits (recs lg) (Z.of_nat n) = true -> nseq lg + 1 < 2 ^ 64 ->
  (forall i r, recs lg !! i = Some r -> rec_final r = true) ->
  ring (start_record st caller ts level src (Z.of_nat n))
    (KLog (recs lg ++
           [Rec (nseq lg) ts caller (u8 (if level =? KERN_CONT then KERN_INFO else level))
              (ends_line (take n src)) (take n src)]) (nseq lg + 1)).
Proof.
  intros H Hn Hsrc Hfit Hseq Hfin. pose proof (ring_size _ _ H) as Hsz.
  assert (Hlast : (byte_at src (Z.of_nat n - 1) =? NEWLINE) = ends_line (take n src)).
  { rewrite <- (byte_at_last _ (Z.of_nat n)) by (rewrite length_take; lia).
    unfold byte_at. f_equal. rewrite !nth_lookup, lookup_take_lt by lia. done. }
  destruct H as [H1 H2 H3 H4 H5 H6 H7 H8 H9 H10 H11 H12 H13 H14 H15].
  unfold fits in Hfit. rewrite <- H2, <- H6 in Hfit. zbool.
  unfold log_first in *. destruct lg as [l m]. cbn [recs nseq] in *.
  set (r := Rec _ _ _ _ _ _).
  constructor; unfold start_record, advance_text, kmsg_write_text, set_desc, log_first; ring_cbn;
    rewrite ?length_app; cbn [length]; rewrite ?(u32_small (ndesc st + 1)), ?(u32_small (tused st + _)) by lia.
  - done.
  - lia.
  - lia.
  - rewrite u32_mod_ndesc, H4, Zplus_mod_idemp_l. f_equal. lia.
  - done.
  - rewrite texts_app, texts_one, length_app. cbn. rewrite length_take. lia.
  - done.
  - rewrite u32_mod_textsz, H8, Zplus_mod_idemp_l. f_equal. lia.
  - rewrite u64_small by lia. lia.
  - lia.
  - intros i q Hq. apply lookup_snoc_Some in Hq as [[Hi Hq] | [-> <-]]; [rewrite (H11 i q Hq) | cbn]; lia.
  - intros i q Hq. apply lookup_snoc_Some in Hq as [[Hi Hq] | [-> <-]].
    + rewrite upd_ne, take_app_le by (lia || (rewrite H4, H2; apply slot_ne; ring_consts; lia)).
      by apply H12.
    + rewrite take_app_length, <- H2, <- H6, <- H4, <- H8, upd_eq. unfold desc_of, r. cbn.
      rewrite length_take, Hlast, H9. f_equal. lia.
  - intros k b Hk. rewrite texts_app, texts_one in Hk. rewrite Nat2Z.id.
    eapply write_text_live; [.. | exact Hk]; eauto; lia.
  - apply Forall_app. split; [done |]. apply Forall_singleton. unfold text_ok. cbn. rewrite length_take. lia.
  - intros i q Hq Hi. apply (Hfin i q). cbn in Hi. rewrite lookup_app_l in Hq by lia. done.
Qed.

(** Extending the newest, still open record. *)
Lemma ring_extend st l r n caller src len :
  ring st (KLog (l ++ [r]) n) -> rec_final r = false -> rec_caller r = caller ->
  (0 < len)%nat -> (len <= length src)%nat ->
  (length (rec_text r) + len <= 256)%nat -> tused st + Z.of_nat len <= KMSG_TEXTSZ ->
  exists st' i, kmsg_append_last st caller src (Z.of_nat len) = (st', Some i) /\
    ring st' (KLog (l ++ [extend r (take len src)]) n) /\ d_seq (desc st' i) = rec_seq r.
Proof.
  intros H Hopen Hcaller Hlen Hsrc Hmax Hcap. pose proof (ring_size _ _ H) as Hsz.
  destruct (ring_last _ _ _ _ H) as [Hl Hd]. unfold kmsg_append_last. rewrite Hl, Hd.
  cbn [d_flags d_caller d_len desc_of]. rewrite Hopen, Hcaller.
  change (Z.land 0 KMSG_F_FINAL =? 0) with true. rewrite Z.eqb_refl. cbn [negb orb].
  destruct (_ >? KMSG_RECORD_MAX) eqn:E1; [ring_consts; zbool; lia |].
  rewrite u32_small by lia. destruct (_ >? KMSG_TEXTSZ) eqn:E2; [zbool; lia |]. cbn [orb].
  eexists _, _. split; [reflexivity |]. unfold set_desc, advance_text, kmsg_write_text. ring_cbn.
  rewrite upd_eq. split; [| by destruct (byte_at src (Z.of_nat len - 1) =? NEWLINE)].
  assert (Hlast : (byte_at src (Z.of_nat len - 1) =? NEWLINE) = ends_line (take len src)).
  { rewrite <- (byte_at_last _ (Z.of_nat len)) by (rewrite length_take; lia).
    unfold byte_at. f_equal. rewrite !nth_lookup, lookup_take_lt by lia. done. }
  match goal with |- context [(desc st).[_ <- ?d]] =>
    replace d with (desc_of (extend r (take len src))
      ((ttail st + Z.of_nat (length (texts l))) mod KMSG_TEXTSZ)) end.
  2: { rewrite Hlast. unfold desc_of, extend. cbn. rewrite Hopen, length_app, length_take. cbn.
       rewrite u16_small by lia.
       destruct (ends_line (take len src)); unfold set_final, set_len; cbn; f_equal; try lia. }
  assert (Htx : texts (l ++ [extend r (take len src)]) = texts (l ++ [r]) ++ take len src)
    by (rewrite !texts_app, !texts_one; cbn; by rewrite app_assoc).
  pose proof (ring_tused _ _ H) as Hused. cbn [recs] in Hused.
  rewrite (u32_small (tused st + _)) by lia.
  apply ring_set_last with (r := r); rewrite ?Htx; try done.
  - unfold text_ok. cbn. rewrite length_app, length_take. lia.
  - rewrite length_app, length_take. lia.
  - rewrite u32_mod_textsz, (ring_thead _ _ H), Zplus_mod_idemp_l. f_equal. lia.
  - intros k b Hk. rewrite Nat2Z.id.
    eapply write_text_live; [.. | exact Hk]; eauto; try apply H; lia.
Qed.

(** ** Lemmas: the operations against the log *)

Lemma append_refused st lg caller src len :
  ring st lg -> (0 < len <= 256)%nat -> (len <= length src)%nat ->
  can_extend lg caller (take len src) = false ->
  kmsg_append_last st caller src (Z.of_nat len) = (st, None).
Proof.
  destruct lg as [l n]. intros H Hlen Hsrc Hno. pose proof (ring_size _ _ H) as Hsz.
  unfold kmsg_append_last. destruct l as [| r l _] using rev_ind.
  { unfold kmsg_last. by rewrite (ring_ndesc _ _ H). }
  destruct (ring_last _ _ _ _ H) as [-> ->]. cbn [d_flags d_caller d_len desc_of].
  unfold can_extend in Hno. cbn [recs] in Hno. rewrite last_snoc, length_take in Hno.
  pose proof (ring_tused _ _ H) as Hu. cbn [recs] in Hu. rewrite <- Hu in Hno.
  rewrite Nat.min_l in Hno by lia. rewrite u32_small by lia.
  destruct (rec_final r); [done |]. cbn [negb andb] in Hno.
  change (Z.land 0 KMSG_F_FINAL =? 0) with true. cbn [negb orb].
  destruct (rec_caller r =? caller); [| done]. cbn [negb andb] in Hno |- *.
  destruct (_ >? KMSG_RECORD_MAX) eqn:E1; [done |].
  destruct (_ >? KMSG_TEXTSZ) eqn:E2; [done |]. zbool. destruct Hno; zbool; lia.
Qed.

Lemma finished_all lg st : ring st lg ->
  forall i r, on_last finish (recs lg) !! i = Some r -> rec_final r = true.
Proof.
  destruct lg as [l n]. intros H i r. cbn [recs].
  destruct l as [| q l _] using rev_ind; [done |]. rewrite on_last_snoc.
  intros Hi. apply lookup_snoc_Some in Hi as [[Hlt Hi] | [_ <-]]; [| done].
  apply (ring_finals _ _ H i); cbn [recs]; [by rewrite lookup_app_l | rewrite length_app; cbn; lia].
Qed.

Lemma make_room_suffix l len : exists k, make_room l len = drop k l.
Proof.
  induction l as [| r l [k IH]]; cbn [make_room].
  - exists 0%nat. by destruct (fits [] len).
  - destruct (fits (r :: l) len); [by exists 0%nat | by exists (S k)].
Qed.

(** The fresh-record path of [kmsg_add]. *)
Lemma ring_fresh st lg caller ts level src len :
  ring st lg -> (0 < len <= 256)%nat -> (len <= length src)%nat -> nseq lg + 1 < 2 ^ 64 ->
  let st1 := close_last st in
  let st2 := drop_until_room (S (Z.to_nat (ndesc st1))) st1 (Z.of_nat len) in
  next_seq st2 = nseq lg /\
  ring (start_record st2 caller ts level src (Z.of_nat len))
    (KLog (make_room (on_last finish (recs lg)) (Z.of_nat len) ++
           [Rec (nseq lg) ts caller (u8 (if level =? KERN_CONT then KERN_INFO else level))
              (ends_line (take len src)) (take len src)]) (nseq lg + 1)).
Proof.
  intros H Hlen Hsrc Hseq st1 st2. pose proof (ring_close _ _ H) as H1. fold st1 in H1.
  pose proof (ring_make_room (S (Z.to_nat (ndesc st1))) st1 _ (Z.of_nat len) H1) as Hroom.
  destruct Hroom as [H2 Hn]; [lia | rewrite (ring_ndesc _ _ H1); lia |]. fold st2 in H2, Hn.
  cbn [recs nseq log_finalize] in H2. split; [rewrite (ring_next _ _ H2); done |].
  pose proof (ring_push st2 _ caller ts level src len H2 Hlen Hsrc) as Hp. cbn [recs nseq] in Hp.
  apply Hp; [apply make_room_fits; lia | done |].
  intros i r Hi. destruct (make_room_suffix (on_last finish (recs lg)) (Z.of_nat len)) as [k E].
  rewrite E, lookup_drop in Hi. by apply (finished_all _ _ H) in Hi.
Qed.

(** Refinement of [kmsg_add], every branch. *)
Lemma kmsg_add_refines st lg c ts level text len0 :
  ring st lg -> 0 <= len0 <= Z.of_nat (length text) -> nseq lg + 1 < 2 ^ 64 ->
  let t := take (Z.to_nat (Z.min len0 256)) text in
  if len0 =? 0 then kmsg_add st c ts level text len0 = (st, c, KMSG_NO_SEQ)
  else if in_kmsg c then
    exists st', kmsg_add st c ts level text len0 = (st', c, KMSG_NO_SEQ) /\
      port st' = port st ++ t /\ ring st' lg
  else
    exists st', kmsg_add st c ts level text len0 =
        (st', c, snd (log_add lg (kmsg_caller c) ts level t)) /\
      ring st' (fst (log_add lg (kmsg_caller c) ts level t)).
Proof.
  intros H Hlen Hseq t. unfold kmsg_add.
  replace (if len0 >? KMSG_RECORD_MAX then KMSG_RECORD_MAX else len0) with (Z.min len0 256)
    by (ring_consts; destruct (Z.gtb_spec len0 256); lia).
  destruct (Z.eqb_spec len0 0) as [-> |]; [done |].
  destruct (Z.eqb_spec (Z.min len0 256) 0); [lia |].
  destruct (in_kmsg c) eqn:Ec.
  { eexists. split; [done |]. split; [done |]. destruct H. constructor; done. }
  set (len := Z.to_nat (Z.min len0 256)) in *.
  replace (Z.min len0 256) with (Z.of_nat len) by lia.
  assert (Hc : KCpu (cpu_pid c) (cpu_num c) false = c) by (destruct c; cbn in *; by subst).
  rewrite Hc. unfold log_add.
  assert (Hlt : Z.of_nat (length t) = Z.of_nat len) by (subst t; rewrite length_take; lia).
  rewrite Hlt. cbn zeta.
  destruct (ring_fresh st lg (kmsg_caller c) ts level text len H) as [Hn Hfresh]; [lia.. |].
  destruct ((level =? KERN_CONT) && can_extend lg (kmsg_caller c) t) eqn:Ebr; cbn [fst snd].
  - zbool. rewrite (proj2 (Z.eqb_eq _ _)) by done.
    destruct lg as [l m]. cbn [recs nseq] in *. unfold can_extend in *. cbn [recs] in *.
    destruct l as [| r l _] using rev_ind; [done |]. rewrite last_snoc in *. zbool.
    rewrite on_last_snoc. pose proof (ring_tused _ _ H) as Hu. cbn [recs] in Hu.
    destruct (ring_extend st l r m (kmsg_caller c) text len) as (st' & i & -> & Hr & Hs);
      [ring_consts; (done || lia) .. |].
    exists st'. split; [| done]. do 2 f_equal. rewrite Hs.
    rewrite (ring_seqs _ _ H (length l) r) by (cbn; by rewrite lookup_app_r, Nat.sub_diag by lia).
    unfold log_first. cbn. rewrite length_app. cbn. lia.
  - eexists. split; [| exact Hfresh].
    destruct (level =? KERN_CONT) eqn:El; [| by rewrite Hn].
    rewrite (append_refused st lg) by (done || lia). by rewrite Hn.
Qed.

Lemma texts_lookup l i r k b :
  l !! i = Some r -> rec_text r !! k = Some b ->
  texts l !! (length (texts (take i l)) + k)%nat = Some b.
Proof.
  intros Hi Hk. pose proof (f_equal texts (take_drop_middle l i r Hi)) as E.
  rewrite texts_app, texts_cons in E. rewrite <- E, lookup_app_r by lia.
  replace (_ + k - _)%nat with k by lia. rewrite lookup_app_l; [done |]. by eapply lookup_lt_Some.
Qed.

(** Reassembling a record's text from the ring gives the text that was added. *)
Lemma read_text_live st lg i r :
  ring st lg -> recs lg !! i = Some r ->
  read_text st (desc_of r ((ttail st + Z.of_nat (length (texts (take i (recs lg))))) mod KMSG_TEXTSZ))
  = rec_text r.
Proof.
  intros H Hi. unfold read_text. cbn [d_off d_len desc_of]. apply list_eq. intros k.
  rewrite list_lookup_fmap. destruct (rec_text r !! k) as [b |] eqn:Hk.
  - pose proof (lookup_lt_Some _ _ _ Hk). rewrite lookup_seqZ_lt by lia. cbn. f_equal.
    rewrite u32_mod_textsz, Zplus_mod_idemp_l.
    rewrite <- (ring_text _ _ H _ b (texts_lookup _ _ _ _ _ Hi Hk)). f_equal. f_equal. lia.
  - apply lookup_ge_None in Hk. by rewrite lookup_seqZ_ge by lia.
Qed.

Lemma kmsg_read_log st lg seq :
  ring st lg -> 0 <= seq < 2 ^ 64 ->
  match log_read lg seq with
  | None => kmsg_read st seq = None
  | Some r => exists off, kmsg_read st seq = Some (desc_of r off, rec_text r)
  end.
Proof.
  destruct lg as [l n]. intros H Hseq. unfold kmsg_read. rewrite (ring_next _ _ H).
  pose proof (ring_ndesc _ _ H) as Hn. pose proof (ring_nseq _ _ H) as Hns.
  pose proof (ring_size _ _ H) as Hsz. cbn [recs nseq] in *.
  destruct l as [| r0 l].
  { rewrite Hn. cbn. unfold log_read. by destruct (seq <? _). }
  rewrite (ring_first_desc _ _ _ _ H). cbn [d_seq desc_of].
  pose proof (ring_seqs _ _ H 0%nat r0 eq_refl) as Hs0.
  rewrite Hs0, Z.add_0_r. unfold log_read.
  destruct (Z.eqb_spec (ndesc st) 0); [cbn in Hn; lia |]. cbn [orb].
  destruct (seq <? log_first _) eqn:E1; [done |]. cbn [orb]. zbool.
  set (i := Z.to_nat (seq - log_first (KLog (r0 :: l) n))).
  assert (Hif : Z.of_nat i = seq - log_first (KLog (r0 :: l) n)) by lia.
  unfold log_first in *. cbn [recs nseq] in *.
  destruct (Z.geb_spec seq n) as [Hge | Hlt].
  { rewrite lookup_ge_None_2 by lia. done. }
  destruct (lookup_lt_is_Some_2 (r0 :: l) i) as [r Hr]; [lia |].
  rewrite Hr. cbn [mbind option_bind]. rewrite <- Hif, (u32_small (Z.of_nat i)), u32_mod_ndesc by lia.
  rewrite (ring_descs _ _ H i r Hr). cbn [d_flags desc_of].
  pose proof (read_text_live _ _ i r H Hr) as Ht. cbn [recs] in Ht |- *.
  destruct (rec_final r); [| done].
  change (Z.land KMSG_F_FINAL KMSG_F_FINAL =? 0) with false. eexists. by rewrite Ht.
Qed.

(** ** Lemmas: histories *)

Inductive kop :=
| OpAdd (c : kcpu) (ts level : Z) (text : list Z) (len : Z)
| OpFinalize.

Definition run_op (st : kmsg) (o : kop) : kmsg :=
  match o with
  | OpAdd c ts level text len => fst (fst (kmsg_add st c ts level text len))
  | OpFinalize => kmsg_finalize st
  end.

Definition run_ops (st : kmsg) (os : list kop) : kmsg := fold_left run_op os st.

(** The length argument does not exceed the buffer passed. *)
Definition op_ok (o : kop) : Prop :=
  match o with
  | OpAdd _ _ _ text len => 0 <= len <= Z.of_nat (length text)
  | OpFinalize => True
  end.

Definition kept (lg lg' : klog) : Prop :=
  nseq lg <= nseq lg' <= nseq lg + 1 /\ log_first lg <= log_first lg' /\
  forall r r', r ∈ recs lg -> rec_final r = true -> r' ∈ recs lg' ->
    rec_seq r' = rec_seq r -> r' = r.

Lemma seq_inj st lg r r' :
  ring st lg -> r ∈ recs lg -> r' ∈ recs lg -> rec_seq r' = rec_seq r -> r' = r.
Proof.
  intros H [i Hi]%list_elem_of_lookup [j Hj]%list_elem_of_lookup E.
  rewrite (ring_seqs _ _ H i r Hi), (ring_seqs _ _ H j r' Hj) in E.
  assert (i = j) by lia. subst. rewrite Hi in Hj. by injection Hj.
Qed.

Lemma seq_below st lg r : ring st lg -> r ∈ recs lg -> log_first lg <= rec_seq r < nseq lg.
Proof.
  intros H [i Hi]%list_elem_of_lookup. rewrite (ring_seqs _ _ H i r Hi).
  apply lookup_lt_Some in Hi. unfold log_first. lia.
Qed.

Lemma elem_on_last f l r' :
  r' ∈ on_last f l -> r' ∈ l \/ exists q, last l = Some q /\ r' = f q.
Proof.
  destruct l as [| q l _] using rev_ind; [by left |]. rewrite on_last_snoc, last_snoc.
  rewrite !elem_of_app, !list_elem_of_singleton. intros [? | ->]; [by auto | by eauto].
Qed.

Lemma finish_kept st lg r r' :
  ring st lg -> r ∈ recs lg -> rec_final r = true -> r' ∈ on_last finish (recs lg) ->
  rec_seq r' = rec_seq r -> r' = r.
Proof.
  intros H Hr Hf Hr' Hs. apply elem_on_last in Hr' as [Hr' | (q & Hq & ->)].
  - by eapply seq_inj.
  - apply last_Some_elem_of in Hq. assert (q = r) by by eapply seq_inj. subst q.
    destruct r. cbn in *. by subst.
Qed.

Lemma run_op_kept st lg o :
  ring st lg -> op_ok o -> nseq lg + 1 < 2 ^ 64 ->
  exists lg', ring (run_op st o) lg' /\ kept lg lg'.
Proof.
  intros H Ho Hseq. destruct o as [c ts level text len |]; cbn [run_op op_ok] in *.
  2: { eexists. split; [by apply ring_close |]. split; [cbn; lia |].
       split; [unfold log_first; cbn; rewrite length_on_last; lia |].
       intros r r' ????. by eapply finish_kept. }
  pose proof (kmsg_add_refines st lg c ts level text len H Ho Hseq) as Hadd. cbn zeta in Hadd.
  assert (Hrefl : kept lg lg) by (split; [lia |]; split; [lia |]; intros; by eapply seq_inj).
  destruct (len =? 0); [rewrite Hadd; by exists lg |].
  destruct (in_kmsg c); [destruct Hadd as (st' & -> & _ & ?); by exists lg |].
  destruct Hadd as (st' & -> & Hr). eexists. split; [exact Hr |]. clear Hr.
  destruct (make_room_suffix (on_last finish (recs lg))
    (Z.of_nat (length (take (Z.to_nat (Z.min len 256)) text)))) as [k E].
  unfold log_add, can_extend. split; [destruct (_ && _); cbn; lia |]. split.
  { unfold log_first. destruct (_ && _); cbn [fst recs nseq]; [by rewrite length_on_last |].
    rewrite E, length_app, length_drop, length_on_last. cbn. lia. }
  intros r r' Hin Hf. destruct ((level =? KERN_CONT) && _) eqn:Eb; cbn [fst recs].
  - intros Hr' Hs. apply elem_on_last in Hr' as [? | (q & Hq & ->)]; [by eapply seq_inj |].
    assert (q = r) as -> by (eapply seq_inj; eauto; by apply last_Some_elem_of).
    rewrite Hq in Eb. zbool. congruence.
  - rewrite elem_of_app, list_elem_of_singleton. intros [Hr' | ->] Hs.
    + rewrite E in Hr'. eapply finish_kept; eauto. by apply (subseteq_drop k).
    + cbn in Hs. pose proof (seq_below _ _ _ H Hin). lia.
Qed.

Lemma log_read_Some st lg seq r :
  ring st lg ->
  log_read lg seq = Some r <-> r ∈ recs lg /\ rec_final r = true /\ rec_seq r = seq.
Proof.
  intros H. unfold log_read. split.
  - destruct (seq <? log_first lg) eqn:E; [done |]. zbool.
    destruct (recs lg !! _) as [q |] eqn:Hq; [| done]. cbn.
    destruct (rec_final q) eqn:Hf; [| done]. intros [= ->].
    split; [by eapply list_elem_of_lookup_2 |]. split; [done |].
    rewrite (ring_seqs _ _ H _ _ Hq). lia.
  - intros ([i Hi]%list_elem_of_lookup & Hf & Hs). rewrite (ring_seqs _ _ H _ _ Hi) in Hs.
    destruct (Z.ltb_spec seq (log_first lg)); [lia |].
    replace (Z.to_nat (seq - log_first lg)) with i by lia. rewrite Hi. cbn. by rewrite Hf.
Qed.

Lemma log_at st lg seq :
  ring st lg -> log_first lg <= seq < nseq lg -> exists r, r ∈ recs lg /\ rec_seq r = seq.
Proof.
  intros H Hs. destruct (lookup_lt_is_Some_2 (recs lg) (Z.to_nat (seq - log_first lg))) as [r Hr].
  { unfold log_first in *. lia. }
  exists r. split; [by eapply list_elem_of_lookup_2 |]. rewrite (ring_seqs _ _ H _ _ Hr). lia.
Qed.

Lemma run_ops_kept os st lg :
  ring st lg -> Forall op_ok os -> nseq lg + Z.of_nat (length os) < 2 ^ 64 ->
  exists lg', ring (run_ops st os) lg' /\
    nseq lg <= nseq lg' <= nseq lg + Z.of_nat (length os) /\ log_first lg <= log_first lg' /\
    forall seq r r', log_read lg seq = Some r -> log_read lg' seq = Some r' -> r' = r.
Proof.
  revert st lg. induction os as [| o os IH]; intros st lg H Ho Hseq; cbn [length] in *.
  { exists lg. split; [done |]. split; [lia |]. split; [lia |]. congruence. }
  apply Forall_cons in Ho as [Ho Hos].
  destruct (run_op_kept st lg o H Ho) as (lg1 & H1 & Hn1 & Hf1 & Hk1); [lia |].
  destruct (IH _ _ H1 Hos) as (lg2 & H2 & Hn2 & Hf2 & Hk2); [lia |].
  exists lg2. split; [done |]. split; [lia |]. split; [lia |]. intros seq r r2 Hr Hr2.
  apply (log_read_Some _ _ _ _ H) in Hr as (Hin & Hf & Hs).
  apply (log_read_Some _ _ _ _ H2) in Hr2 as Hr2'. destruct Hr2' as (Hin2 & _ & Hs2).
  pose proof (seq_below _ _ _ H Hin). pose proof (seq_below _ _ _ H2 Hin2).
  destruct (log_at _ _ seq H1) as (r1 & Hin1 & Hs1); [lia |].
  assert (r1 = r) as -> by (apply Hk1; congruence).
  eapply Hk2; [| exact Hr2]. by apply (log_read_Some _ _ _ _ H1).
Qed.

Lemma ring_boot : ring kmsg_boot (KLog [] 0).
Proof. constructor; cbn; try done; try lia. Qed.

(** ** Properties *)

Lemma kmsg_first_seq_log st lg : ring st lg -> kmsg_first_seq st = log_first lg.
Proof.
  intros H. unfold kmsg_first_seq. rewrite (ring_ndesc _ _ H), (ring_next _ _ H).
  destruct lg as [[| r l] n]; [unfold log_first; cbn [recs nseq length]; by rewrite Z.sub_0_r |].
  rewrite (ring_first_desc _ _ _ _ H). cbn [d_seq desc_of recs].
  by rewrite (ring_seqs _ _ H 0%nat r eq_refl), Z.add_0_r.
Qed.

(** C39: [kmsg_add] implements the abstract log on every branch. A zero length
    stores nothing; on re-entry (in_kmsg) the bytes, cut to KMSG_RECORD_MAX, go
    to the port and the ring is untouched; otherwise the ring holds the log in
    which the text either extended the newest open record of the same caller
    (KERN_CONT, and it fits) or became a new record after the oldest ones were
    dropped to make room, and the sequence number returned is that record's. *)
Theorem kmsg_add_implements_log st lg c ts level text len :
  ring st lg -> 0 <= len <= Z.of_nat (length text) -> nseq lg + 1 < 2 ^ 64 ->
  let t := take (Z.to_nat (Z.min len 256)) text in
  if len =? 0 then kmsg_add st c ts level text len = (st, c, KMSG_NO_SEQ)
  else if in_kmsg c then
    exists st', kmsg_add st c ts level text len = (st', c, KMSG_NO_SEQ) /\
      port st' = port st ++ t /\ ring st' lg
  else
    exists st', kmsg_add st c ts level text len =
        (st', c, snd (log_add lg (kmsg_caller c) ts level t)) /\
      ring st' (fst (log_add lg (kmsg_caller c) ts level t)).
Proof. apply kmsg_add_refines. Qed.

(** the readers implement the log. [kmsg_read] returns a record exactly when
    the log holds a final one with that sequence number, and then the whole text
    that was added, reassembled across the wrap of the ring, with its metadata;
    [kmsg_first_seq] and [kmsg_next_seq] bound the held range; [kmsg_finalize]
    closes the newest record. *)
Theorem kmsg_readers_implement_log st lg seq :
  ring st lg -> 0 <= seq < 2 ^ 64 ->
  kmsg_first_seq st = log_first lg /\ kmsg_next_seq st = nseq lg /\
  ring (kmsg_finalize st) (log_finalize lg) /\
  match log_read lg seq with
  | None => kmsg_read st seq = None
  | Some r => exists off, kmsg_read st seq = Some (desc_of r off, rec_text r)
  end.
Proof.
  intros H Hs. split; [by apply kmsg_first_seq_log |]. split; [by apply H |].
  split; [by apply ring_close | by apply kmsg_read_log].
Qed.

(** a record that could be read is never corrupted. From boot, after any
    history [os1] and any further history [os2] of adds and finalizes, a sequence
    number readable both before and after [os2] still carries the same text,
    level, timestamp and caller: later records may retire it but not alter it. *)
Theorem kmsg_records_immutable os1 os2 seq d1 t1 d2 t2 :
  Forall op_ok os1 -> Forall op_ok os2 ->
  Z.of_nat (length os1) + Z.of_nat (length os2) < 2 ^ 64 -> 0 <= seq < 2 ^ 64 ->
  kmsg_read (run_ops kmsg_boot os1) seq = Some (d1, t1) ->
  kmsg_read (run_ops kmsg_boot (os1 ++ os2)) seq = Some (d2, t2) ->
  t2 = t1 /\ d_seq d2 = d_seq d1 /\ d_ts d2 = d_ts d1 /\ d_caller d2 = d_caller d1 /\
  d_level d2 = d_level d1 /\ d_len d2 = d_len d1.
Proof.
  intros H1 H2 Hn Hs R1 R2.
  destruct (run_ops_kept os1 _ _ ring_boot H1) as (lg1 & Hr1 & Hn1 & _); [cbn; lia |].
  destruct (run_ops_kept os2 _ _ Hr1 H2) as (lg2 & Hr2 & _ & _ & Hk); [cbn in *; lia |].
  unfold run_ops in Hr2. rewrite <- fold_left_app in Hr2.
  pose proof (kmsg_read_log _ _ seq Hr1 Hs) as L1. pose proof (kmsg_read_log _ _ seq Hr2 Hs) as L2.
  fold (run_ops kmsg_boot (os1 ++ os2)) in L2.
  destruct (log_read lg1 seq) as [r1 |] eqn:E1; [| congruence].
  destruct (log_read lg2 seq) as [r2 |] eqn:E2; [| congruence].
  specialize (Hk _ _ _ E1 E2). subst r2. destruct L1 as [o1 L1], L2 as [o2 L2].
  rewrite L1 in R1. rewrite L2 in R2. injection R1 as <- <-. injection R2 as <- <-. done.
Qed.

(** round trip. A line (newline-terminated, at most KMSG_RECORD_MAX bytes)
    added from any reachable ring by a CPU not inside [kmsg_add] is at once
    readable, byte for byte, under the sequence number returned. *)
Theorem kmsg_add_read_roundtrip os c ts level text :
  Forall op_ok os -> Z.of_nat (length os) + 1 < 2 ^ 64 -> in_kmsg c = false ->
  level <> KERN_CONT -> (0 < length text <= 256)%nat -> last text = Some NEWLINE ->
  let st := run_ops kmsg_boot os in
  exists st' seq d, kmsg_add st c ts level text (Z.of_nat (length text)) = (st', c, seq) /\
    seq = next_seq st /\ kmsg_read st' seq = Some (d, text) /\
    d_caller d = kmsg_caller c /\ d_level d = u8 level /\ d_ts d = ts.
Proof.
  intros Ho Hn Hc Hl Ht Hnl st.
  destruct (run_ops_kept os _ _ ring_boot Ho) as (lg & Hr & Hnq & _); [cbn; lia |]. fold st in Hr.
  cbn in Hnq. pose proof (kmsg_add_refines st lg c ts level text (Z.of_nat (length text)) Hr) as Hadd.
  cbn zeta in Hadd. rewrite Hc in Hadd.
  destruct (Z.eqb_spec (Z.of_nat (length text)) 0); [lia |].
  destruct Hadd as (st' & Ha & Hr'); [lia | lia |].
  replace (take _ text) with text in Ha, Hr' by (rewrite take_ge by lia; done).
  unfold log_add in Ha, Hr'. rewrite (proj2 (Z.eqb_neq _ _) Hl) in Ha, Hr'. cbn [andb fst snd] in Ha, Hr'.
  exists st', (nseq lg). pose proof (kmsg_read_log _ _ (nseq lg) Hr' ltac:(lia)) as Hread.
  match type of Hr' with ring _ (KLog (_ ++ [?r]) _) =>
    rewrite (proj2 (log_read_Some _ _ (nseq lg) r Hr')) in Hread end.
  - destruct Hread as [off Hread]. eexists. split; [done |].
    split; [by rewrite (ring_next _ _ Hr) |]. split; [done |]. done.
  - split; [apply elem_of_app; right; by apply list_elem_of_singleton |].
    split; [| done]. cbn. unfold ends_line. by rewrite Hnl, bool_decide_true.
Qed.

(** ** Witnesses *)

Definition boot_cpu : kcpu := KCpu None 0 false.

Lemma kmsg_add_implements_log_witness :
  exists st', kmsg_add kmsg_boot boot_cpu 7 6 [104; 105; 10] 3 = (st', boot_cpu, 0) /\
    ring st' (KLog [Rec 0 7 0x80000000 6 true [104; 105; 10]] 1).
Proof.
  pose proof (kmsg_add_implements_log kmsg_boot (KLog [] 0) boot_cpu 7 6 [104; 105; 10] 3
    ring_boot ltac:(cbn; lia) ltac:(cbn; lia)) as H.
  exact H.
Defined.

Lemma kmsg_readers_implement_log_witness :
  kmsg_first_seq kmsg_boot = 0 /\ kmsg_read kmsg_boot 0 = None.
Proof.
  destruct (kmsg_readers_implement_log kmsg_boot (KLog [] 0) 0 ring_boot ltac:(lia))
    as (H1 & _ & _ & H2).
  split; [exact H1 | exact H2].
Defined.

Definition two_lines : list kop :=
  [OpAdd boot_cpu 1 6 [65; 10] 2; OpAdd boot_cpu 2 4 [66; 10] 2].

Lemma kmsg_records_immutable_witness :
  exists d1 d2, kmsg_read (run_ops kmsg_boot two_lines) 0 = Some (d1, [65; 10]) /\
    kmsg_read (run_ops kmsg_boot (two_lines ++ [OpFinalize])) 0 = Some (d2, [65; 10]) /\
    d_level d2 = d_level d1.
Proof.
  eexists _, _. split; [vm_compute; reflexivity |]. split; [vm_compute; reflexivity |].
  eapply (kmsg_records_immutable two_lines [OpFinalize] 0); try (vm_compute; reflexivity);
    try lia; try (vm_compute; lia); repeat constructor; cbn; lia.
Defined.

Lemma kmsg_add_read_roundtrip_witness :
  exists st' seq d, kmsg_add kmsg_boot boot_cpu 5 6 [79; 75; 10] 3 = (st', boot_cpu, seq) /\
    kmsg_read st' seq = Some (d, [79; 75; 10]).
Proof.
  destruct (kmsg_add_read_roundtrip [] boot_cpu 5 6 [79; 75; 10]) as (st' & seq & d & H & _ & Hr & _);
    [constructor | cbn; lia | reflexivity | discriminate | cbn; lia | reflexivity |].
  exists st', seq, d. split; [exact H | exact Hr].
Defined.
