(* ===== verification/Spinlock.v ===== *)
(** * Interrupt masking and spinlocks

    Models kern/spinlock.c. [push_off_at] and [pop_off_at] act on the fields of
    struct cpu they use and on the CPU's IRQ mask. The lock operations run
    concurrently on several CPUs, so they are split at their shared accesses: a
    CPU is at a program point [lpc] inside one of them, and a step of the machine
    runs one CPU up to its next access to shared memory. [atomic_swap] is a single
    access. The two reads of [holding_spinlock] count as one: its answer can be
    true only for a lock whose [cpu] field the caller itself wrote.

    The fields [h_held] and [h_nest] are not in the program: they record which
    locks a CPU's calls have returned holding and how many bare [push_off] calls
    are open, so that the theorems can speak of them. *)

From S2P Require Import Prelude.

(** ** State *)

Record spinlock := Lock { locked : Z; lk_name : string; lk_cpu : option Z }.

(** The fields of struct cpu used here and the IRQ mask ([irq]: enabled). *)
Record irqcpu := IrqCpu {
  irq : bool;
  noff : Z;
  intena : bool;
  off_file : string;
  off_line : Z
}.

Definition irq_get (c : irqcpu) : bool := irq c.
Definition irq_set (c : irqcpu) (b : bool) : irqcpu :=
  IrqCpu b (noff c) (intena c) (off_file c) (off_line c).
Definition irq_disable (c : irqcpu) : irqcpu := irq_set c false.
Definition irq_enable (c : irqcpu) : irqcpu := irq_set c true.

(** ** Interrupt nesting *)

Definition push_off_at (c : irqcpu) (file : string) (line : Z) : irqcpu :=
  let old := irq_get c in
  let c := irq_disable c in
  let c := if noff c =? 0 then IrqCpu (irq c) (noff c) old file line else c in
  IrqCpu (irq c) (noff c + 1) (intena c) (off_file c) (off_line c).

Definition pop_off_at (c : irqcpu) : res irqcpu :=
  kassert (negb (irq_get c)) msg "pop_off: interruptable" ;;
  kassert (noff c >=? 1) msg "pop_off: underflow" ;;
  let c := IrqCpu (irq c) (noff c - 1) (intena c) (off_file c) (off_line c) in
  Ret (if (noff c =? 0) && intena c then irq_enable c else c).

(** ** The lock operations, split at their shared accesses *)

Inductive lpc :=
| Run                 (* outside the lock operations *)
| Spin (l : Z)        (* acquire: about to swap *)
| TrySwap (l : Z)     (* try_acquire: about to swap *)
| Own (l : Z)         (* swap won, lk->cpu not yet written *)
| TryFail             (* try_acquire lost: pop_off and return 0 *)
| RelClr (l : Z)      (* release: lk->cpu cleared, stlr next *)
| RelSt.              (* release: lock free, pop_off next *)

Record hart := Hart { h_cpu : irqcpu; h_pc : lpc; h_held : list Z; h_nest : Z }.

Record machine := Machine { locks : Z -> spinlock; harts : Z -> hart; panicking : bool }.

Definition set_hart (m : machine) (c : Z) (h : hart) : machine :=
  Machine (locks m) ((harts m).[c <- h]) (panicking m).
Definition set_lock (m : machine) (l : Z) (k : spinlock) : machine :=
  Machine ((locks m).[l <- k]) (harts m) (panicking m).

Definition init_spinlock (name : string) : spinlock := Lock 0 name None.

Definition holding_spinlock (m : machine) (c l : Z) : bool :=
  negb (locked (locks m l) =? 0) && bool_decide (lk_cpu (locks m l) = Some c).

(** The value swapped out, and the machine with 1 swapped in. *)
Definition atomic_swap (m : machine) (l newval : Z) : Z * machine :=
  let k := locks m l in (locked k, set_lock m l (Lock newval (lk_name k) (lk_cpu k))).

(** push_off and the KASSERT, of acquire ([pc] is [Spin l]) and of try_acquire. *)
Definition acquire_enter (m : machine) (c l : Z) (pc : lpc) (file : string) (line : Z) : res machine :=
  let h := harts m c in
  let m := set_hart m c (Hart (push_off_at (h_cpu h) file line) pc (h_held h) (h_nest h)) in
  kassert (negb (holding_spinlock m c l) || panicking m) msg "acquire_spinlock: already held" ;;
  Ret m.

(** One turn of the [while] loop. A CPU that finds the lock taken in a panic
    returns without it. *)
Definition acquire_spin (m : machine) (c l : Z) : machine :=
  let h := harts m c in
  let '(old, m) := atomic_swap m l 1 in
  if negb (old =? 0) then
    if panicking m then set_hart m c (Hart (h_cpu h) Run (l :: h_held h) (h_nest h)) else m
  else set_hart m c (Hart (h_cpu h) (Own l) (h_held h) (h_nest h)).

Definition try_acquire_swap (m : machine) (c l : Z) : machine :=
  let h := harts m c in
  let '(old, m) := atomic_swap m l 1 in
  if negb (old =? 0) then
    if panicking m then set_hart m c (Hart (h_cpu h) Run (l :: h_held h) (h_nest h))
    else set_hart m c (Hart (h_cpu h) TryFail (h_held h) (h_nest h))
  else set_hart m c (Hart (h_cpu h) (Own l) (h_held h) (h_nest h)).

(** lk->cpu = &cpus[cpuid()]; and the call returns. *)
Definition acquire_record (m : machine) (c l : Z) : machine :=
  let h := harts m c in
  let k := locks m l in
  set_hart (set_lock m l (Lock (locked k) (lk_name k) (Some c))) c
    (Hart (h_cpu h) Run (l :: h_held h) (h_nest h)).

Definition release_enter (m : machine) (c l : Z) : res machine :=
  kassert (holding_spinlock m c l || panicking m) msg "release_spinlock: not held" ;;
  let h := harts m c in
  let k := locks m l in
  Ret (set_hart (set_lock m l (Lock (locked k) (lk_name k) None)) c
    (Hart (h_cpu h) (RelClr l) (filter (fun x => x <> l) (h_held h)) (h_nest h))).

Definition release_store (m : machine) (c l : Z) : machine :=
  let h := harts m c in
  let k := locks m l in
  set_hart (set_lock m l (Lock 0 (lk_name k) (lk_cpu k))) c
    (Hart (h_cpu h) RelSt (h_held h) (h_nest h)).

(** The trailing pop_off of a release or a failed try_acquire. *)
Definition pop_return (m : machine) (c : Z) : res machine :=
  let h := harts m c in
  i ← pop_off_at (h_cpu h); Ret (set_hart m c (Hart i Run (h_held h) (h_nest h))).

(** ** The machine *)

Inductive action :=
| AAcquire (l : Z) (file : string) (line : Z)
| ATry (l : Z) (file : string) (line : Z)
| ARelease (l : Z)
| APush (file : string) (line : Z)
| APop
| AIrq (b : bool)
| ACont                                  (* run on to the next access *)
| APanic.                                (* some CPU panics: locking is off *)

(** A CPU starts a call only outside the others, closes only push_offs of its
    own, and changes its IRQ mask by hand only outside any push_off. *)
Definition enabled (m : machine) (c : Z) (a : action) : bool :=
  let h := harts m c in
  let idle := match h_pc h with Run => true | _ => false end in
  match a with
  | AAcquire _ _ _ | ATry _ _ _ | ARelease _ | APush _ _ => idle
  | APop => idle && (0 <? h_nest h)
  | AIrq _ => idle && (noff (h_cpu h) =? 0)
  | ACont => negb idle
  | APanic => true
  end.

Definition exec (m : machine) (c : Z) (a : action) : res machine :=
  let h := harts m c in
  match a with
  | AAcquire l file line => acquire_enter m c l (Spin l) file line
  | ATry l file line => acquire_enter m c l (TrySwap l) file line
  | ARelease l => release_enter m c l
  | APush file line => Ret (set_hart m c (Hart (push_off_at (h_cpu h) file line) Run (h_held h) (h_nest h + 1)))
  | APop => i ← pop_off_at (h_cpu h); Ret (set_hart m c (Hart i Run (h_held h) (h_nest h - 1)))
  | AIrq b => Ret (set_hart m c (Hart (irq_set (h_cpu h) b) Run (h_held h) (h_nest h)))
  | APanic => Ret (Machine (locks m) (harts m) true)
  | ACont =>
      match h_pc h with
      | Run => Ret m
      | Spin l => Ret (acquire_spin m c l)
      | TrySwap l => Ret (try_acquire_swap m c l)
      | Own l => Ret (acquire_record m c l)
      | TryFail | RelSt => pop_return m c
      | RelClr l => Ret (release_store m c l)
      end
  end.

Definition lstep (m m' : machine) : Prop :=
  exists c a, enabled m c a = true /\ exec m c a = Ret m'.

Definition boot_machine : machine :=
  Machine (fun _ => init_spinlock "lock") (fun _ => Hart (IrqCpu false 0 false "" 0) Run [] 0) false.

(** ** Invariant *)

(** Locks a CPU has taken by a swap and not stored 0 to. *)
Definition region (h : hart) : list Z :=
  match h_pc h with
  | Own l | RelClr l => l :: h_held h
  | _ => h_held h
  end.

Definition in_flight (pc : lpc) : Z := match pc with Run => 0 | _ => 1 end.

Definition hart_ok (h : hart) : Prop :=
  noff (h_cpu h) = Z.of_nat (length (h_held h)) + h_nest h + in_flight (h_pc h) /\
  0 <= h_nest h /\ (0 < noff (h_cpu h) -> irq (h_cpu h) = false) /\ NoDup (region h).

(** [ow] says which CPU each lock belongs to. *)
Definition locks_ok (m : machine) (ow : Z -> option Z) : Prop :=
  (forall c, hart_ok (harts m c)) /\
  (forall c l, l ∈ region (harts m c) <-> ow l = Some c) /\
  (forall l, locked (locks m l) = match ow l with Some _ => 1 | None => 0 end) /\
  (forall l c, lk_cpu (locks m l) = Some c <-> l ∈ h_held (harts m c)).

(** ** Lemmas *)

Lemma push_off_at_spec c f n : 0 <= noff c ->
  irq (push_off_at c f n) = false /\ noff (push_off_at c f n) = noff c + 1 /\
  intena (push_off_at c f n) = (if noff c =? 0 then irq c else intena c).
Proof.
  intros H. unfold push_off_at, irq_disable, irq_set. cbn [noff irq intena].
  destruct (noff c =? 0); done.
Qed.

Lemma pop_off_at_spec c : 1 <= noff c -> irq c = false ->
  exists c', pop_off_at c = Ret c' /\ noff c' = noff c - 1 /\ intena c' = intena c /\
    irq c' = (noff c =? 1) && intena c.
Proof.
  intros Hn Hi. unfold pop_off_at, irq_get, KASSERT. rewrite Hi. cbn [negb mbind res_bind].
  destruct (Z.geb_spec (noff c) 1); [| lia]. cbn [mbind res_bind noff intena irq].
  replace (noff c - 1 =? 0) with (noff c =? 1)
    by (destruct (Z.eqb_spec (noff c) 1), (Z.eqb_spec (noff c - 1) 0); lia).
  eexists. split; [reflexivity |]. destruct (noff c =? 1), (intena c); cbn; auto.
Qed.

Lemma length_filter_ne (l : list Z) x : NoDup l -> x ∈ l ->
  length l = S (length (filter (fun y => y <> x) l)).
Proof.
  intros Hd Hx. assert (Hp : l ≡ₚ x :: filter (fun y => y <> x) l).
  { apply NoDup_Permutation; [done | |].
    - constructor; [rewrite list_elem_of_filter; tauto | by apply NoDup_filter].
    - intros y. rewrite elem_of_cons, list_elem_of_filter.
      destruct (decide (y = x)) as [-> |]; tauto. }
  rewrite Hp at 1. done.
Qed.

Lemma held_region h l : l ∈ h_held h -> l ∈ region h.
Proof. intros Hl. unfold region. destruct (h_pc h); auto; by right. Qed.

Lemma holding_iff m ow c l : locks_ok m ow ->
  holding_spinlock m c l = true <-> l ∈ h_held (harts m c).
Proof.
  intros (_ & Hr & Hl & Hc). unfold holding_spinlock.
  rewrite andb_true_iff, bool_decide_eq_true, Hc. split; [tauto |]. intros Hin. split; [| done].
  pose proof (held_region _ _ Hin) as Hr'. apply Hr in Hr'. rewrite Hl, Hr'. done.
Qed.

(** A step that changes one CPU and one lock keeps the invariant when the new
    CPU state is sound and the change of owner agrees with both. *)
Lemma locks_ok_update m ow c l h' k' o' :
  locks_ok m ow -> hart_ok h' ->
  (ow l = None \/ ow l = Some c \/ o' = ow l) -> (o' = None \/ o' = Some c \/ o' = ow l) ->
  (forall x, x <> l -> x ∈ region h' <-> x ∈ region (harts m c)) ->
  (forall x, x <> l -> x ∈ h_held h' <-> x ∈ h_held (harts m c)) ->
  (l ∈ region h' <-> o' = Some c) ->
  locked k' = match o' with Some _ => 1 | None => 0 end ->
  (lk_cpu k' = Some c <-> l ∈ h_held h') ->
  (forall c', c' <> c -> lk_cpu k' = Some c' <-> l ∈ h_held (harts m c')) ->
  locks_ok (set_hart (set_lock m l k') c h') (ow.[l <- o']).
Proof.
  intros (Hh & Hr & Hl & Hc) Hh' Ho Ho' Hreg Hheld Hlr Hlk Hcpu Hoth.
  split; [| split; [| split]]; cbn [harts locks set_hart set_lock].
  - intros c'. destruct (decide (c' = c)) as [-> |]; [by rewrite upd_eq | by rewrite upd_ne].
  - intros c' x. destruct (decide (x = l)) as [-> | Hx]; rewrite ?(upd_eq ow), ?(upd_ne ow) by done;
      (destruct (decide (c' = c)) as [-> | Hc']; [rewrite upd_eq | rewrite upd_ne by done]); try done.
    + rewrite Hr. intuition congruence.
    + by rewrite Hreg.
  - intros x. destruct (decide (x = l)) as [-> |]; [by rewrite !upd_eq | by rewrite !upd_ne].
  - intros x c'. destruct (decide (x = l)) as [-> | Hx]; rewrite ?(upd_eq (locks m)), ?(upd_ne (locks m)) by done;
      (destruct (decide (c' = c)) as [-> | Hc']; [rewrite upd_eq | rewrite upd_ne by done]); auto.
    rewrite Hc. by rewrite Hheld.
Qed.

(** A step that changes only the interrupt state and program point. *)
Lemma locks_ok_hart m ow c h' : locks_ok m ow -> hart_ok h' ->
  region h' = region (harts m c) -> h_held h' = h_held (harts m c) ->
  locks_ok (set_hart m c h') ow.
Proof.
  intros (Hh & Hr & Hl & Hc) Hh' Hreg Hheld. split; [| split; [| split]]; cbn [harts locks set_hart].
  - intros c'. destruct (decide (c' = c)) as [-> |]; [by rewrite upd_eq | by rewrite upd_ne].
  - intros c' x. destruct (decide (c' = c)) as [-> |]; [rewrite upd_eq, Hreg | rewrite upd_ne by done]; auto.
  - done.
  - intros x c'. destruct (decide (c' = c)) as [-> |]; [rewrite upd_eq, Hheld | rewrite upd_ne by done]; auto.
Qed.

(** hart_ok of the state a step leaves the CPU in. *)
Lemma hart_ok_push h file line pc nest :
  hart_ok h -> h_pc h = Run -> region (Hart (h_cpu h) pc (h_held h) nest) = h_held h ->
  0 <= nest -> nest + in_flight pc = h_nest h + 1 ->
  hart_ok (Hart (push_off_at (h_cpu h) file line) pc (h_held h) nest).
Proof.
  intros (Hn & Hz & _ & Hd) Hpc Hreg Hnest Hsum. unfold region in *. rewrite Hpc in *. cbn [in_flight] in Hn.
  destruct (push_off_at_spec (h_cpu h) file line) as (Hi & Hn' & _); [lia |].
  split; [cbn [h_cpu h_held h_nest h_pc]; lia |]. split; [done |]. split; [done |].
  unfold region in *. cbn [h_pc h_held] in *. rewrite Hreg. done.
Qed.

Lemma hart_ok_pop h nest :
  hart_ok h -> region h = h_held h -> 0 <= nest -> nest + 1 = h_nest h + in_flight (h_pc h) ->
  exists i, pop_off_at (h_cpu h) = Ret i /\ hart_ok (Hart i Run (h_held h) nest).
Proof.
  intros (Hn & Hz & Hi & Hd) Hreg Hnest Hsum.
  destruct (pop_off_at_spec (h_cpu h)) as (i & Hp & Hn' & _ & Hirq); [lia | apply Hi; lia |].
  exists i. split; [done |]. split; [cbn [h_cpu h_held h_nest h_pc in_flight]; lia |].
  split; [done |]. split; [| by rewrite <- Hreg].
  cbn [h_cpu]. intros Hpos. rewrite Hirq. destruct (Z.eqb_spec (noff (h_cpu h)) 1); [lia | done].
Qed.

Lemma lock_none_fresh m ow l : locks_ok m ow -> locked (locks m l) = 0 -> ow l = None.
Proof. intros (_ & _ & Hl & _) H. rewrite Hl in H. by destruct (ow l). Qed.

(** Both swaps won: the lock was nobody's and is now this CPU's. *)
Lemma swap_won_ok m ow c l :
  locks_ok m ow -> h_pc (harts m c) = Spin l \/ h_pc (harts m c) = TrySwap l ->
  locked (locks m l) = 0 ->
  let h := harts m c in
  locks_ok (set_hart (set_lock m l (Lock 1 (lk_name (locks m l)) (lk_cpu (locks m l)))) c
    (Hart (h_cpu h) (Own l) (h_held h) (h_nest h))) (ow.[l <- Some c]).
Proof.
  intros Hok Hpc Hz. cbn zeta. pose proof (lock_none_fresh m ow l Hok Hz) as Hn.
  pose proof Hok as (Hh & Hr & _ & Hc). destruct (Hh c) as (Hnoff & Hnest & Hirq & Hd).
  assert (Hreg : region (harts m c) = h_held (harts m c)) by (unfold region; destruct Hpc as [-> | ->]; done).
  assert (Hl : l ∉ h_held (harts m c)) by (rewrite <- Hreg, Hr; congruence).
  apply locks_ok_update; try done; try tauto.
  - split; [| split; [| split]]; cbn; try done.
    + destruct Hpc as [E | E]; rewrite E in Hnoff; cbn in Hnoff; lia.
    + constructor; [done |]. by rewrite <- Hreg.
  - intros x Hx. cbn. rewrite Hreg, elem_of_cons. tauto.
  - cbn. rewrite elem_of_cons. tauto.
  - cbn. apply Hc.
  - intros c' Hne. cbn. apply Hc.
Qed.

(** Both swaps lost outside a panic: the store of 1 changed nothing. *)
Lemma swap_lost_ok m ow c l h' :
  locks_ok m ow -> locked (locks m l) <> 0 -> hart_ok h' ->
  region h' = region (harts m c) -> h_held h' = h_held (harts m c) ->
  locks_ok (set_hart (set_lock m l (Lock 1 (lk_name (locks m l)) (lk_cpu (locks m l)))) c h')
    (ow.[l <- ow l]).
Proof.
  intros Hok Hnz Hh' Hreg Hheld. pose proof Hok as (_ & Hr & Hl & Hc).
  apply locks_ok_update; try done; try tauto; rewrite ?Hreg, ?Hheld; try done; try (intros; apply Hc).
  rewrite Hl in Hnz. by destruct (ow l).
Qed.

Lemma acquire_record_ok m ow c l : locks_ok m ow -> h_pc (harts m c) = Own l ->
  locks_ok (acquire_record m c l) (ow.[l <- Some c]).
Proof.
  intros Hok Hpc. pose proof Hok as (Hh & Hr & Hl & Hc). destruct (Hh c) as (Hnoff & Hnest & Hirq & Hd).
  assert (Hreg : region (harts m c) = l :: h_held (harts m c)) by (unfold region; by rewrite Hpc).
  assert (Ho : ow l = Some c) by (apply Hr; rewrite Hreg; left).
  apply locks_ok_update; try done; try tauto; cbn [h_held lk_cpu locked].
  - rewrite Hpc in Hnoff. cbn in Hnoff. split; [cbn; lia |]. split; [done |]. split; [done |].
    by rewrite <- Hreg.
  - intros x Hx. by rewrite Hreg.
  - intros x Hx. rewrite elem_of_cons. tauto.
  - cbn. rewrite elem_of_cons. tauto.
  - by rewrite Hl, Ho.
  - rewrite elem_of_cons. tauto.
  - intros c' Hne. split; [congruence |]. intros Hin. exfalso. apply Hne.
    apply held_region, Hr in Hin. congruence.
Qed.

Lemma release_enter_ok m ow c l m' : locks_ok m ow -> h_pc (harts m c) = Run -> panicking m = false ->
  release_enter m c l = Ret m' -> locks_ok m' (ow.[l <- Some c]).
Proof.
  intros Hok Hpc Hpan. unfold release_enter, KASSERT. rewrite Hpan, orb_false_r.
  destruct (holding_spinlock m c l) eqn:Hhold; [| done]. cbn [mbind res_bind]. intros [= <-].
  apply (holding_iff m ow c l Hok) in Hhold.
  pose proof Hok as (Hh & Hr & Hl & Hc). destruct (Hh c) as (Hnoff & Hnest & Hirq & Hd).
  assert (Hreg : region (harts m c) = h_held (harts m c)) by (unfold region; by rewrite Hpc).
  assert (Ho : ow l = Some c) by (apply Hr; by rewrite Hreg). rewrite Hreg in Hd.
  pose proof (length_filter_ne _ l Hd Hhold) as Hlen.
  apply locks_ok_update; try done; try tauto; cbn [h_held lk_cpu locked].
  - rewrite Hpc in Hnoff. cbn in Hnoff. split; [cbn; lia |]. split; [done |]. split; [done |].
    cbn. constructor; [rewrite list_elem_of_filter; tauto | by apply NoDup_filter].
  - intros x Hx. cbn. rewrite Hreg, elem_of_cons, list_elem_of_filter. tauto.
  - intros x Hx. rewrite list_elem_of_filter. tauto.
  - cbn. rewrite elem_of_cons. tauto.
  - by rewrite Hl, Ho.
  - rewrite list_elem_of_filter. split; [done | tauto].
  - intros c' Hne. split; [done |]. intros Hin. exfalso. apply Hne.
    apply Hc in Hin. apply Hc in Hhold. congruence.
Qed.

Lemma release_store_ok m ow c l : locks_ok m ow -> h_pc (harts m c) = RelClr l ->
  locks_ok (release_store m c l) (ow.[l <- None]).
Proof.
  intros Hok Hpc. pose proof Hok as (Hh & Hr & Hl & Hc). destruct (Hh c) as (Hnoff & Hnest & Hirq & Hd).
  assert (Hreg : region (harts m c) = l :: h_held (harts m c)) by (unfold region; by rewrite Hpc).
  assert (Ho : ow l = Some c) by (apply Hr; rewrite Hreg; left). rewrite Hreg in Hd.
  apply NoDup_cons in Hd as [Hno Hd].
  apply locks_ok_update; try done; try tauto; cbn [h_held lk_cpu locked].
  - rewrite Hpc in Hnoff. cbn in Hnoff. split; [cbn; lia |]. done.
  - intros x Hx. cbn. rewrite Hreg, elem_of_cons. tauto.
  - by rewrite Hc.
  - intros c' Hne. by rewrite Hc.
Qed.

(** ** Every step keeps the invariant, and which steps panic *)

Definition inv (m : machine) : Prop := panicking m = true \/ exists ow, locks_ok m ow.

Lemma region_idle h : h_pc h = Run -> region h = h_held h.
Proof. intros E. unfold region. by rewrite E. Qed.

Lemma acquire_enter_step m ow c l pc file line :
  locks_ok m ow -> panicking m = false -> h_pc (harts m c) = Run ->
  in_flight pc = 1 -> (forall i held n, region (Hart i pc held n) = held) ->
  match acquire_enter m c l pc file line with
  | Ret m' => locks_ok m' ow /\ panicking m' = false /\ l ∉ h_held (harts m c)
  | Panic _ => l ∈ h_held (harts m c)
  end.
Proof.
  intros Hok Hpan Hpc Hfl Hpcr. unfold acquire_enter, KASSERT. cbn zeta.
  set (m1 := set_hart m c _). pose proof Hok as (Hh & _).
  assert (Hok1 : locks_ok m1 ow).
  { apply locks_ok_hart; [done | | | done].
    - apply hart_ok_push; try done; [by destruct (Hh c) as (_ & ? & _) | lia].
    - by rewrite Hpcr, region_idle. }
  change (panicking m1) with (panicking m). rewrite Hpan, orb_false_r.
  pose proof (holding_iff m1 ow c l Hok1) as Hiff. cbn [m1 set_hart harts] in Hiff.
  rewrite upd_eq in Hiff. cbn [h_held] in Hiff.
  destruct (holding_spinlock m1 c l); cbn [negb mbind res_bind]; [by apply Hiff |].
  split; [done |]. split; [done |]. rewrite <- Hiff. done.
Qed.

Lemma pop_return_ok m ow c :
  locks_ok m ow -> h_pc (harts m c) = TryFail \/ h_pc (harts m c) = RelSt ->
  exists m', pop_return m c = Ret m' /\ locks_ok m' ow /\ panicking m' = panicking m.
Proof.
  intros Hok Hpc. pose proof Hok as (Hh & _).
  assert (Hreg : region (harts m c) = h_held (harts m c)) by (unfold region; destruct Hpc as [-> | ->]; done).
  destruct (hart_ok_pop (harts m c) (h_nest (harts m c))) as (i & Hp & Hi); [apply Hh | done | | |].
  - by destruct (Hh c) as (_ & ? & _).
  - destruct Hpc as [-> | ->]; cbn; lia.
  - unfold pop_return. rewrite Hp. cbn. eexists. split; [reflexivity |]. split; [| done].
    by apply locks_ok_hart.
Qed.

(** The discipline whose breach the KASSERTs report. *)
Definition breach (m : machine) (c : Z) (a : action) : Prop :=
  match a with
  | AAcquire l _ _ | ATry l _ _ => l ∈ h_held (harts m c)
  | ARelease l => l ∉ h_held (harts m c)
  | _ => False
  end.

(** The swap steps, from a machine that is not panicking. *)
Lemma swap_step m ow c l m' :
  locks_ok m ow -> panicking m = false ->
  (h_pc (harts m c) = Spin l /\ m' = acquire_spin m c l) \/
  (h_pc (harts m c) = TrySwap l /\ m' = try_acquire_swap m c l) ->
  inv m' /\ panicking m' = false.
Proof.
  intros Hok Hpan Hcase. pose proof Hok as (Hh & _). specialize (Hh c).
  unfold acquire_spin, try_acquire_swap, atomic_swap in Hcase. cbn zeta in Hcase.
  change (panicking (set_lock m _ _)) with (panicking m) in Hcase. rewrite Hpan in Hcase.
  destruct (Z.eqb_spec (locked (locks m l)) 0) as [Hz | Hnz]; cbn [negb] in Hcase.
  - assert (H : h_pc (harts m c) = Spin l \/ h_pc (harts m c) = TrySwap l) by tauto.
    pose proof (swap_won_ok m ow c l Hok H Hz) as Hok'. cbn zeta in Hok'.
    destruct Hcase as [[_ ->] | [_ ->]]; (split; [right; by eexists | done]).
  - destruct Hcase as [[Hpc ->] | [Hpc ->]]; (split; [right; exists (ow.[l <- ow l]) | done]).
    + pose proof (swap_lost_ok m ow c l (harts m c) Hok Hnz Hh eq_refl eq_refl) as (H1 & H2 & H3 & H4).
      cbn [set_hart harts locks set_lock] in *.
      assert (Hext : forall c', (harts m).[c <- harts m c] c' = harts m c').
      { intros c'. destruct (decide (c' = c)) as [-> |]; [by rewrite upd_eq | by rewrite upd_ne]. }
      split; [| split; [| split]]; cbn [set_lock harts locks]; intros x.
      * rewrite <- Hext. apply H1.
      * intros y. rewrite <- Hext. apply H2.
      * apply H3.
      * intros y. rewrite <- Hext. apply H4.
    + apply swap_lost_ok; try done.
      * destruct Hh as (Hn & ? & ? & Hd). rewrite Hpc in Hn. split; [done |]. split; [done |].
        split; [done |]. unfold region in Hd. by rewrite Hpc in Hd.
      * unfold region. by rewrite Hpc.
Qed.

Lemma release_enter_step m ow c l :
  locks_ok m ow -> panicking m = false -> h_pc (harts m c) = Run ->
  match release_enter m c l with
  | Ret m' => locks_ok m' (ow.[l <- Some c]) /\ panicking m' = false /\ l ∈ h_held (harts m c)
  | Panic _ => l ∉ h_held (harts m c)
  end.
Proof.
  intros Hok Hpan Hpc. pose proof (release_enter_ok m ow c l) as Hrel.
  pose proof (holding_iff m ow c l Hok) as Hiff. unfold release_enter, KASSERT in *.
  rewrite Hpan, orb_false_r in *. destruct (holding_spinlock m c l); cbn [mbind res_bind] in *.
  - split; [by apply Hrel |]. split; [done | by apply Hiff].
  - rewrite <- Hiff. done.
Qed.

Lemma exec_cont_step m ow c :
  locks_ok m ow -> panicking m = false -> h_pc (harts m c) <> Run ->
  exists m', exec m c ACont = Ret m' /\ inv m' /\ panicking m' = false.
Proof.
  intros Hok Hpan Hpc. unfold exec. destruct (h_pc (harts m c)) as [| l | l | l | | l |] eqn:E; [done | ..].
  - eexists. split; [reflexivity |]. apply (swap_step m ow c l); auto.
  - eexists. split; [reflexivity |]. apply (swap_step m ow c l); auto.
  - eexists. split; [reflexivity |]. split; [| done]. right. eexists. by apply acquire_record_ok.
  - destruct (pop_return_ok m ow c Hok) as (m' & ? & ? & ?); [auto |].
    exists m'. split; [done |]. split; [right; by exists ow | congruence].
  - eexists. split; [reflexivity |]. split; [| done]. right. eexists. by apply release_store_ok.
  - destruct (pop_return_ok m ow c Hok) as (m' & ? & ? & ?); [auto |].
    exists m'. split; [done |]. split; [right; by exists ow | congruence].
Qed.

Lemma exec_spec m ow c a :
  locks_ok m ow -> panicking m = false -> enabled m c a = true ->
  match exec m c a with
  | Ret m' => inv m' /\ (panicking m' = false \/ a = APanic) /\ ~ breach m c a
  | Panic _ => breach m c a
  end.
Proof.
  intros Hok Hpan Hen. pose proof Hok as (Hh & _). specialize (Hh c). unfold enabled in Hen.
  assert (Hnest : 0 <= h_nest (harts m c)) by apply Hh.
  assert (Hacq : forall l pc f n, h_pc (harts m c) = Run -> pc = Spin l \/ pc = TrySwap l ->
    match acquire_enter m c l pc f n with
    | Ret m' => inv m' /\ (panicking m' = false \/ a = APanic) /\ l ∉ h_held (harts m c)
    | Panic _ => l ∈ h_held (harts m c)
    end).
  { intros l pc f n Hpc Hor. pose proof (acquire_enter_step m ow c l pc f n Hok Hpan Hpc) as H.
    destruct (acquire_enter m c l pc f n); [| apply H; by destruct Hor as [-> | ->]].
    destruct H as (? & ? & ?); [by destruct Hor as [-> | ->].. |]. split; [right; eauto | auto]. }
  destruct a as [l f n | l f n | l | f n | | b | |]; cbn zeta in Hen;
    try (destruct (h_pc (harts m c)) eqn:Hpc; try done; []).
  - apply (Hacq l (Spin l)); auto.
  - apply (Hacq l (TrySwap l)); auto.
  - pose proof (release_enter_step m ow c l Hok Hpan Hpc) as H. cbn [exec].
    destruct (release_enter m c l); [| done]. destruct H as (? & ? & ?). cbn.
    split; [right; eauto |]. split; [auto | tauto].
  - split; [right; exists ow |]; [| auto]. apply locks_ok_hart; [done | | by rewrite (region_idle (harts m c)) | done].
    apply hart_ok_push; try done; cbn; lia.
  - apply andb_true_iff in Hen as [_ Hen%Z.ltb_lt]. cbn [exec].
    destruct (hart_ok_pop (harts m c) (h_nest (harts m c) - 1)) as (i & -> & Hi);
      [done | by rewrite region_idle | lia | rewrite Hpc; cbn; lia |].
    split; [right; exists ow |]; [| auto]. apply locks_ok_hart; try done. by rewrite (region_idle (harts m c)).
  - apply andb_true_iff in Hen as [_ Hen%Z.eqb_eq]. split; [right; exists ow |]; [| auto].
    destruct Hh as (Hn & ? & Hi & Hd). rewrite Hpc in Hn.
    apply locks_ok_hart; [done | | by rewrite (region_idle (harts m c)) | done].
    split; [done |]. split; [done |]. split; [cbn [h_cpu irq_set noff]; lia |].
    by rewrite region_idle in Hd.
  - destruct (exec_cont_step m ow c Hok Hpan) as (m' & -> & ? & ?); [by intros E; rewrite E in Hen |]. auto.
  - cbn. split; [by left |]. auto.
Qed.

Lemma lstep_panicking m m' : lstep m m' -> panicking m = true -> panicking m' = true.
Proof.
  intros (c & a & _ & He) Hp. unfold exec, acquire_enter, release_enter, pop_return, KASSERT,
    acquire_spin, try_acquire_swap, atomic_swap in He. cbn zeta in He.
  repeat first [discriminate | progress simplify_eq/= | done | case_match
    | destruct (pop_off_at (h_cpu (harts m c)))].
Qed.

Lemma boot_inv : inv boot_machine.
Proof.
  right. exists (fun _ => None). split; [| split; [| split]]; cbn; intros.
  - split; [done |]. split; [done |]. split; [cbn; lia | constructor].
  - rewrite elem_of_nil. done.
  - done.
  - rewrite elem_of_nil. done.
Qed.

Lemma reachable_inv m : rtc lstep boot_machine m -> inv m.
Proof.
  revert m. apply rtc_ind_r; [exact boot_inv |].
  intros m1 m2 _ Hs [Hp | [ow Hok]]; [left; by eapply lstep_panicking |].
  destruct (panicking m1) eqn:Hp; [left; by eapply lstep_panicking |].
  destruct Hs as (c & a & Hen & He). pose proof (exec_spec m1 ow c a Hok Hp Hen) as H'.
  rewrite He in H'. apply H'.
Qed.

Lemma harts_set_hart m c h : harts (set_hart m c h) c = h.
Proof. apply upd_eq. Qed.

Lemma locks_set_lock m l k : locks (set_lock m l k) l = k.
Proof. apply upd_eq. Qed.

Lemma locks_set_hart m c h : locks (set_hart m c h) = locks m.
Proof. done. Qed.

Lemma harts_set_lock m l k : harts (set_lock m l k) = harts m.
Proof. done. Qed.

(** Evaluate one CPU's accesses. *)
Ltac run_hart :=
  repeat (rewrite ?harts_set_hart, ?locks_set_hart, ?harts_set_lock, ?locks_set_lock;
          cbn [h_cpu h_pc h_held h_nest locked lk_name lk_cpu mbind res_bind Z.eqb negb andb orb]).

(** A run of one CPU, with no other in between. *)
Fixpoint exec_all (m : machine) (c : Z) (l : list action) : res machine :=
  match l with
  | [] => Ret m
  | a :: l' => m' ← exec m c a; exec_all m' c l'
  end.

Lemma acquire_run m c l file line : locked (locks m l) = 0 ->
  exists m1, exec_all m c [AAcquire l file line; ACont; ACont] = Ret m1 /\
    harts m1 c = Hart (push_off_at (h_cpu (harts m c)) file line) Run
      (l :: h_held (harts m c)) (h_nest (harts m c)) /\
    locks m1 l = Lock 1 (lk_name (locks m l)) (Some c).
Proof.
  intros Hl. eexists. split.
  - cbn [exec_all exec]. unfold acquire_enter, holding_spinlock, KASSERT. run_hart. rewrite Hl. run_hart.
    unfold acquire_spin, atomic_swap. run_hart. rewrite Hl. run_hart.
    unfold acquire_record. run_hart. reflexivity.
  - run_hart. done.
Qed.

Lemma release_run m c l i :
  locked (locks m l) = 1 -> lk_cpu (locks m l) = Some c -> pop_off_at (h_cpu (harts m c)) = Ret i ->
  exists m2, exec_all m c [ARelease l; ACont; ACont] = Ret m2 /\
    harts m2 c = Hart i Run (filter (fun x => x <> l) (h_held (harts m c))) (h_nest (harts m c)) /\
    locks m2 l = Lock 0 (lk_name (locks m l)) None.
Proof.
  intros Hl Hc Hpop. eexists. split.
  - cbn [exec_all exec]. unfold release_enter, holding_spinlock, KASSERT. rewrite Hl, Hc.
    rewrite bool_decide_true by done. run_hart. unfold release_store, pop_return. run_hart.
    rewrite Hpop. reflexivity.
  - run_hart. done.
Qed.

(** Well-bracketed interrupt nesting on one CPU. *)
Inductive bracket :=
| BNil
| BWrap (file : string) (line : Z) (b : bracket)
| BApp (b1 b2 : bracket).

Fixpoint run_bracket (b : bracket) (c : irqcpu) : res irqcpu :=
  match b with
  | BNil => Ret c
  | BWrap f n b => c' ← run_bracket b (push_off_at c f n); pop_off_at c'
  | BApp b1 b2 => c' ← run_bracket b1 c; run_bracket b2 c'
  end.

(** ** Theorems *)

(** C7: over any interleaving of CPUs from boot in which nobody panicked, a lock is
    held by at most one CPU and by it at most once; a holder has its interrupts
    masked and is the CPU the lock records; a lock reads as free exactly when no
    CPU is between winning its swap and storing 0. *)
Theorem spinlock_mutual_exclusion m :
  rtc lstep boot_machine m -> panicking m = false ->
  (forall c l, l ∈ h_held (harts m c) ->
     irq (h_cpu (harts m c)) = false /\ locked (locks m l) = 1 /\ lk_cpu (locks m l) = Some c /\
     NoDup (h_held (harts m c)) /\ forall c', c' <> c -> l ∉ region (harts m c')) /\
  (forall l, locked (locks m l) = 0 <-> forall c, l ∉ region (harts m c)).
Proof.
  intros Hr Hp. destruct (reachable_inv m Hr) as [? | [ow Hok]]; [congruence |].
  pose proof Hok as (Hh & Hreg & Hl & Hc). split.
  - intros c l Hin. pose proof (held_region _ _ Hin) as Hin'. apply Hreg in Hin'.
    destruct (Hh c) as (Hn & Hz & Hi & Hd). split.
    { apply Hi. destruct (h_held (harts m c)) eqn:E; [inversion Hin |]. cbn [length] in Hn.
      destruct (h_pc (harts m c)); cbn in Hn; lia. }
    rewrite Hl, Hin'. split; [done |]. split; [by apply Hc |]. split.
    + unfold region in Hd. destruct (h_pc (harts m c)); try done; by apply NoDup_cons in Hd as [_ ?].
    + intros c' Hne H. apply Hreg in H. congruence.
  - intros l. rewrite Hl. destruct (ow l) as [c |] eqn:E.
    + split; [done |]. intros H. exfalso. apply (H c). by apply Hreg.
    + split; [| done]. intros _ c H. apply Hreg in H. congruence.
Qed.

(** the KASSERTs of the lock operations fire exactly on a breach of the
    discipline: acquiring a lock the CPU holds, or releasing one it does not; in
    particular the checks inside [pop_off_at] never fire. *)
Theorem spinlock_kasserts_exact m c a :
  rtc lstep boot_machine m -> panicking m = false -> enabled m c a = true ->
  (exists s, exec m c a = Panic s) <-> breach m c a.
Proof.
  intros Hr Hp Hen. destruct (reachable_inv m Hr) as [? | [ow Hok]]; [congruence |].
  pose proof (exec_spec m ow c a Hok Hp Hen) as H. destruct (exec m c a) as [m' | s].
  - destruct H as (_ & _ & Hb). split; [intros [s ?]; done | tauto].
  - split; [done | by exists s].
Qed.

(** well-bracketed push_off/pop_off nesting never panics and leaves the CPU's
    interrupt mask and depth as they were, interrupts staying masked inside; an
    enclosing bracket's saved state survives. *)
Theorem push_pop_off_restores b c :
  0 <= noff c -> (0 < noff c -> irq c = false) ->
  exists c', run_bracket b c = Ret c' /\ irq c' = irq c /\ noff c' = noff c /\
    (0 < noff c -> intena c' = intena c).
Proof.
  revert c. induction b as [| f n b IH | b1 IH1 b2 IH2]; intros c Hn Hi; cbn [run_bracket].
  - by exists c.
  - destruct (push_off_at_spec c f n Hn) as (Hi1 & Hn1 & He1).
    destruct (IH (push_off_at c f n)) as (c1 & -> & Hi2 & Hn2 & He2); [lia | done |].
    destruct (pop_off_at_spec c1) as (c2 & Hp & Hn3 & He3 & Hi3); [lia | congruence |].
    exists c2. split; [done |]. rewrite Hn2, Hn1 in *. specialize (He2 ltac:(lia)).
    split; [| split; [lia |]].
    + rewrite Hi3, He2, He1. destruct (Z.eqb_spec (noff c) 0), (Z.eqb_spec (noff c + 1) 1); try lia; [done |].
      cbn. symmetry. apply Hi. lia.
    + intros Hpos. rewrite He3, He2, He1. destruct (Z.eqb_spec (noff c) 0); [lia | done].
  - destruct (IH1 c Hn Hi) as (c1 & -> & Hi1 & Hn1 & He1).
    destruct (IH2 c1) as (c2 & Hr & Hi2 & Hn2 & He2); [lia | rewrite Hn1, Hi1; done |].
    exists c2. split; [done |]. rewrite Hn1 in *. split; [congruence |]. split; [congruence |].
    intros Hpos. rewrite He2, He1; done.
Qed.

(** acquiring a free lock and releasing it, undisturbed, completes, holds the
    lock in between and gives back the lock and the CPU's interrupt state. *)
Theorem spinlock_acquire_release m c l file line :
  rtc lstep boot_machine m -> panicking m = false -> h_pc (harts m c) = Run ->
  locked (locks m l) = 0 ->
  exists m1 m2, exec_all m c [AAcquire l file line; ACont; ACont] = Ret m1 /\
    l ∈ h_held (harts m1 c) /\ irq (h_cpu (harts m1 c)) = false /\
    exec_all m1 c [ARelease l; ACont; ACont] = Ret m2 /\
    locked (locks m2 l) = 0 /\ h_pc (harts m2 c) = Run /\
    irq (h_cpu (harts m2 c)) = irq (h_cpu (harts m c)) /\
    noff (h_cpu (harts m2 c)) = noff (h_cpu (harts m c)).
Proof.
  intros Hr Hp Hpc Hl. destruct (reachable_inv m Hr) as [? | [ow Hok]]; [congruence |].
  destruct Hok as (Hh & _). destruct (Hh c) as (Hn & Hz & Hi & _). rewrite Hpc in Hn. cbn in Hn.
  destruct (push_off_at_spec (h_cpu (harts m c)) file line) as (Hi1 & Hn1 & He1); [lia |].
  destruct (pop_off_at_spec (push_off_at (h_cpu (harts m c)) file line)) as (i & Hpop & Hn2 & _ & Hi2);
    [lia | done |].
  destruct (acquire_run m c l file line Hl) as (m1 & H1 & Hh1 & Hl1).
  destruct (release_run m1 c l i) as (m2 & H2 & Hh2 & Hl2); [by rewrite Hl1 | by rewrite Hl1 | by rewrite Hh1 |].
  exists m1, m2. rewrite Hh1, Hh2, Hl2. cbn [h_held h_cpu h_pc locked].
  split; [done |]. split; [left |]. split; [done |]. split; [done |].
  split; [done |]. split; [done |]. split; [| lia]. rewrite Hi2, Hn1, He1.
  destruct (Z.eqb_spec (noff (h_cpu (harts m c))) 0), (Z.eqb_spec (noff (h_cpu (harts m c)) + 1) 1);
    try lia; [done |]. cbn. symmetry. apply Hi. lia.
Qed.

(** ** Witnesses *)

(** A schedule: which CPU does what next. None when it is not a run. *)
Fixpoint run_schedule (m : machine) (l : list (Z * action)) : option machine :=
  match l with
  | [] => Some m
  | (c, a) :: l' =>
      if enabled m c a
      then match exec m c a with Ret m' => run_schedule m' l' | Panic _ => None end
      else None
  end.

Lemma run_schedule_steps m l m' : run_schedule m l = Some m' -> rtc lstep m m'.
Proof.
  revert m. induction l as [| [c a] l IH]; intros m; cbn [run_schedule]; [intros [= ->]; done |].
  destruct (enabled m c a) eqn:E; [| done]. destruct (exec m c a) as [m1 |] eqn:E1; [| done].
  intros H. apply (rtc_l _ _ m1); [by exists c, a | auto].
Qed.

(** CPU 0 takes lock 7 while CPU 1 spins on it. *)
Definition contended : machine :=
  default boot_machine (run_schedule boot_machine
    [(0, AAcquire 7 "a.c" 1); (1, AAcquire 7 "b.c" 2); (0, ACont); (1, ACont); (0, ACont); (1, ACont)]).

Lemma contended_reachable : rtc lstep boot_machine contended.
Proof.
  unfold contended. destruct (run_schedule _ _) eqn:E; [| done]. by eapply run_schedule_steps.
Qed.

Lemma spinlock_mutual_exclusion_witness :
  7 ∈ h_held (harts contended 0) /\ 7 ∉ region (harts contended 1).
Proof.
  destruct (spinlock_mutual_exclusion contended contended_reachable eq_refl) as [H _].
  assert (Hin : 7 ∈ h_held (harts contended 0)) by left.
  split; [exact Hin |]. apply (H 0 7 Hin). discriminate.
Defined.

Lemma spinlock_kasserts_exact_witness :
  (exists s, exec contended 0 (AAcquire 7 "c.c" 3) = Panic s) /\
  is_Ret (exec contended 0 (ARelease 7)).
Proof.
  split.
  - apply (spinlock_kasserts_exact contended 0 (AAcquire 7 "c.c" 3) contended_reachable eq_refl eq_refl).
    left.
  - eexists. reflexivity.
Defined.

Lemma push_pop_off_restores_witness :
  exists c', run_bracket (BWrap "a.c" 1 (BApp (BWrap "b.c" 2 BNil) BNil)) (IrqCpu true 0 false "" 0) = Ret c' /\
    irq c' = true.
Proof.
  destruct (push_pop_off_restores (BWrap "a.c" 1 (BApp (BWrap "b.c" 2 BNil) BNil))
    (IrqCpu true 0 false "" 0)) as (c' & H & Hi & _); [cbn; lia | cbn; lia |].
  exists c'. split; [exact H | exact Hi].
Defined.

Lemma spinlock_acquire_release_witness :
  exists m1 m2, exec_all contended 0 [AAcquire 8 "d.c" 4; ACont; ACont] = Ret m1 /\
    exec_all m1 0 [ARelease 8; ACont; ACont] = Ret m2 /\ irq (h_cpu (harts m2 0)) = false.
Proof.
  destruct (spinlock_acquire_release contended 0 8 "d.c" 4 contended_reachable eq_refl eq_refl eq_refl)
    as (m1 & m2 & H1 & _ & _ & H2 & _ & _ & Hi & _).
  exists m1, m2. split; [exact H1 |]. split; [exact H2 |]. rewrite Hi. reflexivity.
Defined.
