(* ===== verification/Asid.v ===== *)
(** * The rolling-generation ASID allocator

    Models arch/asid.c. The slow path runs under asid_lock, but [flush_context]
    drains the CPUs' active slots one by one while other CPUs may take the lockless
    fast path, and the fast path reads the generation and its slot before its
    compare-and-swap. The machine below interleaves exactly these accesses: the
    reads of the fast path, its compare-and-swap, each slot the rollover drains,
    and the rest of the slow path as one step under the lock.

    A process's [asid_ctx] is touched only by the CPU switching to it (p->lock),
    and a CPU's active slot is written only by that CPU and by the rollover.

    The machine also records what the program relies on but does not store: what
    each CPU's TTBR0 holds ([a_run]), the translations its TLB may hold ([a_tlb],
    pairs of ASID number and process) and which process each packed context value
    was issued to ([a_who]). *)

From S2P Require Import Prelude Bits.

(** ** State *)

Definition ASID_RESERVED : Z := 0.
Definition ASID_MAX_BITS : Z := 16.
Definition ASID_MAX : Z := Z.shiftl 1 ASID_MAX_BITS.

Record asid_state := Asid {
  asid_num_total : Z;
  asid_mask : Z;
  asid_generation : Z;
  asid_next : Z;
  asid_bitmap : bitstr;
  tlb_pending : cpumask;
  asid_active : Z -> Z;      (* cpus[c].asid_active *)
  asid_reserved : Z -> Z;    (* cpus[c].asid_reserved *)
  asid_ctx : Z -> Z;         (* p->asid_ctx *)
  ncpus : Z
}.

Definition with_bitmap (st : asid_state) (b : bitstr) : asid_state :=
  Asid (asid_num_total st) (asid_mask st) (asid_generation st) (asid_next st) b (tlb_pending st)
    (asid_active st) (asid_reserved st) (asid_ctx st) (ncpus st).
Definition with_next (st : asid_state) (n : Z) : asid_state :=
  Asid (asid_num_total st) (asid_mask st) (asid_generation st) n (asid_bitmap st) (tlb_pending st)
    (asid_active st) (asid_reserved st) (asid_ctx st) (ncpus st).
Definition with_reserved (st : asid_state) (r : Z -> Z) : asid_state :=
  Asid (asid_num_total st) (asid_mask st) (asid_generation st) (asid_next st) (asid_bitmap st)
    (tlb_pending st) (asid_active st) r (asid_ctx st) (ncpus st).
Definition with_active (st : asid_state) (c v : Z) : asid_state :=
  Asid (asid_num_total st) (asid_mask st) (asid_generation st) (asid_next st) (asid_bitmap st)
    (tlb_pending st) ((asid_active st).[c <- v]) (asid_reserved st) (asid_ctx st) (ncpus st).
Definition with_pending (st : asid_state) (m : cpumask) : asid_state :=
  Asid (asid_num_total st) (asid_mask st) (asid_generation st) (asid_next st) (asid_bitmap st)
    m (asid_active st) (asid_reserved st) (asid_ctx st) (ncpus st).
Definition with_ctx (st : asid_state) (p v : Z) : asid_state :=
  Asid (asid_num_total st) (asid_mask st) (asid_generation st) (asid_next st) (asid_bitmap st)
    (tlb_pending st) (asid_active st) (asid_reserved st) ((asid_ctx st).[p <- v]) (ncpus st).

(** ** Operations *)

(** ID_AA64MMFR0_EL1.ASIDBits is [7:4]; 2 means 16-bit ASIDs. *)
Definition asid_bits (mmfr0 : Z) : Z :=
  if Z.land (Z.shiftr mmfr0 4) (Z.shiftl 1 4 - 1) =? 2 then 16 else 8.

Fixpoint find_zero_loop (n : nat) (bm : bitstr) (i : Z) : option Z :=
  match n with
  | O => None
  | S n' => if negb (bit_test bm i) then Some i else find_zero_loop n' bm (i + 1)
  end.

Definition bitmap_find_zero (st : asid_state) (start : Z) : Z :=
  match find_zero_loop (Z.to_nat (asid_num_total st - start)) (asid_bitmap st) start with
  | Some i => i
  | None =>
      match find_zero_loop (Z.to_nat (start - 1)) (asid_bitmap st) 1 with
      | Some b => b
      | None => asid_num_total st
      end
  end.

Fixpoint check_update_loop (n : nat) (c : Z) (r : Z -> Z) (asid newasid : Z) (hit : bool)
    : (Z -> Z) * bool :=
  match n with
  | O => (r, hit)
  | S n' =>
      if r c =? asid then check_update_loop n' (c + 1) (r.[c <- newasid]) asid newasid true
      else check_update_loop n' (c + 1) r asid newasid hit
  end.

Definition check_update_reserved_asid (st : asid_state) (asid newasid : Z) : asid_state * bool :=
  let '(r, hit) :=
    check_update_loop (Z.to_nat (ncpus st)) 0 (asid_reserved st) asid newasid false in
  (with_reserved st r, hit).

Definition asid_init (mmfr0 ncpu : Z) (st0 : asid_state) : asid_state :=
  let total := Z.shiftl 1 (asid_bits mmfr0) in
  Asid total (total - 1) total 1 (bit_set (fun _ => 0) ASID_RESERVED)
    (cpumask_zero (tlb_pending st0)) (fun _ => 0) (fun _ => 0) (asid_ctx st0) ncpu.

Definition asid_num (st : asid_state) (p : Z) : Z := u16 (Z.land (asid_ctx st p) (asid_mask st)).

(** flush_context, in three parts: before, in and after the draining loop. *)
Definition flush_begin (st : asid_state) : asid_state :=
  with_bitmap st (bit_set (fun _ => 0) ASID_RESERVED).

Definition flush_cpu (st : asid_state) (c : Z) : asid_state :=
  let asid := asid_active st c in
  let st := with_active st c 0 in
  let asid := if asid =? 0 then asid_reserved st c else asid in
  let st := with_reserved st ((asid_reserved st).[c <- asid]) in
  if negb (asid =? 0)
  then with_bitmap st (bit_set (asid_bitmap st) (Z.land asid (asid_mask st)))
  else st.

Fixpoint pend_loop (n : nat) (c : Z) (m : cpumask) : cpumask :=
  match n with
  | O => m
  | S n' => pend_loop n' (c + 1) (cpumask_set m c)
  end.

Definition flush_end (st : asid_state) : asid_state :=
  Asid (asid_num_total st) (asid_mask st) (u64 (asid_generation st + asid_num_total st)) 1
    (asid_bitmap st) (pend_loop (Z.to_nat (ncpus st)) 0 (tlb_pending st))
    (asid_active st) (asid_reserved st) (asid_ctx st) (ncpus st).

Fixpoint flush_cpus (n : nat) (c : Z) (st : asid_state) : asid_state :=
  match n with
  | O => st
  | S n' => flush_cpus n' (c + 1) (flush_cpu st c)
  end.

Definition flush_context (st : asid_state) : asid_state :=
  flush_end (flush_cpus (Z.to_nat (ncpus st)) 0 (flush_begin st)).

(** bit_set(asid_bitmap, asid); asid_next = asid + 1; return gen | asid; *)
Definition take_asid (st : asid_state) (asid : Z) : asid_state * Z :=
  (with_next (with_bitmap st (bit_set (asid_bitmap st) asid)) (u64 (asid + 1)),
   Z.lor (asid_generation st) asid).

(** new_context up to the point where the pool turns out to be full (None). *)
Definition new_context_try (st : asid_state) (p : Z) : option (asid_state * Z) :=
  let old := asid_ctx st p in
  let gen := asid_generation st in
  let search st :=
    let asid := bitmap_find_zero st (asid_next st) in
    if asid =? asid_num_total st then None else Some (take_asid st asid) in
  if negb (old =? 0) then
    let newasid := Z.lor gen (Z.land old (asid_mask st)) in
    let '(st1, hit) := check_update_reserved_asid st old newasid in
    if hit then Some (st1, newasid)
    else
      let asid := Z.land old (asid_mask st) in
      if negb (bit_test (asid_bitmap st1) asid)
      then Some (with_bitmap st1 (bit_set (asid_bitmap st1) asid), newasid)
      else search st1
  else search st.

(** new_context after flush_context. *)
Definition new_context_flushed (st : asid_state) : res (asid_state * Z) :=
  let asid := bitmap_find_zero st 1 in
  kassert (negb (asid =? asid_num_total st)) msg "asid: pool exhausted after rollover" ;;
  Ret (take_asid st asid).

Definition new_context (st : asid_state) (p : Z) : res (asid_state * Z) :=
  match new_context_try st p with
  | Some r => Ret r
  | None => new_context_flushed (flush_context st)
  end.

(** ** The machine *)

Inductive apc :=
| AIdle
| AGen (p ctx gen : Z)          (* p->asid_ctx and the generation read *)
| AAct (p ctx gen old : Z)      (* and this CPU's active slot *)
| ASlow (p : Z)                 (* waiting for asid_lock *)
| AFlush (p k : Z).             (* under asid_lock, slots below k drained *)

Record amach := AMach {
  a_st : asid_state;
  a_pc : Z -> apc;
  a_lock : option Z;
  a_run : Z -> option (Z * Z);
  a_tlb : Z -> list (Z * Z);
  a_who : Z -> option Z;
  a_rollovers : Z
}.

Definition set_pc (m : amach) (c : Z) (pc : apc) : amach :=
  AMach (a_st m) ((a_pc m).[c <- pc]) (a_lock m) (a_run m) (a_tlb m) (a_who m) (a_rollovers m).
Definition set_st (m : amach) (st : asid_state) : amach :=
  AMach st (a_pc m) (a_lock m) (a_run m) (a_tlb m) (a_who m) (a_rollovers m).

(** The fast path's test and compare-and-swap; switchuvm follows at once. *)
Definition switch_fast (m : amach) (c p ctx gen old : Z) : amach :=
  let st := a_st m in
  if negb (old =? 0) && (Z.land (Z.lxor ctx gen) (not64 (asid_mask st)) =? 0)
     && (asid_active st c =? old)
  then AMach (with_active st c ctx) ((a_pc m).[c <- AIdle]) (a_lock m)
         ((a_run m).[c <- Some (p, ctx)]) (a_tlb m) (a_who m) (a_rollovers m)
  else set_pc m c (ASlow p).

(** The end of the slow path, with the context [ctx] decided: store it, drain a
    pending local flush, publish, release the lock, switchuvm. *)
Definition switch_finish (m : amach) (st : asid_state) (c p ctx rollovers : Z) : amach :=
  let st := with_ctx st p ctx in
  let owed := cpumask_test (tlb_pending st) c in
  let st := if owed then with_pending st (cpumask_clear (tlb_pending st) c) else st in
  AMach (with_active st c ctx) ((a_pc m).[c <- AIdle]) None ((a_run m).[c <- Some (p, ctx)])
    (if owed then (a_tlb m).[c <- []] else a_tlb m) ((a_who m).[ctx <- Some p]) rollovers.

(** The slow path from taking the lock to its end, or to the start of a rollover. *)
Definition switch_slow (m : amach) (c p : Z) : amach :=
  let st := a_st m in
  let ctx := asid_ctx st p in
  if negb (Z.land ctx (not64 (asid_mask st)) =? asid_generation st) then
    match new_context_try st p with
    | Some (st', v) => switch_finish m st' c p v (a_rollovers m)
    | None =>
        AMach (flush_begin st) ((a_pc m).[c <- AFlush p 0]) (Some c) (a_run m) (a_tlb m)
          (a_who m) (a_rollovers m)
    end
  else switch_finish m st c p ctx (a_rollovers m).

Definition switch_flush (m : amach) (c p k : Z) : res amach :=
  if k <? ncpus (a_st m) then Ret (set_pc (set_st m (flush_cpu (a_st m) k)) c (AFlush p (k + 1)))
  else
    r ← new_context_flushed (flush_end (a_st m));
    Ret (switch_finish m r.1 c p r.2 (a_rollovers m + 1)).

Inductive aact :=
| AStart (p : Z)     (* asid_switch(p) is called *)
| ACont              (* run on to the next shared access *)
| AFill              (* the TLB caches a translation of what TTBR0 holds *)
| AReserve           (* switchuvm_reserved: back in the scheduler *)
| AInval (p : Z).    (* asid_flush(p) *)

Definition asid_flush (m : amach) (p : Z) : amach :=
  let asid := Z.land (asid_ctx (a_st m) p) (asid_mask (a_st m)) in
  AMach (a_st m) (a_pc m) (a_lock m) (a_run m)
    (fun c => filter (fun e => e.1 <> asid) (a_tlb m c)) (a_who m) (a_rollovers m).

Definition mentions (pc : apc) (p : Z) : bool :=
  match pc with
  | AIdle => false
  | AGen q _ _ | AAct q _ _ _ | ASlow q | AFlush q _ => q =? p
  end.

(** asid_switch(p) is called with p->lock held, by a CPU in its scheduler. *)
Definition aenabled (m : amach) (c : Z) (a : aact) : Prop :=
  0 <= c < ncpus (a_st m) /\
  match a with
  | AStart p => a_pc m c = AIdle /\ a_run m c = None /\ forall c', mentions (a_pc m c') p = false
  | ACont =>
      match a_pc m c with AIdle => False | ASlow _ => a_lock m = None | _ => True end
  | AFill | AReserve => a_pc m c = AIdle
  | AInval _ => True
  end.

Definition aexec (m : amach) (c : Z) (a : aact) : res amach :=
  match a with
  | AStart p => Ret (set_pc m c (AGen p (asid_ctx (a_st m) p) (asid_generation (a_st m))))
  | AFill =>
      Ret (match a_run m c with
      | Some (p, v) =>
          AMach (a_st m) (a_pc m) (a_lock m) (a_run m)
            ((a_tlb m).[c <- (Z.land v (asid_mask (a_st m)), p) :: a_tlb m c]) (a_who m) (a_rollovers m)
      | None => m
      end)
  | AReserve =>
      Ret (AMach (a_st m) (a_pc m) (a_lock m) ((a_run m).[c <- None]) (a_tlb m) (a_who m) (a_rollovers m))
  | AInval p => Ret (asid_flush m p)
  | ACont =>
      match a_pc m c with
      | AIdle => Ret m
      | AGen p ctx gen => Ret (set_pc m c (AAct p ctx gen (asid_active (a_st m) c)))
      | AAct p ctx gen old => Ret (switch_fast m c p ctx gen old)
      | ASlow p => Ret (switch_slow m c p)
      | AFlush p k => switch_flush m c p k
      end
  end.

Definition astep (m m' : amach) : Prop := exists c a, aenabled m c a /\ aexec m c a = Ret m'.

(** After asid_init, with no context issued and nothing loaded. *)
Definition amach_boot (mmfr0 ncpu : Z) : amach :=
  AMach (asid_init mmfr0 ncpu
           (Asid 0 0 0 0 (fun _ => 0) {| cm_bits := fun _ => 0 |} (fun _ => 0) (fun _ => 0) (fun _ => 0) 0))
    (fun _ => AIdle) None (fun _ => None) (fun _ => []) (fun _ => None) 0.

(** ** Invariants *)

(** What holds of the shared state at every access: packed values in use were
    issued, active ones in this generation, and a number carried over in a
    reserved slot is not issued to anybody else. *)
Record ctx_ok (st : asid_state) (who : Z -> option Z) (roll : Z) : Prop := {
  ok_total : asid_num_total st = 2 ^ 8 \/ asid_num_total st = 2 ^ 16;
  ok_mask : asid_mask st = asid_num_total st - 1;
  ok_ncpus : 0 < ncpus st <= NCPU_MAX;
  ok_roll : 0 <= roll < 2 ^ 47;
  ok_gen : asid_generation st = asid_num_total st * (1 + roll);
  ok_next : 1 <= asid_next st <= asid_num_total st;
  ok_who : forall v p, who v = Some p ->
    0 < v mod asid_num_total st /\ 0 <= v /\ v / asid_num_total st <= 1 + roll;
  ok_ctx : forall p, asid_ctx st p <> 0 -> who (asid_ctx st p) = Some p;
  ok_act : forall c, asid_active st c <> 0 ->
    who (asid_active st c) <> None /\ asid_active st c / asid_num_total st = 1 + roll;
  ok_res : forall c, asid_reserved st c <> 0 -> who (asid_reserved st c) <> None /\
    (who (asid_generation st + asid_reserved st c mod asid_num_total st) <> None ->
     asid_reserved st c / asid_num_total st = 1 + roll);
  ok_res2 : forall c c', asid_reserved st c <> 0 -> asid_reserved st c' <> 0 ->
    asid_reserved st c mod asid_num_total st = asid_reserved st c' mod asid_num_total st ->
    asid_reserved st c = asid_reserved st c';
  ok_range : forall c, ~ 0 <= c < ncpus st -> asid_active st c = 0 /\ asid_reserved st c = 0
}.

(** The bitmap outside a rollover: every number issued in this generation or
    carried over is taken. *)
Definition bits_ok (st : asid_state) (who : Z -> option Z) (roll : Z) : Prop :=
  bit_test (asid_bitmap st) 0 = true /\
  (forall v, who v <> None -> v / asid_num_total st = 1 + roll ->
     bit_test (asid_bitmap st) (v mod asid_num_total st) = true) /\
  (forall c, asid_reserved st c <> 0 ->
     bit_test (asid_bitmap st) (asid_reserved st c mod asid_num_total st) = true).

(** During a rollover that has drained the slots below [k]. *)
Definition drained_ok (st : asid_state) (k : Z) : Prop :=
  bit_test (asid_bitmap st) 0 = true /\
  (forall c, 0 <= c < k -> asid_active st c = 0) /\
  (forall c, 0 <= c < k -> asid_reserved st c <> 0 ->
     bit_test (asid_bitmap st) (asid_reserved st c mod asid_num_total st) = true) /\
  (forall n, 0 <= n -> bit_test (asid_bitmap st) n = true ->
     n = 0 \/ exists c, 0 <= c < k /\ n = asid_reserved st c mod asid_num_total st).

(** What TTBR0 and the TLBs hold; [D c]: slot [c] is already drained by the
    rollover in progress. *)
Record core_ok (st : asid_state) (run : Z -> option (Z * Z)) (tlb : Z -> list (Z * Z))
    (who : Z -> option Z) (roll : Z) (D : Z -> Prop) : Prop := {
  c_ctx : ctx_ok st who roll;
  c_run : forall c p v, run c = Some (p, v) -> who v = Some p /\
    ((asid_active st c <> 0 /\ asid_active st c = v) \/
     (asid_active st c = 0 /\ asid_reserved st c <> 0 /\
      asid_reserved st c mod asid_num_total st = v mod asid_num_total st /\
      who (asid_reserved st c) = Some p));
  c_tlb_act : forall c, asid_active st c <> 0 -> cpumask_test (tlb_pending st) c = false /\
    forall n q, (n, q) ∈ tlb c -> who (asid_generation st + n) = Some q;
  c_tlb_idle : forall c, 0 <= c < ncpus st -> asid_active st c = 0 ->
    cpumask_test (tlb_pending st) c = true \/ D c \/ (tlb c = [] /\ run c = None);
  c_tlb_run : forall c p v, run c = Some (p, v) ->
    forall q, (v mod asid_num_total st, q) ∈ tlb c -> q = p
}.

Definition is_flush (pc : apc) : bool := match pc with AFlush _ _ => true | _ => false end.

Record amach_ok (m : amach) : Prop := {
  m_core : core_ok (a_st m) (a_run m) (a_tlb m) (a_who m) (a_rollovers m)
    (fun c => exists h p k, a_pc m h = AFlush p k /\ 0 <= c < k);
  m_pc : forall c,
    match a_pc m c with
    | AIdle => True
    | AGen p ctx gen | AAct p ctx gen _ =>
        a_run m c = None /\ ctx = asid_ctx (a_st m) p /\
        (asid_active (a_st m) c <> 0 -> gen = asid_generation (a_st m))
    | ASlow _ | AFlush _ _ => a_run m c = None
    end;
  m_excl : forall c c' p, mentions (a_pc m c) p = true -> mentions (a_pc m c') p = true -> c = c';
  m_lock :
    match a_lock m with
    | None => (forall c, is_flush (a_pc m c) = false) /\ bits_ok (a_st m) (a_who m) (a_rollovers m)
    | Some h => (forall c, c <> h -> is_flush (a_pc m c) = false) /\
        exists p k, a_pc m h = AFlush p k /\ 0 <= k <= ncpus (a_st m) /\ drained_ok (a_st m) k
    end
}.

(** ** Arithmetic of packed contexts *)

Section packed.
Context (k T : Z).
Hypothesis Hk : 0 <= k.
Hypothesis HT : T = 2 ^ k.

Lemma packed_mask v : Z.land v (T - 1) = v mod T.
Proof. rewrite HT. replace (2 ^ k - 1) with (Z.ones k) by (rewrite Z.ones_equiv; lia). apply Z.land_ones. lia. Qed.

Lemma packed_pos : 0 < T.
Proof. rewrite HT. apply Z.pow_pos_nonneg; lia. Qed.

Lemma packed_lor g n : 0 <= n < T -> Z.lor (T * g) n = T * g + n.
Proof.
  intros Hn. pose proof (Z.add_lor_land (T * g) n) as H.
  assert (Hz : Z.land (T * g) n = 0).
  { apply Z.bits_inj'. intros i Hi. rewrite Z.land_spec, Z.bits_0, HT, Z.mul_comm.
    destruct (Z.lt_ge_cases i k).
    - by rewrite Z.mul_pow2_bits_low by lia.
    - rewrite (testbit_high n k); [by rewrite andb_false_r | lia | lia]. }
  lia.
Qed.

Lemma packed_gen v : 0 <= v < 2 ^ 64 -> Z.land v (not64 (T - 1)) = v / T * T.
Proof.
  intros Hv. unfold not64. rewrite land_u64 by done.
  replace (T - 1) with (Z.ones k) by (rewrite Z.ones_equiv; lia).
  rewrite land_lnot_ones by lia. by rewrite HT.
Qed.

Lemma packed_same v g : 0 <= v < 2 ^ 64 -> 0 <= g < 2 ^ 64 ->
  Z.land (Z.lxor v g) (not64 (T - 1)) = 0 <-> v / T = g / T.
Proof.
  intros Hv Hg.
  assert (Hlog : forall x, 0 <= x < 2 ^ 64 -> Z.log2 x < 64).
  { intros x Hx. destruct (Z.eq_dec x 0) as [-> |]; [done |]. apply Z.log2_lt_pow2; lia. }
  assert (H0 : 0 <= Z.lxor v g) by (apply Z.lxor_nonneg; lia).
  assert (Hx : 0 <= Z.lxor v g < 2 ^ 64).
  { split; [done |]. destruct (Z.eq_dec (Z.lxor v g) 0) as [-> | Hnz]; [done |].
    apply Z.log2_lt_pow2; [lia |].
    pose proof (Z.log2_lxor v g ltac:(lia) ltac:(lia)). pose proof (Hlog v Hv). pose proof (Hlog g Hg). lia. }
  rewrite packed_gen by done. rewrite HT, <- !Z.shiftr_div_pow2, Z.shiftr_lxor by lia.
  pose proof packed_pos as Hp. rewrite HT in Hp. rewrite Z.mul_eq_0, Z.lxor_eq_0_iff. lia.
Qed.
End packed.

Section ctx.
Context (st : asid_state) (who : Z -> option Z) (roll : Z) (Hok : ctx_ok st who roll).

Lemma total_pow : exists k, 0 <= k <= 16 /\ asid_num_total st = 2 ^ k.
Proof. destruct (ok_total _ _ _ Hok) as [-> | ->]; [exists 8 | exists 16]; lia. Qed.

Lemma total_range : 256 <= asid_num_total st <= 65536.
Proof. destruct (ok_total _ _ _ Hok) as [-> | ->]; lia. Qed.

Lemma mask_mod v : Z.land v (asid_mask st) = v mod asid_num_total st.
Proof. destruct total_pow as (k & ? & E). rewrite (ok_mask _ _ _ Hok). apply (packed_mask k); [lia | done]. Qed.

Lemma gen_lor n : 0 <= n < asid_num_total st -> Z.lor (asid_generation st) n = asid_generation st + n.
Proof. destruct total_pow as (k & ? & E). rewrite (ok_gen _ _ _ Hok). apply (packed_lor k); [lia | done]. Qed.

Lemma value_range v : 0 <= v -> v / asid_num_total st <= 1 + roll -> 0 <= v < 2 ^ 64.
Proof.
  intros H0 H1. pose proof total_range. pose proof (ok_roll _ _ _ Hok). split; [done |].
  pose proof (Z.div_mod v (asid_num_total st) ltac:(lia)).
  pose proof (Z.mod_pos_bound v (asid_num_total st) ltac:(lia)). nia.
Qed.

Lemma gen_range : 0 <= asid_generation st < 2 ^ 64.
Proof.
  pose proof total_range. pose proof (ok_roll _ _ _ Hok). rewrite (ok_gen _ _ _ Hok). nia.
Qed.

(** A value of this generation is the generation plus its number. *)
Lemma current_value v :
  v / asid_num_total st = 1 + roll <-> v = asid_generation st + v mod asid_num_total st.
Proof.
  pose proof total_range. pose proof (Z.div_mod v (asid_num_total st) ltac:(lia)) as Hd.
  pose proof (Z.mod_pos_bound v (asid_num_total st) ltac:(lia)). rewrite (ok_gen _ _ _ Hok). nia.
Qed.

Lemma issue_value n : 0 <= n < asid_num_total st ->
  (asid_generation st + n) mod asid_num_total st = n /\
  (asid_generation st + n) / asid_num_total st = 1 + roll.
Proof.
  intros Hn. pose proof total_range. rewrite (ok_gen _ _ _ Hok), Z.mul_comm.
  rewrite Z.add_comm, Z_mod_plus_full, Z_div_plus_full by lia.
  rewrite Z.mod_small, Z.div_small by lia. lia.
Qed.

Lemma ctx_value p : 0 <= asid_ctx st p < 2 ^ 64.
Proof.
  destruct (Z.eq_dec (asid_ctx st p) 0) as [-> | Hne]; [lia |].
  destruct (ok_who _ _ _ Hok _ _ (ok_ctx _ _ _ Hok p Hne)) as (_ & ? & ?). by apply value_range.
Qed.
End ctx.

(** ** Issuing a context *)

(** [v] is a fresh value of this generation for [p]: its number was free, or was
    carried over for [p] itself, whose reservations move to [v]. *)
Definition issues (st st1 : asid_state) (who : Z -> option Z) (p v : Z) : Prop :=
  exists next bm res,
    st1 = Asid (asid_num_total st) (asid_mask st) (asid_generation st) next bm (tlb_pending st)
            (asid_active st) res (asid_ctx st) (ncpus st) /\
    let n := v mod asid_num_total st in
    v = asid_generation st + n /\ 0 < n < asid_num_total st /\ who v = None /\
    1 <= next <= asid_num_total st /\
    (forall x, 0 <= x -> bit_test bm x = (x =? n) || bit_test (asid_bitmap st) x) /\
    forall c,
      (res c = asid_reserved st c /\ (asid_reserved st c <> 0 -> asid_reserved st c mod asid_num_total st <> n)) \/
      (asid_reserved st c <> 0 /\ asid_reserved st c = asid_ctx st p /\ res c = v /\
       asid_reserved st c mod asid_num_total st = n).

Lemma who_upd_some (who : Z -> option Z) v p x q :
  who v = None -> who x = Some q -> who.[v <- Some p] x = Some q.
Proof. intros Hv Hx. rewrite upd_ne; [done |]. intros ->. congruence. Qed.

Lemma who_upd_ne (who : Z -> option Z) v p x :
  who v = None -> who x <> None -> who.[v <- Some p] x <> None.
Proof. intros Hv Hx. rewrite upd_ne; [done |]. intros ->. congruence. Qed.

Section issue.
Context (st : asid_state) (who : Z -> option Z) (roll : Z) (Hok : ctx_ok st who roll).
Context (st1 : asid_state) (p v : Z) (Hiss : issues st st1 who p v).

Lemma issues_ctx : ctx_ok (with_ctx st1 p v) (who.[v <- Some p]) roll.
Proof.
  destruct Hiss as (next & bm & res & -> & Hv & Hn & Hfresh & Hnext & Hbm & Hres). cbn zeta in *.
  set (T := asid_num_total st) in *.
  assert (Hcur : v / T = 1 + roll) by (apply (current_value st who roll Hok); done).
  pose proof (total_range st who roll Hok) as HT. fold T in HT.
  constructor; cbn [with_ctx asid_num_total asid_mask asid_generation asid_next asid_bitmap tlb_pending
    asid_active asid_reserved asid_ctx ncpus]; fold T; try apply Hok; try done.
  - intros x q. destruct (decide (x = v)) as [-> | Hx]; rewrite ?upd_eq, ?upd_ne by done.
    + intros _. split; [lia |]. split; [| lia]. pose proof (gen_range st who roll Hok). lia.
    + apply Hok.
  - intros q. destruct (decide (q = p)) as [-> | Hq]; rewrite ?upd_eq, ?upd_ne by done; [done |].
    intros Hne. apply who_upd_some; [done |]. by apply Hok.
  - intros c Hc. destruct (ok_act _ _ _ Hok c Hc) as [Hw Hg]. split; [by apply who_upd_ne | done].
  - intros c Hc. destruct (Hres c) as [[E Hne] | (Hnz & Hctx & E & Hnum)]; rewrite E in *.
    + destruct (ok_res _ _ _ Hok c Hc) as [Hw Hg]. split; [by apply who_upd_ne |].
      rewrite upd_ne; [done |]. intros Hx. apply (Hne Hc). fold T in Hx.
      rewrite <- Hx. symmetry. apply (issue_value st who roll Hok). apply Z.mod_pos_bound. lia.
    + rewrite upd_eq. done.
  - intros c c' Hc Hc' Hnum.
    destruct (Hres c) as [[E Hne] | (Hnz & Hctx & E & Hn1)], (Hres c') as [[E' Hne'] | (Hnz' & Hctx' & E' & Hn1')];
      rewrite E, E' in *; try done.
    + by apply (ok_res2 _ _ _ Hok).
    + exfalso. by apply (Hne Hc).
    + exfalso. by apply (Hne' Hc').
  - intros c Hc. destruct (ok_range _ _ _ Hok c Hc) as [Ha Hr]. split; [done |].
    destruct (Hres c) as [[E _] | (Hnz & _)]; [by rewrite E | done].
Qed.

Lemma issues_bits : bits_ok st who roll -> bits_ok (with_ctx st1 p v) (who.[v <- Some p]) roll.
Proof.
  destruct Hiss as (next & bm & res & -> & Hv & Hn & Hfresh & Hnext & Hbm & Hres). cbn zeta in *.
  pose proof (total_range st who roll Hok) as HT.
  intros (H0 & Hw & Hr). split; [| split]; cbn [with_ctx asid_num_total asid_bitmap asid_reserved].
  - rewrite Hbm, H0 by lia. apply orb_true_r.
  - intros x Hx Hg. assert (0 <= x mod asid_num_total st) by (apply Z.mod_pos_bound; lia).
    rewrite Hbm by done. destruct (decide (x = v)) as [-> | Hne].
    + by rewrite Z.eqb_refl.
    + rewrite upd_ne in Hx by done. rewrite Hw by done. apply orb_true_r.
  - intros c Hc.
    destruct (Hres c) as [[E Hne] | (Hnz & Hctx & E & Hnum)]; rewrite E in *.
    + rewrite Hbm, Hr by (done || apply Z.mod_pos_bound; lia). apply orb_true_r.
    + rewrite Hbm by lia. by rewrite Z.eqb_refl.
Qed.
End issue.

(** Finishing a switch with [v], fresh or already the process's own, keeps the
    invariants. *)
Definition decided (st st1 : asid_state) (who : Z -> option Z) (roll p v : Z) : Prop :=
  issues st st1 who p v \/
  (st1 = st /\ v = asid_ctx st p /\ who v = Some p /\ v / asid_num_total st = 1 + roll).

Lemma decided_ctx st st1 who roll p v : ctx_ok st who roll -> bits_ok st who roll ->
  decided st st1 who roll p v ->
  ctx_ok (with_ctx st1 p v) (who.[v <- Some p]) roll /\
  bits_ok (with_ctx st1 p v) (who.[v <- Some p]) roll.
Proof.
  intros Hok Hb [Hiss | (-> & -> & Hw & Hg)].
  - split; [by apply issues_ctx with st | by apply issues_bits with st].
  - assert (Hwho : forall x, who.[asid_ctx st p <- Some p] x = who x).
    { intros x. destruct (decide (x = asid_ctx st p)) as [-> |]; [by rewrite upd_eq | by rewrite upd_ne]. }
    split.
    + constructor; cbn [with_ctx asid_num_total asid_mask asid_generation asid_next asid_bitmap tlb_pending
        asid_active asid_reserved asid_ctx ncpus]; try apply Hok; intros *; rewrite ?Hwho, ?upd_same, ?Hwho; apply Hok.
    + destruct Hb as (? & Hb & ?). split; [done |]. split; [| done].
      intros x. rewrite Hwho. apply Hb.
Qed.

(** What the other processes' facts need of the change. *)
Lemma decided_who st st1 who roll p v : decided st st1 who roll p v ->
  (forall x q, who x = Some q -> who.[v <- Some p] x = Some q) /\
  asid_num_total st1 = asid_num_total st /\ asid_generation st1 = asid_generation st /\
  tlb_pending st1 = tlb_pending st /\ asid_active st1 = asid_active st /\
  asid_ctx st1 = asid_ctx st /\ ncpus st1 = ncpus st /\ asid_mask st1 = asid_mask st /\
  forall c, asid_reserved st1 c = asid_reserved st c \/
    (asid_reserved st c <> 0 /\ asid_reserved st c = asid_ctx st p /\ asid_reserved st1 c = v /\
     asid_reserved st c mod asid_num_total st = v mod asid_num_total st).
Proof.
  intros [(next & bm & res & -> & Hv & Hn & Hfresh & Hnext & Hbm & Hres) | (-> & -> & Hw & Hg)].
  - split; [intros; by apply who_upd_some |]. repeat (split; [done |]). cbn.
    intros c. destruct (Hres c) as [[E _] | (? & ? & ? & ?)]; auto.
  - split.
    + intros x q Hx. destruct (decide (x = asid_ctx st p)) as [-> |]; [| by rewrite upd_ne].
      rewrite upd_eq. congruence.
    + repeat (split; [done |]). auto.
Qed.

Lemma ctx_ok_pending st who roll m : ctx_ok st who roll -> ctx_ok (with_pending st m) who roll.
Proof. intros H. constructor; apply H. Qed.

Lemma ctx_ok_active st who roll c v : ctx_ok st who roll ->
  (v <> 0 -> 0 <= c < ncpus st /\ who v <> None /\ v / asid_num_total st = 1 + roll) ->
  ctx_ok (with_active st c v) who roll.
Proof.
  intros H Hv. constructor; cbn [with_active asid_num_total asid_mask asid_generation asid_next
    asid_bitmap tlb_pending asid_active asid_reserved asid_ctx ncpus]; try apply H.
  - intros c'. destruct (decide (c' = c)) as [-> |]; rewrite ?upd_eq, ?upd_ne by done; [| apply H].
    intros Hne. by apply Hv.
  - intros c' Hc'. split; [| by apply H].
    destruct (decide (c' = c)) as [-> |]; rewrite ?upd_eq, ?upd_ne by done; [| by apply H].
    destruct (Z.eq_dec v 0) as [| Hne]; [done |]. exfalso. apply Hc'. by apply Hv.
Qed.

Lemma decided_current st st1 who roll p v : ctx_ok st who roll -> decided st st1 who roll p v ->
  v / asid_num_total st = 1 + roll /\ v <> 0 /\ v = asid_generation st + v mod asid_num_total st.
Proof.
  intros Hok Hd.
  assert (Hc : v / asid_num_total st = 1 + roll).
  { destruct Hd as [(? & ? & ? & _ & Hv & _) | (_ & _ & _ & ?)]; [| done].
    apply (current_value st who roll Hok). done. }
  split; [done |]. split; [| by apply (current_value st who roll Hok)].
  intros ->. rewrite Zdiv_0_l in Hc. pose proof (ok_roll _ _ _ Hok). lia.
Qed.

(** The state [switch_finish] leaves. *)
Definition published (st1 : asid_state) (c p v : Z) : asid_state :=
  let st := with_ctx st1 p v in
  let st := if cpumask_test (tlb_pending st) c
            then with_pending st (cpumask_clear (tlb_pending st) c) else st in
  with_active st c v.

Lemma published_fields st1 c p v :
  asid_num_total (published st1 c p v) = asid_num_total st1 /\
  asid_mask (published st1 c p v) = asid_mask st1 /\
  asid_generation (published st1 c p v) = asid_generation st1 /\
  asid_bitmap (published st1 c p v) = asid_bitmap st1 /\
  asid_reserved (published st1 c p v) = asid_reserved st1 /\
  asid_active (published st1 c p v) = (asid_active st1).[c <- v] /\
  asid_ctx (published st1 c p v) = (asid_ctx st1).[p <- v] /\
  ncpus (published st1 c p v) = ncpus st1.
Proof. unfold published. by destruct (cpumask_test _ c). Qed.

Lemma published_pending st1 c p v c' : 0 <= c -> 0 <= c' ->
  cpumask_test (tlb_pending (published st1 c p v)) c' =
  negb (c' =? c) && cpumask_test (tlb_pending st1) c'.
Proof.
  intros Hc Hc'. unfold published. cbn [with_ctx tlb_pending with_active].
  destruct (cpumask_test (tlb_pending st1) c) eqn:E; cbn [with_active with_pending with_ctx tlb_pending].
  - unfold cpumask_test, cpumask_clear. cbn [cm_bits]. by apply bit_test_clear.
  - destruct (Z.eqb_spec c' c) as [-> |]; [by rewrite E | done].
Qed.

Lemma published_ctx st st1 who roll c p v :
  ctx_ok st who roll -> bits_ok st who roll -> decided st st1 who roll p v -> 0 <= c < ncpus st ->
  ctx_ok (published st1 c p v) (who.[v <- Some p]) roll /\
  bits_ok (published st1 c p v) (who.[v <- Some p]) roll.
Proof.
  intros Hok Hb Hd Hc. destruct (decided_ctx _ _ _ _ _ _ Hok Hb Hd) as [Hok1 Hb1].
  destruct (decided_who _ _ _ _ _ _ Hd) as (_ & HT & _ & _ & _ & _ & Hn & _).
  destruct (decided_current _ _ _ _ _ _ Hok Hd) as (Hcur & _).
  split.
  - unfold published. apply ctx_ok_active.
    + destruct (cpumask_test _ c); [by apply ctx_ok_pending | done].
    + intros _. rewrite upd_eq.
      destruct (cpumask_test _ c); cbn [with_pending with_ctx ncpus asid_num_total]; rewrite ?Hn, ?HT; done.
  - destruct (published_fields st1 c p v) as (E1 & _ & _ & E4 & E5 & _).
    unfold bits_ok in *. rewrite E1, E4, E5. exact Hb1.
Qed.

Section finish.
Context (st st1 : asid_state) (run : Z -> option (Z * Z)) (tlb : Z -> list (Z * Z)).
Context (who : Z -> option Z) (roll c p v : Z).
Hypothesis Hcore : core_ok st run tlb who roll (fun _ => False).
Hypothesis Hbits : bits_ok st who roll.
Hypothesis Hdec : decided st st1 who roll p v.
Hypothesis Hc : 0 <= c < ncpus st.

Let tlb' := if cpumask_test (tlb_pending st) c then tlb.[c <- []] else tlb.

Lemma tlb'_other c' : c' <> c -> tlb' c' = tlb c'.
Proof. intros H. unfold tlb'. destruct (cpumask_test _ _); [by rewrite upd_ne | done]. Qed.

(** After the local flush, if one was owed, this CPU's TLB is of this generation. *)
Lemma tlb'_self n q : (n, q) ∈ tlb' c -> who (asid_generation st + n) = Some q.
Proof.
  unfold tlb'. destruct (cpumask_test (tlb_pending st) c) eqn:E.
  - rewrite upd_eq. intros H. inversion H.
  - destruct (Z.eq_dec (asid_active st c) 0) as [Hz | Hnz].
    + destruct (c_tlb_idle _ _ _ _ _ _ Hcore c Hc Hz) as [? | [[] | [-> _]]]; [congruence |].
      intros H. inversion H.
    + apply (c_tlb_act _ _ _ _ _ _ Hcore c Hnz).
Qed.

Lemma finish_run c' q x : (run.[c <- Some (p, v)]) c' = Some (q, x) ->
  who.[v <- Some p] x = Some q /\
  ((((asid_active st).[c <- v]) c' <> 0 /\ ((asid_active st).[c <- v]) c' = x) \/
   (((asid_active st).[c <- v]) c' = 0 /\ asid_reserved st1 c' <> 0 /\
    asid_reserved st1 c' mod asid_num_total st = x mod asid_num_total st /\
    who.[v <- Some p] (asid_reserved st1 c') = Some q)).
Proof.
  destruct (decided_who _ _ _ _ _ _ Hdec) as (Hmono & _ & _ & _ & _ & _ & _ & _ & Hres).
  destruct (decided_current _ _ _ _ _ _ (c_ctx _ _ _ _ _ _ Hcore) Hdec) as (_ & Hv & _).
  destruct (decide (c' = c)) as [-> | Hne]; rewrite ?(upd_eq run), ?(upd_ne run) by done.
  - intros [= <- <-]. rewrite !upd_eq. auto.
  - intros H. destruct (c_run _ _ _ _ _ _ Hcore c' q x H) as [Hw Hor]. split; [by apply Hmono |].
    rewrite !(upd_ne (asid_active st)) by done. destruct Hor as [Hl | (Ha & Hr & Hn & Hwr)]; [by left |].
    right. split; [done |]. destruct (Hres c') as [-> | (_ & Hctx & -> & Hn')]; [auto |].
    split; [done |]. split; [congruence |]. rewrite upd_eq. rewrite Hctx in Hwr.
    rewrite (ok_ctx _ _ _ (c_ctx _ _ _ _ _ _ Hcore)) in Hwr; [done | by rewrite <- Hctx].
Qed.

Lemma finish_core :
  core_ok (published st1 c p v) (run.[c <- Some (p, v)]) tlb' (who.[v <- Some p]) roll (fun _ => False).
Proof.
  pose proof (c_ctx _ _ _ _ _ _ Hcore) as Hok.
  destruct (decided_who _ _ _ _ _ _ Hdec) as (Hmono & HT & Hg & Hp & Ha & _ & Hn & _).
  destruct (decided_current _ _ _ _ _ _ Hok Hdec) as (_ & Hv & Hveq).
  destruct (published_fields st1 c p v) as (E1 & _ & E3 & _ & E5 & E6 & _ & E8).
  constructor; [by apply (published_ctx st) | | | |]; rewrite ?E1, ?E3, ?E5, ?E6, ?E8, ?HT, ?Hg, ?Ha, ?Hn.
  - exact finish_run.
  - intros c' Hne. assert (Hr : 0 <= c').
    { destruct (decide (c' = c)) as [-> | Hcc]; [lia |]. rewrite upd_ne in Hne by done.
      destruct (decide (0 <= c' < ncpus st)); [lia |].
      by destruct (ok_range _ _ _ Hok c') as [? _]. }
    rewrite published_pending, Hp by lia.
    destruct (decide (c' = c)) as [-> | Hcc].
    + rewrite Z.eqb_refl. split; [done |]. intros n q Hin. apply Hmono. by apply tlb'_self.
    + rewrite upd_ne in Hne by done. destruct (c_tlb_act _ _ _ _ _ _ Hcore c' Hne) as [-> Ht].
      rewrite andb_false_r, tlb'_other by done. split; [done |]. auto.
  - intros c' Hr Hz. rewrite published_pending, Hp by lia.
    destruct (decide (c' = c)) as [-> | Hcc]; [by rewrite upd_eq in Hz |].
    rewrite upd_ne in Hz by done. rewrite tlb'_other by done.
    rewrite (proj2 (Z.eqb_neq c' c)), (upd_ne run) by done. apply (c_tlb_idle _ _ _ _ _ _ Hcore); done.
  - intros c' q x Hrun r Hin. destruct (decide (c' = c)) as [-> | Hcc].
    + rewrite upd_eq in Hrun. injection Hrun as <- <-. apply tlb'_self in Hin.
      rewrite <- Hveq in Hin. apply Hmono in Hin. rewrite upd_eq in Hin. congruence.
    + rewrite upd_ne in Hrun by done. rewrite tlb'_other in Hin by done.
      by eapply (c_tlb_run _ _ _ _ _ _ Hcore).
Qed.
End finish.

(** ** The searches *)

Lemma find_zero_loop_spec n bm i :
  match find_zero_loop n bm i with
  | Some j => i <= j < i + Z.of_nat n /\ bit_test bm j = false
  | None => forall j, i <= j < i + Z.of_nat n -> bit_test bm j = true
  end.
Proof.
  revert i. induction n as [| n IH]; intros i; cbn [find_zero_loop]; [lia |].
  destruct (bit_test bm i) eqn:E; cbn [negb]; [| split; [lia | done]].
  specialize (IH (i + 1)). destruct (find_zero_loop n bm (i + 1)) as [j |].
  - split; [lia | tauto].
  - intros j Hj. destruct (Z.eq_dec j i) as [-> |]; [done |]. apply IH. lia.
Qed.

(** A free number in [[1, total)], or the total when there is none. *)
Lemma bitmap_find_zero_spec st start : 1 <= start <= asid_num_total st ->
  let r := bitmap_find_zero st start in
  (r = asid_num_total st /\ forall i, 1 <= i < asid_num_total st -> bit_test (asid_bitmap st) i = true) \/
  (1 <= r < asid_num_total st /\ bit_test (asid_bitmap st) r = false).
Proof.
  intros Hs. unfold bitmap_find_zero.
  pose proof (find_zero_loop_spec (Z.to_nat (asid_num_total st - start)) (asid_bitmap st) start) as H1.
  pose proof (find_zero_loop_spec (Z.to_nat (start - 1)) (asid_bitmap st) 1) as H2.
  destruct (find_zero_loop _ _ start) as [j |]; [right; split; [lia | tauto] |].
  destruct (find_zero_loop _ _ 1) as [j |]; [right; split; [lia | tauto] |].
  left. split; [done |]. intros i Hi. destruct (Z.lt_ge_cases i start); [apply H2 | apply H1]; lia.
Qed.

Lemma check_update_loop_spec n c r asid new hit r' hit' :
  check_update_loop n c r asid new hit = (r', hit') ->
  (forall x, r' x = r x \/ (c <= x < c + Z.of_nat n /\ r x = asid /\ r' x = new)) /\
  (forall x, c <= x < c + Z.of_nat n -> r x = asid -> r' x = new) /\
  (hit' = true -> hit = true \/ exists x, c <= x < c + Z.of_nat n /\ r x = asid) /\
  (hit' = false -> forall x, c <= x < c + Z.of_nat n -> r x <> asid) /\ (hit = true -> hit' = true).
Proof.
  revert c r hit. induction n as [| n IH]; intros c r hit; cbn [check_update_loop].
  { intros [= <- <-]. split; [auto |]. split; [lia |]. split; [auto |]. split; [lia | done]. }
  destruct (Z.eqb_spec (r c) asid) as [E | E]; intros H; apply IH in H as (H1 & H2 & H3 & H4 & H5).
  - split; [| split; [| split; [| split]]].
    + intros x. destruct (decide (x = c)) as [-> | Hx].
      * destruct (H1 c) as [-> | (? & _)]; [rewrite upd_eq; right; split; [lia | done] | lia].
      * destruct (H1 x) as [-> | (? & ? & ?)]; rewrite upd_ne in * by done; [auto | right].
        split; [lia | done].
    + intros x Hx Hr. destruct (decide (x = c)) as [-> | Hne].
      * destruct (H1 c) as [-> | (? & _)]; [by rewrite upd_eq | lia].
      * apply H2; [lia | by rewrite upd_ne].
    + intros _. right. exists c. split; [lia | done].
    + intros ->. by specialize (H5 eq_refl).
    + auto.
  - split; [| split; [| split; [| split]]].
    + intros x. destruct (H1 x) as [? | (? & ? & ?)]; [auto | right; split; [lia | done]].
    + intros x Hx Hr. destruct (decide (x = c)) as [-> | Hne]; [done |]. apply H2; [lia | done].
    + intros Hh. destruct (H3 Hh) as [? | (x & ? & ?)]; [auto | right; exists x; split; [lia | done]].
    + intros Hh x Hx. destruct (decide (x = c)) as [-> | Hne]; [done |]. apply H4; [done | lia].
    + auto.
Qed.

(** ** new_context issues a context *)

Section new_context.
Context (st : asid_state) (who : Z -> option Z) (roll p : Z).
Hypothesis Hok : ctx_ok st who roll.
Hypothesis Hbits : bits_ok st who roll.

(** A number whose bit is clear is nobody's. *)
Lemma clear_bit_fresh n : 0 < n < asid_num_total st -> bit_test (asid_bitmap st) n = false ->
  who (asid_generation st + n) = None /\
  forall c, asid_reserved st c <> 0 -> asid_reserved st c mod asid_num_total st <> n.
Proof.
  intros Hn Hbit. destruct Hbits as (_ & Hw & Hr).
  destruct (issue_value st who roll Hok n ltac:(lia)) as [Hm Hd]. split.
  - destruct (who (asid_generation st + n)) eqn:E; [| done].
    specialize (Hw (asid_generation st + n)). rewrite E, Hm, Hbit in Hw. by discriminate Hw.
  - intros c Hc <-. rewrite Hr in Hbit by done. done.
Qed.

(** Taking a clear bit, with the reservations as they were. *)
Lemma take_issues n next res :
  0 < n < asid_num_total st -> bit_test (asid_bitmap st) n = false ->
  1 <= next <= asid_num_total st -> (forall c, res c = asid_reserved st c) ->
  issues st (Asid (asid_num_total st) (asid_mask st) (asid_generation st) next
      (bit_set (asid_bitmap st) n) (tlb_pending st) (asid_active st) res (asid_ctx st) (ncpus st))
    who p (Z.lor (asid_generation st) n).
Proof.
  intros Hn Hbit Hnext Hres. destruct (clear_bit_fresh n Hn Hbit) as [Hw Hr].
  rewrite (gen_lor st who roll Hok) by lia.
  destruct (issue_value st who roll Hok n ltac:(lia)) as [Hm Hd].
  exists next, (bit_set (asid_bitmap st) n), res. split; [done |]. cbn zeta. rewrite Hm.
  split; [done |]. split; [done |]. split; [done |]. split; [done |]. split.
  - intros x Hx. apply bit_test_set; lia.
  - intros c. left. auto.
Qed.

Lemma search_issues res :
  (forall c, res c = asid_reserved st c) ->
  let st2 := with_reserved st res in
  let asid := bitmap_find_zero st2 (asid_next st2) in
  asid <> asid_num_total st -> issues st (take_asid st2 asid).1 who p (take_asid st2 asid).2.
Proof.
  intros Hres st2 asid Hne. pose proof (ok_next _ _ _ Hok) as Hnext.
  destruct (bitmap_find_zero_spec st2 (asid_next st2)) as [[E _] | [Hr Hb]]; [done | done |].
  fold asid in Hr, Hb. unfold take_asid. cbn [fst snd].
  pose proof (total_range st who roll Hok). cbn [st2 with_reserved asid_num_total] in Hr.
  rewrite u64_small by lia. apply take_issues; try done; lia.
Qed.

Lemma search_found_issues res st1 v :
  (forall c, res c = asid_reserved st c) ->
  (let st2 := with_reserved st res in
   let asid := bitmap_find_zero st2 (asid_next st2) in
   if asid =? asid_num_total st2 then None else Some (take_asid st2 asid)) = Some (st1, v) ->
  issues st st1 who p v.
Proof.
  intros Hres. pose proof (search_issues res Hres) as H. cbn zeta in *.
  change (asid_num_total (with_reserved st res)) with (asid_num_total st).
  destruct (Z.eqb_spec (bitmap_find_zero (with_reserved st res) (asid_next (with_reserved st res)))
    (asid_num_total st)) as [| Hne]; [done |].
  intros [= <- <-]. exact (H Hne).
Qed.

(** Path 1: the process's old context sits in a reserved slot. *)
Lemma reserved_hit_issues res x (n := asid_ctx st p mod asid_num_total st) :
  asid_ctx st p <> 0 -> asid_ctx st p / asid_num_total st <> 1 + roll ->
  0 < n < asid_num_total st -> asid_reserved st x = asid_ctx st p ->
  (forall c, asid_reserved st c <> asid_ctx st p -> res c = asid_reserved st c) ->
  (forall c, 0 <= c < ncpus st -> asid_reserved st c = asid_ctx st p -> res c = asid_generation st + n) ->
  issues st (with_reserved st res) who p (asid_generation st + n).
Proof.
  intros E Hstale Hn Hrx Hother Hself.
  destruct (issue_value st who roll Hok n ltac:(lia)) as [Hm _].
  exists (asid_next st), (asid_bitmap st), res. split; [done |]. cbn zeta. rewrite Hm.
  assert (Hfresh : who (asid_generation st + n) = None).
  { destruct (who (asid_generation st + n)) eqn:Ew; [exfalso | done].
    destruct (ok_res _ _ _ Hok x ltac:(congruence)) as [_ Hr]. rewrite Hrx in Hr. fold n in Hr.
    rewrite Ew in Hr. by specialize (Hr ltac:(done)). }
  split; [done |]. split; [done |]. split; [done |]. split; [apply Hok |]. split.
  - intros y Hy. destruct Hbits as (_ & _ & Hr). specialize (Hr x ltac:(congruence)).
    rewrite Hrx in Hr. fold n in Hr. destruct (Z.eqb_spec y n) as [-> |]; done.
  - intros c. destruct (decide (asid_reserved st c = asid_ctx st p)) as [Ec | Hnc].
    + right. assert (Hc : 0 <= c < ncpus st).
      { destruct (decide (0 <= c < ncpus st)) as [| Hno]; [done |].
        destruct (ok_range _ _ _ Hok c Hno) as [_ Hz]. congruence. }
      split; [congruence |]. split; [done |]. split; [by apply Hself |]. by rewrite Ec.
    + left. split; [by apply Hother |]. intros Hc Hcn.
      apply Hnc. rewrite <- Hrx. apply (ok_res2 _ _ _ Hok); [done | congruence |]. by rewrite Hrx.
Qed.

Lemma new_context_try_issues st1 v :
  asid_ctx st p / asid_num_total st <> 1 + roll ->
  new_context_try st p = Some (st1, v) -> issues st st1 who p v.
Proof.
  intros Hstale. unfold new_context_try. pose proof (total_range st who roll Hok) as HT.
  assert (Heta : with_reserved st (asid_reserved st) = st) by (by destruct st).
  destruct (Z.eqb_spec (asid_ctx st p) 0) as [E | E]; cbn [negb].
  { intros H. apply (search_found_issues (asid_reserved st)); [done |]. rewrite Heta. exact H. }
  rewrite (mask_mod st who roll Hok).
  destruct (ok_who _ _ _ Hok _ _ (ok_ctx _ _ _ Hok p E)) as (Hn0 & H0 & Hg).
  assert (Hn : 0 < asid_ctx st p mod asid_num_total st < asid_num_total st)
    by (split; [done | apply Z.mod_pos_bound; lia]).
  set (n := asid_ctx st p mod asid_num_total st) in *.
  rewrite (gen_lor st who roll Hok n) by lia.
  unfold check_update_reserved_asid. destruct (check_update_loop _ _ _ _ _ _) as [res hit] eqn:Ec.
  apply check_update_loop_spec in Ec as (H1 & H2 & H3 & H4 & _). destruct hit.
  - intros [= <- <-]. destruct (H3 eq_refl) as [? | (x & Hx & Hrx)]; [done |].
    apply (reserved_hit_issues res x); try done.
    + intros c Hne. destruct (H1 c) as [| (_ & ? & _)]; done.
    + intros c Hc Hrc. apply H2; [lia | done].
  - assert (Hres : forall c, res c = asid_reserved st c).
    { intros c. destruct (H1 c) as [| (Hc & Hrc & _)]; [done |]. by specialize (H4 eq_refl c Hc). }
    cbn [with_reserved asid_bitmap]. destruct (bit_test (asid_bitmap st) n) eqn:Hb; cbn [negb].
    + by apply search_found_issues.
    + intros [= <- <-]. rewrite <- (gen_lor st who roll Hok n) by lia.
      apply take_issues; try done. apply Hok.
Qed.

Lemma new_context_flushed_issues n0 :
  asid_next st = 1 -> 0 < n0 < asid_num_total st -> bit_test (asid_bitmap st) n0 = false ->
  exists st1 v, new_context_flushed st = Ret (st1, v) /\ issues st st1 who p v.
Proof.
  intros Hnext Hn0 Hclear. unfold new_context_flushed, KASSERT.
  assert (Heta : with_reserved st (asid_reserved st) = st) by (by destruct st).
  pose proof (search_issues (asid_reserved st) (fun _ => eq_refl)) as H. cbn zeta in H.
  rewrite Heta, Hnext in H. pose proof (total_range st who roll Hok).
  destruct (bitmap_find_zero_spec st 1 ltac:(lia)) as [[_ Hall] | [Hr _]].
  { rewrite Hall in Hclear by lia. done. }
  destruct (Z.eqb_spec (bitmap_find_zero st 1) (asid_num_total st)) as [| Hne]; [lia |].
  cbn [negb mbind res_bind]. eexists _, _. split; [reflexivity |]. apply H. done.
Qed.
End new_context.

(** ** The rollover *)

Lemma core_ok_mono st run tlb who roll (D D' : Z -> Prop) :
  (forall c, D c -> D' c) -> core_ok st run tlb who roll D -> core_ok st run tlb who roll D'.
Proof.
  intros HD H. constructor; try apply H. intros c Hc Hz.
  destruct (c_tlb_idle _ _ _ _ _ _ H c Hc Hz) as [? | [? | ?]]; auto.
Qed.

Lemma flush_begin_ok st run tlb who roll D : core_ok st run tlb who roll D ->
  core_ok (flush_begin st) run tlb who roll D /\ drained_ok (flush_begin st) 0.
Proof.
  intros H. split.
  - constructor; try apply H. constructor; apply H.
  - split; [done |]. split; [lia |]. split; [lia |]. intros n Hn. cbn [flush_begin with_bitmap asid_bitmap].
    unfold ASID_RESERVED. rewrite bit_test_set by lia. intros [->%Z.eqb_eq | Hb]%orb_true_iff; [by left |].
    rewrite bit_test_spec, Z.bits_0 in Hb by done. done.
Qed.

Section drain.
Context (st : asid_state) (who : Z -> option Z) (roll k : Z).
Hypothesis Hok : ctx_ok st who roll.
Hypothesis Hk : 0 <= k < ncpus st.

(** The value slot [k] carries into the new generation. *)
Definition carried : Z := if asid_active st k =? 0 then asid_reserved st k else asid_active st k.

Lemma flush_cpu_fields :
  asid_num_total (flush_cpu st k) = asid_num_total st /\ asid_mask (flush_cpu st k) = asid_mask st /\
  asid_generation (flush_cpu st k) = asid_generation st /\ asid_next (flush_cpu st k) = asid_next st /\
  tlb_pending (flush_cpu st k) = tlb_pending st /\ asid_ctx (flush_cpu st k) = asid_ctx st /\
  ncpus (flush_cpu st k) = ncpus st /\ asid_active (flush_cpu st k) = (asid_active st).[k <- 0] /\
  asid_reserved (flush_cpu st k) = (asid_reserved st).[k <- carried] /\
  asid_bitmap (flush_cpu st k) =
    (if carried =? 0 then asid_bitmap st
     else bit_set (asid_bitmap st) (carried mod asid_num_total st)).
Proof.
  unfold flush_cpu, carried. cbn [with_active asid_reserved asid_mask].
  rewrite <- (mask_mod st who roll Hok). destruct (asid_active st k =? 0); cbn [negb].
  - destruct (asid_reserved st k =? 0); done.
  - destruct (asid_active st k =? 0); done.
Qed.

Lemma carried_spec : carried <> 0 -> who carried <> None /\
  forall c, asid_reserved st c <> 0 ->
    asid_reserved st c mod asid_num_total st = carried mod asid_num_total st ->
    asid_reserved st c = carried.
Proof.
  unfold carried. destruct (Z.eqb_spec (asid_active st k) 0) as [Hz | Hnz]; intros Hc.
  - split; [by apply Hok |]. intros c Hc' Hn. by apply (ok_res2 _ _ _ Hok).
  - destruct (ok_act _ _ _ Hok k Hnz) as [Hw Hcur]. split; [done |]. intros c Hc' Hn.
    pose proof (proj1 (current_value st who roll Hok _) Hcur) as E.
    destruct (ok_res _ _ _ Hok c Hc') as [_ Hr]. rewrite Hn, <- E in Hr.
    specialize (Hr Hw). apply (current_value st who roll Hok) in Hr. lia.
Qed.

Lemma carried_current : who (asid_generation st + carried mod asid_num_total st) <> None ->
  carried <> 0 -> carried / asid_num_total st = 1 + roll.
Proof.
  unfold carried. destruct (Z.eqb_spec (asid_active st k) 0) as [Hz | Hnz]; intros Hw Hc.
  - by apply Hok.
  - by apply Hok.
Qed.

Lemma flush_cpu_ctx : ctx_ok (flush_cpu st k) who roll.
Proof.
  destruct flush_cpu_fields as (E1 & E2 & E3 & E4 & E5 & E6 & E7 & E8 & E9 & _).
  constructor; rewrite ?E1, ?E2, ?E3, ?E4, ?E6, ?E7, ?E8, ?E9; try apply Hok.
  - intros c. destruct (decide (c = k)) as [-> |]; rewrite ?upd_eq, ?upd_ne by done; [done | apply Hok].
  - intros c. destruct (decide (c = k)) as [-> |]; rewrite ?upd_eq, ?upd_ne by done; [| apply Hok].
    intros Hne. split; [by apply carried_spec |]. intros Hw. by apply carried_current.
  - intros c c'. destruct (decide (c = k)) as [-> |], (decide (c' = k)) as [-> |];
      rewrite ?upd_eq, ?upd_ne by done; [done | | | apply Hok].
    + intros Hc Hc' Hn. symmetry. by apply carried_spec.
    + intros Hc Hc' Hn. by apply carried_spec.
  - intros c Hc. rewrite !upd_ne by (intros ->; lia). by apply Hok.
Qed.

Lemma flush_cpu_drained : drained_ok st k -> drained_ok (flush_cpu st k) (k + 1).
Proof.
  intros (H0 & Ha & Hr & Hb). pose proof (total_range st who roll Hok).
  destruct flush_cpu_fields as (E1 & _ & _ & _ & _ & _ & _ & E8 & E9 & E10).
  unfold drained_ok. rewrite E1, E8, E9, E10. assert (Hm : 0 <= carried mod asid_num_total st) by (apply Z.mod_pos_bound; lia).
  split; [| split; [| split]].
  - destruct (carried =? 0); [done |]. rewrite bit_test_set, H0 by lia. apply orb_true_r.
  - intros c Hc. destruct (decide (c = k)) as [-> |]; rewrite ?upd_eq, ?upd_ne by done; [done |]. apply Ha. lia.
  - intros c Hc. destruct (decide (c = k)) as [-> |]; rewrite ?upd_eq, ?upd_ne by done; intros Hne.
    + rewrite (proj2 (Z.eqb_neq _ _)) by done. rewrite bit_test_set, Z.eqb_refl by lia. done.
    + destruct (carried =? 0); [apply Hr; [lia | done] |].
      rewrite bit_test_set, Hr by (lia || done || (apply Z.mod_pos_bound; lia)). apply orb_true_r.
  - intros n Hn Hbit. assert (Hold : bit_test (asid_bitmap st) n = true ->
      n = 0 \/ exists c, 0 <= c < k + 1 /\ n = ((asid_reserved st).[k <- carried]) c mod asid_num_total st).
    { intros Hbo. destruct (Hb n Hn Hbo) as [? | (c & Hc & ->)]; [by left |]. right. exists c.
      split; [lia |]. by rewrite upd_ne by lia. }
    destruct (carried =? 0); [by apply Hold |]. rewrite bit_test_set in Hbit by lia.
    apply orb_true_iff in Hbit as [->%Z.eqb_eq |]; [| by apply Hold].
    right. exists k. split; [lia |]. by rewrite upd_eq.
Qed.

Lemma flush_cpu_core run tlb D D' :
  core_ok st run tlb who roll D -> (forall c, D c -> D' c) -> D' k ->
  core_ok (flush_cpu st k) run tlb who roll D'.
Proof.
  intros Hcore HD HDk.
  destruct flush_cpu_fields as (E1 & _ & E3 & _ & E5 & _ & E7 & E8 & E9 & _).
  constructor; [exact flush_cpu_ctx | | | |]; rewrite ?E1, ?E3, ?E5, ?E7, ?E8, ?E9.
  - intros c p v Hrun. destruct (c_run _ _ _ _ _ _ Hcore c p v Hrun) as [Hw Hor]. split; [done |].
    destruct (decide (c = k)) as [-> |]; rewrite ?upd_eq, ?upd_ne by done; [| done].
    right. split; [done |]. unfold carried.
    destruct Hor as [[Hnz <-] | (-> & Hr & Hn & Hwr)]; [| done].
    by rewrite (proj2 (Z.eqb_neq _ _)).
  - intros c. destruct (decide (c = k)) as [-> |]; rewrite ?upd_eq, ?upd_ne by done; [done |].
    apply (c_tlb_act _ _ _ _ _ _ Hcore).
  - intros c Hc. destruct (decide (c = k)) as [-> |]; rewrite ?upd_eq, ?upd_ne by done; [auto |].
    intros Hz. destruct (c_tlb_idle _ _ _ _ _ _ Hcore c Hc Hz) as [? | [? | ?]]; auto.
  - apply (c_tlb_run _ _ _ _ _ _ Hcore).
Qed.
End drain.

Lemma pend_loop_spec n c m x : 0 <= c -> 0 <= x ->
  cpumask_test (pend_loop n c m) x = ((c <=? x) && (x <? c + Z.of_nat n)) || cpumask_test m x.
Proof.
  revert c m. induction n as [| n IH]; intros c m Hc Hx; cbn [pend_loop].
  { destruct (Z.leb_spec c x), (Z.ltb_spec x (c + Z.of_nat 0)); try done; lia. }
  rewrite IH by lia. unfold cpumask_test, cpumask_set. cbn [cm_bits]. rewrite bit_test_set by lia.
  destruct (bit_test (cm_bits m) x); [by rewrite !orb_true_r |]. rewrite !orb_false_r.
  destruct (Z.leb_spec (c + 1) x), (Z.ltb_spec x (c + 1 + Z.of_nat n)), (Z.leb_spec c x),
    (Z.ltb_spec x (c + Z.of_nat (S n))), (Z.eqb_spec x c); cbn; try done; lia.
Qed.

Section rollover.
Context (st : asid_state) (who : Z -> option Z) (roll : Z).
Hypothesis Hok : ctx_ok st who roll.
Hypothesis Hdr : drained_ok st (ncpus st).
Hypothesis Hroll : roll + 1 < 2 ^ 47.

Lemma all_drained c : asid_active st c = 0.
Proof.
  destruct Hdr as (_ & Ha & _). destruct (decide (0 <= c < ncpus st)); [by apply Ha |]. by apply Hok.
Qed.

(** No context of the new generation has been issued yet. *)
Lemma next_gen_fresh v : v / asid_num_total st = 1 + (roll + 1) -> who v = None.
Proof.
  intros Hv. destruct (who v) eqn:E; [| done]. destruct (ok_who _ _ _ Hok _ _ E) as (_ & _ & ?). lia.
Qed.

Lemma flush_end_ctx : ctx_ok (flush_end st) who (roll + 1).
Proof.
  pose proof (total_range st who roll Hok). pose proof (ok_roll _ _ _ Hok).
  assert (Hg : u64 (asid_generation st + asid_num_total st) = asid_num_total st * (1 + (roll + 1))).
  { rewrite (ok_gen _ _ _ Hok). rewrite u64_small; nia. }
  constructor; cbn [flush_end asid_num_total asid_mask asid_generation asid_next asid_bitmap tlb_pending
    asid_active asid_reserved asid_ctx ncpus]; try apply Hok; rewrite ?Hg; try lia.
  - intros v p Hv. destruct (ok_who _ _ _ Hok v p Hv) as (? & ? & ?). lia.
  - intros c Hne. by rewrite all_drained in Hne.
  - intros c Hc. split; [by apply Hok |]. intros Hw. exfalso. apply Hw. apply next_gen_fresh.
    rewrite Z.mul_comm, Z.add_comm, Z_div_plus_full by lia.
    rewrite Z.div_small by (apply Z.mod_pos_bound; lia). lia.
Qed.

Lemma flush_end_bits : bits_ok (flush_end st) who (roll + 1).
Proof.
  destruct Hdr as (H0 & _ & Hr & _). split; [done |]. split; cbn [flush_end asid_num_total asid_bitmap asid_reserved].
  - intros v Hw Hv. exfalso. apply Hw. by apply next_gen_fresh.
  - intros c Hc. apply Hr; [| done]. destruct (decide (0 <= c < ncpus st)) as [| Hno]; [done |].
    destruct (ok_range _ _ _ Hok c Hno). done.
Qed.

Lemma flush_end_core run tlb D : core_ok st run tlb who roll D ->
  core_ok (flush_end st) run tlb who (roll + 1) (fun _ => False).
Proof.
  intros Hcore. constructor; [exact flush_end_ctx | | | |]; cbn [flush_end asid_num_total asid_generation
    tlb_pending asid_active asid_reserved ncpus].
  - apply (c_run _ _ _ _ _ _ Hcore).
  - intros c Hne. by rewrite all_drained in Hne.
  - intros c Hc _. left. rewrite pend_loop_spec by lia.
    destruct (Z.leb_spec 0 c), (Z.ltb_spec c (0 + Z.of_nat (Z.to_nat (ncpus st)))); try done; lia.
  - apply (c_tlb_run _ _ _ _ _ _ Hcore).
Qed.

(** At most one number per CPU is carried over, so one is free. *)
Lemma rollover_room : exists n, 0 < n < asid_num_total st /\ bit_test (asid_bitmap st) n = false.
Proof.
  pose proof (total_range st who roll Hok) as HT. pose proof (ok_ncpus _ _ _ Hok) as Hn.
  destruct (decide (Exists (fun n => bit_test (asid_bitmap st) n = false) (seqZ 1 (asid_num_total st - 1)))) as [He | Hall].
  { apply Exists_exists in He as (n & Hin & Hb). apply elem_of_seqZ in Hin. exists n. split; [lia | done]. }
  exfalso. apply not_Exists_Forall in Hall; [| intros x; apply _]. rewrite Forall_forall in Hall.
  assert (Hsub : seqZ 1 (asid_num_total st - 1) ⊆+
    map (fun c => asid_reserved st c mod asid_num_total st) (seqZ 0 (ncpus st))).
  { apply NoDup_submseteq; [apply NoDup_seqZ |]. intros n Hin. pose proof Hin as Hr.
    apply elem_of_seqZ in Hr. specialize (Hall n Hin). apply not_false_is_true in Hall.
    destruct Hdr as (_ & _ & _ & Hb). destruct (Hb n ltac:(lia) Hall) as [-> | (c & Hc & ->)]; [lia |].
    apply list_elem_of_fmap. exists c. split; [done |]. apply elem_of_seqZ. lia. }
  apply submseteq_length in Hsub. rewrite length_map, !length_seqZ in Hsub. unfold NCPU_MAX in Hn. lia.
Qed.
End rollover.

(** ** Every step keeps the invariant *)

(** Facts of the other CPUs' fast paths, against the state [st]. *)
Definition pc_ok (m : amach) (st : asid_state) (c : Z) : Prop :=
  match a_pc m c with
  | AIdle => True
  | AGen p ctx gen | AAct p ctx gen _ =>
      a_run m c = None /\ ctx = asid_ctx st p /\ (asid_active st c <> 0 -> gen = asid_generation st)
  | ASlow _ | AFlush _ _ => a_run m c = None
  end.

Lemma no_flush_false m : (forall c, is_flush (a_pc m c) = false) ->
  forall c, (exists h p k, a_pc m h = AFlush p k /\ 0 <= c < k) -> False.
Proof. intros H c (h & p & k & E & _). specialize (H h). by rewrite E in H. Qed.

Lemma finish_machine m st st1 c p v roll :
  core_ok st (a_run m) (a_tlb m) (a_who m) roll (fun _ => False) -> bits_ok st (a_who m) roll ->
  decided st st1 (a_who m) roll p v -> 0 <= c < ncpus st ->
  (forall c', pc_ok m st c') ->
  (forall c c' p, mentions (a_pc m c) p = true -> mentions (a_pc m c') p = true -> c = c') ->
  mentions (a_pc m c) p = true -> (forall c', c' <> c -> is_flush (a_pc m c') = false) ->
  amach_ok (switch_finish m st1 c p v roll).
Proof.
  intros Hcore Hb Hd Hc Hpc Hex Hp Hfl.
  destruct (decided_who _ _ _ _ _ _ Hd) as (_ & _ & Hg & Hpend & Ha & Hx & _).
  destruct (published_fields st1 c p v) as (_ & _ & E3 & _ & _ & E6 & E7 & _).
  assert (Hnf : forall c', is_flush ((a_pc m).[c <- AIdle] c') = false).
  { intros c'. destruct (decide (c' = c)) as [-> |]; [by rewrite upd_eq | by rewrite upd_ne, Hfl]. }
  assert (E : switch_finish m st1 c p v roll =
    AMach (published st1 c p v) ((a_pc m).[c <- AIdle]) None ((a_run m).[c <- Some (p, v)])
      (if cpumask_test (tlb_pending st) c then (a_tlb m).[c <- []] else a_tlb m)
      ((a_who m).[v <- Some p]) roll) by (rewrite <- Hpend; done).
  rewrite E. constructor; cbn [a_st a_run a_tlb a_who a_rollovers a_pc a_lock].
  - by eapply core_ok_mono, finish_core.
  - intros c'. rewrite E3, E6, E7, Hg, Ha, Hx. specialize (Hpc c'). unfold pc_ok in Hpc.
    destruct (decide (c' = c)) as [-> | Hne]; [by rewrite upd_eq |].
    rewrite !(upd_ne _ c c') by done. destruct (a_pc m c') as [| q ctx gen | q ctx gen old | q | q k] eqn:Eq; try done;
      (rewrite (upd_ne _ p q); [done |]; intros ->; apply Hne, (Hex c' c p); [by rewrite Eq; apply Z.eqb_refl | done]).
  - intros c1 c2 q. destruct (decide (c1 = c)) as [-> |], (decide (c2 = c)) as [-> |];
      rewrite ?upd_eq, ?upd_ne by done; try done. apply Hex.
  - split; [done |]. apply (published_ctx st); [apply (c_ctx _ _ _ _ _ _ Hcore) | done..].
Qed.

(** A CPU moves inside the fast path. *)
Lemma set_pc_ok m c pc :
  amach_ok m -> is_flush (a_pc m c) = false -> is_flush pc = false ->
  (forall p c', mentions pc p = true -> mentions (a_pc m c') p = true -> c' = c) ->
  pc_ok (set_pc m c pc) (a_st m) c -> amach_ok (set_pc m c pc).
Proof.
  intros Hm Hf Hf' Hmen Hpc. constructor; cbn [set_pc a_st a_run a_tlb a_who a_rollovers a_pc a_lock].
  - eapply core_ok_mono; [| apply (m_core m Hm)]. intros c' (h & q & k & E & Hk). exists h, q, k.
    split; [| done]. rewrite upd_ne; [done |]. intros ->. by rewrite E in Hf.
  - intros c'. destruct (decide (c' = c)) as [-> | Hne]; [exact Hpc |].
    rewrite upd_ne by done. apply (m_pc m Hm c').
  - intros c1 c2 q. destruct (decide (c1 = c)) as [-> |], (decide (c2 = c)) as [-> |];
      rewrite ?upd_eq, ?upd_ne by done; [done | | | apply (m_excl m Hm)].
    + intros H1 H2. symmetry. by apply (Hmen q).
    + intros H1 H2. by apply (Hmen q).
  - pose proof (m_lock m Hm) as Hl. destruct (a_lock m) as [h |].
    + destruct Hl as (Hno & q & k & E & Hl). split.
      * intros c' Hne. destruct (decide (c' = c)) as [-> |]; [by rewrite upd_eq | rewrite upd_ne by done; auto].
      * exists q, k. rewrite upd_ne; [done |]. intros ->. by rewrite E in Hf.
    + destruct Hl as [Hno Hl]. split; [| done].
      intros c'. destruct (decide (c' = c)) as [-> |]; [by rewrite upd_eq | rewrite upd_ne by done; auto].
Qed.

(** The compare-and-swap that succeeds publishes a context of this generation. *)
Lemma fast_core st run tlb who roll (D D' : Z -> Prop) c p :
  core_ok st run tlb who roll D -> (forall c', D c' -> D' c') -> 0 <= c < ncpus st ->
  asid_active st c <> 0 -> asid_ctx st p / asid_num_total st = 1 + roll ->
  core_ok (with_active st c (asid_ctx st p)) (run.[c <- Some (p, asid_ctx st p)]) tlb who roll D'.
Proof.
  intros Hcore HD Hc Hact Hcur. pose proof (c_ctx _ _ _ _ _ _ Hcore) as Hok.
  assert (Hnz : asid_ctx st p <> 0).
  { intros E. rewrite E, Zdiv_0_l in Hcur. pose proof (ok_roll _ _ _ Hok). lia. }
  pose proof (ok_ctx _ _ _ Hok p Hnz) as Hw.
  pose proof (proj1 (current_value _ _ _ Hok _) Hcur) as Heq.
  constructor; cbn [with_active asid_num_total asid_generation asid_active asid_reserved tlb_pending ncpus].
  - apply ctx_ok_active; [done |]. intros _. rewrite Hw. done.
  - intros c' q v. destruct (decide (c' = c)) as [-> |]; rewrite ?upd_eq, ?upd_ne by done.
    + intros [= <- <-]. auto.
    + apply (c_run _ _ _ _ _ _ Hcore).
  - intros c'. destruct (decide (c' = c)) as [-> |]; rewrite ?upd_eq, ?upd_ne by done;
      intros ?; by apply (c_tlb_act _ _ _ _ _ _ Hcore).
  - intros c' Hc'. destruct (decide (c' = c)) as [-> |]; rewrite ?upd_eq, ?upd_ne by done; [done |].
    intros Hz. destruct (c_tlb_idle _ _ _ _ _ _ Hcore c' Hc' Hz) as [? | [? | ?]]; auto.
  - intros c' q v. destruct (decide (c' = c)) as [-> |]; rewrite ?upd_eq, ?upd_ne by done.
    + intros [= <- <-] r Hin. apply (c_tlb_act _ _ _ _ _ _ Hcore c Hact) in Hin.
      rewrite <- Heq in Hin. congruence.
    + apply (c_tlb_run _ _ _ _ _ _ Hcore).
Qed.

Lemma fast_test st who roll p ctx gen : ctx_ok st who roll -> ctx = asid_ctx st p ->
  gen = asid_generation st ->
  Z.land (Z.lxor ctx gen) (not64 (asid_mask st)) = 0 -> ctx / asid_num_total st = 1 + roll.
Proof.
  intros Hok -> -> H. destruct (total_pow _ _ _ Hok) as (k & Hk & HT). rewrite (ok_mask _ _ _ Hok) in H.
  apply (packed_same k) in H; [| lia | done | by apply (ctx_value _ who roll) | by apply (gen_range _ who roll)].
  rewrite H, (ok_gen _ _ _ Hok), Z.mul_comm. pose proof (total_range _ _ _ Hok).
  apply Z_div_mult_full. lia.
Qed.

Lemma is_flush_upd pcs (c c' : Z) pc : is_flush pc = false -> is_flush (pcs c') = false ->
  is_flush (pcs.[c <- pc] c') = false.
Proof. intros. destruct (decide (c' = c)) as [-> |]; [by rewrite upd_eq | by rewrite upd_ne]. Qed.

Lemma switch_fast_ok m c p ctx gen old :
  amach_ok m -> 0 <= c < ncpus (a_st m) -> a_pc m c = AAct p ctx gen old ->
  amach_ok (switch_fast m c p ctx gen old).
Proof.
  intros Hm Hc Epc. pose proof (m_core m Hm) as Hcore. pose proof (c_ctx _ _ _ _ _ _ Hcore) as Hok.
  pose proof (m_pc m Hm c) as Hpc. rewrite Epc in Hpc. destruct Hpc as (Hrun & Hx & Hgen).
  unfold switch_fast. destruct (_ && _ && _) eqn:Econd.
  2: { apply set_pc_ok; try done; rewrite ?Epc; try done.
       - intros q c' Hq Hq'. apply (m_excl m Hm c' c q); [done | by rewrite Epc].
       - unfold pc_ok. cbn. by rewrite upd_eq. }
  zbool. assert (Hact : asid_active (a_st m) c <> 0) by congruence.
  pose proof (fast_test _ _ _ p ctx gen Hok Hx (Hgen Hact) ltac:(done)) as Hcur. subst ctx.
  constructor; cbn [a_st a_run a_tlb a_who a_rollovers a_pc a_lock].
  - eapply fast_core; try done. intros c' (h & q & j & E & Hj). exists h, q, j.
    rewrite upd_ne; [done |]. intros ->. congruence.
  - intros c'. destruct (decide (c' = c)) as [-> |]; rewrite ?upd_eq, ?upd_ne by done; [done |].
    pose proof (m_pc m Hm c') as Hp'. cbn [with_active asid_active asid_generation asid_ctx].
    by rewrite upd_ne.
  - intros c1 c2 q. destruct (decide (c1 = c)) as [-> |], (decide (c2 = c)) as [-> |];
      rewrite ?upd_eq, ?upd_ne by done; try done. apply (m_excl m Hm).
  - pose proof (m_lock m Hm) as Hl. destruct (a_lock m) as [h |].
    + destruct Hl as (Hno & q & j & E & Hj & Hd0 & Hd1 & Hd2).
      split; [intros; apply is_flush_upd; auto |].
      exists q, j. rewrite upd_ne by (intros ->; congruence). split; [done |]. split; [done |].
      split; [done |]. split; [| done]. intros c' Hc'. cbn. rewrite upd_ne; [by apply Hd1 |].
      intros ->. apply Hact, Hd1. done.
    + destruct Hl as [Hno Hl]. split; [intros; apply is_flush_upd; auto | done].
Qed.

Lemma switch_slow_ok m c p :
  amach_ok m -> 0 <= c < ncpus (a_st m) -> a_pc m c = ASlow p -> a_lock m = None ->
  amach_ok (switch_slow m c p).
Proof.
  intros Hm Hc Epc El. pose proof (m_core m Hm) as Hcore. pose proof (m_lock m Hm) as Hl.
  rewrite El in Hl. destruct Hl as [Hno Hb]. pose proof (c_ctx _ _ _ _ _ _ Hcore) as Hok.
  assert (Hcore' : core_ok (a_st m) (a_run m) (a_tlb m) (a_who m) (a_rollovers m) (fun _ => False)).
  { eapply core_ok_mono; [| exact Hcore]. by apply no_flush_false. }
  assert (Hmen : mentions (a_pc m c) p = true) by (rewrite Epc; apply Z.eqb_refl).
  pose proof (total_range _ _ _ Hok). unfold switch_slow.
  assert (Htest : Z.land (asid_ctx (a_st m) p) (not64 (asid_mask (a_st m))) = asid_generation (a_st m) <->
    asid_ctx (a_st m) p / asid_num_total (a_st m) = 1 + a_rollovers m).
  { destruct (total_pow _ _ _ Hok) as (k & Hk & HT). rewrite (ok_mask _ _ _ Hok).
    rewrite (packed_gen k) by (lia || done || by apply (ctx_value _ (a_who m) (a_rollovers m))).
    rewrite (ok_gen _ _ _ Hok). nia. }
  destruct (Z.eqb_spec (Z.land (asid_ctx (a_st m) p) (not64 (asid_mask (a_st m)))) (asid_generation (a_st m)))
    as [E | E]; cbn [negb].
  - apply Htest in E. eapply finish_machine; [exact Hcore' | exact Hb | | exact Hc | exact (m_pc m Hm)
      | exact (m_excl m Hm) | exact Hmen | auto].
    right. split; [done |]. split; [done |]. split; [| done]. apply Hok.
    intros Hz. rewrite Hz, Zdiv_0_l in E. pose proof (ok_roll _ _ _ Hok). lia.
  - rewrite Htest in E. destruct (new_context_try (a_st m) p) as [[st1 v] |] eqn:En.
    + eapply finish_machine; [exact Hcore' | exact Hb | left; by eapply new_context_try_issues
        | exact Hc | exact (m_pc m Hm) | exact (m_excl m Hm) | exact Hmen | auto].
    + destruct (flush_begin_ok _ _ _ _ _ _ Hcore') as [Hc' Hd].
      constructor; cbn [a_st a_run a_tlb a_who a_rollovers a_pc a_lock].
      * eapply core_ok_mono; [| exact Hc']. done.
      * intros c'. pose proof (m_pc m Hm c') as Hp. destruct (decide (c' = c)) as [-> |].
        -- rewrite upd_eq. by rewrite Epc in Hp.
        -- by rewrite upd_ne.
      * intros c1 c2 q. destruct (decide (c1 = c)) as [-> |], (decide (c2 = c)) as [-> |];
          rewrite ?upd_eq, ?upd_ne by done; [done | | | apply (m_excl m Hm)]; cbn [mentions]; intros H1 H2;
          apply (m_excl m Hm _ _ q); rewrite ?Epc; done.
      * split; [intros c' Hne; rewrite upd_ne by done; auto |].
        exists p, 0. rewrite upd_eq. split; [done |]. split; [cbn; lia | done].
Qed.

Lemma switch_flush_ok m c p k :
  amach_ok m -> 0 <= c < ncpus (a_st m) -> a_pc m c = AFlush p k -> a_rollovers m + 1 < 2 ^ 47 ->
  exists m', switch_flush m c p k = Ret m' /\ amach_ok m'.
Proof.
  intros Hm Hc Epc Hroll. pose proof (m_core m Hm) as Hcore. pose proof (c_ctx _ _ _ _ _ _ Hcore) as Hok.
  pose proof (m_lock m Hm) as Hl. destruct (a_lock m) as [h |] eqn:El.
  2: { destruct Hl as [Hno _]. specialize (Hno c). by rewrite Epc in Hno. }
  destruct Hl as (Hno & p' & k' & Eh & Hk & Hd).
  assert (h = c) as -> by (destruct (decide (h = c)); [done |]; specialize (Hno c ltac:(congruence)); by rewrite Epc in Hno).
  rewrite Epc in Eh. injection Eh as <- <-. unfold switch_flush.
  destruct (Z.ltb_spec k (ncpus (a_st m))) as [Hlt | Hge].
  - eexists. split; [reflexivity |].
    pose proof (flush_cpu_fields _ _ _ k Hok) as (E1 & E2 & E3 & _ & _ & E6 & E7 & E8 & _).
    constructor; cbn [set_pc set_st a_st a_run a_tlb a_who a_rollovers a_pc a_lock].
    + eapply flush_cpu_core; [done | lia | exact Hcore | |].
      * intros c' (h & q & j & E & Hj). destruct (decide (h = c)) as [-> | Hne].
        -- exists c, p, (k + 1). rewrite upd_eq. rewrite Epc in E. injection E as <- <-. split; [done | lia].
        -- specialize (Hno h Hne). by rewrite E in Hno.
      * exists c, p, (k + 1). rewrite upd_eq. split; [done | lia].
    + intros c'. pose proof (m_pc m Hm c') as Hp. rewrite E3, E6, E8.
      destruct (decide (c' = c)) as [-> |]; [rewrite upd_eq; by rewrite Epc in Hp |].
      rewrite (upd_ne (a_pc m)) by done. destruct (decide (c' = k)) as [-> |]; [| by rewrite upd_ne].
      rewrite upd_eq. destruct (a_pc m k); intuition.
    + intros c1 c2 q. destruct (decide (c1 = c)) as [-> |], (decide (c2 = c)) as [-> |];
        rewrite ?upd_eq, ?upd_ne by done; [done | | | apply (m_excl m Hm)]; cbn [mentions]; intros H1 H2;
        apply (m_excl m Hm _ _ q); rewrite ?Epc; done.
    + rewrite El. split; [intros c' Hne; rewrite upd_ne by done; auto |].
      exists p, (k + 1). rewrite upd_eq. split; [done |]. rewrite E7. split; [lia |].
      eapply flush_cpu_drained; try done; lia.
  - assert (k = ncpus (a_st m)) as -> by lia.
    destruct (rollover_room _ _ _ Hok Hd) as (n & Hn & Hclear).
    pose proof (flush_end_ctx _ _ _ Hok Hd Hroll) as Hok'.
    pose proof (flush_end_bits _ _ _ Hok Hd) as Hb'.
    destruct (new_context_flushed_issues (flush_end (a_st m)) (a_who m) (a_rollovers m + 1) p Hok' Hb' n)
      as (st1 & v & -> & Hiss); [done | done | done |].
    eexists. split; [reflexivity |]. cbn [fst snd].
    eapply finish_machine; [by eapply flush_end_core | done | by left | done | | exact (m_excl m Hm) | |].
    + intros c'. pose proof (m_pc m Hm c') as Hp. unfold pc_ok. cbn [flush_end asid_ctx asid_active].
      pose proof (all_drained _ _ _ Hok Hd c') as Hz. rewrite Hz. destruct (a_pc m c'); intuition.
    + rewrite Epc. apply Z.eqb_refl.
    + done.
Qed.

Lemma fill_ok m c p v : amach_ok m -> a_run m c = Some (p, v) ->
  amach_ok (AMach (a_st m) (a_pc m) (a_lock m) (a_run m)
    ((a_tlb m).[c <- (Z.land v (asid_mask (a_st m)), p) :: a_tlb m c]) (a_who m) (a_rollovers m)).
Proof.
  intros Hm Hrun. pose proof (m_core m Hm) as Hcore. pose proof (c_ctx _ _ _ _ _ _ Hcore) as Hok.
  rewrite (mask_mod _ _ _ Hok). destruct (c_run _ _ _ _ _ _ Hcore c p v Hrun) as [Hw Hor].
  constructor; try apply Hm. cbn [a_st a_run a_tlb a_who a_rollovers a_pc].
  constructor; try apply Hcore.
  - intros c'. destruct (decide (c' = c)) as [-> |]; rewrite ?upd_eq, ?upd_ne by done;
      intros Hne; destruct (c_tlb_act _ _ _ _ _ _ Hcore _ Hne) as [Hp Ht]; (split; [done |]); [| done].
    intros n q [[= -> ->] | Hin]%elem_of_cons; [| auto].
    destruct Hor as [[_ E] | [? _]]; [| done]. destruct (ok_act _ _ _ Hok c Hne) as [_ Hcur]. rewrite E in Hcur.
    by rewrite <- (proj1 (current_value _ _ _ Hok v) Hcur).
  - intros c' Hc' Hz. destruct (c_tlb_idle _ _ _ _ _ _ Hcore c' Hc' Hz) as [? | [? | [? Hr]]]; [auto | auto |].
    right. right. split; [| done]. rewrite upd_ne; [done |]. intros ->. congruence.
  - intros c' q x Hr r. destruct (decide (c' = c)) as [-> |]; rewrite ?upd_eq, ?upd_ne by done.
    + rewrite Hrun in Hr. injection Hr as <- <-. intros [[= ->] | Hin]%elem_of_cons; [done |].
      by eapply (c_tlb_run _ _ _ _ _ _ Hcore).
    + by eapply (c_tlb_run _ _ _ _ _ _ Hcore).
Qed.

Lemma reserve_ok m c : amach_ok m ->
  amach_ok (AMach (a_st m) (a_pc m) (a_lock m) ((a_run m).[c <- None]) (a_tlb m) (a_who m) (a_rollovers m)).
Proof.
  intros Hm. pose proof (m_core m Hm) as Hcore.
  assert (Hsub : forall c' x, (a_run m).[c <- None] c' = Some x -> a_run m c' = Some x).
  { intros c' x. destruct (decide (c' = c)) as [-> |]; [by rewrite upd_eq | by rewrite upd_ne]. }
  assert (Hnone : forall c', a_run m c' = None -> (a_run m).[c <- None] c' = None).
  { intros c' H. destruct (decide (c' = c)) as [-> |]; [by rewrite upd_eq | by rewrite upd_ne]. }
  constructor; try apply Hm; cbn [a_st a_run a_tlb a_who a_rollovers a_pc].
  - constructor; try apply Hcore.
    + intros c' p v H. apply (c_run _ _ _ _ _ _ Hcore). auto.
    + intros c' Hc' Hz. destruct (c_tlb_idle _ _ _ _ _ _ Hcore c' Hc' Hz) as [? | [? | [? Hr]]]; auto.
    + intros c' p v H. apply (c_tlb_run _ _ _ _ _ _ Hcore). auto.
  - intros c'. pose proof (m_pc m Hm c') as Hp. destruct (a_pc m c'); intuition.
Qed.

Lemma inval_ok m p : amach_ok m -> amach_ok (asid_flush m p).
Proof.
  intros Hm. pose proof (m_core m Hm) as Hcore. constructor; try apply Hm.
  cbn [asid_flush a_st a_run a_tlb a_who a_rollovers a_pc]. constructor; try apply Hcore.
  - intros c Hne. destruct (c_tlb_act _ _ _ _ _ _ Hcore c Hne) as [? Ht]. split; [done |].
    intros n q [_ Hin]%list_elem_of_filter. auto.
  - intros c Hc Hz. destruct (c_tlb_idle _ _ _ _ _ _ Hcore c Hc Hz) as [? | [? | [-> Hr]]]; auto.
  - intros c q v Hr r [_ Hin]%list_elem_of_filter. by eapply (c_tlb_run _ _ _ _ _ _ Hcore).
Qed.

Lemma aexec_ok m c a : amach_ok m -> aenabled m c a -> a_rollovers m + 1 < 2 ^ 47 ->
  exists m', aexec m c a = Ret m' /\ amach_ok m'.
Proof.
  intros Hm [Hc Hen] Hroll. destruct a as [p | | | | p]; cbn [aexec].
  - destruct Hen as (Hidle & Hrun & Hfree). eexists. split; [reflexivity |].
    apply set_pc_ok; try done; rewrite ?Hidle; try done.
    + cbn [mentions]. intros q c' ->%Z.eqb_eq Hq. by rewrite Hfree in Hq.
    + unfold pc_ok. cbn. by rewrite upd_eq.
  - pose proof (m_pc m Hm c) as Hp. destruct (a_pc m c) as [| p ctx gen | p ctx gen old | p | p k] eqn:E; [done | | | |].
    + eexists. split; [reflexivity |]. apply set_pc_ok; try done; rewrite ?E; try done.
      * intros q c' Hq Hq'. apply (m_excl m Hm c' c q); [done | by rewrite E].
      * unfold pc_ok. cbn. by rewrite upd_eq.
    + eexists. split; [reflexivity |]. by apply switch_fast_ok.
    + eexists. split; [reflexivity |]. by apply switch_slow_ok.
    + by apply switch_flush_ok.
  - eexists. split; [reflexivity |]. destruct (a_run m c) as [[p v] |] eqn:E; [by apply fill_ok | done].
  - eexists. split; [reflexivity |]. by apply reserve_ok.
  - eexists. split; [reflexivity |]. by apply inval_ok.
Qed.

Lemma astep_rollovers m m' : astep m m' -> a_rollovers m <= a_rollovers m'.
Proof.
  intros (c & a & _ & He). unfold aexec, switch_fast, switch_slow, switch_flush, set_pc, set_st in He.
  repeat first [discriminate | progress simplify_eq/= | lia | case_match
    | destruct (new_context_flushed _)].
Qed.

Lemma amach_boot_ok mmfr0 ncpu : 0 < ncpu <= NCPU_MAX -> amach_ok (amach_boot mmfr0 ncpu).
Proof.
  intros Hn. assert (HT : Z.shiftl 1 (asid_bits mmfr0) = 2 ^ 8 \/ Z.shiftl 1 (asid_bits mmfr0) = 2 ^ 16).
  { unfold asid_bits. destruct (_ =? 2); [by right | by left]. }
  constructor; try done.
  - cbn [a_st a_run a_tlb a_who a_rollovers a_pc amach_boot]. constructor; try done.
    + constructor; try done; cbn [asid_init asid_num_total asid_mask asid_generation asid_next]; try lia.
    + intros c Hc Hz. right. by right.
Qed.

Lemma areachable_ok mmfr0 ncpu m : 0 < ncpu <= NCPU_MAX ->
  rtc astep (amach_boot mmfr0 ncpu) m -> a_rollovers m + 1 < 2 ^ 47 -> amach_ok m.
Proof.
  intros Hn H. revert m H. apply (rtc_ind_r (fun m => a_rollovers m + 1 < 2 ^ 47 -> amach_ok m)).
  - intros _. by apply amach_boot_ok.
  - intros m1 m2 _ Hs IH Hroll. pose proof (astep_rollovers _ _ Hs).
    specialize (IH ltac:(lia)). destruct Hs as (c & a & Hen & He).
    destruct (aexec_ok m1 c a IH Hen ltac:(lia)) as (m' & He' & Hok). congruence.
Qed.

(** ** Theorems *)

(** C6: over any interleaving of context switches, rollovers and TLB fills on at
    most NCPU_MAX CPUs, before the generation counter can wrap: when TTBR0 of a CPU
    holds a process's ASID, every translation cached on that CPU under the same
    number is that process's own, and the number is not the reserved one. *)
Theorem asid_tlb_isolation mmfr0 ncpu m c p v :
  0 < ncpu <= NCPU_MAX -> rtc astep (amach_boot mmfr0 ncpu) m -> a_rollovers m + 1 < 2 ^ 47 ->
  a_run m c = Some (p, v) ->
  Z.land v (asid_mask (a_st m)) <> ASID_RESERVED /\
  forall q, (Z.land v (asid_mask (a_st m)), q) ∈ a_tlb m c -> q = p.
Proof.
  intros Hn Hr Hroll Hrun. pose proof (areachable_ok _ _ _ Hn Hr Hroll) as Hm.
  pose proof (m_core m Hm) as Hcore. pose proof (c_ctx _ _ _ _ _ _ Hcore) as Hok.
  destruct (c_run _ _ _ _ _ _ Hcore c p v Hrun) as [Hw _].
  rewrite (mask_mod _ _ _ Hok). split; [| by apply (c_tlb_run _ _ _ _ _ _ Hcore)].
  destruct (ok_who _ _ _ Hok v p Hw) as (? & _). unfold ASID_RESERVED. lia.
Qed.

(** in the same histories an ASID number loaded on one CPU is never loaded for
    another process on another CPU, also across rollovers the first CPU has not
    noticed yet. *)
Theorem asid_unique_across_cpus mmfr0 ncpu m c c' p q v w :
  0 < ncpu <= NCPU_MAX -> rtc astep (amach_boot mmfr0 ncpu) m -> a_rollovers m + 1 < 2 ^ 47 ->
  a_run m c = Some (p, v) -> a_run m c' = Some (q, w) -> p <> q ->
  Z.land v (asid_mask (a_st m)) <> Z.land w (asid_mask (a_st m)).
Proof.
  intros Hn Hr Hroll Hrun Hrun' Hpq. pose proof (areachable_ok _ _ _ Hn Hr Hroll) as Hm.
  pose proof (m_core m Hm) as Hcore. pose proof (c_ctx _ _ _ _ _ _ Hcore) as Hok.
  rewrite !(mask_mod _ _ _ Hok). intros Hnum. apply Hpq.
  destruct (c_run _ _ _ _ _ _ Hcore c p v Hrun) as [Hw Hor].
  destruct (c_run _ _ _ _ _ _ Hcore c' q w Hrun') as [Hw' Hor'].
  assert (Hcur : forall c x, asid_active (a_st m) c <> 0 -> asid_active (a_st m) c = x ->
    x = asid_generation (a_st m) + x mod asid_num_total (a_st m)).
  { intros c0 x H <-. apply (current_value _ _ _ Hok). by apply Hok. }
  assert (Hmix : forall c x y, asid_active (a_st m) c <> 0 -> asid_active (a_st m) c = x -> a_who m x <> None ->
    forall c0, asid_reserved (a_st m) c0 <> 0 ->
    asid_reserved (a_st m) c0 mod asid_num_total (a_st m) = y mod asid_num_total (a_st m) ->
    x mod asid_num_total (a_st m) = y mod asid_num_total (a_st m) -> asid_reserved (a_st m) c0 = x).
  { intros c1 x y Ha Hx Hwx c0 Hc0 Hy Hxy. pose proof (Hcur c1 x Ha Hx) as E.
    destruct (ok_res _ _ _ Hok c0 Hc0) as [_ Hres]. rewrite Hy, <- Hxy, <- E in Hres.
    apply Hres, (current_value _ _ _ Hok) in Hwx. rewrite Hy, <- Hxy in Hwx. congruence. }
  destruct Hor as [[Ha E] | (_ & Hr1 & Hn1 & Hw1)], Hor' as [[Ha' E'] | (_ & Hr2 & Hn2 & Hw2)].
  - pose proof (Hcur c v Ha E). pose proof (Hcur c' w Ha' E'). congruence.
  - rewrite (Hmix c v w Ha E ltac:(congruence) c' Hr2 Hn2 Hnum) in Hw2. congruence.
  - rewrite (Hmix c' w v Ha' E' ltac:(congruence) c Hr1 Hn1 (eq_sym Hnum)) in Hw1. congruence.
  - rewrite (ok_res2 _ _ _ Hok c c' Hr1 Hr2) in Hw1 by congruence. congruence.
Qed.

(** no step of the allocator panics: the pool is never exhausted after a
    rollover, because at most one number per CPU is carried over. *)
Theorem asid_never_exhausted mmfr0 ncpu m c a :
  0 < ncpu <= NCPU_MAX -> rtc astep (amach_boot mmfr0 ncpu) m -> a_rollovers m + 1 < 2 ^ 47 ->
  aenabled m c a -> is_Ret (aexec m c a).
Proof.
  intros Hn Hr Hroll Hen.
  destruct (aexec_ok m c a (areachable_ok _ _ _ Hn Hr Hroll) Hen Hroll) as (m' & ? & _). by exists m'.
Qed.

(** ** Witnesses *)

(** A schedule, and that it is one the machine can take. *)
Fixpoint arun (m : amach) (l : list (Z * aact)) : amach :=
  match l with
  | [] => m
  | (c, a) :: l' => match aexec m c a with Ret m' => arun m' l' | Panic _ => m end
  end.

Fixpoint arun_ok (m : amach) (l : list (Z * aact)) : Prop :=
  match l with
  | [] => True
  | (c, a) :: l' =>
      aenabled m c a /\ match aexec m c a with Ret m' => arun_ok m' l' | Panic _ => False end
  end.

Lemma arun_steps l m : arun_ok m l -> rtc astep m (arun m l).
Proof.
  revert m. induction l as [| [c a] l IH]; intros m; cbn [arun arun_ok]; [done |].
  intros [Hen H]. destruct (aexec m c a) as [m' |] eqn:E; [| done].
  apply (rtc_l _ _ m'); [by exists c, a | auto].
Qed.

(** CPU 0 loads process 5 and CPU 1 process 6; CPU 0 caches a translation. *)
Definition two_loaded_schedule : list (Z * aact) :=
  [(0, AStart 5); (0, ACont); (0, ACont); (0, ACont); (0, AFill);
   (1, AStart 6); (1, ACont); (1, ACont); (1, ACont)].

Definition two_loaded : amach := arun (amach_boot 0 2) two_loaded_schedule.

Lemma two_loaded_reachable : rtc astep (amach_boot 0 2) two_loaded.
Proof.
  apply arun_steps. vm_compute. repeat split; try discriminate; intros c'; by destruct c' as [| [] |].
Qed.

Lemma two_loaded_runs : a_run two_loaded 0 = Some (5, 257) /\ a_run two_loaded 1 = Some (6, 258).
Proof. vm_compute. done. Qed.

Lemma asid_tlb_isolation_witness :
  a_tlb two_loaded 0 = [(1, 5)] /\ forall q, (1, q) ∈ a_tlb two_loaded 0 -> q = 5.
Proof.
  destruct two_loaded_runs as [H0 _].
  destruct (asid_tlb_isolation 0 2 two_loaded 0 5 257 ltac:(unfold NCPU_MAX; lia)
    two_loaded_reachable eq_refl H0) as [_ H].
  split; [vm_compute; reflexivity | exact H].
Defined.

Lemma asid_unique_across_cpus_witness :
  Z.land 257 (asid_mask (a_st two_loaded)) <> Z.land 258 (asid_mask (a_st two_loaded)).
Proof.
  destruct two_loaded_runs as [H0 H1].
  apply (asid_unique_across_cpus 0 2 two_loaded 0 1 5 6 257 258 ltac:(unfold NCPU_MAX; lia)
    two_loaded_reachable eq_refl H0 H1). discriminate.
Defined.

Lemma asid_never_exhausted_witness : is_Ret (aexec two_loaded 0 AReserve).
Proof.
  apply (asid_never_exhausted 0 2 two_loaded 0 AReserve ltac:(unfold NCPU_MAX; lia)
    two_loaded_reachable eq_refl).
  vm_compute. repeat split; discriminate.
Defined.
