(* ===== verification/Str.v ===== *)
(** * Memory and string primitives

    Models libkern/string.c over a byte memory: a total map from addresses to
    bytes. A [uint64 *] access reads or writes eight bytes, least significant
    first. The copy loops count [n] down, so [n] iterations of fuel always reach
    their exit; the string loops run to a NUL that only the memory provides, so
    they carry fuel and return None when it runs out. *)

From S2P Require Import Prelude.

Definition mem : Type := Z -> Z.

Definition mem_wf (m : mem) : Prop := forall a, 0 <= m a < 256.

(** ** Word access *)

Fixpoint load_le (n : nat) (m : mem) (a : Z) : Z :=
  match n with
  | O => 0
  | S n' => m a + 256 * load_le n' m (a + 1)
  end.

Fixpoint store_le (n : nat) (m : mem) (a v : Z) : mem :=
  match n with
  | O => m
  | S n' => store_le n' (m.[a <- v mod 256]) (a + 1) (v / 256)
  end.

Definition load64 (m : mem) (a : Z) : Z := load_le 8 m a.
Definition store64 (m : mem) (a v : Z) : mem := store_le 8 m a v.

(** ** memset, memcpy, memmove, memcmp *)

Fixpoint memset_loop (n : nat) (m : mem) (dst i c : Z) : mem :=
  match n with
  | O => m
  | S n' => memset_loop n' (m.[dst + i <- c]) dst (i + 1) c
  end.

Definition memset (m : mem) (dst c n : Z) : mem := memset_loop (Z.to_nat n) m dst 0 c.

(** The registers of a copy loop. *)
Record copy := Copy { cp_m : mem; cp_d : Z; cp_s : Z; cp_n : Z }.

(** while (n > 0 && (d & 7)) *d++ = *s++, n--; *)
Fixpoint fwd_align (fuel : nat) (c : copy) : copy :=
  match fuel with
  | O => c
  | S fuel' =>
      if (cp_n c >? 0) && negb (Z.land (cp_d c) 7 =? 0)
      then fwd_align fuel' (Copy ((cp_m c).[cp_d c <- cp_m c (cp_s c)]) (cp_d c + 1) (cp_s c + 1) (cp_n c - 1))
      else c
  end.

(** while (n >= 8) *wd++ = *ws++, n -= 8; *)
Fixpoint fwd_words (fuel : nat) (c : copy) : copy :=
  match fuel with
  | O => c
  | S fuel' =>
      if cp_n c >=? 8
      then fwd_words fuel' (Copy (store64 (cp_m c) (cp_d c) (load64 (cp_m c) (cp_s c)))
             (cp_d c + 8) (cp_s c + 8) (cp_n c - 8))
      else c
  end.

(** while (n-- > 0) *d++ = *s++; *)
Fixpoint fwd_bytes (fuel : nat) (c : copy) : copy :=
  match fuel with
  | O => c
  | S fuel' =>
      if cp_n c >? 0
      then fwd_bytes fuel' (Copy ((cp_m c).[cp_d c <- cp_m c (cp_s c)]) (cp_d c + 1) (cp_s c + 1) (cp_n c - 1))
      else c
  end.

Definition copy_fwd (m : mem) (dst src n : Z) : mem :=
  let fuel := Z.to_nat n in
  cp_m (fwd_bytes fuel (fwd_words fuel (fwd_align fuel (Copy m dst src n)))).

Definition memcpy (m : mem) (dst src n : Z) : mem := copy_fwd m dst src n.

Fixpoint bwd_align (fuel : nat) (c : copy) : copy :=
  match fuel with
  | O => c
  | S fuel' =>
      if (cp_n c >? 0) && negb (Z.land (cp_d c) 7 =? 0)
      then bwd_align fuel' (Copy ((cp_m c).[cp_d c - 1 <- cp_m c (cp_s c - 1)]) (cp_d c - 1) (cp_s c - 1) (cp_n c - 1))
      else c
  end.

Fixpoint bwd_words (fuel : nat) (c : copy) : copy :=
  match fuel with
  | O => c
  | S fuel' =>
      if cp_n c >=? 8
      then bwd_words fuel' (Copy (store64 (cp_m c) (cp_d c - 8) (load64 (cp_m c) (cp_s c - 8)))
             (cp_d c - 8) (cp_s c - 8) (cp_n c - 8))
      else c
  end.

Fixpoint bwd_bytes (fuel : nat) (c : copy) : copy :=
  match fuel with
  | O => c
  | S fuel' =>
      if cp_n c >? 0
      then bwd_bytes fuel' (Copy ((cp_m c).[cp_d c - 1 <- cp_m c (cp_s c - 1)]) (cp_d c - 1) (cp_s c - 1) (cp_n c - 1))
      else c
  end.

Definition memmove (m : mem) (dst src n : Z) : mem :=
  if dst =? src then m
  else if dst <? src then copy_fwd m dst src n
  else
    let fuel := Z.to_nat n in
    cp_m (bwd_bytes fuel (bwd_words fuel (bwd_align fuel (Copy m (dst + n) (src + n) n)))).

Fixpoint memcmp_loop (n : nat) (m : mem) (a b : Z) : Z :=
  match n with
  | O => 0
  | S n' =>
      if negb (m a =? m b) then (if m a <? m b then -1 else 1)
      else memcmp_loop n' m (a + 1) (b + 1)
  end.

Definition memcmp (m : mem) (s1 s2 n : Z) : Z := memcmp_loop (Z.to_nat n) m s1 s2.

(** ** Strings *)

(** The counter is a 32-bit [uint]. *)
Fixpoint strlen_loop (fuel : nat) (m : mem) (str len : Z) : option Z :=
  match fuel with
  | O => None
  | S fuel' => if m (str + len) =? 0 then Some len else strlen_loop fuel' m str (u32 (len + 1))
  end.

Definition strlen (fuel : nat) (m : mem) (str : Z) : option Z := strlen_loop fuel m str 0.

(** while (n > 0 && *src != 0) *d++ = *src++, n--; *)
Fixpoint strncpy_copy (fuel : nat) (c : copy) : copy :=
  match fuel with
  | O => c
  | S fuel' =>
      if (cp_n c >? 0) && negb (cp_m c (cp_s c) =? 0)
      then strncpy_copy fuel' (Copy ((cp_m c).[cp_d c <- cp_m c (cp_s c)]) (cp_d c + 1) (cp_s c + 1) (cp_n c - 1))
      else c
  end.

(** while (n > 0) *d++ = 0, n--; *)
Fixpoint strncpy_pad (fuel : nat) (m : mem) (d : Z) : mem :=
  match fuel with
  | O => m
  | S fuel' => strncpy_pad fuel' (m.[d <- 0]) (d + 1)
  end.

Definition strncpy (m : mem) (dst src n : Z) : mem :=
  let c := strncpy_copy (Z.to_nat n) (Copy m dst src n) in
  strncpy_pad (Z.to_nat (cp_n c)) (cp_m c) (cp_d c).

Fixpoint strcmp (fuel : nat) (m : mem) (a b : Z) : option Z :=
  match fuel with
  | O => None
  | S fuel' =>
      if m a =? m b then
        if m a =? 0 then Some 0 else strcmp fuel' m (a + 1) (b + 1)
      else Some (if m a <? m b then -1 else 1)
  end.

Fixpoint strncmp_loop (n : nat) (m : mem) (a b : Z) : Z :=
  match n with
  | O => 0
  | S n' =>
      if negb (m a =? m b) then (if m a <? m b then -1 else 1)
      else if m a =? 0 then 0
      else strncmp_loop n' m (a + 1) (b + 1)
  end.

Definition strncmp (m : mem) (a b n : Z) : Z := strncmp_loop (Z.to_nat n) m a b.

(** ** Specification *)

(** [[dst, dst+n)] of the new memory is [[src, src+n)] of the old one. *)
Definition copied (m m' : mem) (dst src n : Z) : Prop :=
  forall a, m' a = if (dst <=? a) && (a <? dst + n) then m (src + (a - dst)) else m a.

(** The bytes of [l] at [a], NUL-terminated. *)
Fixpoint cstr (m : mem) (a : Z) (l : list Z) : Prop :=
  match l with
  | [] => m a = 0
  | x :: l' => m a = x /\ x <> 0 /\ cstr m (a + 1) l'
  end.

(** Dictionary order of byte strings, as -1, 0 or 1. *)
Fixpoint lex (l1 l2 : list Z) : Z :=
  match l1, l2 with
  | [], [] => 0
  | [], _ :: _ => -1
  | _ :: _, [] => 1
  | x :: l1', y :: l2' => if x =? y then lex l1' l2' else if x <? y then -1 else 1
  end.

(** ** Lemmas: word access *)

Lemma store_le_spec n m a v b :
  store_le n m a v b =
  if (a <=? b) && (b <? a + Z.of_nat n) then v / 256 ^ (b - a) mod 256 else m b.
Proof.
  revert m a v. induction n as [| n IH]; intros m a v; cbn [store_le].
  { destruct (Z.leb_spec a b), (Z.ltb_spec b (a + Z.of_nat 0)); try done; lia. }
  rewrite IH. destruct (decide (b = a)) as [-> | Hne].
  - rewrite upd_eq, Z.sub_diag, Z.pow_0_r, Z.div_1_r.
    destruct (Z.leb_spec (a + 1) a); [lia |]. cbn [andb].
    destruct (Z.leb_spec a a), (Z.ltb_spec a (a + Z.of_nat (S n))); try done; lia.
  - rewrite upd_ne by done.
    destruct (Z.leb_spec (a + 1) b), (Z.ltb_spec b (a + 1 + Z.of_nat n)), (Z.leb_spec a b),
      (Z.ltb_spec b (a + Z.of_nat (S n))); cbn [andb]; try done; try lia.
    rewrite Z.div_div by (try lia; apply Z.pow_pos_nonneg; lia).
    rewrite <- Z.pow_succ_r by lia. do 3 f_equal. lia.
Qed.

Lemma load_le_byte n m a i : mem_wf m -> 0 <= i < Z.of_nat n ->
  load_le n m a / 256 ^ i mod 256 = m (a + i).
Proof.
  intros Hwf. revert a i. induction n as [| n IH]; intros a i Hi; [lia |]. cbn [load_le].
  pose proof (Hwf a). destruct (Z.eq_dec i 0) as [-> | Hne].
  - rewrite Z.pow_0_r, Z.div_1_r, Z.add_0_r. rewrite Z.mul_comm, Z_mod_plus_full. by apply Z.mod_small.
  - replace i with (Z.succ (i - 1)) at 1 by lia. rewrite Z.pow_succ_r by lia.
    rewrite <- Z.div_div by (try lia; apply Z.pow_pos_nonneg; lia).
    rewrite (Z.mul_comm 256 (load_le _ _ _)), Z_div_plus_full by lia. rewrite (Z.div_small (m a)) by lia.
    rewrite Z.add_0_l, IH by lia. f_equal. lia.
Qed.

(** Moving a word moves its eight bytes. *)
Lemma word_copied m d s : mem_wf m -> copied m (store64 m d (load64 m s)) d s 8.
Proof.
  intros Hwf a. unfold store64, load64. rewrite store_le_spec. change (Z.of_nat 8) with 8.
  destruct (Z.leb_spec d a), (Z.ltb_spec a (d + 8)); cbn [andb]; try done.
  apply load_le_byte; [done | lia].
Qed.

Lemma byte_copied m d s : copied m (m.[d <- m s]) d s 1.
Proof.
  intros a. unfold upd. destruct (Z.eqb_spec a d) as [-> | Hne].
  - destruct (Z.leb_spec d d), (Z.ltb_spec d (d + 1)); cbn [andb]; try lia. f_equal. lia.
  - destruct (Z.leb_spec d a), (Z.ltb_spec a (d + 1)); cbn [andb]; try done; lia.
Qed.

Lemma copied_wf m m' d s n : mem_wf m -> copied m m' d s n -> mem_wf m'.
Proof. intros Hwf Hc a. rewrite Hc. destruct (_ && _); apply Hwf. Qed.

Lemma copied_0 m d s : copied m m d s 0.
Proof. intros a. destruct (Z.leb_spec d a), (Z.ltb_spec a (d + 0)); try done; lia. Qed.

(** ** Lemmas: the copy loops *)

(** [k] bytes copied upwards so far, out of [n0]. *)
Definition fwd_at (m0 : mem) (d0 s0 n0 k : Z) (c : copy) : Prop :=
  0 <= k <= n0 /\ cp_d c = d0 + k /\ cp_s c = s0 + k /\ cp_n c = n0 - k /\
  copied m0 (cp_m c) d0 s0 k.

(** Copying upwards never reads a byte it has already overwritten. *)
Definition fwd_safe (d0 s0 n0 : Z) : Prop := d0 <= s0 \/ s0 + n0 <= d0.

Lemma fwd_step m0 d0 s0 n0 k c m' w :
  fwd_safe d0 s0 n0 -> fwd_at m0 d0 s0 n0 k c -> 0 < w -> k + w <= n0 ->
  copied (cp_m c) m' (cp_d c) (cp_s c) w ->
  fwd_at m0 d0 s0 n0 (k + w) (Copy m' (cp_d c + w) (cp_s c + w) (cp_n c - w)).
Proof.
  unfold fwd_safe. intros Hs (Hk & Hd & Hsrc & Hn & Hc) Hw Hle Hstep.
  split; [lia |]. split; [cbn; lia |]. split; [cbn; lia |]. split; [cbn; lia |].
  intros a. cbn [cp_m]. rewrite Hstep, Hd, Hsrc.
  destruct (Z.leb_spec (d0 + k) a), (Z.ltb_spec a (d0 + k + w)); cbn [andb]; rewrite Hc.
  - destruct (Z.leb_spec d0 a), (Z.ltb_spec a (d0 + (k + w))); cbn [andb]; try lia.
    replace (s0 + k + (a - (d0 + k))) with (s0 + (a - d0)) by lia.
    destruct (Z.leb_spec d0 (s0 + (a - d0))), (Z.ltb_spec (s0 + (a - d0)) (d0 + k)); cbn [andb]; try done; lia.
  - destruct (Z.leb_spec d0 a), (Z.ltb_spec a (d0 + k)), (Z.ltb_spec a (d0 + (k + w))); cbn [andb]; try done; lia.
  - destruct (Z.leb_spec d0 a), (Z.ltb_spec a (d0 + k)), (Z.ltb_spec a (d0 + (k + w))); cbn [andb]; try done; lia.
  - lia.
Qed.

Section forward.
Context (m0 : mem) (d0 s0 n0 : Z).
Hypothesis Hwf : mem_wf m0.
Hypothesis Hsafe : fwd_safe d0 s0 n0.

Lemma fwd_align_at fuel c k : fwd_at m0 d0 s0 n0 k c -> exists k', fwd_at m0 d0 s0 n0 k' (fwd_align fuel c).
Proof.
  revert c k. induction fuel as [| fuel IH]; intros c k Hc; cbn [fwd_align]; [by exists k |].
  destruct (_ && _) eqn:E; [| by exists k]. zbool. apply (IH _ (k + 1)).
  apply fwd_step; try done; [destruct Hc as (? & ? & ? & ? & ?); lia | apply byte_copied].
Qed.

Lemma fwd_words_at fuel c k : fwd_at m0 d0 s0 n0 k c -> exists k', fwd_at m0 d0 s0 n0 k' (fwd_words fuel c).
Proof.
  revert c k. induction fuel as [| fuel IH]; intros c k Hc; cbn [fwd_words]; [by exists k |].
  destruct (cp_n c >=? 8) eqn:E; [| by exists k]. zbool. apply (IH _ (k + 8)).
  pose proof Hc as (? & ? & ? & ? & Hcp).
  apply fwd_step; try done; [lia |]. apply word_copied. by eapply copied_wf.
Qed.

Lemma fwd_bytes_at fuel c k : fwd_at m0 d0 s0 n0 k c -> n0 - k <= Z.of_nat fuel ->
  fwd_at m0 d0 s0 n0 n0 (fwd_bytes fuel c).
Proof.
  revert c k. induction fuel as [| fuel IH]; intros c k Hc Hf; cbn [fwd_bytes].
  { pose proof Hc as (? & _). by replace n0 with k at 2 by lia. }
  pose proof Hc as (? & ? & ? & Hn & ?). destruct (cp_n c >? 0) eqn:E; zbool.
  - apply (IH _ (k + 1)); [| lia]. apply fwd_step; try done; [lia | apply byte_copied].
  - by replace n0 with k at 2 by lia.
Qed.

Lemma copy_fwd_copied : 0 <= n0 -> copied m0 (copy_fwd m0 d0 s0 n0) d0 s0 n0.
Proof.
  intros Hn. unfold copy_fwd.
  assert (H0 : fwd_at m0 d0 s0 n0 0 (Copy m0 d0 s0 n0)).
  { unfold fwd_at. cbn. split; [lia |]. split; [lia |]. split; [lia |]. split; [lia | apply copied_0]. }
  destruct (fwd_align_at (Z.to_nat n0) _ _ H0) as [k1 H1].
  destruct (fwd_words_at (Z.to_nat n0) _ _ H1) as [k2 H2].
  pose proof (fwd_bytes_at (Z.to_nat n0) _ _ H2) as H3. apply H3. destruct H2 as (? & _). lia.
Qed.
End forward.

(** [k] bytes copied downwards so far, out of [n0]. *)
Definition bwd_at (m0 : mem) (d0 s0 n0 k : Z) (c : copy) : Prop :=
  0 <= k <= n0 /\ cp_d c = d0 + n0 - k /\ cp_s c = s0 + n0 - k /\ cp_n c = n0 - k /\
  copied m0 (cp_m c) (d0 + n0 - k) (s0 + n0 - k) k.

Lemma bwd_step m0 d0 s0 n0 k c m' w :
  s0 <= d0 -> bwd_at m0 d0 s0 n0 k c -> 0 < w -> k + w <= n0 ->
  copied (cp_m c) m' (cp_d c - w) (cp_s c - w) w ->
  bwd_at m0 d0 s0 n0 (k + w) (Copy m' (cp_d c - w) (cp_s c - w) (cp_n c - w)).
Proof.
  intros Hs (Hk & Hd & Hsrc & Hn & Hc) Hw Hle Hstep.
  split; [lia |]. split; [cbn; lia |]. split; [cbn; lia |]. split; [cbn; lia |].
  intros a. cbn [cp_m]. rewrite Hstep, Hd, Hsrc, !Hc.
  replace (s0 + n0 - k - w + (a - (d0 + n0 - k - w))) with (s0 + (a - d0)) by lia.
  replace (s0 + n0 - (k + w) + (a - (d0 + n0 - (k + w)))) with (s0 + (a - d0)) by lia.
  replace (s0 + n0 - k + (a - (d0 + n0 - k))) with (s0 + (a - d0)) by lia.
  destruct (Z.leb_spec (d0 + n0 - k - w) a), (Z.ltb_spec a (d0 + n0 - k - w + w)),
    (Z.leb_spec (d0 + n0 - k) a), (Z.ltb_spec a (d0 + n0 - k + k)),
    (Z.leb_spec (d0 + n0 - (k + w)) a), (Z.ltb_spec a (d0 + n0 - (k + w) + (k + w))); cbn [andb]; try done; try lia.
  destruct (Z.leb_spec (d0 + n0 - k) (s0 + (a - d0))); [lia | done].
Qed.

Section backward.
Context (m0 : mem) (d0 s0 n0 : Z).
Hypothesis Hwf : mem_wf m0.
Hypothesis Hsafe : s0 <= d0.

Lemma bwd_align_at fuel c k : bwd_at m0 d0 s0 n0 k c -> exists k', bwd_at m0 d0 s0 n0 k' (bwd_align fuel c).
Proof.
  revert c k. induction fuel as [| fuel IH]; intros c k Hc; cbn [bwd_align]; [by exists k |].
  destruct (_ && _) eqn:E; [| by exists k]. zbool. apply (IH _ (k + 1)).
  apply bwd_step; try done; [destruct Hc as (? & ? & ? & ? & ?); lia | apply byte_copied].
Qed.

Lemma bwd_words_at fuel c k : bwd_at m0 d0 s0 n0 k c -> exists k', bwd_at m0 d0 s0 n0 k' (bwd_words fuel c).
Proof.
  revert c k. induction fuel as [| fuel IH]; intros c k Hc; cbn [bwd_words]; [by exists k |].
  destruct (cp_n c >=? 8) eqn:E; [| by exists k]. zbool. apply (IH _ (k + 8)).
  pose proof Hc as (? & ? & ? & ? & Hcp).
  apply bwd_step; try done; [lia |]. apply word_copied. by eapply copied_wf.
Qed.

Lemma bwd_bytes_at fuel c k : bwd_at m0 d0 s0 n0 k c -> n0 - k <= Z.of_nat fuel ->
  bwd_at m0 d0 s0 n0 n0 (bwd_bytes fuel c).
Proof.
  revert c k. induction fuel as [| fuel IH]; intros c k Hc Hf; cbn [bwd_bytes].
  { pose proof Hc as (? & _). by replace n0 with k at 2 by lia. }
  pose proof Hc as (? & ? & ? & Hn & ?). destruct (cp_n c >? 0) eqn:E; zbool.
  - apply (IH _ (k + 1)); [| lia]. apply bwd_step; try done; [lia | apply byte_copied].
  - by replace n0 with k at 2 by lia.
Qed.

Lemma copy_bwd_copied : 0 <= n0 ->
  copied m0 (cp_m (bwd_bytes (Z.to_nat n0) (bwd_words (Z.to_nat n0)
    (bwd_align (Z.to_nat n0) (Copy m0 (d0 + n0) (s0 + n0) n0))))) d0 s0 n0.
Proof.
  intros Hn.
  assert (H0 : bwd_at m0 d0 s0 n0 0 (Copy m0 (d0 + n0) (s0 + n0) n0)).
  { unfold bwd_at. cbn. split; [lia |]. split; [lia |]. split; [lia |]. split; [lia | apply copied_0]. }
  destruct (bwd_align_at (Z.to_nat n0) _ _ H0) as [k1 H1].
  destruct (bwd_words_at (Z.to_nat n0) _ _ H1) as [k2 H2].
  pose proof (bwd_bytes_at (Z.to_nat n0) _ _ H2) as H3.
  destruct H3 as (_ & _ & _ & _ & Hc); [destruct H2 as (? & _); lia |].
  replace (d0 + n0 - n0) with d0 in Hc by lia. by replace (s0 + n0 - n0) with s0 in Hc by lia.
Qed.
End backward.

(** ** Lemmas: fills and strings *)

Lemma memset_loop_spec n m dst i c a :
  memset_loop n m dst i c a = if (dst + i <=? a) && (a <? dst + i + Z.of_nat n) then c else m a.
Proof.
  revert m i. induction n as [| n IH]; intros m i; cbn [memset_loop].
  { destruct (Z.leb_spec (dst + i) a), (Z.ltb_spec a (dst + i + Z.of_nat 0)); try done; lia. }
  rewrite IH. destruct (decide (a = dst + i)) as [-> | Hne].
  - rewrite upd_eq. destruct (Z.leb_spec (dst + (i + 1)) (dst + i)); [lia |]. cbn [andb].
    destruct (Z.leb_spec (dst + i) (dst + i)), (Z.ltb_spec (dst + i) (dst + i + Z.of_nat (S n))); try done; lia.
  - rewrite upd_ne by done.
    destruct (Z.leb_spec (dst + (i + 1)) a), (Z.ltb_spec a (dst + (i + 1) + Z.of_nat n)),
      (Z.leb_spec (dst + i) a), (Z.ltb_spec a (dst + i + Z.of_nat (S n))); cbn [andb]; try done; lia.
Qed.

Lemma strncpy_pad_spec n m d a :
  strncpy_pad n m d a = if (d <=? a) && (a <? d + Z.of_nat n) then 0 else m a.
Proof.
  revert m d. induction n as [| n IH]; intros m d; cbn [strncpy_pad].
  { destruct (Z.leb_spec d a), (Z.ltb_spec a (d + Z.of_nat 0)); try done; lia. }
  rewrite IH. destruct (decide (a = d)) as [-> | Hne].
  - rewrite upd_eq. destruct (Z.leb_spec (d + 1) d); [lia |]. cbn [andb].
    destruct (Z.leb_spec d d), (Z.ltb_spec d (d + Z.of_nat (S n))); try done; lia.
  - rewrite upd_ne by done.
    destruct (Z.leb_spec (d + 1) a), (Z.ltb_spec a (d + 1 + Z.of_nat n)),
      (Z.leb_spec d a), (Z.ltb_spec a (d + Z.of_nat (S n))); cbn [andb]; try done; lia.
Qed.

(** The bytes from [a] on. *)
Fixpoint bytes_at (n : nat) (m : mem) (a : Z) : list Z :=
  match n with
  | O => []
  | S n' => m a :: bytes_at n' m (a + 1)
  end.

Lemma memcmp_loop_lex n m a b : memcmp_loop n m a b = lex (bytes_at n m a) (bytes_at n m b).
Proof.
  revert a b. induction n as [| n IH]; intros a b; cbn [memcmp_loop bytes_at lex]; [done |].
  destruct (m a =? m b); cbn [negb]; [apply IH | done].
Qed.

Lemma lex_0 l1 l2 : lex l1 l2 = 0 <-> l1 = l2.
Proof.
  revert l2. induction l1 as [| x l1 IH]; intros [| y l2]; cbn [lex]; try done.
  destruct (Z.eqb_spec x y) as [-> | Hne].
  - rewrite IH. split; [by intros -> | by intros [= ->]].
  - destruct (x <? y); (split; [done | intros [= ?]; done]).
Qed.

Lemma lex_anti l1 l2 : lex l2 l1 = - lex l1 l2.
Proof.
  revert l2. induction l1 as [| x l1 IH]; intros [| y l2]; cbn [lex]; try done.
  rewrite (Z.eqb_sym y x). destruct (Z.eqb_spec x y); [apply IH |].
  destruct (Z.ltb_spec y x), (Z.ltb_spec x y); try done; lia.
Qed.

Lemma strlen_loop_spec fuel m str l len :
  cstr m (str + len) l -> 0 <= len -> len + Z.of_nat (length l) < 2 ^ 32 -> (length l < fuel)%nat ->
  strlen_loop fuel m str len = Some (len + Z.of_nat (length l)).
Proof.
  revert len fuel. induction l as [| x l IH]; intros len fuel Hc H0 Hlen Hf; destruct fuel as [| fuel];
    cbn [strlen_loop length cstr] in *; try lia.
  - rewrite Hc. cbn. f_equal. lia.
  - destruct Hc as (-> & Hx & Hc). destruct (Z.eqb_spec x 0); [done |]. rewrite u32_small by lia.
    rewrite IH; [f_equal; lia | by replace (str + (len + 1)) with (str + len + 1) by lia | lia..].
Qed.

Lemma cstr_nonneg m a l : mem_wf m -> cstr m a l -> Forall (fun x => 0 < x < 256) l.
Proof.
  intros Hwf. revert a. induction l as [| x l IH]; intros a; cbn [cstr]; [constructor |].
  intros (E & Hx & Hc). constructor; [| by eapply IH]. specialize (Hwf a). lia.
Qed.

Lemma strcmp_lex fuel m a b l1 l2 : mem_wf m -> cstr m a l1 -> cstr m b l2 ->
  (length l1 < fuel)%nat -> strcmp fuel m a b = Some (lex l1 l2).
Proof.
  intros Hwf. revert a b l2 fuel. induction l1 as [| x l1 IH]; intros a b l2 fuel H1 H2 Hf;
    destruct fuel as [| fuel]; cbn [length] in Hf; try lia; cbn [strcmp];
    pose proof (Hwf a); pose proof (Hwf b); destruct l2 as [| y l2]; cbn [cstr lex] in *.
  - rewrite H1, H2. done.
  - destruct H2 as (E & ? & _). rewrite H1 in *. destruct (Z.eqb_spec 0 (m b)); [lia |].
    destruct (Z.ltb_spec 0 (m b)); [done | lia].
  - destruct H1 as (E & ? & _). rewrite H2 in *. destruct (Z.eqb_spec (m a) 0); [lia |].
    destruct (Z.ltb_spec (m a) 0); [lia | done].
  - destruct H1 as (-> & ? & H1), H2 as (-> & ? & H2). destruct (Z.eqb_spec x y) as [-> |]; [| done].
    destruct (Z.eqb_spec y 0); [done |]. by apply IH; try lia.
Qed.

Lemma strncmp_lex n m a b l1 l2 : mem_wf m -> cstr m a l1 -> cstr m b l2 ->
  strncmp_loop n m a b = lex (take n l1) (take n l2).
Proof.
  intros Hwf. revert a b l1 l2. induction n as [| n IH]; intros a b l1 l2 H1 H2; [done |].
  cbn [strncmp_loop]. pose proof (Hwf a). pose proof (Hwf b).
  destruct l1 as [| x l1], l2 as [| y l2]; cbn [cstr take lex] in *.
  - by rewrite H1, H2.
  - destruct H2 as (E & ? & _). rewrite H1 in *. destruct (Z.eqb_spec 0 (m b)); [lia |]. cbn [negb].
    destruct (Z.ltb_spec 0 (m b)); [done | lia].
  - destruct H1 as (E & ? & _). rewrite H2 in *. destruct (Z.eqb_spec (m a) 0); [lia |]. cbn [negb].
    destruct (Z.ltb_spec (m a) 0); [lia | done].
  - destruct H1 as (-> & ? & H1), H2 as (-> & ? & H2). destruct (Z.eqb_spec x y) as [-> |]; cbn [negb]; [| done].
    destruct (Z.eqb_spec y 0); [done | auto].
Qed.

Lemma cstr_upd m a l x v : cstr m a l -> x < a \/ a + Z.of_nat (length l) < x -> cstr (m.[x <- v]) a l.
Proof.
  revert a. induction l as [| y l IH]; intros a; cbn [cstr length].
  - intros H Hx. rewrite upd_ne; [done | lia].
  - intros (H & Hy & Hc) Hx. rewrite upd_ne by lia. split; [done |]. split; [done |].
    apply IH; [done | lia].
Qed.

(** The copying half of strncpy stops at the NUL or at [n] bytes. *)
Lemma strncpy_copy_spec fuel m d s n l (j := Z.min n (Z.of_nat (length l))) :
  fwd_safe d s (Z.of_nat (length l) + 1) -> cstr m s l -> 0 <= n <= Z.of_nat fuel ->
  let c := strncpy_copy fuel (Copy m d s n) in
  cp_n c = n - j /\ cp_d c = d + j /\ copied m (cp_m c) d s j.
Proof.
  subst j. unfold fwd_safe. revert m d s n fuel. induction l as [| x l IH]; intros m d s n fuel Hs Hc Hn;
    cbn [length cstr] in *.
  - replace (Z.min n (Z.of_nat 0)) with 0 by lia.
    destruct fuel as [| fuel]; cbn [strncpy_copy cp_n cp_m cp_s]; [cbn; repeat split; try lia; apply copied_0 |].
    rewrite Hc, andb_false_r. cbn. repeat split; try lia. apply copied_0.
  - destruct Hc as (E & Hx & Hc). destruct (Z.eq_dec n 0) as [-> | Hne].
    { replace (Z.min 0 (Z.of_nat (S (length l)))) with 0 by lia.
      destruct fuel as [| fuel]; cbn; repeat split; try lia; apply copied_0. }
    destruct fuel as [| fuel]; [lia |]. cbn [strncpy_copy cp_n cp_m cp_s cp_d].
    rewrite E. destruct (Z.gtb_spec n 0); [| lia]. destruct (Z.eqb_spec x 0); [done |]. cbn [andb negb].
    destruct (IH (m.[d <- x]) (d + 1) (s + 1) (n - 1) fuel) as (H1 & H2 & H3); [lia | | lia |].
    { apply cstr_upd; [done | lia]. }
    split; [lia |]. split; [lia |]. intros a. rewrite H3. unfold upd.
    destruct (Z.eqb_spec (s + 1 + (a - (d + 1))) d), (Z.eqb_spec a d) as [-> | ?];
    repeat match goal with |- context [(?u <=? ?v) && (?w <? ?z)] =>
      destruct (Z.leb_spec u v), (Z.ltb_spec w z); cbn [andb]; try lia end; try lia;
    try (rewrite <- E; f_equal; lia); try (f_equal; lia).
Qed.

(** ** Theorems *)

(** [memmove] copies [n] bytes also when the ranges overlap, in either
    direction, and writes nothing outside the destination; its word-at-a-time
    loops agree with the byte-by-byte specification. *)
Theorem memmove_copies m dst src n :
  mem_wf m -> 0 <= n -> copied m (memmove m dst src n) dst src n.
Proof.
  intros Hwf Hn. unfold memmove. destruct (Z.eqb_spec dst src) as [-> | Hne].
  - intros a. destruct (_ && _); [f_equal; lia | done].
  - destruct (Z.ltb_spec dst src).
    + apply copy_fwd_copied; [done | left; lia | done].
    + apply copy_bwd_copied; [done | lia | done].
Qed.

(** [memcpy] copies [n] bytes when the ranges are disjoint (or the destination
    is not above the source), and [memset] fills exactly its range. *)
Theorem memcpy_memset_exact m dst src n c :
  mem_wf m -> 0 <= n -> dst <= src \/ src + n <= dst ->
  copied m (memcpy m dst src n) dst src n /\
  forall a, memset m dst c n a = if (dst <=? a) && (a <? dst + n) then c else m a.
Proof.
  intros Hwf Hn Hs. split; [by apply copy_fwd_copied |].
  intros a. unfold memset. rewrite memset_loop_spec. rewrite Z.add_0_r, Z2Nat.id by done. done.
Qed.

(** on NUL-terminated strings shorter than 2^32, [strlen] is the length,
    [strcmp] and [strncmp] are dictionary order on the strings (on their first [n]
    bytes), and [memcmp] is dictionary order on the byte ranges; so each is 0
    exactly on equal arguments. *)
Theorem string_compare_lexicographic m a b l1 l2 n fuel :
  mem_wf m -> cstr m a l1 -> cstr m b l2 -> Z.of_nat (length l1) < 2 ^ 32 -> (length l1 < fuel)%nat ->
  strlen fuel m a = Some (Z.of_nat (length l1)) /\
  strcmp fuel m a b = Some (lex l1 l2) /\
  strncmp m a b n = lex (take (Z.to_nat n) l1) (take (Z.to_nat n) l2) /\
  memcmp m a b n = lex (bytes_at (Z.to_nat n) m a) (bytes_at (Z.to_nat n) m b) /\
  (lex l1 l2 = 0 <-> l1 = l2) /\ lex l2 l1 = - lex l1 l2.
Proof.
  intros Hwf H1 H2 Hlen Hf. split; [| split; [| split; [| split; [| split]]]].
  - apply (strlen_loop_spec fuel m a l1 0); [by rewrite Z.add_0_r | lia | lia | done].
  - by apply strcmp_lex.
  - by apply strncmp_lex.
  - apply memcmp_loop_lex.
  - apply lex_0.
  - apply lex_anti.
Qed.

(** [strncpy] writes exactly [[dst, dst+n)]: the string's first bytes, then
    zeros; so the result is NUL-terminated exactly when [n] exceeds the length. *)
Theorem strncpy_exact m dst src n l :
  cstr m src l -> 0 <= n -> dst <= src \/ src + Z.of_nat (length l) + 1 <= dst ->
  forall a, strncpy m dst src n a =
    if (dst <=? a) && (a <? dst + n)
    then (if a <? dst + Z.of_nat (length l) then m (src + (a - dst)) else 0)
    else m a.
Proof.
  intros Hc Hn Hs a. unfold strncpy.
  destruct (strncpy_copy_spec (Z.to_nat n) m dst src n l) as (H1 & H2 & H3); [unfold fwd_safe; lia | done | lia |].
  rewrite strncpy_pad_spec, H1, H2, Z2Nat.id by lia. rewrite H3.
  repeat match goal with |- context [(?u <=? ?v) && (?w <? ?z)] =>
      destruct (Z.leb_spec u v), (Z.ltb_spec w z); cbn [andb]; try lia end; try done;
  destruct (Z.ltb_spec a (dst + Z.of_nat (length l))), (Z.ltb_spec a (dst + n)); try done; lia.
Qed.

(** ** Witnesses *)

(** "abc" at 100, "abd" at 200. *)
Definition strings : mem :=
  fun a => if a =? 100 then 97 else if a =? 101 then 98 else if a =? 102 then 99
           else if a =? 200 then 97 else if a =? 201 then 98 else if a =? 202 then 100 else 0.

Lemma strings_wf : mem_wf strings.
Proof. intros a. unfold strings. repeat case_match; lia. Qed.

Lemma memmove_copies_witness : memmove strings 101 100 3 103 = 99 /\ copied strings (memmove strings 101 100 3) 101 100 3.
Proof.
  split; [vm_compute; reflexivity |]. apply (memmove_copies strings 101 100 3 strings_wf). lia.
Defined.

Lemma memcpy_memset_exact_witness : copied strings (memcpy strings 300 100 17) 300 100 17.
Proof. apply (memcpy_memset_exact strings 300 100 17 0 strings_wf); [lia | right; lia]. Defined.

Lemma string_compare_lexicographic_witness : strcmp 10 strings 100 200 = Some (-1).
Proof.
  destruct (string_compare_lexicographic strings 100 200 [97; 98; 99] [97; 98; 100] 2 10 strings_wf)
    as (_ & H & _).
  - vm_compute. repeat split; discriminate.
  - vm_compute. repeat split; discriminate.
  - reflexivity.
  - cbn. lia.
  - rewrite H. reflexivity.
Defined.

Lemma strncpy_exact_witness : strncpy strings 200 100 5 202 = 99 /\ strncpy strings 200 100 5 203 = 0.
Proof.
  pose proof (strncpy_exact strings 200 100 5 [97; 98; 99] ltac:(vm_compute; repeat split; discriminate)
    ltac:(lia) ltac:(right; vm_compute; discriminate)) as H.
  rewrite !H. split; reflexivity.
Defined.
