(* ===== verification/Fmt.v ===== *)
(** * Kernel string formatting

    Models libkern/fmt.c. The output buffer is a byte map indexed from [buf]; the
    write position [o_str] counts all characters emitted, as the C pointer does, and
    a store happens only below [size]. The format and the strings passed for %s are
    read from a memory [ro] the buffer does not overlap. A va_list is the list of
    its 64-bit slots; reading past its end, undefined in C, yields 0 here.

    The loops over the format and over %s strings run to a NUL in [ro], so they take
    fuel and return None when it runs out. *)

From S2P Require Import Prelude Str.

Definition FMT_ALT : Z := 1.
Definition FMT_ZERO : Z := 2.
Definition FMT_LONG : Z := 4.

Record fmt_spec := Spec { fs_base : Z; fs_flags : Z; fs_width : Z }.

(** static const char digits[] = "0123456789abcdef" *)
Definition digits (d : Z) : Z := if d <? 10 then 48 + d else 87 + d.

Definition has (spec : fmt_spec) (f : Z) : bool := negb (Z.land (fs_flags spec) f =? 0).

(** ** Emission *)

Record out := Out { o_buf : mem; o_str : Z }.

Definition emit_char (e : Z) (o : out) (c : Z) : out :=
  Out (if o_str o <? e then (o_buf o).[o_str o <- u8 c] else o_buf o) (o_str o + 1).

Fixpoint emit_str (fuel : nat) (e : Z) (ro : mem) (o : out) (s : Z) : option out :=
  match fuel with
  | O => None
  | S fuel' => if ro s =? 0 then Some o else emit_str fuel' e ro (emit_char e o (ro s)) (s + 1)
  end.

(** while (pad-- > 0) emit c *)
Fixpoint emit_pad (n : nat) (e : Z) (o : out) (c : Z) : out :=
  match n with
  | O => o
  | S n' => emit_pad n' e (emit_char e o c) c
  end.

(** do tmp[n++] = digits[v % base] while (n < sizeof(tmp) && (v /= base) != 0):
    the stored digits, least significant first; [room] is what tmp has left. *)
Fixpoint num_digits (room : nat) (v base : Z) : list Z :=
  match room with
  | O => []
  | S room' =>
      digits (v mod base) :: (if v / base =? 0 then [] else num_digits room' (v / base) base)
  end.

Definition sizeof_tmp : nat := 32.

(** Emit an array from index 0 up, and [tmp] from its last stored index down. *)
Fixpoint emit_all (e : Z) (o : out) (l : list Z) : out :=
  match l with
  | [] => o
  | c :: l' => emit_all e (emit_char e o c) l'
  end.

Definition prefix (neg : bool) (spec : fmt_spec) : list Z :=
  if neg then [45]
  else if has spec FMT_ALT then 48 :: (if fs_base spec =? 16 then [120] else [])
  else [].

Definition emit_num (e : Z) (o : out) (v : Z) (neg : bool) (spec : fmt_spec) : out :=
  let tmp := num_digits sizeof_tmp v (fs_base spec) in
  let pfx := prefix neg spec in
  let pad := fs_width spec - Z.of_nat (length tmp) - Z.of_nat (length pfx) in
  let o := if has spec FMT_ZERO then o else emit_pad (Z.to_nat pad) e o 32 in
  let o := emit_all e o pfx in
  let o := if has spec FMT_ZERO then emit_pad (Z.to_nat pad) e o 48 else o in
  emit_all e o (rev tmp).

(** ** Decoding *)

Fixpoint decode_flags (fuel : nat) (ro : mem) (fmt flags : Z) : option (Z * Z) :=
  match fuel with
  | O => None
  | S fuel' =>
      let c := ro fmt in
      if c =? 35 then decode_flags fuel' ro (fmt + 1) (Z.lor flags FMT_ALT)
      else if c =? 48 then decode_flags fuel' ro (fmt + 1) (Z.lor flags FMT_ZERO)
      else Some (fmt, flags)
  end.

(** The width is an int16. *)
Fixpoint decode_width (fuel : nat) (ro : mem) (fmt width : Z) : option (Z * Z) :=
  match fuel with
  | O => None
  | S fuel' =>
      let c := ro fmt in
      if (c >=? 49) && (c <=? 57) then decode_width fuel' ro (fmt + 1) (s16 (width * 10 + (c - 48)))
      else Some (fmt, width)
  end.

Definition decode (fuel : nat) (ro : mem) (fmt : Z) : option (Z * fmt_spec) :=
  r1 ← decode_flags fuel ro fmt 0;
  r2 ← decode_width fuel ro r1.1 0;
  Some (if ro r2.1 =? 108 then (r2.1 + 1, Spec 10 (Z.lor r1.2 FMT_LONG) r2.2)
        else (r2.1, Spec 10 r1.2 r2.2)).

(** ** vsnprintf *)

Definition va_arg (ap : list Z) : Z * list Z :=
  match ap with [] => (0, []) | x :: ap' => (x, ap') end.

(** "(null)" *)
Definition null_str : list Z := [40; 110; 117; 108; 108; 41].

(** The [switch (c)] after a decoded specification. *)
Definition convert (fuel : nat) (e : Z) (ro : mem) (o : out) (ap : list Z) (spec : fmt_spec) (c : Z)
    : option (out * list Z) :=
  let '(x, ap') := va_arg ap in
  if c =? 100 then
    let sv := if has spec FMT_LONG then s64 x else s32 x in
    let neg := sv <? 0 in
    Some (emit_num e o (if neg then u64 (- sv) else u64 sv) neg spec, ap')
  else if (c =? 120) || (c =? 111) || (c =? 117) then
    let base := if c =? 120 then 16 else if c =? 111 then 8 else fs_base spec in
    let v := if has spec FMT_LONG then u64 x else u32 x in
    Some (emit_num e o v false (Spec base (fs_flags spec) (fs_width spec)), ap')
  else if c =? 112 then
    let flags := Z.lor (fs_flags spec) (Z.lor FMT_ALT FMT_ZERO) in
    Some (emit_num e o (u64 x) false (Spec 16 flags 18), ap')
  else if c =? 115 then
    if x =? 0 then Some (emit_all e o null_str, ap')
    else o' ← emit_str fuel e ro o x; Some (o', ap')
  else if c =? 99 then Some (emit_char e o (s32 x), ap')
  else if c =? 37 then Some (emit_char e o 37, ap)
  else Some (emit_char e (emit_char e o 37) c, ap).

Fixpoint vsnprintf_loop (n fuel : nat) (e : Z) (ro : mem) (o : out) (fmt : Z) (ap : list Z) : option out :=
  match n with
  | O => None
  | S n' =>
      let c := ro fmt in
      if c =? 0 then Some o
      else if negb (c =? 37) then vsnprintf_loop n' fuel e ro (emit_char e o c) (fmt + 1) ap
      else
        d ← decode fuel ro (fmt + 1);
        r ← convert fuel e ro o ap d.2 (ro d.1);
        vsnprintf_loop n' fuel e ro r.1 (d.1 + 1) r.2
  end.

Definition vsnprintf (fuel : nat) (ro buf : mem) (size fmt : Z) (ap : list Z) : option (mem * Z) :=
  o ← vsnprintf_loop fuel fuel size ro (Out buf 0) fmt ap;
  let buf' :=
    if size >? 0 then (o_buf o).[(if o_str o <? size then o_str o else size - 1) <- 0] else o_buf o in
  Some (buf', s32 (o_str o)).

Definition snprintf (fuel : nat) (ro buf : mem) (size fmt : Z) (args : list Z) : option (mem * Z) :=
  vsnprintf fuel ro buf size fmt args.

(** ** Specification: parse the whole format, then render each piece as text *)

Inductive tok :=
| TLit (c : Z)
| TConv (spec : fmt_spec) (c : Z).

Fixpoint parse_fmt (n fuel : nat) (ro : mem) (fmt : Z) : option (list tok) :=
  match n with
  | O => None
  | S n' =>
      if ro fmt =? 0 then Some []
      else if ro fmt =? 37 then
        d ← decode fuel ro (fmt + 1); l ← parse_fmt n' fuel ro (d.1 + 1); Some (TConv d.2 (ro d.1) :: l)
      else l ← parse_fmt n' fuel ro (fmt + 1); Some (TLit (ro fmt) :: l)
  end.

(** A number as printf(3) has it: spaces, sign or prefix, zeros, digits. *)
Definition num_text (v : Z) (neg : bool) (spec : fmt_spec) : list Z :=
  let body := rev (num_digits sizeof_tmp v (fs_base spec)) in
  let pfx := prefix neg spec in
  let fill := Z.to_nat (fs_width spec - Z.of_nat (length body) - Z.of_nat (length pfx)) in
  if has spec FMT_ZERO then pfx ++ replicate fill 48 ++ body
  else replicate fill 32 ++ pfx ++ body.

(** The text of a NUL-terminated string. *)
Fixpoint string_text (fuel : nat) (ro : mem) (s : Z) : option (list Z) :=
  match fuel with
  | O => None
  | S fuel' => if ro s =? 0 then Some [] else l ← string_text fuel' ro (s + 1); Some (ro s :: l)
  end.

Definition conv_text (fuel : nat) (ro : mem) (spec : fmt_spec) (c x : Z) : option (list Z) :=
  if c =? 100 then
    let sv := if has spec FMT_LONG then s64 x else s32 x in
    Some (num_text (Z.abs sv) (sv <? 0) spec)
  else if c =? 120 then Some (num_text (if has spec FMT_LONG then u64 x else u32 x) false (Spec 16 (fs_flags spec) (fs_width spec)))
  else if c =? 111 then Some (num_text (if has spec FMT_LONG then u64 x else u32 x) false (Spec 8 (fs_flags spec) (fs_width spec)))
  else if c =? 117 then Some (num_text (if has spec FMT_LONG then u64 x else u32 x) false spec)
  else if c =? 112 then Some (num_text (u64 x) false (Spec 16 (Z.lor (fs_flags spec) (Z.lor FMT_ALT FMT_ZERO)) 18))
  else if c =? 115 then if x =? 0 then Some null_str else string_text fuel ro x
  else if c =? 99 then Some [s32 x]
  else if c =? 37 then Some [37]
  else Some [37; c].

Definition takes_arg (c : Z) : bool :=
  (c =? 100) || (c =? 120) || (c =? 111) || (c =? 117) || (c =? 112) || (c =? 115) || (c =? 99).

Fixpoint render (fuel : nat) (ro : mem) (l : list tok) (ap : list Z) : option (list Z) :=
  match l with
  | [] => Some []
  | TLit c :: l' => t ← render fuel ro l' ap; Some (c :: t)
  | TConv spec c :: l' =>
      t1 ← conv_text fuel ro spec c (va_arg ap).1;
      t2 ← render fuel ro l' (if takes_arg c then (va_arg ap).2 else ap);
      Some (t1 ++ t2)
  end.

(** ** Lemmas: emission *)

(** [o] holds the text [t]: all of it counted, what fits below [e] stored. *)
Definition placed (e : Z) (buf0 : mem) (o : out) (t : list Z) : Prop :=
  o_str o = Z.of_nat (length t) /\
  forall i, o_buf o i =
    if (0 <=? i) && (i <? Z.min e (Z.of_nat (length t))) then u8 (nth (Z.to_nat i) t 0) else buf0 i.

Section emit.
Context (e : Z) (buf0 : mem).

Lemma emit_char_placed o t c : placed e buf0 o t -> placed e buf0 (emit_char e o c) (t ++ [c]).
Proof.
  intros [Hs Hb]. unfold emit_char. split; cbn [o_str o_buf]; [rewrite length_app; cbn; lia |].
  intros i. rewrite length_app. cbn [length]. rewrite Hs in *.
  assert (Hold : forall i, 0 <= i < Z.of_nat (length t) -> nth (Z.to_nat i) (t ++ [c]) 0 = nth (Z.to_nat i) t 0)
    by (intros; apply app_nth1; lia).
  destruct (Z.ltb_spec (Z.of_nat (length t)) e).
  - destruct (decide (i = Z.of_nat (length t))) as [-> | Hne].
    + rewrite upd_eq, Nat2Z.id, app_nth2, Nat.sub_diag by lia.
      destruct (Z.leb_spec 0 (Z.of_nat (length t))), (Z.ltb_spec (Z.of_nat (length t)) (Z.min e (Z.of_nat (length t + 1))));
        cbn [andb nth]; try done; lia.
    + rewrite upd_ne, Hb by done.
      destruct (Z.leb_spec 0 i), (Z.ltb_spec i (Z.min e (Z.of_nat (length t)))),
        (Z.ltb_spec i (Z.min e (Z.of_nat (length t + 1)))); cbn [andb]; try done; try lia.
      by rewrite Hold by lia.
  - rewrite Hb. destruct (Z.leb_spec 0 i), (Z.ltb_spec i (Z.min e (Z.of_nat (length t)))),
      (Z.ltb_spec i (Z.min e (Z.of_nat (length t + 1)))); cbn [andb]; try done; try lia.
    by rewrite Hold by lia.
Qed.

Lemma emit_all_placed l o t : placed e buf0 o t -> placed e buf0 (emit_all e o l) (t ++ l).
Proof.
  revert o t. induction l as [| c l IH]; intros o t H; cbn [emit_all]; [by rewrite app_nil_r |].
  replace (t ++ c :: l) with ((t ++ [c]) ++ l) by (by rewrite <- app_assoc).
  by apply IH, emit_char_placed.
Qed.

Lemma emit_pad_all n o c : emit_pad n e o c = emit_all e o (replicate n c).
Proof. revert o. induction n as [| n IH]; intros o; cbn; [done | apply IH]. Qed.

Lemma emit_str_placed fuel ro s l o t : string_text fuel ro s = Some l -> placed e buf0 o t ->
  exists o', emit_str fuel e ro o s = Some o' /\ placed e buf0 o' (t ++ l).
Proof.
  revert s l o t. induction fuel as [| fuel IH]; intros s l o t; cbn [string_text emit_str]; [done |].
  destruct (ro s =? 0).
  - intros [= <-] H. exists o. by rewrite app_nil_r.
  - destruct (string_text fuel ro (s + 1)) as [l' |] eqn:E; [| done]. intros [= <-] H.
    destruct (IH _ _ (emit_char e o (ro s)) (t ++ [ro s]) E) as (o' & ? & Hp); [by apply emit_char_placed |].
    exists o'. split; [done |]. by rewrite <- app_assoc in Hp.
Qed.

Lemma emit_num_placed v neg spec o t : placed e buf0 o t ->
  placed e buf0 (emit_num e o v neg spec) (t ++ num_text v neg spec).
Proof.
  intros H. unfold emit_num, num_text. rewrite length_rev, !emit_pad_all.
  set (body := num_digits _ _ _). set (fill := Z.to_nat _).
  destruct (has spec FMT_ZERO); rewrite !app_assoc; by repeat apply emit_all_placed.
Qed.

Lemma convert_placed fuel ro spec c ap u o t :
  conv_text fuel ro spec c (va_arg ap).1 = Some u -> placed e buf0 o t ->
  exists o', convert fuel e ro o ap spec c = Some (o', if takes_arg c then (va_arg ap).2 else ap) /\
    placed e buf0 o' (t ++ u).
Proof.
  intros Hu H. unfold conv_text, convert, takes_arg in *. destruct (va_arg ap) as [x ap']. cbn [fst snd] in *.
  assert (Habs : forall sv, - 2 ^ 63 <= sv < 2 ^ 63 -> (if sv <? 0 then u64 (- sv) else u64 sv) = Z.abs sv).
  { intros sv Hsv. destruct (Z.ltb_spec sv 0); rewrite u64_small by lia; lia. }
  destruct (c =? 100); cbn [orb].
  { injection Hu as <-. rewrite Habs by (unfold s64, s32; destruct (has _ _); words).
    eexists. split; [reflexivity | by apply emit_num_placed]. }
  destruct (Z.eqb_spec c 120) as [-> |]; cbn [orb Z.eqb Pos.eqb].
  { injection Hu as <-. eexists. split; [reflexivity | by apply emit_num_placed]. }
  destruct (Z.eqb_spec c 111) as [-> |]; cbn [orb Z.eqb Pos.eqb].
  { injection Hu as <-. eexists. split; [reflexivity | by apply emit_num_placed]. }
  destruct (Z.eqb_spec c 117) as [-> |]; cbn [orb].
  { injection Hu as <-. eexists. split; [reflexivity |]. destruct spec. by apply emit_num_placed. }
  destruct (c =? 112); cbn [orb].
  { injection Hu as <-. eexists. split; [reflexivity | by apply emit_num_placed]. }
  destruct (c =? 115); cbn [orb].
  { destruct (x =? 0).
    - injection Hu as <-. eexists. split; [reflexivity | by apply emit_all_placed].
    - destruct (emit_str_placed fuel ro x u o t Hu H) as (o' & -> & Hp). eexists. split; [reflexivity | done]. }
  destruct (c =? 99); cbn [orb].
  { injection Hu as <-. eexists. split; [reflexivity | by apply emit_char_placed]. }
  destruct (c =? 37); injection Hu as <-; (eexists; split; [reflexivity |]).
  - by apply emit_char_placed.
  - exact (emit_all_placed [37; c] o t H).
Qed.

Lemma vsnprintf_loop_placed n fuel ro fmt ap toks u o t :
  parse_fmt n fuel ro fmt = Some toks -> render fuel ro toks ap = Some u -> placed e buf0 o t ->
  exists o', vsnprintf_loop n fuel e ro o fmt ap = Some o' /\ placed e buf0 o' (t ++ u).
Proof.
  revert fmt ap toks u o t. induction n as [| n IH]; intros fmt ap toks u o t; cbn [parse_fmt vsnprintf_loop]; [done |].
  destruct (ro fmt =? 0).
  { intros [= <-] [= <-] H. exists o. by rewrite app_nil_r. }
  destruct (ro fmt =? 37); cbn [negb].
  - destruct (decode fuel ro (fmt + 1)) as [[fmt' spec] |]; [| done]. cbn [mbind option_bind fst snd].
    destruct (parse_fmt n fuel ro (fmt' + 1)) as [l |] eqn:El; [| done]. intros [= <-]. cbn [render].
    destruct (conv_text _ _ _ _ _) as [u1 |] eqn:Eu; [| done]. cbn [mbind option_bind].
    destruct (render _ _ l _) as [u2 |] eqn:Er; [| done]. intros [= <-] H.
    destruct (convert_placed fuel ro spec (ro fmt') ap u1 o t Eu H) as (o1 & -> & Hp). cbn [mbind option_bind fst snd].
    rewrite app_assoc. by eapply IH.
  - destruct (parse_fmt n fuel ro (fmt + 1)) as [l |] eqn:El; [| done]. intros [= <-]. cbn [render].
    destruct (render fuel ro l ap) as [u2 |] eqn:Er; [| done]. intros [= <-] H.
    replace (t ++ ro fmt :: u2) with ((t ++ [ro fmt]) ++ u2) by (by rewrite <- app_assoc).
    eapply IH; [done | done | by apply emit_char_placed].
Qed.
End emit.

(** ** Lemmas: numbers *)

Definition digit_val (c : Z) : Z := if c <? 58 then c - 48 else c - 87.

(** Reading a numeral, most significant digit first. *)
Definition numeral (base : Z) (l : list Z) : Z := fold_left (fun acc c => acc * base + digit_val c) l 0.

Lemma digit_val_digits d : 0 <= d < 16 -> digit_val (digits d) = d.
Proof.
  intros Hd. unfold digit_val, digits. destruct (Z.ltb_spec d 10).
  - destruct (Z.ltb_spec (48 + d) 58); lia.
  - destruct (Z.ltb_spec (87 + d) 58); lia.
Qed.

Lemma numeral_snoc base l c : numeral base (l ++ [c]) = numeral base l * base + digit_val c.
Proof. unfold numeral. by rewrite fold_left_app. Qed.

Lemma num_digits_value room v base : 2 <= base <= 16 -> 0 <= v < base ^ Z.of_nat room ->
  numeral base (rev (num_digits room v base)) = v.
Proof.
  intros Hb. revert v. induction room as [| room IH]; intros v Hv; cbn [num_digits].
  { rewrite Nat2Z.inj_0, Z.pow_0_r in Hv. cbn. lia. }
  cbn [rev]. rewrite numeral_snoc.
  assert (0 <= v mod base < base) by (apply Z.mod_pos_bound; lia).
  rewrite digit_val_digits by lia. pose proof (Z.div_mod v base ltac:(lia)).
  destruct (Z.eqb_spec (v / base) 0) as [E | E].
  - cbn. lia.
  - rewrite IH; [lia |]. rewrite Nat2Z.inj_succ, Z.pow_succ_r in Hv by lia.
    split; [apply Z.div_pos; lia |]. apply Z.div_lt_upper_bound; lia.
Qed.

Lemma num_digits_length room v base k : 2 <= base -> 0 <= v < base ^ Z.of_nat k -> (0 < k)%nat ->
  (length (num_digits room v base) <= k)%nat.
Proof.
  intros Hb. revert v k. induction room as [| room IH]; intros v k Hv Hk; cbn [num_digits length]; [lia |].
  destruct (Z.eqb_spec (v / base) 0) as [E | E]; cbn [length]; [lia |].
  destruct k as [| k]; [lia |]. rewrite Nat2Z.inj_succ, Z.pow_succ_r in Hv by lia.
  assert (0 <= v / base < base ^ Z.of_nat k).
  { split; [apply Z.div_pos; lia | apply Z.div_lt_upper_bound; lia]. }
  destruct k as [| k]; [rewrite Nat2Z.inj_0, Z.pow_0_r in H; lia |].
  specialize (IH (v / base) (S k) ltac:(done) ltac:(lia)). lia.
Qed.

(** The most significant digit is not zero, unless the number is. *)
Lemma num_digits_lead room v base c : 2 <= base <= 16 -> 0 < v < base ^ Z.of_nat room ->
  last (num_digits room v base) = Some c -> c <> 48.
Proof.
  intros Hb. revert v. induction room as [| room IH]; intros v Hv; cbn [num_digits]; [done |].
  pose proof (Z.div_mod v base ltac:(lia)). assert (0 <= v mod base < base) by (apply Z.mod_pos_bound; lia).
  destruct (Z.eqb_spec (v / base) 0) as [E | E].
  - intros [= <-]. unfold digits. destruct (Z.ltb_spec (v mod base) 10); lia.
  - assert (Hq : 0 < v / base < base ^ Z.of_nat room).
    { rewrite Nat2Z.inj_succ, Z.pow_succ_r in Hv by lia. pose proof (Z.div_pos v base).
      split; [lia | apply Z.div_lt_upper_bound; lia]. }
    specialize (IH (v / base) Hq). destruct (num_digits room (v / base) base) eqn:En; [| exact IH].
    destruct room; cbn in En; [rewrite Nat2Z.inj_0, Z.pow_0_r in Hq; lia | done].
Qed.

Lemma vsnprintf_render fuel ro buf size fmt ap toks text :
  parse_fmt fuel fuel ro fmt = Some toks -> render fuel ro toks ap = Some text ->
  0 <= size -> Z.of_nat (length text) < 2 ^ 31 ->
  exists buf', vsnprintf fuel ro buf size fmt ap = Some (buf', Z.of_nat (length text)) /\
    forall i, buf' i =
      if (0 <=? i) && (i <? size) then
        if i <? Z.min (size - 1) (Z.of_nat (length text)) then u8 (nth (Z.to_nat i) text 0)
        else if i =? Z.min (size - 1) (Z.of_nat (length text)) then 0 else buf i
      else buf i.
Proof.
  intros Hp Hr Hsz Hlen. unfold vsnprintf.
  assert (H0 : placed size buf (Out buf 0) []).
  { split; [done |]. intros i. cbn [o_buf length].
    destruct (Z.leb_spec 0 i), (Z.ltb_spec i (Z.min size (Z.of_nat 0))); try done; lia. }
  destruct (vsnprintf_loop_placed size buf fuel fuel ro fmt ap toks text _ [] Hp Hr H0) as (o & -> & Hs & Hb).
  cbn [mbind option_bind app] in *. rewrite Hs.
  replace (s32 (Z.of_nat (length text))) with (Z.of_nat (length text)) by (unfold s32; words).
  eexists. split; [reflexivity |]. intros i.
  set (n := Z.of_nat (length text)) in *. assert (0 <= n) by (unfold n; lia).
  destruct (Z.gtb_spec size 0) as [Hpos | Hz].
  - replace (if n <? size then n else size - 1) with (Z.min (size - 1) n) by (destruct (Z.ltb_spec n size); lia).
    destruct (decide (i = Z.min (size - 1) n)) as [-> | Hne].
    + rewrite upd_eq, Z.ltb_irrefl, Z.eqb_refl.
      destruct (Z.leb_spec 0 (Z.min (size - 1) n)), (Z.ltb_spec (Z.min (size - 1) n) size); try done; lia.
    + rewrite upd_ne, Hb by done. rewrite (proj2 (Z.eqb_neq _ _) Hne).
      destruct (Z.leb_spec 0 i), (Z.ltb_spec i size), (Z.ltb_spec i (Z.min size n)),
        (Z.ltb_spec i (Z.min (size - 1) n)); cbn [andb]; try done; lia.
  - rewrite Hb. destruct (Z.leb_spec 0 i), (Z.ltb_spec i size), (Z.ltb_spec i (Z.min size n)); cbn [andb]; try done; lia.
Qed.

(** ** Theorems *)

(** whenever the format parses and its strings end, [vsnprintf] returns; with
    [text] the rendered output it stores exactly the bytes of [text] that fit in
    [size - 1], then a NUL (when [size] is not 0), nothing outside [buf, buf+size),
    and returns the length of the whole text. *)
Theorem vsnprintf_bounded_render fuel ro buf size fmt ap toks text :
  parse_fmt fuel fuel ro fmt = Some toks -> render fuel ro toks ap = Some text ->
  0 <= size -> Z.of_nat (length text) < 2 ^ 31 ->
  exists buf', vsnprintf fuel ro buf size fmt ap = Some (buf', Z.of_nat (length text)) /\
    forall i, buf' i =
      if (0 <=? i) && (i <? size) then
        if i <? Z.min (size - 1) (Z.of_nat (length text)) then u8 (nth (Z.to_nat i) text 0)
        else if i =? Z.min (size - 1) (Z.of_nat (length text)) then 0 else buf i
      else buf i.
Proof. apply vsnprintf_render. Qed.

(** the text of a number: its digits read back as the number, there are at
    most 22 of them (so the 32-byte scratch array is never filled), none is a
    leading zero, and the field is as wide as asked for and no wider than needed. *)
Theorem fmt_number_roundtrip v neg spec :
  0 <= v < 2 ^ 64 -> fs_base spec = 8 \/ fs_base spec = 10 \/ fs_base spec = 16 ->
  let body := rev (num_digits sizeof_tmp v (fs_base spec)) in
  numeral (fs_base spec) body = v /\ (length body <= 22)%nat /\
  (0 < v -> head body <> Some 48) /\
  (exists pre, num_text v neg spec = pre ++ body) /\
  Z.of_nat (length (num_text v neg spec)) =
    Z.max (fs_width spec) (Z.of_nat (length (prefix neg spec ++ body))).
Proof.
  intros Hv Hb. cbn zeta. set (base := fs_base spec) in *.
  assert (Hbase : 8 <= base <= 16) by lia.
  assert (Hpow : v < base ^ Z.of_nat sizeof_tmp).
  { assert (8 ^ Z.of_nat sizeof_tmp <= base ^ Z.of_nat sizeof_tmp) by (apply Z.pow_le_mono_l; lia).
    change (8 ^ Z.of_nat sizeof_tmp) with 79228162514264337593543950336 in *. lia. }
  split; [apply num_digits_value; lia |]. split; [| split; [| split]].
  - rewrite length_rev. apply num_digits_length; [lia | | lia]. split; [lia |].
    assert (8 ^ Z.of_nat 22 <= base ^ Z.of_nat 22) by (apply Z.pow_le_mono_l; lia).
    change (8 ^ Z.of_nat 22) with 73786976294838206464 in *. lia.
  - intros Hpos E. apply (num_digits_lead sizeof_tmp v base 48); [lia | lia | | done].
    destruct (num_digits sizeof_tmp v base) as [| x l] using rev_ind; [done |].
    rewrite rev_app_distr in E. cbn in E. rewrite last_snoc. done.
  - unfold num_text. destruct (has spec FMT_ZERO); [eexists (_ ++ _) | eexists (_ ++ _)]; by rewrite <- app_assoc.
  - unfold num_text. fold base. destruct (has spec FMT_ZERO);
      rewrite !length_app, length_replicate; lia.
Qed.

Lemma decode_10 fuel ro a : ro a = 49 -> ro (a + 1) = 48 ->
  decode (S (S fuel)) ro a = Some (a + 1, Spec 10 0 1).
Proof.
  intros H1 H2. unfold decode. cbn [decode_flags]. rewrite H1. cbn [Z.eqb Pos.eqb mbind option_bind fst snd].
  cbn [decode_width]. rewrite H1, H2. cbn -[Z.add]. by rewrite H2.
Qed.

(** the width is read digit by digit from '1'..'9' only, so a width containing
    a zero is cut there: "%10d" prints "%0d" and takes no argument. *)
Theorem fmt_width_zero_misparsed fuel ro fmt ap :
  (4 < fuel)%nat -> cstr ro fmt [37; 49; 48; 100] ->
  exists toks, parse_fmt fuel fuel ro fmt = Some toks /\
    render fuel ro toks ap = Some [37; 48; 100].
Proof.
  intros Hf (H0 & _ & H1 & _ & H2 & _ & H3 & _ & H4).
  destruct fuel as [| [| [| [| fuel]]]]; [lia.. |].
  eexists. split.
  - cbn [parse_fmt]. rewrite H0. cbn [Z.eqb Pos.eqb]. rewrite decode_10 by done.
    cbn [mbind option_bind fst snd]. rewrite H2, H3. cbn [Z.eqb Pos.eqb]. rewrite H4. reflexivity.
  - reflexivity.
Qed.

(** ** Witnesses *)

(** "v=%d%%" at 0 *)
Definition fmt_vd : mem :=
  fun a => nth (Z.to_nat a) [118; 61; 37; 100; 37; 37] 0.

Lemma vsnprintf_bounded_render_witness :
  exists buf', vsnprintf 10 fmt_vd (fun _ => 7) 5 0 [-42] = Some (buf', 6) /\
    buf' 3 = 52 /\ buf' 4 = 0 /\ buf' 5 = 7.
Proof.
  destruct (vsnprintf_bounded_render 10 fmt_vd (fun _ => 7) 5 0 [-42]
    [TLit 118; TLit 61; TConv (Spec 10 0 0) 100; TConv (Spec 10 0 0) 37]
    [118; 61; 45; 52; 50; 37]) as (buf' & H & Hb);
    [vm_compute; reflexivity | vm_compute; reflexivity | lia | vm_compute; reflexivity |].
  exists buf'. split; [exact H |]. rewrite !Hb. vm_compute. auto.
Defined.

Lemma fmt_number_roundtrip_witness :
  numeral 16 (rev (num_digits sizeof_tmp 48879 16)) = 48879.
Proof.
  apply (fmt_number_roundtrip 48879 false (Spec 16 FMT_ALT 10)); [lia | auto].
Defined.

Definition fmt_10d : mem := fun a => nth (Z.to_nat a) [37; 49; 48; 100] 0.

Lemma fmt_width_zero_misparsed_witness :
  exists toks, parse_fmt 9 9 fmt_10d 0 = Some toks /\ render 9 fmt_10d toks [5] = Some [37; 48; 100].
Proof.
  apply (fmt_width_zero_misparsed 9 fmt_10d 0 [5]); [lia |].
  vm_compute. repeat split; discriminate.
Defined.
