(* ===== verification/Console.v ===== *)
(** * The console

    Models dev/console.c and the character interface of dev/uart.c. The input side
    is the line discipline over a 128-byte ring with free-running 64-bit indices;
    the output side drains the kernel message ring to the port. Bytes put on the
    port are collected in a list; what the receiver delivers is a list of raw data
    register values.

    cons_lock covers [console_intr] and each stretch of [console_read] between two
    sleeps, cons_out_lock covers [console_drain]; each is one step. *)

From S2P Require Import Prelude Str Fmt Kmsg.

Definition CTRL (x : Z) : Z := x - 64.
Definition INPUT_BUF_SIZE : Z := 128.
Definition CONSOLE_DRAIN_MAX : nat := 256.

Definition UART_DR_DATA : Z := 0xFF.
Definition UART_DR_OE : Z := Z.shiftl 1 11.
Definition UART_DR_BE : Z := Z.shiftl 1 10.
Definition UART_DR_PE : Z := Z.shiftl 1 9.
Definition UART_DR_FE : Z := Z.shiftl 1 8.

Definition USEC_PER_SEC : Z := 1000000.

(** ** The input ring *)

Record rx_err := RxErr { overrun : Z; brk : Z; parity : Z; frame : Z }.

Record cons := Cons { c_buf : Z -> Z; c_r : Z; c_w : Z; c_e : Z }.

(** What processing input does besides changing the ring: bytes echoed, warnings
    logged, readers woken. *)
Inductive cevent :=
| EEcho (l : list Z)
| EWarn (cause : Z)
| EWakeup.

Definition console_echo (c : Z) : cevent := EEcho (if c =? 8 then [8; 32; 8] else [c]).

Definition console_rx_error (dr : Z) : Z :=
  if negb (Z.land dr UART_DR_BE =? 0) then UART_DR_BE
  else if negb (Z.land dr UART_DR_PE =? 0) then UART_DR_PE
  else if negb (Z.land dr UART_DR_FE =? 0) then UART_DR_FE
  else 0.

Definition console_rx_fault (e : rx_err) (cause : Z) : rx_err * list cevent :=
  let warn n := if n =? 0 then [EWarn cause] else [] in
  if cause =? UART_DR_OE then (RxErr (u64 (overrun e + 1)) (brk e) (parity e) (frame e), warn (overrun e))
  else if cause =? UART_DR_BE then (RxErr (overrun e) (u64 (brk e + 1)) (parity e) (frame e), warn (brk e))
  else if cause =? UART_DR_PE then (RxErr (overrun e) (brk e) (u64 (parity e + 1)) (frame e), warn (parity e))
  else (RxErr (overrun e) (brk e) (parity e) (u64 (frame e + 1)), warn (frame e)).

(** while (e != w && buf[(e - 1) % SIZE] != '\n') e--, echo('\b'); *)
Fixpoint kill_line (fuel : nat) (st : cons) : cons * list cevent :=
  match fuel with
  | O => (st, [])
  | S fuel' =>
      if negb (c_e st =? c_w st) && negb (c_buf st (u64 (c_e st - 1) mod INPUT_BUF_SIZE) =? 10)
      then
        let '(st', ev) := kill_line fuel' (Cons (c_buf st) (c_r st) (c_w st) (u64 (c_e st - 1))) in
        (st', console_echo 8 :: ev)
      else (st, [])
  end.

(** The [switch (c)] of console_intr. *)
Definition console_char (st : cons) (c : Z) : cons * list cevent :=
  if c =? CTRL 85 then kill_line (Z.to_nat INPUT_BUF_SIZE) st
  else if (c =? CTRL 72) || (c =? 127) then
    if negb (c_e st =? c_w st)
    then (Cons (c_buf st) (c_r st) (c_w st) (u64 (c_e st - 1)), [console_echo 8])
    else (st, [])
  else if negb (c =? 0) && (u64 (c_e st - c_r st) <? INPUT_BUF_SIZE) then
    let c := if c =? 13 then 10 else c in
    let buf := (c_buf st).[c_e st mod INPUT_BUF_SIZE <- c] in
    let e := u64 (c_e st + 1) in
    if (c =? 10) || (c =? CTRL 68) || (u64 (e - c_r st) =? INPUT_BUF_SIZE)
    then (Cons buf (c_r st) e e, [console_echo c; EWakeup])
    else (Cons buf (c_r st) (c_w st) e, [console_echo c])
  else (st, []).

(** The drain loop: [n] is what is left of CONSOLE_DRAIN_MAX; the end of the list
    is uart_getc() < 0. *)
Fixpoint console_intr_loop (n : nat) (st : cons) (e : rx_err) (raws : list Z)
    : cons * rx_err * list cevent :=
  match n, raws with
  | S n', raw :: raws' =>
      let '(e1, ev1) :=
        if negb (Z.land raw UART_DR_OE =? 0) then console_rx_fault e UART_DR_OE else (e, []) in
      let cause := console_rx_error raw in
      if negb (cause =? 0) then
        let '(e2, ev2) := console_rx_fault e1 cause in
        let '(r, ev) := console_intr_loop n' st e2 raws' in (r, ev1 ++ ev2 ++ ev)
      else
        let '(st', ev2) := console_char st (Z.land raw UART_DR_DATA) in
        let '(r, ev) := console_intr_loop n' st' e1 raws' in (r, ev1 ++ ev2 ++ ev)
  | _, _ => (st, e, [])
  end.

Definition console_intr (st : cons) (e : rx_err) (raws : list Z) : cons * rx_err * list cevent :=
  console_intr_loop CONSOLE_DRAIN_MAX st e raws.

(** console_read runs until it returns, or until it sleeps with [n] bytes to go
    and [acc] delivered; woken, it is called again with those. *)
Inductive rd :=
| RdSleep (st : cons) (n : Z) (acc : list Z)
| RdKilled (st : cons)
| RdDone (st : cons) (acc : list Z).

Fixpoint read_loop (fuel : nat) (st : cons) (killed : bool) (n target : Z) (acc : list Z) : rd :=
  match fuel with
  | O => RdDone st acc
  | S fuel' =>
      if n >? 0 then
        if c_r st =? c_w st then (if killed then RdKilled st else RdSleep st n acc)
        else
          let c := c_buf st (c_r st mod INPUT_BUF_SIZE) in
          let st1 := Cons (c_buf st) (u64 (c_r st + 1)) (c_w st) (c_e st) in
          if c =? CTRL 68 then
            RdDone (if n <? target then Cons (c_buf st) (u64 (c_r st1 - 1)) (c_w st) (c_e st) else st1) acc
          else if c =? 10 then RdDone st1 (acc ++ [c])
          else read_loop fuel' st1 killed (n - 1) target (acc ++ [c])
      else RdDone st acc
  end.

Definition console_read (st : cons) (killed : bool) (n : Z) : rd :=
  read_loop (S (Z.to_nat n)) st killed n n [].

(** ** Output *)

Definition level_tag (level : Z) : list Z :=
  if level =? 0 then [69; 77; 69; 82; 71; 58; 32; 32]
  else if level =? 1 then [65; 76; 69; 82; 84; 58; 32; 32]
  else if level =? 2 then [67; 82; 73; 84; 58; 32; 32]
  else if level =? 3 then [69; 82; 82; 79; 82; 58; 32; 32]
  else if level =? 4 then [87; 65; 82; 78; 73; 78; 71; 58; 32; 32]
  else [].

(** A string literal in memory, and snprintf of it into an array of [size] bytes
    followed by console_puts of the array. *)
Definition literal (l : list Z) : mem := fun a => nth (Z.to_nat a) l 0.

Definition snprintf_puts (size : Z) (fmt : list Z) (args : list Z) : list Z :=
  match snprintf 64 (literal fmt) (fun _ => 0) size 0 args with
  | Some (buf, _) => default [] (string_text 64 buf 0)
  | None => []
  end.

(** "[%5lu.%06lu] " *)
Definition hdr_fmt : list Z := [91; 37; 53; 108; 117; 46; 37; 48; 54; 108; 117; 93; 32].

(** "** %lu messages dropped **\n" *)
Definition dropped_fmt : list Z :=
  [42; 42; 32; 37; 108; 117; 32; 109; 101; 115; 115; 97; 103; 101; 115; 32; 100; 114; 111; 112; 112;
   101; 100; 32; 42; 42; 10].

(** [f] is the counter frequency. *)
Definition console_render (f : Z) (d : kmsg_desc) (text : list Z) : list Z :=
  (if negb (f =? 0)
   then snprintf_puts 32 hdr_fmt [d_ts d / f; u64 (d_ts d mod f * USEC_PER_SEC) / f]
   else []) ++
  level_tag (d_level d) ++ take (Z.to_nat (d_len d)) text.

Definition console_dropped (n : Z) : list Z := snprintf_puts 64 dropped_fmt [n].

(** The new cons_seq and the bytes put on the port. *)
Fixpoint console_drain (fuel : nat) (k : kmsg) (f cons_seq e : Z) : Z * list Z :=
  match fuel with
  | O => (cons_seq, [])
  | S fuel' =>
      if cons_seq <? e then
        match kmsg_read k cons_seq with
        | None =>
            let first := kmsg_first_seq k in
            if cons_seq <? first then
              let '(s, l) := console_drain fuel' k f first e in (s, console_dropped (first - cons_seq) ++ l)
            else (cons_seq, [])
        | Some (d, text) =>
            let '(s, l) := console_drain fuel' k f (u64 (cons_seq + 1)) e in (s, console_render f d text ++ l)
        end
      else (cons_seq, [])
  end.

Definition drain_fuel (cons_seq e : Z) : nat := S (Z.to_nat (e - cons_seq)).

Definition console_flush_upto (k : kmsg) (f cons_seq seq : Z) : Z * list Z :=
  if seq =? KMSG_NO_SEQ then (cons_seq, [])
  else console_drain (drain_fuel cons_seq (u64 (seq + 1))) k f cons_seq (u64 (seq + 1)).

Definition console_flush (k : kmsg) (f cons_seq : Z) : Z * list Z :=
  console_drain (drain_fuel cons_seq (kmsg_next_seq k)) k f cons_seq (kmsg_next_seq k).

(** The replay loop from [seq]; it announces nothing and leaves cons_seq alone. *)
Fixpoint replay_loop (fuel : nat) (k : kmsg) (f seq e : Z) : list Z :=
  match fuel with
  | O => []
  | S fuel' =>
      if seq <? e then
        match kmsg_read k seq with
        | None =>
            let first := kmsg_first_seq k in
            if seq <? first then replay_loop fuel' k f first e else []
        | Some (d, text) => console_render f d text ++ replay_loop fuel' k f (u64 (seq + 1)) e
        end
      else []
  end.

Definition console_replay (k : kmsg) (f : Z) : list Z :=
  replay_loop (drain_fuel (kmsg_first_seq k) (kmsg_next_seq k)) k f (kmsg_first_seq k) (kmsg_next_seq k).

(** ** Specification of the line discipline *)

(** Bytes ready for readers, and the line being edited. *)
Record tty := Tty { ready : list Z; editing : list Z }.

Definition tty_size (t : tty) : Z := Z.of_nat (length (ready t) + length (editing t)).

Definition tty_char (t : tty) (c : Z) : tty * list cevent :=
  if c =? 21 then (Tty (ready t) [], replicate (length (editing t)) (EEcho [8; 32; 8]))
  else if (c =? 8) || (c =? 127) then
    match editing t with
    | [] => (t, [])
    | _ => (Tty (ready t) (removelast (editing t)), [EEcho [8; 32; 8]])
    end
  else if negb (c =? 0) && (tty_size t <? 128) then
    let c := if c =? 13 then 10 else c in
    if (c =? 10) || (c =? 4) || (tty_size t + 1 =? 128)
    then (Tty (ready t ++ editing t ++ [c]) [], [EEcho [c]; EWakeup])
    else (Tty (ready t) (editing t ++ [c]), [EEcho [c]])
  else (t, []).

(** What a read of at most [n] bytes takes from the ready bytes: up to a newline,
    or up to an end-of-file mark, which is left for the next read when it follows
    data. *)
Inductive tread :=
| TWait (rest : list Z) (n : Z)       (* ran dry: sleep *)
| TDone (rest : list Z).

Fixpoint tty_read (l : list Z) (fuel : nat) (n target : Z) {struct fuel} : list Z * tread :=
  match fuel with
  | O => ([], TDone l)
  | S fuel' =>
      if n >? 0 then
        match l with
        | [] => ([], TWait [] n)
        | c :: l' =>
            if c =? 4 then ([], TDone (if n <? target then l else l'))
            else if c =? 10 then ([c], TDone l')
            else let '(got, r) := tty_read l' fuel' (n - 1) target in (c :: got, r)
        end
      else ([], TDone l)
  end.

(** The ring holds the ready bytes from [r] and the edited line from [w]. *)
Record line (st : cons) (t : tty) : Prop := {
  ln_r : 0 <= c_r st < 2 ^ 64;
  ln_w : c_w st = u64 (c_r st + Z.of_nat (length (ready t)));
  ln_e : c_e st = u64 (c_r st + tty_size t);
  ln_cap : tty_size t <= 128;
  ln_buf : forall i x, (ready t ++ editing t) !! i = Some x ->
    c_buf st ((c_r st + Z.of_nat i) mod 128) = x;
  ln_edit : Forall (fun x => x <> 10) (editing t)
}.

(** ** Lemmas: the ring *)

Lemma u64_mod_128 x : u64 x mod 128 = x mod 128.
Proof. unfold u64. words. Qed.

Lemma ring_slot_ne r i j : 0 <= i < 128 -> 0 <= j < 128 -> i <> j -> (r + i) mod 128 <> (r + j) mod 128.
Proof. intros. words. Qed.

Section line.
Context (st : cons) (t : tty) (Hl : line st t).

Lemma line_we : (c_e st =? c_w st) = bool_decide (editing t = []).
Proof.
  rewrite (ln_w _ _ Hl), (ln_e _ _ Hl). pose proof (ln_r _ _ Hl). pose proof (ln_cap _ _ Hl).
  unfold tty_size in *. destruct (editing t) as [| x l] eqn:E; cbn [length] in *.
  - rewrite bool_decide_true by done. rewrite Nat.add_0_r. apply Z.eqb_refl.
  - rewrite bool_decide_false by done. apply Z.eqb_neq. words.
Qed.

Lemma line_rw : (c_r st =? c_w st) = bool_decide (ready t = []).
Proof.
  rewrite (ln_w _ _ Hl). pose proof (ln_r _ _ Hl). pose proof (ln_cap _ _ Hl). unfold tty_size in *.
  destruct (ready t) as [| x l] eqn:E; cbn [length] in *.
  - rewrite bool_decide_true by done. apply Z.eqb_eq. words.
  - rewrite bool_decide_false by done. apply Z.eqb_neq. words.
Qed.

Lemma line_size : u64 (c_e st - c_r st) = tty_size t.
Proof.
  rewrite (ln_e _ _ Hl). pose proof (ln_r _ _ Hl). pose proof (ln_cap _ _ Hl). unfold tty_size in *. words.
Qed.

(** Erasing the last edited byte. *)
Lemma line_erase l x : editing t = l ++ [x] ->
  line (Cons (c_buf st) (c_r st) (c_w st) (u64 (c_e st - 1))) (Tty (ready t) l) /\
  c_buf st (u64 (c_e st - 1) mod INPUT_BUF_SIZE) = x.
Proof.
  intros E. pose proof (ln_r _ _ Hl). pose proof (ln_cap _ _ Hl) as Hcap. pose proof (ln_edit _ _ Hl) as Hed.
  pose proof (ln_buf _ _ Hl) as Hb. pose proof (ln_e _ _ Hl) as He.
  unfold tty_size in *. rewrite E, !length_app in *. cbn [length] in *.
  assert (He' : u64 (c_e st - 1) = u64 (c_r st + Z.of_nat (length (ready t) + length l))) by (rewrite He; words).
  split.
  - constructor; cbn [c_r c_w c_e c_buf ready editing]; try done.
    + apply (ln_w _ _ Hl).
    + unfold tty_size. cbn [ready editing]. lia.
    + intros i y Hi. apply Hb. rewrite app_assoc, lookup_app_l; [done |]. by eapply lookup_lt_Some.
    + apply Forall_app in Hed. tauto.
  - unfold INPUT_BUF_SIZE. rewrite He', u64_mod_128. apply Hb.
    rewrite app_assoc, lookup_app_r by (rewrite length_app; lia).
    by rewrite length_app, Nat.sub_diag.
Qed.

(** Storing one more byte. *)
Lemma line_store c w t' : tty_size t < 128 ->
  ready t' ++ editing t' = (ready t ++ editing t) ++ [c] ->
  w = u64 (c_r st + Z.of_nat (length (ready t'))) -> Forall (fun x => x <> 10) (editing t') ->
  line (Cons ((c_buf st).[c_e st mod INPUT_BUF_SIZE <- c]) (c_r st) w (u64 (c_e st + 1))) t'.
Proof.
  intros Hsz Hall Hw Hed. pose proof (ln_r _ _ Hl). pose proof (ln_e _ _ Hl) as He.
  assert (Hlen : tty_size t' = tty_size t + 1).
  { unfold tty_size. rewrite <- !length_app, Hall, length_app. cbn. lia. }
  constructor; cbn [c_r c_w c_e c_buf]; try done; try lia.
  - rewrite Hlen, He. words.
  - intros i y. rewrite Hall. unfold INPUT_BUF_SIZE. rewrite He, u64_mod_128. intros Hi.
    assert (Hn : Z.of_nat (length (ready t ++ editing t)) = tty_size t) by (unfold tty_size; rewrite length_app; done).
    apply lookup_app_Some in Hi as [Hi | [Hge Hi]].
    + pose proof (lookup_lt_Some _ _ _ Hi). rewrite upd_ne by (apply ring_slot_ne; lia). by apply (ln_buf _ _ Hl).
    + destruct (i - length (ready t ++ editing t))%nat as [| k] eqn:Ek; [| done]. injection Hi as <-.
      replace (Z.of_nat i) with (tty_size t) by lia. apply upd_eq.
Qed.

(** Taking one ready byte. *)
Lemma line_take x l : ready t = x :: l ->
  c_buf st (c_r st mod INPUT_BUF_SIZE) = x /\
  line (Cons (c_buf st) (u64 (c_r st + 1)) (c_w st) (c_e st)) (Tty l (editing t)).
Proof.
  intros E. pose proof (ln_r _ _ Hl). pose proof (ln_cap _ _ Hl) as Hcap. pose proof (ln_buf _ _ Hl) as Hb.
  pose proof (ln_e _ _ Hl) as He. pose proof (ln_w _ _ Hl) as Hw. unfold tty_size in *. rewrite E in *. cbn [length] in *.
  split.
  - specialize (Hb 0%nat x eq_refl). by rewrite Z.add_0_r in Hb.
  - constructor; cbn [c_r c_w c_e c_buf ready editing]; unfold tty_size; cbn [ready editing].
    + apply u64_range.
    + rewrite Hw. words.
    + rewrite He. words.
    + lia.
    + intros i y Hi. specialize (Hb (S i) y Hi). rewrite <- Hb. f_equal. words.
    + apply (ln_edit _ _ Hl).
Qed.
End line.

Lemma kill_line_spec l fuel st rd : line st (Tty rd l) -> (length l <= fuel)%nat ->
  exists st', kill_line fuel st = (st', replicate (length l) (EEcho [8; 32; 8])) /\
    line st' (Tty rd []).
Proof.
  revert fuel st. induction l as [| x l IH] using rev_ind; intros fuel st Hl Hf.
  - exists st. split; [| done]. destruct fuel as [| fuel]; [done |]. cbn [kill_line].
    by rewrite (line_we st _ Hl).
  - rewrite length_app in Hf. cbn in Hf. destruct fuel as [| fuel]; [lia |]. cbn [kill_line].
    rewrite (line_we st _ Hl). cbn [editing]. rewrite bool_decide_false by (by destruct l).
    destruct (line_erase st _ Hl l x eq_refl) as [Hl' ->]. cbn [ready] in Hl'.
    pose proof (ln_edit _ _ Hl) as Hed. cbn [editing] in Hed. apply Forall_app in Hed as [_ Hx].
    apply Forall_cons in Hx as [Hx _]. rewrite (proj2 (Z.eqb_neq x 10)) by done. cbn [negb andb].
    destruct (IH fuel _ Hl' ltac:(lia)) as (st' & -> & Hfin). exists st'. split; [| done].
    rewrite length_app, Nat.add_comm. done.
Qed.

Lemma console_char_refines st t c : line st t ->
  exists st', console_char st c = (st', (tty_char t c).2) /\ line st' (tty_char t c).1.
Proof.
  intros Hl. unfold console_char, tty_char. change (CTRL 85) with 21. change (CTRL 72) with 8. change (CTRL 68) with 4.
  destruct (c =? 21).
  { destruct t as [rd ed]. apply kill_line_spec; [done |]. pose proof (ln_cap _ _ Hl) as Hc.
    unfold tty_size in Hc. cbn [ready editing] in Hc. change (Z.to_nat INPUT_BUF_SIZE) with 128%nat. cbn [editing]. lia. }
  destruct ((c =? 8) || (c =? 127)) eqn:E8.
  { rewrite (line_we st t Hl). destruct t as [rd ed]. cbn [editing ready]. destruct ed as [| x ed _] using rev_ind.
    - rewrite bool_decide_true by done. by exists st.
    - rewrite bool_decide_false by (by destruct ed). destruct (line_erase st _ Hl ed x eq_refl) as [Hl' _].
      destruct (ed ++ [x]) eqn:E; [by destruct ed |]. rewrite <- E, removelast_last.
      eexists. split; [reflexivity | done]. }
  rewrite (line_size st t Hl). unfold INPUT_BUF_SIZE at 1. destruct (negb (c =? 0) && (tty_size t <? 128)) eqn:Ec.
  2: { by exists st. }
  zbool. cbn zeta. set (c' := if c =? 13 then 10 else c).
  assert (Hecho : console_echo c' = EEcho [c']).
  { unfold console_echo. destruct (Z.eqb_spec c' 8) as [Hc' |]; [| done]. exfalso.
    unfold c' in Hc'. destruct (c =? 13); lia. }
  pose proof (ln_r _ _ Hl). pose proof (ln_e _ _ Hl) as He. rewrite Hecho.
  assert (0 <= tty_size t) by (unfold tty_size; lia).
  replace (u64 (u64 (c_e st + 1) - c_r st)) with (tty_size t + 1) by (rewrite He; words).
  change (tty_size t + 1 =? INPUT_BUF_SIZE) with (tty_size t + 1 =? 128). destruct ((c' =? 10) || (c' =? 4) || (tty_size t + 1 =? 128)) eqn:Ecommit; cbn [fst snd].
  - eexists. split; [reflexivity |]. apply line_store with t; try done.
    + cbn. by rewrite app_nil_r, app_assoc.
    + cbn [ready]. rewrite !length_app, He. cbn [length]. unfold tty_size. words.
  - eexists. split; [reflexivity |]. zbool. apply line_store with t; try done.
    + cbn. by rewrite app_assoc.
    + apply (ln_w _ _ Hl).
    + apply Forall_app. split; [apply (ln_edit _ _ Hl) | by constructor].
Qed.

(** ** Lemmas: reading *)

Lemma read_loop_refines fuel st rdy ed killed n target acc : line st (Tty rdy ed) ->
  let '(got, r) := tty_read rdy fuel n target in
  exists st', match r with
    | TWait rest n' =>
        read_loop fuel st killed n target acc =
          (if killed then RdKilled st' else RdSleep st' n' (acc ++ got)) /\ line st' (Tty rest ed)
    | TDone rest => read_loop fuel st killed n target acc = RdDone st' (acc ++ got) /\ line st' (Tty rest ed)
    end.
Proof.
  revert st rdy n acc. induction fuel as [| fuel IH]; intros st rdy n acc Hl; cbn [read_loop tty_read].
  { cbv beta iota. exists st. by rewrite app_nil_r. }
  destruct (n >? 0); [| cbv beta iota; exists st; by rewrite app_nil_r].
  rewrite (line_rw st _ Hl). cbn [ready]. destruct rdy as [| c rdy].
  { rewrite bool_decide_true by done. cbv beta iota. exists st. by rewrite app_nil_r. }
  rewrite bool_decide_false by done. destruct (line_take st _ Hl c rdy eq_refl) as [-> Hl1].
  change (CTRL 68) with 4. destruct (c =? 4).
  { cbn [c_r]. eexists. rewrite app_nil_r. split; [reflexivity |]. destruct (n <? target); [| done].
    replace (u64 (u64 (c_r st + 1) - 1)) with (c_r st) by (pose proof (ln_r _ _ Hl); words).
    by destruct st. }
  destruct (c =? 10); [by eexists |].
  specialize (IH _ rdy (n - 1) (acc ++ [c]) Hl1). destruct (tty_read rdy fuel (n - 1) target) as [got r].
  destruct IH as [st' IH]. exists st'. rewrite <- app_assoc in IH. exact IH.
Qed.

(** ** Lemmas: the interrupt loop *)

(** The bytes among the raw values that arrived without a receive error. *)
Definition good_bytes (raws : list Z) : list Z :=
  map (fun raw => Z.land raw 255) (List.filter (fun raw => console_rx_error raw =? 0) raws).

Fixpoint tty_feed (t : tty) (l : list Z) : tty * list cevent :=
  match l with
  | [] => (t, [])
  | c :: l' =>
      let '(t1, ev1) := tty_char t c in
      let '(t2, ev2) := tty_feed t1 l' in (t2, ev1 ++ ev2)
  end.

Definition is_warn (ev : cevent) : bool := match ev with EWarn _ => true | _ => false end.
Definition not_warn (l : list cevent) : list cevent := List.filter (fun ev => negb (is_warn ev)) l.

Lemma not_warn_app l1 l2 : not_warn (l1 ++ l2) = not_warn l1 ++ not_warn l2.
Proof. apply List.filter_app. Qed.

Lemma not_warn_fault e cause : not_warn (console_rx_fault e cause).2 = [].
Proof. unfold console_rx_fault. repeat case_match; done. Qed.

Lemma not_warn_char t c : not_warn (tty_char t c).2 = (tty_char t c).2.
Proof.
  unfold tty_char. repeat case_match; try done.
  cbn [snd]. induction (length (editing t)) as [| k IH]; cbn; [done |]. f_equal. exact IH.
Qed.

Lemma console_intr_loop_refines n st e t raws : line st t ->
  exists st' e' ev, console_intr_loop n st e raws = (st', e', ev) /\
    line st' (tty_feed t (good_bytes (take n raws))).1 /\
    not_warn ev = (tty_feed t (good_bytes (take n raws))).2.
Proof.
  revert st e t raws. induction n as [| n IH]; intros st e t raws Hl; [by exists st, e, [] |].
  destruct raws as [| raw raws]; [by exists st, e, [] |]. cbn [console_intr_loop take].
  set (oe := if negb (Z.land raw UART_DR_OE =? 0) then console_rx_fault e UART_DR_OE else (e, [])).
  assert (Hoe : not_warn oe.2 = []) by (unfold oe; destruct (negb _); [apply not_warn_fault | done]).
  destruct oe as [e1 ev1]. unfold good_bytes. cbn [List.filter].
  destruct (Z.eqb_spec (console_rx_error raw) 0) as [E | E]; cbn [negb map tty_feed].
  - destruct (console_char_refines st t (Z.land raw 255) Hl) as (st1 & Hc & Hl1).
    unfold UART_DR_DATA. rewrite Hc. pose proof (not_warn_char t (Z.land raw 255)) as Hw.
    destruct (tty_char t (Z.land raw 255)) as [t1 ev2]. cbn [fst snd] in *.
    destruct (IH st1 e1 t1 raws Hl1) as (st2 & e2 & ev & -> & Hl2 & Hev).
    unfold good_bytes in *. destruct (tty_feed t1 _) as [t2 ev3]. exists st2, e2, (ev1 ++ ev2 ++ ev).
    split; [done |]. split; [done |]. rewrite !not_warn_app, Hoe, Hw. cbn [snd app] in *. by rewrite Hev.
  - pose proof (not_warn_fault e1 (console_rx_error raw)) as Hf.
    destruct (console_rx_fault e1 _) as [e2 ev2].
    destruct (IH st e2 t raws Hl) as (st2 & e3 & ev & -> & Hl2 & Hev).
    exists st2, e3, (ev1 ++ ev2 ++ ev). split; [done |]. split; [done |].
    cbn [snd] in Hoe, Hf. by rewrite !not_warn_app, Hoe, Hf.
Qed.

(** Bytes with no editing meaning. *)
Definition plain (c : Z) : Prop := 0 < c < 256 /\ c <> 4 /\ c <> 8 /\ c <> 10 /\ c <> 13 /\ c <> 21 /\ c <> 127.

Lemma feed_plain l rd ed : Forall plain l -> Z.of_nat (length rd + length ed + length l) < 128 ->
  tty_feed (Tty rd ed) l = (Tty rd (ed ++ l), map (fun c => EEcho [c]) l).
Proof.
  intros Hp. revert ed. induction Hp as [| c l Hc _ IH]; intros ed Hlen; cbn [tty_feed map length] in *.
  { by rewrite app_nil_r. }
  destruct Hc as (? & ? & ? & ? & ? & ? & ?). unfold tty_char, tty_size. cbn [ready editing].
  rewrite (proj2 (Z.eqb_neq c 21)), (proj2 (Z.eqb_neq c 8)), (proj2 (Z.eqb_neq c 127)),
    (proj2 (Z.eqb_neq c 0)), (proj2 (Z.eqb_neq c 13)) by lia. cbn [orb negb andb].
  rewrite (proj2 (Z.eqb_neq c 10)), (proj2 (Z.eqb_neq c 4)) by lia. cbn [orb].
  destruct (Z.ltb_spec (Z.of_nat (length rd + length ed)) 128); [| lia].
  rewrite (proj2 (Z.eqb_neq _ 128)) by lia.
  rewrite IH by (rewrite length_app; cbn [length]; lia). by rewrite <- app_assoc.
Qed.

Lemma feed_app t l1 l2 :
  tty_feed t (l1 ++ l2) = let '(t1, e1) := tty_feed t l1 in let '(t2, e2) := tty_feed t1 l2 in (t2, e1 ++ e2).
Proof.
  revert t. induction l1 as [| c l1 IH]; intros t; cbn [app tty_feed].
  { by destruct (tty_feed t l2). }
  destruct (tty_char t c) as [t1 ev1]. rewrite IH. destruct (tty_feed t1 l1) as [t2 ev2].
  destruct (tty_feed t2 l2) as [t3 ev3]. by rewrite app_assoc.
Qed.

Lemma tty_read_line l rest fuel n target : Forall plain l -> Z.of_nat (length l) < n -> (length l < fuel)%nat ->
  tty_read (l ++ 10 :: rest) fuel n target = (l ++ [10], TDone rest).
Proof.
  intros Hp. revert fuel n. induction Hp as [| c l Hc _ IH]; intros fuel n Hn Hf; destruct fuel as [| fuel];
    cbn [length] in *; try lia; cbn [app tty_read].
  - destruct (Z.gtb_spec n 0); [done | lia].
  - destruct (Z.gtb_spec n 0); [| lia]. destruct Hc as (? & ? & ? & ? & _).
    rewrite !(proj2 (Z.eqb_neq _ _)) by lia. by rewrite IH by lia.
Qed.

Lemma good_plain l : Forall plain l -> good_bytes l = l.
Proof.
  induction 1 as [| c l Hc _ IH]; [done |]. unfold good_bytes in *. cbn [List.filter].
  destruct Hc as (Hc & _).
  assert (Hbit : forall k, 8 <= k -> Z.land c (Z.shiftl 1 k) = 0).
  { intros k Hk. apply Z.bits_inj'. intros i Hi. rewrite Z.land_spec, Z.bits_0, Z.shiftl_spec by lia.
    destruct (Z.lt_ge_cases i 8).
    - rewrite (Z.testbit_neg_r 1) by lia. apply andb_false_r.
    - by rewrite (testbit_high c 8) by lia. }
  assert (Hno : console_rx_error c = 0).
  { unfold console_rx_error, UART_DR_BE, UART_DR_PE, UART_DR_FE. by rewrite !Hbit by lia. }
  rewrite Hno. cbn [Z.eqb map]. rewrite IH. f_equal. change 255 with (Z.ones 8). rewrite Z.land_ones by lia. apply Z.mod_small. lia.
Qed.

(** ** Lemmas: draining *)

(** The run of final records at the front of [l], at most [n] of them. *)
Fixpoint final_run (n : nat) (l : list record) : list record :=
  match n, l with
  | S n', r :: l' => if rec_final r then r :: final_run n' l' else []
  | _, _ => []
  end.

Definition render_record (f : Z) (r : record) : list Z := console_render f (desc_of r 0) (rec_text r).

Lemma render_desc f r off : console_render f (desc_of r off) (rec_text r) = render_record f r.
Proof. done. Qed.

(** The records a drain from [s] up to [e] emits. *)
Definition drained_records (lg : klog) (s e : Z) : list record :=
  final_run (Z.to_nat (e - s)) (drop (Z.to_nat (s - log_first lg)) (recs lg)).

Lemma drained_step k lg s e : ring k lg -> log_first lg <= s < e -> 0 <= s < 2 ^ 64 ->
  match kmsg_read k s with
  | Some (d, text) => exists r, rec_final r = true /\ rec_seq r = s /\ (forall f, console_render f d text = render_record f r) /\
      drained_records lg s e = r :: drained_records lg (s + 1) e
  | None => drained_records lg s e = []
  end.
Proof.
  intros Hr Hs Hb. pose proof (kmsg_read_log k lg s Hr Hb) as H. unfold log_read in H.
  destruct (Z.ltb_spec s (log_first lg)); [lia |].
  unfold drained_records. replace (Z.to_nat (e - s)) with (S (Z.to_nat (e - (s + 1)))) by lia.
  replace (Z.to_nat (s + 1 - log_first lg)) with (S (Z.to_nat (s - log_first lg))) by lia.
  set (i := Z.to_nat (s - log_first lg)) in *. destruct (recs lg !! i) as [r |] eqn:E; cbn [mbind option_bind] in H.
  - rewrite (drop_S _ r i E). cbn [final_run]. destruct (rec_final r) eqn:Ef.
    + destruct H as [off ->]. exists r. split; [done |]. split; [| split; [intros; apply render_desc | done]].
      pose proof (ring_seqs _ _ Hr i r E). unfold i in *. lia.
    + by rewrite H.
  - rewrite H. by rewrite drop_ge by (by apply lookup_ge_None).
Qed.

Lemma console_drain_held fuel k lg f s e : ring k lg -> log_first lg <= s -> 0 <= s -> e < 2 ^ 64 ->
  Z.of_nat fuel >= e - s + 1 ->
  let l := drained_records lg s e in
  console_drain fuel k f s e = (s + Z.of_nat (length l), concat (map (render_record f) l)).
Proof.
  intros Hr Hf H0 He. cbn zeta. revert s Hf H0. induction fuel as [| fuel IH]; intros s Hs H0 Hfuel;
    cbn [console_drain].
  { unfold drained_records. replace (Z.to_nat (e - s)) with 0%nat by lia. cbn. f_equal. lia. }
  destruct (Z.ltb_spec s e).
  2: { unfold drained_records. replace (Z.to_nat (e - s)) with 0%nat by lia. cbn. f_equal. lia. }
  pose proof (drained_step k lg s e Hr ltac:(lia) ltac:(lia)) as Hstep.
  destruct (kmsg_read k s) as [[d text] |].
  - destruct Hstep as (r & _ & _ & Hrend & ->). rewrite u64_small by lia.
    rewrite IH by lia. cbn [map concat length]. rewrite Hrend. f_equal. lia.
  - rewrite (kmsg_first_seq_log k lg Hr). destruct (Z.ltb_spec s (log_first lg)); [lia |].
    rewrite Hstep. cbn. f_equal. lia.
Qed.

Lemma replay_loop_held fuel k lg f s e : ring k lg -> log_first lg <= s -> 0 <= s -> e < 2 ^ 64 ->
  Z.of_nat fuel >= e - s + 1 ->
  replay_loop fuel k f s e = concat (map (render_record f) (drained_records lg s e)).
Proof.
  intros Hr Hf H0 He. revert s Hf H0. induction fuel as [| fuel IH]; intros s Hs H0 Hfuel; cbn [replay_loop].
  { unfold drained_records. by replace (Z.to_nat (e - s)) with 0%nat by lia. }
  destruct (Z.ltb_spec s e).
  2: { unfold drained_records. by replace (Z.to_nat (e - s)) with 0%nat by lia. }
  pose proof (drained_step k lg s e Hr ltac:(lia) ltac:(lia)) as Hstep.
  destruct (kmsg_read k s) as [[d text] |].
  - destruct Hstep as (r & _ & _ & Hrend & ->). rewrite u64_small by lia.
    rewrite IH by lia. cbn [map concat]. by rewrite Hrend.
  - rewrite (kmsg_first_seq_log k lg Hr). destruct (Z.ltb_spec s (log_first lg)); [lia |].
    by rewrite Hstep.
Qed.

Lemma final_run_lookup n l i r : final_run n l !! i = Some r -> l !! i = Some r /\ rec_final r = true.
Proof.
  revert l i. induction n as [| n IH]; intros [| x l] i; cbn [final_run]; try done.
  destruct (rec_final x) eqn:E; [| done]. destruct i as [| i]; cbn; [by intros [= <-] | apply IH].
Qed.

Lemma final_run_maximal n l : let k := length (final_run n l) in final_run (n - k) (drop k l) = [].
Proof.
  revert l. induction n as [| n IH]; intros [| x l]; cbn [final_run length]; try done.
  destruct (rec_final x) eqn:E; cbn [length]; [apply IH |]. cbn. by rewrite E.
Qed.

Lemma final_run_length n l : (length (final_run n l) <= n)%nat.
Proof.
  revert l. induction n as [| n IH]; intros [| x l]; cbn [final_run length]; try lia.
  destruct (rec_final x); cbn [length]; [specialize (IH l); lia | lia].
Qed.

Section drain.
Context (k : kmsg) (lg : klog) (f : Z) (Hr : ring k lg).

Lemma log_first_range : 0 <= log_first lg <= nseq lg /\ nseq lg < 2 ^ 64.
Proof. unfold log_first. pose proof (ring_nseq _ _ Hr). lia. Qed.

Lemma drained_again s : log_first lg <= s <= nseq lg ->
  let n := length (drained_records lg s (nseq lg)) in
  drained_records lg (s + Z.of_nat n) (nseq lg) = [] /\ s + Z.of_nat n <= nseq lg.
Proof.
  intros Hs. cbn zeta. unfold drained_records at 1 3. set (l := drop (Z.to_nat (s - log_first lg)) (recs lg)).
  set (m := Z.to_nat (nseq lg - s)). pose proof (final_run_maximal m l) as Hmax.
  pose proof (final_run_length m l) as Hlen. unfold drained_records. fold l m.
  split; [| unfold m in *; lia]. cbn zeta in Hmax.
  replace (Z.to_nat (nseq lg - (s + Z.of_nat (length (final_run m l))))) with (m - length (final_run m l))%nat by lia.
  replace (drop _ (recs lg)) with (drop (length (final_run m l)) l); [done |].
  unfold l at 2. rewrite drop_drop. f_equal. lia.
Qed.

Lemma flush_held s : log_first lg <= s <= nseq lg ->
  let l := drained_records lg s (nseq lg) in
  console_flush k f s = (s + Z.of_nat (length l), concat (map (render_record f) l)).
Proof.
  intros Hs. pose proof log_first_range. unfold console_flush, kmsg_next_seq, drain_fuel.
  rewrite (ring_next _ _ Hr). apply console_drain_held; try done; lia.
Qed.

(** A flush that fell behind announces the gap first. *)
Lemma flush_behind s : 0 <= s < log_first lg ->
  let l := drained_records lg (log_first lg) (nseq lg) in
  console_flush k f s = (log_first lg + Z.of_nat (length l),
    console_dropped (log_first lg - s) ++ concat (map (render_record f) l)).
Proof.
  intros Hs. pose proof log_first_range. cbn zeta. unfold console_flush, kmsg_next_seq, drain_fuel.
  rewrite (ring_next _ _ Hr). cbn [console_drain]. destruct (Z.ltb_spec s (nseq lg)); [| lia].
  assert (Hnone : kmsg_read k s = None).
  { pose proof (kmsg_read_log k lg s Hr ltac:(lia)) as H1. unfold log_read in H1.
    destruct (Z.ltb_spec s (log_first lg)); [done | lia]. }
  rewrite Hnone, (kmsg_first_seq_log k lg Hr). destruct (Z.ltb_spec s (log_first lg)); [| lia].
  by rewrite (console_drain_held _ k lg) by (done || lia).
Qed.
End drain.

(** ** Theorems *)

(** the ring implements the line discipline. Whatever arrives, [console_intr]
    acts as feeding its error-free bytes (the first CONSOLE_DRAIN_MAX values) to the
    two-list specification: ^U drops the edited line, backspace its last byte, a
    newline, ^D or a full buffer makes the line readable; the same bytes are echoed
    and the same wakeups sent; the ring never holds more than 128 bytes and the
    free-running indices may wrap. *)
Theorem console_intr_refines st e t raws :
  line st t ->
  exists st' e' ev, console_intr st e raws = (st', e', ev) /\
    let r := tty_feed t (good_bytes (take CONSOLE_DRAIN_MAX raws)) in
    line st' r.1 /\ not_warn ev = r.2 /\ tty_size r.1 <= 128.
Proof.
  intros Hl. destruct (console_intr_loop_refines CONSOLE_DRAIN_MAX st e t raws Hl) as (st' & e' & ev & H & Hl' & Hev).
  exists st', e', ev. split; [exact H |]. cbn zeta. split; [exact Hl' |]. split; [exact Hev | apply Hl'].
Qed.

(** a typed line comes back: from an empty console, up to 126 plain bytes and a
    carriage return, however delivered in one interrupt, are echoed and then read
    back exactly, ended by a newline, by any read that has room, leaving the console
    empty. *)
Theorem console_line_roundtrip st e l n :
  line st (Tty [] []) -> Forall plain l -> Z.of_nat (length l) <= 126 -> Z.of_nat (length l) < n ->
  exists st' e' ev st'', console_intr st e (l ++ [13]) = (st', e', ev) /\
    not_warn ev = map (fun c => EEcho [c]) l ++ [EEcho [10]; EWakeup] /\
    console_read st' false n = RdDone st'' (l ++ [10]) /\ line st'' (Tty [] []).
Proof.
  intros Hl Hp Hlen Hn.
  destruct (console_intr_loop_refines CONSOLE_DRAIN_MAX st e (Tty [] []) (l ++ [13]) Hl)
    as (st' & e' & ev & H & Hl' & Hev).
  rewrite take_ge in Hl', Hev by (rewrite length_app; cbn; unfold CONSOLE_DRAIN_MAX; lia).
  assert (Hg : good_bytes (l ++ [13]) = l ++ [13]).
  { unfold good_bytes. rewrite List.filter_app, map_app. pose proof (good_plain l Hp) as Hgp.
    unfold good_bytes in Hgp. by rewrite Hgp. }
  rewrite Hg, feed_app, (feed_plain l [] []) in Hl', Hev by (done || (cbn; lia)).
  cbn [app] in Hl', Hev.
  assert (Hcr : tty_feed (Tty [] l) [13] = (Tty (l ++ [10]) [], [EEcho [10]; EWakeup])).
  { cbn [tty_feed]. unfold tty_char, tty_size. cbn [ready editing length Nat.add Z.eqb Pos.eqb orb negb andb].
    destruct (Z.ltb_spec (Z.of_nat (length l)) 128); [done | lia]. }
  rewrite Hcr in Hl', Hev. cbn [fst snd] in *.
  pose proof (read_loop_refines (S (Z.to_nat n)) st' (l ++ [10]) [] false n n [] Hl') as Hread.
  rewrite (tty_read_line l []) in Hread by (done || lia). destruct Hread as (st'' & Hr & Hfin).
  exists st', e', ev, st''. split; [exact H |]. split; [exact Hev |]. split; [exact Hr | exact Hfin].
Qed.

(** a flush from [cons_seq] terminates and emits, in sequence order and each
    once, exactly the final records from [cons_seq] (or from the oldest record held,
    after a notice with the number of records lost) up to the first one still open;
    [cons_seq] ends just after them, so an immediate second flush emits nothing.
    A replay emits the held records without notices. *)
Theorem console_flush_in_order k lg f s :
  ring k lg -> 0 <= s ->
  let first := log_first lg in
  let start := Z.max s first in
  let l := drained_records lg start (nseq lg) in
  let s' := start + Z.of_nat (length l) in
  s < nseq lg ->
  console_flush k f s =
    (s', (if s <? first then console_dropped (first - s) else []) ++ concat (map (render_record f) l)) /\
  (forall i r, l !! i = Some r -> rec_seq r = start + Z.of_nat i /\ rec_final r = true) /\
  console_flush k f s' = (s', []) /\
  console_replay k f = concat (map (render_record f) (drained_records lg first (nseq lg))).
Proof.
  intros Hr Hs. cbn zeta. intros Hlt. destruct (log_first_range k lg Hr) as [Hfirst Hn].
  set (start := Z.max s (log_first lg)). assert (Hstart : log_first lg <= start <= nseq lg) by lia.
  split; [| split; [| split]].
  - destruct (Z.ltb_spec s (log_first lg)).
    + replace start with (log_first lg) by lia. by apply flush_behind.
    + replace start with s by lia. cbn [app]. apply flush_held; [done | lia].
  - intros i r Hi. unfold drained_records in Hi. apply final_run_lookup in Hi as [Hi Hf]. split; [| done].
    rewrite lookup_drop in Hi. rewrite (ring_seqs _ _ Hr _ _ Hi). lia.
  - destruct (drained_again lg start Hstart) as [Hnil Hle].
    rewrite (flush_held k lg f Hr) by lia. rewrite Hnil. cbn. f_equal. lia.
  - unfold console_replay, kmsg_next_seq, drain_fuel. rewrite (kmsg_first_seq_log k lg Hr), (ring_next _ _ Hr).
    apply replay_loop_held; try done; lia.
Qed.

(** ** Witnesses *)

Definition cons_boot : cons := Cons (fun _ => 0) 0 0 0.

Lemma cons_boot_line : line cons_boot (Tty [] []).
Proof. constructor; done. Qed.

(** "hx", backspace, "i", carriage return *)
Lemma console_intr_refines_witness :
  exists st' e' ev, console_intr cons_boot (RxErr 0 0 0 0) [104; 120; 8; 105; 13] = (st', e', ev) /\
    line st' (Tty [104; 105; 10] []).
Proof.
  destruct (console_intr_refines cons_boot (RxErr 0 0 0 0) (Tty [] []) [104; 120; 8; 105; 13] cons_boot_line)
    as (st' & e' & ev & H & Hl & _).
  exists st', e', ev. split; [exact H | exact Hl].
Defined.

Lemma console_line_roundtrip_witness :
  exists st' e' ev st'', console_intr cons_boot (RxErr 0 0 0 0) [104; 105; 13] = (st', e', ev) /\
    console_read st' false 100 = RdDone st'' [104; 105; 10].
Proof.
  destruct (console_line_roundtrip cons_boot (RxErr 0 0 0 0) [104; 105] 100 cons_boot_line)
    as (st' & e' & ev & st'' & H & _ & Hr & _).
  - repeat constructor; discriminate.
  - cbn. lia.
  - cbn. lia.
  - exists st', e', ev, st''. split; [exact H | exact Hr].
Defined.

Lemma console_flush_in_order_witness :
  exists k lg, ring k lg /\ console_flush k 1000 0 = (1, [91; 32; 32; 32; 32; 48; 46; 48; 48; 49; 48; 48; 48; 93; 32; 65; 10]).
Proof.
  destruct (run_ops_kept [OpAdd boot_cpu 1 6 [65; 10] 2] _ _ ring_boot) as (lg & Hr & _).
  { repeat constructor; vm_compute; done. }
  { cbn. lia. }
  exists (run_ops kmsg_boot [OpAdd boot_cpu 1 6 [65; 10] 2]), lg. split; [exact Hr |].
  assert (Hn : nseq lg = 1) by (rewrite <- (ring_next _ _ Hr); vm_compute; reflexivity).
  destruct (console_flush_in_order _ lg 1000 0 Hr ltac:(lia) ltac:(lia)) as [H _].
  vm_compute. reflexivity.
Defined.
