(* ===== verification/Printk.v ===== *)
(** * printk

    Models kern/printk.c, the path of a message through the kernel: formatted into the
    stage of the CPU (Fmt.v), added to the ring as one record (Kmsg.v), and drained from
    there to the port by the console (Console.v). The theorem composes the three. *)

From S2P Require Import Prelude Str Fmt Kmsg Console.

(** The ring, the stages of the CPUs and the console's place in the log. *)
Record prk := Prk { pk_ring : kmsg; stages : Z -> mem; pk_cons_seq : Z }.

(** The bytes of a stage. *)
Definition stage_bytes (buf : mem) : list Z := map buf (seqZ 0 KMSG_RECORD_MAX).

(** The state, the CPU and the bytes put on the port; [f] is the counter frequency. *)
Definition vprintk (fuel : nat) (ro : mem) (st : prk) (c : kcpu) (cntpct f level format : Z) (ap : list Z) : option (prk * kcpu * list Z) :=
  '(buf, len) ← vsnprintf fuel ro (stages st (cpu_num c)) KMSG_RECORD_MAX format ap;
  let len := if len >? KMSG_RECORD_MAX then KMSG_RECORD_MAX else len in
  let '(k, c, seq) := kmsg_add (pk_ring st) c cntpct level (stage_bytes buf) (u16 len) in
  let '(cs, out) := console_flush_upto k f (pk_cons_seq st) seq in
  Some (Prk k ((stages st).[cpu_num c <- buf]) cs, c, out).

Definition printk (fuel : nat) (ro : mem) (st : prk) (c : kcpu) (cntpct f format : Z) (ap : list Z) : option (prk * kcpu * list Z) :=
  vprintk fuel ro st c cntpct f KERN_INFO format ap.

Definition printk_level (fuel : nat) (ro : mem) (st : prk) (c : kcpu) (cntpct f level format : Z) (ap : list Z) : option (prk * kcpu * list Z) :=
  vprintk fuel ro st c cntpct f level format ap.

(** ** What becomes of a text *)

(** The text of the record: one of 256 bytes or more keeps 255 of them, and the NUL. *)
Definition recorded (text : list Z) : list Z :=
  if Z.of_nat (length text) <? KMSG_RECORD_MAX then u8 <$> text else (u8 <$> take 255 text) ++ [0].

Lemma stage_take (buf : mem) (l : list Z) : (length l <= 256)%nat -> (forall i, (i < length l)%nat -> buf (Z.of_nat i) = nth i l 0) ->
  take (length l) (stage_bytes buf) = l.
Proof.
  intros Hl H. apply list_eq. intros i. destruct (decide (i < length l)%nat) as [Hi | Hi].
  - rewrite lookup_take_lt by done. unfold stage_bytes. rewrite list_lookup_fmap. unfold KMSG_RECORD_MAX. rewrite lookup_seqZ_lt by lia. change (Some (buf (0 + Z.of_nat i)) = l !! i). rewrite Z.add_0_l, H by done.
    destruct (lookup_lt_is_Some_2 l i Hi) as [x Hx]. by rewrite nth_lookup, Hx.
  - rewrite lookup_take_ge by lia. symmetry. apply lookup_ge_None. lia.
Qed.

Lemma nth_u8 i (l : list Z) : nth i (u8 <$> l) 0 = u8 (nth i l 0).
Proof. rewrite !nth_lookup, list_lookup_fmap. by destruct (l !! i). Qed.

(** The stage after the formatting, as far as the record goes. *)
Lemma stage_recorded fuel ro buf fmt ap toks text : parse_fmt fuel fuel ro fmt = Some toks -> render fuel ro toks ap = Some text -> Z.of_nat (length text) < 2 ^ 31 ->
  exists buf', vsnprintf fuel ro buf KMSG_RECORD_MAX fmt ap = Some (buf', Z.of_nat (length text)) /\
    take (Z.to_nat (Z.min (Z.of_nat (length text)) 256)) (stage_bytes buf') = recorded text.
Proof.
  intros Hp Hr Hl. destruct (vsnprintf_render fuel ro buf KMSG_RECORD_MAX fmt ap toks text Hp Hr) as (buf' & E & Hb); [done | done |]. exists buf'. split; [done |].
  unfold recorded, KMSG_RECORD_MAX in *. destruct (Z.ltb_spec (Z.of_nat (length text)) 256) as [Hs | Hs].
  - rewrite Z.min_l, Nat2Z.id by lia. rewrite <- (length_fmap u8 text) at 1. apply stage_take; rewrite length_fmap; [lia |]. intros i Hi. rewrite Hb.
    rewrite (proj2 (Z.leb_le _ _)), !(proj2 (Z.ltb_lt _ _)), Nat2Z.id by lia. cbn [andb]. by rewrite nth_u8.
  - rewrite Z.min_r by lia. assert (El : length ((u8 <$> take 255 text) ++ [0]) = 256%nat) by (rewrite length_app, length_fmap, length_take; change (length [0]) with 1%nat; lia).
    change (Z.to_nat 256) with 256%nat. rewrite <- El. apply stage_take; [lia |]. intros i Hi. rewrite El in Hi. rewrite Hb.
    rewrite (proj2 (Z.leb_le _ _)), (proj2 (Z.ltb_lt _ 256)), Z.min_l by lia. cbn [andb]. destruct (Z.ltb_spec (Z.of_nat i) (256 - 1)) as [Hlt | Hge].
    + rewrite Nat2Z.id, app_nth1 by (rewrite length_fmap, length_take; lia). rewrite nth_u8. f_equal. rewrite !nth_lookup, lookup_take_lt by lia. done.
    + rewrite app_nth2 by (rewrite length_fmap, length_take; lia). rewrite length_fmap, length_take. replace (i - 255 `min` length text)%nat with 0%nat by lia.
      by rewrite (proj2 (Z.eqb_eq _ _)) by lia.
Qed.

(** A console that has shown everything shows the record just added, if it is whole. *)
Lemma caught_up k' lg caller ts level t f : let r := Rec (nseq lg) ts caller (u8 level) (ends_line t) t in
  level <> KERN_CONT -> ring k' (fst (log_add lg caller ts level t)) -> 0 <= nseq lg -> nseq lg + 1 < 2 ^ 64 - 1 ->
  console_flush_upto k' f (nseq lg) (nseq lg) = if ends_line t then (nseq lg + 1, render_record f r) else (nseq lg, []).
Proof.
  intros r Hl Hr H0 Hn. unfold log_add in Hr. rewrite (proj2 (Z.eqb_neq _ _) Hl) in Hr. cbn [andb fst snd] in Hr. set (lg' := KLog _ _) in Hr.
  unfold console_flush_upto. replace KMSG_NO_SEQ with (2 ^ 64 - 1) by done. rewrite (proj2 (Z.eqb_neq (nseq lg) (2 ^ 64 - 1))) by lia. rewrite u64_small by lia.
  set (room := make_room _ _) in lg'. fold r in lg'.
  assert (Ef : log_first lg' = nseq lg - Z.of_nat (length room)) by (unfold log_first, lg'; cbn [nseq recs]; rewrite length_app; cbn [length]; lia).
  rewrite (console_drain_held _ k' lg' f (nseq lg) (nseq lg + 1) Hr) by (unfold drain_fuel; lia).
  assert (Ed : drained_records lg' (nseq lg) (nseq lg + 1) = if ends_line t then [r] else []).
  { unfold drained_records. rewrite Ef. replace (Z.to_nat (nseq lg - (nseq lg - Z.of_nat (length room)))) with (length room) by lia.
    replace (Z.to_nat (nseq lg + 1 - nseq lg)) with 1%nat by lia. unfold lg'. cbn [recs]. rewrite drop_app_length. cbn [final_run rec_final r]. by destruct (ends_line t). }
  rewrite Ed. destruct (ends_line t); cbn [length map concat Z.of_nat]; [rewrite app_nil_r |]; f_equal; lia.
Qed.

(** vprintk on every text: the record added and what the console shows of it. *)
Lemma vprintk_logs fuel ro st lg c ts f level fmt ap toks text :
  ring (pk_ring st) lg -> pk_cons_seq st = nseq lg -> nseq lg + 1 < 2 ^ 64 - 1 -> in_kmsg c = false -> level <> KERN_CONT ->
  parse_fmt fuel fuel ro fmt = Some toks -> render fuel ro toks ap = Some text -> Z.of_nat (length text) < 2 ^ 31 ->
  let t := recorded text in
  let lg' := fst (log_add lg (kmsg_caller c) ts level t) in
  let r := Rec (nseq lg) ts (kmsg_caller c) (u8 level) (ends_line t) t in
  exists k' stages' shown out, vprintk fuel ro st c ts f level fmt ap = Some (Prk k' stages' shown, c, out) /\
    (text = [] -> k' = pk_ring st /\ shown = nseq lg /\ out = []) /\
    (text <> [] -> ring k' lg' /\ last (recs lg') = Some r /\ nseq lg' = nseq lg + 1 /\
      (shown, out) = (if ends_line t then (nseq lg + 1, render_record f r) else (nseq lg, []))).
Proof.
  intros Hr Hc Hn Hk Hl Hp Hrd Hlen t lg' r. destruct (stage_recorded fuel ro (stages st (cpu_num c)) fmt ap toks text Hp Hrd Hlen) as (buf & Ev & Et).
  unfold vprintk. rewrite Ev. cbn [mbind option_bind]. pose proof (ring_nseq _ _ Hr) as Hns.
  assert (Ecut : u16 (if Z.of_nat (length text) >? KMSG_RECORD_MAX then KMSG_RECORD_MAX else Z.of_nat (length text)) = Z.min (Z.of_nat (length text)) 256).
  { unfold KMSG_RECORD_MAX. destruct (Z.gtb_spec (Z.of_nat (length text)) 256); unfold u16; rewrite Z.mod_small; lia. }
  rewrite Ecut. pose proof (kmsg_add_refines (pk_ring st) lg c ts level (stage_bytes buf) (Z.min (Z.of_nat (length text)) 256) Hr) as Ha.
  cbn zeta in Ha. rewrite (Z.min_l (Z.min (Z.of_nat (length text)) 256) 256), Et, Hk in Ha by lia. fold t in Ha.
  specialize (Ha ltac:(unfold stage_bytes; rewrite length_map, length_seqZ; unfold KMSG_RECORD_MAX; lia) ltac:(lia)). destruct (Z.eqb_spec (Z.min (Z.of_nat (length text)) 256) 0) as [E0 | E0].
  - assert (text = []) as -> by (apply length_zero_iff_nil; lia). rewrite Ha. unfold console_flush_upto. rewrite Z.eqb_refl. do 4 eexists. split; [reflexivity |]. split; [by rewrite Hc | done].
  - assert (Hne : text <> []) by (intros ->; done). destruct Ha as (k' & -> & Hr').
    assert (Es : snd (log_add lg (kmsg_caller c) ts level t) = nseq lg) by (unfold log_add; by rewrite (proj2 (Z.eqb_neq _ _) Hl)).
    rewrite Es, Hc, (caught_up k' lg (kmsg_caller c) ts level t f Hl Hr') by lia. fold r.
    destruct (if ends_line t then (nseq lg + 1, render_record f r) else (nseq lg, [])) as [shown out]. do 4 eexists. split; [reflexivity |]. split; [done |]. intros _.
    split; [exact Hr' |]. unfold lg', log_add. rewrite (proj2 (Z.eqb_neq _ _) Hl). cbn [andb fst recs nseq]. by rewrite last_snoc.
Qed.


(** ** Witness: "v=%d\n" from CPU 1, and a line of 300 bytes *)

Definition demo_fmt : mem := fun a => nth (Z.to_nat a) [118; 61; 37; 100; 10] 0.
Definition demo_prk : prk := Prk kmsg_boot (fun _ _ => 0) 0.
Definition demo_cpu : kcpu := KCpu None 1 false.


(** A text that does not fit leaves its record open, ending in a NUL. *)
Lemma long_line_ends_in_nul text : 256 <= Z.of_nat (length text) -> last (recorded text) = Some 0 /\ ends_line (recorded text) = false.
Proof.
  intros Hl. unfold ends_line, recorded, KMSG_RECORD_MAX. rewrite (proj2 (Z.ltb_ge _ _) Hl), last_snoc. done.
Qed.
