(* ===== verification/Syscall.v ===== *)
(** * System calls

    Models kern/syscall.c with [growproc] of kern/proc.c: fetching the arguments from the
    trapframe, the handlers, and the dispatch. The state is what a call of one process can
    touch: its memory, its own fields ([task] of [Exec]), the console's input and the bytes
    put on the port. [fork], [exit], [wait] and [kill] run in the machine of [Proc]: the
    outcome names the function and its argument. *)

From S2P Require Import Prelude Bits Mmu Pages Pmap Copy Elf Exec ExecTop Console.

Definition WRITE_BOUNCE_SZ : Z := 128.
Definition READ_BOUNCE_SZ : Z := 128.
Definition MAXPATH : Z := 128.

Definition SYS_getpid : Z := 1.
Definition SYS_write : Z := 2.
Definition SYS_fork : Z := 3.
Definition SYS_exit : Z := 4.
Definition SYS_wait : Z := 5.
Definition SYS_kill : Z := 6.
Definition SYS_sbrk : Z := 7.
Definition SYS_exec : Z := 8.
Definition SYS_read : Z := 9.

Record sys (A : Type) := Sys {
  s_vm : vm A;
  s_task : task;
  s_pid : Z;
  s_asid : Z;
  s_cons : cons;
  s_out : list Z                (* bytes given to uart_putc, oldest first *)
}.
Arguments Sys {A} _ _ _ _ _ _.
Arguments s_vm {A} _.
Arguments s_task {A} _.
Arguments s_pid {A} _.
Arguments s_asid {A} _.
Arguments s_cons {A} _.
Arguments s_out {A} _.

(** Calls that go on in the machine of the processes. *)
Inductive pcall := CFork | CExit (status : Z) | CWait (xstatus : Z) | CKill (pid : Z).

(** A handler returns, goes on in the process machine, or sleeps in console_read with [n]
    bytes to go of [target] for the user buffer, after [acc]. *)
Inductive outcome (A : Type) :=
| Done (st : sys A) (v : Z)
| Call (st : sys A) (c : pcall)
| Asleep (st : sys A) (user_buf n target : Z) (acc : list Z).
Arguments Done {A} _ _.
Arguments Call {A} _ _.
Arguments Asleep {A} _ _ _ _ _.

(** (uint64)-1 *)
Definition ERR : Z := u64 (-1).

Section ops.
Context {A : Type} `{PageAlloc A}.
Implicit Types st : sys A.

Definition with_mem st (v : vm A) : sys A := Sys v (s_task st) (s_pid st) (s_asid st) (s_cons st) (s_out st).
Definition with_task st (p : task) : sys A := Sys (s_vm st) p (s_pid st) (s_asid st) (s_cons st) (s_out st).
Definition with_cons st (c : cons) : sys A := Sys (s_vm st) (s_task st) (s_pid st) (s_asid st) c (s_out st).

(** console_write: every byte to the port. *)
Definition console_write st (l : list Z) : sys A := Sys (s_vm st) (s_task st) (s_pid st) (s_asid st) (s_cons st) (s_out st ++ l).

Definition argraw st (n : Z) : res Z :=
  kassert ((0 <=? n) && (n <=? 5)) msg "argraw: bad arg index";; Ret (tf_x (tf (s_task st)) n).

Definition argint st (n : Z) : res Z := x ← argraw st n; Ret (s32 x).
Definition argaddr st (n : Z) : res Z := argraw st n.
Definition arglong st (n : Z) : res Z := argraw st n.

Definition sys_getpid st : res (outcome A) := Ret (Done st (u64 (s_pid st))).
Definition sys_fork st : res (outcome A) := Ret (Call st CFork).
Definition sys_exit st : res (outcome A) := status ← argint st 0; Ret (Call st (CExit status)).
Definition sys_wait st : res (outcome A) := xstatus ← argaddr st 0; Ret (Call st (CWait xstatus)).
Definition sys_kill st : res (outcome A) := pid ← argint st 0; Ret (Call st (CKill pid)).

(** growproc: the result, 0 or -1. [-n] is an int. *)
Definition growproc st (n : Z) : res (sys A * Z) :=
  let p := s_task st in
  let grown st sz := with_task st (Task (pagetable p) sz (tf p) (name p) (ttbr0 p)) in
  if n >? 0 then
    '(v, sz) ← uvmalloc (s_vm st) (pagetable p) (sz p) (u64 (sz p + n));
    let st := with_mem st v in
    if sz =? 0 then Ret (st, -1) else Ret (grown st sz, 0)
  else if n <? 0 then
    if u64 (s32 (- n)) >? sz p then Ret (st, -1)
    else
      '(v, sz) ← uvmdealloc (s_vm st) (pagetable p) (sz p) (u64 (sz p + n));
      Ret (grown (with_mem st v) sz, 0)
  else Ret (grown st (sz p), 0).

Definition sys_sbrk st : res (outcome A) :=
  n ← argint st 0;
  let old := sz (s_task st) in
  '(st, r) ← growproc st n;
  Ret (Done st (if r <? 0 then ERR else old)).

(** The path without its terminator; [blobs] are the linked programs. *)
Definition sys_exec (blobs : list (list Z * blob)) st : res (outcome A) :=
  user_path ← argaddr st 0;
  uargv ← argaddr st 1;
  let '(r, path) := copyinstr (kw (s_vm st)) (pagetable (s_task st)) user_path MAXPATH in
  if r <? 0 then Ret (Done st ERR)
  else
    '(v, p, r) ← exec blobs (s_vm st) (s_task st) (s_asid st) (removelast path) uargv;
    Ret (Done (with_task (with_mem st v) p) (u64 r)).

(** while (done < n), a turn for each chunk. *)
Fixpoint write_loop (fuel : nat) st (user_buf n done : Z) : sys A * Z :=
  match fuel with
  | O => (st, done)
  | S f =>
      if done <? n then
        let chunk := if u64 (n - done) >? WRITE_BOUNCE_SZ then WRITE_BOUNCE_SZ else u64 (n - done) in
        let '(r, l) := copyin (kw (s_vm st)) (pagetable (s_task st)) (u64 (user_buf + done)) chunk in
        if r <? 0 then (st, if done =? 0 then ERR else done)
        else write_loop f (console_write st l) user_buf n (u64 (done + chunk))
      else (st, done)
  end.

Definition sys_write st : res (outcome A) :=
  fd ← argint st 0;
  user_buf ← argaddr st 1;
  n ← arglong st 2;
  if negb (fd =? 1) && negb (fd =? 2) then Ret (Done st ERR)
  else let '(st, r) := write_loop (S (Z.to_nat (n / WRITE_BOUNCE_SZ + 1))) st user_buf n 0 in Ret (Done st r).

(** After console_read. A killed reader gets (uint64)-1 bytes, which only the range check of
    copyout stops; past it, copyout would read beyond the bounce buffer. *)
Definition read_finish st (user_buf target : Z) (r : rd) : res (outcome A) :=
  match r with
  | RdSleep c n acc => Ret (Asleep (with_cons st c) user_buf n target acc)
  | RdKilled c =>
      if user_range_ok user_buf ERR then Panic "copyout past the bounce buffer" else Ret (Done (with_cons st c) ERR)
  | RdDone c acc =>
      let got := Z.of_nat (length acc) in
      if got <=? 0 then Ret (Done (with_cons st c) got)
      else
        let '(w, r) := copyout (kw (s_vm st)) (pagetable (s_task st)) user_buf acc in
        let st := with_mem (with_cons st c) (Vm w (al (s_vm st))) in
        Ret (Done st (if r <? 0 then ERR else got))
  end.

Definition sys_read st (killed : bool) : res (outcome A) :=
  fd ← argint st 0;
  user_buf ← argaddr st 1;
  n ← arglong st 2;
  if negb (fd =? 0) then Ret (Done st ERR)
  else if n =? 0 then Ret (Done st 0)
  else
    let chunk := if n <? READ_BOUNCE_SZ then n else READ_BOUNCE_SZ in
    read_finish st user_buf chunk (console_read (s_cons st) killed chunk).

(** The sleeper is woken. *)
Definition read_resume st (killed : bool) (user_buf n target : Z) (acc : list Z) : res (outcome A) :=
  read_finish st user_buf target (read_loop (S (Z.to_nat n)) (s_cons st) killed n target acc).

Definition syscalls (blobs : list (list Z * blob)) (killed : bool) (num : Z) : option (sys A -> res (outcome A)) :=
  if num =? SYS_getpid then Some sys_getpid
  else if num =? SYS_write then Some sys_write
  else if num =? SYS_fork then Some sys_fork
  else if num =? SYS_exit then Some sys_exit
  else if num =? SYS_wait then Some sys_wait
  else if num =? SYS_kill then Some sys_kill
  else if num =? SYS_sbrk then Some sys_sbrk
  else if num =? SYS_exec then Some (sys_exec blobs)
  else if num =? SYS_read then Some (fun st => sys_read st killed)
  else None.

(** p->tf->x[0] = v *)
Definition set_x0 st (v : Z) : sys A :=
  let p := s_task st in
  let f := tf p in
  with_task st (Task (pagetable p) (sz p) (Trapframe (tf_x f).[0 <- v] (tf_sp f) (tf_elr f) (tf_spsr f) (tf_tpidr f)) (name p) (ttbr0 p)).

(** A call that goes on elsewhere stores its result with [set_x0] when it comes back. *)
Definition syscall (blobs : list (list Z * blob)) (killed : bool) st : res (outcome A) :=
  let num := tf_x (tf (s_task st)) 8 in
  match syscalls blobs killed num with
  | Some f =>
      r ← f st;
      Ret (match r with Done st v => Done (set_x0 st v) v | r => r end)
  | None => Ret (Done (set_x0 st ERR) ERR)
  end.
End ops.

(** ** Lemmas *)

#[local] Abbreviation ptroot := (ptree 4).

Definition regs_ok (f : trapframe) : Prop := forall i, 0 <= tf_x f i < 2 ^ 64.

Section proofs.
Context {A : Type} `{PageAllocLaws A}.
Implicit Types (st : sys A) (t : ptroot).

(** The process is running on the tree [t]. *)
Definition runs st t : Prop := own (s_vm st) 4 t /\ pagetable (s_task st) = t.1 /\ regs_ok (tf (s_task st)).

Lemma console_write_nil st : console_write st [] = st.
Proof. unfold console_write. rewrite app_nil_r. by destruct st. Qed.

Lemma console_write_app st l l' : console_write (console_write st l) l' = console_write st (l ++ l').
Proof. unfold console_write. cbn. by rewrite app_assoc. Qed.

Lemma reads_app w t src l l' : reads w t src l -> reads w t (src + Z.of_nat (length l)) l' -> reads w t src (l ++ l').
Proof.
  intros Hl Hl' i b Hi. apply lookup_app_Some in Hi as [Hi | [Hge Hi]]; [by apply Hl |]. rewrite <- (Hl' _ _ Hi). f_equal. lia.
Qed.

(** The process may not read all of the next chunk. *)
Definition chunk_faults (w : Z -> Z) t (buf k n : Z) : Prop :=
  exists i, 0 <= i < Z.min 128 (n - k) /\ (2 ^ 48 <= buf + k + i \/ ubyte w t (buf + k + i) = None).

Lemma copyin_chunk v t src len : own v 4 t -> 0 <= src < 2 ^ 64 -> 0 < len <= 128 ->
  let '(r, l) := copyin (kw v) t.1 src len in
  reads (kw v) t src l /\ (r = 0 /\ Z.of_nat (length l) = len /\ src + len <= 2 ^ 48 \/
    r = -1 /\ exists i, 0 <= i < len /\ (2 ^ 48 <= src + i \/ ubyte (kw v) t (src + i) = None)).
Proof.
  intros Ho Hs Hl. destruct (copyin_spec v t src len Ho Hs ltac:(lia)) as [Hc _]. unfold copyin in *. destruct (Z.eqb_spec len 0); [lia |].
  rewrite range_ok in * by lia. destruct (Z.leb_spec (src + len) (2 ^ 48)) as [Hle | Hgt]; cbn [negb] in *.
  - destruct (copyin_bytes _ _ _ _) as [r l]. destruct Hc as [Hr [[-> Hlen] | (-> & [Hx | (i & Hi & Hn)])]]; [| lia |]; (split; [done |]); [by left | right].
    split; [done |]. exists i. split; [done | by right].
  - split; [apply Hc |]. right. split; [done |]. exists (len - 1). split; [lia | left; lia].
Qed.

Lemma write_loop_spec t buf n fuel : 0 <= buf < 2 ^ 64 -> 0 <= n < 2 ^ 64 -> forall st done, own (s_vm st) 4 t -> pagetable (s_task st) = t.1 ->
  0 <= done <= n -> done mod 128 = 0 \/ done = n -> done = 0 \/ buf + done <= 2 ^ 48 -> n - done <= Z.of_nat fuel * 128 ->
  exists l v, write_loop fuel st buf n done = (console_write st l, v) /\ reads (kw (s_vm st)) t (buf + done) l /\
    let k := done + Z.of_nat (length l) in
    (v = n /\ k = n \/ v = (if k =? 0 then ERR else k) /\ k mod 128 = 0 /\ k < n /\ chunk_faults (kw (s_vm st)) t buf k n).
Proof.
  intros Hb Hn. induction fuel as [| f IH]; intros st done Ho Hp Hd Hm Ht Hf; cbn [write_loop].
  { exists [], done. rewrite console_write_nil. split; [done |]. split; [done |]. cbn. left. lia. }
  destruct (Z.ltb_spec done n) as [Hlt | Hge].
  2: { exists [], done. rewrite console_write_nil. split; [done |]. split; [done |]. cbn. left. lia. }
  rewrite (u64_small (n - done)) by lia. rewrite Z.gtb_ltb. unfold WRITE_BOUNCE_SZ. rewrite Hp.
  assert (Hc : (if 128 <? n - done then 128 else n - done) = Z.min 128 (n - done)) by (destruct (Z.ltb_spec 128 (n - done)); lia). rewrite Hc.
  set (c := Z.min 128 (n - done)) in *. assert (Hbd : buf + done < 2 ^ 64) by lia. rewrite (u64_small (buf + done)) by lia.
  pose proof (copyin_chunk (s_vm st) t (buf + done) c Ho ltac:(lia) ltac:(lia)) as Hx. destruct (copyin _ _ _ _) as [r l].
  destruct Hx as [Hr [(-> & Hlen & Hle) | (-> & i & Hi & Hflt)]].
  - cbn [Z.ltb Z.compare]. rewrite (u64_small (done + c)) by lia.
    destruct (IH (console_write st l) (done + c) Ho Hp ltac:(lia)) as (l' & v & E & Hr' & Hv); [| lia | lia |].
    { destruct (decide (128 <= n - done)); [left | right; lia]. assert (c = 128) as -> by lia. rewrite <- Z.add_mod_idemp_r by lia. destruct Hm as [Hm | ?]; [| lia].
      rewrite <- Z.add_mod_idemp_l, Hm by lia. done. }
    exists (l ++ l'), v. rewrite E, console_write_app. split; [done |]. split.
    + apply reads_app; [done |]. by replace (buf + done + Z.of_nat (length l)) with (buf + (done + c)) by lia.
    + rewrite length_app. by replace (done + Z.of_nat (length l + length l')) with (done + c + Z.of_nat (length l')) by lia.
  - cbn [Z.ltb Z.compare]. exists [], (if done =? 0 then ERR else done). rewrite console_write_nil. split; [done |]. split; [done |]. cbn [length Z.of_nat]. rewrite Z.add_0_r.
    right. split; [done |]. split; [destruct Hm; [done | lia] |]. split; [done |]. by exists i.
Qed.

(** A break below the top of user space, with nothing mapped above it. *)
Definition break_ok st t : Prop :=
  0 <= sz (s_task st) <= 2 ^ 48 - 2 ^ 31 /\ forall x, (sz (s_task st) + 4095) / 4096 <= x < 2 ^ 36 -> maps t x = None.

Lemma s32_range x : - 2 ^ 31 <= s32 x < 2 ^ 31.
Proof. unfold s32. pose proof (Z.mod_pos_bound (x + 2147483648) 4294967296). lia. Qed.

Definition same_maps t t' : Prop := forall x, in_space x -> maps t' x = maps t x.

(** growproc, on every branch. *)
Lemma growproc_spec st t n : pa_ok (al (s_vm st)) -> runs st t -> break_ok st t -> - 2 ^ 31 <= n < 2 ^ 31 ->
  let p := s_task st in
  exists v t' r sz', growproc st n = Ret (with_task (with_mem st v) (Task (pagetable p) sz' (tf p) (name p) (ttbr0 p)), r) /\ evolves (s_vm st) t v t' /\
    (r = -1 /\ sz' = sz p /\ same_maps t t' /\ (0 < n \/ sz p + n < 0 \/ n = - 2 ^ 31) \/
     r = 0 /\ sz' = sz p + n /\ 0 <= sz' /\
     if 0 <? n then filled (s_vm st) (kw v) t t' ((sz p + 4095) / 4096) ((sz' + 4095) / 4096) (alloc_page (kw v))
     else forall x, in_space x -> maps t' x = if ((sz' + 4095) / 4096 <=? x) && (x <? (sz p + 4095) / 4096) then None else maps t x).
Proof.
  intros Hok (Ho & Hp & _) [Hsz Habove] Hn p. unfold growproc. fold p in Hsz, Habove, Hp |- *. rewrite Hp.
  assert (Hid : with_task (with_mem st (s_vm st)) (Task t.1 (sz p) (tf p) (name p) (ttbr0 p)) = st).
  { unfold with_task, with_mem. rewrite <- Hp. by destruct st as [? [] ? ? ? ?]. }
  assert (Hrefl : evolves (s_vm st) t (s_vm st) t) by (apply grows_evolves; [done | by apply grows_refl]).
  rewrite Z.gtb_ltb. destruct (Z.ltb_spec 0 n) as [Hpos | Hnp].
  - rewrite u64_small by lia. destruct (uvmalloc_spec (s_vm st) t (sz p) (sz p + n) Hok Ho ltac:(lia) ltac:(lia)) as (v & t' & r & E & Ev & Hr).
    { intros x Hx. apply Habove. Z.div_mod_to_equations. lia. }
    rewrite E. cbn [mbind res_bind]. destruct Hr as [[-> Hf] | [-> Hs]].
    + destruct (Z.eqb_spec (sz p + n) 0); [lia |]. exists v, t', 0, (sz p + n). split; [done |]. split; [done |]. right. split_and!; try done; lia.
    + cbn [Z.eqb]. exists v, t', (-1), (sz p). split; [| split; [done |]; left; split_and!; try done; by left].
      f_equal. f_equal. unfold with_task, with_mem. cbn. rewrite <- Hp. by unfold p; destruct (s_task st).
  - destruct (Z.ltb_spec n 0) as [Hneg | Hz].
    + rewrite Z.gtb_ltb. assert (Hun : u64 (s32 (- n)) = if n =? - 2 ^ 31 then 2 ^ 64 - 2 ^ 31 else - n).
      { destruct (Z.eqb_spec n (- 2 ^ 31)) as [-> |]; [done |]. words. }
      rewrite Hun. destruct (Z.eqb_spec n (- 2 ^ 31)) as [-> | Hmin].
      { destruct (Z.ltb_spec (sz p) (2 ^ 64 - 2 ^ 31)); [| lia]. exists (s_vm st), t, (-1), (sz p). rewrite Hid. split; [done |]. split; [done |]. left. split_and!; try done.
        right. by right. }
      destruct (Z.ltb_spec (sz p) (- n)) as [Hlt | Hge].
      { exists (s_vm st), t, (-1), (sz p). rewrite Hid. split; [done |]. split; [done |]. left. split_and!; try done. right. left. lia. }
      rewrite u64_small by lia. destruct (uvmdealloc_spec (s_vm st) t (sz p) (sz p + n) Hok Ho ltac:(lia) ltac:(lia)) as (v & t' & E & G & _ & Hm).
      rewrite E. cbn [mbind res_bind]. rewrite Z.geb_leb. destruct (Z.leb_spec (sz p) (sz p + n)); [lia |]. exists v, t', 0, (sz p + n).
      split; [done |]. split; [by apply shrinks_evolves |]. right. split_and!; try done. lia.
    + assert (n = 0) as -> by lia. exists (s_vm st), t, 0, (sz p). split; [done |]. split; [done |]. right. split_and!; try done; try lia.
      intros x _. destruct (Z.leb_spec ((sz p + 4095) / 4096) x), (Z.ltb_spec x ((sz p + 4095) / 4096)); cbn; try lia; done.
Qed.

(** console_read delivers bytes, no more than asked for. *)
Lemma read_loop_bytes fuel : forall c killed n target acc, 0 <= n -> (forall i, 0 <= c_buf c i < 256) -> Forall (fun b => 0 <= b < 256) acc ->
  match read_loop fuel c killed n target acc with
  | RdSleep c' n' acc' => Forall (fun b => 0 <= b < 256) acc' /\ 0 <= n' /\ Z.of_nat (length acc') + n' = Z.of_nat (length acc) + n /\ c_buf c' = c_buf c
  | RdKilled c' => c_buf c' = c_buf c
  | RdDone c' acc' => Forall (fun b => 0 <= b < 256) acc' /\ Z.of_nat (length acc') <= Z.of_nat (length acc) + n /\ c_buf c' = c_buf c
  end.
Proof.
  induction fuel as [| f IH]; intros c killed n target acc Hn Hc Ha; cbn [read_loop]; [split_and!; try done; lia |].
  rewrite Z.gtb_ltb. destruct (Z.ltb_spec 0 n); [| split_and!; try done; lia]. destruct (c_r c =? c_w c); [destruct killed; [done | split_and!; try done; lia] |].
  assert (Ha' : Forall (fun b => 0 <= b < 256) (acc ++ [c_buf c (c_r c mod INPUT_BUF_SIZE)])) by (apply Forall_app; split; [done | by constructor]).
  destruct (_ =? CTRL 68); [destruct (n <? target); split_and!; try done; lia |]. destruct (_ =? 10); [split_and!; try done; rewrite length_app; cbn; lia |].
  specialize (IH (Cons (c_buf c) (u64 (c_r c + 1)) (c_w c) (c_e c)) killed (n - 1) target _ ltac:(lia) Hc Ha').
  rewrite length_app in IH. cbn [length c_buf] in IH. destruct (read_loop f _ killed (n - 1) target _); [| done |]; split_and!; try apply IH; destruct IH as (_ & IH); lia.
Qed.

Lemma range_ERR buf : 0 <= buf -> user_range_ok buf ERR = false.
Proof.
  intros Hb. unfold user_range_ok. change MAXUVA with (2 ^ 48). change ERR with (2 ^ 64 - 1). rewrite Z.geb_leb, Z.gtb_ltb.
  destruct (Z.leb_spec (2 ^ 48) buf), (Z.ltb_spec (2 ^ 48 - buf) (2 ^ 64 - 1)); try lia; done.
Qed.

Lemma arg_ret st n : 0 <= n <= 5 -> argraw st n = Ret (tf_x (tf (s_task st)) n).
Proof. intros Hn. unfold argraw. destruct (Z.leb_spec 0 n), (Z.leb_spec n 5); try lia. done. Qed.

(** The linked programs can be loaded: see [exec_task_spec]. *)
Definition images_ok (blobs : list (list Z * blob)) : Prop :=
  forall path img size, resolve blobs path = Some (img, size) ->
    bytes_ok img /\ apart (segs img (Z.to_nat (phnum (elfhdr_at img)))) /\ top (segs img (Z.to_nat (phnum (elfhdr_at img)))) + 4096 <= 2 ^ 48.

(** The calls that are not answered here, by number, with what they take from x0. *)
Definition handed st : option pcall :=
  let num := tf_x (tf (s_task st)) 8 in
  let x0 := tf_x (tf (s_task st)) 0 in
  if num =? SYS_fork then Some CFork
  else if num =? SYS_exit then Some (CExit (s32 x0))
  else if num =? SYS_wait then Some (CWait x0)
  else if num =? SYS_kill then Some (CKill (s32 x0))
  else None.

Lemma syscalls_ret blobs killed st t f : pa_ok (al (s_vm st)) -> runs st t -> break_ok st t -> images_ok blobs ->
  syscalls blobs killed (tf_x (tf (s_task st)) 8) = Some f ->
  exists o, f st = Ret o /\
    match o with Call st' c => st' = st /\ handed st = Some c | Asleep st' _ _ _ _ => handed st = None /\ s_vm st' = s_vm st /\ s_task st' = s_task st | Done _ _ => handed st = None end.
Proof.
  intros Hok Hruns Hbr Himg. pose proof Hruns as (Ho & Hp & Hregs). unfold syscalls.
  repeat match goal with |- context [tf_x (tf (s_task st)) 8 =? ?k] =>
    let E := fresh "E" in destruct (Z.eqb_spec (tf_x (tf (s_task st)) 8) k) as [E | _]; [eassert (Hh : handed st = _) by (unfold handed; rewrite E; reflexivity); intros [= <-] |] end; try done.
  - eexists. by split.
  - unfold sys_write, argint, argaddr, arglong. rewrite !arg_ret by lia. cbn [mbind res_bind]. destruct (_ && _); [by eexists |]. destruct (write_loop _ _ _ _ _). by eexists.
  - by eexists.
  - unfold sys_exit, argint. rewrite !arg_ret by lia. cbn [mbind res_bind]. by eexists.
  - unfold sys_wait, argaddr. rewrite !arg_ret by lia. cbn [mbind res_bind]. by eexists.
  - unfold sys_kill, argint. rewrite !arg_ret by lia. cbn [mbind res_bind]. by eexists.
  - unfold sys_sbrk, argint. rewrite !arg_ret by lia. cbn [mbind res_bind].
    destruct (growproc_spec st t (s32 (tf_x (tf (s_task st)) 0)) Hok Hruns Hbr (s32_range _)) as (v & t' & r & sz' & -> & _). cbn [mbind res_bind]. by eexists.
  - unfold sys_exec, argaddr. rewrite !arg_ret by lia. cbn [mbind res_bind]. destruct (copyinstr _ _ _ _) as [r path]. destruct (r <? 0); [by eexists |].
    destruct (exec_task_spec blobs (s_vm st) t (s_task st) (s_asid st) (removelast path) (tf_x (tf (s_task st)) 1) Hok Ho Hp (Hregs 1)) as (v & p' & r' & -> & _).
    { intros img size Hr. exact (Himg _ img size Hr). }
    cbn [mbind res_bind]. by eexists.
  - unfold sys_read, argint, argaddr, arglong. rewrite !arg_ret by lia. cbn [mbind res_bind]. destruct (negb _); [by eexists |]. destruct (_ =? 0); [by eexists |].
    unfold read_finish. destruct (console_read _ _ _) as [c n acc | c | c acc].
    + by eexists.
    + rewrite range_ERR by apply Hregs. by eexists.
    + destruct (_ <=? 0); [by eexists |]. destruct (copyout _ _ _ _). by eexists.
Qed.

Lemma unknown_not_handed blobs killed st : syscalls (A := A) blobs killed (tf_x (tf (s_task st)) 8) = None -> handed st = None.
Proof. unfold syscalls, handed. by repeat case_match. Qed.
End proofs.

(** ** Theorems *)


(** C19: sys_write puts on the port exactly the bytes the process has at its buffer, and
    returns how many: all [n], or fewer only when the process may not read all of the next
    128-byte chunk, and then -1 when that is the first. Nothing else changes. Any file
    descriptor but 1 and 2 gives -1 with no output. *)
Theorem sys_write_exact {A} `{PageAllocLaws A} (st : sys A) (t : ptroot) : runs st t ->
  let x := tf_x (tf (s_task st)) in
  let fd := s32 (x 0) in
  let buf := x 1 in
  let n := x 2 in
  exists l v, sys_write st = Ret (Done (console_write st l) v) /\
  if (fd =? 1) || (fd =? 2) then
    reads (kw (s_vm st)) t buf l /\
    let k := Z.of_nat (length l) in
    (v = n /\ k = n \/ v = (if k =? 0 then ERR else k) /\ k mod 128 = 0 /\ k < n /\ chunk_faults (kw (s_vm st)) t buf k n)
  else l = [] /\ v = ERR.
Proof.
  intros (Ho & Hp & Hregs) x fd buf n. unfold sys_write, argint, argaddr, arglong. rewrite !arg_ret by lia. cbn [mbind res_bind]. fold x. fold fd. fold buf. fold n.
  assert (Hn : 0 <= n < 2 ^ 64) by apply Hregs. rewrite <- negb_orb. destruct ((fd =? 1) || (fd =? 2)); cbn [negb].
  - destruct (write_loop_spec t buf n (S (Z.to_nat (n / WRITE_BOUNCE_SZ + 1))) (Hregs 1) Hn st 0 Ho Hp) as (l & v & -> & Hr & Hv);
      [lia | by left | by left | unfold WRITE_BOUNCE_SZ; Z.div_mod_to_equations; lia |]. exists l, v. rewrite Z.add_0_r in Hr. by split.
  - exists [], ERR. by rewrite console_write_nil.
Qed.

(** C20: for a break at least 2 GB below the top of user space with nothing mapped above it
    ([break_ok]), sys_sbrk returns the old break and moves it by [n]: up, with exactly the new pages
    mapped, clear and fresh; down, with exactly the pages above the new break unmapped; or
    it returns -1 with break and mappings as they were, when memory runs out or the break
    would go below 0 (or for the least int, which has no negation). Pages of others are
    untouched and none is lost. *)
Theorem sys_sbrk_moves_break {A} `{PageAllocLaws A} (st : sys A) (t : ptroot) : pa_ok (al (s_vm st)) -> runs st t -> break_ok st t ->
  let p := s_task st in
  let n := s32 (tf_x (tf p) 0) in
  exists v t' sz' r, sys_sbrk st = Ret (Done (with_task (with_mem st v) (Task (pagetable p) sz' (tf p) (name p) (ttbr0 p))) r) /\ evolves (s_vm st) t v t' /\
    (r = ERR /\ sz' = sz p /\ same_maps t t' /\ (0 < n \/ sz p + n < 0 \/ n = - 2 ^ 31) \/
     r = sz p /\ sz' = sz p + n /\ 0 <= sz' /\
     if 0 <? n then filled (s_vm st) (kw v) t t' ((sz p + 4095) / 4096) ((sz' + 4095) / 4096) (alloc_page (kw v))
     else forall x, in_space x -> maps t' x = if ((sz' + 4095) / 4096 <=? x) && (x <? (sz p + 4095) / 4096) then None else maps t x).
Proof.
  intros Hok Hr Hb p n. unfold sys_sbrk, argint. rewrite !arg_ret by lia. cbn [mbind res_bind]. fold p. fold n.
  destruct (growproc_spec st t n Hok Hr Hb (s32_range _)) as (v & t' & r & sz' & -> & Ev & Hx). cbn [mbind res_bind].
  exists v, t', sz', (if r <? 0 then ERR else sz p). split; [done |]. split; [done |]. destruct Hx as [(-> & Hx) | (-> & Hx)]; [by left | by right].
Qed.

(** sys_read asks the console for at most 128 bytes and delivers exactly what it gave:
    the process then reads those bytes at its buffer and no other byte of it or of anyone
    changes. When the buffer cannot be written, -1 (the bytes are lost); a killed reader
    gets -1 and nothing is stored; what a sleeper has so far fits with what is to come. *)
Theorem sys_read_delivers {A} `{PageAllocLaws A} (st : sys A) (t : ptroot) killed : runs st t -> (forall i, 0 <= c_buf (s_cons st) i < 256) ->
  let x := tf_x (tf (s_task st)) in
  let buf := x 1 in
  let n := x 2 in
  let chunk := Z.min n 128 in
  if negb (s32 (x 0) =? 0) then sys_read st killed = Ret (Done st ERR)
  else if n =? 0 then sys_read st killed = Ret (Done st 0)
  else match console_read (s_cons st) killed chunk with
  | RdSleep c m acc => sys_read st killed = Ret (Asleep (with_cons st c) buf m chunk acc) /\ Z.of_nat (length acc) + m = chunk
  | RdKilled c => sys_read st killed = Ret (Done (with_cons st c) ERR)
  | RdDone c acc => Z.of_nat (length acc) <= chunk /\
      exists w k v, sys_read st killed = Ret (Done (with_mem (with_cons st c) (Vm w (al (s_vm st)))) v) /\
        wrote (kw (s_vm st)) w t buf (take k acc) /\ own (Vm w (al (s_vm st))) 4 t /\
        (v = Z.of_nat (length acc) /\ k = length acc \/
         v = ERR /\ (k < length acc)%nat /\ (buf + Z.of_nat (length acc) > 2 ^ 48 /\ k = O \/ uaddr true t (buf + Z.of_nat k) = None))
  end.
Proof.
  intros (Ho & Hp & Hregs) Hc x buf n chunk. unfold sys_read, argint, argaddr, arglong. rewrite !arg_ret by lia. cbn [mbind res_bind]. fold x. fold buf. fold n.
  destruct (negb (s32 (x 0) =? 0)); [done |]. destruct (Z.eqb_spec n 0) as [| Hn]; [done |]. assert (Hn' : 0 <= n) by apply Hregs. assert (Hbuf : 0 <= buf < 2 ^ 64) by apply Hregs.
  assert (Echunk : (if n <? READ_BOUNCE_SZ then n else READ_BOUNCE_SZ) = chunk) by (unfold chunk, READ_BOUNCE_SZ; destruct (Z.ltb_spec n 128); lia). rewrite Echunk.
  pose proof (read_loop_bytes (S (Z.to_nat chunk)) (s_cons st) killed chunk chunk [] ltac:(lia) Hc ltac:(constructor)) as Hb. unfold console_read, read_finish.
  destruct (read_loop _ (s_cons st) killed chunk chunk []) as [c m acc | c | c acc]; cbn [length] in Hb.
  - split; [done | lia].
  - by rewrite range_ERR by lia.
  - destruct Hb as (Hby & Hlen & _). split; [lia |]. rewrite Hp. pose proof (copyout_spec (s_vm st) t buf acc Ho Hbuf Hby) as Hx.
    destruct (Z.leb_spec (Z.of_nat (length acc)) 0) as [Hz | Hz].
    + destruct acc; [| cbn in Hz; lia]. unfold copyout in Hx. cbn [length Z.of_nat Z.eqb] in Hx. destruct Hx as (k & Hw & Ho' & _). rewrite take_nil in Hw.
      exists (kw (s_vm st)), O, 0. split; [| split; [done |]; split; [done |]; by left].
      f_equal. f_equal. unfold with_mem, with_cons. cbn. by destruct (s_vm st).
    + destruct (copyout _ _ _ _) as [w r]. destruct Hx as (k & Hw & Ho' & Hr). exists w, k, (if r <? 0 then ERR else Z.of_nat (length acc)).
      split; [done |]. split; [done |]. split; [done |]. destruct Hr as [[-> ->] | (-> & Hr)]; [by left | by right].
Qed.

(** ** Witnesses *)

Definition demo_sys (v : vm (list Z)) (x : Z -> Z) : sys (list Z) :=
  Sys v (Task (page_no 0) 0x6000 (Trapframe x 0 0 0 0) [] 0) 1 1 (Cons (fun _ => 65) 0 2 2) [].

(** Registers x0 to x2 and x8. *)
Definition demo_regs (a b c num : Z) : Z -> Z := fun i => if i =? 0 then a else if i =? 1 then b else if i =? 2 then c else if i =? 8 then num else 0.

Lemma demo_regs_ok a b c num : 0 <= a < 2 ^ 64 -> 0 <= b < 2 ^ 64 -> 0 <= c < 2 ^ 64 -> 0 <= num < 2 ^ 64 -> forall i, 0 <= demo_regs a b c num i < 2 ^ 64.
Proof. intros Ha Hb Hc Hn i. unfold demo_regs. repeat case_match; try done; lia. Qed.

Lemma demo_runs x : (forall i, 0 <= x i < 2 ^ 64) -> exists v t, runs (demo_sys v x) t /\ break_ok (demo_sys v x) t /\
  (forall va, 0x5000 <= va < 0x6000 -> ubyte (kw v) t va = Some 0) /\ forall va, 0x5000 <= va < 0x6000 -> uaddr true t va <> None.
Proof.
  intros Hx. destruct demo_space as (v & t & e & -> & Ho & Et & Hv & Hz & Hne & _). exists v, t. split; [| split; [| split]].
  - split; [exact Ho |]. split; [cbn; symmetry; exact Et | exact Hx].
  - split; [cbn; lia |]. intros y Hy. change ((sz _ + 4095) / 4096) with 6 in Hy. apply Hne; [unfold in_space; lia | lia].
  - exact (demo_ubyte v t Hv Hz).
  - intros va Hva. rewrite (demo_user v t va true Hv Hva). discriminate.
Qed.


Lemma sys_write_exact_witness : exists (st : sys (list Z)) l, sys_write st = Ret (Done (console_write st l) 4) /\ length l = 4%nat.
Proof.
  destruct (demo_runs (demo_regs 1 0x5000 4 2) (demo_regs_ok 1 0x5000 4 2 ltac:(lia) ltac:(lia) ltac:(lia) ltac:(lia))) as (v & t & Hr & _ & Hby & _).
  destruct (sys_write_exact _ t Hr) as (l & r & E & Hx). exists (demo_sys v (demo_regs 1 0x5000 4 2)), l.
  change ((s32 _ =? 1) || _) with true in Hx. cbn iota in Hx. destruct Hx as [_ Hx]. change (tf_x _ 1) with 0x5000 in Hx. change (tf_x _ 2) with 4 in Hx.
  change (s_vm _) with v in Hx. cbn zeta in Hx. destruct Hx as [[-> Hk] | (_ & Hk & Hlt & i & Hi & Hf)].
  - split; [exact E | lia].
  - exfalso. assert (Hl0 : Z.of_nat (length l) = 0) by (Z.div_mod_to_equations; lia). rewrite Hl0, Z.add_0_r in *. destruct Hf as [Hf | Hf]; [lia |]. rewrite Hby in Hf by lia. discriminate Hf.
Defined.

Lemma sys_sbrk_moves_break_witness : exists (st : sys (list Z)) st', sys_sbrk st = Ret (Done st' 0x6000) /\ sz (s_task st') = 0x5000.
Proof.
  destruct (demo_runs (demo_regs (2 ^ 64 - 4096) 0 0 7) (demo_regs_ok (2 ^ 64 - 4096) 0 0 7 ltac:(lia) ltac:(lia) ltac:(lia) ltac:(lia))) as (v & t & Hr & Hb & _).
  destruct (sys_sbrk_moves_break _ t (pool_ok _) Hr Hb) as (v' & t' & sz' & r & E & _ & Hx). eexists. eexists. split.
  - rewrite E. change (s32 _) with (-4096) in Hx. change (sz _) with 0x6000 in Hx. destruct Hx as [(_ & _ & _ & Hx) | (-> & _)]; [lia | reflexivity].
  - cbn. change (s32 _) with (-4096) in Hx. change (sz _) with 0x6000 in Hx. destruct Hx as [(_ & _ & _ & Hx) | (_ & -> & _)]; [lia | reflexivity].
Defined.

Lemma sys_read_delivers_witness : exists (st : sys (list Z)) t w c, sys_read st false = Ret (Done (with_mem (with_cons st c) (Vm w (al (s_vm st)))) 2) /\ ubyte w t 0x5001 = Some 65.
Proof.
  destruct (demo_runs (demo_regs 0 0x5000 2 9) (demo_regs_ok 0 0x5000 2 9 ltac:(lia) ltac:(lia) ltac:(lia) ltac:(lia))) as (v & t & Hr & _ & _ & Hw).
  pose proof (sys_read_delivers _ t false Hr ltac:(intros i; cbn; lia)) as Hx. set (st := demo_sys v _) in *. exists st, t.
  cbv zeta in Hx. change (tf_x (tf (s_task st)) 2) with 2 in Hx. change (tf_x (tf (s_task st)) 1) with 0x5000 in Hx. change (negb _) with false in Hx.
  change (Z.min 2 128) with 2 in Hx. change (2 =? 0) with false in Hx. cbv iota in Hx.
  assert (Ec : console_read (s_cons st) false 2 = RdDone (Cons (fun _ => 65) 2 2 2) [65; 65]) by (vm_compute; reflexivity).
  rewrite Ec in Hx. destruct Hx as (_ & w & k & r & E & [Hwr _] & _ & Hv). exists w, (Cons (fun _ => 65) 2 2 2).
  destruct Hv as [[-> ->] | (_ & Hk & [[Hb _] | Hf])]; [| cbn in Hb; lia | destruct (Hw (0x5000 + Z.of_nat k)); [cbn in Hk; lia | exact Hf]].
  split; [exact E |]. rewrite Hwr by lia. reflexivity.
Defined.

(** The break is not checked against the top of user space: growing past it stops the
    kernel at the assertion of walk. *)
Theorem sbrk_past_top_panics : exists st : sys (list Z), sz (s_task st) = MAXUVA /\ own (s_vm st) 4 (empty_table (page_no 0)) /\ pagetable (s_task st) = page_no 0 /\
  exists m, sys_sbrk st = Panic m.
Proof.
  exists (Sys st_empty (Task (page_no 0) MAXUVA (Trapframe (demo_regs 1 0 0 7) 0 0 0 0) [] 0) 1 1 (Cons (fun _ => 0) 0 0 0) []).
  split; [reflexivity |]. split; [exact own_st_root |]. split; [reflexivity |]. eexists. vm_compute. reflexivity.
Qed.
