(* ===== verification/Intr.v ===== *)
(** * Interrupt dispatch

    Models kern/intr.c and [trap_irq] of arch/trap.c: the table of sources, the dispatch in
    hardirq context, the hand-off to an interrupt thread with its sleep and the wakeup that ends
    it, and the acknowledge, priority drop and deactivation around it. A filter's answer is an
    input of the step. The thread tests [pending] and goes to sleep in one step, under
    [ithread_lock] (that [sleep] lets go of the lock and falls asleep with no gap for a wakeup
    is proved of [Proc]); setting [pending] and the [wakeup] that follows it are two.
    Interrupts are masked on a CPU from the exception to the return, so a CPU handles one at a
    time; CPUs and threads interleave.

    The controller is what the architecture documents of it: an acknowledged interrupt is
    active until it is deactivated, per CPU below [GIC_SPI_BASE] and once for the system
    above, and it is not signalled again while it is active. *)

From S2P Require Import Prelude Bits.

Definition FILTER_STRAY : Z := 0.
Definition FILTER_HANDLED : Z := 1.
Definition FILTER_SCHEDULE_THREAD : Z := 2.

Definition IRQ_PANIC : Z := 0.
Definition GIC_SPI_BASE : Z := 32.
Definition GIC_SPURIOUS : Z := 1023.

Record intr_src := IntrSrc {
  src_name : string;
  src_handler : bool;            (* handler != NULL *)
  src_count : Z;
  src_stray : Z;
  src_irq : Z;
  src_pending : bool
}.

(** Where a CPU is in [trap_irq], and a source's thread in [ithread_loop]. *)
Inductive hpc :=
| HIdle
| HAck (irq : Z)                 (* acknowledged *)
| HWake (irq : Z)                (* pending is set, ithread_lock released, wakeup(src) to come *)
| HDone (irq res : Z)            (* intr_dispatch returned *)
| HEoi (irq res : Z)             (* priority dropped *)
| HStop.                         (* panic_stop_self *)

Inductive tpc :=
| TTop                           (* runnable, before the acquire of ithread_lock or back from sleep *)
| TAsleep                        (* in sleep(src, &ithread_lock) *)
| TRun.                          (* pending taken: in the handler *)

Record ist := Ist {
  intr_srcs : Z -> option intr_src;
  intr_nirq : Z;
  active : Z -> bool;            (* of the controller, by [akey] *)
  hw_prio : Z -> Z;              (* priority drops owed by each CPU *)
  cpu_at : Z -> hpc;
  thr_at : Z -> tpc              (* by INTID *)
}.

(** The controller's active state: banked per CPU for SGIs and PPIs. *)
Definition akey (c irq : Z) : Z := if irq <? GIC_SPI_BASE then (c + 1) * 1024 + irq else irq.

Definition with_srcs (st : ist) f := Ist f (intr_nirq st) (active st) (hw_prio st) (cpu_at st) (thr_at st).
Definition with_cpu (st : ist) (c : Z) (h : hpc) := Ist (intr_srcs st) (intr_nirq st) (active st) (hw_prio st) (cpu_at st).[c <- h] (thr_at st).
Definition with_thr (st : ist) (irq : Z) (t : tpc) := Ist (intr_srcs st) (intr_nirq st) (active st) (hw_prio st) (cpu_at st) (thr_at st).[irq <- t].

(** gic_eoi and gic_deactivate, as the controller takes them. *)
Definition gic_eoi (st : ist) (c : Z) : ist :=
  Ist (intr_srcs st) (intr_nirq st) (active st) (hw_prio st).[c <- hw_prio st c - 1] (cpu_at st) (thr_at st).
Definition gic_deactivate (st : ist) (k : Z) : ist :=
  Ist (intr_srcs st) (intr_nirq st) (active st).[k <- false] (hw_prio st) (cpu_at st) (thr_at st).

(** intr_init: [nirq] of the controller, [room] whether kmalloc gave the table. *)
Definition intr_init (nirq : Z) (room : bool) : res ist :=
  if room then Ret (Ist (fun _ => None) nirq (fun _ => false) (fun _ => 0) (fun _ => HIdle) (fun _ => TTop))
  else Panic "intr_init: no room".

(** [room]: memory for the source; [pid]: what kthread_add returned. *)
Definition intr_register (st : ist) (irq : Z) (nm : string) (handler room : bool) (pid : Z) : res ist :=
  kassert (irq <? intr_nirq st) msg "intr_register: irq out of range";;
  kassert (match intr_srcs st irq with None => true | _ => false end) msg "intr_register: irq already registered";;
  if negb room then Panic "intr_register: no memory"
  else
    let st := with_srcs st (intr_srcs st).[irq <- Some (IntrSrc nm handler 0 0 irq false)] in
    if handler && (pid <? 0) then Panic "intr_register: ithread create failed" else Ret st.

Definition set_src (st : ist) (irq : Z) (s : intr_src) : ist := with_srcs st (intr_srcs st).[irq <- Some s].

(** intr_dispatch up to the wakeup: [filter] is what the source's filter answers. *)
Definition intr_pend (st : ist) (irq filter : Z) : ist * Z :=
  if irq >=? intr_nirq st then (st, FILTER_STRAY)
  else match intr_srcs st irq with
  | None => (st, FILTER_STRAY)
  | Some s =>
      let s := IntrSrc (src_name s) (src_handler s) (u64 (src_count s + 1)) (src_stray s) (src_irq s) (src_pending s) in
      let s := if filter =? FILTER_SCHEDULE_THREAD then IntrSrc (src_name s) (src_handler s) (src_count s) (src_stray s) (src_irq s) true
               else if filter =? FILTER_STRAY then IntrSrc (src_name s) (src_handler s) (src_count s) (u64 (src_stray s + 1)) (src_irq s) (src_pending s)
               else s in
      (set_src st irq s, filter)
  end.

(** wakeup(src): its one sleeper is the source's thread. *)
Definition wakeup_src (st : ist) (irq : Z) : ist :=
  match thr_at st irq with TAsleep => with_thr st irq TTop | _ => st end.

(** The whole call. *)
Definition intr_dispatch (st : ist) (irq filter : Z) : ist * Z :=
  let '(st, res) := intr_pend st irq filter in
  ((if res =? FILTER_SCHEDULE_THREAD then wakeup_src st irq else st), res).

(** A turn of the loops of ithread_loop under ithread_lock: take the work or sleep. *)
Definition ithread_turn (st : ist) (irq : Z) (s : intr_src) : ist :=
  if src_pending s
  then with_thr (set_src st irq (IntrSrc (src_name s) (src_handler s) (src_count s) (src_stray s) (src_irq s) false)) irq TRun
  else with_thr st irq TAsleep.

Inductive iev :=
| EAck (c irq : Z)               (* the CPU takes the IRQ exception and reads IAR1 *)
| EDispatch (c filter : Z)       (* intr_dispatch, up to the wakeup *)
| EWake (c : Z)                  (* ... its wakeup *)
| EEoi (c : Z)
| EDeact (c : Z)                 (* ... and returns from trap_irq *)
| ETake (irq : Z)                (* the thread looks at pending: takes the work or sleeps *)
| EFinish (irq : Z).             (* its handler has returned *)

Definition istep (st : ist) (e : iev) : option ist :=
  match e with
  | EAck c iar =>
      let irq := Z.land iar 0x3FF in
      match cpu_at st c with
      | HIdle =>
          if irq =? GIC_SPURIOUS then Some st
          else if active st (akey c irq) then None          (* not signalled while active *)
          else
            let st := Ist (intr_srcs st) (intr_nirq st) (active st).[akey c irq <- true] (hw_prio st).[c <- hw_prio st c + 1] (cpu_at st) (thr_at st) in
            if irq =? IRQ_PANIC then Some (with_cpu (gic_deactivate (gic_eoi st c) (akey c irq)) c HStop)
            else Some (with_cpu st c (HAck irq))
      | _ => None
      end
  | EDispatch c filter =>
      match cpu_at st c with
      | HAck irq => let '(st, res) := intr_pend st irq filter in Some (with_cpu st c (if res =? FILTER_SCHEDULE_THREAD then HWake irq else HDone irq res))
      | _ => None
      end
  | EWake c =>
      match cpu_at st c with HWake irq => Some (with_cpu (wakeup_src st irq) c (HDone irq FILTER_SCHEDULE_THREAD)) | _ => None end
  | EEoi c =>
      match cpu_at st c with HDone irq res => Some (with_cpu (gic_eoi st c) c (HEoi irq res)) | _ => None end
  | EDeact c =>
      match cpu_at st c with
      | HEoi irq res =>
          let st := if negb (res =? FILTER_SCHEDULE_THREAD) then gic_deactivate st (akey c irq) else st in
          Some (with_cpu st c HIdle)
      | _ => None
      end
  | ETake irq =>
      match thr_at st irq, intr_srcs st irq with
      | TTop, Some s => if src_handler s then Some (ithread_turn st irq s) else None
      | _, _ => None
      end
  | EFinish irq =>
      match thr_at st irq, intr_srcs st irq with
      | TRun, Some s => Some (with_thr (gic_deactivate st (src_irq s)) irq TTop)
      | _, _ => None
      end
  end.

Fixpoint irun (st : ist) (l : list iev) : option ist :=
  match l with [] => Some st | e :: l' => st' ← istep st e; irun st' l' end.

(** ** The machine *)

(** A filter answers with one of the three codes, and asks for the thread only when its
    source was registered with a handler. *)
Definition ev_ok (st : ist) (e : iev) : Prop :=
  match e with
  | EAck c irq => 0 <= c /\ 0 <= irq
  | EDispatch c f => 0 <= f <= 2 /\ forall irq s, cpu_at st c = HAck irq -> intr_srcs st irq = Some s -> f = FILTER_SCHEDULE_THREAD -> src_handler s = true
  | _ => True
  end.

(** Threaded sources are shared peripherals: their thread may run on any CPU. *)
Inductive ireach : ist -> Prop :=
| ir_init nirq room st : intr_init nirq room = Ret st -> ireach st
| ir_register st irq nm handler room pid st' : ireach st -> 0 <= irq -> (handler = true -> GIC_SPI_BASE <= irq) ->
    intr_register st irq nm handler room pid = Ret st' -> ireach st'
| ir_step st e st' : ireach st -> ev_ok st e -> istep st e = Some st' -> ireach st'.

(** Who is to deactivate an active interrupt. *)
Inductive owner := OCpu (c : Z) | OPend (irq : Z) | OThr (irq : Z).

Definition cpu_owns (h : hpc) (c k : Z) : Prop :=
  match h with
  | HAck irq => akey c irq = k
  | HDone irq r | HEoi irq r => r <> FILTER_SCHEDULE_THREAD /\ akey c irq = k
  | _ => False
  end.

Definition owns (st : ist) (o : owner) (k : Z) : Prop :=
  match o with
  | OCpu c => cpu_owns (cpu_at st c) c k
  | OPend irq => irq = k /\ exists s, intr_srcs st irq = Some s /\ src_pending s = true
  | OThr irq => irq = k /\ thr_at st irq = TRun
  end.

Definition in_irq (h : hpc) : option Z := match h with HAck irq | HWake irq | HDone irq _ | HEoi irq _ => Some irq | _ => None end.

(** Priority drops the CPU still owes. *)
Definition owed (h : hpc) : Z := match h with HAck _ | HWake _ | HDone _ _ => 1 | _ => 0 end.

Record iinv (st : ist) : Prop := {
  v_own : forall k, active st k = true <-> exists o, owns st o k;
  v_one : forall k o o', owns st o k -> owns st o' k -> o = o';
  v_src : forall irq s, intr_srcs st irq = Some s -> src_irq s = irq /\ 0 <= irq /\ (src_handler s = true -> GIC_SPI_BASE <= irq) /\ (src_pending s = true -> src_handler s = true);
  v_thr : forall irq, thr_at st irq = TRun -> exists s, intr_srcs st irq = Some s /\ src_handler s = true;
  v_cpu : forall c irq, in_irq (cpu_at st c) = Some irq -> 0 <= c /\ 0 < irq < 1023;
  v_prio : forall c, hw_prio st c = owed (cpu_at st c);
  v_wake : forall irq s, intr_srcs st irq = Some s -> src_pending s = true -> thr_at st irq = TAsleep -> exists c, cpu_at st c = HWake irq
}.

Lemma akey_inj c irq c' irq' : 0 <= c -> 0 <= c' -> 0 <= irq < 1024 -> 0 <= irq' < 1024 -> akey c irq = akey c' irq' -> irq = irq' /\ (irq < GIC_SPI_BASE -> c = c').
Proof.
  unfold akey, GIC_SPI_BASE. intros Hc Hc' Hi Hi'. destruct (Z.ltb_spec irq 32), (Z.ltb_spec irq' 32); lia.
Qed.

Lemma iar_range x : 0 <= x -> 0 <= Z.land x 0x3FF < 1024.
Proof. intros Hx. change 0x3FF with (Z.ones 10). rewrite Z.land_ones by lia. apply Z.mod_pos_bound. lia. Qed.

Lemma iinv_init nirq room st : intr_init nirq room = Ret st -> iinv st.
Proof.
  unfold intr_init. destruct room; [| done]. intros [= <-].
  assert (Hno : forall o k, ~ owns (Ist (fun _ => None) nirq (fun _ => false) (fun _ => 0) (fun _ => HIdle) (fun _ => TTop)) o k).
  { intros [c | irq | irq] k; cbn; [tauto | by intros [_ (s & ? & _)] | by intros [_ ?]]. }
  split; try done.
  - intros k. split; [done |]. intros [o Ho]. by apply Hno in Ho.
  - intros k o o' Ho. by apply Hno in Ho.
Qed.

Lemma iinv_register st irq nm handler room pid st' : iinv st -> 0 <= irq -> (handler = true -> GIC_SPI_BASE <= irq) ->
  intr_register st irq nm handler room pid = Ret st' -> iinv st'.
Proof.
  intros I Hirq Hh. unfold intr_register, KASSERT. destruct (irq <? intr_nirq st); [| done]. cbn [mbind res_bind]. destruct (intr_srcs st irq) as [s0 |] eqn:Es; [done |]. cbn [mbind res_bind].
  destruct room; [cbn [negb] | done]. destruct (handler && (pid <? 0)); [done |]. intros [= <-].
  assert (Howns : forall o k, owns (with_srcs st (intr_srcs st).[irq <- Some (IntrSrc nm handler 0 0 irq false)]) o k <-> owns st o k).
  { intros [c | i | i] k; cbn; try done. unfold upd. destruct (Z.eqb_spec i irq) as [-> |]; [| done]. rewrite Es. split; intros (_ & s & E & Hs); [injection E as <- | done]. done. }
  destruct I as [I1 I2 I3 I4 I5 I6 I7]. split; cbn [with_srcs intr_srcs active cpu_at thr_at hw_prio]; try done.
  - intros k. rewrite I1. split; intros [o Ho]; exists o; by apply Howns.
  - intros k o o' Ho Ho'. apply (I2 k); by apply Howns.
  - intros i s. unfold upd. destruct (Z.eqb_spec i irq) as [-> |]; [intros [= <-]; cbn; split_and!; try done | apply I3].
  - intros i Hi. destruct (I4 i Hi) as (s & E & Hs). exists s. split; [| done]. rewrite upd_ne; [done |]. intros ->. congruence.
  - intros i s. unfold upd. destruct (Z.eqb_spec i irq) as [-> |]; [by intros [= <-] | apply I7].
Qed.

(** The CPU to wake a thread is not [c]. *)
Lemma wake_keep st c h : iinv st -> (forall irq, cpu_at st c <> HWake irq) ->
  forall irq s, intr_srcs st irq = Some s -> src_pending s = true -> thr_at st irq = TAsleep -> exists c', (cpu_at st).[c <- h] c' = HWake irq.
Proof.
  intros I Hc irq s Es Ep Et. destruct (v_wake _ I irq s Es Ep Et) as [c' Ec]. exists c'. rewrite upd_ne; [done |]. intros ->. by apply (Hc irq).
Qed.

(** Only the ownership of key [k0] changes, to [n]. *)
Lemma own_move st st' k0 (n : option owner) : iinv st ->
  (forall k, active st' k = if k =? k0 then match n with Some _ => true | None => false end else active st k) ->
  (forall o k, owns st' o k <-> (k = k0 /\ n = Some o) \/ (k <> k0 /\ owns st o k)) ->
  (forall k, active st' k = true <-> exists o, owns st' o k) /\ (forall k o o', owns st' o k -> owns st' o' k -> o = o').
Proof.
  intros I Ha Ho. split.
  - intros k. rewrite Ha. destruct (Z.eqb_spec k k0) as [-> | Hne].
    + destruct n as [o |]; split; try done; [intros _; exists o; rewrite Ho; by left |]. intros [o Hx]. by apply Ho in Hx as [[_ ?] | [? _]].
    + rewrite (v_own _ I). split; intros [o Hx]; exists o; [rewrite Ho; by right |]. by apply Ho in Hx as [[? _] | [_ ?]].
  - intros k o o' [[-> E] | [Hne Hx]]%Ho [[E2 E'] | [Hne' Hx']]%Ho; [congruence | done | done | by apply (v_one _ I k)].
Qed.

Lemma own_same st st' : iinv st -> (forall k, active st' k = active st k) -> (forall o k, owns st' o k <-> owns st o k) ->
  (forall k, active st' k = true <-> exists o, owns st' o k) /\ (forall k o o', owns st' o k -> owns st' o' k -> o = o').
Proof.
  intros I Ha Ho. split.
  - intros k. rewrite Ha, (v_own _ I). split; intros [o Hx]; exists o; by apply Ho.
  - intros k o o' H1 H2. apply (v_one _ I k); by apply Ho.
Qed.

Lemma sole st o0 k0 o : iinv st -> owns st o0 k0 -> owns st o k0 -> o = o0.
Proof. intros I H1 H2. by apply (v_one _ I k0). Qed.

Lemma idle_key st o k : iinv st -> active st k = false -> ~ owns st o k.
Proof. intros I Ha Ho. assert (active st k = true) by (apply (v_own _ I); by exists o). congruence. Qed.

(** A step of CPU [c] that changes only where it is. *)
Lemma v_cpu_upd st c h : iinv st -> (forall irq, in_irq h = Some irq -> 0 <= c /\ 0 < irq < 1023) ->
  forall c' irq, in_irq ((cpu_at st).[c <- h] c') = Some irq -> 0 <= c' /\ 0 < irq < 1023.
Proof. intros I Hh c' irq. unfold upd. destruct (Z.eqb_spec c' c) as [-> |]; [apply Hh | apply (v_cpu _ I)]. Qed.

Ltac upd_cases := unfold upd in *; repeat match goal with
  | |- context [?a =? ?b] => destruct (Z.eqb_spec a b); subst; cbn in *
  | H : context [?a =? ?b] |- _ => destruct (Z.eqb_spec a b); subst; cbn in *
  end.

Lemma iinv_ack st c iar st' : iinv st -> 0 <= c -> 0 <= iar -> istep st (EAck c iar) = Some st' -> iinv st'.
Proof.
  intros I Hc Hi. cbn [istep]. pose proof (iar_range iar Hi) as Hr. set (irq := Z.land iar 0x3FF) in *. clearbody irq. destruct (cpu_at st c) eqn:Ec; try done.
  destruct (Z.eqb_spec irq GIC_SPURIOUS) as [| Hns]; [by intros [= <-] |]. destruct (active st (akey c irq)) eqn:Ea; [done |]. unfold IRQ_PANIC, GIC_SPURIOUS in *.
  pose proof (v_prio _ I) as Hprio. pose proof (Hprio c) as Hpc. rewrite Ec in Hpc.
  destruct (Z.eqb_spec irq 0) as [E0 | Hn0]; intros [= <-].
  - assert (Hown := own_same st (with_cpu (gic_deactivate (gic_eoi (Ist (intr_srcs st) (intr_nirq st) (active st).[akey c irq <- true] (hw_prio st).[c <- hw_prio st c + 1] (cpu_at st) (thr_at st)) c) (akey c irq)) c HStop) I).
    destruct Hown as [H1 H2].
    { intros k. cbn. upd_cases; [by rewrite Ea | done]. }
    { intros [c' | i | i] k; cbn; try done. upd_cases; [by rewrite Ec | done]. }
    pose proof (fun h H => wake_keep st c h I H) as Hwk. destruct I as [I1 I2 I3 I4 I5 I6 I7]. split; cbn [with_cpu gic_deactivate gic_eoi intr_srcs cpu_at thr_at hw_prio]; try done.
    + intros c' i. upd_cases; [done | apply I5].
    + intros c'. unfold upd. destruct (Z.eqb_spec c' c) as [-> |]; [rewrite Z.eqb_refl; cbn in *; lia | apply Hprio].
    + apply Hwk. intros i. by rewrite Ec.
  - destruct (own_move st (with_cpu (Ist (intr_srcs st) (intr_nirq st) (active st).[akey c irq <- true] (hw_prio st).[c <- hw_prio st c + 1] (cpu_at st) (thr_at st)) c (HAck irq)) (akey c irq) (Some (OCpu c)) I) as [H1 H2].
    { intros k. cbn. by upd_cases. }
    { intros o k. destruct (decide (k = akey c irq)) as [-> | Hk].
      - pose proof (fun o => idle_key st o (akey c irq) I Ea) as Hno. split; [| intros [[_ [= <-]] | [? _]]; [cbn; upd_cases; done | done]].
        intros Ho. left. split; [done |]. destruct o as [c' | i | i]; [| by destruct (Hno (OPend i)) | by destruct (Hno (OThr i))]. cbn in Ho. upd_cases; [done |]. by destruct (Hno (OCpu c')).
      - split; [intros Ho; right; split; [done |] | intros [[? _] | [_ Ho]]; [done |]]; destruct o as [c' | i | i]; cbn in Ho |- *; try done; upd_cases; try done. by rewrite Ec in Ho. }
    pose proof (fun h H => wake_keep st c h I H) as Hwk. destruct I as [I1 I2 I3 I4 I5 I6 I7]. split; cbn [with_cpu intr_srcs cpu_at thr_at hw_prio]; try done.
    + intros c' i. upd_cases; [intros [= <-]; lia | apply I5].
    + intros c'. unfold upd. destruct (Z.eqb_spec c' c) as [-> |]; [cbn in *; lia | apply Hprio].
    + apply Hwk. intros i. by rewrite Ec.
Qed.

(** Sources that differ in their counts only. *)
Definition same_src (a b : option intr_src) : Prop :=
  match a, b with
  | Some s, Some s' => src_handler s' = src_handler s /\ src_irq s' = src_irq s /\ src_pending s' = src_pending s
  | None, None => True
  | _, _ => False
  end.

(** CPU [c] goes on to [h], owning what it owned. *)
Lemma iinv_cpu st st' c h : iinv st -> active st' = active st -> thr_at st' = thr_at st -> cpu_at st' = (cpu_at st).[c <- h] ->
  (forall irq, same_src (intr_srcs st irq) (intr_srcs st' irq)) -> (forall k, cpu_owns h c k <-> cpu_owns (cpu_at st c) c k) ->
  (forall irq, in_irq h = Some irq -> 0 <= c /\ 0 < irq < 1023) -> (forall irq, cpu_at st c <> HWake irq) ->
  (forall c', hw_prio st' c' = owed ((cpu_at st).[c <- h] c')) -> iinv st'.
Proof.
  intros I Ea Et Ec Hs Hk Hin Hnw Hp.
  destruct (own_same st st' I) as [H1 H2]; [by rewrite Ea | |].
  { intros [c' | i | i] k; cbn [owns].
    - rewrite Ec. unfold upd. destruct (Z.eqb_spec c' c) as [-> |]; [apply Hk | done].
    - specialize (Hs i). unfold same_src in Hs. destruct (intr_srcs st i) as [s |], (intr_srcs st' i) as [s' |]; try done. destruct Hs as (_ & _ & Hs).
      split; intros (-> & x & E & Hx); injection E as <-; (split; [done |]); eexists; (split; [done |]); congruence.
    - by rewrite Et. }
  split; [exact H1 | exact H2 | | | | |].
  - intros i s' E'. specialize (Hs i). unfold same_src in Hs. rewrite E' in Hs. destruct (intr_srcs st i) as [s |] eqn:E; [| done]. destruct Hs as (-> & -> & ->). by apply (v_src _ I).
  - intros i. rewrite Et. intros Ht. destruct (v_thr _ I i Ht) as (s & E & Hh). specialize (Hs i). rewrite E in Hs. destruct (intr_srcs st' i) as [s' |]; [| done]. exists s'. destruct Hs as (-> & _). done.
  - rewrite Ec. by apply (v_cpu_upd st).
  - intros c'. rewrite Ec. apply Hp.
  - intros i s'. specialize (Hs i). intros E'. rewrite E' in Hs. destruct (intr_srcs st i) as [s |] eqn:E; [| done]. destruct Hs as (_ & _ & ->). rewrite Ec, Et. by apply (wake_keep st c h I Hnw i s).
Qed.

Lemma prio_keep st c h irq : iinv st -> cpu_at st c = HAck irq -> owed h = 1 ->
  forall c', hw_prio st c' = owed ((cpu_at st).[c <- h] c').
Proof. intros I Ec Hh c'. unfold upd. destruct (Z.eqb_spec c' c) as [-> |]; [by rewrite (v_prio _ I), Ec | apply (v_prio _ I)]. Qed.

Lemma same_src_refl a : same_src a a.
Proof. by destruct a. Qed.

Lemma iinv_dispatch st c f st' : iinv st -> ev_ok st (EDispatch c f) -> istep st (EDispatch c f) = Some st' -> iinv st'.
Proof.
  intros I [Hf Hh]. cbn [istep]. destruct (cpu_at st c) as [| irq | | | |] eqn:Ec; try done. pose proof (v_cpu _ I c irq ltac:(by rewrite Ec)) as Hcr.
  assert (Hstay : forall st1 r, active st1 = active st -> thr_at st1 = thr_at st -> hw_prio st1 = hw_prio st -> cpu_at st1 = cpu_at st ->
    (forall i, same_src (intr_srcs st i) (intr_srcs st1 i)) -> r <> FILTER_SCHEDULE_THREAD -> iinv (with_cpu st1 c (HDone irq r))).
  { intros st1 r E1 E2 E3 E4 E5 Hr. apply (iinv_cpu st _ c (HDone irq r) I); cbn [with_cpu active thr_at cpu_at intr_srcs hw_prio]; try done.
    - by rewrite E4.
    - intros k. rewrite Ec. cbn. tauto.
    - intros i [= <-]. done.
    - intros i. by rewrite Ec.
    - rewrite E3. by apply (prio_keep st c _ irq). }
  unfold intr_pend. destruct (irq >=? intr_nirq st); [intros [= <-]; apply Hstay; try done; intros; apply same_src_refl |].
  destruct (intr_srcs st irq) as [s |] eqn:Es; [| intros [= <-]; apply Hstay; try done; intros; apply same_src_refl].
  unfold FILTER_SCHEDULE_THREAD, FILTER_STRAY in *. destruct (Z.eqb_spec f 2) as [-> | Hf2].
  2: { intros [= <-]. apply Hstay; try done. intros i. cbn. unfold upd. destruct (Z.eqb_spec i irq) as [-> |]; [rewrite Es | apply same_src_refl]. by destruct (f =? 0). }
  pose proof (Hh irq s eq_refl Es eq_refl) as Hhs. destruct (v_src _ I irq s Es) as (Hsi & H0 & Hspi & Hp). specialize (Hspi Hhs). intros [= <-].
  assert (Hk : akey c irq = irq) by (unfold akey; destruct (Z.ltb_spec irq GIC_SPI_BASE); [lia | done]).
  assert (Hown : owns st (OCpu c) irq) by (cbn; by rewrite Ec). pose proof (fun o => sole st (OCpu c) irq o I Hown) as Hsole.
  set (st1 := with_cpu _ _ _). destruct (own_move st st1 irq (Some (OPend irq)) I) as [H1 H2].
  { intros k. cbn. destruct (Z.eqb_spec k irq) as [-> |]; [| done]. apply (v_own _ I). by exists (OCpu c). }
  { intros o k. destruct (decide (k = irq)) as [-> | Hki].
    - split; [| intros [[_ [= <-]] | [? _]]; [cbn; split; [done |]; rewrite upd_eq; by eexists | done]].
      intros Ho. left. split; [done |]. destruct o as [c' | i | i]; cbn in Ho.
      + upd_cases; [by destruct Ho |]. specialize (Hsole (OCpu c') Ho). congruence.
      + destruct Ho as [-> _]. done.
      + specialize (Hsole (OThr i) Ho). congruence.
    - split; [intros Ho; right; split; [done |] | intros [[? _] | [_ Ho]]; [done |]]; destruct o as [c' | i | i]; cbn in Ho |- *; try done.
      + upd_cases; [by destruct Ho | done].
      + destruct Ho as [-> Ho]. split; [done |]. rewrite upd_ne in Ho by done. done.
      + upd_cases; [rewrite Ec in Ho; cbn in Ho; congruence | done].
      + destruct Ho as [-> Ho]. split; [done |]. by rewrite upd_ne. }
  split; [exact H1 | exact H2 | | | | |]; cbn [st1 with_cpu set_src with_srcs intr_srcs thr_at cpu_at hw_prio].
  - intros i s'. upd_cases; [intros [= <-]; done | apply (v_src _ I)].
  - intros i Ht. destruct (v_thr _ I i Ht) as (x & Ex & Hx). upd_cases; [eexists; split; [done | done] | by exists x].
  - apply (v_cpu_upd st c _ I). intros i [= <-]. done.
  - by apply (prio_keep st c _ irq).
  - intros i s' E' Ep' Et. unfold upd in E' |- *. destruct (Z.eqb_spec i irq) as [-> | Hne]; [exists c; by rewrite Z.eqb_refl |].
    apply (wake_keep st c (HWake irq) I ltac:(intros j; by rewrite Ec) i s' E' Ep' Et).
Qed.

Lemma iinv_wakeup st c st' : iinv st -> istep st (EWake c) = Some st' -> iinv st'.
Proof.
  intros I. cbn [istep]. destruct (cpu_at st c) as [| | irq | | |] eqn:Ec; try done. intros [= <-]. pose proof (v_cpu _ I c irq ltac:(by rewrite Ec)) as Hcr.
  assert (Ht : forall i, thr_at (wakeup_src st irq) i = if i =? irq then match thr_at st irq with TAsleep => TTop | t => t end else thr_at st i).
  { intros i. unfold wakeup_src. destruct (thr_at st irq) eqn:Et; cbn; unfold upd; destruct (Z.eqb_spec i irq) as [-> |]; done. }
  assert (Hr : forall i, thr_at (wakeup_src st irq) i = TRun <-> thr_at st i = TRun).
  { intros i. rewrite Ht. destruct (Z.eqb_spec i irq) as [-> |]; [| done]. by destruct (thr_at st irq). }
  assert (Hf : intr_srcs (wakeup_src st irq) = intr_srcs st /\ active (wakeup_src st irq) = active st /\ hw_prio (wakeup_src st irq) = hw_prio st /\ cpu_at (wakeup_src st irq) = cpu_at st)
    by (unfold wakeup_src; by destruct (thr_at st irq)).
  destruct Hf as (Hf1 & Hf2 & Hf3 & Hf4). set (st1 := with_cpu _ _ _). destruct (own_same st st1 I) as [H1 H2].
  { intros k. cbn. by rewrite Hf2. }
  { intros [c' | i | i] k; cbn [owns st1 with_cpu cpu_at intr_srcs thr_at].
    - rewrite Hf4. unfold upd. destruct (Z.eqb_spec c' c) as [-> |]; [rewrite Ec; cbn; tauto | done].
    - by rewrite Hf1.
    - by rewrite Hr. }
  split; [exact H1 | exact H2 | | | | |]; cbn [st1 with_cpu intr_srcs thr_at cpu_at hw_prio]; rewrite ?Hf1, ?Hf3, ?Hf4.
  - apply (v_src _ I).
  - intros i Hi. apply (v_thr _ I). by apply Hr.
  - apply (v_cpu_upd st c _ I). intros i [= <-]. done.
  - intros c'. unfold upd. destruct (Z.eqb_spec c' c) as [-> |]; [by rewrite (v_prio _ I), Ec | apply (v_prio _ I)].
  - intros i s Es Ep Hi. rewrite Ht in Hi. destruct (Z.eqb_spec i irq) as [-> | Hne]; [by destruct (thr_at st irq) |].
    destruct (v_wake _ I i s Es Ep Hi) as [c' E']. exists c'. rewrite upd_ne; [done |]. intros ->. congruence.
Qed.

Lemma iinv_eoi st c st' : iinv st -> istep st (EEoi c) = Some st' -> iinv st'.
Proof.
  intros I. cbn [istep]. destruct (cpu_at st c) as [| | | irq r | |] eqn:Ec; try done. intros [= <-]. pose proof (v_cpu _ I c irq ltac:(by rewrite Ec)) as Hcr.
  apply (iinv_cpu st _ c (HEoi irq r) I); cbn; try done.
  - intros i. apply same_src_refl.
  - intros k. by rewrite Ec.
  - intros i [= <-]. done.
  - intros i. by rewrite Ec.
  - intros c'. unfold upd. destruct (Z.eqb_spec c' c) as [-> |]; [rewrite (v_prio _ I), Ec; done | apply (v_prio _ I)].
Qed.

(** The owner [o0] of key [k0] lets go of it. *)
Lemma own_release st st' k0 o0 : iinv st -> owns st o0 k0 -> active st' = (active st).[k0 <- false] ->
  (forall o k, o <> o0 -> owns st' o k <-> owns st o k) -> (forall k, ~ owns st' o0 k) -> (forall k, owns st o0 k -> k = k0) ->
  (forall k, active st' k = true <-> exists o, owns st' o k) /\ (forall k o o', owns st' o k -> owns st' o' k -> o = o').
Proof.
  intros I Ho Ea Hoth Hno Hone. apply (own_move st st' k0 None I).
  - intros k. rewrite Ea. by unfold upd.
  - intros o k. destruct (decide (k = k0)) as [-> | Hk].
    + split; [| intros [[_ ?] | [? _]]; done]. intros Hx. exfalso.
      assert (o <> o0) by (intros ->; by apply (Hno k0)). apply Hoth in Hx; [| done]. by pose proof (sole st o0 k0 o I Ho Hx).
    + split.
      * intros Hx. right. split; [done |]. assert (o <> o0) by (intros ->; by apply (Hno k)). by apply Hoth.
      * intros [[? _] | [_ Hx]]; [done |]. assert (o <> o0) by (intros ->; by apply Hk, Hone). by apply Hoth.
Qed.

Lemma iinv_deact st c st' : iinv st -> istep st (EDeact c) = Some st' -> iinv st'.
Proof.
  intros I. cbn [istep]. destruct (cpu_at st c) as [| | | | irq r |] eqn:Ec; try done. destruct (Z.eqb_spec r FILTER_SCHEDULE_THREAD) as [Hr | Hr]; cbn [negb]; intros [= <-].
  - apply (iinv_cpu st _ c HIdle I); cbn; try done.
    + intros i. apply same_src_refl.
    + intros k. rewrite Ec. cbn. tauto.
    + intros i. by rewrite Ec.
    + intros c'. unfold upd. destruct (Z.eqb_spec c' c) as [-> |]; [rewrite (v_prio _ I), Ec; done | apply (v_prio _ I)].
  - assert (Ho : owns st (OCpu c) (akey c irq)) by (cbn; by rewrite Ec).
    destruct (own_release st (with_cpu (gic_deactivate st (akey c irq)) c HIdle) (akey c irq) (OCpu c) I Ho eq_refl) as [H1 H2].
    { intros [c' | i | i] k Hne; cbn; try done. rewrite upd_ne; [done |]. congruence. }
    { intros k. cbn. rewrite upd_eq. tauto. }
    { intros k. cbn. rewrite Ec. cbn. by intros [_ ->]. }
    split; [exact H1 | exact H2 | | | | |]; cbn [with_cpu gic_deactivate intr_srcs thr_at cpu_at hw_prio].
    + apply (v_src _ I).
    + apply (v_thr _ I).
    + by apply (v_cpu_upd st c _ I).
    + intros c'. unfold upd. destruct (Z.eqb_spec c' c) as [-> |]; [rewrite (v_prio _ I), Ec; done | apply (v_prio _ I)].
    + apply (wake_keep st c _ I). intros i. by rewrite Ec.
Qed.

(** The thread finds nothing to do and goes to sleep. *)
Lemma iinv_doze st irq s : iinv st -> thr_at st irq = TTop -> intr_srcs st irq = Some s -> src_pending s = false -> iinv (with_thr st irq TAsleep).
Proof.
  intros I Et Es Ep. destruct (own_same st (with_thr st irq TAsleep) I) as [H1 H2]; [done | |].
  { intros [c' | i | i] k; cbn; try done. upd_cases; [| done]. rewrite Et. by split; intros [_ ?]. }
  split; [exact H1 | exact H2 | | | | |]; cbn [with_thr intr_srcs thr_at cpu_at hw_prio].
  - apply (v_src _ I).
  - intros i. upd_cases; [done |]. apply (v_thr _ I).
  - apply (v_cpu _ I).
  - apply (v_prio _ I).
  - intros i x Ex Hx. unfold upd. destruct (Z.eqb_spec i irq) as [-> |]; [congruence | by apply (v_wake _ I i x)].
Qed.

Lemma iinv_take st irq st' : iinv st -> istep st (ETake irq) = Some st' -> iinv st'.
Proof.
  intros I. cbn [istep]. destruct (thr_at st irq) eqn:Et; try done. destruct (intr_srcs st irq) as [s |] eqn:Es; [| done].
  destruct (src_handler s) eqn:Eh; [| done]. unfold ithread_turn. destruct (src_pending s) eqn:Ep; intros [= <-]; [| by apply (iinv_doze st irq s)].
  assert (Ho : owns st (OPend irq) irq) by (split; [done | by exists s]). pose proof (fun o => sole st (OPend irq) irq o I Ho) as Hsole.
  set (st1 := with_thr _ _ _). destruct (own_move st st1 irq (Some (OThr irq)) I) as [H1 H2].
  { intros k. cbn. destruct (Z.eqb_spec k irq) as [-> |]; [| done]. apply (v_own _ I). by exists (OPend irq). }
  { intros o k. destruct (decide (k = irq)) as [-> | Hki].
    - split; [| intros [[_ [= <-]] | [? _]]; [cbn; split; [done |]; by rewrite upd_eq | done]].
      intros Hx. left. split; [done |]. destruct o as [c' | i | i]; cbn in Hx.
      + specialize (Hsole (OCpu c') Hx). congruence.
      + destruct Hx as (-> & x & Ex & Hx). rewrite upd_eq in Ex. injection Ex as <-. done.
      + destruct Hx as [-> _]. done.
    - split; [intros Hx; right; split; [done |] | intros [[? _] | [_ Hx]]; [done |]]; destruct o as [c' | i | i]; cbn in Hx |- *; try done; destruct Hx as [-> Hx]; (split; [done |]);
        rewrite upd_ne in * by done; done. }
  split; [exact H1 | exact H2 | | | | |]; cbn [st1 with_thr set_src with_srcs intr_srcs thr_at cpu_at hw_prio].
  - intros i s'. destruct (v_src _ I irq s Es) as (? & ? & ? & ?). upd_cases; [intros [= <-]; cbn; split_and!; try done; auto | apply (v_src _ I)].
  - intros i. upd_cases; [intros _; eexists; split; [done | done] |]. apply (v_thr _ I).
  - apply (v_cpu _ I).
  - apply (v_prio _ I).
  - intros i x. unfold upd. destruct (Z.eqb_spec i irq) as [-> |]; [done | apply (v_wake _ I)].
Qed.

Lemma iinv_finish st irq st' : iinv st -> istep st (EFinish irq) = Some st' -> iinv st'.
Proof.
  intros I. cbn [istep]. destruct (thr_at st irq) eqn:Et; [done .. |]. destruct (intr_srcs st irq) as [s |] eqn:Es; [| done]. intros [= <-].
  destruct (v_src _ I irq s Es) as (-> & _). assert (Ho : owns st (OThr irq) irq) by (by split).
  destruct (own_release st (with_thr (gic_deactivate st irq) irq TTop) irq (OThr irq) I Ho eq_refl) as [H1 H2].
  { intros [c' | i | i] k Hne; cbn; try done. rewrite upd_ne; [done |]. congruence. }
  { intros k. cbn. rewrite upd_eq. by intros [_ ?]. }
  { intros k. cbn. by intros [-> _]. }
  split; [exact H1 | exact H2 | | | | |]; cbn [with_thr gic_deactivate intr_srcs thr_at cpu_at hw_prio].
  - apply (v_src _ I).
  - intros i. upd_cases; [done |]. apply (v_thr _ I).
  - apply (v_cpu _ I).
  - apply (v_prio _ I).
  - intros i x Ex Hx. unfold upd. destruct (Z.eqb_spec i irq) as [-> |]; [done | by apply (v_wake _ I i x)].
Qed.

Lemma ireach_inv st : ireach st -> iinv st.
Proof.
  induction 1 as [nirq room st E | st irq nm handler room pid st' R I Hi Hh E | st e st' R I He E].
  - by apply (iinv_init nirq room).
  - by apply (iinv_register st irq nm handler room pid).
  - destruct e as [c irq | c f | c | c | c | irq | irq].
    + destruct He. by apply (iinv_ack st c irq).
    + by apply (iinv_dispatch st c f).
    + by apply (iinv_wakeup st c).
    + by apply (iinv_eoi st c).
    + by apply (iinv_deact st c).
    + by apply (iinv_take st irq).
    + by apply (iinv_finish st irq).
Qed.

(** ** Theorems *)

(** C21: in every reachable state each active interrupt has exactly one party that will
    deactivate it: the CPU that acknowledged it, the pending flag of its source, or the
    running thread. So no shared interrupt (irq >= 32) is with two CPUs before its filter has answered; whenever a
    filter may set the pending flag, it is clear and the thread is not in its handler, so no
    hand-off is lost; every deactivation is of an active interrupt; and each CPU owes
    exactly one priority drop from the acknowledge to the end of interrupt. *)
Theorem intr_one_owner st : ireach st ->
  (forall k, active st k = true <-> exists o, owns st o k) /\
  (forall k o o', owns st o k -> owns st o' k -> o = o') /\
  (forall c c' irq, GIC_SPI_BASE <= irq -> cpu_at st c = HAck irq -> cpu_at st c' = HAck irq -> c = c') /\
  (forall c irq s, GIC_SPI_BASE <= irq -> cpu_at st c = HAck irq -> intr_srcs st irq = Some s -> src_pending s = false /\ thr_at st irq <> TRun) /\
  (forall c irq r, cpu_at st c = HEoi irq r -> r <> FILTER_SCHEDULE_THREAD -> active st (akey c irq) = true) /\
  (forall irq, thr_at st irq = TRun -> active st irq = true) /\
  (forall c, hw_prio st c = owed (cpu_at st c)).
Proof.
  intros R. pose proof (ireach_inv st R) as I. split; [apply I |]. split; [apply I |].
  assert (Hspi : forall c irq, GIC_SPI_BASE <= irq -> akey c irq = irq) by (intros c irq Hi; unfold akey; destruct (Z.ltb_spec irq GIC_SPI_BASE); [lia | done]).
  assert (Hack : forall c irq, cpu_at st c = HAck irq -> owns st (OCpu c) (akey c irq)) by (intros c irq E; cbn; by rewrite E).
  split_and!.
  - intros c c' irq Hi E E'. pose proof (Hack c irq E) as Ho. pose proof (Hack c' irq E') as Ho'. rewrite Hspi in Ho, Ho' by done. by pose proof (v_one _ I _ _ _ Ho Ho') as [= ->].
  - intros c irq s Hi E Es. pose proof (Hack c irq E) as Ho. rewrite Hspi in Ho by done. split.
    + destruct (src_pending s) eqn:Ep; [| done]. assert (Ho' : owns st (OPend irq) irq) by (split; [done | by exists s]). by pose proof (v_one _ I _ _ _ Ho Ho').
    + intros Et. assert (Ho' : owns st (OThr irq) irq) by (by split). by pose proof (v_one _ I _ _ _ Ho Ho').
  - intros c irq r E Hr. apply (v_own _ I). exists (OCpu c). cbn. by rewrite E.
  - intros irq E. apply (v_own _ I). exists (OThr irq). by split.
  - apply I.
Qed.

Ltac iexec := repeat (cbn; rewrite ?upd_eq).

(** Work that is pending for a thread that is awake, or to be woken, gets done. *)
Lemma rearm_pending st irq s : iinv st -> intr_srcs st irq = Some s -> src_pending s = true ->
  exists l st', Forall (fun e => match e with EAck _ _ => False | _ => True end) l /\ irun st l = Some st' /\ active st' irq = false.
Proof.
  intros I Es Ep. destruct (v_src _ I irq s Es) as (Hsi & _ & _ & Hh). destruct (thr_at st irq) eqn:Et.
  - exists [ETake irq; EFinish irq]. eexists. split; [repeat constructor |]. cbn [irun istep]. rewrite Et, Es, (Hh Ep). unfold ithread_turn. rewrite Ep. iexec. split; [reflexivity |]. cbn. by rewrite Hsi, upd_eq.
  - destruct (v_wake _ I irq s Es Ep Et) as [c Ec]. exists [EWake c; ETake irq; EFinish irq]. eexists. split; [repeat constructor |].
    cbn [irun istep]. rewrite Ec. unfold wakeup_src. rewrite Et. iexec. rewrite Es, (Hh Ep). unfold ithread_turn. rewrite Ep. iexec. split; [reflexivity |]. cbn. by rewrite Hsi, upd_eq.
  - assert (Ho1 : owns st (OThr irq) irq) by (by split). assert (Ho2 : owns st (OPend irq) irq) by (split; [done | by exists s]). by pose proof (v_one _ I _ _ _ Ho1 Ho2).
Qed.

Lemma intr_pend_thread st irq f st1 : intr_pend st irq f = (st1, FILTER_SCHEDULE_THREAD) ->
  f = FILTER_SCHEDULE_THREAD /\ (exists s, intr_srcs st irq = Some s) /\ exists s1, intr_srcs st1 irq = Some s1 /\ src_pending s1 = true.
Proof.
  unfold intr_pend. destruct (irq >=? intr_nirq st); [by intros [= _] |]. destruct (intr_srcs st irq) as [s |]; [| by intros [= _]].
  intros [= <- ->]. split; [done |]. split; [by eexists |]. eexists. cbn. by rewrite upd_eq.
Qed.

(** The CPU that acknowledged key [k] sees to its deactivation whatever its filter says. *)
Lemma rearm_dispatch st c irq k f : iinv st -> cpu_at st c = HAck irq -> cpu_owns (HAck irq) c k -> ev_ok st (EDispatch c f) ->
  exists l st', Forall (fun e => match e with EAck _ _ => False | _ => True end) l /\ irun st l = Some st' /\ active st' k = false.
Proof.
  intros I Ec Ho Hf. destruct (intr_pend st irq f) as [st1 r] eqn:Ed. destruct (decide (r = FILTER_SCHEDULE_THREAD)) as [-> | Hr].
  - assert (E : istep st (EDispatch c f) = Some (with_cpu st1 c (HWake irq))) by (cbn [istep]; rewrite Ec, Ed; done).
    pose proof (iinv_dispatch st c f _ I Hf E) as I1. destruct (intr_pend_thread st irq f st1 Ed) as (-> & (s & Es) & s1 & Es1 & Ep1).
    assert (Hspi : GIC_SPI_BASE <= irq) by (apply (v_src _ I irq s Es); by apply (proj2 Hf irq s Ec Es)).
    assert (Hk : k = irq) by (cbn [cpu_owns] in Ho; unfold akey in Ho; destruct (Z.ltb_spec irq GIC_SPI_BASE); lia). subst k.
    destruct (rearm_pending _ irq s1 I1 Es1 Ep1) as (l & st' & Hl & El & Ha). exists (EDispatch c FILTER_SCHEDULE_THREAD :: l), st'.
    split; [by constructor |]. split; [| done]. cbn [irun]. rewrite E. exact El.
  - exists [EDispatch c f; EEoi c; EDeact c]. eexists. split; [repeat constructor |]. cbn [irun istep]. rewrite Ec, Ed, (proj2 (Z.eqb_neq _ _) Hr). iexec. rewrite (proj2 (Z.eqb_neq _ _) Hr). iexec.
    split; [reflexivity |]. cbn in Ho |- *. rewrite <- Ho. apply upd_eq.
Qed.

(** C22: an active interrupt is never stuck: whatever the filter answers, the code can always
    go on, with no further interrupt, to its deactivation, by the CPU that acknowledged it
    or by the thread it was handed to. A thread asleep while its work is pending has a CPU
    about to wake it, so the work is never left to a sleeper. *)
Theorem intr_always_rearmed st k f : ireach st -> active st k = true -> (forall c, ev_ok st (EDispatch c f)) ->
  exists l st', Forall (fun e => match e with EAck _ _ => False | _ => True end) l /\ irun st l = Some st' /\ active st' k = false.
Proof.
  intros R Ha Hf. pose proof (ireach_inv st R) as I. apply (v_own _ I) in Ha as [o Ho]. destruct o as [c | irq | irq]; cbn [owns] in Ho.
  - destruct (cpu_at st c) as [| irq | irq | irq r | irq r |] eqn:Ec; try done.
    + by apply (rearm_dispatch st c irq k f I Ec Ho).
    + destruct Ho as [Hr Ho]. exists [EEoi c; EDeact c]. eexists. split; [repeat constructor |]. cbn [irun istep]. rewrite Ec. iexec. destruct (Z.eqb_spec r FILTER_SCHEDULE_THREAD); [done |]. iexec.
      split; [reflexivity |]. cbn in Ho |- *. rewrite <- Ho. apply upd_eq.
    + destruct Ho as [Hr Ho]. exists [EDeact c]. eexists. split; [repeat constructor |]. cbn [irun istep]. rewrite Ec. destruct (Z.eqb_spec r FILTER_SCHEDULE_THREAD); [done |]. cbn.
      split; [reflexivity |]. cbn in Ho |- *. rewrite <- Ho. apply upd_eq.
  - destruct Ho as (-> & s & Es & Ep). by apply (rearm_pending st k s).
  - destruct Ho as [-> Ht]. destruct (v_thr _ I k Ht) as (s & Es & _). destruct (v_src _ I k s Es) as (Hsi & _).
    exists [EFinish k]. eexists. split; [repeat constructor |]. cbn [irun istep]. rewrite Ht, Es. cbn. split; [reflexivity |]. cbn. by rewrite Hsi, upd_eq.
Qed.

(** ** Witnesses *)

Definition force {B} (o : option B) (d : B) : B := match o with Some x => x | None => d end.

Definition demo0 : ist := match intr_init 64 true with Ret st => st | Panic _ => Ist (fun _ => None) 0 (fun _ => false) (fun _ => 0) (fun _ => HIdle) (fun _ => TTop) end.
Definition demo1 : ist := match intr_register demo0 33 "uart" true true 3 with Ret st => st | Panic _ => demo0 end.

(** The thread goes to sleep; CPU 1 takes interrupt 33 and is about to wake it. *)
Definition demo2 : ist := force (istep demo1 (ETake 33)) demo1.
Definition demo3 : ist := force (istep demo2 (EAck 1 33)) demo2.
Definition demo4 : ist := force (istep demo3 (EDispatch 1 2)) demo3.

Lemma demo_reach : ireach demo4.
Proof.
  assert (R1 : ireach demo1) by (apply (ir_register demo0 33 "uart" true true 3); [by apply (ir_init 64 true) | lia | unfold GIC_SPI_BASE; lia | reflexivity]).
  assert (R2 : ireach demo2) by (apply (ir_step demo1 (ETake 33)); [exact R1 | exact I | reflexivity]).
  assert (R3 : ireach demo3) by (apply (ir_step demo2 (EAck 1 33)); [exact R2 | cbn; lia | reflexivity]).
  apply (ir_step demo3 (EDispatch 1 2)); [exact R3 | | reflexivity].
  split; [lia |]. intros irq s E Es _. vm_compute in E. injection E as <-. vm_compute in Es. injection Es as <-. reflexivity.
Qed.

Lemma intr_one_owner_witness : active demo4 33 = true /\ owns demo4 (OPend 33) 33 /\ forall o, owns demo4 o 33 -> o = OPend 33.
Proof.
  destruct (intr_one_owner demo4 demo_reach) as (Hown & Hone & _).
  assert (Ho : owns demo4 (OPend 33) 33) by (split; [reflexivity | eexists; split; reflexivity]).
  split; [apply Hown; exists (OPend 33); exact Ho |]. split; [exact Ho |]. intros o Hx. exact (Hone 33 o _ Hx Ho).
Defined.

Lemma intr_always_rearmed_witness : exists l st', thr_at demo4 33 = TAsleep /\ active demo4 33 = true /\ irun demo4 l = Some st' /\ active st' 33 = false.
Proof.
  assert (Ha : active demo4 33 = true) by reflexivity.
  destruct (intr_always_rearmed demo4 33 1 demo_reach Ha) as (l & st' & _ & El & Hl).
  - intros c. split; [lia |]. intros irq s _ _ Hx. discriminate Hx.
  - exists l, st'. split; [reflexivity |]. split; [exact Ha |]. split; [exact El | exact Hl].
Defined.
