(* ===== verification/Trap.v ===== *)
(** * Exceptions

    Models the synchronous and error handlers of arch/trap.c, with the field macro of
    arch/sysreg.h: what each does with the syndrome. The handler of a system call is that of
    [Syscall]; messages on the log are not modelled. *)

From S2P Require Import Prelude Bits Mmu Pages Pmap Copy Elf Exec ExecTop Console Syscall.

Definition EC_UNKNOWN : Z := 0x00.
Definition EC_SVC64 : Z := 0x15.
Definition EC_IABT_EL0 : Z := 0x20.
Definition EC_IABT_EL1 : Z := 0x21.
Definition EC_DABT_EL0 : Z := 0x24.
Definition EC_DABT_EL1 : Z := 0x25.
Definition EC_SERROR : Z := 0x2F.

Definition ESR_EC_SHIFT : Z := 26.
Definition ESR_EC_MASK : Z := GENMASK 5 0.
Definition ESR_ISS_MASK : Z := GENMASK 24 0.
Definition ESR_IDS : Z := BIT 24.
Definition ESR_AET_SHIFT : Z := 10.
Definition ESR_AET_MASK : Z := GENMASK 2 0.
Definition ESR_AET_UEO : Z := 0x2.
Definition ESR_AET_CE : Z := 0x6.

Definition esr_ec (esr : Z) : Z := u32 (Z.land (Z.shiftr esr ESR_EC_SHIFT) ESR_EC_MASK).

(** What a kernel exception does: [onfault] is p->onfault, [None] without a process. The
    result is the trapframe's ELR and the new onfault. *)
Definition trap_sync (esr elr : Z) (onfault : option Z) : res (Z * option Z) :=
  let ec := esr_ec esr in
  if ec =? EC_DABT_EL1 then
    match onfault with
    | Some f => if negb (f =? 0) then Ret (f, Some 0) else Panic "data abort"
    | None => Panic "data abort"
    end
  else if ec =? EC_IABT_EL1 then Panic "instruction abort"
  else if ec =? EC_SVC64 then Panic "unexpected svc"
  else Panic "unhandled sync exception".

Section user.
Context {A : Type} `{PageAlloc A}.

(** An EL0 exception: a system call, or exit(-1) of the process. *)
Definition usertrap_sync (blobs : list (list Z * blob)) (killed : bool) (st : sys A) (esr : Z) : res (outcome A) :=
  if esr_ec esr =? EC_SVC64 then syscall blobs killed st else Ret (Call st (CExit (-1))).

(** ... and the check at its end, when the handler came back with the result [o]. *)
Definition usertrap_return (killed : bool) (o : outcome A) : outcome A :=
  match o with Done st v => if killed then Call st (CExit (-1)) else Done st v | o => o end.
End user.

(** SYS_FIELD: [width] bits of a feature register from [shift] on. *)
Definition SYS_FIELD (v shift width : Z) : Z := Z.land (Z.shiftr v shift) (Z.shiftl 1 width - 1).

Definition ID_AA64PFR0_RAS_SHIFT : Z := 28.
Definition ID_AA64PFR0_RAS_WIDTH : Z := 4.
Definition ID_AA64PFR0_RAS_NONE : Z := 0.

(** [pfr0] is ID_AA64PFR0_EL1. *)
Definition serror_is_fatal (esr pfr0 : Z) : bool :=
  if negb (Z.land esr ESR_IDS =? 0) || (SYS_FIELD pfr0 ID_AA64PFR0_RAS_SHIFT ID_AA64PFR0_RAS_WIDTH =? ID_AA64PFR0_RAS_NONE) then true
  else let aet := Z.land (Z.shiftr esr ESR_AET_SHIFT) ESR_AET_MASK in negb (aet =? ESR_AET_CE) && negb (aet =? ESR_AET_UEO).

Definition trap_serror (esr pfr0 : Z) : res unit :=
  kassert (Z.land (Z.shiftr esr ESR_EC_SHIFT) ESR_EC_MASK =? EC_SERROR) msg "trap_serror: EC is not SError";;
  if negb (serror_is_fatal esr pfr0) then Ret tt else Panic "uncontainable system error".

Definition trap_fiq : res unit := Panic "unexpected FIQ".
Definition trap_unknown : res unit := Panic "unhandled exception".

(** ** Theorems *)

#[local] Abbreviation ptroot := (ptree 4).

Lemma esr_field x s m : 0 <= s -> 0 <= m <= 63 -> Z.land (Z.shiftr x s) (GENMASK m 0) = x / 2 ^ s mod 2 ^ (m + 1).
Proof.
  intros Hs Hm. replace (GENMASK m 0) with (Z.ones (m + 1)); [rewrite Z.land_ones, Z.shiftr_div_pow2 by lia; done |].
  assert (Hall : Forall (fun k => Z.ones (k + 1) = GENMASK k 0) (seqZ 0 64)) by (apply (bool_decide_unpack _); by vm_compute).
  rewrite Forall_forall in Hall. apply Hall, elem_of_seqZ. lia.
Qed.

(** no exception a user program can raise stops the kernel in its handler: for every
    syndrome and every register content the handler returns, with the outcome of the system
    call when the exception is one and with exit(-1) of the process for everything else;
    and a process that was killed meanwhile does not go back to user mode. *)
Theorem usertrap_contained {A} `{PageAllocLaws A} blobs killed killed' (st : sys A) (t : ptroot) esr :
  pa_ok (al (s_vm st)) -> runs st t -> break_ok st t -> images_ok blobs -> 0 <= esr ->
  exists o, usertrap_sync blobs killed st esr = Ret o /\
    (if esr / 2 ^ 26 mod 64 =? EC_SVC64 then syscall blobs killed st = Ret o else o = Call st (CExit (-1))) /\
    (killed' = true -> forall st' v, usertrap_return killed' o <> Done st' v).
Proof.
  intros Hok Hr Hb Hi He. unfold usertrap_sync, esr_ec, ESR_EC_SHIFT, ESR_EC_MASK. rewrite esr_field by lia. change (2 ^ (5 + 1)) with 64.
  rewrite u32_small by (pose proof (Z.mod_pos_bound (esr / 2 ^ 26) 64); lia).
  assert (Hret : forall o, killed' = true -> forall (st' : sys A) v, usertrap_return killed' o <> Done st' v) by (intros [] -> ? ?; cbn; discriminate).
  destruct (_ =? EC_SVC64); [| eexists; split; [reflexivity |]; split; [reflexivity | apply Hret]].
  unfold syscall. destruct (syscalls blobs killed _) as [f |] eqn:Ef; [| eexists; split; [reflexivity |]; split; [reflexivity | apply Hret]].
  destruct (syscalls_ret blobs killed st t f Hok Hr Hb Hi Ef) as (o & -> & _). cbn [mbind res_bind]. eexists. split; [reflexivity |]. split; [reflexivity | apply Hret].
Qed.

(** C23: an exception taken in the kernel is survived in exactly two cases: a data abort
    inside a user access of a process, which resumes once at the fixup and disarms it; and a
    system error that the hardware reports, in a format the kernel can read, as corrected or
    not yet consumed. *)
Theorem kernel_traps_exact esr elr onfault pfr0 : 0 <= esr -> 0 <= pfr0 -> let ec := esr / 2 ^ 26 mod 64 in
  (match trap_sync esr elr onfault with
   | Ret (elr', f') => ec = EC_DABT_EL1 /\ (exists f, onfault = Some f /\ f <> 0 /\ elr' = f) /\ f' = Some 0
   | Panic _ => ec <> EC_DABT_EL1 \/ onfault = None \/ onfault = Some 0
   end) /\
  (is_Ret (trap_serror esr pfr0) <-> ec = EC_SERROR /\ Z.testbit esr 24 = false /\ pfr0 / 2 ^ 28 mod 16 <> 0 /\ (esr / 2 ^ 10 mod 8 = 2 \/ esr / 2 ^ 10 mod 8 = 6)).
Proof.
  intros He Hp ec. split.
  - unfold trap_sync, esr_ec, ESR_EC_SHIFT, ESR_EC_MASK. rewrite esr_field by lia. change (2 ^ (5 + 1)) with 64. fold ec.
    rewrite u32_small by (pose proof (Z.mod_pos_bound (esr / 2 ^ 26) 64); lia).
    destruct (Z.eqb_spec ec EC_DABT_EL1) as [Hec | Hec]; [| destruct (ec =? EC_IABT_EL1); [by left |]; destruct (ec =? EC_SVC64); by left].
    destruct onfault as [f |]; [| by right; left]. destruct (Z.eqb_spec f 0) as [-> | Hf]; cbn [negb]; [by right; right |]. split; [done |]. split; [by exists f | done].
  - unfold trap_serror, serror_is_fatal, ESR_EC_SHIFT, ESR_EC_MASK, ESR_AET_SHIFT, ESR_AET_MASK, ESR_IDS, BIT. rewrite !esr_field by lia. change (2 ^ (5 + 1)) with 64. change (2 ^ (2 + 1)) with 8. fold ec.
    change (u64 (Z.shiftl 1 24)) with (Z.shiftl 1 24). rewrite land_shiftl_1 by lia.
    unfold SYS_FIELD, ID_AA64PFR0_RAS_SHIFT, ID_AA64PFR0_RAS_WIDTH, ID_AA64PFR0_RAS_NONE. change (Z.shiftl 1 4 - 1) with (Z.ones 4). rewrite Z.land_ones, Z.shiftr_div_pow2 by lia. change (2 ^ 4) with 16.
    unfold KASSERT, is_Ret, ESR_AET_CE, ESR_AET_UEO.
    destruct (Z.eqb_spec ec EC_SERROR); cbn [mbind res_bind]; [| split; [by intros [] | tauto]].
    destruct (Z.testbit esr 24); cbn [orb negb]; [split; [by intros [] | by intros (_ & ? & _)] |].
    destruct (Z.eqb_spec (pfr0 / 2 ^ 28 mod 16) 0); cbn [negb]; [split; [by intros [] | tauto] |].
    destruct (Z.eqb_spec (esr / 2 ^ 10 mod 8) 6), (Z.eqb_spec (esr / 2 ^ 10 mod 8) 2); cbn [negb andb];
      (split; [first [by intros [] | intros _; tauto] | first [intros _; by eexists | intros (_ & _ & _ & [|]); lia]]).
Qed.

(** ** Witnesses *)

Lemma usertrap_contained_witness : exists st : sys (list Z), usertrap_sync [] false st (Z.shiftl EC_DABT_EL0 26) = Ret (Call st (CExit (-1))).
Proof.
  destruct (demo_runs (demo_regs 0 0 0 1) (demo_regs_ok 0 0 0 1 ltac:(lia) ltac:(lia) ltac:(lia) ltac:(lia))) as (v & t & Hr & Hb & _).
  destruct (usertrap_contained [] false false _ t (Z.shiftl EC_DABT_EL0 26) (pool_ok _) Hr Hb) as (o & E & Ho & _).
  - intros path img size Hx. discriminate Hx.
  - vm_compute. discriminate.
  - exists (demo_sys v (demo_regs 0 0 0 1)). rewrite E. f_equal. exact Ho.
Defined.

Lemma kernel_traps_exact_witness : trap_sync (Z.shiftl EC_DABT_EL1 26) 5 (Some 7) = Ret (7, Some 0) /\
  ~ is_Ret (trap_serror (Z.shiftl EC_SERROR 26) (Z.shiftl 1 28)) /\ is_Ret (trap_serror (Z.lor (Z.shiftl EC_SERROR 26) (Z.shiftl 6 10)) (Z.shiftl 1 28)).
Proof.
  split; [reflexivity |]. split.
  - intros Hx. apply (kernel_traps_exact (Z.shiftl EC_SERROR 26) 0 None (Z.shiftl 1 28)) in Hx; [| vm_compute; discriminate | vm_compute; discriminate].
    destruct Hx as (_ & _ & _ & [Hx | Hx]); vm_compute in Hx; discriminate Hx.
  - apply (kernel_traps_exact (Z.lor (Z.shiftl EC_SERROR 26) (Z.shiftl 6 10)) 0 None (Z.shiftl 1 28)); [vm_compute; discriminate | vm_compute; discriminate |].
    split; [reflexivity |]. split; [reflexivity |]. split; [vm_compute; discriminate | right; reflexivity].
Defined.
