(* ===== verification/Fdt.v ===== *)
(** * Flattened device tree reader

    Models libkern/fdt.c over the byte memory of [Str]. The blob is read in place:
    a [uint32 *] access reads four bytes, least significant first, and [fdt32] turns
    them into the big-endian value. Structural damage panics.

    [fdt_next_tag] is the only step that moves over a token. It moves at least four
    bytes and only from below [struct_end], so a loop of [struct_end - p] iterations
    always reaches its exit: the exhausted case is the panic that [fdt_next_tag]
    raises at the end of the block. The equations [fdt_next_node_eq] and the like show
    that each function is the loop of the source, without fuel.

    A pointer increment is an addition; only the two comparisons the source writes
    against wrapping are taken modulo 2^64. *)

From S2P Require Import Prelude Str.

Definition FDT_MAGIC : Z := 0xD00DFEED.
Definition FDT_BEGIN_NODE : Z := 1.
Definition FDT_END_NODE : Z := 2.
Definition FDT_PROP : Z := 3.
Definition FDT_NOP : Z := 4.
Definition FDT_END : Z := 9.
Definition FDT_FIRST_SUPPORTED_VERSION : Z := 2.
Definition FDT_LAST_SUPPORTED_VERSION : Z := 0x11.

Record fdt := Fdt { struct_start : Z; struct_end : Z; strings : Z; strings_end : Z }.

(** A NULL pointer is 0. *)
Record fdt_tag := Tag { tag_type : Z; tag_name : Z; tag_value : Z; tag_len : Z }.

Record fdt_node := Node { n_props : Z; n_name : Z; n_depth : Z }.

(** ** Big-endian cells *)

Definition fdt32 (v : Z) : Z :=
  Z.lor (Z.lor (Z.lor (u32 (Z.shiftl (Z.land v 0xFF) 24)) (u32 (Z.shiftl (Z.land v 0xFF00) 8)))
    (Z.shiftr (Z.land v 0xFF0000) 8)) (Z.land (Z.shiftr v 24) 0xFF).

(** fdt32( *p) *)
Definition cell (m : mem) (p : Z) : Z := fdt32 (load_le 4 m p).

Definition fdt64 (m : mem) (cells : Z) : Z :=
  Z.lor (Z.shiftl (cell m cells) 32) (cell m (cells + 4)).

Definition fdt_cells (m : mem) (cells n : Z) : res Z :=
  if n =? 1 then Ret (cell m cells)
  else if n =? 2 then Ret (fdt64 m cells)
  else Panic "fdt: unsupported cell count %d".

Definition align4 (v : Z) : Z := Z.land (u32 (v + 3)) (u32 (Z.lnot 3)).

(** ** Tokens *)

(** while (s < end && *s != '\0') s++; *)
Fixpoint namelen_loop (fuel : nat) (m : mem) (s e : Z) : Z :=
  match fuel with
  | O => s
  | S fuel' => if (s <? e) && negb (m s =? 0) then namelen_loop fuel' m (s + 1) e else s
  end.

Definition fdt_namelen (m : mem) (name e : Z) : Z :=
  let s := namelen_loop (Z.to_nat (e - name)) m name e in
  if s <? e then u32 (u32 (s - name) + 1) else 0.

Definition tag_begin (m : mem) (f : fdt) (p : Z) : res (Z * fdt_tag) :=
  let namelen := fdt_namelen m p (struct_end f) in
  if namelen =? 0 then Panic "fdt: unterminated node name"
  else Ret (p + 4 * Z.shiftr (align4 namelen) 2, Tag FDT_BEGIN_NODE p 0 0).

Definition tag_prop (m : mem) (f : fdt) (p : Z) : res (Z * fdt_tag) :=
  if p + 8 >? struct_end f then Panic "fdt: truncated property header"
  else
    let len := cell m p in
    let nameoff := cell m (p + 4) in
    let p := p + 8 in
    if u64 (strings f + nameoff) >=? strings_end f
    then Panic "fdt: property name outside the strings block"
    else if (u64 (p + align4 len) >? struct_end f) || (u64 (p + align4 len) <? p)
    then Panic "fdt: property value outside the structure block"
    else Ret (p + 4 * Z.shiftr (align4 len) 2, Tag FDT_PROP (u64 (strings f + nameoff)) p len).

Definition fdt_next_tag (m : mem) (f : fdt) (p : Z) : res (Z * fdt_tag) :=
  if p >=? struct_end f then Panic "fdt: structure block ends without FDT_END"
  else
    let type := cell m p in
    let p := p + 4 in
    if type =? FDT_BEGIN_NODE then tag_begin m f p
    else if type =? FDT_PROP then tag_prop m f p
    else if (type =? FDT_END_NODE) || (type =? FDT_NOP) || (type =? FDT_END)
    then Ret (p, Tag type 0 0 0)
    else Panic "fdt: unknown token %#x".

(** header[i] *)
Definition header (m : mem) (blob i : Z) : Z := cell m (blob + 4 * i).

Definition fdt_open (m : mem) (blob : Z) : res fdt :=
  if negb (header m blob 0 =? FDT_MAGIC) then Panic "fdt: no valid device tree (bad magic)"
  else
    let version := header m blob 5 in
    if (version <? FDT_FIRST_SUPPORTED_VERSION) || (header m blob 6 >? FDT_LAST_SUPPORTED_VERSION)
    then Panic "fdt: unsupported format version %u"
    else
      let totalsize := header m blob 1 in
      let off_struct := header m blob 2 in
      let off_strings := header m blob 3 in
      let size_strings := header m blob 8 in
      let size_struct := header m blob 9 in
      if (u32 (off_struct + size_struct) <? off_struct)
         || (u32 (off_struct + size_struct) >? totalsize)
         || (u32 (off_strings + size_strings) <? off_strings)
         || (u32 (off_strings + size_strings) >? totalsize)
      then Panic "fdt: block outside the %u-byte blob"
      else Ret (Fdt (blob + off_struct) (blob + off_struct + size_struct)
                    (blob + off_strings) (blob + off_strings + size_strings)).

(** ** Nodes *)

(** Iterators return the node they leave behind also when nothing is left. *)
Fixpoint next_node_loop (fuel : nat) (m : mem) (f : fdt) (p : Z) (node : fdt_node)
  : res (bool * fdt_node) :=
  match fuel with
  | O => Panic "fdt: structure block ends without FDT_END"
  | S fuel' =>
      '(p, tag) ← fdt_next_tag m f p;
      if tag_type tag =? FDT_BEGIN_NODE
      then Ret (true, Node p (tag_name tag) (n_depth node + 1))
      else if tag_type tag =? FDT_END_NODE
      then next_node_loop fuel' m f p (Node (n_props node) (n_name node) (n_depth node - 1))
      else if tag_type tag =? FDT_END then Ret (false, node)
      else next_node_loop fuel' m f p node
  end.

Definition block_fuel (f : fdt) (p : Z) : nat := Z.to_nat (struct_end f - p).

Definition fdt_next_node (m : mem) (f : fdt) (node : fdt_node) : res (bool * fdt_node) :=
  next_node_loop (block_fuel f (n_props node)) m f (n_props node) node.

Definition fdt_first_node (m : mem) (f : fdt) : res (bool * fdt_node) :=
  fdt_next_node m f (Node (struct_start f) 0 (-1)).

Fixpoint next_subnode_loop (fuel : nat) (m : mem) (f : fdt) (parent child : fdt_node)
  : res (bool * fdt_node) :=
  match fuel with
  | O => Panic "fdt: structure block ends without FDT_END"
  | S fuel' =>
      '(ok, child) ← fdt_next_node m f child;
      if negb ok then Ret (false, child)
      else if n_depth child <=? n_depth parent then Ret (false, child)
      else if n_depth child =? n_depth parent + 1 then Ret (true, child)
      else next_subnode_loop fuel' m f parent child
  end.

Definition fdt_next_subnode (m : mem) (f : fdt) (parent child : fdt_node) : res (bool * fdt_node) :=
  next_subnode_loop (S (block_fuel f (n_props child))) m f parent child.

Definition fdt_first_subnode (m : mem) (f : fdt) (parent : fdt_node) : res (bool * fdt_node) :=
  fdt_next_subnode m f parent parent.

(** A string literal of the program, as its bytes before the NUL. *)
Fixpoint lit (s : string) : list Z :=
  match s with
  | EmptyString => []
  | String c s' => Z.of_nat (Ascii.nat_of_ascii c) :: lit s'
  end.

Fixpoint node_is_loop (m : mem) (s : Z) (name : list Z) : bool :=
  match name with
  | [] => (m s =? 0) || (m s =? 64)
  | c :: name' => if negb (m s =? c) then false else node_is_loop m (s + 1) name'
  end.

Definition fdt_node_is (m : mem) (node : fdt_node) (name : string) : bool :=
  node_is_loop m (n_name node) (lit name).

(** strcmp(s, name) == 0 for a literal; [strcmp_lit_eq] relates it to [strcmp]. *)
Fixpoint streq_lit (m : mem) (s : Z) (name : list Z) : bool :=
  match name with
  | [] => m s =? 0
  | c :: name' => (m s =? c) && streq_lit m (s + 1) name'
  end.

(** The value and its length, or NULL. *)
Fixpoint getprop_loop (fuel : nat) (m : mem) (f : fdt) (p : Z) (name : list Z)
  : res (option (Z * Z)) :=
  match fuel with
  | O => Panic "fdt: structure block ends without FDT_END"
  | S fuel' =>
      '(p, tag) ← fdt_next_tag m f p;
      if tag_type tag =? FDT_NOP then getprop_loop fuel' m f p name
      else if negb (tag_type tag =? FDT_PROP) then Ret None
      else if streq_lit m (tag_name tag) name then Ret (Some (tag_value tag, tag_len tag))
      else getprop_loop fuel' m f p name
  end.

Definition fdt_getprop (m : mem) (f : fdt) (node : fdt_node) (name : string)
  : res (option (Z * Z)) :=
  getprop_loop (block_fuel f (n_props node)) m f (n_props node) (lit name).

Definition fdt_prop_u32 (m : mem) (f : fdt) (node : fdt_node) (name : string) : res (option Z) :=
  v ← fdt_getprop m f node name;
  Ret match v with
      | Some (v, len) => if len <? 4 then None else Some (cell m v)
      | None => None
      end.

Fixpoint phandle_loop (fuel : nat) (m : mem) (f : fdt) (phandle : Z) (cur : bool * fdt_node)
  : res (bool * fdt_node) :=
  match fuel with
  | O => Panic "fdt: structure block ends without FDT_END"
  | S fuel' =>
      let '(ok, node) := cur in
      if negb ok then Ret (false, node)
      else
        v ← fdt_prop_u32 m f node "phandle";
        if bool_decide (v = Some phandle) then Ret (true, node)
        else next ← fdt_next_node m f node; phandle_loop fuel' m f phandle next
  end.

Definition fdt_node_by_phandle (m : mem) (f : fdt) (phandle : Z) : res (bool * fdt_node) :=
  cur ← fdt_first_node m f;
  phandle_loop (S (S (block_fuel f (struct_start f)))) m f phandle cur.

(** The client's loop over all nodes: for (ok = fdt_first_node(..); ok; ok =
    fdt_next_node(..)) body. *)
Fixpoint for_nodes {S : Type} (fuel : nat) (m : mem) (f : fdt) (body : S -> fdt_node -> res S)
  (s : S) (cur : bool * fdt_node) : res S :=
  match fuel with
  | O => Panic "fdt: structure block ends without FDT_END"
  | Datatypes.S fuel' =>
      let '(ok, node) := cur in
      if negb ok then Ret s
      else s ← body s node; next ← fdt_next_node m f node; for_nodes fuel' m f body s next
  end.

Definition fdt_for_each {S : Type} (m : mem) (f : fdt) (body : S -> fdt_node -> res S) (s : S) : res S :=
  cur ← fdt_first_node m f;
  for_nodes (Datatypes.S (Datatypes.S (block_fuel f (struct_start f)))) m f body s cur.

(** for (ok = fdt_first_subnode(..); ok; ok = fdt_next_subnode(..)) body. *)
Fixpoint for_subnodes {S : Type} (fuel : nat) (m : mem) (f : fdt) (parent : fdt_node)
  (body : S -> fdt_node -> res S) (s : S) (cur : bool * fdt_node) : res S :=
  match fuel with
  | O => Panic "fdt: structure block ends without FDT_END"
  | Datatypes.S fuel' =>
      let '(ok, child) := cur in
      if negb ok then Ret s
      else
        s ← body s child;
        next ← fdt_next_subnode m f parent child;
        for_subnodes fuel' m f parent body s next
  end.

Definition fdt_for_each_subnode {S : Type} (m : mem) (f : fdt) (parent : fdt_node)
  (body : S -> fdt_node -> res S) (s : S) : res S :=
  cur ← fdt_first_subnode m f parent;
  for_subnodes (Datatypes.S (Datatypes.S (block_fuel f (n_props parent)))) m f parent body s cur.

(** ** Lemmas: cells *)

Lemma fdt32_val v : 0 <= v < 2 ^ 32 ->
  fdt32 v = v mod 256 * 2 ^ 24 + v / 2 ^ 8 mod 256 * 2 ^ 16 + v / 2 ^ 16 mod 256 * 2 ^ 8 + v / 2 ^ 24.
Proof.
  intros Hv. unfold fdt32.
  change 0xFF0000 with (Z.shiftl (Z.ones 8) 16). change 0xFF00 with (Z.shiftl (Z.ones 8) 8).
  change 0xFF with (Z.ones 8).
  rewrite !land_field, !Z.land_ones, !Z.shiftl_mul_pow2, !Z.shiftr_div_pow2 by lia.
  change (2 ^ 8) with 256. change (2 ^ 16) with 65536. change (2 ^ 24) with 16777216. change (2 ^ 32) with 4294967296 in Hv.
  rewrite !u32_small by (Z.div_mod_to_equations; lia).
  replace (v / 65536 mod 256 * 65536 / 256) with (v / 65536 mod 256 * 256)
    by (Z.div_mod_to_equations; lia).
  rewrite (Z.mod_small (v / 16777216)) by (Z.div_mod_to_equations; lia).
  change 16777216 with (2 ^ 24) at 1. rewrite lor_low by (Z.div_mod_to_equations; lia).
  replace (v mod 256 * 2 ^ 24 + v / 256 mod 256 * 256 * 256)
    with ((v mod 256 * 256 + v / 256 mod 256) * 2 ^ 16) by lia.
  rewrite lor_low by (Z.div_mod_to_equations; lia).
  replace ((v mod 256 * 256 + v / 256 mod 256) * 2 ^ 16 + v / 65536 mod 256 * 256)
    with (((v mod 256 * 256 + v / 256 mod 256) * 256 + v / 65536 mod 256) * 2 ^ 8) by lia.
  rewrite lor_low by (Z.div_mod_to_equations; lia). lia.
Qed.

Lemma load4_range m p : mem_wf m -> 0 <= load_le 4 m p < 2 ^ 32.
Proof.
  intros H. cbn [load_le]. pose proof (H p). pose proof (H (p + 1)).
  pose proof (H (p + 1 + 1)). pose proof (H (p + 1 + 1 + 1)). lia.
Qed.

(** A cell is the big-endian value of its four bytes. *)
Lemma cell_val m p : mem_wf m ->
  cell m p = m p * 2 ^ 24 + m (p + 1) * 2 ^ 16 + m (p + 2) * 2 ^ 8 + m (p + 3).
Proof.
  intros H. unfold cell. rewrite fdt32_val by by apply load4_range. cbn [load_le].
  replace (p + 1 + 1 + 1) with (p + 3) by lia. replace (p + 1 + 1) with (p + 2) by lia.
  pose proof (H p). pose proof (H (p + 1)). pose proof (H (p + 2)). pose proof (H (p + 3)).
  Z.div_mod_to_equations. lia.
Qed.

Lemma cell_range m p : mem_wf m -> 0 <= cell m p < 2 ^ 32.
Proof.
  intros H. rewrite cell_val by done. pose proof (H p). pose proof (H (p + 1)).
  pose proof (H (p + 2)). pose proof (H (p + 3)). lia.
Qed.

Lemma fdt32_bytes a b c d : 0 <= a < 256 -> 0 <= b < 256 -> 0 <= c < 256 -> 0 <= d < 256 ->
  fdt32 (a + 256 * b + 65536 * c + 16777216 * d) = d + 256 * c + 65536 * b + 16777216 * a.
Proof. intros. rewrite fdt32_val by lia. Z.div_mod_to_equations. lia. Qed.

Lemma fdt32_involutive v : 0 <= v < 2 ^ 32 -> fdt32 (fdt32 v) = v.
Proof.
  intros Hv. assert (exists a b c d, v = a + 256 * b + 65536 * c + 16777216 * d /\
    0 <= a < 256 /\ 0 <= b < 256 /\ 0 <= c < 256 /\ 0 <= d < 256) as (a & b & c & d & -> & ? & ? & ? & ?).
  { exists (v mod 256), (v / 256 mod 256), (v / 65536 mod 256), (v / 16777216).
    Z.div_mod_to_equations. lia. }
  by rewrite !fdt32_bytes by lia.
Qed.

Lemma align4_val v : 0 <= v < 2 ^ 32 - 3 -> align4 v = (v + 3) / 4 * 4.
Proof.
  intros Hv. unfold align4. rewrite u32_small by lia.
  change (u32 (Z.lnot 3)) with (Z.shiftl (Z.ones 30) 2). rewrite land_field by lia.
  change (2 ^ 2) with 4. change (2 ^ 30) with 1073741824.
  rewrite (Z.mod_small ((v + 3) / 4)); [done |]. Z.div_mod_to_equations. lia.
Qed.

Lemma align4_range v : 0 <= align4 v <= 2 ^ 32 - 4 /\ align4 v mod 4 = 0.
Proof.
  unfold align4. change (u32 (Z.lnot 3)) with (Z.shiftl (Z.ones 30) 2). rewrite land_field by lia.
  change (2 ^ 2) with 4. change (2 ^ 30) with 1073741824. Z.div_mod_to_equations. lia.
Qed.

Lemma align4_words v : 4 * Z.shiftr (align4 v) 2 = align4 v.
Proof.
  pose proof (align4_range v). rewrite Z.shiftr_div_pow2 by lia. change (2 ^ 2) with 4.
  Z.div_mod_to_equations. lia.
Qed.

(** ** Lemmas: one token *)

Lemma namelen_loop_spec n m s e s' : s <= e -> e - s <= Z.of_nat n -> namelen_loop n m s e = s' ->
  s <= s' <= e /\ (forall i, s <= i < s' -> m i <> 0) /\ (s' = e \/ m s' = 0).
Proof.
  revert s. induction n as [| n IH]; intros s Hs Hn; cbn [namelen_loop].
  { intros <-. split; [lia |]. split; [intros; lia | left; lia]. }
  destruct (_ && _) eqn:E.
  - zbool. intros Hl. destruct (IH (s + 1)) as (? & Hnz & Hend); [lia | lia | done |].
    split; [lia |]. split; [| done]. intros i Hi. destruct (decide (i = s)) as [-> |]; [done |].
    apply Hnz. lia.
  - intros <-. split; [lia |]. split; [intros; lia |]. zbool.
    destruct E as [E | E]; zbool; [left; lia | by right].
Qed.

Lemma fdt_namelen_pos m name e n : name <= e -> e - name < 2 ^ 32 -> fdt_namelen m name e = n -> n <> 0 ->
  0 < n <= e - name /\ m (name + n - 1) = 0 /\ (forall i, name <= i < name + n - 1 -> m i <> 0).
Proof.
  intros Hle Hsz. unfold fdt_namelen.
  destruct (namelen_loop_spec (Z.to_nat (e - name)) m name e _ Hle ltac:(lia) eq_refl) as (Hr & Hnz & Hend).
  destruct (Z.ltb_spec (namelen_loop (Z.to_nat (e - name)) m name e) e); [| lia].
  rewrite (u32_small (namelen_loop _ _ _ _ - name)), u32_small by lia. intros <- _. split; [lia |]. split.
  - replace (name + _ - 1) with (namelen_loop (Z.to_nat (e - name)) m name e) by lia.
    destruct Hend; [lia | done].
  - intros i Hi. apply Hnz. lia.
Qed.

(** A token moves the cursor by at least four bytes, from inside the block. *)
Lemma fdt_next_tag_step m f p p' t : fdt_next_tag m f p = Ret (p', t) -> p < struct_end f /\ p + 4 <= p'.
Proof.
  unfold fdt_next_tag, tag_begin, tag_prop. intros H. destruct (p >=? struct_end f) eqn:E0; [done |].
  zbool. split; [done |].
  pose proof (align4_range (fdt_namelen m (p + 4) (struct_end f))).
  pose proof (align4_range (cell m (p + 4))).
  split_ifs; try done; injection H as <- <-; rewrite ?align4_words; lia.
Qed.

(** The bytes of the block from [p] on are the same. *)
Definition agree (m m' : mem) (lo hi : Z) : Prop := forall a, lo <= a < hi -> m a = m' a.

Lemma cell_agree m m' lo hi p : agree m m' lo hi -> lo <= p -> p + 4 <= hi -> cell m p = cell m' p.
Proof.
  intros H H1 H2. unfold cell. f_equal. cbn [load_le].
  rewrite (H p), (H (p + 1)), (H (p + 1 + 1)), (H (p + 1 + 1 + 1)) by lia. done.
Qed.

Lemma namelen_loop_agree n m m' s e lo : agree m m' lo e -> lo <= s ->
  namelen_loop n m s e = namelen_loop n m' s e.
Proof.
  intros H. revert s. induction n as [| n IH]; intros s Hs; cbn [namelen_loop]; [done |].
  destruct (Z.ltb_spec s e); cbn [andb]; [| done]. rewrite (H s), IH by lia. done.
Qed.

Lemma fdt_next_tag_agree m m' f p : agree m m' p (struct_end f) -> (struct_end f - p) mod 4 = 0 ->
  fdt_next_tag m f p = fdt_next_tag m' f p.
Proof.
  intros H Ha. unfold fdt_next_tag. destruct (p >=? struct_end f) eqn:E; [done |]. zbool.
  rewrite (cell_agree m m' p (struct_end f)) by (done || Z.div_mod_to_equations; lia).
  unfold tag_begin, fdt_namelen. rewrite (namelen_loop_agree _ m m' _ _ p) by (done || lia).
  unfold tag_prop. destruct (p + 4 + 8 >? struct_end f) eqn:E2; [done |]. zbool.
  rewrite (cell_agree m m' p (struct_end f) (p + 4)), (cell_agree m m' p (struct_end f) (p + 4 + 4))
    by (done || lia). done.
Qed.

(** What a token describes, when [struct_end] is a whole number of cells away. *)
Definition tag_ok (m : mem) (f : fdt) (p p' : Z) (t : fdt_tag) : Prop :=
  if tag_type t =? FDT_BEGIN_NODE then
    tag_name t = p + 4 /\ exists n, p + 4 + n < struct_end f /\ 0 <= n /\ m (p + 4 + n) = 0 /\ p + 4 + n < p'
  else if tag_type t =? FDT_PROP then
    tag_value t = p + 12 /\ tag_name t < strings_end f /\
    tag_name t = u64 (strings f + cell m (p + 8)) /\ tag_len t = cell m (p + 4) /\
    p' = p + 12 + align4 (tag_len t)
  else p' = p + 4 /\ tag_name t = 0 /\ tag_value t = 0 /\ tag_len t = 0.

Definition extent_ok (f : fdt) (p : Z) : Prop :=
  0 <= p <= struct_end f /\ struct_end f < 2 ^ 64 /\ struct_end f - p < 2 ^ 32 /\
  (struct_end f - p) mod 4 = 0.

Lemma fdt_next_tag_bounded m f p p' t : extent_ok f p -> fdt_next_tag m f p = Ret (p', t) ->
  extent_ok f p' /\ tag_type t = cell m p /\ tag_ok m f p p' t.
Proof.
  intros (H0 & H1 & H2 & H3) H. pose proof (fdt_next_tag_step _ _ _ _ _ H) as [Hp Hadv].
  revert H. unfold fdt_next_tag. destruct (p >=? struct_end f) eqn:E0; [done |].
  destruct (cell m p =? FDT_BEGIN_NODE) eqn:Eb; [zbool; rewrite Eb | destruct (cell m p =? FDT_PROP) eqn:Ep].
  - unfold tag_begin. destruct (_ =? 0) eqn:E1; [done |]. intros [= <- <-]. zbool.
    destruct (fdt_namelen_pos m (p + 4) (struct_end f) _ ltac:(Z.div_mod_to_equations; lia) ltac:(lia) eq_refl E1)
      as (Hn & Hz & _). revert Hn Hz. generalize (fdt_namelen m (p + 4) (struct_end f)). intros n Hn Hz.
    rewrite align4_words, align4_val by lia. split; [unfold extent_ok; Z.div_mod_to_equations; lia |].
    split; [done |]. unfold tag_ok. cbn. split; [done |]. exists (n - 1).
    replace (p + 4 + (n - 1)) with (p + 4 + n - 1) by lia.
    split; [lia |]. split; [lia |]. split; [done |]. Z.div_mod_to_equations. lia.
  - unfold tag_prop. destruct (_ >? _) eqn:E1; [done |]. destruct (_ >=? strings_end f) eqn:E2; [done |].
    destruct (_ || _) eqn:E3; [done |]. intros [= <- <-]. zbool. rewrite align4_words.
    pose proof (align4_range (cell m (p + 4))). rewrite Ep.
    split; [| split; [done |]].
    + unfold extent_ok. assert (u64 (p + 4 + 8 + align4 (cell m (p + 4))) = p + 4 + 8 + align4 (cell m (p + 4)))
        by words. Z.div_mod_to_equations. lia.
    + unfold tag_ok. cbn [tag_type tag_name tag_value tag_len]. cbn [Z.eqb FDT_PROP FDT_BEGIN_NODE].
      replace (p + 4 + 4) with (p + 8) in * by lia. repeat split; lia.
  - destruct (_ || _) eqn:E1; [| done]. intros [= <- <-]. split; [unfold extent_ok; Z.div_mod_to_equations; lia |].
    split; [done |]. unfold tag_ok. cbn [tag_type tag_name tag_value tag_len]. by rewrite Eb, Ep.
Qed.

(** ** Lemmas: the loops without fuel *)

Lemma next_tag_end m f p : struct_end f <= p ->
  fdt_next_tag m f p = Panic "fdt: structure block ends without FDT_END".
Proof. intros H. unfold fdt_next_tag. destruct (p >=? struct_end f) eqn:E; [done | zbool; lia]. Qed.

(** Two fuels that both cover the rest of the block give the same outcome. *)
Lemma next_node_loop_fuel n1 n2 m f p nd :
  struct_end f - p <= Z.of_nat n1 -> struct_end f - p <= Z.of_nat n2 ->
  next_node_loop n1 m f p nd = next_node_loop n2 m f p nd.
Proof.
  revert n2 p nd. induction n1 as [| n1 IH]; intros n2 p nd H1 H2; destruct n2 as [| n2]; try done;
    cbn [next_node_loop]; rewrite ?next_tag_end by lia; try done.
  all: destruct (fdt_next_tag m f p) as [[p' t] |] eqn:E; cbn; [| done].
  all: apply fdt_next_tag_step in E as [? ?]; split_ifs; try done; apply IH; lia.
Qed.

Lemma getprop_loop_fuel n1 n2 m f p name :
  struct_end f - p <= Z.of_nat n1 -> struct_end f - p <= Z.of_nat n2 ->
  getprop_loop n1 m f p name = getprop_loop n2 m f p name.
Proof.
  revert n2 p. induction n1 as [| n1 IH]; intros n2 p H1 H2; destruct n2 as [| n2]; try done;
    cbn [getprop_loop]; rewrite ?next_tag_end by lia; try done.
  all: destruct (fdt_next_tag m f p) as [[p' t] |] eqn:E; cbn; [| done].
  all: apply fdt_next_tag_step in E as [? ?]; split_ifs; try done; apply IH; lia.
Qed.

Lemma next_node_loop_step n m f p nd nd' :
  next_node_loop n m f p nd = Ret (true, nd') -> p < struct_end f /\ p + 4 <= n_props nd'.
Proof.
  revert p nd. induction n as [| n IH]; intros p nd; cbn [next_node_loop]; [done |].
  destruct (fdt_next_tag m f p) as [[p' t] |] eqn:E; cbn; [| done].
  apply fdt_next_tag_step in E as [? ?].
  split_ifs; try done; intros H'; [injection H' as <-; cbn; lia | apply IH in H'; lia | apply IH in H'; lia].
Qed.

Lemma fdt_next_node_step m f nd nd' : fdt_next_node m f nd = Ret (true, nd') ->
  n_props nd < struct_end f /\ n_props nd + 4 <= n_props nd'.
Proof. apply next_node_loop_step. Qed.

Lemma next_subnode_loop_fuel n1 n2 m f parent c :
  struct_end f - n_props c < Z.of_nat n1 -> struct_end f - n_props c < Z.of_nat n2 ->
  next_subnode_loop n1 m f parent c = next_subnode_loop n2 m f parent c.
Proof.
  revert n2 c. induction n1 as [| n1 IH]; intros n2 c H1 H2; destruct n2 as [| n2]; try done;
    cbn [next_subnode_loop]; unfold fdt_next_node at 1.
  - replace (block_fuel f (n_props c)) with O by (unfold block_fuel; lia). done.
  - replace (block_fuel f (n_props c)) with O by (unfold block_fuel; lia). done.
  - fold (fdt_next_node m f c). destruct (fdt_next_node m f c) as [[[] c'] |] eqn:E; cbn; [| done | done].
    apply fdt_next_node_step in E as [? ?]. split_ifs; try done. apply IH; lia.
Qed.

Lemma fdt_next_subnode_step m f parent c c' : fdt_next_subnode m f parent c = Ret (true, c') ->
  n_props c < struct_end f /\ n_props c + 4 <= n_props c' /\ n_depth c' = n_depth parent + 1.
Proof.
  unfold fdt_next_subnode. generalize (S (block_fuel f (n_props c))). intros n. revert c.
  induction n as [| n IH]; intros c; cbn [next_subnode_loop]; [done |].
  destruct (fdt_next_node m f c) as [[[] d] |] eqn:E; cbn; [| done | done].
  apply fdt_next_node_step in E as [? ?]. split_ifs; try done; intros H'.
  - injection H' as <-. zbool. lia.
  - apply IH in H'. lia.
Qed.

(** Fuel that covers a walk that stands at [cur]. *)
Definition covers_walk (f : fdt) (cur : bool * fdt_node) (n : nat) : Prop :=
  1 + (if cur.1 then 1 + Z.max 0 (struct_end f - n_props cur.2) else 0) <= Z.of_nat n.

Lemma covers_next f nd nxt n :
  covers_walk f (true, nd) (S n) -> n_props nd < struct_end f ->
  (nxt.1 = true -> n_props nd + 4 <= n_props nxt.2) -> covers_walk f nxt n.
Proof.
  unfold covers_walk. destruct nxt as [[] c]; cbn -[Z.max Z.of_nat]; intros H1 H2 H3; [specialize (H3 eq_refl) |]; lia.
Qed.

Lemma next_node_moves m f nd nxt : fdt_next_node m f nd = Ret nxt ->
  n_props nd < struct_end f /\ (nxt.1 = true -> n_props nd + 4 <= n_props nxt.2).
Proof.
  destruct nxt as [[] c]; intros H.
  - apply fdt_next_node_step in H as [? ?]. by cbn.
  - split; [| done]. revert H. unfold fdt_next_node. destruct (Z.lt_ge_cases (n_props nd) (struct_end f)); [done |].
    replace (block_fuel f (n_props nd)) with O by (unfold block_fuel; lia). done.
Qed.

Lemma for_nodes_fuel {S} n1 n2 m f (body : S -> fdt_node -> res S) s cur :
  covers_walk f cur n1 -> covers_walk f cur n2 ->
  for_nodes n1 m f body s cur = for_nodes n2 m f body s cur.
Proof.
  revert n2 s cur. induction n1 as [| n1 IH]; intros n2 s [[] nd] H1 H2; destruct n2 as [| n2];
    try (unfold covers_walk in *; cbn -[Z.max] in *; lia); cbn [for_nodes negb]; try done.
  destruct (body s nd) as [s' |]; cbn; [| done].
  destruct (fdt_next_node m f nd) as [nxt |] eqn:E; cbn; [| done].
  apply next_node_moves in E as [? ?]. apply IH; by eapply covers_next.
Qed.

Lemma phandle_loop_fuel n1 n2 m f ph cur :
  covers_walk f cur n1 -> covers_walk f cur n2 -> phandle_loop n1 m f ph cur = phandle_loop n2 m f ph cur.
Proof.
  revert n2 cur. induction n1 as [| n1 IH]; intros n2 [[] nd] H1 H2; destruct n2 as [| n2];
    try (unfold covers_walk in *; cbn -[Z.max] in *; lia); cbn [phandle_loop negb]; try done.
  destruct (fdt_prop_u32 m f nd "phandle") as [v |]; cbn; [| done].
  destruct (bool_decide _); [done |].
  destruct (fdt_next_node m f nd) as [nxt |] eqn:E; cbn; [| done].
  apply next_node_moves in E as [? ?]. apply IH; by eapply covers_next.
Qed.

Lemma fdt_next_node_eq m f p nd :
  next_node_loop (block_fuel f p) m f p nd =
  ('(p', tag) ← fdt_next_tag m f p;
   if tag_type tag =? FDT_BEGIN_NODE then Ret (true, Node p' (tag_name tag) (n_depth nd + 1))
   else if tag_type tag =? FDT_END_NODE
   then next_node_loop (block_fuel f p') m f p' (Node (n_props nd) (n_name nd) (n_depth nd - 1))
   else if tag_type tag =? FDT_END then Ret (false, nd)
   else next_node_loop (block_fuel f p') m f p' nd).
Proof.
  rewrite (next_node_loop_fuel _ (S (block_fuel f p))) by (unfold block_fuel; lia). cbn [next_node_loop].
  destruct (fdt_next_tag m f p) as [[p' t] |] eqn:E; cbn; [| done].
  apply fdt_next_tag_step in E as [? ?].
  split_ifs; try done; apply next_node_loop_fuel; unfold block_fuel; lia.
Qed.

Lemma fdt_getprop_eq m f p name :
  getprop_loop (block_fuel f p) m f p name =
  ('(p', tag) ← fdt_next_tag m f p;
   if tag_type tag =? FDT_NOP then getprop_loop (block_fuel f p') m f p' name
   else if negb (tag_type tag =? FDT_PROP) then Ret None
   else if streq_lit m (tag_name tag) name then Ret (Some (tag_value tag, tag_len tag))
   else getprop_loop (block_fuel f p') m f p' name).
Proof.
  rewrite (getprop_loop_fuel _ (S (block_fuel f p))) by (unfold block_fuel; lia). cbn [getprop_loop].
  destruct (fdt_next_tag m f p) as [[p' t] |] eqn:E; cbn; [| done].
  apply fdt_next_tag_step in E as [? ?].
  split_ifs; try done; apply getprop_loop_fuel; unfold block_fuel; lia.
Qed.

Lemma fdt_next_subnode_eq m f parent child :
  fdt_next_subnode m f parent child =
  ('(ok, child) ← fdt_next_node m f child;
   if negb ok then Ret (false, child)
   else if n_depth child <=? n_depth parent then Ret (false, child)
   else if n_depth child =? n_depth parent + 1 then Ret (true, child)
   else fdt_next_subnode m f parent child).
Proof.
  unfold fdt_next_subnode at 1. cbn [next_subnode_loop].
  destruct (fdt_next_node m f child) as [[[] c] |] eqn:E; cbn -[fdt_next_subnode]; [| done | done].
  apply fdt_next_node_step in E as [? ?]. split_ifs; try done.
  unfold fdt_next_subnode. apply next_subnode_loop_fuel; unfold block_fuel; lia.
Qed.

(** ** Specification: the device tree a block holds *)

(** A node with its properties (name, value) and its children, in order. *)
#[warnings="-register-all"]
Inductive dtree :=
| DNode (name : list Z) (props : list (list Z * list Z)) (kids : list dtree).

Definition dt_name (t : dtree) : list Z := let '(DNode n _ _) := t in n.
Definition dt_props (t : dtree) : list (list Z * list Z) := let '(DNode _ ps _) := t in ps.
Definition dt_kids (t : dtree) : list dtree := let '(DNode _ _ ks) := t in ks.

Inductive tok :=
| KBegin (name : list Z)
| KProp (prop : list Z * list Z)
| KEndNode
| KEnd.

(** The tokens of a tree, and its nodes in document order with their depths. *)
Fixpoint flatten (t : dtree) : list tok :=
  match t with
  | DNode name props kids => KBegin name :: map KProp props ++ flat_map flatten kids ++ [KEndNode]
  end.

Fixpoint preorder (d : Z) (t : dtree) : list (Z * dtree) :=
  match t with
  | DNode _ _ kids => (d, t) :: flat_map (preorder (d + 1)) kids
  end.

(** [l] is stored at [a]. *)
Fixpoint stored (m : mem) (a : Z) (l : list Z) : Prop :=
  match l with [] => True | x :: l' => m a = x /\ stored m (a + 1) l' end.

(** One token at [p], whose encoding ends at [p']. *)
Definition tok_at (m : mem) (f : fdt) (p : Z) (k : tok) (p' : Z) : Prop :=
  p' <= struct_end f /\
  match k with
  | KBegin name =>
      let n := Z.of_nat (length name) + 1 in
      cell m p = FDT_BEGIN_NODE /\ cstr m (p + 4) name /\ p' = p + 4 + (n + 3) / 4 * 4
  | KProp (name, value) =>
      let n := Z.of_nat (length value) in
      let off := cell m (p + 8) in
      cell m p = FDT_PROP /\ cell m (p + 4) = n /\ n < 2 ^ 32 - 3 /\
      strings f + off < strings_end f /\ cstr m (strings f + off) name /\
      stored m (p + 12) value /\ p' = p + 12 + (n + 3) / 4 * 4
  | KEndNode => cell m p = FDT_END_NODE /\ p' = p + 4
  | KEnd => cell m p = FDT_END /\ p' = p + 4
  end.

(** A sequence of tokens at [p]; FDT_NOP may stand before any of them. *)
Inductive toks_at (m : mem) (f : fdt) : Z -> list tok -> Prop :=
| toks_nil p : toks_at m f p []
| toks_cons p p' k l : tok_at m f p k p' -> toks_at m f p' l -> toks_at m f p (k :: l)
| toks_nop p l : p + 4 <= struct_end f -> cell m p = FDT_NOP -> toks_at m f (p + 4) l -> toks_at m f p l.

(** Where the blocks lie: extents below 2^64, a structure block under 4 GB. *)
Definition blocks_ok (f : fdt) : Prop :=
  0 <= struct_start f <= struct_end f /\ struct_end f < 2 ^ 64 /\
  struct_end f - struct_start f < 2 ^ 32 /\ 0 <= strings f /\ strings_end f < 2 ^ 64.

(** The node a reader holds is the tree node [t] at depth [d]. *)
Definition node_at (m : mem) (f : fdt) (nd : fdt_node) (dt : Z * dtree) : Prop :=
  let '(d, t) := dt in
  n_depth nd = d /\ struct_start f <= n_props nd /\ cstr m (n_name nd) (dt_name t) /\
  exists rest, toks_at m f (n_props nd)
    (map KProp (dt_props t) ++ flat_map flatten (dt_kids t) ++ KEndNode :: rest ++ [KEnd]).

(** Decides whether a tree name, less its unit address, is a literal. *)
Definition name_is (name l : list Z) : Prop := name = l \/ exists unit, name = l ++ 64 :: unit.

Definition prop_lookup (props : list (list Z * list Z)) (name : list Z) : option (list Z) :=
  snd <$> head (filter (fun pr => pr.1 = name) props).

(** ** Lemmas: reading one token of the specification *)

Lemma cstr_zero_unique m a l n : cstr m a l -> m (a + n) = 0 -> 0 <= n ->
  (forall i, a <= i < a + n -> m i <> 0) -> n = Z.of_nat (length l).
Proof.
  revert a n. induction l as [| x l IH]; intros a n H Hz Hn Hnz; cbn [cstr length] in *.
  - destruct (decide (n = 0)); [lia |]. exfalso. apply (Hnz a); [lia | done].
  - destruct H as (Hx & Hx0 & H). destruct (decide (n = 0)) as [-> |].
    { rewrite Z.add_0_r in Hz. congruence. }
    enough (n - 1 = Z.of_nat (length l)) by lia. apply (IH (a + 1)); [done | | lia |].
    + by replace (a + 1 + (n - 1)) with (a + n) by lia.
    + intros i Hi. apply Hnz. lia.
Qed.

Lemma cstr_end m a l : cstr m a l -> m (a + Z.of_nat (length l)) = 0.
Proof.
  revert a. induction l as [| x l IH]; intros a; cbn [cstr length]; [by rewrite Z.add_0_r |].
  intros (_ & _ & H). rewrite <- (IH _ H). f_equal. lia.
Qed.

Lemma fdt_namelen_cstr m a e l : cstr m a l -> a + Z.of_nat (length l) < e -> e - a < 2 ^ 32 ->
  fdt_namelen m a e = Z.of_nat (length l) + 1.
Proof.
  intros H He Hsz. unfold fdt_namelen.
  destruct (namelen_loop_spec (Z.to_nat (e - a)) m a e _ ltac:(lia) ltac:(lia) eq_refl) as (Hr & Hnz & Hend).
  revert Hr Hnz Hend. generalize (namelen_loop (Z.to_nat (e - a)) m a e). intros s Hr Hnz Hend.
  assert (Hlt : s < e).
  { destruct (Z.lt_ge_cases s e); [done |]. exfalso. apply (Hnz (a + Z.of_nat (length l))); [lia |].
    by apply cstr_end. }
  assert (s - a = Z.of_nat (length l)).
  { apply (cstr_zero_unique m a l); [done | | lia | intros; apply Hnz; lia].
    replace (a + (s - a)) with s by lia. destruct Hend; [lia | done]. }
  destruct (Z.ltb_spec s e); [| lia]. rewrite (u32_small (s - a)), u32_small by lia. lia.
Qed.

Lemma fdt_next_tag_nop m f p : p + 4 <= struct_end f -> cell m p = FDT_NOP ->
  fdt_next_tag m f p = Ret (p + 4, Tag FDT_NOP 0 0 0).
Proof.
  intros H E. unfold fdt_next_tag. rewrite E. destruct (p >=? struct_end f) eqn:E0; [zbool; lia | done].
Qed.

(** The tag that [fdt_next_tag] reports for a token. *)
Definition tok_tag (f : fdt) (m : mem) (p : Z) (k : tok) : fdt_tag :=
  match k with
  | KBegin _ => Tag FDT_BEGIN_NODE (p + 4) 0 0
  | KProp (_, value) => Tag FDT_PROP (strings f + cell m (p + 8)) (p + 12) (Z.of_nat (length value))
  | KEndNode => Tag FDT_END_NODE 0 0 0
  | KEnd => Tag FDT_END 0 0 0
  end.

Lemma fdt_next_tag_tok m f p k p' : mem_wf m -> blocks_ok f -> struct_start f <= p -> tok_at m f p k p' ->
  fdt_next_tag m f p = Ret (p', tok_tag f m p k).
Proof.
  intros Hwf (Hs & Hse & Hsz & Hst & Hste) Hp [Hend Hk]. unfold fdt_next_tag.
  destruct k as [name | [name value] | |]; cbn [tok_tag].
  - destruct Hk as (Hc & Hname & ->). rewrite Hc. cbn [Z.eqb FDT_BEGIN_NODE].
    destruct (p >=? struct_end f) eqn:E0; [zbool; Z.div_mod_to_equations; lia |].
    unfold tag_begin. rewrite (fdt_namelen_cstr _ _ _ name) by (done || Z.div_mod_to_equations; lia).
    destruct (_ =? 0) eqn:E1; [zbool; lia |]. do 2 f_equal.
    rewrite align4_words, align4_val by (Z.div_mod_to_equations; lia). done.
  - destruct Hk as (Hc & Hl & Hlt & Hoff & _ & _ & ->). rewrite Hc. cbn [Z.eqb FDT_BEGIN_NODE FDT_PROP].
    destruct (p >=? struct_end f) eqn:E0; [zbool; Z.div_mod_to_equations; lia |].
    unfold tag_prop. destruct (p + 4 + 8 >? struct_end f) eqn:E1; [zbool; Z.div_mod_to_equations; lia |].
    pose proof (cell_range m (p + 8) Hwf). rewrite Hl. replace (p + 4 + 4) with (p + 8) by lia.
    rewrite (u64_small (strings f + _)) by lia. destruct (_ >=? strings_end f) eqn:E2; [zbool; lia |].
    rewrite align4_val, u64_small by (Z.div_mod_to_equations; lia).
    destruct (_ || _) eqn:E3; [exfalso; zbool; Z.div_mod_to_equations; zbool; destruct E3; zbool; lia |].
    do 2 f_equal; [| f_equal; lia].
    rewrite <- (align4_val (Z.of_nat (length value))), align4_words, align4_val by lia. lia.
  - destruct Hk as (Hc & ->). rewrite Hc. destruct (p >=? struct_end f) eqn:E0; [zbool; lia | done].
  - destruct Hk as (Hc & ->). rewrite Hc. destruct (p >=? struct_end f) eqn:E0; [zbool; lia | done].
Qed.

Lemma tok_at_adv m f p k p' : tok_at m f p k p' -> p + 4 <= p'.
Proof.
  intros [_ H]. destruct k as [name | [name value] | |]; cbn zeta in H;
    repeat match goal with Hc : _ /\ _ |- _ => destruct Hc end; Z.div_mod_to_equations; lia.
Qed.

Lemma streq_lit_eq m a l name : cstr m a l -> Forall (fun c => c <> 0) name ->
  streq_lit m a name = bool_decide (l = name).
Proof.
  intros H Hn. revert a l H. induction Hn as [| c name Hc Hn IH]; intros a [| x l] H; cbn [cstr streq_lit] in *.
  - by rewrite H.
  - destruct H as (-> & Hx & H). destruct (Z.eqb_spec x 0); [lia |]. done.
  - rewrite H. destruct (Z.eqb_spec 0 c); [lia |]. done.
  - destruct H as (-> & Hx & H). rewrite (IH _ l) by done.
    destruct (Z.eqb_spec x c) as [-> |]; cbn [andb]; repeat case_bool_decide; congruence.
Qed.

(** The literal comparison is [strcmp] against the literal in memory. *)
Lemma strcmp_lit_eq m a b l name fuel : mem_wf m -> cstr m a l -> cstr m b name ->
  (length l < fuel)%nat -> strcmp fuel m a b = Some (lex l name) /\
  (streq_lit m a name = true <-> lex l name = 0).
Proof.
  intros Hwf Ha Hb Hf. split; [by apply strcmp_lex |].
  rewrite (streq_lit_eq m a l name Ha).
  - rewrite bool_decide_eq_true, lex_0. done.
  - eapply Forall_impl; [by apply (cstr_nonneg m b) |]. intros x Hx. cbn in Hx. lia.
Qed.

(** ** Lemmas: walking a tree *)

Fixpoint mfold {S A} (body : S -> A -> res S) (s : S) (l : list A) : res S :=
  match l with
  | [] => Ret s
  | x :: l' => s ← body s x; mfold body s l'
  end.

Lemma mfold_app {S A} (body : S -> A -> res S) s l1 l2 :
  mfold body s (l1 ++ l2) = (s ← mfold body s l1; mfold body s l2).
Proof.
  revert s. induction l1 as [| x l1 IH]; intros s; cbn [mfold app]; [done |].
  destruct (body s x) as [s' |]; cbn; [apply IH | done].
Qed.

Lemma dtree_nested_ind (P : dtree -> Prop) :
  (forall name props kids, Forall P kids -> P (DNode name props kids)) -> forall t, P t.
Proof.
  intros H. fix IH 1. intros [name props kids]. apply H.
  induction kids as [| k kids IHk]; constructor; [apply IH | done].
Qed.

Section walk.
Context (m : mem) (f : fdt).
Hypothesis Hwf : mem_wf m.
Hypothesis Hblk : blocks_ok f.

(** [fdt_next_node] from a cursor inside a node. *)
Definition next_from (p : Z) (nd : fdt_node) : res (bool * fdt_node) :=
  next_node_loop (block_fuel f p) m f p nd.

Lemma next_from_node nd : fdt_next_node m f nd = next_from (n_props nd) nd.
Proof. done. Qed.

Lemma next_from_tok p k l nd : struct_start f <= p -> toks_at m f p (k :: l) ->
  exists q p', p <= q /\ tok_at m f q k p' /\ toks_at m f p' l /\
  next_from p nd =
    match k with
    | KBegin _ => Ret (true, Node p' (q + 4) (n_depth nd + 1))
    | KEndNode => next_from p' (Node (n_props nd) (n_name nd) (n_depth nd - 1))
    | KEnd => Ret (false, nd)
    | KProp _ => next_from p' nd
    end.
Proof.
  intros Hp H. remember (k :: l) as kl eqn:Ekl. revert k l Ekl Hp.
  induction H as [p | p p' k' l' Hk Ht _ | p l' Hle Hnop Ht IH]; intros k l Ekl Hp; [done | |].
  - injection Ekl as -> ->. exists p, p'. split; [lia |]. split; [done |]. split; [done |].
    unfold next_from at 1. rewrite fdt_next_node_eq, (fdt_next_tag_tok m f p k p') by done.
    destruct k as [| [? ?] | |]; done.
  - destruct (IH k l Ekl ltac:(lia)) as (q & p' & Hq & Hk & Hl & E). exists q, p'. split; [lia |].
    split; [done |]. split; [done |]. rewrite <- E. unfold next_from at 1.
    by rewrite fdt_next_node_eq, fdt_next_tag_nop by done.
Qed.

Lemma next_from_props p ps l nd : struct_start f <= p -> toks_at m f p (map KProp ps ++ l) ->
  exists p', p <= p' /\ toks_at m f p' l /\ next_from p nd = next_from p' nd.
Proof.
  revert p. induction ps as [| pr ps IH]; intros p Hp Ht; cbn [map app] in Ht.
  { by exists p. }
  destruct (next_from_tok p _ _ nd Hp Ht) as (q & p' & Hq & Hk & Ht' & E).
  apply tok_at_adv in Hk. destruct (IH p' ltac:(lia) Ht') as (p'' & ? & ? & ?).
  exists p''. split; [lia |]. split; [done |]. congruence.
Qed.

Section body.
Context {S : Type} (body : S -> fdt_node -> res S).

Definition walk_fuel (cur : bool * fdt_node) : nat := Datatypes.S (Datatypes.S (block_fuel f (n_props cur.2))).

Lemma walk_fuel_covers cur : covers_walk f cur (walk_fuel cur).
Proof. unfold covers_walk, walk_fuel, block_fuel. destruct cur as [[] nd]; cbn [fst snd]; lia. Qed.

(** The walk that continues from a cursor. *)
Definition walk_from (s : S) (p : Z) (nd : fdt_node) : res S :=
  cur ← next_from p nd; for_nodes (walk_fuel cur) m f body s cur.

Lemma walk_from_eq s p nd :
  walk_from s p nd =
  ('(ok, c) ← next_from p nd;
   if negb ok then Ret s else s ← body s c; walk_from s (n_props c) c).
Proof.
  unfold walk_from at 1. destruct (next_from p nd) as [[[] c] |] eqn:E; cbn -[for_nodes walk_fuel]; [| done | done].
  pose proof (walk_fuel_covers (true, c)) as Hcov. unfold walk_fuel at 1. unfold walk_fuel in Hcov.
  cbn [snd] in *. revert Hcov. generalize (Datatypes.S (block_fuel f (n_props c))). intros k Hcov.
  cbn [for_nodes negb]. destruct (body s c) as [s' |]; cbn -[walk_from walk_fuel]; [| done].
  unfold walk_from. rewrite <- next_from_node.
  destruct (fdt_next_node m f c) as [nxt |] eqn:En; cbn -[walk_fuel for_nodes]; [| done].
  apply for_nodes_fuel; [| apply walk_fuel_covers]. apply next_node_moves in En as [? ?].
  by eapply covers_next.
Qed.

End body.

(** The walk over a list of subtrees runs the body on their nodes in document order
    and comes back to the depth it started from. *)
Definition walks (ts : list dtree) : Prop :=
  forall p rest nd, struct_start f <= p -> toks_at m f p (flat_map flatten ts ++ rest ++ [KEnd]) ->
  exists nds p' nd', p <= p' /\ toks_at m f p' (rest ++ [KEnd]) /\ n_depth nd' = n_depth nd /\
    Forall2 (node_at m f) nds (flat_map (preorder (n_depth nd + 1)) ts) /\
    forall (S : Type) (body : S -> fdt_node -> res S) s,
    walk_from body s p nd = (s ← mfold body s nds; walk_from body s p' nd').

Lemma walks_one name props kids : walks kids -> walks [DNode name props kids].
Proof.
  intros IH p rest nd Hp Ht. cbn [flat_map flatten app] in Ht. rewrite <- !app_assoc in Ht. cbn [app] in Ht.
  destruct (next_from_tok p _ _ nd Hp Ht) as (q & p1 & Hq & Hk & Ht1 & E1).
  pose proof (tok_at_adv _ _ _ _ _ Hk). destruct Hk as [_ (_ & Hname & _)].
  set (c := Node p1 (q + 4) (n_depth nd + 1)) in *.
  destruct (next_from_props p1 props _ c ltac:(lia) Ht1) as (p2 & Hp2 & Ht2 & E2).
  change (KEndNode :: rest ++ [KEnd]) with ((KEndNode :: rest) ++ [KEnd]) in Ht2.
  destruct (IH p2 _ c ltac:(lia) Ht2) as (nds & p3 & nd3 & Hp3 & Ht3 & Hd3 & Hnds & W).
  destruct (next_from_tok p3 _ _ nd3 ltac:(lia) Ht3) as (q' & p4 & Hq' & Hk' & Ht4 & E4).
  apply tok_at_adv in Hk'.
  exists (c :: nds), p4, (Node (n_props nd3) (n_name nd3) (n_depth nd3 - 1)).
  split; [lia |]. split; [done |]. split; [cbn; cbn in Hd3; lia |]. split.
  - cbn [flat_map preorder app]. rewrite app_nil_r. constructor; [| done].
    cbn [node_at c n_depth n_props n_name dt_name dt_props dt_kids]. split; [done |]. split; [lia |].
    split; [done |]. by exists rest.
  - intros S body s. rewrite walk_from_eq, E1. cbn [mbind res_bind negb mfold].
    destruct (body s c) as [s' |]; cbn [mbind res_bind]; [| done].
    transitivity (walk_from body s' p2 c); [unfold walk_from; by rewrite <- E2 |].
    rewrite W. destruct (mfold body s' nds) as [s'' |]; cbn [mbind res_bind]; [| done].
    unfold walk_from. by rewrite E4.
Qed.

Lemma walks_cons t ts : walks [t] -> walks ts -> walks (t :: ts).
Proof.
  intros H1 H2 p rest nd Hp Ht. cbn [flat_map] in *. rewrite <- app_assoc in Ht.
  rewrite (app_assoc _ rest) in Ht.
  destruct (H1 p (flat_map flatten ts ++ rest) nd Hp) as (nds1 & p1 & nd1 & Hp1 & Ht1 & Hd1 & Hn1 & W1).
  { cbn [flat_map]. rewrite app_nil_r. done. }
  rewrite <- app_assoc in Ht1.
  destruct (H2 p1 rest nd1 ltac:(lia) Ht1) as (nds2 & p2 & nd2 & Hp2 & Ht2 & Hd2 & Hn2 & W2).
  exists (nds1 ++ nds2), p2, nd2. split; [lia |]. split; [done |]. split; [congruence |]. split.
  - apply Forall2_app; [cbn [flat_map] in Hn1; by rewrite app_nil_r in Hn1 | by rewrite Hd1 in Hn2].
  - intros S body s. rewrite W1, mfold_app. destruct (mfold body s nds1); cbn; [apply W2 | done].
Qed.

Lemma walks_all ts : walks ts.
Proof.
  assert (forall t, walks [t]) as H1.
  { apply dtree_nested_ind. intros name props kids Hk. apply walks_one.
    induction Hk as [| k kids Hk _ IHk]; [| by apply walks_cons].
    intros p rest nd Hp Ht. exists [], p, nd. split; [lia |]. done. }
  induction ts as [| t ts IH]; [| by apply walks_cons].
  intros p rest nd Hp Ht. exists [], p, nd. split; [lia |]. done.
Qed.

Lemma walk_from_end {S} (body : S -> fdt_node -> res S) s p nd :
  struct_start f <= p -> toks_at m f p [KEnd] -> walk_from body s p nd = Ret s.
Proof.
  intros Hp Ht. destruct (next_from_tok p _ _ nd Hp Ht) as (q & p' & _ & _ & _ & E).
  rewrite walk_from_eq, E. done.
Qed.

Lemma fdt_for_each_walk {S} (body : S -> fdt_node -> res S) s :
  fdt_for_each m f body s = walk_from body s (struct_start f) (Node (struct_start f) 0 (-1)).
Proof.
  unfold fdt_for_each, walk_from, fdt_first_node, next_from. cbn [n_props]. unfold fdt_next_node. cbn [n_props].
  destruct (next_node_loop _ _ _ _ _) as [cur |] eqn:E; cbn -[for_nodes walk_fuel]; [| done].
  apply for_nodes_fuel; [| apply walk_fuel_covers]. unfold covers_walk, block_fuel.
  destruct cur as [[] nd]; cbn [fst snd]; [apply next_node_loop_step in E as [? ?] |]; lia.
Qed.

(** ** Lemmas: children and properties *)

Section children.
Context (parent : fdt_node).

(** [fdt_next_subnode] from a cursor inside a node. *)
Definition sub_from (p : Z) (nd : fdt_node) : res (bool * fdt_node) :=
  '(ok, c) ← next_from p nd;
  if negb ok then Ret (false, c)
  else if n_depth c <=? n_depth parent then Ret (false, c)
  else if n_depth c =? n_depth parent + 1 then Ret (true, c)
  else fdt_next_subnode m f parent c.

Lemma sub_from_node c : fdt_next_subnode m f parent c = sub_from (n_props c) c.
Proof. rewrite fdt_next_subnode_eq. done. Qed.

(** Deeper subtrees are stepped over. *)
Definition skips (ts : list dtree) : Prop :=
  forall p l nd, struct_start f <= p -> n_depth parent < n_depth nd ->
  toks_at m f p (flat_map flatten ts ++ l) ->
  exists p' nd', p <= p' /\ toks_at m f p' l /\ n_depth nd' = n_depth nd /\ sub_from p nd = sub_from p' nd'.

Lemma skips_nil : skips [].
Proof. intros p l nd Hp Hd Ht. exists p, nd. split; [lia |]. done. Qed.

Lemma skips_one name props kids : skips kids -> skips [DNode name props kids].
Proof.
  intros IH p l nd Hp Hd Ht. cbn [flat_map flatten app] in Ht. rewrite <- !app_assoc in Ht. cbn [app] in Ht.
  destruct (next_from_tok p _ _ nd Hp Ht) as (q & p1 & Hq & Hk & Ht1 & E1). apply tok_at_adv in Hk.
  set (c := Node p1 (q + 4) (n_depth nd + 1)) in *.
  destruct (next_from_props p1 props _ c ltac:(lia) Ht1) as (p2 & Hp2 & Ht2 & E2).
  destruct (IH p2 (KEndNode :: l) c ltac:(lia) ltac:(cbn; lia) Ht2) as (p3 & nd3 & Hp3 & Ht3 & Hd3 & E3).
  destruct (next_from_tok p3 _ _ nd3 ltac:(lia) Ht3) as (q' & p4 & Hq' & Hk' & Ht4 & E4). apply tok_at_adv in Hk'.
  exists p4, (Node (n_props nd3) (n_name nd3) (n_depth nd3 - 1)).
  split; [lia |]. split; [done |]. split; [cbn; cbn in Hd3; lia |].
  transitivity (sub_from p1 c).
  - unfold sub_from at 1. rewrite E1. cbn [mbind res_bind negb]. rewrite sub_from_node.
    destruct (n_depth c <=? n_depth parent) eqn:D1; [unfold c in *; cbn in D1; zbool; lia |].
    destruct (n_depth c =? n_depth parent + 1) eqn:D2; [unfold c in *; cbn in D2; zbool; lia |]. done.
  - transitivity (sub_from p2 c); [unfold sub_from; by rewrite E2 |]. rewrite E3. unfold sub_from. by rewrite E4.
Qed.

Lemma skips_all ts : skips ts.
Proof.
  assert (Hc : forall t ts, skips [t] -> skips ts -> skips (t :: ts)).
  { intros t ts' H1 H2 p l nd Hp Hd Ht. cbn [flat_map] in Ht. rewrite <- app_assoc in Ht.
    destruct (H1 p (flat_map flatten ts' ++ l) nd Hp Hd) as (p1 & nd1 & ? & Ht1 & Hd1 & E1); [cbn [flat_map]; rewrite app_nil_r; done |].
    destruct (H2 p1 _ nd1 ltac:(lia) ltac:(lia) Ht1) as (p2 & nd2 & ? & Ht2 & Hd2 & E2).
    exists p2, nd2. split; [lia |]. split; [done |]. split; congruence. }
  assert (forall t, skips [t]) as H1.
  { apply dtree_nested_ind. intros name props kids Hk. apply skips_one.
    induction Hk; [apply skips_nil | by apply Hc]. }
  induction ts as [| t ts IH]; [apply skips_nil | by apply Hc].
Qed.

(** Behind the end of the parent there is nothing left for the iterator. *)
Lemma sub_from_out p r nd : struct_start f <= p -> n_depth nd < n_depth parent ->
  toks_at m f p (r ++ [KEnd]) -> exists c, sub_from p nd = Ret (false, c).
Proof.
  revert p nd. induction r as [| k r IH]; intros p nd Hp Hd Ht; cbn [app] in Ht.
  { destruct (next_from_tok p _ _ nd Hp Ht) as (q & p1 & _ & _ & _ & E). exists nd.
    unfold sub_from. by rewrite E. }
  destruct (next_from_tok p _ _ nd Hp Ht) as (q & p1 & Hq & Hk & Ht1 & E). apply tok_at_adv in Hk.
  destruct k as [name | pr | |].
  - eexists. unfold sub_from. rewrite E. cbn [mbind res_bind negb].
    destruct (_ <=? _) eqn:D; [done | cbn in D; zbool; lia].
  - destruct (IH p1 nd ltac:(lia) Hd Ht1) as [c Hc]. exists c. rewrite <- Hc. unfold sub_from. by rewrite E.
  - destruct (IH p1 (Node (n_props nd) (n_name nd) (n_depth nd - 1)) ltac:(lia) ltac:(cbn; lia) Ht1) as [c Hc].
    exists c. rewrite <- Hc. unfold sub_from. by rewrite E.
  - exists nd. unfold sub_from. by rewrite E.
Qed.

(** From the end of one child (or from the parent's own tokens) the iterator finds
    the next child, or reports that there is none. *)
Lemma sub_from_kids p kids rest nd : struct_start f <= p -> n_depth nd = n_depth parent ->
  toks_at m f p (flat_map flatten kids ++ KEndNode :: rest ++ [KEnd]) ->
  match kids with
  | [] => exists c, sub_from p nd = Ret (false, c)
  | k :: kids' =>
      exists c, sub_from p nd = Ret (true, c) /\ p < n_props c /\
      n_depth c = n_depth parent + 1 /\ cstr m (n_name c) (dt_name k) /\
      toks_at m f (n_props c) (map KProp (dt_props k) ++ flat_map flatten (dt_kids k) ++
        KEndNode :: flat_map flatten kids' ++ KEndNode :: rest ++ [KEnd])
  end.
Proof.
  intros Hp Hd Ht. destruct kids as [| [name props kk] kids']; cbn [flat_map flatten app] in Ht.
  - destruct (next_from_tok p _ _ nd Hp Ht) as (q & p1 & Hq & Hk & Ht1 & E). apply tok_at_adv in Hk.
    destruct (sub_from_out p1 rest (Node (n_props nd) (n_name nd) (n_depth nd - 1)) ltac:(lia)
      ltac:(cbn; lia) Ht1) as [c Hc]. exists c. rewrite <- Hc. unfold sub_from. by rewrite E.
  - destruct (next_from_tok p _ _ nd Hp Ht) as (q & p1 & Hq & Hk & Ht1 & E).
    pose proof (tok_at_adv _ _ _ _ _ Hk). destruct Hk as [_ (_ & Hname & _)].
    exists (Node p1 (q + 4) (n_depth nd + 1)). cbn [n_props n_depth n_name dt_name dt_props dt_kids].
    split; [| split; [lia |]; split; [lia |]; split; [done |]].
    + unfold sub_from. rewrite E. cbn [mbind res_bind negb].
      destruct (_ <=? _) eqn:D1; [cbn in D1; zbool; lia |].
      destruct (_ =? _) eqn:D2; [done | cbn in D2; zbool; lia].
    + rewrite <- !app_assoc in Ht1. done.
Qed.

(** [fdt_next_subnode] at a child goes on with its next sibling. *)
Lemma sub_from_child c k kids' rest : struct_start f <= n_props c -> n_depth c = n_depth parent + 1 ->
  toks_at m f (n_props c) (map KProp (dt_props k) ++ flat_map flatten (dt_kids k) ++
    KEndNode :: flat_map flatten kids' ++ KEndNode :: rest ++ [KEnd]) ->
  exists p nd, n_props c <= p /\ n_depth nd = n_depth parent /\
    toks_at m f p (flat_map flatten kids' ++ KEndNode :: rest ++ [KEnd]) /\
    fdt_next_subnode m f parent c = sub_from p nd.
Proof.
  intros Hp Hd Ht. rewrite sub_from_node.
  destruct (next_from_props _ _ _ c Hp Ht) as (p1 & Hp1 & Ht1 & E1).
  destruct (skips_all (dt_kids k) p1 _ c ltac:(lia) ltac:(lia) Ht1) as (p2 & nd2 & Hp2 & Ht2 & Hd2 & E2).
  destruct (next_from_tok p2 _ _ nd2 ltac:(lia) Ht2) as (q & p3 & Hq & Hk & Ht3 & E3). apply tok_at_adv in Hk.
  exists p3, (Node (n_props nd2) (n_name nd2) (n_depth nd2 - 1)).
  split; [lia |]. split; [cbn; lia |]. split; [done |].
  transitivity (sub_from p1 c); [unfold sub_from; by rewrite E1 |]. rewrite E2. unfold sub_from. by rewrite E3.
Qed.

Lemma for_subnodes_kids kids : forall p nd rest, struct_start f <= p -> n_depth nd = n_depth parent ->
  toks_at m f p (flat_map flatten kids ++ KEndNode :: rest ++ [KEnd]) ->
  exists nds cur, sub_from p nd = Ret cur /\
    Forall2 (node_at m f) nds (map (pair (n_depth parent + 1)) kids) /\
    forall (S : Type) (body : S -> fdt_node -> res S) s n, covers_walk f cur n ->
    for_subnodes n m f parent body s cur = mfold body s nds.
Proof.
  induction kids as [| k kids IH]; intros p nd rest Hp Hd Ht; pose proof (sub_from_kids p _ rest nd Hp Hd Ht) as H.
  { destruct H as [c E]. exists [], (false, c). split; [done |]. split; [constructor |].
    intros S body s [| n] Hn; [unfold covers_walk in Hn; cbn in Hn; lia | done]. }
  destruct H as (c & E & Hpc & Hdc & Hname & Htc).
  destruct (sub_from_child c k kids rest ltac:(lia) Hdc Htc) as (p' & nd' & Hp' & Hd' & Ht' & En).
  destruct (IH p' nd' rest ltac:(lia) Hd' Ht') as (nds & cur & E' & Hnds & W).
  exists (c :: nds), (true, c). split; [done |]. split.
  { cbn [map]. constructor; [| done]. cbn [node_at]. split; [done |]. split; [lia |]. split; [done |].
    exists (flat_map flatten kids ++ KEndNode :: rest). by rewrite <- !app_assoc. }
  intros S body s [| n] Hn; [unfold covers_walk in Hn; cbn -[Z.max] in Hn; lia |].
  cbn [for_subnodes negb mfold]. destruct (body s c) as [s' |]; cbn [mbind res_bind]; [| done].
  rewrite En, E'. cbn [mbind res_bind]. apply W. rewrite E' in En. destruct cur as [[] c'].
  - apply fdt_next_subnode_step in En as (? & ? & _). eapply covers_next; [done | done | done].
  - unfold covers_walk in *. cbn -[Z.max Z.of_nat] in *. lia.
Qed.
End children.

Lemma for_each_subnode_kids parent t : node_at m f parent (n_depth parent, t) ->
  exists nds, Forall2 (node_at m f) nds (map (pair (n_depth parent + 1)) (dt_kids t)) /\
  forall (S : Type) (body : S -> fdt_node -> res S) s,
  fdt_for_each_subnode m f parent body s = mfold body s nds.
Proof.
  intros (_ & Hp & _ & rest & Ht).
  destruct (next_from_props _ _ _ parent Hp Ht) as (p1 & Hp1 & Ht1 & E1).
  destruct (for_subnodes_kids parent _ p1 parent rest ltac:(lia) eq_refl Ht1) as (nds & cur & E & Hnds & W).
  exists nds. split; [done |]. intros S body s. unfold fdt_for_each_subnode, fdt_first_subnode.
  assert (En : fdt_next_subnode m f parent parent = Ret cur).
  { rewrite sub_from_node, <- E. unfold sub_from. by rewrite E1. }
  rewrite En. cbn [mbind res_bind]. apply W. unfold covers_walk, block_fuel. destruct cur as [[] c]; cbn [fst snd].
  - apply fdt_next_subnode_step in En as (? & ? & _). lia.
  - lia.
Qed.

(** The value that [fdt_getprop] returns lies in the block, with its length. *)
Definition prop_at (r : option (Z * Z)) (v : option (list Z)) : Prop :=
  match r, v with
  | Some (a, len), Some value => stored m a value /\ len = Z.of_nat (length value)
  | None, None => True
  | _, _ => False
  end.

Lemma getprop_props name : Forall (fun c => c <> 0) name -> forall ps p k l, struct_start f <= p ->
  (match k with KProp _ => False | _ => True end) ->
  toks_at m f p (map KProp ps ++ k :: l) ->
  exists r, getprop_loop (block_fuel f p) m f p name = Ret r /\ prop_at r (prop_lookup ps name).
Proof.
  intros Hname ps p k l Hp Hk Ht. remember (map KProp ps ++ k :: l) as kl eqn:Ekl. revert ps Ekl Hp.
  induction Ht as [p | p p' k' l' Htk Ht IH | p l' Hle Hnop Ht IH]; intros ps Ekl Hp.
  - by destruct ps.
  - pose proof (tok_at_adv _ _ _ _ _ Htk). rewrite fdt_getprop_eq, (fdt_next_tag_tok m f p k' p') by done.
    destruct ps as [| [pn pv] ps]; cbn [map app] in Ekl; injection Ekl as -> ->.
    { exists None. destruct k as [| [? ?] | |]; done. }
    destruct Htk as [_ (_ & Hlen & _ & _ & Hpn & Hpv & _)].
    cbn [mbind res_bind tok_tag tag_type tag_name tag_value tag_len]. cbn [Z.eqb FDT_PROP FDT_NOP negb].
    rewrite (streq_lit_eq _ _ pn) by done.
    unfold prop_lookup. rewrite filter_cons. cbn [fst].
    case_bool_decide as Heq; [rewrite decide_True by done | rewrite decide_False by done].
    + eexists. split; [done |]. by cbn.
    + apply (IH ps eq_refl). lia.
  - rewrite fdt_getprop_eq, fdt_next_tag_nop by done. cbn [mbind res_bind tag_type]. cbn [Z.eqb FDT_NOP].
    apply IH; [done | lia].
Qed.

Lemma flatten_head ts k l : (match k with KProp _ => False | _ => True end) ->
  exists k' l', flat_map flatten ts ++ k :: l = k' :: l' /\ match k' with KProp _ => False | _ => True end.
Proof.
  intros Hk. destruct ts as [| [n ps ks] ts]; cbn [flat_map flatten app]; [by exists k, l |].
  by eexists _, _.
Qed.

Lemma getprop_node nd d t name : Forall (fun c => c <> 0) (lit name) -> node_at m f nd (d, t) ->
  exists r, fdt_getprop m f nd name = Ret r /\ prop_at r (prop_lookup (dt_props t) (lit name)).
Proof.
  intros Hn (_ & Hp & _ & rest & Ht).
  destruct (flatten_head (dt_kids t) KEndNode (rest ++ [KEnd]) I) as (k & l & E & Hk).
  rewrite E in Ht. by apply (getprop_props (lit name) Hn _ _ k l).
Qed.

Lemma node_is_name a name l : cstr m a name -> Forall (fun c => c <> 0) l ->
  node_is_loop m a l = true <-> name_is name l.
Proof.
  intros H Hl. revert a name H. induction Hl as [| c l Hc Hl IH]; intros a name H; cbn [node_is_loop].
  - unfold name_is. destruct name as [| x name]; cbn [cstr] in H.
    + rewrite H. cbn. split; [by left | done].
    + destruct H as (-> & Hx & _). rewrite orb_true_iff, !Z.eqb_eq. cbn [app]. split.
      * intros [-> | ->]; [done |]. right. by exists name.
      * intros [? | (u & [= -> ->])]; [done | by right].
  - destruct name as [| x name]; cbn [cstr] in H.
    + rewrite H. destruct (Z.eqb_spec 0 c); [lia |]. cbn [negb]. split; [done |]. by intros [? | (? & ?)].
    + destruct H as (-> & Hx & H). destruct (Z.eqb_spec x c) as [-> | Hne]; cbn [negb].
      * rewrite (IH _ _ H). unfold name_is. cbn [app]. split.
        -- intros [-> | (u & ->)]; [by left | right; by exists u].
        -- intros [[= ->] | (u & [= ->])]; [by left | right; by exists u].
      * split; [done |]. intros [[= ? ?] | (u & [= ? ?])]; congruence.
Qed.
End walk.

(** ** Lemmas: u32 properties and phandles *)

Definition prop_u32_of (props : list (list Z * list Z)) (name : list Z) : option Z :=
  match prop_lookup props name with
  | Some (a :: b :: c :: d :: _) => Some (a * 2 ^ 24 + b * 2 ^ 16 + c * 2 ^ 8 + d)
  | _ => None
  end.

Lemma prop_u32_node m f nd d t name : mem_wf m -> blocks_ok f -> Forall (fun c => c <> 0) (lit name) ->
  node_at m f nd (d, t) -> fdt_prop_u32 m f nd name = Ret (prop_u32_of (dt_props t) (lit name)).
Proof.
  intros Hwf Hblk Hn Hnode. destruct (getprop_node m f Hwf Hblk nd d t name Hn Hnode) as (r & E & Hr).
  unfold fdt_prop_u32, prop_u32_of. rewrite E. cbn [mbind res_bind]. f_equal.
  destruct r as [[a len] |], (prop_lookup (dt_props t) (lit name)) as [v |]; cbn [prop_at] in Hr; try done.
  destruct Hr as [Hs ->]. destruct v as [| b0 [| b1 [| b2 [| b3 v]]]]; cbn [length]; try done.
  destruct (Z.ltb_spec (Z.of_nat (S (S (S (S (length v)))))) 4); [lia |].
  cbn [stored] in Hs. destruct Hs as (<- & <- & <- & <- & _). rewrite cell_val by done.
  replace (a + 1 + 1 + 1) with (a + 3) by lia. by replace (a + 1 + 1) with (a + 2) by lia.
Qed.

(** The search for a phandle as a body of the walk. *)
Definition phandle_body (m : mem) (f : fdt) (ph : Z) (acc : option fdt_node) (nd : fdt_node)
  : res (option fdt_node) :=
  match acc with
  | Some _ => Ret acc
  | None => v ← fdt_prop_u32 m f nd "phandle"; Ret (if bool_decide (v = Some ph) then Some nd else None)
  end.

Lemma phandle_body_none m f ph nd : phandle_body m f ph None nd =
  (v ← fdt_prop_u32 m f nd "phandle"; Ret (if bool_decide (v = Some ph) then Some nd else None)).
Proof. done. Qed.

Lemma phandle_body_found n m f ph nd cur r :
  for_nodes n m f (phandle_body m f ph) (Some nd) cur = Ret r -> r = Some nd.
Proof.
  revert cur. induction n as [| n IH]; intros [[] c]; cbn [for_nodes negb]; [done | done | | congruence].
  cbn [phandle_body mbind res_bind]. destruct (fdt_next_node m f c); cbn; [apply IH | done].
Qed.

Lemma phandle_loop_walk n m f ph cur r :
  for_nodes n m f (phandle_body m f ph) None cur = Ret r ->
  exists nd, phandle_loop n m f ph cur = Ret (match r with Some _ => true | None => false end, nd) /\
  match r with Some nd' => nd = nd' | None => True end.
Proof.
  revert cur. induction n as [| n IH]; intros [[] c]; cbn [for_nodes phandle_loop negb]; [done | done | |].
  - rewrite phandle_body_none. destruct (fdt_prop_u32 m f c "phandle") as [v |]; cbn [mbind res_bind]; [| done].
    case_bool_decide.
    + destruct (fdt_next_node m f c); cbn; [| done]. intros ->%phandle_body_found. by exists c.
    + destruct (fdt_next_node m f c) as [nxt |]; cbn; [apply IH | done].
  - intros [= <-]. by exists c.
Qed.

Definition first_phandle (ph : Z) (ts : list (Z * dtree)) : option nat :=
  fst <$> list_find (fun dt => prop_u32_of (dt_props dt.2) (lit "phandle") = Some ph) ts.

Lemma lit_nonzero name : forallb (fun c => negb (c =? 0)) (lit name) = true -> Forall (fun c => c <> 0) (lit name).
Proof.
  induction (lit name) as [| c l IH]; cbn [forallb]; [done |].
  intros H. zbool. constructor; [done | by apply IH].
Qed.

Lemma phandle_mfold m f ph nds ts : mem_wf m -> blocks_ok f -> Forall2 (node_at m f) nds ts ->
  mfold (phandle_body m f ph) None nds = Ret (first_phandle ph ts ≫= (nds !!.)).
Proof.
  intros Hwf Hblk. induction 1 as [| nd [d t] nds ts Hnode Hrest IH]; [done |].
  cbn [mfold]. rewrite phandle_body_none. rewrite (prop_u32_node m f nd d t) by (done || by apply lit_nonzero).
  cbn [mbind res_bind]. unfold first_phandle. cbn [list_find snd]. case_bool_decide.
  - rewrite decide_True by done. cbn [fmap option_fmap option_map fst mbind option_bind lookup list_lookup].
    clear. induction nds as [| n nds IH]; [done |]. apply IH.
  - rewrite decide_False by done. rewrite IH. f_equal. unfold first_phandle.
    destruct (list_find _ ts) as [[i x] |]; done.
Qed.

(** ** Lemmas: opening a blob *)

Lemma fdt_open_extents m blob f : mem_wf m -> fdt_open m blob = Ret f ->
  blob <= struct_start f <= struct_end f /\ struct_end f <= blob + header m blob 1 /\
  blob <= strings f <= strings_end f /\ strings_end f <= blob + header m blob 1 /\
  header m blob 0 = FDT_MAGIC /\
  struct_start f = blob + header m blob 2 /\ struct_end f = struct_start f + header m blob 9 /\
  strings f = blob + header m blob 3 /\ strings_end f = strings f + header m blob 8.
Proof.
  intros Hwf. unfold fdt_open.
  assert (Hh : forall i, 0 <= header m blob i < 2 ^ 32) by (intros i; by apply cell_range).
  pose proof (Hh 1). pose proof (Hh 2). pose proof (Hh 3). pose proof (Hh 8). pose proof (Hh 9).
  destruct (negb _) eqn:E0; [done |]. cbn zeta. destruct (_ || _) eqn:E1 in |- *; [done |]. clear E1.
  destruct (_ || _) eqn:E1 in |- *; [done |].
  intros [= <-]. cbn [struct_start struct_end strings strings_end].
  zbool. unfold u32 in *. repeat split; try done; Z.div_mod_to_equations; lia.
Qed.

Lemma fdt_open_blocks m blob f : mem_wf m -> 0 <= blob < 2 ^ 64 - 2 ^ 32 -> fdt_open m blob = Ret f -> blocks_ok f.
Proof.
  intros Hwf Hb H. destruct (fdt_open_extents m blob f Hwf H) as (? & ? & ? & ? & _ & ? & E & _).
  pose proof (cell_range m (blob + 4 * 1) Hwf). pose proof (cell_range m (blob + 4 * 9) Hwf).
  unfold header in *. unfold blocks_ok. lia.
Qed.

(** ** Properties *)

(** whatever a blob that [fdt_open] accepts holds, a token read from a cell-aligned
    cursor keeps the cursor aligned and inside the structure block, describes only what
    lies there (a node name ends in the block, a property name starts in the strings
    block), and depends on no byte outside the block. The iterators built on it are
    the loops of the source: they satisfy the loops' equations, so each ends in a
    result or in a panic on every blob. *)
Theorem fdt_hostile_blob_bounded m blob f :
  mem_wf m -> 0 <= blob < 2 ^ 64 - 2 ^ 32 -> fdt_open m blob = Ret f ->
  (blob <= struct_start f <= struct_end f /\ struct_end f <= blob + header m blob 1 /\
   blob <= strings f <= strings_end f /\ strings_end f <= blob + header m blob 1) /\
  (forall p, struct_start f <= p <= struct_end f -> (struct_end f - p) mod 4 = 0 ->
    (forall p' t, fdt_next_tag m f p = Ret (p', t) ->
      p + 4 <= p' <= struct_end f /\ (struct_end f - p') mod 4 = 0 /\ tag_ok m f p p' t) /\
    (forall m', agree m m' p (struct_end f) -> fdt_next_tag m' f p = fdt_next_tag m f p)) /\
  (forall nd p, next_node_loop (block_fuel f p) m f p nd =
    ('(p', tag) ← fdt_next_tag m f p;
     if tag_type tag =? FDT_BEGIN_NODE then Ret (true, Node p' (tag_name tag) (n_depth nd + 1))
     else if tag_type tag =? FDT_END_NODE
     then next_node_loop (block_fuel f p') m f p' (Node (n_props nd) (n_name nd) (n_depth nd - 1))
     else if tag_type tag =? FDT_END then Ret (false, nd)
     else next_node_loop (block_fuel f p') m f p' nd)) /\
  (forall name p, getprop_loop (block_fuel f p) m f p name =
    ('(p', tag) ← fdt_next_tag m f p;
     if tag_type tag =? FDT_NOP then getprop_loop (block_fuel f p') m f p' name
     else if negb (tag_type tag =? FDT_PROP) then Ret None
     else if streq_lit m (tag_name tag) name then Ret (Some (tag_value tag, tag_len tag))
     else getprop_loop (block_fuel f p') m f p' name)) /\
  (forall parent child, fdt_next_subnode m f parent child =
    ('(ok, child) ← fdt_next_node m f child;
     if negb ok then Ret (false, child)
     else if n_depth child <=? n_depth parent then Ret (false, child)
     else if n_depth child =? n_depth parent + 1 then Ret (true, child)
     else fdt_next_subnode m f parent child)).
Proof.
  intros Hwf Hb Ho. destruct (fdt_open_blocks m blob f Hwf Hb Ho) as (H1 & H2 & H3 & _).
  destruct (fdt_open_extents m blob f Hwf Ho) as (? & ? & ? & ? & _).
  split; [done |]. split; [| split; [| split]].
  - intros p Hp Ha. assert (He : extent_ok f p) by (unfold extent_ok; lia). split.
    + intros p' t E. pose proof (fdt_next_tag_step _ _ _ _ _ E).
      destruct (fdt_next_tag_bounded m f p p' t He E) as ((? & ? & ? & ?) & _ & ?). split; [lia | done].
    + intros m' Hm. symmetry. by apply fdt_next_tag_agree.
  - intros nd p. apply fdt_next_node_eq.
  - intros name p. apply fdt_getprop_eq.
  - intros parent child. apply fdt_next_subnode_eq.
Qed.

(** C40: when the structure block encodes a device tree (FDT_NOPs anywhere), the loop
    over [fdt_first_node] / [fdt_next_node] visits exactly its nodes, in document order
    and with their depths, and at each of them the loop over [fdt_first_subnode] /
    [fdt_next_subnode] visits exactly its children, in order. *)
Theorem fdt_walk_document_order m blob f t :
  mem_wf m -> 0 <= blob < 2 ^ 64 - 2 ^ 32 -> fdt_open m blob = Ret f ->
  toks_at m f (struct_start f) (flatten t ++ [KEnd]) ->
  (exists nds, Forall2 (node_at m f) nds (preorder 0 t) /\
    forall (S : Type) (body : S -> fdt_node -> res S) s, fdt_for_each m f body s = mfold body s nds) /\
  (forall nd d k, node_at m f nd (d, k) ->
    exists nds, Forall2 (node_at m f) nds (map (pair (d + 1)) (dt_kids k)) /\
    forall (S : Type) (body : S -> fdt_node -> res S) s,
    fdt_for_each_subnode m f nd body s = mfold body s nds).
Proof.
  intros Hwf Hb Ho Ht. pose proof (fdt_open_blocks m blob f Hwf Hb Ho) as Hblk. split.
  - destruct (walks_all m f Hwf Hblk [t] (struct_start f) [] (Node (struct_start f) 0 (-1)) ltac:(lia))
      as (nds & p' & nd' & Hp' & Ht' & _ & Hnds & W).
    { cbn [flat_map app]. by rewrite app_nil_r. }
    exists nds. split; [cbn [flat_map n_depth] in Hnds; by rewrite app_nil_r in Hnds |].
    intros S body s. rewrite fdt_for_each_walk, W. destruct (mfold body s nds) as [s' |]; cbn; [| done].
    by apply walk_from_end.
  - intros nd d k Hnode. assert (d = n_depth nd) as -> by (by destruct Hnode as [-> _]).
    by apply for_each_subnode_kids.
Qed.

(** at a node of the tree, [fdt_getprop] returns the first property of that name
    (its bytes in place and its length) or NULL when there is none, [fdt_prop_u32] its
    big-endian value when it has four bytes, and [fdt_node_is] decides the name up to
    the unit address; [fdt_node_by_phandle] finds the first node in document order
    that carries the phandle, and reports its absence. *)
Theorem fdt_lookups_exact m blob f t :
  mem_wf m -> 0 <= blob < 2 ^ 64 - 2 ^ 32 -> fdt_open m blob = Ret f ->
  toks_at m f (struct_start f) (flatten t ++ [KEnd]) ->
  (forall nd d k name, node_at m f nd (d, k) -> Forall (fun c => c <> 0) (lit name) ->
    (exists r, fdt_getprop m f nd name = Ret r /\ prop_at m r (prop_lookup (dt_props k) (lit name))) /\
    fdt_prop_u32 m f nd name = Ret (prop_u32_of (dt_props k) (lit name)) /\
    (fdt_node_is m nd name = true <-> name_is (dt_name k) (lit name))) /\
  (forall ph, exists nds nd, Forall2 (node_at m f) nds (preorder 0 t) /\
    match first_phandle ph (preorder 0 t) with
    | Some i => nds !! i = Some nd /\ fdt_node_by_phandle m f ph = Ret (true, nd)
    | None => fdt_node_by_phandle m f ph = Ret (false, nd)
    end).
Proof.
  intros Hwf Hb Ho Ht. pose proof (fdt_open_blocks m blob f Hwf Hb Ho) as Hblk. split.
  - intros nd d k name Hnode Hn. split; [by apply (getprop_node m f Hwf Hblk nd d k) |].
    split; [by eapply prop_u32_node |]. apply node_is_name; [by destruct Hnode as (_ & _ & ? & _) | done].
  - intros ph.
    destruct (walks_all m f Hwf Hblk [t] (struct_start f) [] (Node (struct_start f) 0 (-1)) ltac:(lia))
      as (nds & p' & nd' & Hp' & Ht' & _ & Hnds & W).
    { cbn [flat_map app]. by rewrite app_nil_r. }
    cbn [flat_map n_depth] in Hnds. rewrite app_nil_r in Hnds. change (-1 + 1) with 0 in Hnds.
    assert (Hw : fdt_for_each m f (phandle_body m f ph) None = Ret (first_phandle ph (preorder 0 t) ≫= (nds !!.))).
    { rewrite fdt_for_each_walk, W, (phandle_mfold m f ph nds _ Hwf Hblk Hnds). cbn. by apply walk_from_end. }
    unfold fdt_for_each in Hw. unfold fdt_node_by_phandle. destruct (fdt_first_node m f) as [cur |]; [| done].
    cbn [mbind res_bind] in *. apply phandle_loop_walk in Hw as (nd & E & Hnd).
    exists nds, nd. split; [done |]. destruct (first_phandle ph (preorder 0 t)) as [i |] eqn:Ei; [| done].
    cbn [mbind option_bind] in *. destruct (nds !! i) as [x |] eqn:Ex; [by subst |]. exfalso.
    apply lookup_ge_None in Ex. apply Forall2_length in Hnds. unfold first_phandle in Ei.
    apply fmap_Some in Ei as ([j dt] & Hf & ->). apply list_find_Some in Hf as (Hl & _).
    apply lookup_lt_Some in Hl. cbn in Ex. lia.
Qed.

(** ** Witnesses *)

Definition be32_bytes (v : Z) : list Z := [v / 2 ^ 24 mod 256; v / 2 ^ 16 mod 256; v / 2 ^ 8 mod 256; v mod 256].

(** A root with one property, a NOP and one child, behind its header. *)
Definition blob_bytes : list Z :=
  flat_map be32_bytes [FDT_MAGIC; 100; 40; 92; 0; 17; 16; 0; 8; 52] ++
  flat_map be32_bytes [FDT_BEGIN_NODE; 0; FDT_PROP; 4; 0; 7; FDT_NOP; FDT_BEGIN_NODE] ++
  lit "cpu@0" ++ [0; 0; 0] ++ flat_map be32_bytes [FDT_END_NODE; FDT_END_NODE; FDT_END] ++
  lit "phandle" ++ [0].

Definition mem_of (base : Z) (l : list Z) : mem :=
  fun a => if base <=? a then default 0 (l !! Z.to_nat (a - base)) else 0.

Definition blob_mem : mem := mem_of 4096 blob_bytes.
Definition blob_fdt : fdt := Fdt 4136 4188 4188 4196.
Definition blob_tree : dtree := DNode [] [(lit "phandle", [0; 0; 0; 7])] [DNode (lit "cpu@0") [] []].

Lemma mem_of_wf base l : forallb (fun x => (0 <=? x) && (x <? 256)) l = true -> mem_wf (mem_of base l).
Proof.
  intros H a. unfold mem_of. destruct (base <=? a); [| lia]. generalize (Z.to_nat (a - base)). intros i. revert i.
  induction l as [| x l IH]; intros i; cbn [forallb] in H; [rewrite lookup_nil; cbn; lia |].
  zbool. destruct i as [| i]; cbn [lookup list_lookup default]; [by zbool |]. by apply IH.
Qed.

Lemma blob_wf : mem_wf blob_mem.
Proof. apply mem_of_wf. reflexivity. Qed.

Lemma blob_open : fdt_open blob_mem 4096 = Ret blob_fdt.
Proof. reflexivity. Qed.

Lemma blob_toks : toks_at blob_mem blob_fdt (struct_start blob_fdt) (flatten blob_tree ++ [KEnd]).
Proof.
  apply (toks_cons _ _ _ 4144); [vm_compute; repeat split; discriminate |].
  apply (toks_cons _ _ _ 4160); [vm_compute; repeat split; discriminate |].
  apply toks_nop; [vm_compute; discriminate | reflexivity |].
  apply (toks_cons _ _ _ 4176); [vm_compute; repeat split; discriminate |].
  apply (toks_cons _ _ _ 4180); [vm_compute; repeat split; discriminate |].
  apply (toks_cons _ _ _ 4184); [vm_compute; repeat split; discriminate |].
  apply (toks_cons _ _ _ 4188); [vm_compute; repeat split; discriminate |].
  constructor.
Qed.

Lemma fdt_hostile_blob_bounded_witness :
  (struct_start blob_fdt <= struct_end blob_fdt) /\
  forall p' t, fdt_next_tag blob_mem blob_fdt 4136 = Ret (p', t) -> p' <= struct_end blob_fdt.
Proof.
  destruct (fdt_hostile_blob_bounded blob_mem 4096 blob_fdt blob_wf ltac:(lia) blob_open) as ((? & _) & H & _).
  split; [lia |]. intros p' t E. destruct (H 4136 ltac:(vm_compute; split; discriminate) eq_refl) as [Hp _].
  destruct (Hp p' t E) as (? & _). lia.
Defined.

Lemma fdt_walk_document_order_witness :
  exists nds, Forall2 (node_at blob_mem blob_fdt) nds (preorder 0 blob_tree) /\
  fdt_for_each blob_mem blob_fdt (fun n nd => Ret (n + 1 + n_depth nd)) 0 = mfold (fun n nd => Ret (n + 1 + n_depth nd)) 0 nds.
Proof.
  destruct (fdt_walk_document_order blob_mem 4096 blob_fdt blob_tree blob_wf ltac:(lia) blob_open blob_toks)
    as [(nds & Hn & H) _]. exists nds. split; [exact Hn | apply H].
Defined.

Lemma fdt_lookups_exact_witness : exists nd, fdt_node_by_phandle blob_mem blob_fdt 7 = Ret (true, nd).
Proof.
  destruct (fdt_lookups_exact blob_mem 4096 blob_fdt blob_tree blob_wf ltac:(lia) blob_open blob_toks) as [_ H].
  destruct (H 7) as (nds & nd & _ & Hm). exists nd. exact (proj2 Hm).
Defined.

(** A value length of 2^32-3 or more wraps to zero in [align4]: the token is accepted
    although its value runs past the structure block. *)
Example fdt_value_length_wraps :
  let m := mem_of 4096 (flat_map be32_bytes [FDT_PROP; 0xFFFFFFFD; 0; FDT_END] ++ [0; 0; 0; 0]) in
  let f := Fdt 4096 4112 4112 4116 in
  exists t, fdt_next_tag m f 4096 = Ret (4108, t) /\ tag_value t + tag_len t > struct_end f.
Proof. eexists. split; [reflexivity | vm_compute; reflexivity]. Qed.
