(* ===== verification/Dtb.v ===== *)
(** * Device tree consumers

    Models arch/dtb.c on the reader of [Fdt]: the facts taken from the device tree
    before anything else runs. The file's static and global variables are the record
    [dtb]; the DRAM banks go into the physical memory map of [Physmem]. The messages
    printed at the end are not modelled.

    The loop over a memory node's reg compares in 32 bits, so it need not end for a
    value length within a few bytes of 2^32; such a length is only reachable through
    the wrap-around of [align4] ([fdt_value_length_wraps]). The loop has one iteration
    of fuel per byte of the value, and [memory_loop_exact] shows that this reaches the
    source's exit for every other length. *)

From S2P Require Import Prelude Bits Physmem Str Fdt.

Definition DT_INTR_SPI : Z := 0.
Definition DT_INTR_PPI : Z := 1.
Definition DT_TIMER_PHYS_NS : Z := 1.
Definition GIC_PPI_BASE : Z := 16.
Definition GIC_SPI_BASE : Z := 32.
Definition PSCI_CONDUIT_HVC : Z := 0.
Definition PSCI_CONDUIT_SMC : Z := 1.

Record platform := Platform {
  uart_base : Z; uart_clk : Z; uart_irq : Z; gicd_base : Z; gicr_base : Z; timer_irq : Z }.

Record dtb := Dtb {
  ncpus : Z; cpu_mpidr : Z -> Z; boot_mpidr : Z; boot_found : bool; cpu_overflow : bool;
  psci_conduit : Z; timer_freq_dtb : Z; plat : platform;
  root_acells : Z; root_scells : Z; nbanks : Z; uart_clk_phandle : Z; phys : physmem }.

Definition set_cpus (d : dtb) (n : Z) (tab : Z -> Z) (found over : bool) : dtb :=
  Dtb n tab (boot_mpidr d) found over (psci_conduit d) (timer_freq_dtb d) (plat d)
    (root_acells d) (root_scells d) (nbanks d) (uart_clk_phandle d) (phys d).

Definition set_plat (d : dtb) (freq : Z) (pl : platform) (clk : Z) : dtb :=
  Dtb (ncpus d) (cpu_mpidr d) (boot_mpidr d) (boot_found d) (cpu_overflow d) (psci_conduit d) freq pl
    (root_acells d) (root_scells d) (nbanks d) clk (phys d).

Definition set_root (d : dtb) (ac sc : Z) : dtb :=
  Dtb (ncpus d) (cpu_mpidr d) (boot_mpidr d) (boot_found d) (cpu_overflow d) (psci_conduit d)
    (timer_freq_dtb d) (plat d) ac sc (nbanks d) (uart_clk_phandle d) (phys d).

Definition set_mem (d : dtb) (nb : Z) (pm : physmem) : dtb :=
  Dtb (ncpus d) (cpu_mpidr d) (boot_mpidr d) (boot_found d) (cpu_overflow d) (psci_conduit d)
    (timer_freq_dtb d) (plat d) (root_acells d) (root_scells d) nb (uart_clk_phandle d) pm.

Definition set_psci (d : dtb) (c : Z) : dtb :=
  Dtb (ncpus d) (cpu_mpidr d) (boot_mpidr d) (boot_found d) (cpu_overflow d) c
    (timer_freq_dtb d) (plat d) (root_acells d) (root_scells d) (nbanks d) (uart_clk_phandle d) (phys d).

(** ** One consumer per node type *)

Definition dtb_intid (m : mem) (intr : Z) : res Z :=
  let type := cell m intr in
  if type =? DT_INTR_SPI then Ret (u32 (GIC_SPI_BASE + cell m (intr + 4)))
  else if type =? DT_INTR_PPI then Ret (u32 (GIC_PPI_BASE + cell m (intr + 4)))
  else Panic "dtb: interrupt type %u is not SPI or PPI".

Section consumers.
Context (m : mem) (f : fdt).

Definition dtb_parse_root (d : dtb) (node : fdt_node) : res dtb :=
  a ← fdt_prop_u32 m f node "#address-cells";
  s ← fdt_prop_u32 m f node "#size-cells";
  Ret (set_root d (match a with Some v => s32 v | None => root_acells d end)
                  (match s with Some v => s32 v | None => root_scells d end)).

(** for (k = 1; k < ncpus; k++) if (cpu_mpidr[k] == mpidr) panic(..) *)
Fixpoint dup_loop (fuel : nat) (d : dtb) (mpidr k : Z) : bool :=
  match fuel with
  | O => false
  | S fuel' =>
      if k <? ncpus d then (if cpu_mpidr d k =? mpidr then true else dup_loop fuel' d mpidr (k + 1))
      else false
  end.

(** The body of the loop over the children, once [mpidr] is decoded. *)
Definition add_cpu (d : dtb) (mpidr : Z) : res dtb :=
  if mpidr =? boot_mpidr d then
    if boot_found d then Panic "dtb: duplicate CPU MPIDR"
    else Ret (set_cpus d (ncpus d) (cpu_mpidr d) true (cpu_overflow d))
  else if dup_loop (Z.to_nat (ncpus d)) d mpidr 1 then Panic "dtb: duplicate CPU MPIDR"
  else if ncpus d <? NCPU_MAX
  then Ret (set_cpus d (ncpus d + 1) ((cpu_mpidr d).[ncpus d <- mpidr]) (boot_found d) (cpu_overflow d))
  else Ret (set_cpus d (ncpus d) (cpu_mpidr d) (boot_found d) true).

Definition cpu_body (d : dtb) (cpu : fdt_node) : res dtb :=
  if negb (fdt_node_is m cpu "cpu") then Ret d
  else
    reg ← fdt_getprop m f cpu "reg";
    match reg with
    | None => Ret d
    | Some (reg, len) =>
        if len <? 4 then Ret d
        else add_cpu d (if len =? 4 then cell m reg else fdt64 m reg)
    end.

Definition dtb_parse_cpus (d : dtb) (cpus : fdt_node) : res dtb :=
  fdt_for_each_subnode m f cpus cpu_body d.

Fixpoint memory_loop (fuel : nat) (d : dtb) (reg len off ec : Z) : res dtb :=
  match fuel with
  | O => Panic "dtb: (the loop does not end)"
  | S fuel' =>
      if u32 (u32 (off + ec) * 4) <=? len then
        base ← fdt_cells m (reg + 4 * off) (root_acells d);
        size ← fdt_cells m (reg + 4 * off + 4 * root_acells d) (root_scells d);
        d ← (if size >? 0
             then pm ← physmem_hardware_region (phys d) base size; Ret (set_mem d (nbanks d + 1) pm)
             else Ret d);
        memory_loop fuel' d reg len (u32 (off + ec)) ec
      else Ret d
  end.

Definition dtb_parse_memory (d : dtb) (node : fdt_node) : res dtb :=
  reg ← fdt_getprop m f node "reg";
  match reg with
  | None => Ret d
  | Some (reg, len) =>
      memory_loop (S (Z.to_nat len)) d reg len 0 (u32 (root_acells d + root_scells d))
  end.

Definition dtb_parse_psci (d : dtb) (node : fdt_node) : res dtb :=
  method ← fdt_getprop m f node "method";
  Ret match method with
      | None => d
      | Some (method, len) =>
          if (len =? 0) || negb (m (method + u32 (len - 1)) =? 0) then d
          else set_psci d (if streq_lit m method (lit "smc") then PSCI_CONDUIT_SMC else PSCI_CONDUIT_HVC)
      end.

Definition dtb_parse_timer (d : dtb) (node : fdt_node) : res dtb :=
  v ← fdt_prop_u32 m f node "clock-frequency";
  let freq := match v with Some v => v | None => timer_freq_dtb d end in
  intr ← fdt_getprop m f node "interrupts";
  match intr with
  | Some (intr, len) =>
      if len >=? (DT_TIMER_PHYS_NS + 1) * 12 then
        irq ← dtb_intid m (intr + 4 * (DT_TIMER_PHYS_NS * 3));
        let pl := plat d in
        Ret (set_plat d freq (Platform (uart_base pl) (uart_clk pl) (uart_irq pl) (gicd_base pl)
               (gicr_base pl) irq) (uart_clk_phandle d))
      else Ret (set_plat d freq (plat d) (uart_clk_phandle d))
  | None => Ret (set_plat d freq (plat d) (uart_clk_phandle d))
  end.

Definition dtb_parse_uart (d : dtb) (node : fdt_node) : res dtb :=
  let pl := plat d in
  reg ← fdt_getprop m f node "reg";
  let base := match reg with
              | Some (reg, len) => if len >=? 16 then fdt64 m reg else uart_base pl
              | None => uart_base pl
              end in
  freq ← fdt_prop_u32 m f node "clock-frequency";
  '(clk, ph) ← (match freq with
                | Some v => Ret (v, uart_clk_phandle d)
                | None =>
                    clocks ← fdt_prop_u32 m f node "clocks";
                    Ret (uart_clk pl, match clocks with Some v => v | None => uart_clk_phandle d end)
                end);
  intr ← fdt_getprop m f node "interrupts";
  irq ← (match intr with
         | Some (intr, len) => if len >=? 12 then dtb_intid m intr else Ret (uart_irq pl)
         | None => Ret (uart_irq pl)
         end);
  Ret (set_plat d (timer_freq_dtb d) (Platform base clk irq (gicd_base pl) (gicr_base pl) (timer_irq pl)) ph).

Definition dtb_parse_gic (d : dtb) (node : fdt_node) : res dtb :=
  reg ← fdt_getprop m f node "reg";
  Ret match reg with
      | Some (reg, len) =>
          if len >=? 32 then
            let pl := plat d in
            set_plat d (timer_freq_dtb d) (Platform (uart_base pl) (uart_clk pl) (uart_irq pl)
              (fdt64 m reg) (fdt64 m (reg + 16)) (timer_irq pl)) (uart_clk_phandle d)
          else d
      | None => d
      end.

(** The dispatch on one node of the walk. *)
Definition dtb_node (d : dtb) (node : fdt_node) : res dtb :=
  if n_depth node =? 0 then dtb_parse_root d node
  else if negb (n_depth node =? 1) then Ret d
  else if fdt_node_is m node "cpus" then dtb_parse_cpus d node
  else if fdt_node_is m node "memory" then dtb_parse_memory d node
  else if fdt_node_is m node "psci" then dtb_parse_psci d node
  else if fdt_node_is m node "timer" then dtb_parse_timer d node
  else if fdt_node_is m node "pl011" then dtb_parse_uart d node
  else if fdt_node_is m node "intc" then dtb_parse_gic d node
  else Ret d.

(** The clock node that the UART refers to. *)
Definition dtb_uart_clk (d : dtb) : res dtb :=
  let pl := plat d in
  if (uart_clk pl =? 0) && negb (uart_clk_phandle d =? 0) then
    '(ok, clk) ← fdt_node_by_phandle m f (uart_clk_phandle d);
    if ok : bool then
      v ← fdt_prop_u32 m f clk "clock-frequency";
      Ret (set_plat d (timer_freq_dtb d)
        (Platform (uart_base pl) (match v with Some v => v | None => uart_clk pl end) (uart_irq pl)
          (gicd_base pl) (gicr_base pl) (timer_irq pl)) (uart_clk_phandle d))
    else Ret d
  else Ret d.
End consumers.

(** The C initialisers, with the memory map that boot has built so far. *)
Definition dtb_start (pm : physmem) : dtb :=
  Dtb 0 (fun _ => 0) 0 false false 0 0 (Platform 0 0 0 0 0 0) 2 1 0 0 pm.

(** [mpidr] is what read_mpidr() returns. *)
Definition dtb_init (m : mem) (blob mpidr : Z) (d : dtb) : res dtb :=
  f ← fdt_open m blob;
  let d := Dtb 1 ((cpu_mpidr d).[0 <- mpidr]) mpidr (boot_found d) (cpu_overflow d) (psci_conduit d)
    (timer_freq_dtb d) (plat d) (root_acells d) (root_scells d) (nbanks d) (uart_clk_phandle d) (phys d) in
  d ← fdt_for_each m f (dtb_node m f) d;
  d ← dtb_uart_clk m f d;
  if negb (boot_found d) then Panic "dtb: boot CPU MPIDR not described in device tree"
  else if nbanks d =? 0 then Panic "dtb: no usable /memory node in device tree"
  else if uart_irq (plat d) =? 0 then Panic "dtb: uart interrupt not described in device tree"
  else if timer_irq (plat d) =? 0 then Panic "dtb: timer interrupt not described in device tree"
  else Ret d.

(** ** Invariant: the CPU table *)

Definition cpus_ok (d : dtb) : Prop :=
  1 <= ncpus d <= NCPU_MAX /\ cpu_mpidr d 0 = boot_mpidr d /\
  (forall i j, 0 <= i < j -> j < ncpus d -> cpu_mpidr d i <> cpu_mpidr d j).

Lemma dup_loop_spec n d x k : ncpus d - k <= Z.of_nat n ->
  dup_loop n d x k = true <-> exists i, k <= i < ncpus d /\ cpu_mpidr d i = x.
Proof.
  revert k. induction n as [| n IH]; intros k Hn; cbn [dup_loop].
  { split; [done |]. intros (i & ? & ?). lia. }
  destruct (Z.ltb_spec k (ncpus d)).
  - destruct (Z.eqb_spec (cpu_mpidr d k) x) as [E | E].
    + split; [| done]. intros _. exists k. split; [lia | done].
    + rewrite IH by lia. split; intros (i & ? & ?); exists i; (split; [| done]); [lia |].
      destruct (decide (i = k)) as [-> |]; [done | lia].
  - split; [done |]. intros (i & ? & ?). lia.
Qed.

Lemma dup_loop_false n d x k : ncpus d - k <= Z.of_nat n -> dup_loop n d x k = false ->
  forall i, k <= i < ncpus d -> cpu_mpidr d i <> x.
Proof.
  intros Hn H i Hi E. enough (dup_loop n d x k = true) by congruence. apply dup_loop_spec; [done |]. by exists i.
Qed.

Lemma add_cpu_ok d x d' : cpus_ok d -> add_cpu d x = Ret d' -> cpus_ok d' /\ boot_mpidr d' = boot_mpidr d.
Proof.
  intros (Hn & H0 & Hd). unfold add_cpu. destruct (Z.eqb_spec x (boot_mpidr d)) as [E | E].
  { destruct (boot_found d); [done |]. intros [= <-]. by split. }
  destruct (dup_loop _ _ _ _) eqn:Ed; [done |]. 
  pose proof (dup_loop_false (Z.to_nat (ncpus d)) d x 1 ltac:(lia) Ed) as Hne.
  destruct (Z.ltb_spec (ncpus d) NCPU_MAX); intros [= <-]; [| by split]. split; [| done].
  unfold cpus_ok. cbn [ncpus cpu_mpidr boot_mpidr set_cpus]. split; [lia |].
  split; [by rewrite upd_ne by lia |]. intros i j Hi Hj.
  rewrite (upd_ne _ _ i) by lia. destruct (decide (j = ncpus d)) as [-> |].
  - rewrite upd_eq. destruct (decide (i = 0)) as [-> |]; [rewrite H0; done | apply Hne; lia].
  - rewrite upd_ne by done. apply Hd; lia.
Qed.

(** What the other consumers leave alone. *)
Definition same_cpus (d d' : dtb) : Prop :=
  ncpus d' = ncpus d /\ cpu_mpidr d' = cpu_mpidr d /\ boot_mpidr d' = boot_mpidr d /\
  boot_found d' = boot_found d /\ cpu_overflow d' = cpu_overflow d.

Lemma same_cpus_refl d : same_cpus d d.
Proof. done. Qed.

Lemma same_cpus_trans d1 d2 d3 : same_cpus d1 d2 -> same_cpus d2 d3 -> same_cpus d1 d3.
Proof. unfold same_cpus. intros (? & ? & ? & ? & ?) (? & ? & ? & ? & ?). repeat split; congruence. Qed.

Lemma same_cpus_ok d d' : same_cpus d d' -> cpus_ok d -> cpus_ok d'.
Proof. intros (E1 & E2 & E3 & _). unfold cpus_ok. by rewrite E1, E2, E3. Qed.

(** A consumer that leaves the table alone in every branch. *)
Ltac same_table :=
  repeat match goal with
  | |- context [mbind _ ?r] => destruct r; cbn [mbind res_bind]; try done
  | |- context [match ?x with _ => _ end] => destruct x; cbn [mbind res_bind]; try done
  end; try (intros [= <-]; done).

Section keep.
Context (m : mem) (f : fdt).

Lemma dtb_parse_root_same d nd d' : dtb_parse_root m f d nd = Ret d' -> same_cpus d d'.
Proof. unfold dtb_parse_root. same_table. Qed.

Lemma dtb_parse_psci_same d nd d' : dtb_parse_psci m f d nd = Ret d' -> same_cpus d d'.
Proof. unfold dtb_parse_psci. same_table. Qed.

Lemma dtb_parse_timer_same d nd d' : dtb_parse_timer m f d nd = Ret d' -> same_cpus d d'.
Proof. unfold dtb_parse_timer. same_table. Qed.

Lemma dtb_parse_uart_same d nd d' : dtb_parse_uart m f d nd = Ret d' -> same_cpus d d'.
Proof. unfold dtb_parse_uart. same_table. Qed.

Lemma dtb_parse_gic_same d nd d' : dtb_parse_gic m f d nd = Ret d' -> same_cpus d d'.
Proof. unfold dtb_parse_gic. same_table. Qed.

Lemma dtb_uart_clk_same d d' : dtb_uart_clk m f d = Ret d' -> same_cpus d d'.
Proof. unfold dtb_uart_clk. same_table. Qed.

Lemma memory_loop_same n d reg len off ec d' : memory_loop m n d reg len off ec = Ret d' -> same_cpus d d'.
Proof.
  revert d off. induction n as [| n IH]; intros d off; cbn [memory_loop]; [done |].
  destruct (_ <=? len); [| intros [= <-]; apply same_cpus_refl].
  destruct (fdt_cells m _ (root_acells d)) as [base |]; cbn [mbind res_bind]; [| done].
  destruct (fdt_cells m _ (root_scells d)) as [size |]; cbn [mbind res_bind]; [| done].
  destruct (size >? 0).
  - destruct (physmem_hardware_region _ _ _) as [pm |]; cbn [mbind res_bind]; [| done].
    intros E%IH. by eapply same_cpus_trans; [| done].
  - cbn [mbind res_bind]. apply IH.
Qed.

Lemma dtb_parse_memory_same d nd d' : dtb_parse_memory m f d nd = Ret d' -> same_cpus d d'.
Proof.
  unfold dtb_parse_memory. destruct (fdt_getprop m f nd "reg") as [[[reg len] |] |]; cbn [mbind res_bind];
    [apply memory_loop_same | intros [= <-]; apply same_cpus_refl | done].
Qed.

(** ** Lemmas: the CPU nodes *)

Definition table_ok (b : Z) (d : dtb) : Prop := cpus_ok d /\ boot_mpidr d = b.

Lemma cpu_body_ok b d c d' : table_ok b d -> cpu_body m f d c = Ret d' -> table_ok b d'.
Proof.
  intros [Hok Hb]. unfold cpu_body. destruct (negb _); [intros [= <-]; done |].
  destruct (fdt_getprop m f c "reg") as [[[reg len] |] |]; cbn [mbind res_bind]; [| intros [= <-]; done | done].
  destruct (len <? 4); [intros [= <-]; done |]. intros E.
  destruct (add_cpu_ok _ _ _ Hok E) as [? Hb']. split; [done | congruence].
Qed.
End keep.

(** An invariant of the body is an invariant of the walk. *)
Lemma for_nodes_inv {S} (P : S -> Prop) n m f (body : S -> fdt_node -> res S) s cur s' :
  (forall s nd s', P s -> body s nd = Ret s' -> P s') -> P s ->
  for_nodes n m f body s cur = Ret s' -> P s'.
Proof.
  intros Hb. revert s cur. induction n as [| n IH]; intros s [[] nd] Hs; cbn [for_nodes negb]; try done.
  - destruct (body s nd) as [s1 |] eqn:E; cbn [mbind res_bind]; [| done].
    destruct (fdt_next_node m f nd) as [nxt |]; cbn [mbind res_bind]; [| done]. apply IH. by eapply Hb.
  - by intros [= <-].
Qed.

Lemma for_subnodes_inv {S} (P : S -> Prop) n m f parent (body : S -> fdt_node -> res S) s cur s' :
  (forall s nd s', P s -> body s nd = Ret s' -> P s') -> P s ->
  for_subnodes n m f parent body s cur = Ret s' -> P s'.
Proof.
  intros Hb. revert s cur. induction n as [| n IH]; intros s [[] nd] Hs; cbn [for_subnodes negb]; try done.
  - destruct (body s nd) as [s1 |] eqn:E; cbn [mbind res_bind]; [| done].
    destruct (fdt_next_subnode m f parent nd) as [nxt |]; cbn [mbind res_bind]; [| done]. apply IH. by eapply Hb.
  - by intros [= <-].
Qed.

Lemma dtb_node_ok m f b d nd d' : table_ok b d -> dtb_node m f d nd = Ret d' -> table_ok b d'.
Proof.
  intros H. unfold dtb_node.
  assert (Hk : same_cpus d d' -> table_ok b d').
  { intros Hs. destruct H as [Hok Hb]. split; [by eapply same_cpus_ok |]. destruct Hs as (_ & _ & -> & _). done. }
  destruct (n_depth nd =? 0); [intros E; by apply Hk; eapply dtb_parse_root_same |].
  destruct (negb _); [by intros [= <-] |].
  destruct (fdt_node_is m nd "cpus").
  { unfold dtb_parse_cpus, fdt_for_each_subnode. destruct (fdt_first_subnode m f nd); cbn [mbind res_bind]; [| done].
    apply for_subnodes_inv; [| done]. intros s c s' Hs. by apply cpu_body_ok. }
  destruct (fdt_node_is m nd "memory"); [intros E; by apply Hk; eapply dtb_parse_memory_same |].
  destruct (fdt_node_is m nd "psci"); [intros E; by apply Hk; eapply dtb_parse_psci_same |].
  destruct (fdt_node_is m nd "timer"); [intros E; by apply Hk; eapply dtb_parse_timer_same |].
  destruct (fdt_node_is m nd "pl011"); [intros E; by apply Hk; eapply dtb_parse_uart_same |].
  destruct (fdt_node_is m nd "intc"); [intros E; by apply Hk; eapply dtb_parse_gic_same |].
  by intros [= <-].
Qed.

(** ** Lemmas: the table a list of MPIDRs gives *)

(** [seen] are the MPIDRs described so far, [b] the boot CPU's. *)
Definition table_is (d : dtb) (b : Z) (seen : list Z) : Prop :=
  let o := filter (fun x => x <> b) seen in
  ncpus d = 1 + Z.min 31 (Z.of_nat (length o)) /\ boot_mpidr d = b /\
  boot_found d = bool_decide (b ∈ seen) /\ cpu_overflow d = bool_decide (31 < length o)%nat /\
  (forall i x, o !! i = Some x -> (i < 31)%nat -> cpu_mpidr d (1 + Z.of_nat i) = x).

Lemma table_is_dup d b seen x : table_is d b seen -> x ∉ seen ->
  dup_loop (Z.to_nat (ncpus d)) d x 1 = false.
Proof.
  intros (Hn & _ & _ & _ & Ht) Hx. apply not_true_iff_false. rewrite dup_loop_spec by lia.
  intros (i & Hi & E). destruct (lookup_lt_is_Some_2 (filter (fun x => x <> b) seen) (Z.to_nat (i - 1))) as [y Hy]; [lia |].
  pose proof (Ht _ _ Hy ltac:(lia)) as Hy'. replace (1 + Z.of_nat (Z.to_nat (i - 1))) with i in Hy' by lia.
  assert (y = x) as -> by congruence.
  apply list_elem_of_lookup_2, list_elem_of_filter in Hy as [_ ?]. done.
Qed.

Lemma add_cpu_step d b seen x : table_is d b seen -> x ∉ seen ->
  exists d', add_cpu d x = Ret d' /\ table_is d' b (seen ++ [x]).
Proof.
  intros H Hx. pose proof (table_is_dup _ _ _ _ H Hx) as Hdup. destruct H as (Hn & Hb & Hf & Ho & Ht).
  unfold add_cpu. rewrite Hdup, Hb, Hf. destruct (Z.eqb_spec x b) as [-> | Hne].
  { rewrite bool_decide_eq_false_2 by done. eexists. split; [done |]. unfold table_is. cbn.
    rewrite filter_app, filter_cons_False, filter_nil, app_nil_r by tauto.
    split; [done |]. split; [done |]. split; [| done]. symmetry. apply bool_decide_eq_true_2. set_solver. }
  assert (Ef : filter (fun y => y <> b) (seen ++ [x]) = filter (fun y => y <> b) seen ++ [x]).
  { by rewrite filter_app, filter_cons_True, filter_nil. }
  assert (Eb : bool_decide (b ∈ seen ++ [x]) = bool_decide (b ∈ seen)) 
    by (apply bool_decide_ext; rewrite elem_of_app, list_elem_of_singleton; intuition congruence).
  destruct (Z.ltb_spec (ncpus d) NCPU_MAX) as [Hlt | Hge]; unfold NCPU_MAX in *; eexists; (split; [done |]);
    unfold table_is; cbn [ncpus boot_mpidr boot_found cpu_overflow cpu_mpidr set_cpus]; rewrite Ef, Eb, length_app;
    cbn [length]; (split; [lia |]); (split; [done |]); (split; [done |]).
  - split; [rewrite Ho; apply bool_decide_ext; lia |]. intros i y [[Hl Hy] | [-> Hy]]%lookup_snoc_Some Hi.
    + rewrite upd_ne; [by apply Ht | lia].
    + subst y. replace (1 + Z.of_nat _) with (ncpus d) by lia. apply upd_eq.
  - split; [symmetry; apply bool_decide_eq_true_2; lia |].
    intros i y [[Hl Hy] | [Hi' Hy]]%lookup_snoc_Some Hi; [by apply Ht | lia].
Qed.

Lemma add_cpus_table d b seen l : table_is d b seen -> NoDup (seen ++ l) ->
  exists d', mfold add_cpu d l = Ret d' /\ table_is d' b (seen ++ l).
Proof.
  revert d seen. induction l as [| x l IH]; intros d seen H Hnd; cbn [mfold].
  { rewrite app_nil_r. by exists d. }
  destruct (add_cpu_step d b seen x H) as (d1 & E & H1).
  { apply NoDup_app in Hnd as (_ & Hs & _). intros Hx. apply (Hs x Hx). left. }
  rewrite E. cbn [mbind res_bind]. destruct (IH d1 (seen ++ [x]) H1) as (d2 & E2 & H2).
  { by rewrite <- app_assoc. }
  rewrite <- app_assoc in H2. by exists d2.
Qed.

(** ** Lemmas: the MPIDRs and banks of a device tree *)

Definition be64 (v : list Z) : Z := foldl (fun acc x => acc * 256 + x) 0 (take 8 v).

(** The MPIDR a cpu node declares: a one- or two-cell reg. *)
Definition cpu_reg (t : dtree) : option Z :=
  match prop_lookup (dt_props t) (lit "reg") with
  | Some [a; b; c; d] => Some (a * 2 ^ 24 + b * 2 ^ 16 + c * 2 ^ 8 + d)
  | Some v => if (8 <=? length v)%nat then Some (be64 v) else None
  | None => None
  end.

#[export] Instance name_is_dec name l : Decision (name_is name l).
Proof.
  unfold name_is. destruct (decide (name = l)); [left; by left |].
  destruct (decide (take (S (length l)) name = l ++ [64])) as [E | E].
  - left. right. exists (drop (S (length l)) name).
    rewrite <- (take_drop (S (length l)) name) at 1. by rewrite E, <- app_assoc.
  - right. intros [? | (u & ->)]; [done |]. apply E. rewrite take_app.
    rewrite take_ge by lia. replace (S (length l) - length l)%nat with 1%nat by lia. done.
Defined.

Definition cpu_regs (kids : list dtree) : list Z :=
  omap cpu_reg (filter (fun k => name_is (dt_name k) (lit "cpu")) kids).

(** A reg of five to seven bytes is read past its end; none of these is a cell count. *)
Definition reg_cells (t : dtree) : Prop :=
  forall v, prop_lookup (dt_props t) (lit "reg") = Some v -> ~ (5 <= length v <= 7)%nat.

Lemma stored_app m a l1 l2 : stored m a (l1 ++ l2) <-> stored m a l1 /\ stored m (a + Z.of_nat (length l1)) l2.
Proof.
  revert a. induction l1 as [| x l1 IH]; intros a; cbn [stored app length].
  - rewrite Z.add_0_r. tauto.
  - rewrite IH. replace (a + 1 + Z.of_nat (length l1)) with (a + Z.of_nat (S (length l1))) by lia. tauto.
Qed.

Lemma fdt64_val m a : mem_wf m -> fdt64 m a = cell m a * 2 ^ 32 + cell m (a + 4).
Proof.
  intros H. unfold fdt64. pose proof (cell_range m (a + 4) H). rewrite Z.shiftl_mul_pow2 by lia.
  by apply lor_low.
Qed.

Lemma fdt64_stored m a v : mem_wf m -> stored m a v -> (8 <= length v)%nat -> fdt64 m a = be64 v.
Proof.
  intros Hwf Hs Hl. do 8 (destruct v as [| ? v]; [cbn in Hl; lia |]).
  cbn [stored] in Hs. destruct Hs as (<- & <- & <- & <- & <- & <- & <- & <- & _).
  unfold be64. cbn [take foldl]. rewrite take_0. cbn [foldl]. rewrite fdt64_val, !cell_val by done.
  rewrite <- !(Z.add_assoc a). repeat (progress (
    change (1 + 1) with 2; change (2 + 1) with 3; change (3 + 1) with 4; change (4 + 1) with 5;
    change (5 + 1) with 6; change (6 + 1) with 7; change (4 + 2) with 6; change (4 + 3) with 7);
    rewrite <- ?(Z.add_assoc a)). lia.
Qed.

Section tree.
Context (m : mem) (f : fdt).
Hypothesis Hwf : mem_wf m.
Hypothesis Hblk : blocks_ok f.

(** One child of the cpus node adds the MPIDR it declares, if any. *)
Lemma cpu_body_tree d nd dt : node_at m f nd dt -> reg_cells dt.2 ->
  cpu_body m f d nd =
  (if bool_decide (name_is (dt_name dt.2) (lit "cpu"))
   then match cpu_reg dt.2 with Some x => add_cpu d x | None => Ret d end else Ret d).
Proof.
  destruct dt as [dd t]. cbn [snd]. intros Hnode Hrc. unfold cpu_body.
  assert (Hname : fdt_node_is m nd "cpu" = bool_decide (name_is (dt_name t) (lit "cpu"))).
  { apply eq_bool_prop_intro. rewrite bool_decide_spec, Is_true_true. apply node_is_name; [| by apply lit_nonzero].
    by destruct Hnode as (_ & _ & ? & _). }
  rewrite Hname. case_bool_decide; cbn [negb]; [| done].
  destruct (getprop_node m f Hwf Hblk nd dd t "reg" ltac:(by apply lit_nonzero) Hnode) as (r & E & Hr).
  rewrite E. cbn [mbind res_bind]. unfold cpu_reg. specialize (Hrc). unfold reg_cells in Hrc.
  destruct r as [[a len] |], (prop_lookup (dt_props t) (lit "reg")) as [v |]; cbn [prop_at] in Hr; try done.
  destruct Hr as [Hs ->]. specialize (Hrc v eq_refl).
  destruct (Z.ltb_spec (Z.of_nat (length v)) 4).
  { destruct v as [| ? [| ? [| ? [| ? ?]]]]; cbn [length] in *; try done; lia. }
  destruct (Z.eqb_spec (Z.of_nat (length v)) 4).
  - destruct v as [| x0 [| x1 [| x2 [| x3 [| ? ?]]]]]; cbn [length] in *; try lia.
    cbn [stored] in Hs. destruct Hs as (<- & <- & <- & <- & _). rewrite cell_val by done.
    rewrite <- !(Z.add_assoc a). done.
  - rewrite (fdt64_stored m a v) by (done || lia).
    destruct v as [| ? [| ? [| ? [| ? [| ? v]]]]]; cbn [length] in *; try lia.
    destruct (Nat.leb_spec 8 (S (S (S (S (S (length v))))))); [done | lia].
Qed.

Lemma dtb_parse_cpus_tree d nd t : node_at m f nd (n_depth nd, t) -> Forall reg_cells (dt_kids t) ->
  dtb_parse_cpus m f d nd = mfold add_cpu d (cpu_regs (dt_kids t)).
Proof.
  intros Hnode Hrc. unfold dtb_parse_cpus.
  destruct (for_each_subnode_kids m f Hwf Hblk nd t Hnode) as (nds & Hnds & ->). clear Hnode.
  revert nds d Hnds. induction Hrc as [| k kids Hk Hrc IH]; intros nds d Hnds; cbn [map] in Hnds.
  { apply Forall2_nil_inv_r in Hnds as ->. done. }
  apply Forall2_cons_inv_r in Hnds as (c & nds' & Hc & Hnds & ->). cbn [mfold].
  rewrite (cpu_body_tree d c _ Hc) by done. cbn [snd]. unfold cpu_regs. rewrite filter_cons.
  case_bool_decide as Hn; [rewrite decide_True by done | rewrite decide_False by done; by apply IH].
  cbn [omap list_omap]. destruct (cpu_reg k) as [x |]; cbn [mbind res_bind mfold]; [| by apply IH].
  destruct (add_cpu d x) as [d1 |]; cbn [mbind res_bind]; [by apply IH | done].
Qed.

(** One (base, size) pair of a memory node. *)
Definition cells_val (a n : Z) : Z := if n =? 1 then cell m a else fdt64 m a.

Definition add_bank (reg : Z) (d : dtb) (i : nat) : res dtb :=
  let ac := root_acells d in
  let a := reg + 4 * ((ac + root_scells d) * Z.of_nat i) in
  let size := cells_val (a + 4 * ac) (root_scells d) in
  if size >? 0
  then pm ← physmem_hardware_region (phys d) (cells_val a ac) size; Ret (set_mem d (nbanks d + 1) pm)
  else Ret d.

Lemma add_bank_eq reg d i (ac := root_acells d) (a := reg + 4 * ((ac + root_scells d) * Z.of_nat i)) :
  add_bank reg d i =
  (if cells_val (a + 4 * ac) (root_scells d) >? 0
   then pm ← physmem_hardware_region (phys d) (cells_val a ac) (cells_val (a + 4 * ac) (root_scells d));
        Ret (set_mem d (nbanks d + 1) pm)
   else Ret d).
Proof. done. Qed.

Lemma fdt_cells_val a n : n = 1 \/ n = 2 -> fdt_cells m a n = Ret (cells_val a n).
Proof. unfold fdt_cells, cells_val. intros [-> | ->]; done. Qed.

Lemma memory_loop_exact n d reg len i :
  (root_acells d = 1 \/ root_acells d = 2) -> (root_scells d = 1 \/ root_scells d = 2) ->
  let ec := root_acells d + root_scells d in
  0 <= len < 2 ^ 32 - 16 -> (i <= Z.to_nat (len / (4 * ec)))%nat -> (Z.to_nat (len / (4 * ec)) - i < n)%nat ->
  memory_loop m n d reg len (ec * Z.of_nat i) (u32 ec) =
  mfold (add_bank reg) d (seq i (Z.to_nat (len / (4 * ec)) - i)).
Proof.
  intros Ha Hs ec Hlen. assert (Hec : 2 <= ec <= 4) by lia.
  assert (Hk : 0 <= len / (4 * ec)) by (apply Z.div_pos; lia).
  pose proof (Z.mul_div_le len (4 * ec) ltac:(lia)) as Hlo.
  pose proof (Z.mul_succ_div_gt len (4 * ec) ltac:(lia)) as Hhi.
  rewrite (u32_small ec) by lia.
  revert n d i Ha Hs ec Hec Hk Hlo Hhi. induction n as [| n IH]; intros d i Ha Hs ec Hec Hk Hlo Hhi Hi Hn; [lia |].
  cbn [memory_loop]. set (K := Z.to_nat (len / (4 * ec))) in *.
  assert (HK : len / (4 * ec) = Z.of_nat K) by lia.
  pose proof Hlo as Hlo'. pose proof Hhi as Hhi'. rewrite HK in Hlo', Hhi'.
  assert (Hb : ec * Z.of_nat i + ec < 2 ^ 30) by nia.
  rewrite (u32_small (ec * Z.of_nat i + ec)), (u32_small ((ec * Z.of_nat i + ec) * 4)) by nia.
  destruct (Z.leb_spec ((ec * Z.of_nat i + ec) * 4) len) as [Hle | Hgt].
  - assert (i < K)%nat by nia. replace (K - i)%nat with (S (K - S i)) by lia. cbn [seq mfold].
    rewrite !fdt_cells_val by done. cbn [mbind res_bind]. rewrite add_bank_eq. fold ec.
    destruct (_ >? 0).
    + destruct (physmem_hardware_region _ _ _) as [pm |]; cbn [mbind res_bind]; [| done].
      replace (ec * Z.of_nat i + ec) with (ec * Z.of_nat (S i)) by lia.
      apply (IH (set_mem d (nbanks d + 1) pm)); cbn [root_acells root_scells set_mem]; try done; fold ec; fold K; lia.
    + cbn [mbind res_bind]. replace (ec * Z.of_nat i + ec) with (ec * Z.of_nat (S i)) by lia.
      apply IH; try done; fold ec; fold K; lia.
  - assert (i = K) as -> by nia. by rewrite Nat.sub_diag.
Qed.
End tree.

(** ** Properties *)

(** whatever the blob holds, when [dtb_init] returns it has found the boot CPU, at
    least one DRAM bank and both interrupts, and the CPU table is sound: it starts
    with the boot CPU, holds at most NCPU_MAX entries and no MPIDR twice. *)
Theorem dtb_init_cpu_table m blob mpidr d0 d :
  dtb_init m blob mpidr d0 = Ret d ->
  cpus_ok d /\ boot_mpidr d = mpidr /\ cpu_mpidr d 0 = mpidr /\
  boot_found d = true /\ nbanks d <> 0 /\ uart_irq (plat d) <> 0 /\ timer_irq (plat d) <> 0.
Proof.
  unfold dtb_init. destruct (fdt_open m blob) as [f |]; cbn [mbind res_bind]; [| done].
  set (d1 := Dtb 1 _ _ _ _ _ _ _ _ _ _ _ _).
  destruct (fdt_for_each m f (dtb_node m f) d1) as [d2 |] eqn:E2; cbn [mbind res_bind]; [| done].
  destruct (dtb_uart_clk m f d2) as [d3 |] eqn:E3; cbn [mbind res_bind]; [| done].
  assert (H1 : table_ok mpidr d1).
  { split; [| done]. unfold cpus_ok. cbn. split; [done |]. split; [done | lia]. }
  assert (H2 : table_ok mpidr d2).
  { revert E2. unfold fdt_for_each. destruct (fdt_first_node m f); cbn [mbind res_bind]; [| done].
    apply for_nodes_inv; [| done]. intros s nd s' Hs. by apply dtb_node_ok. }
  apply dtb_uart_clk_same in E3 as Hs. destruct H2 as [H2 Hb2]. pose proof (same_cpus_ok _ _ Hs H2) as H3.
  assert (Hb3 : boot_mpidr d3 = mpidr) by (destruct Hs as (_ & _ & -> & _); done).
  destruct (boot_found d3) eqn:Ef; cbn [negb]; [| done].
  destruct (nbanks d3 =? 0) eqn:En; [done |]. destruct (uart_irq (plat d3) =? 0) eqn:Eu; [done |].
  destruct (timer_irq (plat d3) =? 0) eqn:Et; [done |]. intros [= <-]. zbool.
  split; [done |]. split; [done |]. destruct H3 as (_ & H0 & _). split; [congruence |]. done.
Qed.

(** at a node of the device tree, [dtb_parse_cpus] fills the table with the MPIDRs
    of the cpu children in document order (the boot CPU apart), up to NCPU_MAX, and
    raises the overflow flag exactly when some do not fit; [dtb_parse_memory] records
    every whole (base, size) pair of the reg property, decoded with the root's cell
    counts, in order. *)
Theorem dtb_tree_exact m f nd t d b :
  mem_wf m -> blocks_ok f -> node_at m f nd (n_depth nd, t) ->
  (Forall reg_cells (dt_kids t) -> NoDup (cpu_regs (dt_kids t)) -> table_is d b [] ->
    exists d', dtb_parse_cpus m f d nd = Ret d' /\ table_is d' b (cpu_regs (dt_kids t))) /\
  ((root_acells d = 1 \/ root_acells d = 2) -> (root_scells d = 1 \/ root_scells d = 2) ->
    match prop_lookup (dt_props t) (lit "reg") with
    | None => dtb_parse_memory m f d nd = Ret d
    | Some v =>
        Z.of_nat (length v) < 2 ^ 32 - 16 ->
        exists a, stored m a v /\
        dtb_parse_memory m f d nd = mfold (add_bank m a) d
          (seq 0 (Z.to_nat (Z.of_nat (length v) / (4 * (root_acells d + root_scells d)))))
    end).
Proof.
  intros Hwf Hblk Hnode. split.
  - intros Hrc Hnd Ht. rewrite (dtb_parse_cpus_tree m f Hwf Hblk d nd t Hnode Hrc).
    by apply (add_cpus_table d b []).
  - intros Ha Hs. destruct (getprop_node m f Hwf Hblk nd _ t "reg" ltac:(by apply lit_nonzero) Hnode) as (r & E & Hr).
    unfold dtb_parse_memory. rewrite E. cbn [mbind res_bind].
    destruct r as [[a len] |], (prop_lookup (dt_props t) (lit "reg")) as [v |]; cbn [prop_at] in Hr; try done.
    destruct Hr as [Hst ->]. intros Hlen. exists a. split; [done |].
    pose proof (memory_loop_exact m (S (Z.to_nat (Z.of_nat (length v)))) d a (Z.of_nat (length v)) 0 Ha Hs) as H.
    cbn zeta in H. rewrite Z.mul_0_r, Nat.sub_0_r in H. apply H; [lia | lia |].
    assert (Z.of_nat (length v) / (4 * (root_acells d + root_scells d)) <= Z.of_nat (length v)); [| lia].
    apply Z.div_le_upper_bound; nia.
Qed.

(** ** Witnesses *)

Definition begin_node (name : string) : list Z :=
  let l := lit name in
  be32_bytes FDT_BEGIN_NODE ++ l ++ replicate (4 - length l mod 4) 0.

Definition prop_cells (off : Z) (cells : list Z) : list Z :=
  flat_map be32_bytes (FDT_PROP :: 4 * Z.of_nat (length cells) :: off :: cells).

Definition end_node : list Z := be32_bytes FDT_END_NODE.

(** Two CPUs, one bank, the UART and the timer. The strings block names "reg" at 0,
    "interrupts" at 4. *)
Definition board_struct : list Z :=
  begin_node "" ++
  begin_node "cpus" ++ begin_node "cpu@0" ++ prop_cells 0 [0] ++ end_node ++
    begin_node "cpu@1" ++ prop_cells 0 [1] ++ end_node ++ end_node ++
  begin_node "memory@40000000" ++ prop_cells 0 [0; 0x40000000; 0x8000000] ++ end_node ++
  begin_node "pl011@9000000" ++ prop_cells 4 [0; 1; 4] ++ end_node ++
  begin_node "timer" ++ prop_cells 4 [1; 13; 4; 1; 14; 4] ++ end_node ++
  end_node ++ be32_bytes FDT_END.

Definition board_bytes : list Z :=
  let n := Z.of_nat (length board_struct) in
  flat_map be32_bytes [FDT_MAGIC; 40 + n + 15; 40; 40 + n; 0; 17; 16; 0; 15; n] ++
  board_struct ++ lit "reg" ++ [0] ++ lit "interrupts" ++ [0].

Definition board : mem := mem_of 4096 board_bytes.

Definition cpu_summary (r : res dtb) : list Z :=
  match r with
  | Ret d => [ncpus d; cpu_mpidr d 0; cpu_mpidr d 1; nbanks d; uart_irq (plat d); timer_irq (plat d)]
  | Panic _ => []
  end.

Lemma board_boots : cpu_summary (dtb_init board 4096 0 (dtb_start (Physmem [] [] []))) = [2; 0; 1; 1; 33; 30].
Proof. vm_compute. reflexivity. Qed.

Lemma dtb_init_cpu_table_witness :
  exists d, dtb_init board 4096 0 (dtb_start (Physmem [] [] [])) = Ret d /\ cpus_ok d /\ ncpus d = 2.
Proof.
  pose proof board_boots as H.
  destruct (dtb_init board 4096 0 (dtb_start (Physmem [] [] []))) as [d | why] eqn:E; [| discriminate H].
  exists d. split; [reflexivity |]. split.
  - exact (proj1 (dtb_init_cpu_table _ _ _ _ _ E)).
  - injection H. intros. assumption.
Defined.

(** One node with a bank in its reg and two cpu children. *)
Definition node_bytes : list Z :=
  begin_node "" ++ prop_cells 0 [0; 0x40000000; 0x8000000] ++
  begin_node "cpu@0" ++ prop_cells 0 [0] ++ end_node ++
  begin_node "cpu@1" ++ prop_cells 0 [1] ++ end_node ++ end_node ++ be32_bytes FDT_END ++ lit "reg" ++ [0].

Definition node_mem : mem := mem_of 4096 node_bytes.
Definition node_fdt : fdt := Fdt 4096 4200 4200 4204.
Definition node_tree : dtree :=
  DNode [] [(lit "reg", flat_map be32_bytes [0; 0x40000000; 0x8000000])]
    [DNode (lit "cpu@0") [(lit "reg", [0; 0; 0; 0])] []; DNode (lit "cpu@1") [(lit "reg", [0; 0; 0; 1])] []].
Definition node_nd : fdt_node := Node 4104 4100 1.

Lemma node_nd_at : node_at node_mem node_fdt node_nd (1, node_tree).
Proof.
  split; [reflexivity |]. split; [vm_compute; discriminate |]. split; [vm_compute; reflexivity |]. exists [].
  apply (toks_cons _ _ _ 4128); [vm_compute; repeat split; discriminate |].
  apply (toks_cons _ _ _ 4140); [vm_compute; repeat split; discriminate |].
  apply (toks_cons _ _ _ 4156); [vm_compute; repeat split; discriminate |].
  apply (toks_cons _ _ _ 4160); [vm_compute; repeat split; discriminate |].
  apply (toks_cons _ _ _ 4172); [vm_compute; repeat split; discriminate |].
  apply (toks_cons _ _ _ 4188); [vm_compute; repeat split; discriminate |].
  apply (toks_cons _ _ _ 4192); [vm_compute; repeat split; discriminate |].
  apply (toks_cons _ _ _ 4196); [vm_compute; repeat split; discriminate |].
  apply (toks_cons _ _ _ 4200); [vm_compute; repeat split; discriminate |].
  constructor.
Qed.

Definition fresh_dtb : dtb :=
  Dtb 1 (fun _ => 0) 0 false false 0 0 (Platform 0 0 0 0 0 0) 2 1 0 0 (Physmem [] [] []).

Lemma dtb_tree_exact_witness :
  (exists d', dtb_parse_cpus node_mem node_fdt fresh_dtb node_nd = Ret d' /\ table_is d' 0 [0; 1]) /\
  (exists a, dtb_parse_memory node_mem node_fdt fresh_dtb node_nd = mfold (add_bank node_mem a) fresh_dtb [0%nat]).
Proof.
  destruct (dtb_tree_exact node_mem node_fdt node_nd node_tree fresh_dtb 0) as [H1 H2].
  - apply mem_of_wf. reflexivity.
  - vm_compute. repeat split; discriminate.
  - apply node_nd_at.
  - split.
    + apply H1.
      * repeat constructor; intros v [= <-]; cbn; lia.
      * apply (bool_decide_unpack _). vm_compute. exact I.
      * vm_compute. repeat split; discriminate.
    + destruct (H2 ltac:(right; reflexivity) ltac:(left; reflexivity)) as (a & _ & E); [vm_compute; reflexivity |].
      exists a. exact E.
Defined.
