(* ===== verification/Mmio.v ===== *)
(** * Device registers

    include/arch/mmio.h: every device access of the kernel goes through these functions.
    A device is a state that answers reads and takes writes; reading can change it. The
    drivers are written against the class, and proved for a device that behaves as its
    manual says (Gic.v, Uart.v). *)

From S2P Require Import Prelude.

Class Mmio (D : Type) := {
  mmio_read32 : D -> Z -> D * Z;
  mmio_write32 : D -> Z -> Z -> D;
  mmio_read64 : D -> Z -> D * Z;
  mmio_write64 : D -> Z -> Z -> D
}.

Section rmw.
Context {D : Type} `{Mmio D}.

Definition mmio_setbits32 (d : D) (addr mask : Z) : D :=
  let '(d, v) := mmio_read32 d addr in mmio_write32 d addr (Z.lor v mask).

Definition mmio_clrbits32 (d : D) (addr mask : Z) : D :=
  let '(d, v) := mmio_read32 d addr in mmio_write32 d addr (Z.land v (u32 (Z.lnot mask))).

Definition mmio_clrsetbits32 (d : D) (addr mask val : Z) : D :=
  let '(d, v) := mmio_read32 d addr in
  mmio_write32 d addr (Z.lor (Z.land v (u32 (Z.lnot mask))) (Z.land val mask)).
End rmw.
