(* ===== verification/Gic.v ===== *)
(** * The interrupt controller driver

    Models arch/gic.c over the registers of a GICv3: the distributor, one redistributor
    frame per CPU, and the system registers of the CPU interface. The waits on hardware
    read an environment that says how long the hardware takes; printk is left out. *)

From S2P Require Import Prelude Bits Mmu Physmem Dtb Mmio.

(** ** Registers *)

Definition GICD_CTLR : Z := 0x000.
Definition GICD_TYPER : Z := 0x004.
Definition GICD_ISENABLER (n : Z) : Z := 0x100 + 4 * n.
Definition GICD_ICENABLER (n : Z) : Z := 0x180 + 4 * n.
Definition GICD_ICACTIVER (n : Z) : Z := 0x380 + 4 * n.
Definition GICD_ICFGR (n : Z) : Z := 0xC00 + 4 * n.
Definition GICD_IPRIORITYR (n : Z) : Z := 0x400 + 4 * n.
Definition GICD_IGROUPR (n : Z) : Z := 0x080 + 4 * n.
Definition GICD_IROUTER (n : Z) : Z := 0x6000 + 8 * n.
Definition GICD_PIDR2 : Z := 0xFFE8.

Definition GICD_CTLR_EN_GRP1NS : Z := 2.
Definition GICD_CTLR_EN_GRP1A : Z := 4.
Definition GICD_CTLR_ARE_NS : Z := 16.
Definition GICD_CTLR_RWP : Z := 2 ^ 31.
Definition GICD_TYPER_ITLINES_MASK : Z := 0x1f.
Definition GICD_SPI_MAX : Z := 1020.
Definition GIC_RWP_SPINS : Z := 100000000.
Definition GICD_PIDR2_ARCHREV_SHIFT : Z := 4.
Definition GICD_PIDR2_ARCHREV_MASK : Z := 0xF.

Definition GICR_FRAME_SIZE : Z := 0x20000.
Definition GICR_FRAME_SIZE_VLPI : Z := 0x40000.
Definition GICR_TYPER_OFF : Z := 0x008.
Definition GICR_TYPER_VLPIS : Z := 2.
Definition GICR_TYPER_LAST : Z := 16.
Definition GICR_WAKER_OFF : Z := 0x014.
Definition GICR_SGI_OFF : Z := 0x10000.
Definition GICR_IGROUPR0_OFF : Z := GICR_SGI_OFF + 0x080.
Definition GICR_ISENABLER0_OFF : Z := GICR_SGI_OFF + 0x100.
Definition GICR_ICENABLER0_OFF : Z := GICR_SGI_OFF + 0x180.
Definition GICR_IPRIORITYR_OFF (n : Z) : Z := GICR_SGI_OFF + 0x400 + 4 * n.
Definition GICR_WAKER_PSLEEP : Z := 2.
Definition GICR_WAKER_CASLEEP : Z := 4.
Definition ICC_CTLR_EOIMODE : Z := 2.

Definition GIC_SPI_BASE : Z := 32.
Definition IRQ_PANIC : Z := 0.
Definition GIC_PRIO_DEFAULT : Z := 0xA0.

(** MPIDR_AFF_MASK of arm64.h, and what [read_mpidr] keeps of the register. *)
Definition MPIDR_AFF_MASK : Z := 0xFF00FFFFFF.
Definition read_mpidr (mpidr_el1 : Z) : Z := Z.land mpidr_el1 MPIDR_AFF_MASK.

(** ** State *)

(** ICC_SRE, ICC_CTLR, ICC_PMR and ICC_IGRPEN1 of a CPU. *)
Record icc := Icc { icc_sre : Z; icc_ctlr : Z; icc_pmr : Z; icc_igrpen1 : Z }.

Record gic (D : Type) := Gic {
  dev : D;
  gicd : Z;
  gic_nirq : Z;
  gicr_stride : Z;
  gicr_frame : Z -> Z;          (* by CPU *)
  iccs : Z -> icc               (* by CPU *)
}.
Arguments Gic {D} _ _ _ _ _ _.
Arguments dev {D} _.
Arguments gicd {D} _.
Arguments gic_nirq {D} _.
Arguments gicr_stride {D} _.
Arguments gicr_frame {D} _ _.
Arguments iccs {D} _ _.

(** How the hardware takes its time: CNTFRQ, and by the number of the turn of a wait,
    whether the distributor still has a write pending and what CNTPCT reads. *)
Record hwtime := Hwtime { cntfrq : Z; rwp : nat -> bool; cntpct : nat -> Z }.

Section driver.
Context {D : Type} `{Mmio D}.
Implicit Types st : gic D.

Definition with_dev st (d : D) : gic D := Gic d (gicd st) (gic_nirq st) (gicr_stride st) (gicr_frame st) (iccs st).
Definition with_icc st (c : Z) (i : icc) : gic D := Gic (dev st) (gicd st) (gic_nirq st) (gicr_stride st) (gicr_frame st) ((iccs st).[c <- i]).

Definition icc_write_sre st (c v : Z) : gic D := let i := iccs st c in with_icc st c (Icc v (icc_ctlr i) (icc_pmr i) (icc_igrpen1 i)).
Definition icc_write_ctlr st (c v : Z) : gic D := let i := iccs st c in with_icc st c (Icc (icc_sre i) v (icc_pmr i) (icc_igrpen1 i)).
Definition icc_write_pmr st (c v : Z) : gic D := let i := iccs st c in with_icc st c (Icc (icc_sre i) (icc_ctlr i) v (icc_igrpen1 i)).
Definition icc_write_igrpen1 st (c v : Z) : gic D := let i := iccs st c in with_icc st c (Icc (icc_sre i) (icc_ctlr i) (icc_pmr i) v).
Definition icc_read_ctlr st (c : Z) : Z := icc_ctlr (iccs st c).

Definition gicr_base st (c : Z) : Z := gicr_frame st c.

Definition gicd_read32 st (off : Z) : gic D * Z :=
  let '(d, v) := mmio_read32 (dev st) (u64 (gicd st + off)) in (with_dev st d, v).
Definition gicd_write32 st (off v : Z) : gic D := with_dev st (mmio_write32 (dev st) (u64 (gicd st + off)) v).
Definition gicd_write64 st (off v : Z) : gic D := with_dev st (mmio_write64 (dev st) (u64 (gicd st + off)) v).

Definition gic_typer_nirq st : gic D * Z :=
  let '(st, v) := gicd_read32 st GICD_TYPER in
  let lines := Z.land v GICD_TYPER_ITLINES_MASK in
  let n := u32 (32 * (lines + 1)) in
  (st, if n >? GICD_SPI_MAX then GICD_SPI_MAX else n).

(** The loop, from turn [k] on; the turns it took, [None] when [fuel] is not enough. *)
Fixpoint rwp_loop (fuel : nat) (t : hwtime) (k : nat) (spins deadline : Z) : option nat :=
  match fuel with
  | O => None
  | S fuel =>
      if rwp t k then
        if negb (cntfrq t =? 0) then
          if cntpct t k >=? deadline then Some k else rwp_loop fuel t (S k) spins deadline
        else if spins - 1 =? 0 then Some k else rwp_loop fuel t (S k) (spins - 1) deadline
      else Some k
  end.

Definition gic_wait_rwp (fuel : nat) (t : hwtime) : option nat :=
  rwp_loop fuel t 0 GIC_RWP_SPINS (if negb (cntfrq t =? 0) then u64 (cntfrq t + cntfrq t) else 0).

Definition mpidr_to_affinity (mpidr : Z) : Z :=
  Z.lor (Z.lor (Z.lor (u64 (Z.shiftl (Z.land (Z.shiftr mpidr 32) 0xff) 24)) (Z.shiftl (Z.land (Z.shiftr mpidr 16) 0xff) 16))
    (Z.shiftl (Z.land (Z.shiftr mpidr 8) 0xff) 8)) (Z.land mpidr 0xff).

(** The frames from [frame] on; a walk past [fuel] frames has met no last one. *)
Fixpoint find_loop (fuel : nat) st (target frame : Z) : res (gic D * Z) :=
  match fuel with
  | O => Panic "gic: no last redistributor"
  | S fuel =>
      let '(d, typer) := mmio_read64 (dev st) (u64 (frame + GICR_TYPER_OFF)) in
      let st := with_dev st d in
      if Z.land (Z.shiftr typer 32) 0xffffffff =? target then Ret (st, frame)
      else if negb (Z.land typer GICR_TYPER_LAST =? 0) then Panic "gic: no redistributor frame for this CPU"
      else find_loop fuel st target (u64 (frame + gicr_stride st))
  end.

Definition gicr_find (fuel : nat) st (pl : platform) (mpidr : Z) : res (gic D * Z) :=
  find_loop fuel st (mpidr_to_affinity mpidr) (PA_TO_KVA (Dtb.gicr_base pl)).

Definition gic_nirqs st : Z := gic_nirq st.

Definition gic_irq_enable st (c irq : Z) : gic D :=
  if irq >=? GIC_SPI_BASE then gicd_write32 st (GICD_ISENABLER (irq / 32)) (u32 (Z.shiftl 1 (irq mod 32)))
  else with_dev st (mmio_write32 (dev st) (u64 (gicr_base st c + GICR_ISENABLER0_OFF)) (u32 (Z.shiftl 1 irq))).

Definition gic_irq_disable st (c irq : Z) : gic D :=
  if irq >=? GIC_SPI_BASE then gicd_write32 st (GICD_ICENABLER (irq / 32)) (u32 (Z.shiftl 1 (irq mod 32)))
  else with_dev st (mmio_write32 (dev st) (u64 (gicr_base st c + GICR_ICENABLER0_OFF)) (u32 (Z.shiftl 1 irq))).

Definition gic_irq_set_group st (c irq group : Z) : gic D :=
  let '(reg, bit) :=
    if irq >=? GIC_SPI_BASE then (u64 (gicd st + GICD_IGROUPR (irq / 32)), u32 (Z.shiftl 1 (irq mod 32)))
    else (u64 (gicr_base st c + GICR_IGROUPR0_OFF), u32 (Z.shiftl 1 irq)) in
  with_dev st (if negb (group =? 0) then mmio_setbits32 (dev st) reg bit else mmio_clrbits32 (dev st) reg bit).

Definition gic_irq_set_priority st (c irq prio : Z) : gic D :=
  let shift := irq mod 4 * 8 in
  let reg := if irq >=? GIC_SPI_BASE then u64 (gicd st + GICD_IPRIORITYR (irq / 4))
             else u64 (gicr_base st c + GICR_IPRIORITYR_OFF (irq / 4)) in
  with_dev st (mmio_clrsetbits32 (dev st) reg (u32 (Z.shiftl 0xFF shift)) (u32 (Z.shiftl prio shift))).

Definition gic_irq_set_affinity st (irq aff : Z) : gic D :=
  if irq <? GIC_SPI_BASE then st else gicd_write64 st (GICD_IROUTER irq) aff.

(** for (i = i0; i < n; i += step) *)
Fixpoint for_step (fuel : nat) st (i step n : Z) (body : gic D -> Z -> gic D) : gic D :=
  match fuel with
  | O => st
  | S fuel => if i <? n then for_step fuel (body st i) (u32 (i + step)) step n body else st
  end.

Definition spis st (step : Z) (body : gic D -> Z -> gic D) : gic D :=
  for_step (Z.to_nat (gic_nirq st)) st GIC_SPI_BASE step (gic_nirq st) body.

(** The wait for pending writes; it changes nothing. *)
Definition rwp_done (fuel : nat) (t : hwtime) : res unit :=
  match gic_wait_rwp fuel t with Some _ => Ret tt | None => Panic "gic_wait_rwp: does not end" end.

Definition gic_init (fuel : nat) (t1 t2 t3 : hwtime) st (pl : platform) (c mpidr_el1 : Z) : res (gic D) :=
  let st := Gic (dev st) (PA_TO_KVA (gicd_base pl)) (gic_nirq st) (gicr_stride st) (gicr_frame st) (iccs st) in
  let '(st, pidr2) := gicd_read32 st GICD_PIDR2 in
  let archrev := Z.land (Z.shiftr pidr2 GICD_PIDR2_ARCHREV_SHIFT) GICD_PIDR2_ARCHREV_MASK in
  if archrev <? 3 then Panic "gic: not a GICv3 distributor (PIDR2 ArchRev < 3"
  else
    let '(d, typer) := mmio_read64 (dev st) (u64 (PA_TO_KVA (Dtb.gicr_base pl) + GICR_TYPER_OFF)) in
    let stride := if negb (Z.land typer GICR_TYPER_VLPIS =? 0) then GICR_FRAME_SIZE_VLPI else gicr_stride st in
    let st := Gic d (gicd st) (gic_nirq st) stride (gicr_frame st) (iccs st) in
    let '(st, n) := gic_typer_nirq st in
    let st := Gic (dev st) (gicd st) n (gicr_stride st) (gicr_frame st) (iccs st) in
    let st := gicd_write32 st GICD_CTLR 0 in
    _ ← rwp_done fuel t1;
    let st := spis st 32 (fun st i =>
      let st := gicd_write32 st (GICD_IGROUPR (Z.shiftr i 5)) 0xFFFFFFFF in
      let st := gicd_write32 st (GICD_ICENABLER (Z.shiftr i 5)) 0xFFFFFFFF in
      gicd_write32 st (GICD_ICACTIVER (Z.shiftr i 5)) 0xFFFFFFFF) in
    let st := spis st 16 (fun st i => gicd_write32 st (GICD_ICFGR (Z.shiftr i 4)) 0) in
    let st := spis st 4 (fun st i => gicd_write32 st (GICD_IPRIORITYR (Z.shiftr i 2)) 0x80808080) in
    _ ← rwp_done fuel t2;
    let st := gicd_write32 st GICD_CTLR (Z.lor (Z.lor GICD_CTLR_ARE_NS GICD_CTLR_EN_GRP1NS) GICD_CTLR_EN_GRP1A) in
    _ ← rwp_done fuel t3;
    let st := spis st 1 (fun st i => gic_irq_set_affinity st i (read_mpidr mpidr_el1)) in
    let st := gic_irq_set_priority st c (uart_irq pl) GIC_PRIO_DEFAULT in
    Ret (gic_irq_enable st c (uart_irq pl)).

(** while (mmio_read32(gicr + GICR_WAKER_OFF) & GICR_WAKER_CASLEEP) *)
Fixpoint wake_loop (fuel : nat) st (gicr : Z) : res (gic D) :=
  match fuel with
  | O => Panic "gic_inithart: redistributor asleep"
  | S fuel =>
      let '(d, v) := mmio_read32 (dev st) (u64 (gicr + GICR_WAKER_OFF)) in
      if negb (Z.land v GICR_WAKER_CASLEEP =? 0) then wake_loop fuel (with_dev st d) gicr else Ret (with_dev st d)
  end.

Definition gic_inithart (fuel nframes : nat) st (pl : platform) (c mpidr : Z) : res (gic D) :=
  '(st, frame) ← gicr_find nframes st pl mpidr;
  let st := Gic (dev st) (gicd st) (gic_nirq st) (gicr_stride st) ((gicr_frame st).[c <- frame]) (iccs st) in
  let gicr := gicr_base st c in
  let st := icc_write_sre st c 1 in
  let st := icc_write_ctlr st c (Z.lor (icc_read_ctlr st c) ICC_CTLR_EOIMODE) in
  let st := icc_write_pmr st c 0xFF in
  let st := icc_write_igrpen1 st c 1 in
  let st := with_dev st (mmio_clrbits32 (dev st) (u64 (gicr + GICR_WAKER_OFF)) GICR_WAKER_PSLEEP) in
  st ← wake_loop fuel st gicr;
  let st := with_dev st (mmio_write32 (dev st) (u64 (gicr + GICR_IGROUPR0_OFF)) 0xFFFFFFFF) in
  let st := gic_irq_set_priority st c (timer_irq pl) GIC_PRIO_DEFAULT in
  let st := gic_irq_set_priority st c IRQ_PANIC GIC_PRIO_DEFAULT in
  let st := gic_irq_enable st c (timer_irq pl) in
  Ret (gic_irq_enable st c IRQ_PANIC).
End driver.

(** What ICC_IAR1 read, without the bits above the interrupt id. *)
Definition gic_acknwlg (iar1 : Z) : Z := Z.land iar1 0x3FF.

(** The value written to ICC_SGI1R. *)
Definition gic_send_sgi_all (intid : Z) : Z := Z.lor (Z.shiftl 1 40) (Z.shiftl (Z.land intid 0xF) 24).

(** Byte [j] of a word. *)
Definition byte_at (v j : Z) : Z := Z.land (Z.shiftr v (j * 8)) 0xFF.

(** ** The hardware

    A GICv3 as its manual describes it, as far as the driver goes: a word per register;
    ones written to a set-enable register set bits, to a clear-enable or clear-active
    register they clear them (the bits are kept at the address of the set register, 0x80
    lower); the routing registers take a write only while affinity routing is on (ARE_NS of
    CTLR); a redistributor stays asleep until ProcessorSleep is clear and its [asleep]
    count of further reads has passed. *)

Record gdev := GDev { regs : Z -> Z; asleep : Z -> nat }.

Section hardware.
Context (G : Z) (frames : list Z).      (* the distributor and the redistributor frames *)

Definition within (lo hi a : Z) : bool := (lo <=? a) && (a <? hi).

(** The registers of a frame at offset [off]. *)
Definition frame_reg (off a : Z) : bool := existsb (fun f => a =? f + off) frames.

Definition sets (a : Z) : bool := within (G + 0x100) (G + 0x180) a || frame_reg GICR_ISENABLER0_OFF a.

Definition clears (a : Z) : bool :=
  within (G + 0x180) (G + 0x200) a || within (G + 0x380) (G + 0x400) a || frame_reg GICR_ICENABLER0_OFF a.

Definition set_reg (d : gdev) (a v : Z) : gdev := GDev ((regs d).[a <- v]) (asleep d).

Definition gdev_write (d : gdev) (a v : Z) : gdev :=
  if sets a then set_reg d a (Z.lor (regs d a) v)
  else if clears a then set_reg d (a - 0x80) (Z.land (regs d (a - 0x80)) (u32 (Z.lnot v)))
  else set_reg d a v.

(** ARE_NS is set. *)
Definition affinity_on (d : gdev) : bool := negb (Z.land (regs d (G + GICD_CTLR)) GICD_CTLR_ARE_NS =? 0).

(** The 64-bit registers written are the routers, which ignore the write without ARE_NS. *)
Definition gdev_write64 (d : gdev) (a v : Z) : gdev :=
  if within (G + GICD_IROUTER 0) (G + GICD_IROUTER GICD_SPI_MAX) a && negb (affinity_on d) then d else set_reg d a v.

Definition gdev_read (d : gdev) (a : Z) : gdev * Z :=
  if frame_reg GICR_WAKER_OFF a then
    if negb (Z.land (regs d a) GICR_WAKER_PSLEEP =? 0) then (d, Z.lor (regs d a) GICR_WAKER_CASLEEP)
    else match asleep d a with
         | O => (d, Z.land (regs d a) (u32 (Z.lnot GICR_WAKER_CASLEEP)))
         | S n => (GDev (regs d) ((asleep d).[a <- n]), Z.lor (regs d a) GICR_WAKER_CASLEEP)
         end
  else (d, regs d (if clears a then a - 0x80 else a)).

Definition gdev_mmio : Mmio gdev := {|
  mmio_read32 := gdev_read;
  mmio_write32 := gdev_write;
  mmio_read64 := fun d a => (d, regs d a);
  mmio_write64 := gdev_write64
|}.

(** What the registers say of an interrupt: a shared one at base [G], a private one at the
    base [f + 0x10000] of its CPU's frame. *)
Record attrs := Attrs { a_group : bool; a_enabled : bool; a_active : bool; a_prio : Z; a_edge : bool; a_route : Z }.

Definition attr (d : gdev) (base irq : Z) : attrs := {|
  a_group := Z.testbit (regs d (base + (0x80 + 4 * (irq / 32)))) (irq mod 32);
  a_enabled := Z.testbit (regs d (base + (0x100 + 4 * (irq / 32)))) (irq mod 32);
  a_active := Z.testbit (regs d (base + (0x300 + 4 * (irq / 32)))) (irq mod 32);
  a_prio := byte_at (regs d (base + (0x400 + 4 * (irq / 4)))) (irq mod 4);
  a_edge := Z.testbit (regs d (base + (0xC00 + 4 * (irq / 16)))) (irq mod 16 * 2 + 1);
  a_route := regs d (base + (0x6000 + 8 * irq))
|}.

Definition set_group (g : bool) (a : attrs) : attrs := Attrs g (a_enabled a) (a_active a) (a_prio a) (a_edge a) (a_route a).
Definition set_enabled (e : bool) (a : attrs) : attrs := Attrs (a_group a) e (a_active a) (a_prio a) (a_edge a) (a_route a).
Definition set_active (x : bool) (a : attrs) : attrs := Attrs (a_group a) (a_enabled a) x (a_prio a) (a_edge a) (a_route a).
Definition set_prio (p : Z) (a : attrs) : attrs := Attrs (a_group a) (a_enabled a) (a_active a) p (a_edge a) (a_route a).
Definition set_edge (e : bool) (a : attrs) : attrs := Attrs (a_group a) (a_enabled a) (a_active a) (a_prio a) e (a_route a).
Definition set_route (r : Z) (a : attrs) : attrs := Attrs (a_group a) (a_enabled a) (a_active a) (a_prio a) (a_edge a) r.

(** Where the registers of an interrupt are, for CPU [c]. *)
Definition base_of (st : gic gdev) (c irq : Z) : Z := if irq >=? GIC_SPI_BASE then G else gicr_frame st c + GICR_SGI_OFF.
End hardware.

(** ** Lemmas: words *)

Lemma bit1 k : 0 <= k < 32 -> u32 (Z.shiftl 1 k) = 2 ^ k.
Proof. intros Hk. rewrite Z.shiftl_1_l. apply u32_small. split; [apply Z.pow_nonneg; lia |]. change 4294967296 with (2 ^ 32). apply Z.pow_lt_mono_r; lia. Qed.

Lemma testbit_u32 x n : 0 <= n < 32 -> Z.testbit (u32 x) n = Z.testbit x n.
Proof. intros Hn. unfold u32. change 4294967296 with (2 ^ 32). rewrite Z.mod_pow2_bits_low by lia. done. Qed.

Lemma or_bit v k n : 0 <= k < 32 -> 0 <= n -> Z.testbit (Z.lor v (u32 (Z.shiftl 1 k))) n = (n =? k) || Z.testbit v n.
Proof. intros Hk Hn. rewrite Z.lor_spec, bit1, Z.pow2_bits_eqb by lia. rewrite (Z.eqb_sym k n). apply orb_comm. Qed.

Lemma clear_bit v k n : 0 <= k < 32 -> 0 <= n < 32 -> Z.testbit (Z.land v (u32 (Z.lnot (u32 (Z.shiftl 1 k))))) n = negb (n =? k) && Z.testbit v n.
Proof.
  intros Hk Hn. rewrite Z.land_spec, testbit_u32, Z.lnot_spec, bit1, Z.pow2_bits_eqb by lia. rewrite (Z.eqb_sym k n). apply andb_comm.
Qed.

Lemma byte_bit v j n : 0 <= j -> 0 <= n -> Z.testbit (byte_at v j) n = (n <? 8) && Z.testbit v (n + j * 8).
Proof.
  intros Hj Hn. unfold byte_at. rewrite Z.land_spec, Z.shiftr_spec by lia. change 0xFF with (Z.ones 8). rewrite Z.testbit_ones_nonneg by lia.
  destruct (n <? 8); [by rewrite andb_true_r | by rewrite andb_false_r].
Qed.

Lemma byte_write v p j j' : 0 <= j < 4 -> 0 <= j' < 4 -> 0 <= p < 256 ->
  byte_at (Z.lor (Z.land v (u32 (Z.lnot (u32 (Z.shiftl 0xFF (j * 8)))))) (Z.land (u32 (Z.shiftl p (j * 8))) (u32 (Z.shiftl 0xFF (j * 8))))) j' =
  if j' =? j then p else byte_at v j'.
Proof.
  intros Hj Hj' Hp. apply Z.bits_inj'. intros n Hn. rewrite byte_bit by lia.
  assert (Hp8 : forall m, 8 <= m -> Z.testbit p m = false) by (intros m Hm; apply (testbit_high p 8); lia).
  assert (HF : forall m, 0 <= m < 32 -> Z.testbit (u32 (Z.shiftl 0xFF (j * 8))) m = (j * 8 <=? m) && (m <? j * 8 + 8)).
  { intros m Hm. rewrite testbit_u32, Z.shiftl_spec by lia. change 0xFF with (Z.ones 8). destruct (Z.leb_spec (j * 8) m).
    - rewrite Z.testbit_ones_nonneg by lia. destruct (Z.ltb_spec (m - j * 8) 8), (Z.ltb_spec m (j * 8 + 8)); try lia; done.
    - rewrite Z.testbit_neg_r by lia. done. }
  destruct (Z.ltb_spec n 8) as [Hn8 | Hn8]; cbn [andb].
  2: { destruct (j' =? j); [by rewrite Hp8 by lia |]. rewrite byte_bit by lia. by rewrite (proj2 (Z.ltb_ge n 8)) by lia. }
  assert (Hm : 0 <= n + j' * 8 < 32) by lia. rewrite Z.lor_spec, !Z.land_spec, (testbit_u32 (Z.lnot _)), Z.lnot_spec, HF, testbit_u32, Z.shiftl_spec by lia.
  destruct (Z.eqb_spec j' j) as [-> | Hne].
  - rewrite (proj2 (Z.leb_le _ _)), (proj2 (Z.ltb_lt _ _)) by lia. cbn. rewrite andb_false_r, andb_true_r. cbn. f_equal. lia.
  - rewrite byte_bit, (proj2 (Z.ltb_lt n 8)) by lia. cbn [andb].
    assert (E : (j * 8 <=? n + j' * 8) && (n + j' * 8 <? j * 8 + 8) = false) by (destruct (Z.leb_spec (j * 8) (n + j' * 8)), (Z.ltb_spec (n + j' * 8) (j * 8 + 8)); try done; lia).
    rewrite E. cbn. by rewrite andb_true_r, andb_false_r, orb_false_r.
Qed.

(** ** Lemmas: the wait for pending writes *)

Lemma rwp_loop_spec t deadline fuel : forall k spins,
  (cntfrq t = 0 -> 0 < spins <= Z.of_nat fuel) ->
  (cntfrq t <> 0 -> exists j, (k <= j < k + fuel)%nat /\ (rwp t j = false \/ deadline <= cntpct t j)) ->
  exists m, rwp_loop fuel t k spins deadline = Some m /\ (k <= m)%nat /\ (forall i, (k <= i < m)%nat -> rwp t i = true) /\
    (cntfrq t = 0 -> Z.of_nat m - Z.of_nat k < spins) /\
    (rwp t m = false \/ (cntfrq t <> 0 /\ deadline <= cntpct t m) \/ (cntfrq t = 0 /\ Z.of_nat m - Z.of_nat k + 1 = spins)).
Proof.
  induction fuel as [| fuel IH]; intros k spins Hs Hd; cbn [rwp_loop].
  { exfalso. destruct (decide (cntfrq t = 0)) as [E | E]; [specialize (Hs E); lia | destruct (Hd E) as (? & ? & _); lia]. }
  destruct (rwp t k) eqn:Er. 2: { exists k. split_and!; [done | lia | lia | lia | by left]. }
  assert (Hone : forall m, (forall i, (S k <= i < m)%nat -> rwp t i = true) -> forall i, (k <= i < m)%nat -> rwp t i = true).
  { intros m Hm i Hi. destruct (decide (i = k)) as [-> | ?]; [done | apply Hm; lia]. }
  destruct (Z.eqb_spec (cntfrq t) 0) as [E | E]; cbn [negb].
  - specialize (Hs E). destruct (Z.eqb_spec (spins - 1) 0) as [E1 | E1].
    { exists k. split_and!; [done | lia | lia | lia |]. right. right. split; [done | lia]. }
    destruct (IH (S k) (spins - 1)) as (m & -> & Hm & Hb & Hl & Hr); [intros _; lia | done |]. exists m. split_and!; [done | lia | exact (Hone m Hb) | lia |].
    destruct Hr as [? | [[? ?] | [? ?]]]; [by left | done | right; right; split; [done | lia]].
  - destruct (cntpct t k >=? deadline) eqn:Ec. { exists k. split_and!; [done | lia | lia | done |]. right. left. split; [done | lia]. }
    destruct (Hd E) as (j & Hj & Hjr). destruct (decide (j = k)) as [-> | Hne]. { destruct Hjr; [congruence | lia]. }
    destruct (IH (S k) spins) as (m & -> & Hm & Hb & Hl & Hr); [done | intros _; exists j; split; [lia | done] |]. exists m. split_and!; [done | lia | exact (Hone m Hb) | done |].
    destruct Hr as [? | [? | [? _]]]; [by left | by right; left | done].
Qed.

(** gic_wait_rwp always comes back: with no timer frequency it looks at most
    GIC_RWP_SPINS times, otherwise until the counter has passed twice the frequency, and in
    both cases no later than the hardware takes to clear RWP; it returns at the first look
    at which one of these holds. *)
Theorem gic_wait_rwp_bounded fuel t :
  (cntfrq t = 0 -> GIC_RWP_SPINS <= Z.of_nat fuel) ->
  (cntfrq t <> 0 -> exists j, (j < fuel)%nat /\ (rwp t j = false \/ u64 (cntfrq t + cntfrq t) <= cntpct t j)) ->
  exists m, gic_wait_rwp fuel t = Some m /\ (forall i, (i < m)%nat -> rwp t i = true) /\ (cntfrq t = 0 -> Z.of_nat m < GIC_RWP_SPINS) /\
    (rwp t m = false \/ (cntfrq t <> 0 /\ u64 (cntfrq t + cntfrq t) <= cntpct t m) \/ (cntfrq t = 0 /\ Z.of_nat m + 1 = GIC_RWP_SPINS)).
Proof.
  intros H0 H1. unfold gic_wait_rwp.
  destruct (rwp_loop_spec t (if negb (cntfrq t =? 0) then u64 (cntfrq t + cntfrq t) else 0) fuel 0 GIC_RWP_SPINS) as (m & E & _ & Hb & Hl & Hr).
  - intros E. split; [done | auto].
  - intros E. rewrite (proj2 (Z.eqb_neq _ _) E). destruct (H1 E) as (j & Hj & ?). exists j. split; [lia | done].
  - exists m. split_and!; [done | intros i Hi; apply Hb; lia | intros E0; specialize (Hl E0); lia |].
    destruct Hr as [? | [[Ne ?] | [? ?]]]; [by left | right; left | right; right; split; [done | lia]].
    split; [done |]. by rewrite (proj2 (Z.eqb_neq _ _) Ne) in *.
Qed.

(** The deadline is computed from the frequency, not from the counter: on a machine that has
    run for two seconds the wait gives up at its first look, whatever RWP says. *)
Lemma gic_wait_rwp_gives_up fuel t : rwp t 0 = true -> cntfrq t <> 0 -> u64 (cntfrq t + cntfrq t) <= cntpct t 0 -> gic_wait_rwp (S fuel) t = Some 0%nat.
Proof.
  intros Hr Hf Hc. unfold gic_wait_rwp. cbn [rwp_loop]. rewrite Hr, (proj2 (Z.eqb_neq _ _) Hf). cbn [negb].
  assert (E : cntpct t 0 >=? u64 (cntfrq t + cntfrq t) = true) by lia. by rewrite E.
Qed.

(** The end of a wait in which RWP clears. *)
Lemma rwp_clears fuel t : (exists k, (k < fuel)%nat /\ rwp t k = false) -> rwp_done fuel t = Ret tt.
Proof.
  intros (j & Hj & Er). unfold rwp_done, gic_wait_rwp. generalize (if negb (cntfrq t =? 0) then u64 (cntfrq t + cntfrq t) else 0); intros dl.
  assert (H : forall fuel k spins, (k <= j < k + fuel)%nat -> exists m, rwp_loop fuel t k spins dl = Some m).
  { clear fuel Hj. intros fuel. induction fuel as [| fuel IH]; intros k spins Hk; cbn [rwp_loop]; [lia |].
    destruct (rwp t k) eqn:Ek; [| by eexists]. assert (j <> k) by congruence.
    destruct (negb (cntfrq t =? 0)); [destruct (cntpct t k >=? dl) | destruct (spins - 1 =? 0)]; try (by eexists); apply IH; lia. }
  destruct (H fuel 0%nat GIC_RWP_SPINS) as (m & ->); [lia | done].
Qed.

(** ** Lemmas: the affinity of a CPU *)

Lemma field_bit m a b n : 0 <= a -> 0 <= b -> 0 <= n ->
  Z.testbit (Z.shiftl (Z.land (Z.shiftr m a) 0xff) b) n = (b <=? n) && (n <? b + 8) && Z.testbit m (n - b + a).
Proof.
  intros Ha Hb Hn. rewrite Z.shiftl_spec by done. destruct (Z.leb_spec b n); [| by rewrite Z.testbit_neg_r by lia].
  rewrite Z.land_spec, Z.shiftr_spec by lia. change 0xff with (Z.ones 8). rewrite Z.testbit_ones_nonneg by lia.
  destruct (Z.ltb_spec (n - b) 8), (Z.ltb_spec n (b + 8)); try lia; cbn [andb]; rewrite ?andb_true_r, ?andb_false_r; done.
Qed.

Lemma affinity_bit m n : 0 <= n -> Z.testbit (mpidr_to_affinity m) n = if n <? 24 then Z.testbit m n else (n <? 32) && Z.testbit m (n + 8).
Proof.
  intros Hn. unfold mpidr_to_affinity.
  assert (E : u64 (Z.shiftl (Z.land (Z.shiftr m 32) 0xff) 24) = Z.shiftl (Z.land (Z.shiftr m 32) 0xff) 24).
  { apply u64_small. assert (0 <= Z.land (Z.shiftr m 32) 0xff < 2 ^ 8) by (change 0xff with (Z.ones 8); rewrite Z.land_ones by lia; apply Z.mod_pos_bound; lia).
    rewrite Z.shiftl_mul_pow2 by lia. change (2 ^ 24) with 16777216. lia. }
  rewrite E. replace (Z.land m 0xff) with (Z.shiftl (Z.land (Z.shiftr m 0) 0xff) 0) by (by rewrite Z.shiftl_0_r, Z.shiftr_0_r).
  rewrite !Z.lor_spec, !field_bit by lia.
  destruct (Z.ltb_spec n 24), (Z.leb_spec 24 n); try lia.
  - destruct (Z.leb_spec 16 n), (Z.ltb_spec n (16 + 8)), (Z.leb_spec 8 n), (Z.ltb_spec n (8 + 8)), (Z.leb_spec 0 n), (Z.ltb_spec n (0 + 8)); try lia; cbn [andb orb]; rewrite ?orb_false_r; f_equal; lia.
  - rewrite (proj2 (Z.ltb_ge n (16 + 8))), (proj2 (Z.ltb_ge n (8 + 8))), (proj2 (Z.ltb_ge n (0 + 8))), !andb_false_r by lia. cbn [andb]. rewrite !orb_false_r.
    change (24 + 8) with 32. replace (n - 24 + 32) with (n + 8) by lia. done.
Qed.

Lemma mpidr_bit m n : 0 <= n -> Z.testbit (read_mpidr m) n = ((n <? 24) || (32 <=? n) && (n <? 40)) && Z.testbit m n.
Proof.
  intros Hn. unfold read_mpidr. rewrite Z.land_spec, andb_comm. f_equal.
  replace MPIDR_AFF_MASK with (Z.lor (Z.ones 24) (Z.shiftl (Z.ones 8) 32)) by done.
  rewrite Z.lor_spec, Z.testbit_ones_nonneg, Z.shiftl_spec by lia. destruct (Z.leb_spec 32 n); [| by rewrite Z.testbit_neg_r by lia].
  rewrite Z.testbit_ones_nonneg by lia. cbn [andb]. f_equal. destruct (Z.ltb_spec (n - 32) 8), (Z.ltb_spec n 40); lia || done.
Qed.

(** The packed affinity tells two CPUs apart exactly when their affinities differ. *)
Lemma affinity_inj m m' : mpidr_to_affinity m = mpidr_to_affinity m' <-> read_mpidr m = read_mpidr m'.
Proof.
  split; intros E; apply Z.bits_inj'; intros n Hn.
  - rewrite !mpidr_bit by done. destruct (Z.ltb_spec n 24); cbn [orb andb].
    { pose proof (f_equal (fun x => Z.testbit x n) E) as B. cbv beta in B. rewrite !affinity_bit in B by done. by rewrite (proj2 (Z.ltb_lt n 24)) in B by lia. }
    destruct (Z.leb_spec 32 n); [| done]. destruct (Z.ltb_spec n 40); [| done]. cbn [andb].
    pose proof (f_equal (fun x => Z.testbit x (n - 8)) E) as B. cbv beta in B. rewrite !affinity_bit in B by lia.
    rewrite (proj2 (Z.ltb_ge (n - 8) 24)), (proj2 (Z.ltb_lt (n - 8) 32)) in B by lia. cbn [andb] in B. by replace (n - 8 + 8) with n in B by lia.
  - rewrite !affinity_bit by done. destruct (Z.ltb_spec n 24).
    { pose proof (f_equal (fun x => Z.testbit x n) E) as B. cbv beta in B. rewrite !mpidr_bit in B by done. by rewrite (proj2 (Z.ltb_lt n 24)) in B by lia. }
    destruct (Z.ltb_spec n 32); [| done]. cbn [andb].
    pose proof (f_equal (fun x => Z.testbit x (n + 8)) E) as B. cbv beta in B. rewrite !mpidr_bit in B by lia.
    rewrite (proj2 (Z.ltb_ge (n + 8) 24)), (proj2 (Z.leb_le 32 (n + 8))), (proj2 (Z.ltb_lt (n + 8) 40)) in B by lia. done.
Qed.

(** ** Lemmas: addresses *)

Section proofs.
Context (G : Z) (frames : list Z).

(** The distributor and the frames are apart. *)
Record map_ok : Prop := {
  mo_G : 0 <= G /\ G + 0x10000 <= 2 ^ 64;
  mo_f : forall f, f ∈ frames -> 0 <= f /\ f + 0x20000 <= 2 ^ 64 /\ (f + 0x20000 <= G \/ G + 0x10000 <= f);
  mo_ff : forall f f', f ∈ frames -> f' ∈ frames -> f = f' \/ f + 0x20000 <= f' \/ f' + 0x20000 <= f
}.
Context (Hmap : map_ok).
#[local] Instance hw : Mmio gdev := gdev_mmio G frames.

Lemma frame_reg_in off a : frame_reg frames off a = true <-> exists f, f ∈ frames /\ a = f + off.
Proof.
  unfold frame_reg. rewrite existsb_exists. split; intros (f & Hf & E); exists f; (split; [by apply list_elem_of_In |]); lia.
Qed.

Lemma frame_reg_G off o : 0 <= off < 0x20000 -> 0 <= o < 0x10000 -> frame_reg frames off (G + o) = false.
Proof.
  intros H1 H2. apply not_true_iff_false. intros (f & Hf & E)%frame_reg_in. destruct (mo_f Hmap f Hf) as (_ & _ & ?). lia.
Qed.

Lemma frame_reg_f f off o : f ∈ frames -> 0 <= off < 0x20000 -> 0 <= o < 0x20000 -> frame_reg frames off (f + o) = (o =? off).
Proof.
  intros Hf H1 H2. destruct (Z.eqb_spec o off) as [-> | Hne]; [apply frame_reg_in; by exists f |].
  apply not_true_iff_false. intros (f' & Hf' & E)%frame_reg_in. destruct (mo_ff Hmap f f' Hf Hf'); [subst |]; lia.
Qed.

Lemma within_G l h o : within (G + l) (G + h) (G + o) = within l h o.
Proof. unfold within. destruct (Z.leb_spec (G + l) (G + o)), (Z.leb_spec l o), (Z.ltb_spec (G + o) (G + h)), (Z.ltb_spec o h); try lia; done. Qed.

Lemma within_f f l h o : f ∈ frames -> 0 <= l -> h <= 0x10000 -> 0 <= o < 0x20000 -> within (G + l) (G + h) (f + o) = false.
Proof.
  intros Hf Hl Hh Ho. unfold within. destruct (mo_f Hmap f Hf) as (_ & _ & ?). destruct (Z.leb_spec (G + l) (f + o)), (Z.ltb_spec (f + o) (G + h)); try done; lia.
Qed.

(** The interrupts: shared ones at [G], private ones at the second page of a frame. *)
Definition irq_at (b irq : Z) : Prop :=
  b = G /\ 32 <= irq < 1020 \/ exists f, f ∈ frames /\ b = f + 0x10000 /\ 0 <= irq < 32.

Lemma bases_apart b b' irq irq' o o' : irq_at b irq -> irq_at b' irq' -> 0 <= o < 0x10000 -> 0 <= o' < 0x10000 -> b + o = b' + o' -> b = b' /\ o = o'.
Proof.
  intros [[-> _] | (f & Hf & -> & _)] [[-> _] | (f' & Hf' & -> & _)] Ho Ho' E.
  - lia.
  - destruct (mo_f Hmap f' Hf') as (_ & _ & ?). lia.
  - destruct (mo_f Hmap f Hf) as (_ & _ & ?). lia.
  - destruct (mo_ff Hmap f f' Hf Hf'); lia.
Qed.

Lemma irq_word b irq : irq_at b irq -> 0 <= irq < 1024 /\ 0 <= irq / 32 < 32 /\ 0 <= irq mod 32 < 32 /\ 0 <= irq / 4 < 256 /\ 0 <= irq mod 4 < 4 /\ 0 <= irq / 16 < 64.
Proof. intros [[_ ?] | (_ & _ & _ & ?)]; Z.div_mod_to_equations; lia. Qed.

Lemma within_in l h o : l <= o < h -> within l h o = true.
Proof. intros ?. unfold within. rewrite andb_true_iff, Z.leb_le, Z.ltb_lt. lia. Qed.

Lemma within_out l h o : o < l \/ h <= o -> within l h o = false.
Proof. intros Ho. apply not_true_iff_false. unfold within. rewrite andb_true_iff, Z.leb_le, Z.ltb_lt. lia. Qed.

(** Which registers of an interrupt set or clear bits. *)
Lemma kind_plain b irq o : irq_at b irq -> 0x80 <= o < 0x100 \/ 0x400 <= o < 0x10000 -> sets G frames (b + o) = false /\ clears G frames (b + o) = false.
Proof.
  unfold sets, clears, GICR_ISENABLER0_OFF, GICR_ICENABLER0_OFF, GICR_SGI_OFF. intros [[-> Hi] | (f & Hf & -> & Hi)] Ho.
  - rewrite !within_G, !frame_reg_G, !within_out by lia. done.
  - rewrite <- !(Z.add_assoc f), !within_f, !frame_reg_f by (done || lia). split; cbn; apply Z.eqb_neq; lia.
Qed.

Lemma kind_set b irq : irq_at b irq -> sets G frames (b + (0x100 + 4 * (irq / 32))) = true.
Proof.
  intros Hi. pose proof (irq_word b irq Hi). unfold sets, GICR_ISENABLER0_OFF, GICR_SGI_OFF. destruct Hi as [[-> Hi] | (f & Hf & -> & Hi)].
  - rewrite within_G, within_in by lia. done.
  - replace (irq / 32) with 0 by (Z.div_mod_to_equations; lia). rewrite <- !(Z.add_assoc f), within_f, frame_reg_f by (done || lia). done.
Qed.

Lemma kind_clear b irq : irq_at b irq -> sets G frames (b + (0x180 + 4 * (irq / 32))) = false /\ clears G frames (b + (0x180 + 4 * (irq / 32))) = true.
Proof.
  intros Hi. pose proof (irq_word b irq Hi). unfold sets, clears, GICR_ISENABLER0_OFF, GICR_ICENABLER0_OFF, GICR_SGI_OFF. destruct Hi as [[-> Hi] | (f & Hf & -> & Hi)].
  - rewrite !within_G, frame_reg_G, (within_out 0x100), (within_in 0x180) by lia. done.
  - replace (irq / 32) with 0 by (Z.div_mod_to_equations; lia). rewrite <- !(Z.add_assoc f), !within_f, !frame_reg_f by (done || lia). done.
Qed.

Lemma kind_waker b irq o : irq_at b irq -> 0x80 <= o < 0x10000 -> frame_reg frames GICR_WAKER_OFF (b + o) = false.
Proof.
  unfold GICR_WAKER_OFF. intros [[-> Hi] | (f & Hf & -> & Hi)] Ho; [apply frame_reg_G; lia |].
  rewrite <- (Z.add_assoc f), frame_reg_f by (done || lia). apply Z.eqb_neq. lia.
Qed.

(** ** Lemmas: one register written, the interrupts seen *)

Lemma set_reg_at d b b' irq irq' o o' v : irq_at b irq -> irq_at b' irq' -> 0 <= o < 0x10000 -> 0 <= o' < 0x10000 ->
  regs (set_reg d (b + o) v) (b' + o') = if bool_decide (b' = b /\ o' = o) then v else regs d (b' + o').
Proof.
  intros Hi Hi' Ho Ho'. unfold set_reg. cbn. case_bool_decide as E.
  - destruct E as [-> ->]. by rewrite upd_eq.
  - apply upd_ne. intros E'. apply E. destruct (bases_apart b' b irq' irq o' o); auto.
Qed.

(** The attributes of the interrupts after one register is written. *)
Ltac attr_word Hi Hi' :=
  pose proof (irq_word _ _ Hi'); unfold attr, set_group, set_enabled, set_active, set_prio, set_edge, set_route;
  rewrite !(set_reg_at _ _ _ _ _ _ _ _ Hi Hi') by lia; cbn [a_group a_enabled a_active a_prio a_edge a_route];
  repeat case_bool_decide; solve [reflexivity | exfalso; lia].

Section one.
Context (d : gdev) (b irq b' irq' : Z) (Hi : irq_at b irq) (Hi' : irq_at b' irq') (v w : Z).

Lemma attr_low o : 0 <= o < 0x80 -> attr (set_reg d (b + o) v) b' irq' = attr d b' irq'.
Proof using Hi Hi' Hmap. intros Ho. attr_word Hi Hi'. Qed.

Lemma attr_group : 0 <= w < 32 ->
  attr (set_reg d (b + (0x80 + 4 * w)) v) b' irq' = if bool_decide (b' = b /\ irq' / 32 = w) then set_group (Z.testbit v (irq' mod 32)) (attr d b' irq') else attr d b' irq'.
Proof using Hi Hi' Hmap. intros Hw. attr_word Hi Hi'. Qed.

Lemma attr_enabled : 0 <= w < 32 ->
  attr (set_reg d (b + (0x100 + 4 * w)) v) b' irq' = if bool_decide (b' = b /\ irq' / 32 = w) then set_enabled (Z.testbit v (irq' mod 32)) (attr d b' irq') else attr d b' irq'.
Proof using Hi Hi' Hmap. intros Hw. attr_word Hi Hi'. Qed.

Lemma attr_active : 0 <= w < 32 ->
  attr (set_reg d (b + (0x300 + 4 * w)) v) b' irq' = if bool_decide (b' = b /\ irq' / 32 = w) then set_active (Z.testbit v (irq' mod 32)) (attr d b' irq') else attr d b' irq'.
Proof using Hi Hi' Hmap. intros Hw. attr_word Hi Hi'. Qed.

Lemma attr_prio : 0 <= w < 256 ->
  attr (set_reg d (b + (0x400 + 4 * w)) v) b' irq' = if bool_decide (b' = b /\ irq' / 4 = w) then set_prio (byte_at v (irq' mod 4)) (attr d b' irq') else attr d b' irq'.
Proof using Hi Hi' Hmap. intros Hw. attr_word Hi Hi'. Qed.

Lemma attr_edge : 0 <= w < 64 ->
  attr (set_reg d (b + (0xC00 + 4 * w)) v) b' irq' = if bool_decide (b' = b /\ irq' / 16 = w) then set_edge (Z.testbit v (irq' mod 16 * 2 + 1)) (attr d b' irq') else attr d b' irq'.
Proof using Hi Hi' Hmap. intros Hw. attr_word Hi Hi'. Qed.

Lemma attr_route : 0 <= w < 1024 ->
  attr (set_reg d (b + (0x6000 + 8 * w)) v) b' irq' = if bool_decide (b' = b /\ irq' = w) then set_route v (attr d b' irq') else attr d b' irq'.
Proof using Hi Hi' Hmap. intros Hw. attr_word Hi Hi'. Qed.
End one.

(** ** Lemmas: the operations on one interrupt *)

(** The driver on CPU [c] reaches the registers of [irq]. *)
Definition reaches (st : gic gdev) (c irq : Z) : Prop := gicd st = G /\ irq_at (base_of G st c irq) irq.

(** A register of the interrupt, at offset [o] of the distributor or [0x10000 + o] of the frame. *)
Lemma reach_spi st c irq o : reaches st c irq -> irq >=? GIC_SPI_BASE = true -> 0 <= o < 0x10000 -> u64 (gicd st + o) = base_of G st c irq + o.
Proof. intros [-> Hi] E Ho. unfold base_of. rewrite E. apply u64_small. pose proof (mo_G Hmap). lia. Qed.

Lemma reach_ppi st c irq o : reaches st c irq -> irq >=? GIC_SPI_BASE = false -> 0 <= o < 0x10000 ->
  u64 (gicr_frame st c + (0x10000 + o)) = base_of G st c irq + o /\ 0 <= irq < 32.
Proof.
  unfold reaches, base_of, GICR_SGI_OFF. intros [_ Hi] E Ho. rewrite E in *. destruct Hi as [[_ Hi] | (f & Hf & Ef & Hi)].
  { exfalso. unfold GIC_SPI_BASE in E. lia. }
  replace (gicr_frame st c) with f by lia. destruct (mo_f Hmap f Hf) as (? & ? & _). split; [| done]. rewrite u64_small by lia. lia.
Qed.

Lemma enable_dev st c irq : reaches st c irq -> let a := base_of G st c irq + (0x100 + 4 * (irq / 32)) in
  gic_irq_enable st c irq = with_dev st (set_reg (dev st) a (Z.lor (regs (dev st) a) (u32 (Z.shiftl 1 (irq mod 32))))).
Proof.
  intros Hr a. pose proof (irq_word _ _ (proj2 Hr)) as Hw. pose proof (kind_set _ _ (proj2 Hr)) as Hs. unfold gic_irq_enable, gicd_write32, GICD_ISENABLER, gicr_base.
  destruct (irq >=? GIC_SPI_BASE) eqn:E.
  - rewrite (reach_spi st c irq _ Hr E) by lia. cbn. unfold gdev_write. by rewrite Hs.
  - destruct (reach_ppi st c irq 0x100 Hr E) as [Ea Hi]; [lia |]. change GICR_ISENABLER0_OFF with (0x10000 + 0x100). rewrite Ea.
    assert (E0 : irq / 32 = 0) by (Z.div_mod_to_equations; lia). subst a. rewrite E0 in *. rewrite (Z.mod_small irq 32) by lia. change (0x100 + 4 * 0) with 0x100 in *.
    cbn. unfold gdev_write. by rewrite Hs.
Qed.

Lemma disable_dev st c irq : reaches st c irq -> let a := base_of G st c irq + (0x100 + 4 * (irq / 32)) in
  gic_irq_disable st c irq = with_dev st (set_reg (dev st) a (Z.land (regs (dev st) a) (u32 (Z.lnot (u32 (Z.shiftl 1 (irq mod 32))))))).
Proof.
  intros Hr a. pose proof (irq_word _ _ (proj2 Hr)) as Hw. pose proof (kind_clear _ _ (proj2 Hr)) as [Hs Hc].
  replace a with (base_of G st c irq + (0x180 + 4 * (irq / 32)) - 0x80) by (subst a; lia). unfold gic_irq_disable, gicd_write32, GICD_ICENABLER, gicr_base.
  destruct (irq >=? GIC_SPI_BASE) eqn:E.
  - rewrite (reach_spi st c irq _ Hr E) by lia. cbn. unfold gdev_write. by rewrite Hs, Hc.
  - destruct (reach_ppi st c irq 0x180 Hr E) as [Ea Hi]; [lia |]. change GICR_ICENABLER0_OFF with (0x10000 + 0x180). rewrite Ea.
    assert (E0 : irq / 32 = 0) by (Z.div_mod_to_equations; lia). rewrite E0 in *. rewrite (Z.mod_small irq 32) by lia. change (0x180 + 4 * 0) with 0x180 in *.
    cbn. unfold gdev_write. by rewrite Hs, Hc.
Qed.

(** A plain register of an interrupt is read and written back. *)
Lemma plain_rw b irq o (d : gdev) v : irq_at b irq -> 0x80 <= o < 0x100 \/ 0x400 <= o < 0x10000 ->
  gdev_read G frames d (b + o) = (d, regs d (b + o)) /\ gdev_write G frames d (b + o) v = set_reg d (b + o) v.
Proof.
  intros Hi Ho. destruct (kind_plain b irq o Hi Ho) as [Hs Hc]. unfold gdev_read, gdev_write. rewrite (kind_waker b irq o Hi) by lia. by rewrite Hs, Hc.
Qed.

Lemma group_dev st c irq g : reaches st c irq -> let a := base_of G st c irq + (0x80 + 4 * (irq / 32)) in
  gic_irq_set_group st c irq g = with_dev st (set_reg (dev st) a
    (if negb (g =? 0) then Z.lor (regs (dev st) a) (u32 (Z.shiftl 1 (irq mod 32))) else Z.land (regs (dev st) a) (u32 (Z.lnot (u32 (Z.shiftl 1 (irq mod 32))))))).
Proof.
  intros Hr a. pose proof (irq_word _ _ (proj2 Hr)) as Hw. unfold gic_irq_set_group, GICD_IGROUPR, gicr_base.
  assert (E : (if irq >=? GIC_SPI_BASE then (u64 (gicd st + (0x080 + 4 * (irq / 32))), u32 (Z.shiftl 1 (irq mod 32)))
               else (u64 (gicr_frame st c + GICR_IGROUPR0_OFF), u32 (Z.shiftl 1 irq))) = (a, u32 (Z.shiftl 1 (irq mod 32)))).
  { destruct (irq >=? GIC_SPI_BASE) eqn:E; [by rewrite (reach_spi st c irq _ Hr E) by lia |].
    destruct (reach_ppi st c irq 0x80 Hr E) as [Ea Hi]; [lia |]. change GICR_IGROUPR0_OFF with (0x10000 + 0x80). rewrite Ea, (Z.mod_small irq 32) by lia.
    f_equal. subst a. Z.div_mod_to_equations. lia. }
  rewrite E. unfold mmio_setbits32, mmio_clrbits32. cbn [mmio_read32 mmio_write32 hw gdev_mmio]. subst a.
  rewrite (proj1 (plain_rw _ irq (0x80 + 4 * (irq / 32)) (dev st) 0 (proj2 Hr) ltac:(lia))). cbn [fst snd].
  destruct (negb (g =? 0)); by rewrite (proj2 (plain_rw _ irq (0x80 + 4 * (irq / 32)) (dev st) _ (proj2 Hr) ltac:(lia))).
Qed.

Lemma priority_dev st c irq p : reaches st c irq -> let a := base_of G st c irq + (0x400 + 4 * (irq / 4)) in let s := irq mod 4 * 8 in
  gic_irq_set_priority st c irq p = with_dev st (set_reg (dev st) a
    (Z.lor (Z.land (regs (dev st) a) (u32 (Z.lnot (u32 (Z.shiftl 0xFF s))))) (Z.land (u32 (Z.shiftl p s)) (u32 (Z.shiftl 0xFF s))))).
Proof.
  intros Hr a s. pose proof (irq_word _ _ (proj2 Hr)) as Hw. unfold gic_irq_set_priority, GICD_IPRIORITYR, gicr_base, GICR_IPRIORITYR_OFF.
  assert (E : (if irq >=? GIC_SPI_BASE then u64 (gicd st + (0x400 + 4 * (irq / 4))) else u64 (gicr_frame st c + (GICR_SGI_OFF + 0x400 + 4 * (irq / 4)))) = a).
  { destruct (irq >=? GIC_SPI_BASE) eqn:E; [by rewrite (reach_spi st c irq _ Hr E) by lia |].
    unfold GICR_SGI_OFF. rewrite <- (Z.add_assoc 0x10000). by rewrite (proj1 (reach_ppi st c irq (0x400 + 4 * (irq / 4)) Hr E ltac:(lia))). }
  rewrite E. unfold mmio_clrsetbits32. cbn [mmio_read32 mmio_write32 hw gdev_mmio]. subst a s.
  rewrite (proj1 (plain_rw _ irq (0x400 + 4 * (irq / 4)) (dev st) 0 (proj2 Hr) ltac:(lia))). cbn [fst snd].
  by rewrite (proj2 (plain_rw _ irq (0x400 + 4 * (irq / 4)) (dev st) _ (proj2 Hr) ltac:(lia))).
Qed.

Lemma affinity_dev st irq aff : gicd st = G -> 32 <= irq < 1020 ->
  gic_irq_set_affinity st irq aff = with_dev st (if affinity_on G (dev st) then set_reg (dev st) (G + (0x6000 + 8 * irq)) aff else dev st).
Proof.
  intros HG Hi. unfold gic_irq_set_affinity, gicd_write64, GICD_IROUTER, GIC_SPI_BASE. rewrite (proj2 (Z.ltb_ge irq 32)) by lia.
  cbn [mmio_write64 hw gdev_mmio]. pose proof (mo_G Hmap). rewrite HG, u64_small by lia. unfold gdev_write64, GICD_IROUTER, GICD_SPI_MAX.
  rewrite within_G, within_in by lia. by destruct (affinity_on G (dev st)).
Qed.

(** The bit of an interrupt in a word of 32, its byte in a word of four. *)
Lemma same_irq_bit irq irq' : irq' / 32 = irq / 32 -> (irq' mod 32 =? irq mod 32) = bool_decide (irq' = irq).
Proof. intros E. case_bool_decide as H; [subst; apply Z.eqb_refl | apply Z.eqb_neq; intros E'; apply H; Z.div_mod_to_equations; lia]. Qed.

Lemma same_byte irq irq' : irq' / 4 = irq / 4 -> (irq' mod 4 =? irq mod 4) = bool_decide (irq' = irq).
Proof. intros E. case_bool_decide as H; [subst; apply Z.eqb_refl | apply Z.eqb_neq; intros E'; apply H; Z.div_mod_to_equations; lia]. Qed.

(** What each operation does to the interrupts the driver sees. *)
Section ops.
Context (st : gic gdev) (c irq b' irq' : Z) (Hr : reaches st c irq) (Hi' : irq_at b' irq').
#[local] Abbreviation here := (bool_decide (b' = base_of G st c irq /\ irq' = irq)).

Ltac one_bit Hbit :=
  pose proof (irq_word _ _ (proj2 Hr)); pose proof (irq_word _ _ Hi');
  let E := fresh "E" in let E' := fresh "E'" in let Ew := fresh "Ew" in
  case_bool_decide as E; [destruct E as [-> Ew] |]; case_bool_decide as E';
  [ rewrite Hbit, ?same_irq_bit, ?same_byte, bool_decide_eq_true_2 by (tauto || lia); done
  | rewrite Hbit, ?same_irq_bit, ?same_byte, bool_decide_eq_false_2 by (tauto || lia);
    unfold set_enabled, set_group, set_prio, attr, id; cbn [a_group a_enabled a_active a_prio a_edge a_route]; by rewrite Ew
  | exfalso; destruct E'; subst; auto
  | done ].

Ltac by_reach := first [apply Hr | done | apply (irq_word _ _ (proj2 Hr))].

Lemma enable_attr : attr (dev (gic_irq_enable st c irq)) b' irq' = (if here then set_enabled true else id) (attr (dev st) b' irq').
Proof using Hr Hi' Hmap. rewrite enable_dev by done. cbn [dev with_dev]. rewrite (attr_enabled _ _ irq) by by_reach. one_bit or_bit. Qed.

Lemma disable_attr : attr (dev (gic_irq_disable st c irq)) b' irq' = (if here then set_enabled false else id) (attr (dev st) b' irq').
Proof using Hr Hi' Hmap. rewrite disable_dev by done. cbn [dev with_dev]. rewrite (attr_enabled _ _ irq) by by_reach. one_bit clear_bit. Qed.

Lemma group_attr g : attr (dev (gic_irq_set_group st c irq g)) b' irq' = (if here then set_group (negb (g =? 0)) else id) (attr (dev st) b' irq').
Proof using Hr Hi' Hmap.
  rewrite group_dev by done. cbn [dev with_dev]. rewrite (attr_group _ _ irq) by by_reach.
  destruct (negb (g =? 0)); [one_bit or_bit | one_bit clear_bit].
Qed.

Lemma priority_attr p : 0 <= p < 256 -> attr (dev (gic_irq_set_priority st c irq p)) b' irq' = (if here then set_prio p else id) (attr (dev st) b' irq').
Proof using Hr Hi' Hmap. intros Hp. rewrite priority_dev by done. cbn [dev with_dev]. rewrite (attr_prio _ _ irq) by by_reach. one_bit byte_write. Qed.
End ops.

Lemma affinity_attr st irq aff b' irq' : gicd st = G -> 32 <= irq < 1020 -> irq_at b' irq' ->
  attr (dev (gic_irq_set_affinity st irq aff)) b' irq' = (if bool_decide (b' = G /\ irq' = irq) && affinity_on G (dev st) then set_route aff else id) (attr (dev st) b' irq').
Proof.
  intros HG Hi Hi'. rewrite affinity_dev by done. cbn [dev with_dev]. destruct (affinity_on G (dev st)); [| by rewrite andb_false_r]. rewrite andb_true_r,  (attr_route _ G irq) by (done || lia || (left; done)). by case_bool_decide.
Qed.

(** gic_irq_enable, gic_irq_disable, gic_irq_set_group, gic_irq_set_priority and
    gic_irq_set_affinity change the attribute they name of the interrupt they name, a shared
    one in the distributor or a private one in the calling CPU's frame, and leave every
    attribute (group, enable, active, priority, trigger, route) of every other interrupt of
    the distributor and of all CPUs' frames as it was, though the registers pack 32 or four
    of them in a word. A route takes only while affinity routing is on. *)
Theorem irq_ops_touch_one_interrupt st c irq b' irq' : reaches st c irq -> irq_at b' irq' ->
  let was := attr (dev st) b' irq' in
  let here := bool_decide (b' = base_of G st c irq /\ irq' = irq) in
  attr (dev (gic_irq_enable st c irq)) b' irq' = (if here then set_enabled true was else was) /\
  attr (dev (gic_irq_disable st c irq)) b' irq' = (if here then set_enabled false was else was) /\
  (forall g, attr (dev (gic_irq_set_group st c irq g)) b' irq' = if here then set_group (negb (g =? 0)) was else was) /\
  (forall p, 0 <= p < 256 -> attr (dev (gic_irq_set_priority st c irq p)) b' irq' = if here then set_prio p was else was) /\
  (forall aff, attr (dev (gic_irq_set_affinity st irq aff)) b' irq' = if here && (32 <=? irq) && affinity_on G (dev st) then set_route aff was else was).
Proof.
  intros Hr Hi' was here. rewrite enable_attr, disable_attr by done. subst was here. split_and!; [by case_bool_decide | by case_bool_decide | | |].
  - intros g. rewrite group_attr by done. by case_bool_decide.
  - intros p Hp. rewrite priority_attr by done. by case_bool_decide.
  - intros aff. destruct (Z.leb_spec 32 irq) as [H32 | H32].
    + pose proof Hr as [HG Hi]. unfold base_of, GIC_SPI_BASE in *. assert (E : irq >=? 32 = true) by lia. rewrite E in *.
      rewrite affinity_attr; [rewrite andb_true_r; by destruct (bool_decide _ && _) | done | | done]. destruct Hi as [[_ ?] | (_ & _ & _ & ?)]; lia.
    + unfold gic_irq_set_affinity, GIC_SPI_BASE. rewrite (proj2 (Z.ltb_lt irq 32)) by lia. by rewrite andb_false_r.
Qed.

(** ** Lemmas: gic_init *)

(** Registers below the interrupts' ones, and outside the distributor, are kept. *)
Definition outside (d d' : gdev) : Prop := asleep d' = asleep d /\ forall a, a < G + 0x80 \/ G + 0x10000 <= a -> regs d' a = regs d a.

Lemma outside_trans d1 d2 d3 : outside d1 d2 -> outside d2 d3 -> outside d1 d3.
Proof. intros [E1 H1] [E2 H2]. split; [congruence |]. intros a Ha. by rewrite H2, H1. Qed.

Lemma outside_set d o v : 0x80 <= o < 0x10000 -> outside d (set_reg d (G + o) v).
Proof. intros Ho. split; [done |]. intros a Ha. cbn. apply upd_ne. lia. Qed.

Lemma spi_at : irq_at G 32.
Proof. left. lia. Qed.

(** The shared interrupts for which [here] holds change by [F]. *)
Definition spis_by (F : attrs -> attrs) (here : Z -> Prop) `{forall i, Decision (here i)} (d d' : gdev) : Prop :=
  forall b' irq', irq_at b' irq' -> attr d' b' irq' = (if bool_decide (b' = G /\ here irq') then F else id) (attr d b' irq').

Lemma for_step_inv (P : Z -> gic gdev -> Prop) step n (body : gic gdev -> Z -> gic gdev) fuel : forall i st,
  0 < step -> n + step <= 2 ^ 32 -> 0 <= i -> n <= i + Z.of_nat fuel -> P i st -> (forall j s, i <= j < n -> P j s -> P (j + step) (body s j)) ->
  exists j, n <= j /\ P j (for_step fuel st i step n body).
Proof.
  induction fuel as [| fuel IH]; intros i st Hs Hn Hi Hf HP Hb; cbn [for_step].
  - exists i. split; [lia | done].
  - destruct (Z.ltb_spec i n); [| exists i; split; [lia | done]].
    rewrite u32_small by lia. apply IH; try lia; [by apply Hb; [lia |] |]. intros j s Hj. apply Hb. lia.
Qed.

Lemma spis_loop step (body : gic gdev -> Z -> gic gdev) F st : 0 < step -> (step | 32) -> gicd st = G -> 32 <= gic_nirq st <= 1020 ->
  (forall s j, gicd s = G -> regs (dev s) (G + 0) = regs (dev st) (G + 0) -> 32 <= j < 1020 -> (step | j) ->
     exists d', body s j = with_dev s d' /\ outside (dev s) d' /\ spis_by F (fun irq => irq / step = j / step) (dev s) d') ->
  exists d' hi, spis st step body = with_dev st d' /\ outside (dev st) d' /\ gic_nirq st <= hi /\ spis_by F (fun irq => irq < hi) (dev st) d'.
Proof.
  intros Hs Hd HG Hn Hb. unfold spis.
  destruct (for_step_inv (fun j s => 32 <= j /\ (step | j) /\ exists d', s = with_dev st d' /\ outside (dev st) d' /\ spis_by F (fun irq => irq < j) (dev st) d')
    step (gic_nirq st) body (Z.to_nat (gic_nirq st)) GIC_SPI_BASE st) as (hi & Hhi & _ & _ & d' & E & Ho & Ha).
  - done.
  - apply Z.divide_pos_le in Hd; lia.
  - unfold GIC_SPI_BASE. lia.
  - unfold GIC_SPI_BASE. lia.
  - unfold GIC_SPI_BASE. split_and!; [lia | done |]. exists (dev st). split_and!; [by destruct st | done |].
    intros b' irq' Hi'. rewrite bool_decide_eq_false_2; [done |]. intros [-> Hlt]. destruct Hi' as [? | (f & Hf & Ef & _)]; [lia |]. destruct (mo_f Hmap f Hf) as (_ & _ & ?). lia.
  - intros j s Hj (Hj32 & Hdj & d & -> & Ho & Ha). destruct (Hb (with_dev st d) j) as (d' & -> & Ho' & Ha'); [done | apply Ho; lia | unfold GIC_SPI_BASE in *; lia | done |].
    split_and!; [lia | apply Z.divide_add_r; [done | apply Z.divide_refl] |]. exists d'. split_and!; [done | by eapply outside_trans |].
    intros b' irq' Hi'. rewrite Ha' by done. cbn [dev with_dev]. rewrite Ha by done. destruct Hdj as [q ->]. rewrite Z.div_mul by lia.
    assert (Hq : irq' / step = q <-> q * step <= irq' < q * step + step) by (split; intros; Z.div_mod_to_equations; nia).
    repeat case_bool_decide; cbn [id]; try done; exfalso; rewrite Hq in *; lia.
  - exists d', hi. split_and!; done.
Qed.

Lemma gaddr o : 0 <= o < 0x10000 -> u64 (G + o) = G + o.
Proof. intros Ho. apply u64_small. pose proof (mo_G Hmap). lia. Qed.

Lemma ones_bit i n : 0 <= i < 32 -> n = i -> Z.testbit 0xFFFFFFFF n = true.
Proof. intros Hi ->. change 0xFFFFFFFF with (Z.ones 32). rewrite Z.testbit_ones_nonneg by lia. lia. Qed.

(** Writing ones to a clear register of the distributor zeroes the word it clears. *)
Lemma clear_word s o : gicd s = G -> 0x180 <= o < 0x200 \/ 0x380 <= o < 0x400 ->
  gicd_write32 s o 0xFFFFFFFF = with_dev s (set_reg (dev s) (G + (o - 0x80)) 0).
Proof.
  intros HG Ho. unfold gicd_write32. rewrite HG, gaddr by lia. cbn [mmio_write32 hw gdev_mmio]. unfold gdev_write, sets, clears, GICR_ISENABLER0_OFF, GICR_ICENABLER0_OFF, GICR_SGI_OFF.
  rewrite !within_G, !frame_reg_G, (within_out 0x100 0x180) by lia.
  replace (within 0x180 0x200 o || within 0x380 0x400 o) with true by (destruct Ho as [Ho | Ho]; rewrite (within_in _ _ o Ho); by rewrite ?orb_true_r).
  cbn [orb]. change (u32 (Z.lnot 0xFFFFFFFF)) with 0. rewrite Z.land_0_r. do 2 f_equal. lia.
Qed.

(** A plain register of the distributor. *)
Lemma plain_word s o v : gicd s = G -> 0 <= o < 0x100 \/ 0x400 <= o < 0x10000 -> gicd_write32 s o v = with_dev s (set_reg (dev s) (G + o) v).
Proof.
  intros HG Ho. unfold gicd_write32. rewrite HG, gaddr by lia. cbn [mmio_write32 hw gdev_mmio]. unfold gdev_write, sets, clears, GICR_ISENABLER0_OFF, GICR_ICENABLER0_OFF, GICR_SGI_OFF.
  rewrite !within_G, !frame_reg_G, !within_out by lia. done.
Qed.

Lemma init_group s j : gicd s = G -> 32 <= j < 1020 -> (32 | j) -> exists d',
  gicd_write32 (gicd_write32 (gicd_write32 s (GICD_IGROUPR (Z.shiftr j 5)) 0xFFFFFFFF) (GICD_ICENABLER (Z.shiftr j 5)) 0xFFFFFFFF) (GICD_ICACTIVER (Z.shiftr j 5)) 0xFFFFFFFF = with_dev s d' /\
  outside (dev s) d' /\ spis_by (fun a => set_active false (set_enabled false (set_group true a))) (fun irq => irq / 32 = j / 32) (dev s) d'.
Proof.
  intros HG Hj _. rewrite Z.shiftr_div_pow2 by lia. change (2 ^ 5) with 32. assert (Hw : 0 <= j / 32 < 32) by (Z.div_mod_to_equations; lia).
  unfold GICD_IGROUPR, GICD_ICENABLER, GICD_ICACTIVER. rewrite (plain_word s), clear_word, clear_word by (done || cbn; lia). cbn [with_dev dev gicd gic_nirq gicr_stride gicr_frame iccs].
  replace (0x180 + 4 * (j / 32) - 0x80) with (0x100 + 4 * (j / 32)) by lia. replace (0x380 + 4 * (j / 32) - 0x80) with (0x300 + 4 * (j / 32)) by lia.
  eexists. split; [reflexivity |]. split.
  - eapply outside_trans; [| apply outside_set; lia]. eapply outside_trans; apply outside_set; lia.
  - intros b' irq' Hi'. pose proof (irq_word _ _ Hi') as Hw'.
    rewrite (attr_active _ G 32 b' irq' spi_at Hi'), (attr_enabled _ G 32 b' irq' spi_at Hi'), (attr_group _ G 32 b' irq' spi_at Hi') by done.
    case_bool_decide; [| done]. rewrite Z.testbit_0_l, (ones_bit (irq' mod 32)) by (done || lia). done.
Qed.

Lemma init_edge s j : gicd s = G -> 32 <= j < 1020 -> (16 | j) -> exists d',
  gicd_write32 s (GICD_ICFGR (Z.shiftr j 4)) 0 = with_dev s d' /\ outside (dev s) d' /\ spis_by (set_edge false) (fun irq => irq / 16 = j / 16) (dev s) d'.
Proof.
  intros HG Hj _. rewrite Z.shiftr_div_pow2 by lia. change (2 ^ 4) with 16. assert (Hw : 0 <= j / 16 < 64) by (Z.div_mod_to_equations; lia).
  unfold GICD_ICFGR. rewrite plain_word by (done || lia). eexists. split; [reflexivity |]. split; [apply outside_set; lia |].
  intros b' irq' Hi'. rewrite (attr_edge _ G 32 b' irq' spi_at Hi') by done. case_bool_decide; [by rewrite Z.testbit_0_l | done].
Qed.

Lemma init_prio s j : gicd s = G -> 32 <= j < 1020 -> (4 | j) -> exists d',
  gicd_write32 s (GICD_IPRIORITYR (Z.shiftr j 2)) 0x80808080 = with_dev s d' /\ outside (dev s) d' /\ spis_by (set_prio 0x80) (fun irq => irq / 4 = j / 4) (dev s) d'.
Proof.
  intros HG Hj _. rewrite Z.shiftr_div_pow2 by lia. change (2 ^ 2) with 4. assert (Hw : 0 <= j / 4 < 256) by (Z.div_mod_to_equations; lia).
  unfold GICD_IPRIORITYR. rewrite plain_word by (done || lia). eexists. split; [reflexivity |]. split; [apply outside_set; lia |].
  intros b' irq' Hi'. rewrite (attr_prio _ G 32 b' irq' spi_at Hi') by done. case_bool_decide; [| done]. f_equal.
  pose proof (irq_word _ _ Hi') as (_ & _ & _ & _ & Hm & _). unfold byte_at. assert (irq' mod 4 = 0 \/ irq' mod 4 = 1 \/ irq' mod 4 = 2 \/ irq' mod 4 = 3) as [-> | [-> | [-> | ->]]] by lia; done.
Qed.

Lemma init_route s j aff : gicd s = G -> affinity_on G (dev s) = true -> 32 <= j < 1020 -> (1 | j) -> exists d',
  gic_irq_set_affinity s j aff = with_dev s d' /\ outside (dev s) d' /\ spis_by (set_route aff) (fun irq => irq / 1 = j / 1) (dev s) d'.
Proof.
  intros HG Hare Hj _. rewrite affinity_dev, Hare by done. eexists. split; [reflexivity |]. split; [apply outside_set; lia |].
  intros b' irq' Hi'. rewrite (attr_route _ G 32 b' irq' spi_at Hi') by lia. rewrite !Z.div_1_r. by case_bool_decide.
Qed.

Lemma read_word s o : gicd s = G -> 0 <= o < 0x100 \/ 0x400 <= o < 0x10000 -> gicd_read32 s o = (s, regs (dev s) (G + o)).
Proof.
  intros HG Ho. unfold gicd_read32. rewrite HG, gaddr by lia. cbn [mmio_read32 hw gdev_mmio]. unfold gdev_read, clears, GICR_WAKER_OFF, GICR_ICENABLER0_OFF, GICR_SGI_OFF.
  rewrite !within_G, !frame_reg_G, !within_out by lia. by destruct s.
Qed.

(** The number of interrupts the distributor implements. *)
Definition implemented (typer : Z) : Z := Z.min (32 * (Z.land typer 0x1f + 1)) 1020.

Lemma implemented_range t : 32 <= implemented t <= 1020.
Proof. unfold implemented. assert (0 <= Z.land t 0x1f) by (apply Z.land_nonneg; lia). lia. Qed.

Lemma typer_nirq s : gicd s = G -> gic_typer_nirq s = (s, implemented (regs (dev s) (G + 4))).
Proof.
  intros HG. unfold gic_typer_nirq, GICD_TYPER, GICD_TYPER_ITLINES_MASK, GICD_SPI_MAX, implemented. rewrite read_word by (done || lia). f_equal.
  assert (Hb : 0 <= Z.land (regs (dev s) (G + 4)) 0x1f < 2 ^ 5) by (change 0x1f with (Z.ones 5); rewrite Z.land_ones by lia; apply Z.mod_pos_bound; lia). rewrite u32_small by lia.
  destruct (32 * (Z.land (regs (dev s) (G + 4)) 0x1f + 1) >? 1020) eqn:E; lia.
Qed.

(** The implemented shared interrupts change by [F]; the private ones and everything outside
    the distributor are kept. *)
Record spis_set (n : Z) (F : attrs -> attrs) (d d' : gdev) : Prop := {
  ss_spi : forall irq, 32 <= irq < n -> attr d' G irq = F (attr d G irq);
  ss_ppi : forall f irq, f ∈ frames -> 0 <= irq < 32 -> attr d' (f + 0x10000) irq = attr d (f + 0x10000) irq;
  ss_out : forall a, a < G \/ G + 0x10000 <= a -> regs d' a = regs d a
}.

Lemma spis_set_trans n F1 F2 d1 d2 d3 : spis_set n F1 d1 d2 -> spis_set n F2 d2 d3 -> spis_set n (fun a => F2 (F1 a)) d1 d3.
Proof.
  intros H1 H2. constructor.
  - intros irq Hi. by rewrite (ss_spi _ _ _ _ H2), (ss_spi _ _ _ _ H1).
  - intros f irq Hf Hi. by rewrite (ss_ppi _ _ _ _ H2), (ss_ppi _ _ _ _ H1).
  - intros a Ha. by rewrite (ss_out _ _ _ _ H2), (ss_out _ _ _ _ H1).
Qed.

Lemma frame_not_G f : f ∈ frames -> f + 0x10000 <> G.
Proof. intros Hf. destruct (mo_f Hmap f Hf) as (_ & _ & ?). lia. Qed.

Lemma ctlr_set n d v : n <= 1020 -> spis_set n id d (set_reg d (G + 0) v).
Proof.
  intros Hn. constructor.
  - intros irq Hi. apply (attr_low _ G 32); [apply spi_at | left; lia | lia].
  - intros f irq Hf Hi. apply (attr_low _ G 32); [apply spi_at | right; by exists f | lia].
  - intros a Ha. cbn. apply upd_ne. lia.
Qed.

Lemma spis_loop_set step (body : gic gdev -> Z -> gic gdev) F st : 0 < step -> (step | 32) -> gicd st = G -> 32 <= gic_nirq st <= 1020 ->
  (forall s j, gicd s = G -> regs (dev s) (G + 0) = regs (dev st) (G + 0) -> 32 <= j < 1020 -> (step | j) ->
     exists d', body s j = with_dev s d' /\ outside (dev s) d' /\ spis_by F (fun irq => irq / step = j / step) (dev s) d') ->
  exists d', spis st step body = with_dev st d' /\ regs d' (G + 0) = regs (dev st) (G + 0) /\ spis_set (gic_nirq st) F (dev st) d'.
Proof.
  intros H1 H2 H3 H4 H5. destruct (spis_loop step body F st H1 H2 H3 H4 H5) as (d' & hi & E & [_ Ho] & Hhi & Ha). exists d'. split_and!; [done | apply Ho; lia |].
  constructor.
  - intros irq Hi. rewrite Ha by (left; lia). by rewrite bool_decide_eq_true_2 by lia.
  - intros f irq Hf Hi. rewrite Ha by (right; by exists f). rewrite bool_decide_eq_false_2; [done |]. intros [E' _]. by apply (frame_not_G f).
  - intros a Ha'. apply Ho. lia.
Qed.

(** The two operations on the interrupt of the serial port. *)
Lemma uart_set st c irq : gicd st = G -> 32 <= irq < gic_nirq st -> gic_nirq st <= 1020 ->
  exists d', gic_irq_enable (gic_irq_set_priority st c irq GIC_PRIO_DEFAULT) c irq = with_dev st d' /\ regs d' (G + 0) = regs (dev st) (G + 0) /\
  (forall i, 32 <= i < gic_nirq st -> attr d' G i = (if i =? irq then fun a => set_enabled true (set_prio 0xA0 a) else id) (attr (dev st) G i)) /\
  (forall f i, f ∈ frames -> 0 <= i < 32 -> attr d' (f + 0x10000) i = attr (dev st) (f + 0x10000) i) /\
  (forall a, a < G \/ G + 0x10000 <= a -> regs d' a = regs (dev st) a).
Proof.
  intros HG Hi Hn. assert (Eb : forall s, base_of G s c irq = G) by (intros s; unfold base_of, GIC_SPI_BASE; assert (E : irq >=? 32 = true) by lia; by rewrite E).
  assert (Hr : forall s, gicd s = G -> reaches s c irq) by (intros s Hs; split; [done |]; rewrite Eb; left; lia).
  assert (Hs : gicd (gic_irq_set_priority st c irq GIC_PRIO_DEFAULT) = G) by (by rewrite priority_dev by auto).
  assert (Ha : forall b i, irq_at b i -> attr (dev (gic_irq_enable (gic_irq_set_priority st c irq GIC_PRIO_DEFAULT) c irq)) b i =
    (if bool_decide (b = G /\ i = irq) then fun a => set_enabled true (set_prio 0xA0 a) else id) (attr (dev st) b i)).
  { intros b i Hb. rewrite enable_attr, priority_attr, !Eb by (auto || (unfold GIC_PRIO_DEFAULT; lia)). by case_bool_decide. }
  exists (dev (gic_irq_enable (gic_irq_set_priority st c irq GIC_PRIO_DEFAULT) c irq)). split_and!.
  - rewrite enable_dev, priority_dev by auto. done.
  - rewrite enable_dev, priority_dev, !Eb by auto. cbn. rewrite !upd_ne; [done | |]; Z.div_mod_to_equations; lia.
  - intros i Hi'. rewrite Ha by (left; lia). destruct (Z.eqb_spec i irq); [by rewrite bool_decide_eq_true_2 | by rewrite bool_decide_eq_false_2 by tauto].
  - intros f i Hf Hi'. rewrite Ha by (right; by exists f). rewrite bool_decide_eq_false_2; [done |]. intros [E' _]. by apply (frame_not_G f).
  - intros a Ha'. rewrite enable_dev, priority_dev, !Eb by auto. cbn. rewrite !upd_ne; [done | |]; Z.div_mod_to_equations; lia.
Qed.

Definition init_ctlr : Z := Z.lor (Z.lor GICD_CTLR_ARE_NS GICD_CTLR_EN_GRP1NS) GICD_CTLR_EN_GRP1A.

(** From the disabled distributor to the end of gic_init. *)
Lemma init_body fuel t1 t2 t3 st c irq aff : gicd st = G -> 32 <= gic_nirq st <= 1020 -> 32 <= irq < gic_nirq st ->
  rwp_done fuel t1 = Ret tt -> rwp_done fuel t2 = Ret tt -> rwp_done fuel t3 = Ret tt -> exists d',
  (_ ← rwp_done fuel t1;
   let st := spis (gicd_write32 st GICD_CTLR 0) 32 (fun st i =>
     gicd_write32 (gicd_write32 (gicd_write32 st (GICD_IGROUPR (Z.shiftr i 5)) 0xFFFFFFFF) (GICD_ICENABLER (Z.shiftr i 5)) 0xFFFFFFFF) (GICD_ICACTIVER (Z.shiftr i 5)) 0xFFFFFFFF) in
   let st := spis st 16 (fun st i => gicd_write32 st (GICD_ICFGR (Z.shiftr i 4)) 0) in
   let st := spis st 4 (fun st i => gicd_write32 st (GICD_IPRIORITYR (Z.shiftr i 2)) 0x80808080) in
   _ ← rwp_done fuel t2;
   _ ← rwp_done fuel t3;
   let st := spis (gicd_write32 st GICD_CTLR init_ctlr) 1 (fun st i => gic_irq_set_affinity st i aff) in
   Ret (gic_irq_enable (gic_irq_set_priority st c irq GIC_PRIO_DEFAULT) c irq)) = Ret (with_dev st d') /\
  regs d' (G + 0) = init_ctlr /\
  (forall i, 32 <= i < gic_nirq st -> attr d' G i = Attrs true (i =? irq) false (if i =? irq then 0xA0 else 0x80) false aff) /\
  (forall f i, f ∈ frames -> 0 <= i < 32 -> attr d' (f + 0x10000) i = attr (dev st) (f + 0x10000) i) /\
  (forall a, a < G \/ G + 0x10000 <= a -> regs d' a = regs (dev st) a).
Proof.
  intros HG Hn Hi -> -> ->. cbn [mbind res_bind]. cbv zeta. unfold GICD_CTLR. rewrite (plain_word st 0) by (done || lia).
  pose proof (ctlr_set (gic_nirq st) (dev st) 0 (proj2 Hn)) as S0. set (st0 := with_dev st _).
  destruct (spis_loop_set 32 _ _ st0 ltac:(lia) ltac:(by exists 1) HG Hn (fun s j HGs _ => init_group s j HGs)) as (d1 & -> & _ & S1). set (st1 := with_dev st0 d1).
  destruct (spis_loop_set 16 _ _ st1 ltac:(lia) ltac:(by exists 2) HG Hn (fun s j HGs _ => init_edge s j HGs)) as (d2 & -> & _ & S2). set (st2 := with_dev st1 d2).
  destruct (spis_loop_set 4 _ _ st2 ltac:(lia) ltac:(by exists 8) HG Hn (fun s j HGs _ => init_prio s j HGs)) as (d3 & -> & _ & S3). set (st3 := with_dev st2 d3).
  rewrite (plain_word st3 0) by (done || lia). pose proof (ctlr_set (gic_nirq st) d3 init_ctlr (proj2 Hn)) as S4. set (st4 := with_dev st3 _).
  assert (Hare : forall s, regs (dev s) (G + 0) = regs (dev st4) (G + 0) -> affinity_on G (dev s) = true).
  { intros s Hs. unfold affinity_on, GICD_CTLR. rewrite Hs. cbn [st4 with_dev dev set_reg regs]. by rewrite upd_eq. }
  destruct (spis_loop_set 1 _ _ st4 ltac:(lia) ltac:(by exists 32) HG Hn (fun s j HGs Hc => init_route s j aff HGs (Hare s Hc))) as (d5 & -> & C5 & S5). set (st5 := with_dev st4 d5).
  destruct (uart_set st5 c irq HG Hi (proj2 Hn)) as (d6 & -> & C6 & A6 & P6 & O6).
  pose proof (spis_set_trans _ _ _ _ _ _ (spis_set_trans _ _ _ _ _ _ (spis_set_trans _ _ _ _ _ _ (spis_set_trans _ _ _ _ _ _ (spis_set_trans _ _ _ _ _ _ S0 S1) S2) S3) S4) S5) as S.
  exists d6. split_and!.
  - done.
  - rewrite C6. cbn [st5 dev with_dev]. rewrite C5. cbn. apply upd_eq.
  - intros i Hi'. rewrite A6 by done. cbn [st5 dev with_dev]. rewrite (ss_spi _ _ _ _ S) by done. cbn. by destruct (i =? irq).
  - intros f i Hf Hi'. rewrite P6 by done. apply (ss_ppi _ _ _ _ S); done.
  - intros a Ha. rewrite O6 by done. apply (ss_out _ _ _ _ S a Ha).
Qed.

(** C37: gic_init refuses a distributor older than GICv3, and on one that is not it returns
    once each wait has seen RWP clear, with every implemented shared interrupt in group 1,
    level-triggered, inactive, and routed to the booting CPU alone (the routing-mode bit 31
    is clear); they are disabled with priority 0x80, save the serial port's, which is enabled
    with priority 0xA0. The number of implemented interrupts is read from TYPER and capped at
    1020; the distributor ends enabled with affinity routing, which is on before the routes are
    written, as the hardware requires for them to take. No private interrupt and no
    register outside the distributor changes. *)
Theorem gic_init_configures_distributor fuel t1 t2 t3 st pl c mpidr : G = PA_TO_KVA (gicd_base pl) ->
  let pidr2 := regs (dev st) (G + 0xFFE8) in
  let n := implemented (regs (dev st) (G + 4)) in
  (Z.land (Z.shiftr pidr2 4) 0xF < 3 -> exists s, gic_init fuel t1 t2 t3 st pl c mpidr = Panic s) /\
  (3 <= Z.land (Z.shiftr pidr2 4) 0xF -> 32 <= uart_irq pl < n ->
   (forall t, t ∈ [t1; t2; t3] -> exists k, (k < fuel)%nat /\ rwp t k = false) ->
   exists d' stride, gic_init fuel t1 t2 t3 st pl c mpidr = Ret (Gic d' G n stride (gicr_frame st) (iccs st)) /\
   stride = (if Z.testbit (regs (dev st) (u64 (PA_TO_KVA (Dtb.gicr_base pl) + 8))) 1 then GICR_FRAME_SIZE_VLPI else gicr_stride st) /\
   regs d' G = 22 /\ Z.testbit (read_mpidr mpidr) 31 = false /\
   (forall i, 32 <= i < n -> attr d' G i = Attrs true (i =? uart_irq pl) false (if i =? uart_irq pl then 0xA0 else 0x80) false (read_mpidr mpidr)) /\
   (forall f i, f ∈ frames -> 0 <= i < 32 -> attr d' (f + 0x10000) i = attr (dev st) (f + 0x10000) i) /\
   (forall a, a < G \/ G + 0x10000 <= a -> regs d' a = regs (dev st) a)).
Proof.
  intros HG pidr2 n. unfold gic_init. rewrite <- HG. rewrite (read_word _ GICD_PIDR2) by (done || (unfold GICD_PIDR2; lia)).
  change (regs (dev (Gic _ _ _ _ _ _)) (G + GICD_PIDR2)) with pidr2. unfold GICD_PIDR2_ARCHREV_SHIFT, GICD_PIDR2_ARCHREV_MASK. split.
  - intros Hlt. rewrite (proj2 (Z.ltb_lt _ _) Hlt). by eexists.
  - intros Hge Hu Ht. rewrite (proj2 (Z.ltb_ge _ _) Hge). cbn [mmio_read64 hw gdev_mmio]. cbn [dev gicd gicr_stride gicr_frame iccs gic_nirq].
    rewrite typer_nirq by done. cbn [dev gicd gicr_stride gicr_frame iccs gic_nirq]. fold n. set (stride := if negb _ then _ else _).
    set (s0 := Gic (dev st) G n stride (gicr_frame st) (iccs st)).
    pose proof (implemented_range (regs (dev st) (G + 4))) as Hn. fold n in Hn.
    destruct (init_body fuel t1 t2 t3 s0 c (uart_irq pl) (read_mpidr mpidr) eq_refl Hn Hu) as (d' & E & HC & HA & HP & HO);
      [apply rwp_clears, Ht; set_solver .. |].
    exists d', stride. split_and!; [exact E | | | | done | done | done].
    + unfold stride, GICR_TYPER_VLPIS, GICR_TYPER_OFF. change 2 with (Z.shiftl 1 1). by rewrite land_shiftl_1 by lia.
    + by rewrite Z.add_0_r in HC.
    + unfold read_mpidr. by rewrite Z.land_spec, andb_false_r.
Qed.

(** ** Lemmas: gic_inithart *)

(** The frames lie one stride apart from [R], and the last one alone says that it is. *)
Definition frame_typer (d : gdev) (f : Z) : Z := regs d (f + 8).
Definition frame_aff (d : gdev) (f : Z) : Z := Z.land (Z.shiftr (frame_typer d f) 32) 0xffffffff.

Record chain (d : gdev) (R stride : Z) (n : nat) : Prop := {
  ch_frames : frames = map (fun k => R + Z.of_nat k * stride) (seq 0 n);
  ch_last : forall k, (k < n)%nat -> Z.testbit (frame_typer d (R + Z.of_nat k * stride)) 4 = bool_decide (S k = n)
}.

Lemma chain_in d R stride n k : chain d R stride n -> (k < n)%nat -> R + Z.of_nat k * stride ∈ frames.
Proof. intros Hc Hk. rewrite (ch_frames _ _ _ _ Hc). apply list_elem_of_fmap. exists k. split; [done |]. apply elem_of_seq. lia. Qed.

(** The walk meets the first frame with the affinity it looks for, or the last frame. *)
Lemma find_loop_spec st target R n : chain (dev st) R (gicr_stride st) n -> 
  let F k := R + Z.of_nat k * gicr_stride st in
  forall fuel k, (n <= k + fuel)%nat -> (k < n)%nat ->
  (forall j, (k <= j < n)%nat -> frame_aff (dev st) (F j) = target -> (forall i, (k <= i < j)%nat -> frame_aff (dev st) (F i) <> target) ->
     find_loop fuel st target (F k) = Ret (st, F j)) /\
  ((forall j, (k <= j < n)%nat -> frame_aff (dev st) (F j) <> target) -> exists s, find_loop fuel st target (F k) = Panic s).
Proof.
  intros Hc F fuel. induction fuel as [| fuel IH]; intros k Hf Hk; [lia |]. cbn [find_loop].
  pose proof (chain_in _ _ _ _ k Hc Hk) as Hin. destruct (mo_f Hmap _ Hin) as (H0 & H1 & _). unfold GICR_TYPER_OFF.
  rewrite (u64_small (F k + 8)) by (unfold F; lia). cbn [mmio_read64 hw gdev_mmio]. replace (with_dev st (dev st)) with st by (by destruct st).
  change (regs (dev st) (F k + 8)) with (frame_typer (dev st) (F k)). fold (frame_aff (dev st) (F k)).
  change GICR_TYPER_LAST with (Z.shiftl 1 4). rewrite land_shiftl_1 by lia. pose proof (ch_last _ _ _ _ Hc k Hk) as Hlast. fold (F k) in Hlast. rewrite Hlast.
  destruct (Z.eqb_spec (frame_aff (dev st) (F k)) target) as [E | E].
  - split; [| intros Hno; exfalso; apply (Hno k); [lia | done]]. intros j Hj Ej Hb. destruct (decide (j = k)) as [-> | ?]; [done |]. exfalso. apply (Hb k); [lia | done].
  - case_bool_decide as El.
    { split; [| intros _; by eexists]. intros j Hj Ej _. replace j with k in Ej by lia. done. }
    assert (Hk' : (S k < n)%nat) by lia. pose proof (chain_in _ _ _ _ (S k) Hc Hk') as Hin'. destruct (mo_f Hmap _ Hin') as (H2 & H3 & _).
    replace (u64 (F k + gicr_stride st)) with (F (S k)) by (rewrite u64_small; unfold F; lia).
    destruct (IH (S k) ltac:(lia) Hk') as [I1 I2]. split.
    + intros j Hj Ej Hb. apply I1; [destruct (decide (j = k)); [subst; done | lia] | done |]. intros i Hi. apply Hb. lia.
    + intros Hno. apply I2. intros j Hj. apply Hno. lia.
Qed.

(** Waking the redistributor touches its WAKER register alone. *)
Lemma attr_waker d f v b' irq' : f ∈ frames -> irq_at b' irq' -> attr (set_reg d (f + 0x14) v) b' irq' = attr d b' irq'.
Proof.
  intros Hf Hi'. pose proof (irq_word _ _ Hi'). assert (Hne : forall o, 0x80 <= o < 0x10000 -> b' + o <> f + 0x14).
  { intros o Ho. destruct Hi' as [[-> _] | (f' & Hf' & -> & _)]; [destruct (mo_f Hmap f Hf) as (_ & _ & ?) | destruct (mo_ff Hmap f f' Hf Hf')]; lia. }
  unfold attr, set_reg. cbn [regs]. rewrite !upd_ne by (apply Hne; lia). done.
Qed.

Lemma waker_reg f : f ∈ frames -> frame_reg frames GICR_WAKER_OFF (f + 0x14) = true /\ sets G frames (f + 0x14) = false /\ clears G frames (f + 0x14) = false.
Proof.
  intros Hf. unfold sets, clears, GICR_ISENABLER0_OFF, GICR_ICENABLER0_OFF, GICR_SGI_OFF, GICR_WAKER_OFF. rewrite !within_f, !frame_reg_f by (done || lia). done.
Qed.

(** The loop ends when the hardware has woken up, [asleep] reads later. *)
Lemma wake_loop_spec f : f ∈ frames -> forall fuel st, Z.testbit (regs (dev st) (f + 0x14)) 1 = false -> (asleep (dev st) (f + 0x14)%Z < fuel)%nat ->
  exists d', wake_loop fuel st f = Ret (with_dev st d') /\ regs d' = regs (dev st).
Proof.
  intros Hf fuel. destruct (mo_f Hmap f Hf) as (H0 & H1 & _). induction fuel as [| fuel IH]; intros st Hb Ha; [lia |]. cbn [wake_loop].
  unfold GICR_WAKER_OFF. rewrite u64_small by lia. cbn [mmio_read32 hw gdev_mmio]. unfold gdev_read. destruct (waker_reg f Hf) as (-> & _ & _).
  change GICR_WAKER_PSLEEP with (Z.shiftl 1 1). change GICR_WAKER_CASLEEP with (Z.shiftl 1 2). rewrite land_shiftl_1, Hb by lia.
  destruct (asleep (dev st) (f + 0x14)) as [| a] eqn:Ea; rewrite land_shiftl_1 by lia.
  - rewrite Z.land_spec. change (Z.testbit (u32 (Z.lnot (Z.shiftl 1 2))) 2) with false. rewrite andb_false_r. by exists (dev st).
  - rewrite Z.lor_spec. change (Z.testbit (Z.shiftl 1 2) 2) with true. rewrite orb_true_r.
    destruct (IH (with_dev st (GDev (regs (dev st)) (asleep (dev st)).[f + 0x14 <- a]))) as (d' & -> & E); [done | cbn; rewrite upd_eq; lia |].
    by exists d'.
Qed.

(** Clearing ProcessorSleep, and the wait after it. *)
Lemma wake_spec fuel st f : f ∈ frames -> (asleep (dev st) (f + 0x14)%Z < fuel)%nat ->
  exists d', wake_loop fuel (with_dev st (mmio_clrbits32 (dev st) (u64 (f + GICR_WAKER_OFF)) GICR_WAKER_PSLEEP)) f = Ret (with_dev st d') /\
  Z.testbit (regs d' (f + 0x14)) 1 = false /\ (forall a, a <> f + 0x14 -> regs d' a = regs (dev st) a) /\
  (forall b i, irq_at b i -> attr d' b i = attr (dev st) b i).
Proof.
  intros Hf Ha. destruct (mo_f Hmap f Hf) as (H0 & H1 & _). unfold GICR_WAKER_OFF. rewrite u64_small by lia.
  unfold mmio_clrbits32. cbn [mmio_read32 mmio_write32 hw gdev_mmio].
  assert (Hrd : exists v d1, gdev_read G frames (dev st) (f + 0x14) = (d1, v) /\ regs d1 = regs (dev st) /\ (asleep d1 (f + 0x14)%Z <= asleep (dev st) (f + 0x14)%Z)%nat).
  { unfold gdev_read. destruct (waker_reg f Hf) as (-> & _ & _). destruct (negb _); [by do 2 eexists |].
    destruct (asleep (dev st) (f + 0x14)) eqn:E; do 2 eexists; (split; [reflexivity |]); (split; [done |]); cbn; rewrite ?upd_eq; lia. }
  destruct Hrd as (v & d1 & -> & Er & Hle). unfold gdev_write. destruct (waker_reg f Hf) as (_ & -> & ->). set (w := Z.land v _).
  assert (Hw : Z.testbit w 1 = false). { unfold w. rewrite Z.land_spec. change (Z.testbit (u32 (Z.lnot GICR_WAKER_PSLEEP)) 1) with false. apply andb_false_r. }
  destruct (wake_loop_spec f Hf fuel (with_dev st (set_reg d1 (f + 0x14) w))) as (d' & E & Ed); [cbn; by rewrite upd_eq | cbn; lia |].
  exists d'. split_and!; [exact E | rewrite Ed; cbn; by rewrite upd_eq | intros a Hne; rewrite Ed; cbn; by rewrite upd_ne, Er |].
  intros b i Hi. transitivity (attr (set_reg d1 (f + 0x14) w) b i); [unfold attr; by rewrite Ed |]. rewrite attr_waker by done. unfold attr. by rewrite Er.
Qed.

(** What a CPU's private interrupts are after gic_inithart. *)
Definition hart_attrs (timer i : Z) (a : attrs) : attrs :=
  let on := (i =? timer) || (i =? IRQ_PANIC) in
  Attrs true (on || a_enabled a) (a_active a) (if on then GIC_PRIO_DEFAULT else a_prio a) (a_edge a) (a_route a).

(** An operation that changes the private interrupts of frame [f] by [H], and nothing else. *)
Record hop (f : Z) (st s : gic gdev) (H : Z -> attrs -> attrs) : Prop := {
  hop_dev : s = with_dev st (dev s);
  hop_waker : regs (dev s) (f + 0x14) = regs (dev st) (f + 0x14);
  hop_attr : forall b i, irq_at b i -> attr (dev s) b i = (if bool_decide (b = f + 0x10000) then H i else id) (attr (dev st) b i)
}.

Lemma hop_trans f st s s' H H' : hop f st s H -> hop f s s' H' -> hop f st s' (fun i a => H' i (H i a)).
Proof.
  intros [E W A] [E' W' A']. constructor.
  - rewrite E', E. done.
  - by rewrite W', W.
  - intros b i Hi. rewrite A', A by done. by case_bool_decide.
Qed.

Section hart.
Context (f c : Z) (Hf : f ∈ frames).

Lemma hart_at i : 0 <= i < 32 -> irq_at (f + 0x10000) i.
Proof using Hf. intros Hi. right. by exists f. Qed.

Lemma hart_base st i : gicr_frame st c = f -> 0 <= i < 32 -> base_of G st c i = f + 0x10000.
Proof using. intros Es Hi. unfold base_of, GIC_SPI_BASE, GICR_SGI_OFF. assert (E : i >=? 32 = false) by lia. by rewrite E, Es. Qed.

Lemma hart_reaches st i : gicd st = G -> gicr_frame st c = f -> 0 <= i < 32 -> reaches st c i.
Proof using Hf. intros HG Es Hi. split; [done |]. rewrite hart_base by done. by apply hart_at. Qed.

Lemma hop_set st o v H : 0x80 <= o < 0x10000 ->
  (forall b i, irq_at b i -> attr (set_reg (dev st) (f + 0x10000 + o) v) b i = (if bool_decide (b = f + 0x10000) then H i else id) (attr (dev st) b i)) ->
  hop f st (with_dev st (set_reg (dev st) (f + 0x10000 + o) v)) H.
Proof using. intros Ho Ha. constructor; [done | cbn; apply upd_ne; lia | done]. Qed.

Lemma hop_enable st i0 : gicd st = G -> gicr_frame st c = f -> 0 <= i0 < 32 -> hop f st (gic_irq_enable st c i0) (fun i => if i =? i0 then set_enabled true else id).
Proof using Hf Hmap.
  intros HG Es Hi. pose proof (hart_reaches st i0 HG Es Hi) as Hr. pose proof (fun b i => enable_attr st c i0 b i Hr) as Ha. pose proof (irq_word _ _ (proj2 Hr)) as Hw.
  rewrite enable_dev, hart_base in * by done. apply hop_set; [lia |]. intros b i Hb. rewrite Ha by done.
  destruct (Z.eqb_spec i i0); repeat case_bool_decide; tauto.
Qed.

Lemma hop_priority st i0 p : gicd st = G -> gicr_frame st c = f -> 0 <= i0 < 32 -> 0 <= p < 256 -> hop f st (gic_irq_set_priority st c i0 p) (fun i => if i =? i0 then set_prio p else id).
Proof using Hf Hmap.
  intros HG Es Hi Hp. pose proof (hart_reaches st i0 HG Es Hi) as Hr. pose proof (fun b i Hb => priority_attr st c i0 b i Hr Hb p Hp) as Ha. pose proof (irq_word _ _ (proj2 Hr)) as Hw.
  rewrite priority_dev, hart_base in * by done. apply hop_set; [lia |]. intros b i Hb. rewrite Ha by done.
  destruct (Z.eqb_spec i i0); repeat case_bool_decide; tauto.
Qed.

Lemma hop_group st : hop f st (with_dev st (mmio_write32 (dev st) (u64 (f + GICR_IGROUPR0_OFF)) 0xFFFFFFFF)) (fun _ => set_group true).
Proof using Hf Hmap.
  destruct (mo_f Hmap f Hf) as (H0 & H1 & _). pose proof (hart_at 0 ltac:(lia)) as H0at.
  assert (E : u64 (f + GICR_IGROUPR0_OFF) = f + 0x10000 + (0x80 + 4 * 0)) by (unfold GICR_IGROUPR0_OFF, GICR_SGI_OFF; rewrite u64_small by lia; lia).
  rewrite E. cbn [mmio_write32 hw gdev_mmio]. rewrite (proj2 (plain_rw (f + 0x10000) 0 (0x80 + 4 * 0) (dev st) 0xFFFFFFFF H0at ltac:(lia))).
  apply hop_set; [lia |]. intros b i Hb. rewrite (attr_group _ _ 0) by (done || lia). pose proof (irq_word _ _ Hb) as Hw.
  destruct (decide (b = f + 0x10000)) as [-> | Hne]. 2: { rewrite !bool_decide_eq_false_2 by tauto. done. }
  assert (Hi : 0 <= i < 32). { destruct Hb as [[E' _] | (_ & _ & _ & ?)]; [by apply frame_not_G in E' | done]. }
  rewrite !bool_decide_eq_true_2 by (done || (split; [done | Z.div_mod_to_equations; lia])). by rewrite (ones_bit (i mod 32)) by (done || lia).
Qed.

(** The writes after the redistributor is awake. *)
Lemma hart_irqs st timer : gicd st = G -> gicr_frame st c = f -> 0 <= timer < 32 ->
  hop f st (gic_irq_enable (gic_irq_enable (gic_irq_set_priority (gic_irq_set_priority
    (with_dev st (mmio_write32 (dev st) (u64 (f + GICR_IGROUPR0_OFF)) 0xFFFFFFFF)) c timer GIC_PRIO_DEFAULT) c IRQ_PANIC GIC_PRIO_DEFAULT) c timer) c IRQ_PANIC) (hart_attrs timer).
Proof using Hf Hmap.
  intros HG Es Ht. assert (Hp : 0 <= IRQ_PANIC < 32) by (unfold IRQ_PANIC; lia). assert (Hd : 0 <= GIC_PRIO_DEFAULT < 256) by (unfold GIC_PRIO_DEFAULT; lia).
  pose proof (hop_group st) as P0. set (s0 := with_dev st _) in *.
  pose proof (hop_priority s0 timer _ HG Es Ht Hd) as P1. set (s1 := gic_irq_set_priority s0 c timer _) in *. pose proof (hop_trans _ _ _ _ _ _ P0 P1) as Q1.
  assert (G1 : gicd s1 = G /\ gicr_frame s1 c = f) by (rewrite (hop_dev _ _ _ _ Q1); done).
  pose proof (hop_priority s1 IRQ_PANIC _ (proj1 G1) (proj2 G1) Hp Hd) as P2. set (s2 := gic_irq_set_priority s1 c IRQ_PANIC _) in *. pose proof (hop_trans _ _ _ _ _ _ Q1 P2) as Q2.
  assert (G2 : gicd s2 = G /\ gicr_frame s2 c = f) by (rewrite (hop_dev _ _ _ _ Q2); done).
  pose proof (hop_enable s2 timer (proj1 G2) (proj2 G2) Ht) as P3. set (s3 := gic_irq_enable s2 c timer) in *. pose proof (hop_trans _ _ _ _ _ _ Q2 P3) as Q3.
  assert (G3 : gicd s3 = G /\ gicr_frame s3 c = f) by (rewrite (hop_dev _ _ _ _ Q3); done).
  pose proof (hop_trans _ _ _ _ _ _ Q3 (hop_enable s3 IRQ_PANIC (proj1 G3) (proj2 G3) Hp)) as [E W A]. constructor; [done | done |].
  intros b i Hb. rewrite A by done. case_bool_decide; [| done]. unfold hart_attrs. destruct (i =? timer), (i =? IRQ_PANIC); done.
Qed.
End hart.

(** gic_inithart, on the CPU with affinity [mpidr], walks the redistributor frames to the
    first one whose TYPER has that affinity, and panics at the last one if none has. With the
    frame found it clears ProcessorSleep and returns once the redistributor is awake, with the
    CPU interface on (system registers, split end-of-interrupt, every priority, group 1), all
    private interrupts of the frame in group 1, and the timer's and the panic SGI enabled with
    priority 0xA0; the other private ones keep their enables and priorities. Interrupts of
    other CPUs and shared ones keep every attribute. *)
Theorem gic_inithart_brings_up_cpu fuel nframes st pl c mpidr n :
  let R := PA_TO_KVA (Dtb.gicr_base pl) in let F k := R + Z.of_nat k * gicr_stride st in
  chain (dev st) R (gicr_stride st) n -> (0 < n <= nframes)%nat -> gicd st = G -> 0 <= timer_irq pl < 32 ->
  ((forall j, (j < n)%nat -> frame_aff (dev st) (F j) <> mpidr_to_affinity mpidr) -> exists s, gic_inithart fuel nframes st pl c mpidr = Panic s) /\
  (forall j, (j < n)%nat -> frame_aff (dev st) (F j) = mpidr_to_affinity mpidr ->
     (forall i, (i < j)%nat -> frame_aff (dev st) (F i) <> mpidr_to_affinity mpidr) -> (asleep (dev st) (F j + 0x14)%Z < fuel)%nat ->
     exists d', gic_inithart fuel nframes st pl c mpidr =
       Ret (Gic d' G (gic_nirq st) (gicr_stride st) (gicr_frame st).[c <- F j] (iccs st).[c <- Icc 1 (Z.lor (icc_ctlr (iccs st c)) 2) 0xFF 1]) /\
     Z.testbit (regs d' (F j + 0x14)) 1 = false /\
     forall b i, irq_at b i -> attr d' b i = (if bool_decide (b = F j + 0x10000) then hart_attrs (timer_irq pl) i else id) (attr (dev st) b i)).
Proof.
  intros R F Hc Hn HG Ht. destruct (find_loop_spec st (mpidr_to_affinity mpidr) R n Hc nframes 0 ltac:(lia) ltac:(lia)) as [Hfound Hnone].
  unfold gic_inithart, gicr_find. fold R. replace (R + Z.of_nat 0 * gicr_stride st) with R in * by lia. split.
  - intros Hno. destruct Hnone as (s & ->); [intros j Hj; apply Hno; lia |]. by exists s.
  - intros j Hj Ej Hb Hs. fold (F j) in Hfound. rewrite (Hfound j) by (done || lia || (intros; apply Hb; lia)). fold (F j). cbn [mbind res_bind]. cbv zeta.
    pose proof (chain_in _ _ _ _ j Hc Hj) as Hf. fold (F j) in Hf.
    set (s1 := icc_write_igrpen1 _ _ _).
    assert (E1 : s1 = Gic (dev st) G (gic_nirq st) (gicr_stride st) (gicr_frame st).[c <- F j] (iccs st).[c <- Icc 1 (Z.lor (icc_ctlr (iccs st c)) 2) 0xFF 1]).
    { unfold s1, icc_write_igrpen1, icc_write_pmr, icc_write_ctlr, icc_write_sre, icc_read_ctlr, with_icc. cbn. rewrite HG. by rewrite !upd_eq, !upd_upd. }
    cbn [gicr_base gicr_frame]. unfold gicr_base. cbn [gicr_frame]. rewrite upd_eq, E1.
    set (s2 := Gic (dev st) G _ _ _ _). destruct (wake_spec fuel s2 (F j) Hf Hs) as (d2 & -> & W2 & _ & A2). cbn [mbind res_bind].
    destruct (hart_irqs (F j) c Hf (with_dev s2 d2) (timer_irq pl) eq_refl (upd_eq _ _ _) Ht) as [E W A]. eexists. split; [rewrite E; reflexivity |]. split.
    + by rewrite W.
    + intros b i Hi. rewrite A by done. cbn [dev with_dev]. by rewrite A2.
Qed.
End proofs.

(** ** Witnesses: the board QEMU calls virt, with two CPUs *)

Definition virt : platform := Platform 0x9000000 24000000 33 0x8000000 0x80A0000 27.
Definition virt_G : Z := PA_TO_KVA 0x8000000.
Definition virt_f0 : Z := PA_TO_KVA 0x80A0000.
Definition virt_frames : list Z := [virt_f0; virt_f0 + 0x20000].

Definition virt_dev : gdev :=
  GDev (fun a => if a =? virt_G + 0xFFE8 then 0x3B else if a =? virt_G + 4 then 8 else if a =? virt_f0 + 0x20008 then 0x100000010
                 else if (a =? virt_f0 + 0x14) || (a =? virt_f0 + 0x20014) then 6 else 0) (fun _ => 3%nat).

Definition virt_gic : gic gdev := Gic virt_dev virt_G 288 GICR_FRAME_SIZE (fun c => virt_f0 + c * 0x20000) (fun _ => Icc 0 0 0 0).

(** RWP clears at the third look; the counter is far past twice the frequency. *)
Definition virt_time : hwtime := Hwtime 62500000 (fun k => Nat.ltb k 2) (fun k => 1000000000 + Z.of_nat k).

Lemma virt_map : map_ok virt_G virt_frames.
Proof.
  constructor.
  - vm_compute. split; discriminate.
  - intros f Hf. assert (f = virt_f0 \/ f = virt_f0 + 0x20000) as [-> | ->] by (unfold virt_frames in Hf; set_solver); vm_compute; split_and!; try discriminate; right; discriminate.
  - intros f f' Hf Hf'. assert (f = virt_f0 \/ f = virt_f0 + 0x20000) as [-> | ->] by (unfold virt_frames in Hf; set_solver);
      assert (f' = virt_f0 \/ f' = virt_f0 + 0x20000) as [-> | ->] by (unfold virt_frames in Hf'; set_solver); lia.
Qed.

Lemma virt_in : virt_f0 + 0x20000 ∈ virt_frames.
Proof. unfold virt_frames. set_solver. Qed.

Lemma irq_ops_touch_one_interrupt_witness :
  a_enabled (attr (dev (@gic_irq_enable _ (hw virt_G virt_frames) virt_gic 1 27)) (virt_f0 + 0x30000) 27) = true /\
  attr (dev (@gic_irq_enable _ (hw virt_G virt_frames) virt_gic 1 27)) (virt_f0 + 0x30000) 26 = attr virt_dev (virt_f0 + 0x30000) 26.
Proof.
  assert (Hat : forall i, 0 <= i < 32 -> irq_at virt_G virt_frames (virt_f0 + 0x30000) i) by (intros i Hi; right; exists (virt_f0 + 0x20000); split_and!; [exact virt_in | lia | lia | lia]).
  assert (Hr : reaches virt_G virt_frames virt_gic 1 27) by (split; [reflexivity |]; exact (Hat 27 ltac:(lia))).
  split.
  - rewrite (proj1 (irq_ops_touch_one_interrupt virt_G virt_frames virt_map virt_gic 1 27 (virt_f0 + 0x30000) 27 Hr (Hat 27 ltac:(lia)))). vm_compute. reflexivity.
  - rewrite (proj1 (irq_ops_touch_one_interrupt virt_G virt_frames virt_map virt_gic 1 27 (virt_f0 + 0x30000) 26 Hr (Hat 26 ltac:(lia)))). vm_compute. reflexivity.
Defined.

Lemma gic_wait_rwp_bounded_witness : exists m, gic_wait_rwp 5 (Hwtime 0x4000000000000000 (fun k => Nat.ltb k 2) (fun _ => 7)) = Some m /\ m = 2%nat.
Proof.
  destruct (gic_wait_rwp_bounded 5 (Hwtime 0x4000000000000000 (fun k => Nat.ltb k 2) (fun _ => 7))) as (m & E & Hb & _).
  - discriminate.
  - intros _. exists 2%nat. split; [lia | left; reflexivity].
  - exists m. split; [exact E |]. vm_compute in E. congruence.
Defined.

Lemma gic_init_configures_distributor_witness :
  exists d' stride, @gic_init _ (hw virt_G virt_frames) 4 virt_time virt_time virt_time virt_gic virt 0 0x80000000 = Ret (Gic d' virt_G 288 stride (gicr_frame virt_gic) (iccs virt_gic)) /\
    a_enabled (attr d' virt_G 33) = true /\ a_enabled (attr d' virt_G 34) = false /\ regs d' virt_G = 22.
Proof.
  destruct (proj2 (gic_init_configures_distributor virt_G virt_frames virt_map 4 virt_time virt_time virt_time virt_gic virt 0 0x80000000 eq_refl))
    as (d' & stride & E & _ & HC & _ & HA & _).
  - vm_compute. discriminate.
  - vm_compute. split; [discriminate | reflexivity].
  - intros t Ht. exists 2%nat. split; [lia |]. assert (t = virt_time) as -> by set_solver. reflexivity.
  - exists d', stride. split; [exact E |]. split; [rewrite HA; [reflexivity | vm_compute; split; [discriminate | reflexivity]] |].
    split; [rewrite HA; [reflexivity | vm_compute; split; [discriminate | reflexivity]] | exact HC].
Defined.

Lemma virt_chain : chain virt_frames virt_dev virt_f0 GICR_FRAME_SIZE 2.
Proof.
  constructor; [vm_compute; reflexivity |]. intros k Hk. assert (k = 0%nat \/ k = 1%nat) as [-> | ->] by lia; vm_compute; reflexivity.
Qed.

Lemma gic_inithart_brings_up_cpu_witness :
  exists d', @gic_inithart _ (hw virt_G virt_frames) 8 2 virt_gic virt 1 0x80000001 =
    Ret (Gic d' virt_G 288 GICR_FRAME_SIZE (gicr_frame virt_gic).[1 <- virt_f0 + 0x20000] (iccs virt_gic).[1 <- Icc 1 2 0xFF 1]) /\
    a_enabled (attr d' (virt_f0 + 0x20000 + 0x10000) 27) = true.
Proof.
  destruct (proj2 (gic_inithart_brings_up_cpu virt_G virt_frames virt_map 8 2 virt_gic virt 1 0x80000001 2 virt_chain ltac:(lia) eq_refl ltac:(cbn; lia)) 1%nat)
    as (d' & E & _ & HA).
  - lia.
  - vm_compute. reflexivity.
  - intros i Hi. assert (i = 0%nat) as -> by lia. vm_compute. discriminate.
  - vm_compute. lia.
  - exists d'. split; [exact E |]. rewrite HA.
    + rewrite bool_decide_eq_true_2 by reflexivity. reflexivity.
    + right. exists (virt_f0 + 0x20000). split; [exact virt_in |]. split; [reflexivity | split; [discriminate | reflexivity]].
Defined.
