(* ===== verification/Uart.v ===== *)
(** * The serial port driver

    Models dev/uart.c over the registers of a PL011. The port is a device of [Mmio]: reading
    the data register takes an entry off the receive FIFO, the divisor registers reach the
    divider when LCRH is written, and the transmit FIFO is full for as many looks as the
    device says. The log lines of uart_config are left out. *)

From S2P Require Import Prelude Bits Mmu Physmem Dtb Mmio.

(** ** Registers *)

Definition UART_DR : Z := 0x00.
Definition UART_FR : Z := 0x18.
Definition UART_IBRD : Z := 0x24.
Definition UART_FBRD : Z := 0x28.
Definition UART_LCRH : Z := 0x2C.
Definition UART_CR : Z := 0x30.
Definition UART_IFLS : Z := 0x34.
Definition UART_IMSC : Z := 0x38.
Definition UART_ICR : Z := 0x44.
Definition UART_PIDR2 : Z := 0xFE8.

Definition UART_FR_RXFE : Z := BIT 4.
Definition UART_FR_TXFF : Z := BIT 5.
Definition UART_LCRH_FEN : Z := BIT 4.
Definition UART_LCRH_WLEN8 : Z := Z.shiftl 3 5.
Definition UART_CR_UARTEN : Z := BIT 0.
Definition UART_CR_TXE : Z := BIT 8.
Definition UART_CR_RXE : Z := BIT 9.
Definition UART_IFLS_RX_1_2 : Z := Z.shiftl 2 3.
Definition UART_IFLS_TX_1_2 : Z := 2.
Definition UART_IMSC_RXIM : Z := BIT 4.
Definition UART_IMSC_RTIM : Z := BIT 6.
Definition UART_INTR_ALL : Z := 0x7FF.

Definition UART_BAUD : Z := 115200.
Definition UART_FIFO_REV2 : Z := 16.
Definition UART_FIFO_REV3 : Z := 32.

(** ** The driver *)

Record uart (D : Type) := Uart { u_dev : D; u_base : Z; uart_fifo_depth : Z }.
Arguments Uart {D} _ _ _.
Arguments u_dev {D} _.
Arguments u_base {D} _.
Arguments uart_fifo_depth {D} _.

Section driver.
Context {D : Type} `{Mmio D}.
Implicit Types st : uart D.

Definition UART_REG st (off : Z) : Z := u64 (u_base st + off).

Definition u_read st (off : Z) : uart D * Z :=
  let '(d, v) := mmio_read32 (u_dev st) (UART_REG st off) in (Uart d (u_base st) (uart_fifo_depth st), v).
Definition u_write st (off v : Z) : uart D :=
  Uart (mmio_write32 (u_dev st) (UART_REG st off) v) (u_base st) (uart_fifo_depth st).

Definition uart_init st : uart D :=
  let st := u_write st UART_IMSC 0 in
  let st := u_write st UART_ICR UART_INTR_ALL in
  u_write st UART_CR (Z.lor (Z.lor UART_CR_UARTEN UART_CR_TXE) UART_CR_RXE).

Definition uart_remap st (pl : platform) : uart D := Uart (u_dev st) (PA_TO_KVA (uart_base pl)) (uart_fifo_depth st).

(** The divisor of a clock in 64ths, zero to keep the firmware's. *)
Definition uart_quot (uartclk : Z) : Z :=
  if negb (uartclk =? 0) then
    let quot := u64 (Z.shiftl uartclk 2 + Z.shiftr UART_BAUD 1) / UART_BAUD in
    let ibrd := u32 (Z.shiftr quot 6) in
    if (ibrd =? 0) || (ibrd >? 0xFFFF) then 0 else quot
  else 0.

(** The loop that empties the receive FIFO, [n] turns at most. *)
Fixpoint drain_loop (n : nat) st : uart D :=
  match n with
  | O => st
  | S n =>
      let '(st, fr) := u_read st UART_FR in
      if negb (Z.land fr UART_FR_RXFE =? 0) then st
      else let '(st, _) := u_read st UART_DR in drain_loop n st
  end.

Definition uart_config st (uartclk : Z) : uart D :=
  let '(st, pidr2) := u_read st UART_PIDR2 in
  let rev := Z.land (Z.shiftr pidr2 4) 0xF in
  let st := Uart (u_dev st) (u_base st) (if rev >=? 3 then UART_FIFO_REV3 else UART_FIFO_REV2) in
  let quot := uart_quot uartclk in
  let st := u_write st UART_IMSC 0 in
  let st := u_write st UART_CR 0 in
  let st := if negb (quot =? 0) then
              let st := u_write st UART_IBRD (u32 (Z.shiftr quot 6)) in
              u_write st UART_FBRD (u32 (Z.land quot 0x3F))
            else st in
  let st := u_write st UART_LCRH (Z.lor UART_LCRH_WLEN8 UART_LCRH_FEN) in
  let st := u_write st UART_IFLS (Z.lor UART_IFLS_RX_1_2 UART_IFLS_TX_1_2) in
  let st := u_write st UART_CR (Z.lor (Z.lor UART_CR_UARTEN UART_CR_TXE) UART_CR_RXE) in
  let st := u_write st UART_ICR UART_INTR_ALL in
  let st := u_write st UART_IMSC (Z.lor UART_IMSC_RXIM UART_IMSC_RTIM) in
  drain_loop (Z.to_nat (Z.shiftl (uart_fifo_depth st) 1)) st.

(** [None] when the FIFO is full for [fuel] looks. *)
Fixpoint uart_putc (fuel : nat) st (c : Z) : option (uart D) :=
  match fuel with
  | O => None
  | S fuel =>
      let '(st, fr) := u_read st UART_FR in
      if negb (Z.land fr UART_FR_TXFF =? 0) then uart_putc fuel st c
      else Some (u_write st UART_DR c)
  end.

(** The loops of the console: one uart_putc per byte. *)
Fixpoint uart_puts (fuel : nat) st (l : list Z) : option (uart D) :=
  match l with
  | [] => Some st
  | c :: l => match uart_putc fuel st c with Some st => uart_puts fuel st l | None => None end
  end.

Definition uart_getc st : uart D * Z :=
  let '(st, fr) := u_read st UART_FR in
  if negb (Z.land fr UART_FR_RXFE =? 0) then (st, -1)
  else let '(st, v) := u_read st UART_DR in (st, v).
End driver.

(** ** The device

    [p_div] is the divisor in use, IBRD and FBRD the registers; [p_rx] the receive FIFO with
    its error bits; [p_sent] what was put on the line; [p_busy] for how many more looks the
    transmit FIFO is full, set to [p_wait k] when the [k]-th byte is taken. A byte written
    while it is full is lost. *)

Record pl011 := Pl011 {
  p_rev : Z; p_ibrd : Z; p_fbrd : Z; p_div : Z; p_lcrh : Z; p_cr : Z; p_ifls : Z; p_imsc : Z; p_ris : Z;
  p_rx : list Z; p_sent : list Z; p_busy : nat; p_wait : nat -> nat
}.

Definition set_rx (d : pl011) (rx : list Z) (busy : nat) : pl011 :=
  Pl011 (p_rev d) (p_ibrd d) (p_fbrd d) (p_div d) (p_lcrh d) (p_cr d) (p_ifls d) (p_imsc d) (p_ris d) rx (p_sent d) busy (p_wait d).

Definition take_byte (d : pl011) (c : Z) : pl011 :=
  match p_busy d with
  | O => Pl011 (p_rev d) (p_ibrd d) (p_fbrd d) (p_div d) (p_lcrh d) (p_cr d) (p_ifls d) (p_imsc d) (p_ris d) (p_rx d)
           (p_sent d ++ [Z.land c 0xFF]) (p_wait d (length (p_sent d))) (p_wait d)
  | _ => d
  end.

Definition set_line (d : pl011) (ibrd fbrd div lcrh : Z) : pl011 :=
  Pl011 (p_rev d) ibrd fbrd div lcrh (p_cr d) (p_ifls d) (p_imsc d) (p_ris d) (p_rx d) (p_sent d) (p_busy d) (p_wait d).
Definition set_ctl (d : pl011) (cr ifls imsc ris : Z) : pl011 :=
  Pl011 (p_rev d) (p_ibrd d) (p_fbrd d) (p_div d) (p_lcrh d) cr ifls imsc ris (p_rx d) (p_sent d) (p_busy d) (p_wait d).

(** A register at its offset. *)
Definition pl_get (d : pl011) (off : Z) : pl011 * Z :=
  if off =? 0x00 then match p_rx d with [] => (d, 0) | x :: rx => (set_rx d rx (p_busy d), x) end
  else if off =? 0x18 then
    (set_rx d (p_rx d) (Nat.pred (p_busy d)),
     Z.lor (match p_rx d with [] => 0x10 | _ => 0 end) (match p_busy d with O => 0 | _ => 0x20 end))
  else if off =? 0xFE8 then (d, Z.shiftl (p_rev d) 4)
  else (d, 0).

Definition pl_set (d : pl011) (off v : Z) : pl011 :=
  if off =? 0x00 then take_byte d v
  else if off =? 0x24 then set_line d (Z.land v 0xFFFF) (p_fbrd d) (p_div d) (p_lcrh d)
  else if off =? 0x28 then set_line d (p_ibrd d) (Z.land v 0x3F) (p_div d) (p_lcrh d)
  else if off =? 0x2C then set_line d (p_ibrd d) (p_fbrd d) (64 * p_ibrd d + p_fbrd d) v
  else if off =? 0x30 then set_ctl d v (p_ifls d) (p_imsc d) (p_ris d)
  else if off =? 0x34 then set_ctl d (p_cr d) v (p_imsc d) (p_ris d)
  else if off =? 0x38 then set_ctl d (p_cr d) (p_ifls d) v (p_ris d)
  else if off =? 0x44 then set_ctl d (p_cr d) (p_ifls d) (p_imsc d) (Z.land (p_ris d) (u32 (Z.lnot v)))
  else d.

(** ** Proofs, for a port at address [B] *)

Section proofs.
Context (B : Z) (HB : 0 <= B /\ B + 0x1000 <= 2 ^ 64).

#[local] Instance port : Mmio pl011 := {|
  mmio_read32 d a := pl_get d (a - B);
  mmio_write32 d a v := pl_set d (a - B) v;
  mmio_read64 d a := (d, 0);
  mmio_write64 d a v := d
|}.

Lemma u_read_at d n off : 0 <= off < 0x1000 -> u_read (Uart d B n) off = (Uart (fst (pl_get d off)) B n, snd (pl_get d off)).
Proof using HB.
  intros Ho. unfold u_read, UART_REG. cbn [u_dev u_base uart_fifo_depth mmio_read32 port]. rewrite u64_small by lia. replace (B + off - B) with off by lia.
  by destruct (pl_get d off).
Qed.

Lemma u_write_at d n off v : 0 <= off < 0x1000 -> u_write (Uart d B n) off v = Uart (pl_set d off v) B n.
Proof using HB.
  intros Ho. unfold u_write, UART_REG. cbn [u_dev u_base uart_fifo_depth mmio_write32 port]. rewrite u64_small by lia. by replace (B + off - B) with off by lia.
Qed.

(** A look at the flags. *)
Lemma look_at d n : u_read (Uart d B n) UART_FR =
  (Uart (set_rx d (p_rx d) (Nat.pred (p_busy d))) B n, Z.lor (match p_rx d with [] => 0x10 | _ => 0 end) (match p_busy d with O => 0 | _ => 0x20 end)).
Proof using HB. by rewrite u_read_at by (unfold UART_FR; lia). Qed.

Lemma flag_rx d : (Z.land (Z.lor (match p_rx d with [] => 0x10 | _ => 0 end) (match p_busy d with O => 0 | _ => 0x20 end)) UART_FR_RXFE =? 0) = negb (bool_decide (p_rx d = [])).
Proof using. destruct (p_rx d), (p_busy d); reflexivity. Qed.

Lemma flag_tx d : (Z.land (Z.lor (match p_rx d with [] => 0x10 | _ => 0 end) (match p_busy d with O => 0 | _ => 0x20 end)) UART_FR_TXFF =? 0) = bool_decide (p_busy d = O).
Proof using. destruct (p_rx d), (p_busy d); reflexivity. Qed.

(** ** Sending and receiving *)

Definition same_line (d d' : pl011) : Prop :=
  (p_rev d', p_ibrd d', p_fbrd d', p_div d', p_lcrh d', p_cr d', p_ifls d', p_imsc d', p_ris d', p_wait d') =
  (p_rev d, p_ibrd d, p_fbrd d, p_div d, p_lcrh d, p_cr d, p_ifls d, p_imsc d, p_ris d, p_wait d).

Lemma putc_spec fuel : forall d n c, (p_busy d < fuel)%nat -> 0 <= c < 256 -> exists d',
  uart_putc fuel (Uart d B n) c = Some (Uart d' B n) /\ p_sent d' = p_sent d ++ [c] /\ p_rx d' = p_rx d /\ p_busy d' = p_wait d (length (p_sent d)) /\ same_line d d'.
Proof using HB.
  induction fuel as [| fuel IH]; intros d n c Hb Hc; [lia |]. cbn [uart_putc]. rewrite look_at, flag_tx. case_bool_decide as E; cbn [negb].
  - rewrite u_write_at by (unfold UART_DR; lia). eexists. split; [reflexivity |]. unfold pl_set, UART_DR, take_byte. cbn. rewrite E. cbn.
    change 255 with (Z.ones 8). rewrite Z.land_ones, Z.mod_small by lia. done.
  - destruct (IH (set_rx d (p_rx d) (Nat.pred (p_busy d))) n c) as (d' & -> & H); [cbn; lia | done |]. by exists d'.
Qed.

Lemma puts_spec fuel l : forall d n, (p_busy d < fuel)%nat -> (forall k, (p_wait d k < fuel)%nat) -> Forall (fun c => 0 <= c < 256) l -> exists d',
  uart_puts fuel (Uart d B n) l = Some (Uart d' B n) /\ p_sent d' = p_sent d ++ l /\ p_rx d' = p_rx d /\ same_line d d'.
Proof using HB.
  induction l as [| c l IH]; intros d n Hb Hw Hl; cbn [uart_puts].
  - exists d. rewrite app_nil_r. split_and!; done.
  - apply Forall_cons_1 in Hl as [Hc Hl]. destruct (putc_spec fuel d n c Hb Hc) as (d1 & -> & Hs & Hr & Hb1 & Hq).
    assert (Ew : p_wait d1 = p_wait d) by (unfold same_line in Hq; congruence).
    destruct (IH d1 n) as (d' & -> & Hs' & Hr' & Hq'); [rewrite Hb1; apply Hw | by rewrite Ew | done |]. exists d'.
    split_and!; [done | by rewrite Hs', Hs, <- app_assoc | congruence | unfold same_line in *; congruence].
Qed.

(** The entries of [k] calls of uart_getc. *)
Fixpoint getcs (k : nat) (st : uart pl011) : list Z :=
  match k with O => [] | S k => let '(st, v) := uart_getc st in v :: getcs k st end.

Lemma getcs_spec k : forall d n, getcs k (Uart d B n) = take k (p_rx d) ++ replicate (k - length (p_rx d)) (-1).
Proof using HB.
  induction k as [| k IH]; intros d n; [done |]. cbn [getcs]. unfold uart_getc. rewrite look_at, flag_rx. case_bool_decide as E; cbn [negb].
  - rewrite IH. cbn. rewrite E. cbn. by rewrite take_nil, Nat.sub_0_r.
  - destruct (p_rx d) as [| x rx] eqn:Er; [done |]. rewrite u_read_at by (unfold UART_DR; lia). unfold pl_get, UART_DR. cbn. by rewrite IH.
Qed.

(** uart_putc waits for room and then sends: a run of them puts exactly the given bytes
    on the line, in order, with none lost, whenever the transmit FIFO frees up within the
    looks allowed, and leaves the received bytes and the line settings alone; uart_getc takes
    the received entries in the order in which they came, and answers -1 from the moment
    there are none. *)
Theorem uart_delivers_in_order fuel l k d n : (p_busy d < fuel)%nat -> (forall j, (p_wait d j < fuel)%nat) -> Forall (fun c => 0 <= c < 256) l ->
  exists d', uart_puts fuel (Uart d B n) l = Some (Uart d' B n) /\ p_sent d' = p_sent d ++ l /\ same_line d d' /\
    getcs k (Uart d' B n) = take k (p_rx d) ++ replicate (k - length (p_rx d)) (-1).
Proof using HB.
  intros Hb Hw Hl. destruct (puts_spec fuel l d n Hb Hw Hl) as (d' & E & Hs & Hr & Hq). exists d'. split_and!; [done .. |]. by rewrite getcs_spec, Hr.
Qed.

(** ** uart_config *)

(** The divisor is the nearest 64th, or none that fits the 16 bits of IBRD. *)
Lemma quot_spec clk : 0 <= clk < 2 ^ 32 ->
  let q := (4 * clk + 57600) / 115200 in
  uart_quot clk = (if bool_decide (1 <= q / 64 <= 0xFFFF) then q else 0) /\ Z.abs (2 * (q * UART_BAUD - 4 * clk)) <= UART_BAUD.
Proof using.
  intros Hc q. unfold uart_quot, UART_BAUD. rewrite Z.shiftl_mul_pow2 by lia. change (clk * 2 ^ 2) with (clk * 4). change (Z.shiftr 115200 1) with 57600.
  rewrite u64_small by lia. replace (clk * 4 + 57600) with (4 * clk + 57600) by lia. fold q.
  assert (Hq : 0 <= q < 2 ^ 25) by (unfold q; Z.div_mod_to_equations; lia). rewrite Z.shiftr_div_pow2 by lia. change (2 ^ 6) with 64.
  rewrite u32_small by (Z.div_mod_to_equations; lia). split; [| unfold q; Z.div_mod_to_equations; lia].
  destruct (Z.eqb_spec clk 0) as [-> | Hne]; cbn [negb]; [by rewrite bool_decide_eq_false_2 by (unfold q; Z.div_mod_to_equations; lia) |].
  assert (0 <= q / 64) by (apply Z.div_pos; lia). case_bool_decide as E; destruct (Z.eqb_spec (q / 64) 0), (Z.gtb_spec (q / 64) 0xFFFF); cbn [orb]; (done || lia).
Qed.

Lemma drain_spec k : forall d n, exists d', drain_loop k (Uart d B n) = Uart d' B n /\ p_rx d' = drop k (p_rx d) /\ p_sent d' = p_sent d /\ same_line d d'.
Proof using HB.
  induction k as [| k IH]; intros d n; cbn [drain_loop].
  - exists d. split_and!; done.
  - rewrite look_at, flag_rx. case_bool_decide as E; cbn [negb].
    + eexists. split; [reflexivity |]. cbn. rewrite E. done.
    + destruct (p_rx d) as [| x rx] eqn:Er; [done |]. rewrite u_read_at by (unfold UART_DR; lia). unfold pl_get, UART_DR. cbn.
      destruct (IH (set_rx (set_rx d (x :: rx) (Nat.pred (p_busy d))) rx (Nat.pred (p_busy d))) n) as (d' & -> & H). by exists d'.
Qed.

(** The device when uart_config starts to drain. *)
Lemma config_dev clk d n : let q := uart_quot clk in
  let depth := if Z.land (p_rev d) 0xF >=? 3 then 32 else 16 in
  let ibrd := if q =? 0 then p_ibrd d else Z.land (u32 (Z.shiftr q 6)) 0xFFFF in
  let fbrd := if q =? 0 then p_fbrd d else Z.land (u32 (Z.land q 0x3F)) 0x3F in
  uart_config (Uart d B n) clk = drain_loop (Z.to_nat (2 * depth))
    (Uart (set_ctl (set_line d ibrd fbrd (64 * ibrd + fbrd) 0x70) 0x301 0x12 0x50 (Z.land (p_ris d) (u32 (Z.lnot UART_INTR_ALL)))) B depth).
Proof using HB.
  intros q depth ibrd fbrd. unfold uart_config. rewrite u_read_at by (unfold UART_PIDR2; lia). cbn [u_dev u_base uart_fifo_depth]. fold q.
  change (fst (pl_get d UART_PIDR2)) with d. change (snd (pl_get d UART_PIDR2)) with (Z.shiftl (p_rev d) 4).
  rewrite Z.shiftr_shiftl_l by lia. change (Z.shiftl (p_rev d) (4 - 4)) with (p_rev d). change (if Z.land (p_rev d) 0xF >=? 3 then UART_FIFO_REV3 else UART_FIFO_REV2) with depth.
  unfold ibrd, fbrd. destruct (q =? 0); cbn [negb]; rewrite !u_write_at by (vm_compute; split; congruence);
    (replace (Z.to_nat (2 * depth)) with (Z.to_nat (Z.shiftl depth 1)) by (f_equal; rewrite Z.shiftl_mul_pow2 by lia; lia)); reflexivity.
Qed.

Lemma ris_cleared r : 0 <= r < 0x800 -> Z.land r (u32 (Z.lnot UART_INTR_ALL)) = 0.
Proof using.
  intros Hr. change (u32 (Z.lnot UART_INTR_ALL)) with (Z.shiftl (Z.ones 21) 11). apply Z.bits_inj'. intros i Hi. rewrite Z.land_spec, Z.bits_0, Z.shiftl_spec by done.
  destruct (Z.ltb_spec i 11); [rewrite (Z.testbit_neg_r _ (i - 11)) by lia; apply andb_false_r |]. by rewrite (testbit_high r 11) by lia.
Qed.

(** The two halves of a divisor that fits. *)
Lemma div_halves q : 0 <= q -> q / 64 <= 0xFFFF -> 64 * Z.land (u32 (Z.shiftr q 6)) 0xFFFF + Z.land (u32 (Z.land q 0x3F)) 0x3F = q.
Proof using.
  intros H0 Hq. rewrite Z.shiftr_div_pow2 by lia. change (2 ^ 6) with 64. change 0xFFFF with (Z.ones 16) at 1. change 0x3F with (Z.ones 6). rewrite !Z.land_ones by lia.
  change (2 ^ 6) with 64. change (2 ^ 16) with 65536. assert (0 <= q / 64) by (apply Z.div_pos; lia). pose proof (Z.mod_pos_bound q 64 ltac:(lia)).
  rewrite !u32_small by lia. rewrite (Z.mod_small (q / 64)), Zmod_mod by lia. symmetry. apply Z.div_mod. lia.
Qed.

(** uart_config programs the line for 115200 baud: with a clock whose divisor fits, the
    divisor in use becomes the nearest 64th of clock / (16 * 115200), so that the rate is off
    by at most half a step, and IBRD and FBRD reach the divider because LCRH is written after
    them; with no clock, or one too slow or too fast, the divisor the firmware left is kept.
    The port ends enabled, 8 bits with FIFOs, all pending interrupts cleared and only the two
    receive interrupts unmasked, and a receive FIFO within twice its depth is emptied, so
    that the level interrupt can fire. *)
Theorem uart_config_programs_line clk d n : 0 <= clk < 2 ^ 32 -> 0 <= p_ris d < 0x800 -> p_div d = 64 * p_ibrd d + p_fbrd d ->
  let q := (4 * clk + 57600) / 115200 in
  let depth := if Z.land (p_rev d) 0xF >=? 3 then 32 else 16 in
  exists d', uart_config (Uart d B n) clk = Uart d' B depth /\
    p_div d' = (if bool_decide (1 <= q / 64 <= 0xFFFF) then q else p_div d) /\ Z.abs (2 * (q * UART_BAUD - 4 * clk)) <= UART_BAUD /\
    p_div d' = 64 * p_ibrd d' + p_fbrd d' /\
    p_cr d' = 0x301 /\ p_lcrh d' = 0x70 /\ p_ifls d' = 0x12 /\ p_imsc d' = 0x50 /\ p_ris d' = 0 /\
    p_rx d' = drop (Z.to_nat (2 * depth)) (p_rx d) /\ p_sent d' = p_sent d.
Proof using HB.
  intros Hc Hris Hdiv q depth. destruct (quot_spec clk Hc) as [Eq Hab]. fold q in Eq, Hab. assert (Hq : 0 <= q) by (unfold q; Z.div_mod_to_equations; lia).
  rewrite config_dev. fold depth. rewrite Eq. set (d0 := set_ctl _ _ _ _ _). destruct (drain_spec (Z.to_nat (2 * depth)) d0 depth) as (d' & -> & Hr & Hs & Hl).
  unfold same_line in Hl. injection Hl as _ E1 E2 E3 E4 E5 E6 E7 E8 _. exists d'. split; [done |]. rewrite E1, E2, E3, E4, E5, E6, E7, E8, Hr, Hs.
  cbn [d0 set_ctl set_line p_ibrd p_fbrd p_div p_lcrh p_cr p_ifls p_imsc p_ris p_rx p_sent]. split_and!; try done; [| by apply ris_cleared].
  case_bool_decide as E; [| by rewrite Hdiv]. destruct (Z.eqb_spec q 0) as [E0 | _]; [exfalso; Z.div_mod_to_equations; lia |]. apply div_halves; lia.
Qed.
End proofs.

(** ** Witnesses: a port at the address of QEMU's *)

Definition demo_port : pl011 := Pl011 3 13 2 834 0x70 0x301 0 0 0x50 [65; 66] [72] 2 (fun k => (k mod 3)%nat).

Lemma uart_delivers_in_order_witness : exists d',
  @uart_puts _ (port 0x9000000) 4 (Uart demo_port 0x9000000 16) [105; 10] = Some (Uart d' 0x9000000 16) /\ p_sent d' = [72; 105; 10] /\
  getcs 0x9000000 3 (Uart d' 0x9000000 16) = [65; 66; -1].
Proof.
  destruct (uart_delivers_in_order 0x9000000 ltac:(vm_compute; split; congruence) 4 [105; 10] 3 demo_port 16) as (d' & E & Hs & _ & Hg).
  - cbn. lia.
  - intros j. cbn. pose proof (Nat.mod_upper_bound j 3). lia.
  - repeat constructor; lia.
  - exists d'. split; [exact E |]. split; [exact Hs | exact Hg].
Defined.

Lemma uart_config_programs_line_witness : exists d',
  @uart_config _ (port 0x9000000) (Uart demo_port 0x9000000 16) 24000000 = Uart d' 0x9000000 32 /\ p_div d' = 833 /\ p_rx d' = [].
Proof.
  destruct (uart_config_programs_line 0x9000000 ltac:(vm_compute; split; congruence) 24000000 demo_port 16) as (d' & E & Hd & _ & _ & _ & _ & _ & _ & _ & Hr & _).
  - lia.
  - cbn. lia.
  - reflexivity.
  - exists d'. split; [exact E |]. split; [rewrite Hd; vm_compute; reflexivity | exact Hr].
Defined.
