(* ===== verification/Port.v ===== *)
(** * The console on its port

    Models the half of dev/console.c that drives the hardware: [console_init],
    [console_config], [console_filter], and [console_intr] with its reads of the receive FIFO
    and its echo and warnings interleaved, on the driver of [Uart], the log of [Printk] and
    the interrupt sources of [Intr]. The theorem composes them with the line discipline of
    [Console]. Nothing else is printed while the handler runs. *)

From S2P Require Import Prelude Mmu Exec Str Fmt Dtb Mmio Kmsg Console Printk Intr Uart.

Definition KERN_WARNING : Z := 4.

(** The string literals of console_rx_fault: the format, and the causes from 64 on. *)
Definition rx_fmt : list Z := chars "console: %s error on receive" ++ [10; 0].
Definition console_rodata : mem := fun a =>
  if a <? 64 then literal rx_fmt a
  else if a <? 80 then literal (chars "overrun") (a - 64)
  else if a <? 96 then literal (chars "break") (a - 80)
  else if a <? 112 then literal (chars "parity") (a - 96)
  else literal (chars "framing") (a - 112).

Definition rx_what (cause : Z) : Z :=
  if cause =? UART_DR_OE then 64 else if cause =? UART_DR_BE then 80 else if cause =? UART_DR_PE then 96 else 112.

(** Enough for the format and its argument. *)
Definition FMT_FUEL : nat := 64.

Section driver.
Context {D : Type} `{Mmio D}.
Implicit Types u : uart D.

Definition console_init (st : cons) u : cons * uart D := (Cons (c_buf st) 0 0 0, uart_init u).

Definition console_filter : Z := FILTER_SCHEDULE_THREAD.

(** [room] and [pid]: the memory for the source and its thread, see [intr_register]. *)
Definition console_config u (ints : ist) (pl : platform) (room : bool) (pid : Z) : res (uart D * ist) :=
  let u := uart_config u (uart_clk pl) in
  ints ← intr_register ints (uart_irq pl) "uart" true room pid;
  Ret (u, ints).

(** console_write: the bytes of the buffer one after the other. *)
Definition port_write (fuel : nat) u (l : list Z) : option (uart D) := uart_puts fuel u l.

(** A turn of the loop of console_intr after [uart_getc]. *)
Definition console_turn (st : cons) (e : rx_err) (raw : Z) : cons * rx_err * list cevent :=
  let '(e, ev1) := if negb (Z.land raw UART_DR_OE =? 0) then console_rx_fault e UART_DR_OE else (e, []) in
  let cause := console_rx_error raw in
  if negb (cause =? 0) then let '(e, ev2) := console_rx_fault e cause in (st, e, ev1 ++ ev2)
  else let '(st, ev2) := console_char st (Z.land raw UART_DR_DATA) in (st, e, ev1 ++ ev2).

(** The log as the handler's CPU sees it: [clk n] is the counter when record [n] is added, [hz]
    its frequency. *)
Context (clk : Z -> Z) (hz : Z).

(** pr_warn of console_rx_fault, and the flush of vprintk on the port. *)
Definition port_warn (fuel : nat) u (pk : prk) (c : kcpu) (cause : Z) : option (uart D * prk * kcpu) :=
  '(pk, c, out) ← printk_level FMT_FUEL console_rodata pk c (clk (next_seq (pk_ring pk))) hz KERN_WARNING 0 [rx_what cause];
  u ← port_write fuel u out;
  Some (u, pk, c).

(** What the turn does to the port: echoes and warnings, in order. *)
Fixpoint port_echo (fuel : nat) u (pk : prk) (c : kcpu) (ev : list cevent) : option (uart D * prk * kcpu) :=
  match ev with
  | [] => Some (u, pk, c)
  | EEcho l :: ev => u ← port_write fuel u l; port_echo fuel u pk c ev
  | EWarn cause :: ev => '(u, pk, c) ← port_warn fuel u pk c cause; port_echo fuel u pk c ev
  | EWakeup :: ev => port_echo fuel u pk c ev
  end.

(** The loop: [n] is what is left of CONSOLE_DRAIN_MAX, [fuel] bounds each wait for room. *)
Fixpoint port_intr (fuel n : nat) (st : cons) (e : rx_err) u (pk : prk) (c : kcpu) : option (cons * rx_err * list cevent * uart D * prk * kcpu) :=
  match n with
  | O => Some (st, e, [], u, pk, c)
  | S n =>
      let '(u, raw) := uart_getc u in
      if raw <? 0 then Some (st, e, [], u, pk, c)
      else
        let '(st, e, ev1) := console_turn st e raw in
        '(u, pk, c) ← port_echo fuel u pk c ev1;
        '(st, e, ev, u, pk, c) ← port_intr fuel n st e u pk c;
        Some (st, e, ev1 ++ ev, u, pk, c)
  end.
End driver.

(** ** What should happen *)

(** The warning, as text and as the record the log gets. *)
Definition warn_text (cause : Z) : list Z :=
  chars "console: " ++
  chars (if cause =? UART_DR_OE then "overrun" else if cause =? UART_DR_BE then "break" else if cause =? UART_DR_PE then "parity" else "framing") ++
  chars " error on receive" ++ [10].

Definition log_warn (clk : Z -> Z) (caller : Z) (lg : klog) (cause : Z) : klog :=
  fst (log_add lg caller (clk (nseq lg)) KERN_WARNING (warn_text cause)).

Definition log_events (clk : Z -> Z) (caller : Z) (lg : klog) (ev : list cevent) : klog :=
  fold_left (fun lg x => match x with EWarn cause => log_warn clk caller lg cause | _ => lg end) ev lg.

(** The bytes on the line: echoes as they are, warnings as the console renders their record. *)
Fixpoint wire (clk : Z -> Z) (hz caller n : Z) (ev : list cevent) : list Z :=
  match ev with
  | [] => []
  | EEcho l :: ev => l ++ wire clk hz caller n ev
  | EWarn cause :: ev => (u8 <$> render_record hz (Rec n (clk n) caller KERN_WARNING true (warn_text cause))) ++ wire clk hz caller (n + 1) ev
  | EWakeup :: ev => wire clk hz caller n ev
  end.

(** The receive errors of a raw value; a cause is warned of when its count leaves 0. *)
Definition faults (raw : Z) : list Z :=
  (if negb (Z.land raw UART_DR_OE =? 0) then [UART_DR_OE] else []) ++ (if negb (console_rx_error raw =? 0) then [console_rx_error raw] else []).

Fixpoint fault_all (e : rx_err) (causes : list Z) : rx_err * list cevent :=
  match causes with
  | [] => (e, [])
  | c :: causes => let '(e, w) := console_rx_fault e c in let '(e, ws) := fault_all e causes in (e, w ++ ws)
  end.

(** The line discipline on raw values: faults are counted, error-free bytes are typed. *)
Fixpoint raw_feed (t : tty) (e : rx_err) (raws : list Z) : tty * rx_err * list cevent :=
  match raws with
  | [] => (t, e, [])
  | raw :: raws =>
      let '(e, w) := fault_all e (faults raw) in
      let '(t, ev) := if console_rx_error raw =? 0 then tty_char t (Z.land raw 255) else (t, []) in
      let '(t, e, evs) := raw_feed t e raws in (t, e, w ++ ev ++ evs)
  end.

(** ** Lemmas *)

Definition echoed (ev : list cevent) : list Z := mjoin (map (fun x => match x with EEcho l => l | _ => [] end) ev).

Lemma echoed_app l l' : echoed (l ++ l') = echoed l ++ echoed l'.
Proof. unfold echoed. by rewrite map_app, join_app. Qed.

Lemma echoed_not_warn ev : echoed (not_warn ev) = echoed ev.
Proof. induction ev as [| [l | x |] ev IH]; [done | | exact IH | exact IH].
  change (l ++ echoed (not_warn ev) = l ++ echoed ev). by rewrite IH.
Qed.

Lemma console_intr_loop_turn n st e raw raws :
  console_intr_loop (S n) st e (raw :: raws) =
  let '(st, e, ev1) := console_turn st e raw in let '(r, ev) := console_intr_loop n st e raws in (r, ev1 ++ ev).
Proof.
  cbn [console_intr_loop]. unfold console_turn. destruct (if negb (Z.land raw UART_DR_OE =? 0) then _ else _) as [e1 ev1].
  destruct (negb (console_rx_error raw =? 0)).
  - destruct (console_rx_fault e1 _) as [e2 ev2]. destruct (console_intr_loop n st e2 raws). by rewrite app_assoc.
  - destruct (console_char st _) as [st' ev2]. destruct (console_intr_loop n st' e1 raws). by rewrite app_assoc.
Qed.

Lemma turn_faults st e raw : console_turn st e raw =
  let '(e, w) := fault_all e (faults raw) in
  let '(st, ev) := if console_rx_error raw =? 0 then console_char st (Z.land raw 255) else (st, []) in (st, e, w ++ ev).
Proof.
  unfold console_turn, faults, UART_DR_DATA. destruct (negb (Z.land raw UART_DR_OE =? 0)); destruct (Z.eqb_spec (console_rx_error raw) 0) as [_ | _]; cbn [negb app fault_all].
  all: repeat match goal with |- context [console_rx_fault ?a ?b] => destruct (console_rx_fault a b) end; try destruct (console_char _ _); by rewrite ?app_nil_r.
Qed.

Lemma loop_raw k : forall st e t raws, line st t -> exists st', let '(_, e', ev) := raw_feed t e (take k raws) in console_intr_loop k st e raws = (st', e', ev).
Proof.
  induction k as [| k IH]; intros st e t raws Hl; [by exists st |]. destruct raws as [| raw raws]; [by exists st |].
  rewrite console_intr_loop_turn, turn_faults. cbn [take raw_feed]. destruct (fault_all e (faults raw)) as [e1 w].
  assert (Hc : exists st1 t1 ev1, (if console_rx_error raw =? 0 then console_char st (Z.land raw 255) else (st, [])) = (st1, ev1) /\
    (if console_rx_error raw =? 0 then tty_char t (Z.land raw 255) else (t, [])) = (t1, ev1) /\ line st1 t1).
  { destruct (console_rx_error raw =? 0); [| by exists st, t, []]. destruct (console_char_refines st t (Z.land raw 255) Hl) as (st1 & -> & Hl1).
    destruct (tty_char t (Z.land raw 255)) as [t1 ev1]. by exists st1, t1, ev1. }
  destruct Hc as (st1 & t1 & ev1 & -> & -> & Hl1). destruct (IH st1 e1 t1 raws Hl1) as [st' H]. exists st'.
  destruct (raw_feed t1 e1 (take k raws)) as [[t2 e2] evs]. rewrite H. by rewrite <- app_assoc.
Qed.

Lemma fault_all_warns cs : forall e, (length (List.filter is_warn (fault_all e cs).2) <= length cs)%nat.
Proof.
  induction cs as [| c cs IH]; intros e; cbn [fault_all]; [done |]. assert (H1 : (length (List.filter is_warn (console_rx_fault e c).2) <= 1)%nat) by (unfold console_rx_fault; repeat case_match; cbn; lia).
  destruct (console_rx_fault e c) as [e1 w]. specialize (IH e1). destruct (fault_all e1 cs) as [e2 ws]. cbn [snd length] in *. rewrite List.filter_app, length_app. lia.
Qed.

Lemma faults_length raw : (length (faults raw) <= 2)%nat.
Proof. unfold faults. rewrite length_app. repeat case_match; cbn; lia. Qed.

Lemma char_no_warn t c : List.filter is_warn (tty_char t c).2 = [].
Proof.
  rewrite <- (not_warn_char t c). unfold not_warn. induction (tty_char t c).2 as [| x l IH]; [done |]. cbn. destruct x; cbn; done.
Qed.

(** At most two warnings a value, and none without a fault. *)
Lemma raw_feed_warns t e raws : (length (List.filter is_warn (raw_feed t e raws).2) <= 2 * length raws)%nat.
Proof.
  revert t e. induction raws as [| raw raws IH]; intros t e; cbn [raw_feed]; [cbn; lia |]. pose proof (fault_all_warns (faults raw) e) as Hf. pose proof (faults_length raw) as H2.
  destruct (fault_all e (faults raw)) as [e1 w]. pose proof (char_no_warn t (Z.land raw 255)) as Hc. set (x := if console_rx_error raw =? 0 then _ else _).
  assert (Hx : List.filter is_warn x.2 = []) by (unfold x; by destruct (console_rx_error raw =? 0)). destruct x as [t1 ev1].
  specialize (IH t1 e1). destruct (raw_feed t1 e1 raws) as [[t2 e2] evs]. cbn [snd length] in *. rewrite !List.filter_app, !length_app, Hx. cbn [length]. lia.
Qed.

Lemma raw_feed_quiet t e raws : Forall (fun raw => faults raw = []) raws -> List.filter is_warn (raw_feed t e raws).2 = [].
Proof.
  intros H. revert t e. induction H as [| raw raws Hf _ IH]; intros t e; cbn [raw_feed]; [done |]. rewrite Hf. cbn [fault_all].
  pose proof (char_no_warn t (Z.land raw 255)) as Hc. set (x := if console_rx_error raw =? 0 then _ else _).
  assert (Hx : List.filter is_warn x.2 = []) by (unfold x; by destruct (console_rx_error raw =? 0)). destruct x as [t1 ev1].
  specialize (IH t1 e). destruct (raw_feed t1 e raws) as [[t2 e2] evs]. cbn [snd app] in *. by rewrite List.filter_app, Hx, IH.
Qed.

(** What is echoed are bytes. *)
Lemma fault_echo e c : echoed (console_rx_fault e c).2 = [].
Proof. unfold console_rx_fault. repeat case_match; cbn; by repeat case_match. Qed.

Lemma kill_echo n : forall st, Forall (fun c => 0 <= c < 256) (echoed (kill_line n st).2).
Proof.
  induction n as [| n IH]; intros st; cbn [kill_line]; [constructor |]. case_match; [| constructor].
  specialize (IH (Cons (c_buf st) (c_r st) (c_w st) (u64 (c_e st - 1)))). destruct (kill_line n _) as [st' ev]. cbn in *. repeat (constructor; [lia |]). done.
Qed.

Lemma char_echo st c : 0 <= c < 256 -> Forall (fun c => 0 <= c < 256) (echoed (console_char st c).2).
Proof.
  intros Hc. unfold console_char. case_match; [apply kill_echo |].
  assert (He : forall x, 0 <= x < 256 -> Forall (fun c => 0 <= c < 256) (if x =? 8 then [8; 32; 8] else [x])) by (intros x Hx; case_match; repeat constructor; lia).
  repeat case_match; cbn; try constructor; try lia; rewrite ?app_nil_r; repeat constructor; try lia; apply He; lia.
Qed.

Lemma turn_echo st e raw : Forall (fun c => 0 <= c < 256) (echoed (console_turn st e raw).2).
Proof.
  unfold console_turn. pose proof (fault_echo e UART_DR_OE) as H1. destruct (console_rx_fault e UART_DR_OE) as [e1 ev1] eqn:E1.
  assert (Hd : 0 <= Z.land raw UART_DR_DATA < 256) by (unfold UART_DR_DATA; change 0xFF with (Z.ones 8); rewrite Z.land_ones by lia; apply Z.mod_pos_bound; lia).
  pose proof (char_echo st _ Hd) as H2. destruct (console_char st _) as [st' ev2].
  destruct (negb (Z.land raw UART_DR_OE =? 0)); destruct (negb (console_rx_error raw =? 0)).
  all: match goal with |- context [console_rx_fault ?x ?c] => pose proof (fault_echo x c) as H3; destruct (console_rx_fault x c) | _ => idtac end.
  all: cbn [snd] in *; rewrite ?echoed_app, ?H1; cbn [app]; rewrite ?H3; done.
Qed.

Definition bytes_ok (ev : list cevent) : Prop := Forall (fun c => 0 <= c < 256) (echoed ev).
Definition warnings (ev : list cevent) : list cevent := List.filter is_warn ev.

Lemma warnings_app l l' : warnings (l ++ l') = warnings l ++ warnings l'.
Proof. apply List.filter_app. Qed.

Lemma wire_app clk hz caller l l' : forall n, wire clk hz caller n (l ++ l') = wire clk hz caller n l ++ wire clk hz caller (n + Z.of_nat (length (warnings l))) l'.
Proof.
  induction l as [| [x | c |] l IH]; intros n; cbn [wire app].
  - cbn. by rewrite Z.add_0_r.
  - by rewrite IH, <- app_assoc.
  - rewrite IH, <- app_assoc. do 3 f_equal. cbn [warnings List.filter is_warn length]. unfold warnings. lia.
  - by rewrite IH.
Qed.

(** With no warning among them the bytes on the line are the echo. *)
Lemma wire_quiet clk hz caller n ev : warnings ev = [] -> wire clk hz caller n ev = echoed ev.
Proof.
  induction ev as [| [l | c |] ev IH]; intros Hw; [done | | done | by apply IH].
  change (echoed (EEcho l :: ev)) with (l ++ echoed ev). cbn [wire]. by rewrite IH.
Qed.

Lemma u8_bytes (l : list Z) : Forall (fun c => 0 <= c < 256) l -> u8 <$> l = l.
Proof. induction 1 as [| c l Hc _ IH]; [done |]. rewrite fmap_cons, IH. unfold u8. by rewrite Z.mod_small. Qed.

(** What the format and the cause make, by evaluation of the formatter on each cause. *)
Lemma warn_prints cause : exists toks, parse_fmt FMT_FUEL FMT_FUEL console_rodata 0 = Some toks /\ render FMT_FUEL console_rodata toks [rx_what cause] = Some (warn_text cause) /\
  recorded (warn_text cause) = warn_text cause /\ ends_line (warn_text cause) = true /\ 0 < Z.of_nat (length (warn_text cause)) < 2 ^ 31.
Proof.
  eexists. split; [vm_compute; reflexivity |]. unfold rx_what, warn_text.
  destruct (cause =? UART_DR_OE); [| destruct (cause =? UART_DR_BE); [| destruct (cause =? UART_DR_PE)]]; vm_compute; split_and!; reflexivity.
Qed.

Section proofs.
Context (B : Z) (HB : 0 <= B /\ B + 0x1000 <= 2 ^ 64).
#[local] Existing Instance port.
#[local] Abbreviation at_port d n := (@Uart pl011 d B n).

Lemma getc_spec d n : exists d', @uart_getc pl011 (port B) (at_port d n) = (at_port d' n, match p_rx d with [] => -1 | x :: _ => x end) /\
  p_rx d' = tail (p_rx d) /\ p_sent d' = p_sent d /\ p_wait d' = p_wait d /\ (p_busy d' <= p_busy d)%nat.
Proof using HB.
  unfold uart_getc. rewrite (look_at B HB), flag_rx. destruct (p_rx d) as [| x rx] eqn:Er.
  - eexists. split; [reflexivity |]. cbn. split_and!; [done .. | lia].
  - rewrite bool_decide_false by done. cbn [negb]. rewrite (u_read_at B HB) by (unfold UART_DR; lia). unfold pl_get, UART_DR. cbn.
    eexists. split; [reflexivity |]. cbn. split_and!; [done .. | lia].
Qed.

(** A device that takes each byte within [fuel] looks. *)
Definition prompt (fuel : nat) (d : pl011) : Prop := (p_busy d < fuel)%nat /\ forall k, (p_wait d k < fuel)%nat.

(** uart_putc of any value sends its low byte. *)
Lemma putc_low fuel : forall d n c, (p_busy d < fuel)%nat -> exists d', @uart_putc pl011 (port B) fuel (at_port d n) c = Some (at_port d' n) /\
  p_sent d' = p_sent d ++ [u8 c] /\ p_rx d' = p_rx d /\ p_busy d' = p_wait d (length (p_sent d)) /\ p_wait d' = p_wait d.
Proof using HB.
  induction fuel as [| fuel IH]; intros d n c Hb; [lia |]. cbn [uart_putc]. rewrite (look_at B HB), flag_tx. case_bool_decide as E; cbn [negb].
  - rewrite (u_write_at B HB) by (unfold UART_DR; lia). eexists. split; [reflexivity |]. unfold pl_set, UART_DR, take_byte. cbn. rewrite E. cbn.
    change 255 with (Z.ones 8). by rewrite Z.land_ones.
  - destruct (IH (set_rx d (p_rx d) (Nat.pred (p_busy d))) n c) as (d' & -> & H); [cbn; lia |]. by exists d'.
Qed.

Lemma write_spec fuel l : forall d n, prompt fuel d -> exists d',
  @port_write pl011 (port B) fuel (at_port d n) l = Some (at_port d' n) /\ p_sent d' = p_sent d ++ (u8 <$> l) /\ p_rx d' = p_rx d /\ prompt fuel d'.
Proof using HB.
  induction l as [| c l IH]; intros d n [Hb Hw]; [exists d; by rewrite app_nil_r |].
  destruct (putc_low fuel d n c Hb) as (d1 & E & Hs & Hr & Hb1 & Ew).
  destruct (IH d1 n) as (d' & E' & Hs' & Hr' & Hp); [split; [rewrite Hb1; apply Hw | by rewrite Ew] |].
  exists d'. split_and!; [unfold port_write; cbn [uart_puts]; rewrite E; exact E' | by rewrite Hs', Hs, <- app_assoc | congruence | done].
Qed.

(** The console has shown every record of the log. *)
Definition log_shown (pk : prk) (lg : klog) : Prop := ring (pk_ring pk) lg /\ pk_cons_seq pk = nseq lg.

Lemma warn_spec clk hz fuel cause d n pk c lg : prompt fuel d -> log_shown pk lg -> in_kmsg c = false -> nseq lg + 1 < 2 ^ 64 - 1 -> exists d' pk',
  @port_warn pl011 (port B) clk hz fuel (at_port d n) pk c cause = Some (at_port d' n, pk', c) /\
  p_sent d' = p_sent d ++ wire clk hz (kmsg_caller c) (nseq lg) [EWarn cause] /\ p_rx d' = p_rx d /\ prompt fuel d' /\
  log_shown pk' (log_warn clk (kmsg_caller c) lg cause).
Proof using HB.
  intros Hp [Hr Hc] Hk Hn. destruct (warn_prints cause) as (toks & Et & Er & Hrec & Hends & Hlen).
  destruct (vprintk_logs FMT_FUEL console_rodata pk lg c (clk (nseq lg)) hz KERN_WARNING 0 [rx_what cause] toks (warn_text cause) Hr Hc Hn Hk ltac:(done) Et Er ltac:(lia))
    as (k' & stg & shown & out & E & _ & H). destruct H as (Hr' & _ & Hn' & Hs); [by intros E0; rewrite E0 in Hlen; cbn in Hlen; lia |]. rewrite Hrec, Hends in *. injection Hs as -> ->.
  unfold port_warn, printk_level. rewrite (ring_next _ _ Hr), E. cbn [mbind option_bind].
  destruct (write_spec fuel (render_record hz (Rec (nseq lg) (clk (nseq lg)) (kmsg_caller c) (u8 KERN_WARNING) true (warn_text cause))) d n Hp) as (d' & -> & Hs & Hx & Hp').
  exists d', (Prk k' stg (nseq lg + 1)). split_and!; [done | by rewrite Hs; cbn [wire]; rewrite app_nil_r | done | done |].
  split; [exact Hr' | by rewrite <- Hn'].
Qed.

Lemma echo_spec clk hz fuel ev : forall d n pk c lg, prompt fuel d -> bytes_ok ev -> log_shown pk lg -> in_kmsg c = false ->
  nseq lg + Z.of_nat (length (warnings ev)) < 2 ^ 64 - 1 -> exists d' pk',
  @port_echo pl011 (port B) clk hz fuel (at_port d n) pk c ev = Some (at_port d' n, pk', c) /\
  p_sent d' = p_sent d ++ wire clk hz (kmsg_caller c) (nseq lg) ev /\ p_rx d' = p_rx d /\ prompt fuel d' /\
  log_shown pk' (log_events clk (kmsg_caller c) lg ev) /\ nseq (log_events clk (kmsg_caller c) lg ev) = nseq lg + Z.of_nat (length (warnings ev)).
Proof using HB.
  induction ev as [| x ev IH]; intros d n pk c lg Hp He Hl Hk Hn; [exists d, pk; cbn; rewrite app_nil_r; split_and!; [done .. | lia] |].
  destruct x as [l | cause |]; cbn [port_echo wire log_events fold_left].
  - apply Forall_app in He as [Hx He]. destruct (write_spec fuel l d n Hp) as (d1 & -> & Hs & Hr & Hp1). rewrite (u8_bytes l Hx) in Hs.
    destruct (IH d1 n pk c lg Hp1 He Hl Hk Hn) as (d' & pk' & E & Hs' & Hr' & Hp' & Hl' & Hn').
    exists d', pk'. split_and!; [exact E | by rewrite Hs', Hs, <- app_assoc | congruence | done | done | done].
  - cbn [warnings List.filter is_warn length] in Hn. fold (warnings ev) in Hn.
    destruct (warn_spec clk hz fuel cause d n pk c lg Hp Hl Hk ltac:(lia)) as (d1 & pk1 & -> & Hs & Hr & Hp1 & Hl1).
    assert (En : nseq (log_warn clk (kmsg_caller c) lg cause) = nseq lg + 1) by done.
    destruct (IH d1 n pk1 c _ Hp1 He Hl1 Hk ltac:(rewrite En; lia)) as (d' & pk' & E & Hs' & Hr' & Hp' & Hl' & Hn'). rewrite En in Hs', Hn'.
    exists d', pk'. cbn [mbind option_bind]. split_and!; [exact E | rewrite Hs', Hs; cbn [wire]; by rewrite app_nil_r, <- app_assoc | congruence | done | done |].
    cbn [warnings List.filter is_warn length]. fold (warnings ev). unfold log_events in Hn'. lia.
  - by apply IH.
Qed.

(** The loop on the port is the loop of [Console] on what the FIFO holds. *)
Lemma port_intr_spec clk hz fuel k : forall st e d n pk c lg, prompt fuel d -> Forall (fun x => 0 <= x) (p_rx d) -> log_shown pk lg -> in_kmsg c = false ->
  nseq lg + Z.of_nat (length (warnings (console_intr_loop k st e (p_rx d)).2)) < 2 ^ 64 - 1 -> exists st' e' ev d' pk',
  @port_intr pl011 (port B) clk hz fuel k st e (at_port d n) pk c = Some (st', e', ev, at_port d' n, pk', c) /\ console_intr_loop k st e (p_rx d) = (st', e', ev) /\
  p_sent d' = p_sent d ++ wire clk hz (kmsg_caller c) (nseq lg) ev /\ p_rx d' = drop k (p_rx d) /\ prompt fuel d' /\ log_shown pk' (log_events clk (kmsg_caller c) lg ev).
Proof using HB.
  induction k as [| k IH]; intros st e d n pk c lg Hp Hx Hl Hk Hn; [exists st, e, [], d, pk; by rewrite app_nil_r |].
  cbn [port_intr]. destruct (getc_spec d n) as (d1 & -> & Hr & Hs & Hw & Hb). assert (Hp1 : prompt fuel d1) by (destruct Hp as [P1 P2]; split; [lia | by rewrite Hw]).
  destruct (p_rx d) as [| raw rx] eqn:Er.
  - exists st, e, [], d1, pk. rewrite app_nil_r. split_and!; [done .. | by rewrite Hs | by rewrite Hr | done | done].
  - apply Forall_cons_1 in Hx as [Hraw Hx]. rewrite (proj2 (Z.ltb_ge raw 0)) by lia. rewrite console_intr_loop_turn in Hn |- *. pose proof (turn_echo st e raw) as Ht.
    destruct (console_turn st e raw) as [[st1 e1] ev1]. cbn [snd] in Ht. destruct (console_intr_loop k st1 e1 rx) as [r2 ev2] eqn:E2. cbn [snd] in Hn. rewrite warnings_app, length_app in Hn.
    destruct (echo_spec clk hz fuel ev1 d1 n pk c lg Hp1 Ht Hl Hk ltac:(lia)) as (d2 & pk2 & -> & Hs2 & Hr2 & Hp2 & Hl2 & Hn2). cbn [mbind option_bind].
    cbn [tail] in Hr. rewrite Hr in Hr2.
    destruct (IH st1 e1 d2 n pk2 c _ Hp2 ltac:(by rewrite Hr2) Hl2 Hk ltac:(rewrite Hr2, E2, Hn2; cbn [snd]; lia)) as (st' & e' & ev & d' & pk' & E & El & Hs' & Hr' & Hp' & Hl').
    rewrite E. rewrite Hr2 in El, Hr'. rewrite E2 in El. injection El as -> ->. exists st', e', (ev1 ++ ev), d', pk'.
    split_and!; [done | done | rewrite Hs', Hs2, Hs, Hn2, <- app_assoc; by rewrite wire_app | done | done | unfold log_events in *; by rewrite fold_left_app].
Qed.

(** ** Theorem *)

End proofs.

(** Eight interrupts, the port's among them, and "hx", a backspace, a byte with a parity error,
    "i" and return typed. *)
Definition port_pl : platform := Platform 0x9000000 24000000 5 0 0 0.
Definition port_ints : ist := Ist (fun _ => None) 8 (fun _ => false) (fun _ => 0) (fun _ => HIdle) (fun _ => TTop).
Definition typed : pl011 := Pl011 3 13 2 834 0x70 0x301 0 0 0x50 [104; 120; 8; 0x231; 105; 13] [] 2 (fun k => (k mod 3)%nat).

