(* ===== verification/Panic.v ===== *)
(** * Panic

    Models kern/panic.c: one CPU takes the panic over, asks the others to stop with an SGI,
    waits for them within a bound, and only then touches the log, with locking off: the log is
    behind two locks (kmsg_lock and cons_out_lock) which a CPU in the kernel proper can hold
    when it panics or is stopped, and on which an acquire spins for good unless [panicking] is
    set (acquire_spinlock_at of kern/spinlock.c). The CPUs take turns; a turn is one read or
    write of memory another CPU can see, a pass through the two locks being one turn. The time
    the wait takes is decided by the environment ([late]) when there is a timer and by the spin
    count when there is none. *)

From S2P Require Import Prelude.

Definition PANIC_STOP_SPINS : Z := 100000000.

(** Where a CPU is: in the kernel proper, or in panic() and the functions it calls. *)
Inductive ppc :=
| Run
| Enter                              (* interrupts off, before the cmpxchg *)
| Scan (i stuck spins : Z)           (* panic_stop_others: the for loop at [i] *)
| Done (stuck : Z)                   (* panic_stop_others has returned *)
| Flush (stuck : Z)                  (* panicking is set; kmsg_finalize and console_flush next *)
| Count (stuck : Z)                  (* before the line that counts the CPUs that did not stop *)
| Rep (i : Z)                        (* panic_report_stuck at [i] *)
| Final                              (* the message *)
| Stop                               (* panic_stop_self, before the store to halted *)
| Parked.

(** Lines of the log: by the kernel proper, how many CPUs did not stop, which, the message. *)
Inductive pline := LKern | LStuck (stuck : Z) | LRunning (i : Z) | LPanic.

(** The locks a line takes. *)
Inductive plock := KmsgLock | ConsLock.

#[export] Instance ppc_eq_dec : EqDecision ppc.
Proof. solve_decision. Defined.

(** [irqs]: interrupts unmasked; [gicon]: the CPU's interrupt interface is on; [sgi]: the
    panic SGI is pending. [online0] and [gicon0] are the two when the panic began and
    [answer] is what panic_stop_others returned; the program keeps none of them. The locks
    are given by their holder. *)
Record pmach := Pmach {
  pcs : Z -> ppc; irqs : Z -> bool; gicon : Z -> bool; online : Z -> bool; halted : Z -> bool; sgi : Z -> bool;
  panic_cpu : option Z; panicking : bool; plog : list (Z * pline);
  online0 : Z -> bool; gicon0 : Z -> bool; answer : option Z;
  kmsg_lock : option Z; cons_out_lock : option Z
}.

Definition at_pc (m : pmach) (c : Z) (p : ppc) : pmach :=
  Pmach ((pcs m).[c <- p]) (irqs m) (gicon m) (online m) (halted m) (sgi m) (panic_cpu m) (panicking m) (plog m) (online0 m) (gicon0 m) (answer m) (kmsg_lock m) (cons_out_lock m).
Definition set_irqs (m : pmach) (c : Z) (b : bool) : pmach :=
  Pmach (pcs m) ((irqs m).[c <- b]) (gicon m) (online m) (halted m) (sgi m) (panic_cpu m) (panicking m) (plog m) (online0 m) (gicon0 m) (answer m) (kmsg_lock m) (cons_out_lock m).
Definition set_gicon (m : pmach) (c : Z) : pmach :=
  Pmach (pcs m) (irqs m) ((gicon m).[c <- true]) (online m) (halted m) (sgi m) (panic_cpu m) (panicking m) (plog m) (online0 m) (gicon0 m) (answer m) (kmsg_lock m) (cons_out_lock m).
Definition set_online (m : pmach) (c : Z) : pmach :=
  Pmach (pcs m) (irqs m) (gicon m) ((online m).[c <- true]) (halted m) (sgi m) (panic_cpu m) (panicking m) (plog m) (online0 m) (gicon0 m) (answer m) (kmsg_lock m) (cons_out_lock m).
Definition set_halted (m : pmach) (c : Z) : pmach :=
  Pmach (pcs m) (irqs m) (gicon m) (online m) ((halted m).[c <- true]) (sgi m) (panic_cpu m) (panicking m) (plog m) (online0 m) (gicon0 m) (answer m) (kmsg_lock m) (cons_out_lock m).
Definition set_sgi (m : pmach) (f : Z -> bool) : pmach :=
  Pmach (pcs m) (irqs m) (gicon m) (online m) (halted m) f (panic_cpu m) (panicking m) (plog m) (online0 m) (gicon0 m) (answer m) (kmsg_lock m) (cons_out_lock m).
Definition take_panic (m : pmach) (c : Z) : pmach :=
  Pmach (pcs m) (irqs m) (gicon m) (online m) (halted m) (sgi m) (Some c) (panicking m) (plog m) (online m) (gicon m) (answer m) (kmsg_lock m) (cons_out_lock m).
Definition set_panicking (m : pmach) : pmach :=
  Pmach (pcs m) (irqs m) (gicon m) (online m) (halted m) (sgi m) (panic_cpu m) true (plog m) (online0 m) (gicon0 m) (answer m) (kmsg_lock m) (cons_out_lock m).
Definition log_line (m : pmach) (c : Z) (l : pline) : pmach :=
  Pmach (pcs m) (irqs m) (gicon m) (online m) (halted m) (sgi m) (panic_cpu m) (panicking m) ((c, l) :: plog m) (online0 m) (gicon0 m) (answer m) (kmsg_lock m) (cons_out_lock m).
Definition set_answer (m : pmach) (stuck : Z) : pmach :=
  Pmach (pcs m) (irqs m) (gicon m) (online m) (halted m) (sgi m) (panic_cpu m) (panicking m) (plog m) (online0 m) (gicon0 m) (Some stuck) (kmsg_lock m) (cons_out_lock m).

Definition lock_of (m : pmach) (l : plock) : option Z := match l with KmsgLock => kmsg_lock m | ConsLock => cons_out_lock m end.
Definition set_lock (m : pmach) (l : plock) (h : option Z) : pmach :=
  Pmach (pcs m) (irqs m) (gicon m) (online m) (halted m) (sgi m) (panic_cpu m) (panicking m) (plog m) (online0 m) (gicon0 m) (answer m)
    (match l with KmsgLock => h | ConsLock => kmsg_lock m end) (match l with KmsgLock => cons_out_lock m | ConsLock => h end).

(** ** The operations *)

(** acquire_spinlock on a lock of the log: [None] when the CPU spins. A CPU that holds the lock
    itself fails the assertion before the loop instead, which is its turn [APanic]. *)
Definition log_acquire (m : pmach) (c : Z) (l : plock) : option pmach :=
  match lock_of m l with
  | None => Some (set_lock m l (Some c))
  | Some _ => if panicking m then Some m else None
  end.

(** release_spinlock frees the lock, whoever took it. *)
Definition log_release (m : pmach) (l : plock) : pmach := set_lock m l None.

(** The locks of kmsg_finalize and console_flush, and of vprintk, one after the other. *)
Definition log_through (m : pmach) (c : Z) : option pmach :=
  m ← log_acquire m c KmsgLock;
  m ← log_acquire (log_release m KmsgLock) c ConsLock;
  Some (log_release m ConsLock).

(** A line printed. *)
Definition print_line (m : pmach) (c : Z) (l : pline) : option pmach :=
  m ← log_through m c; Some (log_line m c l).

(** An SGI to all but the sender: it stays pending at each CPU whose interface is on. *)
Definition send_sgi_all (m : pmach) (c : Z) : pmach := set_sgi m (fun i => sgi m i || (negb (i =? c) && gicon m i)).

(** panic_stop_self: interrupts off, then the store; the CPU does nothing after it. *)
Definition panic_stop_self (m : pmach) (c : Z) : pmach := at_pc (set_irqs m c false) c Stop.
Definition panic_stop_store (m : pmach) (c : Z) : pmach := at_pc (set_halted m c) c Parked.

Definition panic_in_progress (m : pmach) : bool := bool_decide (panic_cpu m <> None).

Definition panic_enter (m : pmach) (c : Z) : pmach := at_pc (set_irqs m c false) c Enter.

(** The cmpxchg on panic_cpu, and the start of panic_stop_others for the CPU that wins. *)
Definition panic_claim (m : pmach) (c : Z) : pmach :=
  match panic_cpu m with
  | Some owner => if owner =? c then at_pc m c (Done 0) else panic_stop_self m c
  | None => at_pc (send_sgi_all (take_panic m c) c) c (Scan 0 0 PANIC_STOP_SPINS)
  end.

Section machine.
Context (ncpus : Z) (timed : bool).      (* whether CNTFRQ is set *)

Definition still_running (m : pmach) (c i : Z) : bool := negb (i =? c) && online m i && negb (halted m i).

(** A turn of panic_stop_others: one CPU looked at, or the end of a round. *)
Definition panic_stop_others (m : pmach) (c i stuck spins : Z) (late : bool) : pmach :=
  if i <? ncpus then at_pc m c (Scan (i + 1) (if still_running m c i then stuck + 1 else stuck) spins)
  else if stuck =? 0 then at_pc (set_answer m 0) c (Done 0)
  else
    let m := send_sgi_all m c in
    if timed then
      if late then at_pc (set_answer m stuck) c (Done stuck) else at_pc m c (Scan 0 0 spins)
    else if spins - 1 =? 0 then at_pc (set_answer m stuck) c (Done stuck)
    else at_pc m c (Scan 0 0 (spins - 1)).

(** A turn of panic_report_stuck. *)
Definition panic_report_stuck (m : pmach) (c i : Z) : option pmach :=
  if i <? ncpus then
    if still_running m c i then m ← print_line m c (LRunning i); Some (at_pc m c (Rep (i + 1)))
    else Some (at_pc m c (Rep (i + 1)))
  else Some (at_pc m c Final).

(** panicking = 1. *)
Definition panic_report (m : pmach) (c stuck : Z) : pmach := at_pc (set_panicking m) c (Flush stuck).

(** The log finalized and flushed. *)
Definition panic_flush (m : pmach) (c stuck : Z) : option pmach :=
  m ← log_through m c; Some (at_pc m c (if negb (stuck =? 0) then Count stuck else Final)).

Definition panic_count (m : pmach) (c stuck : Z) : option pmach :=
  m ← print_line m c (LStuck stuck); Some (at_pc m c (Rep 0)).

Definition panic_message (m : pmach) (c : Z) : option pmach :=
  m ← print_line m c LPanic; Some (panic_stop_self m c).

(** The turns of a CPU: a line from the kernel proper, a lock of the log taken or let go of
    there, interrupts masked or, with no such lock held, unmasked, the SGI taken, the scheduler seeing the panic, a call of panic(), a turn inside it, gic_inithart, and
    the store to online of mpmain, which only the CPUs started by smp_init reach. *)
Inductive pact := APrint | ALock (l : plock) | AUnlock (l : plock) | AMask (b : bool) | ATrap | APoll | APanic | ANext (late : bool) | AGic | AOnline.

Definition in_panic (p : ppc) : bool := match p with Run | Stop | Parked => false | _ => true end.

Definition exec (m : pmach) (c : Z) (a : pact) : option pmach :=
  match pcs m c, a with
  | Run, APrint => print_line m c LKern
  | Run, ALock l => m ← log_acquire m c l; Some (set_irqs m c false)
  | Run, AUnlock l => if bool_decide (lock_of m l = Some c) || panicking m then Some (log_release m l) else None
  | Run, AMask b => if b && (bool_decide (kmsg_lock m = Some c) || bool_decide (cons_out_lock m = Some c)) then None else Some (set_irqs m c b)
  | Run, AGic => Some (set_gicon m c)
  | Run, AOnline => if negb (c =? 0) && gicon m c then Some (set_online m c) else None
  | Run, ATrap => if irqs m c && sgi m c then Some (panic_stop_self (set_sgi m ((sgi m).[c <- false])) c) else None
  | Run, APoll => if panic_in_progress m then Some (panic_stop_self m c) else None
  | p, APanic => if in_panic p || bool_decide (p = Run) then Some (panic_enter m c) else None
  | Enter, ANext _ => Some (panic_claim m c)
  | Scan i stuck spins, ANext late => Some (panic_stop_others m c i stuck spins late)
  | Done stuck, ANext _ => Some (panic_report m c stuck)
  | Flush stuck, ANext _ => panic_flush m c stuck
  | Count stuck, ANext _ => panic_count m c stuck
  | Rep i, ANext _ => panic_report_stuck m c i
  | Final, ANext _ => panic_message m c
  | Stop, ANext _ => Some (panic_stop_store m c)
  | _, _ => None
  end.

Definition pstep (m m' : pmach) : Prop := exists c a, 0 <= c < ncpus /\ exec m c a = Some m'.
End machine.

Definition panic_boot : pmach :=
  Pmach (fun _ => Run) (fun _ => false) (fun _ => false) (fun _ => false) (fun _ => false) (fun _ => false) None false [] (fun _ => false) (fun _ => false) None None None.

(** ** Counting CPUs *)

Definition cnt (P : Z -> bool) (i : Z) : Z := Z.of_nat (length (List.filter P (seqZ 0 i))).

Lemma cnt_0 P : cnt P 0 = 0.
Proof. done. Qed.

Lemma cnt_S P i : 0 <= i -> cnt P (i + 1) = cnt P i + (if P i then 1 else 0).
Proof.
  intros Hi. unfold cnt. rewrite seqZ_app by lia. rewrite List.filter_app, length_app, Z.add_0_l. replace (seqZ i 1) with [i] by (unfold seqZ; cbn; f_equal; lia). cbn. destruct (P i); cbn; lia.
Qed.

Lemma cnt_le P Q i : (forall j, P j = true -> Q j = true) -> cnt P i <= cnt Q i.
Proof.
  intros H. unfold cnt. induction (seqZ 0 i) as [| j l IH]; [done |]. cbn. specialize (H j). destruct (P j); [rewrite H by done; cbn; lia |]. destruct (Q j); cbn; lia.
Qed.

Lemma cnt_zero P i j : cnt P i <= 0 -> 0 <= j < i -> P j = false.
Proof.
  intros H Hj. destruct (P j) eqn:E; [| done]. exfalso. unfold cnt in H. assert (Hin : In j (List.filter P (seqZ 0 i))).
  { apply List.filter_In. split; [| done]. apply list_elem_of_In, elem_of_seqZ. lia. }
  destruct (List.filter P (seqZ 0 i)); [done | cbn in H; lia].
Qed.

(** ** The invariant *)

(** The other CPUs that were online when the panic began and have not stopped. *)
Definition left (m : pmach) (o i : Z) : bool := negb (i =? o) && online0 m i && negb (halted m i).

Definition owns (p : ppc) : bool := match p with Scan _ _ _ | Done _ | Flush _ | Count _ | Rep _ | Final => true | _ => false end.

(** Past panicking = 1. *)
Definition reports (p : ppc) : bool := match p with Flush _ | Count _ | Rep _ | Final => true | _ => false end.

Section proofs.
Context (n : Z) (timed : bool).

Record pinv (m : pmach) : Prop := {
  pi_owner : forall c, owns (pcs m c) = true -> panic_cpu m = Some c;
  pi_parked : forall c, halted m c = true <-> pcs m c = Parked;
  pi_log : forall c l, (c, l) ∈ plog m -> l <> LKern -> panic_cpu m = Some c;
  pi_run : forall o, panic_cpu m = Some o -> pcs m o <> Run /\ (pcs m o = Stop \/ pcs m o = Parked -> (o, LPanic) ∈ plog m);
  pi_sent : forall c, sgi m c = true -> panic_cpu m <> None;
  pi_flag : panicking m = true -> panic_cpu m <> None;
  pi_on : forall c, online m c = true -> gicon m c = true /\ c <> 0;
  pi_on0 : forall c, panic_cpu m <> None -> (online0 m c = true -> online m c = true /\ gicon0 m c = true);
  pi_sgi : forall o c, panic_cpu m = Some o -> c <> o -> gicon0 m c = true -> pcs m c = Run -> sgi m c = true;
  pi_scan : forall o i stuck spins, pcs m o = Scan i stuck spins -> 0 <= i /\ 0 <= stuck /\ 1 <= spins /\ cnt (left m o) (Z.min i n) <= stuck;
  pi_ans0 : panic_cpu m = None -> answer m = None;
  pi_answer : forall o s, panic_cpu m = Some o -> answer m = Some s -> cnt (left m o) n <= s;
  pi_off : forall c, reports (pcs m c) = true -> panicking m = true
}.

Lemma boot_pinv : pinv panic_boot.
Proof. constructor; cbn; try done; intros; set_solver. Qed.

Lemma left_mono m m' o j : (forall i, online0 m' i = online0 m i) -> (forall i, halted m i = true -> halted m' i = true) -> left m' o j = true -> left m o j = true.
Proof.
  intros E H. unfold left. rewrite E. destruct (j =? o), (online0 m j), (halted m' j) eqn:Ej; cbn; try done. intros _. destruct (halted m j) eqn:Eh; [| done]. rewrite (H j Eh) in Ej. done.
Qed.

(** A turn that leaves the ownership, the halted CPUs and the answer as they are. *)
Record calm (m m' : pmach) : Prop := {
  ca_cpu : panic_cpu m' = panic_cpu m;
  ca_on0 : online0 m' = online0 m;
  ca_gic0 : gicon0 m' = gicon0 m;
  ca_ans : answer m' = answer m;
  ca_on : forall c, online m c = true -> online m' c = true;
  ca_gic : forall c, gicon m c = true -> gicon m' c = true;
  ca_onok : forall c, online m' c = true -> gicon m' c = true /\ c <> 0;
  ca_flag : panicking m' = true -> panicking m = true \/ panic_cpu m <> None;
  ca_off : panicking m = true -> panicking m' = true;
  ca_log : forall c l, (c, l) ∈ plog m' -> (c, l) ∈ plog m \/ l = LKern \/ panic_cpu m = Some c;
  ca_logs : forall x, x ∈ plog m -> x ∈ plog m'
}.

(** The turn of one CPU that owns the panic, or is out of it: its own place changes. *)
Lemma calm_pinv m m' c : pinv m -> calm m m' ->
  (forall c', c' <> c -> pcs m' c' = pcs m c') ->
  (forall c', c' <> c -> sgi m c' = true -> sgi m' c' = true) -> (forall c', sgi m' c' = true -> sgi m c' = true \/ panic_cpu m <> None) ->
  (forall c', halted m c' = true -> halted m' c' = true) -> (forall c', halted m' c' = true <-> pcs m' c' = Parked) ->
  (owns (pcs m' c) = true -> panic_cpu m = Some c) -> (reports (pcs m' c) = true -> panicking m' = true) ->
  (pcs m' c = Run -> pcs m c = Run /\ (sgi m c = true -> sgi m' c = true)) ->
  (panic_cpu m = Some c -> pcs m' c = Stop \/ pcs m' c = Parked -> (c, LPanic) ∈ plog m') ->
  (forall i stuck spins, pcs m' c = Scan i stuck spins -> 0 <= i /\ 0 <= stuck /\ 1 <= spins /\ cnt (left m c) (Z.min i n) <= stuck) ->
  pinv m'.
Proof.
  intros I C Hpc Hs Hs' Hh Hp Ho Hoff Hr Hst Hsc.
  assert (HL : forall o i, cnt (left m' o) i <= cnt (left m o) i).
  { intros o i. apply cnt_le. intros j. apply left_mono; [by rewrite (ca_on0 _ _ C) | done]. }
  constructor.
  - intros c'. rewrite (ca_cpu _ _ C). destruct (decide (c' = c)) as [-> | Hne]; [done |]. rewrite Hpc by done. apply (pi_owner m I).
  - done.
  - intros c' l Hl Hk. rewrite (ca_cpu _ _ C). destruct (ca_log _ _ C _ _ Hl) as [? | [? | ?]]; [by eapply (pi_log m I) | done | done].
  - intros o Eo. rewrite (ca_cpu _ _ C) in Eo. destruct (pi_run m I o Eo) as [H1 H2]. destruct (decide (o = c)) as [-> | Hne].
    + split; [intros E; by destruct (Hr E) | auto].
    + rewrite Hpc by done. split; [done |]. intros E. apply (ca_logs _ _ C). auto.
  - intros c' E. rewrite (ca_cpu _ _ C). destruct (Hs' c' E) as [? | ?]; [by apply (pi_sent m I c') | done].
  - intros E. rewrite (ca_cpu _ _ C). destruct (ca_flag _ _ C E) as [? | ?]; [by apply (pi_flag m I) | done].
  - apply (ca_onok _ _ C).
  - intros c' E. rewrite (ca_cpu _ _ C) in E. rewrite (ca_on0 _ _ C), (ca_gic0 _ _ C). intros E0. destruct (pi_on0 m I c' E E0) as [? ?]. split; [by apply (ca_on _ _ C) | done].
  - intros o c' Eo Hne Eg Er. rewrite (ca_cpu _ _ C) in Eo. rewrite (ca_gic0 _ _ C) in Eg. destruct (decide (c' = c)) as [-> | Hnc].
    + destruct (Hr Er) as [Er' Hk]. apply Hk. by apply (pi_sgi m I o).
    + rewrite Hpc in Er by done. apply Hs; [done |]. by apply (pi_sgi m I o).
  - intros o i stuck spins E. pose proof (HL o (Z.min i n)).
    assert (H' : 0 <= i /\ 0 <= stuck /\ 1 <= spins /\ cnt (left m o) (Z.min i n) <= stuck).
    { destruct (decide (o = c)) as [-> | Hne]; [by apply Hsc |]. rewrite Hpc in E by done. by apply (pi_scan m I). }
    lia.
  - rewrite (ca_cpu _ _ C), (ca_ans _ _ C). apply (pi_ans0 m I).
  - intros o s Eo Es. rewrite (ca_cpu _ _ C) in Eo. rewrite (ca_ans _ _ C) in Es. pose proof (pi_answer m I o s Eo Es). pose proof (HL o n). lia.
  - intros c' E. destruct (decide (c' = c)) as [-> | Hne]; [by apply Hoff |]. rewrite Hpc in E by done. apply (ca_off _ _ C). by apply (pi_off m I c').
Qed.

(** A turn that moves one CPU and sends or takes SGIs. *)
Lemma move_pinv m c p (b : bool) f : pinv m -> pcs m c <> Parked -> p <> Parked -> p <> Run ->
  (owns p = true -> panic_cpu m = Some c) -> (reports p = true -> panicking m = true) -> (p = Stop -> panic_cpu m = Some c -> (c, LPanic) ∈ plog m) ->
  (forall c', c' <> c -> sgi m c' = true -> f c' = true) -> (forall c', f c' = true -> sgi m c' = true \/ panic_cpu m <> None) ->
  (forall i stuck spins, p = Scan i stuck spins -> 0 <= i /\ 0 <= stuck /\ 1 <= spins /\ cnt (left m c) (Z.min i n) <= stuck) ->
  pinv (at_pc (set_irqs (set_sgi m f) c b) c p).
Proof.
  intros I Hp Hp' Hr Ho Hoff Hst Hs Hs' Hsc. apply (calm_pinv m _ c I); cbn.
  - constructor; cbn; auto. intros c'. apply (pi_on m I).
  - intros c' Hne. by rewrite upd_ne.
  - done.
  - done.
  - done.
  - intros c'. destruct (decide (c' = c)) as [-> | Hne]; [rewrite upd_eq | rewrite upd_ne by done; apply (pi_parked m I)].
    split; [intros E; by apply (pi_parked m I) in E | done].
  - by rewrite upd_eq.
  - by rewrite upd_eq.
  - by rewrite upd_eq.
  - rewrite upd_eq. intros Ec [E | E]; [auto | done].
  - rewrite upd_eq. done.
Qed.

Lemma set_sgi_id m : set_sgi m (sgi m) = m.
Proof. by destruct m. Qed.

Lemma set_irqs_id m c : set_irqs m c (irqs m c) = m.
Proof. destruct m. unfold set_irqs. cbn. by rewrite upd_same. Qed.

(** The same, with the interrupt mask or the SGIs kept. *)
Lemma goto_pinv m c p : pinv m -> pcs m c <> Parked -> p <> Parked -> p <> Run ->
  (owns p = true -> panic_cpu m = Some c) -> (reports p = true -> panicking m = true) -> (p = Stop -> panic_cpu m = Some c -> (c, LPanic) ∈ plog m) ->
  (forall i stuck spins, p = Scan i stuck spins -> 0 <= i /\ 0 <= stuck /\ 1 <= spins /\ cnt (left m c) (Z.min i n) <= stuck) ->
  pinv (at_pc m c p).
Proof.
  intros I H1 H2 H3 H4 H5 H6 H7. replace (at_pc m c p) with (at_pc (set_irqs (set_sgi m (sgi m)) c (irqs m c)) c p) by (by rewrite set_sgi_id, set_irqs_id).
  apply move_pinv; auto.
Qed.

(** A turn in which no CPU moves. *)
Lemma still_pinv m m' : pinv m -> calm m m' -> pcs m' = pcs m -> halted m' = halted m -> (forall c, sgi m c = true -> sgi m' c = true) ->
  (forall c, sgi m' c = true -> sgi m c = true \/ panic_cpu m <> None) -> pinv m'.
Proof.
  intros I C Ep Eh Hs Hs'. apply (calm_pinv m m' 0 I C); rewrite ?Ep, ?Eh; auto.
  - apply (pi_parked m I).
  - apply (pi_owner m I).
  - intros E. apply (ca_off _ _ C). by apply (pi_off m I 0).
  - intros Eo E. apply (ca_logs _ _ C). by apply (pi_run m I).
  - apply (pi_scan m I).
Qed.

Lemma log_pinv m c l : pinv m -> l = LKern \/ panic_cpu m = Some c -> pinv (log_line m c l).
Proof.
  intros I Hl. apply (still_pinv m); try done; [| by left]. constructor; cbn; auto; [apply (pi_on m I) | | intros x Hx; by right].
  intros c' l' [E | E]%elem_of_cons; [| by left]. injection E as -> ->. tauto.
Qed.

Lemma lock_pinv m l h : pinv m -> pinv (set_lock m l h).
Proof. intros I. apply (still_pinv m); try done; [| by left]. constructor; cbn; auto. apply (pi_on m I). Qed.

(** What a pass through the locks changes. *)
Lemma acquire_same m c l m' : log_acquire m c l = Some m' -> m' = m \/ m' = set_lock m l (Some c).
Proof. unfold log_acquire. destruct (lock_of m l); [destruct (panicking m) |]; intros [= <-]; auto. Qed.

Lemma acquire_pinv m c l m' : pinv m -> log_acquire m c l = Some m' -> pinv m'.
Proof. intros I [-> | ->]%acquire_same; [done | by apply lock_pinv]. Qed.

Lemma through_pinv m c m' : pinv m -> log_through m c = Some m' -> pinv m'.
Proof.
  intros I. unfold log_through. destruct (log_acquire m c KmsgLock) as [m1 |] eqn:E1; [| done]. cbn [mbind option_bind].
  destruct (log_acquire (log_release m1 KmsgLock) c ConsLock) as [m2 |] eqn:E2; [| done]. intros [= <-].
  apply lock_pinv. eapply acquire_pinv; [| exact E2]. apply lock_pinv. by eapply acquire_pinv.
Qed.

(** All but the locks is as it was. *)
Lemma through_same m c m' : log_through m c = Some m' -> m' = set_lock (set_lock m KmsgLock None) ConsLock None.
Proof.
  unfold log_through. destruct (log_acquire m c KmsgLock) as [m1 |] eqn:E1; [| done]. cbn [mbind option_bind].
  destruct (log_acquire (log_release m1 KmsgLock) c ConsLock) as [m2 |] eqn:E2; [| done]. intros [= <-].
  apply acquire_same in E1 as [-> | ->]; apply acquire_same in E2 as [-> | ->]; done.
Qed.

Lemma print_same m c l m' : print_line m c l = Some m' -> m' = log_line (set_lock (set_lock m KmsgLock None) ConsLock None) c l.
Proof. unfold print_line. destruct (log_through m c) as [m1 |] eqn:E; [| done]. intros [= <-]. by rewrite (through_same m c m1 E). Qed.

(** With locking off nobody spins. *)
Lemma through_off m c : panicking m = true -> log_through m c = Some (set_lock (set_lock m KmsgLock None) ConsLock None).
Proof.
  intros Hp. assert (H : exists m', log_through m c = Some m').
  { unfold log_through, log_acquire. destruct (lock_of m KmsgLock); rewrite ?Hp; cbn; (destruct (cons_out_lock m); [rewrite Hp |]; by eexists). }
  destruct H as [m' H]. rewrite H. by rewrite <- (through_same m c m' H).
Qed.

Lemma print_off m c l : panicking m = true -> print_line m c l = Some (log_line (set_lock (set_lock m KmsgLock None) ConsLock None) c l).
Proof. intros Hp. unfold print_line. by rewrite through_off. Qed.

Lemma irqs_pinv m c b : pinv m -> pinv (set_irqs m c b).
Proof. intros I. apply (still_pinv m); try done; [| by left]. constructor; cbn; auto. apply (pi_on m I). Qed.

Lemma flag_pinv m c : pinv m -> panic_cpu m = Some c -> pinv (set_panicking m).
Proof. intros I E. apply (still_pinv m); try done; [| by left]. constructor; cbn; auto; [apply (pi_on m I) |]. intros _. right. by rewrite E. Qed.

Lemma gicon_pinv m c : pinv m -> pinv (set_gicon m c).
Proof.
  intros I. apply (still_pinv m); try done; [| by left]. constructor; cbn; auto.
  - intros c'. destruct (decide (c' = c)) as [-> | ?]; [by rewrite upd_eq | by rewrite upd_ne].
  - intros c' E. destruct (pi_on m I c' E). split; [| done]. destruct (decide (c' = c)) as [-> | ?]; [by rewrite upd_eq | by rewrite upd_ne].
Qed.

Lemma online_pinv m c : pinv m -> c <> 0 -> gicon m c = true -> pinv (set_online m c).
Proof.
  intros I Hc Hg. apply (still_pinv m); try done; [| by left]. constructor; cbn; auto.
  - intros c'. destruct (decide (c' = c)) as [-> | ?]; [by rewrite upd_eq | by rewrite upd_ne].
  - intros c'. destruct (decide (c' = c)) as [-> | ?]; [done | rewrite upd_ne by done; apply (pi_on m I)].
Qed.

Lemma sgi_pinv m c : pinv m -> panic_cpu m <> None -> pinv (send_sgi_all m c).
Proof.
  intros I Hp. apply (still_pinv m); try done; cbn; [constructor; cbn; auto; apply (pi_on m I) | by intros c' -> | auto].
Qed.

Lemma answer_pinv m c s : pinv m -> panic_cpu m = Some c -> cnt (left m c) n <= s -> pinv (set_answer m s).
Proof. intros I Ec Hs. destruct I. constructor; cbn; auto; [congruence |]. intros o s' Eo [= <-]. replace o with c by congruence. done. Qed.

Lemma halt_pinv m c : pinv m -> pcs m c = Stop -> pinv (panic_stop_store m c).
Proof.
  intros I E. apply (calm_pinv m _ c I); cbn; try done; rewrite ?upd_eq; try done.
  - constructor; cbn; auto. apply (pi_on m I).
  - intros c' Hne. by rewrite upd_ne.
  - auto.
  - intros c' Hh. destruct (decide (c' = c)) as [-> | ?]; [by rewrite upd_eq | by rewrite upd_ne].
  - intros c'. destruct (decide (c' = c)) as [-> | ?]; [by rewrite !upd_eq | rewrite !upd_ne by done; apply (pi_parked m I)].
  - intros Ec _. apply (pi_run m I c Ec). by left.
Qed.

(** The CPU that wins the cmpxchg. *)
Lemma claim_pinv m c : pinv m -> pcs m c = Enter -> panic_cpu m = None -> pinv (at_pc (send_sgi_all (take_panic m c) c) c (Scan 0 0 PANIC_STOP_SPINS)).
Proof.
  intros I E Hn. assert (Hno : forall c', owns (pcs m c') = true -> False) by (intros c' H; apply (pi_owner m I) in H; congruence).
  constructor; cbn.
  - intros c'. destruct (decide (c' = c)) as [-> | ?]; [by rewrite upd_eq | rewrite upd_ne by done; intros H; by destruct (Hno c')].
  - intros c'. destruct (decide (c' = c)) as [-> | ?]; [rewrite upd_eq | rewrite upd_ne by done; apply (pi_parked m I)]. split; [| done]. intros H. apply (pi_parked m I) in H. congruence.
  - intros c' l Hl Hk. pose proof (pi_log m I c' l Hl Hk). congruence.
  - intros o [= <-]. rewrite upd_eq. split; [done | by intros [? | ?]].
  - done.
  - done.
  - apply (pi_on m I).
  - intros c' _ H. split; [done | by apply (pi_on m I)].
  - intros o c' [= <-] Hne Hg _. rewrite Hg, (proj2 (Z.eqb_neq c' c) Hne). by rewrite orb_true_r.
  - intros o i stuck spins. destruct (decide (o = c)) as [-> | ?]; [rewrite upd_eq; intros [= <- <- <-]; split_and!; (done || unfold PANIC_STOP_SPINS; lia || idtac) |].
    + destruct (Z.min_spec 0 n) as [[_ ->] | [? ->]]; [by rewrite cnt_0 | unfold cnt; rewrite seqZ_nil by lia; done].
    + rewrite upd_ne by done. intros H. destruct (Hno o). by rewrite H.
  - done.
  - intros o s _ Hs. by rewrite (pi_ans0 m I Hn) in Hs.
  - intros c'. destruct (decide (c' = c)) as [-> | ?]; [by rewrite upd_eq | rewrite upd_ne by done]. intros H. destruct (Hno c'). by destruct (pcs m c').
Qed.

Lemma still_left m c i : pinv m -> panic_cpu m <> None -> left m c i = true -> still_running m c i = true.
Proof.
  intros I Hp. unfold left, still_running. destruct (i =? c), (online0 m i) eqn:E, (halted m i); cbn; try done. intros _. by destruct (pi_on0 m I i Hp E) as [-> _].
Qed.

(** A turn of the wait. *)
Lemma stop_others_pinv m c i stuck spins late : pinv m -> pcs m c = Scan i stuck spins -> pinv (panic_stop_others n timed m c i stuck spins late).
Proof.
  intros I E. destruct (pi_scan m I c i stuck spins E) as (Hi & Hs & Hsp & Hc). assert (Ec : panic_cpu m = Some c) by (apply (pi_owner m I); by rewrite E).
  assert (Hnp : pcs m c <> Parked) by (by rewrite E). assert (Hp : panic_cpu m <> None) by (by rewrite Ec).
  assert (H0 : forall m', 0 <= 0 /\ 0 <= 0 /\ 1 <= spins /\ cnt (left m' c) (Z.min 0 n) <= 0).
  { intros m'. split_and!; try lia. unfold cnt. destruct (Z.min_spec 0 n) as [[_ ->] | [? ->]]; [done | by rewrite seqZ_nil by lia]. }
  unfold panic_stop_others. destruct (Z.ltb_spec i n) as [Hin | Hin].
  - apply goto_pinv; try done. intros i' stuck' spins' [= <- <- <-]. rewrite Z.min_l in * by lia. rewrite cnt_S by done.
    pose proof (still_left m c i I Hp). destruct (left m c i), (still_running m c i); lia.
  - rewrite Z.min_r in Hc by lia. destruct (Z.eqb_spec stuck 0) as [-> | Hne].
    { apply goto_pinv; try done. by apply (answer_pinv m c). }
    assert (I' : pinv (send_sgi_all m c)) by (by apply sgi_pinv). assert (Ia : pinv (set_answer (send_sgi_all m c) stuck)) by (by apply (answer_pinv _ c)).
    destruct timed; [destruct late | destruct (Z.eqb_spec (spins - 1) 0)]; apply goto_pinv; try done; intros i' stuck' spins' [= <- <- <-]; destruct (H0 (send_sgi_all m c)) as (_ & _ & _ & ?); split_and!; (done || lia).
Qed.

(** The owner, past panicking = 1, goes on to another place of the report, after a line or not. *)
Lemma goto_off m c p : pinv m -> panic_cpu m = Some c -> reports (pcs m c) = true -> reports p = true -> pinv (at_pc m c p).
Proof.
  intros I Ec E Hp. pose proof (pi_off m I c E) as Hf. apply goto_pinv; try done; try (by intros ->); try (by intros Ep; rewrite Ep in E). by intros i stuck spins ->.
Qed.

Lemma line_pinv m c l p : pinv m -> panic_cpu m = Some c -> reports (pcs m c) = true -> reports p = true ->
  pinv (at_pc (log_line (set_lock (set_lock m KmsgLock None) ConsLock None) c l) c p).
Proof. intros I Ec E Hp. apply goto_off; try done. apply log_pinv; [by do 2 apply lock_pinv | by right]. Qed.

Lemma exec_pinv m c a m' : pinv m -> exec n timed m c a = Some m' -> pinv m'.
Proof.
  intros I Hx. unfold exec in Hx.
  assert (Hin : in_panic (pcs m c) || bool_decide (pcs m c = Run) = true -> pinv (panic_enter m c)).
  { intros H. apply (goto_pinv (set_irqs m c false) c Enter); [by apply irqs_pinv | | done ..]. cbn. intros E. by rewrite E in H. }
  assert (Hstop : pcs m c <> Parked -> panic_cpu m <> Some c -> pinv (panic_stop_self m c)).
  { intros H1 H2. apply goto_pinv; try done. by apply irqs_pinv. }
  destruct (pcs m c) as [| | i stuck spins | stuck | stuck | stuck | i | | |] eqn:E, a; try done; try (injection Hx as <-).
  all: try (apply Hin; reflexivity).
  all: try (assert (Ec : panic_cpu m = Some c) by (apply (pi_owner m I); by rewrite E)).
  - apply print_same in Hx as ->. apply log_pinv; [by do 2 apply lock_pinv | by left].
  - destruct (log_acquire m c l) as [m1 |] eqn:El; [| done]. injection Hx as <-. apply irqs_pinv. by eapply acquire_pinv.
  - destruct (bool_decide _ || _); [| done]. injection Hx as <-. by apply lock_pinv.
  - destruct (b && _); [done |]. injection Hx as <-. by apply irqs_pinv.
  - destruct (irqs m c && sgi m c) eqn:Es; [| done]. injection Hx as <-. apply andb_true_iff in Es as [_ Es].
    assert (Hne : panic_cpu m <> Some c) by (intros Ec; by destruct (pi_run m I c Ec)).
    apply (move_pinv m c Stop false); try done; try (by rewrite E).
    + intros c' Hc'. by rewrite upd_ne.
    + intros c' H. right. by apply (pi_sent m I c).
  - destruct (panic_in_progress m); [| done]. injection Hx as <-. apply Hstop; [done |]. intros Ec. by destruct (pi_run m I c Ec).
  - by apply gicon_pinv.
  - destruct (Z.eqb_spec c 0); [done |]. destruct (gicon m c) eqn:Eg; [| done]. injection Hx as <-. by apply online_pinv.
  - unfold panic_claim. destruct (panic_cpu m) as [o |] eqn:Ec; [| by apply claim_pinv]. destruct (Z.eqb_spec o c) as [-> | Hne]; [| apply Hstop; [done | congruence]].
    apply goto_pinv; try done. by rewrite E.
  - by apply stop_others_pinv.
  - unfold panic_report. apply goto_pinv; try done; [by apply (flag_pinv m c) | cbn; by rewrite E].
  - unfold panic_flush in Hx. destruct (log_through m c) as [m1 |] eqn:Ep; [| done]. injection Hx as <-. apply through_same in Ep as ->.
    destruct (negb (stuck =? 0)); (apply (goto_off (set_lock (set_lock m KmsgLock None) ConsLock None) c); [by do 2 apply lock_pinv | done | cbn; by rewrite E | done ..]).
  - unfold panic_count in Hx. destruct (print_line m c _) as [m1 |] eqn:Ep; [| done]. injection Hx as <-. apply print_same in Ep as ->. apply (line_pinv m c); [done | done | by rewrite E | done].
  - unfold panic_report_stuck in Hx. destruct (i <? n); [destruct (still_running m c i) |].
    + destruct (print_line m c _) as [m1 |] eqn:Ep; [| done]. injection Hx as <-. apply print_same in Ep as ->. apply (line_pinv m c); [done | done | by rewrite E | done].
    + injection Hx as <-. apply (goto_off m c); [done | done | by rewrite E | done].
    + injection Hx as <-. apply (goto_off m c); [done | done | by rewrite E | done].
  - unfold panic_message in Hx. destruct (print_line m c _) as [m1 |] eqn:Ep; [| done]. injection Hx as <-. apply print_same in Ep as ->.
    apply goto_pinv; try done; [apply irqs_pinv, log_pinv; [by do 2 apply lock_pinv | auto] | cbn; by rewrite E | intros _ _; by left].
  - by apply halt_pinv.
Qed.

Lemma reachable_pinv m : rtc (pstep n timed) panic_boot m -> pinv m.
Proof.
  revert m. apply rtc_ind_r; [exact boot_pinv |]. intros m1 m2 _ (c & a & _ & Hx) I. by eapply exec_pinv.
Qed.

Lemma through_log m c m' : log_through m c = Some m' -> plog m' = plog m.
Proof. by intros ->%through_same. Qed.

Lemma acquire_log m c l m' : log_acquire m c l = Some m' -> plog m' = plog m.
Proof. by intros [-> | ->]%acquire_same. Qed.

(** A turn adds at most one line, of the CPU whose turn it is. *)
Lemma exec_logs m c a m' (P : Z -> Prop) : P c -> exec n timed m c a = Some m' -> plog m' = plog m \/ exists c l, plog m' = (c, l) :: plog m /\ P c.
Proof.
  intros Hc. unfold exec, panic_claim, panic_stop_others, panic_report, panic_flush, panic_count, panic_message, panic_report_stuck, panic_stop_self, print_line.
  destruct (pcs m c) as [| | i stuck spins | stuck | stuck | stuck | i | | |], a; try done; cbn [in_panic orb]; intros Hx.
  all: repeat match type of Hx with
    | context [log_through ?x ?y] => let E := fresh "E" in destruct (log_through x y) eqn:E; [apply through_log in E; cbn [mbind option_bind] in Hx | done]
    | context [log_acquire ?x ?y ?z] => let E := fresh "E" in destruct (log_acquire x y z) eqn:E; [apply acquire_log in E; cbn [mbind option_bind] in Hx | done]
    | context [match ?b with true => _ | false => _ end] => destruct b
    | context [match ?b with Some _ => _ | None => _ end] => destruct b
    end; try done; injection Hx as <-; cbn; rewrite ?E; first [by left | right; by do 2 eexists].
Qed.

(** ** The owner alone gets its message out *)

Definition ostep (o : Z) (m m' : pmach) : Prop := exists a, exec n timed m o a = Some m'.

Definition told (o : Z) (m : pmach) : Prop := exists m', rtc (ostep o) m m' /\ (o, LPanic) ∈ plog m' /\ halted m' o = true.

Lemma told_next o m late m' : exec n timed m o (ANext late) = Some m' -> told o m' -> told o m.
Proof. intros Hx (m2 & Hr & H). exists m2. split; [| done]. eapply rtc_l; [by exists (ANext late) | done]. Qed.

(** One turn inside panic() from a known place. *)
Ltac turn E late := eapply (told_next _ _ late); [unfold exec; rewrite E; reflexivity |].

Lemma told_stop o m : pcs m o = Stop -> (o, LPanic) ∈ plog m -> told o m.
Proof. intros E H. turn E true. eexists. split; [apply rtc_refl |]. cbn. by rewrite upd_eq. Qed.

(** Past panicking = 1 every line passes the locks. *)
Lemma told_final o m : pcs m o = Final -> panicking m = true -> told o m.
Proof.
  intros E Hp. eapply (told_next _ _ true); [unfold exec, panic_message; rewrite E, print_off by done; reflexivity |].
  apply told_stop; [cbn; by rewrite upd_eq | by left].
Qed.

Lemma told_rep o k : forall m i, pcs m o = Rep i -> panicking m = true -> (Z.to_nat (n - i) <= k)%nat -> told o m.
Proof.
  induction k as [| k IH]; intros m i E Hp Hk; destruct (Z.ltb_spec i n) as [Hi | Hi]; try lia.
  2: destruct (still_running m o i) eqn:Es.
  all: eapply (told_next _ _ true); [unfold exec, panic_report_stuck; rewrite E; first [rewrite (proj2 (Z.ltb_lt i n) Hi), Es | rewrite (proj2 (Z.ltb_ge i n) Hi)]; rewrite ?print_off by done; reflexivity |].
  all: first [apply told_final; [cbn; by rewrite upd_eq | done] | apply (IH _ (i + 1)); [cbn; by rewrite upd_eq | done | lia]].
Qed.

Lemma told_count o m stuck : pcs m o = Count stuck -> panicking m = true -> told o m.
Proof.
  intros E Hp. eapply (told_next _ _ true); [unfold exec, panic_count; rewrite E, print_off by done; reflexivity |].
  eapply told_rep; [cbn; by rewrite upd_eq | done | reflexivity].
Qed.

Lemma told_flush o m stuck : pcs m o = Flush stuck -> panicking m = true -> told o m.
Proof.
  intros E Hp. eapply (told_next _ _ true); [unfold exec, panic_flush; rewrite E, through_off by done; reflexivity |].
  destruct (negb (stuck =? 0)); [apply (told_count o _ stuck) | apply told_final]; [cbn; by rewrite upd_eq | done | cbn; by rewrite upd_eq | done].
Qed.

Lemma told_done o m stuck : pcs m o = Done stuck -> told o m.
Proof. intros E. turn E true. apply (told_flush o _ stuck); [cbn; by rewrite upd_eq | done]. Qed.

Lemma told_goto o m stuck : told o (at_pc m o (Done stuck)).
Proof. apply (told_done o _ stuck). cbn. by rewrite upd_eq. Qed.

(** The rounds are bounded by the spin count when there is no timer. *)
Lemma told_scan o r : forall k m i stuck spins, pcs m o = Scan i stuck spins -> (Z.to_nat (n - i) <= k)%nat -> 1 <= spins <= Z.of_nat r -> told o m.
Proof.
  induction r as [| r IHr]; [lia |]. intros k. induction k as [| k IHk]; intros m i stuck spins E Hk Hs; turn E true; unfold panic_stop_others.
  all: destruct (Z.ltb_spec i n) as [Hi | Hi]; [first [lia | apply (IHk _ (i + 1) (if still_running m o i then stuck + 1 else stuck) spins); [cbn; by rewrite upd_eq | lia | done]] |].
  all: destruct (stuck =? 0); [apply told_goto |]; destruct timed; [apply told_goto |]; destruct (Z.eqb_spec (spins - 1) 0); [apply told_goto |].
  all: eapply (IHr (Z.to_nat (n - 0)) _ 0 0 (spins - 1)); [cbn; by rewrite upd_eq | lia | lia].
Qed.

(** a panic is reported by one CPU: over any interleaving of CPUs calling panic() at any
    time, nested or not, every line of the report and the message come from the CPU that won
    the cmpxchg; no other CPU gets further into panic() than the cmpxchg before it parks;
    locking is turned off only with an owner; and every other CPU whose interrupt interface
    was on when the panic began and that still runs has the stop request pending, so that it
    parks as soon as it takes an interrupt. *)
Theorem panic_one_reporter m : rtc (pstep n timed) panic_boot m ->
  (forall c l, (c, l) ∈ plog m -> l <> LKern -> panic_cpu m = Some c) /\
  (forall o c, panic_cpu m = Some o -> c <> o -> pcs m c = Run \/ pcs m c = Enter \/ pcs m c = Stop \/ pcs m c = Parked) /\
  (panicking m = true -> exists o, panic_cpu m = Some o /\ pcs m o <> Run) /\
  (forall o c, panic_cpu m = Some o -> c <> o -> gicon0 m c = true -> pcs m c = Run -> sgi m c = true /\
     (irqs m c = true -> exists m', exec n timed m c ATrap = Some m' /\ pcs m' c = Stop)).
Proof.
  intros Hr. pose proof (reachable_pinv m Hr) as I. split_and!.
  - apply (pi_log m I).
  - intros o c Eo Hne. destruct (owns (pcs m c)) eqn:E; [apply (pi_owner m I) in E; congruence |]. destruct (pcs m c); try done; tauto.
  - intros Hp. apply (pi_flag m I) in Hp. destruct (panic_cpu m) as [o |] eqn:Eo; [| done]. exists o. split; [done |]. by apply (pi_run m I).
  - intros o c Eo Hne Hg E. pose proof (pi_sgi m I o c Eo Hne Hg E) as Hs. split; [done |]. intros Hi. unfold exec. rewrite E, Hi, Hs. eexists. split; [reflexivity |]. cbn. by rewrite upd_eq.
Qed.

(** C24: panic_stop_others counts right: when it has answered [s], at most [s] of the other
    CPUs that were online when the panic began are not parked, whatever they did during the
    wait. In particular after the answer 0 they are all parked for good, and from then on
    every line in the log is the panicking CPU's or a CPU's that was not online. *)
Theorem panic_log_is_quiet m o s : rtc (pstep n timed) panic_boot m -> panic_cpu m = Some o -> answer m = Some s ->
  cnt (left m o) n <= s /\
  (s = 0 -> (forall c, 0 <= c < n -> c <> o -> online0 m c = true -> pcs m c = Parked) /\
     forall m', pstep n timed m m' -> plog m' = plog m \/ exists c l, plog m' = (c, l) :: plog m /\ (c = o \/ online0 m c = false)).
Proof.
  intros Hr Eo Es. pose proof (reachable_pinv m Hr) as I. pose proof (pi_answer m I o s Eo Es) as Hc. split; [done |]. intros ->.
  assert (Hp : forall c, 0 <= c < n -> c <> o -> online0 m c = true -> pcs m c = Parked).
  { intros c Hn Hne H0. apply (pi_parked m I). pose proof (cnt_zero _ _ c Hc Hn) as Hl. unfold left in Hl. rewrite (proj2 (Z.eqb_neq c o) Hne), H0 in Hl. by destruct (halted m c). }
  split; [done |]. intros m' (c & a & Hn & Hx).
  assert (Hq : pcs m c = Parked \/ c = o \/ online0 m c = false).
  { destruct (decide (c = o)); [tauto |]. destruct (online0 m c) eqn:E; [left; by apply Hp | tauto]. }
  destruct Hq as [E | Hq]; [unfold exec in Hx; rewrite E in Hx; by destruct a |]. clear Hp Hc. revert Hx. apply exec_logs. done.
Qed.

End proofs.

(** ** Runs *)

Fixpoint run (n : Z) (timed : bool) (m : pmach) (l : list (Z * pact)) : option pmach :=
  match l with
  | [] => Some m
  | (c, a) :: l => if (0 <=? c) && (c <? n) then match exec n timed m c a with Some m => run n timed m l | None => None end else None
  end.

Lemma run_steps n timed l : forall m m', run n timed m l = Some m' -> rtc (pstep n timed) m m'.
Proof.
  induction l as [| [c a] l IH]; intros m m'; cbn [run]; [intros [= <-]; apply rtc_refl |].
  destruct ((0 <=? c) && (c <? n)) eqn:Ec; [| done]. destruct (exec n timed m c a) as [m1 |] eqn:E; [| done]. intros H. apply (rtc_l _ _ m1); [| by apply IH].
  exists c, a. apply andb_true_iff in Ec. split; [lia | done].
Qed.

(** Three CPUs; the third panics, the second takes the SGI, the first has interrupts off. *)
Definition demo_sched : list (Z * pact) :=
  [(0, AGic); (1, AGic); (2, AGic); (1, AOnline); (2, AOnline); (1, AMask true); (2, APanic); (2, ANext false); (1, ATrap); (1, ANext false);
   (2, ANext false); (2, ANext false); (2, ANext false); (2, ANext false)].

Definition demo_panic : pmach := match run 3 true panic_boot demo_sched with Some m => m | None => panic_boot end.

Lemma demo_reachable : rtc (pstep 3 true) panic_boot demo_panic.
Proof. apply (run_steps 3 true demo_sched). vm_compute. reflexivity. Qed.

(** The boot CPU never sets its online flag (smp.c sets it in mpmain only), so a panic on
    another CPU does not wait for it: the count of CPUs that did not stop is 0 while the boot
    CPU runs on, and its output follows the message. *)
Lemma boot_cpu_not_waited_for : exists m, rtc (pstep 3 true) panic_boot m /\ panic_cpu m = Some 2 /\ answer m = Some 0 /\ gicon0 m 0 = true /\
  pcs m 0 = Run /\ plog m = [(0, LKern); (2, LPanic)].
Proof.
  eexists. split.
  - apply (run_steps 3 true (demo_sched ++ [(2, ANext false); (2, ANext false); (2, ANext false); (0, APrint)])). vm_compute. reflexivity.
  - vm_compute. split_and!; reflexivity.
Qed.

Lemma panic_one_reporter_witness : pcs demo_panic 1 = Parked /\ exists o, panic_cpu demo_panic = Some o.
Proof.
  destruct (panic_one_reporter 3 true demo_panic demo_reachable) as (_ & H & _ & _). split; [| by exists 2].
  destruct (H 2 1) as [E | [E | [E | E]]]; [reflexivity | discriminate | | | | exact E]; exfalso; vm_compute in E; discriminate.
Defined.

Lemma panic_log_is_quiet_witness : answer demo_panic = Some 0 /\ pcs demo_panic 1 = Parked.
Proof.
  split; [reflexivity |]. apply (proj1 (proj2 (panic_log_is_quiet 3 true demo_panic 2 0 demo_reachable eq_refl eq_refl) eq_refl) 1); [lia | discriminate | reflexivity].
Defined.

(** CPU 1 panics too, while it holds cons_out_lock, and is parked with it; CPU 2 was adding a
    record when it panicked. *)
Definition held_sched : list (Z * pact) :=
  [(0, AGic); (1, AGic); (2, AGic); (1, AOnline); (2, AOnline); (1, ALock ConsLock); (2, ALock KmsgLock); (2, APanic); (1, APanic); (2, ANext false); (1, ANext false); (1, ANext false)].
Definition demo_held : pmach := match run 3 true panic_boot held_sched with Some m => m | None => panic_boot end.

