(* ===== verification/Hart.v ===== *)
(** * Bringing up a CPU

    Models kvminithart (arch/pmap.c) with mte_init (arch/mte.c) and the register encodings
    of include/arch/mmu.h, sysreg.h, pan.h and mte.h; the cache maintenance of
    icache_sync_page. What a CPU does to itself is a trace of system operations, newest
    last; reading SCTLR gives the value written last. *)

From S2P Require Import Prelude Bits Mmu Asid Trap.

(** ** Encodings *)

Definition MAIR_DEVICE_nGnRnE : Z := 0x00.
Definition MAIR_NORMAL_WB : Z := 0xff.
Definition MAIR_NORMAL_TAGGED : Z := 0xf0.
Definition MAIR_VALUE : Z :=
  lor_all [Z.shiftl MAIR_DEVICE_nGnRnE (Z.shiftl MT_DEVICE_nGnRnE 3); Z.shiftl MAIR_NORMAL_WB (Z.shiftl MT_NORMAL 3);
           Z.shiftl MAIR_NORMAL_TAGGED (Z.shiftl MT_NORMAL_TAGGED 3)].

Definition TCR_T0SZ (va_bits : Z) : Z := Z.land (64 - va_bits) 0x3f.
Definition TCR_TG0_4KB : Z := Z.shiftl 0 14.
Definition TCR_IRGN0_WB_WA : Z := Z.shiftl 1 8.
Definition TCR_ORGN0_WB_WA : Z := Z.shiftl 1 10.
Definition TCR_SH0_INNER : Z := Z.shiftl 3 12.
Definition TCR_IPS_SHIFT : Z := 32.
Definition TCR_IPS (parange : Z) : Z := Z.shiftl (Z.land parange 0x7) TCR_IPS_SHIFT.
Definition TCR_HA : Z := Z.shiftl 1 39.
Definition TCR_TBI0 : Z := Z.shiftl 1 37.
Definition TCR_TBI1 : Z := Z.shiftl 1 38.
Definition TCR_AS : Z := Z.shiftl 1 36.
Definition TCR_T1SZ (va_bits : Z) : Z := Z.shiftl (Z.land (64 - va_bits) 0x3f) 16.
Definition TCR_TG1_4KB : Z := Z.shiftl 2 30.
Definition TCR_IRGN1_WB_WA : Z := Z.shiftl 1 24.
Definition TCR_ORGN1_WB_WA : Z := Z.shiftl 1 26.
Definition TCR_SH1_INNER : Z := Z.shiftl 3 28.

Definition SCTLR_EL1_M : Z := Z.shiftl 1 0.
Definition SCTLR_EL1_C : Z := Z.shiftl 1 2.
Definition SCTLR_EL1_SA : Z := Z.shiftl 1 3.
Definition SCTLR_EL1_SA0 : Z := Z.shiftl 1 4.
Definition SCTLR_EL1_EOS : Z := Z.shiftl 1 11.
Definition SCTLR_EL1_I : Z := Z.shiftl 1 12.
Definition SCTLR_EL1_TSCXT : Z := Z.shiftl 1 20.
Definition SCTLR_EL1_IESB : Z := Z.shiftl 1 21.
Definition SCTLR_EL1_EIS : Z := Z.shiftl 1 22.
Definition SCTLR_EL1_SPAN : Z := Z.shiftl 1 23.
Definition SCTLR_EL1_nTLSMD : Z := Z.shiftl 1 28.
Definition SCTLR_EL1_LSMAOE : Z := Z.shiftl 1 29.
Definition SCTLR_EL1_BASE : Z :=
  lor_all [SCTLR_EL1_LSMAOE; SCTLR_EL1_nTLSMD; SCTLR_EL1_EIS; SCTLR_EL1_IESB; SCTLR_EL1_TSCXT; SCTLR_EL1_EOS].

Definition SCTLR_EL1_TCF0_SHIFT : Z := 38.
Definition SCTLR_EL1_TCF0_SYNC : Z := Z.shiftl 1 SCTLR_EL1_TCF0_SHIFT.
Definition SCTLR_EL1_TCF0_MASK : Z := Z.shiftl 3 SCTLR_EL1_TCF0_SHIFT.
Definition SCTLR_EL1_TCF_SHIFT : Z := 40.
Definition SCTLR_EL1_TCF_MASK : Z := Z.shiftl 3 SCTLR_EL1_TCF_SHIFT.
Definition SCTLR_EL1_ATA0 : Z := Z.shiftl 1 42.
Definition SCTLR_EL1_ATA : Z := Z.shiftl 1 43.
Definition GCR_EL1_EXCLUDE_0_F : Z := 0x8001.
Definition RGSR_EL1_SEED_SHIFT : Z := 8.

Definition ID_AA64MMFR0_PARANGE_SHIFT : Z := 0.
Definition ID_AA64MMFR0_PARANGE_WIDTH : Z := 4.
Definition ID_AA64MMFR0_PARANGE_48 : Z := 5.
Definition ID_AA64MMFR1_HAFDBS_SHIFT : Z := 0.
Definition ID_AA64MMFR1_HAFDBS_WIDTH : Z := 4.
Definition ID_AA64MMFR1_HAFDBS_NONE : Z := 0.
Definition ID_AA64PFR1_MTE_SHIFT : Z := 8.
Definition ID_AA64PFR1_MTE_WIDTH : Z := 4.
Definition ID_AA64PFR1_MTE_MTE2 : Z := 2.

(** ** System operations *)

Inductive sysreg := MAIR | TCR | TTBR0 | TTBR1 | SCTLR | GCR | RGSR.

#[export] Instance sysreg_eq_dec : EqDecision sysreg.
Proof. solve_decision. Defined.

Inductive sysop := Msr (r : sysreg) (v : Z) | Dsb | DsbNsh | Isb | TlbiVmalle1 | IcIallu | PanOn.

(** The value of a register after a trace: the one written last, or [was]. *)
Definition reg_of (was : sysreg -> Z) (tr : list sysop) (r : sysreg) : Z :=
  fold_left (fun v op => match op with Msr r' x => if decide (r' = r) then x else v | _ => v end) tr (was r).

(** The identification registers of a CPU. *)
Record idregs := IdRegs { id_mmfr0 : Z; id_mmfr1 : Z; id_pfr1 : Z; mpidr_el1 : Z }.

Definition pa_range (id : idregs) : Z :=
  let parange := SYS_FIELD (id_mmfr0 id) ID_AA64MMFR0_PARANGE_SHIFT ID_AA64MMFR0_PARANGE_WIDTH in
  if parange >? ID_AA64MMFR0_PARANGE_48 then ID_AA64MMFR0_PARANGE_48 else parange.

Definition has_hafdbs (id : idregs) : bool :=
  negb (SYS_FIELD (id_mmfr1 id) ID_AA64MMFR1_HAFDBS_SHIFT ID_AA64MMFR1_HAFDBS_WIDTH =? ID_AA64MMFR1_HAFDBS_NONE).

Definition has_pan (id : idregs) : bool := negb (Z.land (Z.shiftr (id_mmfr1 id) 20) 0xF =? 0).

Definition has_mte2 (id : idregs) : bool := SYS_FIELD (id_pfr1 id) ID_AA64PFR1_MTE_SHIFT ID_AA64PFR1_MTE_WIDTH >=? ID_AA64PFR1_MTE_MTE2.

Definition mte_init (was : sysreg -> Z) (id : idregs) (tr : list sysop) : res (list sysop) :=
  if negb (has_mte2 id) then Panic "mte_init: CPU does not implement FEAT_MTE2"
  else
    let sctlr := reg_of was tr SCTLR in
    let sctlr := Z.land sctlr (u64 (Z.lnot SCTLR_EL1_TCF0_MASK)) in
    let sctlr := Z.lor sctlr SCTLR_EL1_TCF0_SYNC in
    let sctlr := Z.land sctlr (u64 (Z.lnot SCTLR_EL1_TCF_MASK)) in
    let sctlr := Z.lor sctlr SCTLR_EL1_ATA in
    let sctlr := Z.lor sctlr SCTLR_EL1_ATA0 in
    let tr := tr ++ [Msr SCTLR sctlr; Isb; Msr GCR GCR_EL1_EXCLUDE_0_F] in
    let seed := Z.shiftl (Z.land (Z.land (mpidr_el1 id) 0xff + 1) 0xffff) RGSR_EL1_SEED_SHIFT in
    let seed := Z.lor seed 0x1 in
    Ret (tr ++ [Msr RGSR seed; Isb]).

(** The TCR of a CPU. *)
Definition kvm_tcr (id : idregs) : Z :=
  let tcr := lor_all [TCR_T0SZ 48; TCR_TG0_4KB; TCR_IRGN0_WB_WA; TCR_ORGN0_WB_WA; TCR_SH0_INNER; TCR_IPS (pa_range id); TCR_TBI0; TCR_TBI1;
                      TCR_T1SZ 48; TCR_TG1_4KB; TCR_IRGN1_WB_WA; TCR_ORGN1_WB_WA; TCR_SH1_INNER] in
  let tcr := if asid_bits (id_mmfr0 id) =? 16 then Z.lor tcr TCR_AS else tcr in
  if has_hafdbs id then Z.lor tcr TCR_HA else tcr.

Definition kvm_sctlr : Z := lor_all [SCTLR_EL1_BASE; SCTLR_EL1_M; SCTLR_EL1_C; SCTLR_EL1_I; SCTLR_EL1_SA; SCTLR_EL1_SA0].

Definition kvminithart (was : sysreg -> Z) (id : idregs) (l0_table : Z) (tr : list sysop) : res (list sysop) :=
  let tr := tr ++ [Msr MAIR MAIR_VALUE] in
  let tr := tr ++ [Msr TCR (kvm_tcr id)] in
  let tr := tr ++ [Msr TTBR0 l0_table; Msr TTBR1 l0_table] in
  let tr := tr ++ [Dsb; Isb] in
  let tr := tr ++ [TlbiVmalle1; IcIallu; DsbNsh; Isb] in
  let tr := tr ++ [Msr SCTLR kvm_sctlr; Isb] in
  if negb (has_pan id) then Panic "kvminithart: CPU does not implement FEAT_PAN"
  else mte_init was id (tr ++ [PanOn; Isb]).

(** ** What the registers mean *)

Definition fld (v lo w : Z) : Z := Z.land (Z.shiftr v lo) (Z.ones w).

(** The memory type a descriptor names. *)
Definition mem_type (mair pte : Z) : Z := fld mair (8 * fld pte 2 3) 8.

(** The fields of TCR: size of the two address ranges, granules, physical size, 16-bit ASIDs,
    hardware access flags, tags ignored in the two ranges. *)
Record tcr_view := TcrView { tv_t0sz : Z; tv_t1sz : Z; tv_tg0 : Z; tv_tg1 : Z; tv_ips : Z; tv_as : bool; tv_ha : bool; tv_tbi : bool * bool }.
Definition view_tcr (v : Z) : tcr_view :=
  TcrView (fld v 0 6) (fld v 16 6) (fld v 14 2) (fld v 30 2) (fld v 32 3) (Z.testbit v 36) (Z.testbit v 39) (Z.testbit v 37, Z.testbit v 38).

(** SCTLR: translation, the caches, writable pages executable, PAN kept on entry (SPAN),
    what a tag mismatch does in user mode and in the kernel, access to tags in both. *)
Record sctlr_view := SctlrView { sv_m : bool; sv_c : bool; sv_i : bool; sv_wxn : bool; sv_span : bool; sv_tcf0 : Z; sv_tcf : Z; sv_ata : bool * bool }.
Definition view_sctlr (v : Z) : sctlr_view :=
  SctlrView (Z.testbit v 0) (Z.testbit v 2) (Z.testbit v 12) (Z.testbit v 19) (Z.testbit v 23) (fld v 38 2) (fld v 40 2) (Z.testbit v 42, Z.testbit v 43).

Lemma parange_cases id : pa_range id = 0 \/ pa_range id = 1 \/ pa_range id = 2 \/ pa_range id = 3 \/ pa_range id = 4 \/ pa_range id = 5.
Proof.
  unfold pa_range, SYS_FIELD, ID_AA64MMFR0_PARANGE_SHIFT, ID_AA64MMFR0_PARANGE_WIDTH, ID_AA64MMFR0_PARANGE_48. rewrite Z.shiftr_0_r.
  assert (H : 0 <= Z.land (id_mmfr0 id) (Z.shiftl 1 4 - 1)) by (apply Z.land_nonneg; right; vm_compute; discriminate).
  destruct (Z.gtb_spec (Z.land (id_mmfr0 id) (Z.shiftl 1 4 - 1)) 5); lia.
Qed.

Lemma view_kvm_tcr id : view_tcr (kvm_tcr id) = TcrView 16 16 0 2 (pa_range id) (asid_bits (id_mmfr0 id) =? 16) (has_hafdbs id) (true, true).
Proof.
  unfold kvm_tcr. destruct (asid_bits (id_mmfr0 id) =? 16), (has_hafdbs id);
    destruct (parange_cases id) as [-> | [-> | [-> | [-> | [-> | ->]]]]]; vm_compute; reflexivity.
Qed.

(** The seed of the tag generator is the low affinity byte and one. *)
Definition tag_seed (id : idregs) : Z := Z.lor (Z.shiftl (Z.land (Z.land (mpidr_el1 id) 0xff + 1) 0xffff) RGSR_EL1_SEED_SHIFT) 0x1.

Lemma seed_fields id : fld (tag_seed id) 8 16 = Z.land (mpidr_el1 id) 0xff + 1 /\ fld (tag_seed id) 0 4 = 1.
Proof.
  unfold fld, tag_seed, RGSR_EL1_SEED_SHIFT. assert (Ha : 0 <= Z.land (mpidr_el1 id) 0xff < 2 ^ 8) by (change 0xff with (Z.ones 8); rewrite Z.land_ones by lia; apply Z.mod_pos_bound; lia).
  change 0xffff with (Z.ones 16). set (a := Z.land (mpidr_el1 id) 0xff) in *. rewrite (Z.land_ones (a + 1) 16), (Z.mod_small (a + 1)) by lia. split.
  - rewrite Z.shiftr_lor, Z.shiftr_shiftl_l by lia. change (Z.shiftr 1 8) with 0. rewrite Z.lor_0_r. change (8 - 8) with 0. rewrite Z.shiftl_0_r, Z.land_ones, Z.mod_small by lia. done.
  - rewrite Z.shiftr_0_r, Z.land_lor_distr_l. rewrite (Z.land_ones _ 4), Z.shiftl_mul_pow2 by lia. change (2 ^ 8) with (16 * 2 ^ 4). rewrite Z.mul_assoc, Z_mod_mult. done.
Qed.

(** C34: kvminithart stops the kernel on a CPU without PAN or without synchronous tag checks,
    and programs any other CPU completely before it translates: every register that steers
    translation is written before the MMU bit, with the stale translations and instructions
    dropped in between, and none after. At the end the descriptor templates name the memory
    types they are meant to (device, write-back, tagged), both address ranges are 48 bits of
    4 KB pages from the table of kvminit, the physical size is the CPU's up to 48 bits, ASIDs
    are as wide as the ASID allocator believes, PAN is set on every exception, user accesses
    are tag-checked synchronously and kernel ones are not, and tags 0 and 15 are never drawn. *)
Theorem kvminithart_programs_cpu was id l0 :
  (has_pan id && has_mte2 id = false -> exists s, kvminithart was id l0 [] = Panic s) /\
  (has_pan id && has_mte2 id = true -> exists pre post sctlr', kvminithart was id l0 [] = Ret (pre ++ Msr SCTLR kvm_sctlr :: post) /\
     pre = [Msr MAIR MAIR_VALUE; Msr TCR (kvm_tcr id); Msr TTBR0 l0; Msr TTBR1 l0; Dsb; Isb; TlbiVmalle1; IcIallu; DsbNsh; Isb] /\
     (forall r v, Msr r v ∈ post -> r = SCTLR \/ r = GCR \/ r = RGSR) /\ PanOn ∈ post /\
     let regs := reg_of was (pre ++ Msr SCTLR kvm_sctlr :: post) in
     regs SCTLR = sctlr' /\
     map (mem_type (regs MAIR)) [BLOCK_DEVICE; BLOCK_NORMAL; PAGE_KERNEL; PAGE_USER] = [0x00; 0xff; 0xff; 0xf0] /\
     view_tcr (regs TCR) = TcrView 16 16 0 2 (pa_range id) (asid_bits (id_mmfr0 id) =? 16) (has_hafdbs id) (true, true) /\ 2 ^ (64 - 16) = MAXUVA /\
     regs TTBR0 = l0 /\ regs TTBR1 = l0 /\
     view_sctlr kvm_sctlr = SctlrView true true true false false 0 0 (false, false) /\
     view_sctlr sctlr' = SctlrView true true true false false 1 0 (true, true) /\
     (forall t, 0 <= t < 16 -> Z.testbit (regs GCR) t = ((t =? 0) || (t =? 15))) /\
     fld (regs RGSR) 8 16 = Z.land (mpidr_el1 id) 0xff + 1 /\ fld (regs RGSR) 0 4 = 1).
Proof.
  unfold kvminithart, mte_init. destruct (has_pan id); cbn [negb andb]; [| split; [by eexists | done]].
  destruct (has_mte2 id); cbn [negb]; [| split; [by eexists | done]]. split; [done |]. intros _. fold (tag_seed id).
  set (sctlr' := Z.lor (Z.lor (Z.land (Z.lor (Z.land _ _) _) _) _) _).
  exists [Msr MAIR MAIR_VALUE; Msr TCR (kvm_tcr id); Msr TTBR0 l0; Msr TTBR1 l0; Dsb; Isb; TlbiVmalle1; IcIallu; DsbNsh; Isb],
    [Isb; PanOn; Isb; Msr SCTLR sctlr'; Isb; Msr GCR GCR_EL1_EXCLUDE_0_F; Msr RGSR (tag_seed id); Isb], sctlr'. split; [reflexivity |]. split; [reflexivity |].
  split; [intros r v Hin; set_solver |]. split; [set_solver |]. cbv zeta. split; [reflexivity |]. split; [vm_compute; reflexivity |]. split; [apply view_kvm_tcr |].
  split; [reflexivity |]. split; [reflexivity |]. split; [reflexivity |]. split; [vm_compute; reflexivity |]. split; [vm_compute; reflexivity |]. split; [| apply seed_fields].
  intros t Ht. change (reg_of was _ GCR) with GCR_EL1_EXCLUDE_0_F. assert (Hc : t ∈ seqZ 0 16) by (apply elem_of_seqZ; lia). vm_compute in Hc. set_unfold in Hc. destruct_or?; subst; reflexivity.
Qed.

(** ** Instruction cache maintenance *)

Definition CTR_IMINLINE_SHIFT : Z := 0.
Definition CTR_DMINLINE_SHIFT : Z := 16.
Definition CTR_MINLINE_MASK : Z := GENMASK 3 0.

Definition dline (ctr : Z) : Z := Z.shiftl 4 (Z.land (Z.shiftr ctr CTR_DMINLINE_SHIFT) CTR_MINLINE_MASK).
Definition iline (ctr : Z) : Z := Z.shiftl 4 (Z.land (Z.shiftr ctr CTR_IMINLINE_SHIFT) CTR_MINLINE_MASK).
Definition cacheline_size (ctr : Z) : Z := if dline ctr <? iline ctr then dline ctr else iline ctr.

Inductive cacheop := DcCvau (a : Z) | IcIvau (a : Z) | DsbIsh | CIsb.

(** for (a = base; a < base + PGSIZE; a += step); a line is at least 4 bytes. *)
Fixpoint line_loop (fuel : nat) (a e step : Z) : list Z :=
  match fuel with
  | O => []
  | S fuel => if a <? e then a :: line_loop fuel (u64 (a + step)) e step else []
  end.

Definition page_lines (ctr base : Z) : list Z := line_loop 1025 base (u64 (base + PGSIZE)) (cacheline_size ctr).

Definition icache_sync_page (ctr base : Z) : list cacheop :=
  map DcCvau (page_lines ctr base) ++ [DsbIsh] ++ map IcIvau (page_lines ctr base) ++ [DsbIsh; CIsb].

(** A line is a power of two. *)
Lemma line_pow c sh : exists k, 2 <= k <= 17 /\ Z.shiftl 4 (Z.land (Z.shiftr c sh) CTR_MINLINE_MASK) = 2 ^ k.
Proof.
  replace CTR_MINLINE_MASK with (Z.ones 4) by done. rewrite Z.land_ones by lia. pose proof (Z.mod_pos_bound (Z.shiftr c sh) (2 ^ 4) ltac:(lia)) as Hm.
  exists (2 + Z.shiftr c sh mod 2 ^ 4). split; [lia |]. rewrite Z.shiftl_mul_pow2, Z.pow_add_r by lia. done.
Qed.

Lemma line_loop_covers step : 0 < step -> forall fuel a e x, a <= x < e -> e - a <= step * Z.of_nat fuel -> e + step <= 2 ^ 64 -> 0 <= a ->
  exists k, 0 <= k /\ a + k * step ∈ line_loop fuel a e step /\ a + k * step <= x < a + k * step + step.
Proof.
  intros Hs fuel. induction fuel as [| fuel IH]; intros a e x Hx Hf He Ha; [lia |]. cbn [line_loop]. rewrite (proj2 (Z.ltb_lt a e)) by lia.
  destruct (Z.lt_ge_cases x (a + step)) as [H | H].
  - exists 0. split_and!; [lia | rewrite Z.add_0_r; left | lia | lia].
  - destruct (IH (a + step) e x) as (k & Hk & Hin & Hb); [lia | lia | lia | lia |]. exists (k + 1). rewrite u64_small by lia.
    replace (a + (k + 1) * step) with (a + step + k * step) by lia. split_and!; [lia | by right | lia | lia].
Qed.

(** Two addresses of one step-sized piece of a page are in one line of [2 ^ d] bytes. *)
Lemma same_line base a x s d : 2 <= s <= d -> base mod PGSIZE = 0 -> base <= a -> a <= x < base + PGSIZE -> x < a + 2 ^ s ->
  (exists k, a = base + k * 2 ^ s) -> a / 2 ^ d = x / 2 ^ d.
Proof.
  unfold PGSIZE. intros Hs Hb Hba Hx Hlt [k ->].
  assert (Hsd : 2 ^ d = 2 ^ s * 2 ^ (d - s)) by (rewrite <- Z.pow_add_r by lia; f_equal; lia). assert (H2s : 0 < 2 ^ s) by lia. assert (H2d : 0 < 2 ^ (d - s)) by lia.
  assert (Hq : (base + k * 2 ^ s) / 2 ^ s = x / 2 ^ s); [| by rewrite Hsd, <- !Zdiv_Zdiv, Hq by lia].
  destruct (Z.le_gt_cases s 12) as [H12 | H12].
  - assert (E12 : 4096 = 2 ^ s * 2 ^ (12 - s)) by (rewrite <- Z.pow_add_r by lia; by replace (s + (12 - s)) with 12 by lia).
    assert (Eb : exists j, base = j * 2 ^ s).
    { apply Z.mod_divide in Hb as [q ->]; [| lia]. exists (q * 2 ^ (12 - s)). rewrite E12. ring. }
    destruct Eb as [j ->].
    rewrite <- Z.mul_add_distr_r, Z.div_mul by lia. apply (Z.div_unique _ _ _ (x - (j + k) * 2 ^ s)); [left |]; lia.
  - assert (E12 : 2 ^ s = 4096 * 2 ^ (s - 12)) by (change 4096 with (2 ^ 12); rewrite <- Z.pow_add_r by lia; f_equal; lia). assert (0 < 2 ^ (s - 12)) by lia.
    assert (k = 0) as -> by nia. rewrite Z.mul_0_l, Z.add_0_r, E12, <- !Zdiv_Zdiv by lia. f_equal.
    apply Z.mod_divide in Hb as [q ->]; [| lia]. rewrite Z.div_mul by lia. apply (Z.div_unique _ _ _ (x - q * 4096)); [left |]; lia.
Qed.

Lemma line_loop_in fuel : forall a e step x, 0 <= a -> 0 < step -> e + step <= 2 ^ 64 -> x ∈ line_loop fuel a e step -> a <= x < e.
Proof.
  induction fuel as [| fuel IH]; intros a e step x Ha Hs He Hx; cbn [line_loop] in Hx; [by apply elem_of_nil in Hx |]. destruct (Z.ltb_spec a e); [| by apply elem_of_nil in Hx].
  apply elem_of_cons in Hx as [-> | Hx]; [lia |]. rewrite u64_small in Hx by lia. apply IH in Hx; lia.
Qed.

(** C35: icache_sync_page is the maintenance of the page, line by line: whatever the sizes of
    the data and instruction cache lines the CPU reports, the data lines it cleans are exactly
    the data lines with a byte of the page, the instruction lines it invalidates are exactly
    the instruction lines with a byte of the page, and all cleaning is complete before the
    first invalidation. *)
Theorem icache_sync_covers_page ctr base : 0 <= base -> base mod PGSIZE = 0 -> base + 0x21000 <= 2 ^ 64 ->
  exists l, icache_sync_page ctr base = map DcCvau l ++ [DsbIsh] ++ map IcIvau l ++ [DsbIsh; CIsb] /\
    (forall q, (exists a, a ∈ l /\ a / dline ctr = q) <-> (exists x, base <= x < base + PGSIZE /\ x / dline ctr = q)) /\
    (forall q, (exists a, a ∈ l /\ a / iline ctr = q) <-> (exists x, base <= x < base + PGSIZE /\ x / iline ctr = q)).
Proof.
  intros H0 Hb Hw. exists (page_lines ctr base). split; [done |].
  enough (Hin : (forall a, a ∈ page_lines ctr base -> base <= a < base + PGSIZE) /\
    forall x, base <= x < base + PGSIZE -> exists a, a ∈ page_lines ctr base /\ a / dline ctr = x / dline ctr /\ a / iline ctr = x / iline ctr).
  { destruct Hin as [Hin Hcov]. split; intros q; (split; [intros (a & Ha & <-); exists a; by split; [apply Hin |] |]).
    all: intros (x & Hx & <-); destruct (Hcov x Hx) as (a & Ha & ? & ?); by exists a. }
  unfold page_lines, cacheline_size.
  destruct (line_pow ctr CTR_DMINLINE_SHIFT) as (d & Hd & Ed). destruct (line_pow ctr CTR_IMINLINE_SHIFT) as (i & Hi & Ei). fold (dline ctr) in Ed. fold (iline ctr) in Ei. rewrite Ed, Ei.
  assert (Hs : exists s, 2 <= s <= d /\ s <= i /\ (if 2 ^ d <? 2 ^ i then 2 ^ d else 2 ^ i) = 2 ^ s).
  { destruct (Z.ltb_spec (2 ^ d) (2 ^ i)) as [H | H]; [apply Z.pow_lt_mono_r_iff in H; [exists d; lia | lia | lia] | apply Z.pow_le_mono_r_iff in H; [exists i; lia | lia | lia]]. }
  destruct Hs as (s & Hsd & Hsi & ->). unfold PGSIZE in *. rewrite (u64_small (base + 4096)) by lia.
  assert (H4 : 2 ^ 2 <= 2 ^ s) by (apply Z.pow_le_mono_r; lia). assert (H17 : 2 ^ s <= 2 ^ 17) by (apply Z.pow_le_mono_r; lia).
  split; [intros a; apply line_loop_in; lia |]. intros x Hx.
  destruct (line_loop_covers (2 ^ s) ltac:(lia) 1025 base (base + 4096) x) as (k & Hk & Hin & Hbx); [lia | lia | lia | lia |].
  exists (base + k * 2 ^ s). split; [exact Hin |].
  split; eapply (same_line base _ x s); unfold PGSIZE; try lia; try nia; by exists k.
Qed.

(** ** Witnesses *)

(** A Neoverse with 16-bit ASIDs, 48-bit addresses, PAN and MTE; lines of 64 and 32 bytes. *)
Definition demo_id : idregs := IdRegs 0x26 0x200001 0x300 0x81000003.

Lemma icache_sync_covers_page_witness : exists l, icache_sync_page 0x40003 0x80000 = map DcCvau l ++ [DsbIsh] ++ map IcIvau l ++ [DsbIsh; CIsb] /\ exists a, a ∈ l /\ a / 64 = 0x80fff / 64.
Proof.
  destruct (icache_sync_covers_page 0x40003 0x80000) as (l & E & H & _); [lia | reflexivity | lia |]. exists l. split; [exact E |].
  destruct (proj2 (H (0x80fff / 64))) as (a & Hin & Ed); [exists 0x80fff; unfold PGSIZE; split; [lia | reflexivity] |]. exists a. split; [exact Hin | exact Ed].
Defined.

Lemma kvminithart_programs_cpu_witness : exists tr, kvminithart (fun _ => 0) demo_id 0x40080000 [] = Ret tr /\
  view_tcr (reg_of (fun _ => 0) tr TCR) = TcrView 16 16 0 2 5 true true (true, true) /\ fld (reg_of (fun _ => 0) tr RGSR) 8 16 = 4.
Proof.
  destruct (proj2 (kvminithart_programs_cpu (fun _ => 0) demo_id 0x40080000) eq_refl) as (pre & post & sctlr' & E & _ & _ & _ & _ & _ & Ht & _ & _ & _ & _ & _ & _ & Hs & _).
  exists (pre ++ Msr SCTLR kvm_sctlr :: post). split; [exact E |]. split; [exact Ht | exact Hs].
Defined.
