(* ===== verification/Smp.v ===== *)
(** * Timer and secondary CPUs

    Models arch/timer.c and arch/smp.c. The firmware call, and how long a CPU takes to come
    online, are parameters; a wait is a loop over the looks it takes, as in Gic.v. *)

From S2P Require Import Prelude Mmu Physmem Dtb Intr.

(** ** timer.c *)

Definition TIMER_HZ : Z := 10.

(** The driver's variables, and CNTP_TVAL, CNTP_CTL and need_resched of each CPU. *)
Record timer := Timer { timer_interval : Z; timer_ticks : Z; tval : Z -> Z; tctl : Z -> Z; need_resched : Z -> bool }.

(** [freq] is CNTFRQ_EL0, [dtb_freq] the clock-frequency of the device tree; the registration
    of the interrupt is intr_register of Intr.v with the state [ist]. *)
Definition timer_init (st : timer) (ints : ist) (pl : platform) (freq dtb_freq : Z) (room : bool) : res (timer * ist) :=
  let freq := if freq =? 0 then dtb_freq else freq in
  if freq =? 0 then Panic "timer: CNTFRQ_EL0 unset and no DTB clock-frequency"
  else
    ints ← intr_register ints (timer_irq pl) "timer" false room 0;
    Ret (Timer (freq / TIMER_HZ) 0 (tval st) (tctl st) (need_resched st), ints).

Definition timer_inithart (st : timer) (c : Z) : timer :=
  Timer (timer_interval st) (timer_ticks st) ((tval st).[c <- timer_interval st]) ((tctl st).[c <- 1]) (need_resched st).

Definition timer_tick (st : timer) (c : Z) : timer * Z :=
  let st := Timer (timer_interval st) (timer_ticks st) ((tval st).[c <- timer_interval st]) (tctl st) (need_resched st) in
  let st := if c =? 0 then Timer (timer_interval st) (u64 (timer_ticks st + 1)) (tval st) (tctl st) (need_resched st) else st in
  (Timer (timer_interval st) (timer_ticks st) (tval st) (tctl st) ((need_resched st).[c <- true]), FILTER_HANDLED).

(** ** smp.c *)

Definition PSCI_CPU_ON : Z := 0xC4000003.
Definition SMP_ONLINE_SECS : Z := 5.
Definition SMP_ONLINE_SPINS : Z := 500000000.

(** The world of smp_init: what the firmware answers to a call, CNTFRQ, the counter at each
    look of the wait for a CPU (look 0 sets the deadline), and whether the CPU is online then. *)
Record smpenv := SmpEnv { psci : Z * Z * Z * Z -> Z; sfreq : Z; scnt : Z -> nat -> Z; son : Z -> nat -> bool }.

(** while (cpus[i].online == 0); what the flag is when it is looked at after the loop. *)
Fixpoint online_loop (fuel : nat) (w : smpenv) (i : Z) (k : nat) (spins deadline : Z) : option bool :=
  match fuel with
  | O => None
  | S fuel =>
      if son w i k then Some true
      else if negb (sfreq w =? 0) then
        if scnt w i (S k) >=? deadline then Some (son w i (S k)) else online_loop fuel w i (S k) spins deadline
      else if spins - 1 =? 0 then Some (son w i (S k))
      else online_loop fuel w i (S k) (spins - 1) deadline
  end.

Definition wait_online (fuel : nat) (w : smpenv) (i : Z) : option bool :=
  online_loop fuel w i 0 SMP_ONLINE_SPINS (if negb (sfreq w =? 0) then u64 (scnt w i 0 + u64 (sfreq w * SMP_ONLINE_SECS)) else 0).

(** The loop from CPU [i] on: the firmware calls it makes, and the CPUs online. *)
Fixpoint smp_loop (n fuel : nat) (w : smpenv) (cpu_mpidr : Z -> Z) (mpentry i ncpus online : Z) (calls : list (Z * Z * Z * Z)) : option (list (Z * Z * Z * Z) * Z) :=
  match n with
  | O => Some (calls, online)
  | S n =>
      if i <? ncpus then
        let call := (PSCI_CPU_ON, cpu_mpidr i, KVA_TO_PA mpentry, i) in
        let calls := calls ++ [call] in
        if negb (psci w call =? 0) then smp_loop n fuel w cpu_mpidr mpentry (i + 1) ncpus online calls
        else
          match wait_online fuel w i with
          | None => None
          | Some on => smp_loop n fuel w cpu_mpidr mpentry (i + 1) ncpus (if on then online + 1 else online) calls
          end
      else Some (calls, online)
  end.

Definition smp_init (fuel : nat) (w : smpenv) (cpu_mpidr : Z -> Z) (mpentry ncpus : Z) : option (list (Z * Z * Z * Z) * Z) :=
  smp_loop (Z.to_nat ncpus) fuel w cpu_mpidr mpentry 1 ncpus 1 [].

(** ** Ticks *)

(** Ticks on the CPUs of [l], in order. *)
Definition ticks (st : timer) (l : list Z) : timer := fold_left (fun st c => fst (timer_tick st c)) l st.

(** Each CPU reloads its own countdown and asks for its own reschedule; CPU 0 keeps time. *)
Lemma ticks_spec l : forall st, let st' := ticks st l in
  timer_interval st' = timer_interval st /\ tctl st' = tctl st /\
  timer_ticks st' mod 2 ^ 64 = (timer_ticks st + Z.of_nat (count_occ Z.eq_dec l 0)) mod 2 ^ 64 /\
  (forall c, tval st' c = if bool_decide (c ∈ l) then timer_interval st else tval st c) /\
  (forall c, need_resched st' c = bool_decide (c ∈ l) || need_resched st c).
Proof.
  induction l as [| c l IH]; intros st; cbn zeta.
  - split_and!; try done. cbn. f_equal. lia.
  - change (ticks st (c :: l)) with (ticks (fst (timer_tick st c)) l). set (st1 := fst (timer_tick st c)). destruct (IH st1) as (H1 & H2 & H3 & H4 & H5).
    assert (E : timer_interval st1 = timer_interval st /\ tctl st1 = tctl st /\ tval st1 = (tval st).[c <- timer_interval st] /\ need_resched st1 = (need_resched st).[c <- true] /\
                timer_ticks st1 = if c =? 0 then u64 (timer_ticks st + 1) else timer_ticks st) by (unfold st1, timer_tick; by destruct (c =? 0)).
    destruct E as (E1 & E2 & E3 & E4 & E5). rewrite H1, H2, E1, E2. split_and!; [done | done | | |].
    + rewrite H3, E5. cbn [count_occ]. destruct (Z.eq_dec c 0) as [-> | Hne]; [| by rewrite (proj2 (Z.eqb_neq c 0) Hne)]. cbn [Z.eqb]. unfold u64. change 18446744073709551616 with (2 ^ 64).
      rewrite Zplus_mod_idemp_l. f_equal. lia.
    + intros c'. rewrite H4, E1, E3. destruct (decide (c' = c)) as [-> | Hne].
      * rewrite upd_eq, (bool_decide_eq_true_2 (c ∈ c :: l)) by (by left). by case_bool_decide.
      * rewrite upd_ne by done. rewrite (bool_decide_ext (c' ∈ c :: l) (c' ∈ l)); [done | set_solver].
    + intros c'. rewrite H5, E4. destruct (decide (c' = c)) as [-> | Hne].
      * rewrite upd_eq, (bool_decide_eq_true_2 (c ∈ c :: l)) by (by left). by rewrite orb_true_r.
      * rewrite upd_ne by done. rewrite (bool_decide_ext (c' ∈ c :: l) (c' ∈ l)); [done | set_solver].
Qed.

(** ** Secondary CPUs *)

Definition deadline (w : smpenv) (i : Z) : Z := u64 (scnt w i 0 + u64 (sfreq w * SMP_ONLINE_SECS)).

(** The wait for CPU [i] is over within [fuel] looks. *)
Definition wait_ends (fuel : nat) (w : smpenv) (i : Z) : Prop :=
  if sfreq w =? 0 then SMP_ONLINE_SPINS <= Z.of_nat fuel
  else exists j, (j < fuel)%nat /\ (son w i j = true \/ deadline w i <= scnt w i (S j)).

Lemma online_loop_spec w i dl fuel : forall k spins,
  (sfreq w = 0 -> 0 < spins <= Z.of_nat fuel) -> (sfreq w <> 0 -> exists j, (k <= j < k + fuel)%nat /\ (son w i j = true \/ dl <= scnt w i (S j))) ->
  exists b, online_loop fuel w i k spins dl = Some b /\
    (if b then exists j, son w i j = true
     else if sfreq w =? 0 then forall j, (k <= j)%nat -> Z.of_nat (j - k) < spins -> son w i j = false
     else exists j, (k < j)%nat /\ dl <= scnt w i j /\ son w i j = false).
Proof.
  induction fuel as [| fuel IH]; intros k spins H0 H1; cbn [online_loop].
  { exfalso. destruct (decide (sfreq w = 0)) as [E | E]; [specialize (H0 E); lia | destruct (H1 E) as (? & ? & _); lia]. }
  destruct (son w i k) eqn:Ek; [exists true; split; [done | by exists k] |]. destruct (Z.eqb_spec (sfreq w) 0) as [E | E]; cbn [negb].
  - specialize (H0 E). destruct (Z.eqb_spec (spins - 1) 0) as [E1 | E1].
    + exists (son w i (S k)). split; [done |]. destruct (son w i (S k)) eqn:Es; [by exists (S k) |]. intros j Hj Hlt. by replace j with k by lia.
    + destruct (IH (S k) (spins - 1)) as (b & -> & Hb); [lia | done |]. exists b. split; [done |]. destruct b; [done |].
      intros j Hj Hlt. destruct (decide (j = k)) as [-> | ?]; [done | apply Hb; lia].
  - destruct (scnt w i (S k) >=? dl) eqn:Ec.
    + exists (son w i (S k)). split; [done |]. destruct (son w i (S k)) eqn:Es; [by exists (S k) |]. exists (S k). split_and!; [lia | lia | done].
    + destruct (H1 E) as (j & Hj & Hjr). destruct (IH (S k) spins) as (b & -> & Hb); [done | |].
      * intros _. exists j. split; [| done]. destruct (decide (j = k)) as [-> | ?]; [destruct Hjr; [congruence | lia] | lia].
      * exists b. split; [done |]. destruct b; [done |]. destruct Hb as (j' & ? & ?). exists j'. split; [lia | done].
Qed.

Lemma wait_online_spec fuel w i : wait_ends fuel w i -> exists b, wait_online fuel w i = Some b /\
  (if b then exists j, son w i j = true
   else if sfreq w =? 0 then forall j, Z.of_nat j < SMP_ONLINE_SPINS -> son w i j = false
   else exists j, (0 < j)%nat /\ deadline w i <= scnt w i j /\ son w i j = false).
Proof.
  unfold wait_ends, wait_online. intros H. destruct (Z.eqb_spec (sfreq w) 0) as [E | E]; cbn [negb].
  - destruct (online_loop_spec w i 0 fuel 0 SMP_ONLINE_SPINS) as (b & -> & Hb); [intros _; split; [done | exact H] | done |]. exists b. split; [done |].
    destruct b; [done |]. rewrite E in Hb. cbn in Hb. intros j Hj. apply Hb; [lia |]. by rewrite Nat.sub_0_r.
  - fold (deadline w i). destruct (online_loop_spec w i (deadline w i) fuel 0 SMP_ONLINE_SPINS) as (b & -> & Hb); [done | |].
    + intros _. destruct H as (j & Hj & ?). exists j. split; [lia | done].
    + exists b. split; [done |]. destruct b; [done |]. by rewrite (proj2 (Z.eqb_neq _ _) E) in Hb.
Qed.

(** The CPU the firmware started and that came online. *)
Definition came_up (fuel : nat) (w : smpenv) (call : Z * Z * Z * Z) : bool :=
  (psci w call =? 0) && match wait_online fuel w call.2 with Some b => b | None => false end.

Lemma smp_loop_spec fuel w mp me ncpus n : forall i online calls, (forall i, wait_ends fuel w i) -> 0 <= i -> ncpus - i <= Z.of_nat n ->
  let l := map (fun i => (PSCI_CPU_ON, mp i, KVA_TO_PA me, i)) (seqZ i (ncpus - i)) in
  smp_loop n fuel w mp me i ncpus online calls = Some (calls ++ l, online + Z.of_nat (length (List.filter (came_up fuel w) l))).
Proof.
  induction n as [| n IH]; intros i online calls Hw Hi Hn; cbn zeta; cbn [smp_loop].
  { rewrite seqZ_nil by lia. cbn. by rewrite app_nil_r, Z.add_0_r. }
  destruct (Z.ltb_spec i ncpus) as [H | H]; [| rewrite seqZ_nil by lia; cbn; by rewrite app_nil_r, Z.add_0_r].
  rewrite (seqZ_cons i) by lia. cbn [map List.filter]. replace (Z.pred (ncpus - i)) with (ncpus - (i + 1)) by lia. change (Z.succ i) with (i + 1).
  set (call := (PSCI_CPU_ON, mp i, KVA_TO_PA me, i)). unfold came_up at 1. change (call.2) with i.
  destruct (wait_online_spec fuel w i (Hw i)) as (b & -> & _). destruct (psci w call =? 0); cbn [negb andb].
  - rewrite IH by (done || lia). rewrite <- app_assoc. cbn [app]. f_equal. f_equal. destruct b; cbn [length]; lia.
  - rewrite IH by (done || lia). by rewrite <- app_assoc.
Qed.

(** C36: smp_init comes back, having asked the firmware once for every other CPU, in order,
    with its affinity, the physical address of mpentry and its number as context; the count
    it prints is one for the boot CPU and one for each CPU the firmware started and whose
    online flag was seen; and no CPU is given up on before five seconds have passed on the
    counter (or, without a timer, before SMP_ONLINE_SPINS looks found the flag clear). *)
Theorem smp_init_brings_up fuel w mp me ncpus : 1 <= ncpus -> (forall i, wait_ends fuel w i) ->
  let l := map (fun i => (PSCI_CPU_ON, mp i, KVA_TO_PA me, i)) (seqZ 1 (ncpus - 1)) in
  smp_init fuel w mp me ncpus = Some (l, 1 + Z.of_nat (length (List.filter (came_up fuel w) l))) /\
  (forall i, wait_online fuel w i = Some false ->
     if sfreq w =? 0 then forall j, Z.of_nat j < SMP_ONLINE_SPINS -> son w i j = false
     else exists j, (0 < j)%nat /\ u64 (scnt w i 0 + u64 (sfreq w * 5)) <= scnt w i j /\ son w i j = false) /\
  (forall i, wait_online fuel w i = Some true -> exists j, son w i j = true).
Proof.
  intros Hn Hw l. split_and!.
  - unfold smp_init. rewrite smp_loop_spec by (done || lia). done.
  - intros i E. destruct (wait_online_spec fuel w i (Hw i)) as (b & E' & Hb). rewrite E in E'. injection E' as <-. exact Hb.
  - intros i E. destruct (wait_online_spec fuel w i (Hw i)) as (b & E' & Hb). rewrite E in E'. injection E' as <-. exact Hb.
Qed.

(** Four CPUs: the firmware refuses the third, the fourth never comes up. *)
Definition demo_world : smpenv :=
  SmpEnv (fun call => if call.2 =? 2 then -4 else 0) 1000 (fun _ k => 1000 * Z.of_nat k) (fun i k => (i =? 1) && Nat.leb 2 k).

Lemma smp_init_brings_up_witness : exists l, smp_init 10 demo_world (fun i => i) (KERN_BASE + 0x40080000) 4 = Some (l, 2) /\ length l = 3%nat.
Proof.
  exists (map (fun i => (PSCI_CPU_ON, i, KVA_TO_PA (KERN_BASE + 0x40080000), i)) (seqZ 1 (4 - 1))). split; [| reflexivity].
  refine (proj1 (smp_init_brings_up 10 demo_world (fun i => i) (KERN_BASE + 0x40080000) 4 ltac:(lia) _)).
  intros i. exists 6%nat. split; [lia | right; vm_compute; discriminate].
Defined.
